(* ===== verification/_CoqProject ===== *)
-Q . S2P
Prelude.v
Wire.v
Header.v
Checksum.v
ZstdBits.v
ZstdFse.v
ZstdHuff.v
ZstdReader.v
ZstdEncode.v
ZstdSeqFacts.v
ZstdFacts.v
ZstdSafety.v
ZstdHuffSafety.v
ZstdWindow.v
ZstdDecodeSafety.v
ZstdLimits.v
Compress.v
CompressFacts.v
RecordBatch.v
RecordBatchFacts.v
ProduceCodec.v
FetchCodec.v
Kfake.v
KfakeFacts.v
EndToEnd.v
Assign.v
AssignFacts.v
Metadata.v
Partitioner.v
SeqState.v
Retry.v
Producer.v
ProducerFacts.v
ProducerDemo.v
OffsetCodec.v
GroupCodec.v
GroupEndToEnd.v
GoMonad.v
Consumer.v
ConsumerFacts.v
ConsumerDemo.v
ConsumerGroupFacts.v
Runner.v
TxnCodec.v
Transaction.v
TransactionFacts.v
TransactionDemo.v
ShareCodec.v
AdminCodec.v
DescribeCodec.v
AclCodec.v
ClusterCodec.v
DecoderSafety.v
AsyncProducer.v
Admin.v
AdminFacts.v
ShareConsumer.v
ShareFacts.v
ShareDemo.v
SchemaWire.v
Serde.v
SerdeFacts.v
RegistryFacts.v
Base64.v
FieldEncryption.v
Auth.v
AuthFacts.v
ApiVersions.v
Transport.v
ClusterPool.v
ClusterFacts.v
ClusterDemo.v
AdminCluster.v
AdminClusterFacts.v
AdminScram.v
AdminDemo.v
ClientConfig.v
Client.v
Metrics.v
Records.v
