(* ===== verification/Prelude.v ===== *)
(** GoKafka: a verification development for the Kafka client library.

    * The program

    The repository is a Kafka client written in Go without dependencies.  A
    producer ([producer.go]) partitions records, groups them by broker, numbers
    them ([internal/produce]), encodes them as record batches in Produce
    requests ([internal/protocol], over the byte cursor of [internal/wire] and
    the codecs of [internal/compress]) and sends them over size-prefixed frames
    ([internal/transport], [internal/broker]), retrying what failed.  A
    transaction ([transaction.go]) is a producer session that registers its
    partitions with a coordinator and ends with a commit or an abort; the
    buffered and asynchronous producers ([batch_producer.go],
    [async_producer.go]) collect records in front of a producer.  A consumer
    ([consumer.go]) joins a group, follows the assignment that the group's
    leader computed, fetches and decodes batches, tracks its positions and
    commits them; [consumer_runner.go] runs a handler on what it polls.
    A share consumer ([share_consumer.go]) reads a partition together with others
    and acknowledges single records; the administrative client ([admin*.go])
    creates, alters and describes topics, configurations, groups, offsets,
    access rules, quotas, SCRAM users, delegation tokens, reassignments, log
    directories and transactions.  A client is built from options
    ([config.go], [options.go], [client.go]) and reports what it did to
    [observe].
    Requests travel over a pool of connections ([internal/broker]), each
    authenticated when it is opened ([internal/auth]) and used by one request
    at a time ([internal/transport]).  Next to the broker protocol there is a
    client of a schema registry with its serialisers, an Avro codec and the
    encryption of single fields ([schema], [internal/avro]).
    [kfake] is an in-process broker that speaks the same protocol
    and is what the repository's users test against.

    * The files

    - [Prelude]: Go's values (bytes, strings as bytes, fixed-width integers with
      their wrap-around), the outcome type [res] (a result, an error or a panic),
      the tactics and the lemmas on lists and integers all files share.
    - [Wire]: [internal/wire/buffer.go], [uuid.go].  Reads are functions of the
      monad [Rd], writes return the appended bytes; [Safe], [Reads] and the
      class-like combinators on them are how the codecs' theorems are proved.
    - [Header]: [internal/protocol/{keys,versions,flex,header,api_versions}.go],
      the framing of [internal/transport/conn.go], the negotiated versions of
      [internal/broker/cluster.go].
    - [Checksum]: CRC-32 (Castagnoli, IEEE) as Go's library defines it.
    - [ZstdBits], [ZstdFse], [ZstdHuff], [ZstdReader], [ZstdEncode]: the package
      [internal/compress/zstd], its bit readers and its bit writer, the FSE
      tables of both sides, Huffman tables and literals, the decoder (window,
      checksum, sequences, blocks, frames) and the encoder.  [ZstdSeqFacts] and
      [ZstdFacts] are the round trip, [ZstdSafety], [ZstdHuffSafety],
      [ZstdWindow] and [ZstdDecodeSafety] the decoder on arbitrary bytes,
      [ZstdLimits] what the encoder cannot encode.
    - [Compress], [CompressFacts]: [internal/compress/{codec,snappy,lz4,gzip,zstd}.go].
      The gzip writer and reader of Go's library are operations of the class
      [Codecs]; their laws, where a theorem needs them, are the class [CodecLaws].
    - [RecordBatch], [RecordBatchFacts]: the record-batch encoder of
      [internal/protocol/produce.go] and the decoder of [fetch.go].
    - [ProduceCodec], [FetchCodec]: the Produce and Fetch requests and responses,
      flexible and legacy.
    - [Kfake], [KfakeFacts]: [kfake/*.go], the store, every handler, the dispatch
      and the treatment of one frame ([serve_one]).
    - [EndToEnd]: the client's requests through the broker's code and back.
    - [Assign], [AssignFacts]: [internal/protocol/{group_assign,assignment}.go].
    - [Metadata]: [internal/protocol/metadata.go] and the caches of
      [internal/broker/cluster.go].
    - [Partitioner]: [partitioner.go].
    - [SeqState]: [internal/produce/state.go] and the reserve / acknowledge / roll
      back protocol run on it, as a transition system.
    - [Retry]: [errors.go], [internal/retry/retry.go], the retry loops of
      [producer.go].
    - [Producer], [ProducerFacts], [ProducerDemo]: [producer.go].  The cluster is
      the class [ClusterEnv], the user's partitioner the class [PartitionerOps];
      [ProducerDemo] has two instances, a scripted cluster and [kfake] itself.
      [Producer] also has [TracedEnv], a cluster that remembers its requests, on
      which the theorems about what is sent, to whom and in which order are
      stated; [recorded] makes one of every cluster.
    - [OffsetCodec], [GroupCodec], [TxnCodec]: the offset, group, coordinator and
      transaction messages of [internal/protocol].  [GroupEndToEnd] runs them
      through the broker's handlers; [DecoderSafety] is about malformed answers.
    - [GoMonad]: the state and error monad in which the methods of the consumer
      and of the transaction are written, with its rules.
    - [Consumer], [ConsumerFacts], [ConsumerGroupFacts], [ConsumerDemo]:
      [consumer.go], [consumer_pause.go], [consumer_rebalance.go], [offset.go]
      and the heartbeats of [consumer_runner.go].  The cluster is [ClusterEnv],
      the clock and the random member ids [ConsumerEnv], and the rebalance
      listener is user code that may change the consumer.
    - [Runner]: the handler goroutines of [consumer_runner.go] as a transition
      system.
    - [Transaction], [TransactionFacts], [TransactionDemo]: [transaction.go].  The
      cluster's feature levels are the class [FeatureEnv]; what a coordinator
      does with a registration is the class [CoordinatorLaws].
    - [ShareCodec], [AdminCodec], [DescribeCodec]: the share-group messages
      ([internal/protocol/share_*.go]) and the administrative ones of
      [internal/protocol/admin_mutate.go] and [admin.go].
    - [ShareConsumer], [ShareFacts], [ShareDemo]: [share_consumer.go], over the
      same classes as the consumer.
    - [Admin], [AdminFacts], [AdminDemo]: [admin.go], [admin_mutate.go],
      [admin_offsets.go] and [admin_lag.go].
    - [AclCodec], [ClusterCodec]: the messages for ACLs, SCRAM users and
      delegation tokens, and those for record deletion, elections,
      reassignments, quotas, log directories, transactions and the cluster.
    - [AdminCluster], [AdminClusterFacts], [AdminScram] (and [AdminDemo]): the
      methods that send them ([admin_acl.go], [admin_cluster.go],
      [admin_delegation.go], [admin_quotas.go], [admin_reassign.go],
      [admin_records.go], [admin_scram_logdirs.go], [admin_transactions.go]).
    - [ClientConfig], [Client], [Metrics], [Records]: the configuration with its
      options and checks, the lifecycle of a client, the counters of
      [observe/metrics.go] with their updates as interleaved steps, and the
      helpers on records (headers, the dispatch of [internal/produce/send.go]).
    - [AsyncProducer]: [batch_producer.go] as operations on the pending records,
      [async_producer.go] as a transition system over its channels.
    - [SchemaWire]: [internal/schema/wire/confluent.go] and the record codec of
      [internal/avro/codec.go], with the conversions of floats as the class
      [FloatConv].
    - [Serde], [SerdeFacts], [RegistryFacts]: [schema/registry.go], [serde.go] and
      [mock.go].  A serialiser works against the class [SchemaClient], which the
      HTTP client and the in-memory registry both implement; the exchange of one
      HTTP request is an operation of the environment.
    - [Base64], [FieldEncryption]: [schema/encryption.go] with the encoding of
      Go's library, the cipher and the key service as classes.
    - [Auth], [AuthFacts]: [internal/auth/{auth,scram,gssapi,credentials}.go]; the
      other end of the connection is the class [Requester].
    - [ApiVersions]: the bodies of [internal/protocol/api_versions.go] and
      [internal/limits/limits.go].
    - [Transport]: [internal/transport/conn.go], connections as a heap of records
      over the class [NetEnv] (dial, write, read, clock).
    - [ClusterPool], [ClusterFacts], [ClusterDemo]: [internal/broker/cluster.go].
      The pool is an instance of [ClusterEnv], so that the producer's theorems
      hold over it; [ClusterDemo] runs both over the frames of [kfake].

    * How Go is modelled

    Errors are values ([Err e]) and panics are another outcome ([Panic]), so
    that "never panics" is a theorem and not a convention.  Integers are [Z]
    with [s8], [s16], [s32], [s64] (signed) and [u8] to [u64] (unsigned) written
    where the code converts.
    Slices and strings are lists of bytes; an index or slice expression out of
    range panics.  Ranging over a Go map takes the order of the class
    [MapOrder], any permutation of the map's entries, so a theorem over it holds
    for every iteration order.  A handler of the broker threads its state and
    its cursor together: an error half way keeps the changes made before it.
    A mutex that is locked by the goroutine that holds it blocks for ever, which
    is the outcome [Panic] too.  Clock readings are arguments.  Goroutines of one send touch disjoint
    results, so the model runs them in an arbitrary order; each method of the
    sequence state holds its mutex and is one atomic step.

    * What is proved

    - Produce and fetch: what the client frames and sends the broker stores, and
      what it fetches later, in frames too, is what was produced, in order
      ([EndToEnd]); batches with explicit timestamps and sizes within the varint
      range decode to the records that were encoded, for every codec with a
      round-trip law ([RecordBatchFacts]); the read-committed filter meets its
      specification.
    - Robustness: the decoders of responses, batches, records, frames and
      compressed blocks return on every input without a panic, and on any bytes
      the broker answers or closes the connection but for two handlers, whose
      panics are exhibited.
    - Zstandard: what the encoder can encode decodes to the input; the decoder
      returns on every input, its reader stays well formed, and its circular
      window implements the last bytes of the output; the literals, extra bits
      and block counts that the encoder gets wrong are exhibited.
    - The broker's log: base offsets stay consecutive whatever is sent.
    - The producer: partitions succeed or fail as a whole, acknowledged records
      are never sent again, success means that for every record a broker was
      sent it and answered with code 0 and the offset that is reported, the
      retry loop ends within its bound with its last result or the context's
      error; sequence numbers are contiguous as long as a partition has one send
      in flight and has not wrapped, and executions show how they are reused
      when it has two and turn negative when it has.
    - Group assignment: every assignor gives each partition to exactly one
      subscribed member and is balanced; assignments survive encoding.
    - The consumer: positions advance without a gap over what a poll returned,
      the aggregation of the fetches equals its reference definition, committed
      offsets are loaded for every assigned partition, the cooperative assignment
      is the one the group decided; what a group commits is what it fetches
      later, and a handler's failure is never committed by the sequential runner.
    - Transactions: every partition that is written to was registered first
      (without TV2), and a transaction is closed if and only if an EndTxn that
      says its ids and outcome was answered with code 0.
    - Share groups: the requests of an acknowledgement, read back from their
      bytes, name exactly the offsets it is for, to the brokers that lead them, in
      the fewest ranges; a poll joins, acknowledges what it owes, then fetches,
      and owes what it delivers; a fetch answer decodes to the records and
      delivery counts it carries.
    - Administration: the lag of a group is exact and does not overflow, broker
      configurations are asked of the broker they belong to; the requests of a
      record deletion, read back from their bytes, tell exactly the leaders of
      the partitions; a broker that fails hides no other broker's log directories
      or transactions; the credential that the admin client sends for a SCRAM
      user is that of RFC 5802, and the user logs in with it.
    - The client: what passes [NewConfig] satisfies every rule the parts rely on,
      what a closed client sends (nothing), and what no option can set.
    - Connections and the cluster: whatever the pool is asked for, every
      connection it made goes to an allowed seed or to the address of an allowed
      host, and the one pooled for a node is to that node's address; a
      request is written once unless nothing of the first was sent; a refresh
      replaces the metadata and both indexes or nothing.
    - Authentication: SCRAM against a server that follows the standard
      authenticates the configured user, attributes and names are escaped and
      parsed back.  What the client does not check is exhibited: the error code
      of a refusal, the server's signature.
    - Schemas: the wire formats and the Avro codec round trip, a record goes
      through any registry that keeps its promises and comes back, the in-memory
      registry refines the list of what was registered, a subject stays in its
      path segment, and encrypted fields decrypt to the record whatever calls
      failed in between.
    - The buffered producers: records are conserved between a send and its
      report, and what a flush from the linger timer loses is exhibited.
    - Where the code does not do what it means to, a theorem exhibits the run:
      a batch larger than a poll, a refused join, a cooperative rebalance that
      skips records, a failed offset lookup that leaks a registration, a stale
      leader inside a transaction, a close that races with a send, a share
      consumer that is handed another member's records or loses its leader, an
      error of a configuration query that cannot be decoded.
    - Versions, leaders, partitioners: negotiation, the leader index, ranges and
      coverage of the partitioners.
    Theorems whose hypotheses name the environment (codec laws, brokers that
    answer for the partitions they were sent) have witnesses with concrete
    instances.

    * Fuel

    The loops of the decoders and of the compressors take the number of bytes
    left as fuel (each round consumes a byte or ends) and those over a decoded
    count are structural in the count.  A decoder loop that is out of fuel is
    [Panic], so the theorems that a decoder never panics also say that its fuel
    is enough on every input.  The retry loops take the number of attempts that
    is configured.  The share consumer's [Poll] repeats rounds until its deadline
    and its heartbeat rejoins while it is fenced.  Three loops of the consumer
    have no bound in the code: the JoinGroup that is repeated while the broker
    answers MEMBER_ID_REQUIRED, the heartbeat that rejoins when it is fenced, and
    the [Poll] that calls itself after a rebalance.  Each of these takes fuel that
    counts such rounds, and out of fuel is the outcome [Diverged], which no
    theorem counts as a result.

    * What is not modelled

    The network itself: dialling, TLS, deadlines and reads are the class
    [NetEnv], with any behaviour.  HTTP, JSON, the conversions of floats, hashes,
    HMAC, the cipher and the random generator are classes, and DEFLATE is a
    parameter.  The cluster's own mutex (each of its methods is one step), the
    goroutine that sends heartbeats (modelled by the heartbeat, not by its timer),
    logging and tracing, the recycling of buffers ([internal/bufpool]), the
    encoders of typed payloads ([datatype.go]) and the functions that only
    print an enumeration. *)

From Stdlib Require Import ZArith Lia.
From Stdlib Require Import Strings.Byte.
From stdpp Require Import base list gmap countable strings.

Open Scope Z_scope.

(** * Go values *)

(** A Go [byte], and a Go [string] or [[]byte]: Go strings are byte
    sequences, so both are lists of bytes. *)
Abbreviation byte := Byte.byte.

Abbreviation bytes := (list byte).

#[export] Instance byte_eq_decision : EqDecision byte.
Proof. intros x y. destruct (Byte.byte_eq_dec x y); [by left | by right]. Defined.

#[export] Program Instance byte_countable : Countable byte :=
  inj_countable Byte.to_N Byte.of_N _.
Next Obligation. intros x. apply Byte.of_to_N. Qed.

#[export] Instance byte_inhabited : Inhabited byte := populate Byte.x00.

(** A Go string literal. *)
Definition str (s : string) : bytes := String.list_byte_of_string s.

(** [len] is Go's [len], an [int]. *)
Definition len {A} (l : list A) : Z := Z.of_nat (length l).

(** Conversions between a byte and its value; [byte(z)] keeps the low 8 bits. *)
Definition b2z (b : byte) : Z := Z.of_N (Byte.to_N b).

Definition z2b (z : Z) : byte :=
  match Byte.of_N (Z.to_N (z mod 256)) with
  | Some b => b
  | None => Byte.x00
  end.

(** Fixed-width integers: [uN] is the unsigned and [sN] the two's complement
    conversion to N bits. *)
Definition u8 (z : Z) : Z := z mod 2 ^ 8.
Definition u16 (z : Z) : Z := z mod 2 ^ 16.
Definition u32 (z : Z) : Z := z mod 2 ^ 32.
Definition u64 (z : Z) : Z := z mod 2 ^ 64.
Definition sgn (k z : Z) : Z := (z + 2 ^ (k - 1)) mod 2 ^ k - 2 ^ (k - 1).
Definition s8 (z : Z) : Z := sgn 8 z.
Definition s16 (z : Z) : Z := sgn 16 z.
Definition s32 (z : Z) : Z := sgn 32 z.
Definition s64 (z : Z) : Z := sgn 64 z.

(** The values of the signed Go types. *)
Definition int8 (z : Z) : Prop := - 2 ^ 7 <= z < 2 ^ 7.
Definition int16 (z : Z) : Prop := - 2 ^ 15 <= z < 2 ^ 15.
Definition int32 (z : Z) : Prop := - 2 ^ 31 <= z < 2 ^ 31.
Definition int64 (z : Z) : Prop := - 2 ^ 63 <= z < 2 ^ 63.

(** [binary.BigEndian.PutUint*] and [binary.BigEndian.Uint*]. *)
Fixpoint be_bytes (n : nat) (z : Z) : bytes :=
  match n with
  | O => []
  | S m => be_bytes m (z / 256) ++ [z2b z]
  end.

Definition be_value (bs : bytes) : Z :=
  fold_left (fun acc b => acc * 256 + b2z b) bs 0.

(** ** Results of fallible code *)

(** The errors the modelled code returns. [FmtError m z] is an error built by
    [fmt.Errorf] or [errors.New] whose text is not an error the code tests
    for; [z] is the number it prints (0 when it prints none).  [NetError] is a
    transport failure ([io.EOF], [net.ErrClosed] or a [net.Error]),
    [ErrNotSent] one that kept a request from being written,
    [ErrContext] the error of a done context. *)
Inductive error : Type :=
| ErrShortBuffer
| ErrUvarintOverflow
| ErrUnknownTopic
| ErrRebalanceInProgress
| ErrLeaderEpochChanged
| ErrUnknownTopicID
| ErrMemberIDRequired
| APIError (op : string) (code : Z)
| KafkaError (code : Z) (topic : list Byte.byte) (part : Z)
| NetError
| ErrNotSent
| ErrContext
| FmtError (msg : string) (z : Z).

#[export] Instance error_eq_decision : EqDecision error.
Proof. solve_decision. Defined.

(** A Go call returns a value, returns a non-nil error, or panics. *)
Inductive res (A : Type) : Type :=
| Ok (a : A)
| Err (e : error)
| Panic.
Arguments Ok {A} a.
Arguments Err {A} e.
Arguments Panic {A}.

Definition res_bind {A B} (m : res A) (f : A -> res B) : res B :=
  match m with
  | Ok a => f a
  | Err e => Err e
  | Panic => Panic
  end.

Lemma Ok_inj {A} (a b : A) : Ok a = Ok b -> a = b.
Proof. congruence. Qed.

Definition res_map {A B} (f : A -> B) (m : res A) : res B :=
  res_bind m (fun a => Ok (f a)).

Declare Scope go_scope.
Delimit Scope go_scope with go.
Notation "'let?' x ':=' m 'in' k" := (res_bind m (fun x => k))
  (at level 10, x pattern, m at level 100, k at level 200) : go_scope.
Open Scope go_scope.

(** The slice expression [bs[i:j]], which panics outside [0 <= i <= j <= len]. *)
Definition slice {A} (l : list A) (i j : Z) : res (list A) :=
  if (0 <=? i) && (i <=? j) && (j <=? len l)
  then Ok (take (Z.to_nat (j - i)) (drop (Z.to_nat i) l))
  else Panic.

(** The index expression [l[i]]. *)
Definition index {A} (l : list A) (i : Z) : res A :=
  if 0 <=? i then
    match l !! Z.to_nat i with Some x => Ok x | None => Panic end
  else Panic.

(** The partner of an element of two related lists. *)
Lemma elem_of_Forall2_l {A B} (R : A -> B -> Prop) l1 l2 x : Forall2 R l1 l2 -> x ∈ l1 -> exists y, y ∈ l2 /\ R x y.
Proof.
  intros Hf (i & Hi)%list_elem_of_lookup. destruct (Forall2_lookup_l _ _ _ _ _ Hf Hi) as (y & Hy & ?).
  exists y. split; [by eapply list_elem_of_lookup_2|done].
Qed.

Lemma elem_of_Forall2_r {A B} (R : A -> B -> Prop) l1 l2 y : Forall2 R l1 l2 -> y ∈ l2 -> exists x, x ∈ l1 /\ R x y.
Proof. intros Hf Hy. apply Forall2_flip in Hf. by destruct (elem_of_Forall2_l _ _ _ _ Hf Hy) as (x & ? & ?); exists x. Qed.

(** Ranging over a Go map visits its entries in no fixed order: the code's
    theorems hold for every order. *)
Class MapOrder := {
  range {K V} `{Countable K} : gmap K V -> list (K * V);
  range_perm {K V} `{Countable K} (m : gmap K V) : range m ≡ₚ map_to_list m;
}.

#[export] Program Instance map_to_list_order : MapOrder := {| range K V _ _ m := map_to_list m |}.
Next Obligation. done. Qed.

Lemma elem_of_range `{MapOrder} {K V} `{Countable K} (m : gmap K V) k v : (k, v) ∈ range m <-> m !! k = Some v.
Proof. by rewrite range_perm, elem_of_map_to_list. Qed.

Lemma range_keys_nodup `{MapOrder} {K V} `{Countable K} (m : gmap K V) : NoDup (map fst (range m)).
Proof. change (NoDup ((range m).*1)). rewrite (range_perm m). apply NoDup_fst_map_to_list. Qed.

Lemma length_range `{MapOrder} {K V} `{Countable K} (m : gmap K V) : length (range m) = size m.
Proof. by rewrite range_perm, length_map_to_list. Qed.

(** Go's [<] on strings: bytewise, a proper prefix first. *)
Fixpoint str_ltb (s t : bytes) : bool :=
  match s, t with
  | [], [] => false
  | [], _ :: _ => true
  | _ :: _, [] => false
  | a :: s, b :: t => (b2z a <? b2z b) || ((b2z a =? b2z b) && str_ltb s t)
  end.

(** * Tactics *)

(** Case analysis on the first [if] or [match] scrutinee of the goal. *)
Ltac case_goal :=
  match goal with
  | |- context [match ?x with _ => _ end] =>
      lazymatch x with
      | context [match _ with _ => _ end] => fail
      | _ => destruct x eqn:?
      end
  end.

(** Turn boolean integer comparisons in the context into propositions. *)
Ltac zbool :=
  repeat match goal with
  | H : _ && _ = true |- _ => apply andb_prop in H; destruct H
  | H : _ && _ = false |- _ => apply andb_false_iff in H
  | H : _ || _ = true |- _ => apply orb_prop in H
  | H : _ || _ = false |- _ => apply orb_false_elim in H; destruct H
  | H : negb _ = true |- _ => apply negb_true_iff in H
  | H : negb _ = false |- _ => apply negb_false_iff in H
  | H : (_ <=? _) = true |- _ => apply Z.leb_le in H
  | H : (_ <=? _) = false |- _ => apply Z.leb_gt in H
  | H : (_ <? _) = true |- _ => apply Z.ltb_lt in H
  | H : (_ <? _) = false |- _ => apply Z.ltb_ge in H
  | H : (_ >=? _) = _ |- _ => rewrite Z.geb_leb in H
  | H : (_ >? _) = _ |- _ => rewrite Z.gtb_ltb in H
  | H : (_ =? _) = true |- _ => apply Z.eqb_eq in H
  | H : (_ =? _) = false |- _ => apply Z.eqb_neq in H
  end.

(** * Lemmas on integers and bytes *)

(** [wire]: safety of readers; [reads]: what readers return on written fields. *)
Create HintDb wire.
Create HintDb reads.

Lemma b2z_range b : 0 <= b2z b < 256.
Proof. unfold b2z. pose proof (Byte.to_N_bounded b). lia. Qed.

Lemma b2z_z2b z : b2z (z2b z) = z mod 256.
Proof.
  unfold b2z, z2b. pose proof (Z.mod_pos_bound z 256 ltac:(lia)) as Hm.
  destruct (Byte.of_N _) eqn:E.
  - apply Byte.to_of_N in E. rewrite E. lia.
  - apply Byte.of_N_None_iff in E. lia.
Qed.

Lemma z2b_b2z b : z2b (b2z b) = b.
Proof.
  unfold z2b. rewrite Z.mod_small by apply b2z_range.
  unfold b2z. by rewrite N2Z.id, Byte.of_to_N.
Qed.

Lemma z2b_mod z : z2b (z mod 256) = z2b z.
Proof. unfold z2b. by rewrite Z.mod_mod by lia. Qed.

Lemma len_nonneg {A} (l : list A) : 0 <= len l.
Proof. unfold len. lia. Qed.

Lemma len_nil {A} : len (@nil A) = 0.
Proof. done. Qed.

Lemma len_cons {A} (x : A) l : len (x :: l) = 1 + len l.
Proof. unfold len. simpl. lia. Qed.

Lemma len_app {A} (l k : list A) : len (l ++ k) = len l + len k.
Proof. unfold len. rewrite length_app. lia. Qed.

Lemma len_map {A B} (f : A -> B) l : len (map f l) = len l.
Proof. unfold len. by rewrite length_map. Qed.

Lemma len_zero {A} (l : list A) : len l = 0 -> l = [].
Proof. unfold len. destruct l; simpl; [done | lia]. Qed.

Lemma sgn_id k z : 0 < k -> - 2 ^ (k - 1) <= z < 2 ^ (k - 1) -> sgn k z = z.
Proof.
  intros Hk Hz. unfold sgn.
  assert (2 ^ k = 2 * 2 ^ (k - 1)) as E.
  { rewrite <- Z.pow_succ_r by lia. f_equal. lia. }
  rewrite Z.mod_small by lia. lia.
Qed.

Lemma sgn_range k z : 0 < k -> - 2 ^ (k - 1) <= sgn k z < 2 ^ (k - 1).
Proof.
  intros Hk. unfold sgn.
  assert (2 ^ k = 2 * 2 ^ (k - 1)) as E.
  { rewrite <- Z.pow_succ_r by lia. f_equal. lia. }
  pose proof (Z.mod_pos_bound (z + 2 ^ (k - 1)) (2 ^ k) ltac:(lia)). lia.
Qed.

(** A conversion sees only the low bits. *)
Lemma sgn_mod k z : 0 < k -> sgn k (z mod 2 ^ k) = sgn k z.
Proof. intros Hk. unfold sgn. by rewrite Zplus_mod_idemp_l. Qed.

(** An intermediate conversion changes nothing. *)
Lemma sgn_add_idemp k a b : sgn k (a + sgn k b) = sgn k (a + b).
Proof.
  unfold sgn. f_equal. set (h := 2 ^ (k - 1)).
  replace (a + ((b + h) mod 2 ^ k - h) + h) with (a + (b + h) mod 2 ^ k) by lia.
  rewrite Zplus_mod_idemp_r. f_equal. lia.
Qed.

Lemma s8_id z : int8 z -> s8 z = z.
Proof. intros. by apply sgn_id. Qed.
Lemma s16_id z : int16 z -> s16 z = z.
Proof. intros. by apply sgn_id. Qed.
Lemma s32_int32 z : int32 (s32 z).
Proof. unfold s32, sgn, int32. pose proof (Z.mod_pos_bound (z + 2 ^ (32 - 1)) (2 ^ 32) ltac:(lia)). lia. Qed.
Lemma s32_id z : int32 z -> s32 z = z.
Proof. intros. by apply sgn_id. Qed.
Lemma s64_id z : int64 z -> s64 z = z.
Proof. intros. by apply sgn_id. Qed.

Lemma length_be_bytes n z : length (be_bytes n z) = n.
Proof. revert z. induction n; intros; simpl; [done|]. rewrite length_app, IHn. simpl. lia. Qed.

Lemma len_be_bytes n z : len (be_bytes n z) = Z.of_nat n.
Proof. unfold len. by rewrite length_be_bytes. Qed.

Lemma be_value_snoc bs b : be_value (bs ++ [b]) = be_value bs * 256 + b2z b.
Proof. unfold be_value. by rewrite fold_left_app. Qed.

(** Writing then reading [n] big-endian bytes keeps the low [8n] bits. *)
Lemma be_value_be_bytes n z : be_value (be_bytes n z) = z mod 2 ^ (8 * Z.of_nat n).
Proof.
  revert z. induction n as [|n IH]; intros z.
  - simpl. by rewrite Z.mod_1_r.
  - cbn [be_bytes]. rewrite be_value_snoc, IH, b2z_z2b.
    replace (2 ^ (8 * Z.of_nat (S n))) with (256 * 2 ^ (8 * Z.of_nat n)).
    2:{ rewrite Nat2Z.inj_succ. change 256 with (2 ^ 8).
        rewrite <- Z.pow_add_r by lia. f_equal. lia. }
    rewrite Z.rem_mul_r by lia. lia.
Qed.

Lemma be_value_bound bs : 0 <= be_value bs < 2 ^ (8 * len bs).
Proof.
  induction bs as [|b bs IH] using rev_ind; [done|].
  rewrite be_value_snoc, len_app. pose proof (b2z_range b).
  replace (8 * (len bs + len [b])) with (8 * len bs + 8) by (unfold len; simpl; lia).
  rewrite Z.pow_add_r by (pose proof (len_nonneg bs); lia). lia.
Qed.

(** Reading then writing gives the bytes back. *)
Lemma be_bytes_be_value bs : be_bytes (length bs) (be_value bs) = bs.
Proof.
  induction bs as [|b bs IH] using rev_ind; [done|].
  rewrite length_app, be_value_snoc, Nat.add_comm. cbn [length Nat.add be_bytes].
  rewrite Z.div_add_l by lia. rewrite Z.div_small by apply b2z_range.
  rewrite Z.add_0_r, IH. f_equal. f_equal.
  rewrite <- z2b_mod, Z.add_comm, Z_mod_plus_full, z2b_mod. apply z2b_b2z.
Qed.

(** Bit-packing of disjoint fields is addition. *)
Lemma land_shiftl_disjoint a b s :
  0 <= s -> 0 <= a < 2 ^ s -> Z.land a (Z.shiftl b s) = 0.
Proof.
  intros Hs Ha. apply Z.bits_inj'. intros n Hn.
  rewrite Z.land_spec, Z.bits_0.
  destruct (Z.ltb_spec n s).
  - rewrite Z.shiftl_spec_low by lia. apply andb_false_r.
  - rewrite <- (Z.mod_small a (2 ^ s)) by lia.
    by rewrite Z.mod_pow2_bits_high by lia.
Qed.

Lemma lor_shiftl_add a b s :
  0 <= s -> 0 <= a < 2 ^ s -> Z.lor a (Z.shiftl b s) = a + b * 2 ^ s.
Proof.
  intros Hs Ha. rewrite <- Z.shiftl_mul_pow2 by lia.
  pose proof (Z.add_lor_land a (Z.shiftl b s)) as H.
  rewrite land_shiftl_disjoint in H by lia. lia.
Qed.

(** * Slices *)

Lemma slice_ok {A} (l : list A) i j :
  0 <= i <= j -> j <= len l ->
  slice l i j = Ok (take (Z.to_nat (j - i)) (drop (Z.to_nat i) l)).
Proof.
  intros Hi Hj. unfold slice.
  destruct (Z.leb_spec 0 i), (Z.leb_spec i j), (Z.leb_spec j (len l)); lia || done.
Qed.

Lemma slice_app {A} (pre mid post : list A) :
  slice (pre ++ mid ++ post) (len pre) (len pre + len mid) = Ok mid.
Proof.
  rewrite slice_ok.
  - f_equal. unfold len. rewrite Z.add_simpl_l, !Nat2Z.id.
    rewrite drop_app_length. apply take_app_length.
  - pose proof (len_nonneg pre). pose proof (len_nonneg mid). lia.
  - rewrite !len_app. pose proof (len_nonneg post). lia.
Qed.

Lemma slice_len {A} (l s : list A) i j : slice l i j = Ok s -> len s = j - i.
Proof.
  unfold slice. case_goal; [|done]. intros [= <-]. zbool.
  unfold len in *. rewrite length_take, length_drop. lia.
Qed.

Lemma slice_panic {A} (l : list A) i j :
  slice l i j = Panic <-> ~ (0 <= i <= j /\ j <= len l).
Proof.
  unfold slice. destruct (Z.leb_spec 0 i), (Z.leb_spec i j), (Z.leb_spec j (len l));
    simpl; split; intros; try done; lia.
Qed.
