(* ===== verification/Wire.v ===== *)
(** The wire buffer: [internal/wire/buffer.go] and [internal/wire/uuid.go].

    A [Buffer] being read is the pair of its bytes and its cursor; a read
    operation is a function of the reader monad [Rd], which threads the buffer
    and returns a value, an error or a panic, as the Go method does.  A buffer
    being written is only appended to, so a write operation is modelled by
    what it appends ([Enc]: the bytes, or a panic).

    [Safe r]: on every buffer with a non-negative cursor, [r] does not panic,
    leaves the bytes alone and does not move the cursor back.
    [Reads r e a]: [r], started where the bytes of [e] begin in any buffer,
    returns [a] and stops where they end.  Both are compositional, so the
    codecs of the other files are proved field by field. *)

From Stdlib Require Import ZArith Lia.
From Stdlib Require Import Strings.Byte.
From stdpp Require Import base list gmap countable strings.
From S2P Require Import Prelude.

Open Scope Z_scope.

(** * The reader monad *)

Record Buffer := mkBuffer { bufB : bytes; bufI : Z }.

Definition FromBytes (b : bytes) : Buffer := mkBuffer b 0.

Definition Rd (A : Type) : Type := Buffer -> Buffer * res A.

Definition ret {A} (a : A) : Rd A := fun b => (b, Ok a).
Definition fail {A} (e : error) : Rd A := fun b => (b, Err e).
Definition panic {A} : Rd A := fun b => (b, Panic).

Definition rbind {A C} (m : Rd A) (f : A -> Rd C) : Rd C := fun b =>
  match m b with
  | (b', Ok a) => f a b'
  | (b', Err e) => (b', Err e)
  | (b', Panic) => (b', Panic)
  end.

(** A result computed outside the buffer. *)
Definition lift {A} (r : res A) : Rd A := fun b => (b, r).

(** A read whose error is discarded ([_, _ = buf.Read...()]). *)
Definition ignore_err {A} (m : Rd A) : Rd unit := fun b =>
  match m b with
  | (b', Panic) => (b', Panic)
  | (b', _) => (b', Ok tt)
  end.

Declare Scope rd_scope.
Delimit Scope rd_scope with rd.
Notation "x <- m ;; k" := (rbind m (fun x => k))
  (at level 100, m at next level, right associativity) : rd_scope.
Notation "m ;;; k" := (rbind m (fun _ => k))
  (at level 100, right associativity) : rd_scope.
Open Scope rd_scope.

(** [for i := 0; i < n; i++ { s = body(s) }]: the iteration count is binary,
    so a hostile count costs nothing once the body has failed. *)
Fixpoint rd_iter {T} (p : positive) (body : T -> Rd T) (s : T) : Rd T :=
  match p with
  | xH => body s
  | xO q => s1 <- rd_iter q body s ;; rd_iter q body s1
  | xI q => s0 <- body s ;; s1 <- rd_iter q body s0 ;; rd_iter q body s1
  end.

Definition rd_for {T} (n : Z) (body : T -> Rd T) (s : T) : Rd T :=
  match n with
  | Zpos p => rd_iter p body s
  | _ => ret s
  end.

(** The loop that appends one element per iteration, and the one that appends
    several. *)
Definition rd_list {A} (n : Z) (body : Rd A) : Rd (list A) :=
  rd_for n (fun out => x <- body ;; ret (out ++ [x])) [].

Definition rd_flat {A} (n : Z) (body : Rd (list A)) : Rd (list A) :=
  rd_for n (fun out => xs <- body ;; ret (out ++ xs)) [].

(** The same loop with [break]: the body's flag ends it. *)
Fixpoint rd_iter_brk {T} (p : positive) (body : T -> Rd (T * bool)) (s : T) : Rd (T * bool) :=
  match p with
  | xH => body s
  | xO q =>
      r <- rd_iter_brk q body s ;;
      if snd r then ret r else rd_iter_brk q body (fst r)
  | xI q =>
      r <- body s ;;
      if snd r then ret r else
      r <- rd_iter_brk q body (fst r) ;;
      if snd r then ret r else rd_iter_brk q body (fst r)
  end.

Definition rd_for_brk {T} (n : Z) (body : T -> Rd (T * bool)) (s : T) : Rd (T * bool) :=
  match n with
  | Zpos p => rd_iter_brk p body s
  | _ => ret (s, false)
  end.

(** Run a decoder on a response body. *)
Definition run {A} (r : Rd A) (body : bytes) : res A := snd (r (FromBytes body)).

(** * Read operations *)

Definition Remaining (b : Buffer) : bytes :=
  if bufI b >=? len (bufB b) then [] else drop (Z.to_nat (bufI b)) (bufB b).

Definition rd_remaining : Rd bytes := fun b => (b, Ok (Remaining b)).

(** The step every read shares: check that [k] bytes are there, slice them,
    advance. *)
Definition rd_take (k : Z) : Rd bytes := fun b =>
  if bufI b + k >? len (bufB b) then (b, Err ErrShortBuffer)
  else match slice (bufB b) (bufI b) (bufI b + k) with
       | Ok s => (mkBuffer (bufB b) (bufI b + k), Ok s)
       | Err e => (b, Err e)
       | Panic => (b, Panic)
       end.

Definition ReadInt8 : Rd Z := bs <- rd_take 1 ;; ret (s8 (be_value bs)).
Definition ReadInt16 : Rd Z := bs <- rd_take 2 ;; ret (s16 (be_value bs)).
Definition ReadInt32 : Rd Z := bs <- rd_take 4 ;; ret (s32 (be_value bs)).
Definition ReadInt64 : Rd Z := bs <- rd_take 8 ;; ret (s64 (be_value bs)).

Definition ReadBool : Rd bool := v <- ReadInt8 ;; ret (negb (v =? 0)).

(** A float64 is represented by its IEEE-754 bits. *)
Definition ReadFloat64 : Rd Z := bs <- rd_take 8 ;; ret (be_value bs).

Definition ReadString : Rd bytes :=
  n <- ReadInt16 ;;
  if n <? 0 then ret [] else rd_take n.

(** A [[]byte] result is [None] when Go returns [nil]. *)
Definition ReadBytes : Rd (option bytes) :=
  n <- ReadInt32 ;;
  if n <? 0 then ret None else (s <- rd_take n ;; ret (Some s)).

(** One pass of [ReadUvarint]'s loop per unit of [fuel]; it starts with 5. *)
Fixpoint uvarint_loop (fuel : nat) (i x s : Z) : Rd Z :=
  match fuel with
  | O => fail ErrUvarintOverflow
  | S f => fun b =>
      if bufI b >=? len (bufB b) then (b, Err ErrShortBuffer)
      else match index (bufB b) (bufI b) with
           | Ok c0 =>
               let c := b2z c0 in
               let b' := mkBuffer (bufB b) (bufI b + 1) in
               if c <? 128 then
                 if (i =? 4) && (c >? 1) then (b', Err ErrUvarintOverflow)
                 else (b', Ok (Z.lor x (Z.shiftl c s)))
               else uvarint_loop f (i + 1) (Z.lor x (Z.shiftl (Z.land c 127) s)) (s + 7) b'
           | Err e => (b, Err e)
           | Panic => (b, Panic)
           end
  end.

Definition ReadUvarint : Rd Z := uvarint_loop 5 0 0 0.

(** [int(u>>1) ^ -(int(u) & 1)] *)
Definition zigzag_dec (u : Z) : Z := Z.lxor (Z.shiftr u 1) (- Z.land u 1).

Definition ReadVarint : Rd Z := u <- ReadUvarint ;; ret (zigzag_dec u).

Definition ReadCompactString : Rd bytes :=
  n <- ReadUvarint ;;
  if n =? 0 then ret [] else rd_take (n - 1).

Definition ReadCompactNullableString : Rd bytes :=
  n <- ReadUvarint ;;
  if n =? 0 then ret [] else
  if n =? 1 then ret [] else rd_take (n - 1).

(** The pair is the string and [isNull]. *)
Definition ReadCompactNullableStringPtr : Rd (bytes * bool) :=
  n <- ReadUvarint ;;
  if n =? 0 then ret ([], true) else
  if n - 1 =? 0 then ret ([], false) else
  s <- rd_take (n - 1) ;; ret (s, false).

Definition ReadCompactBytes : Rd (option bytes) :=
  n <- ReadUvarint ;;
  if n =? 0 then ret None else (s <- rd_take (n - 1) ;; ret (Some s)).

(** Advance by [k] bytes after the bounds check, without reading them. *)
Definition rd_skip (k : Z) : Rd unit := fun b =>
  if bufI b + k >? len (bufB b) then (b, Err ErrShortBuffer)
  else (mkBuffer (bufB b) (bufI b + k), Ok tt).

Definition SkipTagSection : Rd unit :=
  n <- ReadUvarint ;;
  if n =? 0 then ret tt else
  rd_for n (fun _ =>
    ReadUvarint ;;;
    size <- ReadUvarint ;;
    rd_skip size) tt.

Definition ReadUUID : Rd bytes := rd_take 16.

(** * Write operations *)

Definition Enc : Type := res bytes.

Definition enc_app (x y : Enc) : Enc :=
  let? a := x in let? b := y in Ok (a ++ b).
Infix "+++" := enc_app (at level 60, right associativity) : rd_scope.

Definition enc_nil : Enc := Ok [].
Definition enc_list {A} (f : A -> Enc) (l : list A) : Enc :=
  foldr (fun x e => f x +++ e) enc_nil l.

(** [append(b.B, bs...)] *)
Definition raw (bs : bytes) : Enc := Ok bs.

Definition WriteInt8 (v : Z) : Enc := Ok (be_bytes 1 v).
Definition WriteInt16 (v : Z) : Enc := Ok (be_bytes 2 v).
Definition WriteInt32 (v : Z) : Enc := Ok (be_bytes 4 v).
Definition WriteInt64 (v : Z) : Enc := Ok (be_bytes 8 v).
Definition WriteFloat64 (bits : Z) : Enc := Ok (be_bytes 8 bits).
Definition WriteBool (v : bool) : Enc := if v then WriteInt8 1 else WriteInt8 0.

Definition MaxInt16 : Z := 32767.

Definition WriteString (s : bytes) : Enc :=
  if len s >? MaxInt16 then Panic
  else WriteInt16 (s16 (len s)) +++ raw s.

Definition WriteNullableString (s : option bytes) : Enc :=
  match s with
  | None => WriteInt16 (-1)
  | Some s => WriteString s
  end.

Definition WriteBytes (v : option bytes) : Enc :=
  match v with
  | None => WriteInt32 (-1)
  | Some v => WriteInt32 (s32 (len v)) +++ raw v
  end.

(** The loop [for x >= 0x80 { append(byte(x)|0x80); x >>= 7 }]; a [uint] has
    64 bits, so 9 passes always reach the last byte. *)
Fixpoint uvarint_bytes (fuel : nat) (x : Z) : bytes :=
  match fuel with
  | O => [z2b x]
  | S f =>
      if x >=? 128 then z2b (Z.lor (u8 x) 128) :: uvarint_bytes f (Z.shiftr x 7)
      else [z2b x]
  end.

Definition WriteUvarint (x : Z) : Enc := Ok (uvarint_bytes 9 x).

(** [(uint(v) << 1) ^ uint(v>>63)] on 64 bits. *)
Definition zigzag_enc (v : Z) : Z := Z.lxor (u64 (Z.shiftl (u64 v) 1)) (u64 (Z.shiftr v 63)).

Definition WriteVarint (v : Z) : Enc := WriteUvarint (zigzag_enc v).

Definition WriteCompactString (s : bytes) : Enc := WriteUvarint (len s + 1) +++ raw s.

Definition WriteCompactNullableString (s : option bytes) : Enc :=
  match s with
  | None => WriteUvarint 0
  | Some s => WriteCompactString s
  end.

Definition WriteCompactBytes (v : option bytes) : Enc :=
  match v with
  | None => WriteUvarint 0
  | Some v => WriteUvarint (len v + 1) +++ raw v
  end.

(** [WriteUvarint(uint(n) + 1)] *)
Definition WriteCompactArrayLen (n : Z) : Enc := WriteUvarint (u64 (u64 n + 1)).

Definition WriteEmptyTagSection : Enc := WriteUvarint 0.

Definition WriteUUID (u : bytes) : Enc := raw u.

Definition PrependLength (body : bytes) : bytes := be_bytes 4 (len body) ++ body.

(** [PatchLength] overwrites the first four bytes of the frame. *)
Definition PatchLength (frame : bytes) : bytes :=
  if len frame <? 4 then frame
  else be_bytes 4 (u32 (len frame - 4)) ++ drop 4 frame.

(** * Loops *)

Fixpoint rd_nat {T} (n : nat) (body : T -> Rd T) (s : T) : Rd T :=
  match n with
  | O => ret s
  | S m => s1 <- body s ;; rd_nat m body s1
  end.

Lemma rbind_ext {A C} (m m' : Rd A) (f g : A -> Rd C) b :
  m b = m' b -> (forall a b', f a b' = g a b') -> rbind m f b = rbind m' g b.
Proof. intros E H. unfold rbind. rewrite E. destruct (m' b) as [b' []]; auto. Qed.

Lemma rbind_assoc {A C D} (m : Rd A) (f : A -> Rd C) (g : C -> Rd D) b :
  rbind (rbind m f) g b = rbind m (fun a => rbind (f a) g) b.
Proof. unfold rbind. by destruct (m b) as [b' []]. Qed.

Lemma rbind_ok_inv {A C} (m : Rd A) (f : A -> Rd C) b b' c :
  rbind m f b = (b', Ok c) -> exists b1 a, m b = (b1, Ok a) /\ f a b1 = (b', Ok c).
Proof. unfold rbind. destruct (m b) as [b1 []]; try done. eauto. Qed.

Lemma rd_nat_app {T} n m (body : T -> Rd T) s b :
  rd_nat (n + m) body s b = (s1 <- rd_nat n body s ;; rd_nat m body s1) b.
Proof.
  revert s b. induction n as [|n IH]; intros s b; [done|].
  cbn [Nat.add rd_nat]. rewrite rbind_assoc. apply rbind_ext; auto.
Qed.

(** The binary loop is the loop that runs [n] times. *)
Lemma rd_iter_nat {T} p (body : T -> Rd T) s b :
  rd_iter p body s b = rd_nat (Pos.to_nat p) body s b.
Proof.
  revert s b. induction p as [q IH|q IH|]; intros s b.
  - replace (Pos.to_nat q~1) with (1 + (Pos.to_nat q + Pos.to_nat q))%nat by lia.
    cbn [Nat.add rd_nat rd_iter]. apply rbind_ext; [done|]. intros s0 b0.
    rewrite rd_nat_app. by apply rbind_ext.
  - replace (Pos.to_nat q~0) with (Pos.to_nat q + Pos.to_nat q)%nat by lia.
    rewrite rd_nat_app. cbn [rd_iter]. by apply rbind_ext.
  - cbn. change (Pos.to_nat 1) with 1%nat. cbn. unfold rbind, ret. destruct (body s b) as [b1 []]; auto.
Qed.

Lemma rd_for_nat {T} n (body : T -> Rd T) s b :
  rd_for n body s b = rd_nat (Z.to_nat n) body s b.
Proof. destruct n; [done | apply rd_iter_nat | done]. Qed.

Fixpoint rd_nat_brk {T} (n : nat) (body : T -> Rd (T * bool)) (s : T) : Rd (T * bool) :=
  match n with
  | O => ret (s, false)
  | S m => r <- body s ;; if snd r then ret r else rd_nat_brk m body (fst r)
  end.

Lemma rd_nat_brk_app {T} n m (body : T -> Rd (T * bool)) s b :
  rd_nat_brk (n + m) body s b =
  (r <- rd_nat_brk n body s ;; if snd r then ret r else rd_nat_brk m body (fst r)) b.
Proof.
  revert s b. induction n as [|n IH]; intros s b; [done|].
  cbn [Nat.add rd_nat_brk]. rewrite rbind_assoc. apply rbind_ext; [done|].
  intros [s1 []] b1; cbn [fst snd]; [done | apply IH].
Qed.

Lemma rd_iter_brk_nat {T} p (body : T -> Rd (T * bool)) s b :
  rd_iter_brk p body s b = rd_nat_brk (Pos.to_nat p) body s b.
Proof.
  revert s b. induction p as [q IH|q IH|]; intros s b.
  - replace (Pos.to_nat q~1) with (1 + (Pos.to_nat q + Pos.to_nat q))%nat by lia.
    cbn [Nat.add rd_nat_brk rd_iter_brk]. apply rbind_ext; [done|].
    intros [s0 []] b0; cbn [fst snd]; [done|]. rewrite rd_nat_brk_app.
    apply rbind_ext; [done|]. intros [s1 []] b1; cbn [fst snd]; [done | apply IH].
  - replace (Pos.to_nat q~0) with (Pos.to_nat q + Pos.to_nat q)%nat by lia.
    rewrite rd_nat_brk_app. cbn [rd_iter_brk]. apply rbind_ext; [done|].
    intros [s1 []] b1; cbn [fst snd]; [done | apply IH].
  - change (Pos.to_nat 1) with 1%nat. cbn. unfold rbind, ret.
    by destruct (body s b) as [b1 [[s1 []]| |]].
Qed.

Lemma rd_for_brk_nat {T} n (body : T -> Rd (T * bool)) s b :
  rd_for_brk n body s b = rd_nat_brk (Z.to_nat n) body s b.
Proof. destruct n; [done | apply rd_iter_brk_nat | done]. Qed.

(** An induction principle for loops: an invariant of the loop state and the
    buffer that every pass keeps, errors included. *)
Lemma rd_for_inv {T} (P : T -> Buffer -> Prop) (Q : Buffer -> res T -> Prop)
    n (body : T -> Rd T) s b :
  P s b ->
  (forall s b, P s b -> Q b (Ok s)) ->
  (forall s b, P s b -> forall b' x, body s b = (b', x) ->
     match x with Ok s' => P s' b' | Err e => Q b' (Err e) | Panic => Q b' Panic end) ->
  Q (fst (rd_for n body s b)) (snd (rd_for n body s b)).
Proof.
  intros H0 HQ Hstep. rewrite rd_for_nat. revert s b H0.
  induction (Z.to_nat n) as [|k IH]; intros s b H0; [by apply HQ|].
  cbn [rd_nat]. unfold rbind. destruct (body s b) as [b' x] eqn:E.
  specialize (Hstep _ _ H0 _ _ E). destruct x; [by apply IH | done | done].
Qed.

(** * Safety of readers *)

Definition Safe {A} (r : Rd A) : Prop := forall b,
  0 <= bufI b ->
  let '(b', x) := r b in bufB b' = bufB b /\ bufI b <= bufI b' /\ x <> Panic.

Lemma safe_ret {A} (a : A) : Safe (ret a).
Proof. intros b Hb. cbn. repeat split; [lia | done]. Qed.

Lemma safe_fail {A} e : Safe (@fail A e).
Proof. intros b Hb. cbn. repeat split; [lia | done]. Qed.

Lemma safe_bind {A C} (m : Rd A) (f : A -> Rd C) :
  Safe m -> (forall a, Safe (f a)) -> Safe (rbind m f).
Proof.
  intros Hm Hf b Hb. unfold rbind. specialize (Hm b Hb).
  destruct (m b) as [b' x]. destruct Hm as (HB & HI & HP).
  destruct x as [a|e|]; [|repeat split; auto; done|done].
  specialize (Hf a b' ltac:(lia)). destruct (f a b') as [b'' y].
  destruct Hf as (HB' & HI' & HP'). repeat split; [congruence | lia | done].
Qed.

Lemma safe_lift {A} (r : res A) : r <> Panic -> Safe (lift r).
Proof. intros H b Hb. cbn. repeat split; [lia | done]. Qed.

Lemma safe_ignore_err {A} (m : Rd A) : Safe m -> Safe (ignore_err m).
Proof.
  intros Hm b Hb. unfold ignore_err. specialize (Hm b Hb).
  destruct (m b) as [b' []]; destruct Hm as (?&?&?); repeat split; done.
Qed.

Lemma safe_for {T} n (body : T -> Rd T) s :
  (forall s, Safe (body s)) -> Safe (rd_for n body s).
Proof.
  intros Hbody b Hb.
  pose proof (rd_for_inv (fun _ b' => bufB b' = bufB b /\ bufI b <= bufI b')
    (fun b' x => bufB b' = bufB b /\ bufI b <= bufI b' /\ x <> Panic) n body s b) as H.
  destruct (rd_for n body s b) as [b' x]. apply H.
  - split; [done | lia].
  - by intros ? ? [? ?].
  - intros s1 b1 [HB HI] b2 y Hy. specialize (Hbody s1 b1 ltac:(lia)).
    rewrite Hy in Hbody. destruct Hbody as (?&?&?).
    destruct y; repeat split; try congruence; lia.
Qed.

Lemma safe_for_brk {T} n (body : T -> Rd (T * bool)) s :
  (forall s, Safe (body s)) -> Safe (rd_for_brk n body s).
Proof.
  intros Hbody b Hb. rewrite rd_for_brk_nat. revert s b Hb.
  induction (Z.to_nat n) as [|k IH]; intros s; [apply safe_ret|].
  apply safe_bind; [done|]. intros [s1 []]; cbn; [apply safe_ret|]. intros b Hb. by apply IH.
Qed.

Lemma safe_take k : 0 <= k -> Safe (rd_take k).
Proof.
  intros Hk b Hb. unfold rd_take.
  destruct (bufI b + k >? len (bufB b)) eqn:E; [repeat split; [lia|done]|].
  zbool. rewrite slice_ok by lia. cbn. repeat split; [lia|done].
Qed.

Lemma safe_skip k : 0 <= k -> Safe (rd_skip k).
Proof.
  intros Hk b Hb. unfold rd_skip.
  destruct (bufI b + k >? len (bufB b)); repeat split; cbn; lia || done.
Qed.

Lemma safe_remaining : Safe rd_remaining.
Proof. intros b Hb. cbn. repeat split; [lia | done]. Qed.

#[export] Hint Resolve safe_ret safe_fail safe_ignore_err safe_remaining : wire.

(** One structural step of a [Safe] goal. *)
Ltac safe_step :=
  match goal with
  | |- Safe (rbind _ _) => apply safe_bind; [|intros ?]
  | |- Safe (rd_for _ _ _) => apply safe_for; intros ?
  | |- Safe (rd_for_brk _ _ _) => apply safe_for_brk; intros ?
  | |- Safe (rd_list _ _) => unfold rd_list
  | |- Safe (rd_flat _ _) => unfold rd_flat
  | |- Safe (if ?c then _ else _) => destruct c eqn:?
  | |- Safe (match ?x with _ => _ end) => destruct x
  | |- Safe (let _ := _ in _) => cbv zeta
  | |- Safe (lift _) => apply safe_lift
  | |- Safe _ => solve [eauto with wire nocore | zbool; first [apply safe_take | apply safe_skip]; lia]
  end.
Ltac solve_safe := repeat safe_step.

Lemma safe_int8 : Safe ReadInt8.
Proof. unfold ReadInt8. solve_safe. Qed.
Lemma safe_int16 : Safe ReadInt16.
Proof. unfold ReadInt16. solve_safe. Qed.
Lemma safe_int32 : Safe ReadInt32.
Proof. unfold ReadInt32. solve_safe. Qed.
Lemma safe_int64 : Safe ReadInt64.
Proof. unfold ReadInt64. solve_safe. Qed.
Lemma safe_float64 : Safe ReadFloat64.
Proof. unfold ReadFloat64. solve_safe. Qed.
Lemma safe_uuid : Safe ReadUUID.
Proof. unfold ReadUUID. solve_safe. Qed.
#[export] Hint Resolve safe_int8 safe_int16 safe_int32 safe_int64 safe_float64 safe_uuid : wire.

Lemma safe_bool : Safe ReadBool.
Proof. unfold ReadBool. solve_safe. Qed.
Lemma safe_string : Safe ReadString.
Proof. unfold ReadString. solve_safe. Qed.
Lemma safe_bytes : Safe ReadBytes.
Proof. unfold ReadBytes. solve_safe. Qed.
#[export] Hint Resolve safe_bool safe_string safe_bytes : wire.

Lemma safe_uvarint_loop fuel i x s : Safe (uvarint_loop fuel i x s).
Proof.
  revert i x s. induction fuel as [|f IH]; intros i x s; [apply safe_fail|].
  intros b Hb. cbn [uvarint_loop].
  destruct (bufI b >=? len (bufB b)) eqn:E; [repeat split; [lia|done]|].
  zbool. unfold index. destruct (Z.leb_spec 0 (bufI b)); [|lia].
  destruct (bufB b !! Z.to_nat (bufI b)) as [c|] eqn:Hc.
  - destruct (b2z c <? 128).
    + destruct ((i =? 4) && (b2z c >? 1)); repeat split; cbn; lia || done.
    + specialize (IH (i + 1) (Z.lor x (Z.shiftl (Z.land (b2z c) 127) s)) (s + 7)
        (mkBuffer (bufB b) (bufI b + 1)) ltac:(cbn; lia)).
      destruct (uvarint_loop _ _ _ _ _) as [b' y]. cbn in IH.
      destruct IH as (?&?&?). repeat split; [done|lia|done].
  - apply lookup_ge_None in Hc. unfold len in E. lia.
Qed.

Lemma safe_uvarint : Safe ReadUvarint.
Proof. apply safe_uvarint_loop. Qed.
Lemma safe_varint : Safe ReadVarint.
Proof. unfold ReadVarint. pose proof safe_uvarint. solve_safe. Qed.
#[export] Hint Resolve safe_uvarint safe_varint : wire.

(** ** Ranges of the values read *)

Definition Post {A} (r : Rd A) (P : A -> Prop) : Prop :=
  forall b b' a, r b = (b', Ok a) -> P a.

Lemma post_bind {A C} (m : Rd A) (f : A -> Rd C) P Q :
  Post m P -> (forall a, P a -> Post (f a) Q) -> Post (rbind m f) Q.
Proof.
  intros Hm Hf b b' c. unfold rbind. destruct (m b) as [b1 x] eqn:E.
  destruct x; [|done|done]. intros H. eapply Hf; eauto.
Qed.

Lemma safe_bind_post {A C} (m : Rd A) (f : A -> Rd C) (P : A -> Prop) :
  Safe m -> Post m P -> (forall a, P a -> Safe (f a)) -> Safe (rbind m f).
Proof.
  intros Hm HP Hf b Hb. unfold rbind. specialize (Hm b Hb).
  destruct (m b) as [b' x] eqn:E. destruct Hm as (HB & HI & HN).
  destruct x as [a|e|]; [|repeat split; auto; done|done].
  specialize (Hf a (HP _ _ _ E) b' ltac:(lia)). destruct (f a b') as [b'' y].
  destruct Hf as (HB' & HI' & HP'). repeat split; [congruence | lia | done].
Qed.

Lemma uvarint_loop_bound fuel i x s :
  i = 5 - Z.of_nat fuel -> s = 7 * i -> 0 <= i -> 0 <= x < 2 ^ s ->
  Post (uvarint_loop fuel i x s) (fun n => 0 <= n < 2 ^ 29).
Proof.
  revert i x s. induction fuel as [|f IH]; intros i x s Hi Hs H0 Hx b b' n; [done|].
  cbn [uvarint_loop]. destruct (bufI b >=? len (bufB b)); [done|].
  destruct (index (bufB b) (bufI b)) as [c| |]; [|done|done].
  pose proof (b2z_range c) as Hc.
  assert (Hpow : 2 ^ (s + 7) = 128 * 2 ^ s) by (rewrite Z.pow_add_r by lia; lia).
  destruct (b2z c <? 128) eqn:E.
  - destruct ((i =? 4) && (b2z c >? 1)) eqn:E4; [done|].
    intros [= _ <-]. rewrite lor_shiftl_add by lia. zbool.
    destruct (decide (i = 4)) as [->|Hn].
    + subst s. change (2 ^ (7 * 4)) with (2 ^ 28) in *. destruct E4; zbool; lia.
    + assert (2 ^ (s + 7) <= 2 ^ 28) by (apply Z.pow_le_mono_r; lia). nia.
  - apply IH; try lia.
    change 127 with (Z.ones 7). rewrite Z.land_ones by lia.
    pose proof (Z.mod_pos_bound (b2z c) (2 ^ 7) ltac:(lia)).
    rewrite lor_shiftl_add by lia. nia.
Qed.

Lemma uvarint_bound : Post ReadUvarint (fun n => 0 <= n < 2 ^ 29).
Proof. by apply uvarint_loop_bound. Qed.

(** Bind of a [ReadUvarint], keeping the range of the value. *)
Lemma safe_bind_uvarint {C} (f : Z -> Rd C) :
  (forall n, 0 <= n < 2 ^ 29 -> Safe (f n)) -> Safe (rbind ReadUvarint f).
Proof. apply safe_bind_post; [apply safe_uvarint | apply uvarint_bound]. Qed.

Ltac safe_step ::=
  match goal with
  | |- Safe (rbind ReadUvarint _) => apply safe_bind_uvarint; intros ? ?
  | |- Safe (rbind _ _) => apply safe_bind; [|intros ?]
  | |- Safe (rd_for _ _ _) => apply safe_for; intros ?
  | |- Safe (rd_for_brk _ _ _) => apply safe_for_brk; intros ?
  | |- Safe (rd_list _ _) => unfold rd_list
  | |- Safe (rd_flat _ _) => unfold rd_flat
  | |- Safe (if ?c then _ else _) => destruct c eqn:?
  | |- Safe (match ?x with _ => _ end) => destruct x
  | |- Safe (lift _) => apply safe_lift
  | |- Safe _ => solve [eauto with wire nocore | zbool; first [apply safe_take | apply safe_skip]; lia]
  end.

Lemma safe_compact_string : Safe ReadCompactString.
Proof. unfold ReadCompactString. solve_safe. Qed.
Lemma safe_compact_nullable_string : Safe ReadCompactNullableString.
Proof. unfold ReadCompactNullableString. solve_safe. Qed.
Lemma safe_compact_nullable_string_ptr : Safe ReadCompactNullableStringPtr.
Proof. unfold ReadCompactNullableStringPtr. solve_safe. Qed.
Lemma safe_compact_bytes : Safe ReadCompactBytes.
Proof. unfold ReadCompactBytes. solve_safe. Qed.
Lemma safe_skip_tags : Safe SkipTagSection.
Proof. unfold SkipTagSection. solve_safe. Qed.
#[export] Hint Resolve safe_compact_string safe_compact_nullable_string
  safe_compact_nullable_string_ptr safe_compact_bytes safe_skip_tags : wire.

(** A decoder built from safe reads never panics, whatever the bytes. *)
Lemma safe_run {A} (r : Rd A) body : Safe r -> run r body <> Panic.
Proof.
  intros H. specialize (H (FromBytes body) ltac:(cbn; lia)). unfold run.
  by destruct (r (FromBytes body)) as [b x]; destruct H as (_&_&?).
Qed.

(** * Round trips *)

(** [reads r bs a]: in any buffer, [r] started at [bs] returns [a] and stops
    right after [bs]. *)
Definition reads {A} (r : Rd A) (bs : bytes) (a : A) : Prop := forall pre post,
  r (mkBuffer (pre ++ bs ++ post) (len pre)) =
    (mkBuffer (pre ++ bs ++ post) (len pre + len bs), Ok a).

Definition Reads {A} (r : Rd A) (e : Enc) (a : A) : Prop :=
  forall bs, e = Ok bs -> reads r bs a.

Lemma reads_ret {A} (a : A) : reads (ret a) [] a.
Proof. intros pre post. cbn. by rewrite Z.add_0_r. Qed.

Lemma reads_bind {A C} (m : Rd A) (f : A -> Rd C) bs1 bs2 a c :
  reads m bs1 a -> reads (f a) bs2 c -> reads (rbind m f) (bs1 ++ bs2) c.
Proof.
  intros Hm Hf pre post. unfold rbind.
  rewrite <- (app_assoc bs1). rewrite Hm.
  replace (len pre + len bs1) with (len (pre ++ bs1)) by apply len_app.
  replace (pre ++ bs1 ++ bs2 ++ post) with ((pre ++ bs1) ++ bs2 ++ post)
    by by rewrite <- !app_assoc.
  rewrite Hf. rewrite !len_app, Z.add_assoc. by rewrite <- !app_assoc.
Qed.

Lemma reads_take bs : reads (rd_take (len bs)) bs bs.
Proof.
  intros pre post. unfold rd_take. cbn [bufI bufB].
  destruct (_ >? _) eqn:E.
  - zbool. rewrite !len_app in E. pose proof (len_nonneg post). lia.
  - by rewrite slice_app.
Qed.

Lemma Reads_ret {A} (a : A) : Reads (ret a) enc_nil a.
Proof. intros bs [= <-]. apply reads_ret. Qed.

Lemma enc_app_ok x y bs :
  x +++ y = Ok bs -> exists a b, x = Ok a /\ y = Ok b /\ bs = a ++ b.
Proof. destruct x as [a| |], y as [b| |]; cbn; try done. intros [= <-]. eauto. Qed.

Lemma Reads_bind {A C} (m : Rd A) (f : A -> Rd C) e1 e2 a c :
  Reads m e1 a -> Reads (f a) e2 c -> Reads (rbind m f) (e1 +++ e2) c.
Proof.
  intros Hm Hf bs Hbs. apply enc_app_ok in Hbs as (b1 & b2 & -> & -> & ->).
  eapply reads_bind; [by apply Hm | by apply Hf].
Qed.

(** The last field of a struct. *)
Lemma Reads_bind_last {A C} (m : Rd A) (f : A -> Rd C) e a c :
  Reads m e a -> Reads (f a) enc_nil c -> Reads (rbind m f) e c.
Proof.
  intros Hm Hf bs Hbs. rewrite <- (app_nil_r bs).
  eapply reads_bind; [by apply Hm | by apply Hf].
Qed.

Lemma Reads_take bs : Reads (rd_take (len bs)) (raw bs) bs.
Proof. intros s [= <-]. apply reads_take. Qed.

Lemma Reads_be {n : nat} (g : Z -> Z) v w :
  g (v mod 2 ^ (8 * Z.of_nat n)) = w ->
  Reads (bs <- rd_take (Z.of_nat n) ;; ret (g (be_value bs))) (Ok (be_bytes n v)) w.
Proof.
  intros Hw. eapply Reads_bind_last.
  - rewrite <- (len_be_bytes n v). apply Reads_take.
  - rewrite be_value_be_bytes, Hw. apply Reads_ret.
Qed.

Lemma Reads_int8 v : int8 v -> Reads ReadInt8 (WriteInt8 v) v.
Proof. intros H. apply (Reads_be (n := 1) s8). unfold s8. rewrite sgn_mod by lia. by apply s8_id. Qed.
Lemma Reads_int16 v : int16 v -> Reads ReadInt16 (WriteInt16 v) v.
Proof. intros H. apply (Reads_be (n := 2) s16). unfold s16. rewrite sgn_mod by lia. by apply s16_id. Qed.
Lemma Reads_int32 v : int32 v -> Reads ReadInt32 (WriteInt32 v) v.
Proof. intros H. apply (Reads_be (n := 4) s32). unfold s32. rewrite sgn_mod by lia. by apply s32_id. Qed.
Lemma Reads_int64 v : int64 v -> Reads ReadInt64 (WriteInt64 v) v.
Proof. intros H. apply (Reads_be (n := 8) s64). unfold s64. rewrite sgn_mod by lia. by apply s64_id. Qed.

(** The value written is read back modulo its width. *)
Lemma Reads_int32_wrap v : Reads ReadInt32 (WriteInt32 v) (s32 v).
Proof. apply (Reads_be (n := 4) s32). unfold s32. by rewrite sgn_mod by lia. Qed.
Lemma Reads_int64_wrap v : Reads ReadInt64 (WriteInt64 v) (s64 v).
Proof. apply (Reads_be (n := 8) s64). unfold s64. by rewrite sgn_mod by lia. Qed.
Lemma Reads_float64 v : 0 <= v < 2 ^ 64 -> Reads ReadFloat64 (WriteFloat64 v) v.
Proof. intros H. apply (Reads_be (n := 8) (fun x => x)). by rewrite Z.mod_small. Qed.

Lemma Reads_bool v : Reads ReadBool (WriteBool v) v.
Proof.
  unfold ReadBool, WriteBool. destruct v; eapply Reads_bind_last;
    try (apply Reads_int8; unfold int8; lia); apply Reads_ret.
Qed.

Lemma Reads_uuid u : len u = 16 -> Reads ReadUUID (WriteUUID u) u.
Proof. intros H. unfold ReadUUID. rewrite <- H. apply Reads_take. Qed.

(** ** Varints *)

Lemma index_app {A} (pre : list A) x post : index (pre ++ x :: post) (len pre) = Ok x.
Proof.
  unfold index, len. destruct (Z.leb_spec 0 (Z.of_nat (length pre))); [|lia].
  by rewrite Nat2Z.id, list_lookup_middle.
Qed.

(** One pass of the read loop on a byte that is there. *)
Lemma uvarint_loop_step f i x s pre c post :
  uvarint_loop (S f) i x s (mkBuffer (pre ++ c :: post) (len pre)) =
  let b' := mkBuffer (pre ++ c :: post) (len pre + 1) in
  if b2z c <? 128 then
    if (i =? 4) && (b2z c >? 1) then (b', Err ErrUvarintOverflow)
    else (b', Ok (Z.lor x (Z.shiftl (b2z c) s)))
  else uvarint_loop f (i + 1) (Z.lor x (Z.shiftl (Z.land (b2z c) 127) s)) (s + 7) b'.
Proof.
  cbn [uvarint_loop bufI bufB]. destruct (_ >=? _) eqn:E.
  - zbool. rewrite len_app, len_cons in E. pose proof (len_nonneg post). lia.
  - by rewrite index_app.
Qed.

(** The continuation byte written for [x] carries its low seven bits. *)
Lemma cont_byte x : 0 <= x ->
  b2z (z2b (Z.lor (u8 x) 128)) = 128 + x mod 128.
Proof.
  intros Hx. rewrite b2z_z2b. unfold u8.
  assert (E : Z.lor (x mod 2 ^ 8) 128 = 128 + x mod 128).
  { rewrite (Z_div_mod_eq_full (x mod 2 ^ 8) 128).
    set (q := x mod 2 ^ 8 / 128).
    assert (x mod 2 ^ 8 mod 128 = x mod 128) as ->.
    { change (2 ^ 8) with (128 * 2). rewrite Z.rem_mul_r by lia.
      rewrite (Z.mul_comm 128), Z_mod_plus_full, Z.mod_mod by lia. done. }
    assert (0 <= x mod 128 < 2 ^ 7) as Hm by (apply Z.mod_pos_bound; lia).
    assert (0 <= q < 2) as Hq.
    { pose proof (Z.mod_pos_bound x (2 ^ 8) ltac:(lia)). unfold q. split.
      - apply Z.div_pos; lia.
      - apply Z.div_lt_upper_bound; lia. }
    replace (128 * q + x mod 128) with (Z.lor (x mod 128) (Z.shiftl q 7))
      by (rewrite lor_shiftl_add by lia; change (2 ^ 7) with 128; lia).
    change 128 with (Z.shiftl 1 7) at 2. rewrite <- Z.lor_assoc, <- Z.shiftl_lor.
    assert (Z.lor q 1 = 1) as -> by (destruct (decide (q = 0)) as [->|]; [done|];
      replace q with 1 by lia; done).
    rewrite lor_shiftl_add by lia. lia. }
  rewrite E. pose proof (Z.mod_pos_bound x 128 ltac:(lia)). by rewrite Z.mod_small by lia.
Qed.

(** The last byte of a varint, read with [f] passes left. *)
Lemma uvarint_loop_last f i x s z pre post :
  i = 5 - Z.of_nat (S f) -> s = 7 * i -> 0 <= i -> 0 <= x < 2 ^ s -> 0 <= z < 128 ->
  exists b', uvarint_loop (S f) i x s (mkBuffer (pre ++ z2b z :: post) (len pre)) =
    if z <? 2 ^ (7 * Z.of_nat (S f) - 6)
    then (mkBuffer (pre ++ z2b z :: post) (len pre + 1), Ok (x + z * 2 ^ s))
    else (b', Err ErrUvarintOverflow).
Proof.
  intros Hi Hs H0 Hx Hz. eexists. rewrite uvarint_loop_step, b2z_z2b, Z.mod_small by lia.
  cbv zeta. destruct (Z.ltb_spec z 128); [|lia]. rewrite lor_shiftl_add by lia.
  destruct (decide (f = 0%nat)) as [->|].
  - subst i. change (5 - Z.of_nat 1 =? 4) with true. cbn [andb]. rewrite Z.gtb_ltb.
    change (2 ^ (7 * Z.of_nat 1 - 6)) with 2.
    destruct (Z.ltb_spec 1 z), (Z.ltb_spec z 2); try lia; reflexivity.
  - destruct (Z.eqb_spec i 4); [lia|]. cbn [andb].
    assert (2 ^ 8 <= 2 ^ (7 * Z.of_nat (S f) - 6)) by (apply Z.pow_le_mono_r; lia).
    destruct (Z.ltb_spec z (2 ^ (7 * Z.of_nat (S f) - 6))); [done|lia].
Qed.

(** The read loop with [f] passes left, started on a written [y]: it returns
    [y] above the bits it has, or reports an overflow when [y] does not fit
    the passes left (the fifth byte may only be 0 or 1). *)
Lemma uvarint_loop_bytes f i g x s y pre post :
  i = 5 - Z.of_nat f -> s = 7 * i -> 0 <= i -> (f <= g)%nat ->
  0 <= x < 2 ^ s -> 0 <= y ->
  exists b',
  uvarint_loop f i x s (mkBuffer (pre ++ uvarint_bytes g y ++ post) (len pre)) =
  if y <? 2 ^ (7 * Z.of_nat f - 6)
  then (mkBuffer (pre ++ uvarint_bytes g y ++ post) (len pre + len (uvarint_bytes g y)),
        Ok (x + y * 2 ^ s))
  else (b', Err ErrUvarintOverflow).
Proof.
  revert i g x s y pre. induction f as [|f IH]; intros i g x s y pre Hi Hs H0 Hg Hx Hy.
  { eexists. change (2 ^ (7 * Z.of_nat 0 - 6)) with 0.
    destruct (Z.ltb_spec y 0); [lia|]. reflexivity. }
  destruct g as [|g]; [lia|]. cbn [uvarint_bytes].
  destruct (y >=? 128) eqn:E; zbool; cbn [app]; [|by apply uvarint_loop_last].
  rewrite uvarint_loop_step, cont_byte by lia. cbv zeta.
  pose proof (Z.mod_pos_bound y 128 ltac:(lia)) as Hm.
  destruct (Z.ltb_spec (128 + y mod 128) 128); [lia|].
  change 127 with (Z.ones 7). rewrite Z.land_ones by lia.
  replace ((128 + y mod 128) mod 2 ^ 7) with (y mod 128)
    by (change (2 ^ 7) with 128; rewrite <- Z.add_mod_idemp_l, Z_mod_same_full, Z.add_0_l, Z.mod_mod by lia; done).
  rewrite lor_shiftl_add by lia.
  rewrite Z.shiftr_div_pow2 by lia. change (2 ^ 7) with 128.
  set (c := z2b _). set (tl := uvarint_bytes g (y / 128)).
  replace (pre ++ c :: tl ++ post) with ((pre ++ [c]) ++ tl ++ post)
    by by rewrite <- app_assoc.
  replace (len pre + 1) with (len (pre ++ [c])) by (rewrite len_app; done).
  assert (Hp : 2 ^ (s + 7) = 128 * 2 ^ s) by (rewrite Z.pow_add_r by lia; lia).
  destruct (IH (i + 1) g (x + y mod 128 * 2 ^ s) (s + 7) (y / 128) (pre ++ [c]))
    as [b' Hb']; try lia; [nia | apply Z.div_pos; lia |].
  exists b'. unfold tl. rewrite Hb'.
  replace (x + y mod 128 * 2 ^ s + y / 128 * 2 ^ (s + 7)) with (x + y * 2 ^ s).
  2:{ rewrite Hp. rewrite (Z_div_mod_eq_full y 128) at 1. ring. }
  assert (Hlt : (y / 128 <? 2 ^ (7 * Z.of_nat f - 6)) = (y <? 2 ^ (7 * Z.of_nat (S f) - 6))).
  { destruct f as [|f].
    - change (2 ^ (7 * Z.of_nat 0 - 6)) with 0. change (2 ^ (7 * Z.of_nat 1 - 6)) with 2.
      pose proof (Z.div_pos y 128). destruct (Z.ltb_spec (y / 128) 0), (Z.ltb_spec y 2); lia.
    - replace (2 ^ (7 * Z.of_nat (S (S f)) - 6)) with (128 * 2 ^ (7 * Z.of_nat (S f) - 6)).
      2:{ change 128 with (2 ^ 7). rewrite <- Z.pow_add_r by lia. f_equal. lia. }
      apply Bool.eq_iff_eq_true. rewrite !Z.ltb_lt. split; intros.
      + rewrite (Z_div_mod_eq_full y 128). lia.
      + apply Z.div_lt_upper_bound; lia. }
  rewrite Hlt. destruct (y <? _); [|done].
  do 2 f_equal. rewrite len_app, !len_cons, len_nil. unfold tl. lia.
Qed.

Lemma Reads_uvarint x : 0 <= x < 2 ^ 29 -> Reads ReadUvarint (WriteUvarint x) x.
Proof.
  intros Hx bs Hbs pre post. unfold WriteUvarint in Hbs.
  assert (bs = uvarint_bytes 9 x) as -> by congruence. clear Hbs.
  destruct (uvarint_loop_bytes 5 0 9 0 0 x pre post) as [b' H]; try done; try lia.
  change (7 * Z.of_nat 5 - 6) with 29 in H.
  destruct (Z.ltb_spec x (2 ^ 29)); [|lia]. unfold ReadUvarint. rewrite H. f_equal. f_equal. lia.
Qed.

(** A varint above 29 bits is rejected wherever it starts in the buffer. *)
Lemma uvarint_overflow x pre post : 2 ^ 29 <= x ->
  snd (ReadUvarint (mkBuffer (pre ++ uvarint_bytes 9 x ++ post) (len pre))) =
    Err ErrUvarintOverflow.
Proof.
  intros Hx. destruct (uvarint_loop_bytes 5 0 9 0 0 x pre post) as [b' H]; try done; try lia.
  change (7 * Z.of_nat 5 - 6) with 29 in H.
  destruct (Z.ltb_spec x (2 ^ 29)); [lia|]. unfold ReadUvarint. by rewrite H.
Qed.

Lemma lxor_ones n a : 0 <= n -> 0 <= a < 2 ^ n -> Z.lxor a (Z.ones n) = Z.ones n - a.
Proof.
  intros Hn Ha. rewrite Z.sub_nocarry_ldiff.
  - apply Z.bits_inj'. intros m Hm. rewrite Z.lxor_spec, Z.ldiff_spec.
    destruct (Z.ltb_spec m n).
    + rewrite Z.ones_spec_low by lia. by destruct (Z.testbit a m).
    + rewrite Z.ones_spec_high by lia. rewrite <- (Z.mod_small a (2 ^ n)) by lia.
      by rewrite Z.mod_pow2_bits_high by lia.
  - rewrite Z.ldiff_ones_r by lia. rewrite Z.shiftr_div_pow2 by lia.
    rewrite Z.div_small by lia. apply Z.shiftl_0_l.
Qed.

Lemma zigzag_enc_spec v : int64 v -> zigzag_enc v = if v <? 0 then - 2 * v - 1 else 2 * v.
Proof.
  intros Hv. unfold int64 in Hv. unfold zigzag_enc, u64.
  rewrite Z.shiftl_mul_pow2, Z.shiftr_div_pow2 by lia. change (2 ^ 1) with 2.
  rewrite Z.mul_mod_idemp_l by lia.
  destruct (Z.ltb_spec v 0).
  - replace (v / 2 ^ 63) with (-1).
    2:{ apply (Z.div_unique_pos _ _ _ (v + 2 ^ 63)); lia. }
    change (-1 mod 2 ^ 64) with (Z.ones 64).
    replace ((v * 2) mod 2 ^ 64) with (v * 2 + 2 ^ 64).
    2:{ apply (Z.mod_unique_pos _ _ (-1)); lia. }
    rewrite lxor_ones by lia. change (Z.ones 64) with (2 ^ 64 - 1). lia.
  - rewrite (Z.div_small v) by lia. rewrite Z.mod_0_l, Z.lxor_0_r by lia.
    rewrite Z.mod_small by lia. lia.
Qed.

Lemma zigzag_dec_spec u : 0 <= u ->
  zigzag_dec u = if Z.even u then u / 2 else - (u / 2) - 1.
Proof.
  intros Hu. unfold zigzag_dec. rewrite Z.shiftr_div_pow2 by lia. change (2 ^ 1) with 2.
  change 1 with (Z.ones 1) at 1. rewrite Z.land_ones by lia. change (2 ^ 1) with 2.
  rewrite Zmod_even. destruct (Z.even u).
  - apply Z.lxor_0_r.
  - rewrite Z.lxor_m1_r. unfold Z.lnot. lia.
Qed.

(** Zig-zag is lossless on 64-bit integers. *)
Lemma zigzag_roundtrip v : int64 v -> zigzag_dec (zigzag_enc v) = v.
Proof.
  intros Hv. rewrite zigzag_enc_spec by done. destruct (Z.ltb_spec v 0).
  - rewrite zigzag_dec_spec by lia. replace (- 2 * v - 1) with (1 + 2 * (- v - 1)) by lia.
    rewrite Z.even_add_mul_2. cbn [Z.even]. rewrite Z.mul_comm, Z.div_add by lia.
    rewrite Z.div_small by lia. lia.
  - rewrite zigzag_dec_spec by lia. replace (2 * v) with (0 + 2 * v) by lia.
    rewrite Z.even_add_mul_2. cbn [Z.even]. rewrite Z.mul_comm, Z.div_add by lia.
    rewrite Z.div_small by lia. lia.
Qed.

(** The values a varint field carries: 29 bits after zig-zag. *)
Definition varint29 (v : Z) : Prop := - 2 ^ 28 <= v < 2 ^ 28.

Lemma zigzag_enc_bound v : int64 v -> 0 <= zigzag_enc v /\ (zigzag_enc v < 2 ^ 29 <-> varint29 v).
Proof.
  intros Hv. rewrite zigzag_enc_spec by done. unfold varint29, int64 in *.
  destruct (Z.ltb_spec v 0); lia.
Qed.

Lemma varint29_int64 v : varint29 v -> int64 v.
Proof. unfold varint29, int64. lia. Qed.

Lemma Reads_varint v : varint29 v -> Reads ReadVarint (WriteVarint v) v.
Proof.
  intros Hv. pose proof (varint29_int64 v Hv) as H64.
  destruct (zigzag_enc_bound v H64) as [H0 [_ H1]].
  eapply Reads_bind_last.
  - apply Reads_uvarint. split; [done | by apply H1].
  - rewrite zigzag_roundtrip by done. apply Reads_ret.
Qed.

(** ** Strings, byte slices, tag sections *)

(** A compact length prefix is read back below 2^29 - 1 bytes. *)
Definition fits {A} (l : list A) : Prop := len l < 2 ^ 29 - 1.

Lemma Reads_compact_string s : fits s -> Reads ReadCompactString (WriteCompactString s) s.
Proof.
  intros Hs. unfold fits in Hs. pose proof (len_nonneg s).
  eapply Reads_bind; [apply Reads_uvarint; lia|].
  destruct (Z.eqb_spec (len s + 1) 0); [lia|]. rewrite Z.add_simpl_r. apply Reads_take.
Qed.

Lemma Reads_compact_nullable_string s :
  fits (default [] s) ->
  Reads ReadCompactNullableString (WriteCompactNullableString s) (default [] s).
Proof.
  intros Hs. destruct s as [s|]; cbn [WriteCompactNullableString default] in *.
  - unfold fits in Hs. pose proof (len_nonneg s). unfold id in *.
    eapply Reads_bind; [apply Reads_uvarint; lia|].
    destruct (Z.eqb_spec (len s + 1) 0); [lia|]. destruct (Z.eqb_spec (len s + 1) 1).
    + assert (s = []) as -> by (apply len_zero; lia). apply Reads_ret.
    + rewrite Z.add_simpl_r. apply Reads_take.
  - eapply Reads_bind_last; [apply Reads_uvarint; lia|]. apply Reads_ret.
Qed.

Lemma Reads_compact_nullable_string_ptr s :
  fits (default [] s) ->
  Reads ReadCompactNullableStringPtr (WriteCompactNullableString s)
    (default [] s, bool_decide (s = None)).
Proof.
  intros Hs. destruct s as [s|]; cbn [WriteCompactNullableString default] in *.
  - unfold fits, id in *. pose proof (len_nonneg s).
    eapply Reads_bind; [apply Reads_uvarint; lia|].
    destruct (Z.eqb_spec (len s + 1) 0); [lia|]. rewrite Z.add_simpl_r.
    destruct (Z.eqb_spec (len s) 0).
    + assert (s = []) as -> by (apply len_zero; lia). apply Reads_ret.
    + eapply Reads_bind_last; [apply Reads_take | apply Reads_ret].
  - eapply Reads_bind_last; [apply Reads_uvarint; lia|]. apply Reads_ret.
Qed.

Lemma Reads_compact_bytes v :
  fits (default [] v) -> Reads ReadCompactBytes (WriteCompactBytes v) v.
Proof.
  intros Hs. destruct v as [s|]; cbn [WriteCompactBytes default] in *.
  - unfold fits, id in *. pose proof (len_nonneg s).
    eapply Reads_bind; [apply Reads_uvarint; lia|].
    destruct (Z.eqb_spec (len s + 1) 0); [lia|]. rewrite Z.add_simpl_r.
    eapply Reads_bind_last; [apply Reads_take | apply Reads_ret].
  - eapply Reads_bind_last; [apply Reads_uvarint; lia|]. apply Reads_ret.
Qed.

(** The legacy string: a longer one makes the write panic, so no hypothesis
    on its length is needed. *)
Lemma Reads_string s : Reads ReadString (WriteString s) s.
Proof.
  unfold WriteString, MaxInt16. destruct (len s >? 32767) eqn:E; [done|].
  zbool. pose proof (len_nonneg s).
  rewrite s16_id by (unfold int16; lia).
  eapply Reads_bind; [apply Reads_int16; unfold int16; lia|].
  destruct (Z.ltb_spec (len s) 0); [lia|]. apply Reads_take.
Qed.

Lemma Reads_bytes v : len (default [] v) < 2 ^ 31 -> Reads ReadBytes (WriteBytes v) v.
Proof.
  intros Hs. destruct v as [s|]; cbn [WriteBytes default] in *.
  - unfold id in *. pose proof (len_nonneg s). rewrite s32_id by (unfold int32; lia).
    eapply Reads_bind; [apply Reads_int32; unfold int32; lia|].
    destruct (Z.ltb_spec (len s) 0); [lia|].
    eapply Reads_bind_last; [apply Reads_take | apply Reads_ret].
  - eapply Reads_bind_last; [apply Reads_int32; unfold int32; lia|]. apply Reads_ret.
Qed.

Lemma Reads_array_len n : 0 <= n < 2 ^ 29 - 1 -> Reads ReadUvarint (WriteCompactArrayLen n) (n + 1).
Proof.
  intros Hn. unfold WriteCompactArrayLen, u64. rewrite !Z.mod_small by (rewrite ?Z.mod_small; lia).
  apply Reads_uvarint. lia.
Qed.

Lemma Reads_empty_tags : Reads SkipTagSection WriteEmptyTagSection tt.
Proof. eapply Reads_bind_last; [apply Reads_uvarint; lia|]. apply Reads_ret. Qed.

#[export] Hint Resolve Reads_int8 Reads_int16 Reads_int32 Reads_int64 Reads_bool Reads_uuid
  Reads_uvarint Reads_varint Reads_compact_string Reads_compact_nullable_string
  Reads_compact_bytes Reads_string Reads_bytes Reads_array_len Reads_empty_tags : reads.

(** ** Arrays *)

Lemma enc_list_cons {A} (f : A -> Enc) x l : enc_list f (x :: l) = f x +++ enc_list f l.
Proof. done. Qed.

(** The state a loop reaches on the encoding of a list. *)
Lemma Reads_for {A T} (body : T -> Rd T) (enc : A -> Enc) (step : T -> A -> T) (P : A -> Prop) xs s :
  Forall P xs ->
  (forall s x, P x -> Reads (body s) (enc x) (step s x)) ->
  Reads (rd_for (len xs) body s) (enc_list enc xs) (fold_left step xs s).
Proof.
  intros HP Hbody bs Hbs pre post.
  rewrite rd_for_nat. replace (Z.to_nat (len xs)) with (length xs) by (unfold len; lia).
  revert s bs Hbs pre post. induction HP as [|x xs Hx _ IH]; intros s bs Hbs pre post.
  - injection Hbs as <-.
    apply reads_ret.
  - rewrite enc_list_cons in Hbs. apply enc_app_ok in Hbs as (b1 & b2 & H1 & H2 & ->).
    cbn [length rd_nat fold_left]. eapply reads_bind; [by apply Hbody|].
    intros pre' post'. by apply IH.
Qed.

Lemma fold_left_snoc {A} (xs acc : list A) : fold_left (fun out x => out ++ [x]) xs acc = acc ++ xs.
Proof.
  revert acc. induction xs as [|x xs IH]; intros acc; cbn; [by rewrite app_nil_r|].
  by rewrite IH, <- app_assoc.
Qed.

Lemma fold_left_concat {A B} (f : A -> list B) xs acc :
  fold_left (fun out x => out ++ f x) xs acc = acc ++ concat (map f xs).
Proof.
  revert acc. induction xs as [|x xs IH]; intros acc; cbn; [by rewrite app_nil_r|].
  by rewrite IH, <- app_assoc.
Qed.

Lemma Reads_list {A} (body : Rd A) (enc : A -> Enc) (P : A -> Prop) n xs :
  n = len xs -> Forall P xs -> (forall x, P x -> Reads body (enc x) x) ->
  Reads (rd_list n body) (enc_list enc xs) xs.
Proof.
  intros -> HP Hb. unfold rd_list.
  replace xs with (fold_left (fun out x => out ++ [x]) xs []) at 3 by by rewrite fold_left_snoc.
  eapply Reads_for; [done|]. intros s x Hx.
  eapply Reads_bind_last; [by apply Hb | apply Reads_ret].
Qed.

(** An array whose elements the reader maps: element [x] is read as [g x]. *)
Lemma Reads_list_map {A C} (body : Rd C) (enc : A -> Enc) (g : A -> C) (P : A -> Prop) n xs :
  n = len xs -> Forall P xs -> (forall x, P x -> Reads body (enc x) (g x)) ->
  Reads (rd_list n body) (enc_list enc xs) (map g xs).
Proof.
  intros -> HP Hb. unfold rd_list.
  replace (map g xs) with (fold_left (fun out x => out ++ [g x]) xs []).
  2:{ rewrite (fold_left_concat (fun x => [g x])). cbn. clear. induction xs; cbn; congruence. }
  eapply Reads_for; [done|]. intros s x Hx.
  eapply Reads_bind_last; [by apply Hb | apply Reads_ret].
Qed.

Lemma Reads_flat {A C} (body : Rd (list C)) (enc : A -> Enc) (g : A -> list C) (P : A -> Prop) n xs :
  n = len xs -> Forall P xs -> (forall x, P x -> Reads body (enc x) (g x)) ->
  Reads (rd_flat n body) (enc_list enc xs) (concat (map g xs)).
Proof.
  intros -> HP Hb. unfold rd_flat.
  replace (concat (map g xs)) with (fold_left (fun out x => out ++ g x) xs [])
    by by rewrite fold_left_concat.
  eapply Reads_for; [done|]. intros s x Hx.
  eapply Reads_bind_last; [by apply Hb | apply Reads_ret].
Qed.

(** A decoder that reads a whole encoding returns the encoded value. *)
Lemma Reads_run {A} (r : Rd A) e a bs : Reads r e a -> e = Ok bs -> run r bs = Ok a.
Proof.
  intros H Hbs. specialize (H bs Hbs [] []). unfold run, FromBytes.
  rewrite app_nil_r, app_nil_l, len_nil in H. by rewrite H.
Qed.

(** Skip one field of a struct: [step] proves the field from the [reads]
    database, leaving range side conditions to [lia]. *)
Ltac solve_field :=
  first [ solve [eauto with reads]
        | eapply Reads_int8; unfold int8; lia
        | eapply Reads_int16; unfold int16; lia
        | eapply Reads_int32; unfold int32; lia
        | eapply Reads_int64; unfold int64; lia
        | eapply Reads_array_len; lia
        | eapply Reads_uvarint; lia ].
Ltac field := eapply Reads_bind; [solve_field|]; cbn beta.
Ltac last_field := eapply Reads_bind_last; [solve_field|]; cbn beta.
Ltac fields := repeat field.

(** ** Readers that look at the cursor *)

Definition reads_at {A} (pre post : bytes) (r : Rd A) (bs : bytes) (a : A) : Prop :=
  r (mkBuffer (pre ++ bs ++ post) (len pre)) =
    (mkBuffer (pre ++ bs ++ post) (len pre + len bs), Ok a).

Definition Reads_at {A} (pre post : bytes) (r : Rd A) (e : Enc) (a : A) : Prop :=
  forall bs, e = Ok bs -> reads_at pre post r bs a.

Lemma Reads_to_at {A} pre post (r : Rd A) e a : Reads r e a -> Reads_at pre post r e a.
Proof. intros H bs Hbs. by apply H. Qed.

Lemma Reads_of_at {A} (r : Rd A) e a :
  (forall pre post, Reads_at pre post r e a) -> Reads r e a.
Proof. intros H bs Hbs pre post. by apply H. Qed.

Lemma Reads_at_bind {A C} pre post (m : Rd A) (f : A -> Rd C) e1 e2 a c :
  Reads m e1 a ->
  (forall b1, e1 = Ok b1 -> Reads_at (pre ++ b1) post (f a) e2 c) ->
  Reads_at pre post (rbind m f) (e1 +++ e2) c.
Proof.
  intros Hm Hf bs Hbs. apply enc_app_ok in Hbs as (b1 & b2 & H1 & H2 & ->).
  unfold reads_at, rbind. rewrite <- (app_assoc b1). rewrite (Hm b1 H1).
  specialize (Hf b1 H1 b2 H2). unfold reads_at in Hf.
  rewrite len_app in Hf. rewrite <- !(app_assoc pre) in Hf. rewrite Hf.
  rewrite len_app. f_equal. f_equal. lia.
Qed.

Lemma enc_app_assoc x y z : (x +++ y) +++ z = x +++ (y +++ z).
Proof. destruct x, y, z; cbn; try done. by rewrite app_assoc. Qed.

Lemma enc_app_nil_r x : x +++ enc_nil = x.
Proof. destruct x; cbn; try done. by rewrite app_nil_r. Qed.

(** A loop with [break] that no element breaks. *)
Lemma Reads_for_brk {A T} (body : T -> Rd (T * bool)) (enc : A -> Enc) (step : T -> A -> T)
    (P : A -> Prop) xs s :
  Forall P xs ->
  (forall s x, P x -> Reads (body s) (enc x) (step s x, false)) ->
  Reads (rd_for_brk (len xs) body s) (enc_list enc xs) (fold_left step xs s, false).
Proof.
  intros HP Hbody bs Hbs pre post.
  rewrite rd_for_brk_nat. replace (Z.to_nat (len xs)) with (length xs) by (unfold len; lia).
  revert s bs Hbs pre post. induction HP as [|x xs Hx _ IH]; intros s bs Hbs pre post.
  - injection Hbs as <-. apply reads_ret.
  - rewrite enc_list_cons in Hbs. apply enc_app_ok in Hbs as (b1 & b2 & H1 & H2 & ->).
    cbn [length rd_nat_brk fold_left]. eapply reads_bind; [by apply Hbody|].
    intros pre' post'. by apply IH.
Qed.

(** ** Lengths of encodings *)

Definition ELen (e : Enc) (n : Z) : Prop := forall bs, e = Ok bs -> len bs = n.

Lemma ELen_app x y n m : ELen x n -> ELen y m -> ELen (x +++ y) (n + m).
Proof. intros Hx Hy bs (b1 & b2 & H1 & H2 & ->)%enc_app_ok. rewrite len_app, (Hx _ H1), (Hy _ H2). done. Qed.

Lemma ELen_raw s : ELen (raw s) (len s).
Proof. by intros bs [= <-]. Qed.

Lemma ELen_be n v : ELen (Ok (be_bytes n v)) (Z.of_nat n).
Proof. intros bs Hbs. assert (bs = be_bytes n v) as -> by congruence. apply len_be_bytes. Qed.

(** Step a decoder over a field at the cursor. *)
Lemma rbind_reads {A C} (m : Rd A) (f : A -> Rd C) bs a pre post :
  reads m bs a ->
  rbind m f (mkBuffer (pre ++ bs ++ post) (len pre)) =
  f a (mkBuffer ((pre ++ bs) ++ post) (len (pre ++ bs))).
Proof. intros H. unfold rbind. rewrite H, len_app, <- app_assoc. done. Qed.

Lemma reads_be8 v : int64 v -> reads ReadInt64 (be_bytes 8 v) v.
Proof. intros H. by apply (Reads_int64 v H). Qed.
Lemma reads_be4 v : int32 v -> reads ReadInt32 (be_bytes 4 v) v.
Proof. intros H. by apply (Reads_int32 v H). Qed.
Lemma reads_be4_wrap v : reads ReadInt32 (be_bytes 4 v) (s32 v).
Proof. by apply (Reads_int32_wrap v). Qed.
Lemma reads_be2 v : int16 v -> reads ReadInt16 (be_bytes 2 v) v.
Proof. intros H. by apply (Reads_int16 v H). Qed.
Lemma reads_be1 v : int8 v -> reads ReadInt8 (be_bytes 1 v) v.
Proof. intros H. by apply (Reads_int8 v H). Qed.
