(* ===== verification/Header.v ===== *)
(** API keys and versions, request and response headers, response framing and
    version negotiation: [internal/protocol/{keys,versions,flex,header}.go],
    [NegotiateVersion] of [internal/protocol/api_versions.go], the response
    framing of [internal/transport/conn.go] and the version bookkeeping of
    [internal/broker/cluster.go]. *)

From Stdlib Require Import ZArith Lia.
From Stdlib Require Import Strings.Byte.
From stdpp Require Import base list gmap countable strings.
From S2P Require Import Prelude.
From S2P Require Import Wire.

Open Scope Z_scope.

(** * API keys *)

Definition APIProduce := 0.
Definition APIFetch := 1.
Definition APIListOffsets := 2.
Definition APIMetadata := 3.
Definition APIOffsetCommit := 8.
Definition APIOffsetFetch := 9.
Definition APIFindCoordinator := 10.
Definition APIJoinGroup := 11.
Definition APIHeartbeat := 12.
Definition APILeaveGroup := 13.
Definition APISyncGroup := 14.
Definition APIDescribeGroups := 15.
Definition APIListGroups := 16.
Definition APISaslHandshake := 17.
Definition APIApiVersions := 18.
Definition APICreateTopics := 19.
Definition APIDeleteTopics := 20.
Definition APIDeleteRecords := 21.
Definition APIInitProducerID := 22.
Definition APIAddPartitionsTxn := 24.
Definition APIAddOffsetsToTxn := 25.
Definition APIEndTxn := 26.
Definition APITxnOffsetCommit := 28.
Definition APIDescribeAcls := 29.
Definition APICreateAcls := 30.
Definition APIDeleteAcls := 31.
Definition APIDescribeConfigs := 32.
Definition APIAlterConfigs := 33.
Definition APIDescribeLogDirs := 35.
Definition APISaslAuthenticate := 36.
Definition APICreatePartitions := 37.
Definition APICreateDelegationToken := 38.
Definition APIRenewDelegationToken := 39.
Definition APIExpireDelegationToken := 40.
Definition APIDescribeDelegationToken := 41.
Definition APIDeleteGroups := 42.
Definition APIElectLeaders := 43.
Definition APIIncrementalAlterConfigs := 44.
Definition APIAlterPartitionReassign := 45.
Definition APIListPartitionReassign := 46.
Definition APIOffsetDelete := 47.
Definition APIDescribeClientQuotas := 48.
Definition APIAlterClientQuotas := 49.
Definition APIDescribeUserScramCreds := 50.
Definition APIAlterUserScramCreds := 51.
Definition APIDescribeCluster := 60.
Definition APIDescribeTransactions := 65.
Definition APIListTransactions := 66.
Definition APIConsumerGroupHeartbeat := 68.
Definition APIShareGroupHeartbeat := 76.
Definition APIShareGroupDescribe := 77.
Definition APIShareFetch := 78.
Definition APIShareAcknowledge := 79.
Definition APIDescribeShareGroupOffsets := 90.
Definition APIAlterShareGroupOffsets := 91.
Definition APIDeleteShareGroupOffsets := 92.

(** A Go [switch] on an API key: the first clause whose key list holds the
    key, [default] otherwise. *)
Fixpoint switch {A} (k : Z) (clauses : list (list Z * A)) (dflt : A) : A :=
  match clauses with
  | [] => dflt
  | (ks, a) :: rest => if existsb (Z.eqb k) ks then a else switch k rest dflt
  end.

Definition flexibleRequestHeader (apiKey apiVersion : Z) : bool :=
  switch apiKey
    [([APIMetadata], apiVersion >=? 9);
     ([APIApiVersions], apiVersion >=? 3);
     ([APIProduce], apiVersion >=? 9);
     ([APIFetch], apiVersion >=? 12);
     ([APIListOffsets], apiVersion >=? 6);
     ([APIOffsetCommit], apiVersion >=? 8);
     ([APIOffsetFetch], apiVersion >=? 6);
     ([APIFindCoordinator], apiVersion >=? 3);
     ([APIJoinGroup], apiVersion >=? 6);
     ([APISyncGroup], apiVersion >=? 4);
     ([APIHeartbeat; APILeaveGroup], apiVersion >=? 4);
     ([APICreateTopics], apiVersion >=? 5);
     ([APIDeleteTopics], apiVersion >=? 4);
     ([APIListGroups], apiVersion >=? 3);
     ([APIDescribeGroups], apiVersion >=? 5);
     ([APIDescribeConfigs], apiVersion >=? 4);
     ([APIAlterConfigs], apiVersion >=? 2);
     ([APICreatePartitions; APIDeleteGroups], apiVersion >=? 2);
     ([APIDeleteRecords], apiVersion >=? 2);
     ([APIElectLeaders], apiVersion >=? 2);
     ([APIAlterPartitionReassign; APIListPartitionReassign], apiVersion >=? 0);
     ([APICreateDelegationToken; APIDescribeDelegationToken], apiVersion >=? 2);
     ([APIRenewDelegationToken; APIExpireDelegationToken], apiVersion >=? 2);
     ([APIDescribeLogDirs], apiVersion >=? 2);
     ([APIDescribeClientQuotas; APIAlterClientQuotas], apiVersion >=? 1);
     ([APIAlterUserScramCreds; APIDescribeUserScramCreds], apiVersion >=? 0);
     ([APIDescribeTransactions; APIListTransactions], apiVersion >=? 0);
     ([APIIncrementalAlterConfigs], apiVersion >=? 1);
     ([APICreateAcls; APIDescribeAcls; APIDeleteAcls], apiVersion >=? 2);
     ([APISaslAuthenticate], apiVersion >=? 3);
     ([APIDescribeCluster], apiVersion >=? 1);
     ([APIInitProducerID], apiVersion >=? 2);
     ([APIAddOffsetsToTxn; APITxnOffsetCommit], apiVersion >=? 3);
     ([APIAddPartitionsTxn], apiVersion >=? 3);
     ([APIEndTxn], apiVersion >=? 3);
     ([APIConsumerGroupHeartbeat], apiVersion >=? 0);
     ([APIShareGroupHeartbeat; APIShareGroupDescribe; APIShareFetch; APIShareAcknowledge],
        apiVersion >=? 1);
     ([APIDescribeShareGroupOffsets; APIAlterShareGroupOffsets; APIDeleteShareGroupOffsets],
        apiVersion >=? 0)]
    false.

Definition flexibleResponseHeader (apiKey apiVersion : Z) : bool :=
  if apiKey =? APIApiVersions then false else flexibleRequestHeader apiKey apiVersion.

(** The highest version the client implements; -1 for an API it does not. *)
Definition ClientVersion (apiKey : Z) : Z :=
  switch apiKey
    [([APIProduce], 12); ([APIFetch], 13); ([APIListOffsets], 3); ([APIMetadata], 12);
     ([APIOffsetCommit], 8); ([APIOffsetFetch], 9); ([APIFindCoordinator], 3);
     ([APIJoinGroup], 6); ([APIHeartbeat], 4); ([APILeaveGroup], 5); ([APISyncGroup], 5);
     ([APICreateTopics], 4); ([APIDeleteTopics], 6); ([APIApiVersions], 3);
     ([APIListGroups], 2); ([APIDescribeGroups], 5); ([APIDescribeConfigs], 4);
     ([APIAlterConfigs], 2); ([APICreatePartitions], 2); ([APIDeleteGroups], 2);
     ([APIDeleteRecords], 2); ([APIElectLeaders], 2); ([APIAlterPartitionReassign], 0);
     ([APIListPartitionReassign], 0); ([APICreateDelegationToken], 3);
     ([APIRenewDelegationToken], 2); ([APIExpireDelegationToken], 2);
     ([APIDescribeDelegationToken], 3); ([APIDescribeLogDirs], 5);
     ([APIDescribeClientQuotas], 1); ([APIAlterClientQuotas], 1);
     ([APIAlterUserScramCreds], 0); ([APIDescribeUserScramCreds], 0);
     ([APIDescribeTransactions], 0); ([APIListTransactions], 2);
     ([APIIncrementalAlterConfigs], 0); ([APIOffsetDelete], 0); ([APICreateAcls], 1);
     ([APIDescribeAcls], 1); ([APIDeleteAcls], 1); ([APIDescribeCluster], 1);
     ([APISaslHandshake], 1); ([APISaslAuthenticate], 1); ([APIInitProducerID], 0);
     ([APIAddOffsetsToTxn], 3); ([APITxnOffsetCommit], 3); ([APIAddPartitionsTxn], 1);
     ([APIEndTxn], 5); ([APIConsumerGroupHeartbeat], 1); ([APIShareGroupHeartbeat], 1);
     ([APIShareGroupDescribe], 1); ([APIShareFetch], 2); ([APIShareAcknowledge], 2);
     ([APIDescribeShareGroupOffsets], 0); ([APIAlterShareGroupOffsets], 0);
     ([APIDeleteShareGroupOffsets], 0)]
    (-1).

(** * Request header *)

Record RequestHeader := mkRequestHeader {
  rh_APIKey : Z; rh_APIVersion : Z; rh_CorrelationID : Z; rh_ClientID : bytes }.

Definition RequestHeaderVersion (apiKey apiVersion : Z) : Z :=
  if flexibleRequestHeader apiKey apiVersion then 2 else 1.

Definition EncodeRequest (h : RequestHeader) (body : bytes) : Enc :=
  let? out :=
    raw [Byte.x00; Byte.x00; Byte.x00; Byte.x00] +++
    WriteInt16 (rh_APIKey h) +++
    WriteInt16 (rh_APIVersion h) +++
    WriteInt32 (rh_CorrelationID h) +++
    (if RequestHeaderVersion (rh_APIKey h) (rh_APIVersion h) >=? 2
     then WriteString (rh_ClientID h) +++ WriteEmptyTagSection
     else WriteString (rh_ClientID h)) +++
    raw body
  in Ok (PatchLength out).

(** * Response header *)

(** [int(int32(raw[0])<<24 | int32(raw[1])<<16 | int32(raw[2])<<8 | int32(raw[3]))] *)
Definition frame_size (raw : bytes) : res Z :=
  let? b0 := index raw 0 in
  let? b1 := index raw 1 in
  let? b2 := index raw 2 in
  let? b3 := index raw 3 in
  Ok (Z.lor (Z.lor (Z.lor (s32 (Z.shiftl (b2z b0) 24)) (Z.shiftl (b2z b1) 16))
        (Z.shiftl (b2z b2) 8)) (b2z b3)).

(** Returns the correlation id and the number of bytes of the frame. *)
Definition DecodeResponseHeader (raw : bytes) : res (Z * Z) :=
  if len raw <? 8 then Err ErrShortBuffer else
  let? size := frame_size raw in
  if len raw <? 4 + size then Err ErrShortBuffer else
  let? body := slice raw 4 (4 + size) in
  let? id := run ReadInt32 body in
  Ok (id, 4 + size).

Definition ResponseBodyForAPI (raw : bytes) (apiKey apiVersion : Z) : res bytes :=
  if len raw <? 8 then Err ErrShortBuffer else
  let? size := frame_size raw in
  if len raw <? 4 + size then Err ErrShortBuffer else
  let? body := slice raw 4 (4 + size) in
  run (ReadInt32 ;;;
       (if flexibleResponseHeader apiKey apiVersion then SkipTagSection else ret tt) ;;;
       rd_remaining) body.

(** ** Transport framing *)

(** What [requestLocked] returns from the bytes the broker sends: the size
    prefix, the limit, then the body.  An incomplete read is an error. *)
Definition read_frame (maxResponseBytes : Z) (stream : bytes) : res (bytes * bytes) :=
  if len stream <? 4 then Err (FmtError "transport: read size" 0) else
  let sizeBuf := take 4 stream in
  let? b0 := index sizeBuf 0 in
  let? b1 := index sizeBuf 1 in
  let? b2 := index sizeBuf 2 in
  let? b3 := index sizeBuf 3 in
  let size := Z.lor (Z.lor (Z.lor (Z.shiftl (b2z b0) 24) (Z.shiftl (b2z b1) 16))
                (Z.shiftl (b2z b2) 8)) (b2z b3) in
  if (size <? 0) || (size >? maxResponseBytes)
  then Err (FmtError "transport: response size exceeds limit" size) else
  if len stream - 4 <? size then Err (FmtError "transport: read body" 0) else
  Ok (sizeBuf ++ take (Z.to_nat size) (drop 4 stream),
      drop (Z.to_nat size) (drop 4 stream)).

(** * Version negotiation *)

Record ApiVersion := mkApiVersion { av_APIKey : Z; av_MinVersion : Z; av_MaxVersion : Z }.

Fixpoint negotiate_loop (versions : list ApiVersion) (apiKey clientMax : Z) : Z :=
  match versions with
  | [] => clientMax
  | v :: rest =>
      if negb (av_APIKey v =? apiKey) then negotiate_loop rest apiKey clientMax
      else if clientMax <? av_MinVersion v then 0
      else if clientMax >? av_MaxVersion v then av_MaxVersion v
      else clientMax
  end.

Definition NegotiateVersion (versions : list ApiVersion) (apiKey clientMax : Z) : Z :=
  if clientMax <=? 0 then 0 else negotiate_loop versions apiKey clientMax.

(** The map [Cluster.NegotiateVersions] stores from an ApiVersions response. *)
Definition negotiated_step (versions : list ApiVersion) (m : gmap Z Z) (v : ApiVersion) : gmap Z Z :=
  let clientMax := ClientVersion (av_APIKey v) in
  if (clientMax <? 0) || (clientMax <? av_MinVersion v) then m
  else <[av_APIKey v := NegotiateVersion versions (av_APIKey v) clientMax]> m.

Definition NegotiateVersions (versions : list ApiVersion) : gmap Z Z :=
  fold_left (negotiated_step versions) versions ∅.

(** [apiVersions] is [None] before the first negotiation (a nil map). *)
Definition negotiatedVersion (apiVersions : option (gmap Z Z)) (apiKey fallback : Z) : Z :=
  match apiVersions with
  | None => fallback
  | Some m => default fallback (m !! apiKey)
  end.

(** The version [Request] and [requestSeed] put on the wire. *)
Definition request_version (apiVersions : option (gmap Z Z)) (apiKey apiVersion : Z) : Z :=
  let v := negotiatedVersion apiVersions apiKey apiVersion in
  if (v >? 0) && (apiVersion >? v) then v else apiVersion.

Definition AdvertisesAPI (apiVersions : option (gmap Z Z)) (apiKey : Z) : bool :=
  match apiVersions with
  | None => true
  | Some m => if decide (m = ∅) then true else bool_decide (is_Some (m !! apiKey))
  end.

(** * Properties of headers and frames *)

Lemma bytes4 (l : bytes) : 4 <= len l -> exists b0 b1 b2 b3 rest, l = b0 :: b1 :: b2 :: b3 :: rest.
Proof.
  intros H. destruct l as [|b0 [|b1 [|b2 [|b3 rest]]]]; try (unfold len in H; cbn in H; lia).
  eauto 10.
Qed.

Lemma index4 {A} (b0 b1 b2 b3 : A) rest :
  let l := b0 :: b1 :: b2 :: b3 :: rest in
  index l 0 = Ok b0 /\ index l 1 = Ok b1 /\ index l 2 = Ok b2 /\ index l 3 = Ok b3.
Proof. done. Qed.

Lemma be_value4 b0 b1 b2 b3 :
  be_value [b0; b1; b2; b3] = b2z b0 * 2 ^ 24 + b2z b1 * 2 ^ 16 + b2z b2 * 2 ^ 8 + b2z b3.
Proof. cbn [be_value fold_left]. unfold be_value. cbn [fold_left]. lia. Qed.

Lemma lor4 h b1 b2 b3 :
  Z.lor (Z.lor (Z.lor (Z.shiftl h 24) (Z.shiftl (b2z b1) 16)) (Z.shiftl (b2z b2) 8)) (b2z b3) =
  h * 2 ^ 24 + b2z b1 * 2 ^ 16 + b2z b2 * 2 ^ 8 + b2z b3.
Proof.
  pose proof (b2z_range b1). pose proof (b2z_range b2). pose proof (b2z_range b3).
  rewrite (Z.lor_comm _ (b2z b3)), (Z.lor_comm _ (Z.shiftl (b2z b2) 8)),
    (Z.lor_comm _ (Z.shiftl (b2z b1) 16)).
  rewrite !Z.lor_assoc.
  rewrite (lor_shiftl_add (b2z b3)) by lia.
  rewrite (lor_shiftl_add _ (b2z b1)) by lia.
  rewrite (lor_shiftl_add _ h) by lia. lia.
Qed.

(** The shifts of the code compute the signed big-endian size field. *)
Lemma frame_size_spec raw : 4 <= len raw -> frame_size raw = Ok (s32 (be_value (take 4 raw))).
Proof.
  intros H. destruct (bytes4 raw H) as (b0 & b1 & b2 & b3 & rest & ->).
  change (take 4 (b0 :: b1 :: b2 :: b3 :: rest)) with [b0; b1; b2; b3].
  unfold frame_size. destruct (index4 b0 b1 b2 b3 rest) as (-> & -> & -> & ->). cbn [res_bind].
  rewrite be_value4. f_equal.
  assert (Hs : s32 (Z.shiftl (b2z b0) 24) = Z.shiftl (s8 (b2z b0)) 24).
  { rewrite !Z.shiftl_mul_pow2 by lia. pose proof (b2z_range b0). unfold s32, s8, sgn.
    cbn -[Z.mul Z.modulo Z.add Z.sub]. Z.div_mod_to_equations. lia. }
  rewrite Hs, lor4. pose proof (b2z_range b0). pose proof (b2z_range b1).
  pose proof (b2z_range b2). pose proof (b2z_range b3).
  unfold s32, s8, sgn. cbn -[Z.mul Z.modulo Z.add Z.sub]. Z.div_mod_to_equations. lia.
Qed.

Lemma run_skip_safe k v body :
  run (ReadInt32 ;;;
       (if flexibleResponseHeader k v then SkipTagSection else ret tt) ;;;
       rd_remaining) body <> Panic.
Proof. apply safe_run. solve_safe. Qed.

(** The code panics exactly on frames of at least eight bytes whose size
    field is negative. *)
Lemma response_body_panic raw k v :
  ResponseBodyForAPI raw k v = Panic <-> 8 <= len raw /\ s32 (be_value (take 4 raw)) < 0.
Proof.
  unfold ResponseBodyForAPI. destruct (Z.ltb_spec (len raw) 8); [split; [done|lia]|].
  rewrite frame_size_spec by lia. cbn [res_bind].
  set (size := s32 _). destruct (Z.ltb_spec (len raw) (4 + size)); [split; [done|lia]|].
  destruct (slice raw 4 (4 + size)) as [body|e|] eqn:E.
  - cbn [res_bind]. apply slice_len in E as E'. pose proof (len_nonneg body).
    split; [intros Hp; by apply run_skip_safe in Hp | lia].
  - unfold slice in E. by destruct (_ && _).
  - apply slice_panic in E. split; [lia | done].
Qed.

Lemma be_value_lor4 b0 b1 b2 b3 :
  Z.lor (Z.lor (Z.lor (Z.shiftl (b2z b0) 24) (Z.shiftl (b2z b1) 16)) (Z.shiftl (b2z b2) 8)) (b2z b3) =
  be_value [b0; b1; b2; b3].
Proof. by rewrite lor4, be_value4. Qed.

(** The frame [read_frame] returns is a prefix of the stream whose size field
    is the length of what follows it, within the limit. *)
Lemma read_frame_spec maxb stream frame rest :
  read_frame maxb stream = Ok (frame, rest) ->
  frame ++ rest = stream /\ 4 <= len frame /\
  be_value (take 4 frame) = len frame - 4 /\ len frame - 4 <= maxb.
Proof.
  unfold read_frame. destruct (Z.ltb_spec (len stream) 4); [done|].
  destruct (bytes4 stream ltac:(lia)) as (b0 & b1 & b2 & b3 & tl & ->).
  change (take 4 (b0 :: b1 :: b2 :: b3 :: tl)) with [b0; b1; b2; b3].
  change (drop 4 (b0 :: b1 :: b2 :: b3 :: tl)) with tl.
  destruct (index4 b0 b1 b2 b3 []) as (-> & -> & -> & ->). cbn [res_bind].
  rewrite be_value_lor4.
  pose proof (be_value_bound [b0; b1; b2; b3]).
  set (size := be_value _) in *. destruct (_ || _) eqn:E; [done|]. zbool.
  destruct (Z.ltb_spec (len (b0 :: b1 :: b2 :: b3 :: tl) - 4) size); [done|].
  intros [= <- <-]. rewrite !len_cons in *.
  assert (len (take (Z.to_nat size) tl) = size) as Hl.
  { unfold len in *. rewrite length_take. lia. }
  split; [cbn [app]; by rewrite take_drop|].
  change (take 4 (b0 :: b1 :: b2 :: b3 :: take (Z.to_nat size) tl)) with [b0; b1; b2; b3].
  fold size. lia.
Qed.

(** A frame the transport accepts under a response limit below 2^31 (the
    default is 64 MiB) never makes the response-header code panic, and the
    transport consumes exactly that frame from the stream. *)
Theorem accepted_frame_safe maxb stream frame rest k v :
  maxb < 2 ^ 31 ->
  read_frame maxb stream = Ok (frame, rest) ->
  ResponseBodyForAPI frame k v <> Panic /\ frame ++ rest = stream.
Proof.
  intros Hm Hf. apply read_frame_spec in Hf as (Hs & H4 & Hv & Hl). split; [|done].
  rewrite response_body_panic, Hv. intros [H8 Hn].
  rewrite s32_id in Hn by (unfold int32; lia). lia.
Qed.

Lemma accepted_frame_safe_witness :
  let stream := be_bytes 4 5 ++ be_bytes 4 7 ++ [Byte.x00] ++ [Byte.x01] in
  let frame := be_bytes 4 5 ++ be_bytes 4 7 ++ [Byte.x00] in
  read_frame 64 stream = Ok (frame, [Byte.x01]) /\
  (ResponseBodyForAPI frame APIProduce 9 <> Panic /\ frame ++ [Byte.x01] = stream).
Proof.
  split; [reflexivity|].
  apply (accepted_frame_safe 64 _ _ _ APIProduce 9); [lia | reflexivity].
Defined.

(** The response-header code trusts the size field: a frame of at least
    eight bytes whose size field is negative makes both entry points panic
    (the slice [raw[4:4+size]] is inverted) instead of returning an error. *)
Theorem negative_size_panics raw k v :
  8 <= len raw -> s32 (be_value (take 4 raw)) < 0 ->
  DecodeResponseHeader raw = Panic /\ ResponseBodyForAPI raw k v = Panic.
Proof.
  intros H8 Hn. split; [|by apply response_body_panic].
  unfold DecodeResponseHeader. destruct (Z.ltb_spec (len raw) 8); [lia|].
  rewrite frame_size_spec by lia. cbn [res_bind].
  destruct (Z.ltb_spec (len raw) (4 + s32 (be_value (take 4 raw)))); [lia|].
  replace (slice raw 4 _) with (@Panic bytes); [done|].
  symmetry. apply slice_panic. lia.
Qed.

Lemma negative_size_panics_witness :
  let raw := be_bytes 4 (-1) ++ be_bytes 4 7 in
  8 <= len raw /\ (DecodeResponseHeader raw = Panic /\ ResponseBodyForAPI raw APIFetch 12 = Panic).
Proof.
  split; [vm_compute; discriminate|].
  apply negative_size_panics; vm_compute; [discriminate | reflexivity].
Defined.

(** ** Negotiation *)

Definition first_version (versions : list ApiVersion) (k : Z) : option ApiVersion :=
  List.find (fun v => av_APIKey v =? k) versions.

Lemma negotiate_loop_spec versions k cm :
  negotiate_loop versions k cm =
  match first_version versions k with
  | None => cm
  | Some v => if cm <? av_MinVersion v then 0 else Z.min cm (av_MaxVersion v)
  end.
Proof.
  unfold first_version. induction versions as [|v vs IH]; [done|]. cbn.
  destruct (av_APIKey v =? k); cbn; [|done].
  destruct (cm <? _); [done|]. destruct (cm >? av_MaxVersion v) eqn:E; zbool; lia.
Qed.

Definition wf_version (v : ApiVersion) : Prop := 0 <= av_MinVersion v <= av_MaxVersion v.

Lemma first_version_unique vs v :
  NoDup (map av_APIKey vs) -> v ∈ vs -> first_version vs (av_APIKey v) = Some v.
Proof.
  unfold first_version. intros Hnd Hin. induction vs as [|w vs IH].
  { by apply not_elem_of_nil in Hin. }
  cbn in *. apply NoDup_cons in Hnd as [Hw Hnd].
  apply elem_of_cons in Hin as [->|Hin]; [by rewrite Z.eqb_refl|].
  destruct (Z.eqb_spec (av_APIKey w) (av_APIKey v)) as [E|]; [|by apply IH].
  exfalso. apply Hw. rewrite E. by apply list_elem_of_fmap_2.
Qed.

(** What the negotiated map holds for the API of [v]. *)
Definition negotiated_entry (v : ApiVersion) (n : Z) : Prop :=
  0 <= ClientVersion (av_APIKey v) /\ av_MinVersion v <= ClientVersion (av_APIKey v) /\
  n = Z.min (ClientVersion (av_APIKey v)) (av_MaxVersion v).

Lemma negotiated_step_lookup all v m k n :
  NoDup (map av_APIKey all) -> v ∈ all -> wf_version v ->
  negotiated_step all m v !! k = Some n <->
  (av_APIKey v = k /\ negotiated_entry v n) \/
  (m !! k = Some n /\ ~ (av_APIKey v = k /\ exists n', negotiated_entry v n')).
Proof.
  intros Hnd Hin [Hw1 Hw2]. unfold negotiated_step, negotiated_entry.
  set (c := ClientVersion _). destruct (_ || _) eqn:E.
  - apply orb_prop in E. destruct E; zbool; naive_solver lia.
  - zbool. assert (Hv : NegotiateVersion all (av_APIKey v) c = Z.min c (av_MaxVersion v)).
    { unfold NegotiateVersion. rewrite negotiate_loop_spec, first_version_unique by done.
      destruct (Z.leb_spec c 0); [lia|]. destruct (Z.ltb_spec c (av_MinVersion v)); lia. }
    rewrite Hv, lookup_insert. case_decide as Hk.
    + split; [|naive_solver lia]. intros [= <-]. left. auto.
    + naive_solver.
Qed.

Lemma negotiated_fold_lookup all vs m k n :
  NoDup (map av_APIKey all) -> NoDup (map av_APIKey vs) ->
  (forall v, v ∈ vs -> v ∈ all /\ wf_version v) ->
  (forall v, v ∈ vs -> m !! av_APIKey v = None) ->
  fold_left (negotiated_step all) vs m !! k = Some n <->
  m !! k = Some n \/ exists v, v ∈ vs /\ av_APIKey v = k /\ negotiated_entry v n.
Proof.
  intros Hall. revert m. induction vs as [|v vs IH]; intros m Hnd Hvs Hm; cbn [fold_left].
  { split; [auto|]. intros [?|(v & Hv & _)]; [done|]. by apply not_elem_of_nil in Hv. }
  cbn in Hnd. apply NoDup_cons in Hnd as [Hv Hnd].
  destruct (Hvs v ltac:(left)) as [Hin Hwf].
  rewrite IH; [|done| intros; apply Hvs; by right |].
  - rewrite negotiated_step_lookup by done. split.
    + intros [[[Hk He]|[Hm1 _]]|(w & Hw & ?)]; [right|by left|right].
      * exists v. split; [left | done].
      * exists w. split; [by right | done].
    + intros [H1|(w & [->|Hw]%elem_of_cons & Hk & He)].
      * left. right. split; [done|]. intros [Hk _]. specialize (Hm v ltac:(left)). congruence.
      * left. by left.
      * right. eauto.
  - intros w Hw. destruct (negotiated_step all m v !! av_APIKey w) as [x|] eqn:E; [|done].
    apply negotiated_step_lookup in E as [[Hk _]|[Hx _]]; try done.
    + exfalso. apply Hv. rewrite Hk. by apply list_elem_of_fmap_2.
    + specialize (Hm w ltac:(by right)). congruence.
Qed.

(** Version negotiation.  When the broker advertises each API once, with a
    well-formed range, the negotiated map holds version [n] for API [k]
    exactly when the broker advertises [k], the client implements it, the
    ranges meet, and [n] is the highest version both sides support. *)
Theorem negotiated_versions_spec vs k n :
  NoDup (map av_APIKey vs) -> Forall wf_version vs ->
  NegotiateVersions vs !! k = Some n <->
  exists v, v ∈ vs /\ av_APIKey v = k /\ 0 <= ClientVersion k /\
    av_MinVersion v <= n <= av_MaxVersion v /\ n <= ClientVersion k /\
    forall n', av_MinVersion v <= n' <= av_MaxVersion v -> n' <= ClientVersion k -> n' <= n.
Proof.
  intros Hnd Hwf. rewrite Forall_forall in Hwf. unfold NegotiateVersions.
  rewrite negotiated_fold_lookup; [|done|done| intros; split; [done|] |].
  - rewrite lookup_empty. split.
    + intros [?|(v & Hv & <- & Hc & Hmin & ->)]; [done|]. destruct (Hwf v Hv).
      exists v. repeat split; try done; lia.
    + intros (v & Hv & <- & Hc & [Hr1 Hr2] & Hle & Hbest). right. exists v.
      destruct (Hwf v Hv). repeat split; try done; [lia|].
      specialize (Hbest (Z.min (ClientVersion (av_APIKey v)) (av_MaxVersion v))). lia.
  - by apply Hwf.
  - intros. apply lookup_empty.
Qed.

Lemma negotiated_versions_spec_witness :
  NegotiateVersions [mkApiVersion APIProduce 3 9; mkApiVersion APIFetch 4 17] !! APIFetch = Some 13.
Proof.
  apply negotiated_versions_spec.
  - by apply (bool_decide_unpack _).
  - repeat constructor; cbn; lia.
  - exists (mkApiVersion APIFetch 4 17). repeat split; try (vm_compute; congruence); cbn; try lia.
    right. left.
Defined.

(** The version put on the wire never exceeds a negotiated non-zero
    version, and is the caller's version when that is lower; but a negotiated
    version 0 does not lower the caller's version. *)
Theorem request_version_spec m k v n :
  m !! k = Some n ->
  request_version (Some m) k v = if n =? 0 then v else if 0 <? n then Z.min v n else v.
Proof.
  intros H. unfold request_version, negotiatedVersion. rewrite H. cbn.
  destruct (Z.eqb_spec n 0) as [->|]; [done|]. rewrite !Z.gtb_ltb.
  destruct (Z.ltb_spec 0 n); cbn; [|done]. destruct (Z.ltb_spec n v); lia.
Qed.

Lemma request_version_spec_witness :
  request_version (Some {[APIListTransactions := 0]}) APIListTransactions 2 = 2.
Proof. rewrite (request_version_spec _ _ _ 0); reflexivity. Defined.
