(* ===== verification/Checksum.v ===== *)
(** CRC-32 as Go's [hash/crc32] computes it: the reflected table-free form,
    for the Castagnoli polynomial (record batches) and the IEEE polynomial
    ([CRC32Partitioner]). *)

From Stdlib Require Import ZArith Lia.
From Stdlib Require Import Strings.Byte.
From stdpp Require Import base list countable strings.
From S2P Require Import Prelude.

Open Scope Z_scope.

Definition Castagnoli : Z := 0x82f63b78.
Definition IEEE : Z := 0xedb88320.

Definition crc_bit (poly crc : Z) : Z :=
  if Z.testbit crc 0 then Z.lxor (Z.shiftr crc 1) poly else Z.shiftr crc 1.

Definition crc_byte (poly crc : Z) (b : byte) : Z :=
  Nat.iter 8 (crc_bit poly) (Z.lxor crc (b2z b)).

(** [crc32.Checksum(data, MakeTable(poly))] *)
Definition crc32 (poly : Z) (data : bytes) : Z :=
  Z.lxor (fold_left (crc_byte poly) data 0xffffffff) 0xffffffff.

(** The check value of CRC-32C, and of CRC-32. *)
Example crc32c_check : crc32 Castagnoli (str "123456789") = 0xe3069283.
Proof. vm_compute. reflexivity. Qed.
Example crc32_check : crc32 IEEE (str "123456789") = 0xcbf43926.
Proof. vm_compute. reflexivity. Qed.

Lemma lxor_range k a b : 0 <= k -> 0 <= a < 2 ^ k -> 0 <= b < 2 ^ k -> 0 <= Z.lxor a b < 2 ^ k.
Proof.
  intros Hk Ha Hb. assert (0 <= Z.lxor a b) by (apply Z.lxor_nonneg; lia). split; [done|].
  assert (Z.lxor a b = Z.lxor a b mod 2 ^ k) as ->; [|apply Z.mod_pos_bound; lia].
  apply Z.bits_inj'. intros n Hn. destruct (Z.ltb_spec n k).
  - by rewrite Z.mod_pow2_bits_low by lia.
  - rewrite Z.mod_pow2_bits_high, Z.lxor_spec by lia.
    rewrite <- (Z.mod_small a (2 ^ k)), <- (Z.mod_small b (2 ^ k)) by lia.
    by rewrite !Z.mod_pow2_bits_high by lia.
Qed.

Lemma crc_bit_range poly crc :
  0 <= poly < 2 ^ 32 -> 0 <= crc < 2 ^ 32 -> 0 <= crc_bit poly crc < 2 ^ 32.
Proof.
  intros Hp Hc. unfold crc_bit.
  assert (0 <= Z.shiftr crc 1 < 2 ^ 32).
  { rewrite Z.shiftr_div_pow2 by lia. split; [apply Z.div_pos; lia|].
    apply Z.div_lt_upper_bound; lia. }
  destruct (Z.testbit crc 0); [by apply lxor_range | done].
Qed.

Lemma crc_byte_range poly crc b :
  0 <= poly < 2 ^ 32 -> 0 <= crc < 2 ^ 32 -> 0 <= crc_byte poly crc b < 2 ^ 32.
Proof.
  intros Hp Hc. unfold crc_byte.
  assert (0 <= Z.lxor crc (b2z b) < 2 ^ 32) as H.
  { apply lxor_range; try lia. pose proof (b2z_range b). lia. }
  revert H. generalize (Z.lxor crc (b2z b)). intros c H.
  apply Nat.iter_invariant; [|done]. intros. by apply crc_bit_range.
Qed.

(** The checksum is a 32-bit value. *)
Lemma crc32_range poly data : 0 <= poly < 2 ^ 32 -> 0 <= crc32 poly data < 2 ^ 32.
Proof.
  intros Hp. unfold crc32. apply lxor_range; try lia.
  assert (forall c, 0 <= c < 2 ^ 32 -> 0 <= fold_left (crc_byte poly) data c < 2 ^ 32) as H.
  { induction data as [|b data IH]; intros c Hc; cbn [fold_left]; [done|].
    apply IH. by apply crc_byte_range. }
  apply H. lia.
Qed.
