(* ===== verification/ZstdBits.v ===== *)
(** The bit streams of the Zstandard codec: the readers of
    [internal/compress/zstd/bits.go], the writer of [bitwriter.go], and what they
    are for each other.

    A stream is written low bits first and read back from its end, so it is a
    stack: [Written] says which number of how many bits a writer has written,
    [Unread] which one a reader has before it, and reading gives what was
    written last.

    The offsets that the readers put into their errors are dropped by
    [zstd.Decode], the only caller, and are not modelled. *)

From Stdlib Require Import ZArith Lia.
From Stdlib Require Import Strings.Byte.
From stdpp Require Import base list gmap countable strings.
From S2P Require Import Prelude.

Open Scope Z_scope.

(** * Errors, arrays and little-endian numbers *)

(** A [zstdError] (its offset left out), and the two errors of the [io] package
    that the reader meets. *)
Definition zstd_prefix : string := "zstd decompression error: ".
Definition makeError (msg : string) : error := FmtError (zstd_prefix +:+ msg) 0.
Definition makeEOFError : error := makeError "unexpected EOF".
Definition ErrUnexpectedEOF : error := FmtError "unexpected EOF" 0.
Definition EOF : error := NetError.

(** The assignment [l[i] = x]. *)
Definition assign {A} (l : list A) (i : Z) (x : A) : res (list A) :=
  if (0 <=? i) && (i <? len l) then Ok (<[Z.to_nat i := x]> l) else Panic.

(** [binary.LittleEndian]. *)
Fixpoint le_value (bs : bytes) : Z :=
  match bs with
  | [] => 0
  | b :: rest => b2z b + 256 * le_value rest
  end.

Fixpoint le_bytes (n : nat) (z : Z) : bytes :=
  match n with
  | O => []
  | S m => z2b z :: le_bytes m (z / 256)
  end.

(** [bits.Len32]; [bits.LeadingZeros8] and its like are the width less it. *)
Definition bitlen (v : Z) : Z := if v =? 0 then 0 else Z.log2 v + 1.

(** * Reading forward *)

Record bitReader := mkBitReader {
  br_data : bytes;
  br_off : Z;
  br_bits : Z;
  br_cnt : Z }.

Definition makeBitReader (data : bytes) (off : Z) : bitReader := mkBitReader data (u32 off) 0 0.

(** The loop adds a byte until 16 bits are there: two rounds from [cnt = 0]. *)
Fixpoint moreBits_loop (fuel : nat) (br : bitReader) : res bitReader :=
  if br_cnt br >=? 16 then Ok br else
  match fuel with
  | O => Panic
  | S f =>
      if br_off br >=? len (br_data br) then Err makeEOFError else
      let? c := index (br_data br) (br_off br) in
      moreBits_loop f (mkBitReader (br_data br) (u32 (br_off br + 1))
        (Z.lor (br_bits br) (u32 (Z.shiftl (b2z c) (br_cnt br)))) (u32 (br_cnt br + 8)))
  end.

Definition moreBits (br : bitReader) : res bitReader := moreBits_loop 2 br.

(** [br.bits >>= n; br.cnt -= n]. *)
Definition br_skip (br : bitReader) (n : Z) : bitReader :=
  mkBitReader (br_data br) (br_off br) (Z.shiftr (br_bits br) n) (u32 (br_cnt br - n)).

Definition br_val (br : bitReader) (b : Z) : Z * bitReader :=
  (Z.land (br_bits br) (Z.shiftl 1 b - 1), br_skip br b).

Fixpoint backup_loop (fuel : nat) (br : bitReader) : bitReader :=
  match fuel with
  | O => br
  | S f =>
      if br_cnt br >=? 8
      then backup_loop f (mkBitReader (br_data br) (u32 (br_off br - 1)) (br_bits br) (br_cnt br - 8))
      else br
  end.

Definition backup (br : bitReader) : bitReader := backup_loop (Z.to_nat (br_cnt br)) br.

(** * Reading backward *)

Record reverseBitReader := mkReverseBitReader {
  rb_data : bytes;
  rb_off : Z;
  rb_start : Z;
  rb_bits : Z;
  rb_cnt : Z }.

Definition makeReverseBitReader (data : bytes) (off start : Z) : res reverseBitReader :=
  let? streamStart := index data off in
  if b2z streamStart =? 0 then Err (makeError "zero byte at reverse bit stream start") else
  Ok (mkReverseBitReader data (u32 off) (u32 start) (b2z streamStart) (7 - (8 - bitlen (b2z streamStart)))).

(** [fetch] adds a byte until [b] bits, at most 255, are there. *)
Fixpoint fetch_loop (fuel : nat) (rbr : reverseBitReader) (b : Z) : res (bool * reverseBitReader) :=
  if rb_cnt rbr >=? b then Ok (true, rbr) else
  match fuel with
  | O => Panic
  | S f =>
      if rb_off rbr <=? rb_start rbr then Ok (false, rbr) else
      let off := u32 (rb_off rbr - 1) in
      let? c := index (rb_data rbr) off in
      fetch_loop f (mkReverseBitReader (rb_data rbr) off (rb_start rbr)
        (Z.lor (u32 (Z.shiftl (rb_bits rbr) 8)) (b2z c)) (u32 (rb_cnt rbr + 8))) b
  end.

Definition fetch (rbr : reverseBitReader) (b : Z) : res (bool * reverseBitReader) := fetch_loop 32 rbr b.

(** [rbr.cnt -= n]. *)
Definition rb_drop (rbr : reverseBitReader) (n : Z) : reverseBitReader :=
  mkReverseBitReader (rb_data rbr) (rb_off rbr) (rb_start rbr) (rb_bits rbr) (u32 (rb_cnt rbr - n)).

Definition rb_val (rbr : reverseBitReader) (b : Z) : res (Z * reverseBitReader) :=
  let? fr := fetch rbr b in
  let '(ok, rbr) := fr in
  if negb ok then Err makeEOFError else
  let rbr := rb_drop rbr b in
  Ok (Z.land (Z.shiftr (rb_bits rbr) (rb_cnt rbr)) (Z.shiftl 1 b - 1), rbr).

(** * Writing *)

Definition bitMask16 : list Z := [
  0; 1; 3; 7; 0xF; 0x1F;
  0x3F; 0x7F; 0xFF; 0x1FF; 0x3FF; 0x7FF;
  0xFFF; 0x1FFF; 0x3FFF; 0x7FFF; 0xFFFF; 0xFFFF;
  0xFFFF; 0xFFFF; 0xFFFF; 0xFFFF; 0xFFFF; 0xFFFF;
  0xFFFF; 0xFFFF; 0xFFFF; 0xFFFF; 0xFFFF; 0xFFFF; 0xFFFF; 0xFFFF].

Definition bitMask32 : list Z := [
  0; 1; 3; 7; 0xF; 0x1F; 0x3F; 0x7F; 0xFF;
  0x1FF; 0x3FF; 0x7FF; 0xFFF; 0x1FFF; 0x3FFF; 0x7FFF; 0xFFFF;
  0x1ffff; 0x3ffff; 0x7FFFF; 0xfFFFF; 0x1fFFFF; 0x3fFFFF; 0x7fFFFF; 0xffFFFF;
  0x1ffFFFF; 0x3ffFFFF; 0x7ffFFFF; 0xfffFFFF; 0x1fffFFFF; 0x3fffFFFF; 0x7fffFFFF].

(** [mask[bits&31]], always within the 32 entries. *)
Definition mask_at (mask : list Z) (bits : Z) : Z := default 0 (mask !! Z.to_nat (Z.land bits 31)).

Record bitWriter := mkBitWriter {
  bw_bitContainer : Z;
  bw_nBits : Z;
  bw_out : bytes }.

Definition bw_reset (out : bytes) : bitWriter := mkBitWriter 0 0 out.

(** The common part of the three [addBits]. *)
Definition bw_or (w : bitWriter) (value bits : Z) : bitWriter :=
  mkBitWriter (Z.lor (bw_bitContainer w) (u64 (Z.shiftl value (Z.land (bw_nBits w) 63))))
    (u8 (bw_nBits w + bits)) (bw_out w).

Definition addBits16NC (w : bitWriter) (value bits : Z) : bitWriter :=
  bw_or w (Z.land value (mask_at bitMask16 bits)) bits.

Definition addBits32NC (w : bitWriter) (value bits : Z) : bitWriter :=
  bw_or w (Z.land value (mask_at bitMask32 bits)) bits.

Definition addBits16Clean (w : bitWriter) (value bits : Z) : bitWriter := bw_or w value bits.

Definition flush32 (w : bitWriter) : bitWriter :=
  if bw_nBits w <? 32 then w else
  let c := bw_bitContainer w in
  mkBitWriter (Z.shiftr c 32) (bw_nBits w - 32)
    (bw_out w ++ [z2b c; z2b (Z.shiftr c 8); z2b (Z.shiftr c 16); z2b (Z.shiftr c 24)]).

Fixpoint flush_bytes (n : nat) (i c : Z) : bytes :=
  match n with
  | O => []
  | S m => z2b (Z.shiftr c (i * 8)) :: flush_bytes m (i + 1) c
  end.

Definition flushAlign (w : bitWriter) : bitWriter :=
  let nbBytes := Z.shiftr (u8 (bw_nBits w + 7)) 3 in
  mkBitWriter 0 0 (bw_out w ++ flush_bytes (Z.to_nat nbBytes) 0 (bw_bitContainer w)).

Definition bw_close (w : bitWriter) : bitWriter := flushAlign (addBits16Clean w 1 1).

(** * Lemmas *)

Lemma index_middle {A} (pre : list A) x post : index (pre ++ x :: post) (len pre) = Ok x.
Proof.
  unfold index. pose proof (len_nonneg pre). destruct (Z.leb_spec 0 (len pre)); [|lia].
  unfold len. by rewrite Nat2Z.id, list_lookup_middle.
Qed.

Lemma index_lookup {A} (l : list A) i x : index l i = Ok x <-> 0 <= i /\ l !! Z.to_nat i = Some x.
Proof.
  unfold index. destruct (Z.leb_spec 0 i); [|split; [done|lia]].
  destruct (l !! Z.to_nat i); naive_solver.
Qed.

Lemma index_ok {A} (l : list A) i : 0 <= i < len l -> exists x, index l i = Ok x /\ l !! Z.to_nat i = Some x.
Proof.
  intros Hi. destruct (lookup_lt_is_Some_2 l (Z.to_nat i)) as [x Hx]; [unfold len in Hi; lia|].
  exists x. split; [|done]. apply index_lookup. split; [lia|done].
Qed.

Lemma assign_ok {A} (l : list A) i x : 0 <= i < len l -> assign l i x = Ok (<[Z.to_nat i := x]> l).
Proof. intros Hi. unfold assign. destruct (Z.leb_spec 0 i), (Z.ltb_spec i (len l)); done || lia. Qed.

Lemma len_insert {A} (l : list A) i x : len (<[i := x]> l) = len l.
Proof. unfold len. by rewrite length_insert. Qed.

Lemma le_value_app a b : le_value (a ++ b) = le_value a + 2 ^ (8 * len a) * le_value b.
Proof.
  induction a as [|x a IH]; [cbn [app]; change (le_value []) with 0; change (2 ^ (8 * len [])) with 1; lia|].
  cbn [app le_value]. rewrite IH, len_cons. replace (8 * (1 + len a)) with (8 + 8 * len a) by lia.
  rewrite Z.pow_add_r by (pose proof (len_nonneg a); lia). change (2 ^ 8) with 256. ring.
Qed.

Lemma le_value_bound bs : 0 <= le_value bs < 2 ^ (8 * len bs).
Proof.
  induction bs as [|b bs IH]; [done|]. cbn [le_value]. rewrite len_cons. pose proof (b2z_range b).
  replace (8 * (1 + len bs)) with (8 + 8 * len bs) by lia.
  rewrite Z.pow_add_r by (pose proof (len_nonneg bs); lia). change (2 ^ 8) with 256. lia.
Qed.

Lemma length_le_bytes n z : length (le_bytes n z) = n.
Proof. revert z. induction n as [|n IH]; intros z; [done|]. cbn. by rewrite IH. Qed.

Lemma len_le_bytes n z : len (le_bytes n z) = Z.of_nat n.
Proof. unfold len. by rewrite length_le_bytes. Qed.

Lemma le_value_le_bytes n z : le_value (le_bytes n z) = z mod 2 ^ (8 * Z.of_nat n).
Proof.
  revert z. induction n as [|n IH]; intros z; [cbn; by rewrite Z.mod_1_r|].
  cbn [le_bytes le_value]. rewrite IH, b2z_z2b.
  replace (8 * Z.of_nat (S n)) with (8 + 8 * Z.of_nat n) by lia. rewrite Z.pow_add_r by lia.
  change (2 ^ 8) with 256. rewrite Z.rem_mul_r by lia. lia.
Qed.

Lemma flush_bytes_le n i c : 0 <= i -> flush_bytes n i c = le_bytes n (Z.shiftr c (i * 8)).
Proof.
  revert i. induction n as [|n IH]; intros i Hi; [done|]. cbn [flush_bytes le_bytes]. f_equal.
  rewrite IH by lia. f_equal. change 256 with (2 ^ 8). rewrite <- Z.shiftr_div_pow2 by lia.
  rewrite Z.shiftr_shiftr by lia. f_equal. lia.
Qed.

Lemma land_ones_mod a b : 0 <= b -> Z.land a (Z.shiftl 1 b - 1) = a mod 2 ^ b.
Proof.
  intros Hb. by rewrite <- Z.land_ones by done.
Qed.

Lemma mask16_mod value b : 0 <= b <= 16 -> Z.land value (mask_at bitMask16 b) = value mod 2 ^ b.
Proof.
  intros Hb. rewrite <- Z.land_ones by lia. f_equal.
  assert (forallb (fun b => mask_at bitMask16 b =? Z.ones b) (map Z.of_nat (seq 0 17)) = true) as Hall by reflexivity.
  rewrite forallb_forall in Hall. apply Z.eqb_eq, Hall, in_map_iff. exists (Z.to_nat b).
  split; [lia|]. apply in_seq. lia.
Qed.

Lemma mask32_mod value b : 0 <= b <= 31 -> Z.land value (mask_at bitMask32 b) = value mod 2 ^ b.
Proof.
  intros Hb. rewrite <- Z.land_ones by lia. f_equal.
  assert (forallb (fun b => mask_at bitMask32 b =? Z.ones b) (map Z.of_nat (seq 0 32)) = true) as Hall by reflexivity.
  rewrite forallb_forall in Hall. apply Z.eqb_eq, Hall, in_map_iff. exists (Z.to_nat b).
  split; [lia|]. apply in_seq. lia.
Qed.

(** ** The stack of bits *)

(** [w] has written, after [pre], the number [v] in [n] bits. *)
Definition Written (pre : bytes) (w : bitWriter) (v n : Z) : Prop :=
  exists s, bw_out w = pre ++ s /\ n = 8 * len s + bw_nBits w /\
    v = le_value s + 2 ^ (8 * len s) * bw_bitContainer w /\
    0 <= bw_nBits w /\ 0 <= bw_bitContainer w < 2 ^ bw_nBits w.

(** [r] has the number [v] in [n] bits before it. *)
Definition Unread (r : reverseBitReader) (v n : Z) : Prop :=
  exists pre s post, rb_data r = pre ++ s ++ post /\ len (rb_data r) < 2 ^ 32 /\
    rb_start r = len pre /\ rb_off r = len pre + len s /\
    n = rb_cnt r + 8 * len s /\
    v = (rb_bits r mod 2 ^ rb_cnt r) * 2 ^ (8 * len s) + le_value s /\
    0 <= rb_cnt r < 2 ^ 31 /\ 0 <= rb_bits r < 2 ^ 32.

Lemma Written_reset pre : Written pre (bw_reset pre) 0 0.
Proof. exists []. rewrite app_nil_r. cbn. split_and!; done || lia. Qed.

Lemma Written_bound pre w v n : Written pre w v n -> 0 <= n /\ 0 <= v < 2 ^ n.
Proof.
  intros (s & _ & -> & -> & Hn & Hc). pose proof (le_value_bound s). pose proof (len_nonneg s).
  split; [lia|]. rewrite Z.pow_add_r by lia. nia.
Qed.

Lemma Written_or pre w v n x b :
  Written pre w v n -> 0 <= b -> bw_nBits w + b <= 64 -> bw_nBits w < 64 -> 0 <= x < 2 ^ b ->
  Written pre (bw_or w x b) (v + x * 2 ^ n) (n + b) /\ bw_nBits (bw_or w x b) = bw_nBits w + b.
Proof.
  intros (s & Ho & -> & -> & Hn & Hc) Hb H64 Hlt Hx.
  assert (0 <= x * 2 ^ bw_nBits w /\ x * 2 ^ bw_nBits w + bw_bitContainer w < 2 ^ (bw_nBits w + b)) as [Hx0 Hxb].
  { rewrite Z.pow_add_r by lia. nia. }
  assert (2 ^ (bw_nBits w + b) <= 2 ^ 64) as Hp by (apply Z.pow_le_mono_r; lia).
  assert (bw_or w x b = mkBitWriter (bw_bitContainer w + x * 2 ^ bw_nBits w) (bw_nBits w + b) (bw_out w)) as ->.
  { unfold bw_or. change 63 with (Z.ones 6). rewrite Z.land_ones by lia.
    rewrite (Z.mod_small (bw_nBits w)) by (change (2 ^ 6) with 64; lia).
    unfold u64, u8. rewrite (Z.mod_small (bw_nBits w + b)) by (change (2 ^ 8) with 256; lia).
    rewrite Z.mod_small by (rewrite Z.shiftl_mul_pow2 by lia; lia). by rewrite lor_shiftl_add by lia. }
  split; [|done]. exists s. cbn [bw_out bw_nBits bw_bitContainer]. pose proof (len_nonneg s).
  split_and!; try done; try lia. rewrite (Z.pow_add_r 2 (8 * len s)) by lia. lia.
Qed.

Lemma Written_add16 pre w v n x b :
  Written pre w v n -> 0 <= b <= 16 -> bw_nBits w + b < 64 ->
  Written pre (addBits16NC w x b) (v + (x mod 2 ^ b) * 2 ^ n) (n + b) /\
  bw_nBits (addBits16NC w x b) = bw_nBits w + b.
Proof.
  intros Hw Hb H64. unfold addBits16NC. rewrite mask16_mod by done.
  apply Written_or; try done; try lia. apply Z.mod_pos_bound. lia.
Qed.

Lemma Written_add32 pre w v n x b :
  Written pre w v n -> 0 <= b <= 31 -> bw_nBits w + b < 64 ->
  Written pre (addBits32NC w x b) (v + (x mod 2 ^ b) * 2 ^ n) (n + b) /\
  bw_nBits (addBits32NC w x b) = bw_nBits w + b.
Proof.
  intros Hw Hb H64. unfold addBits32NC. rewrite mask32_mod by done.
  apply Written_or; try done; try lia. apply Z.mod_pos_bound. lia.
Qed.

Lemma le4_bytes c : [z2b c; z2b (Z.shiftr c 8); z2b (Z.shiftr c 16); z2b (Z.shiftr c 24)] = le_bytes 4 c.
Proof.
  cbn [le_bytes]. rewrite !Z.shiftr_div_pow2 by lia. change (2 ^ 8) with 256.
  change (2 ^ 16) with (256 * 256). change (2 ^ 24) with (256 * 256 * 256). by rewrite <- !Z.div_div by lia.
Qed.

Lemma Written_flush32 pre w v n :
  Written pre w v n -> bw_nBits w < 64 ->
  Written pre (flush32 w) v n /\ 0 <= bw_nBits (flush32 w) < 32.
Proof.
  intros (s & Ho & -> & -> & Hn & Hc) H64. unfold flush32.
  destruct (Z.ltb_spec (bw_nBits w) 32); [split; [by exists s|lia]|].
  cbn [bw_out bw_nBits bw_bitContainer]. split; [|lia].
  exists (s ++ le_bytes 4 (bw_bitContainer w)). cbn [bw_out bw_nBits bw_bitContainer].
  rewrite le4_bytes, Ho, app_assoc, len_app, len_le_bytes, le_value_app, le_value_le_bytes. pose proof (len_nonneg s).
  split_and!; try done; try lia.
  - replace (8 * (len s + Z.of_nat 4)) with (8 * len s + 32) by lia. rewrite Z.pow_add_r by lia.
    rewrite Z.shiftr_div_pow2 by lia. change (8 * Z.of_nat 4) with 32.
    rewrite (Z.div_mod (bw_bitContainer w) (2 ^ 32)) at 1 by lia. lia.
  - rewrite Z.shiftr_div_pow2 by lia. apply Z.div_pos; lia.
  - rewrite Z.shiftr_div_pow2 by lia. apply Z.div_lt_upper_bound; [lia|]. rewrite <- Z.pow_add_r by lia.
    replace (32 + (bw_nBits w - 32)) with (bw_nBits w) by lia. lia.
Qed.

(** Closing adds a one on top and pads the last byte with zeros. *)
Lemma Written_close pre w v n :
  Written pre w v n -> bw_nBits w < 64 ->
  exists s, bw_out (bw_close w) = pre ++ s /\ le_value s = v + 2 ^ n /\ 8 * len s - 8 <= n < 8 * len s.
Proof.
  intros Hw H64. destruct (Written_or pre w v n 1 1 Hw) as [Hc Hn]; [lia..|].
  rewrite Z.mul_1_l in Hc. unfold bw_close, addBits16Clean. set (w' := bw_or w 1 1) in *.
  destruct Hc as (s & Ho & Hn' & Hv & Hnb & Hc). unfold flushAlign. cbn [bw_out].
  rewrite flush_bytes_le by lia. change (0 * 8) with 0. rewrite Z.shiftr_0_r.
  assert (0 <= bw_nBits w) by (destruct Hw as (? & _ & _ & _ & ? & _); lia).
  unfold u8. rewrite Z.mod_small by (change (2 ^ 8) with 256; lia). rewrite Z.shiftr_div_pow2 by lia. change (2 ^ 3) with 8.
  set (k := (bw_nBits w' + 7) / 8).
  pose proof (Z.div_mod (bw_nBits w' + 7) 8 ltac:(lia)). pose proof (Z.mod_pos_bound (bw_nBits w' + 7) 8 ltac:(lia)).
  fold k in H0. assert (0 <= k) by (apply Z.div_pos; lia).
  exists (s ++ le_bytes (Z.to_nat k) (bw_bitContainer w')).
  rewrite Ho, app_assoc, le_value_app, le_value_le_bytes, len_app, len_le_bytes, Z2Nat.id by lia.
  split; [done|]. split; [|lia]. rewrite Z.mod_small; [lia|]. split; [lia|].
  eapply Z.lt_le_trans; [apply Hc|]. apply Z.pow_le_mono_r; lia.
Qed.

(** ** Reading *)

Lemma Unread_bound r v n : Unread r v n -> 0 <= n /\ 0 <= v < 2 ^ n.
Proof.
  intros (pre & s & post & _ & _ & _ & _ & -> & -> & Hc & _). pose proof (le_value_bound s). pose proof (len_nonneg s).
  pose proof (Z.mod_pos_bound (rb_bits r) (2 ^ rb_cnt r) ltac:(lia)).
  split; [lia|]. rewrite Z.pow_add_r by lia. nia.
Qed.

(** Fetching a byte moves it from the stream to the ready bits. *)
Lemma Unread_byte r v n :
  Unread r v n -> rb_cnt r < 24 -> rb_cnt r < n ->
  let off := u32 (rb_off r - 1) in
  (rb_off r <=? rb_start r) = false /\
  exists c, index (rb_data r) off = Ok c /\
    Unread (mkReverseBitReader (rb_data r) off (rb_start r)
      (Z.lor (u32 (Z.shiftl (rb_bits r) 8)) (b2z c)) (u32 (rb_cnt r + 8))) v n.
Proof.
  intros (pre & s & post & Hd & Hl & Hs & Ho & Hn & Hv & Hc & Hb) Hc24 Hlt. cbv zeta.
  destruct s as [|c s _] using rev_ind; [change (len []) with 0 in *; lia|].
  rewrite le_value_app in Hv. rewrite len_app in *. change (len [c]) with 1 in *.
  change (le_value [c]) with (b2z c + 256 * 0) in Hv. pose proof (b2z_range c).
  pose proof (len_nonneg s). pose proof (len_nonneg pre). pose proof (len_nonneg post).
  split; [apply Z.leb_gt; lia|].
  assert (u32 (rb_off r - 1) = len (pre ++ s)) as ->.
  { unfold u32. rewrite len_app, Z.mod_small; [lia|]. rewrite Hd, !len_app in Hl. change (len [c]) with 1 in Hl. lia. }
  exists c. replace (rb_data r) with ((pre ++ s) ++ c :: post) by (rewrite Hd; by rewrite <- !app_assoc).
  split; [apply index_middle|]. exists pre, s, (c :: post). cbn [rb_data rb_off rb_start rb_bits rb_cnt].
  unfold u32. rewrite (Z.mod_small (rb_cnt r + 8)) by lia.
  assert (Z.lor (Z.shiftl (rb_bits r) 8 mod 2 ^ 32) (b2z c) = (rb_bits r mod 2 ^ 24) * 2 ^ 8 + b2z c) as ->.
  { rewrite Z.shiftl_mul_pow2 by lia. change (2 ^ 32) with (2 ^ 24 * 2 ^ 8). rewrite Z.mul_mod_distr_r by lia.
    rewrite Z.lor_comm, <- Z.shiftl_mul_pow2, lor_shiftl_add by lia. rewrite Z.shiftl_mul_pow2 by lia. lia. }
  pose proof (Z.mod_pos_bound (rb_bits r) (2 ^ 24) ltac:(lia)).
  split; [by rewrite <- app_assoc|]. split.
  { rewrite Hd in Hl. rewrite !len_app in *. rewrite len_cons. change (len [c]) with 1 in Hl. lia. }
  rewrite len_app. split_and!; try done; try lia. rewrite Hv.
  rewrite (Z.add_comm (rb_cnt r) 8), Z.pow_add_r by lia.
  assert (((rb_bits r mod 2 ^ 24) * 2 ^ 8 + b2z c) mod (2 ^ 8 * 2 ^ rb_cnt r) = (rb_bits r mod 2 ^ rb_cnt r) * 2 ^ 8 + b2z c) as ->.
  { rewrite Z.rem_mul_r by lia. rewrite (Z.add_comm (_ * 2 ^ 8)), Z.mod_add, Z.div_add by lia.
    rewrite (Z.mod_small (b2z c)), (Z.div_small (b2z c)) by (change (2 ^ 8) with 256; lia). rewrite Z.add_0_l.
    replace (2 ^ 24) with (2 ^ rb_cnt r * 2 ^ (24 - rb_cnt r)) by (rewrite <- Z.pow_add_r by lia; f_equal; lia).
    rewrite (Z.rem_mul_r (rb_bits r)) by lia.
    rewrite (Z.mul_comm (2 ^ rb_cnt r) (_ mod _)), Z.mod_add, Z.mod_mod by lia. lia. }
  replace (8 * (len s + 1)) with (8 * len s + 8) by lia. rewrite Z.pow_add_r by lia. lia.
Qed.

Lemma fetch_loop_ok fuel r v n b :
  Unread r v n -> b <= 24 -> b <= n -> rb_cnt r <= 31 -> (Z.to_nat (b - rb_cnt r) <= 8 * fuel)%nat ->
  exists r', fetch_loop fuel r b = Ok (true, r') /\ Unread r' v n /\ b <= rb_cnt r' <= 31.
Proof.
  revert r. induction fuel as [|fuel IH]; intros r Hu Hb Hn Hc Hf; cbn [fetch_loop].
  - destruct (Z.geb_spec (rb_cnt r) b); [eauto|lia].
  - destruct (Z.geb_spec (rb_cnt r) b); [eauto|].
    destruct (Unread_byte r v n Hu) as (Hle & c & Hi & Hu'); [lia..|]. rewrite Hle, Hi. cbn [res_bind].
    destruct Hu as (? & ? & ? & _ & _ & _ & _ & _ & _ & Hcnt & _).
    apply IH; try done; cbn [rb_cnt]; unfold u32; rewrite Z.mod_small; lia.
Qed.

(** Reading takes the topmost bits. *)
Lemma rb_val_ok r v n b :
  Unread r v n -> 0 <= b <= 24 -> b <= n -> rb_cnt r <= 31 ->
  exists r', rb_val r b = Ok (v / 2 ^ (n - b), r') /\ Unread r' (v mod 2 ^ (n - b)) (n - b) /\ rb_cnt r' <= 31.
Proof.
  intros Hu Hb Hn Hc. unfold rb_val, fetch.
  destruct (fetch_loop_ok 32 r v n b) as (r' & -> & Hu' & Hc'); try done; [lia|destruct Hu as (? & ? & ? & _ & _ & _ & _ & _ & _ & Hcnt & _); lia|].
  cbn [res_bind negb]. exists (rb_drop r' b). unfold rb_drop. cbn [rb_bits rb_cnt].
  destruct Hu' as (pre & s & post & Hd & Hl & Hs & Ho & Hn' & Hv & Hcnt & Hbits).
  unfold u32. rewrite (Z.mod_small (rb_cnt r' - b)) by lia. rewrite land_ones_mod by lia. rewrite Z.shiftr_div_pow2 by lia.
  pose proof (len_nonneg s). pose proof (le_value_bound s).
  set (k := rb_cnt r' - b) in *. assert (n - b = k + 8 * len s) as -> by lia.
  assert (rb_bits r' mod 2 ^ rb_cnt r' = ((rb_bits r' / 2 ^ k) mod 2 ^ b) * 2 ^ k + rb_bits r' mod 2 ^ k) as Hsplit.
  { replace (rb_cnt r') with (k + b) by lia. rewrite Z.pow_add_r by lia. rewrite Z.rem_mul_r by lia. lia. }
  set (hi := (rb_bits r' / 2 ^ k) mod 2 ^ b) in *. set (lo := rb_bits r' mod 2 ^ k) in *.
  assert (0 <= lo < 2 ^ k) by (apply Z.mod_pos_bound; lia).
  assert (0 <= lo * 2 ^ (8 * len s) + le_value s < 2 ^ (k + 8 * len s)) as Hlow by (rewrite Z.pow_add_r by lia; nia).
  assert (v = hi * 2 ^ (k + 8 * len s) + (lo * 2 ^ (8 * len s) + le_value s)) as ->.
  { rewrite Hv, Hsplit, Z.pow_add_r by lia. ring. }
  split; [|split; [|lia]].
  - do 2 f_equal. rewrite Z.div_add_l, Z.div_small by lia. lia.
  - exists pre, s, post. cbn [rb_data rb_off rb_start rb_bits rb_cnt]. fold k. fold lo.
    split_and!; try done; try lia. rewrite Z.add_comm, Z.mod_add, Z.mod_small by lia. done.
Qed.

(** What was written last is read first. *)
Lemma rb_val_written r v n x b :
  Unread r (v + x * 2 ^ n) (n + b) -> 0 <= b <= 24 -> 0 <= n -> 0 <= v < 2 ^ n -> rb_cnt r <= 31 ->
  exists r', rb_val r b = Ok (x, r') /\ Unread r' v n /\ rb_cnt r' <= 31.
Proof.
  intros Hu Hb Hn Hv Hc. destruct (rb_val_ok r _ _ b Hu) as (r' & Hr & Hu' & Hc'); [lia..|].
  rewrite Z.add_simpl_r in *. exists r'. rewrite Hr.
  rewrite Z.div_add, Z.div_small, Z.add_0_l by lia. rewrite Z.mod_add, Z.mod_small in Hu' by lia. done.
Qed.

(** A reader of a closed stream is before everything that was written. *)
Lemma makeReverseBitReader_ok pre s v n :
  le_value s = v + 2 ^ n -> 8 * len s - 8 <= n < 8 * len s -> 0 <= v < 2 ^ n -> len (pre ++ s) < 2 ^ 32 ->
  exists r, makeReverseBitReader (pre ++ s) (len (pre ++ s) - 1) (len pre) = Ok r /\ Unread r v n /\ rb_cnt r <= 31.
Proof.
  intros Hs Hn Hv Hl. destruct s as [|c s _] using rev_ind; [change (len []) with 0 in Hn; rewrite Z.pow_neg_r in Hv by lia; lia|].
  rewrite le_value_app in Hs. rewrite len_app in Hn. change (len [c]) with 1 in Hn.
  change (le_value [c]) with (b2z c + 256 * 0) in Hs. pose proof (b2z_range c). pose proof (le_value_bound s). pose proof (len_nonneg s). pose proof (len_nonneg pre).
  unfold makeReverseBitReader. rewrite app_assoc in *. rewrite len_app in *. change (len [c]) with 1 in *.
  rewrite Z.add_simpl_r, index_middle. cbn [res_bind].
  set (m := n - 8 * len s) in *. assert (n = 8 * len s + m) as Hnm by lia. rewrite Hnm, Z.pow_add_r in * by lia.
  assert (0 < 2 ^ (8 * len s)) by lia. assert (0 < 2 ^ m) by (apply Z.pow_pos_nonneg; lia).
  assert (Z.log2 (b2z c) = m) as Hlog.
  { apply Z.log2_unique; [lia|]. rewrite Z.pow_succ_r by lia. nia. }
  destruct (Z.eqb_spec (b2z c) 0) as [Hz|]; [nia|]. unfold bitlen. destruct (Z.eqb_spec (b2z c) 0); [done|].
  rewrite Hlog. replace (7 - (8 - (m + 1))) with m by lia.
  eexists. split; [reflexivity|]. split; [|cbn [rb_cnt]; lia].
  exists pre, s, [c]. cbn [rb_data rb_off rb_start rb_bits rb_cnt]. unfold u32. rewrite !len_app in *. change (len [c]) with 1 in *.
  rewrite (Z.mod_small (len pre + len s)), (Z.mod_small (len pre)) by lia. rewrite <- app_assoc. split; [done|]. split; [lia|].
  split_and!; try done; try lia.
  assert (b2z c mod 2 ^ m = b2z c - 2 ^ m) as ->; [|lia].
  symmetry. apply Z.mod_unique with 1; [|lia]. left. pose proof (Z.log2_spec (b2z c) ltac:(lia)) as Hsp.
  rewrite Hlog, Z.pow_succ_r in Hsp by lia. lia.
Qed.

Lemma Unread_empty r v : Unread r v 0 -> rb_cnt r = 0.
Proof. intros (pre & s & post & _ & _ & _ & _ & Hn & _ & Hc & _). pose proof (len_nonneg s). lia. Qed.
