(* ===== verification/ZstdFse.v ===== *)
(** Finite state entropy coding of the Zstandard codec: the sequence codes of
    [internal/compress/zstd/seq.go], the decoding tables of [fse.go] and the
    encoder of [fse_enc.go]. *)

From Stdlib Require Import ZArith Lia.
From Stdlib Require Import Strings.Byte.
From stdpp Require Import base list gmap countable strings.
From S2P Require Import Prelude.
From S2P Require Import ZstdBits.

Open Scope Z_scope.

(** * Sequences and their codes *)

Definition zstdMinMatch : Z := 3.

Definition llCodeTable : list Z := [
  0; 1; 2; 3; 4; 5; 6; 7;
  8; 9; 10; 11; 12; 13; 14; 15;
  16; 16; 17; 17; 18; 18; 19; 19;
  20; 20; 20; 20; 21; 21; 21; 21;
  22; 22; 22; 22; 22; 22; 22; 22;
  23; 23; 23; 23; 23; 23; 23; 23;
  24; 24; 24; 24; 24; 24; 24; 24;
  24; 24; 24; 24; 24; 24; 24; 24].

Definition llBitsTable : list Z := [
  0; 0; 0; 0; 0; 0; 0; 0;
  0; 0; 0; 0; 0; 0; 0; 0;
  1; 1; 1; 1; 2; 2; 3; 3;
  4; 6; 7; 8; 9; 10; 11; 12;
  13; 14; 15; 16].

Definition mlCodeTable : list Z := [
  0; 1; 2; 3; 4; 5; 6; 7; 8; 9; 10; 11; 12; 13; 14; 15;
  16; 17; 18; 19; 20; 21; 22; 23; 24; 25; 26; 27; 28; 29; 30; 31;
  32; 32; 33; 33; 34; 34; 35; 35; 36; 36; 36; 36; 37; 37; 37; 37;
  38; 38; 38; 38; 38; 38; 38; 38; 39; 39; 39; 39; 39; 39; 39; 39;
  40; 40; 40; 40; 40; 40; 40; 40; 40; 40; 40; 40; 40; 40; 40; 40;
  41; 41; 41; 41; 41; 41; 41; 41; 41; 41; 41; 41; 41; 41; 41; 41;
  42; 42; 42; 42; 42; 42; 42; 42; 42; 42; 42; 42; 42; 42; 42; 42;
  42; 42; 42; 42; 42; 42; 42; 42; 42; 42; 42; 42; 42; 42; 42; 42].

Definition mlBitsTable : list Z := [
  0; 0; 0; 0; 0; 0; 0; 0;
  0; 0; 0; 0; 0; 0; 0; 0;
  0; 0; 0; 0; 0; 0; 0; 0;
  0; 0; 0; 0; 0; 0; 0; 0;
  1; 1; 1; 1; 2; 2; 3; 3;
  4; 4; 5; 7; 8; 9; 10; 11;
  12; 13; 14; 15; 16].

Definition highBit32 (v : Z) : Z := if v =? 0 then 0 else u32 (bitlen v - 1).

Definition llCode (litLength : Z) : Z :=
  if litLength <=? 63 then default 0 (llCodeTable !! Z.to_nat (Z.land litLength 63))
  else u8 (highBit32 litLength + 19).

Definition mlCode (mlBase : Z) : Z :=
  if mlBase <=? 127 then default 0 (mlCodeTable !! Z.to_nat (Z.land mlBase 127))
  else u8 (highBit32 mlBase + 36).

Definition ofCode (offset : Z) : Z := u8 (bitlen offset - 1).

Record seq := mkSeq {
  s_litLen : Z;
  s_matchLen : Z;
  s_offset : Z;
  s_llCode : Z;
  s_mlCode : Z;
  s_ofCode : Z }.

(** A literal [seq{...}] followed by [setCodes]. *)
Definition setCodes (litLen matchLen offset : Z) : seq :=
  mkSeq litLen matchLen offset (llCode litLen) (mlCode matchLen) (ofCode offset).

(** The three offsets used last. *)
Definition recents : Type := Z * Z * Z.

Definition recentOffsets : recents := (1, 4, 8).

Definition encodeMatchOffset (offset lits : Z) (recent : recents) : Z * recents :=
  let '(r0, r1, r2) := recent in
  if lits >? 0 then
    if offset =? r0 then (1, recent)
    else if offset =? r1 then (2, (offset, r0, r2))
    else if offset =? r2 then (3, (offset, r0, r1))
    else (u32 (offset + 3), (offset, r0, r1))
  else
    if offset =? r1 then (1, (offset, r0, r2))
    else if offset =? r2 then (2, (offset, r0, r1))
    else if offset =? u32 (r0 - 1) then (3, (offset, r0, r1))
    else (u32 (offset + 3), (offset, r0, r1)).

(** * Decoding tables *)

Record fseEntry := mkFseEntry {
  fe_sym : Z;
  fe_bits : Z;
  fe_base : Z }.

Definition zero_entry : fseEntry := mkFseEntry 0 0 0.

(** [table[i].sym = s]. *)
Definition set_sym (table : list fseEntry) (i s : Z) : res (list fseEntry) :=
  let? e := index table i in assign table i (mkFseEntry s (fe_bits e) (fe_base e)).

(** The first loop: symbols of probability -1 take the last cells. *)
Fixpoint build_low (i : Z) (norm : list Z) (table : list fseEntry) (highThreshold : Z) (next : list Z)
    : res (list fseEntry * Z * list Z) :=
  match norm with
  | [] => Ok (table, highThreshold, next)
  | n :: rest =>
      if n >=? 0 then
        let? next := assign next (u8 i) (u16 n) in build_low (i + 1) rest table highThreshold next
      else
        let? table := set_sym table highThreshold (u8 i) in
        let? next := assign next (u8 i) 1 in
        build_low (i + 1) rest table (highThreshold - 1) next
  end.

(** [for pos > highThreshold { pos = (pos + step) & mask }], after one step. *)
Fixpoint skip_high (fuel : nat) (pos step mask highThreshold : Z) : res Z :=
  match fuel with
  | O => Panic
  | S f =>
      let pos := Z.land (pos + step) mask in
      if pos >? highThreshold then skip_high f pos step mask highThreshold else Ok pos
  end.

(** [for j := 0; j < n; j++]: the cells of one symbol. *)
Fixpoint spread_one (n : nat) (sym : Z) (table : list fseEntry) (pos step mask highThreshold : Z)
    : res (list fseEntry * Z) :=
  match n with
  | O => Ok (table, pos)
  | S m =>
      let? table := set_sym table pos sym in
      let? pos := skip_high (Z.to_nat (mask + 1)) pos step mask highThreshold in
      spread_one m sym table pos step mask highThreshold
  end.

Fixpoint spread (i : Z) (norm : list Z) (table : list fseEntry) (pos step mask highThreshold : Z)
    : res (list fseEntry * Z) :=
  match norm with
  | [] => Ok (table, pos)
  | n :: rest =>
      let? tp := spread_one (Z.to_nat n) (u8 i) table pos step mask highThreshold in
      spread (i + 1) rest (fst tp) (snd tp) step mask highThreshold
  end.

(** The last loop numbers the states of every symbol; a shift by a negative
    count panics. *)
Fixpoint number_states (n : nat) (i : Z) (table : list fseEntry) (next : list Z) (tableBits tableSize : Z)
    : res (list fseEntry) :=
  match n with
  | O => Ok table
  | S m =>
      let? e := index table i in
      let? nextState := index next (fe_sym e) in
      let? next := assign next (fe_sym e) (u16 (nextState + 1)) in
      if nextState =? 0 then Err (makeError "FSE state error") else
      let highBit := 15 - (16 - bitlen nextState) in
      let bits := tableBits - highBit in
      if bits <? 0 then Panic else
      let? table := assign table i
        (mkFseEntry (fe_sym e) (u8 bits) (u16 (u16 (Z.shiftl nextState bits) - u16 tableSize))) in
      number_states m (i + 1) table next tableBits tableSize
  end.

Definition buildFSE (norm : list Z) (table : list fseEntry) (tableBits : Z) : res (list fseEntry) :=
  let tableSize := Z.shiftl 1 tableBits in
  let? low := build_low 0 norm table (tableSize - 1) (replicate 256 0) in
  let '(table, highThreshold, next) := low in
  let step := Z.shiftr tableSize 1 + Z.shiftr tableSize 3 + 3 in
  let? tp := spread 0 norm table 0 step (tableSize - 1) highThreshold in
  if negb (snd tp =? 0) then Err (makeError "FSE count error") else
  number_states (Z.to_nat tableSize) 0 (fst tp) next tableBits tableSize.

(** ** Reading a table *)

(** [for (br.bits & m) == m { zsym += add; skip }], with a read after each. *)
Fixpoint zero_runs (fuel : nat) (m add skip zsym : Z) (br : bitReader) : res (Z * bitReader) :=
  match fuel with
  | O => Panic
  | S f =>
      if Z.land (br_bits br) m =? m then
        let? br := moreBits (br_skip br skip) in zero_runs f m add skip (zsym + add) br
      else Ok (zsym, br)
  end.

(** [for ; sym < zsym; sym++ { norm[uint8(sym)] = 0 }]. *)
Fixpoint zero_norm (n : nat) (sym : Z) (norm : list Z) : res (list Z) :=
  match n with
  | O => Ok norm
  | S m => let? norm := assign norm (u8 sym) 0 in zero_norm m (sym + 1) norm
  end.

Fixpoint lower_threshold (fuel : nat) (remaining threshold bitsNeeded : Z) : res (Z * Z) :=
  match fuel with
  | O => Panic
  | S f =>
      if remaining <? threshold then lower_threshold f remaining (Z.shiftr threshold 1) (bitsNeeded - 1)
      else Ok (threshold, bitsNeeded)
  end.

(** One probability, less one: a small value takes a bit less. *)
Definition read_count (br : bitReader) (remaining threshold bitsNeeded : Z) : Z * bitReader :=
  let max := (2 * threshold - 1) - remaining in
  let small := Z.land (br_bits br) (threshold - 1) in
  if small <? max then (small - 1, br_skip br (bitsNeeded - 1))
  else
    let count := Z.land (br_bits br) (2 * threshold - 1) in
    ((if count >=? threshold then count - max else count) - 1, br_skip br bitsNeeded).

(** The main loop; every second round at least takes a symbol. *)
Fixpoint read_norm (fuel : nat) (br : bitReader) (remaining threshold bitsNeeded sym maxSym : Z) (prev0 : bool)
    (norm : list Z) : res (bitReader * Z * Z * list Z) :=
  if negb ((remaining >? 1) && (sym <=? maxSym)) then Ok (br, remaining, sym, norm) else
  match fuel with
  | O => Panic
  | S f =>
      let? br := moreBits br in
      if prev0 then
        let runs := (8 * length (br_data br) + 32)%nat in
        let? zb := zero_runs runs 0xfff (3 * 6) 12 sym br in
        let? zb := zero_runs runs 3 3 2 (fst zb) (snd zb) in
        let '(two, br) := br_val (snd zb) 2 in
        let zsym := fst zb + two in
        if zsym >? maxSym then Err (makeError "FSE symbol index overflow") else
        let? norm := zero_norm (Z.to_nat (zsym - sym)) sym norm in
        read_norm f br remaining threshold bitsNeeded (Z.max sym zsym) maxSym false norm
      else
        let '(count, br) := read_count br remaining threshold bitsNeeded in
        let remaining := if count >=? 0 then remaining - count else remaining - 1 in
        if sym >=? 256 then Err (makeError "FSE sym overflow") else
        let? norm := assign norm (u8 sym) (s16 count) in
        let? tb := lower_threshold 32 remaining threshold bitsNeeded in
        read_norm f br remaining (fst tb) (snd tb) (sym + 1) maxSym (count =? 0) norm
  end.

(** [readFSE] returns the table's bits, the new offset and the table. *)
Definition readFSE (data : bytes) (off maxSym maxBits : Z) (table : list fseEntry) : res (Z * Z * list fseEntry) :=
  let? br := moreBits (makeBitReader data off) in
  let '(log, br) := br_val br 4 in
  let accuracyLog := log + 5 in
  if accuracyLog >? maxBits then Err (makeError "FSE accuracy log too large") else
  let? rd := read_norm (Z.to_nat (2 * maxSym + 4)) br (Z.shiftl 1 accuracyLog + 1) (Z.shiftl 1 accuracyLog)
    (accuracyLog + 1) 0 maxSym false (replicate 256 0) in
  let '(br, remaining, sym, norm) := rd in
  if negb (remaining =? 1) then Err (makeError "too many symbols in FSE table") else
  let? norm := zero_norm (Z.to_nat (maxSym + 1 - sym)) sym norm in
  let br := backup br in
  let? norm := slice norm 0 (maxSym + 1) in
  let? table := buildFSE norm table accuracyLog in
  Ok (accuracyLog, br_off br, table).

(** ** Baselines *)

Record fseBaselineEntry := mkBaseline {
  be_baseline : Z;
  be_basebits : Z;
  be_bits : Z;
  be_base : Z }.

Definition literalLengthOffset : Z := 16.

Definition literalLengthBase : list Z := [
  Z.lor 16 (Z.shiftl 1 24);
  Z.lor 18 (Z.shiftl 1 24);
  Z.lor 20 (Z.shiftl 1 24);
  Z.lor 22 (Z.shiftl 1 24);
  Z.lor 24 (Z.shiftl 2 24);
  Z.lor 28 (Z.shiftl 2 24);
  Z.lor 32 (Z.shiftl 3 24);
  Z.lor 40 (Z.shiftl 3 24);
  Z.lor 48 (Z.shiftl 4 24);
  Z.lor 64 (Z.shiftl 6 24);
  Z.lor 128 (Z.shiftl 7 24);
  Z.lor 256 (Z.shiftl 8 24);
  Z.lor 512 (Z.shiftl 9 24);
  Z.lor 1024 (Z.shiftl 10 24);
  Z.lor 2048 (Z.shiftl 11 24);
  Z.lor 4096 (Z.shiftl 12 24);
  Z.lor 8192 (Z.shiftl 13 24);
  Z.lor 16384 (Z.shiftl 14 24);
  Z.lor 32768 (Z.shiftl 15 24);
  Z.lor 65536 (Z.shiftl 16 24)].

Definition matchLengthOffset : Z := 32.

Definition matchLengthBase : list Z := [
  Z.lor 35 (Z.shiftl 1 24);
  Z.lor 37 (Z.shiftl 1 24);
  Z.lor 39 (Z.shiftl 1 24);
  Z.lor 41 (Z.shiftl 1 24);
  Z.lor 43 (Z.shiftl 2 24);
  Z.lor 47 (Z.shiftl 2 24);
  Z.lor 51 (Z.shiftl 3 24);
  Z.lor 59 (Z.shiftl 3 24);
  Z.lor 67 (Z.shiftl 4 24);
  Z.lor 83 (Z.shiftl 4 24);
  Z.lor 99 (Z.shiftl 5 24);
  Z.lor 131 (Z.shiftl 7 24);
  Z.lor 259 (Z.shiftl 8 24);
  Z.lor 515 (Z.shiftl 9 24);
  Z.lor 1027 (Z.shiftl 10 24);
  Z.lor 2051 (Z.shiftl 11 24);
  Z.lor 4099 (Z.shiftl 12 24);
  Z.lor 8195 (Z.shiftl 13 24);
  Z.lor 16387 (Z.shiftl 14 24);
  Z.lor 32771 (Z.shiftl 15 24);
  Z.lor 65539 (Z.shiftl 16 24)].

(** One entry from a table of packed baselines. *)
Definition packed_baseline (bases : list Z) (idx : Z) (e : fseEntry) : res fseBaselineEntry :=
  let? basebits := index bases idx in
  Ok (mkBaseline (Z.land basebits 0xffffff) (u8 (Z.shiftr basebits 24)) (fe_bits e) (fe_base e)).

Definition literal_baseline (e : fseEntry) : res fseBaselineEntry :=
  if fe_sym e <? literalLengthOffset then Ok (mkBaseline (fe_sym e) 0 (fe_bits e) (fe_base e))
  else if fe_sym e >? 35 then Err (makeError "FSE baseline symbol overflow")
  else packed_baseline literalLengthBase (fe_sym e - literalLengthOffset) e.

Definition offset_baseline (e : fseEntry) : res fseBaselineEntry :=
  if fe_sym e >? 31 then Err (makeError "FSE offset symbol overflow") else
  let baseline := Z.shiftl 1 (fe_sym e) in
  let baseline := if fe_sym e >=? 2 then baseline - 3 else baseline in
  Ok (mkBaseline baseline (fe_sym e) (fe_bits e) (fe_base e)).

Definition match_baseline (e : fseEntry) : res fseBaselineEntry :=
  if fe_sym e <? matchLengthOffset then Ok (mkBaseline (fe_sym e + 3) 0 (fe_bits e) (fe_base e))
  else if fe_sym e >? 52 then Err (makeError "FSE baseline symbol overflow")
  else packed_baseline matchLengthBase (fe_sym e - matchLengthOffset) e.

(** The three conversions fill a table of the same length entry by entry. *)
Fixpoint to_baselines (f : fseEntry -> res fseBaselineEntry) (fseTable : list fseEntry) : res (list fseBaselineEntry) :=
  match fseTable with
  | [] => Ok []
  | e :: rest => let? b := f e in let? bs := to_baselines f rest in Ok (b :: bs)
  end.

Definition makeLiteralBaselineFSE (fseTable : list fseEntry) : res (list fseBaselineEntry) := to_baselines literal_baseline fseTable.
Definition makeOffsetBaselineFSE (fseTable : list fseEntry) : res (list fseBaselineEntry) := to_baselines offset_baseline fseTable.
Definition makeMatchBaselineFSE (fseTable : list fseEntry) : res (list fseBaselineEntry) := to_baselines match_baseline fseTable.

Definition predefinedLiteralTable : list fseBaselineEntry := [
  mkBaseline 0 0 4 0; mkBaseline 0 0 4 16; mkBaseline 1 0 5 32;
  mkBaseline 3 0 5 0; mkBaseline 4 0 5 0; mkBaseline 6 0 5 0;
  mkBaseline 7 0 5 0; mkBaseline 9 0 5 0; mkBaseline 10 0 5 0;
  mkBaseline 12 0 5 0; mkBaseline 14 0 6 0; mkBaseline 16 1 5 0;
  mkBaseline 20 1 5 0; mkBaseline 22 1 5 0; mkBaseline 28 2 5 0;
  mkBaseline 32 3 5 0; mkBaseline 48 4 5 0; mkBaseline 64 6 5 32;
  mkBaseline 128 7 5 0; mkBaseline 256 8 6 0; mkBaseline 1024 10 6 0;
  mkBaseline 4096 12 6 0; mkBaseline 0 0 4 32; mkBaseline 1 0 4 0;
  mkBaseline 2 0 5 0; mkBaseline 4 0 5 32; mkBaseline 5 0 5 0;
  mkBaseline 7 0 5 32; mkBaseline 8 0 5 0; mkBaseline 10 0 5 32;
  mkBaseline 11 0 5 0; mkBaseline 13 0 6 0; mkBaseline 16 1 5 32;
  mkBaseline 18 1 5 0; mkBaseline 22 1 5 32; mkBaseline 24 2 5 0;
  mkBaseline 32 3 5 32; mkBaseline 40 3 5 0; mkBaseline 64 6 4 0;
  mkBaseline 64 6 4 16; mkBaseline 128 7 5 32; mkBaseline 512 9 6 0;
  mkBaseline 2048 11 6 0; mkBaseline 0 0 4 48; mkBaseline 1 0 4 16;
  mkBaseline 2 0 5 32; mkBaseline 3 0 5 32; mkBaseline 5 0 5 32;
  mkBaseline 6 0 5 32; mkBaseline 8 0 5 32; mkBaseline 9 0 5 32;
  mkBaseline 11 0 5 32; mkBaseline 12 0 5 32; mkBaseline 15 0 6 0;
  mkBaseline 18 1 5 32; mkBaseline 20 1 5 32; mkBaseline 24 2 5 32;
  mkBaseline 28 2 5 32; mkBaseline 40 3 5 32; mkBaseline 48 4 5 32;
  mkBaseline 65536 16 6 0; mkBaseline 32768 15 6 0; mkBaseline 16384 14 6 0;
  mkBaseline 8192 13 6 0].

Definition predefinedOffsetTable : list fseBaselineEntry := [
  mkBaseline 1 0 5 0; mkBaseline 61 6 4 0; mkBaseline 509 9 5 0;
  mkBaseline 32765 15 5 0; mkBaseline 2097149 21 5 0; mkBaseline 5 3 5 0;
  mkBaseline 125 7 4 0; mkBaseline 4093 12 5 0; mkBaseline 262141 18 5 0;
  mkBaseline 8388605 23 5 0; mkBaseline 29 5 5 0; mkBaseline 253 8 4 0;
  mkBaseline 16381 14 5 0; mkBaseline 1048573 20 5 0; mkBaseline 1 2 5 0;
  mkBaseline 125 7 4 16; mkBaseline 2045 11 5 0; mkBaseline 131069 17 5 0;
  mkBaseline 4194301 22 5 0; mkBaseline 13 4 5 0; mkBaseline 253 8 4 16;
  mkBaseline 8189 13 5 0; mkBaseline 524285 19 5 0; mkBaseline 2 1 5 0;
  mkBaseline 61 6 4 16; mkBaseline 1021 10 5 0; mkBaseline 65533 16 5 0;
  mkBaseline 268435453 28 5 0; mkBaseline 134217725 27 5 0; mkBaseline 67108861 26 5 0;
  mkBaseline 33554429 25 5 0; mkBaseline 16777213 24 5 0].

Definition predefinedMatchTable : list fseBaselineEntry := [
  mkBaseline 3 0 6 0; mkBaseline 4 0 4 0; mkBaseline 5 0 5 32;
  mkBaseline 6 0 5 0; mkBaseline 8 0 5 0; mkBaseline 9 0 5 0;
  mkBaseline 11 0 5 0; mkBaseline 13 0 6 0; mkBaseline 16 0 6 0;
  mkBaseline 19 0 6 0; mkBaseline 22 0 6 0; mkBaseline 25 0 6 0;
  mkBaseline 28 0 6 0; mkBaseline 31 0 6 0; mkBaseline 34 0 6 0;
  mkBaseline 37 1 6 0; mkBaseline 41 1 6 0; mkBaseline 47 2 6 0;
  mkBaseline 59 3 6 0; mkBaseline 83 4 6 0; mkBaseline 131 7 6 0;
  mkBaseline 515 9 6 0; mkBaseline 4 0 4 16; mkBaseline 5 0 4 0;
  mkBaseline 6 0 5 32; mkBaseline 7 0 5 0; mkBaseline 9 0 5 32;
  mkBaseline 10 0 5 0; mkBaseline 12 0 6 0; mkBaseline 15 0 6 0;
  mkBaseline 18 0 6 0; mkBaseline 21 0 6 0; mkBaseline 24 0 6 0;
  mkBaseline 27 0 6 0; mkBaseline 30 0 6 0; mkBaseline 33 0 6 0;
  mkBaseline 35 1 6 0; mkBaseline 39 1 6 0; mkBaseline 43 2 6 0;
  mkBaseline 51 3 6 0; mkBaseline 67 4 6 0; mkBaseline 99 5 6 0;
  mkBaseline 259 8 6 0; mkBaseline 4 0 4 32; mkBaseline 4 0 4 48;
  mkBaseline 5 0 4 16; mkBaseline 7 0 5 32; mkBaseline 8 0 5 32;
  mkBaseline 10 0 5 32; mkBaseline 11 0 5 32; mkBaseline 14 0 6 0;
  mkBaseline 17 0 6 0; mkBaseline 20 0 6 0; mkBaseline 23 0 6 0;
  mkBaseline 26 0 6 0; mkBaseline 29 0 6 0; mkBaseline 32 0 6 0;
  mkBaseline 65539 16 6 0; mkBaseline 32771 15 6 0; mkBaseline 16387 14 6 0;
  mkBaseline 8195 13 6 0; mkBaseline 4099 12 6 0; mkBaseline 2051 11 6 0;
  mkBaseline 1027 10 6 0].

(** * Encoding *)

Record symbolTransform := mkTransform {
  tt_deltaNbBits : Z;
  tt_deltaFindState : Z;
  tt_outBits : Z }.

Record cTable := mkCTable {
  ct_tableSymbol : list Z;
  ct_stateTable : list Z;
  ct_symbolTT : list symbolTransform }.

Record fseEncoder := mkEncoder {
  en_symbolLen : Z;
  en_actualTableLog : Z;
  en_ct : cTable;
  en_norm : list Z }.

Definition tableStep (tableSize : Z) : Z := Z.shiftr tableSize 1 + Z.shiftr tableSize 3 + 3.

(** A fresh table, as [allocCTable] makes it for an encoder that has none. *)
Definition allocCTable (tableSize : Z) : cTable :=
  mkCTable (replicate (Z.to_nat tableSize) 0) (replicate (Z.to_nat tableSize) 0) (replicate 256 (mkTransform 0 0 0)).

(** The first loop of [buildCTable] and its last round, which the code unrolls:
    running totals, and the cells of the symbols of probability -1. *)
Fixpoint cumulate (u : Z) (norm cumul tableSymbol : list Z) (highThreshold : Z) : res (list Z * list Z * Z) :=
  match norm with
  | [] => Ok (cumul, tableSymbol, highThreshold)
  | v :: rest =>
      let? c := index cumul u in
      if v =? -1 then
        let? cumul := assign cumul (u + 1) (s16 (c + 1)) in
        let? tableSymbol := assign tableSymbol highThreshold (u8 u) in
        cumulate (u + 1) rest cumul tableSymbol (u32 (highThreshold - 1))
      else
        let? cumul := assign cumul (u + 1) (s16 (c + v)) in
        cumulate (u + 1) rest cumul tableSymbol highThreshold
  end.

(** [for position > highThreshold], after one step. *)
Fixpoint next_position (fuel : nat) (position step tableMask highThreshold : Z) : res Z :=
  match fuel with
  | O => Panic
  | S f =>
      let position := Z.land (u32 (position + step)) tableMask in
      if position >? highThreshold then next_position f position step tableMask highThreshold else Ok position
  end.

Fixpoint place_symbol (n : nat) (symbol : Z) (tableSymbol : list Z) (position step tableMask highThreshold : Z)
    : res (list Z * Z) :=
  match n with
  | O => Ok (tableSymbol, position)
  | S m =>
      let? tableSymbol := assign tableSymbol position symbol in
      let? position := next_position (Z.to_nat (tableMask + 1)) position step tableMask highThreshold in
      place_symbol m symbol tableSymbol position step tableMask highThreshold
  end.

Fixpoint place_symbols (ui : Z) (norm tableSymbol : list Z) (position step tableMask highThreshold : Z)
    : res (list Z * Z) :=
  match norm with
  | [] => Ok (tableSymbol, position)
  | v :: rest =>
      let? tp := place_symbol (Z.to_nat v) (u8 ui) tableSymbol position step tableMask highThreshold in
      place_symbols (ui + 1) rest (fst tp) (snd tp) step tableMask highThreshold
  end.

(** [for u, v := range tableSymbol { table[cumul[v]] = tsi + u; cumul[v]++ }]. *)
Fixpoint fill_states (u tsi : Z) (tableSymbol cumul table : list Z) : res (list Z) :=
  match tableSymbol with
  | [] => Ok table
  | v :: rest =>
      let? c := index cumul v in
      let? table := assign table c (u16 (tsi + u)) in
      let? cumul := assign cumul v (s16 (c + 1)) in
      fill_states (u + 1) tsi rest cumul table
  end.

(** The transforms of the symbols; [total] counts the states so far. *)
Fixpoint transforms (i tableLog total : Z) (norm : list Z) (symbolTT : list symbolTransform)
    : res (list symbolTransform * Z) :=
  match norm with
  | [] => Ok (symbolTT, total)
  | v :: rest =>
      if v =? 0 then transforms (i + 1) tableLog total rest symbolTT else
      let? old := index symbolTT i in
      if (v =? -1) || (v =? 1) then
        let tl := u32 (Z.shiftl tableLog 16 - Z.shiftl 1 tableLog) in
        let? symbolTT := assign symbolTT i (mkTransform tl (s16 (total - 1)) (tt_outBits old)) in
        transforms (i + 1) tableLog (s16 (total + 1)) rest symbolTT
      else
        let maxBitsOut := u32 (tableLog - highBit32 (u32 (v - 1))) in
        let minStatePlus := u32 (Z.shiftl (u32 v) maxBitsOut) in
        let? symbolTT := assign symbolTT i
          (mkTransform (u32 (u32 (Z.shiftl maxBitsOut 16) - minStatePlus)) (s16 (total - v)) (tt_outBits old)) in
        transforms (i + 1) tableLog (s16 (total + v)) rest symbolTT
  end.

(** [norm] holds the [symbolLen] probabilities of the encoder. *)
Definition buildCTable (symbolLen actualTableLog : Z) (norm : list Z) : res fseEncoder :=
  let tableSize := u32 (Z.shiftl 1 actualTableLog) in
  let ct := allocCTable tableSize in
  let? ctt := cumulate 0 norm (replicate 256 0) (ct_tableSymbol ct) (tableSize - 1) in
  let '(cumul, tableSymbol, highThreshold) := ctt in
  let? total := index cumul symbolLen in
  if negb (u32 total =? tableSize) then Err (FmtError "fse cumul mismatch" 0) else
  let? cumul := assign cumul symbolLen (s16 (tableSize + 1)) in
  let? tp := place_symbols 0 norm tableSymbol 0 (tableStep tableSize) (tableSize - 1) highThreshold in
  if negb (snd tp =? 0) then Err (FmtError "fse position error" 0) else
  let? stateTable := fill_states 0 tableSize (fst tp) cumul (ct_stateTable ct) in
  let? tts := transforms 0 actualTableLog 0 norm (ct_symbolTT ct) in
  if negb (snd tts =? s16 tableSize) then Err (FmtError "fse total mismatch" 0) else
  Ok (mkEncoder symbolLen actualTableLog (mkCTable (fst tp) stateTable (fst tts)) norm).

(** [outBits] of the symbols from [i] on: the symbol itself without a table. *)
Fixpoint set_out_bits (i : Z) (n : nat) (transform : option (list Z)) (tts : list symbolTransform) : list symbolTransform :=
  match n, tts with
  | S m, t :: rest =>
      let b := match transform with None => u8 i | Some tbl => default 0 (tbl !! Z.to_nat i) end in
      mkTransform (tt_deltaNbBits t) (tt_deltaFindState t) b :: set_out_bits (i + 1) m transform rest
  | _, _ => tts
  end.

Definition setBits (transform : option (list Z)) (s : fseEncoder) : fseEncoder :=
  let ct := en_ct s in
  mkEncoder (en_symbolLen s) (en_actualTableLog s)
    (mkCTable (ct_tableSymbol ct) (ct_stateTable ct) (set_out_bits 0 (Z.to_nat (en_symbolLen s)) transform (ct_symbolTT ct)))
    (en_norm s).

Definition llNorm : list Z := [
  4; 3; 2; 2; 2; 2; 2; 2; 2; 2; 2; 2; 2; 1; 1; 1;
  2; 2; 2; 2; 2; 2; 2; 2; 2; 3; 2; 1; 1; 1; 1; 1;
  -1; -1; -1; -1].

Definition ofNorm : list Z := [
  1; 1; 1; 1; 1; 1; 2; 2; 2; 1; 1; 1; 1; 1; 1; 1;
  1; 1; 1; 1; 1; 1; 1; 1; -1; -1; -1; -1; -1].

Definition mlNorm : list Z := [
  1; 4; 3; 2; 2; 2; 2; 2; 2; 1; 1; 1; 1; 1; 1; 1;
  1; 1; 1; 1; 1; 1; 1; 1; 1; 1; 1; 1; 1; 1; 1; 1;
  1; 1; 1; 1; 1; 1; 1; 1; 1; 1; 1; 1; 1; 1; -1; -1;
  -1; -1; -1; -1; -1].

Definition predef_encoder (norm : list Z) (log symLen : Z) (bitTable : option (list Z)) : res fseEncoder :=
  match buildCTable symLen log norm with
  | Ok enc => Ok (setBits bitTable enc)
  | _ => Panic
  end.

(** The encoders of literal lengths, offsets and match lengths. *)
Definition initPredefinedEncoders : res (fseEncoder * fseEncoder * fseEncoder) :=
  let? ll := predef_encoder llNorm 6 36 (Some llBitsTable) in
  let? ofs := predef_encoder ofNorm 5 29 None in
  let? ml := predef_encoder mlNorm 6 53 (Some mlBitsTable) in
  Ok (ll, ofs, ml).

(** [cState.init]: the state before the first symbol, which is the last one of
    the stream. *)
Definition cstate_init (ct : cTable) (first : symbolTransform) : res Z :=
  let nbBitsOut := Z.shiftr (u32 (tt_deltaNbBits first + Z.shiftl 1 15)) 16 in
  let im := s32 (u32 (u32 (Z.shiftl nbBitsOut 16) - tt_deltaNbBits first)) in
  let lu := s32 (Z.shiftr im nbBitsOut + tt_deltaFindState first) in
  index (ct_stateTable ct) lu.

Definition cstate_flush (w : bitWriter) (state tableLog : Z) : bitWriter :=
  addBits16NC (flush32 w) state tableLog.

(** The part of [encodeSequenceStates] that is written three times: move one
    state over a symbol. *)
Definition encode_state (w : bitWriter) (enc : fseEncoder) (state code : Z) : res (bitWriter * Z * symbolTransform) :=
  let? b := index (ct_symbolTT (en_ct enc)) code in
  let nbBitsOut := Z.shiftr (u32 (state + tt_deltaNbBits b)) 16 in
  let dstState := s32 (Z.shiftr state (Z.land nbBitsOut 15) + tt_deltaFindState b) in
  let w := addBits16NC w state (u8 nbBitsOut) in
  let? state := index (ct_stateTable (en_ct enc)) dstState in
  Ok (w, state, b).

(** The writer and the three states. *)
Record seqWriter := mkSeqWriter {
  sw_wr : bitWriter;
  sw_ll : Z;
  sw_of : Z;
  sw_ml : Z }.

Definition encodeSequenceStates (llEnc ofEnc mlEnc : fseEncoder) (sw : seqWriter) (s : seq) : res seqWriter :=
  let w := flush32 (sw_wr sw) in
  let? r := encode_state w ofEnc (sw_of sw) (s_ofCode s) in
  let '(w, ofs, ofB) := r in
  let outBits := Z.land (tt_outBits ofB) 31 in
  let extraBits := Z.land (s_offset s) (mask_at bitMask32 outBits) in
  let extraBitsN := outBits in
  let? r := encode_state w mlEnc (sw_ml sw) (s_mlCode s) in
  let '(w, ml, mlB) := r in
  let outBits := Z.land (tt_outBits mlB) 31 in
  let extraBits := Z.lor (u64 (Z.shiftl extraBits outBits)) (Z.land (s_matchLen s) (mask_at bitMask32 outBits)) in
  let extraBitsN := u8 (extraBitsN + outBits) in
  let? r := encode_state w llEnc (sw_ll sw) (s_llCode s) in
  let '(w, ll, llB) := r in
  let outBits := Z.land (tt_outBits llB) 31 in
  let extraBits := Z.lor (u64 (Z.shiftl extraBits outBits)) (Z.land (s_litLen s) (mask_at bitMask32 outBits)) in
  let extraBitsN := u8 (extraBitsN + outBits) in
  let w := addBits32NC (flush32 w) (u32 extraBits) extraBitsN in
  Ok (mkSeqWriter w ll ofs ml).

Definition sequence_count (n : Z) : bytes :=
  if n <? 128 then [z2b n]
  else if n <? 0x7f00 then [z2b (128 + Z.shiftr n 8); z2b n]
  else let n := n - 0x7f00 in [z2b 255; z2b n; z2b (Z.shiftr n 8)].

(** The first symbols of the stream are those of the last sequence. *)
Definition start_states (llEnc ofEnc mlEnc : fseEncoder) (w : bitWriter) (s : seq) : res seqWriter :=
  let? llB := index (ct_symbolTT (en_ct llEnc)) (s_llCode s) in
  let? ofB := index (ct_symbolTT (en_ct ofEnc)) (s_ofCode s) in
  let? mlB := index (ct_symbolTT (en_ct mlEnc)) (s_mlCode s) in
  let? ll := cstate_init (en_ct llEnc) llB in
  let? ofs := cstate_init (en_ct ofEnc) ofB in
  let w := flush32 w in
  let? ml := cstate_init (en_ct mlEnc) mlB in
  let w := addBits32NC w (s_litLen s) (tt_outBits llB) in
  let w := addBits32NC w (s_matchLen s) (tt_outBits mlB) in
  let w := addBits32NC (flush32 w) (s_offset s) (tt_outBits ofB) in
  Ok (mkSeqWriter w ll ofs ml).

(** The loop from the last but one sequence down to the first. *)
Fixpoint encode_rest (llEnc ofEnc mlEnc : fseEncoder) (sw : seqWriter) (seqs : list seq) : res seqWriter :=
  match seqs with
  | [] => Ok sw
  | s :: rest => let? sw := encodeSequenceStates llEnc ofEnc mlEnc sw s in encode_rest llEnc ofEnc mlEnc sw rest
  end.

Definition encodeSequences (out : bytes) (sequences : list seq) : res bytes :=
  let? encs := initPredefinedEncoders in
  let '(llEnc, ofEnc, mlEnc) := encs in
  let out := out ++ sequence_count (len sequences) ++ [z2b 0] in
  let? s := index sequences (len sequences - 1) in
  let llEnc := setBits (Some llBitsTable) llEnc in
  let mlEnc := setBits (Some mlBitsTable) mlEnc in
  let ofEnc := setBits None ofEnc in
  let? sw := start_states llEnc ofEnc mlEnc (bw_reset out) s in
  let? sw := encode_rest llEnc ofEnc mlEnc sw (tail (rev sequences)) in
  let w := cstate_flush (sw_wr sw) (sw_ml sw) (en_actualTableLog mlEnc) in
  let w := cstate_flush w (sw_of sw) (en_actualTableLog ofEnc) in
  let w := cstate_flush w (sw_ll sw) (en_actualTableLog llEnc) in
  Ok (bw_out (bw_close w)).

Definition appendRawLiteralsHeader (out : bytes) (litLen : Z) : bytes :=
  if litLen <? 32 then out ++ [z2b (Z.shiftl litLen 3)]
  else if litLen <? 4096 then
    out ++ [z2b (Z.lor (Z.land (Z.shiftl litLen 4) 0xf0) 0x10); z2b (Z.shiftr litLen 4)]
  else
    out ++ [z2b (Z.lor (Z.land (Z.shiftl litLen 4) 0xf0) 0x30); z2b (Z.shiftr litLen 4); z2b (Z.shiftr litLen 12)].
