(* ===== verification/ZstdHuff.v ===== *)
(** The literals of a Zstandard block: the Huffman tables of
    [internal/compress/zstd/huff.go] and the literal sections of [literals.go].

    A table is returned instead of being written through a slice; the Huffman
    table that a later block may reuse is the pair [huffman] of the table and its
    bits, part of the reader's state. *)

From Stdlib Require Import ZArith Lia.
From Stdlib Require Import Strings.Byte.
From stdpp Require Import base list gmap countable strings.
From S2P Require Import Prelude.
From S2P Require Import ZstdBits.
From S2P Require Import ZstdFse.

Open Scope Z_scope.

(** * Huffman tables *)

Definition maxHuffmanBits : Z := 11.

(** The loop over the two interleaved FSE streams of weights.  Its body does the
    same for [state1] and then for [state2]; here the states change places. *)
Fixpoint read_weights (fuel : nat) (fseTable : list fseEntry) (rbr : reverseBitReader) (state1 state2 : Z)
    (weights : list Z) (count : Z) : res (list Z * Z) :=
  match fuel with
  | O => Panic
  | S f =>
      let? pt := index fseTable state1 in
      let? fr := fetch rbr (fe_bits pt) in
      let '(ok, rbr) := fr in
      if negb ok then
        if count >=? 254 then Err (makeError "Huffman count overflow") else
        let? weights := assign weights count (fe_sym pt) in
        let? pt2 := index fseTable state2 in
        let? weights := assign weights (count + 1) (fe_sym pt2) in
        Ok (weights, count + 2)
      else
        let? vr := rb_val rbr (fe_bits pt) in
        let '(v, rbr) := vr in
        if count >=? 255 then Err (makeError "Huffman count overflow") else
        let? weights := assign weights count (fe_sym pt) in
        read_weights f fseTable rbr state2 (u32 (fe_base pt + v)) weights (count + 1)
  end.

(** Weights of four bits, two in a byte. *)
Fixpoint read_nibbles (n : nat) (i count off : Z) (data : bytes) (weights : list Z) : res (list Z * Z) :=
  match n with
  | O => Panic
  | S m =>
      if i <? count then
        let? b := index data off in
        let? weights := assign weights i (Z.shiftr (b2z b) 4) in
        let? weights := assign weights (i + 1) (Z.land (b2z b) 0xf) in
        read_nibbles m (i + 2) count (off + 1) data weights
      else Ok (weights, off)
  end.

(** Both forms of the weights: the weights, their count and the new offset. *)
Definition huff_weights (data : bytes) (off : Z) : res (list Z * Z * Z) :=
  if off >=? len data then Err makeEOFError else
  let? h := index data off in
  let hdr := b2z h in
  let off := off + 1 in
  let weights := replicate 256 0 in
  if hdr <? 128 then
    let? rd := readFSE data off 255 6 (replicate 64 zero_entry) in
    let '(fseBits, noff, fseTable) := rd in
    if off + hdr >? len data then Err makeEOFError else
    let? rbr := makeReverseBitReader data (off + hdr - 1) noff in
    let? v1 := rb_val rbr fseBits in
    let? v2 := rb_val (snd v1) fseBits in
    let? wc := read_weights 256 fseTable (snd v2) (fst v1) (fst v2) weights 0 in
    Ok (fst wc, snd wc, off + hdr)
  else
    let count := hdr - 127 in
    if off + (count + 1) / 2 >=? len data then Err ErrUnexpectedEOF else
    let? wo := read_nibbles 130 0 count off data weights in
    Ok (fst wo, count, snd wo).

(** How often each weight occurs, and the sum of the code shares. *)
Fixpoint mark_weights (weights : list Z) (weightMark : list Z) (weightMask : Z) : res (list Z * Z) :=
  match weights with
  | [] => Ok (weightMark, weightMask)
  | w :: rest =>
      if w >? 12 then Err (makeError "Huffman weight overflow") else
      let? m := index weightMark w in
      let? weightMark := assign weightMark w (u32 (m + 1)) in
      mark_weights rest weightMark (if w >? 0 then u32 (weightMask + Z.shiftl 1 (w - 1)) else weightMask)
  end.

(** From counts to the index of the first cell of each weight. *)
Fixpoint first_cells (n : nat) (i next : Z) (weightMark : list Z) : res (list Z) :=
  match n with
  | O => Ok weightMark
  | S m =>
      let? c := index weightMark (i + 1) in
      let? weightMark := assign weightMark (i + 1) next in
      first_cells m (i + 1) (u32 (next + u32 (Z.shiftl c i))) weightMark
  end.

Fixpoint fill_cells (n : nat) (i tval : Z) (table : list Z) : res (list Z) :=
  match n with
  | O => Ok table
  | S m => let? table := assign table i tval in fill_cells m (i + 1) tval table
  end.

Fixpoint fill_table (i tableBits : Z) (weights weightMark table : list Z) : res (list Z) :=
  match weights with
  | [] => Ok table
  | w :: rest =>
      if w =? 0 then fill_table (i + 1) tableBits rest weightMark table else
      let length := Z.shiftl 1 (w - 1) in
      let tval := Z.lor (u16 (Z.shiftl (u16 i) 8)) (u16 (tableBits + 1 - w)) in
      let? start := index weightMark w in
      let? table := fill_cells (Z.to_nat length) start tval table in
      let? weightMark := assign weightMark w (u32 (start + length)) in
      fill_table (i + 1) tableBits rest weightMark table
  end.

(** The table's bits, the new offset and the table. *)
Definition readHuff (data : bytes) (off : Z) (table : list Z) : res (Z * Z * list Z) :=
  let? wco := huff_weights data off in
  let '(weights, count, off) := wco in
  let? ws := slice weights 0 count in
  let? mm := mark_weights ws (replicate 13 0) 0 in
  let '(weightMark, weightMask) := mm in
  if weightMask =? 0 then Err (makeError "bad Huffman weights") else
  let tableBits := bitlen weightMask in
  if tableBits >? maxHuffmanBits then Err (makeError "bad Huffman weights") else
  if len table <? Z.shiftl 1 tableBits then Err (makeError "Huffman table too small") else
  let left := u32 (Z.shiftl 1 tableBits - weightMask) in
  if left =? 0 then Err (makeError "bad Huffman weights") else
  let highBit := bitlen left - 1 in
  if negb (Z.shiftl 1 highBit =? left) then Err (makeError "bad Huffman weights") else
  if count >=? 256 then Err (makeError "Huffman weight overflow") else
  let? weights := assign weights count (u8 (highBit + 1)) in
  let count := count + 1 in
  let? m := index weightMark (highBit + 1) in
  let? weightMark := assign weightMark (highBit + 1) (u32 (m + 1)) in
  let? ones := index weightMark 1 in
  if (ones <? 2) || negb (Z.land ones 1 =? 0) then Err (makeError "bad Huffman weights") else
  let? weightMark := first_cells (Z.to_nat tableBits) 0 0 weightMark in
  let? ws := slice weights 0 count in
  let? table := fill_table 0 tableBits ws weightMark table in
  Ok (tableBits, off, table).

(** * Literals *)

(** [huffmanTable] and [huffmanTableBits]. *)
Definition huffman : Type := list Z * Z.

Definition readRawRLELiterals (data : bytes) (off hdr : Z) (outbuf : bytes) : res (Z * bytes) :=
  let? so :=
    match Z.land (Z.shiftr hdr 2) 3 with
    | 1 =>
        if off >=? len data then Err makeEOFError else
        let? a := index data off in
        Ok (Z.shiftr hdr 4 + Z.shiftl (b2z a) 4, off + 1)
    | 3 =>
        if off + 1 >=? len data then Err makeEOFError else
        let? a := index data off in
        let? b := index data (off + 1) in
        Ok (Z.shiftr hdr 4 + Z.shiftl (b2z a) 4 + Z.shiftl (b2z b) 12, off + 2)
    | _ => Ok (Z.shiftr hdr 3, off)
    end in
  let '(regeneratedSize, off) := so in
  if regeneratedSize >? Z.shiftl 128 10 then Err (makeError "literal size too large") else
  if Z.land hdr 3 =? 0 then
    if off + regeneratedSize >? len data then Err (makeError "raw literal size too large") else
    let? lit := slice data off (off + regeneratedSize) in
    Ok (off + regeneratedSize, outbuf ++ lit)
  else
    if off >=? len data then Err (makeError "RLE literal missing") else
    let? rle := index data off in
    Ok (off + 1, outbuf ++ replicate (Z.to_nat regeneratedSize) rle).

(** [fetchHuff], and the three lines of [readLiteralsOneStream] that do the
    same. *)
Definition fetchHuff (huffTable : list Z) (huffBits : Z) (rbr : reverseBitReader) : res (Z * reverseBitReader) :=
  let? fr := fetch rbr huffBits in
  let '(ok, rbr) := fr in
  if negb ok then Err (makeError "literals Huffman stream out of bits") else
  let huffMask := Z.shiftl 1 huffBits - 1 in
  let idx := Z.land (Z.shiftr (rb_bits rbr) (u32 (rb_cnt rbr - huffBits))) huffMask in
  let? t := index huffTable idx in
  Ok (t, rbr).

Fixpoint one_stream (n : nat) (h : huffman) (rbr : reverseBitReader) (outbuf : bytes) : res bytes :=
  match n with
  | O => Ok outbuf
  | S m =>
      let? tr := fetchHuff (fst h) (snd h) rbr in
      let '(t, rbr) := tr in
      one_stream m h (rb_drop rbr (Z.land t 0xff)) (outbuf ++ [z2b (Z.shiftr t 8)])
  end.

Definition readLiteralsOneStream (h : huffman) (data : bytes) (off compressedSize regeneratedSize : Z) (outbuf : bytes)
    : res bytes :=
  let? rbr := makeReverseBitReader data (off + compressedSize - 1) (off - 2) in
  one_stream (Z.to_nat regeneratedSize) h rbr outbuf.

(** [outbuf[out] = byte(t >> 8); rbr.cnt -= uint32(t & 0xff)]. *)
Definition store_literal (outbuf : bytes) (out : Z) (tr : Z * reverseBitReader) : res (bytes * reverseBitReader) :=
  let? outbuf := assign outbuf out (z2b (Z.shiftr (fst tr) 8)) in
  Ok (outbuf, rb_drop (snd tr) (Z.land (fst tr) 0xff)).

(** The loop decodes a byte of each stream in a round; the fourth stream is the
    shortest. *)
Fixpoint four_streams (n : nat) (h : huffman) (i size4 : Z) (rbr1 rbr2 rbr3 rbr4 : reverseBitReader)
    (out1 out2 out3 out4 : Z) (outbuf : bytes) : res bytes :=
  match n with
  | O => Ok outbuf
  | S m =>
      let? t1 := fetchHuff (fst h) (snd h) rbr1 in
      let? t2 := fetchHuff (fst h) (snd h) rbr2 in
      let? t3 := fetchHuff (fst h) (snd h) rbr3 in
      let? o4 :=
        (if i <? size4 then
           let? t4 := fetchHuff (fst h) (snd h) rbr4 in
           let? ob := store_literal outbuf out4 t4 in
           Ok (fst ob, snd ob, out4 + 1)
         else Ok (outbuf, rbr4, out4)) in
      let '(outbuf, rbr4, out4) := o4 in
      let? o1 := store_literal outbuf out1 t1 in
      let? o2 := store_literal (fst o1) out2 t2 in
      let? o3 := store_literal (fst o2) out3 t3 in
      four_streams m h (i + 1) size4 (snd o1) (snd o2) (snd o3) rbr4 (out1 + 1) (out2 + 1) (out3 + 1) out4 (fst o3)
  end.

(** [binary.LittleEndian.Uint16(data[off:])]. *)
Definition le16_at (data : bytes) (off : Z) : res Z :=
  let? s := slice data off (len data) in
  let? a := index s 0 in
  let? b := index s 1 in
  Ok (b2z a + Z.shiftl (b2z b) 8).

Definition readLiteralsFourStreams (h : huffman) (data : bytes) (off totalStreamsSize regeneratedSize : Z) (outbuf : bytes)
    : res bytes :=
  if off + 5 >=? len data then Err makeEOFError else
  if totalStreamsSize <? 6 then Err (makeError "total streams size too small for jump table") else
  let regeneratedStreamSize := (regeneratedSize + 3) / 4 in
  if regeneratedSize <? regeneratedStreamSize * 3 then Err (makeError "regenerated size too small to decode streams") else
  let? streamSize1 := le16_at data off in
  let? streamSize2 := le16_at data (off + 2) in
  let? streamSize3 := le16_at data (off + 4) in
  let off := off + 6 in
  let tot := streamSize1 + streamSize2 + streamSize3 in
  if tot >? totalStreamsSize - 6 then Err makeEOFError else
  let streamSize4 := u32 (totalStreamsSize - 6 - tot) in
  let off := off - 1 in
  let off1 := off + streamSize1 in
  let start1 := off + 1 in
  let off2 := off1 + streamSize2 in
  let start2 := off1 + 1 in
  let off3 := off2 + streamSize3 in
  let start3 := off2 + 1 in
  let off4 := off3 + streamSize4 in
  let start4 := off3 + 1 in
  let? rbr1 := makeReverseBitReader data off1 (start1 - 2) in
  let? rbr2 := makeReverseBitReader data off2 (start2 - 2) in
  let? rbr3 := makeReverseBitReader data off3 (start3 - 2) in
  let? rbr4 := makeReverseBitReader data off4 (start4 - 2) in
  let out1 := len outbuf in
  let out2 := out1 + regeneratedStreamSize in
  let out3 := out2 + regeneratedStreamSize in
  let out4 := out3 + regeneratedStreamSize in
  let regeneratedStreamSize4 := regeneratedSize - regeneratedStreamSize * 3 in
  four_streams (Z.to_nat regeneratedStreamSize) h 0 regeneratedStreamSize4 rbr1 rbr2 rbr3 rbr4 out1 out2 out3 out4
    (outbuf ++ replicate (Z.to_nat regeneratedSize) Byte.x00).

(** The sizes of the header, the new offset and the number of streams. *)
Definition huff_header (data : bytes) (off hdr : Z) : res (Z * Z * Z * Z) :=
  match Z.land (Z.shiftr hdr 2) 3 with
  | 2 =>
      if off + 2 >=? len data then Err makeEOFError else
      let? a := index data off in
      let? b := index data (off + 1) in
      let? c := index data (off + 2) in
      Ok (Z.lor (Z.lor (Z.shiftr hdr 4) (Z.shiftl (b2z a) 4)) (Z.shiftl (Z.land (b2z b) 3) 12),
          Z.lor (Z.shiftr (b2z b) 2) (Z.shiftl (b2z c) 6), off + 3, 4)
  | 3 =>
      if off + 3 >=? len data then Err makeEOFError else
      let? a := index data off in
      let? b := index data (off + 1) in
      let? c := index data (off + 2) in
      let? d := index data (off + 3) in
      Ok (Z.lor (Z.lor (Z.shiftr hdr 4) (Z.shiftl (b2z a) 4)) (Z.shiftl (Z.land (b2z b) 0x3f) 12),
          Z.lor (Z.lor (Z.shiftr (b2z b) 6) (Z.shiftl (b2z c) 2)) (Z.shiftl (b2z d) 10), off + 4, 4)
  | f =>
      if off + 1 >=? len data then Err makeEOFError else
      let? a := index data off in
      let? b := index data (off + 1) in
      Ok (Z.lor (Z.shiftr hdr 4) (Z.shiftl (Z.land (b2z a) 0x3f) 4),
          Z.lor (Z.shiftr (b2z a) 6) (Z.shiftl (b2z b) 2), off + 2, if f =? 0 then 1 else 4)
  end.

Definition readHuffLiterals (h : huffman) (data : bytes) (off hdr : Z) (outbuf : bytes) : res (Z * bytes * huffman) :=
  let? rc := huff_header data off hdr in
  let '(regeneratedSize, compressedSize, off, streams) := rc in
  if regeneratedSize >? Z.shiftl 128 10 then Err (makeError "literal size too large") else
  let roff := off + compressedSize in
  if (roff >? len data) || (roff <? 0) then Err makeEOFError else
  let? hot :=
    (if Z.land hdr 3 =? 2 then
       let table := if len (fst h) <? Z.shiftl 1 maxHuffmanBits then replicate 2048 0 else fst h in
       let? rh := readHuff data off table in
       let '(huffmanTableBits, hoff, table) := rh in
       if compressedSize <? hoff - off then Err (makeError "Huffman table too big") else
       Ok ((table, huffmanTableBits), hoff, compressedSize - (hoff - off))
     else
       if snd h =? 0 then Err (makeError "missing literals Huffman tree") else Ok (h, off, compressedSize)) in
  let '(h, off, totalStreamsSize) := hot in
  let? outbuf :=
    (if streams =? 1 then readLiteralsOneStream h data off totalStreamsSize regeneratedSize outbuf
     else readLiteralsFourStreams h data off totalStreamsSize regeneratedSize outbuf) in
  Ok (roff, outbuf, h).

Definition readLiterals (h : huffman) (data : bytes) (off : Z) (outbuf : bytes) : res (Z * bytes * huffman) :=
  if off >=? len data then Err makeEOFError else
  let? b := index data off in
  let hdr := b2z b in
  let off := off + 1 in
  if (Z.land hdr 3 =? 0) || (Z.land hdr 3 =? 1) then
    let? ro := readRawRLELiterals data off hdr outbuf in Ok (fst ro, snd ro, h)
  else readHuffLiterals h data off hdr outbuf.
