(* ===== verification/ZstdReader.v ===== *)
(** The Zstandard decoder: [internal/compress/zstd/window.go], [xxhash.go],
    [block.go], [reader.go] and [decode.go].

    The reader's fields are the record [Reader]; [literals], [compressedBuf],
    [scratch] and the two table buffers are overwritten before each use and are
    values here.  [io.ReadAll] over [io.LimitReader] is [read_all]. *)

From Stdlib Require Import ZArith Lia.
From Stdlib Require Import Strings.Byte.
From stdpp Require Import base list gmap countable strings.
From S2P Require Import Prelude.
From S2P Require Import ZstdBits.
From S2P Require Import ZstdFse.
From S2P Require Import ZstdHuff.

Open Scope Z_scope.

(** * The window: a circular buffer of the last bytes *)

Record window := mkWindow {
  w_size : Z;
  w_data : bytes;
  w_off : Z }.

Definition w_reset (size : Z) : window := mkWindow size [] 0.

Definition w_len (w : window) : Z := u32 (len (w_data w)).

(** [copy(dst[at:], src)] where [at] is within [dst]: the new [dst] and the
    number of bytes. *)
Definition copy_at (dst : bytes) (at_ : Z) (src : bytes) : res (bytes * Z) :=
  let? room := slice dst at_ (len dst) in
  let n := Z.min (len room) (len src) in
  Ok (take (Z.to_nat at_) dst ++ take (Z.to_nat n) src ++ drop (Z.to_nat (at_ + n)) dst, n).

Definition w_save (w : window) (buf : bytes) : res window :=
  if w_size w =? 0 then Ok w else
  if len buf =? 0 then Ok w else
  if len buf >=? w_size w then
    let? tail := slice buf (len buf - w_size w) (len buf) in
    Ok (mkWindow (w_size w) tail 0)
  else
    let free := w_size w - len (w_data w) in
    if free =? 0 then
      let? dn := copy_at (w_data w) (w_off w) buf in
      let '(data, n) := dn in
      if n =? len buf then Ok (mkWindow (w_size w) data (w_off w + n))
      else
        let? rest := slice buf n (len buf) in
        let? dm := copy_at data 0 rest in
        Ok (mkWindow (w_size w) (fst dm) (snd dm))
    else if free >=? len buf then Ok (mkWindow (w_size w) (w_data w ++ buf) (w_off w))
    else
      let? head := slice buf 0 free in
      let? rest := slice buf free (len buf) in
      let? dm := copy_at (w_data w ++ head) 0 rest in
      Ok (mkWindow (w_size w) (fst dm) (snd dm)).

Definition w_appendTo (w : window) (buf : bytes) (from to : Z) : res bytes :=
  let dataLen := u32 (len (w_data w)) in
  let from := u32 (from + u32 (w_off w)) in
  let to := u32 (to + u32 (w_off w)) in
  let fw := from >? dataLen in
  let from := if fw then from - dataLen else from in
  let tw := to >? dataLen in
  let to := if tw then to - dataLen else to in
  if xorb fw tw then
    let? a := slice (w_data w) from (len (w_data w)) in
    let? b := slice (w_data w) 0 to in
    Ok (buf ++ a ++ b)
  else
    let? a := slice (w_data w) from to in
    Ok (buf ++ a).

(** * xxHash-64 *)

Definition xxhPrime64c1 : Z := 0x9e3779b185ebca87.
Definition xxhPrime64c2 : Z := 0xc2b2ae3d27d4eb4f.
Definition xxhPrime64c3 : Z := 0x165667b19e3779f9.
Definition xxhPrime64c4 : Z := 0x85ebca77c2b2ae63.
Definition xxhPrime64c5 : Z := 0x27d4eb2f165667c5.

Record xxhash64 := mkXxhash {
  xh_len : Z;
  xh_v : Z * Z * Z * Z;
  xh_buf : bytes;
  xh_cnt : Z }.

Definition xh_reset : xxhash64 :=
  mkXxhash 0 (u64 (xxhPrime64c1 + xxhPrime64c2), xxhPrime64c2, 0, u64 (- xxhPrime64c1)) (replicate 32 Byte.x00) 0.

Definition rotl64 (x k : Z) : Z := Z.lor (u64 (Z.shiftl x k)) (Z.shiftr x (64 - k)).

Definition xh_round (v n : Z) : Z := u64 (rotl64 (u64 (v + u64 (n * xxhPrime64c2))) 31 * xxhPrime64c1).

Definition xh_mergeRound (v n : Z) : Z := u64 (u64 (Z.lxor v (xh_round 0 n) * xxhPrime64c1) + xxhPrime64c4).

(** [binary.LittleEndian.Uint64(b[i:])] and [Uint32], which panic on a short
    slice. *)
Definition le_at (n : nat) (b : bytes) (i : Z) : res Z :=
  let? s := slice b i (i + Z.of_nat n) in Ok (le_value s).

(** Four rounds over 32 bytes. *)
Definition xh_stripe (v : Z * Z * Z * Z) (b : bytes) : res (Z * Z * Z * Z) :=
  let '(v0, v1, v2, v3) := v in
  let? a := le_at 8 b 0 in
  let? b1 := le_at 8 b 8 in
  let? c := le_at 8 b 16 in
  let? d := le_at 8 b 24 in
  Ok (xh_round v0 a, xh_round v1 b1, xh_round v2 c, xh_round v3 d).

Fixpoint xh_stripes (fuel : nat) (v : Z * Z * Z * Z) (b : bytes) : res (Z * Z * Z * Z * bytes) :=
  match fuel with
  | O => Panic
  | S f =>
      if len b >=? 32 then
        let? v := xh_stripe v b in
        let? b := slice b 32 (len b) in
        xh_stripes f v b
      else Ok (v, b)
  end.

Definition xh_update (xh : xxhash64) (b : bytes) : res xxhash64 :=
  let n := u64 (xh_len xh + len b) in
  if xh_cnt xh + len b <? 32 then
    let? bn := copy_at (xh_buf xh) (xh_cnt xh) b in
    Ok (mkXxhash n (xh_v xh) (fst bn) (xh_cnt xh + len b))
  else
    let? vbb :=
      (if xh_cnt xh >? 0 then
         let? bn := copy_at (xh_buf xh) (xh_cnt xh) b in
         let? b := slice b (snd bn) (len b) in
         let? v := xh_stripe (xh_v xh) (fst bn) in
         Ok (v, fst bn, 0, b)
       else Ok (xh_v xh, xh_buf xh, xh_cnt xh, b)) in
    let '(v, buf, cnt, b) := vbb in
    let? vb := xh_stripes (S (length b)) v b in
    let '(v, b) := vb in
    if len b >? 0 then
      let? bn := copy_at buf 0 b in Ok (mkXxhash n v (fst bn) (len b))
    else Ok (mkXxhash n v buf cnt).

Fixpoint digest_words (fuel : nat) (h64 n : Z) (buf : bytes) : res (Z * Z * bytes) :=
  match fuel with
  | O => Panic
  | S f =>
      if n >=? 8 then
        let? w := le_at 8 buf 0 in
        let? buf := slice buf 8 (len buf) in
        let h64 := Z.lxor h64 (xh_round 0 w) in
        digest_words f (u64 (u64 (rotl64 h64 27 * xxhPrime64c1) + xxhPrime64c4)) (n - 8) buf
      else Ok (h64, n, buf)
  end.

Fixpoint digest_bytes (n : nat) (h64 : Z) (buf : bytes) : res Z :=
  match n with
  | O => Ok h64
  | S m =>
      let? b := index buf 0 in
      let? buf := slice buf 1 (len buf) in
      let h64 := Z.lxor h64 (u64 (b2z b * xxhPrime64c5)) in
      digest_bytes m (u64 (rotl64 h64 11 * xxhPrime64c1)) buf
  end.

Definition xh_digest (xh : xxhash64) : res Z :=
  let '(v0, v1, v2, v3) := xh_v xh in
  let h64 :=
    if xh_len xh <? 32 then u64 (v2 + xxhPrime64c5)
    else
      let h64 := u64 (rotl64 v0 1 + rotl64 v1 7 + rotl64 v2 12 + rotl64 v3 18) in
      let h64 := xh_mergeRound h64 v0 in
      let h64 := xh_mergeRound h64 v1 in
      let h64 := xh_mergeRound h64 v2 in
      xh_mergeRound h64 v3 in
  let h64 := u64 (h64 + xh_len xh) in
  let? hnb := digest_words 5 h64 (Z.land (xh_len xh) 31) (xh_buf xh) in
  let '(h64, n, buf) := hnb in
  let? hnb :=
    (if n >=? 4 then
       let? w := le_at 4 buf 0 in
       let? buf := slice buf 4 (len buf) in
       let h64 := Z.lxor h64 (u64 (w * xxhPrime64c1)) in
       Ok (u64 (u64 (rotl64 h64 23 * xxhPrime64c2) + xxhPrime64c3), n - 4, buf)
     else Ok (h64, n, buf)) in
  let '(h64, n, buf) := hnb in
  let? h64 := digest_bytes (Z.to_nat n) h64 buf in
  let h64 := Z.lxor h64 (Z.shiftr h64 33) in
  let h64 := u64 (h64 * xxhPrime64c2) in
  let h64 := Z.lxor h64 (Z.shiftr h64 29) in
  let h64 := u64 (h64 * xxhPrime64c3) in
  Ok (Z.lxor h64 (Z.shiftr h64 32)).

(** * Sequences *)

Inductive seqCode := seqLiteral | seqOffset | seqMatch.

Record seqCodeInfoData := mkSeqCodeInfo {
  ci_predefTable : list fseBaselineEntry;
  ci_predefTableBits : Z;
  ci_maxSym : Z;
  ci_maxBits : Z;
  ci_toBaseline : list fseEntry -> res (list fseBaselineEntry) }.

Definition seqCodeInfo (kind : seqCode) : seqCodeInfoData :=
  match kind with
  | seqLiteral => mkSeqCodeInfo predefinedLiteralTable 6 35 9 makeLiteralBaselineFSE
  | seqOffset => mkSeqCodeInfo predefinedOffsetTable 5 31 8 makeOffsetBaselineFSE
  | seqMatch => mkSeqCodeInfo predefinedMatchTable 6 52 9 makeMatchBaselineFSE
  end.

(** [seqTables[kind]] and [seqTableBits[kind]]. *)
Definition seqTable : Type := list fseBaselineEntry * Z.

Definition setSeqTable (data : bytes) (off : Z) (kind : seqCode) (mode : Z) (old : seqTable) : res (Z * seqTable) :=
  let info := seqCodeInfo kind in
  match mode with
  | 0 => Ok (off, (ci_predefTable info, u8 (ci_predefTableBits info)))
  | 1 =>
      if off >=? len data then Err makeEOFError else
      let? rle := index data off in
      let? table := ci_toBaseline info [mkFseEntry (b2z rle) 0 0] in
      Ok (off + 1, (table, 0))
  | 2 =>
      let scratch := replicate (Z.to_nat (Z.shiftl 1 (ci_maxBits info))) zero_entry in
      let? rd := readFSE data off (ci_maxSym info) (ci_maxBits info) scratch in
      let '(tableBits, roff, scratch) := rd in
      let? scratch := slice scratch 0 (Z.shiftl 1 tableBits) in
      let? table := ci_toBaseline info scratch in
      Ok (roff, (table, u8 tableBits))
  | 3 => if len (fst old) =? 0 then Err (makeError "missing repeat sequence FSE table") else Ok (off, old)
  | _ => Panic
  end.

(** The three tables. *)
Record seqTables := mkSeqTables {
  st_literal : seqTable;
  st_offset : seqTable;
  st_match : seqTable }.

Definition no_tables : seqTables := mkSeqTables ([], 0) ([], 0) ([], 0).

(** The number of sequences and the offset after it. *)
Definition read_seq_count (data : bytes) (off seqHdr : Z) : res (Z * Z) :=
  if seqHdr <? 128 then Ok (seqHdr, off)
  else if seqHdr <? 255 then
    if off >=? len data then Err makeEOFError else
    let? a := index data off in
    Ok (Z.shiftl (seqHdr - 128) 8 + b2z a, off + 1)
  else
    if off + 1 >=? len data then Err makeEOFError else
    let? a := index data off in
    let? b := index data (off + 1) in
    Ok (b2z a + Z.shiftl (b2z b) 8 + 0x7f00, off + 2).

Definition initSeqs (data : bytes) (off : Z) (t : seqTables) : res (Z * Z * seqTables) :=
  if off >=? len data then Err makeEOFError else
  let? h := index data off in
  let seqHdr := b2z h in
  let off := off + 1 in
  if seqHdr =? 0 then Ok (0, off, t) else
  let? so := read_seq_count data off seqHdr in
  let '(seqCount, off) := so in
  if off >=? len data then Err makeEOFError else
  let? s := index data off in
  let symMode := b2z s in
  if negb (Z.land symMode 3 =? 0) then Err (makeError "invalid symbol compression mode") else
  let off := off + 1 in
  let? l := setSeqTable data off seqLiteral (Z.land (Z.shiftr symMode 6) 3) (st_literal t) in
  let? o := setSeqTable data (fst l) seqOffset (Z.land (Z.shiftr symMode 4) 3) (st_offset t) in
  let? m := setSeqTable data (fst o) seqMatch (Z.land (Z.shiftr symMode 2) 3) (st_match t) in
  Ok (seqCount, fst m, mkSeqTables (snd l) (snd o) (snd m)).

(** [for match > 0]: the part of the buffer from [bufferOffset] on is copied,
    so that it doubles. *)
Fixpoint copy_loop (fuel : nat) (buffer : bytes) (bufferOffset match_ : Z) : res bytes :=
  if negb (match_ >? 0) then Ok buffer else
  match fuel with
  | O => Panic
  | S f =>
      let copy := u32 (u32 (len buffer) - bufferOffset) in
      let copy := if copy >? match_ then match_ else copy in
      let? part := slice buffer bufferOffset (u32 (bufferOffset + copy)) in
      copy_loop f (buffer ++ part) bufferOffset (match_ - copy)
  end.

Definition copyFromWindow (w : window) (buffer : bytes) (offset match_ : Z) : res bytes :=
  if offset =? 0 then Err (makeError "invalid zero offset") else
  let lenBlock := u32 (len buffer) in
  if lenBlock <? offset then
    let lenWindow := w_len w in
    let copy := offset - lenBlock in
    if copy >? lenWindow then Err (makeError "offset past window") else
    let windowOffset := lenWindow - copy in
    let copy := if copy >? match_ then match_ else copy in
    let? buffer := w_appendTo w buffer windowOffset (u32 (windowOffset + copy)) in
    copy_loop (Z.to_nat match_) buffer 0 (match_ - copy)
  else copy_loop (Z.to_nat match_) buffer (lenBlock - offset) match_.

(** The offset of a sequence and the repeated offsets after it. *)
Definition resolve_offset (basebits offset literal : Z) (rep : recents) : Z * recents :=
  let '(r1, r2, r3) := rep in
  if basebits >? 1 then (offset, (offset, r1, r2)) else
  let offset := if literal =? 0 then u32 (offset + 1) else offset in
  match offset with
  | 1 => (r1, rep)
  | 2 => (r2, (r2, r1, r3))
  | 3 => (r3, (r3, r1, r2))
  | 4 => let o := u32 (r1 - 1) in (o, (o, r1, r2))
  | _ => (offset, rep)
  end.

(** The variables of the loop of [execSeqs]. *)
Record execState := mkExec {
  x_rbr : reverseBitReader;
  x_literalState : Z;
  x_offsetState : Z;
  x_matchState : Z;
  x_rep : recents;
  x_buffer : bytes;
  x_litbuf : bytes }.

(** [state = base + val(bits)]. *)
Definition next_state (rbr : reverseBitReader) (e : fseBaselineEntry) : res (Z * reverseBitReader) :=
  let? vr := rb_val rbr (be_bits e) in Ok (u32 (be_base e + fst vr), snd vr).

Definition exec_one (t : seqTables) (w : window) (last : bool) (x : execState) : res execState :=
  if len (x_buffer x) + len (x_litbuf x) >? Z.shiftl 128 10 then Err (makeError "uncompressed size too big") else
  let? ptoffset := index (fst (st_offset t)) (x_offsetState x) in
  let? ptmatch := index (fst (st_match t)) (x_matchState x) in
  let? ptliteral := index (fst (st_literal t)) (x_literalState x) in
  let? ar := rb_val (x_rbr x) (be_basebits ptoffset) in
  let offset := u32 (be_baseline ptoffset + fst ar) in
  let? ar := rb_val (snd ar) (be_basebits ptmatch) in
  let match_ := u32 (be_baseline ptmatch + fst ar) in
  let? ar := rb_val (snd ar) (be_basebits ptliteral) in
  let literal := u32 (be_baseline ptliteral + fst ar) in
  let rbr := snd ar in
  let '(offset, rep) := resolve_offset (be_basebits ptoffset) offset literal (x_rep x) in
  let? states :=
    (if last then Ok (x_literalState x, x_matchState x, x_offsetState x, rbr)
     else
       let? l := next_state rbr ptliteral in
       let? m := next_state (snd l) ptmatch in
       let? o := next_state (snd m) ptoffset in
       Ok (fst l, fst m, fst o, snd o)) in
  let '(literalState, matchState, offsetState, rbr) := states in
  if literal >? len (x_litbuf x) then Err (makeError "literal byte overflow") else
  let? lit := slice (x_litbuf x) 0 literal in
  let? litbuf := slice (x_litbuf x) literal (len (x_litbuf x)) in
  let buffer := x_buffer x ++ lit in
  let? buffer := (if match_ >? 0 then copyFromWindow w buffer offset match_ else Ok buffer) in
  Ok (mkExec rbr literalState offsetState matchState rep buffer litbuf).

Fixpoint exec_loop (n : nat) (t : seqTables) (w : window) (x : execState) : res execState :=
  match n with
  | O => Ok x
  | S m => let? x := exec_one t w (Nat.eqb m 0) x in exec_loop m t w x
  end.

(** The repeated offsets and the buffer after the block. *)
Definition execSeqs (t : seqTables) (w : window) (rep : recents) (data : bytes) (off : Z) (litbuf : bytes) (seqCount : Z)
    : res (recents * bytes) :=
  let? rbr := makeReverseBitReader data (len data - 1) off in
  let? l := rb_val rbr (snd (st_literal t)) in
  let? o := rb_val (snd l) (snd (st_offset t)) in
  let? m := rb_val (snd o) (snd (st_match t)) in
  let? x := exec_loop (Z.to_nat seqCount) t w (mkExec (snd m) (fst l) (fst o) (fst m) rep [] litbuf) in
  if negb (rb_cnt (x_rbr x) =? 0) then Err (makeError "extraneous data after sequences") else
  Ok (x_rep x, x_buffer x ++ x_litbuf x).

(** * Blocks and frames *)

Record Reader := mkReader {
  r_r : bytes;
  r_sawFrameHeader : bool;
  r_hasChecksum : bool;
  r_readOneFrame : bool;
  r_frameSizeUnknown : bool;
  r_remainingFrameSize : Z;
  r_buffer : bytes;
  r_repeatedOffsets : recents;
  r_huffman : huffman;
  r_window : window;
  r_seqTables : seqTables;
  r_checksum : xxhash64 }.

Definition NewReader (input : bytes) : Reader :=
  mkReader input false false false false 0 [] (0, 0, 0) ([], 0) (w_reset 0) no_tables xh_reset.

(** [io.ReadFull] of [n] bytes, and the rest of the input. *)
Definition read_full (input : bytes) (n : Z) : res (bytes * bytes) :=
  if n =? 0 then Ok ([], input) else
  if len input =? 0 then Err EOF else
  if len input <? n then Err ErrUnexpectedEOF else
  Ok (take (Z.to_nat n) input, drop (Z.to_nat n) input).

(** A read whose error is passed through [wrapNonEOFError]. *)
Definition read_or_eof (input : bytes) (n : Z) : res (bytes * bytes) :=
  match read_full input n with
  | Err _ => Err makeEOFError
  | r => r
  end.

Definition compressedBlock (r : Reader) (blockSize : Z) : res Reader :=
  let? di := read_or_eof (r_r r) blockSize in
  let '(data, input) := di in
  let? lo := readLiterals (r_huffman r) data 0 [] in
  let '(off, litbuf, h) := lo in
  let? st := initSeqs data off (r_seqTables r) in
  let '(seqCount, off, t) := st in
  let? rb :=
    (if seqCount =? 0 then
       if off <? len data then Err (makeError "extraneous data after no sequences")
       else Ok (r_repeatedOffsets r, litbuf)
     else execSeqs t (r_window r) (r_repeatedOffsets r) data off litbuf seqCount) in
  Ok (mkReader input (r_sawFrameHeader r) (r_hasChecksum r) (r_readOneFrame r) (r_frameSizeUnknown r)
    (r_remainingFrameSize r) (snd rb) (fst rb) h (r_window r) t (r_checksum r)).

Definition skipFrame (input : bytes) : res bytes :=
  let? hi := read_or_eof input 4 in
  let size := le_value (fst hi) in
  if size =? 0 then Ok (snd hi) else
  if len (snd hi) <? size then Err makeEOFError else Ok (drop (Z.to_nat size) (snd hi)).

(** The fields that the header of a frame sets, from its descriptor on. *)
Definition read_descriptor (r : Reader) (input : bytes) : res Reader :=
  let? di := read_or_eof input 1 in
  let? d := index (fst di) 0 in
  let descriptor := b2z d in
  let singleSegment := negb (Z.land descriptor (Z.shiftl 1 5) =? 0) in
  let fcsFieldSize := Z.shiftl 1 (Z.shiftr descriptor 6) in
  let fcsFieldSize := if (fcsFieldSize =? 1) && negb singleSegment then 0 else fcsFieldSize in
  let windowDescriptorSize := if singleSegment then 0 else 1 in
  if negb (Z.land descriptor (Z.shiftl 1 3) =? 0) then Err (makeError "reserved bit set in frame header descriptor") else
  let hasChecksum := negb (Z.land descriptor (Z.shiftl 1 2) =? 0) in
  let dictIdFlag := Z.land descriptor 3 in
  let dictionaryIdSize := if dictIdFlag =? 0 then 0 else Z.shiftl 1 (dictIdFlag - 1) in
  let? hi := read_or_eof (snd di) (windowDescriptorSize + dictionaryIdSize + fcsFieldSize) in
  let '(header, input) := hi in
  let? windowSize :=
    (if singleSegment then Ok 0
     else
       let? wd := index header 0 in
       let windowBase := Z.shiftl 1 (Z.shiftr (b2z wd) 3 + 10) in
       Ok (windowBase + windowBase / 8 * Z.land (b2z wd) 7)) in
  let? dictionaryId := slice header windowDescriptorSize (windowDescriptorSize + dictionaryIdSize) in
  if existsb (fun b => negb (b2z b =? 0)) dictionaryId then Err (makeError "dictionaries are not supported") else
  let? fb := slice header (windowDescriptorSize + dictionaryIdSize) (len header) in
  let remaining := if fcsFieldSize =? 2 then 256 + le_value fb else le_value fb in
  let windowSize := if singleSegment then remaining else windowSize in
  let windowSize := Z.min windowSize (Z.shiftl 8 20) in
  Ok (mkReader input true hasChecksum true (fcsFieldSize =? 0) remaining (r_buffer r) (1, 4, 8)
    (fst (r_huffman r), 0) (w_reset windowSize)
    (mkSeqTables ([], snd (st_literal (r_seqTables r))) ([], snd (st_offset (r_seqTables r)))
       ([], snd (st_match (r_seqTables r))))
    (if hasChecksum then xh_reset else r_checksum r)).

(** [goto retry] after each skippable frame. *)
Fixpoint readFrameHeader (fuel : nat) (readOneFrame : bool) (r : Reader) (input : bytes) : res Reader :=
  match fuel with
  | O => Panic
  | S f =>
      match read_full input 4 with
      | Err e => if bool_decide (e = EOF) && readOneFrame then Err EOF else Err makeEOFError
      | Panic => Panic
      | Ok (m, input) =>
          let magic := le_value m in
          if negb (magic =? 0xfd2fb528) then
            if (magic >=? 0x184d2a50) && (magic <=? 0x184d2a5f) then
              let? input := skipFrame input in readFrameHeader f true r input
            else Err (makeError "invalid magic number")
          else read_descriptor r input
      end
  end.

(** The last block of a frame: its length and its checksum. *)
Definition end_frame (r : Reader) : res Reader :=
  if negb (r_frameSizeUnknown r) && negb (r_remainingFrameSize r =? 0)
  then Err (makeError "not enough uncompressed bytes for frame") else
  let? input :=
    (if r_hasChecksum r then
       let? ci := read_or_eof (r_r r) 4 in
       let? h := xh_digest (r_checksum r) in
       if negb (le_value (fst ci) =? u32 h) then Err (makeError "invalid checksum") else Ok (snd ci)
     else Ok (r_r r)) in
  Ok (mkReader input false (r_hasChecksum r) (r_readOneFrame r) (r_frameSizeUnknown r) (r_remainingFrameSize r)
    (r_buffer r) (r_repeatedOffsets r) (r_huffman r) (r_window r) (r_seqTables r) (r_checksum r)).

(** [r.buffer] and [r.r] after a raw or a run-length block. *)
Definition with_buffer (r : Reader) (input buffer : bytes) : Reader :=
  mkReader input (r_sawFrameHeader r) (r_hasChecksum r) (r_readOneFrame r) (r_frameSizeUnknown r)
    (r_remainingFrameSize r) buffer (r_repeatedOffsets r) (r_huffman r) (r_window r) (r_seqTables r) (r_checksum r).

Definition block_content (r : Reader) (input : bytes) (blockType blockSize : Z) : res Reader :=
  match blockType with
  | 0 => let? bi := read_or_eof input blockSize in Ok (with_buffer r (snd bi) (fst bi))
  | 1 =>
      let? bi := read_or_eof input 1 in
      let? v := index (fst bi) 0 in
      Ok (with_buffer r (snd bi) (replicate (Z.to_nat blockSize) v))
  | 2 => compressedBlock (with_buffer r input (r_buffer r)) blockSize
  | _ => Err (makeError "invalid block type")
  end.

(** What follows the content: the frame's remaining size, the checksum and the
    window. *)
Definition after_content (r : Reader) (lastBlock : bool) : res Reader :=
  if negb (r_frameSizeUnknown r) && (len (r_buffer r) >? r_remainingFrameSize r)
  then Err (makeError "too many uncompressed bytes in frame") else
  let remaining := if r_frameSizeUnknown r then r_remainingFrameSize r else r_remainingFrameSize r - len (r_buffer r) in
  let? checksum := (if r_hasChecksum r then xh_update (r_checksum r) (r_buffer r) else Ok (r_checksum r)) in
  let r := mkReader (r_r r) (r_sawFrameHeader r) (r_hasChecksum r) (r_readOneFrame r) (r_frameSizeUnknown r)
    remaining (r_buffer r) (r_repeatedOffsets r) (r_huffman r) (r_window r) (r_seqTables r) checksum in
  if negb lastBlock then
    let? w := w_save (r_window r) (r_buffer r) in
    Ok (mkReader (r_r r) (r_sawFrameHeader r) (r_hasChecksum r) (r_readOneFrame r) (r_frameSizeUnknown r)
      (r_remainingFrameSize r) (r_buffer r) (r_repeatedOffsets r) (r_huffman r) w (r_seqTables r) (r_checksum r))
  else end_frame r.

Definition readBlock (r : Reader) : res Reader :=
  let? hi := read_or_eof (r_r r) 3 in
  let header := le_value (fst hi) in
  let lastBlock := negb (Z.land header 1 =? 0) in
  let blockType := Z.land (Z.shiftr header 1) 3 in
  let blockSize := Z.shiftr header 3 in
  if (blockSize >? Z.shiftl 128 10) || ((w_size (r_window r) >? 0) && (blockSize >? w_size (r_window r)))
  then Err (makeError "block size too large") else
  let? r := block_content r (snd hi) blockType blockSize in
  after_content r lastBlock.

Definition refill (r : Reader) : res Reader :=
  let? r :=
    (if r_sawFrameHeader r then Ok r
     else readFrameHeader (S (length (r_r r))) (r_readOneFrame r) r (r_r r)) in
  readBlock r.

(** [io.ReadAll(io.LimitReader(r, limit))]: blocks are read until the stream
    ends or [limit] bytes are there.  A block takes at least its header. *)
Fixpoint read_all (fuel : nat) (r : Reader) (limit : Z) (out : bytes) : res bytes :=
  if len out >=? limit then Ok (take (Z.to_nat limit) out) else
  match fuel with
  | O => Panic
  | S f =>
      match refill r with
      | Ok r => read_all f r limit (out ++ r_buffer r)
      | Err e => if bool_decide (e = EOF) then Ok out else Err e
      | Panic => Panic
      end
  end.

Definition ErrCorrupt : error := FmtError "zstd: corrupt input" 0.

Definition Magic : Z := 0xFD2FB528.

Definition IsFrame (data : bytes) : bool :=
  if len data <? 4 then false else le_value (take 4 data) =? Magic.

(** [fmt.Errorf("%w: %v", ErrCorrupt, ze.Unwrap())] for a [zstdError]. *)
Definition corrupt_error (e : error) : error :=
  match e with
  | FmtError m z =>
      if String.prefix zstd_prefix m
      then FmtError ("zstd: corrupt input: " +:+ String.substring (String.length zstd_prefix) (String.length m) m) z
      else e
  | _ => e
  end.

Definition Decode (src : bytes) (maxSize : Z) : res bytes :=
  if len src =? 0 then Err ErrCorrupt else
  if negb (IsFrame src) then Err ErrCorrupt else
  match read_all (S (length src)) (NewReader src) (s64 (maxSize + 1)) [] with
  | Ok out => if len out >? maxSize then Err (FmtError "zstd: decompressed size exceeds limit" maxSize) else Ok out
  | Err e => Err (corrupt_error e)
  | Panic => Panic
  end.
