(* ===== verification/ZstdEncode.v ===== *)
(** The Zstandard encoder: [internal/compress/zstd/encode.go]. *)

From Stdlib Require Import ZArith Lia.
From Stdlib Require Import Strings.Byte.
From stdpp Require Import base list gmap countable strings.
From S2P Require Import Prelude.
From S2P Require Import ZstdBits.
From S2P Require Import ZstdFse.

Open Scope Z_scope.

Definition maxBlockSize : Z := Z.shiftl 128 10.

(** * Matches *)

(** [for l < maxLen && src[off+l] == src[i+l] { l++ }], on the two suffixes. *)
Fixpoint common_len (maxLen : nat) (a b : bytes) : Z :=
  match maxLen, a, b with
  | S m, x :: a, y :: b => if bool_decide (x = y) then 1 + common_len m a b else 0
  | _, _, _ => 0
  end.

Definition match_len (src : bytes) (off i : nat) : Z :=
  let maxLen := Z.min (len src - Z.of_nat i) (65535 + zstdMinMatch) in
  common_len (Z.to_nat maxLen) (drop off src) (drop i src).

(** The loop over [off] from [start + n - 1] down to [start]. *)
Fixpoint find_loop (n : nat) (src : bytes) (i start : nat) (offset length : Z) : Z * Z :=
  match n with
  | O => (offset, length)
  | S m =>
      let off := (start + m)%nat in
      let l := match_len src off i in
      if (l >=? zstdMinMatch) && (l >? length) then find_loop m src i start (Z.of_nat i - Z.of_nat off) l
      else find_loop m src i start offset length
  end.

Definition findMatch (src : bytes) (i : nat) : Z * Z :=
  let start := Z.to_nat (Z.max (Z.of_nat i - Z.shiftl 1 20) 0) in
  find_loop (i - start) src i start 0 0.

(** The variables of the loop of [buildSequences]. *)
Fixpoint build_loop (fuel : nat) (src : bytes) (prev pos : nat) (recent : recents) (literals : bytes) (sequences : list seq)
    : res (bytes * list seq) :=
  if negb (pos <? length src)%nat then
    Ok (if (prev <? length src)%nat then literals ++ drop prev src else literals, sequences)
  else
  match fuel with
  | O => Panic
  | S f =>
      let '(off, ml) := findMatch src pos in
      if ml <? zstdMinMatch then build_loop f src prev (S pos) recent literals sequences
      else
        let literals := if (prev <? pos)%nat then literals ++ take (pos - prev) (drop prev src) else literals in
        let lits := u32 (Z.of_nat pos - Z.of_nat prev) in
        let '(encOff, recent) := encodeMatchOffset (u32 off) lits recent in
        let s := setCodes lits (u32 (ml - zstdMinMatch)) encOff in
        let pos := (pos + Z.to_nat ml)%nat in
        build_loop f src pos pos recent literals (sequences ++ [s])
  end.

Definition buildSequences (src : bytes) : res (bytes * list seq) :=
  build_loop (length src) src 0 0 recentOffsets [] [].

(** * Blocks *)

(** [block[0..2]] from the header's 24 bits. *)
Definition block_header (hdr : Z) : bytes := [z2b hdr; z2b (Z.shiftr hdr 8); z2b (Z.shiftr hdr 16)].

Definition encodeCompressedBlock (src : bytes) : res (option bytes) :=
  let? ls := buildSequences src in
  let '(literals, sequences) := ls in
  if len sequences =? 0 then Ok None else
  let blockBody := appendRawLiteralsHeader [] (len literals) ++ literals in
  let? blockBody := encodeSequences blockBody sequences in
  let hdr := Z.lor (Z.lor 1 (Z.shiftl 2 1)) (u32 (Z.shiftl (len blockBody) 3)) in
  Ok (Some (block_header hdr ++ blockBody)).

Definition encodeRawBlock (src : bytes) (last : bool) : bytes :=
  let hdr := u32 (Z.shiftl (len src) 3) in
  let hdr := if last then Z.lor hdr 1 else hdr in
  block_header hdr ++ src.

(** [out[0] |= 1] or [out[0] &^= 1] on a copy. *)
Definition setBlockLast (block : bytes) (last : bool) : res bytes :=
  let? b := index block 0 in
  assign block 0 (z2b (if last then Z.lor (b2z b) 1 else Z.ldiff (b2z b) 1)).

(** * Frames *)

Definition encodeEmptyFrame : bytes := map z2b [0x28; 0xb5; 0x2f; 0xfd; 0x20; 0x00; 0x01; 0x00; 0x00].

Definition encodeFrameHeader (contentSize : Z) : bytes :=
  map z2b [0x28; 0xb5; 0x2f; 0xfd] ++
  (if contentSize <? 256 then z2b 0x20 :: [z2b contentSize]
   else if contentSize <? 256 + 65535 then z2b 0x60 :: le_bytes 2 (contentSize - 256)
   else if contentSize <? Z.shiftl 1 32 then z2b 0xa0 :: le_bytes 4 contentSize
   else z2b 0xe0 :: le_bytes 8 contentSize).

Definition appendFrame (dst src block : bytes) : bytes := dst ++ encodeFrameHeader (len src) ++ block.

Definition encodeRawFrame (src : bytes) : bytes :=
  let hdr := Z.lor (Z.lor 1 (Z.shiftl 0 1)) (u32 (Z.shiftl (len src) 3)) in
  appendFrame [] src (block_header hdr ++ src).

(** One frame for each 128 KiB of the source. *)
Fixpoint encode_large (fuel : nat) (src out : bytes) : res bytes :=
  if len src =? 0 then Ok out else
  match fuel with
  | O => Panic
  | S f =>
      let chunk := if len src >? maxBlockSize then take (Z.to_nat maxBlockSize) src else src in
      let src := drop (length chunk) src in
      let? ob := encodeCompressedBlock chunk in
      let last := len src =? 0 in
      let raw := encodeRawBlock chunk last in
      let? block :=
        match ob with
        | None => Ok raw
        | Some block =>
            if len block >=? len chunk then Ok raw
            else if negb last then setBlockLast block false
            else Ok block
        end in
      encode_large f src (appendFrame out chunk block)
  end.

Definition encodeLarge (src : bytes) : res bytes := encode_large (length src) src [].

Definition Encode (src : bytes) : res bytes :=
  if len src =? 0 then Ok encodeEmptyFrame else
  if len src >? maxBlockSize then encodeLarge src else
  let? ob := encodeCompressedBlock src in
  match ob with
  | None => Ok (encodeRawFrame src)
  | Some block => if len block >=? len src then Ok (encodeRawFrame src) else Ok (appendFrame [] src block)
  end.
