(* ===== verification/ZstdSeqFacts.v ===== *)
(** Sequences survive their encoding: the codes of the three lengths, the
    predefined tables of the encoder against those of the decoder, and the bit
    stream between them. *)

From Stdlib Require Import ZArith Lia.
From Stdlib Require Import Strings.Byte.
From stdpp Require Import base list gmap countable strings.
From S2P Require Import Prelude.
From S2P Require Import ZstdBits.
From S2P Require Import ZstdFse.
From S2P Require Import ZstdHuff.
From S2P Require Import ZstdReader.

Open Scope Z_scope.

(** * Checks over ranges *)

(** [lo], [lo + 1], ..., [n] of them. *)
Definition zrange (lo : Z) (n : nat) : list Z := map (fun k => lo + Z.of_nat k) (List.seq 0 n).

Lemma zrange_forall (f : Z -> bool) lo n :
  forallb f (zrange lo n) = true -> forall x, lo <= x < lo + Z.of_nat n -> f x = true.
Proof.
  intros Hf x Hx. rewrite forallb_forall in Hf. apply Hf, in_map_iff. exists (Z.to_nat (x - lo)).
  split; [lia|]. apply in_seq. lia.
Qed.

(** * The encoders *)

Definition no_encoder : fseEncoder := mkEncoder 0 0 (mkCTable [] [] []) [].

Definition encoders : fseEncoder * fseEncoder * fseEncoder :=
  Eval vm_compute in (match initPredefinedEncoders with Ok e => e | _ => (no_encoder, no_encoder, no_encoder) end).

Definition llEnc : fseEncoder := Eval vm_compute in fst (fst encoders).
Definition ofEnc : fseEncoder := Eval vm_compute in snd (fst encoders).
Definition mlEnc : fseEncoder := Eval vm_compute in snd encoders.

Lemma init_encoders : initPredefinedEncoders = Ok (llEnc, ofEnc, mlEnc).
Proof. vm_compute. reflexivity. Qed.

Lemma setBits_encoders :
  setBits (Some llBitsTable) llEnc = llEnc /\ setBits None ofEnc = ofEnc /\ setBits (Some mlBitsTable) mlEnc = mlEnc.
Proof. split_and!; vm_compute; reflexivity. Qed.

(** The bits and the baseline of a code, from the tables. *)
Definition out_bits (enc : fseEncoder) (code : Z) : Z :=
  match ct_symbolTT (en_ct enc) !! Z.to_nat code with Some t => tt_outBits t | None => 0 end.

Definition ll_base (code : Z) : Z :=
  if code <? 16 then code else Z.land (default 0 (literalLengthBase !! Z.to_nat (code - 16))) 0xffffff.
Definition ml_base (code : Z) : Z :=
  if code <? 32 then code + 3 else Z.land (default 0 (matchLengthBase !! Z.to_nat (code - 32))) 0xffffff.
Definition of_base (code : Z) : Z := 2 ^ code - (if code >=? 2 then 3 else 0).

(** ** Codes *)

Lemma log2_split v : 0 < v -> v = 2 ^ Z.log2 v + v mod 2 ^ Z.log2 v.
Proof.
  intros Hv. pose proof (Z.log2_spec v Hv) as Hs. rewrite Z.pow_succ_r in Hs by apply Z.log2_nonneg.
  assert (v mod 2 ^ Z.log2 v = v - 2 ^ Z.log2 v) as ->; [|lia].
  symmetry. apply Z.mod_unique with 1; lia.
Qed.

Lemma highBit32_log2 v : 0 < v < 2 ^ 32 -> highBit32 v = Z.log2 v.
Proof.
  intros Hv. unfold highBit32, bitlen, u32. destruct (Z.eqb_spec v 0); [lia|]. rewrite Z.add_simpl_r.
  apply Z.mod_small. split; [apply Z.log2_nonneg|]. eapply Z.lt_trans; [apply Z.log2_lt_lin; lia|lia].
Qed.

Lemma log2_lo a v : 0 <= a -> 2 ^ a <= v -> a <= Z.log2 v.
Proof. intros Ha Hv. rewrite <- (Z.log2_pow2 a) by done. by apply Z.log2_le_mono. Qed.

Lemma log2_hi b v : 0 < v < 2 ^ b -> Z.log2 v < b.
Proof. intros Hv. apply Z.log2_lt_pow2; lia. Qed.

Lemma ll_code_ok v : 0 <= v < 2 ^ 17 ->
  0 <= llCode v < 36 /\ v = ll_base (llCode v) + v mod 2 ^ out_bits llEnc (llCode v).
Proof.
  intros Hv. destruct (Z.leb_spec v 63).
  - assert (forallb (fun v => (0 <=? llCode v) && (llCode v <? 36) &&
      (v =? ll_base (llCode v) + v mod 2 ^ out_bits llEnc (llCode v))) (zrange 0 64) = true) as Hall by (vm_compute; reflexivity).
    specialize (zrange_forall _ _ _ Hall v ltac:(lia)) as Hc. cbv beta in Hc. zbool. lia.
  - unfold llCode. destruct (Z.leb_spec v 63); [lia|]. rewrite highBit32_log2 by lia.
    pose proof (log2_lo 6 v ltac:(lia) ltac:(lia)). pose proof (log2_hi 17 v ltac:(lia)).
    unfold u8. rewrite Z.mod_small by lia. split; [lia|].
    assert (forallb (fun k => (ll_base (k + 19) =? 2 ^ k) && (out_bits llEnc (k + 19) =? k)) (zrange 6 11) = true) as Hall
      by (vm_compute; reflexivity).
    specialize (zrange_forall _ _ _ Hall (Z.log2 v) ltac:(lia)) as Hc. cbv beta in Hc.
    apply andb_prop in Hc as [E1%Z.eqb_eq E2%Z.eqb_eq]. rewrite E1, E2. apply log2_split. lia.
Qed.

Lemma ml_code_ok v : 0 <= v < 2 ^ 17 ->
  0 <= mlCode v < 53 /\ v + 3 = ml_base (mlCode v) + v mod 2 ^ out_bits mlEnc (mlCode v).
Proof.
  intros Hv. destruct (Z.leb_spec v 127).
  - assert (forallb (fun v => (0 <=? mlCode v) && (mlCode v <? 53) &&
      (v + 3 =? ml_base (mlCode v) + v mod 2 ^ out_bits mlEnc (mlCode v))) (zrange 0 128) = true) as Hall by (vm_compute; reflexivity).
    specialize (zrange_forall _ _ _ Hall v ltac:(lia)) as Hc. cbv beta in Hc. zbool. lia.
  - unfold mlCode. destruct (Z.leb_spec v 127); [lia|]. rewrite highBit32_log2 by lia.
    pose proof (log2_lo 7 v ltac:(lia) ltac:(lia)). pose proof (log2_hi 17 v ltac:(lia)).
    unfold u8. rewrite Z.mod_small by lia. split; [lia|].
    assert (forallb (fun k => (ml_base (k + 36) =? 2 ^ k + 3) && (out_bits mlEnc (k + 36) =? k)) (zrange 7 10) = true) as Hall
      by (vm_compute; reflexivity).
    specialize (zrange_forall _ _ _ Hall (Z.log2 v) ltac:(lia)) as Hc. cbv beta in Hc.
    apply andb_prop in Hc as [E1%Z.eqb_eq E2%Z.eqb_eq]. rewrite E1, E2. rewrite (log2_split v) at 1 by lia. lia.
Qed.

Lemma of_code_ok v : 1 <= v < 2 ^ 21 ->
  0 <= ofCode v < 21 /\ out_bits ofEnc (ofCode v) = ofCode v /\
  v = of_base (ofCode v) + v mod 2 ^ ofCode v + (if ofCode v >=? 2 then 3 else 0).
Proof.
  intros Hv. unfold ofCode, bitlen. destruct (Z.eqb_spec v 0); [lia|]. rewrite Z.add_simpl_r.
  pose proof (Z.log2_nonneg v). pose proof (log2_hi 21 v ltac:(lia)). unfold u8. rewrite Z.mod_small by lia.
  assert (forallb (fun k => out_bits ofEnc k =? k) (zrange 0 21) = true) as Hall by (vm_compute; reflexivity).
  specialize (zrange_forall _ _ _ Hall (Z.log2 v) ltac:(lia)) as Hc. cbv beta in Hc. zbool.
  split; [lia|]. split; [done|]. unfold of_base. rewrite (log2_split v) at 1 by lia. destruct (_ >=? 2); lia.
Qed.

(** ** States *)

(** The entry of the decoding table that belongs to a code. *)
Definition entry_is (enc : fseEncoder) (base : Z -> Z) (code : Z) (e : fseBaselineEntry) : bool :=
  (be_basebits e =? out_bits enc code) && (be_baseline e =? base code).

(** [x] is a state of the encoder, [size + i], whose entry belongs to [code]. *)
Definition state_for (enc : fseEncoder) (tab : list fseBaselineEntry) (base : Z -> Z) (size code x : Z) : bool :=
  (size <=? x) && (x <? 2 * size) &&
  match tab !! Z.to_nat (x - size) with Some e => entry_is enc base code e | None => false end.

(** A move of the encoder from [x] over [code] leads to a state for [code] from
    which the decoder comes back to [x]. *)
Definition move_ok (enc : fseEncoder) (tab : list fseBaselineEntry) (base : Z -> Z) (size code x : Z) : bool :=
  match encode_state (bw_reset []) enc x code with
  | Ok (_, x', t) =>
      let nb := Z.shiftr (u32 (x + tt_deltaNbBits t)) 16 in
      state_for enc tab base size code x' && (0 <=? nb) && (nb <=? 8) &&
      match tab !! Z.to_nat (x' - size) with
      | Some e => (be_bits e =? nb) && (be_base e + x mod 2 ^ nb =? x - size) && (0 <=? be_base e)
      | None => false
      end
  | _ => false
  end.

Definition start_ok (enc : fseEncoder) (tab : list fseBaselineEntry) (base : Z -> Z) (size code : Z) : bool :=
  match ct_symbolTT (en_ct enc) !! Z.to_nat code with
  | Some t => match cstate_init (en_ct enc) t with Ok x => state_for enc tab base size code x | _ => false end
  | None => false
  end.

Definition encoder_ok (enc : fseEncoder) (tab : list fseBaselineEntry) (base : Z -> Z) (size : Z) (codes : nat) : bool :=
  forallb (fun code => start_ok enc tab base size code &&
    forallb (move_ok enc tab base size code) (zrange size (Z.to_nat size))) (zrange 0 codes).

(** The encoder's predefined tables mirror the decoder's. *)
Lemma ll_encoder_ok : encoder_ok llEnc predefinedLiteralTable ll_base 64 36 = true.
Proof. vm_compute. reflexivity. Qed.
Lemma of_encoder_ok : encoder_ok ofEnc predefinedOffsetTable of_base 32 29 = true.
Proof. vm_compute. reflexivity. Qed.
Lemma ml_encoder_ok : encoder_ok mlEnc predefinedMatchTable ml_base 64 53 = true.
Proof. vm_compute. reflexivity. Qed.

Section coder.
Context (enc : fseEncoder) (tab : list fseBaselineEntry) (base : Z -> Z) (size : Z) (codes : nat).
Hypothesis Hok : encoder_ok enc tab base size codes = true.

Lemma encoder_ok_at code : 0 <= code < Z.of_nat codes ->
  start_ok enc tab base size code = true /\
  forall x, size <= x < 2 * size -> move_ok enc tab base size code x = true.
Proof.
  intros Hc. specialize (zrange_forall _ _ _ Hok code Hc) as H. cbv beta in H. apply andb_prop in H as [Hs Hm].
  split; [done|]. intros x Hx. apply (zrange_forall _ _ _ Hm). lia.
Qed.

(** A state and the entry at which the decoder stands in it. *)
Definition At (code x : Z) (e : fseBaselineEntry) : Prop :=
  size <= x < 2 * size /\ index tab (x - size) = Ok e /\
  be_basebits e = out_bits enc code /\ be_baseline e = base code.

Lemma state_for_At code x : state_for enc tab base size code x = true -> exists e, At code x e.
Proof.
  unfold state_for, entry_is. intros H. apply andb_prop in H as [H He]. zbool.
  destruct (tab !! Z.to_nat (x - size)) as [e|] eqn:Hl; [|done]. zbool. exists e.
  split; [lia|]. split; [apply index_lookup; split; [lia|done]|done].
Qed.

Lemma start_spec code : 0 <= code < Z.of_nat codes ->
  exists t x e, index (ct_symbolTT (en_ct enc)) code = Ok t /\ tt_outBits t = out_bits enc code /\
    cstate_init (en_ct enc) t = Ok x /\ At code x e.
Proof.
  intros Hc. destruct (encoder_ok_at code Hc) as [Hs _]. unfold start_ok in Hs.
  destruct (ct_symbolTT (en_ct enc) !! Z.to_nat code) as [t|] eqn:Ht; [|done].
  destruct (cstate_init (en_ct enc) t) as [x| |] eqn:Hi; try done. apply state_for_At in Hs as [e He].
  exists t, x, e. split; [apply index_lookup; split; [lia|done]|]. unfold out_bits. by rewrite Ht.
Qed.

Lemma encode_state_spec w code x : 0 <= code < Z.of_nat codes -> size <= x < 2 * size ->
  exists nb x' t e, encode_state w enc x code = Ok (addBits16NC w x nb, x', t) /\
    tt_outBits t = out_bits enc code /\ At code x' e /\
    be_bits e = nb /\ 0 <= nb <= 8 /\ be_base e + x mod 2 ^ nb = x - size /\ 0 <= be_base e.
Proof.
  intros Hc Hx. destruct (encoder_ok_at code Hc) as [_ Hm]. specialize (Hm x Hx). unfold move_ok in Hm.
  unfold encode_state in *. unfold out_bits.
  destruct (index (ct_symbolTT (en_ct enc)) code) as [t| |] eqn:Ht; try done. cbn [res_bind] in *.
  apply index_lookup in Ht as [_ Ht]. rewrite Ht.
  destruct (index (ct_stateTable (en_ct enc)) _) as [x'| |] eqn:Hx'; try done. cbn [res_bind] in *.
  set (nb := Z.shiftr (u32 (x + tt_deltaNbBits t)) 16) in *.
  apply andb_prop in Hm as [Hm He]. apply andb_prop in Hm as [Hm Hn8]. apply andb_prop in Hm as [Hs Hn0].
  apply state_for_At in Hs as [e HA]. pose proof HA as (_ & Hl & _). apply index_lookup in Hl as [_ Hl].
  rewrite Hl in He. zbool. exists nb, x', t, e.
  assert (u8 nb = nb) as -> by (unfold u8; rewrite Z.mod_small; [done|change (2 ^ 8) with 256; lia]).
  repeat split; done || lia || apply HA.
Qed.
End coder.

(** * Copies *)

(** From [lo] on and below [hi], [src] repeats with period [off]. *)
Definition periodic (src : bytes) (lo off hi : nat) : Prop :=
  forall j, (lo <= j)%nat -> (j + off < hi)%nat -> src !! (j + off)%nat = src !! j.

Lemma periodic_mul src lo off hi q j :
  periodic src lo off hi -> (lo <= j)%nat -> (j + off * q < hi)%nat -> src !! (j + off * q)%nat = src !! j.
Proof.
  intros Hp Hj. induction q as [|q IH]; intros Hq; [f_equal; lia|].
  replace (j + off * S q)%nat with ((j + off * q) + off)%nat by lia. rewrite Hp by lia. apply IH. lia.
Qed.

Lemma take_extend {A} (l : list A) k bo c :
  (bo + c <= k)%nat -> (k + c <= length l)%nat -> (forall j, (j < c)%nat -> l !! (k + j)%nat = l !! (bo + j)%nat) ->
  take k l ++ take c (drop bo (take k l)) = take (k + c) l.
Proof.
  intros Hb Hk Hj. rewrite <- (take_drop k l) at 3. rewrite take_app_ge by (rewrite length_take; lia). f_equal.
  rewrite length_take. replace (k + c - k `min` length l)%nat with c by lia.
  apply list_eq. intros i. destruct (decide (i < c)%nat).
  - rewrite !lookup_take_lt by lia. rewrite !lookup_drop. rewrite lookup_take_lt by lia. symmetry. by apply Hj.
  - by rewrite !lookup_take_ge by lia.
Qed.

Lemma len_take {A} (l : list A) k : (k <= length l)%nat -> len (take k l) = Z.of_nat k.
Proof. intros Hk. unfold len. rewrite length_take. lia. Qed.

Lemma copy_loop_ok src bo off hi fuel k q m :
  periodic src bo off hi -> (hi <= length src)%nat -> len src < 2 ^ 31 -> (1 <= off)%nat -> (1 <= q)%nat ->
  k = (bo + off * q)%nat -> (k + m = hi)%nat -> (m <= fuel)%nat ->
  copy_loop fuel (take k src) (Z.of_nat bo) (Z.of_nat m) = Ok (take hi src).
Proof.
  intros Hp Hh Hl Hoff. revert k q m. induction fuel as [|fuel IH]; intros k q m Hq Hk Hm Hf.
  - replace m with 0%nat by lia. cbn. do 2 f_equal. lia.
  - destruct m as [|m]; [cbn; do 2 f_equal; lia|]. cbn [copy_loop].
    destruct (Z.gtb_spec (Z.of_nat (S m)) 0); [|lia]. cbn [negb]. rewrite len_take by lia.
    assert (u32 (u32 (Z.of_nat k) - Z.of_nat bo) = Z.of_nat (k - bo)) as ->.
    { unfold u32, len in *. rewrite (Z.mod_small (Z.of_nat k)) by lia. rewrite Z.mod_small by lia. lia. }
    assert ((if Z.of_nat (k - bo) >? Z.of_nat (S m) then Z.of_nat (S m) else Z.of_nat (k - bo)) = Z.of_nat ((k - bo) `min` S m)) as ->.
    { destruct (Z.gtb_spec (Z.of_nat (k - bo)) (Z.of_nat (S m))); lia. }
    set (c := ((k - bo) `min` S m)%nat). assert (1 <= c)%nat by nia.
    assert (u32 (Z.of_nat bo + Z.of_nat c) = Z.of_nat (bo + c)) as ->.
    { unfold u32, len in *. rewrite Z.mod_small; lia. }
    rewrite slice_ok; [|lia|rewrite len_take; lia]. cbn [res_bind].
    replace (Z.to_nat (Z.of_nat (bo + c) - Z.of_nat bo)) with c by lia. rewrite Nat2Z.id.
    rewrite take_extend; [|lia|lia|].
    2:{ intros j Hj. subst k. replace (bo + off * q + j)%nat with (bo + j + off * q)%nat by lia.
        apply (periodic_mul src bo off hi); [done|lia|lia]. }
    replace (Z.of_nat (S m) - Z.of_nat c) with (Z.of_nat (S m - c)) by lia.
    destruct (decide (S m <= k - bo)%nat).
    + replace (S m - c)%nat with 0%nat by lia. replace (k + c)%nat with hi by lia. by destruct fuel.
    + apply (IH _ (q + q)%nat); nia.
Qed.

(** A match within the buffer continues the source. *)
Lemma copyFromWindow_ok src w pos off ml :
  periodic src (pos - off) off (pos + ml) -> (pos + ml <= length src)%nat -> len src < 2 ^ 31 -> (1 <= off <= pos)%nat ->
  copyFromWindow w (take pos src) (Z.of_nat off) (Z.of_nat ml) = Ok (take (pos + ml) src).
Proof.
  intros Hp Hh Hl Hoff. unfold copyFromWindow. destruct (Z.eqb_spec (Z.of_nat off) 0); [lia|].
  rewrite len_take by lia. unfold u32, len in *. rewrite Z.mod_small by lia.
  destruct (Z.ltb_spec (Z.of_nat pos) (Z.of_nat off)); [lia|].
  replace (Z.of_nat pos - Z.of_nat off) with (Z.of_nat (pos - off)) by lia.
  rewrite Nat2Z.id. apply (copy_loop_ok src (pos - off) off (pos + ml) _ _ 1); try done; lia.
Qed.

(** * Repeated offsets *)

Lemma resolve_ok off lits rep enc rep' :
  encodeMatchOffset off lits rep = (enc, rep') -> 1 <= off <= 2 ^ 20 -> 0 <= lits ->
  1 <= enc < 2 ^ 21 /\
  resolve_offset (ofCode enc) (enc - (if ofCode enc >=? 2 then 3 else 0)) lits rep = (off, rep').
Proof.
  destruct rep as [[r0 r1] r2]. intros He Ho Hl.
  assert (Hfar : forall rep', (u32 (off + 3), (off, r0, r1)) = (enc, rep') -> 1 <= enc < 2 ^ 21 /\
    resolve_offset (ofCode enc) (enc - (if ofCode enc >=? 2 then 3 else 0)) lits (r0, r1, r2) = (off, rep')).
  { unfold u32. rewrite Z.mod_small by lia. intros ? [= <- <-]. split; [lia|].
    destruct (of_code_ok (off + 3)) as (Hc & _ & _); [lia|].
    assert (2 <= ofCode (off + 3)).
    { unfold ofCode, bitlen, u8 in *. destruct (Z.eqb_spec (off + 3) 0); [lia|]. rewrite Z.add_simpl_r in *.
      pose proof (log2_lo 2 (off + 3) ltac:(lia) ltac:(lia)). pose proof (log2_hi 21 (off + 3) ltac:(lia)).
      rewrite Z.mod_small by lia. lia. }
    unfold resolve_offset. destruct (Z.geb_spec (ofCode (off + 3)) 2); [|lia].
    destruct (Z.gtb_spec (ofCode (off + 3)) 1); [|lia]. rewrite Z.add_simpl_r. done. }
  unfold encodeMatchOffset in He.
  destruct (Z.gtb_spec lits 0) as [Hlits|Hlits];
    (assert ((lits =? 0) = negb (lits >? 0)) as Hz by (destruct (Z.eqb_spec lits 0), (Z.gtb_spec lits 0); done || lia);
     destruct (Z.gtb_spec lits 0); [|]; try lia; cbn [negb] in Hz).
  - destruct (Z.eqb_spec off r0) as [->|]; [injection He as <- <-; split; [lia|]; unfold resolve_offset; rewrite Hz; reflexivity|].
    destruct (Z.eqb_spec off r1) as [->|]; [injection He as <- <-; split; [lia|]; unfold resolve_offset; rewrite Hz; reflexivity|].
    destruct (Z.eqb_spec off r2) as [->|]; [injection He as <- <-; split; [lia|]; unfold resolve_offset; rewrite Hz; reflexivity|].
    by apply Hfar.
  - destruct (Z.eqb_spec off r1) as [->|]; [injection He as <- <-; split; [lia|]; unfold resolve_offset; rewrite Hz; reflexivity|].
    destruct (Z.eqb_spec off r2) as [->|]; [injection He as <- <-; split; [lia|]; unfold resolve_offset; rewrite Hz; reflexivity|].
    destruct (Z.eqb_spec off (u32 (r0 - 1))) as [->|]; [injection He as <- <-; split; [lia|]; unfold resolve_offset; rewrite Hz; reflexivity|].
    by apply Hfar.
Qed.

(** * Sequences of a source *)

(** [Lz src prev rep seqs lits]: the sequences and the literals that are left
    when the first [prev] bytes of [src] are done. *)
Inductive Lz (src : bytes) : nat -> recents -> list seq -> bytes -> Prop :=
| Lz_end prev rep : (prev <= length src)%nat -> Lz src prev rep [] (drop prev src)
| Lz_match prev rep pos off ml enc rep' seqs lits :
    (prev <= pos)%nat -> (1 <= off <= pos)%nat -> (3 <= ml)%nat -> Z.of_nat ml <= 65538 -> (pos + ml <= length src)%nat ->
    periodic src (pos - off) off (pos + ml) ->
    encodeMatchOffset (Z.of_nat off) (Z.of_nat (pos - prev)) rep = (enc, rep') ->
    Lz src (pos + ml) rep' seqs lits ->
    Lz src prev rep (setCodes (Z.of_nat (pos - prev)) (Z.of_nat (ml - 3)) enc :: seqs)
      (take (pos - prev) (drop prev src) ++ lits).

Lemma Lz_lits src prev rep seqs lits : Lz src prev rep seqs lits -> (prev + length lits <= length src)%nat.
Proof.
  induction 1 as [|prev rep pos off ml enc rep' seqs lits ? ? ? ? ? ? ? _ IH]; [rewrite length_drop; lia|].
  rewrite length_app, length_take, length_drop. lia.
Qed.

(** What the encoder may be given. *)
Definition wf_seq (s : seq) : Prop :=
  exists ll ml enc, s = setCodes ll ml enc /\ 0 <= ll < 2 ^ 17 /\ 0 <= ml < 2 ^ 17 /\ 1 <= enc < 2 ^ 21.

Lemma Lz_wf src prev rep seqs lits : Lz src prev rep seqs lits -> len src <= 2 ^ 17 -> Forall wf_seq seqs.
Proof.
  intros H Hl. unfold len in Hl. induction H as [|prev rep pos off ml enc rep' seqs lits ? ? ? ? ? ? He _ IH]; constructor; [|done].
  apply resolve_ok in He as [He _]; [|lia..]. exists (Z.of_nat (pos - prev)), (Z.of_nat (ml - 3)), enc. split; [done|]. lia.
Qed.

(** The widths of the three extra fields of a sequence. *)
Definition ll_bits (s : seq) : Z := out_bits llEnc (s_llCode s).
Definition ml_bits (s : seq) : Z := out_bits mlEnc (s_mlCode s).
Definition of_bits (s : seq) : Z := out_bits ofEnc (s_ofCode s).

(** Their total, which [encodeSequenceStates] writes at once. *)
Definition extra_bits (s : seq) : Z := ll_bits s + ml_bits s + of_bits s.

Lemma wf_bits s : wf_seq s ->
  0 <= ll_bits s <= 16 /\ 0 <= ml_bits s <= 16 /\ 0 <= of_bits s <= 20 /\
  0 <= s_llCode s < 36 /\ 0 <= s_mlCode s < 53 /\ 0 <= s_ofCode s < 29.
Proof.
  intros (ll & ml & enc & -> & Hl & Hm & He). unfold ll_bits, ml_bits, of_bits, setCodes. cbn [s_llCode s_mlCode s_ofCode].
  destruct (ll_code_ok ll Hl) as [Hlc _], (ml_code_ok ml Hm) as [Hmc _], (of_code_ok enc He) as (Hoc & Hob & _).
  assert (forallb (fun c => (0 <=? out_bits llEnc c) && (out_bits llEnc c <=? 16)) (zrange 0 36) = true) as H1 by (vm_compute; reflexivity).
  assert (forallb (fun c => (0 <=? out_bits mlEnc c) && (out_bits mlEnc c <=? 16)) (zrange 0 53) = true) as H2 by (vm_compute; reflexivity).
  specialize (zrange_forall _ _ _ H1 _ Hlc) as Hl1. specialize (zrange_forall _ _ _ H2 _ Hmc) as Hm1. cbv beta in *. zbool. lia.
Qed.

(** * Decoding *)

Definition predef_tables : seqTables :=
  mkSeqTables (predefinedLiteralTable, 6) (predefinedOffsetTable, 5) (predefinedMatchTable, 6).

(** The three extra fields of [s] on top of a stream. *)
Definition push_extra (s : seq) (v n : Z) : Z :=
  v + (s_litLen s mod 2 ^ ll_bits s) * 2 ^ n + (s_matchLen s mod 2 ^ ml_bits s) * 2 ^ (n + ll_bits s) +
  (s_offset s mod 2 ^ of_bits s) * 2 ^ (n + ll_bits s + ml_bits s).

Definition AtLL := At llEnc predefinedLiteralTable ll_base 64.
Definition AtOF := At ofEnc predefinedOffsetTable of_base 32.
Definition AtML := At mlEnc predefinedMatchTable ml_base 64.

Lemma mod_pow_bound x b : 0 <= b -> 0 <= x mod 2 ^ b < 2 ^ b.
Proof. intros Hb. apply Z.mod_pos_bound. apply Z.pow_pos_nonneg; lia. Qed.

Lemma push_bound v n x b : 0 <= n -> 0 <= b -> 0 <= v < 2 ^ n -> 0 <= x < 2 ^ b -> 0 <= v + x * 2 ^ n < 2 ^ (n + b).
Proof. intros. rewrite Z.pow_add_r by lia. nia. Qed.

(** One sequence: its fields are read, its literals and its match appended. *)
Lemma exec_one_ok src w s rest r v n L O M el eo em prev rep lits :
  len src <= 2 ^ 17 -> Lz src prev rep (s :: rest) lits ->
  AtLL (s_llCode s) L el -> AtOF (s_ofCode s) O eo -> AtML (s_mlCode s) M em ->
  0 <= n -> 0 <= v < 2 ^ n -> Unread r (push_extra s v n) (n + ll_bits s + ml_bits s + of_bits s) -> rb_cnt r <= 31 ->
  exists r1 rep' lits' prev', Unread r1 v n /\ rb_cnt r1 <= 31 /\ Lz src prev' rep' rest lits' /\
    let x := mkExec r (L - 64) (O - 32) (M - 64) rep (take prev src) lits in
    exec_one predef_tables w true x = Ok (mkExec r1 (L - 64) (O - 32) (M - 64) rep' (take prev' src) lits') /\
    forall l m o ra rb rc, next_state r1 el = Ok (l, ra) -> next_state ra em = Ok (m, rb) -> next_state rb eo = Ok (o, rc) ->
      exec_one predef_tables w false x = Ok (mkExec rc l o m rep' (take prev' src) lits').
Proof.
  intros Hsz HLz (HL & Hil & Hbl & Hvl) (HO & Hio & Hbo & Hvo) (HM & Him & Hbm & Hvm) Hn Hv Hu Hc.
  pose proof (Lz_lits _ _ _ _ _ HLz) as Hll. pose proof (Forall_inv (Lz_wf _ _ _ _ _ HLz Hsz)) as Hwf.
  destruct (wf_bits s Hwf) as (Hb1 & Hb2 & Hb3 & _ & _ & _). unfold push_extra in Hu.
  pose proof (mod_pow_bound (s_litLen s) (ll_bits s) ltac:(lia)) as Bl. pose proof (mod_pow_bound (s_matchLen s) (ml_bits s) ltac:(lia)) as Bm.
  pose proof (push_bound v n _ _ Hn (proj1 Hb1) Hv Bl) as P1. pose proof (push_bound _ (n + ll_bits s) _ _ ltac:(lia) (proj1 Hb2) P1 Bm) as P2.
  destruct (rb_val_written _ _ _ _ _ Hu ltac:(lia) ltac:(lia) P2 Hc) as (ra & Hra & Hua & Hca).
  destruct (rb_val_written _ _ _ _ _ Hua ltac:(lia) ltac:(lia) P1 Hca) as (rb & Hrb & Hub & Hcb).
  destruct (rb_val_written _ _ _ _ _ Hub ltac:(lia) ltac:(lia) Hv Hcb) as (r1 & Hr1 & Hu1 & Hc1).
  inversion HLz as [|? ? pos off ml enc rep' ? lits' Hprev Hoff Hml Hmax Hend Hper Henc Hrest]; subst.
  exists r1, rep', lits', (pos + ml)%nat. split; [done|]. split; [done|]. split; [done|]. cbv zeta.
  set (s := setCodes (Z.of_nat (pos - prev)) (Z.of_nat (ml - 3)) enc) in *.
  unfold len in Hsz. destruct (resolve_ok _ _ _ _ _ Henc ltac:(lia) ltac:(lia)) as [Henc1 Hres].
  destruct (ll_code_ok (Z.of_nat (pos - prev)) ltac:(lia)) as [_ Vl]. destruct (ml_code_ok (Z.of_nat (ml - 3)) ltac:(lia)) as [_ Vm].
  destruct (of_code_ok enc ltac:(lia)) as (_ & Hob & Vo).
  assert (u32 (be_baseline el + s_litLen s mod 2 ^ ll_bits s) = Z.of_nat (pos - prev)) as El.
  { rewrite Hvl. unfold s, ll_bits, setCodes, u32 in *. cbn [s_llCode s_litLen] in *. rewrite <- Vl, Z.mod_small; lia. }
  assert (u32 (be_baseline em + s_matchLen s mod 2 ^ ml_bits s) = Z.of_nat ml) as Em.
  { rewrite Hvm. unfold s, ml_bits, setCodes, u32 in *. cbn [s_mlCode s_matchLen] in *. rewrite <- Vm, Z.mod_small; lia. }
  assert (u32 (be_baseline eo + s_offset s mod 2 ^ of_bits s) = enc - (if ofCode enc >=? 2 then 3 else 0)) as Eo.
  { rewrite Hvo. unfold s, of_bits, setCodes, u32 in *. cbn [s_ofCode s_offset] in *. rewrite Hob in *.
    assert (of_base (ofCode enc) + enc mod 2 ^ ofCode enc = enc - (if ofCode enc >=? 2 then 3 else 0)) as -> by lia.
    rewrite Z.mod_small; [done|]. split; [|destruct (_ >=? _); lia].
    destruct (Z.geb_spec (ofCode enc) 2) as [Hc2|]; [|lia]. pose proof (mod_pow_bound enc (ofCode enc) ltac:(lia)).
    assert (2 ^ 2 <= 2 ^ ofCode enc) by (apply Z.pow_le_mono_r; lia). unfold of_base in Vo. destruct (Z.geb_spec (ofCode enc) 2); lia. }
  assert (Hbo' : be_basebits eo = ofCode enc) by (rewrite Hbo; exact Hob).
  assert (Htake : take prev src ++ take (pos - prev) (drop prev src) = take pos src).
  { replace pos with (prev + (pos - prev))%nat at 2 by lia. by rewrite <- take_take_drop. }
  assert (Hllen : length (take (pos - prev) (drop prev src)) = (pos - prev)%nat) by (rewrite length_take, length_drop; lia).
  assert (Hcopy := copyFromWindow_ok src w pos off ml Hper Hend ltac:(unfold len; lia) Hoff).
  assert (Hfin : forall last states,
    (if last : bool then Ok (L - 64, M - 64, O - 32, r1)
     else let? l := next_state r1 el in let? m := next_state (snd l) em in let? o := next_state (snd m) eo in
          Ok (fst l, fst m, fst o, snd o)) = Ok states ->
    exec_one predef_tables w last (mkExec r (L - 64) (O - 32) (M - 64) rep (take prev src) (take (pos - prev) (drop prev src) ++ lits')) =
      (let '(l, m, o, rc) := states in Ok (mkExec rc l o m rep' (take (pos + ml) src) lits'))).
  { intros last [[[l m] o] rc] Hst. unfold exec_one. cbn [x_rbr x_literalState x_offsetState x_matchState x_rep x_buffer x_litbuf].
    cbn [st_offset st_match st_literal predef_tables fst snd].
    rewrite Hio, Him, Hil. cbn [res_bind]. rewrite Hbo, Hbm, Hbl.
    change (out_bits ofEnc (s_ofCode s)) with (of_bits s). change (out_bits mlEnc (s_mlCode s)) with (ml_bits s).
    change (out_bits llEnc (s_llCode s)) with (ll_bits s).
    rewrite Hra. cbn [res_bind fst snd]. rewrite Hrb. cbn [res_bind fst snd]. rewrite Hr1. cbn [res_bind fst snd].
    rewrite El, Em, Eo. assert (of_bits s = ofCode enc) as -> by exact Hob. rewrite Hres, Hst. cbn [res_bind].
    rewrite len_take, !len_app by lia. assert (len (take (pos - prev) (drop prev src)) = Z.of_nat (pos - prev)) as -> by (unfold len; lia).
    rewrite length_app, Hllen in Hll. unfold len. change (Z.shiftl 128 10) with (2 ^ 17).
    destruct (Z.gtb_spec (Z.of_nat prev + (Z.of_nat (pos - prev) + Z.of_nat (length lits'))) (2 ^ 17)); [lia|].
    destruct (Z.gtb_spec (Z.of_nat (pos - prev)) (Z.of_nat (pos - prev) + Z.of_nat (length lits'))); [lia|].
    rewrite !slice_ok by (unfold len; rewrite ?length_app; lia). cbn [res_bind].
    rewrite Z.sub_0_r, !Nat2Z.id, drop_0, (take_app_length' _ _ (pos - prev)), (drop_app_length' _ _ (pos - prev)) by lia.
    rewrite Z.add_simpl_l, Nat2Z.id, firstn_all, Htake.
    destruct (Z.gtb_spec (Z.of_nat ml) 0); [|lia]. by rewrite Hcopy. }
  split; [apply (Hfin true _ eq_refl)|]. intros l m o rx ry rz Hl1 Hm1 Ho1.
  apply (Hfin false (l, m, o, rz)). rewrite Hl1. cbn [res_bind fst snd]. rewrite Hm1. cbn [res_bind fst snd]. by rewrite Ho1.
Qed.

(** ** Whole streams *)

Section stream.
Context (src : bytes).
Hypothesis Hsz : len src <= 2 ^ 17.

(** The stream [v] of [n] bits, entered in the states of the encoder, holds the
    sequences [seqs]: whatever part of [src] they are the rest of, executing
    them completes it. *)
Definition Holds (seqs : list seq) (v n L O M : Z) : Prop :=
  forall w r prev rep lits, Unread r v n -> rb_cnt r <= 31 -> Lz src prev rep seqs lits ->
  exists x, exec_loop (length seqs) predef_tables w (mkExec r (L - 64) (O - 32) (M - 64) rep (take prev src) lits) = Ok x /\
    rb_cnt (x_rbr x) = 0 /\ x_buffer x ++ x_litbuf x = src.

Lemma Holds_last s L O M el eo em :
  AtLL (s_llCode s) L el -> AtOF (s_ofCode s) O eo -> AtML (s_mlCode s) M em ->
  Holds [s] (push_extra s 0 0) (0 + ll_bits s + ml_bits s + of_bits s) L O M.
Proof.
  intros HL HO HM w r prev rep lits Hu Hc HLz.
  destruct (exec_one_ok src w s [] r 0 0 L O M el eo em prev rep lits) as (r1 & rep' & lits' & prev' & Hu1 & Hc1 & HLz' & He & _);
    try done. eexists. cbn [length exec_loop Nat.eqb]. rewrite He. split; [reflexivity|]. cbn [x_rbr x_buffer x_litbuf].
  split; [by eapply Unread_empty|]. inversion HLz'; subst. by rewrite take_drop.
Qed.

(** [u] is the low part of [x] that a move writes, [x'] the state after it. *)
Definition Moved (at_ : Z -> Z -> fseBaselineEntry -> Prop) (size code x x' nb : Z) : Prop :=
  exists e, at_ code x' e /\ be_bits e = nb /\ 0 <= nb <= 8 /\ be_base e + x mod 2 ^ nb = x - size /\ 0 <= be_base e.

(** The three moved states of [encodeSequenceStates] on top of a stream. *)
Definition push_states (L O M nl no nm v n : Z) : Z :=
  v + (O mod 2 ^ no) * 2 ^ n + (M mod 2 ^ nm) * 2 ^ (n + no) + (L mod 2 ^ nl) * 2 ^ (n + no + nm).

Lemma next_state_ok r v n x size e nb :
  Unread r (v + (x mod 2 ^ nb) * 2 ^ n) (n + nb) -> rb_cnt r <= 31 -> 0 <= n -> 0 <= v < 2 ^ n -> 0 <= nb <= 8 ->
  be_bits e = nb -> be_base e + x mod 2 ^ nb = x - size -> 0 <= x - size < 2 ^ 32 ->
  exists r', next_state r e = Ok (x - size, r') /\ Unread r' v n /\ rb_cnt r' <= 31.
Proof.
  intros Hu Hc Hn Hv Hnb Hb Hx Hs. destruct (rb_val_written _ _ _ _ _ Hu ltac:(lia) ltac:(lia) Hv Hc) as (r' & Hr & Hu' & Hc').
  exists r'. unfold next_state. rewrite Hb, Hr. cbn [res_bind fst snd]. rewrite Hx. unfold u32. by rewrite Z.mod_small by lia.
Qed.

Lemma Holds_cons s rest v n L O M L' O' M' nl no nm :
  rest <> [] -> Holds rest v n L O M -> 0 <= n -> 0 <= v < 2 ^ n ->
  64 <= L < 128 -> 32 <= O < 64 -> 64 <= M < 128 ->
  Moved AtLL 64 (s_llCode s) L L' nl -> Moved AtOF 32 (s_ofCode s) O O' no -> Moved AtML 64 (s_mlCode s) M M' nm ->
  Holds (s :: rest) (push_extra s (push_states L O M nl no nm v n) (n + no + nm + nl))
    (n + no + nm + nl + ll_bits s + ml_bits s + of_bits s) L' O' M'.
Proof.
  intros Hne Hrest Hn Hv HL HO HM (el & HL' & Hel & Hnl & Hxl & Hbl) (eo & HO' & Heo & Hno & Hxo & Hbo) (em & HM' & Hem & Hnm & Hxm & Hbm).
  intros w r prev rep lits Hu Hc HLz. unfold push_states in *.
  pose proof (push_bound v n _ no Hn ltac:(lia) Hv (mod_pow_bound O no ltac:(lia))) as P1.
  pose proof (push_bound _ (n + no) _ nm ltac:(lia) ltac:(lia) P1 (mod_pow_bound M nm ltac:(lia))) as P2.
  pose proof (push_bound _ (n + no + nm) _ nl ltac:(lia) ltac:(lia) P2 (mod_pow_bound L nl ltac:(lia))) as P3.
  destruct (exec_one_ok src w s rest r _ (n + no + nm + nl) L' O' M' el eo em prev rep lits Hsz HLz HL' HO' HM' ltac:(lia) P3 Hu Hc)
    as (r1 & rep' & lits' & prev' & Hu1 & Hc1 & HLz' & _ & He).
  destruct (next_state_ok r1 _ _ L 64 el nl Hu1 Hc1 ltac:(lia) P2) as (ra & Hra & Hua & Hca); try done; [lia|].
  destruct (next_state_ok ra _ _ M 64 em nm Hua Hca ltac:(lia) P1) as (rb & Hrb & Hub & Hcb); try done; [lia|].
  destruct (next_state_ok rb _ _ O 32 eo no Hub Hcb ltac:(lia) Hv) as (rc & Hrc & Huc & Hcc); try done; [lia|].
  specialize (He _ _ _ _ _ _ Hra Hrb Hrc). cbn [length exec_loop].
  assert (Nat.eqb (length rest) 0 = false) as -> by (destruct rest; done). rewrite He. cbn [res_bind].
  by apply Hrest.
Qed.
End stream.

(** * Encoding *)

(** A writer and states that hold the sequences [seqs]. *)
Definition Encoded (pre : bytes) (seqs : list seq) (sw : seqWriter) : Prop :=
  exists v n, Written pre (sw_wr sw) v n /\ bw_nBits (sw_wr sw) < 64 /\
    64 <= sw_ll sw < 128 /\ 32 <= sw_of sw < 64 /\ 64 <= sw_ml sw < 128 /\
    forall src, len src <= 2 ^ 17 -> Holds src seqs v n (sw_ll sw) (sw_of sw) (sw_ml sw).

Lemma Written_reset_flush pre : flush32 (bw_reset pre) = bw_reset pre.
Proof. done. Qed.

Lemma start_states_ok pre s : wf_seq s ->
  exists sw, start_states llEnc ofEnc mlEnc (bw_reset pre) s = Ok sw /\ Encoded pre [s] sw.
Proof.
  intros Hwf. destruct (wf_bits s Hwf) as (Hb1 & Hb2 & Hb3 & Hcl & Hcm & Hco).
  destruct (start_spec _ _ _ _ _ ll_encoder_ok _ Hcl) as (tl & L & el & Htl & Hol & Hil & HL).
  destruct (start_spec _ _ _ _ _ of_encoder_ok _ Hco) as (to & O & eo & Hto & Hoo & Hio & HO).
  destruct (start_spec _ _ _ _ _ ml_encoder_ok _ Hcm) as (tm & M & em & Htm & Hom & Him & HM).
  unfold start_states. rewrite Htl. cbn [res_bind]. rewrite Hto. cbn [res_bind]. rewrite Htm. cbn [res_bind].
  rewrite Hil. cbn [res_bind]. rewrite Hio. cbn [res_bind]. rewrite Him. cbn [res_bind].
  rewrite Hol, Hoo, Hom. fold (ll_bits s) (of_bits s) (ml_bits s). rewrite Written_reset_flush.
  destruct (Written_add32 pre _ _ _ (s_litLen s) (ll_bits s) (Written_reset pre)) as [W1 N1]; [lia|cbn; lia|].
  destruct (Written_add32 pre _ _ _ (s_matchLen s) (ml_bits s) W1) as [W2 N2]; [lia|rewrite N1; cbn; lia|].
  destruct (Written_flush32 pre _ _ _ W2) as [W3 N3]; [rewrite N2, N1; cbn; lia|].
  destruct (Written_add32 pre _ _ _ (s_offset s) (of_bits s) W3) as [W4 N4]; [lia..|].
  eexists. split; [reflexivity|]. eexists _, _. cbn [sw_wr sw_ll sw_of sw_ml].
  split; [exact W4|]. split; [lia|]. split; [apply HL|]. split; [apply HO|]. split; [apply HM|].
  intros src Hsz. by apply (Holds_last src Hsz s L O M el eo em).
Qed.

(** The three extra fields as the one number that is written. *)
Lemma extra_value s : wf_seq s -> extra_bits s < 32 ->
  let o := Z.land (s_offset s) (mask_at bitMask32 (of_bits s)) in
  let om := Z.lor (u64 (Z.shiftl o (ml_bits s))) (Z.land (s_matchLen s) (mask_at bitMask32 (ml_bits s))) in
  let oml := Z.lor (u64 (Z.shiftl om (ll_bits s))) (Z.land (s_litLen s) (mask_at bitMask32 (ll_bits s))) in
  u32 oml mod 2 ^ extra_bits s =
    s_litLen s mod 2 ^ ll_bits s + (s_matchLen s mod 2 ^ ml_bits s) * 2 ^ ll_bits s +
    (s_offset s mod 2 ^ of_bits s) * 2 ^ (ll_bits s + ml_bits s).
Proof.
  intros Hwf Hx. destruct (wf_bits s Hwf) as (Hb1 & Hb2 & Hb3 & _). unfold extra_bits in *. cbv zeta. rewrite !mask32_mod by lia.
  pose proof (mod_pow_bound (s_litLen s) (ll_bits s) ltac:(lia)) as Bl. pose proof (mod_pow_bound (s_matchLen s) (ml_bits s) ltac:(lia)) as Bm.
  pose proof (mod_pow_bound (s_offset s) (of_bits s) ltac:(lia)) as Bo.
  set (l := s_litLen s mod _) in *. set (m := s_matchLen s mod _) in *. set (o := s_offset s mod _) in *.
  pose proof (push_bound m (ml_bits s) o (of_bits s) ltac:(lia) ltac:(lia) Bm Bo) as P1.
  pose proof (push_bound l (ll_bits s) _ (ml_bits s + of_bits s) ltac:(lia) ltac:(lia) Bl P1) as P2.
  assert (2 ^ (ml_bits s + of_bits s) <= 2 ^ 36) by (apply Z.pow_le_mono_r; lia).
  assert (2 ^ (ll_bits s + (ml_bits s + of_bits s)) <= 2 ^ 31) by (apply Z.pow_le_mono_r; lia).
  assert (Z.lor (u64 (Z.shiftl o (ml_bits s))) m = m + o * 2 ^ ml_bits s) as ->.
  { unfold u64. rewrite Z.mod_small by (rewrite Z.shiftl_mul_pow2 by lia; lia). rewrite Z.lor_comm. apply lor_shiftl_add; lia. }
  assert (Z.lor (u64 (Z.shiftl (m + o * 2 ^ ml_bits s) (ll_bits s))) l = l + (m + o * 2 ^ ml_bits s) * 2 ^ ll_bits s) as ->.
  { unfold u64. rewrite Z.mod_small by (rewrite Z.shiftl_mul_pow2 by lia; lia). rewrite Z.lor_comm. apply lor_shiftl_add; lia. }
  unfold u32. rewrite (Z.mod_small _ (2 ^ 32)) by lia. rewrite Z.mod_small by (rewrite <- Z.add_assoc; lia).
  rewrite (Z.pow_add_r 2 (ll_bits s)) by lia. ring.
Qed.

Lemma encodeSequenceStates_ok pre s rest sw :
  Encoded pre rest sw -> rest <> [] -> wf_seq s -> extra_bits s < 32 ->
  exists sw', encodeSequenceStates llEnc ofEnc mlEnc sw s = Ok sw' /\ Encoded pre (s :: rest) sw'.
Proof.
  intros (v & n & HW & HN & HL & HO & HM & Hh) Hne Hwf Hx. pose proof (wf_bits s Hwf) as (Hb1 & Hb2 & Hb3 & Hcl & Hcm & Hco).
  destruct (Written_bound _ _ _ _ HW) as [Hn Hv]. unfold encodeSequenceStates.
  destruct (Written_flush32 pre _ _ _ HW HN) as [W0 N0]. set (w0 := flush32 (sw_wr sw)) in *.
  destruct (encode_state_spec _ _ _ _ _ of_encoder_ok w0 _ _ Hco HO) as (no & O' & to & eo & Eo & To & Ao & Beo & Hno & Hmo & Hbo).
  destruct (Written_add16 pre w0 _ _ (sw_of sw) no W0) as [W1 N1]; [lia..|]. set (w1 := addBits16NC w0 (sw_of sw) no) in *.
  destruct (encode_state_spec _ _ _ _ _ ml_encoder_ok w1 _ _ Hcm HM) as (nm & M' & tm & em & Em & Tm & Am & Bem & Hnm & Hmm & Hbm).
  destruct (Written_add16 pre w1 _ _ (sw_ml sw) nm W1) as [W2 N2]; [lia..|]. set (w2 := addBits16NC w1 (sw_ml sw) nm) in *.
  destruct (encode_state_spec _ _ _ _ _ ll_encoder_ok w2 _ _ Hcl HL) as (nl & L' & tl & el & El & Tl & Al & Bel & Hnl & Hml & Hbl).
  destruct (Written_add16 pre w2 _ _ (sw_ll sw) nl W2) as [W3 N3]; [lia..|]. set (w3 := addBits16NC w2 (sw_ll sw) nl) in *.
  destruct (Written_flush32 pre _ _ _ W3) as [W4 N4]; [lia|].
  rewrite Eo. cbn [res_bind]. rewrite Em. cbn [res_bind]. rewrite El. cbn [res_bind]. rewrite To, Tm, Tl.
  fold (ll_bits s) (of_bits s) (ml_bits s).
  assert (forall b, 0 <= b <= 20 -> Z.land b 31 = b) as Hland.
  { intros b Hb. change 31 with (Z.ones 5). rewrite Z.land_ones by lia. apply Z.mod_small. change (2 ^ 5) with 32. lia. }
  rewrite !Hland by lia. unfold extra_bits in Hx.
  assert (u8 (u8 (of_bits s + ml_bits s) + ll_bits s) = extra_bits s) as ->.
  { unfold u8, extra_bits. rewrite (Z.mod_small (of_bits s + ml_bits s)), Z.mod_small by (change (2 ^ 8) with 256; lia). lia. }
  eexists. split; [reflexivity|].
  match goal with |- Encoded _ _ (mkSeqWriter (addBits32NC _ ?x _) _ _ _) =>
    destruct (Written_add32 pre _ _ _ x (extra_bits s) W4) as [W5 N5]; [unfold extra_bits; lia..|] end.
  rewrite (extra_value s Hwf Hx) in W5. eexists _, _. cbn [sw_wr sw_ll sw_of sw_ml].
  split; [exact W5|]. split; [rewrite N5; unfold extra_bits; lia|]. split; [apply Al|]. split; [apply Ao|]. split; [apply Am|].
  intros src Hsz. pose proof (Holds_cons src Hsz s rest v n _ _ _ L' O' M' nl no nm Hne (Hh src Hsz) Hn Hv HL HO HM) as Hc.
  unfold push_extra, push_states, extra_bits in *.
  rewrite (Z.pow_add_r 2 (n + no + nm + nl + ll_bits s)), (Z.pow_add_r 2 (n + no + nm + nl) (ll_bits s)) in Hc by lia. rewrite !(Z.pow_add_r 2 (ll_bits s)) in * by lia.
  replace (n + no + nm + nl + (ll_bits s + ml_bits s + of_bits s)) with (n + no + nm + nl + ll_bits s + ml_bits s + of_bits s) by lia.
  match goal with |- Holds _ _ ?a _ _ _ _ => match type of Hc with _ -> _ -> _ -> Holds _ _ ?b _ _ _ _ => replace a with b by ring end end.
  apply Hc; [exists el|exists eo|exists em]; done.
Qed.
