(* ===== verification/ZstdFacts.v ===== *)
(** The Zstandard codec end to end: what [Encode] writes and [Decode] reads. *)

From Stdlib Require Import ZArith Lia.
From Stdlib Require Import Strings.Byte.
From stdpp Require Import base list gmap countable strings.
From S2P Require Import Prelude.
From S2P Require Import ZstdBits.
From S2P Require Import ZstdFse.
From S2P Require Import ZstdHuff.
From S2P Require Import ZstdReader.
From S2P Require Import ZstdEncode.
From S2P Require Import ZstdSeqFacts.

Open Scope Z_scope.

(** * The sequences section *)

Lemma encode_rest_ok pre l rest sw :
  Encoded pre rest sw -> rest <> [] -> Forall wf_seq l -> Forall (fun s => extra_bits s < 32) l ->
  exists sw', encode_rest llEnc ofEnc mlEnc sw l = Ok sw' /\ Encoded pre (rev l ++ rest) sw'.
Proof.
  revert rest sw. induction l as [|s l IH]; intros rest sw He Hne Hwf Hx; [by exists sw|].
  apply Forall_cons in Hwf as [Hs Hl], Hx as [Hsx Hlx]. cbn [encode_rest].
  destruct (encodeSequenceStates_ok pre s rest sw He Hne Hs Hsx) as (sw1 & -> & He1). cbn [res_bind].
  destruct (IH (s :: rest) sw1 He1) as (sw2 & -> & He2); [done..|]. exists sw2. split; [done|].
  cbn [rev]. by rewrite <- app_assoc.
Qed.

(** The states of the encoder are the ones the decoder reads at the start. *)
Lemma cstate_flush_ok pre w v n x log :
  Written pre w v n -> bw_nBits w < 64 -> 0 <= log <= 16 ->
  Written pre (cstate_flush w x log) (v + (x mod 2 ^ log) * 2 ^ n) (n + log) /\ bw_nBits (cstate_flush w x log) < 64.
Proof.
  intros HW HN Hlog. destruct (Written_flush32 pre w v n HW HN) as [W1 N1]. unfold cstate_flush.
  destruct (Written_add16 pre _ _ _ x log W1) as [W2 N2]; [lia..|]. split; [done|lia].
Qed.

Lemma mod_state x size : size <= x < 2 * size -> x mod size = x - size.
Proof. intros Hx. symmetry. apply Z.mod_unique with 1; lia. Qed.

(** The stream that [encodeSequences] writes after the count and the modes, and
    what [execSeqs] makes of it. *)
Lemma encodeSequences_ok out seqs :
  seqs <> [] -> Forall wf_seq seqs -> Forall (fun s => extra_bits s < 32) (removelast seqs) ->
  exists stream, encodeSequences out seqs = Ok ((out ++ sequence_count (len seqs) ++ [z2b 0]) ++ stream) /\ stream <> [] /\
    forall src w rep lits, Lz src 0 rep seqs lits -> len src <= 2 ^ 17 ->
      let pre := out ++ sequence_count (len seqs) ++ [z2b 0] in
      len (pre ++ stream) < 2 ^ 32 ->
      exists rep', execSeqs predef_tables w rep (pre ++ stream) (len pre) lits (len seqs) = Ok (rep', src).
Proof.
  intros Hne Hwf Hx. unfold encodeSequences. rewrite init_encoders. cbn [res_bind].
  destruct setBits_encoders as (-> & -> & ->). set (pre := out ++ sequence_count (len seqs) ++ [z2b 0]).
  destruct seqs as [|s l _] using rev_ind; [done|]. rewrite removelast_last in Hx. apply Forall_app in Hwf as [Hl Hs].
  apply Forall_cons in Hs as [Hs _]. rewrite len_app. change (len [s]) with 1. rewrite Z.add_simpl_r, index_middle. cbn [res_bind].
  destruct (start_states_ok pre s Hs) as (sw & -> & He). cbn [res_bind]. rewrite rev_unit. cbn [tail].
  destruct (encode_rest_ok pre (rev l) [s] sw He) as (sw' & -> & He'); [done|by apply Forall_rev|by apply Forall_rev|].
  rewrite rev_involutive in He'. cbn [res_bind]. destruct He' as (v & n & HW & HN & HL & HO & HM & Hh).
  destruct (Written_bound _ _ _ _ HW) as [Hn Hv].
  change (en_actualTableLog mlEnc) with 6. change (en_actualTableLog ofEnc) with 5. change (en_actualTableLog llEnc) with 6.
  destruct (cstate_flush_ok pre _ _ _ (sw_ml sw') 6 HW HN) as [W1 N1]; [lia|].
  destruct (cstate_flush_ok pre _ _ _ (sw_of sw') 5 W1 N1) as [W2 N2]; [lia|].
  destruct (cstate_flush_ok pre _ _ _ (sw_ll sw') 6 W2 N2) as [W3 N3]; [lia|].
  destruct (Written_close pre _ _ _ W3 N3) as (stream & -> & Hval & Hlen). exists stream. split; [done|]. split.
  { intros ->. change (len []) with 0 in Hlen. lia. }
  intros src w rep lits HLz Hsz Hl32. unfold execSeqs.
  destruct (Written_bound _ _ _ _ W3) as [_ B3]. destruct (Written_bound _ _ _ _ W2) as [_ B2]. destruct (Written_bound _ _ _ _ W1) as [_ B1].
  destruct (makeReverseBitReader_ok pre stream _ _ Hval Hlen B3 Hl32) as (r0 & -> & U0 & C0). cbn [res_bind].
  cbn [predef_tables st_literal st_offset st_match snd].
  destruct (rb_val_written _ _ _ _ _ U0 ltac:(lia) ltac:(lia) B2 C0) as (r1 & -> & U1 & C1). cbn [res_bind fst snd].
  destruct (rb_val_written _ _ _ _ _ U1 ltac:(lia) ltac:(lia) B1 C1) as (r2 & -> & U2 & C2). cbn [res_bind fst snd].
  destruct (rb_val_written _ _ _ _ _ U2 ltac:(lia) ltac:(lia) Hv C2) as (r3 & -> & U3 & C3). cbn [res_bind fst snd].
  change (2 ^ 6) with 64. change (2 ^ 5) with 32. rewrite (mod_state (sw_ll sw') 64), (mod_state (sw_of sw') 32), (mod_state (sw_ml sw') 64) by lia.
  destruct (Hh src Hsz w r3 0%nat rep lits U3 C3 HLz) as (x & Hex & Hcnt & Hbuf).
  rewrite take_0 in Hex. rewrite len_app in *. change (len [s]) with 1 in *.
  replace (Z.to_nat (len l + 1)) with (length (l ++ [s])) by (rewrite length_app; unfold len; cbn; lia).
  fold predef_tables. rewrite Hex. cbn [res_bind]. rewrite Hcnt, Hbuf. eauto.
Qed.

(** * Matches *)

Lemma common_len_spec m a b :
  0 <= common_len m a b <= Z.of_nat m /\
  forall j, (j < Z.to_nat (common_len m a b))%nat -> a !! j = b !! j.
Proof.
  revert a b. induction m as [|m IH]; intros [|x a] [|y b]; cbn [common_len]; try (split; [lia|]; intros; lia).
  case_bool_decide as Hxy; [|split; [lia|]; intros; lia]. subst y. destruct (IH a b) as [Hb Hj]. split; [lia|].
  intros [|j] Hlt; [done|]. cbn [lookup list_lookup]. apply Hj. lia.
Qed.

Lemma match_len_spec src off i : (i <= length src)%nat ->
  0 <= match_len src off i <= 65538 /\ (i + Z.to_nat (match_len src off i) <= length src)%nat /\
  forall j, (j < Z.to_nat (match_len src off i))%nat -> src !! (off + j)%nat = src !! (i + j)%nat.
Proof.
  intros Hi. unfold match_len, zstdMinMatch, len. set (m := Z.min _ _).
  destruct (common_len_spec (Z.to_nat m) (drop off src) (drop i src)) as [Hb Hj].
  split; [lia|]. split; [lia|]. intros j Hlt. specialize (Hj j Hlt). by rewrite !lookup_drop in Hj.
Qed.

(** A match of [ml] bytes at distance [off] before [pos]. *)
Definition is_match (src : bytes) (pos : nat) (off ml : Z) : Prop :=
  1 <= off <= Z.of_nat pos /\ ml <= 65538 /\ (pos + Z.to_nat ml <= length src)%nat /\
  periodic src (pos - Z.to_nat off) (Z.to_nat off) (pos + Z.to_nat ml).

Lemma match_len_match src off i : (off < i)%nat -> (i <= length src)%nat ->
  is_match src i (Z.of_nat i - Z.of_nat off) (match_len src off i).
Proof.
  intros Ho Hi. destruct (match_len_spec src off i Hi) as (Hb & Hend & Hj). split; [lia|]. split; [lia|]. split; [done|].
  replace (Z.to_nat (Z.of_nat i - Z.of_nat off)) with (i - off)%nat by lia. intros j Hlo Hhi.
  replace (j + (i - off))%nat with (i + (j - off))%nat by lia. rewrite <- Hj by lia. f_equal. lia.
Qed.

Lemma find_loop_match n src i start offset length' :
  (start + n <= i)%nat -> (i <= length src)%nat -> (3 <= length' -> is_match src i offset length') ->
  let '(off, ml) := find_loop n src i start offset length' in 3 <= ml -> is_match src i off ml.
Proof.
  revert offset length'. induction n as [|n IH]; intros offset length' Hs Hi Hm; cbn [find_loop]; [done|].
  unfold zstdMinMatch. destruct (_ && _) eqn:Hc; apply IH; try done; try lia. intros _. apply match_len_match; lia.
Qed.

Lemma findMatch_ok src pos off ml : (pos <= length src)%nat -> findMatch src pos = (off, ml) -> 3 <= ml -> is_match src pos off ml.
Proof.
  intros Hp Hf. unfold findMatch in Hf. set (start := Z.to_nat _) in Hf.
  assert (start <= pos)%nat by (unfold start; change (Z.shiftl 1 20) with 1048576; lia).
  pose proof (find_loop_match (pos - start) src pos start 0 0 ltac:(lia) Hp ltac:(intros; exfalso; lia)) as Hm. by rewrite Hf in Hm.
Qed.

(** The loop of [buildSequences] describes the rest of the source. *)
Lemma build_loop_Lz fuel src prev pos recent literals sequences :
  (prev <= pos <= length src)%nat -> (length src - pos <= fuel)%nat -> len src <= 2 ^ 17 ->
  exists lits seqs, build_loop fuel src prev pos recent literals sequences = Ok (literals ++ lits, sequences ++ seqs) /\
    Lz src prev recent seqs lits.
Proof.
  intros Hp Hf Hsz. revert prev pos recent literals sequences Hp Hf.
  assert (Hend : forall prev recent literals sequences, (prev <= length src)%nat ->
    exists lits seqs, Ok (if (prev <? length src)%nat then literals ++ drop prev src else literals, sequences) =
      Ok (literals ++ lits, sequences ++ seqs) /\ Lz src prev recent seqs lits).
  { intros prev recent literals sequences Hle. exists (drop prev src), []. rewrite app_nil_r. split; [|by constructor].
    destruct (Nat.ltb_spec prev (length src)); [done|]. by rewrite drop_ge, app_nil_r by lia. }
  induction fuel as [|fuel IH]; intros prev pos recent literals sequences Hp Hf; cbn [build_loop];
    (destruct (Nat.ltb_spec pos (length src)) as [Hlt|]; [|apply Hend; lia]); [lia|].
  cbn [negb]. destruct (findMatch src pos) as [off ml] eqn:Hfm. unfold zstdMinMatch.
  destruct (Z.ltb_spec ml 3) as [|Hml]; [apply IH; lia|].
  destruct (findMatch_ok src pos off ml ltac:(lia) Hfm Hml) as (Hoff & Hmax & Hend' & Hper). unfold len in Hsz.
  assert (u32 off = Z.of_nat (Z.to_nat off)) as -> by (unfold u32; rewrite Z.mod_small; lia).
  assert (u32 (Z.of_nat pos - Z.of_nat prev) = Z.of_nat (pos - prev)) as -> by (unfold u32; rewrite Z.mod_small; lia).
  assert (u32 (ml - 3) = Z.of_nat (Z.to_nat ml - 3)) as -> by (unfold u32; rewrite Z.mod_small; lia).
  destruct (encodeMatchOffset _ _ recent) as [enc recent'] eqn:He.
  destruct (IH (pos + Z.to_nat ml)%nat (pos + Z.to_nat ml)%nat recent'
    (if (prev <? pos)%nat then literals ++ take (pos - prev) (drop prev src) else literals)
    (sequences ++ [setCodes (Z.of_nat (pos - prev)) (Z.of_nat (Z.to_nat ml - 3)) enc])) as (lits & seqs & Hb & HLz); [lia..|].
  eexists _, _. split.
  - rewrite Hb. rewrite <- app_assoc. f_equal. f_equal.
    instantiate (1 := take (pos - prev) (drop prev src) ++ lits). rewrite app_assoc. f_equal.
    destruct (Nat.ltb_spec prev pos); [done|]. replace (pos - prev)%nat with 0%nat by lia. by rewrite take_0, app_nil_r.
  - cbn [app]. apply (Lz_match src prev recent pos (Z.to_nat off) (Z.to_nat ml) enc recent'); done || lia.
Qed.

Lemma buildSequences_Lz src : len src <= 2 ^ 17 ->
  exists lits seqs, buildSequences src = Ok (lits, seqs) /\ Lz src 0 recentOffsets seqs lits.
Proof. intros Hsz. apply (build_loop_Lz (length src) src 0 0 recentOffsets [] []); [lia|lia|done]. Qed.

(** * Frames *)

Lemma read_full_app a rest n : n = len a -> read_full (a ++ rest) n = Ok (a, rest).
Proof.
  intros ->. unfold read_full. destruct (Z.eqb_spec (len a) 0) as [Hz|Hz]; [by rewrite (len_zero _ Hz)|].
  rewrite len_app. pose proof (len_nonneg rest). pose proof (len_nonneg a).
  destruct (Z.eqb_spec (len a + len rest) 0); [lia|]. destruct (Z.ltb_spec (len a + len rest) (len a)); [lia|].
  unfold len. rewrite Nat2Z.id. by rewrite take_app_length, drop_app_length.
Qed.

Lemma read_or_eof_app a rest n : n = len a -> read_or_eof (a ++ rest) n = Ok (a, rest).
Proof. intros Hn. unfold read_or_eof. by rewrite read_full_app. Qed.

(** The reader after the header of a frame of [n] bytes, before [input]. *)
Definition in_frame (r : Reader) (input : bytes) (n : Z) : Reader :=
  mkReader input true false true false n (r_buffer r) (1, 4, 8) (fst (r_huffman r), 0) (w_reset n)
    (mkSeqTables ([], snd (st_literal (r_seqTables r))) ([], snd (st_offset (r_seqTables r)))
       ([], snd (st_match (r_seqTables r)))) (r_checksum r).

(** The common part of the three forms: a single segment and [k] size bytes. *)
Lemma read_descriptor_ok r d fcs rest n :
  (d = 0x20 /\ len fcs = 1 /\ le_value fcs = n \/ d = 0x60 /\ len fcs = 2 /\ 256 + le_value fcs = n \/
   d = 0xa0 /\ len fcs = 4 /\ le_value fcs = n) ->
  n <= 2 ^ 23 -> read_descriptor r (z2b d :: fcs ++ rest) = Ok (in_frame r rest n).
Proof.
  intros Hd Hn. unfold read_descriptor. change (z2b d :: fcs ++ rest) with ([z2b d] ++ fcs ++ rest).
  rewrite read_or_eof_app by done. cbn [res_bind fst snd]. change (index [z2b d] 0) with (Ok (z2b d)). cbn [res_bind].
  pose proof (len_nonneg fcs).
  assert (Hw : Z.min n (Z.shiftl 8 20) = n) by (change (Z.shiftl 8 20) with (2 ^ 23); lia).
  destruct Hd as [(-> & Hl & Hv)|[(-> & Hl & Hv)|(-> & Hl & Hv)]].
  all: match goal with |- context [b2z (z2b ?c)] => change (b2z (z2b c)) with c end.
  all: repeat match goal with |- context [Z.land (Z.pos ?p) ?b] =>
    let v := eval vm_compute in (Z.land (Z.pos p) b) in change (Z.land (Z.pos p) b) with v end.
  all: match goal with |- context [Z.shiftl 1 (Z.shiftr (Z.pos ?p) 6)] =>
    let v := eval vm_compute in (Z.shiftl 1 (Z.shiftr (Z.pos p) 6)) in change (Z.shiftl 1 (Z.shiftr (Z.pos p) 6)) with v end.
  all: cbn [Z.eqb Pos.eqb negb andb res_bind Z.add].
  all: rewrite read_or_eof_app by (rewrite Hl; done); cbn [res_bind fst snd].
  all: rewrite !slice_ok by lia; cbn [res_bind].
  all: change (Z.to_nat (0 + 0 - 0)) with 0%nat; change (Z.to_nat (0 + 0)) with 0%nat.
  all: rewrite take_0; cbn [existsb]; rewrite Z.sub_0_r, drop_0, firstn_all2 by (unfold len; lia).
  all: rewrite Hv, Hw; reflexivity.
Qed.

Lemma readFrameHeader_ok fuel b r rest n : 0 <= n <= 2 ^ 17 ->
  readFrameHeader (S fuel) b r (encodeFrameHeader n ++ rest) = Ok (in_frame r rest n).
Proof.
  intros Hn. unfold encodeFrameHeader. rewrite <- app_assoc. cbn [readFrameHeader]. rewrite read_full_app by done.
  change (le_value (map z2b [0x28; 0xb5; 0x2f; 0xfd]) =? 0xfd2fb528) with true. cbn [negb].
  change (Z.shiftl 1 32) with (2 ^ 32).
  destruct (Z.ltb_spec n 256); [|destruct (Z.ltb_spec n (256 + 65535)); [|destruct (Z.ltb_spec n (2 ^ 32)); [|lia]]].
  - apply read_descriptor_ok; [|lia]. left. split; [done|]. split; [done|]. cbn [le_value]. rewrite b2z_z2b, Z.mod_small; lia.
  - apply (read_descriptor_ok r 0x60 (le_bytes 2 (n - 256))); [|lia]. right; left. rewrite len_le_bytes, le_value_le_bytes.
    split; [done|]. split; [done|]. rewrite Z.mod_small; [lia|]. change (2 ^ (8 * Z.of_nat 2)) with 65536. lia.
  - apply (read_descriptor_ok r 0xa0 (le_bytes 4 n)); [|lia]. right; right. rewrite len_le_bytes, le_value_le_bytes.
    split; [done|]. split; [done|]. rewrite Z.mod_small; [lia|]. change (2 ^ (8 * Z.of_nat 4)) with (2 ^ 32). lia.
Qed.

(** The reader after the last block of a frame. *)
Definition after_frame (r : Reader) (input : bytes) : Reader :=
  mkReader input false false (r_readOneFrame r) false 0 (r_buffer r) (r_repeatedOffsets r)
    (r_huffman r) (r_window r) (r_seqTables r) (r_checksum r).

Lemma block_header_value hdr : 0 <= hdr < 2 ^ 24 -> le_value (block_header hdr) = hdr.
Proof.
  intros Hh. unfold block_header. cbn [le_value]. rewrite !b2z_z2b, !Z.shiftr_div_pow2 by lia.
  change (2 ^ 8) with 256. change (2 ^ 16) with (256 * 256). rewrite <- Z.div_div by lia.
  rewrite (Z.mod_small (hdr / 256 / 256)) by (split; [repeat apply Z.div_pos; lia|rewrite Z.div_div by lia; apply Z.div_lt_upper_bound; lia]).
  pose proof (Z.div_mod hdr 256 ltac:(lia)). pose proof (Z.div_mod (hdr / 256) 256 ltac:(lia)). lia.
Qed.

(** A header's three fields. *)
Lemma header_fields last ty size : 0 <= last < 2 -> 0 <= ty < 4 -> 0 <= size ->
  let hdr := last + 2 * ty + 8 * size in
  negb (Z.land hdr 1 =? 0) = (last =? 1) /\ Z.land (Z.shiftr hdr 1) 3 = ty /\ Z.shiftr hdr 3 = size.
Proof.
  intros Hl Ht Hs. cbv zeta. change 1 with (Z.ones 1) at 1. change 3 with (Z.ones 2) at 1. rewrite !Z.land_ones by lia.
  rewrite !Z.shiftr_div_pow2 by lia. change (2 ^ 1) with 2. change (2 ^ 2) with 4. change (2 ^ 3) with 8.
  replace (last + 2 * ty + 8 * size) with ((ty + 4 * size) * 2 + last) by lia.
  rewrite Z.div_add_l, (Z.div_small last) by lia. rewrite (Z.add_comm (_ * 2)), Z.mod_add, (Z.mod_small last) by lia.
  replace (last + (ty + 4 * size) * 2) with (size * 8 + (last + 2 * ty)) by lia. rewrite Z.div_add_l, (Z.div_small (last + 2 * ty)) by lia.
  split; [destruct (Z.eqb_spec last 0), (Z.eqb_spec last 1); done || lia|]. split; [|lia].
  rewrite Z.add_0_r, (Z.mul_comm 4), Z.mod_add, Z.mod_small; lia.
Qed.

(** A block of a frame. *)
Lemma readBlock_head r last ty size rest :
  r_r r = block_header (last + 2 * ty + 8 * size) ++ rest -> 0 <= last < 2 -> 0 <= ty < 4 -> 0 <= size <= 2 ^ 17 ->
  size <= w_size (r_window r) \/ w_size (r_window r) = 0 ->
  readBlock r = (let? r := block_content r rest ty size in after_content r (last =? 1)).
Proof.
  intros Hr Hl Ht Hs Hw. unfold readBlock. rewrite Hr, read_or_eof_app by done. cbn [res_bind fst snd].
  rewrite block_header_value by lia. destruct (header_fields last ty size Hl Ht ltac:(lia)) as (-> & -> & ->).
  change (Z.shiftl 128 10) with (2 ^ 17). destruct (Z.gtb_spec size (2 ^ 17)); [lia|]. cbn [orb].
  destruct (Z.gtb_spec (w_size (r_window r)) 0), (Z.gtb_spec size (w_size (r_window r))); cbn [andb]; done || lia.
Qed.

(** The end of a frame of the right length. *)
Lemma after_content_last r :
  r_frameSizeUnknown r = false -> r_hasChecksum r = false -> r_remainingFrameSize r = len (r_buffer r) ->
  after_content r true = Ok (after_frame r (r_r r)).
Proof.
  intros Hf Hc Hn. unfold after_content, end_frame, after_frame. rewrite Hf, Hc, Hn. cbn [negb andb].
  destruct (Z.gtb_spec (len (r_buffer r)) (len (r_buffer r))); [lia|]. rewrite Z.sub_diag. cbn. done.
Qed.

(** Reading to the end of the input after a frame. *)
Lemma read_all_end fuel r limit out :
  r_sawFrameHeader r = false -> r_readOneFrame r = true -> r_r r = [] -> len out < limit ->
  read_all (S fuel) r limit out = Ok out.
Proof.
  intros Hs Ho Hr Hl. cbn [read_all]. destruct (Z.geb_spec (len out) limit); [lia|]. unfold refill. rewrite Hs, Hr, Ho. reflexivity.
Qed.

(** A frame with one block that decodes to [src]. *)
Lemma Decode_one_block src block maxSize r1 :
  0 < len src <= 2 ^ 17 -> len src <= maxSize < 2 ^ 63 - 1 ->
  readBlock (in_frame (NewReader (encodeFrameHeader (len src) ++ block)) block (len src)) = Ok r1 ->
  r_buffer r1 = src -> r_sawFrameHeader r1 = false -> r_readOneFrame r1 = true -> r_r r1 = [] ->
  Decode (encodeFrameHeader (len src) ++ block) maxSize = Ok src.
Proof.
  intros Hl Hm Hb Hbuf Hsaw Hone Hrest. unfold Decode.
  set (c := encodeFrameHeader (len src) ++ block) in *.
  assert (Hc : exists d rest, c = map z2b [0x28; 0xb5; 0x2f; 0xfd] ++ d :: rest).
  { unfold c, encodeFrameHeader. rewrite <- app_assoc. repeat case_match; eexists _, _; reflexivity. }
  destruct Hc as (d & rest & Hc). assert (IsFrame c = true) as ->.
  { rewrite Hc. unfold IsFrame. rewrite len_app. pose proof (len_nonneg (d :: rest)). change (len (map z2b _)) with 4.
    destruct (Z.ltb_spec (4 + len (d :: rest)) 4); [lia|]. reflexivity. }
  assert (length c = S (S (S (length rest + 2)))) as Hlen by (rewrite Hc; cbn; lia).
  destruct (Z.eqb_spec (len c) 0) as [Hz|]; [unfold len in Hz; lia|]. cbn [negb].
  assert (s64 (maxSize + 1) = maxSize + 1) as -> by (apply s64_id; unfold int64; lia).
  assert (refill (NewReader c) = Ok r1) as Href.
  { unfold refill. cbn [NewReader r_sawFrameHeader r_r r_readOneFrame]. unfold c at 3.
    rewrite readFrameHeader_ok by lia. exact Hb. }
  rewrite Hlen. remember (S (S (S (length rest + 2)))) as f1 eqn:Hf1. cbn [read_all]. change (len []) with 0.
  destruct (Z.geb_spec 0 (maxSize + 1)); [lia|]. rewrite Href. cbn [app]. rewrite Hbuf, Hf1.
  rewrite read_all_end by (done || lia). destruct (Z.gtb_spec (len src) maxSize); [lia|done].
Qed.

(** * Compressed blocks *)

(** The one-byte header of raw literals. *)
Lemma raw_header_fields n : 0 <= n < 32 ->
  let hdr := b2z (z2b (Z.shiftl n 3)) in
  Z.land hdr 3 = 0 /\ Z.shiftr hdr 3 = n /\ (Z.land (Z.shiftr hdr 2) 3 = 0 \/ Z.land (Z.shiftr hdr 2) 3 = 2).
Proof.
  intros Hn. assert (forallb (fun n => let hdr := b2z (z2b (Z.shiftl n 3)) in (Z.land hdr 3 =? 0) && (Z.shiftr hdr 3 =? n) &&
    ((Z.land (Z.shiftr hdr 2) 3 =? 0) || (Z.land (Z.shiftr hdr 2) 3 =? 2))) (zrange 0 32) = true) as Hall by (vm_compute; reflexivity).
  specialize (zrange_forall _ _ _ Hall n ltac:(lia)) as Hc. cbv beta zeta in *. apply andb_prop in Hc as [Hc Hor%orb_prop].
  zbool. split; [done|]. split; [done|]. destruct Hor as [?%Z.eqb_eq|?%Z.eqb_eq]; auto.
Qed.

Lemma readLiterals_raw h lits rest : len lits < 32 ->
  readLiterals h (appendRawLiteralsHeader [] (len lits) ++ lits ++ rest) 0 [] = Ok (1 + len lits, lits, h).
Proof.
  intros Hl. pose proof (len_nonneg lits) as H0. pose proof (len_nonneg rest).
  unfold appendRawLiteralsHeader. destruct (Z.ltb_spec (len lits) 32); [|lia]. set (b := z2b _).
  destruct (raw_header_fields (len lits) ltac:(lia)) as (H3 & Hn & Hf). fold b in H3, Hn, Hf. cbn [app].
  unfold readLiterals. rewrite len_cons, len_app. destruct (Z.geb_spec 0 (1 + (len lits + len rest))); [lia|].
  change (index (b :: lits ++ rest) 0) with (Ok b). cbn [res_bind]. rewrite H3. cbn [Z.eqb orb]. unfold readRawRLELiterals.
  rewrite H3, Hn. cbn [Z.eqb].
  replace (match Z.land (Z.shiftr (b2z b) 2) 3 with
           | 1 => if 0 + 1 >=? len (b :: lits ++ rest) then Err makeEOFError else
               let? a := index (b :: lits ++ rest) (0 + 1) in Ok (Z.shiftr (b2z b) 4 + Z.shiftl (b2z a) 4, 0 + 1 + 1)
           | 3 => if 0 + 1 + 1 >=? len (b :: lits ++ rest) then Err makeEOFError else
               let? a := index (b :: lits ++ rest) (0 + 1) in let? b0 := index (b :: lits ++ rest) (0 + 1 + 1) in
               Ok (Z.shiftr (b2z b) 4 + Z.shiftl (b2z a) 4 + Z.shiftl (b2z b0) 12, 0 + 1 + 2)
           | _ => Ok (len lits, 0 + 1)
           end) with (@Ok (Z * Z) (len lits, 0 + 1)) by (destruct Hf as [-> | ->]; reflexivity).
  cbn [res_bind]. change (Z.shiftl 128 10) with (2 ^ 17). destruct (Z.gtb_spec (len lits) (2 ^ 17)); [lia|].
  rewrite len_cons, len_app. destruct (Z.gtb_spec (0 + 1 + len lits) (1 + (len lits + len rest))); [lia|].
  change (b :: lits ++ rest) with ([b] ++ lits ++ rest). change (0 + 1) with (len [b]). rewrite slice_app. reflexivity.
Qed.

Lemma mode0 data off kind old : setSeqTable data off kind 0 old =
  Ok (off, match kind with
           | seqLiteral => (predefinedLiteralTable, 6)
           | seqOffset => (predefinedOffsetTable, 5)
           | seqMatch => (predefinedMatchTable, 6)
           end).
Proof. by destruct kind. Qed.

Lemma index_at {A} (pre : list A) x post i : i = len pre -> index (pre ++ x :: post) i = Ok x.
Proof. intros ->. apply index_middle. Qed.

(** The count, in its three forms. *)
Lemma read_seq_count_ok pre n rest : 1 <= n < 0x7f00 + 65536 -> rest <> [] ->
  let data := pre ++ sequence_count n ++ rest in
  exists h, index data (len pre) = Ok h /\ b2z h <> 0 /\
    read_seq_count data (len pre + 1) (b2z h) = Ok (n, len (pre ++ sequence_count n)).
Proof.
  intros Hn Hrest. cbv zeta. pose proof (len_nonneg pre). unfold sequence_count, read_seq_count.
  assert (0 < len rest) by (destruct rest; [done|]; rewrite len_cons; pose proof (len_nonneg rest); lia).
  destruct (Z.ltb_spec n 128); [|destruct (Z.ltb_spec n 0x7f00)]; cbn [app].
  - exists (z2b n). rewrite index_middle, b2z_z2b, Z.mod_small by lia. split; [done|]. split; [lia|].
    destruct (Z.ltb_spec n 128); [|lia]. by rewrite len_app.
  - exists (z2b (128 + Z.shiftr n 8)). rewrite Z.shiftr_div_pow2 by lia. change (2 ^ 8) with 256.
    assert (0 <= n / 256 < 127) by (split; [apply Z.div_pos; lia|apply Z.div_lt_upper_bound; lia]).
    rewrite index_middle, b2z_z2b, Z.mod_small by lia. split; [done|]. split; [lia|].
    destruct (Z.ltb_spec (128 + n / 256) 128); [lia|]. destruct (Z.ltb_spec (128 + n / 256) 255); [|lia].
    rewrite len_app, !len_cons. destruct (Z.geb_spec (len pre + 1) (len pre + (1 + (1 + len rest)))); [lia|].
    rewrite cons_middle, app_assoc, index_at by (rewrite len_app; reflexivity). cbn [res_bind]. rewrite b2z_z2b.
    rewrite Z.shiftl_mul_pow2 by lia. change (2 ^ 8) with 256. rewrite len_app, !len_cons. change (len []) with 0.
    do 2 f_equal; [|lia]. pose proof (Z.div_mod n 256 ltac:(lia)). lia.
  - set (k := n - 0x7f00). assert (0 <= k < 65536) by lia. rewrite Z.shiftr_div_pow2 by lia. change (2 ^ 8) with 256.
    assert (0 <= k / 256 < 256) by (split; [apply Z.div_pos; lia|apply Z.div_lt_upper_bound; lia]).
    exists (z2b 255). rewrite index_middle. split; [done|]. split; [done|]. change (b2z (z2b 255)) with 255. cbn [Z.ltb Z.compare Pos.compare Pos.compare_cont].
    rewrite len_app, !len_cons. destruct (Z.geb_spec (len pre + 1 + 1) (len pre + (1 + (1 + (1 + len rest))))); [lia|].
    rewrite (cons_middle (z2b 255)), app_assoc, index_at by (rewrite len_app; reflexivity). cbn [res_bind].
    rewrite (cons_middle (z2b k)), app_assoc, index_at by (rewrite !len_app; reflexivity). cbn [res_bind]. rewrite !b2z_z2b.
    rewrite Z.shiftl_mul_pow2 by lia. change (2 ^ 8) with 256. rewrite len_app, !len_cons. change (len []) with 0.
    rewrite (Z.mod_small (k / 256)) by lia. do 2 f_equal; [|lia]. pose proof (Z.div_mod k 256 ltac:(lia)). lia.
Qed.

(** The section that starts with the count and the modes byte. *)
Lemma initSeqs_predef pre n stream t : 1 <= n < 0x7f00 + 65536 ->
  initSeqs ((pre ++ sequence_count n ++ [z2b 0]) ++ stream) (len pre) t =
    Ok (n, len (pre ++ sequence_count n ++ [z2b 0]), predef_tables).
Proof.
  intros Hn. rewrite <- !app_assoc. cbn [app]. unfold initSeqs.
  destruct (read_seq_count_ok pre n (z2b 0 :: stream) Hn ltac:(done)) as (h & Hi & Hh & Hc).
  set (data := pre ++ sequence_count n ++ z2b 0 :: stream) in *.
  assert (len data = len (pre ++ sequence_count n) + 1 + len stream) as Hlen.
  { unfold data. rewrite !len_app, len_cons. lia. }
  pose proof (len_nonneg stream). rewrite len_app in Hlen. pose proof (len_nonneg (sequence_count n)).
  destruct (Z.geb_spec (len pre) (len data)); [lia|]. rewrite Hi. cbn [res_bind]. destruct (Z.eqb_spec (b2z h) 0); [done|].
  rewrite Hc. cbn [res_bind]. rewrite len_app. destruct (Z.geb_spec (len pre + len (sequence_count n)) (len data)); [lia|].
  assert (index data (len pre + len (sequence_count n)) = Ok (z2b 0)) as ->.
  { unfold data. rewrite app_assoc. apply index_at. by rewrite len_app. }
  cbn [res_bind]. change (b2z (z2b 0)) with 0. change (Z.land 0 3 =? 0) with true. cbn [negb].
  change (Z.land (Z.shiftr 0 6) 3) with 0. change (Z.land (Z.shiftr 0 4) 3) with 0. change (Z.land (Z.shiftr 0 2) 3) with 0.
  rewrite !mode0. cbn [res_bind fst snd]. rewrite !mode0. cbn [res_bind fst snd]. rewrite !mode0. cbn [res_bind fst snd].
  rewrite !len_app. change (len [z2b 0]) with 1. do 2 f_equal. f_equal. lia.
Qed.

Lemma Lz_count src prev rep seqs lits : Lz src prev rep seqs lits -> (prev + 3 * length seqs <= length src)%nat.
Proof. induction 1 as [|prev rep pos off ml enc rep' seqs lits ? ? ? ? ? ? ? _ IH]; cbn [length]; lia. Qed.

(** The block that [encodeCompressedBlock] makes decodes to its source. *)
Lemma compressedBlock_ok r src lits seqs body :
  buildSequences src = Ok (lits, seqs) -> len src <= 2 ^ 17 -> seqs <> [] -> len lits < 32 ->
  Forall (fun s => extra_bits s < 32) (removelast seqs) ->
  encodeSequences (appendRawLiteralsHeader [] (len lits) ++ lits) seqs = Ok body ->
  r_r r = body -> r_repeatedOffsets r = recentOffsets -> len body < 2 ^ 32 ->
  exists rep h, compressedBlock r (len body) =
    Ok (mkReader [] (r_sawFrameHeader r) (r_hasChecksum r) (r_readOneFrame r) (r_frameSizeUnknown r)
      (r_remainingFrameSize r) src rep h (r_window r) predef_tables (r_checksum r)).
Proof.
  intros Hb Hsz Hne Hl Hx He Hr Hrep Hlen. destruct (buildSequences_Lz src Hsz) as (lits' & seqs' & Hb' & HLz).
  rewrite Hb in Hb'. injection Hb' as <- <-. pose proof (Lz_wf _ _ _ _ _ HLz Hsz) as Hwf.
  destruct (encodeSequences_ok (appendRawLiteralsHeader [] (len lits) ++ lits) seqs Hne Hwf Hx) as (stream & He' & _ & Hex).
  rewrite He in He'. injection He' as Hbody. cbv zeta in Hex.
  set (out := appendRawLiteralsHeader [] (len lits) ++ lits) in *.
  assert (len out = 1 + len lits) as Hout.
  { unfold out, appendRawLiteralsHeader. destruct (Z.ltb_spec (len lits) 32); [|lia]. by rewrite len_app. }
  pose proof (read_or_eof_app body [] (len body) eq_refl) as Hread. rewrite app_nil_r in Hread.
  unfold compressedBlock. rewrite Hr, Hread. cbn [res_bind].
  assert (readLiterals (r_huffman r) body 0 [] = Ok (1 + len lits, lits, r_huffman r)) as ->.
  { rewrite Hbody. unfold out. rewrite <- !app_assoc. by apply readLiterals_raw. }
  cbn [res_bind].
  assert (initSeqs body (1 + len lits) (r_seqTables r) =
    Ok (len seqs, len (out ++ sequence_count (len seqs) ++ [z2b 0]), predef_tables)) as ->.
  { rewrite Hbody, <- Hout. apply (initSeqs_predef out (len seqs) stream (r_seqTables r)).
    apply Lz_count in HLz. assert (length seqs <> 0)%nat by (intros Hz%nil_length_inv; congruence).
    unfold len in Hsz |- *. lia. }
  cbn [res_bind]. destruct (Z.eqb_spec (len seqs) 0) as [Hz|_]; [exfalso; apply Hne, len_zero, Hz|].
  destruct (Hex src (r_window r) recentOffsets lits HLz Hsz) as (rep' & Hexec); [rewrite <- Hbody; exact Hlen|].
  rewrite Hbody, Hrep, Hexec. cbn [res_bind fst snd]. eauto.
Qed.

(** * Round trip *)

Lemma lor_header t n : 0 <= t < 4 -> 0 <= n < 2 ^ 29 ->
  Z.lor (Z.lor 1 (Z.shiftl t 1)) (u32 (Z.shiftl n 3)) = 1 + 2 * t + 8 * n.
Proof.
  intros Ht Hn. assert (Z.lor 1 (Z.shiftl t 1) = 1 + t * 2 ^ 1) as -> by (apply lor_shiftl_add; lia).
  unfold u32. rewrite Z.mod_small by (rewrite Z.shiftl_mul_pow2; lia). rewrite lor_shiftl_add by lia. lia.
Qed.

Lemma in_frame_fields r input n : r_frameSizeUnknown (in_frame r input n) = false /\ r_hasChecksum (in_frame r input n) = false.
Proof. done. Qed.

(** A frame with a raw block. *)
Lemma raw_frame_decodes src maxSize : 0 < len src <= 2 ^ 17 -> len src <= maxSize < 2 ^ 63 - 1 ->
  Decode (encodeRawFrame src) maxSize = Ok src.
Proof.
  intros Hl Hm. unfold encodeRawFrame, appendFrame. cbn [app]. rewrite lor_header by lia.
  set (block := block_header (1 + 2 * 0 + 8 * len src) ++ src). set (r0 := NewReader (encodeFrameHeader (len src) ++ block)).
  pose proof (read_or_eof_app src [] (len src) eq_refl) as Hread. rewrite app_nil_r in Hread.
  assert (Hb : readBlock (in_frame r0 block (len src)) = Ok (after_frame (with_buffer (in_frame r0 block (len src)) [] src) [])).
  { rewrite (readBlock_head _ 1 0 (len src) src); [|reflexivity|lia|lia|lia|left; cbn [in_frame r_window w_reset w_size]; lia].
    cbn [block_content]. rewrite Hread. cbn [res_bind fst snd]. apply after_content_last; reflexivity. }
  apply (Decode_one_block src block maxSize _ Hl Hm Hb); reflexivity.
Qed.

(** A frame with a compressed block. *)
Lemma compressed_frame_decodes src lits seqs body maxSize :
  0 < len src <= 2 ^ 17 -> len src <= maxSize < 2 ^ 63 - 1 ->
  buildSequences src = Ok (lits, seqs) -> seqs <> [] -> len lits < 32 -> Forall (fun s => extra_bits s < 32) (removelast seqs) ->
  encodeSequences (appendRawLiteralsHeader [] (len lits) ++ lits) seqs = Ok body -> len body < len src ->
  Decode (encodeFrameHeader (len src) ++ block_header (1 + 2 * 2 + 8 * len body) ++ body) maxSize = Ok src.
Proof.
  intros Hl Hm Hb Hne H32 Hx He Hlt. set (block := block_header _ ++ body). set (r0 := NewReader (encodeFrameHeader (len src) ++ block)).
  set (r := in_frame r0 block (len src)). pose proof (len_nonneg body).
  destruct (compressedBlock_ok (with_buffer r body (r_buffer r)) src lits seqs body) as (rep & h & Hc); try assumption; try reflexivity; [lia..|].
  eapply (Decode_one_block src block maxSize _ Hl Hm); [fold r0; fold r|..].
  { rewrite (readBlock_head r 1 2 (len body) body); [|reflexivity|lia|lia|lia|left; cbn [r in_frame r_window w_reset w_size]; lia].
    cbn [block_content]. rewrite Hc. cbn [res_bind]. apply after_content_last; reflexivity. }
  all: reflexivity.
Qed.

(** What [Encode] can encode: an input it stores as it is, or one whose block
    has fewer than 32 literals and, but for the last sequence, at most 31 extra
    bits in a sequence. *)
Definition encodable (src : bytes) : Prop :=
  Encode src = Ok (encodeRawFrame src) \/
  exists lits seqs, buildSequences src = Ok (lits, seqs) /\ len lits < 32 /\
    Forall (fun s => extra_bits s < 32) (removelast seqs).

(** What is encodable is decoded. *)
Lemma Encode_decodes src maxSize :
  len src <= 2 ^ 17 -> len src <= maxSize < 2 ^ 63 - 1 -> encodable src ->
  exists c, Encode src = Ok c /\ Decode c maxSize = Ok src.
Proof.
  intros Hl Hm Henc. destruct (Z.eqb_spec (len src) 0) as [Hz|Hz].
  { apply len_zero in Hz as ->. exists encodeEmptyFrame. split; [reflexivity|]. unfold Decode.
    change (len encodeEmptyFrame =? 0) with false. change (IsFrame encodeEmptyFrame) with true. cbn [negb].
    change (len []) with 0 in Hm. rewrite s64_id by (unfold int64; lia).
    change (S (length encodeEmptyFrame)) with (S 9). remember 9%nat as f eqn:Hf. cbn [read_all]. change (len []) with 0.
    destruct (Z.geb_spec 0 (maxSize + 1)); [lia|].
    assert (exists r, refill (NewReader encodeEmptyFrame) = Ok r /\ r_buffer r = [] /\ r_sawFrameHeader r = false /\
      r_readOneFrame r = true /\ r_r r = []) as (r & -> & Hb & Hs & Ho & Hr) by (eexists; vm_compute; split_and!; reflexivity).
    rewrite Hb, Hf. cbn [app]. rewrite read_all_end by (assumption || (change (len []) with 0; lia)).
    change (len []) with 0. destruct (Z.gtb_spec 0 maxSize); [lia|done]. }
  assert (0 < len src <= 2 ^ 17) as Hl' by (pose proof (len_nonneg src); lia).
  destruct Henc as [Hraw|(lits & seqs & Hb & H32 & Hx)]; [exists (encodeRawFrame src); split; [done|by apply raw_frame_decodes]|].
  unfold Encode. rewrite (proj2 (Z.eqb_neq _ _) Hz). unfold maxBlockSize. change (Z.shiftl 128 10) with (2 ^ 17).
  destruct (Z.gtb_spec (len src) (2 ^ 17)); [lia|]. unfold encodeCompressedBlock. rewrite Hb. cbn [res_bind].
  destruct (Z.eqb_spec (len seqs) 0) as [|Hs0]; [exists (encodeRawFrame src); split; [reflexivity|by apply raw_frame_decodes]|].
  assert (seqs <> []) as Hne by (intros ->; by apply Hs0).
  assert (exists body, encodeSequences (appendRawLiteralsHeader [] (len lits) ++ lits) seqs = Ok body) as [body Hbody].
  { destruct (buildSequences_Lz src Hl) as (lits' & seqs' & Hb' & HLz). rewrite Hb in Hb'. injection Hb' as <- <-.
    destruct (encodeSequences_ok (appendRawLiteralsHeader [] (len lits) ++ lits) seqs Hne (Lz_wf _ _ _ _ _ HLz Hl) Hx) as (stream & He & _).
    by eexists. }
  rewrite Hbody. cbn [res_bind]. set (hdr := Z.lor _ _). assert (len (block_header hdr ++ body) = 3 + len body) as -> by (by rewrite len_app).
  destruct (Z.geb_spec (3 + len body) (len src)); [exists (encodeRawFrame src); split; [reflexivity|by apply raw_frame_decodes]|].
  eexists. split; [reflexivity|]. unfold appendFrame, hdr. cbn [app]. pose proof (len_nonneg body). rewrite lor_header by lia.
  apply (compressed_frame_decodes src lits seqs body maxSize); try assumption; lia.
Qed.

(** C16: Zstandard round trip.  For every input of at most 128 KiB that is stored
    raw, or whose compressed block has fewer than 32 literal bytes and no more
    than 31 extra bits in a sequence, [Encode] succeeds and [Decode] gives the
    input back, for every decompression limit that admits it. *)
Theorem zstd_roundtrip src maxSize :
  len src <= 2 ^ 17 -> len src <= maxSize < 2 ^ 63 - 1 -> encodable src ->
  exists c, Encode src = Ok c /\ Decode c maxSize = Ok src.
Proof. apply Encode_decodes. Qed.

(** A compressed block: a repeated string. *)
Lemma zstd_roundtrip_witness : exists c, Encode (concat (replicate 32 (str "zstd"))) = Ok c /\ len c < 32 /\
  Decode c 4096 = Ok (concat (replicate 32 (str "zstd"))).
Proof.
  destruct (zstd_roundtrip (concat (replicate 32 (str "zstd"))) 4096) as (c & Hc & Hd).
  - vm_compute. congruence.
  - vm_compute. split; congruence.
  - right. eexists _, _. split; [vm_compute; reflexivity|]. split; [vm_compute; reflexivity|]. vm_compute. repeat constructor.
  - exists c. split; [exact Hc|]. split; [|exact Hd]. vm_compute in Hc. injection Hc as <-. vm_compute. reflexivity.
Defined.
