(* ===== verification/ZstdSafety.v ===== *)
(** The Zstandard decoder on arbitrary bytes: the tables, the bit readers and
    the Huffman trees that a block describes stay within their arrays, whatever
    the block holds.  [Runs] is the logic of the proofs: a computation returns a
    value with a property or an error that is not the end of the input, and
    does not panic. *)

From Stdlib Require Import ZArith Lia.
From Stdlib Require Import Strings.Byte.
From stdpp Require Import base list gmap countable strings.
From S2P Require Import Prelude.
From S2P Require Import ZstdBits.
From S2P Require Import ZstdFse.
From S2P Require Import ZstdHuff.
From S2P Require Import ZstdReader.
From S2P Require Import ZstdSeqFacts.

Open Scope Z_scope.

(** * The logic *)

Definition Runs {A} (P : A -> Prop) (m : res A) : Prop :=
  match m with
  | Ok a => P a
  | Err e => e <> EOF
  | Panic => False
  end.

Lemma Runs_bind {A B} (P : A -> Prop) (Q : B -> Prop) m (f : A -> res B) :
  Runs P m -> (forall a, P a -> Runs Q (f a)) -> Runs Q (res_bind m f).
Proof. intros Hm Hf. destruct m; cbn in *; auto. Qed.

Lemma Runs_mono {A} (P Q : A -> Prop) m : Runs P m -> (forall a, P a -> Q a) -> Runs Q m.
Proof. intros Hm Hpq. destruct m; cbn in *; auto. Qed.

Lemma Runs_error {A} (P : A -> Prop) msg : Runs P (Err (makeError msg)).
Proof. done. Qed.

Lemma Runs_eof {A} (P : A -> Prop) : Runs P (Err makeEOFError).
Proof. done. Qed.

Lemma Runs_index {A} (l : list A) i : 0 <= i < len l -> Runs (fun x => l !! Z.to_nat i = Some x) (index l i).
Proof. intros Hi. destruct (index_ok l i Hi) as (x & -> & Hx). done. Qed.

Lemma Runs_index_Forall {A} (Q : A -> Prop) (l : list A) i : Forall Q l -> 0 <= i < len l -> Runs Q (index l i).
Proof.
  intros Hf Hi. eapply Runs_mono; [by apply Runs_index|]. intros x Hx. exact (Forall_lookup_1 Q l _ x Hf Hx).
Qed.

Lemma Runs_assign {A} (l : list A) i x : 0 <= i < len l -> Runs (fun l' => l' = <[Z.to_nat i := x]> l /\ len l' = len l) (assign l i x).
Proof. intros Hi. rewrite assign_ok by done. split; [done|apply len_insert]. Qed.

Lemma Runs_slice {A} (l : list A) i j : 0 <= i <= j -> j <= len l ->
  Runs (fun s => s = take (Z.to_nat (j - i)) (drop (Z.to_nat i) l) /\ len s = j - i) (slice l i j).
Proof.
  intros Hi Hj. rewrite slice_ok by done. split; [done|]. unfold len in *. rewrite length_take, length_drop. lia.
Qed.

Create HintDb runs.
#[export] Hint Resolve Runs_error Runs_eof : runs.

(** [Forall] with an index for the whole entries of an array of integers. *)
Lemma Forall_assign {A} (Q : A -> Prop) (l : list A) i x : Forall Q l -> Q x -> Forall Q (<[i := x]> l).
Proof. intros. by apply Forall_insert. Qed.

(** * Reading forward *)

(** A bit reader in its data. *)
Definition wf_br (br : bitReader) : Prop :=
  0 <= br_off br <= len (br_data br) /\ len (br_data br) < 2 ^ 31 /\ 0 <= br_cnt br <= 23 /\ br_cnt br <= 8 * br_off br.

(** The bits that are left. *)
Definition br_left (br : bitReader) : Z := br_cnt br + 8 * (len (br_data br) - br_off br).

Lemma moreBits_loop_runs fuel br : wf_br br -> 16 - br_cnt br <= 8 * Z.of_nat fuel ->
  Runs (fun br' => wf_br br' /\ 16 <= br_cnt br' /\ br_data br' = br_data br /\ br_left br' = br_left br) (moreBits_loop fuel br).
Proof.
  revert br. induction fuel as [|fuel IH]; intros br (Ho & Hl & Hc & Hb) Hf; cbn [moreBits_loop];
    (destruct (Z.geb_spec (br_cnt br) 16); [by repeat split; try lia|]); [lia|].
  destruct (Z.geb_spec (br_off br) (len (br_data br))); [done|].
  eapply Runs_bind; [apply Runs_index; lia|]. intros c _.
  assert (u32 (br_off br + 1) = br_off br + 1) as -> by (apply Z.mod_small; lia).
  assert (u32 (br_cnt br + 8) = br_cnt br + 8) as -> by (apply Z.mod_small; lia).
  eapply Runs_mono; [apply IH|].
  - repeat split; cbn; lia.
  - cbn. lia.
  - unfold br_left. cbn. intros br' (Hw & H16 & Hd & Hlft). split; [done|]. split; [done|]. split; [done|]. lia.
Qed.

Lemma moreBits_runs br : wf_br br ->
  Runs (fun br' => wf_br br' /\ 16 <= br_cnt br' /\ br_data br' = br_data br /\ br_left br' = br_left br) (moreBits br).
Proof. intros Hw. apply moreBits_loop_runs; [done|]. destruct Hw as (_ & _ & Hc & _). lia. Qed.

Lemma br_skip_wf br n : wf_br br -> 0 <= n <= br_cnt br ->
  wf_br (br_skip br n) /\ br_left (br_skip br n) = br_left br - n /\ br_data (br_skip br n) = br_data br.
Proof.
  intros (Ho & Hl & Hc & Hb) Hn. unfold br_skip, br_left, wf_br. cbn. unfold u32. rewrite Z.mod_small by lia.
  repeat split; lia.
Qed.

Lemma backup_loop_off fuel br : wf_br br -> 0 <= br_off (backup_loop fuel br) <= len (br_data br).
Proof.
  revert br. induction fuel as [|fuel IH]; intros br (Ho & Hl & Hc & Hb); cbn [backup_loop]; [lia|].
  destruct (Z.geb_spec (br_cnt br) 8); [|lia]. unfold u32. rewrite Z.mod_small by lia.
  apply (IH (mkBitReader (br_data br) (br_off br - 1) (br_bits br) (br_cnt br - 8))). repeat split; cbn; lia.
Qed.

(** * Reading a table of probabilities *)

Lemma zero_runs_runs fuel m add skip zsym br :
  wf_br br -> 16 <= br_cnt br -> 0 < skip <= 16 -> 0 <= add -> br_left br < Z.of_nat fuel ->
  Runs (fun zb => zsym <= fst zb /\ wf_br (snd zb) /\ 16 <= br_cnt (snd zb) /\ br_data (snd zb) = br_data br /\
    br_left (snd zb) <= br_left br) (zero_runs fuel m add skip zsym br).
Proof.
  revert zsym br. induction fuel as [|fuel IH]; intros zsym br Hw Hc Hs Ha Hf.
  { destruct Hw as (Ho & _ & Hcn & _). unfold br_left in Hf. lia. }
  cbn [zero_runs]. destruct (_ =? m); [|cbn; split_and!; done || lia].
  destruct (br_skip_wf br skip Hw ltac:(lia)) as (Hw1 & Hl1 & Hd1).
  eapply Runs_bind; [by apply moreBits_runs|]. intros br2 (Hw2 & Hc2 & Hd2 & Hl2).
  eapply Runs_mono; [apply IH; try done; lia|]. cbn. intros zb (Hz & Hwz & Hcz & Hdz & Hlz).
  split_and!; try done; try lia. congruence.
Qed.

(** The total probability: -1 stands for one cell as well. *)
Fixpoint mass (norm : list Z) : Z := match norm with [] => 0 | n :: rest => Z.abs n + mass rest end.

Lemma mass_nonneg norm : 0 <= mass norm.
Proof. induction norm; cbn [mass]; lia. Qed.

Lemma mass_insert norm i x : mass (<[i := x]> norm) <= mass norm + Z.abs x.
Proof.
  revert i. induction norm as [|n norm IH]; intros [|i]; cbn -[Z.abs Z.add Z.le]; try lia.
  transitivity (Z.abs n + (mass norm + Z.abs x)); [apply Zplus_le_compat_l, IH|lia].
Qed.

Lemma mass_take k norm : mass (take k norm) <= mass norm.
Proof.
  revert k. induction norm as [|n norm IH]; intros [|k]; cbn [take mass]; try lia.
  - pose proof (mass_nonneg norm). lia.
  - specialize (IH k). lia.
Qed.

Lemma mass_replicate k : mass (replicate k 0) = 0.
Proof. induction k; cbn [replicate mass]; lia. Qed.

(** An array of probabilities of at most [total] in all. *)
Definition wf_norm (total : Z) (norm : list Z) : Prop := len norm = 256 /\ Forall (fun n => -1 <= n) norm /\ mass norm <= total.

Lemma assign_norm total norm i x :
  wf_norm total norm -> -1 <= x -> 0 <= i < 256 -> Runs (wf_norm (total + Z.abs x)) (assign norm i x).
Proof.
  intros (Hl & Hf & Hm) Hx Hi. eapply Runs_mono; [apply Runs_assign; lia|]. intros norm' [-> Hl']. split; [lia|].
  split; [by apply Forall_assign|]. pose proof (mass_insert norm (Z.to_nat i) x). lia.
Qed.

Lemma zero_norm_runs n sym total norm : wf_norm total norm -> 0 <= sym -> sym + Z.of_nat n <= 256 -> Runs (wf_norm total) (zero_norm n sym norm).
Proof.
  revert sym norm. induction n as [|n IH]; intros sym norm Hw Hs Hn; [done|]. cbn [zero_norm].
  assert (u8 sym = sym) as -> by (apply Z.mod_small; change (2 ^ 8) with 256; lia).
  eapply Runs_bind; [by apply (assign_norm total); try done; lia|]. intros norm' Hw'. rewrite Z.add_0_r in Hw'. apply IH; done || lia.
Qed.

(** The threshold is the power of two at or below what remains. *)
Definition wf_threshold (remaining threshold bitsNeeded : Z) : Prop :=
  0 <= bitsNeeded - 1 <= 9 /\ threshold = 2 ^ (bitsNeeded - 1) /\ threshold <= remaining < 2 * threshold.

Lemma lower_threshold_runs fuel remaining threshold bitsNeeded :
  1 <= remaining < 2 * threshold -> 0 <= bitsNeeded - 1 <= 9 -> threshold = 2 ^ (bitsNeeded - 1) -> bitsNeeded <= Z.of_nat fuel ->
  Runs (fun tb => wf_threshold remaining (fst tb) (snd tb)) (lower_threshold fuel remaining threshold bitsNeeded).
Proof.
  revert threshold bitsNeeded. induction fuel as [|fuel IH]; intros threshold bitsNeeded Hr Hb -> Hf; [lia|]. cbn [lower_threshold].
  destruct (Z.ltb_spec remaining (2 ^ (bitsNeeded - 1))); [|cbn; split; [done|]; split; [done|]; lia].
  assert (bitsNeeded - 1 <> 0) by (intros Hz; rewrite Hz in *; lia).
  assert (2 ^ (bitsNeeded - 1) = 2 * 2 ^ (bitsNeeded - 1 - 1)) as Hp by (rewrite <- Z.pow_succ_r by lia; f_equal; lia).
  rewrite Hp, Z.shiftr_div_pow2 by lia. change (2 ^ 1) with 2. rewrite Z.mul_comm, Z.div_mul by lia.
  apply IH; try lia; done.
Qed.

Lemma land_pow2_mod x k : 0 <= k -> Z.land x (2 ^ k - 1) = x mod 2 ^ k.
Proof. intros Hk. rewrite <- Z.land_ones by done. f_equal. by rewrite Z.ones_equiv, Z.sub_1_r. Qed.

(** A probability never takes more than what remains. *)
Lemma read_count_runs br remaining threshold bitsNeeded count br' :
  wf_br br -> 16 <= br_cnt br -> wf_threshold remaining threshold bitsNeeded -> 1 < remaining ->
  read_count br remaining threshold bitsNeeded = (count, br') ->
  -1 <= count < remaining /\ wf_br br' /\ br_data br' = br_data br.
Proof.
  intros Hw Hc (Hb & -> & Ht) Hr. unfold read_count. set (T := 2 ^ (bitsNeeded - 1)) in *. assert (0 < T) by (apply Z.pow_pos_nonneg; lia).
  assert (2 * T - 1 = 2 ^ bitsNeeded - 1) as HT2.
  { unfold T. rewrite <- Z.pow_succ_r by lia. f_equal. f_equal. lia. }
  unfold T at 1 3. rewrite HT2, !land_pow2_mod by lia. fold T. rewrite <- HT2.
  pose proof (mod_pow_bound (br_bits br) (bitsNeeded - 1) ltac:(lia)) as Hs. fold T in Hs.
  pose proof (mod_pow_bound (br_bits br) bitsNeeded ltac:(lia)) as Hg.
  destruct (Z.ltb_spec (br_bits br mod T) (2 * T - 1 - remaining)); intros [= <- <-].
  - destruct (br_skip_wf br (bitsNeeded - 1) Hw ltac:(lia)) as (? & _ & ?). split; [lia|done].
  - destruct (br_skip_wf br bitsNeeded Hw ltac:(lia)) as (? & _ & ?). split; [|done].
    destruct (Z.geb_spec (br_bits br mod 2 ^ bitsNeeded) T); lia.
Qed.

Lemma read_norm_runs fuel total br remaining threshold bitsNeeded sym maxSym (prev0 : bool) norm :
  wf_br br -> wf_threshold remaining threshold bitsNeeded -> 0 <= sym <= maxSym + 1 -> maxSym <= 255 ->
  wf_norm (total + 1 - remaining) norm ->
  2 * (maxSym + 1 - sym) + (if prev0 then 1 else 0) < Z.of_nat fuel ->
  Runs (fun x : bitReader * Z * Z * list Z => let '(br', remaining', sym', norm') := x in wf_br br' /\ br_data br' = br_data br /\ 1 <= remaining' /\
    0 <= sym' <= maxSym + 1 /\ wf_norm (total + 1 - remaining') norm')
    (read_norm fuel br remaining threshold bitsNeeded sym maxSym prev0 norm).
Proof.
  revert br remaining threshold bitsNeeded sym prev0 norm.
  induction fuel as [|fuel IH]; intros br remaining threshold bitsNeeded sym prev0 norm Hw Ht Hs Hmax Hn Hf.
  { destruct prev0; lia. }
  assert (1 <= remaining) by (destruct Ht as (Hb & -> & Hr); assert (0 < 2 ^ (bitsNeeded - 1)) by (apply Z.pow_pos_nonneg; lia); lia).
  cbn [read_norm]. destruct ((remaining >? 1) && (sym <=? maxSym)) eqn:Hc; cbn [negb]; [|done]. zbool.
  eapply Runs_bind; [by apply moreBits_runs|]. intros br1 (Hw1 & Hc1 & Hd1 & _). destruct prev0.
  - assert (br_left br1 < Z.of_nat (8 * length (br_data br1) + 32)) as Hleft.
    { destruct Hw1 as (Ho & _ & Hcn & _). unfold br_left, len in *. lia. }
    eapply Runs_bind; [apply zero_runs_runs; try done; lia|]. intros [z1 b1] (Hz1 & Hwz1 & Hcz1 & Hdz1 & Hlz1). cbn [fst snd] in *.
    eapply Runs_bind; [apply zero_runs_runs; try done; lia|]. intros [z2 b2] (Hz2 & Hwz2 & Hcz2 & Hdz2 & _). cbn [fst snd] in *.
    unfold br_val. rewrite land_ones_mod by lia. pose proof (mod_pow_bound (br_bits b2) 2 ltac:(lia)).
    destruct (br_skip_wf b2 2 Hwz2 ltac:(lia)) as (Hw3 & _ & Hd3).
    destruct (Z.gtb_spec (z2 + br_bits b2 mod 2 ^ 2) maxSym); [done|].
    eapply Runs_bind; [eapply zero_norm_runs; [done|lia|lia]|]. intros norm' Hn'.
    eapply Runs_mono; [apply (IH _ _ _ _ _ false); try done; lia|]. intros [[[br' r'] s'] n'] (? & Hd' & ?). split; [done|]. split; [congruence|done].
  - destruct (read_count br1 remaining threshold bitsNeeded) as [count br2] eqn:Hrc.
    apply read_count_runs in Hrc as (Hcount & Hw2 & Hd2); [|done..|lia].
    destruct (Z.geb_spec sym 256); [done|].
    assert (u8 sym = sym) as -> by (apply Z.mod_small; change (2 ^ 8) with 256; lia).
    assert (remaining <= 1024) by (destruct Ht as (Hb & -> & Hr); assert (2 ^ (bitsNeeded - 1) <= 2 ^ 9) by (apply Z.pow_le_mono_r; lia); lia).
    assert (s16 count = count) as -> by (apply s16_id; unfold int16; lia).
    set (remaining' := if count >=? 0 then remaining - count else remaining - 1).
    assert (1 <= remaining' <= remaining /\ remaining' = remaining - Z.abs count) as [Hr' Habs].
    { unfold remaining'. destruct (Z.geb_spec count 0); lia. }
    eapply Runs_bind; [apply (assign_norm (total + 1 - remaining)); try done; lia|]. intros norm' Hn'.
    destruct Ht as (Hb & Hth & Hr).
    eapply Runs_bind; [apply lower_threshold_runs; try done; lia|]. intros [t b] Ht'. cbn [fst snd] in *.
    replace (total + 1 - remaining + Z.abs count) with (total + 1 - remaining') in Hn' by lia.
    eapply Runs_mono; [apply (IH _ _ _ _ _ (count =? 0)); try done; try lia; destruct (count =? 0); lia|].
    intros [[[br' r'] s'] n'] (? & Hd' & ?). split; [done|]. split; [congruence|done].
Qed.

(** * Building a table *)

Definition sym_ok (e : fseEntry) : Prop := 0 <= fe_sym e < 256.

(** An entry that leads to a state of a table of [2 ^ bits] entries. *)
Definition wf_entry (bits : Z) (e : fseEntry) : Prop :=
  sym_ok e /\ 0 <= fe_bits e <= bits /\ 0 <= fe_base e /\ fe_base e + 2 ^ fe_bits e <= 2 ^ bits.

Definition same_syms (table table' : list fseEntry) : Prop := Forall sym_ok table' /\ len table' = len table.

Lemma set_sym_runs table i s : Forall sym_ok table -> 0 <= i < len table -> 0 <= s < 256 -> Runs (same_syms table) (set_sym table i s).
Proof.
  intros Hf Hi Hs. unfold set_sym. eapply Runs_bind; [by apply Runs_index|]. intros e _.
  eapply Runs_mono; [by apply Runs_assign|]. intros t [-> Hl]. split; [by apply Forall_assign|done].
Qed.

Fixpoint posmass (norm : list Z) : Z := match norm with [] => 0 | n :: rest => Z.max n 0 + posmass rest end.

Lemma posmass_nonneg norm : 0 <= posmass norm.
Proof. induction norm; cbn [posmass]; lia. Qed.

Definition counts_ok (bound : Z) (next : list Z) : Prop := len next = 256 /\ Forall (fun x => 0 <= x <= bound) next.

Lemma counts_assign bound next i x : counts_ok bound next -> 0 <= i < 256 -> 0 <= x <= bound -> Runs (counts_ok bound) (assign next i x).
Proof.
  intros [Hl Hf] Hi Hx. eapply Runs_mono; [apply Runs_assign; lia|]. intros n [-> Hl']. split; [lia|by apply Forall_assign].
Qed.

Lemma counts_mono b b' next : b <= b' -> counts_ok b next -> counts_ok b' next.
Proof. intros Hb [Hl Hf]. split; [done|]. eapply Forall_impl; [exact Hf|]. cbv beta. lia. Qed.

Lemma build_low_runs size i norm table ht next :
  Forall sym_ok table -> size <= len table -> size <= 512 -> ht < size -> mass norm <= ht + 1 -> Forall (fun n => -1 <= n) norm ->
  counts_ok size next -> 0 <= i -> i + len norm <= 256 -> 1 <= size ->
  Runs (fun x : list fseEntry * Z * list Z => let '(t, ht', next') := x in
    same_syms table t /\ posmass norm + (ht + 1 - mass norm) <= ht' + 1 /\ ht' < size /\ counts_ok size next') (build_low i norm table ht next).
Proof.
  revert i table ht next. induction norm as [|n norm IH]; intros i table ht next Hf Hl H512 Hht Hm Hn Hc Hi Hi' H1.
  { cbn [mass posmass build_low] in *. split; [by split|]. split; [lia|]. split; [lia|done]. }
  apply Forall_cons in Hn as [Hn Hns]. cbn [mass posmass build_low] in *. rewrite len_cons in Hi'. pose proof (mass_nonneg norm). pose proof (len_nonneg norm).
  assert (u8 i = i) as -> by (apply Z.mod_small; change (2 ^ 8) with 256; lia).
  destruct (Z.geb_spec n 0).
  - assert (u16 n = n) as -> by (apply Z.mod_small; lia).
    eapply Runs_bind; [apply (counts_assign size); [done|lia|lia]|]. intros next' Hc'.
    eapply Runs_mono; [apply IH; try done; lia|]. intros [[t h] nx] (? & ? & ? & ?). split; [done|]. split; [lia|]. by split.
  - eapply Runs_bind; [apply set_sym_runs; [done|lia|lia]|]. intros t [Hft Hlt].
    eapply Runs_bind; [apply (counts_assign size); [done|lia|lia]|]. intros next' Hc'.
    eapply Runs_mono; [apply IH; try done; lia|]. intros [[t' h] nx] ([? ?] & ? & ? & ?). split; [split; [done|lia]|]. split; [lia|]. by split.
Qed.

(** From every cell the step of a table comes back to the first one. *)
Lemma skip_high_returns bits pos : 5 <= bits <= 9 -> 0 <= pos < 2 ^ bits ->
  let size := Z.shiftl 1 bits in
  skip_high (Z.to_nat size) pos (Z.shiftr size 1 + Z.shiftr size 3 + 3) (size - 1) 0 = Ok 0.
Proof.
  intros Hb Hp. cbv zeta.
  assert (forallb (fun bits => forallb (fun pos => let size := Z.shiftl 1 bits in
    match skip_high (Z.to_nat size) pos (Z.shiftr size 1 + Z.shiftr size 3 + 3) (size - 1) 0 with Ok 0 => true | _ => false end)
    (zrange 0 (Z.to_nat (2 ^ bits)))) (zrange 5 5) = true) as Hall by (vm_compute; reflexivity).
  specialize (zrange_forall _ _ _ Hall bits ltac:(lia)) as Hbits. cbv beta in Hbits.
  specialize (zrange_forall _ _ _ Hbits pos ltac:(lia)) as Hpos. cbv beta zeta in Hpos.
  destruct (skip_high _ _ _ _ _) as [[| |]| |]; done.
Qed.

Lemma skip_high_runs fuel pos step bits ht p :
  0 <= ht -> 0 <= bits -> skip_high fuel pos step (2 ^ bits - 1) 0 = Ok p ->
  Runs (fun p => 0 <= p < 2 ^ bits) (skip_high fuel pos step (2 ^ bits - 1) ht).
Proof.
  intros Hht Hm. revert pos. induction fuel as [|fuel IH]; intros pos Hp; [done|]. cbn [skip_high] in *.
  rewrite land_pow2_mod in * by done. pose proof (mod_pow_bound (pos + step) bits Hm). set (q := (pos + step) mod 2 ^ bits) in *.
  destruct (Z.gtb_spec q ht); [|done]. destruct (Z.gtb_spec q 0); [by apply IH|lia].
Qed.

Section spread.
Context (bits : Z) (Hbits : 5 <= bits <= 9).
Let size := Z.shiftl 1 bits.
Let step := Z.shiftr size 1 + Z.shiftr size 3 + 3.

Lemma size_pow : size = 2 ^ bits /\ 32 <= 2 ^ bits <= 512.
Proof.
  unfold size. rewrite Z.shiftl_1_l. split; [done|]. change 32 with (2 ^ 5). change 512 with (2 ^ 9). split; apply Z.pow_le_mono_r; lia.
Qed.

Definition spread_post (table : list fseEntry) (tp : list fseEntry * Z) : Prop := same_syms table (fst tp) /\ 0 <= snd tp < size.

Lemma spread_one_runs n sym table pos ht :
  Forall sym_ok table -> size <= len table -> 0 <= sym < 256 -> 0 <= pos < size -> (n = 0%nat \/ 0 <= ht) ->
  Runs (spread_post table) (spread_one n sym table pos step (size - 1) ht).
Proof.
  destruct size_pow as [Hsz Hr]. revert table pos. induction n as [|n IH]; intros table pos Hf Hl Hs Hp Hht; [by split|]. cbn [spread_one].
  eapply Runs_bind; [apply set_sym_runs; [done|lia|done]|]. intros t [Hft Hlt].
  eapply Runs_bind.
  { pose proof (skip_high_returns bits pos Hbits ltac:(lia)) as Hret. cbv zeta in Hret. fold size in Hret. fold step in Hret.
    replace (Z.to_nat (size - 1 + 1)) with (Z.to_nat size) by (f_equal; lia). rewrite Hsz in Hret |- *.
    eapply skip_high_runs; [lia|lia|exact Hret]. }
  intros p Hp'. cbv beta in Hp'. eapply Runs_mono; [apply IH; [exact Hft|lia|exact Hs|lia|right; lia]|]. intros [t' p'] [[? ?] ?]. split; [split; [done|cbn in *; lia]|done].
Qed.

Lemma spread_runs i norm table pos ht :
  Forall sym_ok table -> size <= len table -> 0 <= i -> i + len norm <= 256 -> 0 <= pos < size -> posmass norm <= ht + 1 ->
  Runs (spread_post table) (spread i norm table pos step (size - 1) ht).
Proof.
  revert i table pos. induction norm as [|n norm IH]; intros i table pos Hf Hl Hi Hi' Hp Hm; [by split|]. cbn [spread posmass] in *.
  rewrite len_cons in Hi'. pose proof (len_nonneg norm). pose proof (posmass_nonneg norm).
  assert (u8 i = i) as -> by (apply Z.mod_small; change (2 ^ 8) with 256; lia).
  eapply Runs_bind; [apply spread_one_runs; try done; try lia|]. intros [t p] [[? ?] ?]. cbn [fst snd] in *.
  eapply Runs_mono; [apply IH; try done; lia|]. intros [t' p'] [[? ?] ?]. split; [split; [done|cbn in *; lia]|done].
Qed.

(** The first [i] entries are numbered. *)
Definition numbered (i : Z) (table : list fseEntry) : Prop :=
  Forall sym_ok table /\ forall j e, (Z.of_nat j < i) -> table !! j = Some e -> wf_entry bits e.

Lemma state_entry s : 1 <= s < 2 ^ (bits + 1) ->
  let high := 15 - (16 - bitlen s) in let nb := bits - high in
  0 <= nb <= bits /\ u8 nb = nb /\ 2 ^ bits <= s * 2 ^ nb /\ (s + 1) * 2 ^ nb <= 2 * 2 ^ bits /\
  u16 (u16 (Z.shiftl s nb) - u16 size) = s * 2 ^ nb - 2 ^ bits.
Proof.
  intros Hs. destruct size_pow as [Hsz Hr]. cbv zeta. unfold bitlen. destruct (Z.eqb_spec s 0); [lia|].
  pose proof (Z.log2_nonneg s). pose proof (log2_hi (bits + 1) s ltac:(lia)). pose proof (Z.log2_spec s ltac:(lia)) as Hsp.
  rewrite Z.pow_succ_r in Hsp by lia. replace (15 - (16 - (Z.log2 s + 1))) with (Z.log2 s) by lia. set (k := Z.log2 s) in *.
  assert (2 ^ bits = 2 ^ k * 2 ^ (bits - k)) as Hp by (rewrite <- Z.pow_add_r by lia; f_equal; lia).
  assert (0 < 2 ^ (bits - k)) by (apply Z.pow_pos_nonneg; lia). split; [lia|].
  assert (2 ^ bits <= s * 2 ^ (bits - k)) by nia. assert ((s + 1) * 2 ^ (bits - k) <= 2 * 2 ^ bits) by nia.
  split; [apply Z.mod_small; change (2 ^ 8) with 256; lia|]. split; [done|]. split; [done|].
  rewrite Z.shiftl_mul_pow2 by lia. unfold u16. rewrite (Z.mod_small (s * _)), (Z.mod_small size) by nia. rewrite Z.mod_small by nia. lia.
Qed.

Lemma number_states_runs n i table next :
  numbered i table -> size <= len table -> counts_ok (size + i) next -> 0 <= i -> i + Z.of_nat n = size ->
  Runs (fun t => numbered size t /\ len t = len table) (number_states n i table next bits size).
Proof.
  destruct size_pow as [Hsz Hr]. revert i table next. induction n as [|n IH]; intros i table next Hn Hl Hc Hi Hsum.
  { replace size with i by lia. by split. }
  cbn [number_states]. destruct Hn as [Hf Hn]. eapply Runs_bind; [apply Runs_index; lia|]. intros e He.
  assert (sym_ok e) as Hse by exact (Forall_lookup_1 _ _ _ _ Hf He). unfold sym_ok in Hse. pose proof Hc as [Hcl Hcf].
  eapply Runs_bind; [apply (Runs_index_Forall _ _ _ Hcf); lia|]. intros s Hs. cbv beta in Hs.
  assert (u16 (s + 1) = s + 1) as -> by (apply Z.mod_small; lia).
  eapply Runs_bind; [apply (counts_assign (size + (i + 1))); [eapply counts_mono; [|exact Hc]; lia|lia|lia]|]. intros next' Hc'.
  destruct (Z.eqb_spec s 0); [done|].
  destruct (state_entry s) as (Hnb & Hu & Hlo & Hhi & Hbase). { rewrite Z.pow_add_r by lia. lia. }
  set (nb := bits - (15 - (16 - bitlen s))) in *. destruct (Z.ltb_spec nb 0); [lia|]. rewrite Hbase, Hu.
  eapply Runs_bind; [apply Runs_assign; lia|]. intros t [-> Hlt].
  eapply Runs_mono; [apply IH; try done; try lia|intros t [? ?]; split; [done|lia]].
  split; [by apply Forall_assign|]. intros j e' Hj Hlk. destruct (decide (j = Z.to_nat i)) as [->|Hne].
  - rewrite list_lookup_insert_eq in Hlk by (unfold len in *; lia). injection Hlk as <-. unfold wf_entry, sym_ok. cbn. lia.
  - rewrite list_lookup_insert_ne in Hlk by done. apply (Hn j); [lia|done].
Qed.

Lemma buildFSE_runs norm table :
  Forall sym_ok table -> size <= len table -> mass norm <= size -> Forall (fun n => -1 <= n) norm -> len norm <= 256 ->
  Runs (fun t => numbered size t /\ len t = len table) (buildFSE norm table bits).
Proof.
  intros Hf Hl Hm Hn Hln. destruct size_pow as [Hsz Hr]. unfold buildFSE. fold size. fold step.
  eapply Runs_bind; [apply (build_low_runs size); try done; try lia|].
  { split; [done|]. apply Forall_replicate. lia. }
  intros [[t ht] next] ([Hft Hlt] & Hpos & Hht & Hc).
  eapply Runs_bind; [apply spread_runs; try done; lia|]. intros [t' p] [[Hft' Hlt'] Hp]. cbn [fst snd] in *.
  destruct (negb _); [done|]. eapply Runs_mono; [apply number_states_runs; try lia|].
  - split; [done|]. lia.
  - eapply counts_mono; [|exact Hc]. lia.
  - intros t2 [? ?]. split; [done|lia].
Qed.
End spread.

(** ** Reading it *)

Lemma readFSE_runs data off maxSym maxBits table :
  0 <= off <= len data -> len data < 2 ^ 31 -> 0 <= maxSym <= 255 -> maxBits <= 9 ->
  Forall sym_ok table -> (forall k, k <= maxBits -> 2 ^ k <= len table) ->
  Runs (fun x : Z * Z * list fseEntry => let '(bits, roff, t) := x in
    5 <= bits <= maxBits /\ 0 <= roff <= len data /\ numbered bits (2 ^ bits) t /\ len t = len table)
    (readFSE data off maxSym maxBits table).
Proof.
  intros Ho Hl Hs Hb Hf Ht. unfold readFSE.
  eapply Runs_bind; [apply moreBits_runs|].
  { unfold wf_br, makeBitReader. cbn. unfold u32. rewrite Z.mod_small by lia. lia. }
  intros br (Hw & Hc & Hd & _). unfold br_val. rewrite land_ones_mod by lia. pose proof (mod_pow_bound (br_bits br) 4 ltac:(lia)).
  destruct (br_skip_wf br 4 Hw ltac:(lia)) as (Hw1 & _ & Hd1).
  set (log := br_bits br mod 2 ^ 4 + 5) in *. destruct (Z.gtb_spec log maxBits); [done|].
  destruct (size_pow log ltac:(lia)) as [Hsz Hr]. rewrite Hsz.
  eapply Runs_bind; [apply (read_norm_runs _ (2 ^ log)); try done; try lia|].
  - split; [lia|]. rewrite Z.add_simpl_r. split; [done|]. lia.
  - split; [done|]. split; [apply Forall_replicate; lia|]. rewrite mass_replicate. lia.
  - intros [[[br2 remaining] sym] norm] (Hw2 & Hd2 & Hrem & Hsym & Hn). destruct (Z.eqb_spec remaining 1) as [->|]; [|done]. cbn [negb].
    rewrite Z.add_simpl_r in Hn. eapply Runs_bind; [apply (zero_norm_runs _ _ _ _ Hn); lia|]. intros norm2 (Hl2 & Hf2 & Hm2).
    eapply Runs_bind; [apply Runs_slice; lia|]. intros norm3 [-> Hl3].
    eapply Runs_bind; [apply (buildFSE_runs log ltac:(lia)); try done|].
    + rewrite Hsz. apply Ht. lia.
    + rewrite Hsz. etrans; [apply mass_take|]. change (Z.to_nat 0) with 0%nat. by rewrite drop_0.
    + apply Forall_take, Forall_drop, Hf2.
    + lia.
    + intros t [Hnum Hlt]. rewrite Hsz in Hnum. split; [lia|]. split; [|done].
      pose proof (backup_loop_off (Z.to_nat (br_cnt br2)) br2 Hw2) as Hoff. unfold backup.
      rewrite Hd2, Hd1, Hd in Hoff. exact Hoff.
Qed.
