(* ===== verification/ZstdHuffSafety.v ===== *)
(** Huffman trees and literals of a Zstandard block on arbitrary bytes: no index
    leaves its array.  The weights of a tree sum to a power of two, so the cells
    of its symbols tile the table. *)

From Stdlib Require Import ZArith Lia.
From Stdlib Require Import Strings.Byte.
From stdpp Require Import base list gmap countable strings.
From S2P Require Import Prelude.
From S2P Require Import ZstdBits.
From S2P Require Import ZstdFse.
From S2P Require Import ZstdHuff.
From S2P Require Import ZstdReader.
From S2P Require Import ZstdSeqFacts.
From S2P Require Import ZstdSafety.

Open Scope Z_scope.

(** * Reading backward *)

Definition wf_rb (data : bytes) (r : reverseBitReader) : Prop :=
  rb_data r = data /\ 0 <= rb_start r /\ 0 <= rb_off r <= len data /\ 0 <= rb_cnt r < 2 ^ 32.

Lemma makeReverse_runs data off start : 0 <= off < len data -> len data < 2 ^ 31 -> Runs (wf_rb data) (makeReverseBitReader data off start).
Proof.
  intros Ho Hl. unfold makeReverseBitReader. eapply Runs_bind; [by apply Runs_index|]. intros c _.
  pose proof (b2z_range c). destruct (Z.eqb_spec (b2z c) 0); [done|]. unfold wf_rb, bitlen, u32. cbn.
  destruct (Z.eqb_spec (b2z c) 0); [done|]. rewrite (Z.mod_small off) by lia. pose proof (Z.mod_pos_bound start (2 ^ 32) ltac:(lia)).
  pose proof (Z.log2_nonneg (b2z c)). pose proof (log2_hi 8 (b2z c) ltac:(change (2 ^ 8) with 256; lia)). split; [done|]. lia.
Qed.

Lemma fetch_loop_runs fuel data r b : wf_rb data r -> len data < 2 ^ 31 -> 0 <= b <= 255 -> b - rb_cnt r <= 8 * Z.of_nat fuel ->
  Runs (fun x : bool * reverseBitReader => wf_rb data (snd x) /\ (fst x = true -> b <= rb_cnt (snd x))) (fetch_loop fuel r b).
Proof.
  intros Hw Hl Hb. revert r Hw. induction fuel as [|fuel IH]; intros r (Hd & Hs & Ho & Hc) Hf; cbn [fetch_loop];
    (destruct (Z.geb_spec (rb_cnt r) b); [by repeat split; cbn; try lia|]); [lia|].
  destruct (Z.leb_spec (rb_off r) (rb_start r)); [by repeat split; cbn; try lia|].
  assert (u32 (rb_off r - 1) = rb_off r - 1) as -> by (apply Z.mod_small; lia).
  eapply Runs_bind; [apply Runs_index; rewrite Hd; lia|]. intros c _.
  assert (u32 (rb_cnt r + 8) = rb_cnt r + 8) as -> by (apply Z.mod_small; lia).
  apply IH; [|cbn; lia]. repeat split; cbn; lia || done.
Qed.

Lemma fetch_runs data r b : wf_rb data r -> len data < 2 ^ 31 -> 0 <= b <= 255 ->
  Runs (fun x : bool * reverseBitReader => wf_rb data (snd x) /\ (fst x = true -> b <= rb_cnt (snd x))) (fetch r b).
Proof. intros Hw Hl Hb. apply fetch_loop_runs; try done. destruct Hw as (_ & _ & _ & Hc). lia. Qed.

Lemma rb_drop_wf data r n : wf_rb data r -> wf_rb data (rb_drop r n).
Proof. intros (Hd & Hs & Ho & _). repeat split; cbn; try done; try lia; apply Z.mod_pos_bound; lia. Qed.

Lemma rb_val_runs data r b : wf_rb data r -> len data < 2 ^ 31 -> 0 <= b <= 255 ->
  Runs (fun x : Z * reverseBitReader => 0 <= fst x < 2 ^ b /\ wf_rb data (snd x)) (rb_val r b).
Proof.
  intros Hw Hl Hb. unfold rb_val. eapply Runs_bind; [by apply (fetch_runs data)|]. intros [ok r'] [Hw' _]. cbn [fst snd] in *.
  destruct ok; [|done]. cbn [negb]. rewrite land_ones_mod by lia. split; [apply mod_pow_bound; lia|by apply rb_drop_wf].
Qed.

(** * Weights *)

Definition wf_weights (ws : list Z) : Prop := len ws = 256 /\ Forall (fun w => 0 <= w < 256) ws.

Lemma assign_weights ws i w : wf_weights ws -> 0 <= i < 256 -> 0 <= w < 256 -> Runs wf_weights (assign ws i w).
Proof.
  intros [Hl Hf] Hi Hw. eapply Runs_mono; [apply Runs_assign; lia|]. intros ws' [-> Hl']. split; [lia|by apply Forall_assign].
Qed.

(** A state of a numbered table. *)
Lemma numbered_index bits t s : numbered bits (2 ^ bits) t -> 0 <= s < 2 ^ bits -> 2 ^ bits <= len t -> Runs (wf_entry bits) (index t s).
Proof.
  intros [_ Hn] Hs Hl. eapply Runs_mono; [apply Runs_index; lia|]. intros e He. apply (Hn (Z.to_nat s)); [lia|done].
Qed.

Lemma read_weights_runs fuel data bits t r s1 s2 ws count :
  5 <= bits <= 6 -> numbered bits (2 ^ bits) t -> 2 ^ bits <= len t -> wf_rb data r -> len data < 2 ^ 31 ->
  0 <= s1 < 2 ^ bits -> 0 <= s2 < 2 ^ bits -> wf_weights ws -> 0 <= count -> 256 - count <= Z.of_nat fuel -> (count <= 255) ->
  Runs (fun x : list Z * Z => wf_weights (fst x) /\ 1 <= snd x <= 255) (read_weights fuel t r s1 s2 ws count).
Proof.
  intros Hb Ht Hlt. revert r s1 s2 ws count. induction fuel as [|fuel IH]; intros r s1 s2 ws count Hr Hl H1 H2 Hw Hc Hf H255; [lia|].
  cbn [read_weights]. eapply Runs_bind; [by apply (numbered_index bits)|]. intros pt (Hsym & Hpb & Hbase & Hnext). unfold sym_ok in Hsym.
  eapply Runs_bind; [apply (fetch_runs data); try done; lia|]. intros [ok r'] [Hr' _]. cbn [fst snd] in *. destruct ok; cbn [negb].
  - eapply Runs_bind; [apply (rb_val_runs data); try done; lia|]. intros [v r2] [Hv Hr2]. cbn [fst snd] in *.
    destruct (Z.geb_spec count 255); [done|]. eapply Runs_bind; [apply assign_weights; try done; lia|]. intros ws' Hw'.
    assert (2 ^ bits <= 2 ^ 6) by (apply Z.pow_le_mono_r; lia).
    assert (u32 (fe_base pt + v) = fe_base pt + v) as -> by (apply Z.mod_small; lia).
    apply IH; try done; lia.
  - destruct (Z.geb_spec count 254); [done|]. eapply Runs_bind; [apply assign_weights; try done; lia|]. intros ws' Hw'.
    eapply Runs_bind; [by apply (numbered_index bits)|]. intros pt2 (Hsym2 & _). unfold sym_ok in Hsym2.
    eapply Runs_bind; [apply assign_weights; try done; lia|]. intros ws2 Hw2. cbn. split; [done|lia].
Qed.

Lemma read_nibbles_runs n i count off data ws :
  wf_weights ws -> 0 <= i -> count <= 128 -> i <= count + 1 -> 0 <= off -> off + (count + 1 - i) / 2 <= len data -> count - i < 2 * Z.of_nat n - 1 ->
  Runs (fun x : list Z * Z => wf_weights (fst x) /\ off <= snd x <= len data) (read_nibbles n i count off data ws).
Proof.
  revert i off ws. induction n as [|n IH]; intros i off ws Hw Hi Hc Hic Ho Hend Hf; [lia|]. cbn [read_nibbles].
  destruct (Z.ltb_spec i count); [|cbn; split; [done|]; assert (0 <= (count + 1 - i) / 2) by (apply Z.div_pos; lia); lia].
  assert ((count + 1 - i) / 2 = (count + 1 - (i + 2)) / 2 + 1) as Hdiv.
  { replace (count + 1 - i) with (count + 1 - (i + 2) + 1 * 2) by lia. by rewrite Z.div_add by lia. }
  assert (0 <= (count + 1 - (i + 2)) / 2) by (apply Z.div_pos; lia).
  eapply Runs_bind; [apply Runs_index; lia|]. intros b _. pose proof (b2z_range b).
  eapply Runs_bind; [apply assign_weights; try done; try lia|].
  { rewrite Z.shiftr_div_pow2 by lia. change (2 ^ 4) with 16. split; [apply Z.div_pos; lia|apply Z.div_lt_upper_bound; lia]. }
  intros ws' Hw'. eapply Runs_bind; [apply assign_weights; try done; try lia|].
  { change 0xf with (Z.ones 4). rewrite Z.land_ones by lia. pose proof (mod_pow_bound (b2z b) 4 ltac:(lia)). change (2 ^ 4) with 16 in *. lia. }
  intros ws2 Hw2. eapply Runs_mono; [apply IH; try done; lia|]. intros [ws3 off3] [? ?]. cbn in *. split; [done|lia].
Qed.

Lemma zero_weights : wf_weights (replicate 256 0).
Proof. split; [done|]. apply Forall_replicate. lia. Qed.

Lemma zero_table n : Forall sym_ok (replicate n zero_entry).
Proof. apply Forall_replicate. unfold sym_ok. cbn. lia. Qed.

Lemma huff_weights_runs data off : 0 <= off -> len data < 2 ^ 31 ->
  Runs (fun x : list Z * Z * Z => let '(ws, count, off') := x in wf_weights ws /\ 1 <= count <= 255 /\ 1 <= off' <= len data)
    (huff_weights data off).
Proof.
  intros Ho Hl. unfold huff_weights. destruct (Z.geb_spec off (len data)); [done|].
  eapply Runs_bind; [apply Runs_index; lia|]. intros h _. pose proof (b2z_range h). destruct (Z.ltb_spec (b2z h) 128).
  - eapply Runs_bind; [apply readFSE_runs; try done; try lia; [apply zero_table|]|].
    { intros k Hk. change (len (replicate 64 zero_entry)) with (2 ^ 6). apply Z.pow_le_mono_r; lia. }
    intros [[bits noff] t] (Hb & Hn & Ht & Hlt). change (len (replicate 64 zero_entry)) with (2 ^ 6) in Hlt.
    assert (2 ^ bits <= len t) by (rewrite Hlt; apply Z.pow_le_mono_r; lia).
    destruct (Z.gtb_spec (off + 1 + b2z h) (len data)); [done|].
    eapply Runs_bind; [apply makeReverse_runs; lia|]. intros r Hr.
    eapply Runs_bind; [apply (rb_val_runs data); try done; lia|]. intros [v1 r1] [Hv1 Hr1]. cbn [fst snd] in *.
    eapply Runs_bind; [apply (rb_val_runs data); try done; lia|]. intros [v2 r2] [Hv2 Hr2]. cbn [fst snd] in *.
    eapply Runs_bind; [apply (read_weights_runs _ data bits); try done; try lia; apply zero_weights|].
    intros [ws count] [Hw Hc]. cbn [fst snd] in *. split; [done|]. lia.
  - destruct (Z.geb_spec (off + 1 + (b2z h - 127 + 1) / 2) (len data)); [done|].
    eapply Runs_bind; [apply read_nibbles_runs; try lia; apply zero_weights || (rewrite Z.sub_0_r; lia)|].
    intros [ws off'] [Hw Hoff]. cbn [fst snd] in *. split; [done|]. lia.
Qed.

(** ** Cells *)

(** The thirteen counters as a function. *)
Definition marks (f : Z -> Z) (mark : list Z) : Prop :=
  len mark = 13 /\ forall k, 0 <= k <= 12 -> mark !! Z.to_nat k = Some (f k).

Definition upd (f : Z -> Z) (k x : Z) : Z -> Z := fun j => if j =? k then x else f j.

Lemma marks_index f mark k : marks f mark -> 0 <= k <= 12 -> index mark k = Ok (f k).
Proof. intros [Hl Hm] Hk. apply index_lookup. split; [lia|by apply Hm]. Qed.

Lemma marks_assign f mark k x : marks f mark -> 0 <= k <= 12 -> Runs (marks (upd f k x)) (assign mark k x).
Proof.
  intros [Hl Hm] Hk. eapply Runs_mono; [apply Runs_assign; lia|]. intros mark' [-> Hl']. split; [lia|].
  intros j Hj. unfold upd. destruct (Z.eqb_spec j k) as [->|Hne].
  - apply list_lookup_insert_eq. unfold len in Hl. lia.
  - rewrite list_lookup_insert_ne by lia. by apply Hm.
Qed.

Lemma marks_ext f g mark : marks f mark -> (forall k, 0 <= k <= 12 -> f k = g k) -> marks g mark.
Proof. intros [Hl Hm] He. split; [done|]. intros k Hk. rewrite Hm by done. by rewrite He. Qed.

(** How often a weight occurs, and what its symbols take of the table. *)
Fixpoint occ (k : Z) (ws : list Z) : Z := match ws with [] => 0 | w :: rest => (if w =? k then 1 else 0) + occ k rest end.

Fixpoint wsum (ws : list Z) : Z := match ws with [] => 0 | w :: rest => (if w >? 0 then 2 ^ (w - 1) else 0) + wsum rest end.

(** The cells of the weights 1 to [n]. *)
Fixpoint cells (f : Z -> Z) (n : nat) : Z :=
  match n with O => 0 | S m => cells f m + f (Z.of_nat (S m)) * 2 ^ Z.of_nat m end.

Lemma occ_nonneg k ws : 0 <= occ k ws <= len ws.
Proof. induction ws as [|w ws IH]; cbn [occ]; [done|]. rewrite len_cons. destruct (_ =? _); lia. Qed.

Lemma occ_app k a b : occ k (a ++ b) = occ k a + occ k b.
Proof. induction a as [|w a IH]; cbn [occ app]; lia. Qed.

Lemma wsum_app a b : wsum (a ++ b) = wsum a + wsum b.
Proof. induction a as [|w a IH]; cbn [wsum app]; lia. Qed.

Lemma wsum_bound ws : Forall (fun w => 0 <= w <= 12) ws -> 0 <= wsum ws <= 2048 * len ws.
Proof.
  induction 1 as [|w ws Hw _ IH]; [done|]. cbn [wsum]. rewrite len_cons. destruct (Z.gtb_spec w 0); [|lia].
  assert (0 < 2 ^ (w - 1) <= 2 ^ 11) by (split; [apply Z.pow_pos_nonneg; lia|apply Z.pow_le_mono_r; lia]). lia.
Qed.

Lemma cells_one f g w n : (forall k, 1 <= k <= Z.of_nat n -> g k = (if w =? k then 1 else 0) + f k) ->
  cells g n = cells f n + (if (1 <=? w) && (w <=? Z.of_nat n) then 2 ^ (w - 1) else 0).
Proof.
  induction n as [|n IH]; intros Hg; cbn [cells]; [destruct (Z.leb_spec 1 w), (Z.leb_spec w (Z.of_nat 0)); cbn; lia|].
  rewrite IH by (intros; apply Hg; lia). rewrite Hg by lia. destruct (Z.eqb_spec w (Z.of_nat (S n))) as [->|].
  - rewrite (proj2 (Z.leb_le _ _)), (proj2 (Z.leb_gt _ _)), (proj2 (Z.leb_le _ (Z.of_nat (S n)))) by lia. cbn [andb].
    replace (Z.of_nat (S n) - 1) with (Z.of_nat n) by lia. lia.
  - destruct (Z.leb_spec 1 w), (Z.leb_spec w (Z.of_nat n)), (Z.leb_spec w (Z.of_nat (S n))); cbn [andb]; lia.
Qed.

(** The cells of all weights are their sum. *)
Lemma cells_wsum ws n : Forall (fun w => 0 <= w <= Z.of_nat n) ws -> cells (fun k => occ k ws) n = wsum ws.
Proof.
  induction 1 as [|w ws Hw _ IH]; cbn [wsum].
  - induction n as [|n IHn]; [done|]. cbn [cells]. rewrite IHn. cbn [occ]. lia.
  - rewrite (cells_one (fun k => occ k ws) _ w) by done. rewrite IH.
    destruct (Z.leb_spec 1 w), (Z.leb_spec w (Z.of_nat n)), (Z.gtb_spec w 0); cbn [andb]; lia.
Qed.

Lemma cells_mono f m n : (forall k, 0 <= f k) -> (m <= n)%nat -> 0 <= cells f m <= cells f n.
Proof.
  intros Hf. assert (Hs : forall k, cells f k <= cells f (S k)).
  { intros k. cbn [cells]. assert (0 < 2 ^ Z.of_nat k) by (apply Z.pow_pos_nonneg; lia). specialize (Hf (Z.of_nat (S k))). nia. }
  assert (Hp : forall k, 0 <= cells f k) by (induction k as [|k IH]; [done|specialize (Hs k); lia]).
  intros Hmn. split; [done|]. induction Hmn as [|n Hmn IH]; [lia|]. specialize (Hs n). lia.
Qed.

Lemma mark_weights_runs ws f mark mask :
  marks f mark -> (forall k, 0 <= f k) -> (forall k, f k + len ws <= 256) -> Forall (fun w => 0 <= w < 256) ws ->
  0 <= mask -> mask + 2048 * len ws <= 2 ^ 20 ->
  Runs (fun x : list Z * Z => marks (fun k => f k + occ k ws) (fst x) /\ snd x = mask + wsum ws /\ Forall (fun w => 0 <= w <= 12) ws)
    (mark_weights ws mark mask).
Proof.
  revert f mark mask. induction ws as [|w ws IH]; intros f mark mask Hm Hf0 Hf Hw Hk Hk'.
  { cbn. split; [eapply marks_ext; [exact Hm|]; intros; cbn; lia|]. split; [lia|done]. }
  apply Forall_cons in Hw as [Hw Hws]. cbn [mark_weights]. rewrite len_cons in *. pose proof (len_nonneg ws). destruct (Z.gtb_spec w 12); [done|].
  rewrite (marks_index f) by (done || lia). cbn [res_bind]. pose proof (Hf w). pose proof (Hf0 w).
  assert (u32 (f w + 1) = f w + 1) as -> by (apply Z.mod_small; lia).
  eapply Runs_bind; [by apply marks_assign; [exact Hm|lia]|]. intros mark' Hm'.
  assert (0 <= (if w >? 0 then 2 ^ (w - 1) else 0) <= 2048) as Hpow.
  { destruct (Z.gtb_spec w 0); [|lia]. split; [apply Z.pow_nonneg; lia|]. change 2048 with (2 ^ 11). apply Z.pow_le_mono_r; lia. }
  assert ((if w >? 0 then u32 (mask + Z.shiftl 1 (w - 1)) else mask) = mask + (if w >? 0 then 2 ^ (w - 1) else 0)) as ->.
  { destruct (Z.gtb_spec w 0); [|lia]. rewrite Z.shiftl_1_l. apply Z.mod_small. lia. }
  eapply Runs_mono; [apply (IH (upd f w (f w + 1))); try done; try lia|].
  - intros k. unfold upd. specialize (Hf0 k). destruct (_ =? _); lia.
  - intros k. unfold upd. specialize (Hf k). destruct (Z.eqb_spec k w) as [->|]; lia.
  - intros [m' s'] (Hm2 & Hs2 & H12). cbn [fst snd] in *. split; [|split; [cbn [wsum]; lia|constructor; [lia|done]]].
    eapply marks_ext; [exact Hm2|]. intros k _. cbn [occ]. unfold upd. destruct (Z.eqb_spec k w), (Z.eqb_spec w k); subst; lia.
Qed.

Lemma first_cells_runs n i f g mark tb :
  marks g mark -> (forall k, 0 <= f k) -> (forall k, g k = if (1 <=? k) && (k <=? Z.of_nat i) then cells f (Z.to_nat (k - 1)) else f k) ->
  (i + n = tb)%nat -> (tb <= 12)%nat -> cells f tb <= 2 ^ 20 ->
  Runs (marks (fun k => if (1 <=? k) && (k <=? Z.of_nat tb) then cells f (Z.to_nat (k - 1)) else f k))
    (first_cells n (Z.of_nat i) (cells f i) mark).
Proof.
  intros Hm Hf Hg Hn Ht Hc. revert i g mark Hm Hg Hn. induction n as [|n IH]; intros i g mark Hm Hg Hn.
  { replace tb with i by lia. cbn. eapply marks_ext; [exact Hm|]. intros; apply Hg. }
  cbn [first_cells]. rewrite (marks_index g) by (done || lia). cbn [res_bind].
  eapply Runs_bind; [apply marks_assign; [exact Hm|lia]|]. intros mark' Hm'.
  assert (g (Z.of_nat i + 1) = f (Z.of_nat (S i))) as ->.
  { rewrite Hg. destruct (Z.leb_spec (Z.of_nat i + 1) (Z.of_nat i)); [lia|]. rewrite andb_false_r. f_equal. lia. }
  pose proof (cells_mono f (S i) tb Hf ltac:(lia)) as HS. pose proof (cells_mono f i (S i) Hf ltac:(lia)) as Hi.
  cbn [cells] in HS, Hi. pose proof (Hf (Z.of_nat (S i))). assert (0 < 2 ^ Z.of_nat i) by (apply Z.pow_pos_nonneg; lia).
  rewrite Z.shiftl_mul_pow2 by lia. assert (u32 (f (Z.of_nat (S i)) * 2 ^ Z.of_nat i) = f (Z.of_nat (S i)) * 2 ^ Z.of_nat i) as ->.
  { apply Z.mod_small. lia. }
  assert (u32 (cells f i + f (Z.of_nat (S i)) * 2 ^ Z.of_nat i) = cells f (S i)) as ->. { cbn [cells]. apply Z.mod_small. lia. }
  replace (Z.of_nat i + 1) with (Z.of_nat (S i)) in * by lia.
  apply (IH (S i) (upd g (Z.of_nat (S i)) (cells f i))); [done| |lia]. intros k. unfold upd. rewrite Hg.
  destruct (Z.eqb_spec k (Z.of_nat (S i))) as [->|].
  - rewrite (proj2 (Z.leb_le 1 _)), (proj2 (Z.leb_le _ _)) by lia. cbn [andb]. f_equal. lia.
  - destruct (Z.leb_spec 1 k), (Z.leb_spec k (Z.of_nat i)), (Z.leb_spec k (Z.of_nat (S i))); cbn [andb]; done || lia.
Qed.

Lemma fill_cells_runs n i tval table : 0 <= i -> i + Z.of_nat n <= len table -> Runs (fun t => len t = len table) (fill_cells n i tval table).
Proof.
  revert i table. induction n as [|n IH]; intros i table Hi Hn; [done|]. cbn [fill_cells].
  eapply Runs_bind; [apply Runs_assign; lia|]. intros t [_ Hl]. eapply Runs_mono; [apply IH; lia|]. cbn. lia.
Qed.

Lemma fill_table_runs ws i tb f mark table :
  marks f mark -> Forall (fun w => 0 <= w <= tb) ws -> tb <= 12 -> len table < 2 ^ 20 ->
  (forall k, 1 <= k <= tb -> 0 <= f k /\ f k + occ k ws * 2 ^ (k - 1) <= len table) ->
  Runs (fun t => len t = len table) (fill_table i tb ws mark table).
Proof.
  intros Hm Hw Ht Hl Hf. revert i f mark table Hm Hl Hf. induction Hw as [|w ws Hw _ IH]; intros i f mark table Hm Hl Hf; [done|].
  cbn [fill_table]. destruct (Z.eqb_spec w 0) as [->|Hz].
  { eapply IH; try done. intros k Hk. specialize (Hf k Hk). cbn [occ] in Hf. destruct (Z.eqb_spec 0 k); lia. }
  rewrite (marks_index f) by (done || lia). cbn [res_bind].
  pose proof (Hf w ltac:(lia)) as [H0 Hw2]. cbn [occ] in Hw2. rewrite Z.eqb_refl in Hw2. pose proof (occ_nonneg w ws).
  assert (0 < 2 ^ (w - 1)) by (apply Z.pow_pos_nonneg; lia). rewrite Z.shiftl_1_l.
  eapply Runs_bind; [apply fill_cells_runs; [lia|rewrite Z2Nat.id; nia]|]. intros t Hlt. cbv beta in Hlt.
  assert (u32 (f w + 2 ^ (w - 1)) = f w + 2 ^ (w - 1)) as -> by (apply Z.mod_small; nia).
  eapply Runs_bind; [apply marks_assign; [exact Hm|lia]|]. intros mark' Hm'.
  eapply Runs_mono; [apply (IH (i + 1) (upd f w (f w + 2 ^ (w - 1))) mark' t Hm'); [lia|]|intros t' Ht'; cbv beta in Ht'; lia].
  intros k Hk. specialize (Hf k Hk). cbn [occ] in Hf. unfold upd. rewrite Hlt.
  destruct (Z.eqb_spec k w), (Z.eqb_spec w k); subst; try lia; nia.
Qed.

Lemma wsum_max ws n : 0 <= n -> Forall (fun w => 0 <= w <= 12) ws -> wsum ws < 2 ^ n -> Forall (fun w => 0 <= w <= n) ws.
Proof.
  intros Hn. induction 1 as [|w ws Hw Hws IH]; intros Hs; [constructor|]. cbn [wsum] in Hs.
  pose proof (wsum_bound ws Hws). assert (0 <= (if w >? 0 then 2 ^ (w - 1) else 0)).
  { destruct (w >? 0); [|lia]. apply Z.pow_nonneg. lia. }
  constructor; [|apply IH; lia]. split; [lia|]. destruct (Z.gtb_spec w 0); [|lia].
  assert (w - 1 < n); [|lia]. apply (Z.pow_lt_mono_r_iff 2); lia.
Qed.

Lemma take_insert_snoc {A} (l : list A) n x : (n < length l)%nat -> take (S n) (<[n := x]> l) = take n l ++ [x].
Proof.
  intros Hn. rewrite (take_S_r _ n x) by (by apply list_lookup_insert_eq). by rewrite take_insert_ge by lia.
Qed.

(** The weights of a tree, its last one included, fill the table. *)
Lemma fill_full_table ws tb mark table :
  Forall (fun w => 0 <= w <= tb) ws -> 1 <= tb <= 11 -> wsum ws = 2 ^ tb -> marks (fun k => occ k ws) mark ->
  2 ^ tb <= len table < 2 ^ 20 ->
  Runs (fun t => len t = len table) (let? mark := first_cells (Z.to_nat tb) 0 0 mark in fill_table 0 tb ws mark table).
Proof.
  intros Hle Ht Hs Hm Hl. assert (2 ^ tb <= 2 ^ 11) by (apply Z.pow_le_mono_r; lia).
  pose proof (cells_wsum ws (Z.to_nat tb)) as Hcw. rewrite Z2Nat.id in Hcw by lia. specialize (Hcw Hle).
  assert (Hocc : forall k, 0 <= occ k ws) by (intros k; apply occ_nonneg).
  eapply Runs_bind; [apply (first_cells_runs _ 0 (fun k => occ k ws) (fun k => occ k ws) _ (Z.to_nat tb)); try done; try lia|].
  { intros k. destruct (Z.leb_spec 1 k), (Z.leb_spec k (Z.of_nat 0)); cbn [andb]; done || lia. }
  intros mark' Hm'. rewrite Z2Nat.id in Hm' by lia. eapply fill_table_runs; [exact Hm'|done|lia|lia|].
  intros k Hk. cbv beta. rewrite (proj2 (Z.leb_le 1 k)), (proj2 (Z.leb_le k tb)) by lia. cbn [andb].
  pose proof (cells_mono (fun k => occ k ws) (Z.to_nat (k - 1)) (Z.to_nat tb) Hocc ltac:(lia)).
  pose proof (cells_mono (fun k => occ k ws) (S (Z.to_nat (k - 1))) (Z.to_nat tb) Hocc ltac:(lia)) as Hk2. cbn [cells] in Hk2.
  replace (Z.of_nat (S (Z.to_nat (k - 1)))) with k in Hk2 by lia. rewrite Z2Nat.id in Hk2 by lia. lia.
Qed.

Lemma bitlen_log2 v : v <> 0 -> bitlen v = Z.log2 v + 1.
Proof. intros Hv. unfold bitlen. by destruct (Z.eqb_spec v 0). Qed.

Lemma readHuff_runs data off table : 0 <= off -> len data < 2 ^ 31 -> len table < 2 ^ 20 ->
  Runs (fun x : Z * Z * list Z => let '(tb, off', t) := x in 1 <= tb <= 11 /\ 1 <= off' <= len data /\ 2 ^ tb <= len t /\ len t = len table)
    (readHuff data off table).
Proof.
  intros Ho Hl Ht. unfold readHuff. eapply Runs_bind; [by apply huff_weights_runs|].
  intros [[weights count] off'] ([Hwl Hwf] & Hc & Hoff). eapply Runs_bind; [apply Runs_slice; lia|]. intros ws [Hws Hlws].
  rewrite Z.sub_0_r in *. change (Z.to_nat 0) with 0%nat in Hws. rewrite drop_0 in Hws.
  assert (Forall (fun w => 0 <= w < 256) ws) as Hfws by (rewrite Hws; by apply Forall_take).
  eapply Runs_bind; [apply (mark_weights_runs ws (fun _ => 0)); try done; try lia|].
  { split; [done|]. intros k Hk. by apply lookup_replicate_2; lia. }
  intros [mark mask] (Hm & Hmask & H12). cbn [fst snd] in *. rewrite Z.add_0_l in Hmask. pose proof (wsum_bound ws H12) as Hsb.
  rewrite Hmask. destruct (Z.eqb_spec (wsum ws) 0); [done|]. rewrite bitlen_log2 by done.
  set (tb := Z.log2 (wsum ws) + 1). unfold maxHuffmanBits. destruct (Z.gtb_spec tb 11); [done|].
  pose proof (Z.log2_nonneg (wsum ws)). pose proof (Z.log2_spec (wsum ws) ltac:(lia)) as Hlog. rewrite <- Z.add_1_r in Hlog. fold tb in Hlog.
  rewrite !Z.shiftl_1_l. destruct (Z.ltb_spec (len table) (2 ^ tb)); [done|].
  assert (2 ^ tb <= 2 ^ 11) by (apply Z.pow_le_mono_r; lia).
  assert (u32 (2 ^ tb - wsum ws) = 2 ^ tb - wsum ws) as -> by (apply Z.mod_small; lia). set (left := 2 ^ tb - wsum ws) in *.
  destruct (Z.eqb_spec left 0); [done|]. rewrite bitlen_log2, Z.add_simpl_r by done. set (hb := Z.log2 left).
  pose proof (Z.log2_nonneg left). destruct (Z.eqb_spec (2 ^ hb) left) as [Hpow|]; [|done]. cbn [negb].
  assert (hb < tb) by (apply (Z.pow_lt_mono_r_iff 2); lia).
  destruct (Z.geb_spec count 256); [done|]. assert (u8 (hb + 1) = hb + 1) as -> by (apply Z.mod_small; change (2 ^ 8) with 256; lia).
  eapply Runs_bind; [apply Runs_assign; lia|]. intros weights' [-> Hwl'].
  rewrite (marks_index (fun k => 0 + occ k ws)) by (done || lia). cbn [res_bind]. pose proof (occ_nonneg (hb + 1) ws).
  assert (u32 (0 + occ (hb + 1) ws + 1) = occ (hb + 1) ws + 1) as -> by (rewrite Z.add_0_l; apply Z.mod_small; lia).
  eapply Runs_bind; [apply marks_assign; [exact Hm|lia]|]. intros mark' Hm'.
  eapply Runs_bind; [apply (Runs_index_Forall (fun _ => True)); [by apply Forall_true|destruct Hm'; lia]|]. intros ones _.
  destruct ((ones <? 2) || _); [done|].
  set (ws2 := ws ++ [hb + 1]).
  assert (Hw2 : take (Z.to_nat (count + 1 - 0)) (drop (Z.to_nat 0) (<[Z.to_nat count := hb + 1]> weights)) = ws2).
  { replace (Z.to_nat (count + 1 - 0)) with (S (Z.to_nat count)) by lia. change (Z.to_nat 0) with 0%nat.
    rewrite drop_0, take_insert_snoc by (unfold len in *; lia). by rewrite <- Hws. }
  assert (Hfull : Runs (fun t => len t = len table)
    (let? mark := first_cells (Z.to_nat tb) 0 0 mark' in fill_table 0 tb ws2 mark table)).
  { apply fill_full_table; try lia.
    - apply Forall_app. split; [apply wsum_max; try done; lia|]. constructor; [lia|done].
    - unfold ws2. rewrite wsum_app. cbn [wsum]. destruct (Z.gtb_spec (hb + 1) 0); [|lia]. rewrite Z.add_simpl_r. lia.
    - eapply marks_ext; [exact Hm'|]. intros k _. unfold ws2, upd. rewrite occ_app. cbn [occ].
      destruct (Z.eqb_spec k (hb + 1)), (Z.eqb_spec (hb + 1) k); subst; lia. }
  destruct (first_cells (Z.to_nat tb) 0 0 mark') as [mark2| |]; try done. cbn [res_bind] in *.
  rewrite slice_ok by lia. cbn [res_bind]. rewrite Hw2. eapply Runs_bind; [exact Hfull|]. intros t Hlt. cbv beta in Hlt. cbn.
  split; [lia|]. split; [lia|]. split; [lia|done].
Qed.

(** * Literals *)

Definition wf_huffman (h : huffman) : Prop :=
  len (fst h) < 2 ^ 20 /\ (snd h = 0 \/ 1 <= snd h <= 11 /\ 2 ^ snd h <= len (fst h)).

(** A table that can be decoded with. *)
Definition usable (h : huffman) : Prop := 1 <= snd h <= 11 /\ 2 ^ snd h <= len (fst h).

Section literals.
Context (data : bytes) (Hdata : len data < 2 ^ 31).

Lemma fetchHuff_runs h r : usable h -> wf_rb data r -> Runs (fun x : Z * reverseBitReader => wf_rb data (snd x)) (fetchHuff (fst h) (snd h) r).
Proof.
  intros [Hb Hl] Hr. unfold fetchHuff. eapply Runs_bind; [apply (fetch_runs data); try done; lia|]. intros [ok r'] [Hr' _]. cbn [fst snd] in *.
  destruct ok; [|done]. cbn [negb]. rewrite land_ones_mod by lia.
  eapply Runs_bind; [apply Runs_index|by intros].
  match goal with |- 0 <= ?x mod _ < _ => pose proof (mod_pow_bound x (snd h) ltac:(lia)) end. lia.
Qed.

Lemma one_stream_runs n h r out : usable h -> wf_rb data r -> Runs (fun o => len o = len out + Z.of_nat n) (one_stream n h r out).
Proof.
  intros Hh. revert r out. induction n as [|n IH]; intros r out Hr; [cbn; lia|]. cbn [one_stream].
  eapply Runs_bind; [by apply fetchHuff_runs|]. intros [t r'] Hr'. cbn [snd] in Hr'.
  eapply Runs_mono; [apply IH; by apply rb_drop_wf|]. cbn. intros o. rewrite len_app. change (len [_]) with 1. lia.
Qed.

Lemma store_literal_runs out i tr : 0 <= i < len out -> wf_rb data (snd tr) ->
  Runs (fun x : bytes * reverseBitReader => len (fst x) = len out /\ wf_rb data (snd x)) (store_literal out i tr).
Proof.
  intros Hi Hr. unfold store_literal. eapply Runs_bind; [by apply Runs_assign|]. intros o [_ Ho]. split; [done|by apply rb_drop_wf].
Qed.

Lemma four_streams_runs n h i size4 r1 r2 r3 r4 o1 o2 o3 o4 out :
  usable h -> wf_rb data r1 -> wf_rb data r2 -> wf_rb data r3 -> wf_rb data r4 ->
  0 <= o1 /\ 0 <= o2 /\ 0 <= o3 -> o1 + Z.of_nat n <= len out -> o2 + Z.of_nat n <= len out -> o3 + Z.of_nat n <= len out ->
  0 <= o4 -> (i < size4 -> o4 + (size4 - i) <= len out) ->
  Runs (fun o => len o = len out) (four_streams n h i size4 r1 r2 r3 r4 o1 o2 o3 o4 out).
Proof.
  intros Hh. revert i r1 r2 r3 r4 o1 o2 o3 o4 out. induction n as [|n IH]; intros i r1 r2 r3 r4 o1 o2 o3 o4 out H1 H2 H3 H4 Ho L1 L2 L3 Ho4 L4; [done|].
  cbn [four_streams]. eapply Runs_bind; [by apply fetchHuff_runs|]. intros t1 Ht1. eapply Runs_bind; [by apply fetchHuff_runs|]. intros t2 Ht2.
  eapply Runs_bind; [by apply fetchHuff_runs|]. intros t3 Ht3.
  eapply Runs_bind with (P := fun x : bytes * reverseBitReader * Z => let '(o, r, k) := x in
    len o = len out /\ wf_rb data r /\ 0 <= k /\ (i + 1 < size4 -> k + (size4 - (i + 1)) <= len out)).
  { destruct (Z.ltb_spec i size4); [|cbn; split_and!; done || lia]. eapply Runs_bind; [by apply fetchHuff_runs|]. intros t4 Ht4.
    eapply Runs_bind; [apply store_literal_runs; [lia|done]|]. intros [ob rb] [? ?]. cbn. split_and!; done || lia. }
  intros [[o r] k] (Hlo & Hr & Hk & Lk).
  eapply Runs_bind; [apply store_literal_runs; [lia|exact Ht1]|]. intros [ob1 rb1] [? ?]. cbn [fst snd] in *.
  eapply Runs_bind; [apply store_literal_runs; [lia|exact Ht2]|]. intros [ob2 rb2] [? ?]. cbn [fst snd] in *.
  eapply Runs_bind; [apply store_literal_runs; [lia|exact Ht3]|]. intros [ob3 rb3] [? ?]. cbn [fst snd] in *.
  eapply Runs_mono; [apply IH; try done; lia|]. intros o' Ho'. cbv beta in Ho'. lia.
Qed.

Lemma le16_at_runs off : 0 <= off -> off + 1 < len data -> Runs (fun v => 0 <= v < 65536) (le16_at data off).
Proof.
  intros Ho Hl. unfold le16_at. eapply Runs_bind; [apply Runs_slice; lia|]. intros s [_ Hs].
  eapply Runs_bind; [apply Runs_index; lia|]. intros a _. eapply Runs_bind; [apply Runs_index; lia|]. intros b _. cbn.
  pose proof (b2z_range a). pose proof (b2z_range b). rewrite Z.shiftl_mul_pow2 by lia. change (2 ^ 8) with 256. lia.
Qed.

Lemma len_replicate {A} n (x : A) : len (replicate n x) = Z.of_nat n.
Proof. unfold len. by rewrite length_replicate. Qed.

Lemma fourStreams_runs h off total regen out :
  usable h -> 1 <= off -> 0 <= total -> off + total <= len data -> 0 <= regen ->
  Runs (fun o => len o = len out + regen) (readLiteralsFourStreams h data off total regen out).
Proof.
  intros Hh Ho Ht Hend Hr. unfold readLiteralsFourStreams. destruct (Z.geb_spec (off + 5) (len data)); [done|].
  destruct (Z.ltb_spec total 6); [done|]. set (rs := (regen + 3) / 4).
  assert (0 <= rs) by (apply Z.div_pos; lia). destruct (Z.ltb_spec regen (rs * 3)); [done|].
  eapply Runs_bind; [apply le16_at_runs; lia|]. intros s1 Hs1. eapply Runs_bind; [apply le16_at_runs; lia|]. intros s2 Hs2.
  eapply Runs_bind; [apply le16_at_runs; lia|]. intros s3 Hs3. cbv beta in *.
  destruct (Z.gtb_spec (s1 + s2 + s3) (total - 6)); [done|].
  assert (u32 (total - 6 - (s1 + s2 + s3)) = total - 6 - (s1 + s2 + s3)) as -> by (apply Z.mod_small; lia).
  do 4 (eapply Runs_bind; [apply makeReverse_runs; lia|]; intros ? ?).
  pose proof (len_nonneg out). assert (rs * 4 <= regen + 3) by (unfold rs; pose proof (Z.mul_div_le (regen + 3) 4 ltac:(lia)); lia).
  eapply Runs_mono; [apply four_streams_runs; try done; rewrite ?len_app, ?len_replicate; lia|].
  intros o Ho'. cbv beta in Ho'. rewrite Ho', len_app, len_replicate. lia.
Qed.

(** What a literals section gives. *)
Definition literals_post (x : Z * bytes * huffman) : Prop :=
  let '(off, lits, h) := x in 1 <= off <= len data /\ len lits <= 2 ^ 17 /\ wf_huffman h.

Lemma raw_literals_runs off hdr : 1 <= off -> 0 <= hdr ->
  Runs (fun x : Z * bytes => 1 <= fst x <= len data /\ len (snd x) <= 2 ^ 17) (readRawRLELiterals data off hdr []).
Proof.
  intros Ho Hh. unfold readRawRLELiterals.
  eapply Runs_bind with (P := fun x : Z * Z => 0 <= fst x /\ off <= snd x).
  { assert (0 <= Z.shiftr hdr 4) by (by apply Z.shiftr_nonneg). assert (0 <= Z.shiftr hdr 3) by (by apply Z.shiftr_nonneg).
    assert (forall (b : byte) k, 0 <= k -> 0 <= Z.shiftl (b2z b) k) as Hsh by (intros b k _; apply Z.shiftl_nonneg, b2z_range).
    destruct (Z.land (Z.shiftr hdr 2) 3) as [|[[]|[]|]|]; try (cbn; lia).
    - destruct (Z.geb_spec (off + 1) (len data)); [done|]. eapply Runs_bind; [apply Runs_index; lia|]. intros a _.
      eapply Runs_bind; [apply Runs_index; lia|]. intros b _. cbn. pose proof (Hsh a 4 ltac:(lia)). pose proof (Hsh b 12 ltac:(lia)). lia.
    - destruct (Z.geb_spec off (len data)); [done|]. eapply Runs_bind; [apply Runs_index; lia|]. intros a _. cbn.
      pose proof (Hsh a 4 ltac:(lia)). lia. }
  intros [size off'] [Hs Ho']. cbn [fst snd] in *. change (Z.shiftl 128 10) with (2 ^ 17). destruct (Z.gtb_spec size (2 ^ 17)); [done|].
  destruct (_ =? 0).
  - destruct (Z.gtb_spec (off' + size) (len data)); [done|]. eapply Runs_bind; [apply Runs_slice; lia|]. intros l [_ Hl]. cbn. lia.
  - destruct (Z.geb_spec off' (len data)); [done|]. eapply Runs_bind; [apply Runs_index; lia|]. intros b _. cbn. rewrite len_replicate. lia.
Qed.

Lemma huff_header_runs off hdr : 1 <= off -> 0 <= hdr ->
  Runs (fun x : Z * Z * Z * Z => let '(regen, csize, off', _) := x in 0 <= regen /\ 0 <= csize /\ off <= off') (huff_header data off hdr).
Proof.
  intros Ho Hh. unfold huff_header.
  assert (Hnn : forall b : byte, 0 <= b2z b) by (intros b; apply b2z_range).
  destruct (Z.land (Z.shiftr hdr 2) 3) as [|[[]|[]|]|].
  all: match goal with |- context [?x >=? len data] => destruct (Z.geb_spec x (len data)); [done|] end.
  all: repeat (eapply Runs_bind; [apply Runs_index; lia|]; intros ? _).
  all: cbn -[Z.lor Z.land Z.shiftl Z.shiftr]; split_and!; try lia.
  all: repeat (apply Z.lor_nonneg; split); rewrite ?Z.shiftl_nonneg, ?Z.shiftr_nonneg, ?Z.land_nonneg; auto.
Qed.

Lemma readHuffLiterals_runs h off hdr : wf_huffman h -> 1 <= off -> 0 <= hdr -> Runs literals_post (readHuffLiterals h data off hdr []).
Proof.
  intros [Hh20 Hh] Ho Hhdr. unfold readHuffLiterals. eapply Runs_bind; [by apply huff_header_runs|].
  intros [[[regen csize] off1] streams] (Hr & Hc & Ho1). change (Z.shiftl 128 10) with (2 ^ 17). destruct (Z.gtb_spec regen (2 ^ 17)); [done|].
  destruct (Z.gtb_spec (off1 + csize) (len data)), (Z.ltb_spec (off1 + csize) 0); cbn [orb]; try done.
  eapply Runs_bind with (P := fun x : huffman * Z * Z => let '(h', off2, total) := x in
    usable h' /\ len (fst h') < 2 ^ 20 /\ 1 <= off2 /\ 0 <= total /\ off2 + total = off1 + csize).
  { destruct (_ =? 2).
    - change (Z.shiftl 1 maxHuffmanBits) with 2048.
      assert (len (if len (fst h) <? 2048 then replicate 2048 0 else fst h) < 2 ^ 20) as Ht.
      { destruct (_ <? _); [by rewrite len_replicate|lia]. }
      eapply Runs_bind; [apply readHuff_runs; try done; lia|]. intros [[tb hoff] t] (Htb & Hhoff & Hlt & Hlen).
      destruct (Z.ltb_spec csize (hoff - off1)); [done|]. cbn. unfold usable. cbn [fst snd]. lia.
    - destruct (Z.eqb_spec (snd h) 0); [done|]. cbn. unfold usable. lia. }
  intros [[h' off2] total] (Hus & Hl20 & Ho2 & Ht & Hsum).
  eapply Runs_bind with (P := fun o => len o = regen).
  { destruct (streams =? 1).
    - unfold readLiteralsOneStream. eapply Runs_bind; [apply makeReverse_runs; lia|]. intros r Hr'.
      eapply Runs_mono; [by apply one_stream_runs|]. intros o Hlo. cbv beta in Hlo. change (len []) with 0 in Hlo. lia.
    - eapply Runs_mono; [apply fourStreams_runs; try done; lia|]. intros o Hlo. cbv beta in Hlo. change (len []) with 0 in Hlo. lia. }
  intros o Hlo. cbv beta in Hlo. cbn. split; [lia|]. split; [lia|]. split; [done|by right].
Qed.

Lemma readLiterals_runs h : wf_huffman h -> Runs literals_post (readLiterals h data 0 []).
Proof.
  intros Hh. unfold readLiterals. destruct (Z.geb_spec 0 (len data)); [done|]. eapply Runs_bind; [apply Runs_index; lia|]. intros b _.
  pose proof (b2z_range b). destruct (_ || _).
  - eapply Runs_bind; [apply raw_literals_runs; lia|]. intros [off l] [? ?]. cbn. done.
  - apply readHuffLiterals_runs; done || lia.
Qed.
End literals.
