(* ===== verification/ZstdWindow.v ===== *)
(** The window of the Zstandard decoder, a circular buffer
    ([internal/compress/zstd/window.go]), implements the last bytes of what was
    saved. *)

From Stdlib Require Import ZArith Lia.
From Stdlib Require Import Strings.Byte.
From stdpp Require Import base list gmap countable strings.
From S2P Require Import Prelude.
From S2P Require Import ZstdBits.
From S2P Require Import ZstdReader.
From S2P Require Import ZstdSafety.

Open Scope Z_scope.

(** The stored bytes, oldest first. *)
Definition contents (w : window) : bytes := drop (Z.to_nat (w_off w)) (w_data w) ++ take (Z.to_nat (w_off w)) (w_data w).

(** A full buffer wraps around; one that is not full starts at its beginning. *)
Definition wf_window (w : window) : Prop :=
  0 <= w_size w <= 2 ^ 23 /\ len (w_data w) <= w_size w /\ 0 <= w_off w <= len (w_data w) /\ (len (w_data w) < w_size w -> w_off w = 0).

(** The last [n] elements. *)
Definition lastn {A} (n : nat) (l : list A) : list A := drop (length l - n) l.

Lemma lastn_all {A} n (l : list A) : (length l <= n)%nat -> lastn n l = l.
Proof. intros Hl. unfold lastn. replace (length l - n)%nat with 0%nat by lia. apply drop_0. Qed.

Lemma length_contents w : wf_window w -> length (contents w) = length (w_data w).
Proof. intros (_ & _ & Ho & _). unfold contents, len in *. rewrite length_app, length_take, length_drop. lia. Qed.

Lemma copy_at_ok dst i src : 0 <= i <= len dst ->
  copy_at dst i src =
    Ok (take (Z.to_nat i) dst ++ take (Z.to_nat (len dst - i)) src ++ drop (Z.to_nat i + length src) dst, Z.min (len dst - i) (len src)).
Proof.
  intros Hi. unfold copy_at. rewrite slice_ok by lia. cbn [res_bind].
  assert (len (take (Z.to_nat (len dst - i)) (drop (Z.to_nat i) dst)) = len dst - i) as ->.
  { unfold len in *. rewrite length_take, length_drop. lia. }
  do 2 f_equal. f_equal. f_equal; unfold len in *.
  - destruct (Z.leb_spec (Z.of_nat (length dst) - i) (Z.of_nat (length src))).
    + f_equal. lia.
    + rewrite !take_ge by lia. done.
  - destruct (Z.leb_spec (Z.of_nat (length dst) - i) (Z.of_nat (length src))).
    + rewrite !drop_ge by lia. done.
    + f_equal. lia.
Qed.

(** Saving past the end of a full buffer: the new bytes replace the oldest. *)
Lemma lastn_wrap (data buf : bytes) m : (m <= length data)%nat -> length buf = m -> lastn (length data) (data ++ buf) = drop m data ++ buf.
Proof.
  intros Hm Hb. unfold lastn. rewrite length_app. replace (length data + length buf - length data)%nat with m by lia.
  by rewrite drop_app_le by lia.
Qed.

(** A full buffer that is overwritten from its start. *)
Lemma wrap_ok size d1 rest : len d1 = size -> len rest < size <= 2 ^ 23 ->
  exists w', (let? dm := copy_at d1 0 rest in Ok (mkWindow size (fst dm) (snd dm))) = Ok w' /\ wf_window w' /\ w_size w' = size /\
    contents w' = drop (length rest) d1 ++ rest.
Proof.
  intros Hd1 Hr. pose proof (len_nonneg rest). rewrite copy_at_ok by lia. cbn [res_bind fst snd]. change (Z.to_nat 0) with 0%nat.
  rewrite take_0, Z.sub_0_r, (take_ge rest) by (unfold len in *; lia). cbn [app Nat.add].
  replace (Z.min (len d1) (len rest)) with (len rest) by lia. eexists. split; [reflexivity|]. split; [|split; [done|]].
  - unfold wf_window. cbn. unfold len in *. rewrite length_app, length_drop. lia.
  - unfold contents. cbn [w_off w_data]. unfold len. by rewrite Nat2Z.id, drop_app_length, take_app_length.
Qed.

Section save.
Context (w : window) (buf : bytes) (Hw : wf_window w) (Hbuf : 0 < len buf < w_size w).

Definition saved (m : res window) : Prop :=
  exists w', m = Ok w' /\ wf_window w' /\ w_size w' = w_size w /\ contents w' = lastn (Z.to_nat (w_size w)) (contents w ++ buf).

(** The buffer is full: the bytes go to the place of the oldest ones. *)
Lemma save_full : len (w_data w) = w_size w -> saved
  (let? dn := copy_at (w_data w) (w_off w) buf in
   let '(data, n) := dn in
   if n =? len buf then Ok (mkWindow (w_size w) data (w_off w + n))
   else
     let? rest := slice buf n (len buf) in
     let? dm := copy_at data 0 rest in
     Ok (mkWindow (w_size w) (fst dm) (snd dm))).
Proof.
  intros Hfull. pose proof (length_contents w Hw) as Hlc. destruct Hw as (Hs & Hd & Ho & Hf). unfold saved.
  assert (Z.to_nat (w_size w) = length (contents w)) as -> by (rewrite Hlc; unfold len in *; lia).
  set (o := Z.to_nat (w_off w)) in *. rewrite copy_at_ok by lia. cbn [res_bind]. fold o.
  destruct (Z.eqb_spec (Z.min (len (w_data w) - w_off w) (len buf)) (len buf)) as [Hmin|Hmin].
  - eexists. split; [reflexivity|]. rewrite Hmin. unfold len in *. rewrite (take_ge buf) by lia. split; [|split; [done|]].
    + unfold wf_window. cbn. unfold len. rewrite !length_app, length_take, length_drop. lia.
    + unfold contents at 1. cbn [w_off w_data]. replace (Z.to_nat (w_off w + Z.of_nat (length buf))) with (o + length buf)%nat by lia.
      assert (length (take o (w_data w) ++ buf) = (o + length buf)%nat) as Hlt by (rewrite length_app, length_take; lia).
      rewrite app_assoc, drop_app_length', take_app_length' by done.
      rewrite (lastn_wrap _ _ (length buf)) by (rewrite ?Hlc; lia). unfold contents. fold o.
      rewrite drop_app_le by (rewrite length_drop; lia). by rewrite drop_drop, <- app_assoc.
  - set (n := Z.to_nat (len (w_data w) - w_off w)).
    replace (Z.min (len (w_data w) - w_off w) (len buf)) with (len (w_data w) - w_off w) by lia.
    rewrite slice_ok by lia. cbn [res_bind]. fold n. rewrite (take_ge (drop n buf)) by (rewrite length_drop; unfold n, len in *; lia).
    assert (drop (o + length buf) (w_data w) = []) as -> by (apply drop_ge; unfold len in *; lia). rewrite app_nil_r.
    set (d1 := take o (w_data w) ++ take n buf).
    destruct (wrap_ok (w_size w) d1 (drop n buf)) as (w' & He & Hw' & Hsz & Hc).
    { unfold d1, len in *. rewrite length_app, !length_take. lia. } { unfold len in *. rewrite length_drop. lia. }
    exists w'. rewrite He, Hc, length_drop. split; [done|]. split; [done|]. split; [done|]. set (m := (length buf - n)%nat).
    unfold lastn. rewrite length_app. replace (length (contents w) + length buf - length (contents w))%nat with (n + m)%nat by (unfold len in *; lia).
    unfold contents. fold o. rewrite <- drop_drop, <- app_assoc. rewrite drop_app_length' by (rewrite length_drop; unfold len in *; lia).
    transitivity (drop m (d1 ++ drop n buf)); [|unfold d1; by rewrite <- app_assoc, take_drop].
    rewrite (drop_app_le _ (drop n buf)); [done|]. unfold d1, len in *. rewrite length_app, !length_take. lia.
Qed.

(** There is room: the bytes are appended, and what is left wraps around. *)
Lemma save_room : len (w_data w) < w_size w -> saved
  (let free := w_size w - len (w_data w) in
   if free >=? len buf then Ok (mkWindow (w_size w) (w_data w ++ buf) (w_off w))
   else
     let? head := slice buf 0 free in
     let? rest := slice buf free (len buf) in
     let? dm := copy_at (w_data w ++ head) 0 rest in
     Ok (mkWindow (w_size w) (fst dm) (snd dm))).
Proof.
  intros Hfree. destruct Hw as (Hs & Hd & Ho & Hf). assert (w_off w = 0) as Ho0 by (apply Hf; lia). unfold saved. cbv zeta.
  assert (contents w = w_data w) as -> by (unfold contents; rewrite Ho0; change (Z.to_nat 0) with 0%nat; by rewrite drop_0, take_0, app_nil_r).
  rewrite Ho0. set (free := w_size w - len (w_data w)) in *. destruct (Z.geb_spec free (len buf)).
  - eexists. split; [reflexivity|]. split; [|split; [done|]].
    + unfold wf_window. cbn. rewrite len_app. pose proof (len_nonneg (w_data w)). lia.
    + unfold contents. cbn. rewrite drop_0, take_0, app_nil_r, lastn_all; [done|]. rewrite length_app. unfold len in *. lia.
  - rewrite !slice_ok by lia. cbn [res_bind]. rewrite Z.sub_0_r. change (Z.to_nat 0) with 0%nat. rewrite drop_0.
    rewrite (take_ge (drop (Z.to_nat free) buf)) by (rewrite length_drop; unfold len in *; lia).
    set (n := Z.to_nat free). destruct (wrap_ok (w_size w) (w_data w ++ take n buf) (drop n buf)) as (w' & He & Hw' & Hsz & Hc).
    { unfold len in *. rewrite length_app, length_take. lia. } { unfold len in *. rewrite length_drop. lia. }
    exists w'. rewrite He, Hc, length_drop. split; [done|]. split; [done|]. split; [done|]. unfold lastn. rewrite length_app.
    replace (length (w_data w) + length buf - Z.to_nat (w_size w))%nat with (length buf - n)%nat by (unfold len in *; lia).
    transitivity (drop (length buf - n) ((w_data w ++ take n buf) ++ drop n buf)); [|by rewrite <- app_assoc, take_drop].
    rewrite (drop_app_le _ (drop n buf)); [reflexivity|]. rewrite length_app, length_take. unfold len in *. lia.
Qed.
End save.

(** Saving keeps the last [w_size] bytes. *)
Lemma w_save_spec w buf : wf_window w -> saved w buf (w_save w buf).
Proof.
  intros Hw. pose proof (length_contents w Hw) as Hlc. pose proof Hw as (Hs & Hd & Ho & Hf). unfold w_save.
  destruct (Z.eqb_spec (w_size w) 0) as [Hz|Hz].
  { exists w. split; [done|]. split; [done|]. split; [done|]. rewrite Hz. change (Z.to_nat 0) with 0%nat. unfold lastn. rewrite Nat.sub_0_r, drop_all.
    apply nil_length_inv. unfold len in *. lia. }
  destruct (Z.eqb_spec (len buf) 0) as [Hb|Hb].
  { apply len_zero in Hb as ->. exists w. rewrite app_nil_r, lastn_all by (unfold len in *; lia). done. }
  pose proof (len_nonneg buf). destruct (Z.geb_spec (len buf) (w_size w)).
  { rewrite slice_ok by lia. cbn [res_bind]. eexists. split; [reflexivity|].
    rewrite take_ge by (unfold len in *; rewrite length_drop; lia). split; [|split; [done|]].
    - unfold wf_window, len in *. cbn. rewrite length_drop. lia.
    - unfold contents at 1. unfold lastn. cbn. rewrite drop_0, take_0, app_nil_r, length_app.
      rewrite drop_app_ge by (unfold len in *; rewrite Hlc; lia). f_equal. unfold len in *. rewrite Hlc. lia. }
  destruct (Z.eqb_spec (w_size w - len (w_data w)) 0); [apply save_full; done || lia|apply save_room; done || lia].
Qed.

(** Reading from the window is reading from its contents. *)
Lemma w_appendTo_spec w buf from to : wf_window w -> 0 <= from <= to -> to <= len (w_data w) ->
  w_appendTo w buf from to = Ok (buf ++ take (Z.to_nat (to - from)) (drop (Z.to_nat from) (contents w))).
Proof.
  intros (Hs & Hd & Ho & Hf) Hft Hto. unfold w_appendTo, u32. assert (2 ^ 23 < 2 ^ 30) by lia.
  rewrite (Z.mod_small (len (w_data w))), (Z.mod_small (w_off w)) by lia. rewrite !Z.mod_small by lia.
  set (o := Z.to_nat (w_off w)). set (L := len (w_data w)) in *.
  assert (Hpart : length (drop o (w_data w)) = Z.to_nat (L - w_off w)) by (rewrite length_drop; unfold L, len in *; lia).
  unfold contents. fold o.
  destruct (Z.gtb_spec (from + w_off w) L), (Z.gtb_spec (to + w_off w) L); cbn [xorb]; try lia.
  - rewrite slice_ok by lia. cbn [res_bind]. rewrite drop_app_ge by (rewrite Hpart; lia). rewrite Hpart. do 2 f_equal.
    replace (Z.to_nat from - Z.to_nat (L - w_off w))%nat with (Z.to_nat (from + w_off w - L)) by lia.
    rewrite <- (take_drop o (w_data w)) at 1. rewrite drop_app_le by (rewrite length_take; unfold L, len in *; lia).
    rewrite take_app_le by (rewrite length_drop, length_take; unfold L, len in *; lia). f_equal. lia.
  - rewrite !slice_ok by lia. cbn [res_bind]. rewrite drop_app_le by (rewrite Hpart; lia). rewrite drop_drop. do 2 f_equal.
    assert (Hl : length (drop (o + Z.to_nat from) (w_data w)) = Z.to_nat (L - w_off w - from)) by (rewrite length_drop; unfold L, len in *; lia).
    rewrite take_app_ge by lia. replace (Z.to_nat (from + w_off w)) with (o + Z.to_nat from)%nat by lia.
    rewrite take_ge by lia. f_equal. change (Z.to_nat 0) with 0%nat. rewrite drop_0, take_take. f_equal. lia.
  - rewrite slice_ok by lia. cbn [res_bind]. rewrite drop_app_le by (rewrite Hpart; lia). rewrite drop_drop. do 2 f_equal.
    rewrite take_app_le by (rewrite length_drop; unfold L, len in *; lia). f_equal; [|f_equal]; lia.
Qed.

(** The blocks of a frame, saved one after the other. *)
Fixpoint w_saves (w : window) (bufs : list bytes) : res window :=
  match bufs with
  | [] => Ok w
  | b :: bs => let? w := w_save w b in w_saves w bs
  end.

Lemma lastn_lastn {A} n (a b : list A) : lastn n (lastn n a ++ b) = lastn n (a ++ b).
Proof.
  unfold lastn. rewrite !length_app, length_drop. destruct (decide (length a <= n)%nat) as [Hl|Hl].
  { replace (length a - n)%nat with 0%nat by lia. rewrite drop_0. f_equal. lia. }
  set (m := (length a - n)%nat). assert (Ha : a ++ b = take m a ++ drop m a ++ b) by (by rewrite app_assoc, take_drop).
  rewrite Ha, (drop_app_ge (take m a)) by (rewrite length_take; lia). f_equal. rewrite length_take. lia.
Qed.

Lemma length_lastn {A} n (l : list A) : length (lastn n l) = (n `min` length l)%nat.
Proof. unfold lastn. rewrite length_drop. lia. Qed.

Lemma w_saves_spec bufs : forall w, wf_window w -> exists w', w_saves w bufs = Ok w' /\ wf_window w' /\ w_size w' = w_size w /\
  contents w' = lastn (Z.to_nat (w_size w)) (contents w ++ concat bufs).
Proof.
  induction bufs as [|b bs IH]; intros w Hw; cbn [w_saves concat].
  { exists w. pose proof (length_contents w Hw) as Hl. destruct Hw as (? & ? & ?). rewrite app_nil_r, lastn_all by (unfold len in *; lia). done. }
  destruct (w_save_spec w b Hw) as (w1 & -> & Hw1 & Hs1 & Hc1). cbn [res_bind].
  destruct (IH w1 Hw1) as (w2 & -> & Hw2 & Hs2 & Hc2). exists w2. rewrite Hc2, Hc1, Hs2, Hs1, lastn_lastn, app_assoc. done.
Qed.

(** C19: the circular buffer of window.go refines "the last [size] bytes": after
    any sequence of blocks is saved into a reset window, its length is the
    number of bytes saved, at most [size], and [appendTo] of any range within
    it appends exactly these bytes of the concatenation of the blocks, without
    a slice out of range, whichever way the buffer has wrapped around. *)
Theorem window_refines size bufs buf from to :
  0 <= size <= 2 ^ 23 -> 0 <= from <= to -> to <= Z.min size (len (concat bufs)) ->
  exists w, w_saves (w_reset size) bufs = Ok w /\ w_len w = Z.min size (len (concat bufs)) /\
    w_appendTo w buf from to =
      Ok (buf ++ take (Z.to_nat (to - from)) (drop (Z.to_nat from) (lastn (Z.to_nat size) (concat bufs)))).
Proof.
  intros Hs Hft Hto.
  assert (wf_window (w_reset size)) as Hw by (unfold wf_window, len; cbn; lia).
  destruct (w_saves_spec bufs _ Hw) as (w & He & Hw' & Hsz & Hc). change (contents (w_reset size)) with (@nil byte) in Hc.
  cbn [app w_size w_reset] in *. exists w. split; [done|].
  assert (len (w_data w) = Z.min size (len (concat bufs))) as Hl.
  { unfold len. rewrite <- (length_contents w Hw'), Hc, length_lastn. unfold len in *. lia. }
  split; [|rewrite w_appendTo_spec by (done || lia); by rewrite Hc]. unfold w_len, u32. rewrite Hl, Z.mod_small; [done|].
  pose proof (len_nonneg (concat bufs)). lia.
Qed.

(** Two blocks in a window of four bytes: the buffer has wrapped around. *)
Lemma window_refines_witness : exists w, w_saves (w_reset 4) [[x01; x02; x03]; [x04; x05]] = Ok w /\ w_appendTo w [x00] 1 4 = Ok [x00; x03; x04; x05].
Proof.
  destruct (window_refines 4 [[x01; x02; x03]; [x04; x05]] [x00] 1 4) as (w & Hw & _ & Ha); [lia|lia|vm_compute; congruence|].
  exists w. split; [exact Hw|]. rewrite Ha. reflexivity.
Defined.
