(* ===== verification/ZstdDecodeSafety.v ===== *)
(** The Zstandard decoder on arbitrary bytes, continued: the tables of the
    sequences, the copies from the window, the checksum, blocks and frames.
    [Decode] returns a value or an error whatever its input is, and its loops
    end within their fuel. *)

From Stdlib Require Import ZArith Lia.
From Stdlib Require Import Strings.Byte.
From stdpp Require Import base list gmap countable strings.
From S2P Require Import Prelude.
From S2P Require Import ZstdBits.
From S2P Require Import ZstdFse.
From S2P Require Import ZstdHuff.
From S2P Require Import ZstdReader.
From S2P Require Import ZstdSeqFacts.
From S2P Require Import ZstdSafety.
From S2P Require Import ZstdHuffSafety.
From S2P Require Import ZstdWindow.

Open Scope Z_scope.

(** * The tables of the sequences *)

(** An entry that leads to a state below [2 ^ bits] and describes values below
    [bound]. *)
Definition wf_baseline (bound bits : Z) (e : fseBaselineEntry) : Prop :=
  0 <= be_bits e <= 9 /\ 0 <= be_base e /\ be_base e + 2 ^ be_bits e <= 2 ^ bits /\
  0 <= be_basebits e <= 31 /\ 0 <= be_baseline e /\ be_baseline e + 2 ^ be_basebits e <= bound.

(** The values of the three codes. *)
Definition value_bound (kind : seqCode) : Z :=
  match kind with seqLiteral => 131072 | seqOffset => 2 ^ 32 | seqMatch => 131075 end.

Definition usable_table (kind : seqCode) (t : seqTable) : Prop :=
  0 <= snd t <= 9 /\ 2 ^ snd t <= len (fst t) /\ Forall (wf_baseline (value_bound kind) (snd t)) (fst t).

(** A table that is not set has no entries. *)
Definition wf_table (kind : seqCode) (t : seqTable) : Prop := fst t = [] \/ usable_table kind t.

Lemma predefined_tables kind : usable_table kind (ci_predefTable (seqCodeInfo kind), u8 (ci_predefTableBits (seqCodeInfo kind))).
Proof.
  assert (Hb : forall bound bits l, forallb (fun e => (0 <=? be_bits e) && (be_bits e <=? 9) && (0 <=? be_base e) &&
      (be_base e + 2 ^ be_bits e <=? 2 ^ bits) && (0 <=? be_basebits e) && (be_basebits e <=? 31) && (0 <=? be_baseline e) &&
      (be_baseline e + 2 ^ be_basebits e <=? bound)) l = true -> Forall (wf_baseline bound bits) l).
  { intros bound bits l Hl. apply Forall_forall. intros e He. apply list_elem_of_In in He. rewrite forallb_forall in Hl.
    specialize (Hl e He). cbv beta in Hl. rewrite !andb_true_iff, !Z.leb_le in Hl. unfold wf_baseline. lia. }
  destruct kind; (split; [vm_compute; split; congruence|]; split; [vm_compute; congruence|apply Hb; vm_compute; reflexivity]).
Qed.

Lemma packed_runs bits bases bound idx e :
  wf_entry bits e -> bits <= 9 -> 0 <= idx < len bases ->
  forallb (fun b => let bb := u8 (Z.shiftr b 24) in (bb <=? 31) && (Z.land b 0xffffff + 2 ^ bb <=? bound)) bases = true ->
  Runs (wf_baseline bound bits) (packed_baseline bases idx e).
Proof.
  intros (Hs & Hb & Hb0 & Hb1) H9 Hi Hall. unfold packed_baseline. eapply Runs_bind; [by apply Runs_index|]. intros b Hlk.
  rewrite forallb_forall in Hall. specialize (Hall b ltac:(by apply list_elem_of_In, list_elem_of_lookup_2 with (Z.to_nat idx))).
  cbv beta zeta in Hall. rewrite andb_true_iff, !Z.leb_le in Hall. unfold wf_baseline. cbn.
  assert (0 <= u8 (Z.shiftr b 24)) by (apply Z.mod_pos_bound; lia). assert (0 <= Z.land b 0xffffff) by (apply Z.land_nonneg; right; lia). lia.
Qed.

Lemma literal_baseline_runs bits e : wf_entry bits e -> bits <= 9 -> Runs (wf_baseline (value_bound seqLiteral) bits) (literal_baseline e).
Proof.
  intros Hw H9. pose proof Hw as (Hs & Hb & Hb0 & Hb1). unfold sym_ok in Hs. unfold literal_baseline, literalLengthOffset.
  destruct (Z.ltb_spec (fe_sym e) 16); [cbn; unfold wf_baseline; cbn; lia|]. destruct (Z.gtb_spec (fe_sym e) 35); [done|].
  apply packed_runs; try done. change (len literalLengthBase) with 20. lia.
Qed.

Lemma match_baseline_runs bits e : wf_entry bits e -> bits <= 9 -> Runs (wf_baseline (value_bound seqMatch) bits) (match_baseline e).
Proof.
  intros Hw H9. pose proof Hw as (Hs & Hb & Hb0 & Hb1). unfold sym_ok in Hs. unfold match_baseline, matchLengthOffset.
  destruct (Z.ltb_spec (fe_sym e) 32); [cbn; unfold wf_baseline; cbn; lia|]. destruct (Z.gtb_spec (fe_sym e) 52); [done|].
  apply packed_runs; try done. change (len matchLengthBase) with 21. lia.
Qed.

Lemma offset_baseline_runs bits e : wf_entry bits e -> bits <= 9 -> Runs (wf_baseline (value_bound seqOffset) bits) (offset_baseline e).
Proof.
  intros Hw H9. pose proof Hw as (Hs & Hb & Hb0 & Hb1). unfold sym_ok in Hs. unfold offset_baseline.
  destruct (Z.gtb_spec (fe_sym e) 31); [done|]. rewrite Z.shiftl_1_l. unfold wf_baseline. cbn -[Z.pow].
  assert (2 ^ fe_sym e <= 2 ^ 31) by (apply Z.pow_le_mono_r; lia). assert (0 < 2 ^ fe_sym e) by (apply Z.pow_pos_nonneg; lia).
  change (2 ^ 32) with (2 ^ 31 + 2 ^ 31). destruct (Z.geb_spec (fe_sym e) 2); [|lia].
  assert (2 ^ 2 <= 2 ^ fe_sym e) by (apply Z.pow_le_mono_r; lia). lia.
Qed.

Lemma toBaseline_runs kind bits t : Forall (wf_entry bits) t -> bits <= 9 ->
  Runs (fun bs => Forall (wf_baseline (value_bound kind) bits) bs /\ len bs = len t) (ci_toBaseline (seqCodeInfo kind) t).
Proof.
  intros Ht H9. assert (Hgen : forall f, (forall e, wf_entry bits e -> Runs (wf_baseline (value_bound kind) bits) (f e)) ->
    Runs (fun bs => Forall (wf_baseline (value_bound kind) bits) bs /\ len bs = len t) (to_baselines f t)).
  { intros f Hf. induction Ht as [|e t He _ IH]; [by split|]. cbn [to_baselines]. eapply Runs_bind; [by apply Hf|]. intros b Hb.
    eapply Runs_bind; [exact IH|]. intros bs [Hbs Hl]. cbn. split; [by constructor|]. rewrite !len_cons. lia. }
  destruct kind; apply Hgen; intros e He.
  - by apply literal_baseline_runs.
  - by apply offset_baseline_runs.
  - by apply match_baseline_runs.
Qed.

Section block.
Context (data : bytes) (Hdata : len data < 2 ^ 31).

Definition table_post (kind : seqCode) (x : Z * seqTable) : Prop := 0 <= fst x <= len data /\ usable_table kind (snd x).

(** A table that a block describes is usable, whichever way it is described. *)
Lemma setSeqTable_runs kind off mode old :
  0 <= off <= len data -> 0 <= mode <= 3 -> wf_table kind old -> Runs (table_post kind) (setSeqTable data off kind mode old).
Proof.
  intros Ho Hm Hold. assert (mode = 0 \/ mode = 1 \/ mode = 2 \/ mode = 3) as [-> | [-> | [-> | ->]]] by lia; unfold setSeqTable.
  - split; [done|]. apply predefined_tables.
  - destruct (Z.geb_spec off (len data)); [done|]. eapply Runs_bind; [apply Runs_index; lia|]. intros rle _. pose proof (b2z_range rle).
    eapply Runs_bind; [apply (toBaseline_runs kind 0); [|lia]|].
    { constructor; [|constructor]. unfold wf_entry, sym_ok. cbn. lia. }
    intros t [Ht Hl]. change (len [_]) with 1 in Hl. cbn. split; [cbn; lia|]. split; [cbn; lia|]. split; [cbn; lia|done].
  - assert (Hmb : 8 <= ci_maxBits (seqCodeInfo kind) <= 9 /\ 0 <= ci_maxSym (seqCodeInfo kind) <= 255) by (destruct kind; cbn; lia).
    rewrite Z.shiftl_1_l. eapply Runs_bind; [apply readFSE_runs; try done; try lia|].
    + apply zero_table.
    + intros k Hk. rewrite len_replicate. rewrite Z2Nat.id by (apply Z.pow_nonneg; lia). apply Z.pow_le_mono_r; lia.
    + intros [[bits roff] t] (Hb & Hr & [Hs Hn] & Hl). rewrite len_replicate, Z2Nat.id in Hl by (apply Z.pow_nonneg; lia).
      rewrite Z.shiftl_1_l. assert (2 ^ bits <= 2 ^ ci_maxBits (seqCodeInfo kind)) by (apply Z.pow_le_mono_r; lia).
      assert (0 < 2 ^ bits) by (apply Z.pow_pos_nonneg; lia).
      eapply Runs_bind; [apply Runs_slice; lia|]. intros s [-> Hls].
      eapply Runs_bind; [apply (toBaseline_runs kind bits); [|lia]|].
      { change (Z.to_nat 0) with 0%nat. rewrite drop_0, Z.sub_0_r. apply Forall_lookup. intros i e Hi.
        apply lookup_take_Some in Hi as [Hi Hlt]. apply (Hn i); [lia|done]. }
      intros bs [Hbs Hlb]. assert (u8 bits = bits) as Hu by (apply Z.mod_small; change (2 ^ 8) with 256; lia).
      cbn. rewrite Hu. split; [cbn; lia|split; [cbn; lia|split; [cbn; lia|done]]].
  - destruct (Z.eqb_spec (len (fst old)) 0) as [Hz|Hz]; [done|]. split; [done|]. destruct Hold as [He|Hu]; [|done]. by rewrite He in Hz.
Qed.

Definition wf_tables (t : seqTables) : Prop :=
  wf_table seqLiteral (st_literal t) /\ wf_table seqOffset (st_offset t) /\ wf_table seqMatch (st_match t).

Definition usable_tables (t : seqTables) : Prop :=
  usable_table seqLiteral (st_literal t) /\ usable_table seqOffset (st_offset t) /\ usable_table seqMatch (st_match t).

Lemma read_seq_count_runs off h : 0 <= off <= len data -> Runs (fun x : Z * Z => 0 <= snd x) (read_seq_count data off h).
Proof.
  intros Ho. unfold read_seq_count. destruct (h <? 128); [cbn; lia|]. destruct (h <? 255).
  - destruct (Z.geb_spec off (len data)); [done|]. eapply Runs_bind; [apply Runs_index; lia|]. intros a _. cbn. lia.
  - destruct (Z.geb_spec (off + 1) (len data)); [done|]. eapply Runs_bind; [apply Runs_index; lia|]. intros a _.
    eapply Runs_bind; [apply Runs_index; lia|]. intros b _. cbn. lia.
Qed.

Lemma land_3_range x : 0 <= Z.land x 3 <= 3.
Proof. assert (Z.land x 3 = x mod 4) as -> by (exact (Z.land_ones x 2 ltac:(lia))). pose proof (Z.mod_pos_bound x 4 ltac:(lia)). lia. Qed.

Lemma initSeqs_runs off t : 0 <= off -> wf_tables t ->
  Runs (fun x : Z * Z * seqTables => let '(n, off', t') := x in 0 <= off' <= len data /\ wf_tables t' /\ (n <> 0 -> usable_tables t'))
    (initSeqs data off t).
Proof.
  intros Ho (Hl & Hof & Hm). unfold initSeqs. destruct (Z.geb_spec off (len data)); [done|]. eapply Runs_bind; [apply Runs_index; lia|]. intros h _.
  destruct (b2z h =? 0); [cbn; split; [lia|by split]|].
  eapply Runs_bind; [apply read_seq_count_runs; lia|]. intros [n off1] Ho1. cbn [snd] in Ho1.
  destruct (Z.geb_spec off1 (len data)); [done|]. eapply Runs_bind; [apply Runs_index; lia|]. intros s _.
  destruct (negb _); [done|].
  eapply Runs_bind; [apply (setSeqTable_runs seqLiteral); [lia|apply land_3_range|done]|]. intros l [Hl1 Hl2].
  eapply Runs_bind; [apply (setSeqTable_runs seqOffset); [lia|apply land_3_range|done]|]. intros o [Ho2 Ho3].
  eapply Runs_bind; [apply (setSeqTable_runs seqMatch); [lia|apply land_3_range|done]|]. intros m [Hm1 Hm2]. cbn.
  split; [done|]. unfold wf_tables, usable_tables, wf_table. cbn. auto.
Qed.

(** * Executing the sequences *)

Lemma copy_loop_runs fuel buffer bo m :
  0 <= bo < len buffer \/ m <= 0 -> len buffer + Z.max m 0 < 2 ^ 31 -> m <= Z.of_nat fuel ->
  Runs (fun b => len b = len buffer + Z.max m 0) (copy_loop fuel buffer bo m).
Proof.
  revert buffer m. induction fuel as [|fuel IH]; intros buffer m Hbo Hlen Hf; cbn [copy_loop];
    (destruct (Z.gtb_spec m 0); cbn [negb]; [|cbn; lia]); [lia|].
  destruct Hbo as [Hbo|]; [|lia]. unfold u32. rewrite (Z.mod_small (len buffer)), (Z.mod_small (len buffer - bo)) by lia.
  set (c := if len buffer - bo >? m then m else len buffer - bo). assert (1 <= c <= m /\ c <= len buffer - bo) as Hc.
  { unfold c. destruct (Z.gtb_spec (len buffer - bo) m); lia. }
  rewrite (Z.mod_small (bo + c)) by lia. eapply Runs_bind; [apply Runs_slice; lia|]. intros p [_ Hp].
  eapply Runs_mono; [apply IH; rewrite ?len_app; lia|]. cbn. intros b. rewrite len_app. lia.
Qed.

Lemma copyFromWindow_runs w buffer offset m :
  wf_window w -> 0 <= offset -> 0 < m <= 2 ^ 18 -> len buffer <= 2 ^ 18 ->
  Runs (fun b => len b = len buffer + m) (copyFromWindow w buffer offset m).
Proof.
  intros Hw Ho Hm Hb. pose proof Hw as (Hs & Hd & Hoff & _). pose proof (len_nonneg buffer). unfold copyFromWindow.
  destruct (Z.eqb_spec offset 0); [done|]. unfold w_len, u32. rewrite !(Z.mod_small (len buffer)) by lia.
  rewrite (Z.mod_small (len (w_data w))) by lia. destruct (Z.ltb_spec (len buffer) offset).
  - destruct (Z.gtb_spec (offset - len buffer) (len (w_data w))); [done|].
    set (c := if offset - len buffer >? m then m else offset - len buffer). assert (1 <= c <= m /\ c <= offset - len buffer) as Hc.
    { unfold c. destruct (Z.gtb_spec (offset - len buffer) m); lia. }
    rewrite (Z.mod_small (_ + c)) by lia.
    rewrite w_appendTo_spec by (done || lia). cbn [res_bind].
    set (part := take _ _). assert (len part = c) as Hp.
    { unfold part. pose proof (length_contents w Hw). unfold len in *. rewrite length_take, length_drop. lia. }
    eapply Runs_mono; [apply copy_loop_runs; rewrite ?len_app; lia|]. cbn. intros b. rewrite len_app. lia.
  - eapply Runs_mono; [apply copy_loop_runs; lia|]. cbn. lia.
Qed.

Definition wf_rep (rep : recents) : Prop := let '(r1, r2, r3) := rep in 0 <= r1 /\ 0 <= r2 /\ 0 <= r3.

Lemma resolve_wf basebits offset literal rep : 0 <= offset -> wf_rep rep ->
  0 <= fst (resolve_offset basebits offset literal rep) /\ wf_rep (snd (resolve_offset basebits offset literal rep)).
Proof.
  intros Ho. destruct rep as [[r1 r2] r3]. intros (H1 & H2 & H3). unfold resolve_offset. destruct (basebits >? 1); [done|].
  assert (0 <= u32 (r1 - 1)) by (apply Z.mod_pos_bound; lia). assert (0 <= u32 (offset + 1)) by (apply Z.mod_pos_bound; lia).
  set (o := if literal =? 0 then _ else _). assert (0 <= o) as Hoo by (unfold o; destruct (literal =? 0); lia). clearbody o.
  destruct o as [|[[p|p|]|[[]|[]|]|]|]; cbn -[u32]; done || lia.
Qed.

Lemma next_state_runs bound bits rbr e : wf_baseline bound bits e -> 0 <= bits <= 9 -> wf_rb data rbr ->
  Runs (fun x : Z * reverseBitReader => 0 <= fst x < 2 ^ bits /\ wf_rb data (snd x)) (next_state rbr e).
Proof.
  intros (Hb & Hb0 & Hb1 & _) Hbits Hr. unfold next_state. eapply Runs_bind; [apply (rb_val_runs data); try done; lia|].
  intros [v r] [Hv Hr']. cbn in *. split; [|done]. assert (2 ^ bits <= 2 ^ 9) by (apply Z.pow_le_mono_r; lia).
  unfold u32. rewrite Z.mod_small; [lia|]. change (2 ^ 9) with 512 in *. lia.
Qed.

(** The variables of the loop: the states are within their tables. *)
Definition wf_exec (t : seqTables) (x : execState) : Prop :=
  wf_rb data (x_rbr x) /\ wf_rep (x_rep x) /\ 0 <= x_literalState x < 2 ^ snd (st_literal t) /\
  0 <= x_offsetState x < 2 ^ snd (st_offset t) /\ 0 <= x_matchState x < 2 ^ snd (st_match t) /\
  len (x_buffer x) + len (x_litbuf x) <= 2 ^ 19.

Lemma field_runs kind t s : usable_table kind t -> 0 <= s < 2 ^ snd t -> Runs (wf_baseline (value_bound kind) (snd t)) (index (fst t) s).
Proof. intros (Hb & Hl & Hf) Hs. apply Runs_index_Forall; [done|lia]. Qed.

(** A value of a code. *)
Lemma value_runs kind bits e rbr : wf_baseline (value_bound kind) bits e -> wf_rb data rbr ->
  Runs (fun x : Z * reverseBitReader => 0 <= u32 (be_baseline e + fst x) < value_bound kind /\ wf_rb data (snd x)) (rb_val rbr (be_basebits e)).
Proof.
  intros (_ & _ & _ & Hb & Hb0 & Hb1) Hr. eapply Runs_mono; [apply (rb_val_runs data); try done; lia|].
  intros [v r] [Hv Hr']. cbn in *. split; [|done]. assert (value_bound kind <= 2 ^ 32) by (destruct kind; cbn; lia).
  unfold u32. rewrite Z.mod_small by lia. lia.
Qed.

Lemma exec_one_runs t w last x : usable_tables t -> wf_window w -> wf_exec t x -> Runs (wf_exec t) (exec_one t w last x).
Proof.
  intros (Hl & Hof & Hm) Hw (Hr & Hrep & Hls & Hos & Hms & _). unfold exec_one. change (Z.shiftl 128 10) with (2 ^ 17).
  destruct (Z.gtb_spec (len (x_buffer x) + len (x_litbuf x)) (2 ^ 17)); [done|].
  eapply Runs_bind; [by apply (field_runs seqOffset)|]. intros po Hpo.
  eapply Runs_bind; [by apply (field_runs seqMatch)|]. intros pm Hpm.
  eapply Runs_bind; [by apply (field_runs seqLiteral)|]. intros pl Hpl.
  eapply Runs_bind; [by eapply (value_runs seqOffset)|]. intros [vo r1] [Ho Hr1]. cbn [fst snd] in *.
  eapply Runs_bind; [by eapply (value_runs seqMatch)|]. intros [vm r2] [Hvm Hr2]. cbn [fst snd] in *.
  eapply Runs_bind; [by eapply (value_runs seqLiteral)|]. intros [vl r3] [Hvl Hr3]. cbn [fst snd value_bound] in *.
  set (offset := u32 (be_baseline po + vo)) in *. set (match_ := u32 (be_baseline pm + vm)) in *. set (literal := u32 (be_baseline pl + vl)) in *.
  destruct (resolve_wf (be_basebits po) offset literal (x_rep x) ltac:(lia) Hrep) as [Ho' Hrep'].
  destruct (resolve_offset _ _ _ _) as [offset' rep']. cbn [fst snd] in *.
  eapply Runs_bind with (P := fun s : Z * Z * Z * reverseBitReader => let '(ls, ms, os, r) := s in
    0 <= ls < 2 ^ snd (st_literal t) /\ 0 <= ms < 2 ^ snd (st_match t) /\ 0 <= os < 2 ^ snd (st_offset t) /\ wf_rb data r).
  { destruct last; [done|]. destruct Hl as (Hlb & _), Hof as (Hob & _), Hm as (Hmb & _).
    eapply Runs_bind; [by eapply next_state_runs|]. intros l [? ?]. eapply Runs_bind; [by eapply next_state_runs|]. intros m [? ?].
    eapply Runs_bind; [by eapply next_state_runs|]. intros o [? ?]. done. }
  intros [[[ls ms] os] r4] (Hls' & Hms' & Hos' & Hr4). destruct (Z.gtb_spec literal (len (x_litbuf x))); [done|].
  eapply Runs_bind; [apply Runs_slice; lia|]. intros lit [_ Hlit]. eapply Runs_bind; [apply Runs_slice; lia|]. intros lb [_ Hlb].
  pose proof (len_nonneg (x_litbuf x)). pose proof (len_nonneg (x_buffer x)).
  eapply Runs_bind with (P := fun b => len b = len (x_buffer x ++ lit) + Z.max 0 match_).
  { destruct (Z.gtb_spec match_ 0); [|cbn; lia].
    eapply Runs_mono; [apply copyFromWindow_runs; rewrite ?len_app; done || lia|]. cbn. lia. }
  intros b Hb. rewrite len_app in Hb. split_and!; try done; cbn; lia.
Qed.

Lemma exec_loop_runs n t w x : usable_tables t -> wf_window w -> wf_exec t x -> Runs (wf_exec t) (exec_loop n t w x).
Proof.
  intros Ht Hw. revert x. induction n as [|n IH]; intros x Hx; [done|]. cbn [exec_loop].
  eapply Runs_bind; [by apply exec_one_runs|]. intros x' Hx'. by apply IH.
Qed.

Definition rep_buffer (x : recents * bytes) : Prop := wf_rep (fst x) /\ len (snd x) <= 2 ^ 19.

Lemma execSeqs_runs t w rep off litbuf n :
  usable_tables t -> wf_window w -> wf_rep rep -> 0 < len data -> len litbuf <= 2 ^ 17 ->
  Runs rep_buffer (execSeqs t w rep data off litbuf n).
Proof.
  intros Ht Hw Hrep Hd Hlit. pose proof Ht as ((Hl & _) & (Ho & _) & (Hm & _)). unfold execSeqs.
  eapply Runs_bind; [apply makeReverse_runs; lia|]. intros rbr Hr.
  eapply Runs_bind; [apply (rb_val_runs data); try done; lia|]. intros l [Hl1 Hl2].
  eapply Runs_bind; [apply (rb_val_runs data); try done; lia|]. intros o [Ho1 Ho2].
  eapply Runs_bind; [apply (rb_val_runs data); try done; lia|]. intros m [Hm1 Hm2].
  eapply Runs_bind; [apply exec_loop_runs; try done|].
  { unfold wf_exec. cbn. change (len []) with 0. split_and!; try done; try lia. }
  intros x (_ & Hrx & _ & _ & _ & Hlen). destruct (negb _); [done|]. split; [done|]. cbn. rewrite len_app. lia.
Qed.
End block.

(** * The checksum *)

(** The buffer of a partial stripe. *)
Definition wf_xh (xh : xxhash64) : Prop := len (xh_buf xh) = 32 /\ 0 <= xh_cnt xh < 32.

Lemma copy_at_runs dst i src : 0 <= i <= len dst ->
  Runs (fun x : bytes * Z => len (fst x) = len dst /\ snd x = Z.min (len dst - i) (len src)) (copy_at dst i src).
Proof.
  intros Hi. rewrite copy_at_ok by done. cbn. split; [|done]. unfold len in *. rewrite !length_app, !length_take, length_drop. lia.
Qed.

Lemma le_at_runs n b i : 0 <= i -> i + Z.of_nat n <= len b -> Runs (fun _ => True) (le_at n b i).
Proof. intros Hi Hl. unfold le_at. eapply Runs_bind; [apply Runs_slice; lia|]. done. Qed.

Lemma xh_stripe_runs v b : 32 <= len b -> Runs (fun _ => True) (xh_stripe v b).
Proof.
  intros Hl. destruct v as [[[v0 v1] v2] v3]. unfold xh_stripe. do 4 (eapply Runs_bind; [apply le_at_runs; lia|intros ? _]). done.
Qed.

Lemma xh_stripes_runs fuel v b : len b < Z.of_nat fuel -> Runs (fun x => len (snd x) < 32) (xh_stripes fuel v b).
Proof.
  revert v b. induction fuel as [|fuel IH]; intros v b Hf; [pose proof (len_nonneg b); lia|]. cbn [xh_stripes].
  destruct (Z.geb_spec (len b) 32); [|cbn; lia]. eapply Runs_bind; [by apply xh_stripe_runs|]. intros v' _.
  eapply Runs_bind; [apply Runs_slice; lia|]. intros b' [_ Hb']. apply IH. lia.
Qed.

Lemma xh_update_runs xh b : wf_xh xh -> Runs wf_xh (xh_update xh b).
Proof.
  intros [Hb Hc]. pose proof (len_nonneg b). unfold xh_update. destruct (Z.ltb_spec (xh_cnt xh + len b) 32).
  { eapply Runs_bind; [apply copy_at_runs; lia|]. intros [d n] [Hd _]. cbn in *. split; cbn; lia. }
  eapply Runs_bind with (P := fun x : Z * Z * Z * Z * bytes * Z * bytes => let '(_, buf, cnt, _) := x in len buf = 32 /\ 0 <= cnt < 32).
  { destruct (Z.gtb_spec (xh_cnt xh) 0); [|done]. eapply Runs_bind; [apply copy_at_runs; lia|]. intros [d n] [Hd Hn]. cbn [fst snd] in *.
    eapply Runs_bind; [apply Runs_slice; lia|]. intros b' _. eapply Runs_bind; [apply xh_stripe_runs; lia|]. intros v _. cbn. lia. }
  intros [[[v buf] cnt] b'] [Hbuf Hcnt]. eapply Runs_bind; [apply xh_stripes_runs; unfold len; lia|]. intros [v' b2] Hb2. cbn [snd] in Hb2.
  destruct (Z.gtb_spec (len b2) 0); [|by split]. eapply Runs_bind; [apply copy_at_runs; lia|]. intros [d n] [Hd _]. cbn in *. split; cbn; lia.
Qed.

Lemma digest_words_runs fuel h n buf : 0 <= n <= len buf -> n < 8 * Z.of_nat fuel ->
  Runs (fun x : Z * Z * bytes => let '(_, n', buf') := x in 0 <= n' <= len buf') (digest_words fuel h n buf).
Proof.
  revert h n buf. induction fuel as [|fuel IH]; intros h n buf Hn Hf; [lia|]. cbn [digest_words].
  destruct (Z.geb_spec n 8); [|done]. eapply Runs_bind; [apply le_at_runs; lia|]. intros w _.
  eapply Runs_bind; [apply Runs_slice; lia|]. intros b' [_ Hb']. apply IH; lia.
Qed.

Lemma digest_bytes_runs n h buf : Z.of_nat n <= len buf -> Runs (fun _ => True) (digest_bytes n h buf).
Proof.
  revert h buf. induction n as [|n IH]; intros h buf Hn; [done|]. cbn [digest_bytes]. eapply Runs_bind; [apply Runs_index; lia|]. intros b _.
  eapply Runs_bind; [apply Runs_slice; lia|]. intros b' [_ Hb']. apply IH. lia.
Qed.

Lemma xh_digest_runs xh : wf_xh xh -> Runs (fun _ => True) (xh_digest xh).
Proof.
  intros [Hb _]. unfold xh_digest. destruct (xh_v xh) as [[[v0 v1] v2] v3]. cbv zeta. set (h := u64 (_ + xh_len xh)). clearbody h.
  assert (0 <= Z.land (xh_len xh) 31 < 32) as Hn.
  { assert (Z.land (xh_len xh) 31 = xh_len xh mod 32) as -> by (exact (Z.land_ones _ 5 ltac:(lia))). apply Z.mod_pos_bound. lia. }
  eapply Runs_bind; [apply digest_words_runs; lia|]. intros [[h1 n1] b1] H1.
  eapply Runs_bind with (P := fun x : Z * Z * bytes => let '(_, n', buf') := x in 0 <= n' <= len buf').
  { destruct (Z.geb_spec n1 4); [|done]. eapply Runs_bind; [apply le_at_runs; lia|]. intros w _.
    eapply Runs_bind; [apply Runs_slice; lia|]. intros b' [_ Hb']. cbn. lia. }
  intros [[h2 n2] b2] H2. eapply Runs_bind; [apply digest_bytes_runs; lia|]. done.
Qed.

(** * Blocks and frames *)

Definition wf_reader (r : Reader) : Prop :=
  wf_huffman (r_huffman r) /\ wf_window (r_window r) /\ wf_tables (r_seqTables r) /\ wf_rep (r_repeatedOffsets r) /\ wf_xh (r_checksum r).

(** The reader after a step that leaves at least [n] bytes less. *)
Definition consumed (n : Z) (input : bytes) (r : Reader) : Prop := wf_reader r /\ len (r_r r) + n <= len input.

Lemma read_or_eof_runs input n : 0 <= n ->
  Runs (fun x : bytes * bytes => len (fst x) = n /\ len (snd x) = len input - n) (read_or_eof input n).
Proof.
  intros Hn. unfold read_or_eof, read_full. destruct (Z.eqb_spec n 0) as [->|]; [cbn; change (len []) with 0; lia|].
  destruct (len input =? 0); [done|]. destruct (Z.ltb_spec (len input) n); [done|]. cbn. unfold len in *. rewrite length_take, length_drop. lia.
Qed.

Lemma compressedBlock_runs r size : wf_reader r -> 0 <= size < 2 ^ 31 ->
  Runs (fun r' => consumed 0 (r_r r) r' /\ len (r_buffer r') <= 2 ^ 19) (compressedBlock r size).
Proof.
  intros (Hh & Hw & Ht & Hrep & Hx) Hs. unfold compressedBlock. eapply Runs_bind; [apply read_or_eof_runs; lia|].
  intros [data input] [Hd Hi]. cbn [fst snd] in *. eapply Runs_bind; [apply (readLiterals_runs data); [lia|done]|].
  intros [[off lits] h] (Ho & Hl & Hh'). eapply Runs_bind; [apply (initSeqs_runs data); [lia|lia|done]|].
  intros [[n off'] t] (Ho' & Ht' & Hu). eapply Runs_bind with (P := rep_buffer).
  { destruct (Z.eqb_spec n 0) as [->|Hn].
    - destruct (off' <? len data); [done|]. split; cbn; [done|lia].
    - apply (execSeqs_runs data); try done; [lia|by apply Hu|lia]. }
  intros [rep b] [Hr Hb]. split; [|done]. split; [by split_and!|]. cbn. lia.
Qed.

Lemma block_content_runs r input ty size : wf_reader r -> 0 <= size < 2 ^ 31 ->
  Runs (consumed 0 input) (block_content r input ty size).
Proof.
  intros Hr Hs. unfold block_content. destruct ty as [|[p|[p|p|]|]|p]; try done.
  - eapply Runs_bind; [apply read_or_eof_runs; lia|]. intros [b i] [Hb Hi]. split; [done|]. cbn in *. lia.
  - eapply Runs_mono; [apply (compressedBlock_runs (with_buffer r input (r_buffer r))); done|]. by intros r' [? _].
  - eapply Runs_bind; [apply read_or_eof_runs; lia|]. intros [b i] [Hb Hi]. cbn [fst snd] in *.
    eapply Runs_bind; [apply Runs_index; lia|]. intros v _. split; [done|]. cbn. lia.
Qed.

Lemma end_frame_runs r : wf_reader r -> Runs (consumed 0 (r_r r)) (end_frame r).
Proof.
  intros Hr. pose proof Hr as (Hh & Hw & Ht & Hrep & Hx). unfold end_frame. destruct (_ && _); [done|].
  eapply Runs_bind with (P := fun i : bytes => len i <= len (r_r r)).
  { destruct (r_hasChecksum r); [|cbn; lia]. eapply Runs_bind; [apply read_or_eof_runs; lia|]. intros [c i] [Hc Hi].
    eapply Runs_bind; [by apply xh_digest_runs|]. intros h _. destruct (negb _); [done|]. cbn in *. lia. }
  intros i Hi. split; [done|]. cbn. lia.
Qed.

Lemma after_content_runs r last : wf_reader r -> Runs (consumed 0 (r_r r)) (after_content r last).
Proof.
  intros (Hh & Hw & Ht & Hrep & Hx). unfold after_content. destruct (_ && _); [done|]. cbv zeta.
  eapply Runs_bind with (P := wf_xh). { destruct (r_hasChecksum r); [by apply xh_update_runs|done]. }
  intros cs Hcs. destruct last; cbn [negb].
  - match goal with |- Runs _ (end_frame ?r1) => apply (end_frame_runs r1) end. by split_and!.
  - cbn [r_window r_buffer]. destruct (w_save_spec (r_window r) (r_buffer r) Hw) as (w & -> & Hw' & _). cbn [res_bind].
    split; [by split_and!|]. cbn. lia.
Qed.

(** A block takes at least its header. *)
Lemma readBlock_runs r : wf_reader r -> Runs (consumed 3 (r_r r)) (readBlock r).
Proof.
  intros Hr. unfold readBlock. eapply Runs_bind; [apply read_or_eof_runs; lia|]. intros [hd i] [_ Hi]. cbn [fst snd] in *.
  set (size := Z.shiftr (le_value hd) 3). assert (0 <= size) as Hs.
  { apply Z.shiftr_nonneg. pose proof (le_value_bound hd). lia. }
  change (Z.shiftl 128 10) with (2 ^ 17). destruct (Z.gtb_spec size (2 ^ 17)); [done|]. cbn [orb]. destruct (_ && _); [done|].
  eapply Runs_bind; [apply block_content_runs; [done|lia]|]. intros r1 [Hr1 Hl1].
  eapply Runs_mono; [by apply after_content_runs|]. intros r2 [Hr2 Hl2]. split; [done|]. lia.
Qed.

Lemma descriptor_sizes d :
  0 <= (if Z.land d 3 =? 0 then 0 else Z.shiftl 1 (Z.land d 3 - 1)) /\ 0 <= Z.shiftl 1 (Z.shiftr d 6).
Proof. split; [destruct (_ =? 0)|]; rewrite ?Z.shiftl_1_l; lia || (apply Z.pow_nonneg; lia). Qed.

Lemma read_descriptor_runs r input : wf_reader r -> Runs (consumed 1 input) (read_descriptor r input).
Proof.
  intros (Hh & Hw & Ht & Hrep & Hx). unfold read_descriptor. eapply Runs_bind; [apply read_or_eof_runs; lia|]. intros [db i1] [Hdb Hi1].
  cbn [fst snd] in *. eapply Runs_bind; [apply Runs_index; lia|]. intros d _. cbv zeta.
  destruct (descriptor_sizes (b2z d)) as [Hdict Hfcs].
  set (single := negb (Z.land (b2z d) (Z.shiftl 1 5) =? 0)).
  set (fcs := if (Z.shiftl 1 (Z.shiftr (b2z d) 6) =? 1) && negb single then 0 else Z.shiftl 1 (Z.shiftr (b2z d) 6)).
  assert (0 <= fcs) as Hf by (unfold fcs; destruct (_ && _); lia). clearbody fcs.
  set (dict := if Z.land (b2z d) 3 =? 0 then 0 else _) in *. clearbody dict.
  destruct (negb (Z.land (b2z d) (Z.shiftl 1 3) =? 0)); [done|]. eapply Runs_bind; [apply read_or_eof_runs; destruct single; lia|].
  intros [hd i2] [Hhd Hi2]. cbn [fst snd] in *.
  eapply Runs_bind with (P := fun ws => 0 <= ws).
  { destruct single; [cbn; lia|]. eapply Runs_bind; [apply Runs_index; lia|]. intros wd _. cbn.
    pose proof (b2z_range wd). assert (0 <= Z.land (b2z wd) 7) by (apply Z.land_nonneg; right; lia).
    rewrite Z.shiftl_1_l. assert (0 <= 2 ^ (Z.shiftr (b2z wd) 3 + 10)) by (apply Z.pow_nonneg; lia).
    assert (0 <= 2 ^ (Z.shiftr (b2z wd) 3 + 10) / 8) by (apply Z.div_pos; lia). nia. }
  intros ws Hws. eapply Runs_bind; [apply Runs_slice; destruct single; lia|]. intros did _. destruct (existsb _ _); [done|].
  eapply Runs_bind; [apply Runs_slice; destruct single; lia|]. intros fb _.
  set (rem := if fcs =? 2 then 256 + le_value fb else le_value fb).
  assert (0 <= rem) as Hrem by (unfold rem; pose proof (le_value_bound fb); destruct (fcs =? 2); lia). clearbody rem.
  change (Z.shiftl 8 20) with (2 ^ 23). split.
  - split_and!; cbn [r_huffman r_window r_seqTables r_repeatedOffsets r_checksum].
    + destruct Hh as [Hh _]. split; [exact Hh|by left].
    + unfold wf_window, w_reset. cbn. change (len []) with 0. destruct single; lia.
    + by split_and!; left.
    + cbn. lia.
    + match goal with |- wf_xh (if ?b then _ else _) => destruct b end; [split; [reflexivity|cbn; lia]|done].
  - cbn. destruct single; lia.
Qed.

(** As [Runs], where the end of the input is an expected error. *)
Definition Safe {A} (P : A -> Prop) (m : res A) : Prop :=
  match m with
  | Ok a => P a
  | Err _ => True
  | Panic => False
  end.

Lemma Runs_Safe {A} (P : A -> Prop) m : Runs P m -> Safe P m.
Proof. by destruct m. Qed.

Lemma Safe_bind {A B} (P : A -> Prop) (Q : B -> Prop) m (f : A -> res B) :
  Safe P m -> (forall a, P a -> Safe Q (f a)) -> Safe Q (res_bind m f).
Proof. intros Hm Hf. destruct m; cbn in *; auto. Qed.

Lemma Safe_mono {A} (P Q : A -> Prop) m : Safe P m -> (forall a, P a -> Q a) -> Safe Q m.
Proof. intros Hm Hpq. destruct m; cbn in *; auto. Qed.

Lemma skipFrame_runs input : Runs (fun i => len i + 4 <= len input) (skipFrame input).
Proof.
  unfold skipFrame. eapply Runs_bind; [apply read_or_eof_runs; lia|]. intros [hd i] [_ Hi]. cbn [fst snd] in *.
  destruct (_ =? 0); [cbn; lia|]. destruct (_ <? _); [done|]. cbn. unfold len in *. rewrite length_drop. lia.
Qed.

Lemma readFrameHeader_safe fuel one r input : wf_reader r -> len input < Z.of_nat fuel ->
  Safe (consumed 5 input) (readFrameHeader fuel one r input).
Proof.
  intros Hr. revert one input. induction fuel as [|fuel IH]; intros one input Hf; [pose proof (len_nonneg input); lia|]. cbn [readFrameHeader].
  pose proof (read_or_eof_runs input 4 ltac:(lia)) as Hrd. unfold read_or_eof in Hrd. destruct (read_full input 4) as [[m i]|e|].
  - destruct Hrd as [_ Hi]. cbn [snd] in Hi. destruct (negb _).
    + destruct (_ && _); [|done]. eapply Safe_bind; [apply Runs_Safe, skipFrame_runs|]. intros i' Hi'. cbv beta in Hi'.
      eapply Safe_mono; [apply IH; lia|]. intros r' [Hr' Hl]. split; [done|]. lia.
    + eapply Safe_mono; [by apply Runs_Safe, read_descriptor_runs|]. intros r' [Hr' Hl]. split; [done|]. lia.
  - by destruct (_ && _).
  - done.
Qed.

Lemma refill_safe r : wf_reader r -> Safe (consumed 3 (r_r r)) (refill r).
Proof.
  intros Hr. unfold refill. eapply Safe_bind with (P := consumed 0 (r_r r)).
  { destruct (r_sawFrameHeader r); [split; [done|lia]|]. eapply Safe_mono; [apply readFrameHeader_safe; [done|unfold len; lia]|].
    intros r' [Hr' Hl]. split; [done|lia]. }
  intros r1 [Hr1 Hl1]. eapply Safe_mono; [by apply Runs_Safe, readBlock_runs|]. intros r2 [Hr2 Hl2]. split; [done|lia].
Qed.

Lemma read_all_safe fuel r limit out : wf_reader r -> len (r_r r) < Z.of_nat fuel -> Safe (fun _ => True) (read_all fuel r limit out).
Proof.
  revert r out. induction fuel as [|fuel IH]; intros r out Hr Hf; [pose proof (len_nonneg (r_r r)); lia|]. cbn [read_all].
  destruct (_ >=? _); [done|]. pose proof (refill_safe r Hr) as Hs. destruct (refill r) as [r'|e|]; [|by destruct (bool_decide _)|done].
  destruct Hs as [Hr' Hl]. apply IH; [done|]. lia.
Qed.

Lemma NewReader_wf src : wf_reader (NewReader src).
Proof.
  split_and!; cbn.
  - split; [done|by left].
  - unfold wf_window, w_reset. cbn. change (len []) with 0. lia.
  - by split_and!; left.
  - lia.
  - split; [reflexivity|cbn; lia].
Qed.

(** C18: the reader stays well formed.  From a reader whose Huffman table, window,
    sequence tables, repeated offsets and checksum buffer are well formed,
    [refill] leads to such a reader again, whatever the block describes, or
    reports an error; every state of a table then leads to states of the same
    table, and at least the three bytes of a block header are consumed. *)
Theorem zstd_reader_invariant r : wf_reader r ->
  match refill r with
  | Ok r' => wf_reader r' /\ len (r_r r') + 3 <= len (r_r r)
  | Err _ => True
  | Panic => False
  end.
Proof. exact (refill_safe r). Qed.

(** A frame with one raw block of one byte. *)
Definition one_byte_frame : bytes := map z2b [0x28; 0xb5; 0x2f; 0xfd; 0x20; 0x01; 0x09; 0x00; 0x00; 0x61].

Lemma zstd_reader_invariant_witness :
  exists r, refill (NewReader one_byte_frame) = Ok r /\ r_buffer r = [x61] /\ wf_reader r /\ len (r_r r) + 3 <= len one_byte_frame.
Proof.
  pose proof (zstd_reader_invariant (NewReader one_byte_frame) (NewReader_wf one_byte_frame)) as Hinv.
  destruct (refill (NewReader one_byte_frame)) as [r| |] eqn:Hr; [|discriminate Hr|discriminate Hr].
  exists r. split; [reflexivity|]. split; [|exact Hinv]. vm_compute in Hr. injection Hr as <-. reflexivity.
Defined.

Lemma Decode_no_panic src maxSize : Decode src maxSize <> Panic.
Proof.
  unfold Decode. destruct (_ =? 0); [done|]. destruct (negb _); [done|].
  pose proof (read_all_safe (S (length src)) (NewReader src) (s64 (maxSize + 1)) [] (NewReader_wf src)) as Hs.
  destruct (read_all _ _ _ _) as [out|e|]; [by destruct (_ >? _)|done|]. exfalso. apply Hs. cbn. unfold len. lia.
Qed.

(** C17: [Decode] is total: on arbitrary bytes and under any limit it returns
    the decompressed bytes or an error.  No index, slice or shift of the bit
    readers, the FSE and Huffman tables, the sequence execution, the circular
    window, the checksum or the frame and block headers is out of range, and
    every loop ends, since a round of the outer one takes at least three
    bytes of the input. *)
Theorem zstd_decode_total src maxSize : (exists out, Decode src maxSize = Ok out) \/ (exists e, Decode src maxSize = Err e).
Proof. pose proof (Decode_no_panic src maxSize). destruct (Decode src maxSize); [left|right|done]; by eexists. Qed.
