(* ===== verification/ZstdLimits.v ===== *)
(** Where the Zstandard encoder writes what the decoder does not read back:
    blocks of 32 literals and more, sequences of 32 extra bits and more, inputs
    of more than one block.  [ZstdFacts] has the round trip of the rest. *)

From Stdlib Require Import ZArith Lia.
From Stdlib Require Import Strings.Byte.
From stdpp Require Import base list gmap countable strings.
From S2P Require Import Prelude.
From S2P Require Import ZstdBits.
From S2P Require Import ZstdFse.
From S2P Require Import ZstdHuff.
From S2P Require Import ZstdReader.
From S2P Require Import ZstdEncode.
From S2P Require Import ZstdSeqFacts.
From S2P Require Import ZstdFacts.
From S2P Require Import ZstdSafety.
From S2P Require Import ZstdHuffSafety.
From S2P Require Import ZstdWindow.
From S2P Require Import ZstdDecodeSafety.

Open Scope Z_scope.

(** * Literals *)

(** The first byte of the longer headers, which has the size format of the
    shortest one and the lowest bit of the size overwritten. *)
Lemma long_header_byte n m : (m = 0x10 \/ m = 0x30) ->
  exists k, 0 <= k < 16 /\ Z.lor (Z.land (Z.shiftl n 4) 0xf0) m = Z.lor (16 * k) m.
Proof.
  intros _. exists (n mod 16). split; [apply Z.mod_pos_bound; lia|]. f_equal.
  change 0xf0 with (Z.shiftl (Z.ones 4) 4). rewrite <- Z.shiftl_land, Z.land_ones by lia.
  rewrite Z.shiftl_mul_pow2 by lia. change (2 ^ 4) with 16. lia.
Qed.

Lemma long_header_fields n m : (m = 0x10 \/ m = 0x30) ->
  let hdr := b2z (z2b (Z.lor (Z.land (Z.shiftl n 4) 0xf0) m)) in
  Z.land hdr 3 = 0 /\ Z.land (Z.shiftr hdr 2) 3 = 0 /\ 0 <= Z.shiftr hdr 3 < 32.
Proof.
  intros Hm. cbv zeta. destruct (long_header_byte n m Hm) as (k & Hk & ->).
  assert (forallb (fun k => forallb (fun m => let hdr := b2z (z2b (Z.lor (16 * k) m)) in
    (Z.land hdr 3 =? 0) && (Z.land (Z.shiftr hdr 2) 3 =? 0) && (0 <=? Z.shiftr hdr 3) && (Z.shiftr hdr 3 <? 32)) [0x10; 0x30])
    (zrange 0 16) = true) as Hall by (vm_compute; reflexivity).
  specialize (zrange_forall _ _ _ Hall k ltac:(lia)) as Hc. cbv beta in Hc. rewrite forallb_forall in Hc.
  specialize (Hc m ltac:(destruct Hm as [-> | ->]; [left|right; left]; reflexivity)). cbv zeta beta in Hc. zbool. lia.
Qed.

(** The literals that are read back from a section of 32 literals or more. *)
Lemma literals_misread h lits rest : 32 <= len lits ->
  match readLiterals h (appendRawLiteralsHeader [] (len lits) ++ lits ++ rest) 0 [] with
  | Ok (_, lits', _) => len lits' < 32
  | Err _ => True
  | Panic => False
  end.
Proof.
  intros Hl. unfold appendRawLiteralsHeader. destruct (Z.ltb_spec (len lits) 32); [lia|].
  assert (Hgen : forall b data, Z.land (b2z b) 3 = 0 -> Z.land (Z.shiftr (b2z b) 2) 3 = 0 -> 0 <= Z.shiftr (b2z b) 3 < 32 ->
    match readLiterals h (b :: data) 0 [] with Ok (_, lits', _) => len lits' < 32 | Err _ => True | Panic => False end).
  { intros b data H3 Hf Hsz. unfold readLiterals. rewrite len_cons. pose proof (len_nonneg data).
    destruct (Z.geb_spec 0 (1 + len data)); [done|]. change (index (b :: data) 0) with (Ok b). cbn [res_bind].
    rewrite H3. cbn [Z.eqb orb]. unfold readRawRLELiterals. rewrite Hf, H3. cbn [res_bind Z.eqb].
    destruct (_ >? Z.shiftl 128 10); [done|]. destruct (Z.gtb_spec (0 + 1 + Z.shiftr (b2z b) 3) (len (b :: data))); [done|].
    rewrite slice_ok by lia. cbn [res_bind fst snd app]. unfold len. rewrite length_take. lia. }
  destruct (Z.ltb_spec (len lits) 4096); apply Hgen; apply long_header_fields; auto.
Qed.

Definition sample : bytes := str "abcdefghijklmnopqrstuvwxyz0123456789abcdefghijklmnopqrstuvwxyz".

(** Zstandard cannot compress inputs with 32 literals.  The header that
    [appendRawLiteralsHeader] writes for 32 literals or more has the size format
    of a shorter one: whatever follows, the decoder takes fewer than 32 literals
    from the section.  An input of 62 bytes is encoded without an error to a
    frame that [Decode] rejects. *)
Theorem zstd_literals_lost :
  (forall h lits rest, 32 <= len lits ->
    match readLiterals h (appendRawLiteralsHeader [] (len lits) ++ lits ++ rest) 0 [] with
    | Ok (_, lits', _) => lits' <> lits
    | Err _ => True
    | Panic => False
    end) /\
  exists c, Encode sample = Ok c /\
    Decode c 1024 = Err (FmtError "zstd: corrupt input: invalid symbol compression mode" 0).
Proof.
  split.
  - intros h lits rest Hl. pose proof (literals_misread h lits rest Hl) as H. destruct (readLiterals _ _ _ _) as [[[off lits'] h']| |]; try done.
    intros ->. lia.
  - eexists. split; [vm_compute; reflexivity|]. vm_compute. reflexivity.
Qed.

(** * Extra bits *)

(** Forty literals. *)
Lemma zstd_literals_lost_witness :
  match readLiterals ([], 0) (appendRawLiteralsHeader [] (len (replicate 40 x61)) ++ replicate 40 x61 ++ []) 0 [] with
  | Ok (_, lits', _) => lits' <> replicate 40 x61
  | Err _ => True
  | Panic => False
  end.
Proof. apply (proj1 zstd_literals_lost). vm_compute. congruence. Defined.

(** A sequence of 32 extra bits is written without them.  The extra bits of
    the offset, the match and the literals are collected in 64 bits and written
    with one call that masks with the count modulo 32: sequences with the same
    codes and 32 extra bits in all leave the same stream and the same states,
    whatever their lengths and offset are. *)
Theorem zstd_extra_bits_lost sw ll ml off ll' ml' off' :
  let s := setCodes ll ml off in let s' := setCodes ll' ml' off' in
  wf_seq s -> extra_bits s = 32 ->
  llCode ll' = llCode ll -> mlCode ml' = mlCode ml -> ofCode off' = ofCode off ->
  encodeSequenceStates llEnc ofEnc mlEnc sw s' = encodeSequenceStates llEnc ofEnc mlEnc sw s.
Proof.
  cbv zeta. intros Hwf Hx Hl Hm Ho. pose proof (wf_bits _ Hwf) as (Hb1 & Hb2 & Hb3 & Hcl & Hcm & Hco).
  unfold extra_bits, ll_bits, ml_bits, of_bits, out_bits in *. unfold setCodes in *. cbn [s_llCode s_mlCode s_ofCode] in *.
  unfold encodeSequenceStates. cbn [s_llCode s_mlCode s_ofCode s_litLen s_matchLen s_offset]. rewrite Hl, Hm, Ho.
  unfold encode_state.
  destruct (index (ct_symbolTT (en_ct ofEnc)) (ofCode off)) as [to| |] eqn:Eo; try done. apply index_lookup in Eo as [_ Eo].
  cbn [res_bind]. destruct (index (ct_stateTable (en_ct ofEnc)) _); try done. cbn [res_bind].
  destruct (index (ct_symbolTT (en_ct mlEnc)) (mlCode ml)) as [tm| |] eqn:Em; try done. apply index_lookup in Em as [_ Em].
  cbn [res_bind]. destruct (index (ct_stateTable (en_ct mlEnc)) _); try done. cbn [res_bind].
  destruct (index (ct_symbolTT (en_ct llEnc)) (llCode ll)) as [tl| |] eqn:El; try done. apply index_lookup in El as [_ El].
  cbn [res_bind]. destruct (index (ct_stateTable (en_ct llEnc)) _); try done. cbn [res_bind].
  rewrite Eo, Em, El in *. do 2 f_equal. unfold addBits32NC.
  assert (forall b, 0 <= b <= 20 -> Z.land b 31 = b) as Hland.
  { intros b Hb. change 31 with (Z.ones 5). rewrite Z.land_ones by lia. apply Z.mod_small. change (2 ^ 5) with 32. lia. }
  rewrite !Hland by lia. replace (u8 (u8 (tt_outBits to + tt_outBits tm) + tt_outBits tl)) with 32.
  2:{ unfold u8. rewrite (Z.mod_small (tt_outBits to + tt_outBits tm)), Z.mod_small by (change (2 ^ 8) with 256; lia). lia. }
  change (mask_at bitMask32 32) with 0. by rewrite !Z.land_0_r.
Qed.

Lemma zstd_extra_bits_lost_witness :
  extra_bits (setCodes 2048 2000 2048) = 32 /\
  forall sw, encodeSequenceStates llEnc ofEnc mlEnc sw (setCodes 2049 2001 2049) =
    encodeSequenceStates llEnc ofEnc mlEnc sw (setCodes 2048 2000 2048).
Proof.
  split; [vm_compute; reflexivity|]. intros sw. apply (zstd_extra_bits_lost sw 2048 2000 2048 2049 2001 2049).
  - exists 2048, 2000, 2048. split; [reflexivity|]. lia.
  - vm_compute. reflexivity.
  - vm_compute. reflexivity.
  - vm_compute. reflexivity.
  - vm_compute. reflexivity.
Defined.

(** * Totality of the encoder *)

Definition in_range (sw : seqWriter) : Prop := 64 <= sw_ll sw < 128 /\ 32 <= sw_of sw < 64 /\ 64 <= sw_ml sw < 128.

Lemma encodeSequenceStates_total sw s : in_range sw -> wf_seq s ->
  exists sw', encodeSequenceStates llEnc ofEnc mlEnc sw s = Ok sw' /\ in_range sw'.
Proof.
  intros (HL & HO & HM) Hwf. destruct (wf_bits s Hwf) as (_ & _ & _ & Hcl & Hcm & Hco). unfold encodeSequenceStates.
  destruct (encode_state_spec _ _ _ _ _ of_encoder_ok (flush32 (sw_wr sw)) _ _ Hco HO) as (no & O' & to & eo & -> & _ & Ao & _).
  cbn [res_bind].
  match goal with |- context [encode_state ?w mlEnc _ _] =>
    destruct (encode_state_spec _ _ _ _ _ ml_encoder_ok w _ _ Hcm HM) as (nm & M' & tm & em & -> & _ & Am & _) end.
  cbn [res_bind].
  match goal with |- context [encode_state ?w llEnc _ _] =>
    destruct (encode_state_spec _ _ _ _ _ ll_encoder_ok w _ _ Hcl HL) as (nl & L' & tl & el & -> & _ & Al & _) end.
  cbn [res_bind]. eexists. split; [reflexivity|]. split_and!; apply Al || apply Ao || apply Am.
Qed.

Lemma encode_rest_total l sw : in_range sw -> Forall wf_seq l -> exists sw', encode_rest llEnc ofEnc mlEnc sw l = Ok sw' /\ in_range sw'.
Proof.
  revert sw. induction l as [|s l IH]; intros sw Hr Hwf; [by exists sw|]. apply Forall_cons in Hwf as [Hs Hl].
  cbn [encode_rest]. destruct (encodeSequenceStates_total sw s Hr Hs) as (sw1 & -> & Hr1). cbn [res_bind]. by apply IH.
Qed.

Lemma encodeSequences_total out seqs : seqs <> [] -> Forall wf_seq seqs -> exists body, encodeSequences out seqs = Ok body.
Proof.
  intros Hne Hwf. unfold encodeSequences. rewrite init_encoders. cbn [res_bind]. destruct setBits_encoders as (-> & -> & ->).
  set (pre := out ++ _). destruct seqs as [|s l _] using rev_ind; [congruence|].
  apply Forall_app in Hwf as [Hl Hs]. apply Forall_cons in Hs as [Hs _].
  rewrite len_app. change (len [s]) with 1. rewrite Z.add_simpl_r, index_middle. cbn [res_bind].
  destruct (start_states_ok pre s Hs) as (sw & -> & (v & n & _ & _ & HL & HO & HM & _)). cbn [res_bind]. rewrite rev_unit. cbn [tail].
  destruct (encode_rest_total (rev l) sw) as (sw' & -> & _); [split_and!; lia|by apply Forall_rev|]. cbn [res_bind]. eauto.
Qed.

(** A block starts with a header of its type and size. *)
Lemma encodeCompressedBlock_total src : len src <= 2 ^ 17 ->
  exists ob, encodeCompressedBlock src = Ok ob /\
    match ob with
    | None => True
    | Some block => exists body, block = block_header (Z.lor (Z.lor 1 (Z.shiftl 2 1)) (u32 (Z.shiftl (len body) 3))) ++ body
    end.
Proof.
  intros Hsz. unfold encodeCompressedBlock. destruct (buildSequences_Lz src Hsz) as (lits & seqs & -> & HLz). cbn [res_bind].
  destruct (Z.eqb_spec (len seqs) 0) as [|Hz]; [by eexists|].
  destruct (encodeSequences_total (appendRawLiteralsHeader [] (len lits) ++ lits) seqs) as [body ->];
    [intros ->; by apply Hz|by eapply Lz_wf|]. cbn [res_bind]. eexists. split; [reflexivity|]. by exists body.
Qed.

(** The first frame of a large input: its block is not marked as the last. *)
Definition open_block (block : bytes) : Prop :=
  exists ty content, (ty = 0 \/ ty = 2) /\ len content <= 2 ^ 17 /\ block = block_header (0 + 2 * ty + 8 * len content) ++ content.

Lemma setBlockLast_clear t n body : 0 <= 2 * t + 8 * n ->
  setBlockLast (block_header (1 + 2 * t + 8 * n) ++ body) false = Ok (block_header (0 + 2 * t + 8 * n) ++ body).
Proof.
  intros Hn. set (k := t + 4 * n). replace (1 + 2 * t + 8 * n) with (1 + k * 2 ^ 1) by lia. replace (0 + 2 * t + 8 * n) with (2 * k) by lia.
  assert ((1 + k * 2 ^ 1) / 2 = k) as Hodd by (change (2 ^ 1) with 2; rewrite Z.div_add by lia; done).
  assert ((2 * k) / 2 = k) as Heven by (rewrite Z.mul_comm; apply Z.div_mul; lia).
  unfold block_header, setBlockLast. cbn [app]. set (tail1 := z2b _ :: z2b _ :: body).
  change (index (z2b (1 + k * 2 ^ 1) :: tail1) 0) with (Ok (z2b (1 + k * 2 ^ 1))). cbn [res_bind].
  rewrite assign_ok by (rewrite len_cons; pose proof (len_nonneg tail1); lia). change (Z.to_nat 0) with 0%nat. cbn [insert list_insert].
  f_equal. f_equal; [|subst tail1; f_equal; [|f_equal]].
  - rewrite b2z_z2b. rewrite <- z2b_mod, <- (z2b_mod (2 * k)). f_equal.
    change 256 with (2 ^ 8). rewrite <- !Z.land_ones by lia. apply Z.bits_inj'. intros i Hi.
    rewrite !Z.land_spec, Z.ldiff_spec, !Z.land_spec. destruct (Z.ltb_spec i 8); [|rewrite (Z.ones_spec_high 8 i) by lia; by rewrite !andb_false_r].
    rewrite (Z.ones_spec_low 8 i) by lia. rewrite !andb_true_r.
    destruct (Z.eqb_spec i 0) as [->|].
    + change (Z.testbit 1 0) with true. rewrite andb_false_r. symmetry. apply Z.testbit_even_0.
    + replace (Z.testbit 1 i) with false by (symmetry; apply (Z.bits_above_log2 1 i); cbn; lia). rewrite andb_true_r.
      change (1 + k * 2 ^ 1) with (1 + k * 2 ^ 1). rewrite <- (lor_shiftl_add 1 k 1) by lia. rewrite Z.lor_spec.
      replace (Z.testbit 1 i) with false by (symmetry; apply (Z.bits_above_log2 1 i); cbn; lia). cbn [orb].
      rewrite Z.shiftl_mul_pow2 by lia. f_equal. lia.
  - f_equal. rewrite !Z.shiftr_div_pow2 by lia. change (2 ^ 8) with (2 * 128). rewrite <- !Z.div_div by lia.
    by rewrite Hodd, Heven.
  - f_equal. rewrite !Z.shiftr_div_pow2 by lia. change (2 ^ 16) with (2 * 32768). rewrite <- !Z.div_div by lia.
    by rewrite Hodd, Heven.
Qed.

(** * Inputs of several blocks *)

Lemma len_chunk (src : bytes) : len src > 2 ^ 17 -> len (take (Z.to_nat maxBlockSize) src) = 2 ^ 17.
Proof. intros Hl. unfold maxBlockSize. change (Z.shiftl 128 10) with (2 ^ 17). unfold len in *. rewrite length_take. lia. Qed.

(** One round of [encodeLarge]. *)
Definition chunk_of (src : bytes) : bytes := if len src >? maxBlockSize then take (Z.to_nat maxBlockSize) src else src.

Lemma chunk_of_bound src : src <> [] -> 0 < len (chunk_of src) <= 2 ^ 17 /\ (length (chunk_of src) <= length src)%nat.
Proof.
  intros Hne. assert (0 < len src) by (destruct src; [done|]; rewrite len_cons; pose proof (len_nonneg src); lia).
  unfold chunk_of. unfold maxBlockSize in *. change (Z.shiftl 128 10) with (2 ^ 17).
  destruct (Z.gtb_spec (len src) (2 ^ 17)); [|unfold len in *; lia]. unfold len in *. rewrite length_take. lia.
Qed.

Lemma encode_large_step fuel src out : src <> [] ->
  exists block, encode_large (S fuel) src out = encode_large fuel (drop (length (chunk_of src)) src) (appendFrame out (chunk_of src) block) /\
    (len src > 2 ^ 17 -> open_block block).
Proof.
  intros Hne. destruct (chunk_of_bound src Hne) as [Hc Hcl]. cbn [encode_large]. fold (chunk_of src).
  destruct (Z.eqb_spec (len src) 0) as [Hz|_]; [exfalso; apply Hne, len_zero, Hz|].
  set (chunk := chunk_of src) in *. set (src' := drop (length chunk) src).
  destruct (encodeCompressedBlock_total chunk ltac:(lia)) as (ob & -> & Hob). cbn [res_bind].
  assert (Hlast : len src > 2 ^ 17 -> (len src' =? 0) = false).
  { intros Hl. unfold src', chunk, chunk_of in *. unfold maxBlockSize in *. change (Z.shiftl 128 10) with (2 ^ 17) in *.
    destruct (Z.gtb_spec (len src) (2 ^ 17)); [|lia]. apply Z.eqb_neq. unfold len in *. rewrite length_drop, length_take. lia. }
  assert (Hraw : len src > 2 ^ 17 -> open_block (encodeRawBlock chunk (len src' =? 0))).
  { intros Hl. rewrite Hlast by done. exists 0, chunk. split; [by left|]. split; [lia|]. unfold encodeRawBlock, u32.
    rewrite Z.mod_small by (rewrite Z.shiftl_mul_pow2 by lia; lia). rewrite Z.shiftl_mul_pow2 by lia. f_equal. f_equal. lia. }
  destruct ob as [block|]; [|eexists; cbn [res_bind]; split; [reflexivity|exact Hraw]].
  destruct (Z.geb_spec (len block) (len chunk)); [eexists; cbn [res_bind]; split; [reflexivity|exact Hraw]|].
  destruct Hob as [body Hbody]. assert (len block = 3 + len body) as Hlb by (subst block; by rewrite len_app).
  pose proof (len_nonneg body). rewrite lor_header in Hbody by lia.
  destruct (len src' =? 0) eqn:Hl; cbn [negb res_bind].
  - eexists. split; [reflexivity|]. intros Hgt. discriminate (Hlast Hgt).
  - rewrite Hbody, setBlockLast_clear by lia. cbn [res_bind]. eexists. split; [reflexivity|]. intros _.
    exists 2, body. split; [by right|]. split; [lia|done].
Qed.

Lemma encode_large_total fuel src out : (length src <= fuel)%nat ->
  exists t, encode_large fuel src out = Ok (out ++ t) /\ (src <> [] -> exists n t', t = encodeFrameHeader n ++ t').
Proof.
  revert src out. induction fuel as [|fuel IH]; intros src out Hf.
  - destruct src; [|cbn in Hf; lia]. exists []. by rewrite app_nil_r.
  - destruct (decide (src = [])) as [->|Hne]; [exists []; by rewrite app_nil_r|].
    destruct (encode_large_step fuel src out Hne) as (block & -> & _). destruct (chunk_of_bound src Hne) as [Hc _].
    destruct (IH (drop (length (chunk_of src)) src) (appendFrame out (chunk_of src) block)) as (t & -> & _).
    { rewrite length_drop. unfold len in Hc. lia. }
    unfold appendFrame. exists (encodeFrameHeader (len (chunk_of src)) ++ block ++ t). rewrite <- !app_assoc.
    split; [done|]. intros _. by eexists _, _.
Qed.

(** The encoder succeeds on every input. *)
Lemma Encode_total src : exists c, Encode src = Ok c.
Proof.
  unfold Encode. destruct (Z.eqb_spec (len src) 0); [eauto|]. unfold maxBlockSize. change (Z.shiftl 128 10) with (2 ^ 17).
  destruct (Z.gtb_spec (len src) (2 ^ 17)).
  - unfold encodeLarge. destruct (encode_large_total (length src) src []) as (t & -> & _); eauto.
  - destruct (encodeCompressedBlock_total src ltac:(lia)) as ([block|] & -> & _); cbn [res_bind]; [destruct (_ >=? _)|]; eauto.
Qed.

(** ** Reading such a frame *)

(** A block leaves the input behind it, and the frame open. *)
Lemma compressedBlock_rest r size content rest r' :
  r_r r = content ++ rest -> size = len content -> compressedBlock r size = Ok r' ->
  r_r r' = rest /\ r_sawFrameHeader r' = r_sawFrameHeader r.
Proof.
  intros Hr Hs Hc. unfold compressedBlock in Hc. rewrite Hr, read_or_eof_app in Hc by done. cbn [res_bind] in Hc.
  destruct (readLiterals _ _ _ _) as [[[off lits] h]| |]; try done. cbn [res_bind] in Hc.
  destruct (initSeqs _ _ _) as [[[n off'] t]| |]; try done. cbn [res_bind] in Hc.
  match type of Hc with res_bind ?m _ = _ => destruct m as [[rep buf]| |]; try done end. by injection Hc as <-.
Qed.

Lemma block_content_rest r ty content rest r' :
  (ty = 0 \/ ty = 2) -> block_content r (content ++ rest) ty (len content) = Ok r' ->
  r_r r' = rest /\ r_sawFrameHeader r' = r_sawFrameHeader r.
Proof.
  intros [-> | ->] Hb; cbn [block_content] in Hb.
  - rewrite read_or_eof_app in Hb by done. cbn [res_bind fst snd] in Hb. by injection Hb as <-.
  - by eapply (compressedBlock_rest (with_buffer r (content ++ rest) (r_buffer r))) in Hb.
Qed.

Lemma after_content_open r r' : after_content r false = Ok r' -> r_r r' = r_r r /\ r_sawFrameHeader r' = r_sawFrameHeader r.
Proof.
  unfold after_content. cbn [negb]. destruct (_ && _); [done|].
  match goal with |- res_bind ?m _ = _ -> _ => destruct m as [cs| |]; try done end. cbn [res_bind].
  match goal with |- res_bind ?m _ = _ -> _ => destruct m as [w| |]; try done end. cbn [res_bind]. by intros [= <-].
Qed.

(** A frame header where a block is expected. *)
Lemma readBlock_magic r n rest : r_r r = encodeFrameHeader n ++ rest -> readBlock r = Err (makeError "block size too large").
Proof.
  intros Hr. unfold readBlock. rewrite Hr. unfold encodeFrameHeader. rewrite <- app_assoc. cbn [map app].
  match goal with |- context [z2b 0x28 :: z2b 0xb5 :: z2b 0x2f :: ?t] =>
    change (z2b 0x28 :: z2b 0xb5 :: z2b 0x2f :: t) with ([z2b 0x28; z2b 0xb5; z2b 0x2f] ++ t) end.
  rewrite read_or_eof_app by done. reflexivity.
Qed.

Lemma in_frame_wf r input n : wf_reader r -> 0 <= n <= 2 ^ 23 -> wf_reader (in_frame r input n).
Proof.
  intros ([Hh _] & _ & _ & _ & Hx) Hn. split_and!; cbn [in_frame r_huffman r_window r_seqTables r_repeatedOffsets r_checksum].
  - split; [exact Hh|by left].
  - unfold wf_window, w_reset. cbn. change (len []) with 0. lia.
  - by split_and!; left.
  - cbn. lia.
  - done.
Qed.

(** The first frame of a large input is left open. *)
Lemma large_refill block rest : open_block block ->
  Runs (fun r => r_sawFrameHeader r = true /\ r_r r = rest) (refill (NewReader (encodeFrameHeader (2 ^ 17) ++ block ++ rest))).
Proof.
  intros Hopen. set (c := encodeFrameHeader (2 ^ 17) ++ block ++ rest). unfold refill. cbn [NewReader r_sawFrameHeader r_r r_readOneFrame].
  unfold c at 3. rewrite readFrameHeader_ok by lia. cbn [res_bind].
  pose proof (readBlock_runs _ (in_frame_wf (NewReader c) (block ++ rest) (2 ^ 17) (NewReader_wf c) ltac:(lia))) as Hruns.
  destruct (readBlock _) as [r| |] eqn:Hrb; [|done|done]. clear Hruns. revert Hrb. cbn [Runs].
  destruct Hopen as (ty & content & Hty & Hcl & ->). pose proof (len_nonneg content).
  rewrite (readBlock_head _ 0 ty (len content) (content ++ rest));
    [|unfold in_frame; cbn [r_r]; by rewrite <- app_assoc|lia|lia|lia|left; cbn [in_frame r_window w_reset w_size]; lia].
  destruct (block_content _ _ _ _) as [r1| |] eqn:Hb; try done. cbn [res_bind]. change (0 =? 1) with false. intros Ha.
  apply block_content_rest in Hb as [Hr1 Hs1]; [|done]. apply after_content_open in Ha as [-> ->]. by rewrite Hr1, Hs1.
Qed.

Lemma large_frames_undecodable block n t maxSize out : open_block block -> 0 <= maxSize < 2 ^ 63 - 1 ->
  Decode (encodeFrameHeader (2 ^ 17) ++ block ++ encodeFrameHeader n ++ t) maxSize <> Ok out.
Proof.
  intros Hopen Hm. pose proof (large_refill block (encodeFrameHeader n ++ t) Hopen) as Href. revert Href.
  set (c := encodeFrameHeader (2 ^ 17) ++ block ++ encodeFrameHeader n ++ t). intros Href. unfold Decode.
  destruct (_ =? 0); [done|]. destruct (negb (IsFrame c)); [done|]. rewrite s64_id by (unfold int64; lia).
  destruct (length c) as [|fuel] eqn:Hfuel; [unfold c in Hfuel; rewrite length_app in Hfuel; cbn in Hfuel; lia|].
  remember (S fuel) as f1 eqn:Hf1. cbn [read_all]. change (len []) with 0. destruct (Z.geb_spec 0 (maxSize + 1)); [lia|].
  destruct (refill (NewReader c)) as [r|e|]; cbn [Runs] in Href; [|rewrite bool_decide_eq_false_2 by exact Href; done|done].
  destruct Href as [Hs Hr]. rewrite Hf1. cbn [read_all app]. destruct (Z.geb_spec (len (r_buffer r)) (maxSize + 1)).
  - rewrite (proj2 (Z.gtb_lt _ _)); [done|]. unfold len in *. rewrite length_take. lia.
  - unfold refill. rewrite Hs. cbn [res_bind]. rewrite (readBlock_magic r n t) by done. done.
Qed.

(** C38: Zstandard cannot carry more than 128 KiB.  For every longer input
    [Encode] succeeds, and what it writes is never decoded, under any
    decompression limit: it puts a frame around every block but marks only the
    last block as the end of a frame, so the decoder takes the header of the
    second frame for that of a block. *)
Theorem zstd_large_undecodable src maxSize :
  len src > 2 ^ 17 -> 0 <= maxSize < 2 ^ 63 - 1 ->
  exists c, Encode src = Ok c /\ forall out, Decode c maxSize <> Ok out.
Proof.
  intros Hl Hm. unfold Encode. destruct (Z.eqb_spec (len src) 0); [lia|]. unfold maxBlockSize. change (Z.shiftl 128 10) with (2 ^ 17).
  destruct (Z.gtb_spec (len src) (2 ^ 17)); [|lia]. unfold encodeLarge.
  assert (src <> []) as Hne by (intros ->; change (len []) with 0 in Hl; lia).
  destruct (length src) as [|f] eqn:Hlen; [unfold len in Hl; lia|].
  destruct (encode_large_step f src [] Hne) as (block & -> & Hopen). specialize (Hopen Hl).
  destruct (chunk_of_bound src Hne) as [Hc _].
  assert (len (chunk_of src) = 2 ^ 17) as Hchunk.
  { unfold chunk_of. rewrite (proj2 (Z.gtb_lt _ _)) by (unfold maxBlockSize; change (Z.shiftl 128 10) with (2 ^ 17); lia). by apply len_chunk. }
  destruct (encode_large_total f (drop (length (chunk_of src)) src) (appendFrame [] (chunk_of src) block)) as (t & -> & Ht).
  { rewrite length_drop. unfold len in Hc. lia. }
  destruct Ht as (n' & t' & ->). { intros Hz. apply (f_equal length) in Hz. rewrite length_drop in Hz. unfold len in *. cbn in Hz. lia. }
  eexists. split; [reflexivity|]. intros out. unfold appendFrame. cbn [app]. rewrite Hchunk, <- app_assoc.
  by apply large_frames_undecodable.
Qed.

(** One byte more than a block. *)
Lemma zstd_large_undecodable_witness :
  exists c, Encode (replicate (Z.to_nat 131073) x61) = Ok c /\ forall out, Decode c 1000000 <> Ok out.
Proof.
  apply zstd_large_undecodable; [|lia]. rewrite len_replicate, Z2Nat.id by lia. lia.
Defined.
