(* ===== verification/Compress.v ===== *)
(** Record compression: [internal/compress/codec.go] (dispatch), [gzip.go],
    [zstd.go], [snappy.go] and [lz4.go].

    The process-wide decompression limit ([internal/limits]) and the standard
    library's gzip writer and reader are the interface [Codecs]; [CodecLaws] is
    what the record-batch code relies on of them.  Zstandard is modelled in the
    files [Zstd*]. *)

From Stdlib Require Import ZArith Lia.
From Stdlib Require Import Strings.Byte.
From stdpp Require Import base list gmap countable strings.
From S2P Require Import Prelude.
From S2P Require Import Wire.
From S2P Require Import ZstdReader.
From S2P Require Import ZstdEncode.

Open Scope Z_scope.

(** * Interface *)

(** [gzip_deflate level bs] is [gzip.NewWriterLevel], [Write] and [Close];
    [gzip_inflate bs limit] is [gzip.NewReader] and [io.ReadAll] of at most
    [limit] bytes of it. *)
Class Codecs := {
  MaxDecompressedBytes : Z;
  gzip_deflate : Z -> bytes -> res bytes;
  gzip_inflate : bytes -> Z -> res bytes;
}.

(** The levels of the writer: the default one, and from the fastest to the best. *)
Definition DefaultCompression : Z := -1.
Definition BestCompression : Z := 9.

(** A stream read beyond its length gives what was written, streams carry the
    ten-byte gzip header, and the reader reports malformed input as an error. *)
Class CodecLaws `{Codecs} : Prop := {
  max_decompressed_int : 0 <= MaxDecompressedBytes < 2 ^ 63 - 1;
  inflate_deflate level bs c limit :
    level = DefaultCompression \/ 1 <= level <= BestCompression ->
    gzip_deflate level bs = Ok c -> len bs < limit -> gzip_inflate c limit = Ok bs;
  deflate_header level bs c : gzip_deflate level bs = Ok c -> 10 <= len c;
  inflate_no_panic bs limit : gzip_inflate bs limit <> Panic;
}.

(** * Gzip *)

Definition Gzip `{Codecs} (input : bytes) (level : Z) : res bytes :=
  let level := if level <=? 0 then DefaultCompression else if level >? BestCompression then BestCompression else level in
  gzip_deflate level input.

Definition Gunzip `{Codecs} (input : bytes) : res bytes :=
  let? out := gzip_inflate input (s64 (MaxDecompressedBytes + 1)) in
  if len out >? MaxDecompressedBytes
  then Err (FmtError "compress: gzip decompressed size exceeds limit" MaxDecompressedBytes)
  else Ok out.

(** * Zstandard *)

Definition IsZstdFrame (data : bytes) : bool := IsFrame data.

Definition ZstdEncode (input : bytes) : res bytes := Encode input.

Definition ZstdDecode `{Codecs} (input : bytes) : res bytes := Decode input MaxDecompressedBytes.

(** * Snappy *)

Definition errSnappyCorrupt : error := FmtError "snappy: corrupt input" 0.

Definition encodeSnappyVarint (v : Z) : bytes := uvarint_bytes 9 v.

Fixpoint snappy_varint_loop (i x : Z) (src : bytes) : Z * Z :=
  match src with
  | [] => (0, 0)
  | b :: rest =>
      if i >=? 10 then (0, 0) else
      let x := Z.lor x (u64 (Z.shiftl (Z.land (b2z b) 0x7f) (7 * i))) in
      if b2z b <? 0x80 then (x, i + 1) else snappy_varint_loop (i + 1) x rest
  end.

Definition decodeSnappyVarint (src : bytes) : Z * Z := snappy_varint_loop 0 0 src.

(** The loop appends literals of at most 60 bytes and shortens [lit] by each. *)
Fixpoint snappy_literal_loop (fuel : nat) (dst lit : bytes) : bytes :=
  match fuel with
  | O => dst
  | S f =>
      if len lit >? 0 then
        let n := if len lit >? 60 then 60 else len lit in
        snappy_literal_loop f (dst ++ [z2b (Z.shiftl (n - 1) 2)] ++ take (Z.to_nat n) lit)
          (drop (Z.to_nat n) lit)
      else dst
  end.

Definition appendSnappyLiteral (dst lit : bytes) : bytes :=
  snappy_literal_loop (S (length lit)) dst lit.

Fixpoint snappy_encode_loop (fuel : nat) (src : bytes) (i : Z) (dst : bytes) : res bytes :=
  match fuel with
  | O => Panic
  | S f =>
      if i <? len src then
        let n := if len src - i >? 60 then 60 else len src - i in
        let? lit := slice src i (i + n) in
        snappy_encode_loop f src (i + n) (appendSnappyLiteral dst lit)
      else Ok dst
  end.

Definition SnappyEncode (src : bytes) : res bytes :=
  snappy_encode_loop (S (length src)) src 0 (encodeSnappyVarint (len src)).

Definition le2 (a b : byte) : Z := Z.lor (b2z a) (Z.shiftl (b2z b) 8).
Definition le3 (a b c : byte) : Z := Z.lor (le2 a b) (Z.shiftl (b2z c) 16).
Definition le4 (a b c d : byte) : Z := Z.lor (le3 a b c) (Z.shiftl (b2z d) 24).

Definition snappyLiteralLen (tag : byte) (src : bytes) : res (Z * bytes) :=
  let t := b2z tag in
  if t <? 0xf0 then Ok (Z.shiftr t 2 + 1, src)
  else if t =? 0xf0 then
    match src with a :: r => Ok (b2z a + 1, r) | _ => Err errSnappyCorrupt end
  else if t =? 0xf1 then
    match src with a :: b :: r => Ok (le2 a b + 1, r) | _ => Err errSnappyCorrupt end
  else if t =? 0xf2 then
    match src with a :: b :: c :: r => Ok (le3 a b c + 1, r) | _ => Err errSnappyCorrupt end
  else if t =? 0xf3 then
    match src with a :: b :: c :: d :: r => Ok (le4 a b c d + 1, r) | _ => Err errSnappyCorrupt end
  else Err errSnappyCorrupt.

(** [for i := 0; i < length; i++ { out = append(out, out[len(out)-offset]) }],
    which the LZ4 decoder also has. *)
Fixpoint snappyCopy (out : bytes) (offset : Z) (length : nat) : res bytes :=
  match length with
  | O => Ok out
  | S n => let? b := index out (len out - offset) in snappyCopy (out ++ [b]) offset n
  end.

(** The copy of the three copy elements, with its offset check. *)
Definition snappy_copy_checked (out : bytes) (offset length : Z) : res bytes :=
  if (offset =? 0) || (offset >? len out) then Err errSnappyCorrupt
  else snappyCopy out offset (Z.to_nat length).

(** One element: the remaining input and the extended output. *)
Definition snappy_element (tag : byte) (src out : bytes) : res (bytes * bytes) :=
  let t := b2z tag in
  match Z.land t 3 with
  | 0 =>
      let? lr := snappyLiteralLen tag src in
      let '(litLen, src) := lr in
      if len src <? litLen then Err errSnappyCorrupt else
      let? lit := slice src 0 litLen in
      let? rest := slice src litLen (len src) in
      Ok (rest, out ++ lit)
  | 1 =>
      match src with
      | a :: b :: rest =>
          let length := Z.land (Z.shiftr t 2) 7 + 4 in
          let offset := Z.lor (le2 a b) (Z.shiftl (Z.land t 0xe0) 3) in
          let? out := snappy_copy_checked out offset length in Ok (rest, out)
      | _ => Err errSnappyCorrupt
      end
  | 2 =>
      match src with
      | a :: b :: rest =>
          let length := Z.land (Z.shiftr t 2) 7 + 9 in
          let? out := snappy_copy_checked out (le2 a b) length in Ok (rest, out)
      | _ => Err errSnappyCorrupt
      end
  | _ =>
      match src with
      | a :: b :: c :: d :: rest =>
          let length := Z.land (Z.shiftr t 2) 7 + 17 in
          let? out := snappy_copy_checked out (le4 a b c d) length in Ok (rest, out)
      | _ => Err errSnappyCorrupt
      end
  end.

(** Every pass consumes the tag byte. *)
Fixpoint snappy_decode_loop (fuel : nat) (uncompressed : Z) (src out : bytes) : res bytes :=
  match fuel with
  | O => Panic
  | S f =>
      if len out <? uncompressed then
        match src with
        | [] => Err errSnappyCorrupt
        | tag :: src =>
            let? so := snappy_element tag src out in
            snappy_decode_loop f uncompressed (fst so) (snd so)
        end
      else if negb (len out =? uncompressed) then Err errSnappyCorrupt else Ok out
  end.

Definition SnappyDecode `{Codecs} (src : bytes) : res bytes :=
  let '(uncompressed, n) := decodeSnappyVarint src in
  if n <=? 0 then Err errSnappyCorrupt else
  if uncompressed >? MaxDecompressedBytes
  then Err (FmtError "snappy: declared size exceeds limit" uncompressed) else
  let? src := slice src n (len src) in
  snappy_decode_loop (S (length src)) uncompressed src [].

(** * LZ4 *)

Definition errLZ4 : error := FmtError "lz4: corrupt or unsupported block" 0.

(** The length of the common run of [src[off:]] and [src[i:]], at most
    [maxLen - l]: [for l < maxLen && src[off+l] == src[i+l] { l++ }]. *)
Fixpoint lz4_match_len (fuel : nat) (src : bytes) (off i l maxLen : Z) : res Z :=
  match fuel with
  | O => Ok l
  | S f =>
      if l <? maxLen then
        let? a := index src (off + l) in
        let? b := index src (i + l) in
        if b2z a =? b2z b then lz4_match_len f src off i (l + 1) maxLen else Ok l
      else Ok l
  end.

(** [for off := i - 1; off >= start; off--]: [n] offsets are left. *)
Fixpoint lz4_search (n : nat) (src : bytes) (i off : Z) (best : Z * Z) : res (Z * Z) :=
  match n with
  | O => Ok best
  | S m =>
      let maxLen := if len src - i >? 65535 then 65535 else len src - i in
      let? l := lz4_match_len (Z.to_nat maxLen) src off i 0 maxLen in
      let best := if (l >=? 4) && (l >? snd best) then (i - off, l) else best in
      lz4_search m src i (off - 1) best
  end.

(** [for x >= 255 { out = append(out, 255); x -= 255 }; out = append(out, byte(x))]. *)
Fixpoint lz4_ext_len (fuel : nat) (x : Z) : bytes :=
  match fuel with
  | O => []
  | S f => if x >=? 255 then z2b 255 :: lz4_ext_len f (x - 255) else [z2b x]
  end.

Fixpoint lz4_literal_loop (fuel : nat) (lit : bytes) (off remaining : Z) (out : bytes) : res bytes :=
  match fuel with
  | O => Panic
  | S f =>
      if remaining >? 0 then
        let n := if remaining >? 65535 then 65535 else remaining in
        let hdr := if n >=? 15 then z2b 0xf0 :: lz4_ext_len 258 (n - 15) else [z2b (Z.shiftl n 4)] in
        let? s := slice lit off (off + n) in
        lz4_literal_loop f lit (off + n) (remaining - n) (out ++ hdr ++ s)
      else Ok out
  end.

Definition writeLiteralRun (out lit : bytes) : res bytes :=
  lz4_literal_loop (S (length lit)) lit 0 (len lit) out.

(** [matchLen] loses [chunk >= 1] in each pass. *)
Fixpoint lz4_match_loop (fuel : nat) (out : bytes) (offset matchLen : Z) : bytes :=
  match fuel with
  | O => out
  | S f =>
      if matchLen >? 0 then
        let chunk := if matchLen >? 15 + 4 then 15 + 4 else matchLen in
        let enc := [z2b (Z.land offset 0xff); z2b (Z.shiftr offset 8)] in
        let out := if chunk >=? 4 + 15
          then out ++ [z2b 0x0f] ++ enc ++ lz4_ext_len 258 (chunk - 4 - 15)
          else out ++ [z2b (chunk - 4)] ++ enc in
        lz4_match_loop f out offset (matchLen - chunk)
      else out
  end.

Definition writeMatch (out : bytes) (offset length : Z) : bytes :=
  lz4_match_loop (Z.to_nat length) out offset length.

(** The greedy loop; [i] grows in every pass. *)
Fixpoint lz4_compress_loop (fuel : nat) (src : bytes) (i : Z) (out : bytes) : res bytes :=
  match fuel with
  | O => Panic
  | S f =>
      if i <? len src then
        let start := if i - 65535 <? 0 then 0 else i - 65535 in
        let? best := lz4_search (Z.to_nat (i - start)) src i (i - 1) (0, 0) in
        let '(bestOff, bestLen) := best in
        let litStart := i in
        let '(i, bestLen) := if bestLen >=? 4 then (i + bestLen, bestLen) else (i + 1, 0) in
        let '(litLen, i) :=
          if bestLen =? 0 then (len src - litStart, len src) else (i - litStart, i) in
        let? lit := slice src litStart (litStart + litLen) in
        let? out := writeLiteralRun out lit in
        let out := if bestLen >=? 4 then writeMatch out bestOff bestLen else out in
        lz4_compress_loop f src i out
      else Ok out
  end.

Definition lz4CompressBlock (src : bytes) : res bytes :=
  if len src =? 0 then Ok [] else lz4_compress_loop (S (length src)) src 0 [].

Definition LZ4Encode (src : bytes) : res bytes :=
  let? compressed := lz4CompressBlock src in
  Ok (be_bytes 4 (u32 (len compressed)) ++ be_bytes 4 (u32 (len src)) ++ compressed).

(** The length extension [for { b := src[i]; i++; n += b; if b != 255 break }]
    on the rest of the input. *)
Fixpoint lz4_read_ext (src : bytes) (n : Z) : res (Z * bytes) :=
  match src with
  | [] => Err errLZ4
  | b :: rest =>
      if negb (b2z b =? 255) then Ok (n + b2z b, rest) else lz4_read_ext rest (n + b2z b)
  end.

(** A sequence: literals, then a match unless the output is complete.  The
    flag is [break]; [src] stands for [src[i:]]. *)
Definition lz4_sequence (uncompLen : Z) (token : byte) (src out : bytes) : res (bytes * bytes * bool) :=
  let t := b2z token in
  let? lr := if Z.shiftr t 4 =? 15 then lz4_read_ext src 15 else Ok (Z.shiftr t 4, src) in
  let '(litLen, src) := lr in
  if litLen >? len src then Err errLZ4 else
  let? lit := slice src 0 litLen in
  let? src := slice src litLen (len src) in
  let out := out ++ lit in
  if len out >=? uncompLen then Ok (src, out, true) else
  match src with
  | a :: b :: src =>
      let offset := le2 a b in
      if (offset =? 0) || (offset >? len out) then Err errLZ4 else
      let? mr := if Z.land t 0x0f =? 15 then lz4_read_ext src (15 + 4) else Ok (Z.land t 0x0f + 4, src) in
      let '(matchLen, src) := mr in
      let? out := snappyCopy out offset (Z.to_nat matchLen) in
      Ok (src, out, false)
  | _ => Err errLZ4
  end.

Fixpoint lz4_decompress_loop (fuel : nat) (uncompLen : Z) (src out : bytes) : res bytes :=
  match fuel with
  | O => Panic
  | S f =>
      if len out <? uncompLen then
        match src with
        | [] => Err errLZ4
        | token :: src =>
            let? r := lz4_sequence uncompLen token src out in
            let '(src, out, brk) := r in
            if brk then (if negb (len out =? uncompLen) then Err errLZ4 else Ok out)
            else lz4_decompress_loop f uncompLen src out
        end
      else if negb (len out =? uncompLen) then Err errLZ4 else Ok out
  end.

Definition lz4DecompressBlock (src : bytes) (uncompLen : Z) : res bytes :=
  lz4_decompress_loop (S (length src)) uncompLen src [].

Definition LZ4Decode `{Codecs} (src : bytes) : res bytes :=
  if len src <? 8 then Err errLZ4 else
  let? c := slice src 0 4 in
  let? u := slice src 4 8 in
  let compLen := be_value c in
  let uncompLen := be_value u in
  if uncompLen >? MaxDecompressedBytes
  then Err (FmtError "lz4: declared size exceeds limit" uncompLen) else
  if len src <? 8 + compLen then Err errLZ4 else
  let? block := slice src 8 (8 + compLen) in
  lz4DecompressBlock block uncompLen.

(** * Dispatch *)

Definition CodecNone := 0.
Definition CodecGzip := 1.
Definition CodecSnappy := 2.
Definition CodecLZ4 := 3.
Definition CodecZstd := 4.

Definition Compress `{Codecs} (codec level : Z) (input : bytes) : res bytes :=
  if codec =? CodecNone then Ok input
  else if codec =? CodecGzip then Gzip input level
  else if codec =? CodecSnappy then SnappyEncode input
  else if codec =? CodecLZ4 then LZ4Encode input
  else if codec =? CodecZstd then ZstdEncode input
  else Err (FmtError "compress: unknown codec" codec).

Definition Decompress `{Codecs} (codec : Z) (input : bytes) : res bytes :=
  if codec =? CodecNone then Ok input
  else if codec =? CodecGzip then Gunzip input
  else if codec =? CodecSnappy then SnappyDecode input
  else if codec =? CodecLZ4 then LZ4Decode input
  else if codec =? CodecZstd then ZstdDecode input
  else Err (FmtError "compress: unknown codec" codec).
