(* ===== verification/CompressFacts.v ===== *)
(** Theorems on compression: Snappy and LZ4 round trips, the sizes of their
    outputs, termination and safety of the decoders. *)

From Stdlib Require Import ZArith Lia.
From Stdlib Require Import Strings.Byte.
From stdpp Require Import base list gmap countable strings.
From S2P Require Import Prelude.
From S2P Require Import Wire.
From S2P Require Import Compress.
From S2P Require Import ZstdReader.
From S2P Require Import ZstdEncode.
From S2P Require Import ZstdFacts.
From S2P Require Import ZstdDecodeSafety.

Open Scope Z_scope.

(** * Gzip: the level is clamped, the output bounded *)

Lemma gzip_law `{CodecLaws} bs lvl c : len bs <= MaxDecompressedBytes -> Gzip bs lvl = Ok c -> Gunzip c = Ok bs.
Proof.
  unfold Gzip, Gunzip. intros Hl Hc. pose proof max_decompressed_int. rewrite s64_id by (unfold int64; lia).
  assert (Hv : forall l, (if l <=? 0 then DefaultCompression else if l >? BestCompression then BestCompression else l) = DefaultCompression \/
    1 <= (if l <=? 0 then DefaultCompression else if l >? BestCompression then BestCompression else l) <= BestCompression).
  { intros l. unfold BestCompression. destruct (Z.leb_spec l 0); [by left|]. right. destruct (Z.gtb_spec l 9); lia. }
  rewrite (inflate_deflate _ bs c _ (Hv lvl) Hc) by lia.
  cbn [res_bind]. destruct (Z.gtb_spec (len bs) MaxDecompressedBytes); [lia|done].
Qed.

Lemma gzip_header `{CodecLaws} bs lvl c : Gzip bs lvl = Ok c -> 10 <= len c.
Proof. apply deflate_header. Qed.

Lemma gunzip_no_panic `{CodecLaws} bs : Gunzip bs <> Panic.
Proof.
  unfold Gunzip. pose proof (inflate_no_panic bs (s64 (MaxDecompressedBytes + 1))).
  destruct (gzip_inflate _ _); [|done|done]. cbn [res_bind]. by destruct (_ >? _).
Qed.

(** * Zstandard *)

(** What a codec gives back: Zstandard, a block that its encoder can encode. *)
Definition carries (codec : Z) (p : bytes) : Prop := codec = CodecZstd -> len p <= 2 ^ 17 /\ encodable p.

Lemma zstd_law `{CodecLaws} p c :
  len p <= MaxDecompressedBytes -> carries CodecZstd p -> ZstdEncode p = Ok c -> ZstdDecode c = Ok p /\ 4 <= len c.
Proof.
  intros Hl Hc He. destruct (Hc eq_refl) as [H17 Henc]. pose proof max_decompressed_int as Hm.
  destruct (Encode_decodes p MaxDecompressedBytes H17 (conj Hl (proj2 Hm)) Henc) as (c' & Hc' & Hd).
  unfold ZstdEncode in He. rewrite Hc' in He. injection He as ->. split; [exact Hd|].
  unfold Decode in Hd. destruct (_ =? 0); [done|]. unfold IsFrame in Hd. destruct (Z.ltb_spec (len c) 4); [done|lia].
Qed.

(** * The length prefix *)

Lemma land_7f b : Z.land b 0x7f = b mod 128.
Proof. change 0x7f with (Z.ones 7). by rewrite Z.land_ones by lia. Qed.

(** A 7-bit group lands above the groups read so far. *)
Lemma lor_u64_shiftl x v i :
  0 <= i -> 0 <= v -> v * 2 ^ (7 * i) < 2 ^ 64 -> 0 <= x < 2 ^ (7 * i) ->
  Z.lor x (u64 (Z.shiftl v (7 * i))) = x + v * 2 ^ (7 * i).
Proof.
  intros Hi Hv H64 Hx. unfold u64. rewrite Z.shiftl_mul_pow2 by lia.
  assert (0 <= v * 2 ^ (7 * i)) by (apply Z.mul_nonneg_nonneg; [done | apply Z.pow_nonneg; lia]).
  rewrite Z.mod_small by lia. rewrite <- (Z.shiftl_mul_pow2 v) at 1 by lia. apply lor_shiftl_add; lia.
Qed.

Lemma snappy_varint_bytes g i x y rest :
  0 <= i -> i + Z.of_nat g <= 9 -> 0 <= y < 2 ^ (7 * (Z.of_nat g + 1)) ->
  y * 2 ^ (7 * i) < 2 ^ 64 -> 0 <= x < 2 ^ (7 * i) ->
  snappy_varint_loop i x (uvarint_bytes g y ++ rest) =
    (x + y * 2 ^ (7 * i), i + len (uvarint_bytes g y)).
Proof.
  revert i x y. induction g as [|g IH]; intros i x y Hi Hig Hy Hy64 Hx.
  - cbn [uvarint_bytes app snappy_varint_loop]. change (7 * (Z.of_nat 0 + 1)) with 7 in Hy.
    destruct (i >=? 10) eqn:E; zbool; [lia|]. rewrite b2z_z2b, land_7f.
    rewrite !(Z.mod_small y) by lia. destruct (Z.ltb_spec y 128); [|lia].
    by rewrite lor_u64_shiftl by lia.
  - cbn [uvarint_bytes]. destruct (y >=? 128) eqn:Ey; zbool.
    + cbn [app snappy_varint_loop]. destruct (i >=? 10) eqn:E; zbool; [lia|].
      assert (Hb : b2z (z2b (Z.lor (u8 y) 128)) = y mod 128 + 128).
      { rewrite b2z_z2b. replace (u8 y) with (y mod 128 + 128 * ((y / 128) mod 2)).
        2:{ unfold u8. change (2 ^ 8) with (128 * 2). by rewrite Z.rem_mul_r by lia. }
        pose proof (Z.mod_pos_bound y 128 ltac:(lia)).
        assert (Hk : (y / 128) mod 2 = 0 \/ (y / 128) mod 2 = 1)
          by (pose proof (Z.mod_pos_bound (y / 128) 2 ltac:(lia)); lia).
        assert (H128 : Z.lor (y mod 128) 128 = y mod 128 + 128).
        { change 128 with (Z.shiftl 1 7) at 2. by rewrite lor_shiftl_add by lia. }
        destruct Hk as [-> | ->].
        - rewrite Z.mul_0_r, Z.add_0_r, H128, Z.mod_small by lia. done.
        - rewrite Z.mul_1_r, <- H128, <- Z.lor_assoc, Z.lor_diag, H128, Z.mod_small by lia. done. }
      rewrite Hb, land_7f. destruct (Z.ltb_spec (y mod 128 + 128) 128); [pose proof (Z.mod_pos_bound y 128 ltac:(lia)); lia|].
      replace ((y mod 128 + 128) mod 128) with (y mod 128).
      2:{ rewrite <- (Z.mul_1_l 128) at 3. rewrite Z_mod_plus_full, Z.mod_mod by lia. done. }
      pose proof (Z.div_mod y 128 ltac:(lia)) as Hdm. pose proof (Z.mod_pos_bound y 128 ltac:(lia)).
      assert (H7 : 2 ^ (7 * (i + 1)) = 128 * 2 ^ (7 * i)).
      { replace (7 * (i + 1)) with (7 * i + 7) by lia. rewrite Z.pow_add_r by lia. lia. }
      assert (0 < 2 ^ (7 * i)) by (apply Z.pow_pos_nonneg; lia).
      rewrite lor_u64_shiftl by nia.
      rewrite Z.shiftr_div_pow2 by lia. change (2 ^ 7) with 128.
      assert (0 <= y / 128 < 2 ^ (7 * (Z.of_nat g + 1))).
      { split; [apply Z.div_pos; lia|]. apply Z.div_lt_upper_bound; [lia|].
        replace (7 * (Z.of_nat (S g) + 1)) with (7 + 7 * (Z.of_nat g + 1)) in Hy by lia.
        rewrite Z.pow_add_r in Hy by lia. lia. }
      rewrite IH by (rewrite ?H7; nia).
      rewrite H7, len_cons. f_equal; nia.
    + cbn [app snappy_varint_loop]. destruct (i >=? 10) eqn:E; zbool; [lia|]. rewrite b2z_z2b, land_7f.
      rewrite !(Z.mod_small y) by lia. destruct (Z.ltb_spec y 128); [|lia].
      by rewrite lor_u64_shiftl by lia.
Qed.

Lemma len_uvarint_pos g y : 0 < len (uvarint_bytes g y).
Proof.
  destruct g; cbn [uvarint_bytes]; [done|].
  destruct (y >=? 128); [|done]. rewrite len_cons. pose proof (len_nonneg (uvarint_bytes g (Z.shiftr y 7))). lia.
Qed.

(** * Snappy *)

(** What the encoder writes after the length: literals of at most 60 bytes. *)
Fixpoint snappy_lits (fuel : nat) (s : bytes) : bytes :=
  match fuel, s with
  | S f, _ :: _ =>
      let n := Z.to_nat (if len s >? 60 then 60 else len s) in
      z2b (4 * (Z.of_nat n - 1)) :: take n s ++ snappy_lits f (drop n s)
  | _, _ => []
  end.

Lemma append_literal_small dst lit :
  0 < len lit <= 60 -> appendSnappyLiteral dst lit = dst ++ z2b (4 * (len lit - 1)) :: lit.
Proof.
  intros Hl. unfold appendSnappyLiteral. cbn [snappy_literal_loop].
  destruct (len lit >? 0) eqn:E; zbool; [|lia]. destruct (len lit >? 60) eqn:E2; zbool; [lia|].
  rewrite Z.shiftl_mul_pow2 by lia. change (2 ^ 2) with 4. rewrite (Z.mul_comm _ 4).
  unfold len at 2 3. rewrite Nat2Z.id, take_ge, drop_all by lia.
  by destruct (length lit).
Qed.

Lemma snappy_encode_lits fuel src i dst :
  0 <= i <= len src -> len src - i < Z.of_nat fuel ->
  snappy_encode_loop fuel src i dst = Ok (dst ++ snappy_lits fuel (drop (Z.to_nat i) src)).
Proof.
  revert i dst. induction fuel as [|f IH]; intros i dst Hi Hf; [lia|].
  cbn [snappy_encode_loop]. destruct (Z.ltb_spec i (len src)).
  - assert (Hd : len (drop (Z.to_nat i) src) = len src - i) by (unfold len in *; rewrite length_drop; lia).
    set (n := if len src - i >? 60 then 60 else len src - i).
    assert (0 < n <= 60 /\ n <= len src - i) as [Hn Hn'] by (unfold n; destruct (_ >? _) eqn:E; zbool; lia).
    rewrite slice_ok by lia. cbn [res_bind]. rewrite Z.add_simpl_l.
    set (s := drop (Z.to_nat i) src) in *.
    assert (Ht : len (take (Z.to_nat n) s) = n) by (unfold len in *; rewrite length_take; lia).
    rewrite append_literal_small by lia. rewrite Ht, IH by lia.
    cbn [snappy_lits]. destruct s as [|b s'] eqn:Es; [rewrite len_nil in Hd; lia|].
    rewrite <- Es in *. rewrite Hd. fold n. rewrite Z2Nat.id by lia.
    rewrite Es. rewrite <- app_assoc. cbn [app]. f_equal. f_equal. f_equal.
    rewrite <- Es. f_equal. f_equal. subst s. rewrite drop_drop. f_equal. lia.
  - assert (i = len src) as -> by lia. unfold len. rewrite Nat2Z.id, drop_all.
    cbn [snappy_lits]. by rewrite app_nil_r.
Qed.

Lemma SnappyEncode_lits src :
  SnappyEncode src = Ok (uvarint_bytes 9 (len src) ++ snappy_lits (S (length src)) src).
Proof.
  unfold SnappyEncode, encodeSnappyVarint. rewrite snappy_encode_lits; [done | |unfold len; lia].
  pose proof (len_nonneg src). lia.
Qed.

Lemma snappy_tag_literal n src : 0 < n <= 60 ->
  Z.land (b2z (z2b (4 * (n - 1)))) 3 = 0 /\
  snappyLiteralLen (z2b (4 * (n - 1))) src = Ok (n, src).
Proof.
  intros Hn. unfold snappyLiteralLen. rewrite b2z_z2b, Z.mod_small by lia. split.
  - change 3 with (Z.ones 2). rewrite Z.land_ones by lia. change (2 ^ 2) with 4.
    rewrite Z.mul_comm. apply Z.mod_mul. lia.
  - destruct (Z.ltb_spec (4 * (n - 1)) 0xf0); [|lia]. rewrite Z.shiftr_div_pow2 by lia.
    change (2 ^ 2) with 4. rewrite Z.mul_comm, Z.div_mul by lia. f_equal. f_equal. lia.
Qed.

Lemma snappy_element_literal n lit rest out :
  0 < n <= 60 -> len lit = n ->
  snappy_element (z2b (4 * (n - 1))) (lit ++ rest) out = Ok (rest, out ++ lit).
Proof.
  intros Hn Hl. destruct (snappy_tag_literal n (lit ++ rest) Hn) as [Ht Hlit].
  unfold snappy_element. rewrite Ht, Hlit. cbn [res_bind]. pose proof (len_nonneg rest).
  rewrite len_app. destruct (Z.ltb_spec (len lit + len rest) n); [lia|].
  pose proof (slice_app [] lit rest) as S1. cbn [app] in S1. rewrite len_nil in S1.
  rewrite <- Hl. rewrite Z.add_0_l in S1. rewrite S1. cbn [res_bind].
  pose proof (slice_app lit rest []) as S2. rewrite app_nil_r in S2. rewrite S2. done.
Qed.

Lemma snappy_decode_lits g fuel s out :
  (length s <= g)%nat -> (length (snappy_lits g s) < fuel)%nat ->
  snappy_decode_loop fuel (len out + len s) (snappy_lits g s) out = Ok (out ++ s).
Proof.
  revert fuel s out. induction g as [|g IH]; intros fuel s out Hg Hf.
  - destruct s; [|cbn in Hg; lia]. destruct fuel as [|f]; [lia|]. cbn [snappy_lits snappy_decode_loop].
    rewrite len_nil, Z.add_0_r, Z.ltb_irrefl, Z.eqb_refl, app_nil_r. done.
  - destruct fuel as [|f]; [lia|]. cbn [snappy_decode_loop].
    destruct s as [|b s'].
    + rewrite len_nil, Z.add_0_r, Z.ltb_irrefl, Z.eqb_refl, app_nil_r. done.
    + cbn [snappy_lits] in *. set (s := b :: s') in *.
      set (n := if len s >? 60 then 60 else len s) in *.
      assert (Hs : 0 < len s) by (unfold s; rewrite len_cons; pose proof (len_nonneg s'); lia).
      assert (0 < n <= 60 /\ n <= len s) as [Hn Hn'] by (unfold n; destruct (_ >? _) eqn:E; zbool; lia).
      destruct (Z.ltb_spec (len out) (len out + len s)); [|lia].
      rewrite Z2Nat.id in * by lia.
      assert (Ht : len (take (Z.to_nat n) s) = n) by (unfold len in *; rewrite length_take; lia).
      rewrite snappy_element_literal by lia. cbn [res_bind fst snd].
      replace (len out + len s) with (len (out ++ take (Z.to_nat n) s) + len (drop (Z.to_nat n) s)).
      2:{ rewrite len_app, Ht. unfold len in *. rewrite length_drop. lia. }
      rewrite IH.
      * by rewrite <- app_assoc, take_drop.
      * rewrite length_drop. unfold len in *. lia.
      * cbn [length] in Hf. rewrite length_app in Hf. lia.
Qed.

Lemma len_snappy_lits g s : (length s <= g)%nat -> len s <= len (snappy_lits g s).
Proof.
  revert s. induction g as [|g IH]; intros s Hg.
  - destruct s; [done | cbn in Hg; lia].
  - destruct s as [|b s']; [done|]. cbn [snappy_lits]. set (s := b :: s') in *.
    set (n := Z.to_nat _).
    assert (1 <= n)%nat.
    { unfold n. destruct (_ >? _); [lia|]. unfold s. rewrite len_cons. pose proof (len_nonneg s'). lia. }
    rewrite len_cons, len_app. specialize (IH (drop n s)). rewrite length_drop in IH.
    specialize (IH ltac:(lia)). unfold len in *. rewrite length_take, length_drop in *. lia.
Qed.

(** Snappy round trip.  What [SnappyEncode] produces, [SnappyDecode]
    decodes to the input, whenever the input is within the decompression
    limit. *)
Theorem snappy_roundtrip `{CodecLaws} bs :
  len bs <= MaxDecompressedBytes ->
  exists c, SnappyEncode bs = Ok c /\ SnappyDecode c = Ok bs.
Proof.
  intros Hl. rewrite SnappyEncode_lits. eexists. split; [done|].
  pose proof max_decompressed_int. pose proof (len_nonneg bs).
  unfold SnappyDecode, decodeSnappyVarint.
  rewrite snappy_varint_bytes by (rewrite ?Z.mul_0_r; change (2 ^ 0) with 1; lia).
  rewrite !Z.add_0_l. change (2 ^ (7 * 0)) with 1. rewrite Z.mul_1_r.
  pose proof (len_uvarint_pos 9 (len bs)).
  destruct (Z.leb_spec (len (uvarint_bytes 9 (len bs))) 0); [lia|].
  destruct (len bs >? MaxDecompressedBytes) eqn:E; zbool; [lia|].
  pose proof (slice_app (uvarint_bytes 9 (len bs)) (snappy_lits (S (length bs)) bs) []) as Hs.
  rewrite app_nil_r in Hs. rewrite len_app, Hs. cbn [res_bind].
  pose proof (snappy_decode_lits (S (length bs)) (S (length (snappy_lits (S (length bs)) bs))) bs []) as Hd.
  rewrite len_nil, Z.add_0_l in Hd. apply Hd; lia.
Qed.

(** * Safety of the decoders *)

Lemma snappyCopy_ok out offset n :
  0 < offset <= len out -> exists out', snappyCopy out offset n = Ok out'.
Proof.
  revert out. induction n as [|n IH]; intros out Ho; cbn [snappyCopy]; [eauto|].
  unfold index. destruct (Z.leb_spec 0 (len out - offset)); [|lia].
  destruct (lookup_lt_is_Some_2 out (Z.to_nat (len out - offset))) as [b ->]; [unfold len in *; lia|].
  cbn [res_bind]. apply IH. rewrite len_app. unfold len in *; cbn [length]; lia.
Qed.

Lemma le2_nonneg a b : 0 <= le2 a b.
Proof. unfold le2. apply Z.lor_nonneg. split; [|apply Z.shiftl_nonneg]; apply b2z_range. Qed.

Lemma le4_nonneg a b c d : 0 <= le4 a b c d.
Proof.
  unfold le4, le3. apply Z.lor_nonneg. split; [apply Z.lor_nonneg; split; [apply le2_nonneg|]|];
    apply Z.shiftl_nonneg, b2z_range.
Qed.

Lemma copy_checked_no_panic out offset l : 0 <= offset -> snappy_copy_checked out offset l <> Panic.
Proof.
  intros Ho. unfold snappy_copy_checked. destruct (_ || _) eqn:E; [done|]. zbool.
  destruct (snappyCopy_ok out offset (Z.to_nat l)) as [o ->]; [lia | done].
Qed.

Lemma res_bind_no_panic {A B} (m : res A) (f : A -> res B) :
  m <> Panic -> (forall a, m = Ok a -> f a <> Panic) -> res_bind m f <> Panic.
Proof. destruct m; cbn; auto. Qed.

Lemma slice_no_panic {A} (l : list A) i j : 0 <= i <= j -> j <= len l -> slice l i j <> Panic.
Proof. intros. by rewrite slice_ok. Qed.

Lemma slice_suffix {A} (l s : list A) i : slice l i (len l) = Ok s -> (length s <= length l)%nat.
Proof. unfold slice. case_goal; [|done]. intros [= <-]. rewrite length_take, length_drop. lia. Qed.

Lemma slice_no_err {A} (l : list A) i j e : slice l i j <> Err e.
Proof. unfold slice. by case_goal. Qed.

Lemma literal_len_spec tag src :
  match snappyLiteralLen tag src with
  | Ok (n, rest) => 0 <= n /\ (length rest <= length src)%nat
  | Err _ => True
  | Panic => False
  end.
Proof.
  unfold snappyLiteralLen. pose proof (b2z_range tag).
  assert (0 <= Z.shiftr (b2z tag) 2) by (apply Z.shiftr_nonneg; lia).
  assert (Hb : forall a, 0 <= b2z a) by apply b2z_range.
  assert (H3 : forall a b c, 0 <= le3 a b c).
  { intros a b c. apply Z.lor_nonneg. split; [apply le2_nonneg | by apply Z.shiftl_nonneg]. }
  repeat case_goal; try done; cbn [length]; split; try lia.
  all: match goal with
  | |- context [le2 ?a ?b] => pose proof (le2_nonneg a b)
  | |- context [le3 ?a ?b ?c] => pose proof (H3 a b c)
  | |- context [le4 ?a ?b ?c ?d] => pose proof (le4_nonneg a b c d)
  | |- context [b2z ?a] => pose proof (Hb a)
  end; lia.
Qed.

Lemma snappy_element_spec tag src out :
  match snappy_element tag src out with
  | Ok (rest, _) => (length rest <= length src)%nat
  | Err _ => True
  | Panic => False
  end.
Proof.
  assert (Hcopy : forall o l (rest s : bytes), 0 <= o -> (length rest <= length s)%nat ->
    match (let? out := snappy_copy_checked out o l in Ok (rest, out)) with
    | Ok (rest, _) => (length rest <= length s)%nat | Err _ => True | Panic => False end).
  { intros o l rest s Ho Hl. pose proof (copy_checked_no_panic out o l Ho).
    by destruct (snappy_copy_checked out o l). }
  unfold snappy_element. pose proof (b2z_range tag).
  assert (Hext : forall a b, 0 <= Z.lor (le2 a b) (Z.shiftl (Z.land (b2z tag) 0xe0) 3)).
  { intros a b. apply Z.lor_nonneg. split; [apply le2_nonneg|]. apply Z.shiftl_nonneg, Z.land_nonneg. lia. }
  destruct (Z.land (b2z tag) 3) as [|p|p].
  - pose proof (literal_len_spec tag src) as Hl. destruct (snappyLiteralLen tag src) as [[n rest]| |]; try done.
    destruct Hl as [Hn Hr]. cbn [res_bind]. destruct (Z.ltb_spec (len rest) n); [done|].
    rewrite slice_ok by lia. cbn [res_bind]. destruct (slice rest n (len rest)) eqn:Es; cbn [res_bind]; [|done|].
    + apply slice_suffix in Es. lia.
    + apply slice_panic in Es. lia.
  - destruct p as [p|p|]; [| |].
    + destruct src as [|a [|b [|c [|d rest]]]]; try done. apply Hcopy; [apply le4_nonneg | cbn; lia].
    + destruct p; destruct src as [|a [|b rest]]; try done;
        try (destruct rest as [|c [|d rest]]; try done; apply Hcopy; [apply le4_nonneg | cbn; lia]).
      apply Hcopy; [apply le2_nonneg | cbn; lia].
    + destruct src as [|a [|b rest]]; try done. apply Hcopy; [apply Hext | cbn; lia].
  - destruct src as [|a [|b [|c [|d rest]]]]; try done. apply Hcopy; [apply le4_nonneg | cbn; lia].
Qed.

Lemma snappy_decode_fuel fuel u src out :
  (length src < fuel)%nat -> snappy_decode_loop fuel u src out <> Panic.
Proof.
  revert src out. induction fuel as [|f IH]; intros src out Hf; [lia|]. cbn [snappy_decode_loop].
  destruct (len out <? u); [|by destruct (negb _)]. destruct src as [|tag src]; [done|].
  pose proof (snappy_element_spec tag src out) as He.
  destruct (snappy_element tag src out) as [[rest o]| |]; cbn [res_bind fst snd]; try done.
  apply IH. cbn [length] in Hf. lia.
Qed.

Lemma snappy_varint_used i x src : 0 <= i ->
  snd (snappy_varint_loop i x src) <= i + len src.
Proof.
  revert i x. induction src as [|b rest IH]; intros i x Hi; cbn [snappy_varint_loop snd]; [unfold len; cbn; lia|].
  pose proof (len_nonneg rest). rewrite len_cons.
  destruct (i >=? 10); [cbn [snd]; lia|]. cbn zeta. destruct (_ <? _); [cbn [snd]; lia|].
  specialize (IH (i + 1) (Z.lor x (u64 (Z.shiftl (Z.land (b2z b) 127) (7 * i)))) ltac:(lia)). lia.
Qed.

Lemma SnappyDecode_no_panic `{Codecs} src : SnappyDecode src <> Panic.
Proof.
  unfold SnappyDecode. pose proof (snappy_varint_used 0 0 src ltac:(lia)) as Hn.
  unfold decodeSnappyVarint. destruct (snappy_varint_loop 0 0 src) as [u n]. cbn [snd] in Hn.
  destruct (Z.leb_spec n 0); [done|]. case_goal; [done|].
  apply res_bind_no_panic; [apply slice_no_panic; lia|]. intros s _. apply snappy_decode_fuel. lia.
Qed.

Lemma lz4_read_ext_spec src n : 0 <= n ->
  match lz4_read_ext src n with
  | Ok (m, rest) => n <= m /\ (length rest < length src)%nat
  | Err _ => True
  | Panic => False
  end.
Proof.
  revert n. induction src as [|b rest IH]; intros n Hn; cbn [lz4_read_ext]; [done|].
  pose proof (b2z_range b). destruct (negb _); [cbn; lia|].
  specialize (IH (n + b2z b) ltac:(lia)). destruct (lz4_read_ext rest _) as [[m r]| |]; try done.
  cbn [length]. lia.
Qed.

Lemma lz4_sequence_spec u token src out :
  match lz4_sequence u token src out with
  | Ok (rest, _, _) => (length rest <= length src)%nat
  | Err _ => True
  | Panic => False
  end.
Proof.
  unfold lz4_sequence. pose proof (b2z_range token).
  assert (0 <= Z.shiftr (b2z token) 4) by (apply Z.shiftr_nonneg; lia).
  assert (Hl : match (if Z.shiftr (b2z token) 4 =? 15 then lz4_read_ext src 15 else Ok (Z.shiftr (b2z token) 4, src)) with
    | Ok (n, rest) => 0 <= n /\ (length rest <= length src)%nat | Err _ => True | Panic => False end).
  { destruct (_ =? 15); [|split; [done | lia]]. pose proof (lz4_read_ext_spec src 15 ltac:(lia)) as He.
    destruct (lz4_read_ext src 15) as [[m r]| |]; try done. lia. }
  destruct (if _ =? 15 then _ else _) as [[n rest]| |]; try done. destruct Hl as [Hn Hr]. cbn [res_bind].
  destruct (n >? len rest) eqn:E; [done|]. zbool. rewrite slice_ok by lia. cbn [res_bind].
  destruct (slice rest n (len rest)) as [rest2| |] eqn:Es; cbn [res_bind]; [|done|apply slice_panic in Es; lia].
  apply slice_suffix in Es. destruct (_ >=? u); [lia|].
  destruct rest2 as [|a [|b rest3]]; try done. destruct (_ || _) eqn:E2; [done|]. zbool.
  assert (0 <= Z.land (b2z token) 15) by (apply Z.land_nonneg; lia).
  assert (Hm : match (if Z.land (b2z token) 15 =? 15 then lz4_read_ext rest3 19 else Ok (Z.land (b2z token) 15 + 4, rest3)) with
    | Ok (n, rest) => (length rest <= length rest3)%nat | Err _ => True | Panic => False end).
  { destruct (_ =? 15); [|lia]. pose proof (lz4_read_ext_spec rest3 19 ltac:(lia)) as He.
    destruct (lz4_read_ext rest3 19) as [[m r]| |]; try done. lia. }
  change (15 + 4) with 19. destruct (if _ =? 15 then lz4_read_ext rest3 19 else _) as [[m rest4]| |]; try done.
  cbn [res_bind]. pose proof (le2_nonneg a b).
  match goal with |- context [snappyCopy ?o _ _] => destruct (snappyCopy_ok o (le2 a b) (Z.to_nat m)) as [o' ->]; [lia|] end.
  cbn [res_bind]. cbn [length] in *. lia.
Qed.

Lemma lz4_decompress_fuel fuel u src out :
  (length src < fuel)%nat -> lz4_decompress_loop fuel u src out <> Panic.
Proof.
  revert src out. induction fuel as [|f IH]; intros src out Hf; [lia|]. cbn [lz4_decompress_loop].
  destruct (len out <? u); [|by destruct (negb _)]. destruct src as [|tag src]; [done|].
  pose proof (lz4_sequence_spec u tag src out) as He.
  destruct (lz4_sequence u tag src out) as [[[rest o] brk]| |]; cbn [res_bind]; try done.
  destruct brk; [by destruct (negb _)|]. apply IH. cbn [length] in Hf. lia.
Qed.

Lemma LZ4Decode_no_panic `{Codecs} src : LZ4Decode src <> Panic.
Proof.
  unfold LZ4Decode. destruct (Z.ltb_spec (len src) 8); [done|].
  rewrite !slice_ok by lia. cbn [res_bind]. case_goal; [done|].
  destruct (Z.ltb_spec (len src) (8 + be_value (take (Z.to_nat (4 - 0)) (drop (Z.to_nat 0) src)))); [done|].
  pose proof (be_value_bound (take (Z.to_nat (4 - 0)) (drop (Z.to_nat 0) src))).
  rewrite slice_ok by lia. cbn [res_bind]. apply lz4_decompress_fuel. lia.
Qed.

Lemma Decompress_no_panic `{CodecLaws} codec input : Decompress codec input <> Panic.
Proof.
  unfold Decompress. repeat case_goal; try done.
  - apply gunzip_no_panic.
  - apply SnappyDecode_no_panic.
  - apply LZ4Decode_no_panic.
  - apply Decode_no_panic.
Qed.

(** [Decompress] returns on every input of every codec id: the Snappy,
    LZ4 and Zstandard decoders terminate, check every length before they slice and every
    back-reference before they copy, so hostile compressed bytes give an error
    and never a panic. *)
Theorem decompress_total `{CodecLaws} codec input : Decompress codec input <> Panic.
Proof. apply Decompress_no_panic. Qed.

(** * LZ4 *)

(** The first pass of the compressor has nothing to match against and takes
    the rest of the input as one literal run, so it is also the last. *)
Lemma lz4_block_literal src : src <> [] -> lz4CompressBlock src = writeLiteralRun [] src.
Proof.
  intros Hne. unfold lz4CompressBlock.
  assert (Hpos : 0 < len src) by (destruct src; [done | rewrite len_cons; pose proof (len_nonneg src); lia]).
  destruct (Z.eqb_spec (len src) 0); [lia|].
  destruct (length src) as [|k] eqn:El; [unfold len in Hpos; lia|]. cbn [lz4_compress_loop].
  destruct (Z.ltb_spec 0 (len src)); [|lia]. change (0 - 65535 <? 0) with true. cbn iota.
  change (Z.to_nat (0 - 0)) with O. cbn [lz4_search res_bind].
  change (0 >=? 4) with false. cbn iota. change (0 =? 0) with true. cbn iota.
  rewrite Z.sub_0_r, Z.add_0_l.
  pose proof (slice_app [] src []) as S1. cbn [app] in S1. rewrite app_nil_r, len_nil, Z.add_0_l in S1.
  rewrite S1. cbn [res_bind]. destruct (writeLiteralRun [] src); cbn [res_bind]; [|done|done].
  by rewrite Z.ltb_irrefl.
Qed.

(** The output holds every literal byte after the block's length header. *)
Lemma lz4_literal_loop_len fuel lit off remaining out :
  0 <= off -> 0 <= remaining -> off + remaining = len lit -> remaining < Z.of_nat fuel ->
  exists out', lz4_literal_loop fuel lit off remaining out = Ok out' /\
    len out + remaining <= len out'.
Proof.
  revert off remaining out. induction fuel as [|f IH]; intros off remaining out Ho Hr Hsum Hf; [lia|].
  cbn [lz4_literal_loop]. destruct (remaining >? 0) eqn:E; zbool.
  - set (n := if remaining >? 65535 then 65535 else remaining).
    assert (0 < n <= remaining) by (unfold n; destruct (_ >? 65535) eqn:E2; zbool; lia).
    rewrite slice_ok by lia. cbn [res_bind]. rewrite Z.add_simpl_l.
    set (hdr := if n >=? 15 then _ else _).
    edestruct (IH (off + n) (remaining - n)) as (o & -> & Hlen); [lia..|].
    eexists. split; [done|]. rewrite !len_app in Hlen. pose proof (len_nonneg hdr).
    assert (len (take (Z.to_nat n) (drop (Z.to_nat off) lit)) = n)
      by (unfold len in *; rewrite length_take, length_drop; lia). lia.
  - eexists. split; [done|]. lia.
Qed.

Lemma lz4_block_len src : exists b, lz4CompressBlock src = Ok b /\ len src <= len b.
Proof.
  destruct (decide (src = [])) as [-> | Hne]; [by exists []|].
  rewrite lz4_block_literal by done. unfold writeLiteralRun.
  destruct (lz4_literal_loop_len (S (length src)) src 0 (len src) []) as (b & -> & Hb);
    [lia | apply len_nonneg | lia | unfold len; lia |].
  exists b. split; [done|]. rewrite len_nil in Hb. lia.
Qed.

Lemma Compress_expands `{Codecs} codec level input :
  codec = CodecSnappy \/ codec = CodecLZ4 ->
  exists c, Compress codec level input = Ok c /\ len input < len c.
Proof.
  intros [-> | ->]; unfold Compress; cbn [Z.eqb CodecNone CodecGzip CodecSnappy CodecLZ4].
  - change (CodecSnappy =? CodecNone) with false. change (CodecSnappy =? CodecGzip) with false.
    change (CodecSnappy =? CodecSnappy) with true. cbn iota.
    rewrite SnappyEncode_lits. eexists. split; [done|]. rewrite len_app.
    pose proof (len_uvarint_pos 9 (len input)).
    pose proof (len_snappy_lits (S (length input)) input ltac:(lia)). lia.
  - change (CodecLZ4 =? CodecNone) with false. change (CodecLZ4 =? CodecGzip) with false.
    change (CodecLZ4 =? CodecSnappy) with false. change (CodecLZ4 =? CodecLZ4) with true. cbn iota.
    unfold LZ4Encode. destruct (lz4_block_len input) as (b & -> & Hb). cbn [res_bind].
    eexists. split; [done|]. rewrite !len_app, !len_be_bytes. lia.
Qed.

(** Snappy and LZ4 never shrink a payload: both encoders always succeed
    and produce more bytes than they are given, so a producer configured with
    either codec always sends its batches uncompressed. *)
Theorem snappy_lz4_never_shrink `{Codecs} codec level input :
  codec = CodecSnappy \/ codec = CodecLZ4 ->
  exists c, Compress codec level input = Ok c /\ len input < len c.
Proof. apply Compress_expands. Qed.

Lemma lz4_ext_roundtrip fuel x n rest :
  0 <= x < 255 * Z.of_nat fuel ->
  lz4_read_ext (lz4_ext_len fuel x ++ rest) n = Ok (n + x, rest).
Proof.
  revert x n. induction fuel as [|f IH]; intros x n Hx; [lia|]. cbn [lz4_ext_len].
  destruct (x >=? 255) eqn:E; zbool.
  - cbn [app lz4_read_ext]. rewrite b2z_z2b. change (255 mod 256) with 255. cbn [Z.eqb].
    change (255 =? 255) with true. cbn [negb]. rewrite IH by lia. f_equal. f_equal. lia.
  - cbn [app lz4_read_ext]. rewrite b2z_z2b, Z.mod_small by lia.
    destruct (Z.eqb_spec x 255); [lia|]. done.
Qed.

(** The block of an input of at most 65535 bytes is decoded in one pass. *)
Lemma lz4_block_roundtrip src : 0 < len src <= 65535 ->
  exists b, lz4CompressBlock src = Ok b /\ len b < 2 ^ 32 /\ lz4DecompressBlock b (len src) = Ok src.
Proof.
  intros Hs. assert (src <> []) as Hne by (intros E; rewrite E in Hs; unfold len in Hs; cbn [length] in Hs; lia).
  rewrite lz4_block_literal by done. unfold writeLiteralRun.
  destruct (length src) as [|k] eqn:El; [unfold len in Hs; lia|]. rewrite <- El.
  cbn [lz4_literal_loop]. destruct (len src >? 0) eqn:E; zbool; [|lia].
  destruct (len src >? 65535) eqn:E2; zbool; [lia|].
  pose proof (slice_app [] src []) as S1. cbn [app] in S1. rewrite app_nil_r, len_nil in S1.
  rewrite S1. cbn [res_bind app]. rewrite El. cbn [lz4_literal_loop]. rewrite Z.sub_diag. cbn [Z.gtb Z.compare].
  set (hdr := if len src >=? 15 then _ else _). exists (hdr ++ src). split; [done|].
  assert (Hrun : exists t ext, hdr = t :: ext /\ len hdr <= 300 /\
    (if Z.shiftr (b2z t) 4 =? 15 then lz4_read_ext (ext ++ src) 15 else Ok (Z.shiftr (b2z t) 4, ext ++ src))
      = Ok (len src, src)).
  { unfold hdr. destruct (len src >=? 15) eqn:E3; zbool.
    - eexists _, _. split; [done|]. split.
      + rewrite len_cons. enough (forall f x, len (lz4_ext_len f x) <= Z.of_nat f) as Hext by (specialize (Hext 258%nat (len src - 15)); lia).
        clear. intros f. induction f; intros x; cbn [lz4_ext_len]; [done|].
        destruct (x >=? 255); [rewrite len_cons; specialize (IHf (x - 255)); lia | unfold len; cbn [length]; lia].
      + rewrite b2z_z2b. change (Z.shiftr (0xf0 mod 256) 4 =? 15) with true. cbn iota.
        rewrite lz4_ext_roundtrip by lia. f_equal. f_equal. lia.
    - eexists _, _. split; [done|]. split; [done|]. rewrite b2z_z2b, Z.shiftl_mul_pow2, Z.mod_small by lia.
      rewrite Z.shiftr_div_pow2, Z.div_mul by lia. destruct (Z.eqb_spec (len src) 15); [lia | done]. }
  destruct Hrun as (t & ext & -> & Hlen & Hrun). split; [rewrite len_app; lia|].
  unfold lz4DecompressBlock. cbn [lz4_decompress_loop app length]. rewrite len_nil.
  destruct (Z.ltb_spec 0 (len src)); [|lia].
  unfold lz4_sequence. rewrite Hrun. cbn [res_bind].
  destruct (len src >? len src) eqn:E4; zbool; [lia|].
  rewrite Z.add_0_l in S1. rewrite S1. cbn [res_bind].
  pose proof (slice_app src [] []) as S2. rewrite !app_nil_r, len_nil, Z.add_0_r in S2. rewrite S2. cbn [res_bind app].
  destruct (len src >=? len src) eqn:E5; zbool; [|lia]. cbn [res_bind]. by rewrite Z.eqb_refl.
Qed.

(** LZ4 round trip for inputs of at most 65535 bytes (one literal run)
    within the decompression limit. *)
Theorem lz4_roundtrip `{Codecs} bs :
  len bs <= 65535 -> len bs <= MaxDecompressedBytes ->
  exists c, LZ4Encode bs = Ok c /\ LZ4Decode c = Ok bs.
Proof.
  intros Hl Hmax. unfold LZ4Encode. pose proof (len_nonneg bs).
  assert (exists b, lz4CompressBlock bs = Ok b /\ len b < 2 ^ 32 /\ lz4DecompressBlock b (len bs) = Ok bs)
    as (b & -> & Hb & Hd).
  { destruct (decide (bs = [])) as [-> | Hne]; [by exists []|]. apply lz4_block_roundtrip.
    destruct bs; [done|]. rewrite len_cons in *. pose proof (len_nonneg bs). lia. }
  cbn [res_bind]. eexists. split; [done|]. unfold LZ4Decode. pose proof (len_nonneg b).
  unfold u32. rewrite !Z.mod_small by lia.
  set (h1 := be_bytes 4 (len b)). set (h2 := be_bytes 4 (len bs)).
  assert (L1 : len h1 = 4) by apply len_be_bytes. assert (L2 : len h2 = 4) by apply len_be_bytes.
  rewrite !len_app, L1, L2. destruct (Z.ltb_spec (4 + (4 + len b)) 8); [lia|].
  pose proof (slice_app [] h1 (h2 ++ b)) as S1. cbn [app] in S1. rewrite len_nil, L1 in S1. change (0 + 4) with 4 in S1. rewrite S1.
  pose proof (slice_app h1 h2 b) as S2. rewrite L1, L2 in S2. change (4 + 4) with 8 in S2. rewrite S2. cbn [res_bind].
  assert (be_value h1 = len b) as -> by (unfold h1; rewrite be_value_be_bytes, Z.mod_small; lia).
  assert (be_value h2 = len bs) as -> by (unfold h2; rewrite be_value_be_bytes, Z.mod_small; lia).
  destruct (len bs >? MaxDecompressedBytes) eqn:E; zbool; [lia|].
  destruct (Z.ltb_spec (4 + (4 + len b)) (8 + len b)); [lia|].
  pose proof (slice_app (h1 ++ h2) b []) as S3. rewrite app_nil_r, len_app, L1, L2, <- app_assoc in S3.
  change (4 + 4) with 8 in S3. rewrite S3. done.
Qed.

(** * A concrete instance *)

(** "Stored" streams: a ten-byte header and the bytes themselves, with the
    client's default limit of 64 MiB. *)
#[local] Instance stored_codecs : Codecs := {|
  MaxDecompressedBytes := 64 * 2 ^ 20;
  gzip_deflate _ bs := Ok (repeat x1f 10 ++ bs);
  gzip_inflate c limit := if len c <? 10 then Err (FmtError "gzip: invalid header" 0) else Ok (take (Z.to_nat limit) (drop 10 c))
|}.

Lemma stored_codecs_laws : @CodecLaws stored_codecs.
Proof.
  split.
  - cbn. lia.
  - intros lvl bs c limit _ Hc Hl. apply Ok_inj in Hc as <-. cbn [gzip_inflate stored_codecs].
    rewrite len_app. change (len (repeat x1f 10)) with 10. pose proof (len_nonneg bs).
    destruct (Z.ltb_spec (10 + len bs) 10); [lia|]. change (drop 10 (repeat x1f 10 ++ bs)) with bs.
    rewrite take_ge; [done|]. unfold len in Hl. lia.
  - intros lvl bs c Hc. apply Ok_inj in Hc as <-.
    rewrite len_app. change (len (repeat x1f 10)) with 10. pose proof (len_nonneg bs). lia.
  - intros bs limit. cbn. by destruct (len bs <? 10).
Qed.

(** A payload the LZ4 encoder splits is not read back: the decoder takes the
    header of the second run for a match offset. *)
Example lz4_split_run_rejected :
  (let? c := LZ4Encode (repeat x41 (Z.to_nat 65536)) in LZ4Decode c) = Err errLZ4.
Proof. vm_compute. reflexivity. Qed.

(** The Snappy format's one-byte-offset copy element: the stream of eight times
    [a] as a literal and a copy of length 7 at offset 1.  The decoder reads a
    two-byte offset there and rejects it. *)
Example snappy_copy_rejected :
  SnappyDecode [x08; x00; x61; x0d; x01] = Err errSnappyCorrupt.
Proof. vm_compute. reflexivity. Qed.

Lemma snappy_roundtrip_witness : exists c, SnappyEncode (str "hello") = Ok c /\ SnappyDecode c = Ok (str "hello").
Proof. apply (@snappy_roundtrip stored_codecs stored_codecs_laws). vm_compute. discriminate. Defined.

Lemma decompress_total_witness : Decompress CodecSnappy (str "garbage") <> Panic.
Proof. apply (@decompress_total stored_codecs stored_codecs_laws). Defined.

Lemma snappy_lz4_never_shrink_witness :
  exists c, Compress CodecSnappy 0 (str "aaaaaaaa") = Ok c /\ len (str "aaaaaaaa") < len c.
Proof. apply (snappy_lz4_never_shrink (H := stored_codecs)). left. reflexivity. Defined.

Lemma lz4_roundtrip_witness : exists c, LZ4Encode (str "hello") = Ok c /\ LZ4Decode c = Ok (str "hello").
Proof. apply (lz4_roundtrip (H := stored_codecs)); vm_compute; discriminate. Defined.
