(* ===== verification/RecordBatch.v ===== *)
(** Record batches (magic 2): the encoder of [internal/protocol/produce.go]
    ([encodeRecordBatch], [encodeRecordsPayload], [appendRecord], the grouping
    helpers) and the decoder of [internal/protocol/fetch.go]
    ([decodeRecordBatch], [decodeOneRecordBatch], [parseRecords]).

    Clock readings ([time.Now]) are arguments: each call site of one
    [encodeRecordBatch] has its own reading. *)

From Stdlib Require Import ZArith Lia.
From Stdlib Require Import Strings.Byte.
From stdpp Require Import base list gmap countable strings.
From S2P Require Import Prelude.
From S2P Require Import Wire.
From S2P Require Import Checksum.
From S2P Require Import Compress.

Open Scope Z_scope.

(** * Producing *)

(** [pr_Timestamp] is [None] for the zero [time.Time], else the time's
    [UnixMilli].  The code never distinguishes a nil key or value from an
    empty one. *)
Record ProduceRecord := mkProduceRecord {
  pr_Topic : bytes;
  pr_Partition : Z;
  pr_Key : bytes;
  pr_Value : bytes;
  pr_Headers : list (bytes * bytes);
  pr_Timestamp : option Z }.

(** [ps_NextSequence] is [None] for a nil function.  Within one request the
    code calls it at most once per topic and partition. *)
Record ProduceSettings := mkProduceSettings {
  ps_Acks : Z;
  ps_TimeoutMs : Z;
  ps_Compression : Z;
  ps_CompressionLevel : Z;
  ps_Transactional : bool;
  ps_TransactionalID : bytes;
  ps_ProducerID : Z;
  ps_ProducerEpoch : Z;
  ps_NextSequence : option (bytes -> Z -> Z) }.

(** The loop [n := 1; for uv >= 0x80 { uv >>= 7; n++ }] of [varintLen]. *)
Fixpoint uvarint_len (fuel : nat) (uv : Z) : Z :=
  match fuel with
  | O => 1
  | S f => if uv >=? 128 then 1 + uvarint_len f (Z.shiftr uv 7) else 1
  end.

Definition varintLen (v : Z) : Z := uvarint_len 9 (zigzag_enc v).

Definition recordBodyLen (key value : bytes) (headers : list (bytes * bytes))
    (offsetDelta timestampDelta : Z) : Z :=
  fold_left (fun n h => n + (varintLen (len (fst h)) + len (fst h))
                          + (varintLen (len (snd h)) + len (snd h)))
    headers
    (1 + varintLen timestampDelta + varintLen offsetDelta
       + (varintLen (len key) + len key) + (varintLen (len value) + len value)
       + varintLen (len headers)).

Definition append_header (h : bytes * bytes) : Enc :=
  WriteVarint (len (fst h)) +++ raw (fst h) +++
  WriteVarint (len (snd h)) +++ raw (snd h).

(** Everything [appendRecord] writes after the length prefix. *)
Definition record_body (key value : bytes) (headers : list (bytes * bytes))
    (offsetDelta timestampDelta : Z) : Enc :=
  WriteInt8 0 +++
  WriteVarint timestampDelta +++
  WriteVarint offsetDelta +++
  WriteVarint (len key) +++ raw key +++
  WriteVarint (len value) +++ raw value +++
  WriteVarint (len headers) +++
  enc_list append_header headers.

Definition appendRecord (key value : bytes) (headers : list (bytes * bytes))
    (offsetDelta timestampDelta : Z) : Enc :=
  WriteVarint (recordBodyLen key value headers offsetDelta timestampDelta) +++
  record_body key value headers offsetDelta timestampDelta.

(** [now] is the reading of the clock on entry. *)
Definition record_delta (now firstMsVal : Z) (pr : ProduceRecord) : Z :=
  match pr_Timestamp pr with
  | None => s64 (now - firstMsVal)
  | Some t => s64 (t - firstMsVal)
  end.

Fixpoint append_records (now firstMsVal i : Z) (records : list ProduceRecord) : Enc :=
  match records with
  | [] => enc_nil
  | pr :: rest =>
      appendRecord (pr_Key pr) (pr_Value pr) (pr_Headers pr) i (record_delta now firstMsVal pr) +++
      append_records now firstMsVal (i + 1) rest
  end.

Definition encodeRecordsPayload (now : Z) (records : list ProduceRecord) : Enc :=
  match records with
  | [] => Panic
  | r0 :: _ => append_records now (default now (pr_Timestamp r0)) 0 records
  end.

(** Overwrite [bs] at [pos] ([binary.BigEndian.PutUint32(body[pos:...], ...)]). *)
Definition patch (bs : bytes) (pos : nat) (new : bytes) : bytes :=
  take pos bs ++ new ++ drop (pos + length new) bs.

(** The millisecond time of each record; [clock i] is the reading of the
    clock for record [i]. *)
Fixpoint max_ms (clock : nat -> Z) (i : nat) (acc : Z) (records : list ProduceRecord) : Z :=
  match records with
  | [] => acc
  | r :: rest =>
      let m := default (clock i) (pr_Timestamp r) in
      max_ms clock (S i) (if m >? acc then m else acc) rest
  end.

(** The record-batch header after [batchLength], patched fields included, and
    the payload.  [clock 0] is the reading for the first timestamp, [clock (S i)]
    for record [i], [clock (S n)] the one of [encodeRecordsPayload]. *)
Definition encodeRecordBatch `{Codecs} (clock : nat -> Z) (records : list ProduceRecord)
    (settings : ProduceSettings) (baseSequence : Z) : res bytes :=
  match records with
  | [] => Err (FmtError "protocol: empty record batch" 0)
  | r0 :: _ =>
      let firstMs := default (clock 0%nat) (pr_Timestamp r0) in
      let maxMs := max_ms clock 1 firstMs records in
      let? payload := encodeRecordsPayload (clock (S (length records))) records in
      let attributes := if ps_Transactional settings then 0x10 else 0 in
      let? pa :=
        if negb (ps_Compression settings =? 0) then
          let? compressed := Compress (ps_Compression settings) (ps_CompressionLevel settings) payload in
          if len compressed <? len payload
          then Ok (compressed, Z.lor attributes (s16 (ps_Compression settings)))
          else Ok (payload, attributes)
        else Ok (payload, attributes) in
      let '(recordsPayload, attributes) := pa in
      let lastOffsetDelta := s32 (len records - 1) in
      let '(producerID, producerEpoch, baseSeq) :=
        match ps_NextSequence settings with
        | None => (-1, -1, -1)
        | Some _ => (ps_ProducerID settings, ps_ProducerEpoch settings, baseSequence)
        end in
      let? body :=
        WriteInt64 0 +++ WriteInt32 0 +++ WriteInt32 (-1) +++ WriteInt8 2 +++ WriteInt32 0 +++
        WriteInt16 attributes +++ WriteInt32 lastOffsetDelta +++
        WriteInt64 firstMs +++ WriteInt64 maxMs +++
        WriteInt64 producerID +++ WriteInt16 producerEpoch +++ WriteInt32 baseSeq +++
        WriteInt32 (s32 (len records)) +++
        raw recordsPayload in
      let batchLen := s32 (len body - 12) in
      let body := patch body 8 (be_bytes 4 (u32 batchLen)) in
      let crc := crc32 Castagnoli (drop 21 body) in
      Ok (patch body 17 (be_bytes 4 crc))
  end.

(** ** Grouping *)

(** [groupByTopic] and [groupByPartition] are the same loop: the keys in order
    of first appearance, and for each the records that have it, in order. *)
Definition group_step {A K} `{Countable K} (key : A -> K)
    (st : list K * gmap K (list A)) (r : A) : list K * gmap K (list A) :=
  let '(order, m) := st in
  ((match m !! key r with Some _ => order | None => order ++ [key r] end),
   <[key r := default [] (m !! key r) ++ [r]]> m).

Definition group_by {A K} `{Countable K} (key : A -> K) (records : list A) : list (K * list A) :=
  let '(order, m) := fold_left (group_step key) records ([], ∅) in
  map (fun k => (k, default [] (m !! k))) order.

Definition groupByTopic (records : list ProduceRecord) : list (bytes * list ProduceRecord) :=
  group_by pr_Topic records.
Definition groupByPartition (records : list ProduceRecord) : list (Z * list ProduceRecord) :=
  group_by pr_Partition records.

(** * Consuming *)

Record FetchedRecord := mkFetchedRecord {
  fr_Topic : bytes;
  fr_Partition : Z;
  fr_Offset : Z;
  fr_Key : bytes;
  fr_Value : bytes;
  fr_Headers : list (bytes * bytes);
  fr_Timestamp : Z;
  fr_Control : bool;
  fr_DeliveryCount : Z }.

Record abortedTxn := mkAbortedTxn { at_producerID : Z; at_firstOffset : Z }.

(** The cursor, the length of the buffer and the assignment [buf.I = v]. *)
Definition rd_pos : Rd Z := fun b => (b, Ok (bufI b)).
Definition rd_buflen : Rd Z := fun b => (b, Ok (len (bufB b))).
Definition rd_set_pos (v : Z) : Rd unit := fun b => (mkBuffer (bufB b) v, Ok tt).
(** The closure [take] of [parseRecords]: no bounds check of its own. *)
Definition rd_copy (n : Z) : Rd bytes := fun b =>
  match slice (bufB b) (bufI b) (bufI b + n) with
  | Ok s => (mkBuffer (bufB b) (bufI b + n), Ok s)
  | Err e => (b, Err e)
  | Panic => (b, Panic)
  end.

(** A length-prefixed field: [None] when the length runs past the buffer, in
    which case the caller abandons the record. *)
Definition read_field : Rd (option bytes) :=
  n <- ReadVarint ;;
  if n >? 0 then
    rem <- rd_remaining ;;
    if n >? len rem then ret None else (s <- rd_copy n ;; ret (Some s))
  else ret (Some []).

(** One pass of the header loop; the flag is [break]. *)
Definition read_header (recordEnd : Z) (hdrs : list (bytes * bytes)) : Rd (list (bytes * bytes) * bool) :=
  k <- read_field ;;
  match k with
  | None => rd_set_pos recordEnd ;;; ret (hdrs, true)
  | Some k =>
      v <- read_field ;;
      match v with
      | None => rd_set_pos recordEnd ;;; ret (hdrs, true)
      | Some v => ret (hdrs ++ [(k, v)], false)
      end
  end.

(** How one pass of [parseRecords]'s loop ends: [break], [continue] without a
    record, or an appended record. *)
Inductive parse_outcome := PBreak | PSkip | PRecord (r : FetchedRecord).

(** The fields of a record that ends at [recordEnd]. *)
Definition parse_fields (topic : bytes) (part baseOffset baseTimestamp recordEnd : Z) : Rd parse_outcome :=
  ReadInt8 ;;;
  tsDelta <- ReadVarint ;;
  offsetDelta <- ReadVarint ;;
  key <- read_field ;;
  match key with
  | None => rd_set_pos recordEnd ;;; ret PSkip
  | Some key =>
      val <- read_field ;;
      match val with
      | None => rd_set_pos recordEnd ;;; ret PSkip
      | Some val =>
          nHdrs <- ReadVarint ;;
          hd <- rd_for_brk nHdrs (read_header recordEnd) [] ;;
          rd_set_pos recordEnd ;;;
          ret (PRecord (mkFetchedRecord topic part (s64 (baseOffset + offsetDelta)) key val
                 (fst hd) (s64 (baseTimestamp + tsDelta)) false 0))
      end
  end.

(** One pass of the loop. *)
Definition parse_one (topic : bytes) (part baseOffset baseTimestamp : Z) : Rd parse_outcome :=
  length <- ReadVarint ;;
  if length <=? 0 then ret PBreak else
  pos <- rd_pos ;;
  let recordEnd := pos + length in
  blen <- rd_buflen ;;
  if recordEnd >? blen then ret PBreak else
  parse_fields topic part baseOffset baseTimestamp recordEnd.

(** The loop of [parseRecords]; every pass moves the cursor forward, so
    [S (len data)] passes always reach its end ([parse_loop_fuel] below). *)
Fixpoint parse_loop (fuel : nat) (topic : bytes) (part baseOffset baseTimestamp : Z)
    (out : list FetchedRecord) : Rd (list FetchedRecord) :=
  match fuel with
  | O => panic
  | S f =>
      rem <- rd_remaining ;;
      if len rem <=? 0 then ret out else
      o <- parse_one topic part baseOffset baseTimestamp ;;
      match o with
      | PBreak => ret out
      | PSkip => parse_loop f topic part baseOffset baseTimestamp out
      | PRecord r => parse_loop f topic part baseOffset baseTimestamp (out ++ [r])
      end
  end.

Definition parseRecords (topic : bytes) (part : Z) (data : bytes) (baseOffset baseTimestamp : Z) :
    res (list FetchedRecord) :=
  run (parse_loop (S (length data)) topic part baseOffset baseTimestamp []) data.

Record recordBatchInfo := mkBatchInfo {
  bi_baseOffset : Z;
  bi_lastOffset : Z;
  bi_producerID : Z;
  bi_isControl : bool;
  bi_isTransactional : bool;
  bi_records : list FetchedRecord }.

(** The header fields after the checksum, as [decodeOneRecordBatch] reads
    them: attributes, lastOffsetDelta, firstTimestamp, producerID, the bytes
    of the records. *)
Definition read_batch_tail : Rd (Z * Z * Z * Z * bytes) :=
  attributes <- ReadInt16 ;;
  lastOffsetDelta <- ReadInt32 ;;
  firstTimestamp <- ReadInt64 ;;
  ReadInt64 ;;;
  producerID <- ReadInt64 ;;
  ReadInt16 ;;;
  ReadInt32 ;;;
  ReadInt32 ;;;
  recordsBytes <- rd_remaining ;;
  ret (attributes, lastOffsetDelta, firstTimestamp, producerID, recordsBytes).

Definition decodeOneRecordBatch `{Codecs} (topic : bytes) (part : Z) (batch : bytes) :
    res (option recordBatchInfo) :=
  if len batch <? 65 then Ok None else
  let? hdr := run (
    baseOffset <- ReadInt64 ;;
    ReadInt32 ;;;
    ReadInt32 ;;;
    magic <- ReadInt8 ;;
    if negb (magic =? 2) then fail (FmtError "protocol: unsupported record batch magic" magic) else
    crc <- ReadInt32 ;;
    covered <- lift (slice batch 21 (len batch)) ;;
    if negb (crc32 Castagnoli covered =? u32 crc)
    then fail (FmtError "protocol: record batch CRC-32C mismatch" (crc32 Castagnoli covered)) else
    t <- read_batch_tail ;;
    ret (baseOffset, t)) batch in
  let '(baseOffset, (attributes, lastOffsetDelta, firstTimestamp, producerID, recordsBytes)) := hdr in
  let info := mkBatchInfo baseOffset (s64 (baseOffset + lastOffsetDelta)) producerID
    (negb (Z.land attributes 0x20 =? 0)) (negb (Z.land attributes 0x10 =? 0)) in
  if negb (Z.land attributes 0x20 =? 0) then Ok (Some (info [])) else
  let codec := s8 (Z.land attributes 0x7) in
  let? recordsBytes := if negb (codec =? 0) then Decompress codec recordsBytes else Ok recordsBytes in
  let? recs := parseRecords topic part recordsBytes baseOffset firstTimestamp in
  Ok (Some (info recs)).

(** The marker record that only carries an offset. *)
Definition control_record (topic : bytes) (part offset : Z) : FetchedRecord :=
  mkFetchedRecord topic part offset [] [] [] 0 true 0.

(** Move the aborted transactions that start at or before [baseOffset] from
    the list into the set of aborted producers. *)
Fixpoint advance_aborted (aborted : list abortedTxn) (pids : gset Z) (baseOffset : Z) :
    list abortedTxn * gset Z :=
  match aborted with
  | a :: rest =>
      if at_firstOffset a <=? baseOffset
      then advance_aborted rest ({[at_producerID a]} ∪ pids) baseOffset
      else (aborted, pids)
  | [] => ([], pids)
  end.

(** The [switch] of [decodeRecordBatch]: what one batch contributes. *)
Definition filter_batch (topic : bytes) (part : Z) (pids : gset Z) (info : recordBatchInfo) :
    list FetchedRecord * gset Z :=
  if bi_isControl info
  then ([control_record topic part (bi_lastOffset info)], pids ∖ {[bi_producerID info]})
  else if bi_isTransactional info && bool_decide (bi_producerID info ∈ pids)
  then ([control_record topic part (bi_lastOffset info)], pids)
  else (bi_records info, pids).

(** The loop over the batches of a partition; each pass drops at least 12
    bytes, so [S (len data)] passes always finish it. *)
Fixpoint batch_loop `{Codecs} (fuel : nat) (topic : bytes) (part : Z) (data : bytes)
    (aborted : list abortedTxn) (pids : gset Z) (out : list FetchedRecord) : res (list FetchedRecord) :=
  match fuel with
  | O => Panic
  | S f =>
      if len data <? 12 then Ok out else
      let? lenField := slice data 8 12 in
      let batchLen := be_value lenField in
      let total := 12 + batchLen in
      if (batchLen <? 0) || (total >? len data) then Ok out else
      let? batch := slice data 0 total in
      let? info := decodeOneRecordBatch topic part batch in
      let? data := slice data total (len data) in
      match info with
      | None => batch_loop f topic part data aborted pids out
      | Some info =>
          let '(aborted, pids) := advance_aborted aborted pids (bi_baseOffset info) in
          let '(recs, pids) := filter_batch topic part pids info in
          batch_loop f topic part data aborted pids (out ++ recs)
      end
  end.

Definition decodeRecordBatch `{Codecs} (topic : bytes) (part : Z) (data : bytes)
    (aborted : list abortedTxn) : res (list FetchedRecord) :=
  batch_loop (S (length data)) topic part data aborted ∅ [].
