(* ===== verification/RecordBatchFacts.v ===== *)
(** Theorems on record batches: exact lengths, the encode/decode round trip,
    termination and safety of the decoder, the grouping helpers, and the
    read-committed filter. *)

From Stdlib Require Import ZArith Lia.
From Stdlib Require Import Strings.Byte Sorted.
From stdpp Require Import base list gmap countable strings.
From S2P Require Import Prelude.
From S2P Require Import Wire.
From S2P Require Import Checksum.
From S2P Require Import Compress.
From S2P Require Import CompressFacts.
From S2P Require Import RecordBatch.

Open Scope Z_scope.

(** * Lengths *)

Lemma len_uvarint_bytes g x : len (uvarint_bytes g x) = uvarint_len g x.
Proof.
  revert x. induction g as [|g IH]; intros x; [done|]. cbn [uvarint_bytes uvarint_len].
  destruct (x >=? 128); [|done]. by rewrite len_cons, IH.
Qed.

Lemma ELen_varint v : ELen (WriteVarint v) (varintLen v).
Proof.
  intros bs Hbs. assert (bs = uvarint_bytes 9 (zigzag_enc v)) as -> by (unfold WriteVarint, WriteUvarint in Hbs; congruence).
  apply len_uvarint_bytes.
Qed.

(** The length of the header part of a record. *)
Definition headers_len (headers : list (bytes * bytes)) : Z :=
  foldr (fun h n => (varintLen (len (fst h)) + len (fst h)) +
                    (varintLen (len (snd h)) + len (snd h)) + n) 0 headers.

Lemma headers_len_cons h hs :
  headers_len (h :: hs) = (varintLen (len (fst h)) + len (fst h)) +
    (varintLen (len (snd h)) + len (snd h)) + headers_len hs.
Proof. done. Qed.

Lemma fold_headers_len headers n :
  fold_left (fun n h => n + (varintLen (len (fst h)) + len (fst h))
                          + (varintLen (len (snd h)) + len (snd h))) headers n =
  n + headers_len headers.
Proof.
  revert n. induction headers as [|h hs IH]; intros n; cbn [fold_left]; [cbn; lia|].
  rewrite IH, headers_len_cons. lia.
Qed.

Lemma ELen_headers headers : ELen (enc_list append_header headers) (headers_len headers).
Proof.
  induction headers as [|h hs IH]; [by intros bs [= <-]|].
  rewrite enc_list_cons, headers_len_cons. apply ELen_app; [|done].
  rewrite <- Z.add_assoc. unfold append_header.
  repeat (apply ELen_app; [apply ELen_varint || apply ELen_raw|]). apply ELen_raw.
Qed.

Lemma ELen_record_body key value headers off ts :
  ELen (record_body key value headers off ts) (recordBodyLen key value headers off ts).
Proof.
  unfold recordBodyLen. rewrite fold_headers_len. intros bs Hbs.
  enough (len bs = 1 + (varintLen ts + (varintLen off + (varintLen (len key) + (len key +
    (varintLen (len value) + (len value + (varintLen (len headers) + headers_len headers)))))))) by lia.
  revert bs Hbs. change (ELen (record_body key value headers off ts)
    (1 + (varintLen ts + (varintLen off + (varintLen (len key) + (len key +
    (varintLen (len value) + (len value + (varintLen (len headers) + headers_len headers))))))))).
  unfold record_body. apply ELen_app; [apply (ELen_be 1)|].
  repeat (apply ELen_app; [apply ELen_varint || apply ELen_raw|]). apply ELen_headers.
Qed.

(** The record encoder's length arithmetic is exact.  [varintLen] is the
    number of bytes [WriteVarint] writes, [recordBodyLen] the number of bytes
    a record body takes, so the length prefix [appendRecord] writes is the
    length of what follows it and the presized batch buffer never grows. *)
Theorem record_length_exact key value headers off ts bs :
  appendRecord key value headers off ts = Ok bs ->
  exists prefix body,
    bs = prefix ++ body /\
    WriteVarint (len body) = Ok prefix /\
    record_body key value headers off ts = Ok body /\
    len bs = varintLen (recordBodyLen key value headers off ts) + recordBodyLen key value headers off ts.
Proof.
  intros (prefix & body & H1 & H2 & ->)%enc_app_ok.
  pose proof (ELen_record_body _ _ _ _ _ _ H2) as Hl.
  exists prefix, body. repeat split; [by rewrite Hl | done |].
  by rewrite len_app, Hl, (ELen_varint _ _ H1).
Qed.

Lemma record_length_exact_witness :
  exists prefix body,
    appendRecord (str "k") (str "value") [(str "h", str "v")] 3 (-7) = Ok (prefix ++ body) /\
    WriteVarint (len body) = Ok prefix.
Proof.
  destruct (appendRecord (str "k") (str "value") [(str "h", str "v")] 3 (-7)) as [bs| |] eqn:E;
    [|vm_compute in E; discriminate|vm_compute in E; discriminate].
  destruct (record_length_exact _ _ _ _ _ _ E) as (p & b & -> & Hp & _). eauto.
Defined.

(** * Round trip of one record *)

(** Field lengths and deltas a varint field carries both ways. *)
Definition small (s : bytes) : Prop := len s < 2 ^ 28.
Definition wf_header (h : bytes * bytes) : Prop := small (fst h) /\ small (snd h).

Lemma varint29_len {A} (l : list A) : len l < 2 ^ 28 -> varint29 (len l).
Proof. pose proof (len_nonneg l). unfold varint29. lia. Qed.

Lemma remaining_at pre bs post :
  Remaining (mkBuffer (pre ++ bs ++ post) (len pre)) = bs ++ post.
Proof.
  unfold Remaining. cbn [bufI bufB]. rewrite !len_app.
  destruct (_ >=? _) eqn:E; zbool.
  - pose proof (len_nonneg bs). pose proof (len_nonneg post).
    assert (len (bs ++ post) = 0) as Hz by (rewrite len_app; lia).
    by apply len_zero in Hz.
  - unfold len. by rewrite Nat2Z.id, drop_app_length.
Qed.

Lemma Reads_field s : small s -> Reads read_field (WriteVarint (len s) +++ raw s) (Some s).
Proof.
  intros Hs. apply varint29_len in Hs. unfold read_field.
  eapply Reads_bind; [by apply Reads_varint|]. pose proof (len_nonneg s).
  destruct (len s >? 0) eqn:E; zbool.
  - intros bs [= <-] pre post. unfold rbind at 1, rd_remaining. rewrite remaining_at.
    destruct (len s >? len (s ++ post)) eqn:E2; zbool.
    + rewrite len_app in E2. pose proof (len_nonneg post). lia.
    + unfold rbind, rd_copy. cbn [bufI bufB]. by rewrite slice_app.
  - assert (s = []) as -> by (apply len_zero; lia). apply Reads_ret.
Qed.

Lemma Reads_header recordEnd hdrs h :
  wf_header h -> Reads (read_header recordEnd hdrs) (append_header h) (hdrs ++ [h], false).
Proof.
  intros [Hk Hv]. unfold read_header, append_header. rewrite <- enc_app_assoc.
  eapply Reads_bind; [by apply Reads_field|]. cbn beta iota.
  eapply Reads_bind_last; [by apply Reads_field|]. cbn beta iota.
  rewrite <- surjective_pairing. apply Reads_ret.
Qed.

Definition wf_record_fields (key value : bytes) (headers : list (bytes * bytes)) : Prop :=
  small key /\ small value /\ len headers < 2 ^ 28 /\ Forall wf_header headers.

Lemma Reads_record_fields topic part base bts key value headers off ts rec_end pre post :
  wf_record_fields key value headers -> varint29 off -> varint29 ts ->
  (forall body, record_body key value headers off ts = Ok body -> rec_end = len pre + len body) ->
  Reads_at pre post (parse_fields topic part base bts rec_end)
    (record_body key value headers off ts)
    (PRecord (mkFetchedRecord topic part (s64 (base + off)) key value headers
                (s64 (bts + ts)) false 0)).
Proof.
  intros (Hk & Hv & Hh & Hhs) Hoff Hts Hend. unfold parse_fields, record_body in *.
  rewrite <- (enc_app_nil_r (enc_list _ _)) in *.
  rewrite <- (enc_app_assoc (WriteVarint (len key))), <- (enc_app_assoc (WriteVarint (len value))) in *.
  eapply Reads_at_bind; [apply Reads_int8; unfold int8; lia|]. intros b1 H1. cbn beta.
  eapply Reads_at_bind; [by apply Reads_varint|]. intros b2 H2. cbn beta.
  eapply Reads_at_bind; [by apply Reads_varint|]. intros b3 H3. cbn beta.
  eapply Reads_at_bind; [by apply Reads_field|]. intros b4 H4. cbn beta iota.
  eapply Reads_at_bind; [by apply Reads_field|]. intros b5 H5. cbn beta iota.
  eapply Reads_at_bind; [by apply Reads_varint, varint29_len|]. intros b6 H6. cbn beta.
  eapply Reads_at_bind.
  { eapply (Reads_for_brk (read_header rec_end) append_header (fun hs h => hs ++ [h])); [exact Hhs|].
    intros. by apply Reads_header. }
  intros b7 H7 bs Hbs. cbn beta. rewrite fold_left_snoc. injection Hbs as <-.
  unfold reads_at, rbind, rd_set_pos, ret. cbn [bufB fst app]. do 2 f_equal.
  rewrite (Hend (b1 ++ b2 ++ b3 ++ b4 ++ b5 ++ b6 ++ b7)).
  - rewrite !len_app, !len_nil. lia.
  - rewrite H1, H2, H3, H4, H5, H6, H7. cbn. by rewrite app_nil_r.
Qed.

(** A record whose length prefix, deltas and fields fit their varints is read
    back as it was written, and the reader stops at its end. *)
Lemma Reads_record topic part base bts key value headers off ts :
  wf_record_fields key value headers ->
  varint29 off -> varint29 ts ->
  varint29 (recordBodyLen key value headers off ts) ->
  Reads (parse_one topic part base bts) (appendRecord key value headers off ts)
    (PRecord (mkFetchedRecord topic part (s64 (base + off)) key value headers
                (s64 (bts + ts)) false 0)).
Proof.
  intros Hwf Hoff Hts Hlen. unfold parse_one, appendRecord.
  eapply Reads_bind; [by apply Reads_varint|]. cbn beta.
  set (L := recordBodyLen key value headers off ts).
  intros body Hbody pre post. pose proof (ELen_record_body _ _ _ _ _ _ Hbody) as HL.
  fold L in HL.
  assert (0 < L) as HL0.
  { unfold record_body in Hbody. apply enc_app_ok in Hbody as (b1 & b2 & H1 & H2 & ->).
    pose proof (ELen_be 1 0 _ H1). rewrite len_app in HL. pose proof (len_nonneg b2). lia. }
  destruct (Z.leb_spec L 0); [lia|]. unfold rbind at 1, rd_pos. cbn [bufI].
  unfold rbind at 1, rd_buflen. cbn [bufB].
  destruct (_ >? _) eqn:E.
  { zbool. rewrite !len_app in E. pose proof (len_nonneg post). lia. }
  clear E. eapply Reads_record_fields; try done.
  intros body' Hb'. assert (body' = body) as -> by congruence. lia.
Qed.

(** * Round trip of a batch *)

(** What the consumer gets for the records of a batch based at [base] whose
    first timestamp is [bts]. *)
Fixpoint fetched (topic : bytes) (part base bts now firstMs i : Z) (records : list ProduceRecord) :
    list FetchedRecord :=
  match records with
  | [] => []
  | pr :: rest =>
      mkFetchedRecord topic part (s64 (base + i)) (pr_Key pr) (pr_Value pr) (pr_Headers pr)
        (s64 (bts + record_delta now firstMs pr)) false 0 ::
      fetched topic part base bts now firstMs (i + 1) rest
  end.

(** A record the varint fields can carry at index [i] of its batch. *)
Definition wf_record (now firstMs i : Z) (pr : ProduceRecord) : Prop :=
  wf_record_fields (pr_Key pr) (pr_Value pr) (pr_Headers pr) /\
  varint29 i /\ varint29 (record_delta now firstMs pr) /\
  varint29 (recordBodyLen (pr_Key pr) (pr_Value pr) (pr_Headers pr) i (record_delta now firstMs pr)).

Fixpoint wf_records (now firstMs i : Z) (records : list ProduceRecord) : Prop :=
  match records with
  | [] => True
  | pr :: rest => wf_record now firstMs i pr /\ wf_records now firstMs (i + 1) rest
  end.

Lemma uvarint_len_pos f u : 1 <= uvarint_len f u.
Proof.
  revert u. induction f as [|f IH]; intros u; cbn [uvarint_len]; [lia|].
  destruct (_ >=? _); [specialize (IH (Z.shiftr u 7)); lia | lia].
Qed.

Lemma append_records_nonempty now fm i pr rest bs :
  append_records now fm i (pr :: rest) = Ok bs -> 7 <= len bs.
Proof.
  cbn [append_records]. intros (b1 & b2 & H1 & _ & ->)%enc_app_ok. rewrite len_app.
  apply enc_app_ok in H1 as (b3 & b4 & H3 & H4 & ->). rewrite len_app.
  assert (Hv : forall v bs, WriteVarint v = Ok bs -> 1 <= len bs).
  { intros v bs Hbs. rewrite (ELen_varint _ _ Hbs). apply uvarint_len_pos. }
  pose proof (Hv _ _ H3). unfold record_body in H4.
  repeat match goal with H : _ +++ _ = Ok _ |- _ =>
    apply enc_app_ok in H; let x := fresh "x" in let y := fresh "y" in
    destruct H as (x & y & ? & ? & ->) end.
  repeat match goal with H : WriteVarint _ = Ok _ |- _ => apply Hv in H end.
  match goal with H : WriteInt8 0 = Ok ?x |- _ => pose proof (ELen_be 1 0 _ H) end.
  rewrite !len_app. pose proof (len_nonneg b2).
  repeat match goal with |- context [len ?x] =>
    lazymatch goal with H : 0 <= len x |- _ => fail | _ => pose proof (len_nonneg x) end end.
  lia.
Qed.

Lemma parse_loop_records topic part base bts now fm records i out fuel pre bs :
  wf_records now fm i records -> append_records now fm i records = Ok bs ->
  (length records < fuel)%nat ->
  parse_loop fuel topic part base bts out (mkBuffer (pre ++ bs) (len pre)) =
    (mkBuffer (pre ++ bs) (len pre + len bs),
     Ok (out ++ fetched topic part base bts now fm i records)).
Proof.
  revert i out fuel pre bs. induction records as [|pr rest IH]; intros i out fuel pre bs Hwf Hbs Hf.
  - injection Hbs as <-. destruct fuel as [|fuel]; [cbn in Hf; lia|]. cbn [parse_loop fetched].
    unfold rbind, rd_remaining. pose proof (remaining_at pre [] []) as Hr. rewrite !app_nil_r in Hr.
    rewrite app_nil_r, Hr. cbn. by rewrite app_nil_r, Z.add_0_r.
  - pose proof (append_records_nonempty _ _ _ _ _ _ Hbs) as Hne.
    cbn [append_records] in Hbs. apply enc_app_ok in Hbs as (b1 & b2 & H1 & H2 & ->).
    destruct fuel as [|fuel]; [cbn in Hf; lia|]. cbn [parse_loop fetched].
    unfold rbind at 1, rd_remaining. pose proof (remaining_at pre (b1 ++ b2) []) as Hr.
    rewrite !app_nil_r in Hr. rewrite Hr. destruct (Z.leb_spec (len (b1 ++ b2)) 0); [lia|].
    destruct Hwf as [(Hw & Hi & Hd & Hl) Hrest].
    pose proof (Reads_record topic part base bts _ _ _ _ _ Hw Hi Hd Hl _ H1 pre b2) as Hp.
    unfold rbind. rewrite Hp. rewrite <- len_app, (app_assoc pre b1 b2).
    rewrite (IH (i + 1) _ fuel (pre ++ b1) b2); [|done|done|cbn in Hf; lia].
    rewrite !len_app, Z.add_assoc. by rewrite <- !app_assoc.
Qed.

Lemma append_records_count now fm i records bs :
  append_records now fm i records = Ok bs -> Z.of_nat (length records) <= len bs.
Proof.
  revert i bs. induction records as [|pr rest IH]; intros i bs Hbs; [apply len_nonneg|].
  cbn [append_records] in Hbs. apply enc_app_ok in Hbs as (b1 & b2 & H1 & H2 & ->).
  pose proof (append_records_nonempty now fm i pr [] b1) as H8. cbn [append_records] in H8.
  rewrite enc_app_nil_r in H8. specialize (H8 H1). specialize (IH _ _ H2).
  rewrite len_app. cbn [length]. lia.
Qed.

Lemma parseRecords_payload topic part base bts now records bs :
  encodeRecordsPayload now records = Ok bs ->
  wf_records now (from_option (fun r => default now (pr_Timestamp r)) 0 (head records)) 0 records ->
  parseRecords topic part bs base bts =
    Ok (fetched topic part base bts now
          (from_option (fun r => default now (pr_Timestamp r)) 0 (head records)) 0 records).
Proof.
  destruct records as [|r0 rest]; [done|]. cbn [head from_option]. intros Hbs Hwf.
  change (encodeRecordsPayload now (r0 :: rest)) with
    (append_records now (default now (pr_Timestamp r0)) 0 (r0 :: rest)) in Hbs.
  unfold parseRecords, run, FromBytes.
  pose proof (append_records_count _ _ _ _ _ Hbs) as Hc.
  pose proof (parse_loop_records topic part base bts now _ _ 0 [] (S (length bs)) [] bs Hwf Hbs) as Hp.
  rewrite app_nil_l, len_nil in Hp. rewrite Hp; [done|]. unfold len in Hc. lia.
Qed.

(** ** The layout of a batch *)

Definition batch_tail (attributes lastOffsetDelta firstMs maxMs pid epoch seq count : Z)
    (payload : bytes) : bytes :=
  be_bytes 2 attributes ++ be_bytes 4 lastOffsetDelta ++ be_bytes 8 firstMs ++
  be_bytes 8 maxMs ++ be_bytes 8 pid ++ be_bytes 2 epoch ++ be_bytes 4 seq ++
  be_bytes 4 count ++ payload.

Definition batch_bytes (base batchLen : Z) (tail : bytes) : bytes :=
  be_bytes 8 base ++ be_bytes 4 batchLen ++ be_bytes 4 (-1) ++ be_bytes 1 2 ++
  be_bytes 4 (crc32 Castagnoli tail) ++ tail.

Lemma len_batch_tail a l f m p e s c payload :
  len (batch_tail a l f m p e s c payload) = 40 + len payload.
Proof. unfold batch_tail. rewrite !len_app, !len_be_bytes. lia. Qed.

Lemma len_batch_bytes base bl tail : len (batch_bytes base bl tail) = 21 + len tail.
Proof. unfold batch_bytes. rewrite !len_app, !len_be_bytes. lia. Qed.

Lemma patch_app a old c new :
  length old = length new -> patch (a ++ old ++ c) (length a) new = a ++ new ++ c.
Proof.
  intros H. unfold patch. rewrite take_app_length. f_equal. f_equal.
  rewrite <- H, app_assoc, <- length_app. apply drop_app_length.
Qed.

Lemma patch_at a old c new pos :
  length a = pos -> length old = length new ->
  patch (a ++ old ++ c) pos new = a ++ new ++ c.
Proof. intros <- H. by apply patch_app. Qed.

(** The two patches of [encodeRecordBatch] give the batch layout. *)
Lemma patched_batch tail :
  let body := be_bytes 8 0 ++ be_bytes 4 0 ++ be_bytes 4 (-1) ++ be_bytes 1 2 ++ be_bytes 4 0 ++ tail in
  let batchLen := u32 (s32 (len body - 12)) in
  let body1 := patch body 8 (be_bytes 4 batchLen) in
  patch body1 17 (be_bytes 4 (crc32 Castagnoli (drop 21 body1))) = batch_bytes 0 batchLen tail.
Proof.
  intros body batchLen body1.
  assert (body1 = be_bytes 8 0 ++ be_bytes 4 batchLen ++ be_bytes 4 (-1) ++ be_bytes 1 2 ++ be_bytes 4 0 ++ tail) as E.
  { unfold body1, body. apply patch_at; by rewrite ?length_be_bytes. }
  assert (drop 21 body1 = tail) as ->.
  { rewrite E, !app_assoc. apply drop_app_length'. by rewrite !length_app, !length_be_bytes. }
  rewrite E. unfold batch_bytes.
  rewrite !(app_assoc (be_bytes 8 0)), !(app_assoc (_ ++ _) (be_bytes 4 (-1))), !(app_assoc _ (be_bytes 1 2)).
  apply patch_at; by rewrite ?length_app, ?length_be_bytes.
Qed.

(** The attributes and payload of a batch: uncompressed, or compressed when
    that is shorter. *)
Definition batch_payload `{Codecs} (settings : ProduceSettings) (payload : bytes) (attributes : Z)
    (sent : bytes) : Prop :=
  let txn := if ps_Transactional settings then 0x10 else 0 in
  (attributes = txn /\ sent = payload) \/
  (ps_Compression settings <> 0 /\ len sent < len payload /\
   attributes = Z.lor txn (s16 (ps_Compression settings)) /\
   Compress (ps_Compression settings) (ps_CompressionLevel settings) payload = Ok sent).

Definition batch_ids (settings : ProduceSettings) (seq : Z) : Z * Z * Z :=
  match ps_NextSequence settings with
  | None => (-1, -1, -1)
  | Some _ => (ps_ProducerID settings, ps_ProducerEpoch settings, seq)
  end.

Lemma encodeRecordBatch_layout `{Codecs} clock r0 rest settings seq bs :
  let records := r0 :: rest in
  let firstMs := default (clock 0%nat) (pr_Timestamp r0) in
  encodeRecordBatch clock records settings seq = Ok bs ->
  exists payload attributes sent tail,
    encodeRecordsPayload (clock (S (length records))) records = Ok payload /\
    batch_payload settings payload attributes sent /\
    tail = batch_tail attributes (s32 (len records - 1)) firstMs (max_ms clock 1 firstMs records)
      (fst (fst (batch_ids settings seq))) (snd (fst (batch_ids settings seq)))
      (snd (batch_ids settings seq)) (s32 (len records)) sent /\
    bs = batch_bytes 0 (u32 (s32 (9 + len tail))) tail.
Proof.
  intros records firstMs. unfold encodeRecordBatch. fold records firstMs.
  destruct (encodeRecordsPayload _ _) as [payload| |] eqn:Ep; cbn [res_bind]; [|done|done].
  set (txn := if ps_Transactional settings then 16 else 0).
  match goal with |- context [res_bind ?x _] => destruct x as [[sent attributes]| |] eqn:Epa end;
    cbn [res_bind]; [|done|done].
  assert (Hpay : batch_payload settings payload attributes sent).
  { revert Epa. unfold batch_payload. fold txn. destruct (Z.eqb_spec (ps_Compression settings) 0); cbn [negb].
    - intros [= <- <-]. by left.
    - destruct (Compress _ _ _) as [c| |] eqn:Ec; cbn [res_bind]; [|done|done].
      destruct (Z.ltb_spec (len c) (len payload)); intros [= <- <-]; [right; auto | by left]. }
  unfold batch_ids. destruct (ps_NextSequence settings); cbn [fst snd]; intros Hbs;
    (eexists payload, attributes, sent, _; split; [done|]; split; [done|]; split; [reflexivity|]);
    cbn [WriteInt64 WriteInt32 WriteInt16 WriteInt8 raw enc_app res_bind] in Hbs;
    apply Ok_inj in Hbs as <-; rewrite patched_batch; f_equal; do 2 f_equal;
    unfold batch_tail; rewrite !len_app, !len_be_bytes; lia.
Qed.

Section decode.
  Context `{Codecs}.

  (** What [decodeOneRecordBatch] does after the header checks. *)
Definition decode_payload (topic : bytes) (part base attributes lod firstMs pid : Z) (sent : bytes) :
      res (option recordBatchInfo) :=
    let info := mkBatchInfo base (s64 (base + lod)) pid
      (negb (Z.land attributes 0x20 =? 0)) (negb (Z.land attributes 0x10 =? 0)) in
    if negb (Z.land attributes 0x20 =? 0) then Ok (Some (info [])) else
    let codec := s8 (Z.land attributes 0x7) in
    let? data := if negb (codec =? 0) then Decompress codec sent else Ok sent in
    let? recs := parseRecords topic part data base firstMs in
    Ok (Some (info recs)).

Lemma decode_batch_bytes topic part base bl attributes lod firstMs maxMs pid epoch seq count sent :
    int64 base -> int16 attributes -> int32 lod -> int64 firstMs -> int64 maxMs -> int64 pid ->
    int16 epoch -> int32 seq -> int32 count -> 4 <= len sent ->
    decodeOneRecordBatch topic part
      (batch_bytes base bl (batch_tail attributes lod firstMs maxMs pid epoch seq count sent)) =
    decode_payload topic part base attributes lod firstMs pid sent.
  Proof.
    intros Hb Ha Hl Hf Hm Hp He Hs Hc Hsent.
    set (tail := batch_tail _ _ _ _ _ _ _ _ _). unfold decodeOneRecordBatch.
    rewrite len_batch_bytes. unfold tail at 1. rewrite len_batch_tail.
    destruct (Z.ltb_spec (21 + (40 + len sent)) 65); [lia|].
    assert (Hcov : slice (batch_bytes base bl tail) 21 (21 + len tail) = Ok tail).
    { unfold batch_bytes. rewrite !app_assoc.
      match goal with |- slice (?p ++ tail) _ _ = _ =>
        pose proof (slice_app p tail []) as Hsl;
        assert (len p = 21) as Hlp by (rewrite !len_app, !len_be_bytes; lia) end.
      rewrite Hlp, app_nil_r in Hsl. exact Hsl. }
    assert (Hcrc : u32 (s32 (crc32 Castagnoli tail)) = crc32 Castagnoli tail).
    { pose proof (crc32_range Castagnoli tail ltac:(unfold Castagnoli; lia)). unfold u32, s32, sgn.
      rewrite Zminus_mod_idemp_l, Z.add_simpl_r. by apply Z.mod_small. }
    unfold run, FromBytes. unfold batch_bytes at 2.
    match goal with |- context [mkBuffer ?X 0] =>
      change (mkBuffer X 0) with (mkBuffer ([] ++ X) (len (@nil byte))) end.
    rewrite (rbind_reads ReadInt64 _ _ base) by by apply reads_be8.
    rewrite (rbind_reads ReadInt32 _ _ (s32 bl)) by apply reads_be4_wrap.
    rewrite (rbind_reads ReadInt32 _ _ (-1)) by (apply reads_be4; unfold int32; lia).
    rewrite (rbind_reads ReadInt8 _ _ 2) by (apply reads_be1; unfold int8; lia).
    cbn [Z.eqb negb Pos.eqb].
    rewrite (rbind_reads ReadInt32 _ _ (s32 (crc32 Castagnoli tail))) by apply reads_be4_wrap.
    unfold rbind at 1, lift. rewrite Hcov, Hcrc, Z.eqb_refl. cbn [negb].
    unfold tail, batch_tail, read_batch_tail at 1.
    rewrite rbind_assoc, (rbind_reads ReadInt16 _ _ attributes) by by apply reads_be2.
    rewrite rbind_assoc, (rbind_reads ReadInt32 _ _ lod) by by apply reads_be4.
    rewrite rbind_assoc, (rbind_reads ReadInt64 _ _ firstMs) by by apply reads_be8.
    rewrite rbind_assoc, (rbind_reads ReadInt64 _ _ maxMs) by by apply reads_be8.
    rewrite rbind_assoc, (rbind_reads ReadInt64 _ _ pid) by by apply reads_be8.
    rewrite rbind_assoc, (rbind_reads ReadInt16 _ _ epoch) by by apply reads_be2.
    rewrite rbind_assoc, (rbind_reads ReadInt32 _ _ seq) by by apply reads_be4.
    rewrite rbind_assoc, (rbind_reads ReadInt32 _ _ count) by by apply reads_be4.
    unfold rbind, rd_remaining, ret.
    match goal with |- context [mkBuffer (?p ++ sent) _] => pose proof (remaining_at p sent []) as Hr end.
    rewrite !app_nil_r in Hr. rewrite Hr. reflexivity.
  Qed.
End decode.

(** A record as the application receives it. *)
Definition deliver (topic : bytes) (part offset : Z) (pr : ProduceRecord) : FetchedRecord :=
  mkFetchedRecord topic part offset (pr_Key pr) (pr_Value pr) (pr_Headers pr)
    (default 0 (pr_Timestamp pr)) false 0.

Fixpoint delivered (topic : bytes) (part base i : Z) (records : list ProduceRecord) : list FetchedRecord :=
  match records with
  | [] => []
  | pr :: rest => deliver topic part (s64 (base + i)) pr :: delivered topic part base (i + 1) rest
  end.

Definition timestamped (pr : ProduceRecord) : Prop :=
  match pr_Timestamp pr with Some t => int64 t | None => False end.

Lemma s64_add_sub f t : int64 t -> s64 (f + s64 (t - f)) = t.
Proof.
  intros Ht. unfold s64. rewrite sgn_add_idemp. replace (f + (t - f)) with t by lia.
  by apply s64_id.
Qed.

Lemma fetched_delivered topic part base now f i records :
  Forall timestamped records ->
  fetched topic part base f now f i records = delivered topic part base i records.
Proof.
  intros H. revert i. induction H as [|pr rest Hpr _ IH]; intros i; [done|].
  cbn [fetched delivered]. rewrite IH. f_equal. unfold deliver, record_delta.
  unfold timestamped in Hpr. destruct (pr_Timestamp pr) as [t|]; [|done]. cbn [default].
  unfold id. by rewrite s64_add_sub.
Qed.

Lemma max_ms_range clock i acc records :
  Forall timestamped records -> int64 acc -> int64 (max_ms clock i acc records).
Proof.
  intros H. revert i acc. induction H as [|pr rest Hpr _ IH]; intros i acc Hacc; [done|].
  cbn [max_ms]. apply IH. unfold timestamped in Hpr.
  destruct (pr_Timestamp pr); [|done]. cbn. unfold id. by destruct (_ >? _).
Qed.

Lemma Compress_codec `{Codecs} c lvl p s :
  c <> 0 -> Compress c lvl p = Ok s -> c = 1 \/ c = 2 \/ c = 3 \/ c = 4.
Proof.
  unfold Compress, CodecNone, CodecGzip, CodecSnappy, CodecLZ4, CodecZstd. intros Hc.
  destruct (Z.eqb_spec c 0); [lia|]. destruct (Z.eqb_spec c 1); [lia|].
  destruct (Z.eqb_spec c 2); [lia|]. destruct (Z.eqb_spec c 3); [lia|].
  destruct (Z.eqb_spec c 4); [lia|done].
Qed.

(** A compressed payload that was kept is a gzip stream or a Zstandard frame:
    Snappy and LZ4 never shrink. *)
Lemma Decompress_Compress `{CodecLaws} c lvl p s :
  c <> 0 -> carries c p -> len p <= MaxDecompressedBytes -> len s < len p -> Compress c lvl p = Ok s ->
  Decompress c s = Ok p /\ 4 <= len s.
Proof.
  intros Hc Hz Hl Hs HC. pose proof (Compress_codec _ _ _ _ Hc HC) as Hcase.
  pose proof (Compress_expands c lvl p) as Hexp.
  destruct Hcase as [-> | [Hx | [Hx | ->]]]; [| | |by apply zstd_law].
  - cbn in HC. split; [by apply (gzip_law p lvl)|]. pose proof (gzip_header _ _ _ HC). lia.
  - destruct Hexp as (c' & HC' & Hlt); [by left|]. assert (c' = s) as -> by congruence. lia.
  - destruct Hexp as (c' & HC' & Hlt); [by right|]. assert (c' = s) as -> by congruence. lia.
Qed.

(** The attribute bits the decoder tests. *)
Lemma attributes_bits (txn : bool) c :
  0 <= c <= 4 ->
  let a := Z.lor (if txn then 0x10 else 0) (s16 c) in
  Z.land a 0x20 = 0 /\ negb (Z.land a 0x10 =? 0) = txn /\ s8 (Z.land a 7) = c /\ int16 a.
Proof.
  intros Hc a. assert (c = 0 \/ c = 1 \/ c = 2 \/ c = 3 \/ c = 4) as Hcase by lia.
  destruct Hcase as [-> | [-> | [-> | [-> | ->]]]]; destruct txn; subst a; vm_compute;
    repeat split; congruence.
Qed.

(** Reading back the payload a batch was sent with. *)
Lemma decode_payload_sent `{CodecLaws} topic part base lod firstMs pid settings payload attributes sent recs :
  batch_payload settings payload attributes sent -> carries (ps_Compression settings) payload ->
  7 <= len payload -> len payload <= MaxDecompressedBytes ->
  parseRecords topic part payload base firstMs = Ok recs ->
  int16 attributes /\ 4 <= len sent /\
  decode_payload topic part base attributes lod firstMs pid sent =
    Ok (Some (mkBatchInfo base (s64 (base + lod)) pid false (ps_Transactional settings) recs)).
Proof.
  intros Hpay Hz H7 Hmax Hrecs. unfold decode_payload.
  assert (exists c, 0 <= c <= 4 /\ 4 <= len sent /\
    attributes = Z.lor (if ps_Transactional settings then 0x10 else 0) (s16 c) /\
    (if negb (c =? 0) then Decompress c sent else Ok sent) = Ok payload) as (c & Hc & H4 & -> & Hdata).
  { destruct Hpay as [[-> ->]|(Hc & Hlt & -> & HC)].
    - exists 0. split; [lia|]. split; [lia|]. by rewrite Z.lor_0_r.
    - destruct (Decompress_Compress _ _ _ _ Hc Hz Hmax Hlt HC) as [Hd H4].
      pose proof (Compress_codec _ _ _ _ Hc HC). exists (ps_Compression settings).
      split; [lia|]. do 2 (split; [done|]). destruct (Z.eqb_spec (ps_Compression settings) 0); done. }
  destruct (attributes_bits (ps_Transactional settings) c Hc) as (H1 & H2 & H3 & H5).
  split; [done|]. split; [done|]. rewrite H1, H2, H3, Hdata. cbn [Z.eqb negb res_bind].
  by rewrite Hrecs.
Qed.

(** The round trip at any base offset a broker assigns. *)
Lemma batch_roundtrip_at `{CodecLaws} clock records settings seq bs topic part base :
  encodeRecordBatch clock records settings seq = Ok bs ->
  (forall p, encodeRecordsPayload (clock (S (length records))) records = Ok p -> carries (ps_Compression settings) p) ->
  Forall timestamped records ->
  (forall t0, from_option pr_Timestamp None (head records) = Some t0 ->
     wf_records (clock (S (length records))) t0 0 records) ->
  (forall p, encodeRecordsPayload (clock (S (length records))) records = Ok p -> len p <= MaxDecompressedBytes) ->
  len records < 2 ^ 31 ->
  int64 (ps_ProducerID settings) -> int16 (ps_ProducerEpoch settings) -> int32 seq -> int64 base ->
  decodeOneRecordBatch topic part (patch bs 0 (be_bytes 8 base)) =
    Ok (Some (mkBatchInfo base (s64 (base + (len records - 1))) (fst (fst (batch_ids settings seq)))
         false (ps_Transactional settings) (delivered topic part base 0 records))).
Proof.
  intros Henc Hz Hts Hwf Hmax Hcount Hpid Hep Hseq Hbase.
  destruct records as [|r0 rest]; [done|].
  apply encodeRecordBatch_layout in Henc as (payload & attributes & sent & tail & Hp & Hpay & Htail & ->).
  pose proof (Forall_inv Hts) as Ht0. unfold timestamped in Ht0. cbn [head from_option] in Hwf.
  destruct (pr_Timestamp r0) as [t0|] eqn:E0; [|done]. specialize (Hwf t0 eq_refl).
  cbn [default] in *. unfold id in *.
  pose proof (parseRecords_payload topic part base t0 _ _ _ Hp) as Hparse.
  cbn [head from_option] in Hparse. rewrite E0 in Hparse. cbn [default] in Hparse. unfold id in Hparse.
  specialize (Hparse Hwf). rewrite fetched_delivered in Hparse by done.
  assert (7 <= len payload) as H7.
  { eapply append_records_nonempty. exact Hp. }
  assert (Hn : 1 <= len (r0 :: rest)) by (rewrite len_cons; pose proof (len_nonneg rest); lia).
  edestruct (decode_payload_sent topic part base (s32 (len (r0 :: rest) - 1)) t0
    (fst (fst (batch_ids settings seq)))) as (Ha & H4 & Hdec); eauto.
  assert (Hpatch : forall bl tl, patch (batch_bytes 0 bl tl) 0 (be_bytes 8 base) = batch_bytes base bl tl).
  { intros bl tl. unfold batch_bytes. apply (patch_at [] (be_bytes 8 0)); [done|].
    by rewrite !length_be_bytes. }
  rewrite Hpatch, Htail, decode_batch_bytes; try done.
  - rewrite Hdec. rewrite s32_id by (unfold int32; lia). done.
  - apply (sgn_range 32). lia.
  - by apply max_ms_range.
  - unfold batch_ids. destruct (ps_NextSequence settings); cbn; [done | unfold int64; lia].
  - unfold batch_ids. destruct (ps_NextSequence settings); cbn; [done | unfold int16; lia].
  - unfold batch_ids. destruct (ps_NextSequence settings); cbn; [done | unfold int32; lia].
  - apply (sgn_range 32). lia.
Qed.

(** * Termination and safety of the decoder *)

(** Like [Safe], for readers that may also move the cursor back. *)
Definition Live {A} (r : Rd A) : Prop := forall b,
  0 <= bufI b -> let '(b', x) := r b in bufB b' = bufB b /\ 0 <= bufI b' /\ x <> Panic.

Lemma live_safe {A} (r : Rd A) : Safe r -> Live r.
Proof.
  intros H b Hb. specialize (H b Hb). destruct (r b) as [b' x].
  destruct H as (? & ? & ?). repeat split; [done | lia | done].
Qed.

Lemma live_bind {A C} (m : Rd A) (f : A -> Rd C) :
  Live m -> (forall a, Live (f a)) -> Live (rbind m f).
Proof.
  intros Hm Hf b Hb. unfold rbind. specialize (Hm b Hb).
  destruct (m b) as [b' x]. destruct Hm as (HB & HI & HP).
  destruct x as [a|e|]; [|repeat split; auto; done|done].
  specialize (Hf a b' ltac:(lia)). destruct (f a b') as [b'' y].
  destruct Hf as (HB' & HI' & HP'). repeat split; [congruence | lia | done].
Qed.

Lemma live_set_pos v : 0 <= v -> Live (rd_set_pos v).
Proof. intros Hv b Hb. done. Qed.

Lemma live_for_brk {T} n (body : T -> Rd (T * bool)) s :
  (forall s, Live (body s)) -> Live (rd_for_brk n body s).
Proof.
  intros Hbody b Hb. rewrite rd_for_brk_nat. revert s b Hb.
  induction (Z.to_nat n) as [|k IH]; intros s; [apply live_safe, safe_ret|].
  apply live_bind; [done|]. intros [s1 []]; cbn; [apply live_safe, safe_ret|].
  intros b Hb. by apply IH.
Qed.

Lemma safe_read_field : Safe read_field.
Proof.
  unfold read_field. apply safe_bind; [apply safe_varint|]. intros n.
  destruct (n >? 0) eqn:E; [|apply safe_ret]. intros b Hb. zbool.
  unfold rbind, rd_remaining, ret. destruct (n >? len (Remaining b)) eqn:E2.
  - repeat split; [lia|done].
  - zbool. unfold rd_copy. rewrite slice_ok; [repeat split; cbn; [lia|done] | lia |].
    unfold Remaining in E2. destruct (_ >=? _) eqn:E3; [rewrite len_nil in E2; lia|].
    zbool. unfold len in *. rewrite length_drop in E2. lia.
Qed.

Ltac live_step :=
  match goal with
  | |- Live (rbind _ _) => apply live_bind; [|intros ?]
  | |- Live (rd_for_brk _ _ _) => apply live_for_brk; intros ?
  | |- Live (match ?x with _ => _ end) => destruct x
  | |- Live (rd_set_pos _) => apply live_set_pos; lia
  | |- Live _ => apply live_safe; solve [eauto using safe_read_field with wire nocore]
  end.

Lemma live_parse_fields topic part base bts recordEnd :
  0 <= recordEnd -> Live (parse_fields topic part base bts recordEnd).
Proof. intros H. unfold parse_fields, read_header. repeat live_step. Qed.

(** A record that is parsed or skipped leaves the cursor at its end. *)
Lemma parse_fields_end topic part base bts recordEnd b b' o :
  parse_fields topic part base bts recordEnd b = (b', Ok o) -> bufI b' = recordEnd /\ o <> PBreak.
Proof.
  assert (Hset : forall b (p : parse_outcome), (rd_set_pos recordEnd ;;; ret p) b = (b', Ok o) ->
    bufI b' = recordEnd /\ o = p) by (intros ? ? [= <- <-]; done).
  unfold parse_fields. intros Hp. do 4 (apply rbind_ok_inv in Hp as (? & ? & _ & Hp)).
  case_match; [|by apply Hset in Hp as [? ->]].
  apply rbind_ok_inv in Hp as (? & ? & _ & Hp).
  case_match; [|by apply Hset in Hp as [? ->]].
  do 2 (apply rbind_ok_inv in Hp as (? & ? & _ & Hp)). by apply Hset in Hp as [? ->].
Qed.

Definition progress (b b' : Buffer) : Prop :=
  bufB b' = bufB b /\ bufI b < bufI b' <= len (bufB b).

(** Each pass of the loop fails, stops, or moves forward inside the data. *)
Lemma parse_one_progress topic part base bts b b' x :
  0 <= bufI b -> parse_one topic part base bts b = (b', x) ->
  match x with
  | Ok PBreak => True
  | Ok _ => progress b b'
  | Err _ => True
  | Panic => False
  end.
Proof.
  intros Hb. unfold parse_one, rbind at 1.
  pose proof (safe_varint b Hb) as Hs. destruct (ReadVarint b) as [b1 y].
  destruct Hs as (HB & HI & HP). destruct y as [n|e|]; [| by intros [= <- <-] | done].
  destruct (Z.leb_spec n 0); [by intros [= <- <-]|].
  unfold rbind at 1, rd_pos, rbind, rd_buflen.
  destruct (_ >? _) eqn:E; [by intros [= <- <-]|]. zbool. intros Hpf.
  pose proof (live_parse_fields topic part base bts (bufI b1 + n) ltac:(lia) b1 ltac:(lia)) as HL.
  rewrite Hpf in HL. destruct HL as (HB' & _ & HN).
  destruct x as [o|e|]; [|done|done].
  apply parse_fields_end in Hpf as [HI' Ho]. unfold progress. rewrite HB', HB in *.
  destruct o; [done| |]; (split; [congruence | lia]).
Qed.

(** With enough passes the loop never runs out of fuel and never panics. *)
Lemma parse_loop_fuel fuel topic part base bts out b :
  0 <= bufI b -> len (bufB b) - bufI b < Z.of_nat fuel ->
  0 < Z.of_nat fuel ->
  snd (parse_loop fuel topic part base bts out b) <> Panic.
Proof.
  revert out b. induction fuel as [|f IH]; intros out b Hb Hf Hf0; [lia|].
  cbn [parse_loop]. unfold rbind at 1, rd_remaining.
  destruct (Z.leb_spec (len (Remaining b)) 0) as [|Hrem]; [done|].
  assert (bufI b < len (bufB b)) as Hlt.
  { unfold Remaining in Hrem. destruct (_ >=? _) eqn:E; zbool; unfold len in *; cbn in Hrem; lia. }
  unfold rbind. destruct (parse_one topic part base bts b) as [b' x] eqn:E.
  pose proof (parse_one_progress _ _ _ _ _ _ _ Hb E) as Hp.
  destruct x as [[| |r]|e|]; cbn in Hp; try done; destruct Hp as [HB HI]; apply IH; rewrite ?HB; lia.
Qed.

(** Record parsing is total.  On any bytes the loop of [parseRecords] ends
    (each pass either stops or moves the cursor strictly forward) and no slice
    expression of it panics, so it returns records or an error. *)
Theorem parse_records_total topic part data base bts :
  parseRecords topic part data base bts <> Panic.
Proof. unfold parseRecords, run. apply parse_loop_fuel; cbn; unfold len; lia. Qed.

Lemma decode_one_no_panic `{CodecLaws} topic part batch :
  decodeOneRecordBatch topic part batch <> Panic.
Proof.
  unfold decodeOneRecordBatch. destruct (Z.ltb_spec (len batch) 65); [done|].
  match goal with |- context [run ?r batch] => assert (Hr : run r batch <> Panic) end.
  { apply safe_run. unfold read_batch_tail. solve_safe. rewrite slice_ok by lia. done. }
  destruct (run _ batch) as [[base [[[[a lod] ts] pid] rb]]|e|]; cbn [res_bind]; [|done|done].
  destruct (negb _); [done|].
  match goal with |- context [res_bind ?x _] => assert (Hd : x <> Panic); [|destruct x] end; cbn; try done.
  { destruct (negb _); [|done]. apply Decompress_no_panic. }
  match goal with |- context [parseRecords ?t ?p ?d ?b ?s] =>
    pose proof (parse_loop_fuel (S (length d)) t p b s [] (FromBytes d)) as Hp;
    change (snd (parse_loop (S (length d)) t p b s [] (FromBytes d))) with (parseRecords t p d b s) in Hp;
    destruct (parseRecords t p d b s) end; cbn; try done.
  intros _. apply Hp; try done; cbn; unfold len; lia.
Qed.

Lemma batch_loop_fuel `{CodecLaws} fuel topic part data aborted pids out :
  (length data < fuel)%nat -> batch_loop fuel topic part data aborted pids out <> Panic.
Proof.
  revert data aborted pids out. induction fuel as [|f IH]; intros data aborted pids out Hf; [lia|].
  cbn [batch_loop]. destruct (Z.ltb_spec (len data) 12); [done|].
  rewrite slice_ok by lia. cbn [res_bind]. set (bl := be_value _).
  destruct (_ || _) eqn:E; [done|]. zbool.
  rewrite slice_ok by lia. cbn [res_bind].
  pose proof (decode_one_no_panic topic part (take (Z.to_nat (12 + bl - 0)) (drop (Z.to_nat 0) data))) as Hd.
  destruct (decodeOneRecordBatch _ _ _) as [info|e|]; cbn [res_bind]; [|done|done].
  rewrite slice_ok by lia. cbn [res_bind].
  assert (length (take (Z.to_nat (len data - (12 + bl))) (drop (Z.to_nat (12 + bl)) data)) < f)%nat.
  { rewrite length_take, length_drop. unfold len in *. lia. }
  destruct info as [info|]; [|by apply IH].
  destruct (advance_aborted _ _ _) as [ab p1], (filter_batch _ _ _ _) as [recs p2]. by apply IH.
Qed.


(** * Several batches *)

(** A batch as it lies in a log: its length field is its length. *)
Definition framed (bs : bytes) : Prop :=
  exists h l t, bs = h ++ l ++ t /\ len h = 8 /\ len l = 4 /\ be_value l = len t.

Lemma batch_loop_cons `{Codecs} f topic part bs rest aborted pids out info :
  framed bs -> decodeOneRecordBatch topic part bs = Ok (Some info) ->
  batch_loop (S f) topic part (bs ++ rest) aborted pids out =
  let '(ab, p1) := advance_aborted aborted pids (bi_baseOffset info) in
  let '(recs, p2) := filter_batch topic part p1 info in
  batch_loop f topic part rest ab p2 (out ++ recs).
Proof.
  intros (h & l & t & -> & Hh & Hl & Hv) Hd. cbn [batch_loop].
  assert (Hlen : len ((h ++ l ++ t) ++ rest) = 12 + len t + len rest) by (rewrite !len_app; lia).
  pose proof (len_nonneg t). pose proof (len_nonneg rest).
  rewrite Hlen. destruct (Z.ltb_spec (12 + len t + len rest) 12); [lia|].
  assert (slice ((h ++ l ++ t) ++ rest) 8 12 = Ok l) as ->.
  { pose proof (slice_app h l (t ++ rest)) as Hs. rewrite Hh, Hl in Hs.
    rewrite <- !app_assoc. exact Hs. }
  cbn [res_bind]. rewrite Hv. destruct (_ || _) eqn:E; zbool; [lia|].
  assert (slice ((h ++ l ++ t) ++ rest) 0 (12 + len t) = Ok (h ++ l ++ t)) as ->.
  { pose proof (slice_app [] (h ++ l ++ t) rest) as Hs. rewrite app_nil_l, len_nil in Hs.
    replace (12 + len t) with (0 + len (h ++ l ++ t)) by (rewrite !len_app; lia). exact Hs. }
  cbn [res_bind]. rewrite Hd. cbn [res_bind].
  assert (slice ((h ++ l ++ t) ++ rest) (12 + len t) (12 + len t + len rest) = Ok rest) as ->; [|done].
  pose proof (slice_app (h ++ l ++ t) rest []) as Hs. rewrite app_nil_r in Hs.
  replace (12 + len t) with (len (h ++ l ++ t)) by (rewrite !len_app; lia). exact Hs.
Qed.

(** The filter over decoded batches. *)
Fixpoint filter_batches (topic : bytes) (part : Z) (aborted : list abortedTxn) (pids : gset Z)
    (infos : list recordBatchInfo) : list FetchedRecord :=
  match infos with
  | [] => []
  | info :: rest =>
      let '(ab, p1) := advance_aborted aborted pids (bi_baseOffset info) in
      let '(recs, p2) := filter_batch topic part p1 info in
      recs ++ filter_batches topic part ab p2 rest
  end.

Lemma batch_loop_batches `{Codecs} fuel topic part batches infos aborted pids out :
  Forall framed batches ->
  Forall2 (fun bs info => decodeOneRecordBatch topic part bs = Ok (Some info)) batches infos ->
  (length batches < fuel)%nat ->
  batch_loop fuel topic part (concat batches) aborted pids out =
    Ok (out ++ filter_batches topic part aborted pids infos).
Proof.
  intros Hfr Hdec. revert fuel aborted pids out Hfr.
  induction Hdec as [|bs info batches infos Hd _ IH]; intros fuel aborted pids out Hfr Hf.
  - destruct fuel as [|f]; [cbn in Hf; lia|]. cbn. by rewrite app_nil_r.
  - destruct fuel as [|f]; [cbn in Hf; lia|]. apply Forall_cons in Hfr as [Hb Hfr].
    cbn [concat]. rewrite (batch_loop_cons f _ _ _ _ _ _ _ info) by done. cbn [filter_batches].
    destruct (advance_aborted _ _ _) as [ab p1], (filter_batch _ _ _ _) as [recs p2].
    rewrite IH; [by rewrite app_assoc | done | cbn in Hf; lia].
Qed.

Lemma framed_count batches : Forall framed batches -> (length batches <= length (concat batches))%nat.
Proof.
  induction 1 as [|bs rest (h & l & t & -> & Hh & Hl & _) _ IH]; [done|].
  cbn [concat length]. rewrite !length_app. unfold len in *. lia.
Qed.

Lemma decode_batches `{Codecs} topic part batches infos aborted :
  Forall framed batches ->
  Forall2 (fun bs info => decodeOneRecordBatch topic part bs = Ok (Some info)) batches infos ->
  decodeRecordBatch topic part (concat batches) aborted =
    Ok (filter_batches topic part aborted ∅ infos).
Proof.
  intros Hfr Hdec. unfold decodeRecordBatch. rewrite (batch_loop_batches _ _ _ _ infos); [done..|].
  pose proof (framed_count _ Hfr). lia.
Qed.

(** * Read-committed filtering *)

(** The offset-based meaning of the aborted-transaction list: an aborted
    transaction of producer [p] that starts at [first] covers the
    transactional batches of [p] from [first] up to the first control marker
    of [p] at or after [first]. *)
Definition ended (prefix : list recordBatchInfo) (pid first : Z) : bool :=
  existsb (fun c => bi_isControl c && (bi_producerID c =? pid) && (first <=? bi_baseOffset c)) prefix.

Definition covered (aborted : list abortedTxn) (prefix : list recordBatchInfo) (pid base : Z) : bool :=
  existsb (fun a => (at_producerID a =? pid) && (at_firstOffset a <=? base) &&
                    negb (ended prefix pid (at_firstOffset a))) aborted.

Fixpoint committed_view (topic : bytes) (part : Z) (aborted : list abortedTxn)
    (prefix infos : list recordBatchInfo) : list FetchedRecord :=
  match infos with
  | [] => []
  | i :: rest =>
      (if bi_isControl i ||
          bi_isTransactional i && covered aborted prefix (bi_producerID i) (bi_baseOffset i)
       then [control_record topic part (bi_lastOffset i)]
       else bi_records i) ++
      committed_view topic part aborted (prefix ++ [i]) rest
  end.

Definition offset_sorted (infos : list recordBatchInfo) : Prop :=
  StronglySorted (fun x y => bi_baseOffset x < bi_baseOffset y) infos.
Definition aborted_sorted (l : list abortedTxn) : Prop :=
  StronglySorted (fun x y => at_firstOffset x <= at_firstOffset y) l.

(** The loop state after [prefix]: the entries taken so far start at or before
    a batch seen, the pending ones after every batch seen, and the set holds
    the producers of the taken entries that have not ended. *)
Definition filter_inv (all pending : list abortedTxn) (pids : gset Z) (prefix : list recordBatchInfo) : Prop :=
  exists taken, all = taken ++ pending /\
    (forall p, p ∈ pids <-> exists a, a ∈ taken /\ at_producerID a = p /\ ended prefix p (at_firstOffset a) = false) /\
    (forall a, a ∈ taken -> exists c, c ∈ prefix /\ at_firstOffset a <= bi_baseOffset c) /\
    (forall a c, a ∈ pending -> c ∈ prefix -> bi_baseOffset c < at_firstOffset a).

Lemma advance_aborted_spec pending pids base pending' pids' :
  aborted_sorted pending -> advance_aborted pending pids base = (pending', pids') ->
  exists moved, pending = moved ++ pending' /\
    (forall a, a ∈ moved -> at_firstOffset a <= base) /\
    (forall a, a ∈ pending' -> base < at_firstOffset a) /\
    (forall p, p ∈ pids' <-> p ∈ pids \/ exists a, a ∈ moved /\ at_producerID a = p).
Proof.
  intros Hs. revert pids. induction Hs as [|a rest Hs IH Ha]; intros pids; cbn [advance_aborted].
  - intros [= <- <-]. exists []. set_solver.
  - destruct (Z.leb_spec (at_firstOffset a) base) as [Hle|Hgt].
    + intros (moved & -> & Hm & Hp & Hpids)%IH. exists (a :: moved). split; [done|].
      split; [|split; [done|]].
      * intros x [->|Hx]%elem_of_cons; [done | by apply Hm].
      * intros p. rewrite Hpids. set_solver.
    + intros [= <- <-]. exists []. split; [done|]. split; [set_solver|]. split; [|set_solver].
      intros x [->|Hx]%elem_of_cons; [done|]. rewrite Forall_forall in Ha.
      specialize (Ha x Hx). lia.
Qed.

Lemma ended_false_iff prefix p f :
  ended prefix p f = false <->
  forall c, c ∈ prefix -> bi_isControl c = true -> bi_producerID c = p -> bi_baseOffset c < f.
Proof.
  unfold ended. rewrite <- not_true_iff_false, existsb_exists. split.
  - intros Hn c Hc Hctl Hp. destruct (Z.ltb_spec (bi_baseOffset c) f); [done|]. exfalso.
    apply Hn. exists c. split; [by apply list_elem_of_In|].
    rewrite Hctl, Hp, Z.eqb_refl. cbn. by apply Z.leb_le.
  - intros Hall (c & Hc%list_elem_of_In & Hb). zbool.
    specialize (Hall c Hc ltac:(done) ltac:(done)). lia.
Qed.

Lemma ended_app prefix i p f :
  ended (prefix ++ [i]) p f =
  ended prefix p f || (bi_isControl i && (bi_producerID i =? p) && (f <=? bi_baseOffset i)).
Proof. unfold ended. rewrite existsb_app. cbn. by rewrite orb_false_r. Qed.

(** Membership in the set is being covered. *)
Lemma filter_inv_covered all pending pids prefix i pending' pids' :
  aborted_sorted all -> filter_inv all pending pids prefix ->
  (forall c, c ∈ prefix -> bi_baseOffset c < bi_baseOffset i) ->
  advance_aborted pending pids (bi_baseOffset i) = (pending', pids') ->
  exists taken', all = taken' ++ pending' /\
    (forall p, p ∈ pids' <-> exists a, a ∈ taken' /\ at_producerID a = p /\ ended prefix p (at_firstOffset a) = false) /\
    (forall a, a ∈ taken' -> at_firstOffset a <= bi_baseOffset i) /\
    (forall a, a ∈ pending' -> bi_baseOffset i < at_firstOffset a) /\
    (forall p, covered all prefix p (bi_baseOffset i) = true <-> p ∈ pids').
Proof.
  intros Hall (taken & -> & Hpids & Htaken & Hpend) Hpre Hadv.
  assert (aborted_sorted pending) as Hsp.
  { clear -Hall. induction taken as [|x l IH]; [done|]. apply IH. by inversion Hall. }
  apply advance_aborted_spec in Hadv as (moved & -> & Hm & Hp & Hpids'); [|done].
  assert (Hin : forall p, p ∈ pids' <-> exists a, a ∈ taken ++ moved /\ at_producerID a = p /\
    ended prefix p (at_firstOffset a) = false).
  { intros p. rewrite Hpids', Hpids. setoid_rewrite elem_of_app. split.
    - intros [(a & ? & ? & ?)|(a & Ha & Hpa)]; [eauto 10|]. exists a. split; [auto|]. split; [done|].
      apply ended_false_iff. intros c Hc _ _. apply Hpend; [|done]. set_solver.
    - intros (a & [Ha|Ha] & ? & ?); [left; eauto | right; eauto]. }
  assert (Htk : forall a, a ∈ taken ++ moved -> at_firstOffset a <= bi_baseOffset i).
  { intros a [Ha|Ha]%elem_of_app; [|by apply Hm]. destruct (Htaken a Ha) as (c & Hc & Hle).
    specialize (Hpre c Hc). lia. }
  exists (taken ++ moved). split; [by rewrite app_assoc|]. split; [done|]. split; [done|]. split; [done|].
  intros p. unfold covered. rewrite existsb_exists, Hin. split.
  - intros (a & Ha%list_elem_of_In & Hb). zbool. subst. exists a. split; [|done].
    rewrite app_assoc, elem_of_app in Ha. destruct Ha as [|Ha]; [done|]. specialize (Hp a Ha). lia.
  - intros (a & Ha & Hpa & He). exists a. split.
    + apply list_elem_of_In. rewrite app_assoc. set_solver.
    + rewrite Hpa, Z.eqb_refl, He. cbn. rewrite andb_true_r. by apply Z.leb_le, Htk.
Qed.

Lemma filter_batches_view topic part all pending pids prefix infos :
  aborted_sorted all -> offset_sorted infos -> filter_inv all pending pids prefix ->
  (forall c i, c ∈ prefix -> i ∈ infos -> bi_baseOffset c < bi_baseOffset i) ->
  filter_batches topic part pending pids infos = committed_view topic part all prefix infos.
Proof.
  intros Hall Hs. revert pending pids prefix.
  induction Hs as [|i rest Hs IH Hi]; intros pending pids prefix Hinv Hpre; [done|].
  cbn [filter_batches committed_view].
  destruct (advance_aborted pending pids (bi_baseOffset i)) as [ab p1] eqn:Eadv.
  destruct (filter_inv_covered _ _ _ _ i _ _ Hall Hinv (fun c Hc => Hpre c i Hc ltac:(left)) Eadv)
    as (taken & Hsplit & Hp1 & Htk & Hab & Hcov).
  assert (Hnext : forall p2, (forall p, p ∈ p2 <-> p ∈ p1 /\ ~ (bi_isControl i = true /\ p = bi_producerID i)) ->
    filter_inv all ab p2 (prefix ++ [i])).
  { intros p2 Hp2. exists taken. split; [done|]. split; [|split].
    - intros p. rewrite Hp2, Hp1. split.
      + intros [(a & Ha & Hpa & He) Hnc]. exists a. split; [done|]. split; [done|].
        rewrite ended_app, He. cbn. destruct (bi_isControl i); [|done]. cbn.
        destruct (Z.eqb_spec (bi_producerID i) p); [|done]. exfalso. apply Hnc. done.
      + intros (a & Ha & Hpa & He). rewrite ended_app in He. apply orb_false_elim in He as [He1 He2].
        split; [eauto|]. intros [Hc Hp]. rewrite Hc, Hp, Z.eqb_refl in He2. cbn in He2.
        apply Z.leb_gt in He2. specialize (Htk a Ha). lia.
    - intros a Ha. exists i. split; [set_solver | by apply Htk].
    - intros a c Ha [Hc|Hc]%elem_of_app.
      + specialize (Hab a Ha). specialize (Hpre c i Hc ltac:(left)). lia.
      + apply list_elem_of_singleton in Hc as ->. by apply Hab. }
  assert (Hpre' : forall c j, c ∈ prefix ++ [i] -> j ∈ rest -> bi_baseOffset c < bi_baseOffset j).
  { intros c j [Hc|Hc]%elem_of_app Hj; [apply Hpre; [done | by right]|].
    apply list_elem_of_singleton in Hc as ->. rewrite Forall_forall in Hi. by apply Hi. }
  unfold filter_batch. destruct (bi_isControl i) eqn:Ectl; cbn [orb].
  - f_equal. apply IH; [|done]. apply Hnext. set_solver.
  - specialize (Hcov (bi_producerID i)). case_bool_decide as Hmem.
    + rewrite (proj2 Hcov Hmem). destruct (bi_isTransactional i); cbn [andb];
        f_equal; apply IH; try done; apply Hnext; set_solver.
    + assert (covered all prefix (bi_producerID i) (bi_baseOffset i) = false) as ->
        by (apply not_true_iff_false; tauto).
      rewrite !andb_false_r. f_equal. apply IH; [|done]. apply Hnext. set_solver.
Qed.

(** C32: Read-committed consumption.  For a partition whose batches lie in
    offset order and an aborted-transaction list in the order of first
    offsets, [decodeRecordBatch] returns exactly the committed view: a control
    marker and every transactional batch inside an aborted transaction (from
    its first offset up to the producer's next marker) becomes one offset-only
    control record, every other batch is delivered in full, in order.  The
    single pass with its set of aborted producers thus implements the
    offset-interval meaning of the list. *)
Theorem read_committed_spec `{Codecs} topic part batches infos aborted :
  Forall framed batches ->
  Forall2 (fun bs info => decodeOneRecordBatch topic part bs = Ok (Some info)) batches infos ->
  aborted_sorted aborted -> offset_sorted infos ->
  decodeRecordBatch topic part (concat batches) aborted =
    Ok (committed_view topic part aborted [] infos).
Proof.
  intros Hfr Hdec Hab Hs. rewrite (decode_batches _ _ _ infos) by done. f_equal.
  apply filter_batches_view; [done | done | | set_solver].
  exists []. split; [done|]. split; [set_solver|]. split; set_solver.
Qed.

(** * The produce-to-fetch round trip *)

(** A batch as a producer builds it and a broker stores it at [bt_base]. *)
Record batch := mkBatch {
  bt_clock : nat -> Z;
  bt_records : list ProduceRecord;
  bt_settings : ProduceSettings;
  bt_seq : Z;
  bt_base : Z }.

(** The broker overwrites the base offset of what the producer sent. *)
Definition stored `{Codecs} (b : batch) (bs : bytes) : Prop :=
  exists sent, encodeRecordBatch (bt_clock b) (bt_records b) (bt_settings b) (bt_seq b) = Ok sent /\
    bs = patch sent 0 (be_bytes 8 (bt_base b)).

Definition wf_batch `{Codecs} (b : batch) : Prop :=
  (forall p, encodeRecordsPayload (bt_clock b (S (length (bt_records b)))) (bt_records b) = Ok p ->
     carries (ps_Compression (bt_settings b)) p) /\
  Forall timestamped (bt_records b) /\
  (forall t0, from_option pr_Timestamp None (head (bt_records b)) = Some t0 ->
     wf_records (bt_clock b (S (length (bt_records b)))) t0 0 (bt_records b)) /\
  (forall p, encodeRecordsPayload (bt_clock b (S (length (bt_records b)))) (bt_records b) = Ok p ->
     len p <= MaxDecompressedBytes) /\
  len (bt_records b) < 2 ^ 31 /\
  int64 (ps_ProducerID (bt_settings b)) /\ int16 (ps_ProducerEpoch (bt_settings b)) /\
  int32 (bt_seq b) /\ int64 (bt_base b).

Definition batch_info (topic : bytes) (part : Z) (b : batch) : recordBatchInfo :=
  mkBatchInfo (bt_base b) (s64 (bt_base b + (len (bt_records b) - 1)))
    (fst (fst (batch_ids (bt_settings b) (bt_seq b)))) false
    (ps_Transactional (bt_settings b)) (delivered topic part (bt_base b) 0 (bt_records b)).

Lemma stored_decodes `{CodecLaws} topic part b bs :
  stored b bs -> wf_batch b -> decodeOneRecordBatch topic part bs = Ok (Some (batch_info topic part b)).
Proof.
  intros (sent & Henc & ->) (Hz & Hts & Hwf & Hmax & Hc & Hp & He & Hs & Hb).
  by eapply batch_roundtrip_at.
Qed.

Lemma u32_s32 z : 0 <= z < 2 ^ 32 -> u32 (s32 z) = z.
Proof.
  intros Hz. unfold u32, s32, sgn. rewrite Zminus_mod_idemp_l, Z.add_simpl_r. by apply Z.mod_small.
Qed.

Lemma patch_base bl tl base : patch (batch_bytes 0 bl tl) 0 (be_bytes 8 base) = batch_bytes base bl tl.
Proof. unfold batch_bytes. apply (patch_at [] (be_bytes 8 0)); [done|]. by rewrite !length_be_bytes. Qed.

Lemma stored_framed `{Codecs} b bs : stored b bs -> len bs < 2 ^ 32 -> framed bs.
Proof.
  intros (sent & Henc & ->). destruct (bt_records b) as [|r0 rest]; [done|].
  apply encodeRecordBatch_layout in Henc as (payload & attributes & s & tail & _ & _ & _ & ->).
  rewrite patch_base. unfold batch_bytes. set (rest' := be_bytes 4 (-1) ++ _). rewrite !len_app, !len_be_bytes. intros Hl.
  assert (len rest' = 9 + len tail) as Hr by (unfold rest'; rewrite !len_app, !len_be_bytes; lia).
  pose proof (len_nonneg tail).
  eexists _, _, _. split; [done|]. rewrite !len_be_bytes. split; [done|]. split; [done|].
  rewrite Hr, u32_s32 by lia. rewrite be_value_be_bytes. apply Z.mod_small. lia.
Qed.

Lemma filter_batches_plain topic part infos :
  Forall (fun i => bi_isControl i = false) infos ->
  filter_batches topic part [] ∅ infos = concat (map bi_records infos).
Proof.
  induction 1 as [|i rest Hi _ IH]; [done|]. cbn [filter_batches advance_aborted map concat].
  unfold filter_batch. rewrite Hi, bool_decide_false by set_solver.
  rewrite andb_false_r. by rewrite IH.
Qed.

Lemma stored_batches_decode `{CodecLaws} topic part bts blobs :
  Forall2 stored bts blobs -> Forall wf_batch bts -> Forall (fun bs => len bs < 2 ^ 32) blobs ->
  decodeRecordBatch topic part (concat blobs) [] =
    Ok (concat (map (fun b => delivered topic part (bt_base b) 0 (bt_records b)) bts)).
Proof.
  intros Hst Hwf Hlen.
  rewrite (decode_batches _ _ _ (map (batch_info topic part) bts)).
  - f_equal. rewrite filter_batches_plain, map_map; [done|]. clear.
    induction bts; cbn [map]; constructor; done.
  - clear Hwf. induction Hst; inversion Hlen; subst; constructor; eauto using stored_framed.
  - clear Hlen. induction Hst; inversion Hwf; subst; cbn [map]; constructor; eauto using stored_decodes.
Qed.

(** C2: Produce-to-fetch round trip.  Any number of batches, each built by
    [encodeRecordBatch] and stored by a broker that only overwrites the base
    offset, decode to exactly the records that were sent, in order, with their
    keys, values, headers and millisecond timestamps, at the offsets base,
    base+1, ...  This holds for batches within the range of the two sides
    ([wf_batch]): every record has an explicit timestamp; keys, values, header
    lists, record bodies, offset deltas and timestamp deltas are below 2^28,
    beyond which the decoder's varints do not read; the payload is within the
    decompression limit; and the batch is uncompressed or compressed with gzip,
    Snappy, LZ4, or with Zstandard where its encoder can encode the payload. *)
Theorem produce_fetch_roundtrip `{CodecLaws} topic part bts blobs :
  Forall2 stored bts blobs -> Forall wf_batch bts -> Forall (fun bs => len bs < 2 ^ 32) blobs ->
  decodeRecordBatch topic part (concat blobs) [] =
    Ok (concat (map (fun b => delivered topic part (bt_base b) 0 (bt_records b)) bts)).
Proof. apply stored_batches_decode. Qed.

(** * Timestamps out of reach of the decoder *)

Lemma rbind_err {A C} (m : Rd A) (f : A -> Rd C) b e : snd (m b) = Err e -> snd (rbind m f b) = Err e.
Proof. unfold rbind. destruct (m b) as [b' r]. cbn [snd]. by intros ->. Qed.

(** The timestamp delta of a record, at the cursor, is refused. *)
Lemma parse_fields_late topic part base bts recordEnd delta pre rest :
  int64 delta -> ~ varint29 delta ->
  snd (parse_fields topic part base bts recordEnd
    (mkBuffer (pre ++ be_bytes 1 0 ++ uvarint_bytes 9 (zigzag_enc delta) ++ rest) (len pre))) =
  Err ErrUvarintOverflow.
Proof.
  intros Hd Hnd. unfold parse_fields.
  rewrite (rbind_reads _ _ (be_bytes 1 0) 0) by (apply reads_be1; unfold int8; lia).
  apply rbind_err. unfold ReadVarint. apply rbind_err. apply uvarint_overflow.
  destruct (zigzag_enc_bound delta Hd) as [H0 [Hb _]].
  destruct (Z.ltb_spec (zigzag_enc delta) (2 ^ 29)); [exfalso; auto | done].
Qed.

(** A record whose timestamp differs from the first one of its batch by
    2^28 ms (about 3.1 days) or more is encoded without error and cannot be
    decoded again: [parseRecords] stops with the uvarint overflow error at the
    timestamp delta, because [WriteVarint] writes up to 64 bits and
    [ReadUvarint] accepts 29. *)
Theorem late_record_undecodable topic part base bts key value headers off delta :
  int64 delta -> ~ varint29 delta ->
  varint29 (recordBodyLen key value headers off delta) ->
  exists bs, appendRecord key value headers off delta = Ok bs /\
    parseRecords topic part bs base bts = Err ErrUvarintOverflow.
Proof.
  intros Hd Hnd Hl.
  destruct (record_body key value headers off delta) as [body| |] eqn:Hbody.
  2,3: exfalso; revert Hbody; unfold record_body, WriteVarint, WriteUvarint, raw, WriteInt8;
    clear; cbn [enc_app]; assert (exists h, enc_list append_header headers = Ok h) as [h ->];
    [induction headers as [|x l [h IH]]; [by eexists | rewrite enc_list_cons, IH; by eexists] | done].
  pose proof (ELen_record_body key value headers off delta _ Hbody) as Hlen.
  set (L := recordBodyLen key value headers off delta) in *.
  set (pfx := uvarint_bytes 9 (zigzag_enc L)).
  exists (pfx ++ body). split; [unfold appendRecord; rewrite Hbody; reflexivity|].
  unfold record_body in Hbody. apply enc_app_ok in Hbody as (b0 & r1 & H0 & H1 & Hb).
  apply Ok_inj in H0. apply enc_app_ok in H1 as (b1 & rest & H1 & _ & ->). apply Ok_inj in H1. subst b0 b1.
  assert (Hpos : 1 <= len body).
  { rewrite Hb, !len_app, len_be_bytes. pose proof (len_nonneg rest).
    pose proof (len_nonneg (uvarint_bytes 9 (zigzag_enc delta))). lia. }
  unfold parseRecords, run. cbn [parse_loop].
  assert (Hone : snd (parse_one topic part base bts (FromBytes (pfx ++ body))) = Err ErrUvarintOverflow).
  { unfold parse_one, FromBytes.
    pose proof (rbind_reads ReadVarint (fun length => if length <=? 0 then ret PBreak else
      pos <- rd_pos ;; blen <- rd_buflen ;;
      if pos + length >? blen then ret PBreak else
      parse_fields topic part base bts (pos + length)) pfx L [] body) as Hstep.
    cbn [app] in Hstep. change (len []) with 0 in Hstep. rewrite Hstep by (by apply (Reads_varint L Hl)). clear Hstep.
    destruct (Z.leb_spec L 0); [lia|]. unfold rd_pos, rd_buflen, rbind at 1 2. cbn [bufI bufB].
    rewrite len_app. destruct (len pfx + L >? len pfx + len body) eqn:E; zbool; [lia|].
    rewrite Hb. by apply parse_fields_late. }
  unfold rbind at 1, rd_remaining.
  assert (Remaining (FromBytes (pfx ++ body)) = pfx ++ body) as ->.
  { pose proof (remaining_at [] (pfx ++ body) []) as Hr. rewrite !app_nil_r in Hr. exact Hr. }
  destruct (Z.leb_spec (len (pfx ++ body)) 0); [rewrite len_app in *; pose proof (len_nonneg pfx); lia|].
  by apply rbind_err.
Qed.

Lemma late_record_undecodable_witness :
  exists bs, appendRecord (str "k") (str "v") [] 1 (4 * 86400000) = Ok bs /\
    parseRecords (str "t") 0 bs 0 0 = Err ErrUvarintOverflow.
Proof.
  apply late_record_undecodable.
  - unfold int64. lia.
  - unfold varint29. lia.
  - vm_compute. split; discriminate || reflexivity.
Defined.

(** * Grouping *)

Section grouping.
Context {A K : Type} `{Countable K} (key : A -> K).

(** Keys in order of first appearance. *)
Definition first_keys (l : list A) : list K :=
  fold_left (fun ks r => if decide (key r ∈ ks) then ks else ks ++ [key r]) l [].

Definition with_key (k : K) (l : list A) : list A := filter (fun r => key r = k) l.

Lemma first_keys_snoc l r :
  first_keys (l ++ [r]) = if decide (key r ∈ first_keys l) then first_keys l else first_keys l ++ [key r].
Proof. unfold first_keys. by rewrite fold_left_app. Qed.

Lemma first_keys_elem l k : k ∈ first_keys l <-> k ∈ map key l.
Proof.
  induction l as [|r l IH] using rev_ind; [done|]. rewrite first_keys_snoc, map_app, elem_of_app. cbn [map].
  rewrite <- IH, list_elem_of_singleton. case_decide; [|by rewrite elem_of_app, list_elem_of_singleton].
  split; [by left | by intros [?| ->]].
Qed.

Lemma first_keys_nodup l : NoDup (first_keys l).
Proof.
  induction l as [|r l IH] using rev_ind; [constructor|]. rewrite first_keys_snoc. case_decide; [done|].
  apply NoDup_app. split; [done|]. split; [|apply NoDup_singleton].
  intros x Hx ->%list_elem_of_singleton. done.
Qed.

Lemma with_key_snoc k l r : with_key k (l ++ [r]) = with_key k l ++ (if decide (key r = k) then [r] else []).
Proof. unfold with_key. rewrite filter_app. f_equal. Qed.

Lemma with_key_none k l : k ∉ map key l -> with_key k l = [].
Proof.
  induction l as [|r l IH]; intros Hk; [done|]. cbn [map] in Hk. unfold with_key in *.
  rewrite filter_cons_False; [apply IH|]; set_solver.
Qed.

(** The state of the loop after the records [l]. *)
Lemma group_fold l :
  exists m, fold_left (group_step key) l ([], ∅) = (first_keys l, m) /\
    forall k, m !! k = if decide (k ∈ first_keys l) then Some (with_key k l) else None.
Proof.
  induction l as [|r l (m & Hf & Hm)] using rev_ind.
  - exists ∅. split; [done|]. intros k. rewrite decide_False by apply not_elem_of_nil. apply lookup_empty.
  - rewrite fold_left_app, Hf. cbn [fold_left group_step].
    exists (<[key r := default [] (m !! key r) ++ [r]]> m). rewrite first_keys_snoc, (Hm (key r)).
    assert (Hold : default [] (if decide (key r ∈ first_keys l) then Some (with_key (key r) l) else None) =
      with_key (key r) l).
    { case_decide as Hk; cbn [default]; [done|]. symmetry. apply with_key_none. by rewrite <- first_keys_elem. }
    rewrite Hold. split; [by case_decide|]. intros k.
    destruct (decide (k = key r)) as [-> | Hne].
    + rewrite lookup_insert_eq, with_key_snoc, (decide_True (P := key r = key r)) by done.
      rewrite decide_True; [done|]. case_decide; set_solver.
    + rewrite lookup_insert_ne, Hm, with_key_snoc, (decide_False (P := key r = k)), app_nil_r by congruence.
      repeat case_decide; try done; set_solver.
Qed.

Lemma group_by_eq l : group_by key l = map (fun k => (k, with_key k l)) (first_keys l).
Proof.
  unfold group_by. destruct (group_fold l) as (m & -> & Hm). apply map_ext_in. intros k Hk%list_elem_of_In.
  by rewrite Hm, decide_True.
Qed.

(** Splitting a list by a duplicate-free list of keys that has all of them
    loses and repeats nothing. *)
Lemma with_key_perm ks l :
  NoDup ks -> (forall r, r ∈ l -> key r ∈ ks) -> concat (map (fun k => with_key k l) ks) ≡ₚ l.
Proof.
  intros Hnd. revert l. induction Hnd as [|k ks Hk _ IH]; intros l Hl; cbn [map concat].
  - destruct l as [|r l]; [done|]. specialize (Hl r ltac:(left)). by apply not_elem_of_nil in Hl.
  - transitivity (with_key k l ++ filter (fun r => ~ key r = k) l); [|apply filter_app_complement].
    apply Permutation_app_head. rewrite <- (IH (filter (fun r => ~ key r = k) l)).
    + apply reflexive_eq. f_equal. apply map_ext_in. intros k' Hk'%list_elem_of_In. unfold with_key.
      clear -Hk' Hk. induction l as [|r l IHl]; [done|].
      destruct (decide (key r = k')) as [Hr|Hr].
      * rewrite filter_cons_True by done. rewrite (filter_cons_True (fun r => ~ key r = k)) by (intros ?; congruence).
        rewrite filter_cons_True by done. by f_equal.
      * rewrite filter_cons_False by done. destruct (decide (key r = k)) as [Hx|Hx].
        -- rewrite (filter_cons_False (fun r => ~ key r = k)) by tauto. done.
        -- rewrite (filter_cons_True (fun r => ~ key r = k)) by done. by rewrite filter_cons_False.
    + intros r [Hr Hin]%list_elem_of_filter. specialize (Hl r Hin). set_solver.
Qed.
End grouping.

(** Grouping records for a produce request loses, repeats and reorders
    nothing: [groupByTopic] lists each topic once, in order of first
    appearance, with exactly the records of that topic in their original
    order; likewise [groupByPartition]; the groups together are the records. *)
Theorem grouping_spec records :
  groupByTopic records = map (fun t => (t, with_key pr_Topic t records)) (first_keys pr_Topic records) /\
  groupByPartition records = map (fun p => (p, with_key pr_Partition p records)) (first_keys pr_Partition records) /\
  NoDup (map fst (groupByTopic records)) /\ NoDup (map fst (groupByPartition records)) /\
  concat (map snd (groupByTopic records)) ≡ₚ records /\
  concat (map snd (groupByPartition records)) ≡ₚ records.
Proof.
  unfold groupByTopic, groupByPartition. rewrite !group_by_eq, !map_map. cbn [fst snd].
  rewrite !map_id. repeat split; try apply first_keys_nodup.
  all: apply with_key_perm; [apply first_keys_nodup|].
  all: intros r Hr; apply first_keys_elem, list_elem_of_In, in_map, list_elem_of_In, Hr.
Qed.

(** * Concrete batches *)

#[local] Existing Instance stored_codecs.

(** Two records of a transactional producer. *)
Definition sample_batch (base : Z) : batch :=
  mkBatch (fun _ => 1700000000000)
    [ mkProduceRecord (str "orders") 0 (str "k1") (str "hello") [(str "h", str "x")] (Some 1700000000000);
      mkProduceRecord (str "orders") 0 [] (str "world") [] (Some 1700000000042) ]
    (mkProduceSettings (-1) 30000 CodecGzip 0 true (str "tx") 7 1 (Some (fun _ _ => 0))) 0 base.

Definition sample_blob (base : Z) : bytes :=
  match encodeRecordBatch (bt_clock (sample_batch base)) (bt_records (sample_batch base))
    (bt_settings (sample_batch base)) 0 with
  | Ok sent => patch sent 0 (be_bytes 8 base)
  | _ => []
  end.

(** The abort marker a broker writes after them. *)
Definition sample_marker (base : Z) : bytes :=
  let tail := batch_tail 0x30 0 1700000000050 1700000000050 7 1 (-1) 1 (str "abort") in
  batch_bytes base (9 + len tail) tail.

Definition sample_infos : list recordBatchInfo :=
  [ batch_info (str "orders") 0 (sample_batch 0);
    mkBatchInfo 2 2 7 true true [];
    batch_info (str "orders") 0 (sample_batch 3) ].

Lemma sample_stored base : stored (sample_batch base) (sample_blob base).
Proof.
  unfold stored, sample_blob. cbn [bt_seq sample_batch].
  destruct (encodeRecordBatch _ _ _ _) as [s|e|] eqn:E; [eauto | |]; vm_compute in E; discriminate.
Qed.

Lemma sample_wf_records t0 : t0 = 1700000000000 ->
  wf_records 1700000000000 t0 0 (bt_records (sample_batch 0)).
Proof.
  intros ->. cbn [bt_records sample_batch wf_records]. unfold wf_record, wf_record_fields, small, varint29.
  split; [|split; [|done]].
  - split; [split; [done|]; split; [done|]; split; [done|]; repeat constructor|]; by vm_compute.
  - split; [split; [done|]; split; [done|]; split; [done|]; repeat constructor|]; by vm_compute.
Qed.

Lemma sample_wf base : int64 base -> wf_batch (sample_batch base).
Proof.
  intros Hb. unfold wf_batch. cbn [bt_settings sample_batch bt_clock bt_seq bt_base ps_Compression
    ps_ProducerID ps_ProducerEpoch].
  split; [done|]. split; [repeat constructor; unfold timestamped, int64; cbn [pr_Timestamp]; lia|].
  split; [intros t0 Ht; apply sample_wf_records; cbn in Ht; congruence|].
  split; [intros p Hp; vm_compute in Hp; apply Ok_inj in Hp as <-; by vm_compute|].
  split; [done|]. split; [by unfold int64|]. split; [by unfold int16|]. by split.
Qed.

Lemma sample_framed : Forall framed [sample_blob 0; sample_marker 2; sample_blob 3].
Proof.
  apply Forall_cons. split; [eapply stored_framed; [apply sample_stored | vm_compute; reflexivity]|].
  apply Forall_cons. split; [unfold sample_marker, batch_bytes; eexists _, _, _; split; [reflexivity|]; vm_compute; done|].
  apply Forall_cons. split; [eapply stored_framed; [apply sample_stored | vm_compute; reflexivity]|].
  by apply Forall_nil.
Qed.

Lemma produce_fetch_roundtrip_witness :
  decodeRecordBatch (str "orders") 0 (concat [sample_blob 10; sample_blob 12]) [] =
    Ok (delivered (str "orders") 0 10 0 (bt_records (sample_batch 10)) ++
        delivered (str "orders") 0 12 0 (bt_records (sample_batch 12)) ++ []).
Proof.
  apply (@produce_fetch_roundtrip stored_codecs stored_codecs_laws (str "orders") 0
    [sample_batch 10; sample_batch 12]).
  - apply Forall2_cons. split; [apply sample_stored|].
    apply Forall2_cons. split; [apply sample_stored | by apply Forall2_nil].
  - apply Forall_cons. split; [apply sample_wf; unfold int64; lia|].
    apply Forall_cons. split; [apply sample_wf; unfold int64; lia | by apply Forall_nil].
  - apply Forall_cons. split; [vm_compute; reflexivity|].
    apply Forall_cons. split; [vm_compute; reflexivity | by apply Forall_nil].
Defined.


Lemma read_committed_spec_witness :
  decodeRecordBatch (str "orders") 0 (concat [sample_blob 0; sample_marker 2; sample_blob 3])
    [mkAbortedTxn 7 0] =
  Ok (control_record (str "orders") 0 1 :: control_record (str "orders") 0 2 ::
      delivered (str "orders") 0 3 0 (bt_records (sample_batch 3))).
Proof.
  rewrite (read_committed_spec (str "orders") 0 _ sample_infos).
  - vm_compute. reflexivity.
  - apply sample_framed.
  - repeat constructor; vm_compute; reflexivity.
  - repeat constructor.
  - repeat constructor.
Defined.
