(* ===== verification/ProduceCodec.v ===== *)
(** Produce requests and responses: [EncodeProduceRequest] and
    [DecodeProduceResponse] of [internal/protocol/produce.go], in their
    flexible (v9 and above) and legacy forms. *)

From Stdlib Require Import ZArith Lia.
From Stdlib Require Import Strings.Byte.
From stdpp Require Import base list gmap countable strings.
From S2P Require Import Prelude.
From S2P Require Import Wire.
From S2P Require Import Compress.
From S2P Require Import RecordBatch.

Open Scope Z_scope.

(** * Requests *)

(** [clock topic partition] are the clock readings of that partition's
    [encodeRecordBatch]: a request encodes each partition once. *)
Definition request_clock := bytes -> Z -> nat -> Z.

Definition set_TimeoutMs (s : ProduceSettings) (t : Z) : ProduceSettings :=
  mkProduceSettings (ps_Acks s) t (ps_Compression s) (ps_CompressionLevel s) (ps_Transactional s)
    (ps_TransactionalID s) (ps_ProducerID s) (ps_ProducerEpoch s) (ps_NextSequence s).

Definition has_txn_id (s : ProduceSettings) : bool :=
  ps_Transactional s && negb (bool_decide (ps_TransactionalID s = [])).

Definition writeProduceTransactionalID (settings : ProduceSettings) : Enc :=
  if has_txn_id settings then WriteString (ps_TransactionalID settings) else WriteNullableString None.

Section request.
Context `{Codecs} (clock : request_clock) (settings : ProduceSettings).

(** The sequence number and the batch of one partition group. *)
Definition partition_batch (pg : Z * list ProduceRecord) : res bytes :=
  let? seq := match ps_NextSequence settings with
              | None => Ok 0
              | Some next => let? r0 := index (snd pg) 0 in Ok (next (pr_Topic r0) (fst pg))
              end in
  encodeRecordBatch (clock (from_option pr_Topic [] (head (snd pg))) (fst pg)) (snd pg) settings seq.

Definition encode_partition_legacy (pg : Z * list ProduceRecord) : Enc :=
  let? batch := partition_batch pg in
  WriteInt32 (fst pg) +++ WriteBytes (Some batch).

Definition encode_topic_legacy (tg : bytes * list ProduceRecord) : Enc :=
  let partGroups := groupByPartition (snd tg) in
  WriteString (fst tg) +++ WriteInt32 (s32 (len partGroups)) +++
  enc_list encode_partition_legacy partGroups.

Definition encodeProduceRequestLegacy (records : list ProduceRecord) : Enc :=
  let groups := groupByTopic records in
  writeProduceTransactionalID settings +++
  WriteInt16 (ps_Acks settings) +++ WriteInt32 (ps_TimeoutMs settings) +++
  WriteInt32 (s32 (len groups)) +++ enc_list encode_topic_legacy groups.

Definition encode_partition_flex (pg : Z * list ProduceRecord) : Enc :=
  let? batch := partition_batch pg in
  WriteInt32 (fst pg) +++ WriteCompactBytes (Some batch) +++ WriteEmptyTagSection.

Definition encode_topic_flex (tg : bytes * list ProduceRecord) : Enc :=
  let partGroups := groupByPartition (snd tg) in
  WriteCompactString (fst tg) +++ WriteCompactArrayLen (len partGroups) +++
  enc_list encode_partition_flex partGroups +++ WriteEmptyTagSection.

Definition encodeProduceRequestFlex (records : list ProduceRecord) : Enc :=
  let groups := groupByTopic records in
  (if has_txn_id settings then WriteCompactString (ps_TransactionalID settings)
   else WriteCompactNullableString None) +++
  WriteInt16 (ps_Acks settings) +++ WriteInt32 (ps_TimeoutMs settings) +++
  WriteCompactArrayLen (len groups) +++ enc_list encode_topic_flex groups +++
  WriteEmptyTagSection.
End request.

Definition EncodeProduceRequest `{Codecs} (clock : request_clock) (apiVersion : Z)
    (records : list ProduceRecord) (settings : ProduceSettings) : Enc :=
  let settings := if ps_TimeoutMs settings <=? 0 then set_TimeoutMs settings 30000 else settings in
  if apiVersion >=? 9 then encodeProduceRequestFlex clock settings records
  else encodeProduceRequestLegacy clock settings records.

(** * Responses *)

Record ProduceResult := mkProduceResult {
  pres_Topic : bytes;
  pres_Partition : Z;
  pres_Offset : Z;
  pres_ErrorCode : Z }.

Definition read_result_legacy (name : bytes) : Rd ProduceResult :=
  part <- ReadInt32 ;;
  errCode <- ReadInt16 ;;
  offset <- ReadInt64 ;;
  ReadInt64 ;;;
  ReadInt64 ;;;
  ret (mkProduceResult name part offset errCode).

Definition decodeProduceResponseLegacy : Rd (list ProduceResult) :=
  nTopics <- ReadInt32 ;;
  out <- rd_flat nTopics (
    name <- ReadString ;;
    nParts <- ReadInt32 ;;
    rd_list nParts (read_result_legacy name)) ;;
  ReadInt32 ;;;
  ret out.

Definition read_result_flex (apiVersion : Z) (name : bytes) : Rd ProduceResult :=
  part <- ReadInt32 ;;
  errCode <- ReadInt16 ;;
  offset <- ReadInt64 ;;
  ReadInt64 ;;;
  ReadInt64 ;;;
  (if apiVersion >=? 8 then
     nRecErrs <- ReadUvarint ;;
     rd_for (nRecErrs - 1) (fun _ => ReadInt32 ;;; ReadCompactNullableString ;;; ret tt) tt ;;;
     ReadCompactNullableString ;;;
     ret tt
   else ret tt) ;;;
  SkipTagSection ;;;
  ret (mkProduceResult name part offset errCode).

Definition decodeProduceResponseFlex (apiVersion : Z) : Rd (list ProduceResult) :=
  nTopics <- ReadUvarint ;;
  out <- rd_flat (nTopics - 1) (
    name <- ReadCompactString ;;
    nParts <- ReadUvarint ;;
    rs <- rd_list (nParts - 1) (read_result_flex apiVersion name) ;;
    SkipTagSection ;;;
    ret rs) ;;
  ReadInt32 ;;;
  SkipTagSection ;;;
  ret out.

Definition DecodeProduceResponse (apiVersion : Z) (body : bytes) : res (list ProduceResult) :=
  if apiVersion >=? 9 then run (decodeProduceResponseFlex apiVersion) body
  else run decodeProduceResponseLegacy body.

(** * Theorems *)

Lemma safe_produce_flex v : Safe (decodeProduceResponseFlex v).
Proof. unfold decodeProduceResponseFlex, read_result_flex. solve_safe. Qed.

Lemma safe_produce_legacy : Safe decodeProduceResponseLegacy.
Proof. unfold decodeProduceResponseLegacy, read_result_legacy. solve_safe. Qed.

#[export] Hint Resolve safe_produce_flex safe_produce_legacy : wire.
