(* ===== verification/FetchCodec.v ===== *)
(** Fetch requests and responses: [EncodeFetchRequest] and
    [DecodeFetchResponse] of [internal/protocol/fetch.go], in their flexible
    (v12 and above) and legacy forms. *)

From Stdlib Require Import ZArith Lia.
From Stdlib Require Import Strings.Byte.
From stdpp Require Import base list gmap countable strings.
From S2P Require Import Prelude.
From S2P Require Import Wire.
From S2P Require Import Compress.
From S2P Require Import CompressFacts.
From S2P Require Import RecordBatch.
From S2P Require Import RecordBatchFacts.

Open Scope Z_scope.

(** * Requests *)

Record FetchPartition := mkFetchPartition {
  fp_Topic : bytes;
  fp_TopicID : bytes;
  fp_Partition : Z;
  fp_Offset : Z;
  fp_LeaderEpoch : Z;
  fp_MaxBytes : Z }.

Definition fetch_max_bytes (p : FetchPartition) : Z :=
  if fp_MaxBytes p <=? 0 then 2 ^ 20 else fp_MaxBytes p.

Definition encode_fetch_partition_legacy (ver : Z) (p : FetchPartition) : Enc :=
  WriteInt32 (fp_Partition p) +++
  (if ver >=? 9 then WriteInt32 (fp_LeaderEpoch p) else enc_nil) +++
  WriteInt64 (fp_Offset p) +++
  (if ver >=? 5 then WriteInt64 (-1) else enc_nil) +++
  WriteInt32 (fetch_max_bytes p).

Definition encode_fetch_topic_legacy (ver : Z) (tp : bytes * list FetchPartition) : Enc :=
  WriteString (fst tp) +++ WriteInt32 (s32 (len (snd tp))) +++
  enc_list (encode_fetch_partition_legacy ver) (snd tp).

Definition encodeFetchRequestLegacy (ver : Z) (partitions : list FetchPartition)
    (maxWaitMs minBytes maxBytes isolationLevel : Z) : Enc :=
  let groups := group_by fp_Topic partitions in
  WriteInt32 (-1) +++ WriteInt32 maxWaitMs +++ WriteInt32 minBytes +++ WriteInt32 maxBytes +++
  (if ver >=? 4 then WriteInt8 isolationLevel else enc_nil) +++
  (if ver >=? 7 then WriteInt32 0 +++ WriteInt32 0 else enc_nil) +++
  WriteInt32 (s32 (len groups)) +++
  enc_list (encode_fetch_topic_legacy ver) groups +++
  (if ver >=? 10 then WriteInt32 0 else enc_nil) +++
  (if ver >=? 11 then WriteString [] else enc_nil).

Definition encode_fetch_partition_flex (ver : Z) (p : FetchPartition) : Enc :=
  WriteInt32 (fp_Partition p) +++ WriteInt32 (fp_LeaderEpoch p) +++ WriteInt64 (fp_Offset p) +++
  (if ver >=? 12 then WriteInt32 (-1) else enc_nil) +++
  (if ver >=? 5 then WriteInt64 (-1) else enc_nil) +++
  WriteInt32 (fetch_max_bytes p) +++ WriteEmptyTagSection.

Definition encode_fetch_topic_flex (ver : Z) (tp : bytes * list FetchPartition) : Enc :=
  (if ver >=? 13 then let? p0 := index (snd tp) 0 in WriteUUID (fp_TopicID p0)
   else WriteCompactString (fst tp)) +++
  WriteCompactArrayLen (len (snd tp)) +++
  enc_list (encode_fetch_partition_flex ver) (snd tp) +++ WriteEmptyTagSection.

Definition encodeFetchRequestFlex (ver : Z) (partitions : list FetchPartition)
    (maxWaitMs minBytes maxBytes isolationLevel : Z) : Enc :=
  let groups := group_by fp_Topic partitions in
  WriteInt32 (-1) +++ WriteInt32 maxWaitMs +++ WriteInt32 minBytes +++ WriteInt32 maxBytes +++
  WriteInt8 isolationLevel +++ WriteInt32 0 +++ WriteInt32 (-1) +++
  WriteCompactArrayLen (len groups) +++
  enc_list (encode_fetch_topic_flex ver) groups +++
  WriteCompactArrayLen 0 +++
  (if ver >=? 11 then WriteCompactString [] else enc_nil) +++
  WriteEmptyTagSection.

Definition EncodeFetchRequest (ver : Z) (partitions : list FetchPartition)
    (maxWaitMs minBytes maxBytes isolationLevel : Z) : Enc :=
  if ver >=? 12 then encodeFetchRequestFlex ver partitions maxWaitMs minBytes maxBytes isolationLevel
  else encodeFetchRequestLegacy ver partitions maxWaitMs minBytes maxBytes isolationLevel.

(** * Responses *)

(** The tests on a partition's error code, in order. *)
Definition fetch_error (errCode : Z) : option error :=
  if errCode =? 27 then Some ErrRebalanceInProgress
  else if (errCode =? 6) || (errCode =? 74) || (errCode =? 75) then Some ErrLeaderEpochChanged
  else if errCode =? 100 then Some ErrUnknownTopicID
  else if negb (errCode =? 0) then Some (FmtError "protocol: fetch partition error" errCode)
  else None.

Definition check_fetch_error (errCode : Z) : Rd unit :=
  match fetch_error errCode with Some e => fail e | None => ret tt end.

Definition readAbortedTransactions : Rd (list abortedTxn) :=
  n <- ReadInt32 ;;
  if n <=? 0 then ret [] else
  rd_list n (pid <- ReadInt64 ;; fo <- ReadInt64 ;; ret (mkAbortedTxn pid fo)).

Definition readAbortedTransactionsFlex : Rd (list abortedTxn) :=
  n <- ReadUvarint ;;
  if n <=? 1 then ret [] else
  rd_list (n - 1) (pid <- ReadInt64 ;; fo <- ReadInt64 ;; SkipTagSection ;;; ret (mkAbortedTxn pid fo)).

(** A field present from some version on, whose value is not used. *)
Definition skip_if {A} (c : bool) (m : Rd A) : Rd unit :=
  if c then (m ;;; ret tt) else ret tt.

(** The header of a partition up to its aborted transactions: the partition. *)
Definition read_fetch_partition_head (ver : Z) : Rd Z :=
  part <- ReadInt32 ;;
  errCode <- ReadInt16 ;;
  check_fetch_error errCode ;;;
  ReadInt64 ;;;
  skip_if (ver >=? 4) ReadInt64 ;;;
  skip_if (ver >=? 5) ReadInt64 ;;;
  ret part.

Section response.
Context `{Codecs}.

Definition read_fetch_partition_legacy (ver : Z) (topic : bytes) : Rd (list FetchedRecord) :=
  part <- read_fetch_partition_head ver ;;
  aborted <- (if ver >=? 4 then readAbortedTransactions else ret []) ;;
  skip_if (ver >=? 11) ReadInt32 ;;;
  records <- ReadBytes ;;
  lift (decodeRecordBatch topic part (default [] records) aborted).

Definition decodeFetchResponseLegacy (ver : Z) : Rd (list FetchedRecord) :=
  ReadInt32 ;;;
  skip_if (ver >=? 7) (ReadInt16 ;;; ReadInt32) ;;;
  nTopics <- ReadInt32 ;;
  rd_flat nTopics (
    topic <- ReadString ;;
    nParts <- ReadInt32 ;;
    rd_flat nParts (read_fetch_partition_legacy ver topic)).

(** [resolveTopic] is [None] when the caller passes nil, which v13 and above
    call. *)
Definition resolve_topic (resolveTopic : option (bytes -> option bytes)) (tid : bytes) : Rd bytes :=
  match resolveTopic with
  | None => panic
  | Some f => match f tid with Some name => ret name | None => fail ErrUnknownTopicID end
  end.

Definition read_fetch_partition_flex (ver : Z) (topic : bytes) : Rd (list FetchedRecord) :=
  part <- read_fetch_partition_head ver ;;
  aborted <- (if ver >=? 4 then readAbortedTransactionsFlex else ret []) ;;
  skip_if (ver >=? 11) ReadInt32 ;;;
  records <- ReadCompactBytes ;;
  recs <- lift (decodeRecordBatch topic part (default [] records) aborted) ;;
  SkipTagSection ;;;
  ret recs.

Definition decodeFetchResponseFlex (ver : Z) (resolveTopic : option (bytes -> option bytes)) :
    Rd (list FetchedRecord) :=
  ReadInt32 ;;;
  skip_if (ver >=? 7) (ReadInt16 ;;; ReadInt32) ;;;
  nTopics <- ReadUvarint ;;
  out <- rd_flat (nTopics - 1) (
    topic <- (if ver >=? 13 then (tid <- ReadUUID ;; resolve_topic resolveTopic tid)
              else ReadCompactString) ;;
    nParts <- ReadUvarint ;;
    rs <- rd_flat (nParts - 1) (read_fetch_partition_flex ver topic) ;;
    SkipTagSection ;;;
    ret rs) ;;
  SkipTagSection ;;;
  ret out.

Definition DecodeFetchResponse (ver : Z) (body : bytes) (resolveTopic : option (bytes -> option bytes)) :
    res (list FetchedRecord) :=
  if ver >=? 12 then run (decodeFetchResponseFlex ver resolveTopic) body
  else run (decodeFetchResponseLegacy ver) body.
End response.

(** * Safety *)

Lemma safe_check_fetch_error c : Safe (check_fetch_error c).
Proof. unfold check_fetch_error. solve_safe. Qed.

Lemma safe_skip_if {A} c (m : Rd A) : Safe m -> Safe (skip_if c m).
Proof. intros Hm. unfold skip_if. destruct c; [|apply safe_ret]. apply safe_bind; [done|]. intros. apply safe_ret. Qed.

#[export] Hint Resolve safe_check_fetch_error safe_skip_if : wire.

Lemma safe_fetch_head ver : Safe (read_fetch_partition_head ver).
Proof. unfold read_fetch_partition_head. solve_safe. Qed.

Lemma safe_aborted : Safe readAbortedTransactions.
Proof. unfold readAbortedTransactions. solve_safe. Qed.

Lemma safe_aborted_flex : Safe readAbortedTransactionsFlex.
Proof. unfold readAbortedTransactionsFlex. solve_safe. Qed.

Lemma safe_session_header : Safe (ReadInt16 ;;; ReadInt32).
Proof. solve_safe. Qed.

#[export] Hint Resolve safe_fetch_head safe_aborted safe_aborted_flex safe_session_header : wire.

Section safety.
Context `{CodecLaws}.

Lemma decodeRecordBatch_no_panic topic part data aborted : decodeRecordBatch topic part data aborted <> Panic.
Proof. apply batch_loop_fuel. lia. Qed.

Lemma safe_decodeRecordBatch topic part data aborted :
  Safe (lift (decodeRecordBatch topic part data aborted)).
Proof. apply safe_lift, decodeRecordBatch_no_panic. Qed.

Lemma safe_fetch_legacy ver : Safe (decodeFetchResponseLegacy ver).
Proof.
  unfold decodeFetchResponseLegacy, read_fetch_partition_legacy.
  pose proof safe_decodeRecordBatch. solve_safe. apply decodeRecordBatch_no_panic.
Qed.

Lemma safe_fetch_flex ver f : Safe (decodeFetchResponseFlex ver (Some f)).
Proof.
  unfold decodeFetchResponseFlex, read_fetch_partition_flex, resolve_topic.
  solve_safe. apply decodeRecordBatch_no_panic.
Qed.

Lemma safe_fetch_flex_v12 ver : ver < 13 -> Safe (decodeFetchResponseFlex ver None).
Proof.
  intros Hv. unfold decodeFetchResponseFlex, read_fetch_partition_flex.
  assert (ver >=? 13 = false) as -> by (rewrite Z.geb_leb; apply Z.leb_gt; lia).
  solve_safe. apply decodeRecordBatch_no_panic.
Qed.

(** A fetch response never panics the consumer: on any bytes, at any
    version, [DecodeFetchResponse] returns records or an error, provided a
    topic resolver is given for the versions that need one (13 and above). *)
Theorem fetch_response_safe ver body resolveTopic :
  ver < 13 \/ resolveTopic <> None -> DecodeFetchResponse ver body resolveTopic <> Panic.
Proof.
  intros Hr. unfold DecodeFetchResponse. destruct (ver >=? 12) eqn:E.
  - apply safe_run. destruct resolveTopic as [f|]; [apply safe_fetch_flex|].
    destruct Hr as [Hr|Hr]; [by apply safe_fetch_flex_v12 | done].
  - apply safe_run, safe_fetch_legacy.
Qed.
End safety.

Lemma fetch_response_safe_witness :
  @DecodeFetchResponse stored_codecs 12 (str "garbage in") None <> Panic.
Proof. apply (@fetch_response_safe stored_codecs stored_codecs_laws). left. reflexivity. Defined.
