(* ===== verification/Kfake.v ===== *)
(** The in-process broker [kfake/]: its store ([store.go]), the handlers of
    [apis.go], [produce.go], [fetch.go], [listoffsets.go], [admin.go],
    [groups.go] and [initproducer.go], and the request loop's [handle] and
    [dispatch] ([broker.go]).

    A handler reads the request body and changes the broker's state as it
    goes, so it is a function of the monad [Hd], which threads both: a decode
    error half way keeps the changes made before it, as in the code.  Ranging
    over a Go map visits its entries in the order of the class [MapOrder]. *)

From Stdlib Require Import ZArith Lia.
From Stdlib Require Import Strings.Byte.
From stdpp Require Import base list gmap countable strings.
From S2P Require Import Prelude.
From S2P Require Import Wire.

Open Scope Z_scope.

(** * State *)

Record partitionLog := mkPartitionLog { pl_batches : list bytes; pl_leo : Z }.

Record topicState := mkTopicState {
  ts_name : bytes;
  ts_id : bytes;
  ts_partitions : list partitionLog }.

Record groupState := mkGroupState {
  gs_offsets : gmap bytes (gmap Z Z);
  gs_memberID : bytes;
  gs_metadata : option bytes;
  gs_assignor : bytes;
  gs_generation : Z }.

(** The store, the broker's identity and its fault-injection counters;
    [bk_producerIDSeq] is the package's counter of producer ids. *)
Record Broker := mkBroker {
  bk_topics : gmap bytes topicState;
  bk_groups : gmap bytes groupState;
  bk_nextUUID : Z;
  bk_nodeID : Z;
  bk_host : bytes;
  bk_port : Z;
  bk_offsetFetchFailN : Z;
  bk_offsetFetchFailCode : Z;
  bk_produceFailN : Z;
  bk_produceFailCode : Z;
  bk_produceFailTopic : bytes;
  bk_produceFailPart : Z;
  bk_producerIDSeq : Z }.

Definition set_topics (t : gmap bytes topicState) (b : Broker) : Broker :=
  mkBroker t (bk_groups b) (bk_nextUUID b) (bk_nodeID b) (bk_host b) (bk_port b)
    (bk_offsetFetchFailN b) (bk_offsetFetchFailCode b) (bk_produceFailN b) (bk_produceFailCode b)
    (bk_produceFailTopic b) (bk_produceFailPart b) (bk_producerIDSeq b).

Definition set_groups (g : gmap bytes groupState) (b : Broker) : Broker :=
  mkBroker (bk_topics b) g (bk_nextUUID b) (bk_nodeID b) (bk_host b) (bk_port b)
    (bk_offsetFetchFailN b) (bk_offsetFetchFailCode b) (bk_produceFailN b) (bk_produceFailCode b)
    (bk_produceFailTopic b) (bk_produceFailPart b) (bk_producerIDSeq b).

Definition set_nextUUID (u : Z) (b : Broker) : Broker :=
  mkBroker (bk_topics b) (bk_groups b) u (bk_nodeID b) (bk_host b) (bk_port b)
    (bk_offsetFetchFailN b) (bk_offsetFetchFailCode b) (bk_produceFailN b) (bk_produceFailCode b)
    (bk_produceFailTopic b) (bk_produceFailPart b) (bk_producerIDSeq b).

Definition set_offsetFetchFault (n code : Z) (b : Broker) : Broker :=
  mkBroker (bk_topics b) (bk_groups b) (bk_nextUUID b) (bk_nodeID b) (bk_host b) (bk_port b)
    n code (bk_produceFailN b) (bk_produceFailCode b)
    (bk_produceFailTopic b) (bk_produceFailPart b) (bk_producerIDSeq b).

Definition set_produceFault (n code : Z) (topic : bytes) (part : Z) (b : Broker) : Broker :=
  mkBroker (bk_topics b) (bk_groups b) (bk_nextUUID b) (bk_nodeID b) (bk_host b) (bk_port b)
    (bk_offsetFetchFailN b) (bk_offsetFetchFailCode b) n code topic part (bk_producerIDSeq b).

Definition set_producerIDSeq (i : Z) (b : Broker) : Broker :=
  mkBroker (bk_topics b) (bk_groups b) (bk_nextUUID b) (bk_nodeID b) (bk_host b) (bk_port b)
    (bk_offsetFetchFailN b) (bk_offsetFetchFailCode b) (bk_produceFailN b) (bk_produceFailCode b)
    (bk_produceFailTopic b) (bk_produceFailPart b) i.

Definition NewBroker (host : bytes) (port : Z) : Broker :=
  mkBroker ∅ ∅ 0 0 host port 0 0 0 0 [] 0 0.

(** ** Store operations *)

(** The 16-byte id whose last byte is [u]. *)
Definition topic_uuid (u : Z) : bytes := repeat x00 15 ++ [z2b u].

Definition createTopic (name : bytes) (n : Z) (b : Broker) : Broker * bool :=
  match bk_topics b !! name with
  | Some _ => (b, false)
  | None =>
      let n := if n <=? 0 then 1 else n in
      let u := u8 (bk_nextUUID b + 1) in
      let ts := mkTopicState name (topic_uuid u) (repeat (mkPartitionLog [] 0) (Z.to_nat n)) in
      (set_topics (<[name := ts]> (bk_topics b)) (set_nextUUID u b), true)
  end.

Definition deleteTopic (name : bytes) (b : Broker) : Broker * bool :=
  match bk_topics b !! name with
  | None => (b, false)
  | Some _ => (set_topics (delete name (bk_topics b)) b, true)
  end.

Definition empty_group : groupState := mkGroupState ∅ [] None [] 0.

(** [group] returns the group's state, which it creates on first use. *)
Definition group (id : bytes) (b : Broker) : Broker * groupState :=
  match bk_groups b !! id with
  | Some g => (b, g)
  | None => (set_groups (<[id := empty_group]> (bk_groups b)) b, empty_group)
  end.

Definition set_group (id : bytes) (g : groupState) (b : Broker) : Broker :=
  set_groups (<[id := g]> (bk_groups b)) b.

Definition FailNextProduce (n code : Z) : Broker -> Broker := set_produceFault n code [] 0.
Definition FailNextProducePartition (n code : Z) (topic : bytes) (part : Z) : Broker -> Broker :=
  set_produceFault n code topic part.
Definition FailNextOffsetFetch (n code : Z) : Broker -> Broker := set_offsetFetchFault n code.

Record produceFault := mkProduceFault { pf_code : Z; pf_all : bool; pf_topic : bytes; pf_part : Z }.

Definition takeProduceFault (b : Broker) : Broker * option produceFault :=
  if bk_produceFailN b <=? 0 then (b, None)
  else (set_produceFault (bk_produceFailN b - 1) (bk_produceFailCode b) (bk_produceFailTopic b)
          (bk_produceFailPart b) b,
        Some (mkProduceFault (bk_produceFailCode b) (bool_decide (bk_produceFailTopic b = []))
          (bk_produceFailTopic b) (bk_produceFailPart b))).

Definition takeOffsetFetchFault (b : Broker) : Broker * Z :=
  if bk_offsetFetchFailN b <=? 0 then (b, 0)
  else (set_offsetFetchFault (bk_offsetFetchFailN b - 1) (bk_offsetFetchFailCode b) b,
        bk_offsetFetchFailCode b).

(** * The handler monad *)

Definition Hd (A : Type) : Type := Broker -> Buffer -> Broker * (Buffer * res A).

Definition hret {A} (a : A) : Hd A := fun st b => (st, (b, Ok a)).
Definition hbind {A C} (m : Hd A) (f : A -> Hd C) : Hd C := fun st b =>
  match m st b with
  | (st', (b', Ok a)) => f a st' b'
  | (st', (b', Err e)) => (st', (b', Err e))
  | (st', (b', Panic)) => (st', (b', Panic))
  end.
(** A read, and a change of the state. *)
Definition hrd {A} (r : Rd A) : Hd A := fun st b => (st, r b).
Definition hst {A} (f : Broker -> Broker * A) : Hd A := fun st b =>
  let '(st', a) := f st in (st', (b, Ok a)).
Definition hres {A} (r : res A) : Hd A := fun st b => (st, (b, r)).

Declare Scope hd_scope.
Delimit Scope hd_scope with hd.
Notation "x <~ m ;; k" := (hbind m (fun x => k))
  (at level 100, m at next level, right associativity) : hd_scope.
Notation "m ~;; k" := (hbind m (fun _ => k))
  (at level 100, right associativity) : hd_scope.
Open Scope hd_scope.

Fixpoint hd_iter {T} (p : positive) (body : T -> Hd T) (s : T) : Hd T :=
  match p with
  | xH => body s
  | xO q => s1 <~ hd_iter q body s ;; hd_iter q body s1
  | xI q => s0 <~ body s ;; s1 <~ hd_iter q body s0 ;; hd_iter q body s1
  end.

Definition hd_for {T} (n : Z) (body : T -> Hd T) (s : T) : Hd T :=
  match n with
  | Zpos p => hd_iter p body s
  | _ => hret s
  end.

Definition hd_list {A} (n : Z) (body : Hd A) : Hd (list A) :=
  hd_for n (fun out => x <~ body ;; hret (out ++ [x])) [].

(** [make([]T, 0, n)] with a signed count panics below zero. *)
Definition make_cap (n : Z) : Hd unit := if n <? 0 then hres Panic else hret tt.

(** [skipTags]: the size of a tagged field is not checked against the buffer. *)
Definition skip_raw (sz : Z) : Rd unit := fun b => (mkBuffer (bufB b) (bufI b + sz), Ok tt).

Definition skipTags : Rd unit :=
  n <- ReadUvarint ;;
  rd_for n (fun _ => ReadUvarint ;;; sz <- ReadUvarint ;; skip_raw sz) tt.

(** * Handlers *)

Definition advertised : list (Z * Z) :=
  [(0, 9); (1, 12); (2, 3); (3, 12); (8, 8); (9, 8); (10, 3); (11, 6); (12, 4); (13, 5); (14, 5);
   (18, 3); (19, 4); (20, 6); (22, 4)].

Definition handleApiVersions : Enc :=
  WriteInt16 0 +++ WriteCompactArrayLen (len advertised) +++
  enc_list (fun a => WriteInt16 (fst a) +++ WriteInt16 0 +++ WriteInt16 (snd a) +++ WriteEmptyTagSection)
    advertised +++
  WriteInt32 0 +++ WriteEmptyTagSection.

Definition write_metadata_partition (nodeID p : Z) : Enc :=
  WriteInt16 0 +++ WriteInt32 p +++ WriteInt32 nodeID +++ WriteInt32 0 +++
  WriteCompactArrayLen 1 +++ WriteInt32 nodeID +++
  WriteCompactArrayLen 1 +++ WriteInt32 nodeID +++
  WriteCompactArrayLen 0 +++ WriteEmptyTagSection.

(** [0, 1, ..., n-1] as Go ints. *)
Definition indices {A} (l : list A) : list Z := map Z.of_nat (seq 0 (length l)).

Definition write_metadata_topic (nodeID : Z) (t : topicState) : Enc :=
  WriteInt16 0 +++ WriteCompactNullableString (Some (ts_name t)) +++ WriteUUID (ts_id t) +++
  WriteBool false +++ WriteCompactArrayLen (len (ts_partitions t)) +++
  enc_list (write_metadata_partition nodeID) (indices (ts_partitions t)) +++
  WriteInt32 0 +++ WriteEmptyTagSection.

Definition handleMetadata `{MapOrder} (b : Broker) : Enc :=
  let topics := map snd (range (bk_topics b)) in
  WriteInt32 0 +++
  WriteCompactArrayLen 1 +++ WriteInt32 (bk_nodeID b) +++ WriteCompactString (bk_host b) +++
  WriteInt32 (bk_port b) +++ WriteCompactNullableString None +++ WriteEmptyTagSection +++
  WriteCompactNullableString (Some (str "kfake-cluster")) +++ WriteInt32 (bk_nodeID b) +++
  WriteCompactArrayLen (len topics) +++
  enc_list (write_metadata_topic (bk_nodeID b)) topics +++
  WriteEmptyTagSection.

(** ** Produce *)

Definition errUnknownTopicOrPartition := 3.

Definition batchRecordCount (batch : bytes) : res Z :=
  if len batch <? 61 then Ok 0 else
  let? f := slice batch 57 61 in Ok (s32 (be_value f)).

Definition patchBaseOffset (batch : bytes) (off : Z) : bytes :=
  if len batch >=? 8 then be_bytes 8 (u64 off) ++ drop 8 batch else batch.

Record pres := mkPres { ps_part : Z; ps_code : Z; ps_base : Z }.

(** Append a batch to a partition log; the result is the error code and the
    base offset. *)
Definition append_batch (name : bytes) (part : Z) (batch : bytes) (b : Broker) : res (Broker * (Z * Z)) :=
  match bk_topics b !! name with
  | None => Ok (b, (errUnknownTopicOrPartition, -1))
  | Some t =>
      if (part <? 0) || (part >=? len (ts_partitions t)) then Ok (b, (errUnknownTopicOrPartition, -1)) else
      let? pl := index (ts_partitions t) part in
      let base := pl_leo pl in
      let? n := batchRecordCount batch in
      let pl' := mkPartitionLog (pl_batches pl ++ [patchBaseOffset batch base]) (s64 (pl_leo pl + n)) in
      let t' := mkTopicState (ts_name t) (ts_id t) (<[Z.to_nat part := pl']> (ts_partitions t)) in
      Ok (set_topics (<[name := t']> (bk_topics b)) b, (0, base))
  end.

Definition hit (fault : option produceFault) (name : bytes) (part : Z) : option Z :=
  match fault with
  | Some f => if pf_all f || (bool_decide (name = pf_topic f) && (part =? pf_part f))
              then Some (pf_code f) else None
  | None => None
  end.

(** A state change that may panic. *)
Definition hst_res {A} (f : Broker -> res (Broker * A)) : Hd A := fun st b =>
  match f st with
  | Ok (st', a) => (st', (b, Ok a))
  | Err e => (st, (b, Err e))
  | Panic => (st, (b, Panic))
  end.

Definition produce_partition (fault : option produceFault) (name : bytes) : Hd pres :=
  part <~ hrd ReadInt32 ;;
  batch <~ hrd ReadCompactBytes ;;
  hrd skipTags ~;;
  cb <~ match hit fault name part with
        | Some code => hret (code, -1)
        | None => hst_res (append_batch name part (default [] batch))
        end ;;
  hret (mkPres part (fst cb) (snd cb)).

Definition write_pres (pr : pres) : Enc :=
  WriteInt32 (ps_part pr) +++ WriteInt16 (ps_code pr) +++ WriteInt64 (ps_base pr) +++
  WriteInt64 (-1) +++ WriteInt64 0 +++ WriteCompactArrayLen 0 +++
  WriteCompactNullableString None +++ WriteEmptyTagSection.

Definition write_tres (tr : bytes * list pres) : Enc :=
  WriteCompactString (fst tr) +++ WriteCompactArrayLen (len (snd tr)) +++
  enc_list write_pres (snd tr) +++ WriteEmptyTagSection.

Definition write_produce_response (results : list (bytes * list pres)) : Enc :=
  WriteCompactArrayLen (len results) +++ enc_list write_tres results +++
  WriteInt32 0 +++ WriteEmptyTagSection.

Definition produce_topic (fault : option produceFault) : Hd (bytes * list pres) :=
  name <~ hrd ReadCompactString ;;
  nParts <~ hrd ReadUvarint ;;
  parts <~ hd_list (nParts - 1) (produce_partition fault name) ;;
  hrd skipTags ~;;
  hret (name, parts).

Definition handleProduce : Hd bytes :=
  hrd ReadCompactNullableString ~;;
  hrd ReadInt16 ~;;
  hrd ReadInt32 ~;;
  nTopics <~ hrd ReadUvarint ;;
  fault <~ hst takeProduceFault ;;
  results <~ hd_list (nTopics - 1) (produce_topic fault) ;;
  hres (write_produce_response results).

(** ** Fetch *)

Fixpoint collect (batches : list bytes) (fetchOffset : Z) : bytes :=
  match batches with
  | [] => []
  | batch :: rest =>
      (if len batch <? 8 then []
       else if s64 (be_value (take 8 batch)) >=? fetchOffset then batch else []) ++
      collect rest fetchOffset
  end.

(** The batches are [None] when no partition matches, else the concatenation,
    which Go leaves nil when it is empty. *)
Definition collectBatches (b : Broker) (topic : bytes) (part fetchOffset : Z) : res (option bytes * Z) :=
  match bk_topics b !! topic with
  | None => Ok (None, 0)
  | Some t =>
      if (part <? 0) || (part >=? len (ts_partitions t)) then Ok (None, 0) else
      let? pl := index (ts_partitions t) part in
      let out := collect (pl_batches pl) fetchOffset in
      Ok (if bool_decide (out = []) then None else Some out, pl_leo pl)
  end.

Definition read_fetch_part : Rd (Z * Z) :=
  part <- ReadInt32 ;;
  ReadInt32 ;;;
  offset <- ReadInt64 ;;
  ReadInt32 ;;;
  ReadInt64 ;;;
  ReadInt32 ;;;
  skipTags ;;;
  ret (part, offset).

Definition read_fetch_topic : Rd (bytes * list (Z * Z)) :=
  name <- ReadCompactString ;;
  nParts <- ReadUvarint ;;
  parts <- rd_list (nParts - 1) read_fetch_part ;;
  skipTags ;;;
  ret (name, parts).

Definition read_fetch_request : Rd (list (bytes * list (Z * Z))) :=
  ReadInt32 ;;; ReadInt32 ;;; ReadInt32 ;;; ReadInt32 ;;; ReadInt8 ;;; ReadInt32 ;;; ReadInt32 ;;;
  nTopics <- ReadUvarint ;;
  rd_list (nTopics - 1) read_fetch_topic.

Definition write_fetch_part (b : Broker) (name : bytes) (pr : Z * Z) : Enc :=
  let? r := collectBatches b name (fst pr) (snd pr) in
  let '(records, hwm) := r in
  WriteInt32 (fst pr) +++ WriteInt16 0 +++ WriteInt64 hwm +++ WriteInt64 hwm +++ WriteInt64 0 +++
  WriteCompactArrayLen 0 +++ WriteInt32 (-1) +++ WriteCompactBytes records +++ WriteEmptyTagSection.

Definition write_fetch_topic (b : Broker) (tr : bytes * list (Z * Z)) : Enc :=
  WriteCompactString (fst tr) +++ WriteCompactArrayLen (len (snd tr)) +++
  enc_list (write_fetch_part b (fst tr)) (snd tr) +++ WriteEmptyTagSection.

Definition write_fetch_response (b : Broker) (reqs : list (bytes * list (Z * Z))) : Enc :=
  WriteInt32 0 +++ WriteInt16 0 +++ WriteInt32 0 +++ WriteCompactArrayLen (len reqs) +++
  enc_list (write_fetch_topic b) reqs +++ WriteEmptyTagSection.

Definition hget : Hd Broker := fun st b => (st, (b, Ok st)).

Definition handleFetch : Hd bytes :=
  reqs <~ hrd read_fetch_request ;;
  b <~ hget ;;
  hres (write_fetch_response b reqs).

(** ** ListOffsets *)

(** The guard tests only the upper bound of [part]. *)
Definition list_offset (b : Broker) (name : bytes) (part ts : Z) : res Z :=
  match bk_topics b !! name with
  | Some t =>
      if part <? len (ts_partitions t) then
        if ts =? -2 then Ok 0 else let? pl := index (ts_partitions t) part in Ok (pl_leo pl)
      else Ok 0
  | None => Ok 0
  end.

Definition list_offsets_partition (name : bytes) : Hd (Z * Z) :=
  part <~ hrd ReadInt32 ;;
  ts <~ hrd ReadInt64 ;;
  b <~ hget ;;
  off <~ hres (list_offset b name part ts) ;;
  hret (part, off).

Definition list_offsets_topic : Hd (bytes * list (Z * Z)) :=
  name <~ hrd ReadString ;;
  nParts <~ hrd ReadInt32 ;;
  parts <~ hd_list nParts (list_offsets_partition name) ;;
  hret (name, parts).

Definition write_list_offsets_response (results : list (bytes * list (Z * Z))) : Enc :=
  WriteInt32 0 +++ WriteInt32 (s32 (len results)) +++
  enc_list (fun tr =>
    WriteString (fst tr) +++ WriteInt32 (s32 (len (snd tr))) +++
    enc_list (fun pr => WriteInt32 (fst pr) +++ WriteInt16 0 +++ WriteInt64 (-1) +++ WriteInt64 (snd pr))
      (snd tr)) results.

Definition handleListOffsets : Hd bytes :=
  hrd ReadInt32 ~;;
  hrd ReadInt8 ~;;
  nTopics <~ hrd ReadInt32 ;;
  make_cap nTopics ~;;
  results <~ hd_list nTopics list_offsets_topic ;;
  hres (write_list_offsets_response results).

(** ** CreateTopics and DeleteTopics *)

Definition errTopicAlreadyExists := 36.

Definition read_create_topic : Rd (bytes * Z) :=
  name <- ReadString ;;
  parts <- ReadInt32 ;;
  ReadInt16 ;;;
  na <- ReadInt32 ;;
  rd_for na (fun _ =>
    ReadInt32 ;;;
    nb <- ReadInt32 ;;
    rd_for nb (fun _ => ReadInt32 ;;; ret tt) tt) tt ;;;
  nc <- ReadInt32 ;;
  rd_for nc (fun _ => ReadString ;;; ReadString ;;; ret tt) tt ;;;
  ret (name, parts).

Definition create_topic : Hd (bytes * Z) :=
  np <~ hrd read_create_topic ;;
  ok <~ hst (createTopic (fst np) (snd np)) ;;
  hret (fst np, if ok then 0 else errTopicAlreadyExists).

Definition write_create_topics_response (results : list (bytes * Z)) : Enc :=
  WriteInt32 0 +++ WriteInt32 (s32 (len results)) +++
  enc_list (fun r => WriteString (fst r) +++ WriteInt16 (snd r) +++ WriteNullableString None) results.

Definition handleCreateTopics : Hd bytes :=
  n <~ hrd ReadInt32 ;;
  make_cap n ~;;
  results <~ hd_list n create_topic ;;
  hres (write_create_topics_response results).

Definition read_delete_topic : Rd bytes :=
  name <- ReadCompactNullableString ;;
  ReadUUID ;;;
  skipTags ;;;
  ret name.

Definition delete_topics (names : list bytes) (b : Broker) : Broker :=
  fold_left (fun b name => fst (deleteTopic name b)) names b.

Definition write_delete_topics_response (names : list bytes) : Enc :=
  WriteInt32 0 +++ WriteCompactArrayLen (len names) +++
  enc_list (fun name => WriteCompactString name +++ WriteInt16 0 +++ WriteEmptyTagSection) names +++
  WriteEmptyTagSection.

Definition handleDeleteTopics : Hd bytes :=
  n <~ hrd ReadUvarint ;;
  names <~ hrd (rd_list (n - 1) read_delete_topic) ;;
  hst (fun b => (delete_topics names b, tt)) ~;;
  hres (write_delete_topics_response names).

(** ** Consumer groups *)

Definition handleFindCoordinator (b : Broker) : Enc :=
  WriteInt32 0 +++ WriteInt16 0 +++ WriteCompactNullableString None +++ WriteInt32 (bk_nodeID b) +++
  WriteCompactString (bk_host b) +++ WriteInt32 (bk_port b) +++ WriteEmptyTagSection.

(** The first protocol wins; [None] before the first pass. *)
Definition read_protocol (first : option (bytes * option bytes)) : Rd (option (bytes * option bytes)) :=
  name <- ReadCompactString ;;
  m <- ReadCompactBytes ;;
  skipTags ;;;
  ret (match first with None => Some (name, m) | Some f => Some f end).

Definition join_group (grp memberID assignor : bytes) (meta : option bytes) (b : Broker) : Broker * (bytes * Z) :=
  let '(b, g) := group grp b in
  let memberID := if bool_decide (memberID = []) then str "kfake-member-1" else memberID in
  let gen := s32 (gs_generation g + 1) in
  (set_group grp (mkGroupState (gs_offsets g) memberID meta assignor gen) b, (memberID, gen)).

Definition write_join_response (gen : Z) (assignor memberID : bytes) (meta : option bytes) : Enc :=
  WriteInt32 0 +++ WriteInt16 0 +++ WriteInt32 gen +++ WriteCompactString assignor +++
  WriteCompactString memberID +++ WriteCompactString memberID +++ WriteCompactArrayLen 1 +++
  WriteCompactString memberID +++ WriteCompactNullableString None +++ WriteCompactBytes meta +++
  WriteEmptyTagSection +++ WriteEmptyTagSection.

Definition handleJoinGroup : Hd bytes :=
  grp <~ hrd ReadCompactString ;;
  hrd ReadInt32 ~;;
  hrd ReadInt32 ~;;
  memberID <~ hrd ReadCompactString ;;
  hrd ReadCompactNullableString ~;;
  hrd ReadCompactString ~;;
  nProto <~ hrd ReadUvarint ;;
  first <~ hrd (rd_for (nProto - 1) read_protocol None) ;;
  let '(assignor, meta) := default ([], None) first in
  mg <~ hst (join_group grp memberID assignor meta) ;;
  hres (write_join_response (snd mg) assignor (fst mg) meta).

(** The last assignment for the member wins. *)
Definition read_sync_assignment (memberID : bytes) (assignment : option bytes) : Rd (option bytes) :=
  mid <- ReadCompactString ;;
  a <- ReadCompactBytes ;;
  skipTags ;;;
  ret (if bool_decide (mid = memberID) then a else assignment).

Definition write_sync_response (protoName : bytes) (assignment : option bytes) : Enc :=
  WriteInt32 0 +++ WriteInt16 0 +++ WriteCompactString (str "consumer") +++
  WriteCompactString protoName +++ WriteCompactBytes assignment +++ WriteEmptyTagSection.

Definition handleSyncGroup : Hd bytes :=
  hrd ReadCompactString ~;;
  hrd ReadInt32 ~;;
  memberID <~ hrd ReadCompactString ;;
  hrd ReadCompactNullableString ~;;
  hrd ReadCompactString ~;;
  protoName <~ hrd ReadCompactString ;;
  nAssign <~ hrd ReadUvarint ;;
  assignment <~ hrd (rd_for (nAssign - 1) (read_sync_assignment memberID) None) ;;
  hres (write_sync_response protoName assignment).

Definition handleHeartbeat : Enc := WriteInt32 0 +++ WriteInt16 0 +++ WriteEmptyTagSection.

(** A read whose error is tested for nil. *)
Definition hrd_try {A} (r : Rd A) : Hd (option A) := fun st b =>
  match r b with
  | (b', Ok a) => (st, (b', Ok (Some a)))
  | (b', Err _) => (st, (b', Ok None))
  | (b', Panic) => (st, (b', Panic))
  end.

Definition leave_group (grp : bytes) (b : Broker) : Broker :=
  match bk_groups b !! grp with
  | Some g => set_group grp (mkGroupState (gs_offsets g) [] (gs_metadata g) (gs_assignor g) (gs_generation g)) b
  | None => b
  end.

Definition handleLeaveGroup : Hd bytes :=
  grp <~ hrd_try ReadCompactString ;;
  hst (fun b => (match grp with Some g => leave_group g b | None => b end, tt)) ~;;
  hres (WriteInt32 0 +++ WriteInt16 0 +++ WriteEmptyTagSection).

Definition commit_offset (grp name : bytes) (part off : Z) (b : Broker) : Broker * Z :=
  let '(b, g) := group grp b in
  let offs := <[name := <[part := off]> (default ∅ (gs_offsets g !! name))]> (gs_offsets g) in
  (set_group grp (mkGroupState offs (gs_memberID g) (gs_metadata g) (gs_assignor g) (gs_generation g)) b, part).

Definition commit_partition (grp name : bytes) : Hd Z :=
  part <~ hrd ReadInt32 ;;
  off <~ hrd ReadInt64 ;;
  hrd ReadInt32 ~;;
  hrd ReadCompactNullableString ~;;
  hrd skipTags ~;;
  hst (commit_offset grp name part off).

Definition commit_topic (grp : bytes) : Hd (bytes * list Z) :=
  name <~ hrd ReadCompactString ;;
  nParts <~ hrd ReadUvarint ;;
  parts <~ hd_list (nParts - 1) (commit_partition grp name) ;;
  hrd skipTags ~;;
  hret (name, parts).

Definition write_commit_response (committed : list (bytes * list Z)) : Enc :=
  WriteInt32 0 +++ WriteCompactArrayLen (len committed) +++
  enc_list (fun t =>
    WriteCompactString (fst t) +++ WriteCompactArrayLen (len (snd t)) +++
    enc_list (fun p => WriteInt32 p +++ WriteInt16 0 +++ WriteEmptyTagSection) (snd t) +++
    WriteEmptyTagSection) committed +++
  WriteEmptyTagSection.

Definition handleOffsetCommit : Hd bytes :=
  grp <~ hrd ReadCompactString ;;
  hrd ReadInt32 ~;;
  hrd ReadCompactString ~;;
  hrd ReadCompactNullableString ~;;
  nTopics <~ hrd ReadUvarint ;;
  hst (group grp) ~;;
  committed <~ hd_list (nTopics - 1) (commit_topic grp) ;;
  hres (write_commit_response committed).

Definition committed_offset (g : groupState) (name : bytes) (p : Z) : Z :=
  default (-1) (m ← gs_offsets g !! name; m !! p).

Definition read_offset_topic : Rd (bytes * list Z) :=
  name <- ReadCompactString ;;
  nParts <- ReadUvarint ;;
  parts <- rd_list (nParts - 1) ReadInt32 ;;
  skipTags ;;;
  ret (name, parts).

Definition write_offset_fetch_response (g : groupState) (faultCode : Z) (reqs : list (bytes * list Z)) : Enc :=
  WriteInt32 0 +++ WriteCompactArrayLen (len reqs) +++
  enc_list (fun t =>
    WriteCompactString (fst t) +++ WriteCompactArrayLen (len (snd t)) +++
    enc_list (fun p =>
      let off := if negb (faultCode =? 0) then -1 else committed_offset g (fst t) p in
      WriteInt32 p +++ WriteInt64 off +++ WriteInt32 (-1) +++ WriteCompactNullableString None +++
      WriteInt16 faultCode +++ WriteEmptyTagSection) (snd t) +++
    WriteEmptyTagSection) reqs +++
  WriteInt16 0 +++ WriteEmptyTagSection.

Definition handleOffsetFetchSingle : Hd bytes :=
  grp <~ hrd ReadCompactString ;;
  nTopics <~ hrd ReadUvarint ;;
  reqs <~ hrd (rd_list (nTopics - 1) read_offset_topic) ;;
  faultCode <~ hst takeOffsetFetchFault ;;
  g <~ hst (group grp) ;;
  hres (write_offset_fetch_response g faultCode reqs).

Definition read_group_request : Rd bytes :=
  gid <- ReadCompactString ;;
  nTopics <- ReadUvarint ;;
  rd_for (nTopics - 1) (fun _ =>
    ReadCompactString ;;;
    nParts <- ReadUvarint ;;
    rd_for (nParts - 1) (fun _ => ReadInt32 ;;; ret tt) tt ;;;
    skipTags) tt ;;;
  skipTags ;;;
  ret gid.

Definition write_group_offsets `{MapOrder} (gid : bytes) (g : groupState) : Enc :=
  WriteCompactString gid +++ WriteCompactArrayLen (len (range (gs_offsets g))) +++
  enc_list (fun tp =>
    WriteCompactString (fst tp) +++ WriteCompactArrayLen (len (range (snd tp))) +++
    enc_list (fun po =>
      WriteInt32 (fst po) +++ WriteInt64 (snd po) +++ WriteInt32 (-1) +++
      WriteCompactNullableString None +++ WriteInt16 0 +++ WriteEmptyTagSection) (range (snd tp)) +++
    WriteEmptyTagSection) (range (gs_offsets g)) +++
  WriteInt16 0 +++ WriteEmptyTagSection.

(** The loop over the groups creates the missing ones. *)
Fixpoint write_groups `{MapOrder} (gids : list bytes) (b : Broker) : Broker * Enc :=
  match gids with
  | [] => (b, enc_nil)
  | gid :: rest =>
      let '(b, g) := group gid b in
      let '(b, e) := write_groups rest b in
      (b, write_group_offsets gid g +++ e)
  end.

Definition handleOffsetFetchMultiGroup `{MapOrder} : Hd bytes :=
  nGroups <~ hrd ReadUvarint ;;
  groups <~ hrd (rd_list (nGroups - 1) read_group_request) ;;
  e <~ hst (write_groups groups) ;;
  hres (WriteInt32 0 +++ WriteCompactArrayLen (len groups) +++ e +++ WriteEmptyTagSection).

Definition handleOffsetFetch `{MapOrder} (ver : Z) : Hd bytes :=
  if ver >=? 8 then handleOffsetFetchMultiGroup else handleOffsetFetchSingle.

Definition handleInitProducerID : Hd bytes :=
  id <~ hst (fun b => let id := s64 (bk_producerIDSeq b + 1) in (set_producerIDSeq id b, id)) ;;
  hres (WriteInt32 0 +++ WriteInt16 0 +++ WriteInt64 id +++ WriteInt16 0).

(** * Requests *)

Definition flexRequestHeader (apiKey apiVer : Z) : bool :=
  if apiKey =? 18 then apiVer >=? 3
  else if (apiKey =? 3) || (apiKey =? 0) then apiVer >=? 9
  else if apiKey =? 1 then apiVer >=? 12
  else if (apiKey =? 2) || (apiKey =? 9) then apiVer >=? 6
  else if apiKey =? 10 then apiVer >=? 3
  else if apiKey =? 8 then apiVer >=? 8
  else if apiKey =? 11 then apiVer >=? 6
  else if (apiKey =? 14) || (apiKey =? 12) || (apiKey =? 13) then apiVer >=? 4
  else if apiKey =? 19 then apiVer >=? 5
  else if apiKey =? 20 then apiVer >=? 4
  else if apiKey =? 22 then apiVer >=? 2
  else false.

Definition flexResponseHeader (apiKey apiVer : Z) : bool :=
  if apiKey =? 18 then false else flexRequestHeader apiKey apiVer.

Definition hpure (f : Broker -> Enc) : Hd bytes := b <~ hget ;; hres (f b).

Definition dispatch_handler `{MapOrder} (apiKey apiVer : Z) : Hd bytes :=
  if apiKey =? 18 then hpure (fun _ => handleApiVersions)
  else if apiKey =? 3 then hpure handleMetadata
  else if apiKey =? 19 then handleCreateTopics
  else if apiKey =? 20 then handleDeleteTopics
  else if apiKey =? 0 then handleProduce
  else if apiKey =? 2 then handleListOffsets
  else if apiKey =? 1 then handleFetch
  else if apiKey =? 10 then hpure handleFindCoordinator
  else if apiKey =? 11 then handleJoinGroup
  else if apiKey =? 14 then handleSyncGroup
  else if apiKey =? 12 then hpure (fun _ => handleHeartbeat)
  else if apiKey =? 13 then handleLeaveGroup
  else if apiKey =? 8 then handleOffsetCommit
  else if apiKey =? 9 then handleOffsetFetch apiVer
  else if apiKey =? 22 then handleInitProducerID
  else hret [].

Definition dispatch `{MapOrder} (apiKey apiVer : Z) (body : bytes) (b : Broker) : Broker * res bytes :=
  let '(b', (_, r)) := dispatch_handler apiKey apiVer b (FromBytes body) in (b', r).

Definition read_request_header : Rd (Z * Z * Z * bytes) :=
  apiKey <- ReadInt16 ;;
  apiVer <- ReadInt16 ;;
  corrID <- ReadInt32 ;;
  ReadString ;;;
  (if flexRequestHeader apiKey apiVer then skipTags else ret tt) ;;;
  body <- rd_remaining ;;
  ret (apiKey, apiVer, corrID, body).

Definition handle `{MapOrder} (frame : bytes) (b : Broker) : Broker * res bytes :=
  match run read_request_header frame with
  | Ok (apiKey, apiVer, corrID, body) =>
      let '(b', respBody) := dispatch apiKey apiVer body b in
      (b', let? respBody := respBody in
           WriteInt32 corrID +++
           (if flexResponseHeader apiKey apiVer then WriteEmptyTagSection else enc_nil) +++
           raw respBody)
  | Err e => (b, Err e)
  | Panic => (b, Panic)
  end.

(** The framing of [serve]: the response frame for a request frame, size
    prefixes included; the connection is dropped ([None]) on a bad size or an
    error. *)
Definition serve_one `{MapOrder} (size : Z) (frame : bytes) (b : Broker) : Broker * option (res bytes) :=
  if (size <=? 0) || (size >? 104857600) then (b, None) else
  let '(b', r) := handle frame b in
  (b', match r with
       | Ok resp => Some (Ok (be_bytes 4 (u32 (len resp)) ++ resp))
       | Err _ => None
       | Panic => Some Panic
       end).
