(* ===== verification/KfakeFacts.v ===== *)
(** Theorems on the in-process broker: the invariant of its store, safety of
    its handlers, and what its handlers read from the requests the client
    writes. *)

From Stdlib Require Import ZArith Lia.
From Stdlib Require Import Strings.Byte.
From stdpp Require Import base list gmap countable strings.
From S2P Require Import Prelude.
From S2P Require Import Wire.
From S2P Require Import Kfake.

Open Scope Z_scope.

(** * Reasoning about handlers *)

(** [h] keeps the invariant [P] of the state. *)
Definition HInv {A} (P : Broker -> Prop) (h : Hd A) : Prop := forall st b, P st -> P (fst (h st b)).

(** [h] does not panic and does not move the cursor back. *)
Definition HSafe {A} (h : Hd A) : Prop := forall st b, 0 <= bufI b ->
  let '(_, (b', x)) := h st b in bufI b <= bufI b' /\ x <> Panic.

(** [h], started in [st] where the bytes of [e] begin, ends in [st'] where
    they end and returns [a]. *)
Definition HReads {A} (h : Hd A) (e : Enc) (st st' : Broker) (a : A) : Prop :=
  forall bs, e = Ok bs -> forall pre post,
    h st (mkBuffer (pre ++ bs ++ post) (len pre)) =
      (st', (mkBuffer (pre ++ bs ++ post) (len pre + len bs), Ok a)).

Create HintDb kfake.

Section invariants.
Context (P : Broker -> Prop).

Lemma hinv_ret {A} (a : A) : HInv P (hret a).
Proof. by intros st b. Qed.
Lemma hinv_rd {A} (r : Rd A) : HInv P (hrd r).
Proof. by intros st b. Qed.
Lemma hinv_rd_try {A} (r : Rd A) : HInv P (hrd_try r).
Proof. intros st b. unfold hrd_try. by destruct (r b) as [? []]. Qed.
Lemma hinv_res {A} (r : res A) : HInv P (hres r).
Proof. by intros st b. Qed.
Lemma hinv_get : HInv P hget.
Proof. by intros st b. Qed.
Lemma hinv_st {A} (f : Broker -> Broker * A) : (forall st, P st -> P (fst (f st))) -> HInv P (hst f).
Proof. intros Hf st b Hst. unfold hst. specialize (Hf st Hst). by destruct (f st). Qed.
Lemma hinv_st_res {A} (f : Broker -> res (Broker * A)) :
  (forall st st' a, P st -> f st = Ok (st', a) -> P st') -> HInv P (hst_res f).
Proof.
  intros Hf st b Hst. unfold hst_res. destruct (f st) as [[st' a]| |] eqn:E; cbn; [by eapply Hf | done | done].
Qed.
Lemma hinv_make n : HInv P (make_cap n).
Proof. intros st b. unfold make_cap. by destruct (n <? 0). Qed.

Lemma hinv_bind {A C} (m : Hd A) (f : A -> Hd C) :
  HInv P m -> (forall a, HInv P (f a)) -> HInv P (hbind m f).
Proof.
  intros Hm Hf st b Hst. specialize (Hm st b Hst). unfold hbind.
  destruct (m st b) as [st' [b' []]]; cbn [fst] in *; [by apply Hf | done | done].
Qed.

Lemma hinv_for {T} n (body : T -> Hd T) s : (forall s, HInv P (body s)) -> HInv P (hd_for n body s).
Proof.
  intros Hb. destruct n as [|p|p]; [apply hinv_ret| |apply hinv_ret]. cbn [hd_for].
  revert s. induction p as [q IH|q IH|]; intros s; cbn [hd_iter]; [| |apply Hb];
    repeat (apply hinv_bind; [auto|]; intros ?); auto.
Qed.

Lemma hinv_list {A} n (body : Hd A) : HInv P body -> HInv P (hd_list n body).
Proof.
  intros Hb. apply hinv_for. intros s. apply hinv_bind; [done|]. intros. apply hinv_ret.
Qed.
End invariants.

#[export] Hint Resolve hinv_ret hinv_rd hinv_rd_try hinv_res hinv_get hinv_make : kfake.

Ltac solve_hinv :=
  repeat (match goal with
  | |- HInv _ (hbind _ _) => apply hinv_bind; [|intros ?]
  | |- HInv _ (hd_list _ _) => apply hinv_list
  | |- HInv _ (hd_for _ _ _) => apply hinv_for; intros ?
  | |- HInv _ (if ?c then _ else _) => destruct c
  | |- HInv _ (let '(_, _) := ?x in _) => destruct x
  | |- HInv _ (match ?x with _ => _ end) => destruct x
  | |- HInv _ (hpure _) => unfold hpure
  | |- HInv _ _ => solve [auto with kfake nocore]
  end).

Lemma hsafe_ret {A} (a : A) : HSafe (hret a).
Proof. intros st b Hb. cbn. split; [lia | done]. Qed.
Lemma hsafe_rd {A} (r : Rd A) : Safe r -> HSafe (hrd r).
Proof. intros Hr st b Hb. cbn. specialize (Hr b Hb). destruct (r b) as [b' x]. tauto. Qed.
Lemma hsafe_rd_try {A} (r : Rd A) : Safe r -> HSafe (hrd_try r).
Proof.
  intros Hr st b Hb. unfold hrd_try. specialize (Hr b Hb).
  destruct (r b) as [b' []]; destruct Hr as (_ & ? & ?); split; done.
Qed.
Lemma hsafe_res {A} (r : res A) : r <> Panic -> HSafe (hres r).
Proof. intros Hr st b Hb. cbn. split; [lia | done]. Qed.
Lemma hsafe_get : HSafe hget.
Proof. intros st b Hb. cbn. split; [lia | done]. Qed.
Lemma hsafe_st {A} (f : Broker -> Broker * A) : HSafe (hst f).
Proof. intros st b Hb. unfold hst. destruct (f st). split; [lia | done]. Qed.
Lemma hsafe_st_res {A} (f : Broker -> res (Broker * A)) : (forall st, f st <> Panic) -> HSafe (hst_res f).
Proof.
  intros Hf st b Hb. unfold hst_res. specialize (Hf st).
  destruct (f st) as [[]| |]; [split; [lia | done] | split; [lia | done] | done].
Qed.

Lemma hsafe_bind {A C} (m : Hd A) (f : A -> Hd C) : HSafe m -> (forall a, HSafe (f a)) -> HSafe (hbind m f).
Proof.
  intros Hm Hf st b Hb. specialize (Hm st b Hb). unfold hbind.
  destruct (m st b) as [st' [b' [a|e|]]]; destruct Hm as [Hi Hp]; [|by split|done].
  specialize (Hf a st' b' ltac:(lia)). destruct (f a st' b') as [st'' [b'' x]]. split; [lia | tauto].
Qed.

Lemma hsafe_for {T} n (body : T -> Hd T) s : (forall s, HSafe (body s)) -> HSafe (hd_for n body s).
Proof.
  intros Hb. destruct n as [|p|p]; [apply hsafe_ret| |apply hsafe_ret]. cbn [hd_for].
  revert s. induction p as [q IH|q IH|]; intros s; cbn [hd_iter]; [| |apply Hb];
    repeat (apply hsafe_bind; [auto|]; intros ?); auto.
Qed.

Lemma hsafe_list {A} n (body : Hd A) : HSafe body -> HSafe (hd_list n body).
Proof. intros Hb. apply hsafe_for. intros s. apply hsafe_bind; [done|]. intros. apply hsafe_ret. Qed.

Lemma safe_skip_raw sz : 0 <= sz -> Safe (skip_raw sz).
Proof. intros Hs b Hb. cbn. repeat split; [lia | done]. Qed.

Lemma safe_skipTags : Safe skipTags.
Proof.
  unfold skipTags. apply safe_bind; [apply safe_uvarint|]. intros n. apply safe_for. intros _.
  apply safe_bind; [apply safe_uvarint|]. intros _. apply safe_bind_uvarint. intros sz Hsz. apply safe_skip_raw. lia.
Qed.
#[export] Hint Resolve safe_skipTags : wire.

(** * The invariant of the store *)

(** The offset count of a batch ([batchRecordCount] without its slice). *)
Definition count_of (batch : bytes) : Z :=
  match batchRecordCount batch with Ok n => n | _ => 0 end.

(** A partition log whose first batch was stored at [base]: every batch
    carries the offset it was assigned, the offsets are contiguous, and the
    log end offset is the next one. *)
Fixpoint log_ok (base : Z) (batches : list bytes) (leo : Z) : Prop :=
  match batches with
  | [] => leo = base
  | b :: rest => (8 <= len b -> take 8 b = be_bytes 8 base) /\ log_ok (s64 (base + count_of b)) rest leo
  end.

Definition topic_ok (name : bytes) (t : topicState) : Prop :=
  ts_name t = name /\ len (ts_id t) = 16 /\ ts_partitions t <> [] /\
  Forall (fun pl => log_ok 0 (pl_batches pl) (pl_leo pl)) (ts_partitions t).

Definition store_ok (b : Broker) : Prop := map_Forall topic_ok (bk_topics b).

Lemma log_ok_snoc base batches leo b :
  log_ok base batches leo -> (8 <= len b -> take 8 b = be_bytes 8 leo) ->
  log_ok base (batches ++ [b]) (s64 (leo + count_of b)).
Proof.
  revert base. induction batches as [|x rest IH]; intros base; cbn [log_ok app]; [by intros -> Hb|].
  intros [Hx Hr] Hb. split; [done | by apply IH].
Qed.

Lemma batchRecordCount_ok batch : exists n, batchRecordCount batch = Ok n.
Proof.
  unfold batchRecordCount. destruct (Z.ltb_spec (len batch) 61); [eauto|].
  rewrite slice_ok by lia. cbn [res_bind]. eauto.
Qed.

Lemma be_bytes_u64 z : be_bytes 8 (u64 z) = be_bytes 8 z.
Proof.
  transitivity (be_bytes (length (be_bytes 8 z)) (be_value (be_bytes 8 z))).
  - rewrite be_value_be_bytes, length_be_bytes. done.
  - apply be_bytes_be_value.
Qed.

(** Patching the base offset leaves the record count alone. *)
Lemma count_patched batch off : count_of (patchBaseOffset batch off) = count_of batch.
Proof.
  unfold patchBaseOffset. destruct (len batch >=? 8) eqn:E; [|done]. zbool. unfold count_of, batchRecordCount.
  assert (Hl : len (be_bytes 8 (u64 off) ++ drop 8 batch) = len batch).
  { rewrite len_app, len_be_bytes. unfold len in *. rewrite length_drop. lia. }
  rewrite Hl. destruct (Z.ltb_spec (len batch) 61); [done|].
  rewrite !slice_ok by lia. cbn [res_bind]. do 3 f_equal.
  change (Z.to_nat 57) with (8 + 49)%nat. rewrite <- !drop_drop.
  rewrite drop_app_length' by by rewrite length_be_bytes. done.
Qed.

Lemma take_patched batch off : 8 <= len (patchBaseOffset batch off) -> take 8 (patchBaseOffset batch off) = be_bytes 8 off.
Proof.
  unfold patchBaseOffset. destruct (len batch >=? 8) eqn:E; zbool; [intros _|lia].
  rewrite take_app_length' by by rewrite length_be_bytes. apply be_bytes_u64.
Qed.

Lemma append_batch_ok name part batch st st' r :
  store_ok st -> append_batch name part batch st = Ok (st', r) -> store_ok st'.
Proof.
  intros Hok. unfold append_batch. destruct (bk_topics st !! name) as [t|] eqn:Et; [|by intros [= <- <-]].
  destruct (_ || _) eqn:E; [by intros [= <- <-]|]. zbool. unfold index.
  destruct (Z.leb_spec 0 part); [|lia]. destruct (ts_partitions t !! Z.to_nat part) as [pl|] eqn:Ep; [|done].
  cbn [res_bind]. destruct (batchRecordCount_ok batch) as [n Hn]. rewrite Hn. cbn [res_bind].
  intros [= <- _]. unfold store_ok. cbn [bk_topics set_topics].
  destruct (Hok name t Et) as (Hname & Hid & Hne & Hall).
  apply map_Forall_insert_2; [|done]. repeat split; cbn; [done | done | |].
  - intros Hnil. apply Hne. apply (f_equal length) in Hnil. rewrite length_insert in Hnil. by destruct (ts_partitions t).
  - apply Forall_insert; [done|]. cbn [pl_batches pl_leo].
    assert (count_of (patchBaseOffset batch (pl_leo pl)) = n) as Hc
      by (rewrite count_patched; unfold count_of; by rewrite Hn).
    rewrite <- Hc. apply log_ok_snoc; [|by apply take_patched].
    by apply (Forall_lookup_1 _ _ _ _ Hall Ep).
Qed.

Lemma createTopic_ok name n st : store_ok st -> store_ok (fst (createTopic name n st)).
Proof.
  intros Hok. unfold createTopic. destruct (bk_topics st !! name) as [t|]; [done|]. cbn [fst].
  unfold store_ok. cbn [bk_topics set_topics set_nextUUID]. apply map_Forall_insert_2; [|done].
  split; [done|]. split; [done|]. cbn [ts_partitions]. split.
  - destruct (Z.to_nat _) eqn:E; [|done]. destruct (n <=? 0) eqn:En; zbool; lia.
  - apply Forall_forall. intros pl Hpl%list_elem_of_In%repeat_spec. by subst.
Qed.

Lemma deleteTopic_ok name st : store_ok st -> store_ok (fst (deleteTopic name st)).
Proof.
  intros Hok. unfold deleteTopic. destruct (bk_topics st !! name); [|done]. by apply map_Forall_delete.
Qed.

Lemma delete_topics_ok names st : store_ok st -> store_ok (delete_topics names st).
Proof.
  unfold delete_topics. revert st. induction names as [|x l IH]; intros st Hst; [done|].
  cbn [fold_left]. by apply IH, deleteTopic_ok.
Qed.

(** Changes of other fields. *)
Lemma store_ok_topics st st' : bk_topics st' = bk_topics st -> store_ok st -> store_ok st'.
Proof. unfold store_ok. by intros ->. Qed.

Lemma group_topics grp st : bk_topics (fst (group grp st)) = bk_topics st.
Proof. unfold group. by destruct (bk_groups st !! grp). Qed.

Lemma write_groups_topics `{MapOrder} gids st : bk_topics (fst (write_groups gids st)) = bk_topics st.
Proof.
  revert st. induction gids as [|g l IH]; intros st; [done|]. cbn [write_groups].
  pose proof (group_topics g st) as Hg. destruct (group g st) as [st1 gs]. cbn [fst] in Hg.
  specialize (IH st1). destruct (write_groups l st1) as [st2 e]. cbn [fst] in *. congruence.
Qed.

Ltac same_topics := apply hinv_st; intros ? ?; eapply store_ok_topics; [|eassumption].

Lemma hinv_handlers `{MapOrder} apiKey apiVer : HInv store_ok (dispatch_handler apiKey apiVer).
Proof.
  unfold dispatch_handler, handleCreateTopics, handleDeleteTopics, handleProduce, handleListOffsets,
    handleFetch, handleJoinGroup, handleSyncGroup, handleLeaveGroup, handleOffsetCommit, handleOffsetFetch,
    handleInitProducerID, handleOffsetFetchMultiGroup, handleOffsetFetchSingle, create_topic, produce_topic,
    produce_partition, list_offsets_topic, list_offsets_partition, commit_topic, commit_partition.
  solve_hinv.
  - apply hinv_st. intros st Hst. by apply createTopic_ok.
  - apply hinv_st. intros st Hst. by apply delete_topics_ok.
  - same_topics. unfold takeProduceFault. by destruct (_ <=? 0).
  - apply hinv_st_res. intros st st' r Hst Hf. by eapply append_batch_ok.
  - same_topics. unfold join_group. pose proof (group_topics a st) as Hg. by destruct (group a st).
  - same_topics. destruct a; [|done]. unfold leave_group. by destruct (bk_groups st !! _).
  - same_topics. apply group_topics.
  - same_topics. unfold commit_offset. pose proof (group_topics a st) as Hg. by destruct (group a st).
  - same_topics. apply write_groups_topics.
  - same_topics. unfold takeOffsetFetchFault. by destruct (_ <=? 0).
  - same_topics. apply group_topics.
  - by same_topics.
Qed.

(** C31: The broker's log invariant.  Whatever bytes a client sends, after the
    request every partition log of every topic is contiguous: each stored
    batch carries the base offset it was assigned, that offset is the sum of
    the record counts before it, and the log end offset is the sum of all;
    each topic keeps its name, a 16-byte id and at least one partition. *)
Theorem broker_log_invariant `{MapOrder} frame st :
  store_ok st -> store_ok (fst (handle frame st)).
Proof.
  intros Hst. unfold handle. destruct (run read_request_header frame) as [[[[k v] c] body]| |]; [|done|done].
  unfold dispatch. pose proof (hinv_handlers k v st (FromBytes body) Hst) as Hh.
  by destruct (dispatch_handler k v st (FromBytes body)) as [st' [b' r]].
Qed.

(** * Safety *)

Lemma enc_app_np x y : x <> Panic -> y <> Panic -> x +++ y <> Panic.
Proof. by destruct x, y. Qed.

Lemma enc_list_np {A} (f : A -> Enc) l : (forall x, f x <> Panic) -> enc_list f l <> Panic.
Proof. intros Hf. induction l as [|x l IH]; [done|]. rewrite enc_list_cons. by apply enc_app_np. Qed.

Lemma write_nullable_np s : WriteCompactNullableString s <> Panic.
Proof. by destruct s. Qed.
Lemma write_compact_bytes_np s : WriteCompactBytes s <> Panic.
Proof. by destruct s. Qed.

Ltac solve_np :=
  repeat match goal with
  | |- _ +++ _ <> Panic => apply enc_app_np
  | |- enc_list _ _ <> Panic => apply enc_list_np; intros ?
  | |- WriteCompactNullableString _ <> Panic => apply write_nullable_np
  | |- WriteCompactBytes _ <> Panic => apply write_compact_bytes_np
  | |- _ <> Panic => done
  end.

Lemma append_batch_np name part batch st : append_batch name part batch st <> Panic.
Proof.
  unfold append_batch. destruct (bk_topics st !! name) as [t|]; [|done].
  destruct (_ || _) eqn:E; [done|]. zbool. unfold index. destruct (Z.leb_spec 0 part); [|lia].
  destruct (lookup_lt_is_Some_2 (ts_partitions t) (Z.to_nat part)) as [pl ->]; [unfold len in *; lia|].
  cbn [res_bind]. by destruct (batchRecordCount_ok batch) as [n ->].
Qed.

Lemma collectBatches_np st topic part off : collectBatches st topic part off <> Panic.
Proof.
  unfold collectBatches. destruct (bk_topics st !! topic) as [t|]; [|done].
  destruct (_ || _) eqn:E; [done|]. zbool. unfold index. destruct (Z.leb_spec 0 part); [|lia].
  by destruct (lookup_lt_is_Some_2 (ts_partitions t) (Z.to_nat part)) as [pl ->]; [unfold len in *; lia|].
Qed.

Lemma write_fetch_response_np st reqs : write_fetch_response st reqs <> Panic.
Proof.
  unfold write_fetch_response, write_fetch_topic. solve_np. unfold write_fetch_part.
  pose proof (collectBatches_np st (fst x) (fst x0) (snd x0)) as Hc.
  destruct (collectBatches _ _ _ _) as [[r h]| |]; cbn [res_bind]; [solve_np | done | done].
Qed.

Ltac solve_hsafe :=
  repeat (match goal with
  | |- HSafe (hbind _ _) => apply hsafe_bind; [|intros ?]
  | |- HSafe (hd_list _ _) => apply hsafe_list
  | |- HSafe (hd_for _ _ _) => apply hsafe_for; intros ?
  | |- HSafe (let '(_, _) := ?x in _) => destruct x
  | |- HSafe (match ?x with _ => _ end) => destruct x
  | |- HSafe (hret _) => apply hsafe_ret
  | |- HSafe (hrd _) => apply hsafe_rd; solve_safe
  | |- HSafe (hrd_try _) => apply hsafe_rd_try; solve_safe
  | |- HSafe (hst _) => apply hsafe_st
  | |- HSafe hget => apply hsafe_get
  | |- HSafe (hpure _) => unfold hpure
  | |- HSafe (hres _) => apply hsafe_res
  end).

Lemma write_groups_np `{MapOrder} gids st : snd (write_groups gids st) <> Panic.
Proof.
  revert st. induction gids as [|g l IH]; intros st; [done|]. cbn [write_groups].
  destruct (group g st) as [st1 gs]. specialize (IH st1). destruct (write_groups l st1) as [st2 e].
  cbn [snd] in *. unfold write_group_offsets. solve_np.
Qed.

(** The response of a handler that wrote it from its state. *)
Lemma hsafe_groups `{MapOrder} gids :
  HSafe (e <~ hst (write_groups gids) ;;
         hres (WriteInt32 0 +++ WriteCompactArrayLen (len gids) +++ e +++ WriteEmptyTagSection)).
Proof.
  intros st b Hb. unfold hbind, hst. pose proof (write_groups_np gids st) as Hnp.
  destruct (write_groups gids st) as [st' e]. cbn [hres snd] in *. split; [lia|]. solve_np.
Qed.

Lemma hsafe_handlers `{MapOrder} apiKey apiVer :
  apiKey <> 2 -> apiKey <> 19 -> HSafe (dispatch_handler apiKey apiVer).
Proof.
  intros H2 H19. unfold dispatch_handler. pose proof safe_skipTags.
  destruct (Z.eqb_spec apiKey 2); [done|]. destruct (Z.eqb_spec apiKey 19); [done|].
  repeat match goal with |- HSafe (if ?c then _ else _) => destruct c end.
  - solve_hsafe. unfold handleApiVersions. solve_np.
  - solve_hsafe. unfold handleMetadata, write_metadata_topic, write_metadata_partition. solve_np.
  - unfold handleDeleteTopics, read_delete_topic. solve_hsafe. unfold write_delete_topics_response. solve_np.
  - unfold handleProduce, produce_topic, produce_partition. solve_hsafe.
    + apply hsafe_st_res. intros. apply append_batch_np.
    + unfold write_produce_response, write_tres, write_pres. solve_np.
  - unfold handleFetch, read_fetch_request, read_fetch_topic, read_fetch_part. solve_hsafe.
    apply write_fetch_response_np.
  - solve_hsafe. unfold handleFindCoordinator. solve_np.
  - unfold handleJoinGroup, read_protocol. solve_hsafe. unfold write_join_response. solve_np.
  - unfold handleSyncGroup, read_sync_assignment. solve_hsafe. unfold write_sync_response. solve_np.
  - solve_hsafe. unfold handleHeartbeat. solve_np.
  - unfold handleLeaveGroup. solve_hsafe. solve_np.
  - unfold handleOffsetCommit, commit_topic, commit_partition. solve_hsafe. unfold write_commit_response. solve_np.
  - unfold handleOffsetFetch. destruct (apiVer >=? 8).
    + unfold handleOffsetFetchMultiGroup, read_group_request.
      apply hsafe_bind; [apply hsafe_rd; solve_safe|]. intros n1.
      apply hsafe_bind; [apply hsafe_rd; solve_safe|]. intros gids. apply hsafe_groups.
    + unfold handleOffsetFetchSingle, read_offset_topic. solve_hsafe. unfold write_offset_fetch_response. solve_np.
  - unfold handleInitProducerID. solve_hsafe. solve_np.
  - apply hsafe_ret.
Qed.

Lemma safe_request_header : Safe read_request_header.
Proof. unfold read_request_header. solve_safe. Qed.

Lemma handle_safe `{MapOrder} frame st :
  snd (handle frame st) = Panic ->
  exists key ver corr body, run read_request_header frame = Ok (key, ver, corr, body) /\ (key = 2 \/ key = 19).
Proof.
  unfold handle. pose proof (safe_run _ frame safe_request_header) as Hsafe.
  destruct (run read_request_header frame) as [[[[key ver] corr] body]|e|]; [|done|done]. intros Hp.
  exists key, ver, corr, body. split; [done|].
  destruct (decide (key = 2)) as [|H2]; [by left|]. destruct (decide (key = 19)) as [|H19]; [by right|]. exfalso. revert Hp.
  match goal with |- ?x = Panic -> False => change (x <> Panic) end.
  unfold dispatch. pose proof (hsafe_handlers key ver H2 H19 st (FromBytes body)) as Hs.
  destruct (dispatch_handler key ver st (FromBytes body)) as [st' [b' r]].
  destruct Hs as [_ Hr]; [cbn; lia|]. cbn [snd].
  destruct r as [resp| |]; cbn [res_bind]; [|done|done].
  destruct (flexResponseHeader key ver); solve_np.
Qed.

(** C35: Broker robustness.  Whatever size a client announces and whatever bytes
    follow, the broker answers with a frame that holds the handler's response
    under its length, or closes the connection: because the size is out of range,
    or because the header or the body cannot be read.  It panics only on a frame
    whose header reads and asks for ListOffsets (2) or CreateTopics (19). *)
Theorem broker_never_panics `{MapOrder} size frame st :
  match serve_one size frame st with
  | (st', Some (Ok stream)) => exists resp, handle frame st = (st', Ok resp) /\ stream = be_bytes 4 (u32 (len resp)) ++ resp
  | (st', None) => (~ (0 < size <= 104857600) /\ st' = st) \/ exists e, handle frame st = (st', Err e)
  | (_, Some (Err _)) => False
  | (_, Some Panic) => exists key ver corr body, run read_request_header frame = Ok (key, ver, corr, body) /\ (key = 2 \/ key = 19)
  end.
Proof.
  unfold serve_one. destruct (Z.leb_spec size 0); cbn [orb]; [left; split; [lia|done]|].
  destruct (Z.gtb_spec size 104857600); [left; split; [lia|done]|].
  pose proof (handle_safe frame st) as Hs. destruct (handle frame st) as [st' [resp|e|]]; [by eexists|right; by eexists|by apply Hs].
Qed.

(** * Concrete requests *)

Definition sample_broker : Broker := fst (createTopic (str "t") 1 (NewBroker (str "127.0.0.1") 9092)).

(** A ListOffsets v3 request for partition -1 of an existing topic, and a
    CreateTopics v4 request with a negative topic count. *)
Definition negative_partition_frame : bytes :=
  be_bytes 2 2 ++ be_bytes 2 3 ++ be_bytes 4 7 ++ be_bytes 2 0 ++
  be_bytes 4 (-1) ++ be_bytes 1 0 ++ be_bytes 4 1 ++ be_bytes 2 1 ++ str "t" ++ be_bytes 4 1 ++
  be_bytes 4 (-1) ++ be_bytes 8 (-1).

Definition negative_count_frame : bytes :=
  be_bytes 2 19 ++ be_bytes 2 4 ++ be_bytes 4 7 ++ be_bytes 2 0 ++ be_bytes 4 (-1).

(** The two excepted handlers do panic on malformed
    requests: ListOffsets indexes the partitions with a negative partition
    number, and CreateTopics sizes a slice with a negative count. *)
Theorem broker_panics_on_negative :
  snd (handle negative_partition_frame sample_broker) = Panic /\
  snd (handle negative_count_frame sample_broker) = Panic.
Proof. vm_compute. split; reflexivity. Qed.

Lemma sample_broker_ok : store_ok sample_broker.
Proof. apply createTopic_ok. apply map_Forall_empty. Qed.

Lemma broker_log_invariant_witness : store_ok (fst (handle negative_partition_frame sample_broker)).
Proof. apply broker_log_invariant. apply sample_broker_ok. Defined.
