(* ===== verification/EndToEnd.v ===== *)
(** The client against the in-process broker: a request the client encodes
    ([EncodeRequest], [EncodeProduceRequest], [EncodeFetchRequest]) goes
    through the broker's [serve]/[handle]/handlers, and its response through
    the client's transport framing and decoders. *)

From Stdlib Require Import ZArith Lia.
From Stdlib Require Import Strings.Byte.
From stdpp Require Import base list gmap countable strings.
From S2P Require Import Prelude.
From S2P Require Import Wire.
From S2P Require Import Header.
From S2P Require Import Compress.
From S2P Require Import CompressFacts.
From S2P Require Import RecordBatch.
From S2P Require Import RecordBatchFacts.
From S2P Require Import ProduceCodec.
From S2P Require Import FetchCodec.
From S2P Require Import Kfake.
From S2P Require Import KfakeFacts.

Open Scope Z_scope.

(** * One request and its response *)

(** The client's frame crosses the connection: the broker reads the size and
    the frame, answers, and the client reads one response frame. *)
Definition exchange `{MapOrder} (maxResponseBytes : Z) (h : RequestHeader) (body : bytes) (st : Broker) :
    Broker * res bytes :=
  match EncodeRequest h body with
  | Ok frame =>
      match serve_one (be_value (take 4 frame)) (drop 4 frame) st with
      | (st', Some (Ok stream)) => (st', let? fr := read_frame maxResponseBytes stream in Ok (fst fr))
      | (st', Some r) => (st', r)
      | (st', None) => (st', Err (FmtError "transport: read size" 0))
      end
  | r => (st, r)
  end.

(** The two sides agree on which headers carry tagged fields, for every API
    the broker serves and every version. *)
Lemma flex_headers_agree k v :
  k ∈ map fst advertised ->
  flexRequestHeader k v = flexibleRequestHeader k v /\
  flexResponseHeader k v = flexibleResponseHeader k v.
Proof.
  intros Hk. apply list_elem_of_In in Hk. cbn in Hk.
  repeat destruct Hk as [<-|Hk]; try done; split; reflexivity.
Qed.

Lemma Reads_skipTags : Reads skipTags WriteEmptyTagSection tt.
Proof. eapply Reads_bind_last; [apply Reads_uvarint; lia|]. apply Reads_ret. Qed.
#[local] Hint Resolve Reads_skipTags : reads.

Lemma rbind_Reads {A C} (m : Rd A) (f : A -> Rd C) e a bs pre post :
  Reads m e a -> e = Ok bs ->
  rbind m f (mkBuffer (pre ++ bs ++ post) (len pre)) =
  f a (mkBuffer ((pre ++ bs) ++ post) (len (pre ++ bs))).
Proof. intros H He. apply rbind_reads. by apply H. Qed.

Lemma remaining_end pre post : Remaining (mkBuffer (pre ++ post) (len pre)) = post.
Proof. apply (remaining_at pre [] post). Qed.

(** What the broker parses from a client frame. *)
Lemma request_header_roundtrip h body frame :
  EncodeRequest h body = Ok frame ->
  int16 (rh_APIKey h) -> int16 (rh_APIVersion h) -> int32 (rh_CorrelationID h) ->
  rh_APIKey h ∈ map fst advertised -> len frame < 2 ^ 32 ->
  be_value (take 4 frame) = len (drop 4 frame) /\ 0 < len (drop 4 frame) /\
  run read_request_header (drop 4 frame) = Ok (rh_APIKey h, rh_APIVersion h, rh_CorrelationID h, body).
Proof.
  intros He Hk Hv Hc Hadv Hlen. unfold EncodeRequest in He.
  match type of He with res_bind (_ +++ ?t) _ = _ => destruct t as [tl| |] eqn:Et; try done end.
  cbn [raw enc_app res_bind] in He. apply Ok_inj in He. subst frame.
  set (z4 := [x00; x00; x00; x00]) in *.
  assert (Hpl : PatchLength (z4 ++ tl) = be_bytes 4 (u32 (len tl)) ++ tl).
  { unfold PatchLength. rewrite len_app. change (len z4) with 4. pose proof (len_nonneg tl).
    destruct (Z.ltb_spec (4 + len tl) 4); [lia|]. rewrite Z.add_simpl_l. done. }
  rewrite Hpl in *. rewrite len_app, len_be_bytes in Hlen. pose proof (len_nonneg tl).
  rewrite take_app_length', drop_app_length' by by rewrite length_be_bytes.
  split; [unfold u32; rewrite be_value_be_bytes, Z.mod_mod, Z.mod_small; lia|].
  destruct (flex_headers_agree _ (rh_APIVersion h) Hadv) as [Hflex _].
  unfold RequestHeaderVersion in Et. rewrite <- Hflex in Et.
  apply enc_app_ok in Et as (b1 & r1 & E1 & Et & ->). apply enc_app_ok in Et as (b2 & r2 & E2 & Et & ->).
  apply enc_app_ok in Et as (b3 & r3 & E3 & Et & ->). apply enc_app_ok in Et as (b4 & r4 & E4 & Et & ->).
  assert (len b1 = 2) as L1 by (apply (ELen_be 2 (rh_APIKey h)); exact E1).
  apply Ok_inj in Et. subst r4.
  split; [rewrite len_app, L1; pose proof (len_nonneg (b2 ++ b3 ++ b4 ++ body)); lia|].
  unfold run, FromBytes, read_request_header.
  change (mkBuffer (b1 ++ b2 ++ b3 ++ b4 ++ body) 0) with (mkBuffer ([] ++ b1 ++ b2 ++ b3 ++ b4 ++ body) (len (@nil byte))).
  rewrite (rbind_Reads _ _ _ _ b1 [] _ (Reads_int16 _ Hk) E1).
  rewrite (rbind_Reads _ _ _ _ b2 _ _ (Reads_int16 _ Hv) E2).
  rewrite (rbind_Reads _ _ _ _ b3 _ _ (Reads_int32 _ Hc) E3).
  destruct (flexRequestHeader (rh_APIKey h) (rh_APIVersion h)).
  - change (2 >=? 2) with true in E4. cbn iota in E4.
    apply enc_app_ok in E4 as (b5 & b6 & E5 & E6 & ->). rewrite <- (app_assoc b5 b6 body).
    rewrite (rbind_Reads _ _ _ _ b5 _ _ (Reads_string _) E5).
    rewrite (rbind_Reads _ _ _ _ b6 _ _ Reads_skipTags E6).
    unfold rd_remaining, rbind, ret. by rewrite remaining_end.
  - change (1 >=? 2) with false in E4. cbn iota in E4.
    rewrite (rbind_Reads _ _ _ _ b4 _ _ (Reads_string _) E4).
    unfold rd_remaining, rbind, ret. by rewrite remaining_end.
Qed.

(** Reading one frame of a stream that starts with it. *)
Lemma read_frame_one maxb resp rest :
  len resp < 2 ^ 31 -> len resp <= maxb ->
  read_frame maxb (be_bytes 4 (u32 (len resp)) ++ resp ++ rest) = Ok (be_bytes 4 (len resp) ++ resp, rest).
Proof.
  intros Hl Hm. pose proof (len_nonneg resp). unfold u32. rewrite Z.mod_small by lia.
  set (sz := be_bytes 4 (len resp)). unfold read_frame.
  assert (Hsz : len sz = 4) by apply len_be_bytes.
  rewrite !len_app, Hsz. pose proof (len_nonneg rest).
  destruct (Z.ltb_spec (4 + (len resp + len rest)) 4); [lia|].
  rewrite take_app_length', drop_app_length' by by unfold sz; rewrite length_be_bytes.
  assert (Hval : be_value sz = len resp) by (unfold sz; rewrite be_value_be_bytes, Z.mod_small; lia).
  destruct (bytes4 sz ltac:(lia)) as (b0 & b1 & b2 & b3 & tl & E).
  assert (tl = []) as ->.
  { apply len_zero. rewrite E, !len_cons in Hsz. lia. }
  rewrite E. destruct (index4 b0 b1 b2 b3 []) as (-> & -> & -> & ->). cbn [res_bind].
  rewrite be_value_lor4, <- E, Hval.
  destruct (_ || _) eqn:Eb; zbool; [lia|].
  destruct (Z.ltb_spec (4 + (len resp + len rest) - 4) (len resp)); [lia|].
  assert (Z.to_nat (len resp) = length resp) as -> by (unfold len; lia).
  rewrite take_app_length, drop_app_length. done.
Qed.

(** The client unwraps the response of its own request. *)
Lemma response_unwrap corr k v respBody resp :
  int32 corr -> k ∈ map fst advertised ->
  WriteInt32 corr +++ (if flexResponseHeader k v then WriteEmptyTagSection else enc_nil) +++ raw respBody = Ok resp ->
  len resp < 2 ^ 31 ->
  DecodeResponseHeader (be_bytes 4 (len resp) ++ resp) = Ok (corr, 4 + len resp) /\
  ResponseBodyForAPI (be_bytes 4 (len resp) ++ resp) k v = Ok respBody.
Proof.
  intros Hc Hk He Hl. apply enc_app_ok in He as (b1 & r1 & E1 & He & ->).
  apply enc_app_ok in He as (b2 & r2 & E2 & E3 & ->). apply Ok_inj in E3. subst r2.
  assert (len b1 = 4) as L1 by (apply (ELen_be 4 corr); exact E1).
  set (resp := b1 ++ b2 ++ respBody) in *. set (sz := be_bytes 4 (len resp)).
  assert (Hsz : len sz = 4) by apply len_be_bytes. pose proof (len_nonneg resp).
  assert (H4 : 4 <= len resp) by (unfold resp; rewrite len_app; pose proof (len_nonneg (b2 ++ respBody)); lia).
  assert (Hfs : frame_size (sz ++ resp) = Ok (len resp)).
  { rewrite frame_size_spec by (rewrite len_app; lia).
    rewrite take_app_length' by by unfold sz; rewrite length_be_bytes.
    unfold sz. rewrite be_value_be_bytes, Z.mod_small by lia. by rewrite s32_id by (unfold int32; lia). }
  assert (Hsl : slice (sz ++ resp) 4 (4 + len resp) = Ok resp).
  { pose proof (slice_app sz resp []) as Hs. rewrite app_nil_r, Hsz in Hs. exact Hs. }
  assert (Hlen : len (sz ++ resp) = 4 + len resp) by (rewrite len_app; lia).
  unfold DecodeResponseHeader, ResponseBodyForAPI. rewrite Hlen.
  destruct (Z.ltb_spec (4 + len resp) 8); [lia|]. rewrite Hfs. cbn [res_bind].
  rewrite Z.ltb_irrefl, Hsl. cbn [res_bind]. unfold run, FromBytes, resp.
  change (mkBuffer (b1 ++ b2 ++ respBody) 0) with (mkBuffer ([] ++ b1 ++ b2 ++ respBody) (len (@nil byte))).
  split.
  - pose proof (Reads_int32 _ Hc b1 E1 [] (b2 ++ respBody)) as Hr. unfold reads in Hr. by rewrite Hr.
  - rewrite (rbind_Reads _ _ _ _ b1 [] _ (Reads_int32 _ Hc) E1).
    destruct (flex_headers_agree k v Hk) as [_ <-].
    destruct (flexResponseHeader k v).
    + rewrite (rbind_Reads _ _ _ _ b2 _ _ Reads_empty_tags E2). unfold rd_remaining. cbn [snd]. by rewrite remaining_end.
    + apply Ok_inj in E2. subst b2. unfold rbind, ret, rd_remaining. cbn [snd app].
      by rewrite remaining_end.
Qed.

(** Request/response framing.  For every API the broker serves, at any
    version, the client's frame reaches the broker's handler with its API key,
    version and body intact, and the client gets back exactly the handler's
    response body under its own correlation id: both sides agree on the size
    prefix, the header layout and the presence of tagged fields. *)
Theorem exchange_spec `{MapOrder} maxb h body frame st st' respBody :
  EncodeRequest h body = Ok frame -> len frame <= 104857600 ->
  int16 (rh_APIKey h) -> int16 (rh_APIVersion h) -> int32 (rh_CorrelationID h) ->
  rh_APIKey h ∈ map fst advertised ->
  dispatch (rh_APIKey h) (rh_APIVersion h) body st = (st', Ok respBody) ->
  len respBody + 5 <= maxb -> maxb < 2 ^ 31 ->
  exists raw, exchange maxb h body st = (st', Ok raw) /\
    DecodeResponseHeader raw = Ok (rh_CorrelationID h, len raw) /\
    ResponseBodyForAPI raw (rh_APIKey h) (rh_APIVersion h) = Ok respBody.
Proof.
  intros He Hf Hk Hv Hc Hadv Hd Hm Hmb. unfold exchange. rewrite He.
  destruct (request_header_roundtrip h body frame He Hk Hv Hc Hadv ltac:(lia)) as (Hsz & Hpos & Hrun).
  unfold serve_one. rewrite Hsz.
  assert (len (drop 4 frame) <= len frame) by (unfold len; rewrite length_drop; lia).
  destruct (_ || _) eqn:E; zbool; [lia|]. unfold handle. rewrite Hrun, Hd. cbn [res_bind].
  match goal with |- context [WriteInt32 ?c +++ ?t] => destruct (WriteInt32 c +++ t) as [resp| |] eqn:Er end.
  2,3: by destruct (flexResponseHeader _ _).
  assert (Hlr : len resp <= len respBody + 5).
  { apply enc_app_ok in Er as (b1 & r1 & E1 & E2 & ->). apply enc_app_ok in E2 as (b2 & r2 & E2 & E3 & ->).
    apply Ok_inj in E3. subst r2. assert (len b1 = 4) as L1 by (apply (ELen_be 4 (rh_CorrelationID h)); exact E1).
    rewrite !len_app, L1. destruct (flexResponseHeader _ _); apply Ok_inj in E2; subst b2;
      unfold len at 1; cbn [length uvarint_bytes]; pose proof (len_nonneg respBody); cbn; lia. }
  destruct (response_unwrap _ _ _ _ _ Hc Hadv Er ltac:(lia)) as [Hdec Hbody].
  pose proof (read_frame_one maxb resp [] ltac:(lia) ltac:(lia)) as Hrf. rewrite app_nil_r in Hrf.
  rewrite Hrf. cbn [res_bind fst]. eexists. split; [done|]. split; [|done].
  rewrite Hdec, len_app, len_be_bytes. done.
Qed.

(** * Handlers on encoded requests *)

Lemma HReads_rd {A} (r : Rd A) e a st : Reads r e a -> HReads (hrd r) e st st a.
Proof. intros H bs Hbs pre post. unfold hrd. by rewrite (H bs Hbs pre post). Qed.

Lemma HReads_ret {A} (a : A) st : HReads (hret a) enc_nil st st a.
Proof. intros bs Hbs pre post. apply Ok_inj in Hbs as <-. by rewrite Z.add_0_r. Qed.

Lemma HReads_bind {A C} (m : Hd A) (f : A -> Hd C) e1 e2 st st1 st2 a c :
  HReads m e1 st st1 a -> HReads (f a) e2 st1 st2 c -> HReads (hbind m f) (e1 +++ e2) st st2 c.
Proof.
  intros Hm Hf bs Hbs pre post. apply enc_app_ok in Hbs as (b1 & b2 & H1 & H2 & ->).
  unfold hbind. rewrite <- (app_assoc b1). rewrite (Hm b1 H1).
  specialize (Hf b2 H2 (pre ++ b1) post). rewrite len_app, <- !(app_assoc pre) in Hf. rewrite Hf.
  rewrite len_app. do 3 f_equal. lia.
Qed.

Lemma HReads_bind_last {A C} (m : Hd A) (f : A -> Hd C) e st st1 st2 a c :
  HReads m e st st1 a -> HReads (f a) enc_nil st1 st2 c -> HReads (hbind m f) e st st2 c.
Proof. intros Hm Hf. rewrite <- (enc_app_nil_r e). by eapply HReads_bind. Qed.

(** A step of the state between two reads. *)
Lemma HReads_st {A C} (g : Broker -> Broker * A) (f : A -> Hd C) e st st2 c :
  HReads (f (snd (g st))) e (fst (g st)) st2 c -> HReads (hbind (hst g) f) e st st2 c.
Proof. intros H bs Hbs pre post. specialize (H bs Hbs pre post). unfold hbind, hst. by destruct (g st). Qed.

Lemma HReads_st_res {A C} (g : Broker -> res (Broker * A)) (f : A -> Hd C) e st st1 st2 a c :
  g st = Ok (st1, a) -> HReads (f a) e st1 st2 c -> HReads (hbind (hst_res g) f) e st st2 c.
Proof. intros Hg H bs Hbs pre post. specialize (H bs Hbs pre post). unfold hbind, hst_res. by rewrite Hg. Qed.

(** Thread a state through a list, collecting a result per element. *)
Fixpoint steps {A C} (step : Broker -> A -> Broker * C) (st : Broker) (xs : list A) : Broker * list C :=
  match xs with
  | [] => (st, [])
  | x :: rest =>
      let '(st1, c) := step st x in
      let '(st2, cs) := steps step st1 rest in (st2, c :: cs)
  end.

Lemma hbind_assoc {A C D} (m : Hd A) (f : A -> Hd C) (g : C -> Hd D) st b :
  hbind (hbind m f) g st b = hbind m (fun a => hbind (f a) g) st b.
Proof. unfold hbind. by destruct (m st b) as [st' [b' []]]. Qed.

Fixpoint hd_nat {T} (n : nat) (body : T -> Hd T) (s : T) : Hd T :=
  match n with
  | O => hret s
  | S m => s1 <~ body s ;; hd_nat m body s1
  end.

Lemma hbind_ext {A C} (m m' : Hd A) (f g : A -> Hd C) st b :
  m st b = m' st b -> (forall a st b, f a st b = g a st b) -> hbind m f st b = hbind m' g st b.
Proof. intros E H. unfold hbind. rewrite E. destruct (m' st b) as [st' [b' []]]; auto. Qed.

Lemma hd_nat_app {T} n m (body : T -> Hd T) s st b :
  hd_nat (n + m) body s st b = (s1 <~ hd_nat n body s ;; hd_nat m body s1) st b.
Proof.
  revert s st b. induction n as [|n IH]; intros s st b; [done|].
  cbn [Nat.add hd_nat]. rewrite hbind_assoc. apply hbind_ext; auto.
Qed.

Lemma hd_iter_nat {T} p (body : T -> Hd T) s st b :
  hd_iter p body s st b = hd_nat (Pos.to_nat p) body s st b.
Proof.
  revert s st b. induction p as [q IH|q IH|]; intros s st b.
  - replace (Pos.to_nat q~1) with (1 + (Pos.to_nat q + Pos.to_nat q))%nat by lia.
    cbn [Nat.add hd_nat hd_iter]. apply hbind_ext; [done|]. intros s0 st0 b0.
    rewrite hd_nat_app. by apply hbind_ext.
  - replace (Pos.to_nat q~0) with (Pos.to_nat q + Pos.to_nat q)%nat by lia.
    rewrite hd_nat_app. cbn [hd_iter]. by apply hbind_ext.
  - change (Pos.to_nat 1) with 1%nat. cbn [hd_nat hd_iter]. unfold hbind, hret.
    by destruct (body s st b) as [st1 [b1 []]].
Qed.

Lemma hd_for_nat {T} n (body : T -> Hd T) s st b :
  hd_for n body s st b = hd_nat (Z.to_nat n) body s st b.
Proof. destruct n; [done | apply hd_iter_nat | done]. Qed.

Lemma HReads_list {A C} (body : Hd C) (enc : A -> Enc) (step : Broker -> A -> Broker * C)
    (P : A -> Prop) n xs st :
  n = len xs -> Forall P xs ->
  (forall st x, P x -> HReads body (enc x) st (fst (step st x)) (snd (step st x))) ->
  HReads (hd_list n body) (enc_list enc xs) st (fst (steps step st xs)) (snd (steps step st xs)).
Proof.
  intros -> HP Hb. unfold hd_list.
  enough (H : forall acc, HReads (hd_for (len xs) (fun out => x <~ body ;; hret (out ++ [x])) acc)
    (enc_list enc xs) st (fst (steps step st xs)) (acc ++ snd (steps step st xs))) by apply (H []).
  intros acc bs Hbs pre post. rewrite hd_for_nat.
  replace (Z.to_nat (len xs)) with (length xs) by (unfold len; lia).
  revert st acc bs Hbs pre post. induction HP as [|x xs Hx _ IH]; intros st acc bs Hbs pre post.
  - apply Ok_inj in Hbs as <-. cbn [length hd_nat steps fst snd]. rewrite app_nil_r, Z.add_0_r. done.
  - rewrite enc_list_cons in Hbs. cbn [length hd_nat steps].
    pose proof (Hb st x Hx) as Hbx. destruct (step st x) as [st1 c]. cbn [fst snd] in Hbx.
    apply enc_app_ok in Hbs as (b1 & b2 & H1 & H2 & ->).
    specialize (IH st1 (acc ++ [c]) b2 H2 (pre ++ b1) post).
    destruct (steps step st1 xs) as [st2 cs]. cbn [fst snd] in *.
    unfold hbind at 1 2. rewrite <- (app_assoc b1). rewrite (Hbx b1 H1). cbn [hret].
    rewrite len_app, <- !(app_assoc pre) in IH. rewrite IH, <- app_assoc, len_app. cbn [app].
    do 3 f_equal. lia.
Qed.

Ltac hfield := eapply HReads_bind; [apply HReads_rd; solve_field|]; cbn beta.

(** * Produce *)

Section produce.
Context `{Codecs} (clock : request_clock) (settings : ProduceSettings).

(** What the broker does with the batch of a partition group. *)
Definition store_group (name : bytes) (st : Broker) (pg : Z * list ProduceRecord) : Broker * pres :=
  match partition_batch clock settings pg with
  | Ok batch =>
      match append_batch name (fst pg) batch st with
      | Ok (st', cb) => (st', mkPres (fst pg) (fst cb) (snd cb))
      | _ => (st, mkPres (fst pg) 0 0)
      end
  | _ => (st, mkPres (fst pg) 0 0)
  end.

Definition store_topic (st : Broker) (tg : bytes * list ProduceRecord) : Broker * (bytes * list pres) :=
  let '(st', rs) := steps (store_group (fst tg)) st (groupByPartition (snd tg)) in (st', (fst tg, rs)).

Definition store_request (st : Broker) (records : list ProduceRecord) : Broker * list (bytes * list pres) :=
  steps store_topic st (groupByTopic records).

(** A group whose batch is built and fits a compact field. *)
Definition wf_group (pg : Z * list ProduceRecord) : Prop :=
  int32 (fst pg) /\ forall batch, partition_batch clock settings pg = Ok batch -> fits batch.

Definition wf_topic (tg : bytes * list ProduceRecord) : Prop :=
  fits (fst tg) /\ fits (groupByPartition (snd tg)) /\ Forall wf_group (groupByPartition (snd tg)).

Lemma append_batch_total name part batch st : exists r, append_batch name part batch st = Ok r.
Proof.
  pose proof (append_batch_np name part batch st) as Hn. unfold append_batch in *.
  destruct (bk_topics st !! name) as [t|]; [|eauto]. destruct (_ || _); [eauto|].
  destruct (index _ _) as [pl| |] eqn:Ei; cbn [res_bind] in *; [|by unfold index in Ei; repeat case_match|done].
  destruct (batchRecordCount_ok batch) as [n Hb]. rewrite Hb. cbn. eauto.
Qed.

Lemma HReads_partition name st pg :
  wf_group pg ->
  HReads (produce_partition None name) (encode_partition_flex clock settings pg) st
    (fst (store_group name st pg)) (snd (store_group name st pg)).
Proof.
  intros [Hp Hfit]. unfold encode_partition_flex, store_group.
  destruct (partition_batch clock settings pg) as [batch| |] eqn:Eb; cbn [res_bind]; [|by intros bs Hbs|by intros bs Hbs].
  specialize (Hfit batch eq_refl).
  unfold produce_partition. hfield. hfield.
  eapply HReads_bind_last; [apply HReads_rd, Reads_skipTags|]. cbn beta. cbn [hit default]. unfold id.
  destruct (append_batch_total name (fst pg) batch st) as [[st1 cb] Ha]. rewrite Ha. cbn [fst snd].
  eapply HReads_st_res; [exact Ha|]. apply HReads_ret.
Qed.

Lemma HReads_topic st tg :
  wf_topic tg ->
  HReads (produce_topic None) (encode_topic_flex clock settings tg) st
    (fst (store_topic st tg)) (snd (store_topic st tg)).
Proof.
  intros (Hn & Hl & Hg). unfold encode_topic_flex, produce_topic, store_topic. cbn zeta.
  unfold fits in Hl. pose proof (len_nonneg (groupByPartition (snd tg))).
  hfield. hfield. eapply HReads_bind.
  { eapply (HReads_list _ _ (store_group (fst tg))); [lia | exact Hg|]. intros. by apply HReads_partition. }
  cbn beta. destruct (steps _ _ _) as [st' rs]. cbn [fst snd].
  eapply HReads_bind_last; [apply HReads_rd, Reads_skipTags | apply HReads_ret].
Qed.

(** ** The response *)

Definition result_of (name : bytes) (r : pres) : ProduceResult :=
  mkProduceResult name (ps_part r) (ps_base r) (ps_code r).

Definition results_of (rs : list (bytes * list pres)) : list ProduceResult :=
  concat (map (fun tr => map (result_of (fst tr)) (snd tr)) rs).

Definition wf_pres (r : pres) : Prop := int32 (ps_part r) /\ int16 (ps_code r) /\ int64 (ps_base r).
Definition wf_tres (tr : bytes * list pres) : Prop :=
  fits (fst tr) /\ fits (snd tr) /\ Forall wf_pres (snd tr).

Lemma Reads_pres ver name r : 9 <= ver -> wf_pres r ->
  Reads (read_result_flex ver name) (write_pres r) (result_of name r).
Proof.
  intros Hv (Hp & Hc & Hb). unfold read_result_flex, write_pres.
  assert (ver >=? 8 = true) as -> by (rewrite Z.geb_leb; apply Z.leb_le; lia).
  field. field. field. field. field.
  rewrite <- (enc_app_assoc (WriteCompactArrayLen 0)).
  eapply Reads_bind.
  - eapply Reads_bind; [apply Reads_array_len; lia|]. change (0 + 1 - 1) with 0. cbn [rd_for].
    change (WriteCompactNullableString None) with (enc_nil +++ WriteCompactNullableString None).
    eapply Reads_bind; [apply Reads_ret|]. eapply Reads_bind_last; [apply (Reads_compact_nullable_string None); done|].
    apply Reads_ret.
  - cbn beta. eapply Reads_bind_last; [apply Reads_empty_tags | apply Reads_ret].
Qed.

Lemma Reads_produce_response ver rs :
  9 <= ver -> fits rs -> Forall wf_tres rs ->
  Reads (decodeProduceResponseFlex ver) (write_produce_response rs) (results_of rs).
Proof.
  intros Hv Hl Hwf. unfold decodeProduceResponseFlex, write_produce_response.
  unfold fits in Hl. pose proof (len_nonneg rs). field. eapply Reads_bind.
  - eapply (Reads_flat _ _ _ wf_tres); [lia | exact Hwf|]. intros tr (Hn & Hp & Hall).
    unfold write_tres. unfold fits in Hp. pose proof (len_nonneg (snd tr)). field. field.
    eapply Reads_bind.
    + eapply (Reads_list_map _ _ (result_of (fst tr)) wf_pres); [lia | exact Hall|]. intros. by apply Reads_pres.
    + cbn beta. eapply Reads_bind_last; [apply Reads_empty_tags | apply Reads_ret].
  - cbn beta. field. eapply Reads_bind_last; [apply Reads_empty_tags | apply Reads_ret].
Qed.
End produce.

Definition EOk (e : Enc) : Prop := exists bs, e = Ok bs.

Lemma EOk_app x y : EOk x -> EOk y -> EOk (x +++ y).
Proof. intros [a ->] [b ->]. by eexists. Qed.

Lemma EOk_list {A} (f : A -> Enc) l : (forall x, x ∈ l -> EOk (f x)) -> EOk (enc_list f l).
Proof.
  induction l as [|x l IH]; intros Hf; [by eexists|]. rewrite enc_list_cons.
  apply EOk_app; [apply Hf; left|]. apply IH. intros y Hy. apply Hf. by right.
Qed.

Ltac solve_eok :=
  repeat match goal with
  | |- EOk (_ +++ _) => apply EOk_app
  | |- EOk (enc_list _ _) => apply EOk_list; intros ? ?
  | |- EOk (if _ then _ else _) => case_match
  | |- EOk _ => first [by eexists | solve [auto]]
  end.

Lemma EOk_produce_response rs : EOk (write_produce_response rs).
Proof. unfold write_produce_response, write_tres, write_pres. solve_eok. Qed.

Section produce_request.
Context `{CodecLaws} `{MapOrder} (clock : request_clock) (settings : ProduceSettings).

Lemma log_ok_int64 base batches leo : int64 base -> log_ok base batches leo -> int64 leo.
Proof.
  revert base. induction batches as [|b rest IH]; intros base Hb; cbn [log_ok]; [by intros ->|].
  intros [_ Hr]. eapply IH; [|exact Hr]. apply (sgn_range 64). lia.
Qed.

Lemma append_batch_result name part batch st st' c b :
  store_ok st -> append_batch name part batch st = Ok (st', (c, b)) -> int16 c /\ int64 b.
Proof.
  intros Hok. unfold append_batch.
  assert (Hbad : forall s, Ok (st, (errUnknownTopicOrPartition, -1)) = Ok (s, (c, b)) -> int16 c /\ int64 b).
  { intros s [= <- <- <-]. unfold int16, int64, errUnknownTopicOrPartition. lia. }
  destruct (bk_topics st !! name) as [t|] eqn:Et; [|apply Hbad]. destruct (_ || _); [apply Hbad|].
  unfold index. destruct (0 <=? part); [|done]. destruct (ts_partitions t !! Z.to_nat part) as [pl|] eqn:Ep; [|done].
  cbn [res_bind]. destruct (batchRecordCount_ok batch) as [n ->]. cbn [res_bind]. intros [= _ <- <-].
  split; [unfold int16; lia|]. destruct (Hok name t Et) as (_ & _ & _ & Hall).
  eapply (log_ok_int64 0); [unfold int64; lia|]. exact (Forall_lookup_1 _ _ _ _ Hall Ep).
Qed.

Lemma store_groups_ok name st pgs :
  store_ok st -> Forall (wf_group clock settings) pgs ->
  store_ok (fst (steps (store_group clock settings name) st pgs)) /\
  Forall wf_pres (snd (steps (store_group clock settings name) st pgs)) /\
  length (snd (steps (store_group clock settings name) st pgs)) = length pgs.
Proof.
  intros Hst Hw. revert st Hst. induction Hw as [|pg pgs [Hp _] _ IH]; intros st Hst; cbn [steps]; [done|].
  assert (Hstep : store_ok (fst (store_group clock settings name st pg)) /\
    wf_pres (snd (store_group clock settings name st pg))).
  { unfold store_group. destruct (partition_batch clock settings pg) as [batch| |].
    2,3: cbn; split; [done|]; split; [done|]; unfold int16, int64; cbn; lia.
    destruct (append_batch_total name (fst pg) batch st) as [[st1 [c b]] Ha]. rewrite Ha. cbn [fst snd].
    split; [by eapply append_batch_ok|]. destruct (append_batch_result _ _ _ _ _ _ _ Hst Ha). done. }
  destruct (store_group clock settings name st pg) as [st1 c]. cbn [fst snd] in Hstep.
  specialize (IH st1 (proj1 Hstep)). destruct (steps _ st1 pgs) as [st2 cs]. cbn [fst snd length] in *.
  destruct IH as (? & ? & ?). split; [done|]. split; [by constructor; [apply Hstep|] | congruence].
Qed.

Lemma store_request_ok st tgs :
  store_ok st -> Forall (wf_topic clock settings) tgs ->
  store_ok (fst (steps (store_topic clock settings) st tgs)) /\
  Forall wf_tres (snd (steps (store_topic clock settings) st tgs)) /\
  length (snd (steps (store_topic clock settings) st tgs)) = length tgs.
Proof.
  intros Hst Hw. revert st Hst. induction Hw as [|tg tgs (Hn & Hf & Hg) _ IH]; intros st Hst; cbn [steps]; [done|].
  destruct (store_groups_ok (fst tg) st _ Hst Hg) as (Hs & Hr & Hl).
  unfold store_topic at 1 3 5. destruct (steps (store_group _ _ _) st _) as [st1 rs]. cbn [fst snd] in *.
  specialize (IH st1 Hs). destruct (steps _ st1 tgs) as [st2 cs]. cbn [fst snd length] in *.
  destruct IH as (? & ? & ?). split; [done|]. split; [|congruence]. constructor; [|done].
  split; [done|]. split; [|done]. unfold fits, len in *. cbn [snd]. rewrite Hl. done.
Qed.

Lemma no_fault st : bk_produceFailN st <= 0 -> takeProduceFault st = (st, None).
Proof. intros Hn. unfold takeProduceFault. by destruct (Z.leb_spec (bk_produceFailN st) 0); [|lia]. Qed.

Lemma Reads_txn_id : fits (ps_TransactionalID settings) ->
  exists s, Reads ReadCompactNullableString
    (if has_txn_id settings then WriteCompactString (ps_TransactionalID settings)
     else WriteCompactNullableString None) s.
Proof.
  intros Hf. destruct (has_txn_id settings).
  - exists (ps_TransactionalID settings). by apply (Reads_compact_nullable_string (Some (ps_TransactionalID settings))).
  - exists []. by apply (Reads_compact_nullable_string None).
Qed.

(** One result per partition group, in order. *)
Lemma store_groups_parts name pgs st :
  map ps_part (snd (steps (store_group clock settings name) st pgs)) = map fst pgs.
Proof.
  revert st. induction pgs as [|pg pgs IH]; intros st; [done|]. cbn [steps map].
  assert (Hp : ps_part (snd (store_group clock settings name st pg)) = fst pg)
    by (unfold store_group; repeat case_match; done).
  destruct (store_group _ _ _ st pg) as [st1 c]. specialize (IH st1).
  destruct (steps _ st1 pgs). cbn [snd map] in *. congruence.
Qed.

Lemma store_request_parts tgs st :
  map ps_part (concat (map snd (snd (steps (store_topic clock settings) st tgs)))) =
  concat (map (fun tg => map fst (groupByPartition (snd tg))) tgs).
Proof.
  revert st. induction tgs as [|tg tgs IH]; intros st; [done|]. cbn [steps map concat].
  pose proof (store_groups_parts (fst tg) (groupByPartition (snd tg)) st) as Hg.
  unfold store_topic at 1. destruct (steps (store_group _ _ _) st _) as [st1 rs]. specialize (IH st1).
  destruct (steps _ st1 tgs) as [st2 cs]. cbn [snd map concat] in *. by rewrite map_app, Hg, IH.
Qed.

(** The part of the request the handler reads: all but the last tag section. *)
Definition produce_fields (records : list ProduceRecord) : Enc :=
  (if has_txn_id settings then WriteCompactString (ps_TransactionalID settings)
   else WriteCompactNullableString None) +++
  WriteInt16 (ps_Acks settings) +++ WriteInt32 (ps_TimeoutMs settings) +++
  WriteCompactArrayLen (len (groupByTopic records)) +++
  enc_list (encode_topic_flex clock settings) (groupByTopic records).

Lemma HReads_handleProduce records st resp :
  0 < ps_TimeoutMs settings < 2 ^ 31 -> int16 (ps_Acks settings) -> fits (ps_TransactionalID settings) ->
  fits (groupByTopic records) -> Forall (wf_topic clock settings) (groupByTopic records) ->
  bk_produceFailN st <= 0 ->
  write_produce_response (snd (store_request clock settings st records)) = Ok resp ->
  HReads handleProduce (produce_fields records) st (fst (store_request clock settings st records)) resp.
Proof.
  intros Ht Ha Hid Hfit Hwf Hf Hresp. destruct (Reads_txn_id Hid) as [tid Htid].
  unfold fits in Hfit. pose proof (len_nonneg (groupByTopic records)).
  unfold handleProduce, produce_fields.
  eapply HReads_bind; [apply HReads_rd; exact Htid|]. cbn beta. hfield. hfield. hfield.
  eapply HReads_st. rewrite no_fault by done. cbn [fst snd]. eapply HReads_bind_last.
  - eapply (HReads_list _ _ (store_topic clock settings)); [lia | exact Hwf|]. intros. by apply HReads_topic.
  - cbn beta. fold (store_request clock settings st records). rewrite Hresp.
    intros bs Hbs pre post. apply Ok_inj in Hbs as <-. by rewrite Z.add_0_r.
Qed.

Lemma produce_dispatch records body st :
  EncodeProduceRequest clock 9 records settings = Ok body ->
  0 < ps_TimeoutMs settings < 2 ^ 31 -> int16 (ps_Acks settings) -> fits (ps_TransactionalID settings) ->
  fits (groupByTopic records) -> Forall (wf_topic clock settings) (groupByTopic records) ->
  store_ok st -> bk_produceFailN st <= 0 ->
  exists resp,
    dispatch APIProduce 9 body st = (fst (store_request clock settings st records), Ok resp) /\
    DecodeProduceResponse 9 resp = Ok (results_of (snd (store_request clock settings st records))) /\
    map ps_part (concat (map snd (snd (store_request clock settings st records)))) =
      concat (map (fun tg => map fst (groupByPartition (snd tg))) (groupByTopic records)).
Proof.
  intros He Ht Ha Hid Hfit Hwf Hst Hf. unfold EncodeProduceRequest in He.
  destruct (Z.leb_spec (ps_TimeoutMs settings) 0); [lia|]. cbn zeta in He. change (9 >=? 9) with true in He. cbn iota in He.
  destruct (store_request_ok st _ Hst Hwf) as (_ & Hres & Hlen).
  fold (store_request clock settings st records) in Hres, Hlen.
  destruct (EOk_produce_response (snd (store_request clock settings st records))) as [resp Hresp].
  exists resp. split; [|split; [|apply store_request_parts]].
  - assert (Hsplit : produce_fields records +++ WriteEmptyTagSection = Ok body)
      by (rewrite <- He; unfold produce_fields, encodeProduceRequestFlex; by rewrite !enc_app_assoc).
    apply enc_app_ok in Hsplit as (b1 & b2 & E1 & E2 & ->).
    pose proof (HReads_handleProduce records st resp Ht Ha Hid Hfit Hwf Hf Hresp b1 E1 [] b2) as HR.
    change (len []) with 0 in HR. cbn [app] in HR. unfold dispatch, FromBytes.
    change (dispatch_handler APIProduce 9) with handleProduce. by rewrite HR.
  - unfold DecodeProduceResponse. change (9 >=? 9) with true. cbn iota.
    eapply Reads_run; [|exact Hresp]. apply Reads_produce_response; [lia | | done].
    unfold fits, len in *. rewrite Hlen. done.
Qed.

(** Produce against the broker.  The broker parses the client's flexible
    Produce request into exactly the client's topic and partition groups, in
    order, appends each partition's batch once at that partition's log end
    offset (or reports UNKNOWN_TOPIC_OR_PARTITION), and the client decodes
    from the response, for every partition it sent, in the same order, the
    error code and the base offset the broker assigned. *)
Theorem produce_end_to_end records body st :
  EncodeProduceRequest clock 9 records settings = Ok body ->
  0 < ps_TimeoutMs settings < 2 ^ 31 -> int16 (ps_Acks settings) -> fits (ps_TransactionalID settings) ->
  fits (groupByTopic records) -> Forall (wf_topic clock settings) (groupByTopic records) ->
  store_ok st -> bk_produceFailN st <= 0 ->
  exists resp,
    dispatch APIProduce 9 body st = (fst (store_request clock settings st records), Ok resp) /\
    DecodeProduceResponse 9 resp = Ok (results_of (snd (store_request clock settings st records))) /\
    map ps_part (concat (map snd (snd (store_request clock settings st records)))) =
      concat (map (fun tg => map fst (groupByPartition (snd tg))) (groupByTopic records)).
Proof. apply produce_dispatch. Qed.
End produce_request.

(** * Fetch *)

(** What the broker serves for a partition from an offset. *)
Definition served (st : Broker) (topic : bytes) (part offset : Z) : bytes * Z :=
  match collectBatches st topic part offset with
  | Ok (r, hwm) => (default [] r, hwm)
  | _ => ([], 0)
  end.

Definition part_offset (p : FetchPartition) : Z * Z := (fp_Partition p, fp_Offset p).

Definition wf_fetch (p : FetchPartition) : Prop :=
  int32 (fp_Partition p) /\ int64 (fp_Offset p) /\ int32 (fp_LeaderEpoch p) /\ int32 (fp_MaxBytes p).

Lemma Reads_fetch_part p : wf_fetch p ->
  Reads read_fetch_part (encode_fetch_partition_flex 12 p) (part_offset p).
Proof.
  intros (Hp & Ho & He & Hm). unfold read_fetch_part, encode_fetch_partition_flex, fetch_max_bytes.
  change (12 >=? 12) with true. change (12 >=? 5) with true. cbn iota.
  field. field. field. field. field.
  eapply Reads_bind.
  { apply Reads_int32. unfold int32 in *. destruct (fp_MaxBytes p <=? 0); lia. }
  cbn beta. eapply Reads_bind_last; [apply Reads_skipTags | apply Reads_ret].
Qed.

Definition wf_fetch_topic (tp : bytes * list FetchPartition) : Prop :=
  fits (fst tp) /\ fits (snd tp) /\ Forall wf_fetch (snd tp).

Lemma Reads_fetch_topic tp : wf_fetch_topic tp ->
  Reads read_fetch_topic (encode_fetch_topic_flex 12 tp) (fst tp, map part_offset (snd tp)).
Proof.
  intros (Hn & Hl & Hw). unfold read_fetch_topic, encode_fetch_topic_flex.
  change (12 >=? 13) with false. cbn iota. unfold fits in Hl. pose proof (len_nonneg (snd tp)).
  field. field. eapply Reads_bind.
  - eapply (Reads_list_map _ _ part_offset wf_fetch); [lia | exact Hw|]. apply Reads_fetch_part.
  - cbn beta. eapply Reads_bind_last; [apply Reads_skipTags | apply Reads_ret].
Qed.

(** The request up to the fields the broker does not read. *)
Definition fetch_fields (groups : list (bytes * list FetchPartition)) (maxWaitMs minBytes maxBytes iso : Z) : Enc :=
  WriteInt32 (-1) +++ WriteInt32 maxWaitMs +++ WriteInt32 minBytes +++ WriteInt32 maxBytes +++
  WriteInt8 iso +++ WriteInt32 0 +++ WriteInt32 (-1) +++
  WriteCompactArrayLen (len groups) +++ enc_list (encode_fetch_topic_flex 12) groups.

Lemma Reads_fetch_request groups maxWaitMs minBytes maxBytes iso :
  int32 maxWaitMs -> int32 minBytes -> int32 maxBytes -> int8 iso ->
  fits groups -> Forall wf_fetch_topic groups ->
  Reads read_fetch_request (fetch_fields groups maxWaitMs minBytes maxBytes iso)
    (map (fun tp => (fst tp, map part_offset (snd tp))) groups).
Proof.
  intros H1 H2 H3 H4 Hl Hw. unfold read_fetch_request, fetch_fields. unfold fits in Hl. pose proof (len_nonneg groups).
  do 8 field. eapply (Reads_list_map _ _ _ wf_fetch_topic); [lia | exact Hw|]. apply Reads_fetch_topic.
Qed.

Section fetch.
Context `{Codecs}.

Definition decodable (st : Broker) (topic : bytes) (po : Z * Z) (recs : list FetchedRecord) : Prop :=
  int32 (fst po) /\ int64 (snd (served st topic (fst po) (snd po))) /\
  fits (fst (served st topic (fst po) (snd po))) /\
  decodeRecordBatch topic (fst po) (fst (served st topic (fst po) (snd po))) [] = Ok recs.

Lemma Reads_bind_nil {A C} (m : Rd A) (f : A -> Rd C) e a c :
  Reads m enc_nil a -> Reads (f a) e c -> Reads (rbind m f) e c.
Proof.
  intros Hm Hf. assert (e = enc_nil +++ e) as -> by by destruct e. by eapply Reads_bind.
Qed.

Lemma Reads_fetch_head part hwm lso lst : int32 part -> int64 hwm -> int64 lso -> int64 lst ->
  Reads (read_fetch_partition_head 12)
    (WriteInt32 part +++ WriteInt16 0 +++ WriteInt64 hwm +++ WriteInt64 lso +++ WriteInt64 lst) part.
Proof.
  intros Hp H1 H2 H3. unfold read_fetch_partition_head. field. field.
  eapply Reads_bind_nil; [apply (Reads_ret tt)|]. field. eapply Reads_bind.
  { change (12 >=? 4) with true. eapply Reads_bind_last; [by apply Reads_int64 | apply Reads_ret]. }
  cbn beta. eapply Reads_bind_last.
  { change (12 >=? 5) with true. eapply Reads_bind_last; [by apply Reads_int64 | apply Reads_ret]. }
  apply Reads_ret.
Qed.

Lemma Reads_no_aborted : Reads readAbortedTransactionsFlex (WriteCompactArrayLen 0) [].
Proof. eapply Reads_bind_last; [apply Reads_array_len; lia|]. apply Reads_ret. Qed.

Lemma Reads_lift {A} (r : res A) a : r = Ok a -> Reads (lift r) enc_nil a.
Proof. intros -> bs Hbs pre post. apply Ok_inj in Hbs as <-. unfold lift. by rewrite Z.add_0_r. Qed.

Lemma Reads_served st topic po recs : decodable st topic po recs ->
  Reads (read_fetch_partition_flex 12 topic) (write_fetch_part st topic po) recs.
Proof.
  intros (Hp & Hh & Hf & Hd). unfold write_fetch_part, read_fetch_partition_flex, served in *.
  destruct (collectBatches st topic (fst po) (snd po)) as [[r hwm]| |]; cbn [res_bind fst snd] in *;
    [|by intros bs Hbs|by intros bs Hbs].
  change (12 >=? 4) with true. change (12 >=? 11) with true. cbn iota.
  assert (Hsplit : forall e, WriteInt32 (fst po) +++ WriteInt16 0 +++ WriteInt64 hwm +++ WriteInt64 hwm +++ WriteInt64 0 +++ e =
    (WriteInt32 (fst po) +++ WriteInt16 0 +++ WriteInt64 hwm +++ WriteInt64 hwm +++ WriteInt64 0) +++ e)
    by (intros; by rewrite !enc_app_assoc).
  rewrite Hsplit. eapply Reads_bind; [apply Reads_fetch_head; try done; unfold int64; lia|]. cbn beta.
  eapply Reads_bind; [apply Reads_no_aborted|]. cbn beta.
  eapply Reads_bind.
  { eapply Reads_bind_last; [apply Reads_int32; unfold int32; lia | apply Reads_ret]. }
  cbn beta. eapply Reads_bind; [by apply Reads_compact_bytes|]. cbn beta.
  eapply Reads_bind_nil; [by apply Reads_lift|].
  eapply Reads_bind_last; [apply Reads_empty_tags | apply Reads_ret].
Qed.

(** The records of a request, given those of each partition. *)
Definition fetched_all (recs : bytes -> Z * Z -> list FetchedRecord) (reqs : list (bytes * list (Z * Z))) :
    list FetchedRecord :=
  concat (map (fun tr => concat (map (recs (fst tr)) (snd tr))) reqs).

Definition wf_request (st : Broker) (recs : bytes -> Z * Z -> list FetchedRecord)
    (tr : bytes * list (Z * Z)) : Prop :=
  fits (fst tr) /\ fits (snd tr) /\ Forall (fun po => decodable st (fst tr) po (recs (fst tr) po)) (snd tr).

Lemma Reads_fetch_response st recs reqs :
  fits reqs -> Forall (wf_request st recs) reqs ->
  Reads (decodeFetchResponseFlex 12 None) (write_fetch_response st reqs) (fetched_all recs reqs).
Proof.
  intros Hl Hw. unfold decodeFetchResponseFlex, write_fetch_response. unfold fits in Hl. pose proof (len_nonneg reqs).
  change (12 >=? 7) with true. change (12 >=? 13) with false. cbn iota.
  field. rewrite <- (enc_app_assoc (WriteInt16 0)). eapply Reads_bind.
  { eapply Reads_bind_last; [|apply Reads_ret]. eapply Reads_bind; [|]; solve_field. }
  cbn beta. field. eapply Reads_bind.
  - eapply (Reads_flat _ _ _ (wf_request st recs)); [lia | exact Hw|]. intros tr (Hn & Hp & Hall).
    unfold write_fetch_topic. unfold fits in Hp. pose proof (len_nonneg (snd tr)). field. field.
    eapply Reads_bind.
    + eapply (Reads_flat _ _ (recs (fst tr))); [lia | exact Hall|]. intros po Hpo. by apply Reads_served.
    + cbn beta. eapply Reads_bind_last; [apply Reads_empty_tags | apply Reads_ret].
  - cbn beta. eapply Reads_bind_last; [apply Reads_empty_tags | apply Reads_ret].
Qed.

Lemma EOk_fetch_response st reqs : EOk (write_fetch_response st reqs).
Proof.
  unfold write_fetch_response, write_fetch_topic. solve_eok. unfold write_fetch_part.
  pose proof (collectBatches_np st (fst x) (fst x0) (snd x0)) as Hc.
  destruct (collectBatches st (fst x) (fst x0) (snd x0)) as [[r h]| |] eqn:E; cbn [res_bind]; [|exfalso|done].
  - destruct r; solve_eok.
  - unfold collectBatches, index in E. repeat case_match; done.
Qed.

(** The whole fetch exchange, for any partitions. *)
Lemma fetch_dispatch `{MapOrder} st recs partitions maxWaitMs minBytes maxBytes iso body :
  let groups := group_by fp_Topic partitions in
  let reqs := map (fun tp => (fst tp, map part_offset (snd tp))) groups in
  EncodeFetchRequest 12 partitions maxWaitMs minBytes maxBytes iso = Ok body ->
  int32 maxWaitMs -> int32 minBytes -> int32 maxBytes -> int8 iso ->
  fits groups -> Forall wf_fetch_topic groups -> Forall (wf_request st recs) reqs ->
  exists resp, dispatch APIFetch 12 body st = (st, Ok resp) /\
    DecodeFetchResponse 12 resp None = Ok (fetched_all recs reqs).
Proof.
  intros groups reqs He H1 H2 H3 H4 Hl Hw Hr.
  destruct (EOk_fetch_response st reqs) as [resp Hresp]. exists resp. split.
  - unfold EncodeFetchRequest in He. change (12 >=? 12) with true in He. cbn iota in He.
    unfold encodeFetchRequestFlex in He. cbn zeta in He. fold groups in He.
    change (12 >=? 11) with true in He. cbn iota in He.
    assert (Hsplit : fetch_fields groups maxWaitMs minBytes maxBytes iso +++
      (WriteCompactArrayLen 0 +++ WriteCompactString [] +++ WriteEmptyTagSection) = Ok body)
      by (rewrite <- He; unfold fetch_fields; by rewrite !enc_app_assoc).
    apply enc_app_ok in Hsplit as (b1 & b2 & E1 & _ & ->).
    pose proof (Reads_fetch_request groups _ _ _ _ H1 H2 H3 H4 Hl Hw b1 E1 [] b2) as HR.
    unfold reads in HR. cbn [app] in HR. change (len []) with 0 in HR.
    unfold dispatch. change (dispatch_handler APIFetch 12) with handleFetch.
    unfold handleFetch, FromBytes, hbind, hrd, hget, hres. rewrite HR. fold reqs. by rewrite Hresp.
  - unfold DecodeFetchResponse. change (12 >=? 12) with true. cbn iota.
    eapply Reads_run; [|exact Hresp]. apply Reads_fetch_response; [|done].
    unfold fits, reqs in *. by rewrite len_map.
Qed.
End fetch.

(** * Produce, then fetch *)

Section produce_fetch.
Context `{CodecLaws} `{MapOrder}.

Lemma stored_bytes b bs : stored b bs -> exists bl tl, bs = batch_bytes (bt_base b) bl tl.
Proof.
  intros (sent & Henc & ->). destruct (bt_records b) as [|r0 rest]; [done|].
  apply encodeRecordBatch_layout in Henc as (payload & a & s & tail & _ & _ & _ & ->).
  rewrite patch_base. eauto.
Qed.

Definition from_offset (o : Z) (bts : list batch) : list batch := filter (fun b => o <= bt_base b) bts.

(** The batches [collectBatches] concatenates are those from the offset on. *)
Lemma collect_stored o bts blobs :
  Forall2 stored bts blobs -> Forall wf_batch bts ->
  exists sel, collect blobs o = concat sel /\ Forall2 stored (from_offset o bts) sel /\ (forall x, x ∈ sel -> x ∈ blobs).
Proof.
  intros Hst Hwf. induction Hst as [|b bs bts blobs Hb _ IH].
  - exists []. split; [done|]. split; [constructor | done].
  - apply Forall_cons in Hwf as [Hwb Hwf]. destruct (IH Hwf) as (sel & Hc & Hs & Hin).
    destruct (stored_bytes b bs Hb) as (bl & tl & ->). cbn [collect].
    destruct (Z.ltb_spec (len (batch_bytes (bt_base b) bl tl)) 8) as [Hlt|_].
    { rewrite len_batch_bytes in Hlt. pose proof (len_nonneg tl). lia. }
    assert (s64 (be_value (take 8 (batch_bytes (bt_base b) bl tl))) = bt_base b) as ->.
    { unfold batch_bytes. rewrite take_app_length' by by rewrite length_be_bytes.
      rewrite be_value_be_bytes. unfold s64. rewrite (sgn_mod 64) by lia. apply sgn_id; [lia|].
      destruct Hwb as (_ & _ & _ & _ & _ & _ & _ & _ & Hbase). exact Hbase. }
    unfold from_offset. destruct (bt_base b >=? o) eqn:E; zbool.
    + rewrite filter_cons_True by lia. exists (batch_bytes (bt_base b) bl tl :: sel).
      rewrite Hc. split; [done|]. split; [by constructor | set_solver].
    + rewrite filter_cons_False by lia. exists sel. rewrite Hc. split; [done|]. split; [done | set_solver].
Qed.

Definition delivered_batches (topic : bytes) (part : Z) (bts : list batch) : list FetchedRecord :=
  concat (map (fun b => delivered topic part (bt_base b) 0 (bt_records b)) bts).

Lemma decode_collected topic part o bts blobs :
  Forall2 stored bts blobs -> Forall wf_batch bts -> Forall (fun bs => len bs < 2 ^ 32) blobs ->
  decodeRecordBatch topic part (collect blobs o) [] = Ok (delivered_batches topic part (from_offset o bts)).
Proof.
  intros Hst Hwf Hlen. destruct (collect_stored o bts blobs Hst Hwf) as (sel & -> & Hs & Hin).
  apply stored_batches_decode; [done| |].
  - unfold from_offset. apply Forall_forall. intros b [_ Hb]%list_elem_of_filter. rewrite Forall_forall in Hwf. by apply Hwf.
  - apply Forall_forall. intros x Hx. rewrite Forall_forall in Hlen. by apply Hlen, Hin.
Qed.

(** The partition's log is the list of stored batches [bts]. *)
Definition log_holds (st : Broker) (topic : bytes) (part : Z) (bts : list batch) (pl : partitionLog) : Prop :=
  exists t, bk_topics st !! topic = Some t /\ 0 <= part /\ ts_partitions t !! Z.to_nat part = Some pl /\
    Forall2 stored bts (pl_batches pl) /\ Forall wf_batch bts /\ Forall (fun bs => len bs < 2 ^ 32) (pl_batches pl).

Lemma log_holds_served st topic part o bts pl :
  store_ok st -> log_holds st topic part bts pl -> int32 part ->
  fits (collect (pl_batches pl) o) ->
  decodable st topic (part, o) (delivered_batches topic part (from_offset o bts)).
Proof.
  intros Hok (t & Ht & Hp & Hpl & Hst & Hwf & Hlen) Hpart Hfit.
  assert (Hs : served st topic part o = (collect (pl_batches pl) o, pl_leo pl)).
  { unfold served, collectBatches. rewrite Ht. apply lookup_lt_Some in Hpl as Hlt.
    destruct (_ || _) eqn:E; zbool; [unfold len in *; lia|]. unfold index.
    destruct (Z.leb_spec 0 part); [|lia]. rewrite Hpl. cbn [res_bind]. case_bool_decide as Hn; [by rewrite Hn | done]. }
  unfold decodable. cbn [fst snd]. rewrite Hs. cbn [fst snd]. split; [done|]. split; [|split; [done|]].
  - destruct (Hok topic t Ht) as (_ & _ & _ & Hall).
    eapply (log_ok_int64 0); [unfold int64; lia|]. exact (Forall_lookup_1 _ _ _ _ Hall Hpl).
  - by apply decode_collected.
Qed.

(** Records of one topic and partition make one group. *)
Lemma first_keys_single {A K} `{Countable K} (key : A -> K) k l :
  l <> [] -> (forall r, r ∈ l -> key r = k) -> first_keys key l = [k].
Proof.
  intros Hne. induction l as [|r l IH] using rev_ind; [done|]. intros Hk. rewrite first_keys_snoc.
  rewrite (Hk r) by set_solver. destruct (decide (l = [])) as [-> | Hl].
  - unfold first_keys. cbn [fold_left]. by rewrite decide_False by apply not_elem_of_nil.
  - rewrite IH; [|done | intros; apply Hk; set_solver]. by rewrite decide_True by set_solver.
Qed.

Lemma with_key_all {A K} `{Countable K} (key : A -> K) k l :
  (forall r, r ∈ l -> key r = k) -> with_key key k l = l.
Proof.
  unfold with_key. induction l as [|r l IH]; intros Hk; [done|].
  rewrite filter_cons_True by (apply Hk; left). f_equal. apply IH. intros. apply Hk. by right.
Qed.

Lemma group_by_single {A K} `{Countable K} (key : A -> K) k l :
  l <> [] -> (forall r, r ∈ l -> key r = k) -> group_by key l = [(k, l)].
Proof. intros Hne Hk. rewrite group_by_eq, (first_keys_single key k) by done. cbn [map]. by rewrite with_key_all. Qed.

(** The sequence number a partition's batch is sent with. *)
Definition batch_seq (settings : ProduceSettings) (topic : bytes) (part : Z) : Z :=
  match ps_NextSequence settings with None => 0 | Some next => next topic part end.

(** The batch a producer sends for one partition and the broker stores at [base]. *)
Definition produced (clock : request_clock) (settings : ProduceSettings) (topic : bytes) (part : Z)
    (records : list ProduceRecord) (base : Z) : batch :=
  mkBatch (clock topic part) records settings (batch_seq settings topic part) base.

Lemma partition_batch_single clock settings topic part records :
  records <> [] -> (forall r, r ∈ records -> pr_Topic r = topic) ->
  partition_batch clock settings (part, records) =
    encodeRecordBatch (clock topic part) records settings (batch_seq settings topic part).
Proof.
  intros Hne Ht. destruct records as [|r0 rest]; [done|]. unfold partition_batch, batch_seq.
  pose proof (Ht r0 ltac:(left)) as Hr0. cbn [fst snd head from_option]. rewrite Hr0.
  destruct (ps_NextSequence settings); [|done]. change (index (r0 :: rest) 0) with (Ok r0). cbn [res_bind]. by rewrite Hr0.
Qed.

Lemma len_patched batch off : len (patchBaseOffset batch off) = len batch.
Proof.
  unfold patchBaseOffset. destruct (len batch >=? 8) eqn:E; [|done]. zbool.
  rewrite len_app, len_be_bytes. unfold len in *. rewrite length_drop. lia.
Qed.

(** Storing one partition's batch. *)
Lemma store_single clock settings st topic part records bts pl batch :
  log_holds st topic part bts pl -> records <> [] ->
  (forall r, r ∈ records -> pr_Topic r = topic /\ pr_Partition r = part) ->
  partition_batch clock settings (part, records) = Ok batch ->
  wf_batch (produced clock settings topic part records (pl_leo pl)) -> len batch < 2 ^ 32 ->
  exists st' pl',
    store_request clock settings st records = (st', [(topic, [mkPres part 0 (pl_leo pl)])]) /\
    pl_batches pl' = pl_batches pl ++ [patchBaseOffset batch (pl_leo pl)] /\
    log_holds st' topic part (bts ++ [produced clock settings topic part records (pl_leo pl)]) pl'.
Proof.
  intros (t & Ht & Hp & Hpl & Hst & Hwf & Hlen) Hne Hkeys Hb Hwfn Hlb.
  unfold store_request, groupByTopic. rewrite (group_by_single pr_Topic topic) by (try done; intros; by apply Hkeys).
  cbn [steps]. unfold store_topic. cbn [fst snd]. unfold groupByPartition.
  rewrite (group_by_single pr_Partition part) by (try done; intros; by apply Hkeys).
  cbn [steps]. unfold store_group. rewrite Hb. cbn [fst]. unfold append_batch. rewrite Ht.
  apply lookup_lt_Some in Hpl as Hlt. destruct (_ || _) eqn:E; zbool; [unfold len in *; lia|].
  unfold index. destruct (Z.leb_spec 0 part); [|lia]. rewrite Hpl. cbn [res_bind].
  destruct (batchRecordCount_ok batch) as [n Hn]. rewrite Hn. cbn [res_bind fst snd].
  eexists _, (mkPartitionLog _ _). split; [reflexivity|]. split; [reflexivity|].
  assert (Hsent : encodeRecordBatch (clock topic part) records settings (batch_seq settings topic part) = Ok batch).
  { rewrite <- Hb. symmetry. apply partition_batch_single; [done|]. intros r Hr. by apply Hkeys. }
  assert (Hstored : stored (produced clock settings topic part records (pl_leo pl)) (patchBaseOffset batch (pl_leo pl))).
  { exists batch. split; [exact Hsent|]. destruct (records) as [|r0 rest]; [done|].
    apply encodeRecordBatch_layout in Hsent as (payload & a & s & tail & _ & _ & _ & ->).
    unfold patchBaseOffset. rewrite len_batch_bytes. pose proof (len_nonneg tail).
    destruct (21 + len tail >=? 8) eqn:E8; zbool; [|lia]. unfold patch. cbn [take app Nat.add bt_base produced].
    by rewrite length_be_bytes, be_bytes_u64. }
  eexists. cbn [bk_topics set_topics]. rewrite lookup_insert_eq. split; [reflexivity|]. split; [done|].
  split; [cbn [ts_partitions]; by apply list_lookup_insert_eq|]. cbn [pl_batches].
  split; [by apply Forall2_app; [|constructor]|]. split; [by apply Forall_app; split; [|constructor]|].
  apply Forall_app. split; [done|]. constructor; [|constructor].
  by rewrite len_patched.
Qed.

(** A fetch of one partition. *)
Lemma fetch_single st fp bts pl maxWaitMs minBytes maxBytes iso body :
  EncodeFetchRequest 12 [fp] maxWaitMs minBytes maxBytes iso = Ok body ->
  int32 maxWaitMs -> int32 minBytes -> int32 maxBytes -> int8 iso -> wf_fetch fp -> fits (fp_Topic fp) ->
  store_ok st -> log_holds st (fp_Topic fp) (fp_Partition fp) bts pl ->
  fits (collect (pl_batches pl) (fp_Offset fp)) ->
  exists resp, dispatch APIFetch 12 body st = (st, Ok resp) /\
    DecodeFetchResponse 12 resp None =
      Ok (delivered_batches (fp_Topic fp) (fp_Partition fp) (from_offset (fp_Offset fp) bts)).
Proof.
  intros He Hi1 Hi2 Hi3 Hi4 Hfp Hft Hok Hlog Hfit.
  assert (Hg : group_by fp_Topic [fp] = [(fp_Topic fp, [fp])]).
  { apply group_by_single; [done|]. by intros r ->%list_elem_of_singleton. }
  destruct (fetch_dispatch st (fun topic po => delivered_batches topic (fst po) (from_offset (snd po) bts))
    [fp] maxWaitMs minBytes maxBytes iso body) as (resp & Hd & Hdec); try done.
  - rewrite Hg. constructor; [|constructor]. split; [done|]. split; [done|]. by constructor.
  - rewrite Hg. constructor; [|constructor]. split; [done|]. split; [done|].
    constructor; [|constructor]. by apply (log_holds_served _ _ _ _ _ pl); [| |apply Hfp|].
  - exists resp. split; [done|]. rewrite Hdec, Hg. unfold fetched_all. cbn [map fst snd concat part_offset].
    by rewrite !app_nil_r.
Qed.

(** The two handlers after each other: the records of one partition, then a
    fetch of it. *)
Lemma produce_then_fetch_handlers clock settings records st fp bts pl pbody fbody maxWaitMs minBytes maxBytes iso :
  let topic := fp_Topic fp in
  let part := fp_Partition fp in
  let new := produced clock settings topic part records (pl_leo pl) in
  records <> [] -> (forall r, r ∈ records -> pr_Topic r = topic /\ pr_Partition r = part) ->
  EncodeProduceRequest clock 9 records settings = Ok pbody ->
  EncodeFetchRequest 12 [fp] maxWaitMs minBytes maxBytes iso = Ok fbody ->
  0 < ps_TimeoutMs settings < 2 ^ 31 -> int16 (ps_Acks settings) -> fits (ps_TransactionalID settings) ->
  int32 maxWaitMs -> int32 minBytes -> int32 maxBytes -> int8 iso -> wf_fetch fp -> fits topic ->
  store_ok st -> bk_produceFailN st <= 0 -> log_holds st topic part bts pl -> wf_batch new ->
  (forall batch, partition_batch clock settings (part, records) = Ok batch ->
     fits (collect (pl_batches pl ++ [patchBaseOffset batch (pl_leo pl)]) (fp_Offset fp)) /\ fits batch) ->
  exists st' presp fresp,
    dispatch APIProduce 9 pbody st = (st', Ok presp) /\
    DecodeProduceResponse 9 presp = Ok [mkProduceResult topic part (pl_leo pl) 0] /\
    dispatch APIFetch 12 fbody st' = (st', Ok fresp) /\
    DecodeFetchResponse 12 fresp None =
      Ok (delivered_batches topic part (from_offset (fp_Offset fp) (bts ++ [new]))).
Proof.
  intros topic part new Hne Hkeys Hpe Hfe Ht Ha Hid Hi1 Hi2 Hi3 Hi4 Hfp Hft Hok Hnf Hlog Hwf Hfit.
  assert (HgT : groupByTopic records = [(topic, records)])
    by (apply group_by_single; [done|]; intros; by apply Hkeys).
  assert (HgP : groupByPartition records = [(part, records)])
    by (apply group_by_single; [done|]; intros; by apply Hkeys).
  assert (Hbatch : exists batch, partition_batch clock settings (part, records) = Ok batch).
  { revert Hpe. unfold EncodeProduceRequest. destruct (Z.leb_spec (ps_TimeoutMs settings) 0); [lia|]. cbn zeta.
    change (9 >=? 9) with true. cbn iota. unfold encodeProduceRequestFlex. rewrite HgT. cbn zeta.
    unfold encode_topic_flex, enc_list at 1. cbn [foldr fst snd]. rewrite HgP. cbn [enc_list foldr].
    unfold encode_partition_flex. destruct (partition_batch clock settings (part, records)); [eauto| |];
      cbn [res_bind]; destruct (has_txn_id settings); done. }
  destruct Hbatch as [batch Hb]. destruct (Hfit batch Hb) as [Hfc Hfb].
  destruct (store_single clock settings st topic part records bts pl batch) as (st' & pl' & Hs & Hpl' & Hlog'); try done.
  { unfold fits in Hfb. lia. }
  assert (Hwt : Forall (wf_topic clock settings) (groupByTopic records)).
  { rewrite HgT. constructor; [|constructor]. split; [done|]. cbn [snd]. rewrite HgP. split; [done|].
    constructor; [|constructor]. split; [apply Hfp|]. intros b' Hb'. assert (b' = batch) as -> by congruence. done. }
  destruct (produce_dispatch clock settings records pbody st) as (presp & Hd & Hdec & _); try done.
  { by rewrite HgT. }
  rewrite Hs in Hd, Hdec. cbn [fst snd] in Hd, Hdec.
  assert (Hok' : store_ok st').
  { pose proof (store_request_ok clock settings st _ Hok Hwt) as (Ho & _).
    fold (store_request clock settings st records) in Ho. by rewrite Hs in Ho. }
  destruct (fetch_single st' fp (bts ++ [new]) pl' maxWaitMs minBytes maxBytes iso fbody) as (fresp & Hfd & Hfdec); try done.
  { by rewrite Hpl'. }
  by exists st', presp, fresp.
Qed.

End produce_fetch.

(** * Concrete exchanges *)

#[local] Existing Instance stored_codecs.

Definition demo_records : list ProduceRecord :=
  [ mkProduceRecord (str "t") 0 (str "k1") (str "hello") [(str "h", str "x")] (Some 1700000000000);
    mkProduceRecord (str "t") 0 [] (str "world") [] (Some 1700000000042) ].
Definition demo_settings : ProduceSettings := mkProduceSettings (-1) 30000 0 0 false [] (-1) (-1) None.
Definition demo_clock : request_clock := fun _ _ _ => 1700000000000.
Definition demo_fetch : FetchPartition := mkFetchPartition (str "t") [] 0 0 (-1) 0.

Definition bytes_of (e : Enc) : bytes := match e with Ok b => b | _ => [] end.

Lemma exchange_spec_witness :
  exists raw, exchange (64 * 2 ^ 20) (mkRequestHeader APIApiVersions 3 11 (str "gokafka")) (str "") sample_broker =
      (sample_broker, Ok raw) /\
    DecodeResponseHeader raw = Ok (11, len raw) /\
    ResponseBodyForAPI raw APIApiVersions 3 = Ok (bytes_of handleApiVersions).
Proof.
  apply (exchange_spec (64 * 2 ^ 20) (mkRequestHeader APIApiVersions 3 11 (str "gokafka")) (str "")
    (bytes_of (EncodeRequest (mkRequestHeader APIApiVersions 3 11 (str "gokafka")) (str "")))).
  - vm_compute. reflexivity.
  - vm_compute. discriminate.
  - split; vm_compute; congruence.
  - split; vm_compute; congruence.
  - split; vm_compute; congruence.
  - apply list_elem_of_In. vm_compute. tauto.
  - vm_compute. reflexivity.
  - vm_compute. discriminate.
  - lia.
Defined.

Lemma demo_wf_topic : Forall (wf_topic demo_clock demo_settings) (groupByTopic demo_records).
Proof.
  change (groupByTopic demo_records) with [(str "t", demo_records)].
  constructor; [|constructor]. split; [done|].
  change (groupByPartition (snd (str "t", demo_records))) with [(0, demo_records)].
  split; [done|]. constructor; [|constructor]. split; [split; vm_compute; congruence|].
  intros batch Hb. vm_compute in Hb. apply Ok_inj in Hb as <-. vm_compute. reflexivity.
Qed.

Lemma produce_end_to_end_witness :
  exists resp,
    dispatch APIProduce 9 (bytes_of (EncodeProduceRequest demo_clock 9 demo_records demo_settings)) sample_broker =
      (fst (store_request demo_clock demo_settings sample_broker demo_records), Ok resp) /\
    DecodeProduceResponse 9 resp =
      Ok (results_of (snd (store_request demo_clock demo_settings sample_broker demo_records))) /\
    map ps_part (concat (map snd (snd (store_request demo_clock demo_settings sample_broker demo_records)))) =
      concat (map (fun tg => map fst (groupByPartition (snd tg))) (groupByTopic demo_records)).
Proof.
  apply produce_end_to_end.
  - vm_compute. reflexivity.
  - split; vm_compute; congruence.
  - split; vm_compute; congruence.
  - vm_compute. reflexivity.
  - vm_compute. reflexivity.
  - apply demo_wf_topic.
  - apply sample_broker_ok.
  - vm_compute. discriminate.
Defined.

Definition demo_log : partitionLog := mkPartitionLog [] 0.

Lemma demo_log_holds : log_holds sample_broker (str "t") 0 [] demo_log.
Proof.
  exists (mkTopicState (str "t") (topic_uuid 1) [demo_log]). split; [by vm_compute|]. split; [lia|].
  split; [done|]. cbn [pl_batches demo_log]. split; [constructor|]. split; constructor.
Qed.

Lemma demo_wf_batch : wf_batch (produced demo_clock demo_settings (str "t") 0 demo_records 0).
Proof.
  unfold wf_batch. cbn [produced bt_records bt_settings bt_clock bt_seq bt_base].
  split; [done|]. split; [apply Forall_cons; split; [split; vm_compute; congruence|];
    apply Forall_cons; split; [split; vm_compute; congruence | by apply Forall_nil]|].
  split.
  { intros t0 Ht. assert (t0 = 1700000000000) as -> by (cbn in Ht; congruence).
    unfold demo_clock, demo_records. cbn [wf_records]. unfold wf_record, wf_record_fields, small, varint29.
    split; [|split; [|done]].
    - split; [split; [done|]; split; [done|]; split; [done|]; repeat constructor|]; by vm_compute.
    - split; [split; [done|]; split; [done|]; split; [done|]; repeat constructor|]; by vm_compute. }
  split; [intros p Hp; vm_compute in Hp; apply Ok_inj in Hp as <-; by vm_compute|].
  split; [done|]. split; [split; vm_compute; congruence|]. split; [split; vm_compute; congruence|].
  split; split; vm_compute; congruence.
Qed.

