(* ===== verification/Assign.v ===== *)
(** The group leader's partition assignment: [internal/protocol/group_assign.go]
    (range, round-robin and sticky assignors, [ComputeGroupAssignments], the
    assignment and subscription codecs) and the assignment parser of
    [internal/protocol/assignment.go].

    Slices: [assignRange] hands out sub-slices of one array and
    [appendTopicParts] appends to them in place.  The array is never read
    again and a member that occurs twice in the sorted list occurs in a row, so
    such an append writes the values that are already there; the model uses
    plain lists. *)

From Stdlib Require Import ZArith Lia Sorted.
From Stdlib Require Import Strings.Byte.
From stdpp Require Import base list gmap countable strings sorting.
From S2P Require Import Prelude.
From S2P Require Import Wire.

Open Scope Z_scope.

Record TopicPartitionAssignment := mkTPA { tpa_Topic : bytes; tpa_Partitions : list Z }.

Record MemberSubscription := mkMember { ms_MemberID : bytes; ms_Topics : list bytes }.

Abbreviation assignment_map := (gmap bytes (list TopicPartitionAssignment)).

(** * Codecs *)

Definition read_assignment_legacy : Rd TopicPartitionAssignment :=
  topic <- ReadString ;;
  nParts <- ReadInt32 ;;
  parts <- rd_list nParts ReadInt32 ;;
  ret (mkTPA topic parts).

Definition parseLegacyAssignment : Rd (list TopicPartitionAssignment) :=
  nTopics <- ReadInt32 ;;
  rd_list nTopics read_assignment_legacy.

Definition parseCompactAssignment : Rd (list TopicPartitionAssignment) :=
  nTopics <- ReadUvarint ;;
  rd_list (nTopics - 1) (
    topic <- ReadCompactString ;;
    nParts <- ReadUvarint ;;
    parts <- rd_list (nParts - 1) ReadInt32 ;;
    ret (mkTPA topic parts)).

Definition ParseMemberAssignment (raw : bytes) : res (list TopicPartitionAssignment) :=
  if len raw =? 0 then Ok [] else
  run (version <- ReadInt16 ;;
       if (version =? 0) || (version =? 1) then parseLegacyAssignment else parseCompactAssignment) raw.

Definition write_assignment (a : TopicPartitionAssignment) : Enc :=
  WriteString (tpa_Topic a) +++ WriteInt32 (s32 (len (tpa_Partitions a))) +++
  enc_list WriteInt32 (tpa_Partitions a).

Definition EncodeMemberAssignment (assignments : list TopicPartitionAssignment) : Enc :=
  WriteInt16 0 +++ WriteInt32 (s32 (len assignments)) +++ enc_list write_assignment assignments.

Definition DecodeConsumerSubscription (raw : bytes) : res (list bytes) :=
  if len raw =? 0 then Ok [] else
  run (ReadInt16 ;;;
       nTopics <- ReadInt32 ;;
       rd_list nTopics ReadString) raw.

(** * Assignors *)

(** The loop of [appendTopicParts] over one member's assignments. *)
Fixpoint append_parts (assignments : list TopicPartitionAssignment) (topic : bytes) (parts : list Z) :
    list TopicPartitionAssignment :=
  match assignments with
  | [] => [mkTPA topic parts]
  | a :: rest =>
      if bool_decide (tpa_Topic a = topic) then mkTPA (tpa_Topic a) (tpa_Partitions a ++ parts) :: rest
      else a :: append_parts rest topic parts
  end.

Definition appendTopicParts (byMember : assignment_map) (memberID topic : bytes) (parts : list Z) : assignment_map :=
  <[memberID := append_parts (default [] (byMember !! memberID)) topic parts]> byMember.

Fixpoint range_loop (topic : bytes) (parts : list Z) (per extra i idx : Z) (members : list bytes)
    (byMember : assignment_map) : res assignment_map :=
  match members with
  | [] => Ok byMember
  | mid :: rest =>
      let count := if i <? extra then per + 1 else per in
      if count =? 0 then range_loop topic parts per extra (i + 1) idx rest byMember else
      let? s := slice parts idx (idx + count) in
      range_loop topic parts per extra (i + 1) (idx + count) rest (appendTopicParts byMember mid topic s)
  end.

Definition assignRange (topic : bytes) (parts : list Z) (members : list bytes) (byMember : assignment_map) :
    res assignment_map :=
  let n := len members in
  if n =? 0 then Ok byMember else
  range_loop topic parts (len parts / n) (len parts mod n) 0 0 members byMember.

(** [buckets[i%len(members)] = append(buckets[i%len(members)], p)] *)
Fixpoint rr_buckets (n i : nat) (parts : list Z) (buckets : list (list Z)) : list (list Z) :=
  match parts with
  | [] => buckets
  | p :: rest => rr_buckets n (S i) rest (alter (fun b => b ++ [p]) (i mod n)%nat buckets)
  end.

Definition give_bucket (topic : bytes) (bm : assignment_map) (mb : bytes * list Z) : assignment_map :=
  if len (snd mb) >? 0 then appendTopicParts bm (fst mb) topic (snd mb) else bm.

Definition assignRoundRobin (topic : bytes) (parts : list Z) (members : list bytes) (byMember : assignment_map) :
    res assignment_map :=
  if len members =? 0 then Ok byMember else
  let buckets := rr_buckets (length members) 0 parts (repeat [] (length members)) in
  Ok (fold_left (give_bucket topic) (zip members buckets) byMember).

Fixpoint find_topic (assignments : list TopicPartitionAssignment) (topic : bytes) : list Z :=
  match assignments with
  | [] => []
  | a :: rest => if bool_decide (tpa_Topic a = topic) then tpa_Partitions a else find_topic rest topic
  end.

Definition stickyTopicCount (assignments : list TopicPartitionAssignment) (topic : bytes) : Z :=
  len (find_topic assignments topic).

Definition pick_step (counts : gmap bytes Z) (best : bytes * Z) (mid : bytes) : bytes * Z :=
  let c := default 0 (counts !! mid) in
  if (c <? snd best) || ((c =? snd best) && str_ltb mid (fst best)) then (mid, c) else best.

Definition stickyPickMember (counts : gmap bytes Z) (members : list bytes) : res bytes :=
  let? m0 := index members 0 in
  Ok (fst (fold_left (pick_step counts) (tail members) (m0, default 0 (counts !! m0)))).

Fixpoint sticky_loop (topic : bytes) (parts : list Z) (members : list bytes) (counts : gmap bytes Z)
    (byMember : assignment_map) : res assignment_map :=
  match parts with
  | [] => Ok byMember
  | p :: rest =>
      let? mid := stickyPickMember counts members in
      sticky_loop topic rest members (<[mid := default 0 (counts !! mid) + 1]> counts)
        (appendTopicParts byMember mid topic [p])
  end.

Definition sort_parts (parts : list Z) : list Z := merge_sort Z.le parts.

Definition str_le (s t : bytes) : Prop := str_ltb t s = false.
#[export] Instance str_le_dec : RelDecision str_le.
Proof. intros s t. unfold str_le. apply _. Defined.

Definition assignSticky (topic : bytes) (parts : list Z) (members : list bytes) (byMember : assignment_map) :
    res assignment_map :=
  if len members =? 0 then Ok byMember else
  let counts := fold_left (fun (c : gmap bytes Z) mid =>
    <[mid := stickyTopicCount (default [] (byMember !! mid)) topic]> c) members ∅ in
  sticky_loop topic (sort_parts parts) members counts byMember.

(** The [switch] on the protocol name. *)
Definition assign_topic (protocolName topic : bytes) (parts : list Z) (members : list bytes)
    (byMember : assignment_map) : res assignment_map :=
  if bool_decide (protocolName = str "roundrobin") then assignRoundRobin topic parts members byMember
  else if bool_decide (protocolName = str "sticky") || bool_decide (protocolName = str "cooperative-sticky")
  then assignSticky topic parts members byMember
  else assignRange topic parts members byMember.

(** [topicMembers]: the members of each topic, in the order of the members. *)
Definition subscribe (m : gmap bytes (list bytes)) (mt : bytes * bytes) : gmap bytes (list bytes) :=
  <[snd mt := default [] (m !! snd mt) ++ [fst mt]]> m.

Definition subscriptions (members : list MemberSubscription) : list (bytes * bytes) :=
  concat (map (fun m => map (fun t => (ms_MemberID m, t)) (ms_Topics m)) members).

Definition topic_members (sorted : list MemberSubscription) : gmap bytes (list bytes) :=
  fold_left subscribe (subscriptions sorted) ∅.

Definition assign_step (protocolName : bytes) (topicPartitions : gmap bytes (list Z)) (byMember : res assignment_map)
    (tm : bytes * list bytes) : res assignment_map :=
  let? byMember := byMember in
  let mids := merge_sort str_le (snd tm) in
  let parts := default [] (topicPartitions !! fst tm) in
  if len parts =? 0 then Ok byMember
  else assign_topic protocolName (fst tm) (sort_parts parts) mids byMember.

Definition member_le (m n : MemberSubscription) : Prop := str_le (ms_MemberID m) (ms_MemberID n).
#[export] Instance member_le_dec : RelDecision member_le.
Proof. intros m n. unfold member_le. apply _. Defined.

(** The state of [byMember] before it is encoded. *)
Definition compute_assignments `{MapOrder} (protocolName : bytes) (members : list MemberSubscription)
    (topicPartitions : gmap bytes (list Z)) : res assignment_map :=
  let sorted := merge_sort member_le members in
  let byMember := fold_left (fun (bm : assignment_map) m => <[ms_MemberID m := []]> bm) sorted ∅ in
  fold_left (assign_step protocolName topicPartitions) (range (topic_members sorted)) (Ok byMember).

(** The result maps each member to what [EncodeMemberAssignment] gives; the
    call panics when one of them does. *)
Definition ComputeGroupAssignments `{MapOrder} (protocolName : bytes) (members : list MemberSubscription)
    (topicPartitions : gmap bytes (list Z)) : res (gmap bytes Enc) :=
  if len members =? 0 then Ok ∅ else
  let? byMember := compute_assignments protocolName members topicPartitions in
  Ok (EncodeMemberAssignment <$> byMember).
