(* ===== verification/AssignFacts.v ===== *)
(** Theorems on partition assignment: every assignor hands out each partition
    of a topic exactly once, to subscribed members, in shares that differ by at
    most one; the leader's computation does so for all topics; assignments
    survive encoding. *)

From Stdlib Require Import ZArith Lia Sorted.
From Stdlib Require Import Strings.Byte.
From stdpp Require Import base list gmap countable strings sorting.
From S2P Require Import Prelude.
From S2P Require Import Wire.
From S2P Require Import Assign.

Open Scope Z_scope.

(** * Assignments as functions *)

(** The partitions of a topic a member holds. *)
Definition assigned (bm : assignment_map) (mid topic : bytes) : list Z :=
  find_topic (default [] (bm !! mid)) topic.

(** One entry per topic in every member's list. *)
Definition entries_ok (bm : assignment_map) : Prop :=
  map_Forall (fun _ l => NoDup (map tpa_Topic l)) bm.

Lemma find_topic_append l topic parts t :
  find_topic (append_parts l topic parts) t =
    find_topic l t ++ (if decide (t = topic) then parts else []).
Proof.
  induction l as [|a l IH]; cbn [append_parts find_topic].
  - case_decide as Ht; [subst; by rewrite bool_decide_true | by rewrite bool_decide_false by done].
  - case_bool_decide as Ha; cbn [find_topic tpa_Topic tpa_Partitions].
    + case_decide as Ht; case_bool_decide as Hb; try congruence; by rewrite app_nil_r.
    + case_bool_decide as Hb; [|done]. case_decide; [congruence | by rewrite app_nil_r].
Qed.

Lemma append_parts_topics l topic parts t :
  t ∈ map tpa_Topic (append_parts l topic parts) <-> t ∈ map tpa_Topic l \/ t = topic.
Proof.
  induction l as [|a l IH]; cbn [append_parts map tpa_Topic]; [set_solver|].
  case_bool_decide; cbn [map tpa_Topic]; set_solver.
Qed.

Lemma append_parts_nodup l topic parts :
  NoDup (map tpa_Topic l) -> NoDup (map tpa_Topic (append_parts l topic parts)).
Proof.
  induction l as [|a l IH]; cbn [append_parts map tpa_Topic]; intros Hn; [apply NoDup_singleton|].
  apply NoDup_cons in Hn as [Ha Hn]. case_bool_decide as Hb; cbn [map tpa_Topic]; apply NoDup_cons; split; auto.
  rewrite append_parts_topics. intros [Hx|Hx]; done.
Qed.

(** What an assignor promises for one topic: [share mid] is what [mid] gets. *)
Record fair_assignment (topic : bytes) (parts : list Z) (members : list bytes) (bm bm' : assignment_map)
    (share : bytes -> list Z) : Prop := mkFair {
  fair_assigned mid t : assigned bm' mid t = assigned bm mid t ++ (if decide (t = topic) then share mid else []);
  fair_members mid : mid ∉ members -> share mid = [] /\ bm' !! mid = bm !! mid;
  fair_keeps mid : is_Some (bm !! mid) -> is_Some (bm' !! mid);
  fair_entries : entries_ok bm -> entries_ok bm';
  fair_once : concat (map share members) ≡ₚ parts;
  fair_balance m n : m ∈ members -> n ∈ members -> len (share m) <= len (share n) + 1 }.

Lemma assigned_append bm m topic parts mid t :
  assigned (appendTopicParts bm m topic parts) mid t =
    assigned bm mid t ++ (if decide (t = topic /\ mid = m) then parts else []).
Proof.
  unfold assigned, appendTopicParts. destruct (decide (mid = m)) as [-> | Hm].
  - rewrite lookup_insert_eq. cbn [default]. unfold id. rewrite find_topic_append. f_equal.
    repeat case_decide; naive_solver.
  - rewrite lookup_insert_ne by done. rewrite decide_False by naive_solver. by rewrite app_nil_r.
Qed.

Lemma entries_append bm m topic parts : entries_ok bm -> entries_ok (appendTopicParts bm m topic parts).
Proof.
  intros Hok. unfold appendTopicParts. apply map_Forall_insert_2; [|done]. apply append_parts_nodup.
  destruct (bm !! m) as [l|] eqn:E; cbn; [exact (Hok m l E) | constructor].
Qed.

(** * Handing out one chunk per member *)

(** What [mid] gets when [chunks] are handed out along [members]. *)
Definition give (members : list bytes) (chunks : list (list Z)) (mid : bytes) : list Z :=
  concat (map snd (filter (fun mc => fst mc = mid) (zip members chunks))).

Definition hand_out (topic : bytes) (members : list bytes) (chunks : list (list Z)) (bm : assignment_map) : assignment_map :=
  fold_left (give_bucket topic) (zip members chunks) bm.

Lemma assigned_give_bucket topic bm mb mid t :
  assigned (give_bucket topic bm mb) mid t =
    assigned bm mid t ++ (if decide (t = topic /\ mid = fst mb) then snd mb else []).
Proof.
  unfold give_bucket. destruct (len (snd mb) >? 0) eqn:E; [apply assigned_append|]. zbool.
  assert (snd mb = []) as -> by (apply len_zero; pose proof (len_nonneg (snd mb)); lia).
  case_decide; by rewrite app_nil_r.
Qed.

Lemma assigned_hand_out topic members chunks bm mid t :
  assigned (hand_out topic members chunks bm) mid t =
    assigned bm mid t ++ (if decide (t = topic) then give members chunks mid else []).
Proof.
  unfold hand_out, give. revert bm. induction (zip members chunks) as [|mb l IH]; intros bm; cbn [fold_left].
  - case_decide; by rewrite app_nil_r.
  - rewrite IH, assigned_give_bucket, <- app_assoc. f_equal.
    destruct (decide (t = topic)) as [Ht|Ht].
    + destruct (decide (fst mb = mid)) as [Hm|Hm].
      * rewrite decide_True by done. rewrite filter_cons_True by done. done.
      * rewrite decide_False by naive_solver. rewrite filter_cons_False by done. done.
    + rewrite decide_False by naive_solver. done.
Qed.

Lemma give_bucket_lookup topic bm mb mid :
  (mid <> fst mb -> give_bucket topic bm mb !! mid = bm !! mid) /\
  (is_Some (bm !! mid) -> is_Some (give_bucket topic bm mb !! mid)).
Proof.
  unfold give_bucket. destruct (_ >? 0); [|done]. unfold appendTopicParts. split.
  - intros Hm. by rewrite lookup_insert_ne.
  - intros Hs. destruct (decide (mid = fst mb)) as [->|Hm]; [rewrite lookup_insert_eq; eauto | by rewrite lookup_insert_ne].
Qed.

Lemma hand_out_lookup topic members chunks bm mid :
  (mid ∉ members -> hand_out topic members chunks bm !! mid = bm !! mid) /\
  (is_Some (bm !! mid) -> is_Some (hand_out topic members chunks bm !! mid)).
Proof.
  unfold hand_out. revert chunks bm. induction members as [|m members IH]; intros chunks bm; [done|].
  destruct chunks as [|c chunks]; [done|]. cbn [zip zip_with fold_left].
  destruct (IH chunks (give_bucket topic bm (m, c))) as [IH1 IH2].
  destruct (give_bucket_lookup topic bm (m, c) mid) as [G1 G2]. split.
  - intros Hm. rewrite IH1 by set_solver. apply G1. cbn. set_solver.
  - intros Hs. by apply IH2, G2.
Qed.

Lemma entries_hand_out topic members chunks bm : entries_ok bm -> entries_ok (hand_out topic members chunks bm).
Proof.
  unfold hand_out. revert bm. induction (zip members chunks) as [|mb l IH]; intros bm Hok; [done|].
  cbn [fold_left]. apply IH. unfold give_bucket. destruct (_ >? 0); [by apply entries_append | done].
Qed.

Lemma give_cons m members c chunks mid :
  give (m :: members) (c :: chunks) mid = (if decide (m = mid) then c else []) ++ give members chunks mid.
Proof.
  unfold give. cbn [zip zip_with]. destruct (decide (m = mid)) as [Hm|Hm].
  - by rewrite filter_cons_True.
  - by rewrite filter_cons_False.
Qed.

Lemma give_not_in members chunks mid : mid ∉ members -> give members chunks mid = [].
Proof.
  revert chunks. induction members as [|m members IH]; intros chunks Hm; [done|].
  destruct chunks as [|c chunks]; [done|]. rewrite give_cons, decide_False by set_solver.
  apply IH. set_solver.
Qed.

(** With distinct members the shares are the chunks. *)
Lemma give_chunks members chunks :
  NoDup members -> length chunks = length members -> map (give members chunks) members = chunks.
Proof.
  intros Hn. revert chunks. induction Hn as [|m members Hm Hn IH]; intros chunks Hl.
  - by destruct chunks.
  - destruct chunks as [|c chunks]; [done|]. cbn [map]. rewrite give_cons, decide_True by done.
    rewrite give_not_in, app_nil_r by done. f_equal. rewrite <- (IH chunks) at 2 by (cbn in Hl; lia).
    apply map_ext_in. intros x Hx%list_elem_of_In. by rewrite give_cons, decide_False by set_solver.
Qed.

Definition even_split (parts : list Z) (chunks : list (list Z)) : Prop :=
  concat chunks ≡ₚ parts /\ forall c d, c ∈ chunks -> d ∈ chunks -> len c <= len d + 1.

Lemma hand_out_fair topic parts members chunks bm :
  NoDup members -> length chunks = length members -> even_split parts chunks ->
  fair_assignment topic parts members bm (hand_out topic members chunks bm) (give members chunks).
Proof.
  intros Hn Hl [Hperm Hbal]. split.
  - intros. apply assigned_hand_out.
  - intros mid Hm. split; [by apply give_not_in | by apply hand_out_lookup].
  - intros mid. apply hand_out_lookup.
  - apply entries_hand_out.
  - by rewrite give_chunks.
  - assert (Hin : forall m, m ∈ members -> give members chunks m ∈ chunks).
    { intros m Hm. apply (list_elem_of_fmap_2 (give members chunks)) in Hm.
      change (give members chunks m ∈ map (give members chunks) members) in Hm. by rewrite give_chunks in Hm. }
    intros m n Hm Hm'. by apply Hbal; apply Hin.
Qed.

(** * Range *)

Fixpoint cut (n : nat) (per extra i : Z) (rest : list Z) : list (list Z) :=
  match n with
  | O => []
  | S m =>
      let count := Z.to_nat (if i <? extra then per + 1 else per) in
      take count rest :: cut m per extra (i + 1) (drop count rest)
  end.

Lemma length_cut n per extra i rest : length (cut n per extra i rest) = n.
Proof. revert i rest. induction n as [|n IH]; intros; cbn [cut length]; [done|]. by rewrite IH. Qed.

Lemma cut_spec n per extra i rest :
  0 <= per -> extra - i <= Z.of_nat n -> len rest = Z.of_nat n * per + Z.max 0 (extra - i) ->
  concat (cut n per extra i rest) = rest /\
  Forall (fun c => len c = per \/ len c = per + 1) (cut n per extra i rest).
Proof.
  revert i rest. induction n as [|n IH]; intros i rest Hper Hex Hl; cbn [cut concat].
  - split; [|constructor]. symmetry. apply len_zero. lia.
  - set (count := if i <? extra then per + 1 else per).
    assert (Hc : 0 <= count <= len rest /\ (count = per \/ count = per + 1) /\
      len rest - count = Z.of_nat n * per + Z.max 0 (extra - (i + 1))).
    { unfold count. destruct (Z.ltb_spec i extra); nia. }
    destruct Hc as (Hc & Hcase & Hrem).
    destruct (IH (i + 1) (drop (Z.to_nat count) rest)) as [Hcat Hall]; [done | lia | |].
    { unfold len in *. rewrite length_drop. lia. }
    rewrite Hcat. split; [apply take_drop|]. constructor; [|done].
    unfold len in *. rewrite length_take. lia.
Qed.

Lemma range_loop_cut topic parts per extra members i idx bm :
  0 <= per -> 0 <= idx <= len parts -> extra - i <= Z.of_nat (length members) ->
  len parts - idx = Z.of_nat (length members) * per + Z.max 0 (extra - i) ->
  range_loop topic parts per extra i idx members bm =
    Ok (hand_out topic members (cut (length members) per extra i (drop (Z.to_nat idx) parts)) bm).
Proof.
  revert i idx bm. induction members as [|m members IH]; intros i idx bm Hper Hidx Hex Hl; [done|].
  cbn [range_loop length cut]. set (count := if i <? extra then per + 1 else per).
  cbn [length] in *.
  assert (Hc : 0 <= count <= len parts - idx /\
    len parts - (idx + count) = Z.of_nat (length members) * per + Z.max 0 (extra - (i + 1))).
  { unfold count. destruct (Z.ltb_spec i extra); nia. }
  destruct Hc as (Hc & Hrem). unfold hand_out. cbn [zip zip_with fold_left].
  destruct (Z.eqb_spec count 0) as [H0|H0].
  - rewrite H0 in *. unfold give_bucket at 2. cbn [snd]. change (Z.to_nat 0) with O. cbn [take].
    change (len (@nil Z) >? 0) with false. cbn iota. rewrite IH by lia. rewrite drop_0. done.
  - rewrite slice_ok by lia. cbn [res_bind]. rewrite Z.add_simpl_l.
    rewrite IH by lia. unfold hand_out. f_equal.
    replace (drop (Z.to_nat (idx + count)) parts) with (drop (Z.to_nat count) (drop (Z.to_nat idx) parts))
      by (rewrite drop_drop; f_equal; lia).
    unfold give_bucket at 3. cbn [fst snd].
    assert (len (take (Z.to_nat count) (drop (Z.to_nat idx) parts)) = count) as ->
      by (unfold len in *; rewrite length_take, length_drop; lia).
    destruct (count >? 0) eqn:E; zbool; [done | lia].
Qed.

Lemma assignRange_fair topic parts members bm :
  members <> [] -> NoDup members ->
  exists bm' share, assignRange topic parts members bm = Ok bm' /\
    fair_assignment topic parts members bm bm' share.
Proof.
  intros Hne Hn. unfold assignRange. set (n := len members).
  assert (0 < n) by (unfold n; destruct members; [done | rewrite len_cons; pose proof (len_nonneg members); lia]).
  destruct (Z.eqb_spec n 0); [lia|].
  pose proof (Z.mod_pos_bound (len parts) n ltac:(lia)). pose proof (Z.div_mod (len parts) n ltac:(lia)).
  pose proof (len_nonneg parts). assert (0 <= len parts / n) by (apply Z.div_pos; lia).
  assert (Hlen : n = Z.of_nat (length members)) by done.
  rewrite range_loop_cut by (rewrite <- ?Hlen; nia). change (Z.to_nat 0) with O. rewrite drop_0.
  destruct (cut_spec (length members) (len parts / n) (len parts mod n) 0 parts) as [Hcat Hall]; try nia.
  eexists _, _. split; [reflexivity|]. apply hand_out_fair; [done | apply length_cut|]. split; [by rewrite Hcat|].
  intros c d Hc Hd. rewrite Forall_forall in Hall. pose proof (Hall c Hc). pose proof (Hall d Hd). lia.
Qed.

(** * Round-robin *)

Lemma concat_alter (p : Z) j (buckets : list (list Z)) :
  (j < length buckets)%nat -> concat (alter (fun b => b ++ [p]) j buckets) ≡ₚ concat buckets ++ [p].
Proof.
  revert j. induction buckets as [|b buckets IH]; intros j Hj; cbn [length] in Hj; [lia|].
  destruct j as [|j]; cbn [concat].
  - change (alter (fun b => b ++ [p]) 0%nat (b :: buckets)) with ((b ++ [p]) :: buckets). cbn [concat].
    rewrite <- !app_assoc. apply Permutation_app_head. apply Permutation_app_comm.
  - change (alter (fun b => b ++ [p]) (S j) (b :: buckets)) with (b :: alter (fun b => b ++ [p]) j buckets).
    cbn [concat]. rewrite IH by lia. by rewrite app_assoc.
Qed.

(** After [k] partitions bucket [j] has [k / n] of them, one more for the first [k mod n]. *)
Definition rr_len (n k j : nat) : nat := (k / n + (if j <? k mod n then 1 else 0))%nat.

Lemma rr_len_step n k j : (0 < n)%nat -> (j < n)%nat ->
  rr_len n (S k) j = (rr_len n k j + (if decide (j = k mod n) then 1 else 0))%nat.
Proof.
  intros Hn Hj. unfold rr_len.
  pose proof (Nat.div_mod_eq k n) as E. pose proof (Nat.mod_upper_bound k n ltac:(lia)) as Hm.
  destruct (decide (S (k mod n) = n)) as [Hw|Hw].
  - assert (S k / n = S (k / n))%nat as -> by (symmetry; apply (Nat.div_unique _ _ _ 0); lia).
    assert (S k mod n = 0)%nat as -> by (symmetry; apply (Nat.mod_unique _ _ (S (k / n))); lia).
    destruct (Nat.ltb_spec j 0), (Nat.ltb_spec j (k mod n)); repeat case_decide; lia.
  - assert (S k / n = k / n)%nat as -> by (symmetry; apply (Nat.div_unique _ _ _ (S (k mod n))); lia).
    assert (S k mod n = S (k mod n))%nat as -> by (symmetry; apply (Nat.mod_unique _ _ (k / n)); lia).
    destruct (Nat.ltb_spec j (S (k mod n))), (Nat.ltb_spec j (k mod n)); repeat case_decide; lia.
Qed.

Lemma rr_buckets_spec n k parts buckets :
  (0 < n)%nat -> length buckets = n ->
  (forall j b, buckets !! j = Some b -> length b = rr_len n k j) ->
  length (rr_buckets n k parts buckets) = n /\
  concat (rr_buckets n k parts buckets) ≡ₚ concat buckets ++ parts /\
  (forall j b, rr_buckets n k parts buckets !! j = Some b -> length b = rr_len n (k + length parts) j).
Proof.
  intros Hn. revert k buckets. induction parts as [|p parts IH]; intros k buckets Hl Hb; cbn [rr_buckets length].
  - rewrite app_nil_r, Nat.add_0_r. done.
  - pose proof (Nat.mod_upper_bound k n ltac:(lia)) as Hm.
    destruct (IH (S k) (alter (fun b => b ++ [p]) (k mod n)%nat buckets)) as (H1 & H2 & H3).
    { by rewrite length_alter. }
    { intros j b Hj. assert (j < n)%nat by (apply lookup_lt_Some in Hj; rewrite length_alter in Hj; lia).
      rewrite rr_len_step by done. destruct (decide (j = k mod n)%nat) as [-> | Hne].
      - rewrite list_lookup_alter_eq in Hj. destruct (buckets !! (k mod n)%nat) as [b0|] eqn:E; [|done].
        injection Hj as <-. rewrite length_app, (Hb _ _ E). cbn. lia.
      - rewrite list_lookup_alter_ne in Hj by done. rewrite (Hb _ _ Hj). lia. }
    split; [done|]. split.
    + rewrite H2, concat_alter by lia. by rewrite <- app_assoc.
    + intros j b Hj. rewrite (H3 j b Hj). f_equal. lia.
Qed.

Lemma assignRoundRobin_fair topic parts members bm :
  members <> [] -> NoDup members ->
  exists bm' share, assignRoundRobin topic parts members bm = Ok bm' /\
    fair_assignment topic parts members bm bm' share.
Proof.
  intros Hne Hn. unfold assignRoundRobin. set (n := length members).
  assert (0 < n)%nat as Hpos by (unfold n; destruct members; [done | cbn; lia]).
  destruct (Z.eqb_spec (len members) 0); [unfold len in *; lia|].
  destruct (rr_buckets_spec n 0 parts (repeat [] n)) as (H1 & H2 & H3).
  { done. }
  { apply repeat_length. }
  { intros j b Hj. unfold rr_len. rewrite Nat.Div0.div_0_l, Nat.Div0.mod_0_l.
    apply list_elem_of_lookup_2, list_elem_of_In, repeat_spec in Hj as ->. done. }
  eexists _, _. split; [reflexivity|]. apply hand_out_fair; [done | done|].
  assert (Hnil : concat (repeat (@nil Z) n) = []) by (clear; induction n; cbn; done).
  split; [rewrite H2, Hnil; done|].
  intros c d [j Hj]%list_elem_of_lookup_1 [j' Hj']%list_elem_of_lookup_1.
  unfold len. rewrite (H3 _ _ Hj), (H3 _ _ Hj'). unfold rr_len.
  destruct (Nat.ltb_spec j ((0 + length parts) mod n)), (Nat.ltb_spec j' ((0 + length parts) mod n)); lia.
Qed.

(** * Sticky *)

Definition cnt (counts : gmap bytes Z) (m : bytes) : Z := default 0 (counts !! m).

(** The member picked has the smallest count. *)
Lemma pick_fold counts members best :
  snd best = cnt counts (fst best) ->
  let r := fold_left (pick_step counts) members best in
  snd r = cnt counts (fst r) /\ (fst r = fst best \/ fst r ∈ members) /\
  snd r <= snd best /\ forall m, m ∈ members -> snd r <= cnt counts m.
Proof.
  revert best. induction members as [|m members IH]; intros best Hb; cbn [fold_left].
  - split; [done|]. split; [by left|]. split; [lia|]. by intros m Hm%not_elem_of_nil.
  - assert (Hstep : let b := pick_step counts best m in
      snd b = cnt counts (fst b) /\ (fst b = fst best \/ fst b = m) /\ snd b <= snd best /\ snd b <= cnt counts m).
    { cbn zeta. unfold pick_step. fold (cnt counts m). destruct (_ || _) eqn:E; cbn [fst snd].
      - split; [done|]. split; [by right|]. zbool. destruct E; zbool; lia.
      - zbool. split; [done|]. split; [by left|]. lia. }
    cbn zeta in Hstep. destruct Hstep as (H1 & H2 & H3 & H4).
    destruct (IH _ H1) as (I1 & I2 & I3 & I4). split; [done|]. split; [|split; [lia|]].
    { destruct I2 as [->|Hin]; [|right; by right]. destruct H2 as [->| ->]; [by left | right; by left]. }
    intros x [->|Hx]%elem_of_cons; [lia | by apply I4].
Qed.

Lemma pick_min counts members : members <> [] ->
  exists best, stickyPickMember counts members = Ok best /\ best ∈ members /\
    forall m, m ∈ members -> cnt counts best <= cnt counts m.
Proof.
  intros Hne. destruct members as [|m0 members]; [done|]. unfold stickyPickMember.
  change (index (m0 :: members) 0) with (Ok m0). cbn [res_bind tail].
  destruct (pick_fold counts members (m0, cnt counts m0) eq_refl) as (H1 & H2 & H3 & H4).
  cbn [fst snd] in *. fold (cnt counts m0). eexists. split; [reflexivity|]. split; [destruct H2 as [-> | ?]; [by left | by right]|].
  intros m [->|Hm]%elem_of_cons; rewrite <- H1; [done | by apply H4].
Qed.

(** Giving one more partition to one of distinct members. *)
Lemma concat_map_cons (ex : bytes -> list Z) best p members :
  NoDup members -> best ∈ members ->
  concat (map (fun m => if decide (m = best) then p :: ex m else ex m) members) ≡ₚ p :: concat (map ex members).
Proof.
  intros Hn. induction Hn as [|m members Hm Hn IH]; intros Hb; [by apply not_elem_of_nil in Hb|].
  cbn [map concat]. destruct (decide (m = best)) as [->|Hne].
  - cbn [app]. constructor. apply reflexive_eq. f_equal. f_equal. apply map_ext_in.
    intros x Hx%list_elem_of_In. rewrite decide_False; [done|]. by intros ->.
  - rewrite IH by set_solver. rewrite Permutation_middle. done.
Qed.

Lemma sticky_loop_fair topic parts members counts bm :
  members <> [] -> NoDup members ->
  (forall m n, m ∈ members -> n ∈ members -> cnt counts m <= cnt counts n + 1) ->
  exists bm' share, sticky_loop topic parts members counts bm = Ok bm' /\
    (forall mid t, assigned bm' mid t = assigned bm mid t ++ (if decide (t = topic) then share mid else [])) /\
    (forall mid, mid ∉ members -> share mid = [] /\ bm' !! mid = bm !! mid) /\
    (forall mid, is_Some (bm !! mid) -> is_Some (bm' !! mid)) /\
    (entries_ok bm -> entries_ok bm') /\
    concat (map share members) ≡ₚ parts /\
    forall m n, m ∈ members -> n ∈ members ->
      cnt counts m + len (share m) <= cnt counts n + len (share n) + 1.
Proof.
  intros Hne Hn. revert counts bm. induction parts as [|p parts IH]; intros counts bm Hbal; cbn [sticky_loop].
  - exists bm, (fun _ => []). split; [done|]. split; [intros; case_decide; by rewrite app_nil_r|].
    split; [done|]. split; [done|]. split; [done|]. split; [clear; induction members; done|].
    intros m n Hm Hm'. rewrite len_nil, !Z.add_0_r. by apply Hbal.
  - destruct (pick_min counts members Hne) as (best & -> & Hbest & Hmin). cbn [res_bind]. fold (cnt counts best).
    assert (Hcnt : forall m, cnt (<[best := cnt counts best + 1]> counts) m =
      cnt counts m + (if decide (m = best) then 1 else 0)).
    { intros m. unfold cnt. case_decide as Hm; [subst; by rewrite lookup_insert_eq|].
      rewrite lookup_insert_ne by done. lia. }
    destruct (IH (<[best := cnt counts best + 1]> counts) (appendTopicParts bm best topic [p]))
      as (bm' & ex & Hrun & Hass & Hout & Hkeep & Hent & Hperm & Hfair).
    { intros m n Hm Hm'. rewrite !Hcnt. pose proof (Hbal m n Hm Hm'). pose proof (Hmin n Hm'). repeat case_decide; subst; lia. }
    exists bm', (fun m => if decide (m = best) then p :: ex m else ex m). split; [done|]. split.
    { intros mid t. rewrite Hass, assigned_append, <- app_assoc. f_equal.
      destruct (decide (t = topic)) as [Ht|Ht].
      - destruct (decide (mid = best)) as [Hm|Hm]; [by rewrite decide_True | by rewrite decide_False by naive_solver].
      - by rewrite decide_False by naive_solver. }
    split.
    { intros mid Hm. destruct (Hout mid Hm) as [H1 H2]. rewrite decide_False by (intros ->; done). split; [done|].
      rewrite H2. unfold appendTopicParts. rewrite lookup_insert_ne; [done|]. by intros ->. }
    split.
    { intros mid Hs. apply Hkeep. unfold appendTopicParts.
      destruct (decide (mid = best)) as [->|Hm]; [rewrite lookup_insert_eq; eauto | by rewrite lookup_insert_ne]. }
    split; [intros; by apply Hent, entries_append|].
    split; [by rewrite concat_map_cons, Hperm|].
    intros m n Hm Hm'. specialize (Hfair m n Hm Hm'). rewrite !Hcnt in Hfair.
    repeat case_decide; rewrite ?len_cons; lia.
Qed.

Lemma counts_fold bm topic members c0 m :
  cnt (fold_left (fun (c : gmap bytes Z) mid =>
    <[mid := stickyTopicCount (default [] (bm !! mid)) topic]> c) members c0) m =
  if decide (m ∈ members) then len (assigned bm m topic) else cnt c0 m.
Proof.
  revert c0. induction members as [|x members IH]; intros c0; cbn [fold_left].
  - by rewrite decide_False by apply not_elem_of_nil.
  - rewrite IH. repeat case_decide; try done; try set_solver.
    + assert (m = x) as -> by set_solver. unfold cnt. by rewrite lookup_insert_eq.
    + unfold cnt. by rewrite lookup_insert_ne by set_solver.
Qed.

Lemma assignSticky_fair topic parts members bm :
  members <> [] -> NoDup members -> (forall m, assigned bm m topic = []) ->
  exists bm' share, assignSticky topic parts members bm = Ok bm' /\
    fair_assignment topic parts members bm bm' share.
Proof.
  intros Hne Hn H0. unfold assignSticky.
  destruct (Z.eqb_spec (len members) 0) as [Hz|_]; [by apply len_zero in Hz|].
  destruct (sticky_loop_fair topic (sort_parts parts) members (fold_left (fun (c : gmap bytes Z) mid =>
    <[mid := stickyTopicCount (default [] (bm !! mid)) topic]> c) members ∅) bm Hne Hn)
    as (bm' & share & Hrun & Ha & Ho & Hk & He & Hp & Hb).
  { intros m n Hm Hm'. rewrite !counts_fold, !decide_True, !H0 by done. lia. }
  exists bm', share. split; [done|]. split; try done.
  - rewrite Hp. apply merge_sort_Permutation.
  - intros m n Hm Hm'. specialize (Hb m n Hm Hm'). rewrite !counts_fold, !decide_True, !H0 in Hb by done. lia.
Qed.

Lemma assign_topic_fair protocolName topic parts members bm :
  members <> [] -> NoDup members -> (forall m, assigned bm m topic = []) ->
  exists bm' share, assign_topic protocolName topic parts members bm = Ok bm' /\
    fair_assignment topic parts members bm bm' share.
Proof.
  intros Hne Hn H0. unfold assign_topic. case_bool_decide; [by apply assignRoundRobin_fair|].
  destruct (_ || _); [by apply assignSticky_fair | by apply assignRange_fair].
Qed.

(** Every assignor is fair on a topic: run on distinct members that hold
    nothing of it yet, the range, round-robin and sticky assignors all return,
    hand every partition to exactly one of the members and to no one else,
    leave the members' other topics alone, and give shares whose sizes differ
    by at most one. *)
Theorem assignors_fair protocolName topic parts members bm :
  members <> [] -> NoDup members -> (forall m, assigned bm m topic = []) ->
  exists bm' share, assign_topic protocolName topic parts members bm = Ok bm' /\
    fair_assignment topic parts members bm bm' share.
Proof. apply assign_topic_fair. Qed.

Lemma assignors_fair_witness :
  exists bm' share, assign_topic (str "range") (str "t") [0; 1; 2] [str "a"; str "b"] ∅ = Ok bm' /\
    fair_assignment (str "t") [0; 1; 2] [str "a"; str "b"] ∅ bm' share.
Proof.
  apply assignors_fair.
  - discriminate.
  - apply NoDup_cons; split; [|apply NoDup_singleton]. intros Hin. apply list_elem_of_singleton in Hin. discriminate.
  - intros m. unfold assigned. rewrite lookup_empty. reflexivity.
Defined.

(** * The leader's computation *)

(** The members subscribed to a topic, in the order of the members. *)
Definition subscribers (members : list MemberSubscription) (t : bytes) : list bytes :=
  map fst (filter (fun mt => snd mt = t) (subscriptions members)).

Lemma subscribe_lookup m mt t :
  subscribe m mt !! t = if decide (snd mt = t) then Some (default [] (m !! t) ++ [fst mt]) else m !! t.
Proof.
  unfold subscribe. case_decide as Ht; [subst; apply lookup_insert_eq | by rewrite lookup_insert_ne].
Qed.

Lemma topic_members_lookup members t :
  topic_members members !! t = (if decide (subscribers members t = []) then None else Some (subscribers members t)).
Proof.
  unfold topic_members, subscribers. generalize (subscriptions members). intros subs.
  induction subs as [|mt subs IH] using rev_ind; [done|].
  rewrite fold_left_app. cbn [fold_left]. rewrite filter_app, map_app, subscribe_lookup, IH.
  destruct (decide (snd mt = t)) as [Ht|Ht].
  - rewrite (filter_cons_True _ mt) by done. cbn [filter list_filter map].
    rewrite (decide_False (P := _ ++ _ = [])) by by destruct (map fst _).
    case_decide as E; cbn [default]; [by rewrite E | done].
  - rewrite (filter_cons_False _ mt) by done. cbn [filter list_filter map]. by rewrite app_nil_r.
Qed.

Lemma subscribers_elem members t mid :
  mid ∈ subscribers members t <-> exists m, m ∈ members /\ ms_MemberID m = mid /\ t ∈ ms_Topics m.
Proof.
  unfold subscribers, subscriptions. split.
  - intros ([x y] & Hx & [Hy Hin]%list_elem_of_filter)%list_elem_of_fmap_1. cbn in Hx, Hy. subst.
    apply list_elem_of_In, in_concat in Hin as (l & Hl & Hin).
    apply in_map_iff in Hl as (m & <- & Hm). apply in_map_iff in Hin as (t' & [= <- <-] & Ht').
    exists m. by rewrite !list_elem_of_In.
  - intros (m & Hm & <- & Ht). apply (list_elem_of_fmap_2' _ _ (ms_MemberID m, t)); [|done].
    apply list_elem_of_filter. split; [done|]. apply list_elem_of_In, in_concat.
    exists (map (fun t => (ms_MemberID m, t)) (ms_Topics m)). split.
    + apply in_map_iff. exists m. by rewrite <- list_elem_of_In.
    + apply in_map_iff. exists t. by rewrite <- list_elem_of_In.
Qed.

Lemma subscribers_nodup members t :
  NoDup (map ms_MemberID members) -> Forall (fun m => NoDup (ms_Topics m)) members ->
  NoDup (subscribers members t).
Proof.
  unfold subscribers. induction members as [|m members IH]; intros Hn Ht; [constructor|].
  cbn [map] in Hn. apply NoDup_cons in Hn as [Hm Hn]. apply Forall_cons in Ht as [Htm Ht].
  assert (subscriptions (m :: members) = map (fun t => (ms_MemberID m, t)) (ms_Topics m) ++ subscriptions members) as ->
    by done. rewrite filter_app, map_app. apply NoDup_app. split; [|split; [|by apply IH]].
  - assert (Hle : forall l, NoDup l ->
      map fst (filter (fun mt : bytes * bytes => snd mt = t) (map (fun t => (ms_MemberID m, t)) l)) = [] \/
      map fst (filter (fun mt : bytes * bytes => snd mt = t) (map (fun t => (ms_MemberID m, t)) l)) = [ms_MemberID m]).
    { intros l Hl. induction Hl as [|x l Hx Hl IHl]; [by left|]. cbn [map].
      destruct (decide (x = t)) as [->|Hne].
      - rewrite filter_cons_True by done. right. cbn [map fst]. f_equal.
        destruct IHl as [Hnil|H1]; [done|]. exfalso. apply Hx. clear IH Hn Ht Hm Htm.
        assert (ms_MemberID m ∈ map fst (filter (fun mt : bytes * bytes => snd mt = t) (map (fun t => (ms_MemberID m, t)) l)))
          as Hin by (rewrite H1; by left).
        apply list_elem_of_fmap_1 in Hin as ([a b] & _ & [Hb Hin]%list_elem_of_filter).
        apply list_elem_of_In, in_map_iff in Hin as (y & [= <- <-] & Hy). cbn in Hb. subst. by apply list_elem_of_In.
      - by rewrite filter_cons_False. }
    destruct (Hle _ Htm) as [-> | ->]; [constructor | apply NoDup_singleton].
  - intros x ([a b] & -> & [_ Hin]%list_elem_of_filter)%list_elem_of_fmap_1 Hx. cbn [fst] in Hx.
    apply list_elem_of_In, in_map_iff in Hin as (y & [= <- <-] & _).
    fold (subscribers members t) in Hx. apply subscribers_elem in Hx as (m' & Hm' & Heq & _).
    apply Hm. rewrite <- Heq. by apply list_elem_of_fmap_2.
Qed.

Lemma concat_map_perm {A B} (f : A -> list B) l l' : l ≡ₚ l' -> concat (map f l) ≡ₚ concat (map f l').
Proof.
  induction 1 as [|x l l' _ IH|x y l|l1 l2 l3 _ IH1 _ IH2]; cbn [map concat].
  - done.
  - by rewrite IH.
  - rewrite !app_assoc. apply Permutation_app_tail, Permutation_app_comm.
  - by rewrite IH1.
Qed.

(** The outcome for one topic. *)
Record topic_outcome (bm : assignment_map) (mids : list bytes) (parts : list Z) (t : bytes) : Prop := mkOutcome {
  to_once : concat (map (fun m => assigned bm m t) mids) ≡ₚ parts;
  to_only m : m ∉ mids -> assigned bm m t = [];
  to_balance m n : m ∈ mids -> n ∈ mids -> len (assigned bm m t) <= len (assigned bm n t) + 1 }.

(** One step of the loop over the topics. *)
Lemma assign_step_spec protocolName tps bm t mids :
  mids <> [] -> NoDup mids -> (forall m, assigned bm m t = []) ->
  exists bm', assign_step protocolName tps (Ok bm) (t, mids) = Ok bm' /\
    topic_outcome bm' mids (default [] (tps !! t)) t /\
    (forall m t', t' <> t -> assigned bm' m t' = assigned bm m t') /\
    (forall m, is_Some (bm !! m) -> is_Some (bm' !! m)) /\
    (forall m, m ∉ mids -> bm' !! m = bm !! m) /\
    (entries_ok bm -> entries_ok bm').
Proof.
  intros Hne Hn H0. unfold assign_step. cbn [res_bind fst snd]. set (parts := default [] (tps !! t)).
  destruct (Z.eqb_spec (len parts) 0) as [Hz|Hz].
  - apply len_zero in Hz. rewrite Hz. exists bm. split; [done|]. split; [|done].
    split; [|by intros; apply H0|intros; rewrite !H0; lia].
    assert (map (fun m => assigned bm m t) mids = map (fun _ => []) mids) as -> by (apply map_ext; intros; apply H0).
    clear. induction mids; done.
  - pose proof (merge_sort_Permutation str_le mids) as Hp.
    assert (Hel : forall m, m ∈ merge_sort str_le mids <-> m ∈ mids) by (intros m; by rewrite Hp).
    destruct (assign_topic_fair protocolName t (sort_parts parts) (merge_sort str_le mids) bm)
      as (bm' & share & Hrun & [Ha Ho Hk He Hc Hb]).
    { intros Hnil. rewrite Hnil in Hp. by apply Permutation_nil_l in Hp. }
    { by rewrite Hp. }
    { done. }
    exists bm'. split; [done|].
    assert (Hs : forall m, assigned bm' m t = share m).
    { intros m. by rewrite Ha, H0, decide_True. }
    split; [split|split; [|split; [|split]]]; try done.
    + rewrite <- (merge_sort_Permutation Z.le parts). fold (sort_parts parts). rewrite <- Hc.
      rewrite (concat_map_perm share _ _ Hp). apply reflexive_eq. f_equal. apply map_ext. done.
    + intros m Hm. rewrite Hs. apply Ho. by rewrite Hel.
    + intros m n Hm Hm'. rewrite !Hs. apply Hb; by rewrite Hel.
    + intros m t' Ht'. by rewrite Ha, decide_False, app_nil_r.
    + intros m Hm. apply Ho. by rewrite Hel.
Qed.

(** The loop over the topics, each visited once. *)
Lemma assign_fold protocolName tps tms bm :
  NoDup (map fst tms) -> Forall (fun tm => snd tm <> [] /\ NoDup (snd tm)) tms ->
  (forall t m, t ∈ map fst tms -> assigned bm m t = []) ->
  exists bm', fold_left (assign_step protocolName tps) tms (Ok bm) = Ok bm' /\
    (forall tm, tm ∈ tms -> topic_outcome bm' (snd tm) (default [] (tps !! fst tm)) (fst tm)) /\
    (forall m t, t ∉ map fst tms -> assigned bm' m t = assigned bm m t) /\
    (forall m, is_Some (bm !! m) -> is_Some (bm' !! m)) /\
    (forall m, (forall tm, tm ∈ tms -> m ∉ snd tm) -> bm' !! m = bm !! m) /\
    (entries_ok bm -> entries_ok bm').
Proof.
  revert bm. induction tms as [|[t mids] tms IH]; intros bm Hn Hw H0; cbn [fold_left].
  - exists bm. split; [done|]. split; [|done]. by intros tm Hx%not_elem_of_nil.
  - cbn [map fst] in Hn. apply NoDup_cons in Hn as [Ht Hn]. apply Forall_cons in Hw as [[Hne Hnd] Hw].
    destruct (assign_step_spec protocolName tps bm t mids Hne Hnd) as (bm1 & -> & Hout & Hoth & Hk & Hmem & He).
    { intros m. apply H0. cbn. left. }
    destruct (IH bm1 Hn Hw) as (bm' & Hrun & Hall & Hrest & Hk' & Hmem' & He').
    { intros t' m Ht'. rewrite Hoth; [apply H0; by right|]. by intros ->. }
    exists bm'. split; [done|]. split; [|split; [|split; [|split]]].
    + intros tm [->|Htm]%elem_of_cons; [|by apply Hall]. cbn [fst snd].
      assert (Heq : forall m, assigned bm' m t = assigned bm1 m t) by (intros m; by apply Hrest).
      destruct Hout as [Ho1 Ho2 Ho3]. split.
      * rewrite <- Ho1. apply reflexive_eq. f_equal. apply map_ext. done.
      * intros m Hm. rewrite Heq. by apply Ho2.
      * intros m n Hm Hm'. rewrite !Heq. by apply Ho3.
    + intros m t' Ht'. cbn [map fst] in Ht'. rewrite Hrest by set_solver. apply Hoth. set_solver.
    + intros m Hs. by apply Hk', Hk.
    + intros m Hm. rewrite Hmem'; [apply Hmem; apply (Hm (t, mids)); left|]. intros tm Htm. apply Hm. by right.
    + intros Hs. by apply He', He.
Qed.

Lemma init_members sorted bm m :
  let bm' := fold_left (fun (bm : assignment_map) m => <[ms_MemberID m := []]> bm) sorted bm in
  bm' !! m = if decide (m ∈ map ms_MemberID sorted) then Some [] else bm !! m.
Proof.
  cbn zeta. revert bm. induction sorted as [|x l IH]; intros bm; cbn [fold_left map].
  - by rewrite decide_False by apply not_elem_of_nil.
  - rewrite IH. destruct (decide (m = ms_MemberID x)) as [->|Hne].
    + rewrite lookup_insert_eq. rewrite (decide_True (P := _ ∈ _ :: _)) by left. by case_decide.
    + rewrite lookup_insert_ne by done. repeat case_decide; try done; set_solver.
Qed.

Lemma subscribers_perm members members' t :
  members ≡ₚ members' -> subscribers members t ≡ₚ subscribers members' t.
Proof.
  intros Hp. unfold subscribers, subscriptions.
  apply (fmap_Permutation fst). apply filter_Permutation.
  apply (concat_map_perm (fun m => map (fun t => (ms_MemberID m, t)) (ms_Topics m)) _ _ Hp).
Qed.

(** C33: The group leader's assignment is a partition of the work.  For distinct
    members with duplicate-free subscriptions, whatever the order in which the
    topic map is ranged over and for each of the three protocols,
    [ComputeGroupAssignments] returns, and its result gives every partition of
    every subscribed topic to exactly one of the topic's subscribers (so the
    subscribers' shares together are the topic's partitions), nothing of a
    topic to a member that does not subscribe to it, shares of a topic that
    differ by at most one partition, one entry per topic, and an assignment to
    every member and to nobody else. *)
Theorem group_assignment_exact `{MapOrder} protocolName members tps :
  members <> [] -> NoDup (map ms_MemberID members) -> Forall (fun m => NoDup (ms_Topics m)) members ->
  exists bm, compute_assignments protocolName members tps = Ok bm /\
    ComputeGroupAssignments protocolName members tps = Ok (EncodeMemberAssignment <$> bm) /\
    (forall t, topic_outcome bm (subscribers members t)
       (if decide (subscribers members t = []) then [] else default [] (tps !! t)) t) /\
    (forall m, is_Some (bm !! m) <-> m ∈ map ms_MemberID members) /\ entries_ok bm.
Proof.
  intros Hne Hn Ht. set (sorted := merge_sort member_le members).
  assert (Hp : sorted ≡ₚ members) by apply merge_sort_Permutation.
  assert (Hn' : NoDup (map ms_MemberID sorted)) by (by rewrite (fmap_Permutation ms_MemberID _ _ Hp)).
  assert (Ht' : Forall (fun m => NoDup (ms_Topics m)) sorted) by (by rewrite Hp).
  set (bm0 := fold_left (fun (bm : assignment_map) m => <[ms_MemberID m := []]> bm) sorted ∅).
  assert (H0 : forall m t, assigned bm0 m t = []).
  { intros m t. unfold assigned, bm0. rewrite init_members. by case_decide. }
  assert (Hrange : forall t mids, (t, mids) ∈ range (topic_members sorted) <->
    mids = subscribers sorted t /\ subscribers sorted t <> []).
  { intros t mids. rewrite range_perm, elem_of_map_to_list, topic_members_lookup. case_decide; naive_solver. }
  destruct (assign_fold protocolName tps (range (topic_members sorted)) bm0) as (bm & Hrun & Hall & Hrest & Hk & Hmem & He).
  { rewrite (fmap_Permutation fst _ _ (range_perm _)). apply NoDup_fst_map_to_list. }
  { apply Forall_forall. intros [t mids] [-> Hs]%Hrange. split; [done | by apply subscribers_nodup]. }
  { intros t m _. apply H0. }
  exists bm. split; [done|]. split; [|split; [|split]].
  - unfold ComputeGroupAssignments. destruct (Z.eqb_spec (len members) 0) as [Hz|_]; [by apply len_zero in Hz|].
    unfold compute_assignments. fold sorted. fold bm0. by rewrite Hrun.
  - intros t. pose proof (subscribers_perm _ _ t Hp) as Hsp. destruct (decide (subscribers sorted t = [])) as [Hnil|Hs].
    + rewrite Hnil in Hsp. apply Permutation_nil_l in Hsp. rewrite <- Hsp.
      assert (Hx : forall m, assigned bm m t = []).
      { intros m. rewrite Hrest, H0; [done|]. intros ([t' mids] & -> & Hin)%list_elem_of_fmap_1. cbn in *.
        by apply Hrange in Hin as [_ Hin]. }
      split; [done | intros; apply Hx | intros; rewrite !Hx; lia].
    + destruct (Hall (t, subscribers sorted t)) as [Ho1 Ho2 Ho3]; [by apply Hrange|]. cbn [fst snd] in *.
      rewrite decide_False by (intros Hn0; rewrite Hn0 in Hsp; by apply Permutation_nil_r in Hsp). split.
      * by rewrite <- (concat_map_perm _ _ _ Hsp).
      * intros m Hm. apply Ho2. by rewrite Hsp.
      * intros m n Hm Hm'. apply Ho3; by rewrite Hsp.
  - intros m. rewrite <- (fmap_Permutation ms_MemberID _ _ Hp : map _ _ ≡ₚ map _ _). split.
    + intros Hs. destruct (decide (m ∈ map ms_MemberID sorted)) as [|Hm]; [done|]. exfalso.
      rewrite Hmem in Hs.
      * unfold bm0 in Hs. rewrite init_members, decide_False in Hs by done. by destruct Hs.
      * intros [t mids] [-> _]%Hrange Hin. apply subscribers_elem in Hin as (x & Hx & <- & _).
        apply Hm. by apply list_elem_of_fmap_2.
    + intros Hm. apply Hk. unfold bm0. rewrite init_members, decide_True by done. eauto.
  - apply He. intros m l Hl. unfold bm0 in Hl. rewrite init_members in Hl. case_decide; [|done].
    injection Hl as <-. constructor.
Qed.

(** * Codecs *)

Definition wf_tpa (a : TopicPartitionAssignment) : Prop :=
  len (tpa_Partitions a) < 2 ^ 31 /\ Forall int32 (tpa_Partitions a).

(** Assignments survive the wire: [ParseMemberAssignment] reads back
    exactly what [EncodeMemberAssignment] wrote. *)
Theorem assignment_roundtrip assignments raw :
  EncodeMemberAssignment assignments = Ok raw -> len assignments < 2 ^ 31 -> Forall wf_tpa assignments ->
  ParseMemberAssignment raw = Ok assignments.
Proof.
  intros He Hl Hw. unfold ParseMemberAssignment.
  destruct (Z.eqb_spec (len raw) 0) as [Hz|_].
  { unfold EncodeMemberAssignment in He. apply enc_app_ok in He as (b1 & b2 & E1 & _ & ->).
    rewrite len_app in Hz. assert (len b1 = 2) as Hb by (apply (ELen_be 2 0); exact E1).
    pose proof (len_nonneg b2). lia. }
  pose proof (len_nonneg assignments).
  eapply Reads_run; [|exact He]. eapply Reads_bind; [apply Reads_int16; unfold int16; lia|]. cbn [Z.eqb orb].
  change ((0 =? 0) || (0 =? 1)) with true. cbn iota.
  eapply Reads_bind; [rewrite s32_id by (unfold int32; lia); apply Reads_int32; unfold int32; lia|]. cbn beta.
  eapply (Reads_list _ _ wf_tpa); [done | exact Hw|]. intros a (Ha & Hp). pose proof (len_nonneg (tpa_Partitions a)).
  unfold read_assignment_legacy, write_assignment. field.
  eapply Reads_bind; [rewrite s32_id by (unfold int32; lia); apply Reads_int32; unfold int32; lia|]. cbn beta.
  eapply Reads_bind_last.
  - eapply (Reads_list _ _ int32); [done | exact Hp|]. apply Reads_int32.
  - destruct a. apply Reads_ret.
Qed.

Lemma assignment_roundtrip_witness :
  ParseMemberAssignment
    (match EncodeMemberAssignment [mkTPA (str "t") [0; 2]; mkTPA (str "u") [1]] with Ok b => b | _ => [] end)
  = Ok [mkTPA (str "t") [0; 2]; mkTPA (str "u") [1]].
Proof.
  apply assignment_roundtrip.
  - vm_compute. reflexivity.
  - vm_compute. reflexivity.
  - apply Forall_cons; split; [split; [vm_compute; reflexivity | repeat constructor; vm_compute; congruence]|].
    apply Forall_cons; split; [split; [vm_compute; reflexivity | repeat constructor; vm_compute; congruence]|].
    by apply Forall_nil.
Defined.

Definition demo_members : list MemberSubscription :=
  [mkMember (str "m2") [str "t"; str "u"]; mkMember (str "m1") [str "t"]].

Lemma group_assignment_exact_witness :
  exists bm, compute_assignments (str "sticky") demo_members {[str "t" := [0; 1; 2]]} = Ok bm /\
    ComputeGroupAssignments (str "sticky") demo_members {[str "t" := [0; 1; 2]]} = Ok (EncodeMemberAssignment <$> bm) /\
    (forall t, topic_outcome bm (subscribers demo_members t)
       (if decide (subscribers demo_members t = []) then []
        else default [] (({[str "t" := [0; 1; 2]]} : gmap bytes (list Z)) !! t)) t) /\
    (forall m, is_Some (bm !! m) <-> m ∈ map ms_MemberID demo_members) /\ entries_ok bm.
Proof.
  apply group_assignment_exact.
  - discriminate.
  - apply (bool_decide_unpack _). vm_compute. exact I.
  - apply Forall_cons; split; [apply (bool_decide_unpack _); vm_compute; exact I|].
    apply Forall_cons; split; [apply (bool_decide_unpack _); vm_compute; exact I | by apply Forall_nil].
Defined.

(** Shares of a concrete run. *)
Example sticky_demo :
  (let? bm := compute_assignments (str "sticky") demo_members {[str "t" := [2; 0; 1]]} in
   Ok (assigned bm (str "m1") (str "t"), assigned bm (str "m2") (str "t"), assigned bm (str "m2") (str "u")))
  = Ok ([0; 2], [1], []).
Proof. vm_compute. reflexivity. Qed.
