(* ===== verification/Metadata.v ===== *)
(** Cluster metadata: the Metadata codec of [internal/protocol/metadata.go]
    and the metadata cache of [internal/broker/cluster.go] (leader index,
    leader epochs, topic ids). *)

From Stdlib Require Import ZArith Lia.
From Stdlib Require Import Strings.Byte.
From stdpp Require Import base list gmap countable strings.
From S2P Require Import Prelude.
From S2P Require Import Wire.

Open Scope Z_scope.

(** [protocol.Broker], the address of a broker. *)
Record BrokerMeta := mkBrokerMeta { bm_NodeID : Z; bm_Host : bytes; bm_Port : Z; bm_Rack : bytes }.

Record PartitionMeta := mkPartitionMeta {
  pm_Topic : bytes;
  pm_Partition : Z;
  pm_Leader : Z;
  pm_LeaderEpoch : Z;
  pm_Replicas : list Z;
  pm_ISR : list Z;
  pm_OfflineRepl : list Z;
  pm_ErrorCode : Z }.

Record TopicMeta := mkTopicMeta {
  tm_Name : bytes;
  tm_TopicID : bytes;
  tm_Partitions : list PartitionMeta;
  tm_ErrorCode : Z }.

Record MetadataResponse := mkMetadata {
  md_Brokers : list BrokerMeta;
  md_Controller : Z;
  md_ClusterID : bytes;
  md_Topics : list TopicMeta }.

Definition zero_uuid : bytes := repeat x00 16.

(** * Requests *)

(** [topics] is [None] for a nil slice: all topics. *)
Definition encodeMetadataRequestLegacy (topics : option (list bytes)) : Enc :=
  (match topics with
   | None => WriteInt32 (-1)
   | Some ts => WriteInt32 (s32 (len ts)) +++ enc_list WriteString ts
   end) +++
  WriteBool true +++ WriteBool false +++ WriteBool false.

Definition encodeMetadataRequestFlex (version : Z) (topics : option (list bytes)) : Enc :=
  (match topics with
   | None => WriteUvarint 0
   | Some ts =>
       WriteCompactArrayLen (len ts) +++
       enc_list (fun t =>
         (if version >=? 10 then WriteUUID zero_uuid +++ WriteCompactNullableString (Some t)
          else WriteCompactString t) +++ WriteEmptyTagSection) ts
   end) +++
  WriteBool true +++
  (if version <=? 10 then WriteBool false else enc_nil) +++
  WriteBool false +++ WriteEmptyTagSection.

Definition EncodeMetadataRequest (version : Z) (topics : option (list bytes)) : Enc :=
  if version <=? 8 then encodeMetadataRequestLegacy topics else encodeMetadataRequestFlex version topics.

(** * Responses *)

Definition readCompactInt32Array : Rd (list Z) := n <- ReadUvarint ;; rd_list (n - 1) ReadInt32.
Definition readInt32Array : Rd (list Z) := n <- ReadInt32 ;; rd_list n ReadInt32.
Definition readNullableString : Rd bytes := n <- ReadInt16 ;; if n <? 0 then ret [] else rd_take n.

Definition read_broker_flex : Rd BrokerMeta :=
  nodeID <- ReadInt32 ;;
  host <- ReadCompactString ;;
  port <- ReadInt32 ;;
  rack <- ReadCompactNullableString ;;
  SkipTagSection ;;;
  ret (mkBrokerMeta nodeID host port rack).

Definition read_partition_flex (version : Z) (name : bytes) : Rd PartitionMeta :=
  pErr <- ReadInt16 ;;
  partID <- ReadInt32 ;;
  leader <- ReadInt32 ;;
  leaderEpoch <- (if version >=? 7 then ReadInt32 else ret (-1)) ;;
  replicas <- readCompactInt32Array ;;
  isr <- readCompactInt32Array ;;
  offline <- readCompactInt32Array ;;
  SkipTagSection ;;;
  ret (mkPartitionMeta name partID leader leaderEpoch replicas isr offline pErr).

Definition read_topic_flex (version : Z) : Rd TopicMeta :=
  errCode <- ReadInt16 ;;
  name <- (if version >=? 12 then ReadCompactNullableString else ReadCompactString) ;;
  topicID <- (if version >=? 10 then ReadUUID else ret zero_uuid) ;;
  ReadBool ;;;
  nParts <- ReadUvarint ;;
  parts <- rd_list (nParts - 1) (read_partition_flex version name) ;;
  (if version >=? 8 then (ReadInt32 ;;; ret tt) else ret tt) ;;;
  SkipTagSection ;;;
  ret (mkTopicMeta name topicID parts errCode).

Definition decodeMetadataResponseFlex (version : Z) : Rd MetadataResponse :=
  ReadInt32 ;;;
  nBrokers <- ReadUvarint ;;
  brokers <- rd_list (nBrokers - 1) read_broker_flex ;;
  clusterID <- ReadCompactNullableString ;;
  controller <- ReadInt32 ;;
  nTopics <- ReadUvarint ;;
  topics <- rd_list (nTopics - 1) (read_topic_flex version) ;;
  (if (version >=? 8) && (version <=? 10) then (ReadInt32 ;;; ret tt) else ret tt) ;;;
  (if version >=? 13 then (ReadInt16 ;;; ret tt) else ret tt) ;;;
  SkipTagSection ;;;
  ret (mkMetadata brokers controller clusterID topics).

Definition read_broker_legacy : Rd BrokerMeta :=
  nodeID <- ReadInt32 ;;
  host <- ReadString ;;
  port <- ReadInt32 ;;
  rack <- readNullableString ;;
  ret (mkBrokerMeta nodeID host port rack).

Definition read_partition_legacy (name : bytes) : Rd PartitionMeta :=
  pErr <- ReadInt16 ;;
  partID <- ReadInt32 ;;
  leader <- ReadInt32 ;;
  leaderEpoch <- ReadInt32 ;;
  replicas <- readInt32Array ;;
  isr <- readInt32Array ;;
  offline <- readInt32Array ;;
  ret (mkPartitionMeta name partID leader leaderEpoch replicas isr offline pErr).

Definition read_topic_legacy : Rd TopicMeta :=
  errCode <- ReadInt16 ;;
  name <- ReadString ;;
  ReadBool ;;;
  nParts <- ReadInt32 ;;
  parts <- rd_list nParts (read_partition_legacy name) ;;
  ignore_err ReadInt32 ;;;
  ret (mkTopicMeta name zero_uuid parts errCode).

Definition decodeMetadataResponseLegacy : Rd MetadataResponse :=
  ReadInt32 ;;;
  nBrokers <- ReadInt32 ;;
  brokers <- rd_list nBrokers read_broker_legacy ;;
  clusterID <- readNullableString ;;
  controller <- ReadInt32 ;;
  nTopics <- ReadInt32 ;;
  topics <- rd_list nTopics read_topic_legacy ;;
  ignore_err ReadInt32 ;;;
  ret (mkMetadata brokers controller clusterID topics).

Definition DecodeMetadataResponse (version : Z) (body : bytes) : res MetadataResponse :=
  if version <=? 8 then run decodeMetadataResponseLegacy body
  else run (decodeMetadataResponseFlex version) body.

Lemma safe_metadata_flex version : Safe (decodeMetadataResponseFlex version).
Proof.
  unfold decodeMetadataResponseFlex, read_broker_flex, read_topic_flex, read_partition_flex,
    readCompactInt32Array. solve_safe.
Qed.

Lemma safe_metadata_legacy : Safe decodeMetadataResponseLegacy.
Proof.
  unfold decodeMetadataResponseLegacy, read_broker_legacy, read_topic_legacy, read_partition_legacy,
    readNullableString, readInt32Array. solve_safe.
Qed.

(** * The metadata cache *)

(** The maps of [buildLeaderIndex] and [buildLeaderEpochIndex]: a later entry
    of the same topic or partition replaces an earlier one. *)
Definition build_index (value : PartitionMeta -> Z) (meta : MetadataResponse) : gmap bytes (gmap Z Z) :=
  fold_left (fun out t =>
    <[tm_Name t := fold_left (fun (parts : gmap Z Z) p => <[pm_Partition p := value p]> parts) (tm_Partitions t) ∅]> out)
    (md_Topics meta) ∅.

Definition buildLeaderIndex (meta : MetadataResponse) : gmap bytes (gmap Z Z) := build_index pm_Leader meta.
Definition buildLeaderEpochIndex (meta : MetadataResponse) : gmap bytes (gmap Z Z) := build_index pm_LeaderEpoch meta.

(** The cached part of [Cluster]. *)
Record Cluster := mkCluster {
  cl_meta : MetadataResponse;
  cl_leaderIndex : gmap bytes (gmap Z Z);
  cl_leaderEpochIndex : gmap bytes (gmap Z Z) }.

(** What [refresh] stores once the response is decoded. *)
Definition store_metadata (meta : MetadataResponse) : Cluster :=
  mkCluster meta (buildLeaderIndex meta) (buildLeaderEpochIndex meta).

Definition partitionLeader (c : Cluster) (topic : bytes) (part : Z) : option Z :=
  parts ← cl_leaderIndex c !! topic; parts !! part.

Definition LeaderNodeID (c : Cluster) (topic : bytes) (part : Z) : option Z := partitionLeader c topic part.

Definition LeaderEpoch (c : Cluster) (topic : bytes) (part : Z) : Z :=
  default (-1) (parts ← cl_leaderEpochIndex c !! topic; parts !! part).

Definition TopicNameByID (c : Cluster) (id : bytes) : option bytes :=
  tm_Name <$> List.find (fun t => bool_decide (tm_TopicID t = id)) (md_Topics (cl_meta c)).

Definition TopicIDByName (c : Cluster) (name : bytes) : option bytes :=
  tm_TopicID <$> List.find (fun t => bool_decide (tm_Name t = name)) (md_Topics (cl_meta c)).

Definition LeaderBroker (c : Cluster) (topic : bytes) (part : Z) : option BrokerMeta :=
  leader ← partitionLeader c topic part;
  List.find (fun b => bm_NodeID b =? leader) (md_Brokers (cl_meta c)).

(** ** Theory *)

(** The last entry of a list with a given key. *)
Definition last_with {A K} `{EqDecision K} (key : A -> K) (k : K) (l : list A) : option A :=
  last (filter (fun x => key x = k) l).

Lemma last_with_snoc {A K} `{EqDecision K} (key : A -> K) k l x :
  last_with key k (l ++ [x]) = if decide (key x = k) then Some x else last_with key k l.
Proof.
  unfold last_with. rewrite filter_app. destruct (decide (key x = k)).
  - rewrite filter_cons_True by done. cbn [filter list_filter]. apply last_snoc.
  - rewrite filter_cons_False by done. cbn [filter list_filter]. by rewrite app_nil_r.
Qed.

Lemma parts_index value l p :
  fold_left (fun (parts : gmap Z Z) p => <[pm_Partition p := value p]> parts) l ∅ !! p =
  value <$> last_with pm_Partition p l.
Proof.
  induction l as [|x l IH] using rev_ind; [done|]. rewrite fold_left_app. cbn [fold_left].
  rewrite last_with_snoc. destruct (decide (pm_Partition x = p)) as [<-|Hne].
  - by rewrite lookup_insert_eq.
  - by rewrite lookup_insert_ne.
Qed.

Lemma build_index_lookup value meta topic part :
  (parts ← build_index value meta !! topic; parts !! part) =
  (t ← last_with tm_Name topic (md_Topics meta); value <$> last_with pm_Partition part (tm_Partitions t)).
Proof.
  unfold build_index. induction (md_Topics meta) as [|t l IH] using rev_ind; [done|].
  rewrite fold_left_app. cbn [fold_left]. rewrite last_with_snoc.
  destruct (decide (tm_Name t = topic)) as [<-|Hne].
  - rewrite lookup_insert_eq. cbn. apply parts_index.
  - rewrite lookup_insert_ne by done. exact IH.
Qed.

(** The leader cache agrees with the metadata it was built from: after a
    refresh, the leader and the leader epoch of a partition are those of the
    metadata response (the last entry, should a broker repeat a topic or a
    partition), and a partition the response does not list has no leader and
    epoch -1. *)
Theorem leader_index_spec meta topic part :
  let entry := (t ← last_with tm_Name topic (md_Topics meta); last_with pm_Partition part (tm_Partitions t)) in
  LeaderNodeID (store_metadata meta) topic part = pm_Leader <$> entry /\
  LeaderEpoch (store_metadata meta) topic part = from_option pm_LeaderEpoch (-1) entry.
Proof.
  unfold LeaderNodeID, LeaderEpoch, partitionLeader, store_metadata. cbn [cl_leaderIndex cl_leaderEpochIndex].
  unfold buildLeaderIndex, buildLeaderEpochIndex. rewrite !build_index_lookup.
  destruct (last_with tm_Name topic (md_Topics meta)) as [t|]; [|done]. cbn.
  by destruct (last_with pm_Partition part (tm_Partitions t)).
Qed.
