(* ===== verification/Partitioner.v ===== *)
(** Partitioners: [partitioner.go] (murmur2 hash, CRC-32 and round-robin). *)

From Stdlib Require Import ZArith Lia.
From Stdlib Require Import Strings.Byte.
From stdpp Require Import base list gmap countable strings.
From S2P Require Import Prelude.
From S2P Require Import Checksum.

Open Scope Z_scope.

(** * murmur2 *)

Definition murmur_m := 0x5bd1e995.

(** One four-byte block: the shifts are of [uint32] values below 2^8, so none
    loses a bit. *)
Definition murmur_block (h : Z) (b0 b1 b2 b3 : byte) : Z :=
  let k := Z.lor (Z.lor (Z.lor (b2z b0) (Z.shiftl (b2z b1) 8)) (Z.shiftl (b2z b2) 16)) (Z.shiftl (b2z b3) 24) in
  let k := u32 (k * murmur_m) in
  let k := Z.lxor k (Z.shiftr k 24) in
  let k := u32 (k * murmur_m) in
  let h := u32 (h * murmur_m) in
  Z.lxor h k.

(** The block loop, then the [switch length % 4] on the remaining bytes. *)
Fixpoint murmur_loop (h : Z) (data : bytes) : Z :=
  match data with
  | b0 :: b1 :: b2 :: b3 :: rest => murmur_loop (murmur_block h b0 b1 b2 b3) rest
  | [b0; b1; b2] =>
      let h := Z.lxor h (Z.shiftl (b2z b2) 16) in
      let h := Z.lxor h (Z.shiftl (b2z b1) 8) in
      let h := Z.lxor h (b2z b0) in
      u32 (h * murmur_m)
  | [b0; b1] =>
      let h := Z.lxor h (Z.shiftl (b2z b1) 8) in
      let h := Z.lxor h (b2z b0) in
      u32 (h * murmur_m)
  | [b0] => u32 (Z.lxor h (b2z b0) * murmur_m)
  | [] => h
  end.

Definition murmur2 (data : bytes) : Z :=
  let h := murmur_loop (Z.lxor 0x9747b28c (u32 (len data))) data in
  let h := Z.lxor h (Z.shiftr h 13) in
  let h := u32 (h * murmur_m) in
  let h := Z.lxor h (Z.shiftr h 15) in
  s32 h.

(** The vectors of the Java client's test suite. *)
Example murmur2_vectors :
  map (fun s => murmur2 (str s)) ["21"; "foobar"; "abc"; "a-little-bit-long-string"; "a-little-bit-longer-string"]%string
  = [-973932308; -790332482; 479470107; -985981536; -1486304829].
Proof. vm_compute. reflexivity. Qed.

Definition toPositive (v : Z) : Z := Z.land v 0x7fffffff.

(** * Partitioners *)

(** Go's [%] on [int32]: the remainder has the sign of the dividend; a zero
    divisor panics. *)
Definition int32_rem (a n : Z) : res Z := if n =? 0 then Panic else Ok (Z.rem a n).

Definition HashPartition (key : bytes) (n : Z) : res Z :=
  if n <=? 0 then Ok 0 else
  if len key =? 0 then Ok 0 else
  int32_rem (toPositive (murmur2 key)) (s32 n).

Definition CRC32Partition (key : bytes) (n : Z) : res Z :=
  if (n <=? 0) || (len key =? 0) then Ok 0 else
  if u32 n =? 0 then Panic else Ok (s32 (crc32 IEEE key mod u32 n)).

(** The counter after the atomic increment, and the partition. *)
Definition RoundRobinPartition (counter n : Z) : Z * res Z :=
  if n <=? 0 then (counter, Ok 0) else
  let v := u32 (counter + 1) in
  (v, if u32 n =? 0 then Panic else Ok (s32 (v mod u32 n))).

(** [k] calls in a row (each call increments the counter atomically, so
    concurrent callers see some such sequence). *)
Fixpoint round_robin_calls (k : nat) (counter n : Z) : list (res Z) :=
  match k with
  | O => []
  | S m => let '(c, r) := RoundRobinPartition counter n in r :: round_robin_calls m c n
  end.

(** A partitioner never picks a partition that does not exist: for a topic
    with [0 < n < 2^31] partitions the hash, CRC-32 and round-robin
    partitioners return a number in [0, n) for every key and counter, without
    panicking. *)
Theorem partition_in_range key counter n :
  0 < n < 2 ^ 31 ->
  (exists p, HashPartition key n = Ok p /\ 0 <= p < n) /\
  (exists p, CRC32Partition key n = Ok p /\ 0 <= p < n) /\
  (exists p, snd (RoundRobinPartition counter n) = Ok p /\ 0 <= p < n).
Proof.
  intros Hn. unfold HashPartition, CRC32Partition, RoundRobinPartition, int32_rem, u32 in *.
  rewrite s32_id by (unfold int32; lia). rewrite (Z.mod_small n) by lia.
  destruct (Z.leb_spec n 0); [lia|]. destruct (Z.eqb_spec n 0); [lia|]. cbn [orb snd].
  assert (Hmod : forall a, 0 <= a mod n < n) by (intros a; apply Z.mod_pos_bound; lia).
  split; [|split].
  - destruct (len key =? 0); [exists 0; split; [done | lia]|]. eexists. split; [done|].
    unfold toPositive. change 0x7fffffff with (Z.ones 31). rewrite Z.land_ones by lia.
    pose proof (Z.mod_pos_bound (murmur2 key) (2 ^ 31) ltac:(lia)).
    rewrite Z.rem_mod_nonneg by lia. apply Hmod.
  - destruct (len key =? 0); [exists 0; split; [done | lia]|]. eexists. split; [done|].
    rewrite s32_id; [apply Hmod|]. specialize (Hmod (crc32 IEEE key)). unfold int32. lia.
  - eexists. split; [done|]. rewrite s32_id; [apply Hmod|].
    specialize (Hmod ((counter + 1) mod 2 ^ 32)). unfold int32. lia.
Qed.

Lemma partition_in_range_witness :
  (exists p, HashPartition (str "order-42") 7 = Ok p /\ 0 <= p < 7) /\
  (exists p, CRC32Partition (str "order-42") 7 = Ok p /\ 0 <= p < 7) /\
  (exists p, snd (RoundRobinPartition 4294967295 7) = Ok p /\ 0 <= p < 7).
Proof. apply (partition_in_range (str "order-42") 4294967295 7). lia. Defined.

Lemma round_robin_calls_spec k c n :
  0 < n < 2 ^ 31 -> 0 <= c -> c + Z.of_nat k < 2 ^ 32 ->
  round_robin_calls k c n = map (fun i => Ok ((c + 1 + Z.of_nat i) mod n)) (seq 0 k).
Proof.
  intros Hn. revert c. induction k as [|k IH]; intros c Hc Hk; [done|].
  cbn [round_robin_calls]. unfold RoundRobinPartition, u32. destruct (Z.leb_spec n 0); [lia|].
  rewrite (Z.mod_small n), (Z.mod_small (c + 1)) by lia. destruct (Z.eqb_spec n 0); [lia|].
  rewrite IH by lia. cbn [seq map].
  pose proof (Z.mod_pos_bound (c + 1) n ltac:(lia)). rewrite s32_id by (unfold int32; lia).
  rewrite Z.add_0_r. f_equal. rewrite <- seq_shift, map_map. apply map_ext. intros i. do 2 f_equal. lia.
Qed.

(** Round-robin is fair: any [n] consecutive calls on a topic of [n]
    partitions return each partition exactly once (as long as the 32-bit
    counter does not wrap among them). *)
Theorem round_robin_covers c n p :
  0 < n < 2 ^ 31 -> 0 <= c -> c + n < 2 ^ 32 -> 0 <= p < n ->
  exists! i, (i < Z.to_nat n)%nat /\ round_robin_calls (Z.to_nat n) c n !! i = Some (Ok p).
Proof.
  intros Hn Hc Hw Hp. rewrite round_robin_calls_spec by lia.
  assert (Hlk : forall i, (i < Z.to_nat n)%nat ->
    map (fun i => Ok ((c + 1 + Z.of_nat i) mod n)) (seq 0 (Z.to_nat n)) !! i = Some (Ok ((c + 1 + Z.of_nat i) mod n))).
  { intros i Hi. change (map ?f ?l !! i) with ((f <$> l) !! i). rewrite list_lookup_fmap.
    rewrite lookup_seq_lt by done. done. }
  set (i0 := (p - (c + 1)) mod n). pose proof (Z.mod_pos_bound (p - (c + 1)) n ltac:(lia)) as Hi0. fold i0 in Hi0.
  exists (Z.to_nat i0). split.
  - split; [lia|]. rewrite Hlk by lia. rewrite Z2Nat.id by lia. do 2 f_equal. unfold i0.
    rewrite Zplus_mod_idemp_r. replace (c + 1 + (p - (c + 1))) with p by lia. by apply Z.mod_small.
  - intros i [Hi Hl]. rewrite Hlk in Hl by done. injection Hl as Hl.
    assert (Hz : Z.of_nat i = i0); [|lia]. unfold i0. rewrite <- Hl, Zminus_mod_idemp_l.
    replace (c + 1 + Z.of_nat i - (c + 1)) with (Z.of_nat i) by lia. symmetry. apply Z.mod_small. lia.
Qed.

Lemma round_robin_covers_witness :
  exists! i, (i < Z.to_nat 3)%nat /\ round_robin_calls (Z.to_nat 3) 10 3 !! i = Some (Ok 2).
Proof. apply round_robin_covers; lia. Defined.
