(* ===== verification/SeqState.v ===== *)
(** Idempotent-producer sequence numbers: [internal/produce/state.go].

    [State] keeps the next sequence number of every partition as a Go
    [map[seqKey]int32]: a missing key reads 0 and the arithmetic wraps at 32
    bits.  Each method holds the mutex throughout, so one call is one atomic
    step.  The second half of the file is the protocol the callers run on it (a send
    reserves a block, then keeps it on an acknowledgement or rolls it back on
    a failure), as a transition system in which several sends may be in
    flight. *)

From Stdlib Require Import ZArith Lia.
From Stdlib Require Import Strings.Byte.
From stdpp Require Import base list gmap countable relations strings.
From S2P Require Import Prelude.

Open Scope Z_scope.

(** * The state and its methods *)

Record ProducerID := mkProducerID { pid_ID : Z; pid_Epoch : Z }.

Definition seqKey : Type := bytes * Z.

Record State := mkState { st_pid : ProducerID; st_sequences : gmap seqKey Z }.

Definition NewState (pid : ProducerID) : State := mkState pid ∅.

Definition topicKey (topic : bytes) (part : Z) : seqKey := (topic, part).

(** [s.sequences[key]], 0 when the key is missing. *)
Definition seq_at (s : State) (k : seqKey) : Z := default 0 (st_sequences s !! k).

Definition seq_set (s : State) (k : seqKey) (v : Z) : State :=
  mkState (st_pid s) (<[k := v]> (st_sequences s)).

Definition ReserveSequence (s : State) (topic : bytes) (part : Z) : Z := seq_at s (topicKey topic part).

Definition ConfirmSequence (s : State) (topic : bytes) (part : Z) : State :=
  let key := topicKey topic part in seq_set s key (s32 (seq_at s key + 1)).

Definition ReserveBlock (s : State) (topic : bytes) (part count : Z) : State * Z :=
  let key := topicKey topic part in
  let base := seq_at s key in
  (seq_set s key (s32 (base + s32 count)), base).

Definition RollbackBlock (s : State) (topic : bytes) (part count : Z) : State :=
  let key := topicKey topic part in
  let s := seq_set s key (s32 (seq_at s key - s32 count)) in
  if seq_at s key <? 0 then seq_set s key 0 else s.

Definition NextSequence (s : State) (topic : bytes) (part : Z) : State * Z :=
  let key := topicKey topic part in
  let seq := seq_at s key in
  (seq_set s key (s32 (seq + 1)), seq).

Definition Reset (s : State) : State := mkState (st_pid s) ∅.

(** * Theory of the methods *)

Lemma seq_at_set s k v k' : seq_at (seq_set s k v) k' = if decide (k = k') then v else seq_at s k'.
Proof.
  unfold seq_at, seq_set. cbn. destruct (decide (k = k')) as [<-|Hne].
  - by rewrite lookup_insert_eq.
  - by rewrite lookup_insert_ne.
Qed.

Lemma seq_at_same s k v : seq_at (seq_set s k v) k = v.
Proof. rewrite seq_at_set. by rewrite decide_True. Qed.

Lemma seq_at_other s k v k' : k <> k' -> seq_at (seq_set s k v) k' = seq_at s k'.
Proof. intros. rewrite seq_at_set. by rewrite decide_False. Qed.

Lemma reserve_at s topic part n k :
  0 <= n -> 0 <= seq_at s (topic, part) -> seq_at s (topic, part) + n < 2 ^ 31 ->
  seq_at (fst (ReserveBlock s topic part n)) k =
  seq_at s k + (if decide ((topic, part) = k) then n else 0).
Proof.
  intros Hn Hs Hr. unfold ReserveBlock, topicKey. cbn [fst]. rewrite seq_at_set.
  destruct (decide _) as [<-|]; [|lia].
  rewrite (s32_id n), s32_id; unfold int32; lia.
Qed.

(** A rollback of what was reserved, with nothing else rolled back twice. *)
Lemma rollback_at s topic part n k :
  0 <= n <= seq_at s (topic, part) -> seq_at s (topic, part) < 2 ^ 31 ->
  seq_at (RollbackBlock s topic part n) k =
  seq_at s k - (if decide ((topic, part) = k) then n else 0).
Proof.
  intros Hn Hr. unfold RollbackBlock, topicKey. rewrite seq_at_same.
  rewrite (s32_id n), s32_id by (unfold int32; lia).
  rewrite (proj2 (Z.ltb_ge _ _)) by lia. rewrite seq_at_set.
  destruct (decide _) as [<-|]; lia.
Qed.

(** A sum of two [int32] values that wrapped is negative. *)
Lemma s32_nonneg z : 0 <= z < 2 ^ 32 -> 0 <= s32 z -> s32 z = z.
Proof.
  intros Hz. unfold s32, sgn. change (2 ^ (32 - 1)) with (2 ^ 31).
  destruct (decide (z < 2 ^ 31)).
  - rewrite Z.mod_small; lia.
  - replace ((z + 2 ^ 31) mod 2 ^ 32) with (z - 2 ^ 31); [lia|].
    symmetry. rewrite <- (Z.mod_unique (z + 2 ^ 31) (2 ^ 32) 1 (z - 2 ^ 31)); lia.
Qed.

(** * Sends in flight *)

(** A block of sequence numbers handed to a send of [blk_n] records. *)
Record block := mkBlock { blk_key : seqKey; blk_base : Z; blk_n : Z }.

(** The state, the blocks of the sends in flight, and the acknowledged blocks
    in the order of their acknowledgements. *)
Record system := mkSystem { sys_state : State; sys_flight : list block; sys_acked : list block }.

(** What the callers do: a send reserves its block, and later either keeps it
    (acknowledged) or rolls it back (failed).  Nothing orders the outcomes of
    different sends. *)
Inductive send_step : system -> system -> Prop :=
| step_reserve s fl ak topic part n s' base :
    0 < n < 2 ^ 31 -> ReserveBlock s topic part n = (s', base) ->
    send_step (mkSystem s fl ak) (mkSystem s' (fl ++ [mkBlock (topic, part) base n]) ak)
| step_ack s fl1 b fl2 ak :
    send_step (mkSystem s (fl1 ++ b :: fl2) ak) (mkSystem s (fl1 ++ fl2) (ak ++ [b]))
| step_fail s fl1 topic part base n fl2 ak :
    send_step (mkSystem s (fl1 ++ mkBlock (topic, part) base n :: fl2) ak)
              (mkSystem (RollbackBlock s topic part n) (fl1 ++ fl2) ak).

Definition blocks_of (k : seqKey) (l : list block) : list block := filter (fun b => blk_key b = k) l.

(** The discipline on states: every partition has at most one send in flight. *)
Definition one_in_flight (y : system) : Prop := forall k, (length (blocks_of k (sys_flight y)) <= 1)%nat.

(** The limit on states: no next number has passed 2^31 - 1, beyond which the
    code's int32 counter turns negative. *)
Definition no_wrap (y : system) : Prop := forall k, 0 <= seq_at (sys_state y) k.

(** A step that keeps both. *)
Definition serial_step (y y' : system) : Prop := send_step y y' /\ one_in_flight y' /\ no_wrap y'.

Definition initial (pid : ProducerID) : system := mkSystem (NewState pid) [] [].

(** The blocks tile the interval from [a] to [b] in this order. *)
Fixpoint tiles (a : Z) (l : list block) (b : Z) : Prop :=
  match l with
  | [] => a = b
  | x :: l => blk_base x = a /\ 0 < blk_n x /\ tiles (a + blk_n x) l b
  end.

Definition flight_size (k : seqKey) (y : system) : Z :=
  fold_right Z.add 0 (map blk_n (blocks_of k (sys_flight y))).

(** * Theory of sends *)

Lemma tiles_snoc l : forall a b n k, tiles a l b -> 0 < n -> tiles a (l ++ [mkBlock k b n]) (b + n).
Proof.
  induction l as [|x l IH]; cbn; intros a b n k Hl Hn.
  - subst. auto.
  - destruct Hl as (? & ? & ?). split_and!; auto.
Qed.

Lemma blocks_of_app k l1 l2 : blocks_of k (l1 ++ l2) = blocks_of k l1 ++ blocks_of k l2.
Proof. apply filter_app. Qed.

Lemma blocks_of_cons k b l :
  blocks_of k (b :: l) = (if decide (blk_key b = k) then [b] else []) ++ blocks_of k l.
Proof.
  unfold blocks_of. destruct (decide (blk_key b = k)).
  - by rewrite filter_cons_True.
  - by rewrite filter_cons_False.
Qed.

(** Where partition [k] stands: its acknowledged blocks tile [0..e), and the
    next sequence number is [e] plus the size of the block in flight, which
    starts at [e]. *)
Definition partition_inv (y : system) (k : seqKey) : Prop :=
  exists e, tiles 0 (blocks_of k (sys_acked y)) e /\ 0 <= e /\
    (forall b, b ∈ blocks_of k (sys_flight y) -> blk_base b = e /\ 0 < blk_n b) /\
    (length (blocks_of k (sys_flight y)) <= 1)%nat /\
    seq_at (sys_state y) k = e + flight_size k y /\
    seq_at (sys_state y) k < 2 ^ 31.

Lemma partition_inv_eq y y' k :
  blocks_of k (sys_acked y) = blocks_of k (sys_acked y') ->
  blocks_of k (sys_flight y) = blocks_of k (sys_flight y') ->
  seq_at (sys_state y) k = seq_at (sys_state y') k ->
  partition_inv y k -> partition_inv y' k.
Proof. unfold partition_inv, flight_size. by intros -> -> ->. Qed.

(** The block taken out of a flight of at most one. *)
Lemma single_flight k fl1 b fl2 :
  blk_key b = k -> (length (blocks_of k (fl1 ++ b :: fl2)) <= 1)%nat ->
  blocks_of k (fl1 ++ b :: fl2) = [b] /\ blocks_of k (fl1 ++ fl2) = [].
Proof.
  intros Hk. rewrite !blocks_of_app, blocks_of_cons, decide_True by done.
  rewrite !length_app. cbn. intros Hlen.
  destruct (blocks_of k fl1), (blocks_of k fl2); cbn in *; try lia. auto.
Qed.

Lemma other_flight k fl1 b fl2 :
  blk_key b <> k -> blocks_of k (fl1 ++ b :: fl2) = blocks_of k (fl1 ++ fl2).
Proof. intros. rewrite !blocks_of_app, blocks_of_cons, decide_False by done. done. Qed.

Lemma reserve_inv s fl ak topic part n s' base k :
  0 < n < 2 ^ 31 -> ReserveBlock s topic part n = (s', base) ->
  one_in_flight (mkSystem s' (fl ++ [mkBlock (topic, part) base n]) ak) ->
  no_wrap (mkSystem s' (fl ++ [mkBlock (topic, part) base n]) ak) ->
  partition_inv (mkSystem s fl ak) k ->
  partition_inv (mkSystem s' (fl ++ [mkBlock (topic, part) base n]) ak) k.
Proof.
  intros Hn [= <- <-] Hone Hwrap Hinv. pose proof (Hone k) as Hlen. pose proof (Hwrap k) as Hpos.
  clear Hone Hwrap.
  unfold topicKey in *. cbn [sys_state sys_flight sys_acked] in *.
  destruct (decide ((topic, part) = k)) as [<-|Hne].
  - destruct Hinv as (e & Ht & He & Hb & _ & Hs & Hlt). cbn [sys_state sys_flight sys_acked] in *.
    rewrite blocks_of_app, blocks_of_cons, decide_True, length_app in Hlen by done. cbn in Hlen.
    destruct (blocks_of (topic, part) fl) eqn:Hfl; cbn in Hlen; [|lia].
    unfold flight_size in Hs. cbn [sys_flight] in Hs. rewrite Hfl in Hs. cbn in Hs.
    rewrite seq_at_same in Hpos.
    rewrite (s32_id n) in * by (unfold int32; lia).
    assert (Hse : seq_at s (topic, part) = e) by lia.
    rewrite Hse in Hpos, Hlt |- *.
    pose proof (s32_nonneg (e + n) ltac:(lia) Hpos) as Hsum.
    exists e. unfold flight_size. cbn [sys_state sys_flight sys_acked].
    rewrite blocks_of_app, blocks_of_cons, decide_True, Hfl by done. cbn.
    rewrite seq_at_same.
    split_and!; try done; try lia.
    + intros b ->%list_elem_of_singleton. cbn. lia.
    + apply (sgn_range 32). lia.
  - eapply partition_inv_eq; [..|exact Hinv]; cbn [sys_state sys_flight sys_acked]; [done|..].
    + rewrite blocks_of_app, blocks_of_cons, decide_False by done. cbn. by rewrite app_nil_r.
    + by rewrite seq_at_other.
Qed.

Lemma ack_inv s fl1 b fl2 ak k :
  partition_inv (mkSystem s (fl1 ++ b :: fl2) ak) k ->
  partition_inv (mkSystem s (fl1 ++ fl2) (ak ++ [b])) k.
Proof.
  intros Hinv. destruct (decide (blk_key b = k)) as [Hk|Hne].
  - destruct Hinv as (e & Ht & He & Hb & Hlen & Hs & Hlt). cbn [sys_state sys_flight sys_acked] in *.
    destruct (single_flight k fl1 b fl2 Hk Hlen) as [Hone Hnil].
    unfold flight_size in Hs. cbn [sys_flight] in Hs. rewrite Hone in Hs, Hb. cbn in Hs.
    destruct (Hb b) as [Hbase Hn]; [by apply list_elem_of_singleton|].
    exists (e + blk_n b). unfold flight_size. cbn [sys_state sys_flight sys_acked].
    rewrite Hnil, blocks_of_app, blocks_of_cons, decide_True by done. cbn.
    split_and!; try lia.
    + destruct b as [kb bb nb]. cbn in *. subst. by apply tiles_snoc.
    + by intros b' ?%not_elem_of_nil.
  - eapply partition_inv_eq; [..|exact Hinv]; cbn [sys_state sys_flight sys_acked]; [|by rewrite other_flight|done].
    rewrite blocks_of_app, blocks_of_cons, decide_False by done. cbn. by rewrite app_nil_r.
Qed.

Lemma fail_inv s fl1 topic part base n fl2 ak k :
  partition_inv (mkSystem s (fl1 ++ mkBlock (topic, part) base n :: fl2) ak) k ->
  partition_inv (mkSystem (RollbackBlock s topic part n) (fl1 ++ fl2) ak) k.
Proof.
  intros Hinv. destruct (decide ((topic, part) = k)) as [Hk|Hne].
  - destruct Hinv as (e & Ht & He & Hb & Hlen & Hs & Hlt). cbn [sys_state sys_flight sys_acked] in *.
    destruct (single_flight k fl1 (mkBlock (topic, part) base n) fl2 Hk Hlen) as [Hone Hnil].
    unfold flight_size in Hs. cbn [sys_flight] in Hs. rewrite Hone in Hs, Hb. cbn in Hs.
    destruct (Hb _ (proj2 (list_elem_of_singleton _ _) eq_refl)) as [_ Hn]. cbn in Hn. subst k.
    exists e. unfold flight_size. cbn [sys_state sys_flight sys_acked].
    rewrite Hnil, rollback_at, decide_True by (done || lia). cbn.
    split_and!; try done; try lia. by intros b' ?%not_elem_of_nil.
  - eapply partition_inv_eq; [..|exact Hinv]; cbn [sys_state sys_flight sys_acked]; [done|by rewrite other_flight|].
    unfold RollbackBlock, topicKey. case_goal; by rewrite !seq_at_other.
Qed.

Lemma serial_inv pid y k : rtc serial_step (initial pid) y -> partition_inv y k.
Proof.
  intros Hr. cut (forall y0, rtc serial_step y0 y -> partition_inv y0 k -> partition_inv y k).
  { intros Hgen. apply (Hgen _ Hr). exists 0. cbn. split_and!; try done; try lia.
    by intros b ?%not_elem_of_nil. }
  clear. induction 1 as [|y0 y1 y2 (Hstep & Hone & Hwrap) _ IH]; [done|]. intros Hinv. apply IH.
  destruct Hstep as [s fl ak topic part n s' base Hn Hres|s fl1 b fl2 ak|s fl1 topic part base n fl2 ak].
  - by eapply reserve_inv.
  - by apply ack_inv.
  - by eapply fail_inv.
Qed.

(** C24: Sequence numbers of an idempotent producer.  Whatever the outcomes of
    the sends, as long as no partition has two sends in flight
    ([one_in_flight]) and no partition has handed out 2^31 numbers ([no_wrap]:
    its next one is not negative), the acknowledged blocks of every partition tile an
    initial interval [0..e) in the order of their acknowledgements (no gap, no
    reuse), and the next number to hand out is [e] plus the size of the block
    in flight: a failed send leaves no trace. *)
Theorem serial_sequences_contiguous pid y k :
  rtc serial_step (initial pid) y ->
  exists e, tiles 0 (blocks_of k (sys_acked y)) e /\
            seq_at (sys_state y) k = e + flight_size k y /\
            ReserveSequence (sys_state y) (fst k) (snd k) = e + flight_size k y.
Proof.
  intros Hr. destruct (serial_inv pid y k Hr) as (e & Ht & _ & _ & _ & Hs & _).
  exists e. split_and!; [done..|]. destruct k. exact Hs.
Qed.

(** * Examples *)

Definition demo_pid : ProducerID := mkProducerID 7 0.
Definition orders : seqKey := (str "orders", 0).

(** A run given by its choices, [None] when a choice is not possible. *)
Inductive choice := Reserve (k : seqKey) (n : Z) | Ack (i : nat) | Rollback (i : nat).

Definition play_one (y : system) (c : choice) : option system :=
  match c with
  | Reserve k n =>
      if (0 <? n) && (n <? 2 ^ 31) then
        let '(s, base) := ReserveBlock (sys_state y) (fst k) (snd k) n in
        Some (mkSystem s (sys_flight y ++ [mkBlock k base n]) (sys_acked y))
      else None
  | Ack i => b ← sys_flight y !! i;
      Some (mkSystem (sys_state y) (delete i (sys_flight y)) (sys_acked y ++ [b]))
  | Rollback i => b ← sys_flight y !! i;
      Some (mkSystem (RollbackBlock (sys_state y) (fst (blk_key b)) (snd (blk_key b)) (blk_n b))
              (delete i (sys_flight y)) (sys_acked y))
  end.

Fixpoint play (y : system) (cs : list choice) : option system :=
  match cs with [] => Some y | c :: cs => y' ← play_one y c; play y' cs end.

Lemma play_one_step y c y' : play_one y c = Some y' -> send_step y y'.
Proof.
  destruct y as [s fl ak]. destruct c as [[t p] n|i|i]; cbn [play_one sys_state sys_flight sys_acked fst snd].
  - destruct ((0 <? n) && (n <? 2 ^ 31)) eqn:Hn; [|done]. zbool.
    destruct (ReserveBlock s t p n) as [s' base] eqn:Hr. intros [= <-]. by eapply step_reserve.
  - destruct (fl !! i) as [b|] eqn:Hi; [|done]. cbn. intros [= <-].
    rewrite (delete_take_drop fl i). rewrite <- (take_drop_middle fl i b Hi) at 1. constructor.
  - destruct (fl !! i) as [[[t p] base n]|] eqn:Hi; [|done]. cbn. intros [= <-].
    rewrite (delete_take_drop fl i). rewrite <- (take_drop_middle fl i _ Hi) at 1. constructor.
Qed.

Lemma play_reachable cs : forall y y', play y cs = Some y' -> rtc send_step y y'.
Proof.
  induction cs as [|c cs IH]; cbn; intros y y'; [intros [= <-]; apply rtc_refl|].
  destruct (play_one y c) as [y1|] eqn:Hc; [|done]. cbn. intros Hp.
  eapply rtc_l; [by eapply play_one_step|by apply IH].
Qed.

(** Two acknowledged blocks of one partition share a sequence number. *)
Definition overlapping (y : system) : Prop :=
  exists i j b b', i <> j /\ sys_acked y !! i = Some b /\ sys_acked y !! j = Some b' /\
    blk_key b = blk_key b' /\ blk_base b <= blk_base b' < blk_base b + blk_n b.

(** Without [one_in_flight] the guarantee fails: two concurrent sends
    to one partition, of which the first fails after the second has reserved,
    leave the counter inside the second one's block, and the next send reuses
    sequence numbers the broker has acknowledged. *)
Theorem concurrent_rollback_reuses :
  exists y, rtc send_step (initial demo_pid) y /\ overlapping y.
Proof.
  pose (run := [Reserve orders 5; Reserve orders 3; Ack 1; Rollback 0; Reserve orders 4; Ack 0]).
  assert (Ha : sys_acked <$> play (initial demo_pid) run = Some [mkBlock orders 5 3; mkBlock orders 3 4])
    by (vm_compute; reflexivity).
  apply fmap_Some in Ha as (y & Hy & Ha). exists y. split; [exact (play_reachable _ _ _ Hy)|].
  exists 1%nat, 0%nat, (mkBlock orders 3 4), (mkBlock orders 5 3). rewrite <- Ha.
  split_and!; [lia|reflexivity..|cbn; lia|cbn; lia].
Qed.

(** Without [no_wrap] it fails too.  The counter wraps to a negative number: Kafka's sequence numbers restart
    at 0 after 2^31 - 1, here the next block starts at -2^31. *)
Theorem sequence_wraps_negative :
  exists y b, rtc send_step (initial demo_pid) y /\ b ∈ sys_acked y /\ blk_base b = - 2 ^ 31.
Proof.
  pose (run := [Reserve orders (2 ^ 30); Ack 0; Reserve orders (2 ^ 30); Ack 0; Reserve orders 1; Ack 0]).
  assert (Ha : (fun y => sys_acked y !! 2%nat) <$> play (initial demo_pid) run = Some (Some (mkBlock orders (- 2 ^ 31) 1)))
    by (vm_compute; reflexivity).
  apply fmap_Some in Ha as (y & Hy & Ha). exists y, (mkBlock orders (- 2 ^ 31) 1).
  split_and!; [exact (play_reachable _ _ _ Hy)| |reflexivity]. by eapply list_elem_of_lookup_2.
Qed.

(** Both by inspection of the partitions the state mentions. *)
Definition serialb (y : system) : bool :=
  forallb (fun k => (length (blocks_of k (sys_flight y)) <=? 1)%nat && (0 <=? seq_at (sys_state y) k))
    (map blk_key (sys_flight y) ++ map fst (map_to_list (st_sequences (sys_state y)))).

Lemma serialb_serial y : serialb y = true -> one_in_flight y /\ no_wrap y.
Proof.
  unfold serialb. intros Hall. rewrite forallb_forall in Hall.
  enough (forall k, (length (blocks_of k (sys_flight y)) <= 1)%nat /\ 0 <= seq_at (sys_state y) k) as Hk
    by (split; intros k; apply Hk). intros k.
  assert (Hk : k ∈ map blk_key (sys_flight y) ++ map fst (map_to_list (st_sequences (sys_state y))) ->
    (length (blocks_of k (sys_flight y)) <= 1)%nat /\ 0 <= seq_at (sys_state y) k).
  { intros Hin%list_elem_of_In%Hall. apply andb_true_iff in Hin as [Hl Hs].
    apply Nat.leb_le in Hl. zbool. auto. }
  destruct (blocks_of k (sys_flight y)) as [|b l] eqn:Hb.
  - split; [cbn; lia|]. unfold seq_at. destruct (st_sequences (sys_state y) !! k) as [v|] eqn:Hv; [|cbn; lia].
    cbn. unfold seq_at in Hk. rewrite Hv in Hk. apply Hk. apply elem_of_app. right.
    change k with (fst (k, v)). apply (list_elem_of_fmap_2 fst). by apply elem_of_map_to_list.
  - apply Hk, elem_of_app. left. assert (b ∈ blocks_of k (sys_flight y)) as Hin by (rewrite Hb; left).
    apply list_elem_of_filter in Hin as [<- Hin]. by apply (list_elem_of_fmap_2 blk_key).
Qed.

Fixpoint play_serial (y : system) (cs : list choice) : option system :=
  match cs with
  | [] => Some y
  | c :: cs => y' ← play_one y c; if serialb y' then play_serial y' cs else None
  end.

Lemma play_serial_reachable cs : forall y y', play_serial y cs = Some y' -> rtc serial_step y y'.
Proof.
  induction cs as [|c cs IH]; cbn; intros y y'; [intros [= <-]; apply rtc_refl|].
  destruct (play_one y c) as [y1|] eqn:Hc; [|done]. cbn. destruct (serialb y1) eqn:Hs; [|done].
  intros Hp. eapply rtc_l; [|by apply IH]. split; [by eapply play_one_step|by apply serialb_serial].
Qed.

Definition demo_run : list choice :=
  [Reserve orders 3; Reserve (str "audit", 1) 2; Ack 0; Reserve orders 2; Rollback 1; Reserve orders 4; Ack 1].

(** Three records acknowledged, two failed, four acknowledged. *)
Lemma serial_sequences_contiguous_witness :
  exists y, rtc serial_step (initial demo_pid) y /\
    blocks_of orders (sys_acked y) = [mkBlock orders 0 3; mkBlock orders 3 4] /\
    exists e, tiles 0 (blocks_of orders (sys_acked y)) e /\ seq_at (sys_state y) orders = e + flight_size orders y.
Proof.
  assert (Ha : (fun y => blocks_of orders (sys_acked y)) <$> play_serial (initial demo_pid) demo_run =
    Some [mkBlock orders 0 3; mkBlock orders 3 4]) by (vm_compute; reflexivity).
  apply fmap_Some in Ha as (y & Hy & Ha).
  assert (Hr : rtc serial_step (initial demo_pid) y) by exact (play_serial_reachable _ _ _ Hy).
  exists y. split; [exact Hr|]. split; [by symmetry|].
  destruct (serial_sequences_contiguous demo_pid y orders Hr) as (e & Ht & Hs & _).
  exists e. exact (conj Ht Hs).
Defined.
