(* ===== verification/Retry.v ===== *)
(** Error classification and retries: [KafkaError.Retriable] and
    [IsRetriable] of [errors.go], [retryRetriable] and [coordinatorRetry] of
    [producer.go], and [Do] of [internal/retry/retry.go].

    The loops are written for any state: [ctx] is [ctx.Err()], [sleep d] waits
    for a timer of [d] nanoseconds or for the context, whichever is first (the
    context's error is then returned), and the retried function returns [Ok]
    for a nil error. *)

From Stdlib Require Import ZArith Lia.
From Stdlib Require Import Strings.Byte.
From stdpp Require Import base list gmap countable strings.
From S2P Require Import Prelude.

Open Scope Z_scope.

(** * Retriable errors *)

Definition retriable_codes : list Z := [5; 6; 7; 8; 14; 15; 16; 19; 20; 27; 51; 122; 123].

Definition Retriable (code : Z) : bool := bool_decide (code ∈ retriable_codes).

(** [NetError] stands for the transport failures [io.EOF],
    [io.ErrUnexpectedEOF], [net.ErrClosed] and any [net.Error]; [ErrNotSent]
    wraps one. *)
Definition IsRetriable (e : error) : bool :=
  match e with
  | KafkaError code _ _ => Retriable code
  | NetError | ErrNotSent => true
  | _ => false
  end.

(** * Policies *)

(** Durations are int64 nanoseconds. *)
Record RetryConfig := mkRetryConfig { rc_MaxAttempts : Z; rc_Backoff : Z; rc_MaxBackoff : Z }.

Definition Millisecond := 1000000.
Definition Second := 1000 * Millisecond.

Definition coordinatorRetry (base : RetryConfig) : RetryConfig :=
  mkRetryConfig
    (if rc_MaxAttempts base <? 25 then 25 else rc_MaxAttempts base)
    (if rc_Backoff base <=? 0 then 200 * Millisecond else rc_Backoff base)
    (if (rc_MaxBackoff base <=? 0) || (rc_MaxBackoff base >? Second) then Second else rc_MaxBackoff base).

Section loop.
Context {St : Type} (ctx : St -> option error) (sleep : Z -> St -> St * option error).
Context (stop : error -> bool) (maxWait : Z) (fn : St -> St * res unit).

Definition next_wait (wait : Z) : Z :=
  let wait := s64 (wait * 2) in if wait >? maxWait then maxWait else wait.

(** [n] attempts remain. *)
Fixpoint retry_loop (n : nat) (wait : Z) (s : St) : St * res unit :=
  match n with
  | O => (s, Ok tt)
  | S n' =>
      match ctx s with
      | Some e => (s, Err e)
      | None =>
          match fn s with
          | (s, Ok _) => (s, Ok tt)
          | (s, Panic) => (s, Panic)
          | (s, Err e) =>
              if stop e then (s, Err e) else
              match n' with
              | O => (s, Err e)
              | S _ =>
                  match sleep wait s with
                  | (s, Some e') => (s, Err e')
                  | (s, None) => retry_loop n' (next_wait wait) s
                  end
              end
          end
      end
  end.
End loop.

Definition attempts (max : Z) : nat := Z.to_nat (if max <? 1 then 1 else max).

Section policies.
Context {St : Type} (ctx : St -> option error) (sleep : Z -> St -> St * option error).

Definition first_wait (cfg : RetryConfig) : Z :=
  if rc_Backoff cfg <=? 0 then 100 * Millisecond else rc_Backoff cfg.

Definition max_wait (cfg : RetryConfig) : Z :=
  if rc_MaxBackoff cfg <=? 0 then 2 * Second else rc_MaxBackoff cfg.

Definition retryRetriable (cfg : RetryConfig) (fn : St -> St * res unit) : St -> St * res unit :=
  retry_loop ctx sleep (fun e => negb (IsRetriable e)) (max_wait cfg) fn
    (attempts (rc_MaxAttempts cfg)) (first_wait cfg).

(** [retry.Do]: every error is retried. *)
Definition Do (max base maxWait : Z) (fn : St -> St * res unit) : St -> St * res unit :=
  retry_loop ctx sleep (fun _ => false) maxWait fn (attempts max) base.
End policies.

(** * What a run does *)

(** A run with a log of its calls and sleeps; the context may interrupt a
    sleep. *)
Inductive event := Call (r : res unit) | Sleep (d : Z) (interrupted : option error).

Section logged.
Context {St : Type} (ctx : St -> option error) (sleep : Z -> St -> St * option error).

Definition logged_ctx (s : St * list event) : option error := ctx (fst s).

Definition logged_sleep (d : Z) (s : St * list event) : (St * list event) * option error :=
  let '(t, o) := sleep d (fst s) in ((t, snd s ++ [Sleep d o]), o).

Definition logged (fn : St -> St * res unit) (s : St * list event) : (St * list event) * res unit :=
  let '(t, r) := fn (fst s) in ((t, snd s ++ [Call r]), r).

(** The log does not change the run. *)
Lemma logged_run stop maxWait fn n : forall wait s log,
  let '(t, r) := retry_loop ctx sleep stop maxWait fn n wait s in
  let '(t', r') := retry_loop logged_ctx logged_sleep stop maxWait (logged fn) n wait (s, log) in
  fst t' = t /\ r' = r.
Proof.
  induction n as [|n IH]; intros wait s log; cbn [retry_loop]; [done|].
  unfold logged_ctx, logged, logged_sleep in *. cbn [fst snd] in *.
  destruct (ctx s); [done|]. destruct (fn s) as [s1 [[]|e|]]; [done| |done].
  destruct (stop e); [done|]. destruct n as [|n]; [done|].
  cbn [fst snd]. destruct (sleep wait s1) as [s2 [e'|]]; [done|]. apply IH.
Qed.

(** The waits of a run, from its first one. *)
Fixpoint backoffs (maxWait wait : Z) (n : nat) : list Z :=
  match n with O => [] | S n => wait :: backoffs maxWait (next_wait maxWait wait) n end.

(** The log of a run in which calls returned the retried errors [errs], then
    [final]. *)
Definition retried (maxWait wait : Z) (errs : list error) : list event :=
  concat (zip_with (fun e d => [Call (Err e); Sleep d None]) errs (backoffs maxWait wait (length errs))).

(** How a run can end after [errs]: the context was done before a call, it
    interrupted the wait after one more error, or a call gave the result. *)
Definition run_ends (stop : error -> bool) (maxWait wait : Z) (n : nat) (errs : list error) (t : St) (rest : list event) (out : res unit) : Prop :=
  (rest = [] /\ exists e, ctx t = Some e /\ out = Err e) \/
  (exists e d e', rest = [Call (Err e); Sleep d (Some e')] /\ stop e = false /\ (S (length errs) < n)%nat /\
     backoffs maxWait wait (S (length errs)) !! length errs = Some d /\ out = Err e') \/
  (rest = [Call out] /\ forall e, out = Err e -> stop e = true \/ S (length errs) = n).

Lemma run_ends_cons stop maxWait wait n e errs t rest out :
  run_ends stop maxWait (next_wait maxWait wait) (S n) errs t rest out -> run_ends stop maxWait wait (S (S n)) (e :: errs) t rest out.
Proof.
  intros [?|[(e1 & d & e' & -> & Hs & Hn & Hd & Ho)|[-> Ho]]]; [by left|right; left|right; right].
  - exists e1, d, e'. split_and!; [done..|cbn; lia|exact Hd|done].
  - split; [done|]. intros e0 He. destruct (Ho e0 He); [by left|right; cbn; lia].
Qed.

Lemma retry_log stop maxWait fn n : forall wait s log t log' out,
  (0 < n)%nat ->
  retry_loop logged_ctx logged_sleep stop maxWait (logged fn) n wait (s, log) = ((t, log'), out) ->
  exists errs rest, Forall (fun e => stop e = false) errs /\ (length errs < n)%nat /\
    log' = log ++ retried maxWait wait errs ++ rest /\ run_ends stop maxWait wait n errs t rest out.
Proof.
  induction n as [|n IH]; intros wait s log t log' out Hn; [lia|]. cbn [retry_loop].
  unfold logged_ctx at 1, logged at 1. cbn [fst snd].
  destruct (ctx s) as [e|] eqn:Hc.
  { intros [= <- <- <-]. exists [], []. rewrite app_nil_r. split_and!; [constructor|cbn; lia|done|left; eauto]. }
  assert (Hlast : forall s1 r, (forall e, r = Err e -> stop e = true \/ n = O) ->
    (s1, log ++ [Call r], r) = (t, log', out) ->
    exists errs rest, Forall (fun e => stop e = false) errs /\ (length errs < S n)%nat /\
      log' = log ++ retried maxWait wait errs ++ rest /\ run_ends stop maxWait wait (S n) errs t rest out).
  { intros s1 r Hr [= <- <- <-]. exists [], [Call r]. split_and!; [constructor|cbn; lia|done|right; right].
    split; [done|]. intros e He. destruct (Hr e He); [by left|right; cbn; lia]. }
  destruct (fn s) as [s1 [[]|e|]]; [by apply Hlast| |by apply Hlast].
  destruct (stop e) eqn:Hstop; [apply Hlast; intros ? [= <-]; auto|].
  destruct n as [|n]; [apply Hlast; auto|].
  unfold logged_sleep at 1. cbn [fst snd].
  destruct (sleep wait s1) as [s2 [e'|]].
  { intros [= <- <- <-]. exists [], [Call (Err e); Sleep wait (Some e')]. rewrite <- app_assoc.
    split_and!; [constructor|cbn; lia|done|right; left]. exists e, wait, e'. by split_and!; [..|cbn; lia| |]. }
  intros Hrun. destruct (IH _ _ _ _ _ _ ltac:(lia) Hrun) as (errs & rest & Herrs & Hlen & -> & Hends).
  exists (e :: errs), rest. split_and!; [by constructor|cbn; lia| |by apply run_ends_cons].
  unfold retried. cbn [length backoffs zip_with concat]. by rewrite <- !app_assoc.
Qed.

Lemma length_backoffs maxWait n : forall wait, length (backoffs maxWait wait n) = n.
Proof. induction n; intros; cbn; auto. Qed.

(** Without overflow the waits double up to the cap; the first is not capped. *)
Lemma backoffs_spec maxWait n : forall wait i,
  0 < maxWait < 2 ^ 62 -> 0 < wait < 2 ^ 62 -> (i < n)%nat ->
  backoffs maxWait wait n !! i =
  Some (if decide (i = O) then wait else Z.min maxWait (wait * 2 ^ Z.of_nat i)).
Proof.
  induction n as [|n IH]; intros wait i Hm Hw Hi; [lia|].
  destruct i as [|i]; [done|]. cbn [backoffs]. rewrite lookup_cons. 
  assert (Hn : next_wait maxWait wait = Z.min maxWait (wait * 2)).
  { unfold next_wait. rewrite s64_id by (unfold int64; lia).
    destruct (wait * 2 >? maxWait) eqn:Hgt; zbool; lia. }
  rewrite Hn, IH by lia. f_equal. rewrite (decide_False (P := S i = O)) by lia.
  rewrite Nat2Z.inj_succ, Z.pow_succ_r by lia.
  destruct (decide (i = O)) as [->|]; [cbn; lia|].
  assert (1 <= 2 ^ Z.of_nat i) by (apply (Z.pow_le_mono_r 2 0); lia).
  nia.
Qed.

(** C30: Retries are bounded and stop at the right place.  A run of
    [retryRetriable] makes at most [max(1, MaxAttempts)] calls.  Every call but
    the last failed with a retriable error and was followed by a wait from the
    schedule that starts at the configured backoff (100 ms by default), doubles,
    and is capped at the configured maximum (2 s by default; both below 2^62).
    The run ends in one of three ways: with the context's error, when the
    context is done before a call; with the context's error, when it interrupts
    the wait after a retriable error that was not the last attempt's; or with
    the last call's result, which is not a retriable error unless it used up
    the attempts. *)
Theorem retry_retriable_spec cfg fn s t log out :
  retryRetriable logged_ctx logged_sleep cfg (logged fn) (s, []) = ((t, log), out) ->
  rc_Backoff cfg < 2 ^ 62 -> rc_MaxBackoff cfg < 2 ^ 62 ->
  exists errs rest,
    Forall (fun e => IsRetriable e = true) errs /\
    Z.of_nat (length errs) < Z.max 1 (rc_MaxAttempts cfg) /\
    log = retried (max_wait cfg) (first_wait cfg) errs ++ rest /\
    ((rest = [] /\ exists e, ctx t = Some e /\ out = Err e) \/
     (exists e d e', rest = [Call (Err e); Sleep d (Some e')] /\ IsRetriable e = true /\
        Z.of_nat (S (length errs)) < Z.max 1 (rc_MaxAttempts cfg) /\
        backoffs (max_wait cfg) (first_wait cfg) (S (length errs)) !! length errs = Some d /\ out = Err e') \/
     (rest = [Call out] /\
      forall e, out = Err e ->
        IsRetriable e = false \/ Z.of_nat (S (length errs)) = Z.max 1 (rc_MaxAttempts cfg))) /\
    (forall i d, backoffs (max_wait cfg) (first_wait cfg) (S (length errs)) !! i = Some d ->
       d = if decide (i = O) then first_wait cfg
           else Z.min (max_wait cfg) (first_wait cfg * 2 ^ Z.of_nat i)).
Proof.
  intros Hrun Hb Hm. unfold retryRetriable in Hrun.
  assert (Hatt : Z.of_nat (attempts (rc_MaxAttempts cfg)) = Z.max 1 (rc_MaxAttempts cfg)).
  { unfold attempts. destruct (rc_MaxAttempts cfg <? 1) eqn:Ha; zbool; lia. }
  assert (Hpos : (0 < attempts (rc_MaxAttempts cfg))%nat) by lia.
  destruct (retry_log _ _ _ _ _ _ _ _ _ _ Hpos Hrun) as (errs & rest & Herrs & Hlen & -> & Hends).
  exists errs, rest. split.
  { eapply Forall_impl; [exact Herrs|]. cbn. intros e ?%negb_false_iff. done. }
  split; [lia|]. split; [done|]. split.
  - destruct Hends as [?|[(e & d & e' & -> & Hs%negb_false_iff & Hn & Hd & ->)|[-> Ho]]]; [by left|right; left|right; right].
    + exists e, d, e'. split_and!; [done..|lia|done|done].
    + split; [done|]. intros e He. destruct (Ho e He) as [?%negb_true_iff|?]; [by left|right; lia].
  - intros i d Hd. rewrite backoffs_spec in Hd.
    + by injection Hd as <-.
    + unfold max_wait, Second, Millisecond. case_goal; zbool; lia.
    + unfold first_wait, Millisecond. case_goal; zbool; lia.
    + apply lookup_lt_Some in Hd. by rewrite length_backoffs in Hd.
Qed.
End logged.

(** A function that fails [k] times with NOT_LEADER and then succeeds. *)
Definition flaky (k : nat) : nat * res unit :=
  match k with O => (O, Ok tt) | S k => (k, Err (KafkaError 6 [] 0)) end.

Definition demo_retry : RetryConfig := mkRetryConfig 5 0 0.

Lemma retry_retriable_spec_witness :
  let run := retryRetriable (logged_ctx (fun _ => None)) (logged_sleep (fun _ s => (s, None)))
               demo_retry (logged flaky) (3%nat, []) in
  snd run = Ok tt /\
  snd (fst run) = retried (2 * Second) (100 * Millisecond) (replicate 3 (KafkaError 6 [] 0)) ++ [Call (Ok tt)] /\
  exists errs rest, Z.of_nat (length errs) < 5 /\
    snd (fst run) = retried (max_wait demo_retry) (first_wait demo_retry) errs ++ rest.
Proof.
  cbv zeta. split; [reflexivity|]. split; [reflexivity|].
  destruct (retryRetriable (logged_ctx (fun _ => None)) (logged_sleep (fun _ s => (s, None)))
    demo_retry (logged flaky) (3%nat, [])) as [[t log] out] eqn:Hrun.
  destruct (retry_retriable_spec (fun _ => None) (fun _ s => (s, None)) demo_retry flaky 3%nat t log out Hrun
    ltac:(vm_compute; reflexivity) ltac:(vm_compute; reflexivity)) as (errs & rest & _ & Hlen & Hlog & _).
  exists errs, rest. split; [exact Hlen|exact Hlog].
Defined.

(** A preorder that the retried function and the sleeps respect relates the
    start of a run to its end. *)
Lemma retry_loop_rel {St} ctx sleep stop maxWait fn (R : St -> St -> Prop) n :
  (forall s, R s s) -> (forall a b c, R a b -> R b c -> R a c) ->
  (forall s, R s (fst (fn s))) -> (forall d s, R s (fst (sleep d s))) ->
  forall wait s, R s (fst (retry_loop ctx sleep stop maxWait fn n wait s)).
Proof.
  intros Hrefl Htrans Hfn Hsl. induction n as [|n IH]; intros wait s; cbn [retry_loop]; [apply Hrefl|].
  destruct (ctx s); [apply Hrefl|]. pose proof (Hfn s) as H1.
  destruct (fn s) as [s1 [[]|e|]]; cbn [fst] in *; [done| |done].
  destruct (stop e); [done|]. destruct n as [|n']; [done|]. pose proof (Hsl wait s1) as H2.
  destruct (sleep wait s1) as [s2 [e'|]]; cbn [fst] in *; [by eapply Htrans|].
  eapply Htrans; [exact H1|]. eapply Htrans; [exact H2|]. apply IH.
Qed.

Lemma retry_loop_inv {St} ctx sleep stop maxWait fn (I : St -> Prop) n wait s s' o :
  (forall s, I s -> I (fst (fn s))) -> (forall d s, I s -> I (fst (sleep d s))) ->
  I s -> retry_loop ctx sleep stop maxWait fn n wait s = (s', o) -> I s'.
Proof.
  intros Hfn Hsl HI Hrun.
  pose proof (retry_loop_rel ctx sleep stop maxWait fn (fun a b => I a -> I b) n) as Hrel. cbn in Hrel.
  specialize (Hrel (fun _ h => h) (fun _ _ _ f g h => g (f h)) Hfn Hsl wait s HI). by rewrite Hrun in Hrel.
Qed.

(** A run that succeeds ends with a successful call, from a state the run
    reached. *)
Lemma retry_loop_success {St} ctx sleep stop maxWait fn (I : St -> Prop) n :
  (forall s, I s -> I (fst (fn s))) -> (forall d s, I s -> I (fst (sleep d s))) ->
  forall wait s s', (0 < n)%nat -> I s -> retry_loop ctx sleep stop maxWait fn n wait s = (s', Ok tt) ->
  exists s0, I s0 /\ fn s0 = (s', Ok tt).
Proof.
  intros Hfn Hsl. induction n as [|n IH]; intros wait s s' Hn HI; [lia|]. cbn [retry_loop].
  destruct (ctx s); [done|]. pose proof (Hfn s HI) as H1.
  destruct (fn s) as [s1 [[]|e|]] eqn:Hf; cbn [fst] in *; [| |done].
  { intros [= <-]. by exists s. }
  destruct (stop e); [done|]. destruct n as [|n']; [done|]. pose proof (Hsl wait s1 H1) as H2.
  destruct (sleep wait s1) as [s2 [e'|]]; cbn [fst] in *; [done|].
  intros Hr. eapply IH; [lia|exact H2|exact Hr].
Qed.
