(* ===== verification/Producer.v ===== *)
(** The synchronous producer: [producer.go], with the InitProducerID codec of
    [internal/protocol/transaction.go].

    What lies behind the producer (the cluster's connections and brokers, the
    clock, the caller's context) is the class [ClusterEnv] over an abstract
    world; the user-supplied partitioner is the class [PartitionerOps].  A call
    threads the producer state; errors are [Err], and a panic of the calling
    goroutine is [Panic].  The per-broker goroutines of one send run in an
    arbitrary order (the iteration order of Go's maps); metrics, logs and spans
    are left out.  [Record] is a keyword, so the type of records is
    [record]. *)

From Stdlib Require Import ZArith Lia.
From Stdlib Require Import Strings.Byte.
From stdpp Require Import base list gmap countable strings.
From S2P Require Import Prelude.
From S2P Require Import Wire.
From S2P Require Import Header.
From S2P Require Import Compress.
From S2P Require Import RecordBatch.
From S2P Require Import ProduceCodec.
From S2P Require Import Metadata.
From S2P Require Import SeqState.
From S2P Require Import Retry.

Open Scope Z_scope.

(** * Data *)

(** The fields a produced record carries ([Offset] and [DeliveryCount] are for
    consumers).  [r_Timestamp] is [None] for the zero time. *)
Record record := mkRecord {
  r_Topic : bytes;
  r_Partition : Z;
  r_Key : bytes;
  r_Value : bytes;
  r_Headers : list (bytes * bytes);
  r_Timestamp : option Z }.

Record ProduceRecordResult := mkProduceRecordResult {
  prr_Record : record;
  prr_Topic : bytes;
  prr_Partition : Z;
  prr_Offset : Z }.

(** Go's zero values. *)
Definition zero_record : record := mkRecord [] 0 [] [] [] None.
Definition zero_result : ProduceRecordResult := mkProduceRecordResult zero_record [] 0 0.

Definition partKey : Type := bytes * Z.

(** The parts of [Config] the producer reads. *)
Record Config := mkConfig {
  cfg_Acks : Z;
  cfg_Compression : Z;
  cfg_CompressionLevel : Z;
  cfg_Idempotent : bool;
  cfg_ProducerTransactionalID : bytes;
  cfg_TransactionTransactionalID : bytes;
  cfg_TransactionTimeout : Z;
  cfg_Retry : RetryConfig }.

Definition AcksAll := -1.

(** [CompressionGzip] to [CompressionZstd] are 1 to 4. *)
Definition compressionByte (c : Config) : Z :=
  let k := cfg_Compression c in
  if k =? 1 then CodecGzip else if k =? 2 then CodecSnappy else
  if k =? 3 then CodecLZ4 else if k =? 4 then CodecZstd else CodecNone.

Definition transactionalID (c : Config) : bytes :=
  if bool_decide (cfg_ProducerTransactionalID c = []) then cfg_TransactionTransactionalID c
  else cfg_ProducerTransactionalID c.

Definition VerProduce := 12.
Definition VerInitProducerID := 0.

(** * The environment *)

Class ClusterEnv (W : Type) := {
  env_open : W -> bool;                                 (* client.requireOpen *)
  env_cluster : W -> Cluster;                           (* the metadata cache *)
  env_versions : W -> option (gmap Z Z);                (* negotiated versions *)
  env_RefreshIfStale : list bytes -> W -> W * res unit;
  env_Refresh : list bytes -> W -> W * res unit;
  env_Request : Z -> Z -> Z -> bytes -> W -> W * res bytes;       (* node, key, version, body *)
  env_RequestViaSeed : Z -> Z -> bytes -> W -> W * res bytes;
  env_TransactionCoordinator : bytes -> W -> W * res Z;
  env_Invalidate : Z -> W -> W;
  env_ctx : W -> option error;
  env_sleep : Z -> W -> W * option error;
  env_now : W -> nat -> Z;                              (* time.Now at the i-th record *)
  env_clock : W -> request_clock }.

Class PartitionerOps (PS : Type) := Partition : PS -> bytes -> Z -> PS * res Z.

(** [pidReady] with [pid] and [idState] is one optional field. *)
Record Producer (W PS : Type) := mkProducer {
  p_world : W;
  p_partitioner : PS;
  p_id : option (ProducerID * State) }.
Arguments mkProducer {W PS}.
Arguments p_world {W PS}.
Arguments p_partitioner {W PS}.
Arguments p_id {W PS}.

(** * Helpers *)

(** The loop [if _, ok := seen[k]; ok { continue }; seen[k] = ...; out = append(out, k)]. *)
Definition first_seen {K} `{Countable K} (so : gset K * list K) (k : K) : gset K * list K :=
  if bool_decide (k ∈ fst so) then so else ({[k]} ∪ fst so, snd so ++ [k]).

Definition uniqueTopics (records : list record) : list bytes :=
  snd (fold_left first_seen (map r_Topic records) (∅, [])).

Definition brokerPartKeys (batch : list ProduceRecord) : list partKey :=
  snd (fold_left first_seen (map (fun r => (pr_Topic r, pr_Partition r)) batch) (∅, [])).

(** The unacknowledged records with their indices. *)
Fixpoint pending_from (i : nat) (frozen : list record) (acked : list bool) : list (record * nat) :=
  match frozen, acked with
  | r :: frozen, a :: acked =>
      if a then pending_from (S i) frozen acked else (r, i) :: pending_from (S i) frozen acked
  | _, _ => []
  end.

Definition pendingRecords (frozen : list record) (acked : list bool) : list record * list nat :=
  let l := pending_from 0 frozen acked in (map fst l, map snd l).

Definition is_acked (r : ProduceRecordResult) : bool := negb (bool_decide (prr_Topic r = [])).

Fixpoint mergeAcked (results : list ProduceRecordResult) (acked : list bool)
    (origIdx : list nat) (rs : list ProduceRecordResult) {struct rs} : list ProduceRecordResult * list bool :=
  match rs, origIdx with
  | r :: rs, i :: origIdx =>
      if is_acked r then mergeAcked (<[i := r]> results) (<[i := true]> acked) origIdx rs
      else mergeAcked results acked origIdx rs
  | _, _ => (results, acked)
  end.

Definition timeNow (now : Z) (ts : option Z) : Z := default now ts.

(** * Producing *)

Section producer.
Context `{Codecs} `{MapOrder} {W PS : Type} `{ClusterEnv W} `{PartitionerOps PS}.
Context (cfg : Config).

Local Notation producer := (Producer W PS).

Definition set_world (p : producer) (w : W) : producer := mkProducer w (p_partitioner p) (p_id p).
Definition set_partitioner (p : producer) (ps : PS) : producer := mkProducer (p_world p) ps (p_id p).
Definition set_id (p : producer) (i : option (ProducerID * State)) : producer :=
  mkProducer (p_world p) (p_partitioner p) i.

(** The partitions of the first topic entry with the record's topic. *)
Definition topic_partitions (c : Cluster) (topic : bytes) : list PartitionMeta :=
  match List.find (fun t => bool_decide (tm_Name t = topic)) (md_Topics (cl_meta c)) with
  | Some t => tm_Partitions t
  | None => []
  end.

(** Partition and leader of a record. *)
Definition resolvePartition (p : producer) (r : record) : producer * res (Z * Z) :=
  let c := env_cluster (p_world p) in
  let parts := topic_partitions c (r_Topic r) in
  if len parts =? 0 then (p, Err (FmtError "gokafka: unknown topic" 0)) else
  if r_Partition r >=? 0 then
    match LeaderNodeID c (r_Topic r) (r_Partition r) with
    | Some leader => (p, Ok (r_Partition r, leader))
    | None => (p, Err (KafkaError 5 (r_Topic r) (r_Partition r)))
    end
  else
    let '(ps, idx) := Partition (p_partitioner p) (r_Key r) (len parts) in
    (set_partitioner p ps,
     let? i := idx in let? pm := index parts i in Ok (pm_Partition pm, pm_Leader pm)).

Definition with_partition (r : record) (part : Z) : record :=
  mkRecord (r_Topic r) part (r_Key r) (r_Value r) (r_Headers r) (r_Timestamp r).

Fixpoint freezePartitions (p : producer) (records : list record) : producer * res (list record) :=
  match records with
  | [] => (p, Ok [])
  | r :: rest =>
      let '(p, fr) :=
        if r_Partition r <? 0 then
          let '(p, o) := resolvePartition p r in
          (p, let? pl := o in Ok (with_partition r (fst pl)))
        else (p, Ok r) in
      match fr with
      | Ok r' => let '(p, rs) := freezePartitions p rest in (p, let? rs := rs in Ok (r' :: rs))
      | Err e => (p, Err e)
      | Panic => (p, Panic)
      end
  end.

(** The maps [inputByKey] and [byBroker]. *)
Definition routed : Type := gmap partKey (list (nat * record)) * gmap Z (list ProduceRecord).

Definition push {K V} `{Countable K} (m : gmap K (list V)) (k : K) (v : V) : gmap K (list V) :=
  <[k := default [] (m !! k) ++ [v]]> m.

Definition to_produce (r : record) (part now : Z) : ProduceRecord :=
  mkProduceRecord (r_Topic r) part (r_Key r) (r_Value r) (r_Headers r) (Some (timeNow now (r_Timestamp r))).

Fixpoint route (p : producer) (i : nat) (records : list record) (m : routed) : producer * res routed :=
  match records with
  | [] => (p, Ok m)
  | r :: rest =>
      let '(p, o) := resolvePartition p r in
      match o with
      | Ok (part, leader) =>
          route p (S i) rest
            (push (fst m) (r_Topic r, part) (i, r),
             push (snd m) leader (to_produce r part (env_now (p_world p) i)))
      | Err e => (p, Err e)
      | Panic => (p, Panic)
      end
  end.

Definition produceSettings (seq : bytes -> Z -> Z) (pid : option ProducerID) (transactional : bool) : ProduceSettings :=
  mkProduceSettings
    (if transactional then AcksAll else cfg_Acks cfg) 30000 (compressionByte cfg) (cfg_CompressionLevel cfg)
    transactional (if transactional then transactionalID cfg else [])
    (from_option pid_ID 0 pid) (from_option pid_Epoch 0 pid)
    (match pid with Some _ => Some seq | None => None end).

(** The loop over one broker's results: the results slice, the failed keys,
    the first error and the last fatal one. *)
Record broker_acc := mkBrokerAcc {
  ba_results : list ProduceRecordResult;
  ba_failed : list partKey;
  ba_first : option error;
  ba_fatal : option error }.

Fixpoint fill_results (results : list ProduceRecordResult) (res : ProduceResult) (many : bool)
    (i : Z) (inputs : list (nat * record)) : list ProduceRecordResult :=
  match inputs with
  | [] => results
  | (idx, rec) :: inputs =>
      let off := if many then s64 (pres_Offset res + i) else pres_Offset res in
      fill_results (<[idx := mkProduceRecordResult rec (pres_Topic res) (pres_Partition res) off]> results)
        res many (i + 1) inputs
  end.

Definition broker_result (inputByKey : gmap partKey (list (nat * record))) (a : broker_acc) (res : ProduceResult) : broker_acc :=
  let pk := (pres_Topic res, pres_Partition res) in
  if negb (pres_ErrorCode res =? 0) then
    let ke := KafkaError (pres_ErrorCode res) (pres_Topic res) (pres_Partition res) in
    mkBrokerAcc (ba_results a) (ba_failed a ++ [pk])
      (match ba_first a with None => Some ke | e => e end)
      (if IsRetriable ke then ba_fatal a else Some ke)
  else
    let inputs := default [] (inputByKey !! pk) in
    mkBrokerAcc (fill_results (ba_results a) res (len inputs >? 1) 0 inputs)
      (ba_failed a) (ba_first a) (ba_fatal a).

Definition broker_results (inputByKey : gmap partKey (list (nat * record))) (results : list ProduceRecordResult)
    (rs : list ProduceResult) : list ProduceRecordResult * (list partKey * option error) :=
  let a := fold_left (broker_result inputByKey) rs (mkBrokerAcc results [] None None) in
  (ba_results a, (ba_failed a, match ba_fatal a with Some e => Some e | None => ba_first a end)).

Definition produceToBroker (w : W) (node : Z) (batch : list ProduceRecord)
    (inputByKey : gmap partKey (list (nat * record))) (settings : ProduceSettings)
    (results : list ProduceRecordResult)
    : W * res (list ProduceRecordResult * (list partKey * option error)) :=
  let ver := negotiatedVersion (env_versions w) APIProduce VerProduce in
  match EncodeProduceRequest (env_clock w) ver batch settings with
  | Panic => (w, Panic)
  | Err e => (w, Ok (results, (brokerPartKeys batch, Some e)))
  | Ok body =>
      let '(w, rb) := env_Request node APIProduce ver body w in
      match rb with
      | Panic => (w, Panic)
      | Err e => (w, Ok (results, (brokerPartKeys batch, Some e)))
      | Ok rb =>
          match DecodeProduceResponse ver rb with
          | Panic => (w, Panic)
          | Err e => (w, Ok (results, (brokerPartKeys batch, Some e)))
          | Ok rs => (w, Ok (broker_results inputByKey results rs))
          end
      end
  end.

(** The brokers one after the other, in the order of the nodes. *)
Fixpoint fan_out (w : W) (nodes : list (Z * list ProduceRecord))
    (inputByKey : gmap partKey (list (nat * record))) (settings : ProduceSettings)
    (results : list ProduceRecordResult)
    : W * res (list ProduceRecordResult * list (list partKey * option error)) :=
  match nodes with
  | [] => (w, Ok (results, []))
  | (node, batch) :: nodes =>
      let '(w, o) := produceToBroker w node batch inputByKey settings results in
      match o with
      | Ok (results, out) =>
          let '(w, o) := fan_out w nodes inputByKey settings results in
          (w, let? ro := o in Ok (fst ro, out :: snd ro))
      | Err e => (w, Err e)
      | Panic => (w, Panic)
      end
  end.

(** [markFailed]: the failed partitions, and an error that is fatal if any is. *)
Definition markFailed (partBatches : gmap partKey Z) (acc : gmap partKey Z * option error)
    (out : list partKey * option error) : gmap partKey Z * option error :=
  let failed := fold_left (fun f k =>
    match partBatches !! k with Some n => <[k := n]> f | None => f end) (fst out) (fst acc) in
  (failed,
   match snd out with
   | None => snd acc
   | Some err =>
       match snd acc with
       | None => Some err
       | Some sendErr => if IsRetriable sendErr && negb (IsRetriable err) then Some err else Some sendErr
       end
   end).

Definition reserve_step (sc : State * gmap partKey Z) (kn : partKey * Z) : State * gmap partKey Z :=
  let '(s, base) := ReserveBlock (fst sc) (fst (fst kn)) (snd (fst kn)) (snd kn) in
  (s, <[fst kn := base]> (snd sc)).

Definition reserve_all (s : State) (batches : list (partKey * Z)) : State * gmap partKey Z :=
  fold_left reserve_step batches (s, ∅).

Definition rollback_step (s : State) (kn : partKey * Z) : State :=
  RollbackBlock s (fst (fst kn)) (snd (fst kn)) (snd kn).

Definition rollback_all (s : State) (batches : list (partKey * Z)) : State :=
  fold_left rollback_step batches s.

(** [nextSeq]: the cursor of the partition.  A partition's records go to one
    broker, in one request, so the increment that follows the read is not
    observed within a send. *)
Definition nextSeq (cursor : gmap partKey Z) (topic : bytes) (part : Z) : Z := default 0 (cursor !! (topic, part)).

Record recordSendOpts := mkSendOpts {
  so_id : option (ProducerID * State);
  so_transactional : bool }.

(** The outcome of the routed part of a send: partial results, failed
    partitions, the representative error and the sequence state. *)
Definition send_routed (w : W) (m : routed) (nrecords : nat) (opts : recordSendOpts)
    : W * res (list ProduceRecordResult * (gmap partKey Z * option error) * option (ProducerID * State)) :=
  let partBatches := (fun l => len l) <$> fst m in
  let '(id, cursor) :=
    match so_id opts with
    | Some (pid, s) => let '(s, cursor) := reserve_all s (range partBatches) in (Some (pid, s), cursor)
    | None => (None, ∅)
    end in
  let settings := produceSettings (nextSeq cursor) (fst <$> so_id opts) (so_transactional opts) in
  let '(w, o) := fan_out w (range (snd m)) (fst m) settings (replicate nrecords zero_result) in
  (w,
   let? ro := o in
   let fe := fold_left (markFailed partBatches) (snd ro) (∅, None) in
   Ok (fst ro, fe, match id with Some (pid, s) => Some (pid, rollback_all s (range (fst fe))) | None => None end)).

(** Results and error; the identity's sequence state is updated in place. *)
Definition sendRecords (p : producer) (records : list record) (opts : recordSendOpts)
    : producer * option (ProducerID * State) * res (list ProduceRecordResult * option error) :=
  let '(p, o) := route p 0 records (∅, ∅) in
  match o with
  | Panic => (p, so_id opts, Panic)
  | Err e => (p, so_id opts, Ok ([], Some e))
  | Ok m =>
      let '(w, o) := send_routed (p_world p) m (length records) opts in
      match o with
      | Ok (results, fe, id) => (set_world p w, id, Ok (results, snd fe))
      | Err e => (set_world p w, so_id opts, Err e)
      | Panic => (set_world p w, so_id opts, Panic)
      end
  end.

Definition sendOnce (p : producer) (records : list record) : producer * res (list ProduceRecordResult * option error) :=
  let '(p, id, o) := sendRecords p records (mkSendOpts (p_id p) false) in (set_id p id, o).

(** ** The producer id *)

Definition transactionTimeoutMs : Z :=
  let ms := s32 (cfg_TransactionTimeout cfg / Millisecond) in
  if (cfg_TransactionTimeout cfg >? 0) && (ms >? 0) then ms else 60000.

Definition EncodeInitProducerID (txnID : option bytes) (txnTimeoutMs : Z) : Enc :=
  WriteNullableString txnID +++ WriteInt32 txnTimeoutMs.

Definition read_init_producer_id : Rd ProducerID :=
  ReadInt32 ;;;
  errCode <- ReadInt16 ;;
  (if negb (errCode =? 0) then fail (APIError "init producer id" errCode) else ret tt) ;;;
  id <- ReadInt64 ;;
  epoch <- ReadInt16 ;;
  ret (mkProducerID id epoch).

Definition DecodeInitProducerID (body : bytes) : res ProducerID := run read_init_producer_id body.

Definition CoordinatorRetriable (code : Z) : bool := (code =? 14) || (code =? 15) || (code =? 16).

(** The retried function of [ensureProducerID]; the world and the id it sets. *)
Definition init_attempt (body : bytes) (s : W * option ProducerID) : (W * option ProducerID) * res unit :=
  let '(w, pid) := s in
  let txnID := transactionalID cfg in
  let '(w, coord) :=
    if bool_decide (txnID = []) then (w, Ok 0) else env_TransactionCoordinator txnID w in
  match coord with
  | Err e => ((w, pid), Err e)
  | Panic => ((w, pid), Panic)
  | Ok coord =>
      let '(w, rb) :=
        if bool_decide (txnID = []) then env_RequestViaSeed APIInitProducerID VerInitProducerID body w
        else env_Request coord APIInitProducerID VerInitProducerID body w in
      match rb with
      | Err e => ((w, pid), Err e)
      | Panic => ((w, pid), Panic)
      | Ok rb =>
          match DecodeInitProducerID rb with
          | Ok id => ((w, Some id), Ok tt)
          | Panic => ((w, pid), Panic)
          | Err (APIError _ code) =>
              let w := if CoordinatorRetriable code && negb (bool_decide (txnID = []))
                       then env_Invalidate coord w else w in
              ((w, pid), Err (KafkaError code [] 0))
          | Err e => ((w, pid), Err e)
          end
      end
  end.

Definition ensureProducerID (p : producer) : producer * res unit :=
  let txnID := transactionalID cfg in
  if negb (cfg_Idempotent cfg) && bool_decide (txnID = []) then (p, Ok tt) else
  match p_id p with
  | Some _ => (p, Ok tt)
  | None =>
      match EncodeInitProducerID (if bool_decide (txnID = []) then None else Some txnID) transactionTimeoutMs with
      | Err e => (p, Err e)
      | Panic => (p, Panic)
      | Ok body =>
          let '((w, pid), o) :=
            retryRetriable (fun s => env_ctx (fst s))
              (fun d s => let '(w, e) := env_sleep d (fst s) in ((w, snd s), e))
              (coordinatorRetry (cfg_Retry cfg)) (init_attempt body) (p_world p, None) in
          match o with
          | Ok _ => (mkProducer w (p_partitioner p) ((fun id => (id, NewState id)) <$> pid), Ok tt)
          | o => (set_world p w, o)
          end
      end
  end.

(** ** ProduceSync *)

(** The variables the retried closure captures. *)
Record sync_state := mkSync {
  sy_p : producer;
  sy_results : list ProduceRecordResult;
  sy_acked : list bool;
  sy_frozen : option (list record) }.

Definition sync_p (s : sync_state) (p : producer) : sync_state :=
  mkSync p (sy_results s) (sy_acked s) (sy_frozen s).

(** The partitions of the records, chosen on the first use. *)
Definition freeze_once (records : list record) (s : sync_state) : sync_state * res (list record) :=
  match sy_frozen s with
  | Some f => (s, Ok f)
  | None =>
      let '(p, o) := freezePartitions (sy_p s) records in
      match o with
      | Ok f => (mkSync p (sy_results s) (sy_acked s) (Some f), Ok f)
      | o => (sync_p s p, o)
      end
  end.

(** The send of the unacknowledged records and the merge of its results. *)
Definition send_pending (topics : list bytes) (frozen : list record) (s : sync_state) : sync_state * res unit :=
  let '(pending, origIdx) := pendingRecords frozen (sy_acked s) in
  let '(p, o) := sendOnce (sy_p s) pending in
  match o with
  | Panic => (sync_p s p, Panic)
  | Err e => (sync_p s p, Err e)
  | Ok (res, err) =>
      let '(results, acked) := mergeAcked (sy_results s) (sy_acked s) origIdx res in
      match err with
      | None => (mkSync p results acked (sy_frozen s), Ok tt)
      | Some e =>
          let p := if IsRetriable e then set_world p (fst (env_Refresh topics (p_world p))) else p in
          (mkSync p results acked (sy_frozen s), Err e)
      end
  end.

Definition sync_attempt (topics : list bytes) (records : list record) (s : sync_state) : sync_state * res unit :=
  let '(w, o) := env_RefreshIfStale topics (p_world (sy_p s)) in
  let s := sync_p s (set_world (sy_p s) w) in
  match o with
  | Err e => (s, Err e)
  | Panic => (s, Panic)
  | Ok _ =>
      let '(s, o) := freeze_once records s in
      match o with
      | Err e => (s, Err e)
      | Panic => (s, Panic)
      | Ok frozen => send_pending topics frozen s
      end
  end.

Definition sync_ctx (s : sync_state) : option error := env_ctx (p_world (sy_p s)).

Definition sync_sleep (d : Z) (s : sync_state) : sync_state * option error :=
  let '(w, e) := env_sleep d (p_world (sy_p s)) in (sync_p s (set_world (sy_p s) w), e).

Definition sync_start (p : producer) (records : list record) : sync_state :=
  mkSync p (replicate (length records) zero_result) (replicate (length records) false) None.

(** Results, which may be partial, and error. *)
Definition ProduceSyncResult (p : producer) (records : list record)
    : producer * (list ProduceRecordResult * res unit) :=
  if negb (env_open (p_world p)) then (p, ([], Err (FmtError "gokafka: client is closed" 0))) else
  match records with
  | [] => (p, ([], Ok tt))
  | _ =>
      let '(p, o) := ensureProducerID p in
      match o with
      | Ok _ =>
          let '(s, o) := retryRetriable sync_ctx sync_sleep (cfg_Retry cfg)
            (sync_attempt (uniqueTopics records) records) (sync_start p records) in
          (sy_p s, (sy_results s, o))
      | o => (p, ([], o))
      end
  end.

Definition ProduceSync (p : producer) (records : list record) : producer * res unit :=
  let '(p, (_, o)) := ProduceSyncResult p records in (p, o).
End producer.

(** * The requests of a run *)

(** What was asked of a node and what came back. *)
Record call := mkCall { call_node : Z; call_api : Z; call_ver : Z; call_body : bytes; call_reply : res bytes }.

(** A request through the seeds is recorded with this node. *)
Definition seed_node : Z := -1.

(** A cluster that remembers its calls of [Request] and [RequestViaSeed], in
    order; nothing else adds to the list.  The theorems about what is sent, to
    whom and when are stated on such clusters. *)
Class TracedEnv (W : Type) `{ClusterEnv W} := {
  env_calls : W -> list call;
  calls_Request node api ver body w :
    env_calls (fst (env_Request node api ver body w)) =
      env_calls w ++ [mkCall node api ver body (snd (env_Request node api ver body w))];
  calls_RefreshIfStale topics w : env_calls (fst (env_RefreshIfStale topics w)) = env_calls w;
  calls_Refresh topics w : env_calls (fst (env_Refresh topics w)) = env_calls w;
  calls_RequestViaSeed api ver body w :
    env_calls (fst (env_RequestViaSeed api ver body w)) =
      env_calls w ++ [mkCall seed_node api ver body (snd (env_RequestViaSeed api ver body w))];
  calls_TransactionCoordinator id w : env_calls (fst (env_TransactionCoordinator id w)) = env_calls w;
  calls_Invalidate node w : env_calls (env_Invalidate node w) = env_calls w;
  calls_sleep d w : env_calls (fst (env_sleep d w)) = env_calls w }.

(** Every cluster becomes one when the list is kept next to it. *)
Section recorded.
Context {W : Type} `{ClusterEnv W}.

Definition beside {A} (f : W -> W * A) (w : W * list call) : (W * list call) * A := let '(w', a) := f (fst w) in ((w', snd w), a).

Definition recorded_Request (node api ver : Z) (body : bytes) (w : W * list call) : (W * list call) * res bytes :=
  let '(w', r) := env_Request node api ver body (fst w) in ((w', snd w ++ [mkCall node api ver body r]), r).

Definition recorded_RequestViaSeed (api ver : Z) (body : bytes) (w : W * list call) : (W * list call) * res bytes :=
  let '(w', r) := env_RequestViaSeed api ver body (fst w) in ((w', snd w ++ [mkCall seed_node api ver body r]), r).

Definition recorded : ClusterEnv (W * list call) := {|
  env_open w := env_open (fst w);
  env_cluster w := env_cluster (fst w);
  env_versions w := env_versions (fst w);
  env_RefreshIfStale topics := beside (env_RefreshIfStale topics);
  env_Refresh topics := beside (env_Refresh topics);
  env_Request := recorded_Request;
  env_RequestViaSeed := recorded_RequestViaSeed;
  env_TransactionCoordinator id := beside (env_TransactionCoordinator id);
  env_Invalidate node w := (env_Invalidate node (fst w), snd w);
  env_ctx w := env_ctx (fst w);
  env_sleep d := beside (env_sleep d);
  env_now w := env_now (fst w);
  env_clock w := env_clock (fst w) |}.

Program Definition recorded_traced : @TracedEnv (W * list call) recorded := {| env_calls := snd |}.
Solve All Obligations with
  (intros; cbn; unfold recorded_Request, recorded_RequestViaSeed, beside; by repeat match goal with |- context [let '(_, _) := ?x in _] => destruct x end).
End recorded.

(** ** Extending the list *)

Section extends.
Context {W : Type} `{ClusterEnv W} `{!TracedEnv W}.

Definition extends (w w' : W) : Prop := exists l, env_calls w' = env_calls w ++ l.

#[export] Instance extends_preorder : PreOrder extends.
Proof.
  split; [intros w; exists []; by rewrite app_nil_r|].
  intros w1 w2 w3 [l1 H1] [l2 H2]. exists (l1 ++ l2). by rewrite H2, H1, app_assoc.
Qed.

Lemma extends_same w w' : env_calls w' = env_calls w -> extends w w'.
Proof. intros E. exists []. by rewrite E, app_nil_r. Qed.

Lemma extends_Request node api ver body w : extends w (fst (env_Request node api ver body w)).
Proof. unfold extends. rewrite calls_Request. by eexists. Qed.

Lemma extends_RefreshIfStale topics w : extends w (fst (env_RefreshIfStale topics w)).
Proof. apply extends_same, calls_RefreshIfStale. Qed.
Lemma extends_Refresh topics w : extends w (fst (env_Refresh topics w)).
Proof. apply extends_same, calls_Refresh. Qed.
Lemma extends_RequestViaSeed api ver body w : extends w (fst (env_RequestViaSeed api ver body w)).
Proof. unfold extends. rewrite calls_RequestViaSeed. by eexists. Qed.
Lemma extends_TransactionCoordinator id w : extends w (fst (env_TransactionCoordinator id w)).
Proof. apply extends_same, calls_TransactionCoordinator. Qed.
Lemma extends_Invalidate node w : extends w (env_Invalidate node w).
Proof. apply extends_same, calls_Invalidate. Qed.
Lemma extends_sleep d w : extends w (fst (env_sleep d w)).
Proof. apply extends_same, calls_sleep. Qed.
End extends.

Create HintDb calls.
#[export] Hint Resolve extends_Request extends_RefreshIfStale extends_Refresh extends_RequestViaSeed
  extends_TransactionCoordinator extends_Invalidate extends_sleep : calls.
#[export] Hint Extern 1 (extends ?w ?w) => reflexivity : calls.

(** ** Which calls are added *)

Section adds.
Context {W : Type} `{ClusterEnv W} `{!TracedEnv W} (P : call -> Prop).

(** Only calls with [P] are made on the way. *)
Definition adds (w w' : W) : Prop := exists l, env_calls w' = env_calls w ++ l /\ Forall P l.

#[export] Instance adds_preorder : PreOrder adds.
Proof.
  split; [intros w; exists []; by rewrite app_nil_r|].
  intros w1 w2 w3 (l1 & H1 & F1) (l2 & H2 & F2). exists (l1 ++ l2). by rewrite H2, H1, app_assoc, Forall_app.
Qed.

Lemma adds_same w w' : env_calls w' = env_calls w -> adds w w'.
Proof. intros E. exists []. by rewrite E, app_nil_r. Qed.

Lemma adds_Request node api ver body w :
  (forall reply, P (mkCall node api ver body reply)) -> adds w (fst (env_Request node api ver body w)).
Proof. intros HP. unfold adds. rewrite calls_Request. eexists. split; [done|]. by repeat constructor. Qed.

Lemma adds_RefreshIfStale topics w : adds w (fst (env_RefreshIfStale topics w)).
Proof. apply adds_same, calls_RefreshIfStale. Qed.
Lemma adds_Refresh topics w : adds w (fst (env_Refresh topics w)).
Proof. apply adds_same, calls_Refresh. Qed.
Lemma adds_RequestViaSeed api ver body w :
  (forall reply, P (mkCall seed_node api ver body reply)) -> adds w (fst (env_RequestViaSeed api ver body w)).
Proof. intros HP. unfold adds. rewrite calls_RequestViaSeed. eexists. split; [done|]. by repeat constructor. Qed.
Lemma adds_TransactionCoordinator id w : adds w (fst (env_TransactionCoordinator id w)).
Proof. apply adds_same, calls_TransactionCoordinator. Qed.
Lemma adds_sleep d w : adds w (fst (env_sleep d w)).
Proof. apply adds_same, calls_sleep. Qed.
End adds.
#[export] Hint Resolve adds_RefreshIfStale adds_Refresh adds_TransactionCoordinator adds_sleep : calls.
