(* ===== verification/ProducerFacts.v ===== *)
(** What the synchronous producer guarantees: acknowledged records are never
    sent again and keep their results, a successful call has an
    acknowledgement for every record, and the sequence numbers follow the
    outcome of every partition. *)

From Stdlib Require Import ZArith Lia.
From Stdlib Require Import Strings.Byte.
From stdpp Require Import base list gmap countable strings relations.
From S2P Require Import Prelude.
From S2P Require Import Wire.
From S2P Require Import Header.
From S2P Require Import Compress.
From S2P Require Import RecordBatch.
From S2P Require Import ProduceCodec.
From S2P Require Import Metadata.
From S2P Require Import SeqState.
From S2P Require Import Retry.
From S2P Require Import Producer.

Open Scope Z_scope.

(** * Pending records and merging *)

Lemma pending_from_elem frozen : forall i acked r j,
  (r, j) ∈ pending_from i frozen acked <->
  (i <= j)%nat /\ frozen !! (j - i)%nat = Some r /\ acked !! (j - i)%nat = Some false.
Proof.
  induction frozen as [|r0 frozen IH]; intros i acked r j; cbn [pending_from].
  { split; [by intros ?%not_elem_of_nil|]. intros (_ & ? & _). by rewrite lookup_nil in *. }
  destruct acked as [|a acked].
  { split; [by intros ?%not_elem_of_nil|]. intros (_ & _ & ?). by rewrite lookup_nil in *. }
  assert (Hrest : (r, j) ∈ pending_from (S i) frozen acked <->
    (S i <= j)%nat /\ (r0 :: frozen) !! (j - i)%nat = Some r /\ (a :: acked) !! (j - i)%nat = Some false).
  { rewrite IH. split; intros (Hij & Hf & Ha); split_and!; try lia;
      replace (j - i)%nat with (S (j - S i)) in * by lia; done. }
  destruct a.
  - rewrite Hrest. split; intros (Hij & Hf & Ha); split_and!; try done; try lia.
    destruct (decide (i = j)) as [->|]; [|lia]. by rewrite Nat.sub_diag in Ha.
  - rewrite elem_of_cons, Hrest. split.
    + intros [[= -> ->]|(? & ? & ?)]; [rewrite Nat.sub_diag; auto with lia|auto with lia].
    + intros (Hij & Hf & Ha). destruct (decide (i = j)) as [->|]; [left|right; auto with lia].
      rewrite Nat.sub_diag in Hf. by injection Hf as ->.
Qed.

Lemma pending_from_nodup frozen : forall i acked,
  NoDup (map snd (pending_from i frozen acked)).
Proof.
  induction frozen as [|r0 frozen IH]; intros i acked; cbn [pending_from]; [constructor|].
  destruct acked as [|[] acked]; [constructor|apply IH|]. cbn [map snd]. constructor; [|apply IH].
  intros ((r & j) & -> & Hin)%list_elem_of_fmap. cbn in Hin. apply pending_from_elem in Hin. cbn in Hin. lia.
Qed.

(** The results slice after a merge, position by position. *)
Lemma mergeAcked_lookup rs : forall results acked origIdx i,
  NoDup origIdx ->
  (forall k r, rs !! k = Some r -> origIdx !! k = Some i -> is_acked r = false) ->
  fst (mergeAcked results acked origIdx rs) !! i = results !! i /\
  snd (mergeAcked results acked origIdx rs) !! i = acked !! i.
Proof.
  induction rs as [|r rs IH]; intros results acked origIdx i Hnd Hno; [done|].
  destruct origIdx as [|j origIdx]; [done|]. cbn [mergeAcked]. apply NoDup_cons in Hnd as [Hj Hnd].
  assert (Hrest : forall k r, rs !! k = Some r -> origIdx !! k = Some i -> is_acked r = false)
    by (intros k r' H1 H2; exact (Hno (S k) r' H1 H2)).
  destruct (is_acked r) eqn:Hr; [|by apply IH].
  destruct (IH (<[j := r]> results) (<[j := true]> acked) origIdx i Hnd Hrest) as [-> ->].
  destruct (decide (j = i)) as [->|Hne]; [by rewrite (Hno O r eq_refl eq_refl) in Hr|].
  by rewrite !list_lookup_insert_ne.
Qed.

Lemma mergeAcked_at rs : forall results acked origIdx i k r,
  NoDup origIdx -> rs !! k = Some r -> origIdx !! k = Some i -> is_acked r = true ->
  (i < length results)%nat -> (i < length acked)%nat ->
  fst (mergeAcked results acked origIdx rs) !! i = Some r /\
  snd (mergeAcked results acked origIdx rs) !! i = Some true.
Proof.
  induction rs as [|r0 rs IH]; intros results acked origIdx i k r Hnd Hr Hi Hack Hl1 Hl2; [done|].
  destruct origIdx as [|j origIdx]; [done|]. cbn [mergeAcked]. apply NoDup_cons in Hnd as [Hj Hnd].
  destruct k as [|k]; cbn in Hr, Hi.
  - injection Hr as ->. injection Hi as ->. rewrite Hack.
    destruct (mergeAcked_lookup rs (<[i := r]> results) (<[i := true]> acked) origIdx i Hnd) as [-> ->].
    + intros k r' _ Hk. exfalso. apply Hj. by eapply list_elem_of_lookup_2.
    + by rewrite !list_lookup_insert_eq.
  - destruct (is_acked r0); eapply IH; rewrite ?length_insert; eauto.
Qed.

Lemma mergeAcked_length rs : forall results acked origIdx,
  length (fst (mergeAcked results acked origIdx rs)) = length results /\
  length (snd (mergeAcked results acked origIdx rs)) = length acked.
Proof.
  induction rs as [|r rs IH]; intros results acked origIdx; [done|].
  destruct origIdx as [|i origIdx]; [done|]. cbn [mergeAcked]. destruct (is_acked r); [|apply IH].
  destruct (IH (<[i := r]> results) (<[i := true]> acked) origIdx) as [-> ->]. by rewrite !length_insert.
Qed.

(** Where the entries of a merge come from. *)
Lemma mergeAcked_get rs : forall results acked origIdx i res,
  fst (mergeAcked results acked origIdx rs) !! i = Some res ->
  results !! i = Some res \/ exists k, rs !! k = Some res /\ origIdx !! k = Some i.
Proof.
  induction rs as [|r rs IH]; intros results acked origIdx i res; cbn [mergeAcked]; [by left|].
  destruct origIdx as [|j origIdx]; [by left|]. destruct (is_acked r); intros [Hi|(k & ? & ?)]%IH; [|right; by exists (S k)|by left|right; by exists (S k)].
  destruct (decide (j = i)) as [->|Hne]; [|left; by rewrite list_lookup_insert_ne in Hi].
  destruct (decide (i < length results)%nat) as [Hl|Hl].
  - rewrite list_lookup_insert_eq in Hi by done. injection Hi as ->. right. by exists O.
  - rewrite list_insert_ge in Hi by lia. by left.
Qed.

(** * Routing *)

Definition key_of (r : record) : partKey := (r_Topic r, r_Partition r).

(** Partitions are chosen. *)
Definition settled (rs : list record) : Prop := Forall (fun r => 0 <= r_Partition r) rs.

Definition numbered (i : nat) (rs : list record) : list (nat * record) := zip (seq i (length rs)) rs.

Lemma numbered_elem rs : forall i j r, (j, r) ∈ numbered i rs <-> (i <= j)%nat /\ rs !! (j - i)%nat = Some r.
Proof.
  induction rs as [|r0 rs IH]; intros i j r; cbn.
  { split; [by intros ?%not_elem_of_nil|]. intros [_ ?]. by rewrite lookup_nil in *. }
  fold (numbered (S i) rs). rewrite elem_of_cons, IH. split.
  - intros [[= -> ->]|[Hij Hr]]; [by rewrite Nat.sub_diag|].
    replace (j - i)%nat with (S (j - S i)) by lia. auto with lia.
  - intros [Hij Hr]. destruct (decide (i = j)) as [->|]; [left|right].
    + rewrite Nat.sub_diag in Hr. by injection Hr as ->.
    + replace (j - i)%nat with (S (j - S i)) in Hr by lia. auto with lia.
Qed.

Lemma push_lookup {K V} `{Countable K} (m : gmap K (list V)) k v k' :
  default [] (push m k v !! k') = default [] (m !! k') ++ (if decide (k = k') then [v] else []).
Proof.
  unfold push. destruct (decide (k = k')) as [<-|Hne].
  - by rewrite lookup_insert_eq.
  - rewrite lookup_insert_ne by done. by rewrite app_nil_r.
Qed.

Lemma push_nonempty {K V} `{Countable K} (m : gmap K (list V)) k v :
  (forall k', m !! k' <> Some []) -> forall k', push m k v !! k' <> Some [].
Proof.
  intros Hm k'. unfold push. destruct (decide (k = k')) as [<-|Hne].
  - rewrite lookup_insert_eq. intros [= Hnil]. by destruct (default [] (m !! k)).
  - by rewrite lookup_insert_ne.
Qed.

Section facts.
Context `{Codecs} `{MapOrder} {W PS : Type} `{ClusterEnv W} `{PartitionerOps PS} (cfg : Config).
Local Notation producer := (Producer W PS).

Definition leader_of (w : W) (r : record) : option Z := LeaderNodeID (env_cluster w) (r_Topic r) (r_Partition r).

Lemma resolve_settled (p p' : producer) r o :
  0 <= r_Partition r -> resolvePartition p r = (p', Ok o) ->
  p' = p /\ fst o = r_Partition r /\ leader_of (p_world p) r = Some (snd o).
Proof.
  intros Hr. unfold resolvePartition. case_goal; [done|].
  rewrite (proj2 (Z.geb_le _ _)) by lia. unfold leader_of.
  destruct (LeaderNodeID _ _ _); intros [= <- <-]. done.
Qed.

(** The two maps after routing settled records. *)
Record routed_ok (w : W) (i : nat) (rs : list record) (m m' : routed) : Prop := {
  ro_inputs : forall k, default [] (fst m' !! k) =
    default [] (fst m !! k) ++ filter (fun x => key_of (snd x) = k) (numbered i rs);
  ro_brokers : forall n, default [] (snd m' !! n) =
    default [] (snd m !! n) ++
    map (fun x => to_produce (snd x) (r_Partition (snd x)) (env_now w (fst x)))
      (filter (fun x => leader_of w (snd x) = Some n) (numbered i rs));
  ro_leaders : Forall (fun r => is_Some (leader_of w r)) rs;
  ro_nonempty : (forall k, fst m !! k <> Some []) -> forall k, fst m' !! k <> Some [];
  ro_batches : (forall n, snd m !! n <> Some []) -> forall n, snd m' !! n <> Some [] }.

Lemma route_settled rs : forall (p p' : producer) i m m',
  settled rs -> route p i rs m = (p', Ok m') -> p' = p /\ routed_ok (p_world p) i rs m m'.
Proof.
  induction rs as [|r rs IH]; intros p p' i m m' Hs; cbn [route].
  { intros [= <- <-]. split; [done|]. split; intros; cbn; rewrite ?app_nil_r; auto. }
  apply Forall_cons in Hs as [Hr Hs].
  destruct (resolvePartition p r) as [p1 [[part leader]|e|]] eqn:Hres; [|done..].
  apply resolve_settled in Hres as (-> & Hpart & Hl); [|done]. cbn [fst snd] in *. subst part.
  intros Hrun. apply IH in Hrun as [-> [Hin Hbr Hle Hne Hnb]]; [|done]. split; [done|].
  assert (Hnum : numbered i (r :: rs) = (i, r) :: numbered (S i) rs) by done.
  split.
  - intros k. rewrite Hnum, Hin. cbn [fst snd]. rewrite push_lookup, <- app_assoc. f_equal.
    change (r_Topic r, r_Partition r) with (key_of r).
    destruct (decide (key_of r = k)); [by rewrite filter_cons_True|by rewrite filter_cons_False].
  - intros n. rewrite Hnum, Hbr. cbn [fst snd]. rewrite push_lookup, <- app_assoc. f_equal.
    destruct (decide (leader = n)) as [<-|Hn].
    + by rewrite filter_cons_True.
    + rewrite filter_cons_False; [done|]. cbn. rewrite Hl. congruence.
  - constructor; [by eexists|done].
  - intros Hm. apply Hne. cbn. by apply push_nonempty.
  - intros Hm. apply Hnb. cbn. by apply push_nonempty.
Qed.

(** ** Results *)

(** The result acknowledges the record. *)
Definition matches (r : record) (res : ProduceRecordResult) : Prop :=
  prr_Record res = r /\ prr_Topic res = r_Topic r /\ prr_Partition res = r_Partition r.

Definition results_ok (rs : list record) (results : list ProduceRecordResult) : Prop :=
  length results = length rs /\
  forall i res, results !! i = Some res -> exists r, rs !! i = Some r /\ (res = zero_result \/ matches r res).

(** Record [i] has its acknowledgement. *)
Definition filled (rs : list record) (results : list ProduceRecordResult) (i : nat) : Prop :=
  exists r res, rs !! i = Some r /\ results !! i = Some res /\ matches r res.

Definition inputs_ok (rs : list record) (inputs : gmap partKey (list (nat * record))) : Prop :=
  forall k i r, (i, r) ∈ default [] (inputs !! k) <-> rs !! i = Some r /\ key_of r = k.

Lemma routed_inputs w rs m : routed_ok w 0 rs (∅, ∅) m -> inputs_ok rs (fst m).
Proof.
  intros [Hin _ _ _ _] k i r. rewrite Hin. cbn [fst snd]. rewrite lookup_empty. cbn [from_option app]. rewrite list_elem_of_filter, numbered_elem, Nat.sub_0_r.
  cbn. split; [intros (? & _ & ?)|intros [? ?]]; auto with lia.
Qed.

(** What a step that writes results may do: keep them well-formed, keep what
    is acknowledged, and acknowledge only records of the keys in [ks]. *)
Record fills (rs : list record) (results results' : list ProduceRecordResult) (ks : list partKey) : Prop := {
  fl_ok : results_ok rs results';
  fl_keep : forall i, filled rs results i -> filled rs results' i;
  fl_all : forall i r, rs !! i = Some r -> key_of r ∈ ks -> filled rs results' i;
  fl_only : forall i, filled rs results' i -> filled rs results i \/ exists r, rs !! i = Some r /\ key_of r ∈ ks }.

Lemma fills_refl rs results : results_ok rs results -> fills rs results results [].
Proof. intros Hok. split; auto. by intros i r _ ?%not_elem_of_nil. Qed.

Lemma fills_trans rs r1 r2 r3 k1 k2 :
  fills rs r1 r2 k1 -> fills rs r2 r3 k2 -> fills rs r1 r3 (k1 ++ k2).
Proof.
  intros [_ Hk1 Ha1 Ho1] [Hok Hk2 Ha2 Ho2]. split; [done|by auto| |].
  - intros i r Hr [?|?]%elem_of_app; [by eapply Hk2, Ha1|by eapply Ha2].
  - intros i [Hf|(r & Hr & Hin)]%Ho2.
    + apply Ho1 in Hf as [?|(r & Hr & Hin)]; [by left|right].
      exists r. split; [done|]. apply elem_of_app. by left.
    + right. exists r. split; [done|]. apply elem_of_app. by right.
Qed.

Lemma filled_insert rs results i r res j :
  results_ok rs results -> rs !! i = Some r -> matches r res ->
  filled rs (<[i := res]> results) j <-> j = i \/ filled rs results j.
Proof.
  intros [Hlen _] Hr Hm. unfold filled. assert (Hi : (i < length results)%nat).
  { rewrite Hlen. by eapply lookup_lt_Some. }
  destruct (decide (j = i)) as [->|Hne].
  - rewrite list_lookup_insert_eq by done. split; [by left|]. intros _. by exists r, res.
  - rewrite list_lookup_insert_ne by done. split; [by right|]. by intros [?|?].
Qed.

Lemma results_ok_insert rs results i r res :
  results_ok rs results -> rs !! i = Some r -> matches r res -> results_ok rs (<[i := res]> results).
Proof.
  intros [Hlen Hok] Hr Hm. split; [by rewrite length_insert|]. intros j res'.
  destruct (decide (i = j)) as [<-|Hne].
  - intros Hj. rewrite list_lookup_insert_eq in Hj by (rewrite Hlen; by eapply lookup_lt_Some).
    injection Hj as <-. by eauto.
  - rewrite list_lookup_insert_ne by done. apply Hok.
Qed.

Lemma fill_results_fills rs pr many l : forall results i,
  results_ok rs results ->
  (forall j r, (j, r) ∈ l -> rs !! j = Some r /\ key_of r = (pres_Topic pr, pres_Partition pr)) ->
  results_ok rs (fill_results results pr many i l) /\
  forall j, filled rs (fill_results results pr many i l) j <-> filled rs results j \/ exists r, (j, r) ∈ l.
Proof.
  induction l as [|[j0 r0] l IH]; intros results i Hok Hl; cbn [fill_results].
  { split; [done|]. intros j. split; [by left|]. intros [?|(r & ?%not_elem_of_nil)]; done. }
  destruct (Hl j0 r0 ltac:(left)) as [Hr0 Hk0]. unfold key_of in Hk0. injection Hk0 as Ht Hp.
  set (off := if many then _ else _).
  assert (Hm : matches r0 (mkProduceRecordResult r0 (pres_Topic pr) (pres_Partition pr) off)) by done.
  destruct (IH (<[j0 := mkProduceRecordResult r0 (pres_Topic pr) (pres_Partition pr) off]> results) (i + 1))
    as [Hok' Hf].
  { by eapply results_ok_insert. }
  { intros j r Hin. apply Hl. by right. }
  split; [done|]. intros j. rewrite Hf, filled_insert by done. split.
  - intros [[->|?]|(r & ?)]; [right; exists r0; left|by left|right; exists r; by right].
  - intros [?|(r & [[= -> ->]|?]%elem_of_cons)]; [by left; right|by left; left|right; by exists r].
Qed.

(** The keys a broker's reply acknowledges, and those it fails. *)
Definition pkey (x : ProduceResult) : partKey := (pres_Topic x, pres_Partition x).
Definition ok_keys (l : list ProduceResult) : list partKey := map pkey (filter (fun x => pres_ErrorCode x = 0) l).
Definition bad_keys (l : list ProduceResult) : list partKey := map pkey (filter (fun x => pres_ErrorCode x <> 0) l).

Lemma ok_keys_cons x l : ok_keys (x :: l) = (if decide (pres_ErrorCode x = 0) then [pkey x] else []) ++ ok_keys l.
Proof.
  unfold ok_keys. destruct (decide (pres_ErrorCode x = 0)).
  - by rewrite filter_cons_True.
  - by rewrite filter_cons_False.
Qed.

Lemma bad_keys_cons x l : bad_keys (x :: l) = (if decide (pres_ErrorCode x = 0) then [] else [pkey x]) ++ bad_keys l.
Proof.
  unfold bad_keys. destruct (decide (pres_ErrorCode x = 0)).
  - by rewrite filter_cons_False by auto.
  - by rewrite filter_cons_True.
Qed.

Section replies.
Context (rs : list record) (inputs : gmap partKey (list (nat * record))).
Context (Hinputs : inputs_ok rs inputs).

Lemma broker_fold l : forall a, results_ok rs (ba_results a) ->
  let a' := fold_left (broker_result inputs) l a in
  fills rs (ba_results a) (ba_results a') (ok_keys l) /\
  ba_failed a' = ba_failed a ++ bad_keys l /\
  (ba_first a' = None <-> ba_first a = None /\ bad_keys l = []) /\
  (ba_fatal a = None -> bad_keys l = [] -> ba_fatal a' = None).
Proof.
  induction l as [|x l IH]; intros a Hok; cbn [fold_left].
  { split_and!; [by apply fills_refl|by rewrite app_nil_r|naive_solver|done]. }
  rewrite ok_keys_cons, bad_keys_cons. unfold broker_result at 2 4 6 8.
  destruct (decide (pres_ErrorCode x = 0)) as [E|E].
  - rewrite E. cbn [Z.eqb negb app]. cbn zeta.
    set (R := fill_results _ _ _ _ _).
    destruct (fill_results_fills rs x (len (default [] (inputs !! pkey x)) >? 1)
      (default [] (inputs !! pkey x)) (ba_results a) 0 Hok) as [Hok' Hf].
    { intros j r Hj. by apply Hinputs in Hj. }
    destruct (IH (mkBrokerAcc R (ba_failed a) (ba_first a) (ba_fatal a)) Hok') as (Hfl & Hfd & Hfst & Hftl).
    split_and!; [|done..]. apply (fills_trans _ _ R _ [pkey x] (ok_keys l)); [|exact Hfl]. unfold R.
    split; [done| | |]; cbn [ba_results]; intros i; rewrite ?Hf.
    + by left.
    + intros r Hr Hk%list_elem_of_singleton. apply Hf. right. exists r. by apply Hinputs.
    + intros [?|(r & Hr)]; [by left|right]. apply Hinputs in Hr as [Hr Hk].
      exists r. split; [done|]. by apply list_elem_of_singleton.
  - rewrite (proj2 (Z.eqb_neq _ _)) by done. cbn [negb app]. cbn zeta.
    match goal with |- context [fold_left _ _ ?b] =>
      destruct (IH b Hok) as (Hfl & Hfd & Hfst & Hftl) end.
    cbn [ba_results ba_failed ba_first ba_fatal] in *.
    split_and!; [done|by rewrite Hfd, <- app_assoc| |done].
    rewrite Hfst. destruct (ba_first a); naive_solver.
Qed.

Lemma broker_results_spec results l results' failed err :
  results_ok rs results -> broker_results inputs results l = (results', (failed, err)) ->
  fills rs results results' (ok_keys l) /\ failed = bad_keys l /\ (err = None <-> bad_keys l = []).
Proof.
  intros Hok. unfold broker_results.
  destruct (broker_fold l (mkBrokerAcc results [] None None) Hok) as (Hfl & Hfd & Hfst & Hftl).
  cbn [ba_results ba_failed ba_first ba_fatal app] in *. cbn zeta. intros [= <- <- <-].
  split_and!; [done..|]. split.
  - destruct (ba_fatal _); [done|]. by intros [_ ?]%Hfst.
  - intros Hb. rewrite Hftl by done. by apply Hfst.
Qed.

(** The broker [node] answered the request for [batch] with [l]. *)
Definition replied (settings : ProduceSettings) (node : Z) (batch : list ProduceRecord) (l : list ProduceResult) : Prop :=
  exists w w' body rb,
    let ver := negotiatedVersion (env_versions w) APIProduce VerProduce in
    EncodeProduceRequest (env_clock w) ver batch settings = Ok body /\
    env_Request node APIProduce ver body w = (w', Ok rb) /\
    DecodeProduceResponse ver rb = Ok l.

(** The outcome of one broker: a failed request, or a reply. *)
Definition outcome (settings : ProduceSettings) (nb : Z * list ProduceRecord)
    (out : list partKey * option error) (oks : list partKey) : Prop :=
  (oks = [] /\ fst out = brokerPartKeys (snd nb) /\ snd out <> None) \/
  (exists l, replied settings (fst nb) (snd nb) l /\ oks = ok_keys l /\ fst out = bad_keys l /\
             (snd out = None <-> bad_keys l = [])).

Lemma produceToBroker_spec (w w' : W) node batch settings results results' out :
  results_ok rs results ->
  produceToBroker w node batch inputs settings results = (w', Ok (results', out)) ->
  exists oks, outcome settings (node, batch) out oks /\ fills rs results results' oks.
Proof.
  intros Hok. unfold produceToBroker. cbn zeta.
  set (ver := negotiatedVersion _ _ _).
  assert (Hfail : forall e, exists oks, outcome settings (node, batch) (brokerPartKeys batch, Some e) oks /\
    fills rs results results oks).
  { intros e. exists []. split; [by left|by apply fills_refl]. }
  destruct (EncodeProduceRequest (env_clock w) ver batch settings) as [body|e|] eqn:Henc;
    [|intros [= <- <- <-]; apply Hfail|done].
  destruct (env_Request node APIProduce ver body w) as [w1 [rb|e|]] eqn:Hreq;
    [|intros [= <- <- <-]; apply Hfail|done].
  destruct (DecodeProduceResponse ver rb) as [l|e|] eqn:Hdec;
    [|intros [= <- <- <-]; apply Hfail|done].
  destruct out as [failed err]. intros Heq.
  assert (Hbr : broker_results inputs results l = (results', (failed, err))) by congruence.
  apply broker_results_spec in Hbr as (Hfl & -> & Herr); [|done].
  exists (ok_keys l). split; [|done]. right. exists l. split_and!; try done.
  exists w, w1, body, rb. done.
Qed.

Lemma fan_out_spec nodes settings : forall (w w' : W) results results' outs,
  results_ok rs results ->
  fan_out w nodes inputs settings results = (w', Ok (results', outs)) ->
  exists oks, Forall3 (outcome settings) nodes outs oks /\ fills rs results results' (concat oks).
Proof.
  induction nodes as [|[node batch] nodes IH]; intros w w' results results' outs Hok; cbn [fan_out].
  { intros [= <- <- <-]. exists []. split; [constructor|by apply fills_refl]. }
  destruct (produceToBroker w node batch inputs settings results) as [w1 [[res1 out]|e|]] eqn:Hp; [|done..].
  destruct (fan_out w1 nodes inputs settings res1) as [w2 [[res2 outs2]|e|]] eqn:Hf; [|done..].
  cbn. intros [= <- <- <-].
  apply produceToBroker_spec in Hp as (ok & Hout & Hfl1); [|done].
  apply IH in Hf as (oks & Houts & Hfl2); [|apply Hfl1].
  exists (ok :: oks). split; [by constructor|]. by eapply fills_trans.
Qed.
End replies.

(** ** Failed partitions *)

Lemma mark_keys (pb : gmap partKey Z) ks : forall (f : gmap partKey Z) k n,
  (forall k n, f !! k = Some n -> pb !! k = Some n) ->
  fold_left (fun f k => match pb !! k with Some n => <[k := n]> f | None => f end) ks f !! k = Some n <->
  pb !! k = Some n /\ (k ∈ dom f \/ k ∈ ks).
Proof.
  induction ks as [|k0 ks IH]; intros f k n Hf; cbn [fold_left].
  - split.
    + intros Hk. split; [by apply Hf|]. left. by eapply elem_of_dom_2.
    + intros [Hk [[n' Hn']%elem_of_dom|?%not_elem_of_nil]]; [|done]. by rewrite Hn', <- (Hf _ _ Hn').
  - destruct (pb !! k0) as [n0|] eqn:Hk0.
    + rewrite IH.
      * rewrite dom_insert, elem_of_union, elem_of_singleton, elem_of_cons. tauto.
      * intros k' n'. destruct (decide (k0 = k')) as [<-|]; [rewrite lookup_insert_eq; congruence|].
        rewrite lookup_insert_ne by done. apply Hf.
    + rewrite IH by done. rewrite elem_of_cons. split; [tauto|].
      intros [Hk [?|[->|?]]]; [tauto|congruence|tauto].
Qed.

Lemma marked_failed (pb : gmap partKey Z) outs : forall acc,
  (forall k n, fst acc !! k = Some n -> pb !! k = Some n) ->
  let fe := fold_left (markFailed pb) outs acc in
  (forall k n, fst fe !! k = Some n <-> pb !! k = Some n /\ (k ∈ dom (fst acc) \/ k ∈ concat (map fst outs))) /\
  (snd fe = None <-> snd acc = None /\ Forall (fun o => snd o = None) outs).
Proof.
  induction outs as [|out outs IH]; intros acc Hacc; cbn [fold_left map concat].
  { split; [|split; [auto|tauto]]. intros k n. rewrite (elem_of_nil k). split.
    - intros Hk. split; [by apply Hacc|]. left. by eapply elem_of_dom_2.
    - intros [Hk [[n' Hn']%elem_of_dom|[]]]. by rewrite Hn', <- (Hacc _ _ Hn'). }
  destruct (IH (markFailed pb acc out)) as [IH1 IH2].
  { unfold markFailed. cbn [fst]. intros k n [? _]%mark_keys; done. }
  split.
  - intros k n. rewrite IH1, elem_of_app.
    destruct (pb !! k) as [n'|] eqn:Hk; [|by split; intros [? _]].
    assert (Hd : k ∈ dom (fst (markFailed pb acc out)) <-> k ∈ dom (fst acc) \/ k ∈ fst out).
    { rewrite elem_of_dom. unfold markFailed, is_Some. cbn [fst]. setoid_rewrite mark_keys; [|done].
      naive_solver. }
    rewrite Hd. tauto.
  - rewrite IH2, Forall_cons. unfold markFailed. cbn [snd].
    destruct (snd out), (snd acc); [case_goal| | |]; naive_solver.
Qed.

(** ** Sequence numbers *)

Definition amount (m : gmap partKey Z) (k : partKey) : Z := default 0 (m !! k).

Lemma amount_empty k : amount ∅ k = 0.
Proof. unfold amount. by rewrite lookup_empty. Qed.

Lemma amount_cons k0 n0 (l : list (partKey * Z)) k :
  k0 ∉ l.*1 ->
  amount (list_to_map ((k0, n0) :: l)) k = (if decide (k0 = k) then n0 else 0) + amount (list_to_map l) k.
Proof.
  intros Hk0. unfold amount. cbn. destruct (decide (k0 = k)) as [<-|Hne].
  - rewrite lookup_insert_eq, not_elem_of_list_to_map_1 by done. cbn. lia.
  - by rewrite lookup_insert_ne.
Qed.

Lemma reserve_fold l : forall s cur,
  NoDup l.*1 ->
  (forall k n, (k, n) ∈ l -> 0 <= n /\ 0 <= seq_at s k /\ seq_at s k + n < 2 ^ 31) ->
  let sc := fold_left reserve_step l (s, cur) in
  (forall k, seq_at (fst sc) k = seq_at s k + amount (list_to_map l) k) /\
  (forall k, snd sc !! k = if decide (k ∈ l.*1) then Some (seq_at s k) else cur !! k).
Proof.
  induction l as [|[[t p] n] l IH]; intros s cur Hnd Hb; cbn [fold_left fmap list_fmap].
  { split; intros; [cbn; rewrite amount_empty; lia|done]. }
  apply NoDup_cons in Hnd as [Hk Hnd]. destruct (Hb (t, p) n ltac:(left)) as (Hn & Hs & Hlt).
  pose proof (reserve_at s t p n) as Hres.
  set (s1 := fst (ReserveBlock s t p n)) in Hres.
  change (reserve_step (s, cur) ((t, p), n)) with (s1, <[(t, p) := seq_at s (t, p)]> cur).
  destruct (IH s1 (<[(t, p) := seq_at s (t, p)]> cur) Hnd) as [IH1 IH2].
  { intros k n' Hin. assert (Hne : (t, p) <> k).
    { intros <-. apply Hk. by apply (list_elem_of_fmap_2 fst _ ((t, p), n')). }
    rewrite Hres, decide_False, Z.add_0_r by done. apply Hb. by right. }
  split.
  - intros k. rewrite IH1, Hres, amount_cons by done. repeat case_decide; done || lia.
  - intros k. rewrite IH2. destruct (decide ((t, p) = k)) as [<-|Hne].
    + rewrite lookup_insert_eq, decide_False by done. by rewrite decide_True by left.
    + assert (Hs1 : seq_at s1 k = seq_at s k) by (rewrite Hres by done; case_decide; [done|lia]).
      rewrite lookup_insert_ne, Hs1 by done. destruct (decide (k ∈ l.*1)) as [Hin|Hin].
      * by rewrite decide_True by (by right).
      * rewrite decide_False; [done|]. by intros [->|?]%elem_of_cons.
Qed.

Lemma rollback_fold l : forall s,
  NoDup l.*1 ->
  (forall k n, (k, n) ∈ l -> 0 <= n <= seq_at s k /\ seq_at s k < 2 ^ 31) ->
  forall k, seq_at (fold_left rollback_step l s) k =
    seq_at s k - amount (list_to_map l) k.
Proof.
  induction l as [|[[t p] n] l IH]; intros s Hnd Hb k; cbn [fold_left fmap list_fmap].
  { cbn. rewrite amount_empty. lia. }
  apply NoDup_cons in Hnd as [Hk Hnd]. destruct (Hb (t, p) n ltac:(left)) as (Hn & Hlt).
  rewrite IH; [rewrite amount_cons by done; unfold rollback_step; cbn [fst snd]; rewrite rollback_at by done; repeat case_decide; done || lia|done|].
  intros k' n' Hin. unfold rollback_step. cbn [fst snd]. rewrite rollback_at by done. rewrite decide_False; [rewrite Z.sub_0_r; apply Hb; by right|].
  intros <-. apply Hk. by apply (list_elem_of_fmap_2 fst _ ((t, p), n')).
Qed.

Lemma range_map {V} (m : gmap partKey V) : list_to_map (range m) = m /\ NoDup (range m).*1.
Proof.
  assert (Hnd : NoDup (range m).*1) by (rewrite range_perm; apply NoDup_fst_map_to_list).
  split; [|done]. rewrite (list_to_map_proper _ (map_to_list m)) by (done || apply range_perm).
  apply list_to_map_to_list.
Qed.

Lemma range_elem {K V} `{Countable K} (m : gmap K V) k v : (k, v) ∈ range m <-> m !! k = Some v.
Proof. rewrite range_perm. apply elem_of_map_to_list. Qed.

Lemma reserve_all_spec (s : State) (pb : gmap partKey Z) :
  (forall k n, pb !! k = Some n -> 0 <= n /\ 0 <= seq_at s k /\ seq_at s k + n < 2 ^ 31) ->
  (forall k, seq_at (fst (reserve_all s (range pb))) k = seq_at s k + amount pb k) /\
  (forall t p, nextSeq (snd (reserve_all s (range pb))) t p = if decide ((t, p) ∈ dom pb) then seq_at s (t, p) else 0).
Proof.
  intros Hb. destruct (range_map pb) as [Hm Hnd]. unfold reserve_all.
  destruct (reserve_fold (range pb) s ∅ Hnd) as [Hs Hc].
  { intros k n Hin%range_elem. by apply Hb. }
  rewrite Hm in Hs. split; [done|]. intros t p. unfold nextSeq. rewrite Hc.
  assert (Hd : (t, p) ∈ (range pb).*1 <-> (t, p) ∈ dom pb).
  { rewrite elem_of_dom. rewrite list_elem_of_fmap. split.
    - intros ([k n] & -> & Hin%range_elem). by eexists.
    - intros [n Hn]. exists ((t, p), n). split; [done|]. by apply range_elem. }
  repeat case_decide; try tauto; done.
Qed.

Lemma rollback_all_spec (s : State) (fm : gmap partKey Z) :
  (forall k n, fm !! k = Some n -> 0 <= n <= seq_at s k /\ seq_at s k < 2 ^ 31) ->
  forall k, seq_at (rollback_all s (range fm)) k = seq_at s k - amount fm k.
Proof.
  intros Hb k. destruct (range_map fm) as [Hm Hnd]. unfold rollback_all.
  rewrite rollback_fold; [by rewrite Hm|done|]. intros k' n Hin%range_elem. by apply Hb.
Qed.

(** ** Partitions of a broker's batch *)

Definition batch_key (r : ProduceRecord) : partKey := (pr_Topic r, pr_Partition r).

Lemma first_seen_fold {K} `{Countable K} ks : forall (seen : gset K) out,
  NoDup out -> (forall k, k ∈ seen <-> k ∈ out) ->
  NoDup (snd (fold_left first_seen ks (seen, out))) /\
  forall k, k ∈ snd (fold_left first_seen ks (seen, out)) <-> k ∈ out \/ k ∈ ks.
Proof.
  induction ks as [|k0 ks IH]; intros seen out Hnd Hs; cbn [fold_left].
  { split; [done|]. intros k. rewrite (elem_of_nil k). tauto. }
  unfold first_seen at 2 4. cbn [fst snd]. case_bool_decide as Hk.
  - destruct (IH seen out Hnd Hs) as [Hn Hi]. split; [done|]. intros k. rewrite Hi, elem_of_cons.
    split; [tauto|]. intros [?|[->|?]]; try tauto. left. by apply Hs.
  - destruct (IH ({[k0]} ∪ seen) (out ++ [k0])) as [Hn Hi].
    + apply NoDup_app. split_and!; [done| |apply NoDup_singleton].
      intros k Hin ->%list_elem_of_singleton. by apply Hk, Hs.
    + intros k. rewrite elem_of_union, elem_of_singleton, elem_of_app, list_elem_of_singleton, Hs. tauto.
    + split; [done|]. intros k. rewrite Hi, elem_of_app, list_elem_of_singleton, elem_of_cons. tauto.
Qed.

Lemma brokerPartKeys_spec batch :
  NoDup (brokerPartKeys batch) /\ forall k, k ∈ brokerPartKeys batch <-> k ∈ map batch_key batch.
Proof.
  unfold brokerPartKeys. destruct (first_seen_fold (map batch_key batch) ∅ []) as [Hnd Hin].
  - constructor.
  - intros k. rewrite (elem_of_nil k). set_solver.
  - split; [exact Hnd|]. intros k. rewrite (Hin k), (elem_of_nil k). tauto.
Qed.

(** ** Outcomes *)

(** Every reply to a request for partitions in [K] lists exactly the
    partitions of the request, once each. *)
Definition faithful_replies (K : partKey -> Prop) : Prop :=
  forall settings node batch l,
    batch <> [] -> Forall (fun r => K (batch_key r)) batch -> replied settings node batch l ->
    map pkey l ≡ₚ brokerPartKeys batch.

Definition keyed (K : partKey -> Prop) (rs : list record) : Prop := Forall (fun r => K (key_of r)) rs.

Lemma ok_bad_keys l : ok_keys l ++ bad_keys l ≡ₚ map pkey l.
Proof.
  induction l as [|x l IH]; [done|]. rewrite ok_keys_cons, bad_keys_cons. cbn [map].
  case_decide; cbn; rewrite <- IH; [done|]. by rewrite <- Permutation_middle.
Qed.

Lemma outcomes_keys K settings nodes outs oks :
  faithful_replies K -> Forall (fun nb => snd nb <> [] /\ Forall (fun r => K (batch_key r)) (snd nb)) nodes ->
  Forall3 (outcome settings) nodes outs oks ->
  concat oks ++ concat (map fst outs) ≡ₚ concat (map (fun nb => brokerPartKeys (snd nb)) nodes).
Proof.
  intros Hf Hnodes. induction 1 as [|nb out ok nodes outs oks Hout _ IH]; [done|]. cbn [map concat].
  apply Forall_cons in Hnodes as [[Hne Hnb] Hnodes]. specialize (IH Hnodes).
  assert (Hk : ok ++ fst out ≡ₚ brokerPartKeys (snd nb)).
  { destruct Hout as [(-> & -> & _)|(l & Hl & -> & -> & _)]; [done|]. rewrite ok_bad_keys. by eapply Hf. }
  rewrite <- IH, <- Hk. solve_Permutation.
Qed.

Lemma elem_concat_map {A K} (g : A -> list K) (l : list A) k :
  k ∈ concat (map g l) <-> exists x, x ∈ l /\ k ∈ g x.
Proof.
  induction l as [|x l IH]; cbn.
  - split; [by intros ?%not_elem_of_nil|]. by intros (x & ?%not_elem_of_nil & _).
  - rewrite elem_of_app, IH. split.
    + intros [?|(y & ? & ?)]; [exists x; split; [left|done]|exists y; split; [by right|done]].
    + intros (y & [->|?]%elem_of_cons & ?); [by left|right; by exists y].
Qed.

Lemma nodup_concat {A K} (g : A -> list K) (l : list A) :
  NoDup l -> (forall x, x ∈ l -> NoDup (g x)) ->
  (forall x y k, x ∈ l -> y ∈ l -> k ∈ g x -> k ∈ g y -> x = y) -> NoDup (concat (map g l)).
Proof.
  induction l as [|x l IH]; intros Hnd Hg Hd; cbn; [constructor|].
  apply NoDup_cons in Hnd as [Hx Hnd]. apply NoDup_app. split_and!.
  - apply Hg. left.
  - intros k Hk (y & Hy & Hin)%elem_concat_map.
    assert (x = y) as <- by (eapply Hd; [left|by right|done|done]). done.
  - apply IH; [done| |]; intros; [apply Hg; by right|].
    eapply Hd; [by right|by right|done|done].
Qed.

(** Records of partition [k]. *)
Definition count (k : partKey) (rs : list record) : Z := len (filter (fun r => key_of r = k) rs).

Lemma count_numbered k rs : forall i,
  len (filter (fun x => key_of (snd x) = k) (numbered i rs)) = count k rs.
Proof.
  unfold count. induction rs as [|r rs IH]; intros i; [done|].
  change (numbered i (r :: rs)) with ((i, r) :: numbered (S i) rs).
  destruct (decide (key_of r = k)).
  - rewrite !filter_cons_True by done. rewrite !len_cons. by rewrite IH.
  - rewrite !filter_cons_False by done. apply IH.
Qed.

Lemma count_pos k rs : 0 < count k rs <-> exists i r, rs !! i = Some r /\ key_of r = k.
Proof.
  unfold count. split.
  - destruct (filter _ rs) as [|r l] eqn:Hf; [unfold len; cbn; lia|]. intros _.
    assert (Hin : r ∈ filter (fun r => key_of r = k) rs) by (rewrite Hf; left).
    apply list_elem_of_filter in Hin as [Hk [i Hi]%list_elem_of_lookup]. by exists i, r.
  - intros (i & r & Hi & Hk). assert (Hin : r ∈ filter (fun r => key_of r = k) rs).
    { apply list_elem_of_filter. split; [done|]. by eapply list_elem_of_lookup_2. }
    destruct (filter _ rs); [by apply not_elem_of_nil in Hin|]. rewrite len_cons. pose proof (len_nonneg l). lia.
Qed.

Lemma batches_count w rs m k :
  routed_ok w 0 rs (∅, ∅) m ->
  ((fun l => len l) <$> fst m) !! k = if decide (0 < count k rs) then Some (count k rs) else None.
Proof.
  intros [Hin _ _ Hne _]. specialize (Hin k). specialize (Hne ltac:(intros ?; cbn [fst]; by rewrite lookup_empty) k).
  cbn [fst] in Hin. rewrite lookup_empty in Hin. cbn [from_option app] in Hin.
  rewrite <- (count_numbered k rs 0), <- Hin. rewrite lookup_fmap.
  destruct (fst m !! k) as [l|]; cbn in *; [|by rewrite decide_False by (unfold len; cbn; lia)].
  unfold id. destruct l as [|x l]; [done|]. rewrite decide_True; [done|].
  rewrite len_cons. pose proof (len_nonneg l). lia.
Qed.

Lemma node_keys w rs m :
  routed_ok w 0 rs (∅, ∅) m ->
  NoDup (concat (map (fun nb => brokerPartKeys (snd nb)) (range (snd m)))) /\
  forall k, k ∈ concat (map (fun nb => brokerPartKeys (snd nb)) (range (snd m))) <-> 0 < count k rs.
Proof.
  intros [_ Hbr Hle _ _].
  assert (Hkey : forall n batch k, (n, batch) ∈ range (snd m) ->
    k ∈ brokerPartKeys batch <-> exists i r, rs !! i = Some r /\ key_of r = k /\ leader_of w r = Some n).
  { intros n batch k Hn%range_elem. rewrite (proj2 (brokerPartKeys_spec batch)).
    specialize (Hbr n). rewrite Hn in Hbr. cbn [snd] in Hbr. rewrite lookup_empty in Hbr. cbn [from_option app] in Hbr.
    unfold id in Hbr. subst batch. rewrite list_elem_of_fmap. split.
    - intros (pr & -> & ([i r] & -> & [Hl Hi%numbered_elem]%list_elem_of_filter)%list_elem_of_fmap).
      cbn [fst snd] in *. rewrite Nat.sub_0_r in Hi. exists i, r. by destruct Hi.
    - intros (i & r & Hi & <- & Hl). exists (to_produce r (r_Partition r) (env_now w i)). split; [done|].
      apply list_elem_of_fmap. exists (i, r). split; [done|]. apply list_elem_of_filter. split; [done|].
      apply numbered_elem. rewrite Nat.sub_0_r. auto with lia. }
  split.
  - apply nodup_concat.
    + rewrite range_perm. apply NoDup_map_to_list.
    + intros [n batch] _. apply brokerPartKeys_spec.
    + intros [n b] [n' b'] k Hx Hy Hk Hk'. cbn [snd] in *.
      apply (Hkey _ _ _ Hx) in Hk as (i & r & _ & Hr & Hl).
      apply (Hkey _ _ _ Hy) in Hk' as (i' & r' & _ & Hr' & Hl').
      unfold leader_of, key_of in *. assert (n = n') as <- by congruence.
      apply range_elem in Hx, Hy. congruence.
  - intros k. rewrite elem_concat_map, count_pos. split.
    + intros ([n b] & Hx & Hk). apply (Hkey _ _ _ Hx) in Hk as (i & r & ? & ? & _). by exists i, r.
    + intros (i & r & Hi & Hk). pose proof (Forall_lookup_1 _ _ _ _ Hle Hi) as [n Hn].
      assert (exists b, snd m !! n = Some b) as [b Hb].
      { specialize (Hbr n). cbn [snd] in Hbr. rewrite lookup_empty in Hbr. cbn [from_option app] in Hbr.
        destruct (snd m !! n) as [b|]; [by exists b|]. cbn in Hbr. exfalso.
        assert (Hin : (i, r) ∈ filter (fun x => leader_of w (snd x) = Some n) (numbered 0 rs)).
        { apply list_elem_of_filter. split; [done|]. apply numbered_elem. rewrite Nat.sub_0_r. auto with lia. }
        destruct (filter _ (numbered 0 rs)); [by apply not_elem_of_nil in Hin|done]. }
      exists (n, b). split; [by apply range_elem|]. cbn [snd].
      apply (Hkey n b k); [by apply range_elem|]. by exists i, r.
Qed.

Lemma node_batches K w rs m :
  routed_ok w 0 rs (∅, ∅) m -> keyed K rs ->
  Forall (fun nb => snd nb <> [] /\ Forall (fun r => K (batch_key r)) (snd nb)) (range (snd m)).
Proof.
  intros [_ Hbr _ _ Hnb] HK. apply Forall_forall. intros [n b] Hn%range_elem. cbn [snd]. split.
  - intros ->. eapply Hnb; [|exact Hn]. intros ?. cbn [snd]. by rewrite lookup_empty.
  - specialize (Hbr n). rewrite Hn in Hbr. cbn [snd] in Hbr. rewrite lookup_empty in Hbr.
    cbn [from_option app] in Hbr. unfold id in Hbr. subst b. apply Forall_forall.
    intros pr ([i r] & -> & [_ Hi]%list_elem_of_filter)%list_elem_of_fmap. cbn [fst snd] in *.
    apply numbered_elem in Hi as [_ Hi]. apply (Forall_lookup_1 _ _ _ _ HK Hi).
Qed.

(** ** One send *)

Definition all_acked (rs : list record) (results : list ProduceRecordResult) (k : partKey) : Prop :=
  forall i r, rs !! i = Some r -> key_of r = k -> filled rs results i.

Definition none_acked (rs : list record) (results : list ProduceRecordResult) (k : partKey) : Prop :=
  forall i r, rs !! i = Some r -> key_of r = k -> ~ filled rs results i.

Definition named (rs : list record) : Prop := Forall (fun r => r_Topic r <> []) rs.

Lemma zero_results_ok rs : results_ok rs (replicate (length rs) zero_result).
Proof.
  split; [apply length_replicate|]. intros i res [-> Hi]%lookup_replicate.
  destruct (lookup_lt_is_Some_2 rs i Hi) as [r Hr]. eauto.
Qed.

Lemma zero_unfilled rs i : named rs -> ~ filled rs (replicate (length rs) zero_result) i.
Proof.
  intros Hn (r & res & Hr & [-> _]%lookup_replicate & _ & Ht & _).
  by apply (Forall_lookup_1 _ _ _ _ Hn Hr).
Qed.

Lemma no_errors settings nodes outs oks :
  Forall3 (outcome settings) nodes outs oks -> Forall (fun o : list partKey * option error => snd o = None) outs ->
  concat (map fst outs) = [].
Proof.
  induction 1 as [|nb out ok nodes outs oks Hout _ IH]; [done|]. intros [Ho Hos]%Forall_cons. cbn.
  rewrite IH by done. destruct Hout as [(_ & _ & ?)|(l & _ & _ & -> & Herr)]; [done|].
  by rewrite (proj1 Herr Ho).
Qed.

Lemma send_outcomes K w rs m settings w' results outs :
  routed_ok w 0 rs (∅, ∅) m -> named rs -> keyed K rs -> faithful_replies K ->
  fan_out w (range (snd m)) (fst m) settings (replicate (length rs) zero_result) = (w', Ok (results, outs)) ->
  let pb := (fun l => len l) <$> fst m in
  let fe := fold_left (markFailed pb) outs (∅, None) in
  results_ok rs results /\
  (forall k, all_acked rs results k /\ fst fe !! k = None \/ none_acked rs results k /\ fst fe !! k = pb !! k) /\
  (snd fe = None -> forall k, all_acked rs results k).
Proof.
  intros Hm Hn HK Hf Hfan pb fe.
  destruct (fan_out_spec rs (fst m) (routed_inputs _ _ _ Hm) _ _ _ _ _ _ _ (zero_results_ok rs) Hfan)
    as (oks & Houts & Hfills).
  pose proof (outcomes_keys _ _ _ _ _ Hf (node_batches _ _ _ _ Hm HK) Houts) as Hkeys.
  destruct (node_keys _ _ _ Hm) as [Hnd Hall]. rewrite <- Hkeys in Hnd. setoid_rewrite <- Hkeys in Hall.
  apply NoDup_app in Hnd as (_ & Hdisj & _).
  destruct (marked_failed pb outs (∅, None)) as [Hfail Herr]; [intros k n; cbn [fst]; by rewrite lookup_empty|].
  fold fe in Hfail, Herr. cbn [fst snd] in Hfail, Herr.
  assert (Hin : forall k, k ∈ concat oks -> all_acked rs results k).
  { intros k Hk i r Hr <-. by eapply (fl_all _ _ _ _ Hfills). }
  assert (Hpos : forall k i r, rs !! i = Some r -> key_of r = k -> k ∈ concat oks \/ k ∈ concat (map fst outs)).
  { intros k i r Hr Hk. apply elem_of_app, Hall, count_pos. by exists i, r. }
  split; [apply Hfills|]. split.
  - intros k. destruct (decide (k ∈ concat (map fst outs))) as [Hbad|Hgood]; [right|left].
    + split.
      * intros i r Hr <- Hfl. apply (fl_only _ _ _ _ Hfills) in Hfl as [?%zero_unfilled|(r' & Hr' & Hok)]; [done..|].
        simplify_eq. by eapply Hdisj.
      * destruct (pb !! k) as [n|] eqn:Hpb; [by apply Hfail; auto|].
        destruct (fst fe !! k) as [n|] eqn:Hfe; [|done]. apply Hfail in Hfe as [? _]. congruence.
    + split.
      * intros i r Hr Hk. destruct (Hpos k i r Hr Hk); [|done]. by eapply Hin.
      * destruct (fst fe !! k) as [n|] eqn:Hfe; [|done]. apply Hfail in Hfe as [_ [Hd|?]]; [|done].
        by rewrite dom_empty in Hd.
  - intros [_ Hnone]%Herr k i r Hr Hk. rewrite (no_errors _ _ _ _ Houts Hnone) in Hpos.
    destruct (Hpos k i r Hr Hk) as [?|?%not_elem_of_nil]; [|done]. by eapply Hin.
Qed.

Lemma none_acked_nil rs k : none_acked rs [] k.
Proof. intros i r _ _ (? & ? & _ & Hi & _). by rewrite lookup_nil in Hi. Qed.

(** The outcome of a send: nothing was sent because routing failed, or every
    partition was acknowledged as a whole or not at all, and its sequence
    number moved accordingly. *)
Definition seq_bounds (id : option (ProducerID * State)) (rs : list record) : Prop :=
  forall pid s k, id = Some (pid, s) -> 0 <= seq_at s k /\ seq_at s k + count k rs < 2 ^ 31.

Definition seq_moved (id id' : option (ProducerID * State)) (k : partKey) (n : Z) : Prop :=
  match id, id' with
  | Some (pid, s), Some (pid', s') => pid' = pid /\ seq_at s' k = seq_at s k + n
  | None, None => True
  | _, _ => False
  end.

Lemma seq_moved_refl id k : seq_moved id id k 0.
Proof. destruct id as [[pid s]|]; [|done]. cbn. split; [done|lia]. Qed.

Lemma count_nonneg k rs : 0 <= count k rs.
Proof. apply len_nonneg. Qed.

Lemma send_routed_spec K w rs m opts w' results fe id :
  routed_ok w 0 rs (∅, ∅) m -> named rs -> keyed K rs -> faithful_replies K -> seq_bounds (so_id opts) rs ->
  send_routed cfg w m (length rs) opts = (w', Ok (results, fe, id)) ->
  results_ok rs results /\
  (forall k, all_acked rs results k /\ seq_moved (so_id opts) id k (count k rs) \/
             none_acked rs results k /\ seq_moved (so_id opts) id k 0) /\
  (snd fe = None -> forall k, all_acked rs results k).
Proof.
  intros Hm Hn HK Hf Hb. unfold send_routed. cbn zeta.
  set (pb := (fun l => len l) <$> fst m).
  assert (Hpb : forall k, pb !! k = if decide (0 < count k rs) then Some (count k rs) else None)
    by (intros k; by eapply batches_count).
  assert (Hamt : forall k, amount pb k = count k rs).
  { intros k. unfold amount. rewrite Hpb. pose proof (count_nonneg k rs). case_decide; cbn; lia. }
  destruct (so_id opts) as [[pid s]|] eqn:Hid.
  - destruct (reserve_all_spec s pb) as [Hres _].
    { intros k n. rewrite Hpb. case_decide; [|done]. intros [= <-]. pose proof (count_nonneg k rs).
      destruct (Hb pid s k eq_refl). lia. }
    destruct (reserve_all s (range pb)) as [s1 cursor]. cbn [fst] in Hres.
    destruct (fan_out _ _ _ _ _) as [w1 [[results1 outs]|e|]] eqn:Hfan; [|done..]. cbn.
    intros [= <- <- <- <-]. destruct (send_outcomes _ _ _ _ _ _ _ _ Hm Hn HK Hf Hfan) as (Hok & Hk & Herr).
    fold pb in Hk, Herr. split_and!; [done| |done]. intros k.
    set (fm := fst (fold_left (markFailed pb) outs (∅, None))) in *.
    assert (Hfm : forall k n, fm !! k = Some n -> n = count k rs /\ 0 <= n).
    { intros k' n Hn'. destruct (Hk k') as [[_ Heq]|[_ Heq]]; rewrite Heq in Hn'; [done|].
      rewrite Hpb in Hn'. case_decide; [|done]. injection Hn' as <-. lia. }
    assert (Hroll : forall k, seq_at (rollback_all s1 (range fm)) k = seq_at s1 k - amount fm k).
    { apply rollback_all_spec. intros k' n [-> ?]%Hfm. rewrite Hres, Hamt.
      destruct (Hb pid s k' eq_refl). lia. }
    rewrite Hroll, Hres, Hamt. unfold amount.
    destruct (Hk k) as [[Ha Heq]|[Ha Heq]]; [left|right]; (split; [done|]); (split; [done|]); rewrite Heq.
    + cbn. lia.
    + rewrite Hpb. pose proof (count_nonneg k rs). case_decide; cbn; lia.
  - destruct (fan_out _ _ _ _ _) as [w1 [[results1 outs]|e|]] eqn:Hfan; [|done..]. cbn.
    intros [= <- <- <- <-]. destruct (send_outcomes _ _ _ _ _ _ _ _ Hm Hn HK Hf Hfan) as (Hok & Hk & Herr).
    split_and!; [done| |done]. intros k. destruct (Hk k) as [[? _]|[? _]]; auto.
Qed.

Lemma sendOnce_spec K (p p' : producer) rs results err :
  settled rs -> named rs -> keyed K rs -> faithful_replies K -> seq_bounds (p_id p) rs ->
  sendOnce cfg p rs = (p', Ok (results, err)) ->
  (results = [] \/ results_ok rs results) /\
  (forall k, all_acked rs results k /\ seq_moved (p_id p) (p_id p') k (count k rs) \/
             none_acked rs results k /\ seq_moved (p_id p) (p_id p') k 0) /\
  (err = None -> forall k, all_acked rs results k).
Proof.
  intros Hs Hn HK Hf Hb. unfold sendOnce, sendRecords.
  destruct (route p 0 rs (∅, ∅)) as [p1 [m|e|]] eqn:Hr; [| |done].
  - apply route_settled in Hr as [-> Hm]; [|done].
    destruct (send_routed _ _ _ _ _) as [w [[[results1 fe] id]|e|]] eqn:Hsend; [|done..].
    intros [= <- <- <-].
    apply (send_routed_spec K) in Hsend as (Hok & Hk & Herr); [|done..]. cbn. auto.
  - intros [= <- <- <-]. cbn. split_and!; [by left| |done]. intros k. right.
    split; [apply none_acked_nil|apply seq_moved_refl].
Qed.

Lemma keyed_count rs : keyed (fun k => 0 < count k rs) rs.
Proof. apply Forall_lookup. intros i r Hr. apply count_pos. by exists i, r. Qed.


(** * The retry loop *)

(** Routing settled records never runs the partitioner. *)
Lemma resolve_keeps (p : producer) r : 0 <= r_Partition r -> fst (resolvePartition p r) = p.
Proof.
  intros Hr. unfold resolvePartition. case_goal; [done|]. rewrite (proj2 (Z.geb_le _ _)) by lia.
  by destruct (LeaderNodeID _ _ _).
Qed.

Lemma route_keeps rs : forall (p : producer) i m, settled rs -> fst (route p i rs m) = p.
Proof.
  induction rs as [|r rs IH]; intros p i m Hs; [done|]. apply Forall_cons in Hs as [Hr Hs].
  cbn [route]. pose proof (resolve_keeps p r Hr) as Hk.
  destruct (resolvePartition p r) as [p1 [[part leader]|e|]]; cbn [fst] in Hk; subst p1; [|done..]. by apply IH.
Qed.

Lemma sendOnce_keeps (p : producer) rs : settled rs -> p_partitioner (fst (sendOnce cfg p rs)) = p_partitioner p.
Proof.
  intros Hs. unfold sendOnce, sendRecords. pose proof (route_keeps rs p 0 (∅, ∅) Hs) as Hk.
  destruct (route p 0 rs (∅, ∅)) as [p1 [m|e|]]; cbn [fst] in Hk; subst p1; [|done..].
  by destruct (send_routed _ _ _ _ _) as [w [[[? ?] ?]|e|]].
Qed.

(** The results of a send, whatever the sequence numbers. *)
Lemma sendOnce_results K (p p' : producer) rs results err :
  settled rs -> sendOnce cfg p rs = (p', Ok (results, err)) ->
  (results = [] \/ results_ok rs results) /\
  (named rs -> keyed K rs -> faithful_replies K -> err = None -> forall k, all_acked rs results k).
Proof.
  intros Hs. unfold sendOnce, sendRecords.
  destruct (route p 0 rs (∅, ∅)) as [p1 [m|e|]] eqn:Hr; [| |done].
  2: { intros [= <- <- <-]. split; [by left|done]. }
  apply route_settled in Hr as [-> Hm]; [|done]. unfold send_routed. cbn zeta.
  destruct (match so_id _ with Some _ => _ | None => _ end) as [id cursor].
  destruct (fan_out _ _ _ _ _) as [w1 [[results1 outs]|e|]] eqn:Hfan; [|done..]. cbn.
  intros [= <- <- <-]. split.
  - right. by destruct (fan_out_spec rs (fst m) (routed_inputs _ _ _ Hm) _ _ _ _ _ _ _ (zero_results_ok rs) Hfan)
      as (oks & _ & []).
  - intros Hn HK Hf. by destruct (send_outcomes _ _ _ _ _ _ _ _ Hm Hn HK Hf Hfan) as (_ & _ & ?).
Qed.

(** ** What a result stands for *)

Section confirmed.
Context `{!TracedEnv W}.

(** Among the calls there is a Produce request that carried the record, in
    place [i] of its partition, and whose reply lists the partition without an
    error code; the record's offset is the reply's base offset plus [i]. *)
Definition confirmed (log : list call) (f : record) (res : ProduceRecordResult) : Prop :=
  exists node ver clock settings batch body rb l pr i now,
    mkCall node APIProduce ver body (Ok rb) ∈ log /\
    EncodeProduceRequest clock ver batch settings = Ok body /\
    filter (fun x => batch_key x = key_of f) batch !! i = Some (to_produce f (r_Partition f) now) /\
    DecodeProduceResponse ver rb = Ok l /\ pr ∈ l /\ pres_ErrorCode pr = 0 /\ pkey pr = key_of f /\
    s64 (prr_Offset res) = s64 (pres_Offset pr + Z.of_nat i).

(** The result written for place [k] of the partition of [pr]. *)
Definition written_result (many : bool) (pr : ProduceResult) (k : nat) (r : record) : ProduceRecordResult :=
  mkProduceRecordResult r (pres_Topic pr) (pres_Partition pr) (if many then s64 (pres_Offset pr + Z.of_nat k) else pres_Offset pr).

Lemma fill_results_get pr many L : forall results (n : nat) j res,
  fill_results results pr many (Z.of_nat n) L !! j = Some res ->
  results !! j = Some res \/ exists k r, L !! k = Some (j, r) /\ res = written_result many pr (n + k) r.
Proof.
  induction L as [|[j0 r0] L IH]; intros results n j res; cbn [fill_results]; [by left|].
  replace (Z.of_nat n + 1) with (Z.of_nat (S n)) by lia. intros [Hj|(k & r & Hk & ->)]%IH.
  - destruct (decide (j0 = j)) as [->|Hne]; [|left; by rewrite list_lookup_insert_ne in Hj].
    destruct (decide (j < length results)%nat) as [Hl|Hl].
    + rewrite list_lookup_insert_eq in Hj by done. injection Hj as <-. right. exists O, r0. by rewrite Nat.add_0_r.
    + rewrite list_insert_ge in Hj by lia. by left.
  - right. exists (S k), r. split; [done|]. by rewrite Nat.add_succ_r.
Qed.

Definition written_for (inputs : gmap partKey (list (nat * record))) (l : list ProduceResult) (j : nat) (res : ProduceRecordResult) : Prop :=
  exists pr k r, pr ∈ l /\ pres_ErrorCode pr = 0 /\ default [] (inputs !! pkey pr) !! k = Some (j, r) /\
    res = written_result (len (default [] (inputs !! pkey pr)) >? 1) pr k r.

Lemma broker_fold_get inputs l : forall a j res,
  ba_results (fold_left (broker_result inputs) l a) !! j = Some res ->
  ba_results a !! j = Some res \/ written_for inputs l j res.
Proof.
  induction l as [|pr l IH]; intros a j res; cbn [fold_left]; [by left|].
  intros [Hj|(x & k & r & Hx & ?)]%IH; [|right; exists x, k, r; split; [by right|done]].
  unfold broker_result in Hj. destruct (Z.eqb_spec (pres_ErrorCode pr) 0) as [E|E]; cbn [negb] in Hj; [|by left].
  cbn [ba_results] in Hj. apply (fill_results_get _ _ _ _ O) in Hj as [?|(k & r & Hk & ->)]; [by left|right].
  exists pr, k, r. split_and!; [left|done..].
Qed.

(** A reply of [node] to the request that carried [batch]. *)
Definition answered (log : list call) (settings : ProduceSettings) (node : Z) (batch : list ProduceRecord) (l : list ProduceResult) : Prop :=
  exists w w' body rb,
    let ver := negotiatedVersion (env_versions w) APIProduce VerProduce in
    mkCall node APIProduce ver body (Ok rb) ∈ log /\
    EncodeProduceRequest (env_clock w) ver batch settings = Ok body /\
    env_Request node APIProduce ver body w = (w', Ok rb) /\
    DecodeProduceResponse ver rb = Ok l.

Lemma answered_mono log log' settings node batch l : (forall c, c ∈ log -> c ∈ log') ->
  answered log settings node batch l -> answered log' settings node batch l.
Proof. intros Hlog (w & w' & body & rb & Hin & ?). exists w, w', body, rb. split; [by apply Hlog|done]. Qed.

Lemma produceToBroker_get inputs (w w' : W) node batch settings results results' out :
  produceToBroker w node batch inputs settings results = (w', Ok (results', out)) ->
  exists new, env_calls w' = env_calls w ++ new /\ forall j res, results' !! j = Some res ->
    results !! j = Some res \/ exists l, answered new settings node batch l /\ written_for inputs l j res.
Proof.
  unfold produceToBroker. cbn zeta. set (ver := negotiatedVersion _ _ _).
  destruct (EncodeProduceRequest (env_clock w) ver batch settings) as [body|e|] eqn:Henc; [| |done].
  2: { intros [= <- <- _]. exists []. rewrite app_nil_r. auto. }
  pose proof (calls_Request node APIProduce ver body w) as Hc.
  destruct (env_Request node APIProduce ver body w) as [w1 [rb|e|]] eqn:Hreq; cbn [fst snd] in Hc; [| |done].
  2: { intros [= <- <- _]. eexists. split; [done|]. auto. }
  destruct (DecodeProduceResponse ver rb) as [l|e|] eqn:Hdec; [| |done].
  2: { intros [= <- <- _]. eexists. split; [done|]. auto. }
  intros Heq. assert (w' = w1) as -> by congruence. eexists. split; [done|]. intros j res Hj.
  assert (Hbr : broker_results inputs results l = (results', out)) by congruence.
  assert (results' = fst (broker_results inputs results l)) as -> by (by rewrite Hbr).
  apply broker_fold_get in Hj as [?|Hw]; [by left|right]. exists l. split; [|done].
  exists w, w1, body, rb. split_and!; [by apply list_elem_of_singleton|done..].
Qed.

Lemma fan_out_get inputs nodes settings : forall (w w' : W) results results' outs,
  fan_out w nodes inputs settings results = (w', Ok (results', outs)) ->
  exists new, env_calls w' = env_calls w ++ new /\ forall j res, results' !! j = Some res ->
    results !! j = Some res \/
    exists node batch l, (node, batch) ∈ nodes /\ answered new settings node batch l /\ written_for inputs l j res.
Proof.
  induction nodes as [|[node batch] nodes IH]; intros w w' results results' outs; cbn [fan_out].
  { intros [= <- <- <-]. exists []. rewrite app_nil_r. auto. }
  destruct (produceToBroker w node batch inputs settings results) as [w1 [[res1 out]|e|]] eqn:Hp; [|done..].
  destruct (fan_out w1 nodes inputs settings res1) as [w2 [[res2 outs2]|e|]] eqn:Hf; [|done..].
  cbn. intros [= <- <- <-].
  apply produceToBroker_get in Hp as (new1 & Hc1 & Hr1). apply IH in Hf as (new2 & Hc2 & Hr2).
  exists (new1 ++ new2). split; [by rewrite Hc2, Hc1, app_assoc|]. intros j res [Hj|(n & b & l & Hin & Ha & Hw)]%Hr2.
  - apply Hr1 in Hj as [?|(l & Ha & Hw)]; [by left|right]. exists node, batch, l. split_and!; [left| |done].
    eapply answered_mono, Ha. set_solver.
  - right. exists n, b, l. split_and!; [by right| |done]. eapply answered_mono, Ha. set_solver.
Qed.

Lemma lookup_fmap_filter {A B} (P : B -> Prop) `{!forall x, Decision (P x)} (f : A -> B) (l : list A) :
  filter P (map f l) = map f (filter (fun x => P (f x)) l).
Proof.
  induction l as [|x l IH]; [done|]. cbn [map]. destruct (decide (P (f x))).
  - by rewrite !filter_cons_True, IH.
  - by rewrite !filter_cons_False, IH.
Qed.

(** A broker's batch, restricted to a partition it leads. *)
Lemma batch_of_key w rs m node batch k x :
  routed_ok w 0 rs (∅, ∅) m -> (node, batch) ∈ range (snd m) -> x ∈ batch -> batch_key x = k ->
  filter (fun x => batch_key x = k) batch =
    map (fun x => to_produce (snd x) (r_Partition (snd x)) (env_now w (fst x))) (default [] (fst m !! k)).
Proof.
  intros [Hin Hbr _ _ _] Hn%range_elem Hx Hk. specialize (Hin k). specialize (Hbr node).
  cbn [fst snd] in *. rewrite lookup_empty in Hin; rewrite lookup_empty in Hbr. cbn [from_option app] in Hin, Hbr.
  rewrite Hn in Hbr. cbn in Hbr. unfold id in Hbr. subst batch. rewrite Hin.
  apply list_elem_of_fmap in Hx as ([i0 r0] & -> & [Hl0 _]%list_elem_of_filter). cbn [fst snd] in *.
  rewrite lookup_fmap_filter, list_filter_filter. f_equal. apply list_filter_iff. intros [i r]. cbn [fst snd].
  change (batch_key (to_produce r (r_Partition r) (env_now w i))) with (key_of r).
  change (batch_key (to_produce r0 (r_Partition r0) (env_now w i0))) with (key_of r0) in Hk.
  split; [tauto|]. intros Hr. cut (leader_of w r = Some node); [tauto|]. revert Hl0. unfold leader_of. unfold key_of in *. subst k. injection Hr as -> ->. done.
Qed.

Lemma sendOnce_confirmed K (p p' : producer) rs results err :
  settled rs -> keyed K rs -> faithful_replies K -> sendOnce cfg p rs = (p', Ok (results, err)) ->
  exists new, env_calls (p_world p') = env_calls (p_world p) ++ new /\
    forall j res, results !! j = Some res -> res = zero_result \/ exists r, rs !! j = Some r /\ confirmed new r res.
Proof.
  intros Hs HK Hf. unfold sendOnce, sendRecords.
  destruct (route p 0 rs (∅, ∅)) as [p1 [m|e|]] eqn:Hr; [| |done].
  2: { intros [= <- <- <-]. cbn.
       pose proof (route_keeps rs p 0 (∅, ∅) Hs) as Hk. rewrite Hr in Hk. cbn in Hk. subst p1.
       exists []. rewrite app_nil_r. split; [done|]. intros j res. by rewrite lookup_nil. }
  apply route_settled in Hr as [-> Hm]; [|done]. unfold send_routed. cbn zeta.
  destruct (match so_id _ with Some _ => _ | None => _ end) as [id cursor].
  destruct (fan_out _ _ _ _ _) as [w1 [[results1 outs]|e|]] eqn:Hfan; [|done..]. cbn.
  intros [= <- <- <-]. apply fan_out_get in Hfan as (new & Hc & Hget). exists new. split; [done|].
  intros j res [[-> _]%lookup_replicate|(node & batch & l & Hn & Ha & pr & k & r & Hpr & Hcode & Hk & ->)]%Hget; [by left|right].
  pose proof Ha as (w & w' & body & rb & Hcall & Henc & Hreq & Hdec).
  pose proof (proj1 (Forall_forall _ _) (node_batches _ _ _ _ Hm HK) (node, batch) Hn) as [Hne Hall]. cbn [snd] in *.
  assert (Hkeys : map pkey l ≡ₚ brokerPartKeys batch) by (eapply Hf; [done..|]; by exists w, w', body, rb).
  assert (Hx : pkey pr ∈ map batch_key batch).
  { apply brokerPartKeys_spec. rewrite <- Hkeys. apply list_elem_of_fmap. eauto. }
  apply list_elem_of_fmap in Hx as (x & Hxk & Hx).
  pose proof (batch_of_key _ _ _ _ _ _ _ Hm Hn Hx (eq_sym Hxk)) as Hfilter.
  assert (Hjr : rs !! j = Some r /\ key_of r = pkey pr).
  { apply (routed_inputs _ _ _ Hm). by eapply list_elem_of_lookup_2. }
  destruct Hjr as [Hj Hkey]. exists r. split; [done|].
  exists node, (negotiatedVersion (env_versions w) APIProduce VerProduce), (env_clock w),
    (produceSettings cfg (nextSeq cursor) (fst <$> p_id p) false), batch, body, rb, l, pr, k, (env_now (p_world p) j).
  split_and!; try done.
  - rewrite Hkey, Hfilter, list_lookup_fmap, Hk. done.
  - cbn [written_result prr_Offset]. destruct (Z.gtb_spec (len (default [] (fst m !! pkey pr))) 1) as [Hl|Hl].
    + apply (sgn_add_idemp 64 0).
    + apply lookup_lt_Some in Hk. unfold len in Hl. assert (k = O) as -> by lia. by rewrite Z.add_0_r.
Qed.
End confirmed.

(** Metadata numbers partitions from 0. *)
Definition sane_metadata : Prop :=
  forall w topic pm, pm ∈ topic_partitions (env_cluster w) topic -> 0 <= pm_Partition pm.

(** The frozen records: the originals with a partition chosen where none was
    given. *)
Definition chosen (r f : record) : Prop :=
  f = with_partition r (r_Partition f) /\ (0 <= r_Partition r -> f = r) /\ 0 <= r_Partition f.

Lemma index_elem {A} (l : list A) i x : index l i = Ok x -> x ∈ l.
Proof.
  unfold index. destruct (0 <=? i); [|done]. destruct (l !! Z.to_nat i) as [y|] eqn:Hy; [|done].
  intros [= <-]. by eapply list_elem_of_lookup_2.
Qed.

Lemma freeze_spec records : forall (p p' : producer) fz,
  sane_metadata -> freezePartitions p records = (p', Ok fz) -> Forall2 chosen records fz.
Proof.
  intros p p' fz Hsane. revert p p' fz.
  induction records as [|r records IH]; intros p p' fz; cbn [freezePartitions].
  { intros [= <- <-]. constructor. }
  destruct (r_Partition r <? 0) eqn:Hr; zbool.
  - destruct (resolvePartition p r) as [p1 [[part leader]|e|]] eqn:Hres; cbn; [|done..].
    destruct (freezePartitions p1 records) as [p2 [rs|e|]] eqn:Hf; cbn; [|done..].
    intros [= <- <-]. constructor; [|by eapply IH].
    split_and!; [done|intros; lia|]. cbn. revert Hres. unfold resolvePartition.
    case_goal; [done|]. destruct (r_Partition r >=? 0) eqn:Hge; zbool; [lia|].
    destruct (Partition _ _ _) as [ps [idx|e|]]; cbn; [|done..].
    destruct (index _ idx) as [pm|e|] eqn:Hpm; cbn; [|done..]. intros [= <- <- <-].
    apply index_elem in Hpm. by eapply Hsane.
  - destruct (freezePartitions p records) as [p2 [rs|e|]] eqn:Hf; cbn; [|done..].
    intros [= <- <-]. constructor; [|by eapply IH]. split_and!; [by destruct r|done|done].
Qed.

Lemma chosen_settled records fz : Forall2 chosen records fz -> settled fz.
Proof. induction 1 as [|r f records fz Hc _ IH]; constructor; [apply Hc|done]. Qed.

Lemma chosen_named records fz : Forall2 chosen records fz -> named records -> named fz.
Proof.
  induction 1 as [|r f records fz Hc _ IH]; intros Hn; [constructor|].
  apply Forall_cons in Hn as [Hr Hn]. constructor; [|by apply IH]. destruct Hc as (-> & _). done.
Qed.

(** ** Invariant of the closure's variables *)

Section loop.
Context (topics : list bytes) (records : list record) (Hsane : sane_metadata).
Local Notation sync := (@sync_state W PS).

(** The partitions a record of the call may end up in. *)
Definition targets (k : partKey) : Prop := exists r f, r ∈ records /\ chosen r f /\ key_of f = k.

Lemma chosen_keyed fz : Forall2 chosen records fz -> keyed targets fz.
Proof.
  intros Hc. apply Forall_lookup. intros i f Hf.
  destruct (Forall2_lookup_r _ _ _ _ _ Hc Hf) as (r & Hr & Hch).
  exists r, f. split_and!; [by eapply list_elem_of_lookup_2|done..].
Qed.

Record sync_inv (s : sync) : Prop := {
  si_results : length (sy_results s) = length records;
  si_acked : length (sy_acked s) = length records;
  si_frozen : forall fz, sy_frozen s = Some fz -> Forall2 chosen records fz;
  si_true : forall i, sy_acked s !! i = Some true ->
    exists fz r res, sy_frozen s = Some fz /\ fz !! i = Some r /\
      sy_results s !! i = Some res /\ matches r res /\ is_acked res = true;
  si_false : forall i, sy_acked s !! i = Some false -> sy_results s !! i = Some zero_result }.

(** What never changes from one attempt to the next. *)
Record sync_keeps (s s' : sync) : Prop := {
  sk_frozen : forall fz, sy_frozen s = Some fz -> sy_frozen s' = Some fz;
  sk_partitioner : forall fz, sy_frozen s = Some fz -> p_partitioner (sy_p s') = p_partitioner (sy_p s);
  sk_acked : forall i, sy_acked s !! i = Some true ->
    sy_acked s' !! i = Some true /\ sy_results s' !! i = sy_results s !! i }.

Lemma sync_keeps_refl s : sync_keeps s s.
Proof. by split. Qed.

Lemma sync_keeps_trans s1 s2 s3 : sync_keeps s1 s2 -> sync_keeps s2 s3 -> sync_keeps s1 s3.
Proof.
  intros [Hf1 Hp1 Ha1] [Hf2 Hp2 Ha2]. split; [by auto| |].
  - intros fz Hfz. rewrite (Hp2 fz) by auto. by eapply Hp1.
  - intros i Hi. destruct (Ha1 i Hi) as [Hi1 <-]. by apply Ha2.
Qed.

Lemma sync_p_inv s p : sync_inv s -> sync_inv (sync_p s p).
Proof. by intros []. Qed.

Lemma sync_p_keeps s p : p_partitioner p = p_partitioner (sy_p s) -> sync_keeps s (sync_p s p).
Proof. by split. Qed.

(** Before the partitions are chosen nothing is acknowledged. *)
Lemma sync_keeps_unfrozen s s' : sync_inv s -> sy_frozen s = None -> sync_keeps s s'.
Proof.
  intros Hinv Hn. split; intros; [congruence..|].
  destruct (si_true _ Hinv i) as (? & ? & ? & Hx & _); [done|congruence].
Qed.

(** The pending records by position. *)
Lemma pending_spec fz acked :
  let '(pending, origIdx) := pendingRecords fz acked in
  NoDup origIdx /\
  (forall k i, origIdx !! k = Some i -> acked !! i = Some false) /\
  (forall k r, pending !! k = Some r -> exists i, origIdx !! k = Some i /\ fz !! i = Some r) /\
  (forall i r, fz !! i = Some r -> acked !! i = Some false -> exists k, origIdx !! k = Some i /\ pending !! k = Some r) /\
  (forall r, r ∈ pending -> r ∈ fz).
Proof.
  unfold pendingRecords. set (l := pending_from 0 fz acked).
  assert (Hl : forall k r i, l !! k = Some (r, i) -> fz !! i = Some r /\ acked !! i = Some false).
  { intros k r i Hk%list_elem_of_lookup_2%pending_from_elem. rewrite Nat.sub_0_r in Hk. tauto. }
  split_and!.
  - apply pending_from_nodup.
  - intros k i. rewrite list_lookup_fmap. destruct (l !! k) as [[r j]|] eqn:Hk; [|done].
    intros [= <-]. by eapply Hl.
  - intros k r. rewrite !list_lookup_fmap. destruct (l !! k) as [[r' j]|] eqn:Hk; [|done].
    intros [= <-]. exists j. split; [done|]. by eapply Hl.
  - intros i r Hr Ha. assert (Hin : (r, i) ∈ l) by (apply pending_from_elem; rewrite Nat.sub_0_r; auto with lia).
    apply list_elem_of_lookup in Hin as [k Hk]. exists k. by rewrite !list_lookup_fmap, Hk.
  - intros r ([r' i] & -> & Hin)%list_elem_of_fmap. apply pending_from_elem in Hin as (_ & Hr & _).
    by eapply list_elem_of_lookup_2.
Qed.

Lemma matches_acked r res : matches r res -> r_Topic r <> [] -> is_acked res = true.
Proof. intros (_ & Ht & _) Hr. unfold is_acked. rewrite Ht. by rewrite bool_decide_eq_false_2. Qed.

(** A pending position after the merge: acknowledged by its result, or left
    alone. *)
Lemma merge_position s fz pending origIdx results i :
  pendingRecords fz (sy_acked s) = (pending, origIdx) -> sync_inv s ->
  (results = [] \/ results_ok pending results) -> sy_acked s !! i = Some false ->
  let RA := mergeAcked (sy_results s) (sy_acked s) origIdx results in
  (exists r res, fz !! i = Some r /\ fst RA !! i = Some res /\ snd RA !! i = Some true /\ matches r res /\ is_acked res = true) \/
  (fst RA !! i = sy_results s !! i /\ snd RA !! i = Some false /\
     forall k res, results !! k = Some res -> origIdx !! k = Some i -> is_acked res = false).
Proof.
  intros Hpend [Hlr Hla _ _ _] Hres Hi. pose proof (pending_spec fz (sy_acked s)) as Hspec.
  rewrite Hpend in Hspec. destruct Hspec as (Hnd & _ & Hpr & _).
  assert (Hli : (i < length records)%nat) by (rewrite <- Hla; by eapply lookup_lt_Some).
  destruct (decide (Exists (fun x => snd x = i /\ is_acked (fst x) = true) (zip results origIdx))) as [Hex|Hno].
  - left. apply Exists_exists in Hex as ([res j] & [k Hk]%list_elem_of_lookup & Hj & Hack). cbn [fst snd] in *. subst j.
    apply lookup_zip_Some in Hk as [Hr Ho].
    destruct (mergeAcked_at results (sy_results s) (sy_acked s) origIdx i k res Hnd Hr Ho Hack) as [HR HA]; [lia..|].
    destruct Hres as [->|[Hl Hok]]; [done|]. destruct (Hok k res Hr) as (r & Hrk & [->|Hm]); [done|].
    destruct (Hpr k r Hrk) as (i' & Ho' & Hfzi). simplify_eq. exists r, res. eauto 10.
  - right. assert (Hno' : forall k res, results !! k = Some res -> origIdx !! k = Some i -> is_acked res = false).
    { intros k res Hr Ho. destruct (is_acked res) eqn:Hack; [|done]. exfalso. apply Hno, Exists_exists.
      exists (res, i). split; [|done]. apply list_elem_of_lookup. exists k. by apply lookup_zip_Some. }
    destruct (mergeAcked_lookup results (sy_results s) (sy_acked s) origIdx i Hnd Hno') as [-> ->]. auto.
Qed.

(** Merging the results of a send of the pending records. *)
Lemma merge_spec s fz p results (err : option error) :
  let '(pending, origIdx) := pendingRecords fz (sy_acked s) in
  let '(R, A) := mergeAcked (sy_results s) (sy_acked s) origIdx results in
  sync_inv s -> sy_frozen s = Some fz ->
  (results = [] \/ results_ok pending results) ->
  p_partitioner p = p_partitioner (sy_p s) ->
  let s' := mkSync p R A (sy_frozen s) in
  sync_inv s' /\ sync_keeps s s' /\
  (named fz -> (err = None -> forall k, all_acked pending results k) ->
   err = None -> forall i, (i < length records)%nat -> A !! i = Some true).
Proof.
  pose proof (pending_spec fz (sy_acked s)) as Hspec.
  pose proof (fun pending origIdx => merge_position s fz pending origIdx results) as Hpos.
  destruct (pendingRecords fz (sy_acked s)) as [pending origIdx]. destruct Hspec as (Hnd & Hidx & _ & Hall & _).
  specialize (fun i Hi Hr => Hpos pending origIdx i eq_refl Hi Hr).
  pose proof (fun i => mergeAcked_lookup results (sy_results s) (sy_acked s) origIdx i Hnd) as Hsame.
  pose proof (mergeAcked_length results (sy_results s) (sy_acked s) origIdx) as Hlen.
  destruct (mergeAcked (sy_results s) (sy_acked s) origIdx results) as [R A]. cbn [fst snd] in *.
  intros Hinv Hfz Hres Hp. specialize (fun i => Hpos i Hinv Hres). destruct Hinv as [Hlr Hla Hfr Htrue Hfalse]. cbn zeta.
  assert (Hkeep : forall i, sy_acked s !! i <> Some false -> R !! i = sy_results s !! i /\ A !! i = sy_acked s !! i).
  { intros i Hi. apply Hsame. intros k r _ Hk. by apply Hidx in Hk. }
  split_and!.
  - split; cbn [sy_results sy_acked sy_frozen]; [lia|lia|done| |];
      intros i Hi; (destruct (sy_acked s !! i) as [[]|] eqn:Ha;
        [|destruct (Hpos i Ha) as [(r & res & ? & ? & ? & ? & ?)|(HR & ? & _)]|]);
      try (destruct (Hkeep i) as [HR HA]; [by rewrite Ha|]); try congruence.
    + rewrite HR. by apply Htrue.
    + by exists fz, r, res.
    + rewrite HR. by apply Hfalse.
  - split; cbn [sy_results sy_acked sy_frozen sy_p]; [done|by intros|].
    intros i Hi. destruct (Hkeep i) as [-> ->]; [by rewrite Hi|]. done.
  - intros Hn Hacked Herr i Hi. destruct (lookup_lt_is_Some_2 (sy_acked s) i) as [[] Ha]; [lia| |].
    { destruct (Hkeep i) as [_ ->]; [by rewrite Ha|]. done. }
    destruct (Hpos i Ha) as [(r & res & _ & _ & ? & _)|(_ & _ & Hno)]; [done|]. exfalso.
    destruct (lookup_lt_is_Some_2 fz i) as [r Hr]; [by rewrite <- (Forall2_length _ _ _ (Hfr fz Hfz))|].
    destruct (Hall i r Hr Ha) as (k & Ho & Hk).
    destruct (Hacked Herr (key_of r) k r Hk eq_refl) as (r' & res & Hr' & Hres' & Hm). simplify_eq.
    specialize (Hno k res Hres' Ho). rewrite (matches_acked r res Hm) in Hno; [done|].
    by apply (Forall_lookup_1 _ _ _ _ Hn Hr).
Qed.

Lemma settled_subset rs rs' : (forall r, r ∈ rs -> r ∈ rs') -> settled rs' -> settled rs.
Proof. intros Hin Hs. apply Forall_forall. intros r Hr. by apply (proj1 (Forall_forall _ _) Hs), Hin. Qed.

Lemma keyed_subset K rs rs' : (forall r, r ∈ rs -> r ∈ rs') -> keyed K rs' -> keyed K rs.
Proof. intros Hin Hs. apply Forall_forall. intros r Hr. by apply (proj1 (Forall_forall _ _) Hs), Hin. Qed.

Lemma named_subset rs rs' : (forall r, r ∈ rs -> r ∈ rs') -> named rs' -> named rs.
Proof. intros Hin Hs. apply Forall_forall. intros r Hr. by apply (proj1 (Forall_forall _ _) Hs), Hin. Qed.

Lemma send_pending_spec s fz s' o :
  sync_inv s -> sy_frozen s = Some fz -> send_pending cfg topics fz s = (s', o) ->
  sync_inv s' /\ sync_keeps s s' /\
  (named fz -> faithful_replies targets -> o = Ok tt -> forall i, (i < length records)%nat -> sy_acked s' !! i = Some true).
Proof.
  intros Hinv Hfz. unfold send_pending.
  pose proof (pending_spec fz (sy_acked s)) as Hpend.
  pose proof (fun p R e => merge_spec s fz p R e) as Hmerge.
  destruct (pendingRecords fz (sy_acked s)) as [pending origIdx]. destruct Hpend as (_ & _ & _ & _ & Hsub).
  assert (Hset : settled pending).
  { eapply settled_subset; [exact Hsub|]. eapply chosen_settled. by apply Hinv. }
  pose proof (sendOnce_keeps (sy_p s) pending Hset) as Hkeep.
  destruct (sendOnce cfg (sy_p s) pending) as [p [[results err]|e|]] eqn:Hsend; cbn [fst] in Hkeep.
  2,3: intros [= <- <-]; split_and!; [by apply sync_p_inv|by apply sync_p_keeps|done].
  apply (sendOnce_results targets) in Hsend as [Hres Hall]; [|done].
  pose proof (fun p => Hmerge p results err) as Hm. clear Hmerge.
  destruct (mergeAcked (sy_results s) (sy_acked s) origIdx results) as [R A].
  destruct err as [e|]; intros [= <- <-].
  - destruct (Hm (if IsRetriable e then set_world p (fst (env_Refresh topics (p_world p))) else p)
      Hinv Hfz Hres) as (? & ? & _); [by destruct (IsRetriable e)|].
    by split_and!.
  - destruct (Hm p Hinv Hfz Hres Hkeep) as (? & ? & Hdone). split_and!; [done..|].
    intros Hn Hf _. apply Hdone; [done| |done]. intros _. apply Hall; [by eapply named_subset| |done..].
    eapply keyed_subset; [exact Hsub|]. apply chosen_keyed. by apply Hinv.
Qed.

Lemma sync_attempt_spec s s' o :
  sync_inv s -> sync_attempt cfg topics records s = (s', o) ->
  sync_inv s' /\ sync_keeps s s' /\
  (named records -> faithful_replies targets -> o = Ok tt -> forall i, (i < length records)%nat -> sy_acked s' !! i = Some true).
Proof.
  intros Hinv. unfold sync_attempt.
  destruct (env_RefreshIfStale topics (p_world (sy_p s))) as [w o1].
  set (s1 := sync_p s (set_world (sy_p s) w)).
  assert (Hinv1 : sync_inv s1) by (by apply sync_p_inv).
  assert (Hk1 : sync_keeps s s1) by (by apply sync_p_keeps).
  destruct o1 as [[]|e|]; [|by intros [= <- <-]..].
  unfold freeze_once. destruct (sy_frozen s1) as [fz|] eqn:Hfz.
  - intros Hrun. apply send_pending_spec in Hrun as (? & ? & Hdone); [|done..].
    split_and!; [done|by eapply sync_keeps_trans|]. intros Hn. apply Hdone.
    exact (chosen_named _ _ (si_frozen _ Hinv1 fz Hfz) Hn).
  - destruct (freezePartitions (sy_p s1) records) as [p [fz|e|]] eqn:Hfr.
    2,3: intros [= <- <-]; split_and!; [by apply sync_p_inv|by apply sync_keeps_unfrozen|done].
    apply freeze_spec in Hfr as Hch; [|done]. 
    set (s2 := mkSync p (sy_results s1) (sy_acked s1) (Some fz)).
    assert (Hno : forall i, sy_acked s1 !! i <> Some true).
    { intros i Hi. destruct (si_true _ Hinv1 i Hi) as (? & ? & ? & Hx & _). congruence. }
    assert (Hinv2 : sync_inv s2).
    { destruct Hinv1 as [Hlr Hla _ _ Hfa]. split; cbn; [done..|by intros ? [= <-]|by intros i ?%Hno|done]. }
    intros Hrun. apply send_pending_spec in Hrun as (? & ? & Hdone); [|done..].
    split_and!; [done| |intros Hn; apply Hdone; by eapply chosen_named].
    by apply sync_keeps_unfrozen.
Qed.

Lemma sync_sleep_spec d s : sync_inv s -> sync_inv (fst (sync_sleep d s)) /\ sync_keeps s (fst (sync_sleep d s)).
Proof.
  intros Hinv. unfold sync_sleep. destruct (env_sleep d (p_world (sy_p s))) as [w e]. cbn [fst].
  split; [by apply sync_p_inv|by apply sync_p_keeps].
Qed.

Lemma sync_start_inv p : sync_inv (sync_start p records).
Proof.
  split; cbn; [by rewrite length_replicate..|done| |].
  - by intros i [? _]%lookup_replicate.
  - intros i [_ Hi]%lookup_replicate. by apply lookup_replicate.
Qed.

(** One step of the loop: an attempt or a wait. *)
Definition sync_step (s s' : sync) : Prop :=
  s' = fst (sync_attempt cfg topics records s) \/ exists d, s' = fst (sync_sleep d s).

Lemma sync_step_spec s s' : sync_inv s -> sync_step s s' -> sync_inv s' /\ sync_keeps s s'.
Proof.
  intros Hinv [->|[d ->]]; [|by apply sync_sleep_spec].
  destruct (sync_attempt cfg topics records s) as [s' o] eqn:Hrun.
  by destruct (sync_attempt_spec _ _ _ Hinv Hrun) as (? & ? & _).
Qed.

Lemma sync_steps_spec s s' : sync_inv s -> rtc sync_step s s' -> sync_inv s' /\ sync_keeps s s'.
Proof.
  intros Hinv Hr. induction Hr as [s|s1 s2 s3 Hstep _ IH]; [split; [done|apply sync_keeps_refl]|].
  destruct (sync_step_spec _ _ Hinv Hstep) as [Hinv2 Hk2]. destruct (IH Hinv2) as [Hinv3 Hk3].
  split; [done|by eapply sync_keeps_trans].
Qed.

End loop.

(** ** The replies behind the results *)

Section confirmed_loop.
Context `{!TracedEnv W}.

Lemma confirmed_mono log log' f res : confirmed log f res -> confirmed (log ++ log') f res.
Proof.
  intros (node & ver & clock & settings & batch & body & rb & l & pr & i & now & Hin & Hrest).
  exists node, ver, clock, settings, batch, body, rb, l, pr, i, now. split; [|done]. apply elem_of_app. by left.
Qed.

Lemma confirmed_later log log' f res : confirmed log' f res -> confirmed (log ++ log') f res.
Proof.
  intros (node & ver & clock & settings & batch & body & rb & l & pr & i & now & Hin & Hrest).
  exists node, ver, clock, settings, batch, body, rb, l, pr, i, now. split; [|done]. apply elem_of_app. by right.
Qed.

Lemma produceToBroker_extends inputs (w : W) node batch settings results :
  extends w (fst (produceToBroker w node batch inputs settings results)).
Proof.
  unfold produceToBroker. cbn zeta. case_goal; cbn [fst]; [|reflexivity..].
  match goal with |- context [env_Request ?n ?a ?v ?b w] => pose proof (extends_Request n a v b w) as Hx; destruct (env_Request n a v b w) as [w1 [rb|e|]] end;
    cbn [fst] in *; [|done..]. by destruct (DecodeProduceResponse _ _).
Qed.

Lemma fan_out_extends inputs nodes settings : forall (w : W) results, extends w (fst (fan_out w nodes inputs settings results)).
Proof.
  induction nodes as [|[node batch] nodes IH]; intros w results; cbn [fan_out]; [reflexivity|].
  pose proof (produceToBroker_extends inputs w node batch settings results) as Hp.
  destruct (produceToBroker w node batch inputs settings results) as [w1 [[res1 out]|e|]]; cbn [fst] in *; [|done..].
  specialize (IH w1 res1). destruct (fan_out w1 nodes inputs settings res1) as [w2 o]. cbn [fst] in *. by etransitivity.
Qed.

Lemma sendOnce_extends (p : producer) rs : settled rs -> extends (p_world p) (p_world (fst (sendOnce cfg p rs))).
Proof.
  intros Hs. unfold sendOnce, sendRecords. pose proof (route_keeps rs p 0 (∅, ∅) Hs) as Hk.
  destruct (route p 0 rs (∅, ∅)) as [p1 [m|e|]]; cbn [fst] in Hk; subst p1; cbn; [|reflexivity..].
  unfold send_routed. cbn zeta. destruct (match so_id _ with Some _ => _ | None => _ end) as [id cursor].
  match goal with |- context [fan_out ?w ?n ?i ?s ?r] => pose proof (fan_out_extends i n s w r) as Hx; destruct (fan_out w n i s r) as [w1 [[? ?]|e|]] end; done.
Qed.

Lemma freeze_world records : forall p : producer, p_world (fst (freezePartitions p records)) = p_world p.
Proof.
  induction records as [|r records IH]; intros p; cbn [freezePartitions]; [done|].
  destruct (r_Partition r <? 0) eqn:Hr.
  - assert (Hw : p_world (fst (resolvePartition p r)) = p_world p).
    { unfold resolvePartition. case_goal; [done|]. case_goal; [by destruct (LeaderNodeID _ _ _)|]. by destruct (Partition _ _ _). }
    destruct (resolvePartition p r) as [p1 [[? ?]|e|]]; cbn [fst res_bind] in *; [|done..].
    specialize (IH p1). destruct (freezePartitions p1 records). cbn [fst] in *. congruence.
  - specialize (IH p). by destruct (freezePartitions p records).
Qed.

Context (topics : list bytes) (records : list record) (Hsane : sane_metadata) (Hf : faithful_replies (targets records)).
Local Notation sync := (@sync_state W PS).

(** Since the calls [base], every result that is there was confirmed. *)
Definition sync_backed (base : list call) (s : sync) : Prop :=
  exists new, env_calls (p_world (sy_p s)) = base ++ new /\ forall i res, sy_results s !! i = Some res ->
    res = zero_result \/ exists fz f, sy_frozen s = Some fz /\ fz !! i = Some f /\ confirmed new f res.

Lemma sync_backed_world base s (p : producer) :
  extends (p_world (sy_p s)) (p_world p) -> sync_backed base s -> sync_backed base (sync_p s p).
Proof.
  intros [l Hl] (new & Hn & Hb). exists (new ++ l). cbn [sync_p sy_p sy_results sy_frozen]. split; [by rewrite Hl, Hn, app_assoc|].
  intros i res Hi. destruct (Hb i res Hi) as [?|(fz & f & ? & ? & Hc)]; [by left|right]. exists fz, f. split_and!; [done..|by apply confirmed_mono].
Qed.

Lemma send_pending_backed base s fz : sync_inv records s -> sy_frozen s = Some fz -> sync_backed base s ->
  sync_backed base (fst (send_pending cfg topics fz s)).
Proof.
  intros Hinv Hfz Hb. unfold send_pending. pose proof (pending_spec fz (sy_acked s)) as Hpend.
  destruct (pendingRecords fz (sy_acked s)) as [pending origIdx]. destruct Hpend as (_ & _ & Hpr & _ & Hsub).
  assert (Hset : settled pending).
  { eapply settled_subset; [exact Hsub|]. eapply chosen_settled. by apply Hinv. }
  pose proof (sendOnce_extends (sy_p s) pending Hset) as Hx.
  destruct (sendOnce cfg (sy_p s) pending) as [p [[results err]|e|]] eqn:Hsend; cbn [fst] in Hx; [|by apply sync_backed_world..].
  apply (sendOnce_confirmed (targets records)) in Hsend as (l & Hl & Hc); [|done| |done].
  2: { eapply keyed_subset; [exact Hsub|]. apply chosen_keyed. by apply Hinv. }
  destruct Hb as (new & Hn & Hb).
  assert (Hmerged : forall p1, env_calls (p_world p1) = env_calls (p_world p) ->
    sync_backed base (let '(R, A) := mergeAcked (sy_results s) (sy_acked s) origIdx results in mkSync p1 R A (sy_frozen s))).
  { intros p1 Hp1. pose proof (mergeAcked_get results (sy_results s) (sy_acked s) origIdx) as Hget.
    destruct (mergeAcked _ _ _ _) as [R A]. exists (new ++ l). cbn [sy_p sy_results sy_frozen fst] in *.
    split; [by rewrite Hp1, Hl, Hn, app_assoc|]. intros i res [Hi|(k & Hk & Ho)]%Hget.
    - destruct (Hb i res Hi) as [?|(fz' & f & ? & ? & ?)]; [by left|right]. exists fz', f. split_and!; [done..|by apply confirmed_mono].
    - destruct (Hc k res Hk) as [?|(r & Hr & Hcr)]; [by left|right]. destruct (Hpr k r Hr) as (i' & Ho' & Hfi). simplify_eq.
      exists fz, r. split_and!; [done..|by apply confirmed_later]. }
  destruct (mergeAcked _ _ _ _) as [R A]. destruct err as [e|]; [|by apply Hmerged].
  apply Hmerged. destruct (IsRetriable e); [|done]. apply calls_Refresh.
Qed.

Lemma sync_attempt_backed base s : sync_inv records s -> sync_backed base s ->
  sync_backed base (fst (sync_attempt cfg topics records s)).
Proof.
  intros Hinv Hb. unfold sync_attempt. pose proof (extends_RefreshIfStale topics (p_world (sy_p s))) as Hx.
  destruct (env_RefreshIfStale topics (p_world (sy_p s))) as [w o1]. cbn [fst] in Hx.
  set (s1 := sync_p s (set_world (sy_p s) w)).
  assert (Hinv1 : sync_inv records s1) by (by apply sync_p_inv).
  assert (Hb1 : sync_backed base s1) by (by apply sync_backed_world).
  destruct o1 as [[]|e|]; [|done..]. unfold freeze_once. destruct (sy_frozen s1) as [fz|] eqn:Hfz; [by apply send_pending_backed|].
  pose proof (freeze_world records (sy_p s1)) as Hw.
  destruct (freezePartitions (sy_p s1) records) as [p [fz|e|]] eqn:Hfr; cbn [fst] in Hw; cbn [fst].
  2,3: apply sync_backed_world; [apply extends_same; by rewrite Hw|done].
  apply freeze_spec in Hfr as Hch; [|done].
  assert (Hno : forall i, sy_acked s1 !! i <> Some true).
  { intros i Hi. destruct (si_true _ _ Hinv1 i Hi) as (? & ? & ? & ? & _). congruence. }
  apply send_pending_backed; [|done|].
  - destruct Hinv1 as [Hlr Hla _ _ Hfa]. split; cbn; [done..|by intros ? [= <-]|by intros i ?%Hno|done].
  - destruct Hb1 as (new & Hn & Hb1). exists new. cbn [sy_p sy_results sy_frozen]. split; [congruence|]. intros i res Hi.
    destruct (Hb1 i res Hi) as [?|(? & ? & ? & _)]; [by left|congruence].
Qed.

Lemma sync_sleep_backed base d s : sync_backed base s -> sync_backed base (fst (sync_sleep d s)).
Proof.
  intros Hb. unfold sync_sleep. pose proof (extends_sleep d (p_world (sy_p s))) as Hx.
  destruct (env_sleep d (p_world (sy_p s))) as [w e]. by apply sync_backed_world.
Qed.

Lemma sync_start_backed (p : producer) : sync_backed (env_calls (p_world p)) (sync_start p records).
Proof. exists []. rewrite app_nil_r. split; [done|]. intros i res [-> _]%lookup_replicate. by left. Qed.
End confirmed_loop.

Lemma init_attempt_extends `{!TracedEnv W} body s : extends (fst s) (fst (fst (init_attempt cfg body s))).
Proof.
  destruct s as [w pid]. unfold init_attempt. cbn zeta. cbn [fst].
  destruct (bool_decide (transactionalID cfg = [])).
  - pose proof (extends_RequestViaSeed APIInitProducerID VerInitProducerID body w) as Hx.
    destruct (env_RequestViaSeed _ _ _ w) as [w1 [rb|e|]]; cbn [fst] in *; [|done..].
    destruct (DecodeInitProducerID rb) as [id|[]|]; cbn [fst]; try done. by rewrite andb_false_r.
  - pose proof (extends_TransactionCoordinator (transactionalID cfg) w) as Hx.
    destruct (env_TransactionCoordinator _ w) as [w1 [c|e|]]; cbn [fst] in *; [|done..].
    pose proof (extends_Request c APIInitProducerID VerInitProducerID body w1) as Hy.
    destruct (env_Request c _ _ _ w1) as [w2 [rb|e|]]; cbn [fst] in *; [|by etransitivity..].
    assert (Hxy : extends w w2) by (by etransitivity).
    destruct (DecodeInitProducerID rb) as [id|[]|]; cbn [fst]; try done.
    case_match; [|done]. etransitivity; [exact Hxy|]. apply extends_Invalidate.
Qed.

Lemma ensureProducerID_extends `{!TracedEnv W} (p : producer) : extends (p_world p) (p_world (fst (ensureProducerID cfg p))).
Proof.
  unfold ensureProducerID. cbn zeta. case_match; [reflexivity|]. destruct (p_id p); [reflexivity|].
  destruct (EncodeInitProducerID _ _) as [body|e|]; [|reflexivity..].
  match goal with |- context [retryRetriable ?c ?s ?k ?f ?x] =>
    assert (Hx : extends (fst x) (fst (fst (retryRetriable c s k f x)))) end.
  { unfold retryRetriable. apply (retry_loop_rel _ _ _ _ _ (fun a b => extends (fst a) (fst b))).
    - intros s. reflexivity.
    - intros a b c Hab Hbc. by etransitivity.
    - intros s. apply init_attempt_extends.
    - intros d [w pid]. pose proof (extends_sleep d w) as Hs. cbn [fst snd] in *. by destruct (env_sleep d w). }
  destruct (retryRetriable _ _ _ _ _) as [[w pid] [[]|e|]]; done.
Qed.

Section complete.
Context `{!TracedEnv W}.

(** [res] acknowledges [r]: its record is [r] with a chosen partition if it had
    none, and a reply among the calls confirmed it. *)
Definition acknowledged (log : list call) (r : record) (res : ProduceRecordResult) : Prop :=
  exists f, chosen r f /\ matches f res /\ confirmed log f res.

Lemma acknowledged_later log log' r res : acknowledged log' r res -> acknowledged (log ++ log') r res.
Proof. intros (f & ? & ? & ?). exists f. split_and!; [done..|by apply confirmed_later]. Qed.

(** What is known of the closure's variables at any time, since the calls
    [base]. *)
Definition sync_known records base (s : @sync_state W PS) : Prop := sync_inv records s /\ sync_backed base s.

Lemma known_results records base s : sync_known records base s ->
  exists new, env_calls (p_world (sy_p s)) = base ++ new /\ forall i r, records !! i = Some r ->
    exists res, sy_results s !! i = Some res /\
      ((sy_acked s !! i = Some true /\ acknowledged new r res) \/ (sy_acked s !! i = Some false /\ res = zero_result)).
Proof.
  intros [[Hlr Hla Hfr Ht Hf] (new & Hn & Hb)]. exists new. split; [done|]. intros i r Hr.
  assert (Hi : (i < length records)%nat) by (by eapply lookup_lt_Some).
  destruct (lookup_lt_is_Some_2 (sy_acked s) i) as [[] Ha]; [lia| |].
  - destruct (Ht i Ha) as (fz & f & res & Hfz & Hfi & Hres & Hm & Hack). exists res. split; [done|]. left.
    split; [done|]. exists f. split_and!; [by destruct (Forall2_lookup_lr _ _ _ _ _ _ (Hfr fz Hfz) Hr Hfi)|done|].
    destruct (Hb i res Hres) as [->|(fz' & f' & Hfz' & Hfi' & Hc)]; [done|]. by simplify_eq.
  - exists zero_result. split; [by apply Hf|]. by right.
Qed.

(** The retried closure keeps what is known. *)
Lemma attempts_known (p : producer) records o s' : sane_metadata -> faithful_replies (targets records) ->
  retryRetriable sync_ctx sync_sleep (cfg_Retry cfg) (sync_attempt cfg (uniqueTopics records) records) (sync_start p records) = (s', o) ->
  sync_known records (env_calls (p_world p)) s' /\
  (o = Ok tt -> named records -> forall i, (i < length records)%nat -> sy_acked s' !! i = Some true).
Proof.
  intros Hsane Hf Hrun. set (I := sync_known records (env_calls (p_world p))).
  assert (Hfn : forall s, I s -> I (fst (sync_attempt cfg (uniqueTopics records) records s))).
  { intros s [Hs Hb]. split; [|by apply sync_attempt_backed].
    destruct (sync_attempt _ _ _ s) as [s2 o2] eqn:E. by destruct (sync_attempt_spec _ _ Hsane _ _ _ Hs E). }
  assert (Hsl : forall d s, I s -> I (fst (sync_sleep d s))).
  { intros d s [Hs Hb]. split; [by apply sync_sleep_spec|by apply sync_sleep_backed]. }
  assert (Hst : I (sync_start p records)) by (split; [apply sync_start_inv|apply sync_start_backed]).
  unfold retryRetriable in Hrun. split; [by eapply retry_loop_inv|]. intros -> Hn.
  assert (Hpos : (0 < attempts (rc_MaxAttempts (cfg_Retry cfg)))%nat) by (unfold attempts; case_goal; zbool; lia).
  destruct (retry_loop_success _ _ _ _ _ I _ Hfn Hsl _ _ _ Hpos Hst Hrun) as (s0 & [Hs0 _] & Hlast).
  destruct (sync_attempt_spec _ _ Hsane _ _ _ Hs0 Hlast) as (_ & _ & Hdone). by apply Hdone.
Qed.

(** C3: A successful [ProduceSync] delivered everything.  When brokers answer
    for exactly the partitions they were sent and metadata numbers partitions
    from 0: if [ProduceSyncResult] returns without an error, every record has
    its acknowledgement, in order, in the partition it asked for (or the one
    chosen for it); if it returns an error, every result is either such an
    acknowledgement or empty.  An acknowledgement is backed by a broker: during
    the call a Produce request that carried the record was answered without an
    error code for its partition, and the offset of the record is the base
    offset of that answer plus the record's place in the partition's batch. *)
Theorem produce_sync_complete (p p' : producer) records results o :
  sane_metadata -> faithful_replies (targets records) -> named records ->
  ProduceSyncResult cfg p records = (p', (results, o)) ->
  exists new, env_calls (p_world p') = env_calls (p_world p) ++ new /\
    (o = Ok tt -> Forall2 (acknowledged new) records results) /\
    (results = [] \/ Forall2 (fun r res => acknowledged new r res \/ res = zero_result) records results).
Proof.
  intros Hsane Hf Hn. unfold ProduceSyncResult.
  destruct (negb _); [intros [= <- <- <-]; exists []; rewrite app_nil_r; split_and!; [done..|by left]|].
  destruct records as [|r0 records0]; [intros [= <- <- <-]; exists []; rewrite app_nil_r; split_and!; [done|constructor|by left]|].
  set (records := r0 :: records0) in *. pose proof (ensureProducerID_extends p) as [new1 Hnew1].
  destruct (ensureProducerID cfg p) as [p1 [[]|e|]]; cbn [fst] in Hnew1; [|intros [= <- <- <-]; exists new1; split_and!; [done..|by left]..].
  destruct (retryRetriable _ _ _ _ _) as [s' o'] eqn:Hrun. intros [= <- <- <-].
  apply attempts_known in Hrun as [Hknown Hdone]; [|done..].
  pose proof (known_results _ _ _ Hknown) as (new & Hc & Hres). destruct Hknown as [Hinv _].
  exists (new1 ++ new). rewrite app_assoc, <- Hnew1. split; [done|]. split; [intros ->|right];
    apply Forall2_same_length_lookup; (split; [symmetry; apply Hinv|]); intros i r res Hr Hi;
    destruct (Hres i r Hr) as (res' & Hi' & [[_ Ha]|[Ha Hz]]); simplify_eq; eauto using acknowledged_later.
  rewrite Hdone in Ha; [done..|by eapply lookup_lt_Some].
Qed.
End complete.
End facts.
