(* ===== verification/ProducerDemo.v ===== *)
(** The producer in concrete environments: a scripted cluster that fails a
    number of requests and then sends a fixed reply, and the in-process broker
    of [kfake].  The scripted cluster witnesses the producer's theorems and
    shows two behaviours outside their hypotheses. *)

From Stdlib Require Import ZArith Lia.
From Stdlib Require Import Strings.Byte.
From stdpp Require Import base list gmap countable strings relations.
From S2P Require Import Prelude.
From S2P Require Import Wire.
From S2P Require Import Header.
From S2P Require Import Compress.
From S2P Require Import CompressFacts.
From S2P Require Import RecordBatch.
From S2P Require Import ProduceCodec.
From S2P Require Import Kfake.
From S2P Require Import EndToEnd.
From S2P Require Import Metadata.
From S2P Require Import Partitioner.
From S2P Require Import SeqState.
From S2P Require Import Retry.
From S2P Require Import Producer.
From S2P Require Import ProducerFacts.

Open Scope Z_scope.

(** The built-in round-robin partitioner. *)
#[export] Instance round_robin : PartitionerOps Z := fun counter _ n => RoundRobinPartition counter n.

(** * A scripted cluster *)

(** The world is the number of requests that still fail. *)
Definition scripted (meta : MetadataResponse) (reply : bytes) : ClusterEnv nat := {|
  env_open _ := true;
  env_cluster _ := store_metadata meta;
  env_versions _ := None;
  env_RefreshIfStale _ w := (w, Ok tt);
  env_Refresh _ w := (w, Ok tt);
  env_Request _ _ _ _ w := match w with O => (O, Ok reply) | S w => (w, Err NetError) end;
  env_RequestViaSeed _ _ _ w := (w, Err NetError);
  env_TransactionCoordinator _ w := (w, Err NetError);
  env_Invalidate _ w := w;
  env_ctx _ := None;
  env_sleep _ w := (w, None);
  env_now _ _ := 1700000000000;
  env_clock _ _ _ _ := 1700000000000 |}.

Definition one_partition (leader : Z) : MetadataResponse :=
  mkMetadata [mkBrokerMeta 1 (str "localhost") 9092 []] 1 []
    [mkTopicMeta (str "t") (topic_uuid 1) [mkPartitionMeta (str "t") 0 leader 0 [1] [1] [] 0] 0].

(** A reply that lists partition 0 of "t" at offset 40, and one that lists
    nothing. *)
Definition full_reply : bytes := bytes_of (write_produce_response [(str "t", [mkPres 0 0 40])]).
Definition empty_reply : bytes := bytes_of (write_produce_response []).

Definition demo_cfg : Config := mkConfig (-1) 0 0 false [] [] 0 (mkRetryConfig 5 0 0).
Definition two_records : list record :=
  [mkRecord (str "t") 0 (str "k1") (str "a") [] None; mkRecord (str "t") 0 (str "k2") (str "b") [] None].

Section working.
#[local] Existing Instance stored_codecs.
#[local] Instance working_env : ClusterEnv nat := scripted (one_partition 1) full_reply.

(** Two failed requests, then the reply. *)
Definition demo_producer : Producer nat Z := mkProducer 2%nat 0 (Some (demo_pid, NewState demo_pid)).

Example retried_and_acknowledged :
  snd (ProduceSyncResult demo_cfg demo_producer two_records) =
  ([mkProduceRecordResult (mkRecord (str "t") 0 (str "k1") (str "a") [] None) (str "t") 0 40;
    mkProduceRecordResult (mkRecord (str "t") 0 (str "k2") (str "b") [] None) (str "t") 0 41], Ok tt).
Proof. vm_compute. reflexivity. Qed.

Lemma full_reply_decodes ver : ver = 12 -> DecodeProduceResponse ver full_reply = Ok [mkProduceResult (str "t") 0 40 0].
Proof. intros ->. vm_compute. reflexivity. Qed.

Lemma working_faithful (K : partKey -> Prop) :
  (forall k, K k -> k = (str "t", 0)) -> faithful_replies K.
Proof.
  intros HK settings node batch l Hne Hb (w & w' & body & rb & Henc & Hreq & Hdec).
  destruct w as [|w]; [|done]. injection Hreq as <- <-.
  rewrite full_reply_decodes in Hdec by reflexivity. apply Ok_inj in Hdec as <-.
  destruct (brokerPartKeys_spec batch) as [Hnd Hin]. symmetry. apply NoDup_Permutation; [done|apply NoDup_singleton|].
  intros k. change (map pkey [mkProduceResult (str "t") 0 40 0]) with [(str "t", 0)].
  rewrite Hin, list_elem_of_fmap, list_elem_of_singleton. split.
  - intros (pr & -> & Hpr). apply HK. exact (proj1 (Forall_forall _ _) Hb pr Hpr).
  - intros ->. destruct batch as [|pr batch]; [done|]. exists pr. apply Forall_cons in Hb as [Hb _].
    split; [symmetry; by apply HK|left].
Qed.

Lemma two_records_key r : r ∈ two_records -> key_of r = (str "t", 0) /\ 0 <= r_Partition r.
Proof. intros [->|[->|?%not_elem_of_nil]%elem_of_cons]%elem_of_cons; done. Qed.

Lemma working_targets k : targets two_records k -> k = (str "t", 0).
Proof. intros (r & f & Hr & (_ & Hf & _) & <-). apply two_records_key in Hr as [Hk Hp]. by rewrite (Hf Hp). Qed.

Lemma working_sane : sane_metadata (W := nat).
Proof.
  intros w topic pm. unfold topic_partitions. destruct (List.find _ _) as [t|] eqn:Hf; [|by intros ?%not_elem_of_nil].
  apply List.find_some in Hf as [[<-|[]] _]. intros [->|?%not_elem_of_nil]%elem_of_cons; [|done]. cbn. lia.
Qed.

Lemma two_named : named two_records.
Proof. apply Forall_cons; split; [done|]. apply Forall_cons; split; [done|constructor]. Qed.

(** The same cluster with the list of its calls. *)
Definition logged_producer : Producer (nat * list call) Z := mkProducer (2%nat, []) 0 (Some (demo_pid, NewState demo_pid)).

Lemma recorded_faithful K : faithful_replies (W := nat) K -> faithful_replies (W := nat * list call) (H1 := recorded) K.
Proof.
  intros Hf settings node batch l Hne Hb ([w log] & w' & body & rb & Henc & Hreq & Hdec).
  apply (Hf settings node batch l Hne Hb). cbn [env_Request recorded fst snd] in Hreq. unfold recorded_Request in Hreq. cbn [fst snd] in Hreq.
  destruct (env_Request node APIProduce _ body w) as [w1 r] eqn:E. injection Hreq as _ ->. exists w, w1, body, rb. split_and!; done.
Qed.

Lemma produce_sync_complete_witness :
  exists p results new, @ProduceSyncResult _ _ _ _ recorded _ demo_cfg logged_producer two_records = (p, (results, Ok tt)) /\
    snd (p_world p) = [] ++ new /\ Forall2 (acknowledged new) two_records results.
Proof.
  destruct (@ProduceSyncResult _ _ _ _ recorded _ demo_cfg logged_producer two_records) as [p [results o]] eqn:Hrun.
  assert (Ho : o = Ok tt) by (pose proof (f_equal (fun x => snd (snd x)) Hrun) as He; vm_compute in He; symmetry; exact He).
  subst o. exists p, results.
  destruct (produce_sync_complete (H1 := recorded) (TracedEnv0 := recorded_traced) demo_cfg logged_producer p two_records results (Ok tt)
    (fun w => working_sane (fst w)) (recorded_faithful _ (working_faithful _ working_targets)) two_named Hrun) as (new & Hc & Hall & _).
  exists new. split; [reflexivity|]. split; [exact Hc|exact (Hall eq_refl)].
Defined.

Lemma new_state_bounds rs : Z.of_nat (length rs) < 2 ^ 31 -> seq_bounds (Some (demo_pid, NewState demo_pid)) rs.
Proof.
  intros Hlen pid s k [= <- <-]. unfold seq_at. cbn [NewState st_sequences]. rewrite lookup_empty.
  cbn [from_option]. unfold count, len. pose proof (length_filter (fun r => key_of r = k) rs). lia.
Qed.

Lemma two_settled : settled two_records.
Proof. apply Forall_cons; split; [done|]. apply Forall_cons; split; [done|constructor]. Qed.

Lemma two_count k : 0 < count k two_records -> k = (str "t", 0).
Proof. intros (i & r & Hr & <-)%count_pos. by apply two_records_key, list_elem_of_lookup_2 with i. Qed.

(** A producer whose next request succeeds. *)
Definition ready_producer : Producer nat Z := mkProducer O 0 (Some (demo_pid, NewState demo_pid)).


(** Three attempts acknowledge the records; a further one leaves them. *)
Definition attempt (s : @sync_state nat Z) : @sync_state nat Z :=
  fst (sync_attempt demo_cfg [str "t"] two_records s).

Definition after_three : @sync_state nat Z := attempt (attempt (attempt (sync_start demo_producer two_records))).

Lemma attempt_step s : sync_step demo_cfg [str "t"] two_records s (attempt s).
Proof. by left. Qed.

Lemma after_three_reachable :
  rtc (sync_step demo_cfg [str "t"] two_records) (sync_start demo_producer two_records) after_three.
Proof. unfold after_three. do 3 (eapply rtc_l; [apply attempt_step|]). apply rtc_refl. Qed.

End working.

(** * Outside the hypotheses *)

(** A partition missing from the broker's reply is lost without an error:
    against a broker that answers a produce request with an empty list,
    [ProduceSyncResult] returns no error and empty results, and the producer's
    sequence number has advanced past the records that were never stored. *)
Theorem missing_partition_silent :
  let env := scripted (one_partition 1) empty_reply in
  let run := @ProduceSyncResult stored_codecs map_to_list_order nat Z env round_robin demo_cfg
    (mkProducer O 0 (Some (demo_pid, NewState demo_pid))) two_records in
  snd run = ([zero_result; zero_result], Ok tt) /\
  exists s, p_id (fst run) = Some (demo_pid, s) /\ seq_at s (str "t", 0) = 2.
Proof.
  cbv zeta. split; [vm_compute; reflexivity|]. eexists. split; vm_compute; reflexivity.
Qed.

(** An unknown leader is not retried.  While a partition has no leader
    (metadata lists -1), [resolvePartition] resolves a record with an explicit
    partition to the node -1 instead of returning its retriable error. *)
Theorem unknown_leader_accepted :
  let env := scripted (one_partition (-1)) full_reply in
  let p := mkProducer O 0 None : Producer nat Z in
  exists r, snd (@resolvePartition nat Z env round_robin p r) = Ok (0, -1) /\
    LeaderBroker (store_metadata (one_partition (-1))) (r_Topic r) (r_Partition r) = None.
Proof. exists (mkRecord (str "t") 0 [] [] [] None). split; vm_compute; reflexivity. Qed.

(** * The producer against the in-process broker *)

Record kworld := mkKworld { kw_broker : Broker; kw_cluster : Cluster; kw_corr : Z }.

Definition kfake_versions : gmap Z Z := NegotiateVersions (map (fun a => mkApiVersion (fst a) 0 (snd a)) advertised).

(** One request through the frames of both sides ([Conn.requestLocked],
    [Broker.serve], [ResponseBodyForAPI]). *)
Definition kfake_request (key ver : Z) (body : bytes) (w : kworld) : kworld * res bytes :=
  let ver := request_version (Some kfake_versions) key ver in
  let '(b, r) := exchange (64 * 2 ^ 20) (mkRequestHeader key ver (kw_corr w) (str "gokafka")) body (kw_broker w) in
  (mkKworld b (kw_cluster w) (s32 (kw_corr w + 1)),
   match r with
   | Ok raw => ResponseBodyForAPI raw key ver
   | Err _ => Err NetError
   | Panic => Panic
   end).

Definition kfake_refresh (topics : list bytes) (w : kworld) : kworld * res unit :=
  let ver := negotiatedVersion (Some kfake_versions) APIMetadata 12 in
  match EncodeMetadataRequest ver (Some topics) with
  | Ok body =>
      let '(w, r) := kfake_request APIMetadata ver body w in
      match (let? rb := r in DecodeMetadataResponse ver rb) with
      | Ok meta => (mkKworld (kw_broker w) (store_metadata meta) (kw_corr w), Ok tt)
      | Err e => (w, Err e)
      | Panic => (w, Panic)
      end
  | Err e => (w, Err e)
  | Panic => (w, Panic)
  end.

#[local] Instance kfake_env : ClusterEnv kworld := {|
  env_open _ := true;
  env_cluster := kw_cluster;
  env_versions _ := Some kfake_versions;
  env_RefreshIfStale := kfake_refresh;
  env_Refresh := kfake_refresh;
  env_Request _ := kfake_request;
  env_RequestViaSeed := kfake_request;
  env_TransactionCoordinator _ w := (w, Ok 0);
  env_Invalidate _ w := w;
  env_ctx _ := None;
  env_sleep _ w := (w, None);
  env_now _ _ := 1700000000000;
  env_clock _ _ _ _ := 1700000000000 |}.

#[local] Existing Instance stored_codecs.

(** A topic with two partitions; the first produce response fails partition 1
    with NOT_LEADER. *)
Definition faulty_broker : Broker :=
  FailNextProducePartition 1 6 (str "t") 1 (fst (createTopic (str "t") 2 (NewBroker (str "127.0.0.1") 9092))).

Definition idempotent_cfg : Config := mkConfig (-1) 0 0 true [] [] 0 (mkRetryConfig 5 0 0).

Definition three_records : list record :=
  [mkRecord (str "t") 0 (str "a") (str "zero") [] None;
   mkRecord (str "t") 1 (str "b") (str "one") [] None;
   mkRecord (str "t") 1 (str "c") (str "two") [] None].

Definition empty_cluster : Cluster := store_metadata (mkMetadata [] 0 [] []).

(** The producer id is initialised, partition 0 is acknowledged by the first
    attempt and partition 1 by the second, nothing is stored twice, and the
    sequence numbers stand at the number of records of each partition. *)
Example partial_retry_against_kfake :
  let run := ProduceSyncResult idempotent_cfg (mkProducer (mkKworld faulty_broker empty_cluster 1) 0 None : Producer kworld Z)
               three_records in
  map (fun r => (prr_Partition r, prr_Offset r)) (fst (snd run)) = [(0, 0); (1, 0); (1, 1)] /\
  snd (snd run) = Ok tt /\
  (fun t => map (fun l => (len (pl_batches l), pl_leo l)) (ts_partitions t)) <$>
    (bk_topics (kw_broker (p_world (fst run))) !! str "t") = Some [(1, 1); (1, 2)] /\
  (fun i => (seq_at (snd i) (str "t", 0), seq_at (snd i) (str "t", 1))) <$> p_id (fst run) = Some (1, 2).
Proof. vm_compute. split_and!; reflexivity. Qed.
