(* ===== verification/OffsetCodec.v ===== *)
(** Committed offsets and log offsets: the OffsetCommit codec of
    [internal/protocol/groups.go] and the OffsetFetch and ListOffsets codecs of
    [internal/protocol/offsets.go], in their flexible and legacy forms.

    The offsets to commit are a Go map of maps; its entries are written in the
    order of [MapOrder].  A loop that returns from inside is [rd_for_brk]: the
    flag says that the function has returned. *)

From Stdlib Require Import ZArith Lia.
From Stdlib Require Import Strings.Byte.
From stdpp Require Import base list gmap countable strings.
From S2P Require Import Prelude.
From S2P Require Import Wire.
From S2P Require Import RecordBatch.
From S2P Require Import Metadata.

Open Scope Z_scope.

Definition VerListOffsets := 3.
Definition VerOffsetCommit := 8.
Definition VerOffsetFetchSingle := 7.
Definition VerOffsetFetchMultiGroup := 8.

(** [if s == "" { nil } else { &s }] *)
Definition strPtr (s : bytes) : option bytes := if bool_decide (s = []) then None else Some s.

Definition enc_if (c : bool) (e : Enc) : Enc := if c then e else enc_nil.
Definition rd_if {A} (c : bool) (r : Rd A) : Rd unit := if c then (r ;;; ret tt) else ret tt.

(** * OffsetCommit *)

Abbreviation offset_map := (gmap bytes (gmap Z Z)).

Section commit.
Context `{MapOrder} (ver : Z).

Definition write_commit_partition_legacy (po : Z * Z) : Enc :=
  WriteInt32 (fst po) +++ WriteInt64 (snd po) +++
  enc_if (ver >=? 6) (WriteInt32 (-1)) +++ enc_if (ver =? 1) (WriteInt64 (-1)) +++
  WriteNullableString None.

Definition encodeOffsetCommitRequestLegacy (group memberID groupInstanceID : bytes) (generation : Z)
    (offsets : offset_map) : Enc :=
  WriteString group +++
  enc_if (ver >=? 1) (WriteInt32 generation +++ WriteString memberID) +++
  enc_if (ver >=? 7) (WriteNullableString (strPtr groupInstanceID)) +++
  enc_if ((ver >=? 2) && (ver <=? 4)) (WriteInt64 (-1)) +++
  WriteInt32 (s32 (len (range offsets))) +++
  enc_list (fun tp =>
    WriteString (fst tp) +++ WriteInt32 (s32 (len (range (snd tp)))) +++
    enc_list write_commit_partition_legacy (range (snd tp))) (range offsets).

Definition write_commit_partition_flex (po : Z * Z) : Enc :=
  WriteInt32 (fst po) +++ WriteInt64 (snd po) +++ enc_if (ver >=? 6) (WriteInt32 (-1)) +++
  WriteCompactNullableString None +++ WriteEmptyTagSection.

Definition write_commit_topic_flex (tp : bytes * gmap Z Z) : Enc :=
  WriteCompactString (fst tp) +++ WriteCompactArrayLen (len (range (snd tp))) +++
  enc_list write_commit_partition_flex (range (snd tp)) +++ WriteEmptyTagSection.

Definition encodeOffsetCommitRequestFlex (group memberID groupInstanceID : bytes) (generation : Z)
    (offsets : offset_map) : Enc :=
  WriteCompactString group +++ WriteInt32 generation +++ WriteCompactString memberID +++
  enc_if (ver >=? 7)
    (if bool_decide (groupInstanceID = []) then WriteUvarint 0 else WriteCompactString groupInstanceID) +++
  WriteCompactArrayLen (len (range offsets)) +++
  enc_list write_commit_topic_flex (range offsets) +++ WriteEmptyTagSection.
End commit.

Definition EncodeOffsetCommitRequest `{MapOrder} (ver : Z) (group memberID groupInstanceID : bytes)
    (generation : Z) (offsets : offset_map) : Enc :=
  let ver := if ver <=? 0 then VerOffsetCommit else ver in
  if ver >=? 8 then encodeOffsetCommitRequestFlex ver group memberID groupInstanceID generation offsets
  else encodeOffsetCommitRequestLegacy ver group memberID groupInstanceID generation offsets.

Definition commit_code_legacy (_ : Z) : Rd (Z * bool) :=
  ReadInt32 ;;;
  code <- ReadInt16 ;;
  ret (code, negb (code =? 0)).

Definition commit_topic_legacy (_ : Z) : Rd (Z * bool) :=
  ReadString ;;;
  nParts <- ReadInt32 ;;
  rd_for_brk nParts commit_code_legacy 0.

Definition decodeOffsetCommitResponseLegacy (ver : Z) : Rd Z :=
  rd_if (ver >=? 3) ReadInt32 ;;;
  nTopics <- ReadInt32 ;;
  r <- rd_for_brk nTopics commit_topic_legacy 0 ;;
  ret (fst r).

Definition commit_code_flex (_ : Z) : Rd (Z * bool) :=
  ReadInt32 ;;;
  code <- ReadInt16 ;;
  if negb (code =? 0) then ret (code, true) else
  SkipTagSection ;;;
  ret (0, false).

Definition commit_topic_flex (_ : Z) : Rd (Z * bool) :=
  ReadCompactString ;;;
  nParts <- ReadUvarint ;;
  r <- rd_for_brk (nParts - 1) commit_code_flex 0 ;;
  if snd r then ret r else
  SkipTagSection ;;;
  ret (0, false).

Definition decodeOffsetCommitResponseFlex : Rd Z :=
  ReadInt32 ;;;
  nTopics <- ReadUvarint ;;
  r <- rd_for_brk (nTopics - 1) commit_topic_flex 0 ;;
  if snd r then ret (fst r) else
  SkipTagSection ;;;
  ret 0.

Definition DecodeOffsetCommitResponse (ver : Z) (body : bytes) : res Z :=
  if ver >=? 8 then run decodeOffsetCommitResponseFlex body else
  let? code := run (decodeOffsetCommitResponseLegacy ver) body in
  if code =? 0 then Ok 0 else
  match run decodeOffsetCommitResponseFlex body with
  | Ok alt => Ok alt
  | Err _ => Ok code
  | Panic => Panic
  end.

(** * OffsetFetch *)

Record OffsetFetchPartition := mkOffsetFetchPartition { ofp_Topic : bytes; ofp_Partition : Z }.

Record CommittedOffset := mkCommittedOffset {
  co_Topic : bytes;
  co_Partition : Z;
  co_Offset : Z;
  co_Metadata : bytes;
  co_ErrorCode : Z }.

Definition writeInt32Array (vals : list Z) : Enc := WriteInt32 (s32 (len vals)) +++ enc_list WriteInt32 vals.

(** The maps [topics] and [order] of the encoders: the partitions of each
    topic, the topics in order of first appearance. *)
Definition by_topic (parts : list OffsetFetchPartition) : list (bytes * list Z) :=
  map (fun tg => (fst tg, map ofp_Partition (snd tg))) (group_by ofp_Topic parts).

Definition encodeOffsetFetchRequestLegacy (ver : Z) (group : bytes) (parts : list OffsetFetchPartition)
    (requireStable : bool) : Enc :=
  let order := by_topic parts in
  WriteString group +++ WriteInt32 (s32 (len order)) +++
  enc_list (fun tp => WriteString (fst tp) +++ writeInt32Array (snd tp)) order +++
  enc_if (ver >=? 7) (WriteBool requireStable).

Definition write_fetch_topic_flex (tp : bytes * list Z) : Enc :=
  WriteCompactString (fst tp) +++ WriteCompactArrayLen (len (snd tp)) +++
  enc_list WriteInt32 (snd tp) +++ WriteEmptyTagSection.

Definition encodeOffsetFetchRequestFlex (ver : Z) (group : bytes) (parts : list OffsetFetchPartition)
    (requireStable : bool) : Enc :=
  let order := by_topic parts in
  WriteCompactString group +++ WriteCompactArrayLen (len order) +++
  enc_list write_fetch_topic_flex order +++
  enc_if (ver >=? 7) (WriteBool requireStable) +++ WriteEmptyTagSection.

Definition EncodeOffsetFetchRequest (ver : Z) (group : bytes) (parts : list OffsetFetchPartition)
    (requireStable : bool) : Enc :=
  let ver := if ver <=? 0 then VerOffsetFetchSingle else ver in
  if ver >=? 6 then encodeOffsetFetchRequestFlex ver group parts requireStable
  else encodeOffsetFetchRequestLegacy ver group parts requireStable.

Definition read_committed_legacy (ver : Z) (topic : bytes) : Rd CommittedOffset :=
  part <- ReadInt32 ;;
  off <- ReadInt64 ;;
  rd_if (ver >=? 5) ReadInt32 ;;;
  meta <- readNullableString ;;
  errCode <- (if ver >=? 2 then ReadInt16 else ret 0) ;;
  ret (mkCommittedOffset topic part off meta errCode).

Definition decodeOffsetFetchResponseLegacy (ver : Z) : Rd (list CommittedOffset) :=
  rd_if (ver >=? 3) ReadInt32 ;;;
  nTopics <- ReadInt32 ;;
  out <- rd_flat nTopics (
    topic <- ReadString ;;
    nParts <- ReadInt32 ;;
    rd_list nParts (read_committed_legacy ver topic)) ;;
  rd_if (ver >=? 2) ReadInt16 ;;;
  ret out.

Definition read_committed_flex (topic : bytes) : Rd CommittedOffset :=
  part <- ReadInt32 ;;
  off <- ReadInt64 ;;
  ReadInt32 ;;;
  meta <- ReadCompactNullableString ;;
  errCode <- ReadInt16 ;;
  SkipTagSection ;;;
  ret (mkCommittedOffset topic part off meta errCode).

Definition read_committed_topic_flex : Rd (list CommittedOffset) :=
  topic <- ReadCompactString ;;
  nParts <- ReadUvarint ;;
  out <- rd_list (nParts - 1) (read_committed_flex topic) ;;
  SkipTagSection ;;;
  ret out.

Definition decodeOffsetFetchResponseFlex : Rd (list CommittedOffset) :=
  ReadInt32 ;;;
  nTopics <- ReadUvarint ;;
  out <- rd_flat (nTopics - 1) read_committed_topic_flex ;;
  ReadInt16 ;;;
  SkipTagSection ;;;
  ret out.

Definition DecodeOffsetFetchResponse (ver : Z) (body : bytes) : res (list CommittedOffset) :=
  let ver := if ver <=? 0 then VerOffsetFetchSingle else ver in
  if ver >=? 6 then run decodeOffsetFetchResponseFlex body
  else run (decodeOffsetFetchResponseLegacy ver) body.

(** ** Several groups in one request *)

Definition write_group_request (gp : bytes * list OffsetFetchPartition) : Enc :=
  WriteCompactString (fst gp) +++
  (if len (snd gp) =? 0 then WriteUvarint 0 else
   WriteCompactArrayLen (len (by_topic (snd gp))) +++ enc_list write_fetch_topic_flex (by_topic (snd gp))) +++
  WriteEmptyTagSection.

Definition EncodeOffsetFetchMultiGroupRequest `{MapOrder}
    (partitionsByGroup : gmap bytes (list OffsetFetchPartition)) : Enc :=
  WriteCompactArrayLen (len (range partitionsByGroup)) +++
  enc_list write_group_request (range partitionsByGroup) +++
  WriteBool false +++ WriteEmptyTagSection.

(** One group of the response; [out[group] = offsets] replaces an earlier one. *)
Definition read_group_offsets (out : gmap bytes (list CommittedOffset)) : Rd (gmap bytes (list CommittedOffset)) :=
  group <- ReadCompactString ;;
  nTopics <- ReadUvarint ;;
  offsets <- rd_flat (nTopics - 1) read_committed_topic_flex ;;
  ReadInt16 ;;;
  SkipTagSection ;;;
  ret (<[group := offsets]> out).

Definition DecodeOffsetFetchMultiGroupResponse (body : bytes) : res (gmap bytes (list CommittedOffset)) :=
  run (
    ReadInt32 ;;;
    nGroups <- ReadUvarint ;;
    out <- rd_for (nGroups - 1) read_group_offsets ∅ ;;
    SkipTagSection ;;;
    ret out) body.

(** * ListOffsets *)

Record ListOffsetsPartition := mkListOffsetsPartition {
  lop_Topic : bytes;
  lop_Partition : Z;
  lop_Timestamp : Z }.

Record PartitionOffset := mkPartitionOffset {
  po_Topic : bytes;
  po_Partition : Z;
  po_Offset : Z;
  po_ErrorCode : Z }.

Definition write_list_topic_legacy (tg : bytes * list ListOffsetsPartition) : Enc :=
  WriteString (fst tg) +++ WriteInt32 (s32 (len (snd tg))) +++
  enc_list (fun p => WriteInt32 (lop_Partition p) +++ WriteInt64 (lop_Timestamp p)) (snd tg).

Definition encodeListOffsetsRequestLegacy (partitions : list ListOffsetsPartition) (isolation : Z) : Enc :=
  let order := group_by lop_Topic partitions in
  WriteInt32 (-1) +++ enc_if (VerListOffsets >=? 2) (WriteInt8 isolation) +++
  WriteInt32 (s32 (len order)) +++ enc_list write_list_topic_legacy order.

Definition encodeListOffsetsRequestFlex (partitions : list ListOffsetsPartition) (isolation : Z) : Enc :=
  let order := group_by lop_Topic partitions in
  WriteInt32 (-1) +++ WriteInt8 isolation +++ WriteCompactArrayLen (len order) +++
  enc_list (fun tg =>
    WriteCompactString (fst tg) +++ WriteCompactArrayLen (len (snd tg)) +++
    enc_list (fun p => WriteInt32 (lop_Partition p) +++ WriteInt64 (lop_Timestamp p) +++ WriteEmptyTagSection)
      (snd tg)) order +++
  WriteEmptyTagSection.

Definition EncodeListOffsetsRequest (partitions : list ListOffsetsPartition) (isolation : Z) : Enc :=
  if VerListOffsets >=? 6 then encodeListOffsetsRequestFlex partitions isolation
  else encodeListOffsetsRequestLegacy partitions isolation.

Definition read_partition_offset (topic : bytes) : Rd PartitionOffset :=
  part <- ReadInt32 ;;
  errCode <- ReadInt16 ;;
  ReadInt64 ;;;
  off <- ReadInt64 ;;
  ret (mkPartitionOffset topic part off errCode).

Definition decodeListOffsetsResponseLegacy : Rd (list PartitionOffset) :=
  ReadInt32 ;;;
  nTopics <- ReadInt32 ;;
  rd_flat nTopics (
    topic <- ReadString ;;
    nParts <- ReadInt32 ;;
    rd_list nParts (read_partition_offset topic)).

Definition decodeListOffsetsResponseFlex : Rd (list PartitionOffset) :=
  ReadInt32 ;;;
  nTopics <- ReadUvarint ;;
  out <- rd_flat (nTopics - 1) (
    topic <- ReadCompactString ;;
    nParts <- ReadUvarint ;;
    rd_list (nParts - 1) (po <- read_partition_offset topic ;; SkipTagSection ;;; ret po)) ;;
  SkipTagSection ;;;
  ret out.

Definition DecodeListOffsetsResponse (body : bytes) : res (list PartitionOffset) :=
  if VerListOffsets >=? 6 then run decodeListOffsetsResponseFlex body
  else run decodeListOffsetsResponseLegacy body.

(** * Safety of the decoders *)

Lemma safe_if {A} c (r : Rd A) : Safe r -> Safe (rd_if c r).
Proof. intros Hr. unfold rd_if. solve_safe. Qed.
#[export] Hint Resolve safe_if : wire.

Lemma safe_nullable_string : Safe readNullableString.
Proof. unfold readNullableString. solve_safe. Qed.
#[export] Hint Resolve safe_nullable_string : wire.

Lemma safe_commit_flex : Safe decodeOffsetCommitResponseFlex.
Proof. unfold decodeOffsetCommitResponseFlex, commit_topic_flex, commit_code_flex. solve_safe. Qed.

Lemma safe_commit_legacy ver : Safe (decodeOffsetCommitResponseLegacy ver).
Proof. unfold decodeOffsetCommitResponseLegacy, commit_topic_legacy, commit_code_legacy. solve_safe. Qed.

Lemma safe_committed_topic : Safe read_committed_topic_flex.
Proof. unfold read_committed_topic_flex, read_committed_flex. solve_safe. Qed.
#[export] Hint Resolve safe_committed_topic : wire.

Lemma offset_commit_safe ver body : DecodeOffsetCommitResponse ver body <> Panic.
Proof.
  unfold DecodeOffsetCommitResponse. pose proof (safe_run _ body safe_commit_flex) as Hf.
  pose proof (safe_run _ body (safe_commit_legacy ver)) as Hl.
  destruct (ver >=? 8); [done|]. destruct (run (decodeOffsetCommitResponseLegacy ver) body); [|done|done].
  cbn [res_bind]. destruct (_ =? 0); [done|]. by destruct (run decodeOffsetCommitResponseFlex body).
Qed.

Lemma offset_fetch_safe ver body : DecodeOffsetFetchResponse ver body <> Panic.
Proof.
  unfold DecodeOffsetFetchResponse. destruct (_ >=? 6); apply safe_run;
    unfold decodeOffsetFetchResponseFlex, decodeOffsetFetchResponseLegacy, read_committed_legacy; solve_safe.
Qed.

Lemma offset_fetch_multi_safe body : DecodeOffsetFetchMultiGroupResponse body <> Panic.
Proof. apply safe_run. unfold read_group_offsets. solve_safe. Qed.

Lemma list_offsets_safe body : DecodeListOffsetsResponse body <> Panic.
Proof. apply safe_run. unfold decodeListOffsetsResponseLegacy, read_partition_offset. solve_safe. Qed.

(** * Errors of legacy commits *)

Lemma reads_int32_bytes bs : len bs = 4 -> reads ReadInt32 bs (s32 (be_value bs)).
Proof.
  intros Hl. unfold ReadInt32. rewrite <- Hl. rewrite <- (app_nil_r bs) at 2.
  eapply reads_bind; [apply reads_take|apply reads_ret].
Qed.

(** A body that starts with a throttle time and two zero bytes is a complete
    flexible response without topics. *)
Lemma flex_reads_legacy thr rest : len thr = 4 ->
  run decodeOffsetCommitResponseFlex (thr ++ [x00; x00] ++ rest) = Ok 0.
Proof.
  intros Hl. unfold run, FromBytes, decodeOffsetCommitResponseFlex.
  change (mkBuffer (thr ++ [x00; x00] ++ rest) 0) with (mkBuffer ([] ++ thr ++ [x00; x00] ++ rest) (len (@nil byte))).
  rewrite (rbind_reads _ _ _ _ _ _ (reads_int32_bytes thr Hl)). cbn [app].
  change (x00 :: x00 :: rest) with ([x00] ++ x00 :: rest).
  rewrite (rbind_reads _ _ _ _ _ _ (Reads_uvarint 0 ltac:(lia) [x00] eq_refl)).
  change (0 - 1) with (-1). cbn [rd_for_brk].
  change (x00 :: rest) with ([x00] ++ rest). unfold rbind at 1, ret at 1. cbn [snd].
  rewrite (rbind_reads _ _ _ _ _ _ (Reads_empty_tags [x00] eq_refl)). done.
Qed.

(** Legacy commit errors are lost.  For every legacy version that carries
    a throttle time, a response with fewer than 65536 topics whose legacy
    decoding finds a partition error code is decoded a second time as a flexible
    response without topics, and the commit is reported as a success. *)
Theorem legacy_commit_error_lost ver thr rest :
  3 <= ver < 8 -> len thr = 4 ->
  DecodeOffsetCommitResponse ver (thr ++ [x00; x00] ++ rest) =
    res_map (fun _ => 0) (run (decodeOffsetCommitResponseLegacy ver) (thr ++ [x00; x00] ++ rest)).
Proof.
  intros Hv Hl. unfold DecodeOffsetCommitResponse. destruct (Z.geb_spec ver 8); [lia|].
  destruct (run (decodeOffsetCommitResponseLegacy ver) _) as [code| |]; cbn [res_bind res_map]; [|done|done].
  destruct (code =? 0); [done|]. by rewrite flex_reads_legacy.
Qed.

(** A response that reports UNKNOWN_MEMBER_ID for partition 0 of "t". *)
Definition failed_commit : bytes :=
  [x00; x00; x00; x00] ++ [x00; x00] ++
  [x00; x01; x00; x01] ++ str "t" ++ [x00; x00; x00; x01; x00; x00; x00; x00; x00; x19].

Lemma legacy_commit_error_lost_witness :
  run (decodeOffsetCommitResponseLegacy 7) failed_commit = Ok 25 /\
  DecodeOffsetCommitResponse 7 failed_commit = res_map (fun _ => 0) (Ok 25).
Proof.
  split; [vm_compute; reflexivity|].
  change (Ok 25) with (Ok (A := Z) 25).
  assert (E : run (decodeOffsetCommitResponseLegacy 7) failed_commit = Ok 25) by (vm_compute; reflexivity).
  rewrite <- E. apply (legacy_commit_error_lost 7 [x00; x00; x00; x00]); [lia|reflexivity].
Defined.
