(* ===== verification/GroupCodec.v ===== *)
(** Consumer-group requests and responses: JoinGroup, SyncGroup, Heartbeat,
    LeaveGroup and the topic administration requests of
    [internal/protocol/groups.go], FindCoordinator
    ([internal/protocol/coordinator.go]) and the next-generation heartbeat
    ([internal/protocol/consumer_group_heartbeat.go]). *)

From Stdlib Require Import ZArith Lia.
From Stdlib Require Import Strings.Byte.
From stdpp Require Import base list gmap countable strings.
From S2P Require Import Prelude.
From S2P Require Import Wire.
From S2P Require Import Metadata.
From S2P Require Import OffsetCodec.

Open Scope Z_scope.

Definition CoordinatorGroup := 0.
Definition CoordinatorTransaction := 1.
Definition VerFindCoordinator := 3.
Definition VerCreateTopics := 4.
Definition ErrorCodeMemberIDRequired := 79.

(** * JoinGroup *)

Definition encodeConsumerSubscriptionLegacy (topics : list bytes) (cooperative : bool) : Enc :=
  (if cooperative then WriteInt16 3 else WriteInt16 0) +++
  WriteInt32 (s32 (len topics)) +++ enc_list WriteString topics +++ WriteBytes None.

Definition EncodeConsumerSubscription (topics : list bytes) (cooperative : bool) : Enc :=
  encodeConsumerSubscriptionLegacy topics cooperative.

(** The defaults both encoders apply. *)
Definition join_assignor (assignor : bytes) : bytes := if bool_decide (assignor = []) then str "range" else assignor.
Definition join_session (sessionTimeoutMs : Z) : Z := if sessionTimeoutMs <=? 0 then 45000 else sessionTimeoutMs.
Definition join_rebalance (sessionTimeoutMs rebalanceTimeoutMs : Z) : Z :=
  if rebalanceTimeoutMs <=? 0 then join_session sessionTimeoutMs else rebalanceTimeoutMs.

Definition encodeJoinGroupRequestLegacy (ver : Z) (group memberID assignor instanceID : bytes)
    (topics : list bytes) (sessionTimeoutMs rebalanceTimeoutMs : Z) (cooperative : bool) : Enc :=
  let? meta := EncodeConsumerSubscription topics cooperative in
  WriteString group +++ WriteInt32 (join_session sessionTimeoutMs) +++
  WriteInt32 (join_rebalance sessionTimeoutMs rebalanceTimeoutMs) +++ WriteString memberID +++
  (if (ver >=? 5) && negb (bool_decide (instanceID = [])) then WriteNullableString (Some instanceID)
   else enc_if (ver >=? 5) (WriteInt16 (-1))) +++
  WriteString (str "consumer") +++ WriteInt32 1 +++ WriteString (join_assignor assignor) +++ WriteBytes (Some meta).

Definition encodeJoinGroupRequestFlex (group memberID assignor instanceID : bytes)
    (topics : list bytes) (sessionTimeoutMs rebalanceTimeoutMs : Z) (cooperative : bool) : Enc :=
  let? meta := EncodeConsumerSubscription topics cooperative in
  WriteCompactString group +++ WriteInt32 (join_session sessionTimeoutMs) +++
  WriteInt32 (join_rebalance sessionTimeoutMs rebalanceTimeoutMs) +++ WriteCompactString memberID +++
  (if negb (bool_decide (instanceID = [])) then WriteCompactString instanceID
   else WriteCompactNullableString None) +++
  WriteCompactString (str "consumer") +++ WriteCompactArrayLen 1 +++
  WriteCompactString (join_assignor assignor) +++ WriteCompactBytes (Some meta) +++
  WriteEmptyTagSection +++ WriteEmptyTagSection.

Definition EncodeJoinGroupRequest (ver : Z) (group memberID assignor instanceID : bytes)
    (topics : list bytes) (sessionTimeoutMs rebalanceTimeoutMs : Z) (cooperative : bool) : Enc :=
  if ver >=? 6
  then encodeJoinGroupRequestFlex group memberID assignor instanceID topics sessionTimeoutMs rebalanceTimeoutMs cooperative
  else encodeJoinGroupRequestLegacy ver group memberID assignor instanceID topics sessionTimeoutMs rebalanceTimeoutMs cooperative.

Record JoinGroupResponse := mkJoinGroupResponse {
  jg_GenerationID : Z;
  jg_MemberID : bytes;
  jg_LeaderID : bytes;
  jg_Protocol : bytes;
  jg_Assignments : gmap bytes (option bytes) }.

(** The error code, or the error for a code that is neither 0 nor 79. *)
Definition read_join_code : Rd Z :=
  ReadInt32 ;;;
  errCode <- ReadInt16 ;;
  if negb (errCode =? 0) && negb (errCode =? ErrorCodeMemberIDRequired)
  then fail (APIError "join group" errCode) else ret errCode.

(** The result comes with [ErrMemberIDRequired] when the flag is set. *)
Definition join_result (errCode gen : Z) (memberID leader protocol : bytes) (assignments : gmap bytes (option bytes))
    : JoinGroupResponse * bool :=
  (mkJoinGroupResponse gen memberID leader protocol assignments, errCode =? ErrorCodeMemberIDRequired).

Definition read_member_legacy (ver : Z) (m : gmap bytes (option bytes)) : Rd (gmap bytes (option bytes)) :=
  mid <- ReadString ;;
  rd_if (ver >=? 5) readNullableString ;;;
  meta <- ReadBytes ;;
  ret (<[mid := meta]> m).

Definition decodeJoinGroupResponseLegacy (ver : Z) : Rd (JoinGroupResponse * bool) :=
  errCode <- read_join_code ;;
  gen <- ReadInt32 ;;
  protocolName <- ReadString ;;
  leader <- ReadString ;;
  memberID <- ReadString ;;
  nMembers <- ReadInt32 ;;
  assignments <- rd_for nMembers (read_member_legacy ver) ∅ ;;
  ret (join_result errCode gen memberID leader protocolName assignments).

Definition read_member_flex (ver : Z) (m : gmap bytes (option bytes)) : Rd (gmap bytes (option bytes)) :=
  mid <- ReadCompactString ;;
  rd_if (ver >=? 5) ReadCompactNullableString ;;;
  meta <- ReadCompactBytes ;;
  SkipTagSection ;;;
  ret (<[mid := meta]> m).

Definition decodeJoinGroupResponseFlex (ver : Z) : Rd (JoinGroupResponse * bool) :=
  errCode <- read_join_code ;;
  gen <- ReadInt32 ;;
  protocol <- ReadCompactString ;;
  leader <- ReadCompactString ;;
  memberID <- ReadCompactString ;;
  nMembers <- ReadUvarint ;;
  assignments <- rd_for (nMembers - 1) (read_member_flex ver) ∅ ;;
  SkipTagSection ;;;
  ret (join_result errCode gen memberID leader protocol assignments).

Definition DecodeJoinGroupResponse (ver : Z) (body : bytes) : res (JoinGroupResponse * bool) :=
  if ver >=? 6 then run (decodeJoinGroupResponseFlex ver) body
  else run (decodeJoinGroupResponseLegacy ver) body.

(** * SyncGroup *)

Section sync.
Context `{MapOrder}.

Definition encodeSyncGroupRequestLegacy (ver : Z) (group memberID groupInstanceID : bytes) (generation : Z)
    (assignments : gmap bytes bytes) : Enc :=
  WriteString group +++ WriteInt32 generation +++ WriteString memberID +++
  enc_if (ver >=? 3) (WriteNullableString (strPtr groupInstanceID)) +++
  WriteInt32 (s32 (len (range assignments))) +++
  enc_list (fun ma => WriteString (fst ma) +++ WriteBytes (Some (snd ma))) (range assignments).

Definition write_sync_assignment (ma : bytes * bytes) : Enc :=
  WriteCompactString (fst ma) +++ WriteCompactBytes (Some (snd ma)) +++ WriteEmptyTagSection.

Definition encodeSyncGroupRequestFlex (ver : Z) (group memberID protocolName groupInstanceID : bytes) (generation : Z)
    (assignments : gmap bytes bytes) : Enc :=
  WriteCompactString group +++ WriteInt32 generation +++ WriteCompactString memberID +++
  enc_if (ver >=? 3) (WriteCompactNullableString (strPtr groupInstanceID)) +++
  enc_if (ver >=? 5) (WriteCompactString (str "consumer") +++ WriteCompactString protocolName) +++
  WriteCompactArrayLen (len (range assignments)) +++
  enc_list write_sync_assignment (range assignments) +++ WriteEmptyTagSection.

Definition EncodeSyncGroupRequest (ver : Z) (group memberID protocolName groupInstanceID : bytes) (generation : Z)
    (assignments : gmap bytes bytes) : Enc :=
  if ver >=? 4
  then encodeSyncGroupRequestFlex ver group memberID protocolName groupInstanceID generation assignments
  else encodeSyncGroupRequestLegacy ver group memberID groupInstanceID generation assignments.
End sync.

Definition read_sync_code : Rd unit :=
  ReadInt32 ;;;
  errCode <- ReadInt16 ;;
  if negb (errCode =? 0) then fail (APIError "sync group" errCode) else ret tt.

Definition decodeSyncGroupResponseLegacy : Rd (option bytes) := read_sync_code ;;; ReadBytes.

Definition decodeSyncGroupResponseFlex (ver : Z) : Rd (option bytes) :=
  read_sync_code ;;;
  (if ver >=? 5 then ReadCompactNullableString ;;; rd_if true ReadCompactNullableString else ret tt) ;;;
  assignment <- ReadCompactBytes ;;
  SkipTagSection ;;;
  ret assignment.

Definition DecodeSyncGroupResponse (ver : Z) (body : bytes) : res (option bytes) :=
  if ver >=? 4 then run (decodeSyncGroupResponseFlex ver) body else run decodeSyncGroupResponseLegacy body.

(** * Heartbeat and LeaveGroup *)

Definition EncodeHeartbeatRequest (ver : Z) (group memberID groupInstanceID : bytes) (generation : Z) : Enc :=
  if ver >=? 4 then
    WriteCompactString group +++ WriteInt32 generation +++ WriteCompactString memberID +++
    WriteCompactNullableString (strPtr groupInstanceID) +++ WriteEmptyTagSection
  else
    WriteString group +++ WriteInt32 generation +++ WriteString memberID +++
    enc_if (ver >=? 3) (WriteNullableString (strPtr groupInstanceID)).

Definition DecodeHeartbeatResponse (ver : Z) (body : bytes) : res Z :=
  run (ReadInt32 ;;; code <- ReadInt16 ;; rd_if (ver >=? 4) SkipTagSection ;;; ret code) body.

Definition EncodeLeaveGroupRequest (ver : Z) (group memberID groupInstanceID : bytes) : Enc :=
  if ver >=? 4 then
    WriteCompactString group +++ WriteCompactArrayLen 1 +++ WriteCompactString memberID +++
    WriteCompactNullableString (strPtr groupInstanceID) +++
    enc_if (ver >=? 5) (WriteCompactNullableString None) +++ WriteEmptyTagSection +++ WriteEmptyTagSection
  else if ver >=? 3 then
    WriteString group +++ WriteInt32 1 +++ WriteString memberID +++ WriteNullableString (strPtr groupInstanceID)
  else WriteString group +++ WriteString memberID.

(** * Topic administration *)

Record TopicCreate := mkTopicCreate {
  tc_Partitions : Z;
  tc_ReplicationFactor : Z;
  tc_Configs : gmap bytes bytes }.

Section topics.
Context `{MapOrder}.

Definition write_create_topic_legacy (nc : bytes * TopicCreate) : Enc :=
  WriteString (fst nc) +++ WriteInt32 (tc_Partitions (snd nc)) +++ WriteInt16 (tc_ReplicationFactor (snd nc)) +++
  WriteInt32 0 +++ WriteInt32 (s32 (len (range (tc_Configs (snd nc))))) +++
  enc_list (fun kv => WriteString (fst kv) +++ WriteString (snd kv)) (range (tc_Configs (snd nc))).

Definition encodeCreateTopicsRequestLegacy (topics : gmap bytes TopicCreate) : Enc :=
  WriteInt32 (s32 (len (range topics))) +++ enc_list write_create_topic_legacy (range topics) +++
  WriteInt32 5000 +++ WriteBool false.

Definition write_create_topic_flex (nc : bytes * TopicCreate) : Enc :=
  WriteCompactString (fst nc) +++ WriteInt32 (tc_Partitions (snd nc)) +++ WriteInt16 (tc_ReplicationFactor (snd nc)) +++
  WriteCompactArrayLen 0 +++ WriteCompactArrayLen (len (range (tc_Configs (snd nc)))) +++
  enc_list (fun kv => WriteCompactString (fst kv) +++ WriteCompactString (snd kv) +++ WriteEmptyTagSection)
    (range (tc_Configs (snd nc))) +++
  WriteEmptyTagSection.

Definition encodeCreateTopicsRequestFlex (topics : gmap bytes TopicCreate) : Enc :=
  WriteCompactArrayLen (len (range topics)) +++ enc_list write_create_topic_flex (range topics) +++
  WriteInt32 5000 +++ WriteBool false +++ WriteEmptyTagSection.

Definition EncodeCreateTopicsRequest (topics : gmap bytes TopicCreate) : Enc :=
  if VerCreateTopics >=? 5 then encodeCreateTopicsRequestFlex topics else encodeCreateTopicsRequestLegacy topics.
End topics.

Definition EncodeDeleteTopicsRequest (version : Z) (topics : list bytes) : Enc :=
  if version >=? 6 then
    WriteCompactArrayLen (len topics) +++
    enc_list (fun t => WriteCompactNullableString (Some t) +++ WriteUUID zero_uuid +++ WriteEmptyTagSection) topics +++
    WriteInt32 5000 +++ WriteEmptyTagSection
  else
    WriteCompactArrayLen (len topics) +++ enc_list WriteCompactString topics +++
    WriteInt32 5000 +++ WriteEmptyTagSection.

(** * FindCoordinator *)

Record CoordinatorResponse := mkCoordinatorResponse {
  cr_ThrottleTime : Z;
  cr_ErrorCode : Z;
  cr_NodeID : Z;
  cr_Host : bytes;
  cr_Port : Z }.

Definition encodeFindCoordinatorRequestFlex (key : bytes) (keyType : Z) : Enc :=
  WriteCompactString key +++ WriteInt8 keyType +++ WriteEmptyTagSection.

Definition EncodeFindCoordinatorRequest (key : bytes) (keyType : Z) : Enc :=
  if VerFindCoordinator >=? 3 then encodeFindCoordinatorRequestFlex key keyType
  else WriteString key +++ WriteInt8 keyType.

Definition decodeFindCoordinatorResponseLegacy : Rd CoordinatorResponse :=
  throttle <- ReadInt32 ;;
  errCode <- ReadInt16 ;;
  rd_if (VerFindCoordinator >=? 1) readNullableString ;;;
  nodeID <- ReadInt32 ;;
  host <- ReadString ;;
  port <- ReadInt32 ;;
  ret (mkCoordinatorResponse throttle errCode nodeID host port).

Definition decodeFindCoordinatorResponseFlex : Rd CoordinatorResponse :=
  throttle <- ReadInt32 ;;
  errCode <- ReadInt16 ;;
  ReadCompactNullableString ;;;
  nodeID <- ReadInt32 ;;
  host <- ReadCompactString ;;
  port <- ReadInt32 ;;
  SkipTagSection ;;;
  ret (mkCoordinatorResponse throttle errCode nodeID host port).

Definition DecodeFindCoordinatorResponse (body : bytes) : res CoordinatorResponse :=
  if VerFindCoordinator >=? 3 then run decodeFindCoordinatorResponseFlex body
  else run decodeFindCoordinatorResponseLegacy body.

(** * ConsumerGroupHeartbeat *)

Record TopicIDPartitions := mkTopicIDPartitions { tip_TopicID : bytes; tip_Partitions : list Z }.

(** A nil slice or string pointer is [None]. *)
Record ConsumerGroupHeartbeatRequest := mkCGHRequest {
  hb_GroupID : bytes;
  hb_MemberID : bytes;
  hb_MemberEpoch : Z;
  hb_InstanceID : option bytes;
  hb_RackID : option bytes;
  hb_RebalanceTimeoutMs : Z;
  hb_SubscribedTopicNames : option (list bytes);
  hb_SubscribedTopicRegex : option bytes;
  hb_ServerAssignor : option bytes;
  hb_TopicPartitions : option (list TopicIDPartitions) }.

Record ConsumerGroupHeartbeatResponse := mkCGHResponse {
  hr_ThrottleTimeMs : Z;
  hr_ErrorCode : Z;
  hr_ErrorMessage : bytes;
  hr_MemberID : bytes;
  hr_MemberEpoch : Z;
  hr_HeartbeatIntervalMs : Z;
  hr_Assignment : list TopicIDPartitions }.

Definition writeCompactNullableStringArray (topics : option (list bytes)) : Enc :=
  match topics with
  | None => WriteUvarint 0
  | Some ts => WriteCompactArrayLen (len ts) +++ enc_list WriteCompactString ts
  end.

Definition write_topic_id_partitions (tp : TopicIDPartitions) : Enc :=
  WriteUUID (tip_TopicID tp) +++ WriteCompactArrayLen (len (tip_Partitions tp)) +++
  enc_list WriteInt32 (tip_Partitions tp) +++ WriteEmptyTagSection.

Definition writeCompactNullableTopicIDPartitions (parts : option (list TopicIDPartitions)) : Enc :=
  match parts with
  | None => WriteUvarint 0
  | Some ps => WriteCompactArrayLen (len ps) +++ enc_list write_topic_id_partitions ps
  end.

Definition EncodeConsumerGroupHeartbeatRequest (ver : Z) (req : ConsumerGroupHeartbeatRequest) : Enc :=
  WriteCompactString (hb_GroupID req) +++ WriteCompactString (hb_MemberID req) +++
  WriteInt32 (hb_MemberEpoch req) +++ WriteCompactNullableString (hb_InstanceID req) +++
  WriteCompactNullableString (hb_RackID req) +++ WriteInt32 (hb_RebalanceTimeoutMs req) +++
  writeCompactNullableStringArray (hb_SubscribedTopicNames req) +++
  enc_if (ver >=? 1) (WriteCompactNullableString (hb_SubscribedTopicRegex req)) +++
  WriteCompactNullableString (hb_ServerAssignor req) +++
  writeCompactNullableTopicIDPartitions (hb_TopicPartitions req) +++ WriteEmptyTagSection.

Definition readTopicIDPartitions : Rd TopicIDPartitions :=
  id <- ReadUUID ;;
  n <- ReadUvarint ;;
  parts <- rd_list (n - 1) ReadInt32 ;;
  SkipTagSection ;;;
  ret (mkTopicIDPartitions id parts).

Definition check_heartbeat (r : ConsumerGroupHeartbeatResponse) : Rd ConsumerGroupHeartbeatResponse :=
  if negb (hr_ErrorCode r =? 0) then fail (APIError "consumer group heartbeat" (hr_ErrorCode r)) else ret r.

Definition read_heartbeat : Rd ConsumerGroupHeartbeatResponse :=
  throttle <- ReadInt32 ;;
  code <- ReadInt16 ;;
  msg <- ReadCompactNullableString ;;
  member <- ReadCompactNullableString ;;
  epoch <- ReadInt32 ;;
  interval <- ReadInt32 ;;
  presence <- ReadInt8 ;;
  assignment <-
    (if presence >=? 0 then
       nTP <- ReadUvarint ;;
       tps <- rd_list (nTP - 1) readTopicIDPartitions ;;
       SkipTagSection ;;;
       ret tps
     else ret []) ;;
  SkipTagSection ;;;
  check_heartbeat (mkCGHResponse throttle code msg member epoch interval assignment).

Definition DecodeConsumerGroupHeartbeatResponse (body : bytes) : res ConsumerGroupHeartbeatResponse :=
  run read_heartbeat body.

Definition read_heartbeat_legacy : Rd ConsumerGroupHeartbeatResponse :=
  throttle <- ReadInt32 ;;
  code <- ReadInt16 ;;
  msg <- ReadCompactNullableString ;;
  member <- ReadCompactNullableString ;;
  epoch <- ReadInt32 ;;
  ReadBool ;;;
  interval <- ReadInt32 ;;
  assignLen <- ReadUvarint ;;
  assignment <-
    (if assignLen >? 1 then
       ReadInt8 ;;;
       nTP <- ReadUvarint ;;
       tps <- rd_list (nTP - 1) readTopicIDPartitions ;;
       ignore_err ReadUvarint ;;;
       ignore_err ReadInt16 ;;;
       ignore_err ReadCompactBytes ;;;
       ret tps
     else ret []) ;;
  SkipTagSection ;;;
  check_heartbeat (mkCGHResponse throttle code msg member epoch interval assignment).

Definition DecodeConsumerGroupHeartbeatResponseLegacy (body : bytes) : res ConsumerGroupHeartbeatResponse :=
  run read_heartbeat_legacy body.

(** * Safety of the decoders *)

Lemma join_group_safe ver body : DecodeJoinGroupResponse ver body <> Panic.
Proof.
  unfold DecodeJoinGroupResponse. destruct (_ >=? 6); apply safe_run;
    unfold decodeJoinGroupResponseFlex, decodeJoinGroupResponseLegacy, read_join_code, read_member_flex,
      read_member_legacy; solve_safe.
Qed.

Lemma sync_group_safe ver body : DecodeSyncGroupResponse ver body <> Panic.
Proof.
  unfold DecodeSyncGroupResponse. destruct (_ >=? 4); apply safe_run;
    unfold decodeSyncGroupResponseFlex, decodeSyncGroupResponseLegacy, read_sync_code; solve_safe.
Qed.

Lemma heartbeat_safe ver body : DecodeHeartbeatResponse ver body <> Panic.
Proof. apply safe_run. solve_safe. Qed.

Lemma find_coordinator_safe body : DecodeFindCoordinatorResponse body <> Panic.
Proof. apply safe_run. unfold decodeFindCoordinatorResponseFlex. solve_safe. Qed.

Lemma safe_topic_ids : Safe readTopicIDPartitions.
Proof. unfold readTopicIDPartitions. solve_safe. Qed.
#[export] Hint Resolve safe_topic_ids : wire.

Lemma group_heartbeat_safe body : DecodeConsumerGroupHeartbeatResponse body <> Panic.
Proof. apply safe_run. unfold read_heartbeat, check_heartbeat. solve_safe. Qed.

Lemma group_heartbeat_legacy_safe body : DecodeConsumerGroupHeartbeatResponseLegacy body <> Panic.
Proof. apply safe_run. unfold read_heartbeat_legacy, check_heartbeat. solve_safe. Qed.
