(* ===== verification/GroupEndToEnd.v ===== *)
(** Consumer groups against the in-process broker: offsets committed by the
    client's OffsetCommit are what its OffsetFetch reads later, and the
    JoinGroup/SyncGroup exchange hands a member the assignment its leader
    computed. *)

From Stdlib Require Import ZArith Lia.
From Stdlib Require Import Strings.Byte.
From stdpp Require Import base list gmap countable strings.
From S2P Require Import Prelude.
From S2P Require Import Wire.
From S2P Require Import Header.
From S2P Require Import RecordBatch.
From S2P Require Import RecordBatchFacts.
From S2P Require Import Kfake.
From S2P Require Import KfakeFacts.
From S2P Require Import EndToEnd.
From S2P Require Import Assign.
From S2P Require Import AssignFacts.
From S2P Require Import OffsetCodec.
From S2P Require Import GroupCodec.

Open Scope Z_scope.

#[local] Hint Resolve Reads_skipTags : reads.

(** * Requests the handlers read a prefix of *)

Lemma dispatch_HReads `{MapOrder} k v h e1 e2 body st st' a :
  dispatch_handler k v = h -> HReads h e1 st st' a -> e1 +++ e2 = Ok body ->
  dispatch k v body st = (st', Ok a).
Proof.
  intros Hh HR (b1 & b2 & E1 & _ & ->)%enc_app_ok. specialize (HR b1 E1 [] b2).
  change (len []) with 0 in HR. cbn [app] in HR. unfold dispatch, FromBytes. by rewrite Hh, HR.
Qed.

Lemma HReads_st_last {A} (g : Broker -> Broker * A) st :
  HReads (hst g) enc_nil st (fst (g st)) (snd (g st)).
Proof. intros bs Hbs pre post. apply Ok_inj in Hbs as <-. unfold hst. destruct (g st). by rewrite Z.add_0_r. Qed.

Lemma HReads_res (e : Enc) resp st : e = Ok resp -> HReads (hres e) enc_nil st st resp.
Proof. intros -> bs Hbs pre post. apply Ok_inj in Hbs as <-. unfold hres. by rewrite Z.add_0_r. Qed.

(** A group id, a nil pointer or an empty instance id. *)
Lemma Reads_instance id : fits id ->
  Reads ReadCompactNullableString
    (if bool_decide (id = []) then WriteUvarint 0 else WriteCompactString id) id.
Proof.
  intros Hf. case_bool_decide as E.
  - subst id. apply (Reads_compact_nullable_string None). done.
  - by apply (Reads_compact_nullable_string (Some id)).
Qed.

Lemma range_len `{MapOrder} {K V} `{Countable K} (m : gmap K V) : len (range m) = Z.of_nat (size m).
Proof. unfold len. by rewrite range_perm, length_map_to_list. Qed.

Lemma range_lookup `{MapOrder} {K V} `{Countable K} (m : gmap K V) k v : (k, v) ∈ range m <-> m !! k = Some v.
Proof. by rewrite range_perm, elem_of_map_to_list. Qed.

Lemma range_NoDup `{MapOrder} {K V} `{Countable K} (m : gmap K V) : NoDup (range m).*1.
Proof. rewrite range_perm. apply NoDup_fst_map_to_list. Qed.

Lemma range_to_map `{MapOrder} {K V} `{Countable K} (m : gmap K V) : list_to_map (range m) = m.
Proof. rewrite (list_to_map_proper (range m) (map_to_list m)); [apply list_to_map_to_list|apply range_NoDup|apply range_perm]. Qed.

(** * Committed offsets *)

(** What group [grp] has committed for a partition. *)
Definition committed_at (st : Broker) (grp topic : bytes) (part : Z) : option Z :=
  g ← bk_groups st !! grp; m ← gs_offsets g !! topic; m !! part.

Lemma committed_commit grp name part off st g t p :
  committed_at (fst (commit_offset grp name part off st)) g t p =
  if bool_decide (g = grp /\ t = name /\ p = part) then Some off else committed_at st g t p.
Proof.
  unfold commit_offset, Kfake.group, committed_at.
  destruct (bk_groups st !! grp) as [gs|] eqn:Eg; cbn [fst bk_groups set_group set_groups];
    (destruct (decide (g = grp)) as [->|Hg];
      [rewrite ?insert_insert_eq, lookup_insert_eq; cbn [mbind option_bind gs_offsets]
      |rewrite ?lookup_insert_ne by done; rewrite bool_decide_false by naive_solver; done]).
  all: (destruct (decide (t = name)) as [->|Ht];
      [rewrite lookup_insert_eq; cbn [mbind option_bind]
      |rewrite lookup_insert_ne by done; rewrite bool_decide_false by naive_solver]).
  all: try (destruct (decide (p = part)) as [->|Hp];
      [rewrite lookup_insert_eq, bool_decide_true by done; done
      |rewrite lookup_insert_ne by done; rewrite bool_decide_false by naive_solver]).
  - rewrite Eg. cbn [mbind option_bind]. by destruct (gs_offsets gs !! name).
  - by rewrite Eg.
  - rewrite Eg. cbn. by rewrite lookup_empty.
  - rewrite Eg. cbn. by rewrite lookup_empty.
Qed.

Definition commit_part (grp name : bytes) (st : Broker) (po : Z * Z) : Broker * Z :=
  commit_offset grp name (fst po) (snd po) st.

Definition commit_parts `{MapOrder} (grp : bytes) (st : Broker) (tp : bytes * gmap Z Z) : Broker * (bytes * list Z) :=
  let '(st', ps) := steps (commit_part grp (fst tp)) st (range (snd tp)) in (st', (fst tp, ps)).

(** The broker after a commit. *)
Definition commit_all `{MapOrder} (grp : bytes) (st : Broker) (offsets : offset_map) : Broker * list (bytes * list Z) :=
  steps (commit_parts grp) (fst (group grp st)) (range offsets).

Lemma steps_parts grp name st l : snd (steps (commit_part grp name) st l) = map fst l.
Proof.
  revert st. induction l as [|x l IH]; intros st; cbn [steps map]; [done|].
  destruct (commit_part grp name st x) as [st1 c] eqn:E. specialize (IH st1).
  destruct (steps _ st1 l) as [st2 cs]. cbn [snd] in *. rewrite <- IH. f_equal.
  unfold commit_part, commit_offset in E. destruct (group grp st). congruence.
Qed.

Lemma steps_topics `{MapOrder} grp st l : snd (steps (commit_parts grp) st l) = map (fun tp => (fst tp, map fst (range (snd tp)))) l.
Proof.
  revert st. induction l as [|x l IH]; intros st; cbn [steps map]; [done|].
  destruct (commit_parts grp st x) as [st1 c] eqn:E. specialize (IH st1).
  destruct (steps _ st1 l) as [st2 cs]. cbn [snd] in *. rewrite <- IH. f_equal.
  unfold commit_parts in E. pose proof (steps_parts grp (fst x) st (range (snd x))) as Hp.
  destruct (steps (commit_part _ _) st _) as [st3 ps]. cbn [snd] in Hp. congruence.
Qed.

(** An operation on a list that a map describes: later entries do not touch
    earlier ones, since keys differ. *)
Lemma committed_parts grp name l st g t p : NoDup l.*1 ->
  committed_at (fst (steps (commit_part grp name) st l)) g t p =
  if bool_decide (g = grp /\ t = name)
  then match (list_to_map l : gmap Z Z) !! p with Some o => Some o | None => committed_at st g t p end
  else committed_at st g t p.
Proof.
  revert st. induction l as [|[q o] l IH]; intros st Hnd; cbn [steps fst].
  - rewrite list_to_map_nil, lookup_empty. by case_bool_decide.
  - cbn [fmap list_fmap fst] in Hnd. apply NoDup_cons in Hnd as [Hq Hnd].
    destruct (commit_part grp name st (q, o)) as [st1 c] eqn:E.
    assert (st1 = fst (commit_offset grp name q o st)) as -> by (unfold commit_part in E; cbn in E; by rewrite E).
    specialize (IH (fst (commit_offset grp name q o st)) Hnd).
    destruct (steps _ _ l) as [st2 cs]. cbn [fst snd] in *. rewrite IH, list_to_map_cons.
    rewrite committed_commit. case_bool_decide as Hgt; [|rewrite bool_decide_false by naive_solver; done].
    destruct Hgt as [-> ->]. destruct (decide (p = q)) as [->|Hp].
    + rewrite lookup_insert_eq. rewrite (not_elem_of_list_to_map_1 l q) by done. by rewrite bool_decide_true.
    + rewrite lookup_insert_ne by done. by rewrite bool_decide_false by naive_solver.
Qed.

Lemma committed_topics `{MapOrder} grp l st g t p : NoDup l.*1 ->
  committed_at (fst (steps (commit_parts grp) st l)) g t p =
  if bool_decide (g = grp)
  then match (list_to_map l : gmap bytes (gmap Z Z)) !! t ≫= (.!! p) with
       | Some o => Some o | None => committed_at st g t p end
  else committed_at st g t p.
Proof.
  revert st. induction l as [|[n m] l IH]; intros st Hnd; cbn [steps fst].
  - rewrite list_to_map_nil, lookup_empty. by case_bool_decide.
  - cbn [fmap list_fmap fst] in Hnd. apply NoDup_cons in Hnd as [Hn Hnd].
    pose proof (committed_parts grp n (range m) st g t p (range_NoDup m)) as Hp. rewrite range_to_map in Hp.
    destruct (commit_parts grp st (n, m)) as [st1 c] eqn:E. unfold commit_parts in E. cbn [fst snd] in E.
    destruct (steps (commit_part grp n) st (range m)) as [st3 ps]. injection E as <- <-. cbn [fst] in Hp.
    specialize (IH st3 Hnd). destruct (steps _ st3 l) as [st2 cs]. cbn [fst snd] in *.
    rewrite IH, Hp, list_to_map_cons. destruct (decide (g = grp)) as [->|Hg]; [|by rewrite !bool_decide_false by naive_solver].
    rewrite (bool_decide_true (grp = grp)) by done.
    destruct (decide (t = n)) as [->|Ht].
    + rewrite lookup_insert_eq, (not_elem_of_list_to_map_1 l n) by done. by rewrite bool_decide_true.
    + rewrite lookup_insert_ne by done. by rewrite bool_decide_false by naive_solver.
Qed.

Lemma committed_group grp st g t p : committed_at (fst (group grp st)) g t p = committed_at st g t p.
Proof.
  unfold group, committed_at. destruct (bk_groups st !! grp) eqn:E; [done|]. cbn [fst bk_groups set_groups].
  destruct (decide (g = grp)) as [->|]; [|by rewrite lookup_insert_ne].
  rewrite lookup_insert_eq, E. cbn. by rewrite lookup_empty.
Qed.

(** A commit sets exactly the offsets of the map, in its group. *)
Lemma committed_all `{MapOrder} grp st offsets g t p :
  committed_at (fst (commit_all grp st offsets)) g t p =
  if bool_decide (g = grp)
  then match offsets !! t ≫= (.!! p) with Some o => Some o | None => committed_at st g t p end
  else committed_at st g t p.
Proof. unfold commit_all. by rewrite committed_topics, range_to_map, committed_group by apply range_NoDup. Qed.

(** ** OffsetCommit *)

Section commit.
Context `{MapOrder} (ver : Z) (Hver : 8 <= ver).

Definition wf_parts (m : gmap Z Z) : Prop :=
  Z.of_nat (size m) < 2 ^ 29 - 1 /\ map_Forall (fun p o => int32 p /\ int64 o) m.

Definition wf_offsets (offsets : offset_map) : Prop :=
  Z.of_nat (size offsets) < 2 ^ 29 - 1 /\ map_Forall (fun t m => fits t /\ wf_parts m) offsets.

Lemma HReads_commit_partition grp name st po : int32 (fst po) /\ int64 (snd po) ->
  HReads (commit_partition grp name) (write_commit_partition_flex ver po) st
    (fst (commit_part grp name st po)) (snd (commit_part grp name st po)).
Proof.
  intros [Hp Ho]. unfold commit_partition, write_commit_partition_flex, enc_if.
  destruct (Z.geb_spec ver 6); [|lia]. hfield. hfield. hfield.
  eapply HReads_bind; [apply HReads_rd, (Reads_compact_nullable_string None); done|]. cbn beta.
  eapply HReads_bind_last; [apply HReads_rd, Reads_skipTags|].
  exact (HReads_st_last (commit_offset grp name (fst po) (snd po)) st).
Qed.

Lemma HReads_commit_topic grp st tp : fits (fst tp) /\ wf_parts (snd tp) ->
  HReads (commit_topic grp) (write_commit_topic_flex ver tp) st
    (fst (commit_parts grp st tp)) (snd (commit_parts grp st tp)).
Proof.
  intros (Hn & Hs & Hp). unfold commit_topic, write_commit_topic_flex, commit_parts. rewrite range_len.
  hfield. hfield. eapply HReads_bind.
  - eapply (HReads_list _ _ (commit_part grp (fst tp)) (fun po => int32 (fst po) /\ int64 (snd po)));
      [rewrite range_len; lia | |intros; by apply HReads_commit_partition].
    apply Forall_forall. intros [p o] Hin%range_lookup. by apply (Hp p o).
  - cbn beta. eapply HReads_bind_last; [apply HReads_rd, Reads_skipTags|].
    destruct (steps _ st _). apply HReads_ret.
Qed.

Lemma EOk_commit_response l : EOk (write_commit_response l).
Proof. unfold write_commit_response. solve_eok. Qed.

Lemma Reads_commit_response l :
  Z.of_nat (length l) < 2 ^ 29 - 1 ->
  Forall (fun tp => fits (fst tp) /\ fits (snd tp) /\ Forall int32 (snd tp)) l ->
  Reads decodeOffsetCommitResponseFlex (write_commit_response l) 0.
Proof.
  intros Hl Hw. unfold decodeOffsetCommitResponseFlex, write_commit_response. field. eapply Reads_bind.
  { eapply Reads_array_len. unfold len. lia. }
  cbn beta. rewrite Z.add_simpl_r. eapply Reads_bind.
  - eapply (Reads_for_brk _ _ (fun _ _ => 0)); [exact Hw|]. intros s [n ps] (Hn & Hf & Hi). cbn [fst snd] in *.
    unfold fits in Hf. pose proof (len_nonneg ps). unfold commit_topic_flex. field. field. rewrite Z.add_simpl_r.
    eapply Reads_bind.
    + eapply (Reads_for_brk _ _ (fun _ _ => 0)); [exact Hi|]. intros s' p Hp. unfold commit_code_flex.
      field. field. last_field. apply Reads_ret.
    + cbn beta. cbn [snd]. last_field. apply Reads_ret.
  - cbn beta. cbn [snd]. last_field. apply Reads_ret.
Qed.

Lemma commit_dispatch grp member instance gen offsets st body :
  EncodeOffsetCommitRequest ver grp member instance gen offsets = Ok body ->
  fits grp -> fits member -> fits instance -> int32 gen -> wf_offsets offsets ->
  exists resp, dispatch APIOffsetCommit ver body st = (fst (commit_all grp st offsets), Ok resp) /\
    DecodeOffsetCommitResponse ver resp = Ok 0.
Proof.
  intros He Hg Hm Hi Hgen [Hs Hw]. unfold EncodeOffsetCommitRequest in He.
  destruct (Z.leb_spec ver 0); [lia|]. destruct (Z.geb_spec ver 8); [|lia].
  destruct (EOk_commit_response (snd (commit_all grp st offsets))) as [resp Hresp]. exists resp. split.
  - set (fields := WriteCompactString grp +++ WriteInt32 gen +++ WriteCompactString member +++
      (if bool_decide (instance = []) then WriteUvarint 0 else WriteCompactString instance) +++
      WriteCompactArrayLen (len (range offsets)) +++ enc_list (write_commit_topic_flex ver) (range offsets)).
    apply (dispatch_HReads _ _ handleOffsetCommit fields WriteEmptyTagSection); [done| |].
    2:{ rewrite <- He. unfold fields, encodeOffsetCommitRequestFlex, enc_if.
        destruct (Z.geb_spec ver 7); [|lia]. by rewrite !enc_app_assoc. }
    unfold handleOffsetCommit, fields. hfield. hfield. hfield.
    eapply HReads_bind; [by apply HReads_rd, Reads_instance|]. cbn beta. rewrite range_len. hfield.
    eapply HReads_st. eapply HReads_bind_last; [|by apply HReads_res].
    eapply (HReads_list _ _ (commit_parts grp) (fun tp => fits (fst tp) /\ wf_parts (snd tp)));
      [rewrite range_len; lia | |intros; by apply HReads_commit_topic].
    apply Forall_forall. intros [t m] Hin%range_lookup. by apply (Hw t m).
  - unfold DecodeOffsetCommitResponse. destruct (Z.geb_spec ver 8); [|lia].
    eapply Reads_run; [|exact Hresp]. unfold commit_all. rewrite steps_topics. apply Reads_commit_response.
    + rewrite length_map. pose proof (range_len offsets). unfold len in *. lia.
    + apply Forall_forall. intros tp ([t m] & -> & Hin%range_lookup)%list_elem_of_fmap.
      destruct (Hw t m Hin) as (Hft & Hsz & Hall). cbn [fst snd]. split; [done|]. unfold fits. rewrite len_map, range_len.
      split; [done|]. apply Forall_forall. intros p ([q o] & -> & Hq%range_lookup)%list_elem_of_fmap. by apply (Hall q o).
Qed.
End commit.

(** ** OffsetFetch *)

Section offset_fetch.
Context `{MapOrder}.

(** Committed offsets are 64-bit integers, as they are on the wire. *)
Definition offsets_ok (st : Broker) : Prop := forall g t p o, committed_at st g t p = Some o -> int64 o.

Definition wf_fetch_topic (tp : bytes * list Z) : Prop := fits (fst tp) /\ fits (snd tp) /\ Forall int32 (snd tp).

(** What the client reads for the requested partitions when the group's
    offsets are [off]. *)
Definition fetched_offsets (off : bytes -> Z -> Z) (code : Z) (reqs : list (bytes * list Z)) : list CommittedOffset :=
  concat (map (fun tp => map (fun p => mkCommittedOffset (fst tp) p (off (fst tp) p) [] code) (snd tp)) reqs).

Lemma committed_offset_at grp st t p :
  committed_offset (snd (group grp st)) t p = default (-1) (committed_at st grp t p).
Proof.
  unfold committed_offset, committed_at, group. destruct (bk_groups st !! grp) as [g|]; [done|].
  cbn. by rewrite lookup_empty.
Qed.

Lemma Reads_offset_topic tp : wf_fetch_topic tp -> Reads read_offset_topic (write_fetch_topic_flex tp) tp.
Proof.
  intros (Hn & Hf & Hi). unfold read_offset_topic, write_fetch_topic_flex. unfold fits in Hf. pose proof (len_nonneg (snd tp)).
  field. field. eapply Reads_bind.
  - eapply (Reads_list _ _ int32); [lia|exact Hi|]. apply Reads_int32.
  - cbn beta. last_field. destruct tp. apply Reads_ret.
Qed.

Lemma EOk_offset_fetch_response g code l : EOk (write_offset_fetch_response g code l).
Proof. unfold write_offset_fetch_response. solve_eok. Qed.

Lemma Reads_offset_fetch_response g code reqs :
  int16 code -> fits reqs -> Forall wf_fetch_topic reqs ->
  (forall t p, int64 (committed_offset g t p)) ->
  Reads decodeOffsetFetchResponseFlex (write_offset_fetch_response g code reqs)
    (fetched_offsets (fun t p => if negb (code =? 0) then -1 else committed_offset g t p) code reqs).
Proof.
  intros Hc Hf Hw Ho. unfold decodeOffsetFetchResponseFlex, write_offset_fetch_response.
  unfold fits in Hf. pose proof (len_nonneg reqs). field. field. rewrite Z.add_simpl_r. eapply Reads_bind.
  - set (off := fun t p => if negb (code =? 0) then -1 else committed_offset g t p).
    assert (Hoff : forall t p, int64 (off t p)) by (intros t p; unfold off; case_match; [unfold int64; lia|apply Ho]).
    eapply (Reads_flat _ _ (fun tp => map (fun p => mkCommittedOffset (fst tp) p (off (fst tp) p) [] code) (snd tp)) wf_fetch_topic);
      [done|exact Hw|]. intros [t ps] (Ht & Hl & Hi). cbn [fst snd] in *.
    unfold read_committed_topic_flex. unfold fits in Hl. pose proof (len_nonneg ps). field. field. rewrite Z.add_simpl_r.
    eapply Reads_bind; [|cbn beta; last_field; apply Reads_ret].
    eapply (Reads_list_map _ _ (fun p => mkCommittedOffset t p (off t p) [] code) int32); [done|exact Hi|].
    intros p Hp. unfold read_committed_flex.
    field. eapply Reads_bind; [apply Reads_int64, (Hoff t p)|]. cbn beta. field.
    eapply Reads_bind; [apply (Reads_compact_nullable_string None); done|]. cbn beta. field. last_field. apply Reads_ret.
  - cbn beta. field. last_field. apply Reads_ret.
Qed.

Lemma no_fetch_fault st : bk_offsetFetchFailN st <= 0 -> takeOffsetFetchFault st = (st, 0).
Proof. intros Hf. unfold takeOffsetFetchFault. by destruct (Z.leb_spec (bk_offsetFetchFailN st) 0); [|lia]. Qed.

Lemma HReads_offset_fetch grp reqs st resp :
  fits grp -> fits reqs -> Forall wf_fetch_topic reqs -> bk_offsetFetchFailN st <= 0 ->
  write_offset_fetch_response (snd (group grp st)) 0 reqs = Ok resp ->
  HReads handleOffsetFetchSingle
    (WriteCompactString grp +++ WriteCompactArrayLen (len reqs) +++ enc_list write_fetch_topic_flex reqs)
    st (fst (group grp st)) resp.
Proof.
  intros Hg Hf Hw Hn Hresp. unfold handleOffsetFetchSingle. unfold fits in Hf. pose proof (len_nonneg reqs).
  hfield. hfield. eapply HReads_bind_last.
  { apply HReads_rd. eapply (Reads_list _ _ wf_fetch_topic); [lia|exact Hw|]. apply Reads_offset_topic. }
  cbn beta. eapply HReads_st. rewrite no_fetch_fault by done. cbn [fst snd]. eapply HReads_st. by apply HReads_res.
Qed.

Lemma fetch_offsets_dispatch ver grp parts stable st body :
  6 <= ver < 8 -> EncodeOffsetFetchRequest ver grp parts stable = Ok body ->
  fits grp -> fits (by_topic parts) -> Forall wf_fetch_topic (by_topic parts) ->
  offsets_ok st -> bk_offsetFetchFailN st <= 0 ->
  exists resp, dispatch APIOffsetFetch ver body st = (fst (group grp st), Ok resp) /\
    DecodeOffsetFetchResponse ver resp =
      Ok (fetched_offsets (fun t p => default (-1) (committed_at st grp t p)) 0 (by_topic parts)).
Proof.
  intros Hv He Hg Hf Hw Hok Hn. unfold EncodeOffsetFetchRequest in He.
  destruct (Z.leb_spec ver 0); [lia|]. destruct (Z.geb_spec ver 6); [|lia].
  destruct (EOk_offset_fetch_response (snd (group grp st)) 0 (by_topic parts)) as [resp Hresp]. exists resp. split.
  - apply (dispatch_HReads _ _ handleOffsetFetchSingle
      (WriteCompactString grp +++ WriteCompactArrayLen (len (by_topic parts)) +++ enc_list write_fetch_topic_flex (by_topic parts))
      (enc_if (ver >=? 7) (WriteBool stable) +++ WriteEmptyTagSection)).
    + cbn. unfold handleOffsetFetch. destruct (Z.geb_spec ver 8); [lia|done].
    + by apply HReads_offset_fetch.
    + rewrite <- He. unfold encodeOffsetFetchRequestFlex. by rewrite !enc_app_assoc.
  - unfold DecodeOffsetFetchResponse. destruct (Z.leb_spec ver 0); [lia|]. destruct (Z.geb_spec ver 6); [|lia].
    assert (Ho : forall t p, int64 (committed_offset (snd (group grp st)) t p)).
    { intros t p. rewrite committed_offset_at. destruct (committed_at st grp t p) eqn:E; [by eapply Hok|].
      cbn. unfold int64. lia. }
    rewrite (Reads_run _ _ _ _ (Reads_offset_fetch_response (snd (group grp st)) 0 (by_topic parts)
      ltac:(unfold int16; lia) Hf Hw Ho) Hresp).
    f_equal. unfold fetched_offsets. cbn [Z.eqb negb]. f_equal. apply map_ext. intros tp. apply map_ext. intros p.
    by rewrite committed_offset_at.
Qed.
End offset_fetch.

(** The offset a group has for a partition after committing [offsets]. *)
Definition after_commit (offsets : offset_map) (st : Broker) (grp t : bytes) (p : Z) : option Z :=
  match offsets !! t ≫= (.!! p) with Some o => Some o | None => committed_at st grp t p end.

Lemma commit_all_faults `{MapOrder} grp st offsets :
  bk_offsetFetchFailN (fst (commit_all grp st offsets)) = bk_offsetFetchFailN st.
Proof.
  assert (Hg : forall st, bk_offsetFetchFailN (fst (group grp st)) = bk_offsetFetchFailN st).
  { intros s. unfold group. by destruct (bk_groups s !! grp). }
  assert (Hp : forall n l st, bk_offsetFetchFailN (fst (steps (commit_part grp n) st l)) = bk_offsetFetchFailN st).
  { intros n l. induction l as [|x l IH]; intros s; cbn [steps]; [done|].
    destruct (commit_part grp n s x) as [s1 c] eqn:E. specialize (IH s1). destruct (steps _ s1 l). cbn [fst] in *.
    rewrite IH. unfold commit_part, commit_offset in E. specialize (Hg s). destruct (group grp s). injection E as <- _. done. }
  unfold commit_all. rewrite <- (Hg st). generalize (fst (group grp st)). clear st. intros st. revert st.
  induction (range offsets) as [|x l IH]; intros st; cbn [steps]; [done|].
  destruct (commit_parts grp st x) as [s1 c] eqn:E. specialize (IH s1). destruct (steps _ s1 l). cbn [fst] in *.
  rewrite IH. unfold commit_parts in E. specialize (Hp (fst x) (range (snd x)) st).
  destruct (steps _ st _). by injection E as <- _.
Qed.

(** C21: Commit, then fetch offsets.  The broker accepts the client's
    OffsetCommit (error code 0), sets exactly the offsets of the request, in
    that group only, and a later OffsetFetch returns for every requested
    partition, grouped by topic in request order, the offset just committed,
    else the one committed before, else -1. *)
Theorem offset_commit_then_fetch `{MapOrder} ver fver grp member instance gen offsets parts stable st cbody fbody :
  8 <= ver -> 6 <= fver < 8 ->
  EncodeOffsetCommitRequest ver grp member instance gen offsets = Ok cbody ->
  EncodeOffsetFetchRequest fver grp parts stable = Ok fbody ->
  fits grp -> fits member -> fits instance -> int32 gen -> wf_offsets offsets ->
  fits (by_topic parts) -> Forall wf_fetch_topic (by_topic parts) ->
  offsets_ok st -> bk_offsetFetchFailN st <= 0 ->
  exists st' st'' cresp fresp,
    dispatch APIOffsetCommit ver cbody st = (st', Ok cresp) /\ DecodeOffsetCommitResponse ver cresp = Ok 0 /\
    dispatch APIOffsetFetch fver fbody st' = (st'', Ok fresp) /\
    DecodeOffsetFetchResponse fver fresp =
      Ok (fetched_offsets (fun t p => default (-1) (after_commit offsets st grp t p)) 0 (by_topic parts)) /\
    (forall g t p, committed_at st'' g t p =
       if bool_decide (g = grp) then after_commit offsets st grp t p else committed_at st g t p).
Proof.
  intros Hv Hfv Hce Hfe Hg Hm Hi Hgen Hwo Hf Hw Hok Hn.
  destruct (commit_dispatch ver Hv grp member instance gen offsets st cbody) as (cresp & Hcd & Hcdec); try done.
  set (st' := fst (commit_all grp st offsets)) in *.
  assert (Hat : forall g t p, committed_at st' g t p =
    if bool_decide (g = grp) then after_commit offsets st grp t p else committed_at st g t p).
  { intros g t p. unfold st'. rewrite committed_all. case_bool_decide; [by subst g|done]. }
  assert (Hok' : offsets_ok st').
  { intros g t p o. rewrite Hat. case_bool_decide; [|by apply Hok]. unfold after_commit.
    destruct (offsets !! t) as [m|] eqn:Et; cbn; [|by apply Hok].
    destruct (m !! p) as [q|] eqn:Ep; [|by apply Hok]. intros [= <-].
    destruct Hwo as [_ Hall]. destruct (Hall t m Et) as (_ & _ & Hmp). by destruct (Hmp p q Ep). }
  destruct (fetch_offsets_dispatch fver grp parts stable st' fbody) as (fresp & Hfd & Hfdec); try done.
  { unfold st'. by rewrite commit_all_faults. }
  exists st', (fst (group grp st')), cresp, fresp. do 3 (split; [done|]). split.
  - rewrite Hfdec. f_equal. unfold fetched_offsets. f_equal. apply map_ext. intros tp. apply map_ext. intros p.
    by rewrite Hat, bool_decide_true.
  - intros g t p. by rewrite committed_group, Hat.
Qed.

(** * JoinGroup and SyncGroup *)

Section join_sync.
Context `{MapOrder}.

Lemma subscription_roundtrip topics coop meta :
  EncodeConsumerSubscription topics coop = Ok meta -> len topics < 2 ^ 31 ->
  DecodeConsumerSubscription meta = Ok topics.
Proof.
  intros He Hl. unfold EncodeConsumerSubscription, encodeConsumerSubscriptionLegacy in He.
  pose proof (len_nonneg topics). rewrite s32_id in He by (unfold int32; lia).
  set (version := if coop then 3 else 0).
  assert (Hs : (WriteInt16 version +++ WriteInt32 (len topics) +++ enc_list WriteString topics) +++ WriteBytes None = Ok meta).
  { rewrite <- He, !enc_app_assoc. unfold version. by destruct coop. }
  apply enc_app_ok in Hs as (b1 & b2 & E1 & _ & ->).
  assert (Hr : Reads (ReadInt16 ;;; nTopics <- ReadInt32 ;; rd_list nTopics ReadString)
    (WriteInt16 version +++ WriteInt32 (len topics) +++ enc_list WriteString topics) topics).
  { eapply Reads_bind; [apply Reads_int16; unfold version, int16; destruct coop; lia|]. cbn beta. field.
    eapply (Reads_list _ _ (fun _ => True)); [done|by apply Forall_true|]. intros t _. apply Reads_string. }
  specialize (Hr b1 E1 [] b2). unfold reads in Hr. cbn [app] in Hr. change (len []) with 0 in Hr.
  unfold DecodeConsumerSubscription. rewrite len_app.
  assert (2 <= len b1) as Hb1.
  { apply enc_app_ok in E1 as (c1 & c2 & E2 & _ & ->). rewrite len_app, (ELen_be 2 version c1 E2). pose proof (len_nonneg c2). lia. }
  pose proof (len_nonneg b2). destruct (Z.eqb_spec (len b1 + len b2) 0); [lia|].
  unfold run, FromBytes. by rewrite Hr.
Qed.

Definition protocol_type : bytes := str "consumer".
Lemma fits_protocol_type : fits protocol_type.
Proof. done. Qed.
#[local] Hint Resolve fits_protocol_type : reads.

(** The member id the broker answers with, and its generation. *)
Definition joined_member (member : bytes) : bytes := if bool_decide (member = []) then str "kfake-member-1" else member.
Definition joined_generation (grp : bytes) (st : Broker) : Z := s32 (gs_generation (snd (group grp st)) + 1).

Lemma joined_member_fits member : fits member -> fits (joined_member member).
Proof. intros Hf. unfold joined_member. destruct (bool_decide _); [reflexivity|exact Hf]. Qed.

Lemma join_assignor_fits a : fits a -> fits (join_assignor a).
Proof. intros Hf. unfold join_assignor. destruct (bool_decide _); [reflexivity|exact Hf]. Qed.

Lemma join_group_result grp member assignor meta st :
  snd (join_group grp member assignor meta st) = (joined_member member, joined_generation grp st).
Proof. unfold join_group, joined_generation. by destruct (group grp st). Qed.

Lemma HReads_join grp member assignor instance sess reb meta st resp :
  fits grp -> fits member -> fits assignor -> fits instance -> fits meta -> int32 sess -> int32 reb ->
  write_join_response (joined_generation grp st) assignor (joined_member member) (Some meta) = Ok resp ->
  HReads handleJoinGroup
    (WriteCompactString grp +++ WriteInt32 sess +++ WriteInt32 reb +++ WriteCompactString member +++
     (if negb (bool_decide (instance = [])) then WriteCompactString instance else WriteCompactNullableString None) +++
     WriteCompactString protocol_type +++ WriteCompactArrayLen 1 +++
     WriteCompactString assignor +++ WriteCompactBytes (Some meta) +++ WriteEmptyTagSection)
    st (fst (join_group grp member assignor (Some meta) st)) resp.
Proof.
  intros Hg Hm Ha Hi Hme Hs Hr Hresp. unfold handleJoinGroup. hfield. hfield. hfield. hfield.
  eapply HReads_bind.
  { apply (HReads_rd _ _ instance). pose proof (Reads_instance instance Hi) as HR.
    revert HR. destruct (bool_decide (instance = [])); intros HR; exact HR. }
  cbn beta. hfield. hfield. eapply HReads_bind_last.
  { apply HReads_rd. change (1 + 1 - 1) with 1. unfold rd_for, rd_iter, read_protocol. field.
    eapply Reads_bind; [by apply (Reads_compact_bytes (Some meta))|]. cbn beta. last_field. apply Reads_ret. }
  cbn beta. cbn [default from_option option_map]. eapply HReads_st. rewrite join_group_result. by apply HReads_res.
Qed.

Lemma EOk_join_response gen assignor member meta : EOk (write_join_response gen assignor member meta).
Proof. unfold write_join_response. destruct meta; cbn [WriteCompactBytes]; solve_eok. Qed.

Lemma Reads_join_response ver gen assignor member meta :
  6 <= ver -> int32 gen -> fits assignor -> fits member -> fits meta ->
  Reads (decodeJoinGroupResponseFlex ver) (write_join_response gen assignor member (Some meta))
    (mkJoinGroupResponse gen member member assignor {[member := Some meta]}, false).
Proof.
  intros Hv Hg Ha Hm Hme. unfold decodeJoinGroupResponseFlex, write_join_response, read_join_code.
  rewrite <- (enc_app_assoc (WriteInt32 0) (WriteInt16 0)). eapply Reads_bind.
  { field. last_field. cbn [Z.eqb negb andb]. apply Reads_ret. }
  cbn beta. do 4 field. field. change (1 + 1 - 1) with 1.
  unfold rd_for, rd_iter, read_member_flex, rd_if. destruct (Z.geb_spec ver 5); [|lia].
  rewrite <- 3!enc_app_assoc. eapply Reads_bind.
  { rewrite !enc_app_assoc. field.
    eapply Reads_bind; [eapply Reads_bind_last; [by apply (Reads_compact_nullable_string None)|apply Reads_ret]|].
    cbn beta. eapply Reads_bind; [by apply (Reads_compact_bytes (Some meta))|]. cbn beta. last_field. apply Reads_ret. }
  cbn beta. last_field. apply Reads_ret.
Qed.

(** The last entry for the member wins; keys of a map are distinct. *)
Lemma sync_pick (l : list (bytes * bytes)) member acc : NoDup l.*1 ->
  fold_left (fun a ma => if bool_decide (fst ma = member) then Some (snd ma) else a) l acc =
  match (list_to_map l : gmap bytes bytes) !! member with Some v => Some v | None => acc end.
Proof.
  revert acc. induction l as [|[k v] l IH]; intros acc Hnd; cbn [fold_left].
  - by rewrite list_to_map_nil, lookup_empty.
  - cbn [fmap list_fmap fst] in Hnd. apply NoDup_cons in Hnd as [Hk Hnd]. rewrite IH, list_to_map_cons by done.
    cbn [fst snd]. case_bool_decide as E.
    + subst k. rewrite lookup_insert_eq. by rewrite (not_elem_of_list_to_map_1 l member).
    + by rewrite lookup_insert_ne.
Qed.

Definition wf_assignments (assigns : gmap bytes bytes) : Prop :=
  Z.of_nat (size assigns) < 2 ^ 29 - 1 /\ map_Forall (fun m a => fits m /\ fits a) assigns.

Lemma EOk_sync_response proto a : EOk (write_sync_response proto a).
Proof. unfold write_sync_response. destruct a; cbn [WriteCompactBytes]; solve_eok. Qed.

Lemma Reads_sync_response ver proto a :
  5 <= ver -> fits proto -> fits (default [] a) ->
  Reads (decodeSyncGroupResponseFlex ver) (write_sync_response proto a) a.
Proof.
  intros Hv Hp Ha. unfold decodeSyncGroupResponseFlex, write_sync_response, read_sync_code.
  rewrite <- (enc_app_assoc (WriteInt32 0) (WriteInt16 0)). eapply Reads_bind.
  { field. last_field. cbn [Z.eqb negb]. apply Reads_ret. }
  cbn beta. destruct (Z.geb_spec ver 5); [|lia].
  rewrite <- (enc_app_assoc (WriteCompactString (str "consumer"))). eapply Reads_bind.
  { eapply Reads_bind; [by apply (Reads_compact_nullable_string (Some (str "consumer")))|]. cbn beta. unfold rd_if.
    eapply Reads_bind_last; [by apply (Reads_compact_nullable_string (Some proto))|]. apply Reads_ret. }
  cbn beta. eapply Reads_bind; [by apply Reads_compact_bytes|]. cbn beta. last_field. apply Reads_ret.
Qed.

Lemma HReads_sync grp member instance proto gen assigns st resp :
  fits grp -> fits member -> fits instance -> fits proto -> int32 gen -> wf_assignments assigns ->
  write_sync_response proto (assigns !! member) = Ok resp ->
  HReads handleSyncGroup
    (WriteCompactString grp +++ WriteInt32 gen +++ WriteCompactString member +++
     WriteCompactNullableString (strPtr instance) +++ WriteCompactString protocol_type +++ WriteCompactString proto +++
     WriteCompactArrayLen (len (range assigns)) +++ enc_list write_sync_assignment (range assigns)) st st resp.
Proof.
  intros Hg Hm Hi Hp Hgen [Hsz Hw] Hresp. unfold handleSyncGroup. hfield. hfield. hfield.
  eapply HReads_bind.
  { apply HReads_rd, Reads_compact_nullable_string. unfold strPtr. by case_bool_decide. }
  cbn beta. hfield. hfield. rewrite range_len. hfield. eapply HReads_bind_last.
  - apply HReads_rd. rewrite Z.add_simpl_r, <- range_len.
    eapply (Reads_for _ _ (fun a ma => if bool_decide (fst ma = member) then Some (snd ma) else a)
      (fun ma => fits (fst ma) /\ fits (snd ma))).
    + apply Forall_forall. intros [k v] Hin%range_lookup. by apply (Hw k v).
    + intros s [k v] [Hk Hv]. unfold read_sync_assignment, write_sync_assignment. field.
      eapply Reads_bind; [by apply (Reads_compact_bytes (Some v))|]. cbn beta. last_field. apply Reads_ret.
  - cbn beta. rewrite sync_pick, range_to_map by apply range_NoDup.
    apply HReads_res. rewrite <- Hresp. f_equal. by destruct (assigns !! member).
Qed.

(** Join and sync.  A consumer that joins a group of the broker becomes its
    leader in a new generation, reads back its own subscription as the group's
    only member, and the SyncGroup that follows returns to it exactly the
    assignment its request carries for it. *)
Theorem join_sync_end_to_end jver sver grp member assignor instance topics sess reb coop assigns st jbody sbody :
  let me := joined_member member in
  let gen := joined_generation grp st in
  let proto := join_assignor assignor in
  6 <= jver -> 5 <= sver ->
  EncodeJoinGroupRequest jver grp member assignor instance topics sess reb coop = Ok jbody ->
  EncodeSyncGroupRequest sver grp me proto instance gen assigns = Ok sbody ->
  fits grp -> fits member -> fits assignor -> fits instance -> int32 sess -> int32 reb -> len topics < 2 ^ 31 ->
  (forall meta, EncodeConsumerSubscription topics coop = Ok meta -> fits meta) -> wf_assignments assigns ->
  exists st' jresp sresp meta,
    dispatch APIJoinGroup jver jbody st = (st', Ok jresp) /\
    DecodeJoinGroupResponse jver jresp = Ok (mkJoinGroupResponse gen me me proto {[me := Some meta]}, false) /\
    DecodeConsumerSubscription meta = Ok topics /\
    dispatch APISyncGroup sver sbody st' = (st', Ok sresp) /\
    DecodeSyncGroupResponse sver sresp = Ok (assigns !! me).
Proof.
  intros me gen proto Hjv Hsv Hje Hse Hg Hm Ha Hi Hs Hr Ht Hmeta Hw.
  unfold EncodeJoinGroupRequest in Hje. destruct (Z.geb_spec jver 6); [|lia]. unfold encodeJoinGroupRequestFlex in Hje.
  destruct (EncodeConsumerSubscription topics coop) as [meta| |] eqn:Em; [|done|done]. cbn [res_bind] in Hje.
  specialize (Hmeta meta eq_refl).
  pose proof (joined_member_fits _ Hm) as Hfm. pose proof (join_assignor_fits _ Ha) as Hfp.
  assert (Hgen : int32 gen) by (unfold gen, joined_generation; apply s32_int32).
  destruct (EOk_join_response gen proto me (Some meta)) as [jresp Hjr].
  destruct (EOk_sync_response proto (assigns !! me)) as [sresp Hsr].
  assert (Hss : int32 (join_session sess)) by (unfold join_session, int32 in *; case_match; lia).
  assert (Hrr : int32 (join_rebalance sess reb)) by (unfold join_rebalance; destruct (reb <=? 0); [exact Hss|exact Hr]).
  exists (fst (join_group grp member proto (Some meta) st)), jresp, sresp, meta. split; [|split; [|split; [|split]]].
  - eapply (dispatch_HReads _ _ handleJoinGroup _ WriteEmptyTagSection); [done|
      by apply (HReads_join grp member proto instance (join_session sess) (join_rebalance sess reb) meta st jresp)|].
    rewrite <- Hje. by rewrite !enc_app_assoc.
  - unfold DecodeJoinGroupResponse. destruct (Z.geb_spec jver 6); [|lia].
    eapply Reads_run; [|exact Hjr]. by apply Reads_join_response.
  - by apply (subscription_roundtrip topics coop).
  - eapply (dispatch_HReads _ _ handleSyncGroup _ WriteEmptyTagSection); [done|by apply (HReads_sync grp me instance proto gen assigns _ sresp)|].
    rewrite <- Hse. unfold EncodeSyncGroupRequest. destruct (Z.geb_spec sver 4); [|lia].
    unfold encodeSyncGroupRequestFlex, enc_if. destruct (Z.geb_spec sver 3); [|lia]. destruct (Z.geb_spec sver 5); [|lia].
    by rewrite !enc_app_assoc.
  - unfold DecodeSyncGroupResponse. destruct (Z.geb_spec sver 4); [|lia].
    eapply Reads_run; [|exact Hsr]. apply Reads_sync_response; [done|done|].
    destruct (assigns !! me) eqn:E; [|done]. destruct Hw as [_ Hw]. by apply (Hw me).
Qed.
End join_sync.

(** * Concrete exchanges *)

Definition demo_offsets : offset_map := {[ str "t" := {[ 0 := 42; 1 := 7 ]} ]}.
Definition demo_parts : list OffsetFetchPartition :=
  [mkOffsetFetchPartition (str "t") 0; mkOffsetFetchPartition (str "t") 5].

Lemma demo_wf_offsets : wf_offsets demo_offsets.
Proof.
  split; [reflexivity|]. unfold demo_offsets. apply map_Forall_singleton. split; [reflexivity|]. split; [reflexivity|].
  apply map_Forall_insert; [reflexivity|]. split; [split; split; vm_compute; congruence|].
  apply map_Forall_singleton. split; split; vm_compute; congruence.
Qed.

Lemma demo_wf_fetch : Forall wf_fetch_topic (by_topic demo_parts).
Proof.
  change (by_topic demo_parts) with [(str "t", [0; 5])].
  repeat constructor; vm_compute; congruence.
Qed.

Lemma offset_commit_then_fetch_witness :
  exists st' st'' cresp fresp,
    dispatch APIOffsetCommit 8 (bytes_of (EncodeOffsetCommitRequest 8 (str "g") (str "m") [] 1 demo_offsets)) sample_broker =
      (st', Ok cresp) /\ DecodeOffsetCommitResponse 8 cresp = Ok 0 /\
    dispatch APIOffsetFetch 7 (bytes_of (EncodeOffsetFetchRequest 7 (str "g") demo_parts true)) st' = (st'', Ok fresp) /\
    DecodeOffsetFetchResponse 7 fresp =
      Ok (fetched_offsets (fun t p => default (-1) (after_commit demo_offsets sample_broker (str "g") t p)) 0 (by_topic demo_parts)) /\
    (forall g t p, committed_at st'' g t p =
       if bool_decide (g = str "g") then after_commit demo_offsets sample_broker (str "g") t p
       else committed_at sample_broker g t p).
Proof.
  apply (offset_commit_then_fetch 8 7 (str "g") (str "m") [] 1 demo_offsets demo_parts true sample_broker).
  - lia.
  - lia.
  - vm_compute. reflexivity.
  - vm_compute. reflexivity.
  - reflexivity.
  - reflexivity.
  - reflexivity.
  - split; vm_compute; congruence.
  - exact demo_wf_offsets.
  - reflexivity.
  - exact demo_wf_fetch.
  - intros g t p o Ho. discriminate Ho.
  - vm_compute. congruence.
Defined.

Definition demo_assignment : gmap bytes bytes :=
  {[ str "kfake-member-1" := bytes_of (EncodeMemberAssignment [mkTPA (str "t") [0]]) ]}.

Lemma join_sync_end_to_end_witness :
  exists st' jresp sresp meta,
    dispatch APIJoinGroup 6
      (bytes_of (EncodeJoinGroupRequest 6 (str "g") [] (str "range") [] [str "t"] 45000 45000 false)) sample_broker =
      (st', Ok jresp) /\
    DecodeJoinGroupResponse 6 jresp =
      Ok (mkJoinGroupResponse (joined_generation (str "g") sample_broker) (str "kfake-member-1") (str "kfake-member-1")
            (str "range") {[str "kfake-member-1" := Some meta]}, false) /\
    DecodeConsumerSubscription meta = Ok [str "t"] /\
    dispatch APISyncGroup 5
      (bytes_of (EncodeSyncGroupRequest 5 (str "g") (str "kfake-member-1") (str "range") []
         (joined_generation (str "g") sample_broker) demo_assignment)) st' = (st', Ok sresp) /\
    DecodeSyncGroupResponse 5 sresp = Ok (demo_assignment !! str "kfake-member-1").
Proof.
  apply (join_sync_end_to_end 6 5 (str "g") [] (str "range") [] [str "t"] 45000 45000 false demo_assignment sample_broker).
  - lia.
  - lia.
  - vm_compute. reflexivity.
  - vm_compute. reflexivity.
  - reflexivity.
  - reflexivity.
  - reflexivity.
  - reflexivity.
  - split; vm_compute; congruence.
  - split; vm_compute; congruence.
  - reflexivity.
  - intros meta Hm. vm_compute in Hm. apply Ok_inj in Hm as <-. reflexivity.
  - split; [reflexivity|]. unfold demo_assignment. apply map_Forall_singleton. split; reflexivity.
Defined.
