(* ===== verification/GoMonad.v ===== *)
(** Stateful Go code: a state and error monad for the methods of one object,
    and the rules by which its methods are reasoned about.

    A method of an object with state [S] is an [M S A]: it changes the state
    and returns a value, an error or a panic; what it changed before an error
    stays changed. *)

From Stdlib Require Import ZArith Lia.
From stdpp Require Import base list gmap.
From S2P Require Import Prelude.

Definition M (S A : Type) : Type := S -> S * res A.

Section monad.
Context {S : Type}.

Definition mret {A} (a : A) : M S A := fun s => (s, Ok a).
Definition merr {A} (e : error) : M S A := fun s => (s, Err e).
Definition mlift {A} (r : res A) : M S A := fun s => (s, r).
Definition mget : M S S := fun s => (s, Ok s).
Definition mgets {A} (f : S -> A) : M S A := fun s => (s, Ok (f s)).
Definition mmod (f : S -> S) : M S unit := fun s => (f s, Ok tt).

Definition mthen {A B} (m : M S A) (f : A -> M S B) : M S B := fun s =>
  match m s with
  | (s', Ok a) => f a s'
  | (s', Err e) => (s', Err e)
  | (s', Panic) => (s', Panic)
  end.

(** [v, err := m()]: the error is a value; a panic is not caught. *)
Definition mtry {A} (m : M S A) : M S (A + error) := fun s =>
  match m s with
  | (s', Ok a) => (s', Ok (inl a))
  | (s', Err e) => (s', Ok (inr e))
  | (s', Panic) => (s', Panic)
  end.

(** [_ = m()] *)
Definition mignore {A} (m : M S A) : M S unit := fun s =>
  match m s with
  | (s', Panic) => (s', Panic)
  | (s', _) => (s', Ok tt)
  end.

Definition mwhen (c : bool) (m : M S unit) : M S unit := if c then m else mret tt.
End monad.

Notation "'let!' x ':=' m 'in' k" := (mthen m (fun x => k))
  (at level 10, x pattern, m at level 100, k at level 200) : go_scope.
Notation "'do!' m 'in' k" := (mthen m (fun _ => k))
  (at level 10, m at level 100, k at level 200) : go_scope.

(** [for x := range l { f(x) }], left at the first error. *)
Fixpoint mfor {S A} (f : A -> M S unit) (l : list A) : M S unit :=
  match l with
  | [] => mret tt
  | x :: rest => do! f x in mfor f rest
  end.

(** * What a method leaves alone *)

(** [Keeps R m]: every run of [m], whatever its outcome, goes from a state to
    one that [R] relates to it.  For a preorder [R] this composes. *)
Definition Keeps {S A} (R : S -> S -> Prop) (m : M S A) : Prop := forall s, R s (fst (m s)).

(** [Returns m Q]: the states and values in which [m] can return normally. *)
Definition Returns {S A} (m : M S A) (Q : S -> S -> A -> Prop) : Prop :=
  forall s s' a, m s = (s', Ok a) -> Q s s' a.

Section keeps.
Context {S : Type} (R : S -> S -> Prop) `{!PreOrder R}.

Lemma keeps_ret {A} (a : A) : Keeps R (mret a).
Proof. intros s. cbn. reflexivity. Qed.
Lemma keeps_err {A} e : Keeps R (@merr S A e).
Proof. intros s. cbn. reflexivity. Qed.
Lemma keeps_lift {A} (r : res A) : Keeps R (mlift r).
Proof. intros s. cbn. reflexivity. Qed.
Lemma keeps_get : Keeps R mget.
Proof. intros s. cbn. reflexivity. Qed.
Lemma keeps_gets {A} (f : S -> A) : Keeps R (mgets f).
Proof. intros s. cbn. reflexivity. Qed.

Lemma keeps_then {A B} (m : M S A) (f : A -> M S B) :
  Keeps R m -> (forall a, Keeps R (f a)) -> Keeps R (mthen m f).
Proof.
  intros Hm Hf s. unfold mthen. specialize (Hm s). destruct (m s) as [s' [a|e|]]; cbn [fst] in *; [|done|done].
  transitivity s'; [done|apply Hf].
Qed.

Lemma keeps_try {A} (m : M S A) : Keeps R m -> Keeps R (mtry m).
Proof. intros Hm s. unfold mtry. specialize (Hm s). by destruct (m s) as [s' []]. Qed.
Lemma keeps_ignore {A} (m : M S A) : Keeps R m -> Keeps R (mignore m).
Proof. intros Hm s. unfold mignore. specialize (Hm s). by destruct (m s) as [s' []]. Qed.
Lemma keeps_when c (m : M S unit) : Keeps R m -> Keeps R (mwhen c m).
Proof. intros Hm. destruct c; [done|apply keeps_ret]. Qed.
Lemma keeps_for {A} (f : A -> M S unit) l : (forall x, Keeps R (f x)) -> Keeps R (mfor f l).
Proof. intros Hf. induction l as [|x l IH]; cbn [mfor]; [apply keeps_ret|]. by apply keeps_then. Qed.
End keeps.

Create HintDb keeps.
#[export] Hint Resolve keeps_ret keeps_err keeps_lift keeps_get keeps_gets : keeps.

(** One structural step of a [Keeps] goal. *)
Ltac keeps_step :=
  match goal with
  | |- Keeps _ (mthen _ _) => apply keeps_then; [typeclasses eauto| |intros ?]
  | |- Keeps _ (mtry _) => apply keeps_try
  | |- Keeps _ (mignore _) => apply keeps_ignore
  | |- Keeps _ (mwhen _ _) => apply keeps_when; [typeclasses eauto|]
  | |- Keeps _ (mfor _ _) => apply keeps_for; [typeclasses eauto|intros ?]
  | |- Keeps _ (if ?c then _ else _) => destruct c eqn:?
  | |- Keeps _ (match ?x with _ => _ end) => destruct x eqn:?
  | |- Keeps _ (let _ := _ in _) => cbv zeta
  | |- Keeps _ _ => solve [auto with keeps typeclass_instances]
  end.
Ltac solve_keeps := repeat keeps_step.

(** * Running *)

Lemma mthen_ok {S A B} (m : M S A) (f : A -> M S B) s s' a :
  m s = (s', Ok a) -> mthen m f s = f a s'.
Proof. intros E. unfold mthen. by rewrite E. Qed.

Lemma mthen_inv {S A B} (m : M S A) (f : A -> M S B) s s' b :
  mthen m f s = (s', Ok b) -> exists s1 a, m s = (s1, Ok a) /\ f a s1 = (s', Ok b).
Proof. unfold mthen. destruct (m s) as [s1 [a|e|]]; [|done|done]. eauto. Qed.

Lemma mtry_inv {S A} (m : M S A) s s' x :
  mtry m s = (s', Ok x) -> m s = (s', match x with inl a => Ok a | inr e => Err e end).
Proof. unfold mtry. destruct (m s) as [s1 [a|e|]]; intros [= <- <-]; done. Qed.

(** Take a successful run apart, one method call at a time. *)
Ltac minv H :=
  lazymatch type of H with
  | mthen _ _ _ = (_, Ok _) =>
      let s := fresh "s" in let a := fresh "a" in let E := fresh "E" in
      apply mthen_inv in H as (s & a & E & H); cbn beta in H; minv E; minv H
  | mret _ _ = _ => first [injection H as <- <- | injection H as <- H | injection H as <-]
  | mgets _ _ = _ => first [injection H as <- <- | injection H as <- H | injection H as <-]
  | mget _ = _ => first [injection H as <- <- | injection H as <- H | injection H as <-]
  | mmod _ _ = _ => first [injection H as <- <- | injection H as <- H | injection H as <-]
  | _ => idtac
  end.
