(* ===== verification/Consumer.v ===== *)
(** The group consumer: [consumer.go], [consumer_pause.go],
    [consumer_rebalance.go], [offset.go], the heartbeat and leave of
    [consumer_runner.go], and [FindCoordinator] of [internal/broker/cluster.go].

    A method is an [M (Consumer W) A]: it threads the consumer and the world
    behind it ([ClusterEnv], and [ConsumerEnv] for the clock and the random
    member ids).  [c_coord] is [coordID] when [hasCoord] is set.  The registered
    [RebalanceListener] is user code: its callbacks may change the consumer (the
    repository's comments say that they commonly call [Seek]).  The per-broker
    fetches of one [Poll] run one after the other, in the order of the map;
    metrics and logs are left out.  The [for] loop that repeats JoinGroup while
    the broker answers MEMBER_ID_REQUIRED has no bound in the code; the model
    follows [join_fuel] such answers and then returns [Diverged]. *)

From Stdlib Require Import ZArith Lia.
From Stdlib Require Import Strings.Byte.
From stdpp Require Import base list gmap countable strings.
From S2P Require Import Prelude.
From S2P Require Import Wire.
From S2P Require Import Header.
From S2P Require Import Compress.
From S2P Require Import RecordBatch.
From S2P Require Import FetchCodec.
From S2P Require Import Assign.
From S2P Require Import Metadata.
From S2P Require Import Retry.
From S2P Require Import Producer.
From S2P Require Import OffsetCodec.
From S2P Require Import GroupCodec.
From S2P Require Import GoMonad.

Open Scope Z_scope.

(** * Data *)

(** The fields of [Record] a consumer sets; the timestamp is in milliseconds. *)
Record crecord := mkCRecord {
  cr_Topic : bytes;
  cr_Partition : Z;
  cr_Offset : Z;
  cr_Key : bytes;
  cr_Value : bytes;
  cr_Headers : list (bytes * bytes);
  cr_Timestamp : Z }.

Record partitionOffset := mkPO { a_topic : bytes; a_partition : Z; a_offset : Z }.

Record TopicPartition := mkTP { tp_Topic : bytes; tp_Partition : Z; tp_Offset : Z }.

(** [rec] is [None] for control and aborted-transaction markers. *)
Record fetchItem := mkItem { it_topic : bytes; it_partition : Z; it_offset : Z; it_rec : option crecord }.

Inductive PartitionAssignor := AssignorRange | AssignorRoundRobin | AssignorSticky | AssignorCooperativeSticky.

#[export] Instance assignor_eq_dec : EqDecision PartitionAssignor.
Proof. solve_decision. Defined.

Definition protocolName (a : PartitionAssignor) : bytes :=
  match a with
  | AssignorRoundRobin => str "roundrobin"
  | AssignorSticky => str "sticky"
  | AssignorCooperativeSticky => str "cooperative-sticky"
  | AssignorRange => str "range"
  end.

(** The configuration the consumer reads; durations in nanoseconds. *)
Record ConsumerConfig := mkConsumerConfig {
  cc_ConsumerGroup : bytes;
  cc_MaxPollRecords : Z;
  cc_ReadCommitted : bool;
  cc_Assignor : PartitionAssignor;
  cc_NextGen : bool;
  cc_SessionTimeout : Z;
  cc_RebalanceTimeout : Z;
  cc_GroupInstanceID : bytes;
  cc_OffsetResetDuration : Z;
  cc_ConsumeFromBeginning : bool;
  cc_AutoCommit : bool;
  cc_Retry : RetryConfig }.

Record Consumer (W : Type) := mkConsumer {
  c_world : W;
  c_group : bytes;
  c_memberID : bytes;
  c_generation : Z;
  c_coord : option Z;
  c_assignments : list partitionOffset;
  c_paused : gset partKey;
  c_heartbeat : bool }.
Arguments mkConsumer {W}.
Arguments c_world {W}.
Arguments c_group {W}.
Arguments c_memberID {W}.
Arguments c_generation {W}.
Arguments c_coord {W}.
Arguments c_assignments {W}.
Arguments c_paused {W}.
Arguments c_heartbeat {W}.

Definition VerFetch := 13.
Definition VerJoinGroup := 6.
Definition VerSyncGroup := 5.
Definition VerHeartbeat := 4.
Definition VerLeaveGroup := 5.

Definition ErrClosed : error := FmtError "gokafka: client is closed" 0.
Definition ErrNoConsumerGroup : error := FmtError "gokafka: consumer group is required" 0.
(** Not an error of the code: a loop of the model is out of fuel. *)
Definition Diverged : error := FmtError "loop not finished" 0.

Definition key_of_po (a : partitionOffset) : partKey := (a_topic a, a_partition a).
Definition set_offset (a : partitionOffset) (off : Z) : partitionOffset := mkPO (a_topic a) (a_partition a) off.
Definition tp_of (a : partitionOffset) : TopicPartition := mkTP (a_topic a) (a_partition a) (a_offset a).

(** What a consumer needs of its surroundings beyond the cluster: the time in
    nanoseconds and fresh member ids. *)
Class ConsumerEnv (W : Type) := {
  env_time : W -> Z;
  env_newMemberUUID : W -> W * bytes }.

(** * Delivery *)

(** [fetchFromBroker]'s loop over the fetched records: items in wire order, up
    to and including the [maxRecords]-th data record. *)
Definition to_record (fr : FetchedRecord) : crecord :=
  mkCRecord (fr_Topic fr) (fr_Partition fr) (fr_Offset fr) (fr_Key fr) (fr_Value fr) (fr_Headers fr) (fr_Timestamp fr).

Definition to_item (fr : FetchedRecord) : fetchItem :=
  mkItem (fr_Topic fr) (fr_Partition fr) (fr_Offset fr) (if fr_Control fr then None else Some (to_record fr)).

Fixpoint fetch_items (maxRecords data : Z) (fetched : list FetchedRecord) : list fetchItem :=
  match fetched with
  | [] => []
  | fr :: rest =>
      let data := if fr_Control fr then data else data + 1 in
      to_item fr :: (if (maxRecords >? 0) && (data >=? maxRecords) then [] else fetch_items maxRecords data rest)
  end.

(** The loops of [aggregateFetches]; the flag is [full]. *)
Fixpoint aggregate_items (maxPoll : Z) (items : list fetchItem) (out : list crecord) (cursor : gmap partKey Z)
    : list crecord * gmap partKey Z * bool :=
  match items with
  | [] => (out, cursor, false)
  | it :: rest =>
      let cursor := <[(it_topic it, it_partition it) := s64 (it_offset it + 1)]> cursor in
      match it_rec it with
      | None => aggregate_items maxPoll rest out cursor
      | Some r =>
          let out := out ++ [r] in
          if (maxPoll >? 0) && (len out >=? maxPoll) then (out, cursor, true)
          else aggregate_items maxPoll rest out cursor
      end
  end.

Fixpoint aggregate_nodes (maxPoll : Z) (nodeItems : list (list fetchItem)) (out : list crecord) (cursor : gmap partKey Z)
    : list crecord * gmap partKey Z :=
  match nodeItems with
  | [] => (out, cursor)
  | items :: rest =>
      let '(out, cursor, full) := aggregate_items maxPoll items out cursor in
      if full then (out, cursor) else aggregate_nodes maxPoll rest out cursor
  end.

Definition aggregateFetches (nodeItems : list (list fetchItem)) (maxPoll : Z) : list crecord * gmap partKey Z :=
  aggregate_nodes maxPoll nodeItems [] ∅.

Definition advance_one (from cursor : gmap partKey Z) (a : partitionOffset) : partitionOffset :=
  match cursor !! key_of_po a with
  | None => a
  | Some next =>
      match from !! key_of_po a with
      | Some f => if (a_offset a =? f) && (next >? a_offset a) then set_offset a next else a
      | None => a
      end
  end.

Definition from_map (fetchedFrom : list partitionOffset) : gmap partKey Z :=
  fold_left (fun (m : gmap partKey Z) a => <[key_of_po a := a_offset a]> m) fetchedFrom ∅.

Definition advance (fetchedFrom : list partitionOffset) (cursor : gmap partKey Z) (assignments : list partitionOffset)
    : list partitionOffset :=
  if bool_decide (cursor = ∅) then assignments else map (advance_one (from_map fetchedFrom) cursor) assignments.

(** The first assignment of a partition, replaced: the loop of [bumpOffset]
    and [Seek]; [None] when the partition is not assigned. *)
Fixpoint seek_in (topic : bytes) (part off : Z) (l : list partitionOffset) : option (list partitionOffset) :=
  match l with
  | [] => None
  | a :: rest =>
      if bool_decide (a_topic a = topic) && (a_partition a =? part) then Some (set_offset a off :: rest)
      else (fun r => a :: r) <$> seek_in topic part off rest
  end.

(** ** Offsets to commit *)

Definition put_offset (m : offset_map) (topic : bytes) (part off : Z) : offset_map :=
  <[topic := <[part := off]> (default ∅ (m !! topic))]> m.

Definition assignment_offsets (l : list partitionOffset) : offset_map :=
  fold_left (fun m a => put_offset m (a_topic a) (a_partition a) (a_offset a)) l ∅.

Definition record_offsets (records : list crecord) : offset_map :=
  fold_left (fun m r => put_offset m (cr_Topic r) (cr_Partition r) (s64 (cr_Offset r + 1))) records ∅.

(** ** Error codes *)

Definition APIErrorCode (e : error) : option Z := match e with APIError _ code => Some code | _ => None end.
Definition any_code (e : error) : option Z :=
  match e with APIError _ code | KafkaError code _ _ => Some code | _ => None end.

Definition shouldRejoin (e : error) : bool :=
  match any_code e with
  | None => false
  | Some code => (code =? 27) || (code =? 16) || (code =? 25) || (code =? 22) || CoordinatorRetriable code
  end.

Definition offsetFetchRetriable (code : Z) : bool :=
  (code =? 14) || (code =? 15) || (code =? 16) || (code =? 88).

Definition protocolErrorCode (e : error) : Z := default 0 (any_code e).

Definition shouldRejoin848 (e : error) : bool :=
  let code := protocolErrorCode e in (code =? 25) || (code =? 110) || (code =? 112).

(** The members' assignments once each is encoded. *)
Definition encoded_assignments (m : gmap bytes Enc) : res (gmap bytes bytes) :=
  foldr (fun ke acc => let? a := acc in let? b := snd ke in Ok (<[fst ke := b]> a)) (Ok ∅) (map_to_list m).

Definition partitions_of (meta : MetadataResponse) : gmap bytes (list Z) :=
  fold_left (fun (m : gmap bytes (list Z)) t => <[tm_Name t := map pm_Partition (tm_Partitions t)]> m) (md_Topics meta) ∅.

(** The fallback of [applyAssignment]: all partitions of the topics, from the
    metadata. *)
Definition all_partitions (topics : list bytes) (meta : MetadataResponse) : list partitionOffset :=
  concat (map (fun topic =>
    concat (map (fun t =>
      if bool_decide (tm_Name t = topic) then map (fun p => mkPO topic (pm_Partition p) 0) (tm_Partitions t) else [])
      (md_Topics meta))) topics).

Definition parsed_partitions (parsed : list TopicPartitionAssignment) : list partKey :=
  concat (map (fun a => map (fun p => (tpa_Topic a, p)) (tpa_Partitions a)) parsed).

(** Split the current assignments by the new set. *)
Definition kept_of (newSet : gset partKey) (l : list partitionOffset) : list partitionOffset :=
  filter (fun a => key_of_po a ∈ newSet) l.
Definition revoked_of (newSet : gset partKey) (l : list partitionOffset) : list partitionOffset :=
  filter (fun a => key_of_po a ∉ newSet) l.

Definition ms_of (d : Z) : Z := s32 (d / Millisecond).

(** * Operations *)

Section consumer.
Context `{Codecs} `{MapOrder} {W : Type} `{ClusterEnv W} `{ConsumerEnv W}.
Context (cfg : ConsumerConfig) (topics : list bytes) (topicRegex : bytes) (join_fuel : nat).

Local Notation consumer := (Consumer W).
Local Notation C := (M consumer).

(** The user's callbacks. *)
Record RebalanceListener := mkListener {
  OnPartitionsRevoked : list TopicPartition -> consumer -> consumer;
  OnPartitionsAssigned : list TopicPartition -> consumer -> consumer }.

Context (listener : option RebalanceListener).

Definition with_world (w : W) (c : consumer) : consumer :=
  mkConsumer w (c_group c) (c_memberID c) (c_generation c) (c_coord c) (c_assignments c) (c_paused c) (c_heartbeat c).
Definition with_group (g : bytes) (c : consumer) : consumer :=
  mkConsumer (c_world c) g (c_memberID c) (c_generation c) (c_coord c) (c_assignments c) (c_paused c) (c_heartbeat c).
Definition with_member (m : bytes) (c : consumer) : consumer :=
  mkConsumer (c_world c) (c_group c) m (c_generation c) (c_coord c) (c_assignments c) (c_paused c) (c_heartbeat c).
Definition with_generation (g : Z) (c : consumer) : consumer :=
  mkConsumer (c_world c) (c_group c) (c_memberID c) g (c_coord c) (c_assignments c) (c_paused c) (c_heartbeat c).
Definition with_coord (i : option Z) (c : consumer) : consumer :=
  mkConsumer (c_world c) (c_group c) (c_memberID c) (c_generation c) i (c_assignments c) (c_paused c) (c_heartbeat c).
Definition with_assignments (l : list partitionOffset) (c : consumer) : consumer :=
  mkConsumer (c_world c) (c_group c) (c_memberID c) (c_generation c) (c_coord c) l (c_paused c) (c_heartbeat c).
Definition with_paused (p : gset partKey) (c : consumer) : consumer :=
  mkConsumer (c_world c) (c_group c) (c_memberID c) (c_generation c) (c_coord c) (c_assignments c) p (c_heartbeat c).
Definition with_heartbeat (h : bool) (c : consumer) : consumer :=
  mkConsumer (c_world c) (c_group c) (c_memberID c) (c_generation c) (c_coord c) (c_assignments c) (c_paused c) h.

(** ** The world *)

(** A call into the cluster. *)
Definition world {A} (f : W -> W * res A) : C A := fun c =>
  let '(w, r) := f (c_world c) in (with_world w c, r).

Definition Request (node api ver : Z) (body : Enc) : C bytes :=
  let! body := mlift body in world (env_Request node api ver body).
Definition Refresh (ts : list bytes) : C unit := world (env_Refresh ts).
Definition Invalidate (node : Z) : C unit := world (fun w => (env_Invalidate node w, Ok tt)).
Definition requireOpen : C unit :=
  let! c := mget in if env_open (c_world c) then mret tt else merr ErrClosed.
Definition NegotiatedVersion (api fallback : Z) : C Z :=
  mgets (fun c => negotiatedVersion (env_versions (c_world c)) api fallback).
Definition sleepCtx (d : Z) : C unit := world (fun w =>
  let '(w, e) := env_sleep d w in (w, match e with Some e => Err e | None => Ok tt end)).
Definition cluster (c : consumer) : Cluster := env_cluster (c_world c).

(** [FindCoordinator]: [n] attempts remain. *)
Fixpoint find_coordinator (n : nat) (body : bytes) (wait : Z) (lastErr : error) (w : W) : W * res Z :=
  match n with
  | O => (w, Err lastErr)
  | S n' =>
      match env_ctx w with
      | Some e => (w, Err e)
      | None =>
          let '(w, rb) := env_RequestViaSeed APIFindCoordinator VerFindCoordinator body w in
          match rb with
          | Err e => (w, Err e)
          | Panic => (w, Panic)
          | Ok rb =>
              match DecodeFindCoordinatorResponse rb with
              | Err e => (w, Err e)
              | Panic => (w, Panic)
              | Ok coord =>
                  if cr_ErrorCode coord =? 0 then (w, Ok (cr_NodeID coord)) else
                  let lastErr := FmtError "broker: find coordinator: error" (cr_ErrorCode coord) in
                  if negb (CoordinatorRetriable (cr_ErrorCode coord)) then (w, Err lastErr) else
                  match n' with
                  | O => (w, Err lastErr)
                  | S _ =>
                      let '(w, e) := env_sleep wait w in
                      match e with
                      | Some e => (w, Err e)
                      | None =>
                          let wait := wait * 2 in
                          find_coordinator n' body (if wait >? 2 * Second then 2 * Second else wait) lastErr w
                      end
                  end
              end
          end
      end
  end.

Definition FindCoordinator (key : bytes) (keyType : Z) (w : W) : W * res Z :=
  match EncodeFindCoordinatorRequest key keyType with
  | Ok body => find_coordinator 20 body (100 * Millisecond) (FmtError "nil" 0) w
  | Err e => (w, Err e)
  | Panic => (w, Panic)
  end.

Definition invalidateCoordinator : C unit := mmod (with_coord None).

Definition coordinator : C Z :=
  let! c := mget in
  match c_coord c with
  | Some id => mret id
  | None =>
      let group := if bool_decide (c_group c = []) then cc_ConsumerGroup cfg else c_group c in
      let! id := world (FindCoordinator group CoordinatorGroup) in
      do! mmod (with_coord (Some id)) in
      mret id
  end.

(** ** Positions *)

Definition bumpOffset (topic : bytes) (part off : Z) : C unit :=
  mmod (fun c => with_assignments (default (c_assignments c) (seek_in topic part off (c_assignments c))) c).

Definition Seek (topic : bytes) (part off : Z) : C unit :=
  do! requireOpen in
  let! c := mget in
  match seek_in topic part off (c_assignments c) with
  | Some l => mmod (with_assignments l)
  | None => merr (FmtError "gokafka: partition not assigned" part)
  end.

(** The results of ListOffsets applied in order. *)
Definition seek_result (topic : bytes) (o : PartitionOffset) : C unit :=
  if negb (po_ErrorCode o =? 0) then
    let ke := KafkaError (po_ErrorCode o) (po_Topic o) (po_Partition o) in
    do! mwhen (IsRetriable ke) (mignore (Refresh [topic])) in
    merr ke
  else Seek (po_Topic o) (po_Partition o) (po_Offset o).

Definition seek_attempt (topic : bytes) (first : Z) (body : Enc) : C unit :=
  let! c := mget in
  match LeaderBroker (cluster c) topic first with
  | None =>
      do! mignore (Refresh [topic]) in
      merr (KafkaError 6 topic first)
  | Some leader =>
      let! rb := Request (bm_NodeID leader) APIListOffsets VerListOffsets body in
      let! offs := mlift (DecodeListOffsetsResponse rb) in
      mfor (seek_result topic) offs
  end.

Definition isolation : Z := if cc_ReadCommitted cfg then 1 else 0.

Definition seekByTimestamp (topic : bytes) (ts : Z) (partitions : list Z) : C unit :=
  let! c := mget in
  let partitions :=
    if len partitions =? 0
    then map a_partition (filter (fun a => a_topic a = topic) (c_assignments c)) else partitions in
  match partitions with
  | [] => merr (FmtError "gokafka: no partitions for topic" 0)
  | first :: _ =>
      let body := EncodeListOffsetsRequest (map (fun p => mkListOffsetsPartition topic p ts) partitions) isolation in
      retryRetriable (fun c => env_ctx (c_world c))
        (fun d c => let '(w, e) := env_sleep d (c_world c) in (with_world w c, e))
        (coordinatorRetry (cc_Retry cfg)) (seek_attempt topic first body)
  end.

Definition SeekToBeginning (topic : bytes) (partitions : list Z) : C unit := seekByTimestamp topic (-2) partitions.
Definition SeekToEnd (topic : bytes) (partitions : list Z) : C unit := seekByTimestamp topic (-1) partitions.
Definition SeekToTime (topic : bytes) (ms : Z) (partitions : list Z) : C unit := seekByTimestamp topic ms partitions.

Definition AssignedPartitions (c : consumer) : list TopicPartition := map tp_of (c_assignments c).

(** ** Pausing *)

Definition Pause (partitions : list TopicPartition) (c : consumer) : consumer :=
  with_paused (list_to_set (map (fun p => (tp_Topic p, tp_Partition p)) partitions) ∪ c_paused c) c.

Definition Resume (partitions : list TopicPartition) (c : consumer) : consumer :=
  if bool_decide (c_paused c = ∅) then c else
  match partitions with
  | [] => with_paused ∅ c
  | _ => with_paused (c_paused c ∖ list_to_set (map (fun p => (tp_Topic p, tp_Partition p)) partitions)) c
  end.

Definition PausedPartitions (c : consumer) : list TopicPartition :=
  map tp_of (filter (fun a => key_of_po a ∈ c_paused c) (c_assignments c)).

Definition isPaused (c : consumer) (topic : bytes) (part : Z) : bool := bool_decide ((topic, part) ∈ c_paused c).

(** ** Committed offsets *)

Definition applyCommittedOffset (co : CommittedOffset) : C unit :=
  if co_Offset co >=? 0 then bumpOffset (co_Topic co) (co_Partition co) (co_Offset co) else
  if cc_OffsetResetDuration cfg >? 0 then
    let! now := mgets (fun c => env_time (c_world c)) in
    SeekToTime (co_Topic co) ((now - cc_OffsetResetDuration cfg) / Millisecond) [co_Partition co] else
  if cc_ConsumeFromBeginning cfg then
    if cc_ReadCommitted cfg then Seek (co_Topic co) (co_Partition co) 0
    else SeekToBeginning (co_Topic co) [co_Partition co]
  else SeekToEnd (co_Topic co) [co_Partition co].

(** One pass over a response; the result is the partitions still needed. *)
Fixpoint apply_committed (committed : list CommittedOffset) (need : gset partKey) : C (gset partKey) :=
  match committed with
  | [] => mret need
  | co :: rest =>
      let k := (co_Topic co, co_Partition co) in
      if bool_decide (k ∉ need) then apply_committed rest need else
      if negb (co_ErrorCode co =? 0) then
        if offsetFetchRetriable (co_ErrorCode co) then apply_committed rest need
        else merr (KafkaError (co_ErrorCode co) (co_Topic co) (co_Partition co))
      else
        do! applyCommittedOffset co in
        apply_committed rest (need ∖ {[k]})
  end.

(** [n] attempts remain. *)
Fixpoint load_loop (n : nat) (coord : Z) (body : Enc) (need : gset partKey) (backoff : Z) : C unit :=
  match n with
  | O => mret tt
  | S n' =>
      let! rb := Request coord APIOffsetFetch VerOffsetFetchSingle body in
      let! committed := mlift (DecodeOffsetFetchResponse VerOffsetFetchSingle rb) in
      let! need := apply_committed committed need in
      if bool_decide (need = ∅) then mret tt else
      match n' with
      | O => merr (FmtError "gokafka: offset fetch left assigned partition(s) unresolved" (Z.of_nat (size need)))
      | S _ =>
          do! sleepCtx backoff in
          load_loop n' coord body need (if backoff <? Second then backoff * 2 else backoff)
      end
  end.

Definition loadCommittedOffsets (coord : Z) : C unit :=
  let! c := mget in
  if len (c_assignments c) =? 0 then mret tt else
  let parts := map (fun a => mkOffsetFetchPartition (a_topic a) (a_partition a)) (c_assignments c) in
  let body := EncodeOffsetFetchRequest VerOffsetFetchSingle (c_group c) parts true in
  load_loop 20 coord body (list_to_set (map key_of_po (c_assignments c))) (100 * Millisecond).

(** ** Assignment *)

Definition notifyRevoked : C unit := mmod (fun c =>
  match listener with
  | Some l => if bool_decide (c_assignments c = []) then c else OnPartitionsRevoked l (AssignedPartitions c) c
  | None => c
  end).

Definition notifyAssigned : C unit := mmod (fun c =>
  match listener with
  | Some l => OnPartitionsAssigned l (AssignedPartitions c) c
  | None => c
  end).

Definition isCooperative : bool := bool_decide (cc_Assignor cfg = AssignorCooperativeSticky).

(** [kept] shares the array of [c.assignments]: while the listener runs, the
    kept entries have overwritten the front of the array and [c.assignments]
    still has its old length, so a [Seek] of the listener reaches [kept]. *)
Definition applyAssignmentIncremental (parsed : list TopicPartitionAssignment) (c : consumer) : consumer :=
  let newKeys := parsed_partitions parsed in
  let newSet : gset partKey := list_to_set newKeys in
  let old := c_assignments c in
  let kept := kept_of newSet old in
  let revoked := revoked_of newSet old in
  let c := with_assignments (kept ++ drop (length kept) old) c in
  let c := match listener with
           | Some l => if bool_decide (revoked = []) then c else OnPartitionsRevoked l (map tp_of revoked) c
           | None => c
           end in
  let kept := take (length kept) (c_assignments c) in
  let existing : gset partKey := list_to_set (map key_of_po kept) in
  let added := filter (fun k => k ∉ existing) newKeys in
  let c := with_assignments (kept ++ map (fun k => mkPO (fst k) (snd k) 0) added) c in
  match listener with
  | Some l => if bool_decide (added = []) then c
              else OnPartitionsAssigned l (map (fun k => mkTP (fst k) (snd k) 0) added) c
  | None => c
  end.

(** The flag says that the listener was already told. *)
Definition applyAssignment (raw : option bytes) : C bool :=
  let! parsed := mlift (ParseMemberAssignment (default [] raw)) in
  if isCooperative && (len parsed >? 0) then
    do! mmod (applyAssignmentIncremental parsed) in
    mret true
  else
    do! notifyRevoked in
    if len parsed >? 0 then
      do! mmod (with_assignments (map (fun k => mkPO (fst k) (snd k) 0) (parsed_partitions parsed))) in
      mret false
    else if isCooperative then
      do! mmod (with_assignments []) in
      mret false
    else
      do! mmod (fun c => with_assignments (all_partitions topics (cl_meta (cluster c))) c) in
      mret false.

(** ** Joining the group *)

(** The heartbeat of the classic protocol. *)
Definition heartbeat_classic : C unit :=
  let! c := mget in
  if bool_decide (c_memberID c = []) then mret tt else
  let! coord := coordinator in
  let! ver := NegotiatedVersion APIHeartbeat VerHeartbeat in
  let! rb := Request coord APIHeartbeat ver
    (EncodeHeartbeatRequest ver (c_group c) (c_memberID c) (cc_GroupInstanceID cfg) (c_generation c)) in
  let! code := mlift (DecodeHeartbeatResponse ver rb) in
  if negb (code =? 0) then merr (KafkaError code [] 0) else mret tt.

Definition ensureHeartbeat : C unit := mmod (with_heartbeat true).
Definition stopHeartbeat : C unit := mmod (with_heartbeat false).

(** The inner loop: a joined group, or the coordinator to try again with. *)
Fixpoint join_inner (fuel : nat) (joinVer sessionMs rebalanceMs coord : Z) : C (JoinGroupResponse + Z) :=
  match fuel with
  | O => merr Diverged
  | S f =>
      let! c := mget in
      let! rb := Request coord APIJoinGroup joinVer
        (EncodeJoinGroupRequest joinVer (c_group c) (c_memberID c) (protocolName (cc_Assignor cfg))
           (cc_GroupInstanceID cfg) topics sessionMs rebalanceMs isCooperative) in
      match DecodeJoinGroupResponse joinVer rb with
      | Ok (joined, true) =>
          do! mmod (with_member (jg_MemberID joined)) in
          join_inner f joinVer sessionMs rebalanceMs coord
      | Ok (joined, false) => mret (inl joined)
      | Panic => mlift Panic
      | Err e =>
          match APIErrorCode e with
          | Some code =>
              if CoordinatorRetriable code then
                do! Invalidate coord in
                do! invalidateCoordinator in
                let! coord := coordinator in
                mret (inr coord)
              else merr e
          | None => merr e
          end
      end
  end.

Definition read_member (m : bytes * option bytes) : res MemberSubscription :=
  let? ts := DecodeConsumerSubscription (default [] (snd m)) in Ok (mkMember (fst m) ts).

Fixpoint read_members (l : list (bytes * option bytes)) : res (list MemberSubscription) :=
  match l with
  | [] => Ok []
  | m :: rest => let? x := read_member m in let? xs := read_members rest in Ok (x :: xs)
  end.

(** What this member sends with SyncGroup. *)
Definition sync_assignments (joined : JoinGroupResponse) : C (gmap bytes bytes) :=
  let own : gmap bytes bytes := {[jg_MemberID joined := []]} in
  if negb (bool_decide (jg_MemberID joined = jg_LeaderID joined)) then mret own else
  let! members := mlift (read_members (range (jg_Assignments joined))) in
  if len members =? 0 then mret own else
  let topicSet : gset bytes := list_to_set (concat (map ms_Topics members)) in
  do! Refresh (map fst (range (gset_to_gmap tt topicSet))) in
  let! c := mget in
  let! m := mlift (ComputeGroupAssignments (jg_Protocol joined) members (partitions_of (cl_meta (cluster c)))) in
  mlift (encoded_assignments m).

(** [n] attempts remain; the assignment is nil when they run out. *)
Fixpoint join_loop (n : nat) (joinVer syncVer sessionMs rebalanceMs coord : Z) : C (option bytes * Z) :=
  match n with
  | O => mret (None, coord)
  | S n' =>
      let! j := join_inner join_fuel joinVer sessionMs rebalanceMs coord in
      match j with
      | inr coord => join_loop n' joinVer syncVer sessionMs rebalanceMs coord
      | inl joined =>
          do! mmod (with_member (jg_MemberID joined)) in
          do! mmod (with_generation (jg_GenerationID joined)) in
          let! assignments := sync_assignments joined in
          let! c := mget in
          let! rb := Request coord APISyncGroup syncVer
            (EncodeSyncGroupRequest syncVer (c_group c) (jg_MemberID joined) (jg_Protocol joined)
               (cc_GroupInstanceID cfg) (jg_GenerationID joined) assignments) in
          match DecodeSyncGroupResponse syncVer rb with
          | Ok raw => mret (raw, coord)
          | Panic => mlift Panic
          | Err e =>
              if shouldRejoin e then
                do! invalidateCoordinator in
                let! coord := coordinator in
                join_loop n' joinVer syncVer sessionMs rebalanceMs coord
              else merr e
          end
      end
  end.

Definition sessionMs : Z := if cc_SessionTimeout cfg >? 0 then ms_of (cc_SessionTimeout cfg) else 45000.
Definition rebalanceMs : Z := if cc_RebalanceTimeout cfg >? 0 then ms_of (cc_RebalanceTimeout cfg) else sessionMs.

(** The part of [joinAndAssign] after the loop. *)
Definition take_assignment (raw : option bytes) (coord : Z) : C unit :=
  let! notified := applyAssignment raw in
  do! mmod (with_coord (Some coord)) in
  do! loadCommittedOffsets coord in
  mwhen (negb notified) notifyAssigned.

Definition joinAndAssign_classic : C unit :=
  if negb (bool_decide (topicRegex = [])) then merr (FmtError "gokafka: regex subscription requires GroupProtocolNextGen" 0) else
  do! Refresh topics in
  let! coord := coordinator in
  let! joinVer := NegotiatedVersion APIJoinGroup VerJoinGroup in
  let! syncVer := NegotiatedVersion APISyncGroup VerSyncGroup in
  let! rc := join_loop 20 joinVer syncVer sessionMs rebalanceMs coord in
  do! take_assignment (fst rc) (snd rc) in
  do! ensureHeartbeat in
  mignore heartbeat_classic.

(** ** The next-generation protocol *)

Definition ownedTopicPartitions848 (c : consumer) : list TopicIDPartitions :=
  let byTopic := fold_left (fun m a =>
    match TopicIDByName (cluster c) (a_topic a) with
    | Some id => push m id (a_partition a)
    | None => m
    end) (c_assignments c) (∅ : gmap bytes (list Z)) in
  map (fun ip => mkTopicIDPartitions (fst ip) (snd ip)) (range byTopic).

Definition VerConsumerGroupHeartbeat := 1.

Definition sendGroupHeartbeat848 (coord : Z) (req : ConsumerGroupHeartbeatRequest) : C ConsumerGroupHeartbeatResponse :=
  let! ver := NegotiatedVersion APIConsumerGroupHeartbeat VerConsumerGroupHeartbeat in
  let! rb := Request coord APIConsumerGroupHeartbeat ver (EncodeConsumerGroupHeartbeatRequest ver req) in
  match DecodeConsumerGroupHeartbeatResponse rb with
  | Ok r => mret r
  | Panic => mlift Panic
  | Err e =>
      match DecodeConsumerGroupHeartbeatResponseLegacy rb with
      | Ok r => mret r
      | Panic => mlift Panic
      | Err _ => merr e
      end
  end.

Definition serverAssignor848 : bytes :=
  match cc_Assignor cfg with AssignorCooperativeSticky => str "uniform" | _ => str "range" end.

Definition rebalanceMs848 : Z :=
  let ms := if cc_RebalanceTimeout cfg >? 0 then ms_of (cc_RebalanceTimeout cfg) else 45000 in
  if (cc_SessionTimeout cfg >? 0) && (ms <=? 0) then ms_of (cc_SessionTimeout cfg) else ms.

Definition join_request848 (c : consumer) (memberID : bytes) : ConsumerGroupHeartbeatRequest :=
  let epoch := c_generation c in
  if epoch >? 0 then
    mkCGHRequest (c_group c) memberID epoch None None (-1) None None None (Some (ownedTopicPartitions848 c))
  else
    mkCGHRequest (c_group c) memberID epoch (strPtr (cc_GroupInstanceID cfg)) None rebalanceMs848
      (if bool_decide (topicRegex = []) then (match topics with [] => None | _ => Some topics end) else None)
      (if bool_decide (topicRegex = []) then None else Some topicRegex)
      (Some serverAssignor848)
      (if epoch =? 0 then Some [] else None).

Fixpoint assignment848 (c : Cluster) (assign : list TopicIDPartitions) : res (list TopicPartitionAssignment) :=
  match assign with
  | [] => Ok []
  | tp :: rest =>
      match TopicNameByID c (tip_TopicID tp) with
      | None => Err (FmtError "gokafka: unknown topic id in assignment" 0)
      | Some name => let? l := assignment848 c rest in Ok (mkTPA name (tip_Partitions tp) :: l)
      end
  end.

Definition assignment848ToMemberBytes (assign : list TopicIDPartitions) : C bytes :=
  let! c := mget in
  let! parsed := mlift (assignment848 (cluster c) assign) in
  mlift (EncodeMemberAssignment parsed).

(** [n] attempts remain. *)
Fixpoint join848_loop (n : nat) (memberID : bytes) (coord : Z) : C unit :=
  match n with
  | O => merr (FmtError "gokafka: consumer group heartbeat join: no partition assignment" 0)
  | S n' =>
      let! c := mget in
      let! r := mtry (sendGroupHeartbeat848 coord (join_request848 c memberID)) in
      match r with
      | inr e =>
          if shouldRejoin848 e then
            do! mmod (with_generation 0) in
            do! invalidateCoordinator in
            let! coord := coordinator in
            join848_loop n' memberID coord
          else if CoordinatorRetriable (protocolErrorCode e) then
            do! invalidateCoordinator in
            let! coord := coordinator in
            join848_loop n' memberID coord
          else merr e
      | inl resp =>
          do! mmod (with_member (if bool_decide (hr_MemberID resp = []) then memberID else hr_MemberID resp)) in
          do! mmod (with_generation (hr_MemberEpoch resp)) in
          do! mmod (with_coord (Some coord)) in
          if len (hr_Assignment resp) >? 0 then
            let! raw := assignment848ToMemberBytes (hr_Assignment resp) in
            let! notified := applyAssignment (Some raw) in
            do! loadCommittedOffsets coord in
            mwhen (negb notified) notifyAssigned
          else
            do! sleepCtx (200 * Millisecond) in
            join848_loop n' memberID coord
      end
  end.

Definition join848 : C unit :=
  do! Refresh topics in
  let! coord := coordinator in
  let! c := mget in
  do! mwhen (bool_decide (c_memberID c = []))
    (let! id := world (fun w => let '(w, id) := env_newMemberUUID w in (w, Ok id)) in mmod (with_member id)) in
  let! memberID := mgets c_memberID in
  do! join848_loop 30 memberID coord in
  ensureHeartbeat.

Definition reset848 : C unit :=
  mmod (fun c => with_coord None (with_generation 0 (with_assignments [] c))).

(** [heartbeat848] may rejoin, and joining ends with a heartbeat. *)
Fixpoint heartbeat848 (fuel : nat) : C unit :=
  let! c := mget in
  if bool_decide (c_memberID c = []) then mret tt else
  let! coord := coordinator in
  let! c' := mget in
  let! r := mtry (sendGroupHeartbeat848 coord
    (mkCGHRequest (c_group c) (c_memberID c) (c_generation c) None None 0 None None None
       (Some (ownedTopicPartitions848 c')))) in
  match r with
  | inl _ => mret tt
  | inr e =>
      if shouldRejoin848 e then
        match fuel with
        | O => merr Diverged
        | S f => do! reset848 in do! join848 in heartbeat848 f
        end
      else merr e
  end.

Definition joinAndAssign848 (fuel : nat) : C unit := do! join848 in heartbeat848 fuel.

Definition rejoin848 (fuel : nat) : C unit := do! reset848 in joinAndAssign848 fuel.

Definition leave848 : C unit :=
  let! c := mget in
  if bool_decide (c_memberID c = []) then mret tt else
  let! coord := coordinator in
  let! _ := sendGroupHeartbeat848 coord
    (mkCGHRequest (c_group c) (c_memberID c) (-1) None None 0 None None None None) in
  mret tt.

(** ** Both protocols *)

Definition joinAndAssign : C unit := if cc_NextGen cfg then joinAndAssign848 join_fuel else joinAndAssign_classic.

Definition heartbeat : C unit := if cc_NextGen cfg then heartbeat848 join_fuel else heartbeat_classic.

Definition rejoin : C unit :=
  do! mmod (fun c => with_coord None (with_assignments [] c)) in
  joinAndAssign.

(** One tick of [heartbeatLoop]. *)
Definition heartbeat_tick : C unit :=
  let! r := mtry heartbeat in
  match r with
  | inl _ => mret tt
  | inr e =>
      if cc_NextGen cfg then mignore (rejoin848 join_fuel)
      else mwhen (shouldRejoin e) (mignore rejoin)
  end.

Definition Leave : C unit :=
  do! stopHeartbeat in
  if cc_NextGen cfg then leave848 else
  let! c := mget in
  if bool_decide (c_memberID c = []) then mret tt else
  let! coord := coordinator in
  let! ver := NegotiatedVersion APILeaveGroup VerLeaveGroup in
  let! _ := Request coord APILeaveGroup ver
    (EncodeLeaveGroupRequest ver (c_group c) (c_memberID c) (cc_GroupInstanceID cfg)) in
  mret tt.

Definition Rebalance : C unit :=
  do! requireOpen in
  if bool_decide (cc_ConsumerGroup cfg = []) then merr ErrNoConsumerGroup else
  do! mmod (with_group (cc_ConsumerGroup cfg)) in
  do! notifyRevoked in
  if isCooperative then joinAndAssign else
  do! Leave in
  do! mmod (fun c => with_coord None (with_generation 0 (with_member [] (with_assignments [] c)))) in
  joinAndAssign.

Definition cooperativeRejoin : C unit := do! notifyRevoked in joinAndAssign.

(** ** Committing *)

Definition offsets_to_commit (records : list crecord) (c : consumer) : offset_map :=
  match records with
  | [] => assignment_offsets (c_assignments c)
  | _ => record_offsets records
  end.

(** [n] attempts remain: [attempt] is [20 - n], and [attempt + 1 < 20] when
    there is another one after this. *)
Fixpoint commit_loop (n : nat) (records : list crecord) : C unit :=
  match n with
  | O => mret tt
  | S n' =>
      do! requireOpen in
      let! c := mget in
      let offsets := offsets_to_commit records c in
      let! coord := coordinator in
      let! c := mget in
      let! ver := NegotiatedVersion APIOffsetCommit VerOffsetCommit in
      let! rb := Request coord APIOffsetCommit ver
        (EncodeOffsetCommitRequest ver (c_group c) (c_memberID c) (cc_GroupInstanceID cfg) (c_generation c) offsets) in
      let! code := mlift (DecodeOffsetCommitResponse ver rb) in
      if code =? 0 then mret tt else
      let ke := KafkaError code [] 0 in
      let failed := do! mwhen (CoordinatorRetriable code) invalidateCoordinator in merr ke in
      match n' with
      | O => failed
      | S _ =>
          if code =? 27 then do! sleepCtx (500 * Millisecond) in commit_loop n' records
          else if shouldRejoin ke then
            do! sleepCtx (200 * Millisecond) in
            do! rejoin in
            commit_loop n' records
          else failed
      end
  end.

Definition Commit (records : list crecord) : C unit := commit_loop 20 records.

(** ** Polling *)

(** The fetch plan: partitions per leader, paused ones left out. *)
Definition fetch_partition (c : consumer) (a : partitionOffset) : FetchPartition :=
  mkFetchPartition (a_topic a) (default zero_uuid (TopicIDByName (cluster c) (a_topic a))) (a_partition a) (a_offset a)
    (LeaderEpoch (cluster c) (a_topic a) (a_partition a)) (2 ^ 20).

Fixpoint plan (c : consumer) (l : list partitionOffset) (byNode : gmap Z (list FetchPartition))
    : res (gmap Z (list FetchPartition)) :=
  match l with
  | [] => Ok byNode
  | a :: rest =>
      if isPaused c (a_topic a) (a_partition a) then plan c rest byNode else
      match LeaderBroker (cluster c) (a_topic a) (a_partition a) with
      | None => Err (FmtError "broker: leader not found" (a_partition a))
      | Some b => plan c rest (push byNode (bm_NodeID b) (fetch_partition c a))
      end
  end.

Definition fetchFromBroker (node : Z) (parts : list FetchPartition) (maxRecords : Z) : C (list fetchItem) :=
  let! ver := NegotiatedVersion APIFetch VerFetch in
  let! rb := Request node APIFetch ver (EncodeFetchRequest ver parts 500 1 (50 * 2 ^ 20) isolation) in
  let! c := mget in
  let! fetched := mlift (DecodeFetchResponse ver rb (Some (TopicNameByID (cluster c)))) in
  mret (fetch_items maxRecords 0 fetched).

(** Every node is asked, whatever the others answer. *)
Fixpoint fetch_all (nodes : list (Z * list FetchPartition)) (maxRecords : Z) : C (list (list fetchItem + error)) :=
  match nodes with
  | [] => mret []
  | (node, parts) :: rest =>
      let! f := mtry (fetchFromBroker node parts maxRecords) in
      let! fs := fetch_all rest maxRecords in
      mret (f :: fs)
  end.

(** The items of all nodes, or the first error. *)
Fixpoint first_error (fs : list (list fetchItem + error)) : list (list fetchItem) + error :=
  match fs with
  | [] => inl []
  | inr e :: _ => inr e
  | inl items :: rest =>
      match first_error rest with
      | inl l => inl (items :: l)
      | inr e => inr e
      end
  end.

Definition maxPoll : Z := if cc_MaxPollRecords cfg <=? 0 then 500 else cc_MaxPollRecords cfg.

Definition advanceDelivered (fetchedFrom : list partitionOffset) (cursor : gmap partKey Z) : C unit :=
  mmod (fun c => with_assignments (advance fetchedFrom cursor (c_assignments c)) c).

(** A round of fetches. *)
Definition fetch_round : C (list (list fetchItem) + error) :=
  let! c := mget in
  let! byNode := mlift (plan c (c_assignments c) ∅) in
  let! fs := fetch_all (range byNode) maxPoll in
  mret (first_error fs).

Definition handleFetchRebalance : C unit := if isCooperative then cooperativeRejoin else Rebalance.

Definition join_if_needed : C unit :=
  do! requireOpen in
  if bool_decide (cc_ConsumerGroup cfg = []) then merr ErrNoConsumerGroup else
  do! mmod (with_group (cc_ConsumerGroup cfg)) in
  let! c := mget in
  mwhen (len (c_assignments c) =? 0) joinAndAssign.

(** [Poll], which calls itself after a rebalance; [fuel] bounds the
    rebalances the model follows. *)
Fixpoint Poll (fuel : nat) : C (list crecord) :=
  do! join_if_needed in
  let! assignments := mgets c_assignments in
  let! fetches := fetch_round in
  match fetches with
  | inl nodeItems =>
      let '(out, cursor) := aggregateFetches nodeItems maxPoll in
      do! advanceDelivered assignments cursor in
      mret out
  | inr ErrRebalanceInProgress =>
      match fuel with
      | O => merr Diverged
      | S f => do! handleFetchRebalance in Poll f
      end
  | inr ErrLeaderEpochChanged | inr ErrUnknownTopicID =>
      do! mignore (Refresh topics) in
      mret []
  | inr e => merr e
  end.

(** ** The runner *)

(** One pass of [Run]'s loop.  [process] is [processRecords]: it runs the
    user's handler on every record and returns the records in the order in
    which the handlers finished. *)
Definition run_once (fuel : nat) (process : list crecord -> res (list crecord)) : C unit :=
  let! recs := Poll fuel in
  if len recs =? 0 then mret tt else
  let! processed := mlift (process recs) in
  mwhen (cc_AutoCommit cfg) (Commit processed).
End consumer.
