(* ===== verification/ConsumerFacts.v ===== *)
(** What the group consumer guarantees: the records of a poll are a prefix of
    what was fetched and positions follow them, assignments follow the group's
    decision, committed offsets are loaded for every partition. *)

From Stdlib Require Import ZArith Lia Sorted.
From Stdlib Require Import Strings.Byte.
From stdpp Require Import base list gmap countable strings.
From S2P Require Import Prelude.
From S2P Require Import Wire.
From S2P Require Import Header.
From S2P Require Import Compress.
From S2P Require Import RecordBatch.
From S2P Require Import FetchCodec.
From S2P Require Import Assign.
From S2P Require Import Metadata.
From S2P Require Import Retry.
From S2P Require Import Producer.
From S2P Require Import OffsetCodec.
From S2P Require Import GroupCodec.
From S2P Require Import GoMonad.
From S2P Require Import Consumer.

Open Scope Z_scope.

(** * Delivery *)

(** The reference: the items up to and including the [n]-th data record. *)
Fixpoint upto_data (n : Z) (items : list fetchItem) : list fetchItem :=
  match items with
  | [] => []
  | it :: rest =>
      match it_rec it with
      | None => it :: upto_data n rest
      | Some _ => if n <=? 1 then [it] else it :: upto_data (n - 1) rest
      end
  end.

(** The position just past the last item of each partition. *)
Definition cursor_from (m : gmap partKey Z) (items : list fetchItem) : gmap partKey Z :=
  fold_left (fun m it => <[(it_topic it, it_partition it) := s64 (it_offset it + 1)]> m) items m.

Definition data_of (items : list fetchItem) : list crecord := omap it_rec items.

Lemma aggregate_items_spec maxPoll items out cursor :
  0 < maxPoll -> len out < maxPoll ->
  let pre := upto_data (maxPoll - len out) items in
  aggregate_items maxPoll items out cursor =
    (out ++ data_of pre, cursor_from cursor pre, maxPoll <=? len out + len (data_of items)).
Proof.
  intros Hm. revert out cursor. induction items as [|it items IH]; intros out cursor Ho; cbn zeta.
  - cbn. rewrite app_nil_r, len_nil. f_equal. symmetry. apply Z.leb_gt. lia.
  - cbn [aggregate_items upto_data]. unfold data_of. cbn [omap list_omap]. destruct (it_rec it) as [r|] eqn:Er.
    + assert (Hl : len (out ++ [r]) = len out + 1) by (rewrite len_app; done).
      destruct (Z.gtb_spec maxPoll 0); [|lia]. rewrite Hl. cbn [andb].
      destruct (Z.leb_spec (maxPoll - len out) 1); destruct (Z.geb_spec (len out + 1) maxPoll); try lia.
      * cbn [omap list_omap]. rewrite Er. f_equal. symmetry. apply Z.leb_le. rewrite len_cons.
        pose proof (len_nonneg (omap it_rec items)). lia.
      * rewrite IH by lia. cbn zeta. rewrite Hl. cbn [omap list_omap]. rewrite Er.
        replace (maxPoll - (len out + 1)) with (maxPoll - len out - 1) by lia.
        unfold data_of. rewrite <- app_assoc. f_equal. f_equal. rewrite len_cons. lia.
    + rewrite IH by done. cbn zeta. cbn [omap list_omap]. by rewrite Er.
Qed.

Lemma upto_data_app n l k : 0 < n ->
  upto_data n (l ++ k) = if n <=? len (data_of l) then upto_data n l else l ++ upto_data (n - len (data_of l)) k.
Proof.
  revert n. induction l as [|it l IH]; intros n Hn.
  - cbn [app]. change (data_of []) with (@nil crecord). rewrite len_nil, Z.sub_0_r.
    destruct (Z.leb_spec n 0); [lia|]. done.
  - cbn [app upto_data]. unfold data_of in *. cbn [omap list_omap]. destruct (it_rec it) as [r|].
    + rewrite len_cons. pose proof (len_nonneg (omap it_rec l)). destruct (Z.leb_spec n 1).
      * by destruct (Z.leb_spec n (1 + len (omap it_rec l))); [|lia].
      * rewrite IH by lia.
        destruct (Z.leb_spec (n - 1) (len (omap it_rec l))); destruct (Z.leb_spec n (1 + len (omap it_rec l))); try lia; [done|].
        f_equal. f_equal. f_equal. lia.
    + rewrite IH by done. by case_match.
Qed.

Lemma upto_data_all n l : 0 < n -> len (data_of l) < n -> upto_data n l = l.
Proof.
  intros Hn Hl. pose proof (upto_data_app n l [] Hn) as H. rewrite app_nil_r in H.
  destruct (Z.leb_spec n (len (data_of l))); [lia|]. cbn in H. by rewrite app_nil_r in H.
Qed.

Lemma data_app l k : data_of (l ++ k) = data_of l ++ data_of k.
Proof. apply omap_app. Qed.

Lemma aggregate_nodes_spec maxPoll nodeItems out cursor :
  0 < maxPoll -> len out < maxPoll ->
  let pre := upto_data (maxPoll - len out) (concat nodeItems) in
  aggregate_nodes maxPoll nodeItems out cursor = (out ++ data_of pre, cursor_from cursor pre).
Proof.
  intros Hm. revert out cursor. induction nodeItems as [|items rest IH]; intros out cursor Ho; cbn zeta.
  - cbn. by rewrite app_nil_r.
  - cbn [aggregate_nodes concat]. rewrite aggregate_items_spec by done. cbn zeta.
    rewrite upto_data_app by lia.
    destruct (Z.leb_spec maxPoll (len out + len (data_of items))); destruct (Z.leb_spec (maxPoll - len out) (len (data_of items)));
      try lia; [done|].
    rewrite upto_data_all by lia. rewrite IH by (rewrite len_app; lia). cbn zeta.
    rewrite len_app, Z.sub_add_distr, data_app, <- app_assoc. f_equal. unfold cursor_from. by rewrite fold_left_app.
Qed.

(** What [fetchFromBroker] keeps of a response is a prefix that no poll
    outruns. *)
Lemma fetch_items_upto n d fetched : 0 <= d < n ->
  fetch_items n d fetched = upto_data (n - d) (map to_item fetched).
Proof.
  revert d. induction fetched as [|fr rest IH]; intros d Hd; [done|]. cbn [fetch_items map upto_data].
  destruct (Z.gtb_spec n 0); [|lia]. cbn [andb]. unfold to_item at 2. cbn [it_rec].
  destruct (fr_Control fr) eqn:Ec.
  - destruct (Z.geb_spec d n); [lia|]. f_equal. by apply IH.
  - destruct (Z.leb_spec (n - d) 1); destruct (Z.geb_spec (d + 1) n); try lia; [done|].
    f_equal. rewrite IH by lia. f_equal. lia.
Qed.

Lemma upto_data_len n l : 0 < n -> n <= len (data_of l) -> len (data_of (upto_data n l)) = n.
Proof.
  revert n. induction l as [|it l IH]; intros n Hn Hl.
  - change (data_of []) with (@nil crecord) in Hl. rewrite len_nil in Hl. lia.
  - cbn [upto_data]. unfold data_of in *. cbn [omap list_omap] in Hl. destruct (it_rec it) as [r|] eqn:Er.
    + rewrite len_cons in Hl. destruct (Z.leb_spec n 1).
      * cbn [omap list_omap]. rewrite Er, len_cons, len_nil. lia.
      * cbn [omap list_omap]. rewrite Er, len_cons, IH by lia. lia.
    + cbn [omap list_omap]. rewrite Er. by apply IH.
Qed.

Lemma upto_data_upto n m l : 0 < n <= m -> upto_data n (upto_data m l) = upto_data n l.
Proof.
  revert n m. induction l as [|it l IH]; intros n m Hn; [done|]. cbn [upto_data]. destruct (it_rec it) as [r|] eqn:Er.
  - destruct (Z.leb_spec m 1); cbn [upto_data]; rewrite Er; destruct (Z.leb_spec n 1); try lia; [done|done|].
    f_equal. apply IH. lia.
  - cbn [upto_data]. rewrite Er. f_equal. by apply IH.
Qed.

(** Cutting every part to [n] data records does not change the first [n] of
    the whole. *)
Lemma upto_data_concat n m ls : 0 < n <= m ->
  upto_data n (concat (map (upto_data m) ls)) = upto_data n (concat ls).
Proof.
  revert n. induction ls as [|l ls IH]; intros n Hn; [done|]. cbn [map concat]. rewrite !upto_data_app by lia.
  destruct (Z.leb_spec m (len (data_of l))) as [Hm|Hm].
  - rewrite upto_data_len by lia. destruct (Z.leb_spec n m); [|lia]. destruct (Z.leb_spec n (len (data_of l))); [|lia].
    by apply upto_data_upto.
  - rewrite (upto_data_all m l) by lia. destruct (n <=? len (data_of l)) eqn:E; zbool; [done|]. f_equal. apply IH. pose proof (len_nonneg (data_of l)). lia.
Qed.

Lemma aggregate_reference_items maxPoll fetched :
  0 < maxPoll ->
  let pre := upto_data maxPoll (concat (map (map to_item) fetched)) in
  aggregateFetches (map (fetch_items maxPoll 0) fetched) maxPoll = (data_of pre, cursor_from ∅ pre).
Proof.
  intros Hm. cbn zeta. unfold aggregateFetches. rewrite aggregate_nodes_spec by (rewrite ?len_nil; lia). cbn zeta.
  rewrite len_nil, Z.sub_0_r. cbn [app].
  assert (map (fetch_items maxPoll 0) fetched = map (upto_data maxPoll) (map (map to_item) fetched)) as ->.
  { rewrite map_map. apply map_ext. intros l. rewrite fetch_items_upto by lia. by rewrite Z.sub_0_r. }
  by rewrite upto_data_concat by lia.
Qed.

(** C20: Delivery.  However many brokers a poll fetched from, and although each
    response is cut at [maxPoll] records before it is merged, a poll returns
    exactly the data records of the prefix of the fetched entries (in the order
    of the brokers) that ends with the [maxPoll]-th data record, or of all
    entries when there are fewer, and every partition's cursor is just past its
    last entry of that prefix: control markers after the last returned record are
    left for the next poll. *)
Theorem aggregate_reference maxPoll fetched :
  0 < maxPoll ->
  let pre := upto_data maxPoll (concat (map (map to_item) fetched)) in
  aggregateFetches (map (fetch_items maxPoll 0) fetched) maxPoll = (data_of pre, cursor_from ∅ pre).
Proof. apply aggregate_reference_items. Qed.

Definition sample_fetched (p off : Z) (control : bool) : FetchedRecord := mkFetchedRecord (str "t") p off [] [] [] 0 control 0.

(** Two brokers, a control record between the data, a poll of three. *)
Lemma aggregate_reference_witness :
  let fetched := [[sample_fetched 0 4 false; sample_fetched 0 5 true; sample_fetched 0 6 false];
                  [sample_fetched 1 9 false; sample_fetched 1 10 false]] in
  let '(recs, cursor) := aggregateFetches (map (fetch_items 3 0) fetched) 3 in
  0 < 3 /\ map (fun r => (cr_Partition r, cr_Offset r)) recs = [(0, 4); (0, 6); (1, 9)] /\
  cursor !! (str "t", 0) = Some 7 /\ cursor !! (str "t", 1) = Some 10.
Proof.
  cbv zeta. rewrite (aggregate_reference 3 [[sample_fetched 0 4 false; sample_fetched 0 5 true; sample_fetched 0 6 false];
     [sample_fetched 1 9 false; sample_fetched 1 10 false]]) by lia.
  split; [lia|]. split_and!; vm_compute; reflexivity.
Defined.

(** ** Positions *)

Lemma elem_of_concat {A} (x : A) ls : x ∈ concat ls <-> exists l, l ∈ ls /\ x ∈ l.
Proof. rewrite list_elem_of_In, in_concat. by setoid_rewrite list_elem_of_In. Qed.

Definition key_it (it : fetchItem) : partKey := (it_topic it, it_partition it).

(** Offsets of a partition's entries increase, and their successors are int64. *)
Definition increasing (items : list fetchItem) : Prop :=
  Forall (fun it => 0 <= it_offset it < 2 ^ 63 - 1) items /\
  forall k, StronglySorted (fun x y => it_offset x < it_offset y) (filter (fun it => key_it it = k) items).

(** A map filled by a loop holds the last entry of each key. *)
Lemma fold_insert_lookup {A K V} `{Countable K} (f : A -> K) (g : A -> V) l (m : gmap K V) k :
  fold_left (fun m x => <[f x := g x]> m) l m !! k =
  match last (filter (fun x => f x = k) l) with Some x => Some (g x) | None => m !! k end.
Proof.
  induction l as [|x l IH] using rev_ind; [done|]. rewrite fold_left_app. cbn [fold_left].
  rewrite filter_app, filter_cons. change (filter (fun x => f x = k) []) with (@nil A).
  destruct (decide (f x = k)) as [E|E].
  - rewrite last_snoc, <- E. apply lookup_insert_eq.
  - by rewrite app_nil_r, lookup_insert_ne.
Qed.

Lemma cursor_from_lookup items m k :
  cursor_from m items !! k =
  match last (filter (fun it => key_it it = k) items) with
  | Some it => Some (s64 (it_offset it + 1))
  | None => m !! k
  end.
Proof. apply (fold_insert_lookup key_it (fun it => s64 (it_offset it + 1))). Qed.

Lemma filter_unique {A K} `{EqDecision K} (f : A -> K) l x :
  NoDup (map f l) -> x ∈ l -> filter (fun y => f y = f x) l = [x].
Proof.
  induction l as [|y l IH]; intros Hnd Hx; [by apply not_elem_of_nil in Hx|]. cbn [map] in Hnd.
  apply NoDup_cons in Hnd as [Hy Hnd]. rewrite filter_cons. apply elem_of_cons in Hx as [->|Hx].
  - rewrite decide_True by done. f_equal. apply elem_of_nil_inv. intros z [E Hz]%list_elem_of_filter.
    apply Hy. rewrite <- E. by apply list_elem_of_fmap_2.
  - rewrite decide_False; [by apply IH|]. intros E. apply Hy. rewrite E. by apply list_elem_of_fmap_2.
Qed.

Lemma from_map_lookup l a : NoDup (map key_of_po l) -> a ∈ l -> from_map l !! key_of_po a = Some (a_offset a).
Proof. intros Hnd Ha. unfold from_map. rewrite (fold_insert_lookup key_of_po a_offset), filter_unique by done. done. Qed.

Lemma upto_data_prefix n items : exists rest, items = upto_data n items ++ rest.
Proof.
  revert n. induction items as [|it items IH]; intros n; [by exists []|]. cbn [upto_data]. destruct (it_rec it).
  - destruct (n <=? 1); [by exists items|]. destruct (IH (n - 1)) as [rest Hr]. exists rest. cbn [app]. by rewrite <- Hr.
  - destruct (IH n) as [rest Hr]. exists rest. cbn [app]. by rewrite <- Hr.
Qed.

Lemma sorted_app_lt {A} (R : A -> A -> Prop) l k x y :
  StronglySorted R (l ++ k) -> x ∈ l -> y ∈ k -> R x y.
Proof.
  induction l as [|z l IH]; intros Hs Hx Hy; [by apply not_elem_of_nil in Hx|].
  cbn [app] in Hs. apply StronglySorted_inv in Hs as [Hs Hall]. apply elem_of_cons in Hx as [->|Hx]; [|by apply IH].
  apply (proj1 (Forall_forall _ _) Hall). apply elem_of_app. by right.
Qed.

(** The cursor of a partition separates what is before the cut from what is
    after it. *)
Lemma cursor_cut pre rest it : increasing (pre ++ rest) -> it ∈ pre ++ rest ->
  it ∈ pre <-> exists n, cursor_from ∅ pre !! key_it it = Some n /\ it_offset it < n.
Proof.
  intros [Hr Hs] Hin. specialize (Hs (key_it it)). rewrite filter_app in Hs. rewrite cursor_from_lookup.
  set (l := filter (fun i => key_it i = key_it it) pre) in *.
  assert (Hsucc : forall x, x ∈ pre -> s64 (it_offset x + 1) = it_offset x + 1).
  { intros x Hx. rewrite Forall_forall in Hr. specialize (Hr x ltac:(apply elem_of_app; by left)).
    apply s64_id. unfold int64. lia. }
  assert (Hlast : forall x, last l = Some x -> x ∈ pre /\ x ∈ l).
  { intros x Hx. apply last_Some_elem_of in Hx. split; [|done]. by apply list_elem_of_filter in Hx as [_ ?]. }
  split.
  - intros Hit. assert (Hl : it ∈ l) by (apply list_elem_of_filter; done).
    destruct (last l) as [x|] eqn:Ex; [|apply last_None in Ex; rewrite Ex in Hl; by apply not_elem_of_nil in Hl].
    destruct (Hlast x eq_refl) as [Hx _]. eexists. split; [done|]. rewrite Hsucc by done.
    apply last_Some in Ex as [l' Hl']. rewrite Hl' in Hl, Hs. rewrite <- app_assoc in Hs. apply elem_of_app in Hl as [Hl|Hl].
    + pose proof (sorted_app_lt _ _ _ it x Hs Hl ltac:(left)) as Hx1. cbn beta in Hx1. lia.
    + apply list_elem_of_singleton in Hl as ->. lia.
  - intros (n & Hn & Hlt). destruct (last l) as [x|] eqn:Ex; [|done]. destruct (Hlast x eq_refl) as [Hx Hxl].
    injection Hn as <-. rewrite Hsucc in Hlt by done. apply elem_of_app in Hin as [Hin|Hin]; [done|]. exfalso.
    pose proof (sorted_app_lt _ _ _ x it Hs Hxl ltac:(apply list_elem_of_filter; done)) as Hx1. cbn beta in Hx1. lia.
Qed.

Section facts.
Context `{Codecs} `{MapOrder} {W : Type} `{ClusterEnv W} `{ConsumerEnv W}.
Context (cfg : ConsumerConfig) (topics : list bytes) (topicRegex : bytes) (join_fuel : nat).
Context (listener : option (RebalanceListener (W := W))).

Local Notation consumer := (Consumer W).

(** The calls of a fetch change only the world. *)
Definition same_consumer (c c' : consumer) : Prop := c' = with_world (c_world c') c.

#[export] Instance same_preorder : PreOrder same_consumer.
Proof.
  split.
  - intros c. unfold same_consumer. by destruct c.
  - intros c c1 c2 H1' H2'. unfold same_consumer in *. rewrite H2', H1'. done.
Qed.

Lemma keeps_world {A} (f : W -> W * res A) : Keeps same_consumer (world f).
Proof. intros c. unfold world. destruct (f (c_world c)). done. Qed.
#[local] Hint Resolve keeps_world : keeps.

Lemma keeps_request node api ver body : Keeps same_consumer (Request node api ver body).
Proof. unfold Request. solve_keeps. Qed.
#[local] Hint Resolve keeps_request : keeps.

Lemma keeps_refresh ts : Keeps same_consumer (Refresh ts).
Proof. apply keeps_world. Qed.
#[local] Hint Resolve keeps_refresh : keeps.

Lemma keeps_fetch node parts n : Keeps same_consumer (fetchFromBroker cfg node parts n).
Proof. unfold fetchFromBroker, NegotiatedVersion. solve_keeps. Qed.
#[local] Hint Resolve keeps_fetch : keeps.

Lemma keeps_fetch_all nodes n : Keeps same_consumer (fetch_all cfg nodes n).
Proof. induction nodes as [|[node parts] nodes IH]; cbn [fetch_all]; solve_keeps. Qed.
#[local] Hint Resolve keeps_fetch_all : keeps.

Lemma keeps_fetch_round : Keeps same_consumer (fetch_round cfg).
Proof. unfold fetch_round. solve_keeps. Qed.

(** [fetched] is the decoded answer of a node to the fetch of its partitions. *)
Definition answered (np : Z * list FetchPartition) (fetched : list FetchedRecord) : Prop :=
  exists w w' body rb,
    let ver := negotiatedVersion (env_versions w) APIFetch VerFetch in
    EncodeFetchRequest ver (snd np) 500 1 (50 * 2 ^ 20) (isolation cfg) = Ok body /\
    env_Request (fst np) APIFetch ver body w = (w', Ok rb) /\
    DecodeFetchResponse ver rb (Some (TopicNameByID (env_cluster w'))) = Ok fetched.

Lemma fetch_answered node parts n (c c' : consumer) items :
  fetchFromBroker cfg node parts n c = (c', Ok items) ->
  exists fetched, answered (node, parts) fetched /\ items = fetch_items n 0 fetched.
Proof.
  unfold fetchFromBroker, NegotiatedVersion, Request, world. intros Hf. minv Hf.
  destruct (EncodeFetchRequest _ parts _ _ _ _) as [body| |] eqn:Ebody; [|done|done].
  injection E0 as <- <-. destruct (env_Request node APIFetch _ body (c_world c)) as [w' r] eqn:Er.
  injection E as <- ->. cbn [c_world with_world cluster] in *. injection E1 as <- Hd.
  eexists. split; [|reflexivity]. exists (c_world c), w', body. eexists. split_and!; [exact Ebody|exact Er|exact Hd].
Qed.

(** The items of a successful round come from the nodes' answers. *)
Lemma fetch_all_decoded nodes n (c c' : consumer) fs l :
  fetch_all cfg nodes n c = (c', Ok fs) -> first_error fs = inl l ->
  exists fetched, Forall2 answered nodes fetched /\ l = map (fetch_items n 0) fetched.
Proof.
  revert c c' fs l. induction nodes as [|[node parts] nodes IH]; intros c c' fs l Hf Hl; cbn [fetch_all] in Hf.
  - minv Hf. apply inl_inj in Hl as <-. by exists [].
  - minv Hf. cbn [first_error] in Hl. destruct a as [items|e]; [|done].
    destruct (first_error a0) as [l'|] eqn:El; [|done]. apply inl_inj in Hl as <-.
    destruct (IH _ _ _ _ E0 El) as (fetched & Hall & ->).
    apply mtry_inv in E. destruct (fetch_answered _ _ _ _ _ _ E) as (fr & Hfr & ->).
    exists (fr :: fetched). split; [by constructor|done].
Qed.

(** The position a poll leaves a partition at. *)
Lemma advance_positions cursor l a : NoDup (map key_of_po l) -> a ∈ l ->
  advance_one (from_map l) cursor a =
    set_offset a (match cursor !! key_of_po a with Some n => Z.max n (a_offset a) | None => a_offset a end).
Proof.
  intros Hnd Ha. unfold advance_one. rewrite from_map_lookup by done. rewrite Z.eqb_refl. cbn [andb].
  destruct (cursor !! key_of_po a) as [n|]; [|by destruct a].
  destruct (Z.gtb_spec n (a_offset a)); [by rewrite Z.max_l by lia|rewrite Z.max_r by lia; by destruct a].
Qed.

Lemma advance_map cursor l : NoDup (map key_of_po l) ->
  advance l cursor l = map (fun a => set_offset a
    (match cursor !! key_of_po a with Some n => Z.max n (a_offset a) | None => a_offset a end)) l.
Proof.
  intros Hnd. unfold advance. case_bool_decide as E.
  - rewrite E. rewrite <- (map_id l) at 1. apply map_ext. intros a. rewrite lookup_empty. by destruct a.
  - apply list_fmap_ext. intros i a Ha. apply advance_positions; [done|]. by eapply list_elem_of_lookup_2.
Qed.

(** The consumer's position of a partition, and the fetched data records of
    it. *)
Definition fetched_of (a : partitionOffset) (fetched : list (list FetchedRecord)) (fr : FetchedRecord) : Prop :=
  fr ∈ concat fetched /\ fr_Control fr = false /\ (fr_Topic fr, fr_Partition fr) = key_of_po a.

Definition new_position (cursor : gmap partKey Z) (a : partitionOffset) : Z :=
  match cursor !! key_of_po a with Some n => Z.max n (a_offset a) | None => a_offset a end.

Lemma delivered_window n items a : increasing items ->
  let pre := upto_data n items in
  let new := new_position (cursor_from ∅ pre) a in
  a_offset a <= new /\
  (forall it, it ∈ items -> key_it it = key_of_po a -> a_offset a <= it_offset it < new -> it ∈ pre) /\
  (forall it, it ∈ pre -> key_it it = key_of_po a -> it_offset it < new).
Proof.
  intros Hi. cbn zeta. destruct (upto_data_prefix n items) as [rest Hr]. set (pre := upto_data n items) in *.
  rewrite Hr in Hi. unfold new_position. split; [case_match; lia|]. split.
  - intros it Hit Hk Hlt. rewrite Hr in Hit. apply (cursor_cut _ _ _ Hi Hit). rewrite Hk.
    destruct (cursor_from ∅ pre !! key_of_po a) as [m|]; [|lia]. exists m. split; [done|]. lia.
  - intros it Hit Hk. assert (Hin : it ∈ pre ++ rest) by (apply elem_of_app; by left).
    destruct (proj1 (cursor_cut _ _ _ Hi Hin) Hit) as (m & Hm & Hlt). rewrite Hk in Hm. rewrite Hm. lia.
Qed.

Lemma upto_data_le n l : 0 < n -> len (data_of (upto_data n l)) <= n.
Proof.
  intros Hn. destruct (Z.leb_spec n (len (data_of l))); [by rewrite upto_data_len by lia|].
  rewrite upto_data_all by lia. lia.
Qed.

Lemma maxPoll_pos : 0 < maxPoll cfg.
Proof. unfold maxPoll. destruct (Z.leb_spec (cc_MaxPollRecords cfg) 0); lia. Qed.

Lemma data_of_elem r items : r ∈ data_of items <-> exists it, it ∈ items /\ it_rec it = Some r.
Proof. unfold data_of. rewrite list_elem_of_omap. done. Qed.

Lemma item_record fetched it r : it ∈ concat (map (map to_item) fetched) -> it_rec it = Some r ->
  (cr_Topic r, cr_Partition r) = key_it it /\ cr_Offset r = it_offset it.
Proof.
  intros (l & (fl & -> & _)%list_elem_of_fmap & (fr & -> & _)%list_elem_of_fmap)%elem_of_concat.
  unfold to_item. cbn [it_rec]. destruct (fr_Control fr); [done|]. intros [= <-]. done.
Qed.

(** The run of a poll whose fetches succeed. *)
Lemma poll_run fuel (c c1 : consumer) nodeItems :
  env_open (c_world c) = true -> cc_ConsumerGroup cfg <> [] -> c_assignments c <> [] ->
  fetch_round cfg (with_group (cc_ConsumerGroup cfg) c) = (c1, Ok (inl nodeItems)) ->
  let ag := aggregateFetches nodeItems (maxPoll cfg) in
  Poll cfg topics topicRegex join_fuel listener fuel c =
    (with_assignments (advance (c_assignments c) (snd ag) (c_assignments c1)) c1, Ok (fst ag)).
Proof.
  intros Ho Hg Ha Hf. cbn zeta.
  assert (Hj : join_if_needed cfg topics topicRegex join_fuel listener c = (with_group (cc_ConsumerGroup cfg) c, Ok tt)).
  { unfold join_if_needed, requireOpen, mthen, mget. rewrite Ho. cbn [mret]. rewrite bool_decide_false by done.
    unfold mmod. cbn [c_assignments with_group]. destruct (c_assignments c); [done|].
    rewrite len_cons. pose proof (len_nonneg l). destruct (Z.eqb_spec (1 + len l) 0); [lia|done]. }
  destruct fuel; cbn [Poll]; unfold mthen at 1; rewrite Hj; unfold mthen at 1, mgets; cbn [c_assignments with_group];
    unfold mthen at 1; rewrite Hf; by destruct (aggregateFetches nodeItems (maxPoll cfg)).
Qed.

(** C15: No record is skipped and none is committed before it is returned.  A
    poll whose fetches succeed (every leader of the plan gives a decodable
    answer) moves each assigned partition's position
    forward (or leaves it); every fetched record of the partition between the
    old and the new position is among the records the poll returns, and every
    returned record of the partition is before the new position.  So the
    positions that a commit without arguments commits are those of the
    records handed out, whatever [max.poll.records] cuts off. *)
Theorem poll_no_gap fuel (c c1 : consumer) nodeItems :
  env_open (c_world c) = true -> cc_ConsumerGroup cfg <> [] -> c_assignments c <> [] ->
  NoDup (map key_of_po (c_assignments c)) ->
  fetch_round cfg (with_group (cc_ConsumerGroup cfg) c) = (c1, Ok (inl nodeItems)) ->
  exists byNode fetched recs c',
    plan (with_group (cc_ConsumerGroup cfg) c) (c_assignments c) ∅ = Ok byNode /\
    Forall2 answered (range byNode) fetched /\
    Poll cfg topics topicRegex join_fuel listener fuel c = (c', Ok recs) /\ len recs <= maxPoll cfg /\
    (increasing (concat (map (map to_item) fetched)) ->
     Forall2 (fun a a' => key_of_po a' = key_of_po a /\ a_offset a <= a_offset a' /\
       (forall fr, fetched_of a fetched fr -> a_offset a <= fr_Offset fr < a_offset a' -> to_record fr ∈ recs) /\
       (forall r, r ∈ recs -> (cr_Topic r, cr_Partition r) = key_of_po a -> cr_Offset r < a_offset a'))
       (c_assignments c) (c_assignments c')).
Proof.
  intros Ho Hg Ha Hnd Hf. pose proof (poll_run fuel c c1 nodeItems Ho Hg Ha Hf) as Hrun. cbn zeta in Hrun.
  pose proof (keeps_fetch_round (with_group (cc_ConsumerGroup cfg) c)) as Hk. rewrite Hf in Hk. cbn [fst] in Hk.
  assert (Hca : c_assignments c1 = c_assignments c) by (rewrite Hk; done).
  assert (exists byNode fetched, plan (with_group (cc_ConsumerGroup cfg) c) (c_assignments c) ∅ = Ok byNode /\
    Forall2 answered (range byNode) fetched /\ nodeItems = map (fetch_items (maxPoll cfg) 0) fetched)
    as (byNode & fetched & Hplan & Hans & ->).
  { unfold fetch_round in Hf. minv Hf. injection E as <- Hp. exists a.
    destruct (fetch_all_decoded _ _ _ _ _ _ E0 Hf) as (fetched & ? & ?). by exists fetched. }
  pose proof maxPoll_pos as Hp. set (n := maxPoll cfg) in *.
  rewrite (aggregate_reference_items n fetched Hp), Hca in Hrun. cbn [fst snd] in Hrun.
  rewrite advance_map in Hrun by done. eexists byNode, fetched, _, _. split; [done|]. split; [done|]. split; [exact Hrun|]. split; [by apply upto_data_le|].
  intros Hinc. cbn [c_assignments with_assignments]. rewrite Forall2_fmap_r. apply Forall_Forall2_diag, Forall_forall.
  intros a _. destruct (delivered_window n _ a Hinc) as (Hle & Hin & Hout). cbn [a_offset set_offset].
  split; [by destruct a|]. split; [exact Hle|]. split.
  - intros fr (Hfr & Hc & Hkey) Hwin. apply data_of_elem. exists (to_item fr). split; [|unfold to_item; by rewrite Hc].
    apply Hin; [|done|exact Hwin]. apply elem_of_concat in Hfr as (l & Hl & Hfr). apply elem_of_concat.
    exists (map to_item l). split; by apply list_elem_of_fmap_2.
  - intros r (it & Hit & Hr)%data_of_elem Hkey. destruct (upto_data_prefix n (concat (map (map to_item) fetched))) as [rest Hrest].
    assert (Hi : it ∈ concat (map (map to_item) fetched)) by (rewrite Hrest; apply elem_of_app; by left).
    destruct (item_record _ _ _ Hi Hr) as [Hk1 ->]. apply Hout; [done|]. by rewrite <- Hk1.
Qed.
End facts.
