(* ===== verification/ConsumerDemo.v ===== *)
(** The consumer in concrete environments: the in-process broker, and a broker
    that answers every fetch with the batch that holds the requested offset, as
    Kafka brokers do. *)

From Stdlib Require Import ZArith Lia Sorted.
From Stdlib Require Import Strings.Byte.
From stdpp Require Import base list gmap countable strings.
From S2P Require Import Prelude.
From S2P Require Import Wire.
From S2P Require Import Header.
From S2P Require Import Compress.
From S2P Require Import CompressFacts.
From S2P Require Import RecordBatch.
From S2P Require Import RecordBatchFacts.
From S2P Require Import ProduceCodec.
From S2P Require Import FetchCodec.
From S2P Require Import Kfake.
From S2P Require Import KfakeFacts.
From S2P Require Import EndToEnd.
From S2P Require Import Assign.
From S2P Require Import Metadata.
From S2P Require Import Retry.
From S2P Require Import Producer.
From S2P Require Import ProducerDemo.
From S2P Require Import OffsetCodec.
From S2P Require Import GroupCodec.
From S2P Require Import GoMonad.
From S2P Require Import Consumer.
From S2P Require Import ConsumerFacts.

Open Scope Z_scope.

#[local] Existing Instance stored_codecs.
#[local] Existing Instance kfake_env.

#[export] Instance demo_clock_env W : ConsumerEnv W := {|
  env_time _ := 1700000000000000000;
  env_newMemberUUID w := (w, str "AAAAAAAAAAAAAAAAAAAAAA") |}.

(** * Against the in-process broker *)

Definition consumer_cfg (maxPoll : Z) (assignor : PartitionAssignor) (beginning : bool) : ConsumerConfig :=
  mkConsumerConfig (str "g") maxPoll false assignor false 0 0 [] 0 beginning true (mkRetryConfig 5 0 0).

Definition three : list record :=
  [mkRecord (str "t") 0 (str "a") (str "zero") [] None;
   mkRecord (str "t") 0 (str "b") (str "one") [] None;
   mkRecord (str "t") 0 (str "c") (str "two") [] None].

(** A broker that holds one batch of three records, and a consumer on it. *)
Definition loaded : kworld :=
  p_world (fst (ProduceSyncResult demo_cfg
    (mkProducer (mkKworld (fst (createTopic (str "t") 1 (NewBroker (str "127.0.0.1") 9092))) empty_cluster 1) 0 None : Producer kworld Z)
    three)).

Definition fresh {W} (w : W) : Consumer W := mkConsumer w [] [] 0 None [] ∅ false.

Definition offsets_of (r : res (list crecord)) : res (list Z) := res_map (map cr_Offset) r.

Definition poll (cfg : ConsumerConfig) : M (Consumer kworld) (list crecord) := Poll cfg [str "t"] [] 3 None 3.

(** Join, fetch, commit; a second member of the group resumes after what the
    first one committed. *)
Example consume_and_resume :
  let cfg := consumer_cfg 500 AssignorRange true in
  let '(c1, r1) := poll cfg (fresh loaded) in
  let '(c2, r2) := Commit cfg [str "t"] [] 3 None [] c1 in
  let '(c3, r3) := poll cfg (fresh (c_world c2)) in
  offsets_of r1 = Ok [0; 1; 2] /\ r2 = Ok tt /\ offsets_of r3 = Ok [] /\
  c_assignments c3 = [mkPO (str "t") 0 3].
Proof. vm_compute. split_and!; reflexivity. Qed.

(** The fetch of the middle of a batch from the in-process broker: after a
    poll cut at two records, the third one is never fetched. *)
Example kfake_skips_tail :
  let cfg := consumer_cfg 2 AssignorRange true in
  let '(c1, r1) := poll cfg (fresh loaded) in
  let '(c2, r2) := poll cfg c1 in
  offsets_of r1 = Ok [0; 1] /\ offsets_of r2 = Ok [] /\ c_assignments c2 = [mkPO (str "t") 0 2].
Proof. vm_compute. split_and!; reflexivity. Qed.

(** * A broker that returns whole batches *)

(** Requests of each API are answered with [reply api]. *)
Definition replying_env (meta : MetadataResponse) (reply : Z -> bytes) : ClusterEnv unit := {|
  env_open _ := true;
  env_cluster _ := store_metadata meta;
  env_versions _ := Some kfake_versions;
  env_RefreshIfStale _ w := (w, Ok tt);
  env_Refresh _ w := (w, Ok tt);
  env_Request _ api _ _ w := (w, Ok (reply api));
  env_RequestViaSeed api _ _ w := (w, Ok (reply api));
  env_TransactionCoordinator _ w := (w, Err NetError);
  env_Invalidate _ w := w;
  env_ctx _ := None;
  env_sleep _ w := (w, None);
  env_now _ _ := 1700000000000;
  env_clock _ _ _ _ := 1700000000000 |}.

Definition constant_env (meta : MetadataResponse) (reply : bytes) : ClusterEnv unit := replying_env meta (fun _ => reply).

(** The fetch response with the batch of offsets 0, 1 and 2, which a broker
    sends for a fetch from any of these offsets. *)
Definition batch_reply : bytes :=
  bytes_of (write_fetch_response (kw_broker loaded) [(str "t", [(0, 0)])]).

Definition member {W} (w : W) (l : list partitionOffset) : Consumer W := mkConsumer w (str "g") (str "m") 1 (Some 1) l ∅ true.

Section whole_batches.
#[local] Instance batch_env : ClusterEnv unit := constant_env (one_partition 1) batch_reply.

Definition poll_two : M (Consumer unit) (list crecord) :=
  Poll (consumer_cfg 2 AssignorRange true) [str "t"] [] 3 None 3.

Lemma poll_two_start : poll_two (member tt [mkPO (str "t") 0 0]) =
  (member tt [mkPO (str "t") 0 2], snd (poll_two (member tt [mkPO (str "t") 0 0]))).
Proof. vm_compute. reflexivity. Qed.

Lemma poll_two_stuck : poll_two (member tt [mkPO (str "t") 0 2]) =
  (member tt [mkPO (str "t") 0 2], snd (poll_two (member tt [mkPO (str "t") 0 0]))).
Proof. vm_compute. reflexivity. Qed.

(** A batch longer than [max.poll.records] stalls its partition.  The
    consumer does not drop the records of a fetched batch that are before its
    position.  Against a broker that answers with the batch that holds the
    requested offset, a consumer that polls two records at a time from a batch
    of three returns records 0 and 1 in every poll, without end; record 2 is
    never returned. *)
Theorem whole_batch_livelock n :
  offsets_of (snd (poll_two (Nat.iter n (fun c => fst (poll_two c)) (member tt [mkPO (str "t") 0 0])))) = Ok [0; 1].
Proof.
  destruct n as [|n]; [vm_compute; reflexivity|].
  assert (Nat.iter (S n) (fun c => fst (poll_two c)) (member tt [mkPO (str "t") 0 0]) = member tt [mkPO (str "t") 0 2]) as ->.
  { induction n as [|n IH]; cbn [Nat.iter nat_rect].
    - by rewrite poll_two_start.
    - change (nat_rect _ _ _ n) with (Nat.iter n (fun c => fst (poll_two c)) (member tt [mkPO (str "t") 0 0])) in *.
      change (fst (poll_two (Nat.iter (S n) (fun c => fst (poll_two c)) (member tt [mkPO (str "t") 0 0]))) = member tt [mkPO (str "t") 0 2]).
      rewrite IH. by rewrite poll_two_stuck. }
  rewrite poll_two_stuck. vm_compute. reflexivity.
Qed.

(** The records of [batch_reply]. *)
Definition batch_records : list FetchedRecord :=
  match DecodeFetchResponse (negotiatedVersion (Some kfake_versions) APIFetch VerFetch) batch_reply (Some (TopicNameByID (store_metadata (one_partition 1)))) with
  | Ok l => l
  | _ => []
  end.

Lemma constant_request meta reply node api ver body w w' rb :
  @env_Request unit (constant_env meta reply) node api ver body w = (w', Ok rb) -> rb = reply.
Proof. cbn. by intros [= _ ->]. Qed.

Lemma batch_decoded w w' : DecodeFetchResponse (negotiatedVersion (@env_versions unit batch_env w) APIFetch VerFetch) batch_reply
  (Some (TopicNameByID (@env_cluster unit batch_env w'))) = Ok batch_records.
Proof. vm_compute. reflexivity. Qed.

Lemma batch_increasing : increasing (concat (map (map to_item) [batch_records])).
Proof.
  let x := eval vm_compute in (concat (map (map to_item) [batch_records])) in
    assert (concat (map (map to_item) [batch_records]) = x) as -> by (vm_compute; reflexivity).
  split; [repeat (apply Forall_cons; split; [cbn [it_offset]; lia|]); apply Forall_nil; exact I|].
  intros k. rewrite !filter_cons. unfold key_it. cbn [it_topic it_partition].
  destruct (decide _) as [Hk|Hk]; [|constructor].
  repeat (constructor; cbn [it_offset]; try lia).
Qed.

(** A poll of two records from a batch of three, from offset 0. *)
Lemma poll_no_gap_witness :
  let c := member tt [mkPO (str "t") 0 0] in
  exists recs c', poll_two c = (c', Ok recs) /\ len recs <= 2 /\
    Forall2 (fun a a' => key_of_po a' = key_of_po a /\ a_offset a <= a_offset a' /\
       (forall fr, fetched_of a [batch_records] fr -> a_offset a <= fr_Offset fr < a_offset a' -> to_record fr ∈ recs) /\
       (forall r, r ∈ recs -> (cr_Topic r, cr_Partition r) = key_of_po a -> cr_Offset r < a_offset a'))
       (c_assignments c) (c_assignments c').
Proof.
  cbn zeta. set (cfg := consumer_cfg 2 AssignorRange true).
  destruct (poll_no_gap cfg [str "t"] [] 3 None 3 (member tt [mkPO (str "t") 0 0])
    (member tt [mkPO (str "t") 0 0]) [fetch_items 2 0 batch_records]) as (byNode & fetched & recs & c' & Hplan & Hans & Hrun & Hlen & Hall).
  - reflexivity.
  - discriminate.
  - discriminate.
  - apply (bool_decide_unpack _). vm_compute. exact I.
  - vm_compute. reflexivity.
  - exists recs, c'. split; [exact Hrun|]. split; [exact Hlen|].
    assert (fetched = [batch_records]) as ->; [|apply Hall; exact batch_increasing].
    vm_compute in Hplan. injection Hplan as <-.
    inversion Hans as [|np fr l1 l2 Ha Hn Heq1 Heq2]; subst. inversion Hn; subst. f_equal.
    destruct Ha as (w & w' & body & rb & _ & Hreq & Hdec). cbn zeta in Hdec.
    apply constant_request in Hreq as ->. rewrite batch_decoded in Hdec. by apply Ok_inj in Hdec.
Defined.

End whole_batches.
