(* ===== verification/ConsumerGroupFacts.v ===== *)
(** How the consumer follows its group: the cooperative assignment, the
    committed offsets it starts from, and where the two fail to meet. *)

From Stdlib Require Import ZArith Lia.
From Stdlib Require Import Strings.Byte.
From stdpp Require Import base list gmap countable strings.
From S2P Require Import Prelude.
From S2P Require Import Wire.
From S2P Require Import Header.
From S2P Require Import Compress.
From S2P Require Import CompressFacts.
From S2P Require Import RecordBatch.
From S2P Require Import FetchCodec.
From S2P Require Import Kfake.
From S2P Require Import EndToEnd.
From S2P Require Import Assign.
From S2P Require Import Metadata.
From S2P Require Import Retry.
From S2P Require Import Producer.
From S2P Require Import ProducerDemo.
From S2P Require Import OffsetCodec.
From S2P Require Import GroupCodec.
From S2P Require Import GoMonad.
From S2P Require Import Consumer.
From S2P Require Import ConsumerFacts.
From S2P Require Import ConsumerDemo.

Open Scope Z_scope.

Section assignment.
Context {W : Type} `{MapOrder} `{ClusterEnv W} `{ConsumerEnv W}.
Context (listener : option (RebalanceListener (W := W))).

Local Notation consumer := (Consumer W).
Local Notation keys c := (map key_of_po (c_assignments c)).

(** The callbacks may seek ([R] compares keys) or leave the positions alone
    ([R] is equality); they do not change which partitions are assigned. *)
Definition callbacks_keep (R : list partitionOffset -> list partitionOffset -> Prop) : Prop :=
  match listener with
  | None => True
  | Some l => forall ps (c : consumer),
      R (c_assignments c) (c_assignments (OnPartitionsRevoked l ps c)) /\
      R (c_assignments c) (c_assignments (OnPartitionsAssigned l ps c))
  end.

Definition same_keys (l l' : list partitionOffset) : Prop := map key_of_po l' = map key_of_po l.

Lemma callbacks_keep_keys : callbacks_keep eq -> callbacks_keep same_keys.
Proof. unfold callbacks_keep, same_keys. destruct listener; [|done]. intros Hc ps c. destruct (Hc ps c) as [<- <-]. done. Qed.

Lemma key_kept newSet l : map key_of_po (kept_of newSet l) = filter (fun k => k ∈ newSet) (map key_of_po l).
Proof.
  unfold kept_of. induction l as [|a l IH]; [done|]. cbn [map]. rewrite !filter_cons.
  repeat case_decide; try contradiction; cbn [map]; by rewrite IH.
Qed.

Lemma fresh_keys (l : list partKey) : map key_of_po (map (fun k => mkPO (fst k) (snd k) 0) l) = l.
Proof. rewrite map_map. rewrite <- (map_id l) at 2. apply map_ext. by intros []. Qed.

(** The keys after an incremental assignment: kept ones first. *)
Lemma incremental_keys parsed (c : consumer) : callbacks_keep same_keys ->
  let new := parsed_partitions parsed in
  let kept := filter (fun k => k ∈ (list_to_set new : gset partKey)) (keys c) in
  keys (applyAssignmentIncremental listener parsed c) =
    kept ++ filter (fun k => k ∉ (list_to_set kept : gset partKey)) new.
Proof.
  intros Hl. cbn zeta. unfold applyAssignmentIncremental.
  set (new := parsed_partitions parsed). set (K := kept_of (list_to_set new) (c_assignments c)).
  set (c1 := with_assignments (K ++ drop (length K) (c_assignments c)) c).
  set (c2 := match listener with Some l => _ | None => c1 end).
  assert (Hc2 : keys c2 = keys c1).
  { unfold c2, callbacks_keep in *. destruct listener as [l|]; [|done]. case_bool_decide; [done|]. apply Hl. }
  assert (Hk : map key_of_po (take (length K) (c_assignments c2)) = map key_of_po K).
  { rewrite <- !firstn_map. rewrite Hc2. cbn [c_assignments c1 with_assignments]. rewrite map_app.
    rewrite take_app_le by (by rewrite length_map). apply take_ge. by rewrite length_map. }
  set (c3 := with_assignments _ c2).
  assert (Hc3 : keys c3 = map key_of_po K ++ filter (fun k => k ∉ (list_to_set (map key_of_po K) : gset partKey)) new).
  { cbn [c3 c_assignments with_assignments]. rewrite map_app, fresh_keys, Hk. done. }
  rewrite <- key_kept. etransitivity; [|exact Hc3]. destruct listener as [l|] eqn:El; [|done].
  case_bool_decide; [done|]. unfold callbacks_keep in Hl. rewrite El in Hl. apply Hl.
Qed.

(** Without seeks in the callbacks, the entries themselves. *)
Lemma incremental_entries parsed (c : consumer) : callbacks_keep eq ->
  let new := parsed_partitions parsed in
  let kept := kept_of (list_to_set new) (c_assignments c) in
  c_assignments (applyAssignmentIncremental listener parsed c) =
    kept ++ map (fun k => mkPO (fst k) (snd k) 0)
      (filter (fun k => k ∉ (list_to_set (map key_of_po kept) : gset partKey)) new).
Proof.
  intros Hl. cbn zeta. unfold applyAssignmentIncremental.
  set (K := kept_of (list_to_set (parsed_partitions parsed)) (c_assignments c)).
  set (c1 := with_assignments (K ++ drop (length K) (c_assignments c)) c).
  set (c2 := match listener with Some l => _ | None => c1 end).
  assert (Hc2 : c_assignments c2 = c_assignments c1).
  { unfold c2, callbacks_keep in *. destruct listener as [l|]; [|done]. case_bool_decide; [done|]. symmetry. apply Hl. }
  rewrite Hc2. cbn [c_assignments c1 with_assignments]. rewrite take_app_length.
  unfold callbacks_keep in Hl. destruct listener as [l|]; [|done]. case_bool_decide; [done|].
  by rewrite <- (proj2 (Hl _ _)).
Qed.

(** A cooperative rebalance keeps what it may keep.  Although the kept
    entries are written into the array that the callbacks still read, after
    [applyAssignmentIncremental] the consumer has exactly the partitions of the
    group's assignment, each once, whatever seeks the rebalance callbacks do;
    and when the callbacks do not seek, a partition that it already had keeps
    its position and a partition that is new to it starts at offset 0. *)
Theorem incremental_assignment parsed (c : consumer) :
  callbacks_keep same_keys -> NoDup (parsed_partitions parsed) -> NoDup (keys c) ->
  let c' := applyAssignmentIncremental listener parsed c in
  NoDup (keys c') /\
  (forall k, k ∈ keys c' <-> k ∈ parsed_partitions parsed) /\
  (callbacks_keep eq -> forall a, a ∈ c_assignments c' <->
     key_of_po a ∈ parsed_partitions parsed /\
     (a ∈ c_assignments c \/ key_of_po a ∉ keys c /\ a_offset a = 0)).
Proof.
  intros Hl Hn Ho. cbn zeta. set (new := parsed_partitions parsed) in *.
  assert (Hkept : forall k, k ∈ filter (fun k => k ∈ (list_to_set new : gset partKey)) (keys c) <-> k ∈ new /\ k ∈ keys c).
  { intros k. rewrite list_elem_of_filter, elem_of_list_to_set. done. }
  rewrite incremental_keys by done. fold new. split_and!.
  - apply NoDup_app. split_and!; [by apply NoDup_filter| |by apply NoDup_filter].
    intros k Hk [Hk' _]%list_elem_of_filter. rewrite elem_of_list_to_set in Hk'. done.
  - intros k. rewrite elem_of_app, Hkept, list_elem_of_filter, elem_of_list_to_set, Hkept.
    destruct (decide (k ∈ keys c)); naive_solver.
  - intros Hle a. rewrite incremental_entries by done. fold new. rewrite elem_of_app. unfold kept_of.
    rewrite list_elem_of_filter, elem_of_list_to_set. change (filter (fun a => key_of_po a ∈ (list_to_set new : gset partKey)) (c_assignments c)) with (kept_of (list_to_set new) (c_assignments c)).
    rewrite key_kept. setoid_rewrite list_elem_of_fmap. setoid_rewrite list_elem_of_filter. setoid_rewrite elem_of_list_to_set.
    setoid_rewrite Hkept. split.
    + intros [[Hk Ha]|(k & -> & Hk & Hnew)]; [naive_solver|]. destruct k as [t p]. cbn [fst snd a_offset] in *.
      change (key_of_po (mkPO t p 0)) with (t, p). split; [done|]. right. split; [|done]. intros Hin. apply Hk. split; [done|]. by apply list_elem_of_fmap.
    + intros [Hk [Ha|[Hno Hz]]]; [by left|]. right. exists (key_of_po a). split; [|split; [by intros [_ ?%list_elem_of_fmap]|done]].
      destruct a as [t p o]. cbn [a_offset] in Hz. by subst.
Qed.
End assignment.

(** Partition 0 is kept at offset 7, 1 is revoked, 2 is new. *)
Lemma incremental_assignment_witness :
  let l := Some (mkListener (W := unit) (fun _ c => c) (fun _ c => c)) in
  let c := member tt [mkPO (str "t") 0 7; mkPO (str "t") 1 4] in
  let parsed := [mkTPA (str "t") [0; 2]] in
  (mkPO (str "t") 0 7 ∈ c_assignments (applyAssignmentIncremental l parsed c)) /\
  (mkPO (str "t") 2 0 ∈ c_assignments (applyAssignmentIncremental l parsed c)) /\
  (str "t", 1) ∉ map key_of_po (c_assignments (applyAssignmentIncremental l parsed c)).
Proof.
  cbn zeta.
  destruct (incremental_assignment (Some (mkListener (W := unit) (fun _ c => c) (fun _ c => c)))
    [mkTPA (str "t") [0; 2]] (member tt [mkPO (str "t") 0 7; mkPO (str "t") 1 4])) as (_ & Hk & Ha).
  - done.
  - apply (bool_decide_unpack _). vm_compute. exact I.
  - apply (bool_decide_unpack _). vm_compute. exact I.
  - specialize (Ha ltac:(done)). split_and!.
    + apply Ha. split; [apply (bool_decide_unpack _); vm_compute; exact I|left; left].
    + apply Ha. split; [|right; split; [|done]]; apply (bool_decide_unpack _); vm_compute; exact I.
    + intros Hin%Hk. revert Hin. apply (bool_decide_unpack _). vm_compute. exact I.
Defined.

(** * Committed offsets *)

Section committed.
Context `{Codecs} `{MapOrder} {W : Type} `{ClusterEnv W} `{ConsumerEnv W}.
Context (cfg : ConsumerConfig).

Local Notation consumer := (Consumer W).

Definition key_of_co (co : CommittedOffset) : partKey := (co_Topic co, co_Partition co).

(** [co] is in an answer of node [coord] to an OffsetFetch request. *)
Definition fetched_offset (coord : Z) (body : Enc) (co : CommittedOffset) : Prop :=
  exists (w w' : W) b rb l, body = Ok b /\
    env_Request coord APIOffsetFetch VerOffsetFetchSingle b w = (w', Ok rb) /\
    DecodeOffsetFetchResponse VerOffsetFetchSingle rb = Ok l /\ co ∈ l.

(** [co] was applied: an answer without an error code, and the position set
    from it or reset by the configured policy. *)
Definition applied (from : CommittedOffset -> Prop) (k : partKey) : Prop :=
  exists co (c1 c2 : consumer), key_of_co co = k /\ co_ErrorCode co = 0 /\ from co /\
    applyCommittedOffset cfg co c1 = (c2, Ok tt) /\
    (0 <= co_Offset co -> c2 = fst (bumpOffset (co_Topic co) (co_Partition co) (co_Offset co) c1)).

Lemma apply_committed_resolves committed need (c c' : consumer) rest :
  apply_committed cfg committed need c = (c', Ok rest) ->
  rest ⊆ need /\ forall k, k ∈ need -> k ∉ rest -> applied (fun co => co ∈ committed) k.
Proof.
  revert need c. induction committed as [|co l IH]; intros need c Hr; cbn [apply_committed] in Hr.
  - minv Hr. split; [done|]. done.
  - assert (Hmono : forall k, applied (fun x => x ∈ l) k -> applied (fun x => x ∈ co :: l) k).
    { intros k (x & c1 & c2 & ? & ? & ? & ?). exists x, c1, c2. split_and!; try done; [by right|naive_solver..]. }
    case_bool_decide as Hin; [destruct (IH _ _ Hr) as [Hs Ha]; split; [done|]; eauto|].
    destruct (Z.eqb_spec (co_ErrorCode co) 0) as [E0|E0]; cbn [negb] in Hr.
    + minv Hr. destruct a. destruct (IH _ _ Hr) as [Hs Ha]. split; [set_solver|]. intros k Hk Hkr.
      destruct (decide (k = key_of_co co)) as [->|Hne].
      * exists co, c, s. split_and!; [done|done|by left|done|]. intros Ho. unfold applyCommittedOffset in E.
        destruct (Z.geb_spec (co_Offset co) 0); [|lia]. by rewrite E.
      * apply Hmono, Ha; [|done]. apply elem_of_difference. split; [done|]. by rewrite elem_of_singleton.
    + destruct (offsetFetchRetriable (co_ErrorCode co)); [|done].
      destruct (IH _ _ Hr) as [Hs Ha]. split; [done|]. eauto.
Qed.

Lemma load_loop_resolves n coord body need backoff (c c' : consumer) : n <> 0%nat ->
  load_loop cfg n coord body need backoff c = (c', Ok tt) ->
  forall k, k ∈ need -> applied (fetched_offset coord body) k.
Proof.
  revert need backoff c. induction n as [|n IH]; intros need backoff c Hn Hr k Hk; [done|].
  cbn [load_loop] in Hr. unfold Request, world in Hr. minv Hr. injection E1 as <- Hdec. injection E0 as <- Hbody.
  destruct (env_Request coord APIOffsetFetch VerOffsetFetchSingle a0 (c_world c)) as [w r] eqn:Er.
  injection E as <- ->. destruct (apply_committed_resolves _ _ _ _ _ E2) as [Hsub Hap].
  assert (Hfrom : forall k, applied (fun co => co ∈ a1) k -> applied (fetched_offset coord body) k).
  { intros k' (x & c1 & c2 & Hkey & Hcode & Hx & Happ). exists x, c1, c2. split_and!; [done|done| |naive_solver..].
    exists (c_world c), w, a0, a, a1. done. }
  destruct (decide (k ∈ a2)) as [Hk1|Hk1]; [|by apply Hfrom, Hap].
  case_bool_decide as He; [subst; by apply not_elem_of_empty in Hk1|].
  destruct n as [|n]; [done|]. minv Hr. by eapply IH.
Qed.

(** Polling starts only from resolved positions.  When
    [loadCommittedOffsets] returns without an error, every partition that was
    assigned got an answer without an error code from the coordinator, within
    the twenty requests, and was positioned by it: at the committed offset when
    there is one, by the reset policy otherwise.  A partition that the
    coordinator leaves out or keeps answering with a retriable error makes the
    call fail; none is left at its initial offset 0. *)
Theorem committed_offsets_loaded coord (c c' : consumer) :
  loadCommittedOffsets cfg coord c = (c', Ok tt) ->
  forall a, a ∈ c_assignments c ->
    applied (fetched_offset coord
      (EncodeOffsetFetchRequest VerOffsetFetchSingle (c_group c)
         (map (fun a => mkOffsetFetchPartition (a_topic a) (a_partition a)) (c_assignments c)) true))
      (key_of_po a).
Proof.
  unfold loadCommittedOffsets. intros Hr a Ha. minv Hr.
  destruct (Z.eqb_spec (len (c_assignments c)) 0) as [Hz|Hz].
  { apply len_zero in Hz. rewrite Hz in Ha. by apply not_elem_of_nil in Ha. }
  eapply load_loop_resolves; [|exact Hr|]; [done|]. rewrite elem_of_list_to_set. by apply list_elem_of_fmap_2.
Qed.
End committed.

(** * Concrete groups *)

#[local] Existing Instance stored_codecs.

(** Offset 5 is committed for partition 0 of "t". *)
Definition offsets_reply : bytes :=
  bytes_of (write_offset_fetch_response (mkGroupState {[str "t" := {[0 := 5]}]} [] None [] 0) 0 [(str "t", [0])]).

Section committed_witness.
#[local] Instance offsets_env : ClusterEnv unit := constant_env (one_partition 1) offsets_reply.

Lemma committed_offsets_loaded_witness :
  let cfg := consumer_cfg 500 AssignorRange true in
  let c := member tt [mkPO (str "t") 0 0] in
  loadCommittedOffsets cfg 1 c = (member tt [mkPO (str "t") 0 5], Ok tt) /\
  exists co (c1 c2 : Consumer unit), key_of_co co = (str "t", 0) /\ applyCommittedOffset cfg co c1 = (c2, Ok tt).
Proof.
  cbn zeta.
  assert (Hrun : loadCommittedOffsets (consumer_cfg 500 AssignorRange true) 1 (member tt [mkPO (str "t") 0 0]) =
    (member tt [mkPO (str "t") 0 5], Ok tt)) by (vm_compute; reflexivity).
  split; [exact Hrun|].
  assert (Hin : mkPO (str "t") 0 0 ∈ c_assignments (member tt [mkPO (str "t") 0 0])) by left.
  pose proof (committed_offsets_loaded _ _ _ _ Hrun _ Hin) as Ha. unfold applied in Ha.
  destruct Ha as (co & c1 & c2 & Hk & _ & _ & Ha & _). exists co, c1, c2. split; [exact Hk|exact Ha].
Defined.
End committed_witness.

(** A coordinator that is always found but answers every JoinGroup with
    COORDINATOR_NOT_AVAILABLE; the other requests are served. *)
Definition refused_join : bytes :=
  bytes_of (WriteInt32 0 +++ WriteInt16 15 +++ WriteInt32 (-1) +++ WriteCompactString [] +++ WriteCompactString [] +++
    WriteCompactString [] +++ WriteCompactArrayLen 0 +++ WriteEmptyTagSection).

Definition refusing_replies (api : Z) : bytes :=
  if api =? APIJoinGroup then refused_join
  else if api =? APIFindCoordinator then bytes_of (handleFindCoordinator (kw_broker loaded))
  else if api =? APIOffsetFetch then
    bytes_of (write_offset_fetch_response (mkGroupState {[str "t" := {[0 := 0]}]} [] None [] 0) 0 [(str "t", [0])])
  else batch_reply.

Section refused.
#[local] Instance refusing_env : ClusterEnv unit := replying_env (one_partition 1) refusing_replies.

(** A consumer that never joined consumes everything.  When each of the
    twenty JoinGroup attempts is refused with a retriable coordinator error,
    [joinAndAssign] does not fail: it takes the missing assignment for that of
    a single-member group, assigns itself every partition of its topics, and
    the poll returns their records, without a member id and at generation 0. *)
Theorem refused_join_takes_all :
  let '(c, r) := Poll (consumer_cfg 500 AssignorRange true) [str "t"] [] 3 None 3 (fresh tt) in
  offsets_of r = Ok [0; 1; 2] /\ AssignedPartitions c = [mkTP (str "t") 0 3] /\
  c_memberID c = [] /\ c_generation c = 0.
Proof. vm_compute. split_and!; reflexivity. Qed.
End refused.

(** ** Positions over a cooperative rebalance *)

#[local] Existing Instance kfake_env.

Definition produce_three (c : Consumer kworld) : Consumer kworld :=
  with_world (p_world (fst (ProduceSyncResult demo_cfg (mkProducer (c_world c) 0 None : Producer kworld Z) three))) c.

Definition empty_world : kworld :=
  mkKworld (fst (createTopic (str "t") 1 (NewBroker (str "127.0.0.1") 9092))) empty_cluster 1.

(** A cooperative rebalance moves the positions it should keep.
    [loadCommittedOffsets] repositions every assigned partition, the kept ones
    too.  A consumer that starts at the end of an empty partition, gets the
    first two of three records and has not committed yet, keeps the partition
    in a rebalance but is moved past the third record, which no poll returns. *)
Theorem cooperative_rebalance_skips :
  let cfg := consumer_cfg 2 AssignorCooperativeSticky false in
  let poll := Poll cfg [str "t"] [] 3 None 3 in
  let '(c1, r1) := poll (fresh empty_world) in
  let '(c2, r2) := poll (produce_three c1) in
  let '(c3, r3) := Rebalance cfg [str "t"] [] 3 None c2 in
  let '(c4, r4) := poll c3 in
  offsets_of r1 = Ok [] /\ offsets_of r2 = Ok [0; 1] /\ c_assignments c2 = [mkPO (str "t") 0 2] /\
  r3 = Ok tt /\ c_assignments c3 = [mkPO (str "t") 0 3] /\ offsets_of r4 = Ok [].
Proof. vm_compute. split_and!; reflexivity. Qed.
