(* ===== verification/Runner.v ===== *)
(** The handler goroutines of [Run]: [processRecords] and
    [processRecordsParallel] of [consumer_runner.go], and what [Commit] makes
    of the order in which handlers finish.

    A schedule of the goroutines is a sequence of steps.  A worker takes the
    next job, and later sends its outcome; the channel [results] and the slice
    [processed] hold the outcomes in the order in which they were added.  The
    handler is user code: [h r o] says that it may return [o] on [r]. *)

From Stdlib Require Import ZArith Lia Sorted.
From stdpp Require Import base list gmap relations strings.
From S2P Require Import Prelude.
From S2P Require Import Wire.
From S2P Require Import OffsetCodec.
From S2P Require Import Metadata.
From S2P Require Import Producer.
From S2P Require Import Consumer.
From S2P Require Import ConsumerFacts.

Open Scope Z_scope.

Section runner.
Context (h : crecord -> option error -> Prop).

(** ** The worker pool *)

Record pool := mkPool {
  jobs : list crecord;
  inflight : list crecord;
  results : list (crecord + error) }.

Definition result_of (r : crecord) (o : option error) : crecord + error :=
  match o with Some e => inr e | None => inl r end.

Inductive pool_step (workers : Z) : pool -> pool -> Prop :=
| pool_take r js infl rs : len infl < workers ->
    pool_step workers (mkPool (r :: js) infl rs) (mkPool js (infl ++ [r]) rs)
| pool_finish r o a b js rs : h r o ->
    pool_step workers (mkPool js (a ++ r :: b) rs) (mkPool js (a ++ b) (rs ++ [result_of r o])).

(** The loop over the closed [results]. *)
Fixpoint collect (rs : list (crecord + error)) : res (list crecord) :=
  match rs with
  | [] => Ok []
  | inr e :: _ => Err e
  | inl r :: rest => let? l := collect rest in Ok (r :: l)
  end.

(** ** One goroutine per record *)

Record fanout := mkFanout {
  running : list crecord;
  processed : list crecord;
  handlerErr : option error }.

Inductive fanout_step : fanout -> fanout -> Prop :=
| fanout_ok r a b ok e : h r None ->
    fanout_step (mkFanout (a ++ r :: b) ok e) (mkFanout (a ++ b) (ok ++ [r]) e)
| fanout_err r x a b ok e : h r (Some x) ->
    fanout_step (mkFanout (a ++ r :: b) ok e) (mkFanout (a ++ b) ok (Some (default x e))).

Definition processRecordsParallel (recs : list crecord) (out : res (list crecord)) : Prop :=
  exists ok e, rtc fanout_step (mkFanout recs [] None) (mkFanout [] ok e) /\
    out = match e with Some e => Err e | None => Ok ok end.

Definition processRecords (workers : Z) (recs : list crecord) (out : res (list crecord)) : Prop :=
  let workers := if workers <=? 0 then 1 else workers in
  if workers >=? len recs then processRecordsParallel recs out
  else exists rs, rtc (pool_step workers) (mkPool recs [] []) (mkPool [] [] rs) /\ out = collect rs.

(** ** Every schedule ends *)

Definition pool_work (p : pool) : nat := (2 * length (jobs p) + length (inflight p))%nat.

Lemma pool_step_work workers p q : pool_step workers p q -> (pool_work q < pool_work p)%nat.
Proof. intros []; unfold pool_work; cbn [jobs inflight length]; rewrite !length_app; cbn [length]; lia. Qed.

Lemma pool_progress workers p : 0 < workers -> (forall r, exists o, h r o) ->
  (jobs p = [] /\ inflight p = []) \/ exists q, pool_step workers p q.
Proof.
  intros Hw Hh. destruct p as [js [|r infl] rs].
  - destruct js as [|r js]; [by left|]. right. eexists. apply pool_take. rewrite len_nil. lia.
  - right. destruct (Hh r) as [o Ho]. eexists. by apply (pool_finish workers r o [] infl).
Qed.

(** ** What a schedule can return *)

Definition done_records (rs : list (crecord + error)) : list crecord :=
  omap (fun x => match x with inl r => Some r | inr _ => None end) rs.

Lemma collect_ok rs l : collect rs = Ok l -> rs = map inl l.
Proof.
  revert l. induction rs as [|[r|e] rs IH]; intros l H; cbn [collect] in H; [by simplify_eq| |done].
  destruct (collect rs) as [l'| |]; cbn in H; simplify_eq. cbn [map]. by rewrite (IH l').
Qed.

(** No record is lost and each one is handled once: the handled records are
    those of the finished goroutines. *)
Definition pool_inv (recs : list crecord) (p : pool) : Prop :=
  exists outs : list (crecord * option error),
    results p = map (fun x => result_of (fst x) (snd x)) outs /\
    Forall (fun x => h (fst x) (snd x)) outs /\
    map fst outs ++ inflight p ++ jobs p ≡ₚ recs.

Lemma pool_inv_step workers recs p q : pool_step workers p q -> pool_inv recs p -> pool_inv recs q.
Proof.
  intros Hs (outs & Hr & Hh & Hp). destruct Hs as [r js infl rs _|r o a b js rs Ho]; cbn [results inflight jobs] in *.
  - exists outs. split_and!; [done|done|]. cbn [inflight jobs]. by rewrite <- Hp, <- app_assoc.
  - exists (outs ++ [(r, o)]). cbn [results inflight jobs]. split_and!.
    + by rewrite map_app, Hr.
    + apply Forall_app. split; [done|]. by constructor.
    + rewrite <- Hp, map_app, <- !app_assoc. cbn [map fst app]. by rewrite <- (Permutation_middle a (b ++ js) r).
Qed.

Lemma pool_inv_rtc workers recs p q : rtc (pool_step workers) p q -> pool_inv recs p -> pool_inv recs q.
Proof. induction 1 as [|p1 p2 p3 Hs _ IH]; [done|]. intros Hi. apply IH. by eapply pool_inv_step. Qed.

Lemma pool_returns workers recs rs l :
  rtc (pool_step workers) (mkPool recs [] []) (mkPool [] [] rs) -> collect rs = Ok l ->
  l ≡ₚ recs /\ Forall (fun r => h r None) l.
Proof.
  intros Hr Hc%collect_ok. apply (pool_inv_rtc _ recs) in Hr; [|by exists []].
  destruct Hr as (outs & Ho & Hh & Hp). cbn [results inflight jobs] in *. rewrite !app_nil_r in Hp. rewrite Ho in Hc.
  assert (outs = map (fun r => (r, None)) l) as ->; [|rewrite map_map, map_id in Hp; rewrite Forall_fmap in Hh; done].
  clear -Hc. revert l Hc. induction outs as [|[r [e|]] outs IH]; intros [|x l] Ho; cbn in Ho; simplify_eq; [done|].
  cbn [map]. f_equal. by apply IH.
Qed.

(** One worker finishes jobs in the order of the queue. *)
Definition serial_inv (recs : list crecord) (p : pool) : Prop :=
  len (inflight p) <= 1 /\
  exists outs : list (crecord * option error),
    results p = map (fun x => result_of (fst x) (snd x)) outs /\ map fst outs ++ inflight p ++ jobs p = recs.

Lemma serial_inv_step recs p q : pool_step 1 p q -> serial_inv recs p -> serial_inv recs q.
Proof.
  intros Hs (Hl & outs & Hr & Hp). destruct Hs as [r js infl rs Hw|r o a b js rs Ho]; cbn [results inflight jobs] in *.
  - assert (infl = []) as -> by (apply len_zero; pose proof (len_nonneg infl); lia). split; [cbn [inflight app]; rewrite ?len_cons, len_nil; lia|]. by exists outs.
  - assert (a = [] /\ b = []) as [-> ->].
    { rewrite len_app, len_cons in Hl. pose proof (len_nonneg a). pose proof (len_nonneg b). split; apply len_zero; lia. }
    split; [cbn [inflight app]; rewrite ?len_cons, len_nil; lia|]. exists (outs ++ [(r, o)]). cbn [results inflight jobs app] in *. split; [by rewrite map_app, Hr|].
    by rewrite map_app, <- Hp, <- app_assoc.
Qed.

Lemma serial_inv_rtc recs p q : rtc (pool_step 1) p q -> serial_inv recs p -> serial_inv recs q.
Proof. induction 1 as [|p1 p2 p3 Hs _ IH]; [done|]. intros Hi. apply IH. by eapply serial_inv_step. Qed.

Lemma serial_returns recs rs l :
  rtc (pool_step 1) (mkPool recs [] []) (mkPool [] [] rs) -> collect rs = Ok l -> l = recs.
Proof.
  intros Hr Hc%collect_ok. apply (serial_inv_rtc recs) in Hr; [|split; [cbn [inflight]; rewrite len_nil; lia|by exists []]].
  destruct Hr as (_ & outs & Ho & Hp). cbn [results inflight jobs] in *. rewrite !app_nil_r in Hp. subst recs. rewrite Ho in Hc. clear Ho.
  revert l Hc. induction outs as [|[r [e|]] outs IH]; intros [|x l] Ho; cbn in Ho; simplify_eq; [done|].
  cbn [map fst]. f_equal. by apply IH.
Qed.

Definition fanout_inv (recs : list crecord) (p : fanout) : Prop :=
  handlerErr p = None -> Forall (fun r => h r None) (processed p) /\ processed p ++ running p ≡ₚ recs.

Lemma fanout_inv_rtc recs p q : rtc fanout_step p q -> fanout_inv recs p -> fanout_inv recs q.
Proof.
  induction 1 as [|p1 p2 p3 Hs _ IH]; [done|]. intros Hi. apply IH. clear IH.
  destruct Hs as [r a b ok e Hh|r x a b ok e Hh]; intros Hn; cbn [handlerErr processed running] in *; [|done].
  destruct (Hi Hn) as [Hd Hp]. cbn [processed running] in *. split; [apply Forall_app; split; [done|by constructor]|].
  rewrite <- Hp, <- app_assoc. cbn [app]. by rewrite <- (Permutation_middle a b r).
Qed.

Lemma parallel_returns recs l : processRecordsParallel recs (Ok l) -> l ≡ₚ recs /\ Forall (fun r => h r None) l.
Proof.
  intros (ok & e & Hr & Ho). destruct e; [done|]. simplify_eq. apply (fanout_inv_rtc recs) in Hr; [|intros _; split; [constructor|done]].
  destruct (Hr eq_refl) as [Hd Hp]. cbn [processed running] in *. by rewrite app_nil_r in Hp.
Qed.

Lemma process_returns workers recs l : processRecords workers recs (Ok l) -> l ≡ₚ recs /\ Forall (fun r => h r None) l.
Proof.
  unfold processRecords. intros Hp. destruct (_ >=? _); [by apply parallel_returns|].
  destruct Hp as (rs & Hr & Hc). by eapply pool_returns.
Qed.

Lemma process_serial workers recs l : workers <= 1 -> processRecords workers recs (Ok l) -> l = recs.
Proof.
  intros Hw Hp. pose proof Hp as [Hperm _]%process_returns. unfold processRecords in Hp.
  replace (if workers <=? 0 then 1 else workers) with 1 in Hp by (destruct (Z.leb_spec workers 0); lia).
  destruct (Z.geb_spec 1 (len recs)).
  - destruct recs as [|r [|x recs]]; [by apply Permutation_nil_r in Hperm|by apply Permutation_singleton_r in Hperm|].
    rewrite !len_cons in *. pose proof (len_nonneg recs). lia.
  - destruct Hp as (rs & Hr & Hc). by eapply serial_returns.
Qed.
End runner.

(** * What is committed *)

Definition offset_at (m : offset_map) (k : partKey) : option Z := m !! fst k ≫= fun parts => parts !! snd k.

Definition key_of_record (r : crecord) : partKey := (cr_Topic r, cr_Partition r).

Lemma put_offset_at m t p off k :
  offset_at (put_offset m t p off) k = if decide ((t, p) = k) then Some off else offset_at m k.
Proof.
  destruct k as [t' p']. unfold offset_at, put_offset. cbn [fst snd]. destruct (decide (t = t')) as [<-|Ht].
  - rewrite lookup_insert_eq. cbn. destruct (decide (p = p')) as [<-|Hp].
    + by rewrite lookup_insert_eq, decide_True.
    + rewrite lookup_insert_ne, decide_False by naive_solver. by destruct (m !! t).
  - by rewrite lookup_insert_ne, decide_False by naive_solver.
Qed.

(** The loop of [commitOffsets]: the last record of each partition decides. *)
Lemma record_offsets_last l k :
  offset_at (record_offsets l) k =
  (fun r => s64 (cr_Offset r + 1)) <$> last (filter (fun r => key_of_record r = k) l).
Proof.
  unfold record_offsets. induction l as [|r l IH] using rev_ind; [done|]. rewrite fold_left_app. cbn [fold_left].
  rewrite put_offset_at, filter_app, filter_cons. change (filter (fun r => key_of_record r = k) []) with (@nil crecord).
  change (cr_Topic r, cr_Partition r) with (key_of_record r).
  repeat case_decide; try contradiction; [by rewrite last_snoc|by rewrite app_nil_r].
Qed.

(** C34: The runner commits what it has processed.  Whatever the number of
    workers and their schedule, when [processRecords] returns without an error
    every polled record was passed to the handler exactly once and succeeded;
    [Commit] then commits, for exactly the partitions of the polled records,
    the successor of the offset of a processed record.  With one worker (the
    default) the handlers finish in the order of the poll, so that record is
    the last one of its partition. *)
Theorem runner_commits_processed h workers recs l :
  processRecords h workers recs (Ok l) ->
  l ≡ₚ recs /\ Forall (fun r => h r None) recs /\
  (forall k off, offset_at (record_offsets l) k = Some off ->
     exists r, r ∈ recs /\ key_of_record r = k /\ off = s64 (cr_Offset r + 1)) /\
  (forall r, r ∈ recs -> is_Some (offset_at (record_offsets l) (key_of_record r))) /\
  (workers <= 1 -> forall k, offset_at (record_offsets l) k =
     (fun r => s64 (cr_Offset r + 1)) <$> last (filter (fun r => key_of_record r = k) recs)).
Proof.
  intros Hp. destruct (process_returns h workers recs l Hp) as [Hperm Hh]. split; [done|]. split; [by rewrite <- Hperm|].
  split_and!.
  - intros k off Ho. rewrite record_offsets_last in Ho. apply fmap_Some in Ho as (r & Hr & ->).
    apply last_Some_elem_of, list_elem_of_filter in Hr as [Hk Hr]. exists r. by rewrite <- Hperm.
  - intros r Hr. rewrite record_offsets_last. destruct (last _) eqn:El; [by eexists|].
    apply last_None in El. rewrite <- Hperm in Hr.
    assert (Hin : r ∈ filter (fun x => key_of_record x = key_of_record r) l) by (by apply list_elem_of_filter).
    rewrite El in Hin. by apply not_elem_of_nil in Hin.
  - intros Hw k. rewrite (process_serial h workers recs l Hw Hp). apply record_offsets_last.
Qed.

Definition sample_record (off : Z) : crecord := mkCRecord (str "t") 0 off [] [] [] 0.

Lemma two_records_reordered :
  processRecords (fun _ o => o = None) 2 [sample_record 0; sample_record 1] (Ok [sample_record 1; sample_record 0]).
Proof.
  exists [sample_record 1; sample_record 0], None. split; [|done].
  eapply rtc_l; [apply (fanout_ok _ (sample_record 1) [sample_record 0] []); done|].
  eapply rtc_l; [apply (fanout_ok _ (sample_record 0) [] []); done|]. apply rtc_refl.
Qed.

Lemma runner_commits_processed_witness :
  [sample_record 1; sample_record 0] ≡ₚ [sample_record 0; sample_record 1].
Proof. exact (proj1 (runner_commits_processed _ 2 _ _ two_records_reordered)). Defined.

(** A concurrent runner can commit backwards.  With two workers and two
    records of a partition whose handlers finish in the reverse order, both
    records are processed and the offset that is committed is that of the
    second record, not the one after it. *)
Theorem concurrent_commit_regresses :
  exists l, processRecords (fun _ o => o = None) 2 [sample_record 0; sample_record 1] (Ok l) /\
    offset_at (record_offsets l) (str "t", 0) = Some 1 /\
    offset_at (record_offsets [sample_record 0; sample_record 1]) (str "t", 0) = Some 2.
Proof. exists [sample_record 1; sample_record 0]. split; [exact two_records_reordered|]. split; vm_compute; reflexivity. Qed.
