(* ===== verification/TxnCodec.v ===== *)
(** The transaction requests and responses of [internal/protocol/transaction.go]:
    EndTxn, AddPartitionsToTxn, AddOffsetsToTxn and TxnOffsetCommit
    (InitProducerID is in [Producer]). *)

From Stdlib Require Import ZArith Lia.
From Stdlib Require Import Strings.Byte.
From stdpp Require Import base list gmap countable strings.
From S2P Require Import Prelude.
From S2P Require Import Wire.
From S2P Require Import Header.
From S2P Require Import Metadata.
From S2P Require Import Producer.
From S2P Require Import OffsetCodec.

Open Scope Z_scope.

Definition VerAddOffsetsToTxn := 3.
Definition VerTxnOffsetCommit := 3.
Definition VerAddPartitionsTxn := 1.
Definition VerEndTxn := 5.

(** * EndTxn *)

Definition encodeEndTxnLegacy (txnID : bytes) (producerID epoch : Z) (commit : bool) : Enc :=
  WriteString txnID +++ WriteInt64 producerID +++ WriteInt16 epoch +++ WriteBool commit.

Definition encodeEndTxnFlex (txnID : bytes) (producerID epoch : Z) (commit : bool) : Enc :=
  WriteCompactString txnID +++ WriteInt64 producerID +++ WriteInt16 epoch +++ WriteBool commit +++ WriteEmptyTagSection.

Definition EncodeEndTxn (ver : Z) (txnID : bytes) (producerID epoch : Z) (commit : bool) : Enc :=
  let ver := if ver <=? 0 then VerEndTxn else ver in
  if ver >=? 3 then encodeEndTxnFlex txnID producerID epoch commit
  else encodeEndTxnLegacy txnID producerID epoch commit.

Record EndTxnResult := mkEndTxnResult { et_Code : Z; et_ProducerID : Z; et_ProducerEpoch : Z }.

Definition read_end_txn (version : Z) : Rd EndTxnResult :=
  ReadInt32 ;;;
  code <- ReadInt16 ;;
  ids <- (if version >=? 5 then pid <- ReadInt64 ;; epoch <- ReadInt16 ;; ret (pid, epoch) else ret (-1, -1)) ;;
  rd_if (version >=? 3) SkipTagSection ;;;
  ret (mkEndTxnResult code (fst ids) (snd ids)).

Definition DecodeEndTxn (version : Z) (body : bytes) : res EndTxnResult :=
  run (read_end_txn (if version <=? 0 then VerEndTxn else version)) body.

(** * AddPartitionsToTxn *)

Record TxnTopicPartitions := mkTxnTopicPartitions { ttp_Topic : bytes; ttp_Partitions : list Z }.

Definition encodeAddPartitionsToTxnLegacy (txnID : bytes) (producerID epoch : Z) (topics : list TxnTopicPartitions) : Enc :=
  WriteString txnID +++ WriteInt64 producerID +++ WriteInt16 epoch +++ WriteInt32 (s32 (len topics)) +++
  enc_list (fun tp =>
    WriteString (ttp_Topic tp) +++ WriteInt32 (s32 (len (ttp_Partitions tp))) +++
    enc_list WriteInt32 (ttp_Partitions tp)) topics.

Definition encodeAddPartitionsToTxnFlex (txnID : bytes) (producerID epoch : Z) (topics : list TxnTopicPartitions) : Enc :=
  WriteCompactString txnID +++ WriteInt64 producerID +++ WriteInt16 epoch +++ WriteCompactArrayLen (len topics) +++
  enc_list (fun tp =>
    WriteCompactString (ttp_Topic tp) +++ WriteCompactArrayLen (len (ttp_Partitions tp)) +++
    enc_list WriteInt32 (ttp_Partitions tp) +++ WriteEmptyTagSection) topics +++
  WriteEmptyTagSection.

Definition EncodeAddPartitionsToTxn (txnID : bytes) (producerID epoch : Z) (topics : list TxnTopicPartitions) : Enc :=
  if VerAddPartitionsTxn >=? 3 then encodeAddPartitionsToTxnFlex txnID producerID epoch topics
  else encodeAddPartitionsToTxnLegacy txnID producerID epoch topics.

(** The loops are those of the OffsetCommit response: the first error code of
    a partition ends them. *)
Definition decodeAddPartitionsToTxnLegacy : Rd Z :=
  ReadInt32 ;;;
  nTopics <- ReadInt32 ;;
  r <- rd_for_brk nTopics commit_topic_legacy 0 ;;
  ret (fst r).

Definition decodeAddPartitionsToTxnFlex : Rd Z :=
  ReadInt32 ;;;
  nTopics <- ReadUvarint ;;
  r <- rd_for_brk (nTopics - 1) commit_topic_flex 0 ;;
  if snd r then ret (fst r) else
  SkipTagSection ;;;
  ret 0.

Definition DecodeAddPartitionsToTxn (body : bytes) : res Z :=
  if VerAddPartitionsTxn >=? 3 then run decodeAddPartitionsToTxnFlex body else run decodeAddPartitionsToTxnLegacy body.

(** * AddOffsetsToTxn *)

Definition EncodeAddOffsetsToTxn (ver : Z) (txnID : bytes) (producerID epoch : Z) (groupID : bytes) : Enc :=
  let ver := if ver <=? 0 then VerAddOffsetsToTxn else ver in
  if ver >=? 3 then
    WriteCompactString txnID +++ WriteInt64 producerID +++ WriteInt16 epoch +++ WriteCompactString groupID +++
    WriteEmptyTagSection
  else WriteString txnID +++ WriteInt64 producerID +++ WriteInt16 epoch +++ WriteString groupID.

Definition decodeAddOffsetsToTxnLegacy : Rd Z := ReadInt32 ;;; ReadInt16.

Definition decodeAddOffsetsToTxnFlex : Rd Z :=
  ReadInt32 ;;;
  code <- ReadInt16 ;;
  SkipTagSection ;;;
  ret code.

(** A legacy response that does not parse is tried as a flexible one. *)
Definition or_else {A} (r : res A) (alt : res A) : res A :=
  match r with Err _ => alt | r => r end.

Definition DecodeAddOffsetsToTxn (ver : Z) (body : bytes) : res Z :=
  let ver := if ver <=? 0 then VerAddOffsetsToTxn else ver in
  if ver >=? 3 then run decodeAddOffsetsToTxnFlex body
  else or_else (run decodeAddOffsetsToTxnLegacy body) (run decodeAddOffsetsToTxnFlex body).

(** * TxnOffsetCommit *)

Record TxnOffsetCommitMeta := mkTxnMeta { tm_Generation : Z; tm_MemberID : bytes; tm_GroupInstanceID : bytes }.

Record TxnCommittedOffset := mkTxnOffset { to_Topic : bytes; to_Partition : Z; to_Offset : Z }.

Definition txnOffsetsByTopic (offsets : list TxnCommittedOffset) : gmap bytes (list TxnCommittedOffset) :=
  fold_left (fun m o => push m (to_Topic o) o) offsets ∅.

Section txn_commit.
Context `{MapOrder}.

Definition txnOffsetTopicOrder (byTopic : gmap bytes (list TxnCommittedOffset)) : list (bytes * list TxnCommittedOffset) :=
  range byTopic.

Definition encodeTxnOffsetCommitLegacy (ver : Z) (txnID groupID : bytes) (producerID epoch : Z)
    (offsets : list TxnCommittedOffset) : Enc :=
  let order := txnOffsetTopicOrder (txnOffsetsByTopic offsets) in
  WriteString txnID +++ WriteString groupID +++ WriteInt64 producerID +++ WriteInt16 epoch +++
  WriteInt32 (s32 (len order)) +++
  enc_list (fun tp =>
    WriteString (fst tp) +++ WriteInt32 (s32 (len (snd tp))) +++
    enc_list (fun p =>
      WriteInt32 (to_Partition p) +++ WriteInt64 (to_Offset p) +++ enc_if (ver >=? 2) (WriteInt32 (-1)) +++
      WriteNullableString None) (snd tp)) order.

Definition encodeTxnOffsetCommitFlex (ver : Z) (txnID groupID : bytes) (producerID epoch : Z)
    (meta : TxnOffsetCommitMeta) (offsets : list TxnCommittedOffset) : Enc :=
  let order := txnOffsetTopicOrder (txnOffsetsByTopic offsets) in
  WriteCompactString txnID +++ WriteCompactString groupID +++ WriteInt64 producerID +++ WriteInt16 epoch +++
  enc_if (ver >=? 3)
    (WriteInt32 (tm_Generation meta) +++ WriteCompactString (tm_MemberID meta) +++
     (if bool_decide (tm_GroupInstanceID meta = []) then WriteUvarint 0 else WriteCompactString (tm_GroupInstanceID meta))) +++
  WriteCompactArrayLen (len order) +++
  enc_list (fun tp =>
    WriteCompactString (fst tp) +++ WriteCompactArrayLen (len (snd tp)) +++
    enc_list (fun p =>
      WriteInt32 (to_Partition p) +++ WriteInt64 (to_Offset p) +++ enc_if (ver >=? 2) (WriteInt32 (-1)) +++
      WriteCompactNullableString None +++ WriteEmptyTagSection) (snd tp) +++
    WriteEmptyTagSection) order +++
  WriteEmptyTagSection.

Definition EncodeTxnOffsetCommit (ver : Z) (txnID groupID : bytes) (producerID epoch : Z)
    (meta : TxnOffsetCommitMeta) (offsets : list TxnCommittedOffset) : Enc :=
  let ver := if ver <=? 0 then VerTxnOffsetCommit else ver in
  if ver >=? 3 then encodeTxnOffsetCommitFlex ver txnID groupID producerID epoch meta offsets
  else encodeTxnOffsetCommitLegacy ver txnID groupID producerID epoch offsets.
End txn_commit.

Definition decodeTxnOffsetCommitLegacy : Rd Z :=
  ReadInt32 ;;;
  nTopics <- ReadInt32 ;;
  r <- rd_for_brk nTopics commit_topic_legacy 0 ;;
  ret (fst r).

Definition decodeTxnOffsetCommitFlex : Rd Z :=
  ReadInt32 ;;;
  nTopics <- ReadUvarint ;;
  r <- rd_for_brk (nTopics - 1) commit_topic_flex 0 ;;
  if snd r then ret (fst r) else
  SkipTagSection ;;;
  ret 0.

Definition DecodeTxnOffsetCommit (ver : Z) (body : bytes) : res Z :=
  let ver := if ver <=? 0 then VerTxnOffsetCommit else ver in
  if ver >=? 3 then run decodeTxnOffsetCommitFlex body
  else or_else (run decodeTxnOffsetCommitLegacy body) (run decodeTxnOffsetCommitFlex body).

(** * Safety of the decoders *)

Lemma end_txn_safe ver body : DecodeEndTxn ver body <> Panic.
Proof. apply safe_run. unfold read_end_txn. solve_safe. Qed.

Lemma safe_codes_legacy : Safe decodeAddPartitionsToTxnLegacy.
Proof. unfold decodeAddPartitionsToTxnLegacy, commit_topic_legacy, commit_code_legacy. solve_safe. Qed.

Lemma safe_codes_flex : Safe decodeTxnOffsetCommitFlex.
Proof. unfold decodeTxnOffsetCommitFlex, commit_topic_flex, commit_code_flex. solve_safe. Qed.

Lemma add_partitions_safe body : DecodeAddPartitionsToTxn body <> Panic.
Proof. apply (safe_run _ body safe_codes_legacy). Qed.

Lemma or_else_safe {A} (r alt : res A) : r <> Panic -> alt <> Panic -> or_else r alt <> Panic.
Proof. by destruct r. Qed.

Lemma add_offsets_safe ver body : DecodeAddOffsetsToTxn ver body <> Panic.
Proof.
  assert (Hf : run decodeAddOffsetsToTxnFlex body <> Panic) by (apply safe_run; unfold decodeAddOffsetsToTxnFlex; solve_safe).
  unfold DecodeAddOffsetsToTxn. destruct (_ >=? 3); [done|]. apply or_else_safe; [|done]. apply safe_run.
  unfold decodeAddOffsetsToTxnLegacy. solve_safe.
Qed.

Lemma txn_offset_commit_safe ver body : DecodeTxnOffsetCommit ver body <> Panic.
Proof.
  unfold DecodeTxnOffsetCommit. destruct (_ >=? 3); [|apply or_else_safe]; [apply safe_run, safe_codes_flex| |apply safe_run, safe_codes_flex].
  apply (safe_run _ body safe_codes_legacy).
Qed.
