(* ===== verification/Transaction.v ===== *)
(** The transactional producer: [transaction.go], with the cached producer id of
    [producer.go].

    A method is an [M TransactionalProducer A].  The state holds the producer it
    was begun on ([t_prod], with the world behind it) and that producer's
    [txnPID] ([t_cached], [None] when [txnPIDValid] is false).  The mutex makes
    the methods run one at a time.  The finalized feature levels of the cluster
    are the class [FeatureEnv]. *)

From Stdlib Require Import ZArith Lia.
From Stdlib Require Import Strings.Byte.
From stdpp Require Import base list gmap countable strings.
From S2P Require Import Prelude.
From S2P Require Import Wire.
From S2P Require Import Header.
From S2P Require Import Compress.
From S2P Require Import RecordBatch.
From S2P Require Import ProduceCodec.
From S2P Require Import Metadata.
From S2P Require Import SeqState.
From S2P Require Import Retry.
From S2P Require Import Producer.
From S2P Require Import OffsetCodec.
From S2P Require Import TxnCodec.
From S2P Require Import GoMonad.

Open Scope Z_scope.

Class FeatureEnv (W : Type) := env_Feature : bytes -> W -> option Z.

Definition ErrNoTransactionalID : error := FmtError "gokafka: transactional id is required when transactions are enabled" 0.
Definition ErrTransactionAborted : error := FmtError "gokafka: transaction aborted" 0.
Definition ErrTxnNoGroup : error := FmtError "gokafka: consumer group is required" 0.
Definition ErrTxnClosed : error := FmtError "gokafka: client is closed" 0.

Record TransactionalProducer (W PS : Type) := mkTxn {
  t_prod : Producer W PS;
  t_cached : option ProducerID;
  t_txnID : bytes;
  t_pid : ProducerID;
  t_idState : State;
  t_registered : gset partKey;
  t_registeredGroups : gset bytes;
  t_coordinator : Z;
  t_open : bool;
  t_tv2 : bool }.
Arguments mkTxn {W PS}.
Arguments t_prod {W PS}.
Arguments t_cached {W PS}.
Arguments t_txnID {W PS}.
Arguments t_pid {W PS}.
Arguments t_idState {W PS}.
Arguments t_registered {W PS}.
Arguments t_registeredGroups {W PS}.
Arguments t_coordinator {W PS}.
Arguments t_open {W PS}.
Arguments t_tv2 {W PS}.

Record TxnOffsetCommitOptions := mkTxnOptions { o_Generation : Z; o_MemberID : bytes; o_GroupInstanceID : bytes }.

(** [pending] of [ensurePartitions] as the request's topics. *)
Definition pending_topics `{MapOrder} (pending : gmap bytes (list Z)) : list TxnTopicPartitions :=
  map (fun tp => mkTxnTopicPartitions (fst tp) (snd tp)) (range pending).

(** The offsets of [SendOffsetsToTxn], in the order of the two maps. *)
Definition flat_offsets `{MapOrder} (offsets : offset_map) : list TxnCommittedOffset :=
  concat (map (fun tp => map (fun po => mkTxnOffset (fst tp) (fst po) (snd po)) (range (snd tp))) (range offsets)).

Section transaction.
Context `{Codecs} `{MapOrder} {W PS : Type} `{ClusterEnv W} `{PartitionerOps PS} `{FeatureEnv W}.
Context (cfg : Config).

Local Notation txn := (TransactionalProducer W PS).
Local Notation T := (M txn).

Definition t_world (t : txn) : W := p_world (t_prod t).

Definition set_prod (p : Producer W PS) (t : txn) : txn :=
  mkTxn p (t_cached t) (t_txnID t) (t_pid t) (t_idState t) (t_registered t) (t_registeredGroups t) (t_coordinator t) (t_open t) (t_tv2 t).
Definition set_cached (c : option ProducerID) (t : txn) : txn :=
  mkTxn (t_prod t) c (t_txnID t) (t_pid t) (t_idState t) (t_registered t) (t_registeredGroups t) (t_coordinator t) (t_open t) (t_tv2 t).
Definition set_pid (pid : ProducerID) (t : txn) : txn :=
  mkTxn (t_prod t) (t_cached t) (t_txnID t) pid (t_idState t) (t_registered t) (t_registeredGroups t) (t_coordinator t) (t_open t) (t_tv2 t).
Definition set_idState (s : State) (t : txn) : txn :=
  mkTxn (t_prod t) (t_cached t) (t_txnID t) (t_pid t) s (t_registered t) (t_registeredGroups t) (t_coordinator t) (t_open t) (t_tv2 t).
Definition set_registered (r : gset partKey) (t : txn) : txn :=
  mkTxn (t_prod t) (t_cached t) (t_txnID t) (t_pid t) (t_idState t) r (t_registeredGroups t) (t_coordinator t) (t_open t) (t_tv2 t).
Definition set_groups (g : gset bytes) (t : txn) : txn :=
  mkTxn (t_prod t) (t_cached t) (t_txnID t) (t_pid t) (t_idState t) (t_registered t) g (t_coordinator t) (t_open t) (t_tv2 t).
Definition set_coordinator (c : Z) (t : txn) : txn :=
  mkTxn (t_prod t) (t_cached t) (t_txnID t) (t_pid t) (t_idState t) (t_registered t) (t_registeredGroups t) c (t_open t) (t_tv2 t).
Definition set_open (o : bool) (t : txn) : txn :=
  mkTxn (t_prod t) (t_cached t) (t_txnID t) (t_pid t) (t_idState t) (t_registered t) (t_registeredGroups t) (t_coordinator t) o (t_tv2 t).
Definition set_tv2 (b : bool) (t : txn) : txn :=
  mkTxn (t_prod t) (t_cached t) (t_txnID t) (t_pid t) (t_idState t) (t_registered t) (t_registeredGroups t) (t_coordinator t) (t_open t) b.

(** ** The world *)

Definition twith (w : W) (t : txn) : txn := set_prod (set_world (t_prod t) w) t.

(** A call into the cluster. *)
Definition tworld {A} (f : W -> W * res A) : T A := fun t =>
  let '(w, r) := f (t_world t) in (twith w t, r).

Definition TRequest (node api ver : Z) (body : bytes) : T bytes := tworld (env_Request node api ver body).
Definition TCoordinator : T Z := let! t := mget in tworld (env_TransactionCoordinator (t_txnID t)).
Definition TInvalidate (node : Z) : T unit := tworld (fun w => (env_Invalidate node w, Ok tt)).
Definition TVersion (api fallback : Z) : T Z :=
  mgets (fun t => negotiatedVersion (env_versions (t_world t)) api fallback).

Definition txn_retry (rc : RetryConfig) (fn : T unit) : T unit :=
  retryRetriable (fun t => env_ctx (t_world t))
    (fun d t => let '(w, e) := env_sleep d (t_world t) in (twith w t, e)) rc fn.

(** ** Beginning *)

Definition txn_init_attempt (body : bytes) : T unit :=
  let! coord := TCoordinator in
  do! mmod (set_coordinator coord) in
  let! rb := TRequest coord APIInitProducerID VerInitProducerID body in
  match DecodeInitProducerID rb with
  | Ok pid => mmod (set_pid pid)
  | Panic => mlift Panic
  | Err (APIError _ code) =>
      do! mwhen (CoordinatorRetriable code) (TInvalidate coord) in
      merr (KafkaError code [] 0)
  | Err e => merr e
  end.

(** [pid] is set here by the attempt that succeeds, in the code after the
    loop. *)
Definition txn_init : T unit :=
  let! t := mget in
  let! body := mlift (EncodeInitProducerID (Some (t_txnID t)) (transactionTimeoutMs cfg)) in
  do! txn_retry (coordinatorRetry (cfg_Retry cfg)) (txn_init_attempt body) in
  mmod (fun t => set_idState (NewState (t_pid t)) t).

Definition zero_pid : ProducerID := mkProducerID 0 0.

Definition begin_body (cached : option ProducerID) (tv2 : bool) : T unit :=
  do! match cached with
      | Some pid =>
          if tv2 then
            let! coord := TCoordinator in
            mmod (fun t => set_idState (NewState pid) (set_pid pid (set_coordinator coord t)))
          else txn_init
      | None => txn_init
      end in
  mmod (fun t => set_open true (set_tv2 tv2 t)).

(** The transaction begun on producer [p]; after an error only its producer
    and cache matter. *)
Definition BeginTransaction (p : Producer W PS) (cached : option ProducerID) : txn * res unit :=
  let t := mkTxn p cached (transactionalID cfg) zero_pid (NewState zero_pid) ∅ ∅ 0 false false in
  if negb (env_open (p_world p)) then (t, Err ErrTxnClosed) else
  if bool_decide (transactionalID cfg = []) then (t, Err ErrNoTransactionalID) else
  let tv2 := match env_Feature (str "transaction.version") (p_world p) with Some lvl => lvl >=? 2 | None => false end in
  begin_body cached tv2 t.

(** ** Requests to the coordinator *)

Definition reresolve : T unit :=
  let! t := mget in
  do! TInvalidate (t_coordinator t) in
  let! c := mtry TCoordinator in
  match c with inl c => mmod (set_coordinator c) | inr _ => mret tt end.

Definition coord_attempt (api ver : Z) (body : bytes) (decode : bytes -> res Z) : T unit :=
  let! t := mget in
  let! rb := TRequest (t_coordinator t) api ver body in
  let! code := mlift (decode rb) in
  if negb (code =? 0) then
    do! mwhen (CoordinatorRetriable code) reresolve in
    merr (KafkaError code [] 0)
  else mret tt.

Definition txnCoordRequest (api ver : Z) (body : Enc) (decode : bytes -> res Z) : T unit :=
  let! body := mlift body in
  txn_retry (coordinatorRetry (cfg_Retry cfg)) (coord_attempt api ver body decode).

(** ** Producing *)

(** The loop of [ensurePartitions]: each new partition is registered at once;
    [pending] and [newKeys] collect them. *)
Fixpoint register_loop (records : list record) (pending : gmap bytes (list Z)) (newKeys : list partKey)
    : T (gmap bytes (list Z) * list partKey) :=
  match records with
  | [] => mret (pending, newKeys)
  | r :: rest =>
      let! pl := (fun t => let '(p, o) := resolvePartition (t_prod t) r in (set_prod p t, o)) in
      let k := (r_Topic r, fst pl) in
      let! t := mget in
      if bool_decide (k ∈ t_registered t) then register_loop rest pending newKeys
      else
        do! mmod (fun t => set_registered ({[k]} ∪ t_registered t) t) in
        register_loop rest (push pending (r_Topic r) (fst pl)) (newKeys ++ [k])
  end.

Definition addPartitions (topics : list TxnTopicPartitions) : T unit :=
  let! t := mget in
  txnCoordRequest APIAddPartitionsTxn VerAddPartitionsTxn
    (EncodeAddPartitionsToTxn (t_txnID t) (pid_ID (t_pid t)) (pid_Epoch (t_pid t)) topics) DecodeAddPartitionsToTxn.

Definition ensurePartitions (records : list record) : T unit :=
  let! t := mget in
  if t_tv2 t then mret tt else
  let! pn := register_loop records ∅ [] in
  if bool_decide (fst pn = ∅) then mret tt else
  let! r := mtry (addPartitions (pending_topics (fst pn))) in
  match r with
  | inl _ => mret tt
  | inr e =>
      do! mmod (fun t => set_registered (t_registered t ∖ list_to_set (snd pn)) t) in
      merr e
  end.

(** The retried closure of [ProduceWithinTxnResult], with [results] and
    [acked]. *)
Definition txn_attempt (topics : list bytes) (records : list record)
    (s : txn * (list ProduceRecordResult * list bool)) : (txn * (list ProduceRecordResult * list bool)) * res unit :=
  let '(t, (results, acked)) := s in
  let '(w, o) := env_RefreshIfStale topics (t_world t) in
  let t := twith w t in
  match o with
  | Err e => ((t, (results, acked)), Err e)
  | Panic => ((t, (results, acked)), Panic)
  | Ok _ =>
      let '(pending, origIdx) := pendingRecords records acked in
      let '(p, id, o) := sendRecords cfg (t_prod t) pending (mkSendOpts (Some (t_pid t, t_idState t)) true) in
      let t := set_idState (from_option snd (t_idState t) id) (set_prod p t) in
      match o with
      | Panic => ((t, (results, acked)), Panic)
      | Err e => ((t, (results, acked)), Err e)
      | Ok (res, err) =>
          ((t, mergeAcked results acked origIdx res), match err with Some e => Err e | None => Ok tt end)
      end
  end.

Definition txn_send (records : list record) (t : txn) : txn * (list ProduceRecordResult * res unit) :=
  let '((t, (results, _)), o) :=
    retryRetriable (fun s => env_ctx (t_world (fst s)))
      (fun d s => let '(w, e) := env_sleep d (t_world (fst s)) in ((twith w (fst s), snd s), e))
      (cfg_Retry cfg) (txn_attempt (uniqueTopics records) records)
      (t, (replicate (length records) zero_result, replicate (length records) false)) in
  (t, (results, o)).

(** What precedes the send: the frozen records, once registered. *)
Definition prepare (records : list record) : T (list record) :=
  let! frozen := (fun t => let '(p, o) := freezePartitions (t_prod t) records in (set_prod p t, o)) in
  do! ensurePartitions frozen in
  mret frozen.

Definition ProduceWithinTxnResult (records : list record) (t : txn) : txn * (list ProduceRecordResult * res unit) :=
  if negb (t_open t) then (t, ([], Err ErrTransactionAborted)) else
  match records with
  | [] => (t, ([], Ok tt))
  | _ =>
      let '(t, o) := prepare records t in
      match o with
      | Ok frozen => txn_send frozen t
      | Err e => (t, ([], Err e))
      | Panic => (t, ([], Panic))
      end
  end.

Definition ProduceWithinTxn (records : list record) : T unit := fun t =>
  let '(t, (_, o)) := ProduceWithinTxnResult records t in (t, o).

(** ** Offsets *)

Definition ensureGroupOffsets (groupID : bytes) : T unit :=
  let! t := mget in
  if bool_decide (groupID ∈ t_registeredGroups t) then mret tt else
  let! addVer := TVersion APIAddOffsetsToTxn VerAddOffsetsToTxn in
  do! txnCoordRequest APIAddOffsetsToTxn addVer
    (EncodeAddOffsetsToTxn addVer (t_txnID t) (pid_ID (t_pid t)) (pid_Epoch (t_pid t)) groupID)
    (DecodeAddOffsetsToTxn addVer) in
  mmod (fun t => set_groups ({[groupID]} ∪ t_registeredGroups t) t).

Definition commit_meta (opts : TxnOffsetCommitOptions) : TxnOffsetCommitMeta :=
  let gen := if (o_Generation opts =? 0) && bool_decide (o_MemberID opts = []) && bool_decide (o_GroupInstanceID opts = [])
             then -1 else o_Generation opts in
  mkTxnMeta gen (o_MemberID opts) (o_GroupInstanceID opts).

Definition SendOffsetsToTxn (groupID : bytes) (offsets : offset_map) (opts : TxnOffsetCommitOptions) : T unit :=
  let! t := mget in
  if negb (t_open t) then merr ErrTransactionAborted else
  if bool_decide (groupID = []) then merr ErrTxnNoGroup else
  if bool_decide (offsets = ∅) then mret tt else
  do! ensureGroupOffsets groupID in
  let! t := mget in
  let! ver := TVersion APITxnOffsetCommit VerTxnOffsetCommit in
  let txnVer := if ver <? 3 then 3 else ver in
  txnCoordRequest APITxnOffsetCommit txnVer
    (EncodeTxnOffsetCommit txnVer (t_txnID t) groupID (pid_ID (t_pid t)) (pid_Epoch (t_pid t)) (commit_meta opts)
       (flat_offsets offsets))
    (DecodeTxnOffsetCommit txnVer).

(** ** Ending *)

(** The retried closure of [endTxn], with [res]. *)
Definition end_attempt (ver : Z) (commit : bool) (s : txn * EndTxnResult) : (txn * EndTxnResult) * res unit :=
  let '(t, r) := s in
  let body := EncodeEndTxn ver (t_txnID t) (pid_ID (t_pid t)) (pid_Epoch (t_pid t)) commit in
  let '(t, o) :=
    (let! body := mlift body in
     let! rb := TRequest (t_coordinator t) APIEndTxn ver body in
     let! r := mlift (DecodeEndTxn ver rb) in
     if negb (et_Code r =? 0) then
       do! mwhen (CoordinatorRetriable (et_Code r)) reresolve in
       merr (KafkaError (et_Code r) [] 0)
     else mret r) t in
  match o with
  | Ok r => ((t, r), Ok tt)
  | Err e => ((t, r), Err e)
  | Panic => ((t, r), Panic)
  end.

Definition finish (r : EndTxnResult) (t : txn) : txn :=
  let t := set_open false t in
  if t_tv2 t && (et_ProducerID r >=? 0) && (et_ProducerEpoch r >=? 0) then
    let pid := mkProducerID (et_ProducerID r) (et_ProducerEpoch r) in set_cached (Some pid) (set_pid pid t)
  else set_cached None t.

Definition endTxn (commit : bool) : T unit := fun t =>
  if negb (t_open t) then (t, Err ErrTransactionAborted) else
  let ver := negotiatedVersion (env_versions (t_world t)) APIEndTxn VerEndTxn in
  let ver := if ver <=? 0 then VerEndTxn else ver in
  let '((t, r), o) :=
    retryRetriable (fun s => env_ctx (t_world (fst s)))
      (fun d s => let '(w, e) := env_sleep d (t_world (fst s)) in ((twith w (fst s), snd s), e))
      (coordinatorRetry (cfg_Retry cfg)) (end_attempt ver commit) (t, mkEndTxnResult 0 0 0) in
  match o with
  | Ok _ => (finish r t, if commit then Ok tt else Err ErrTransactionAborted)
  | Err e => (set_cached None t, Err e)
  | Panic => (t, Panic)
  end.

Definition CommitTxn : T unit := endTxn true.
Definition AbortTxn : T unit := endTxn false.
End transaction.
