(* ===== verification/TransactionFacts.v ===== *)
(** What the transactional producer guarantees: partitions are added to the
    transaction before anything is sent to them, the transaction ends exactly
    when the coordinator has accepted its end, and nothing follows it. *)

From Stdlib Require Import ZArith Lia.
From Stdlib Require Import Strings.Byte.
From stdpp Require Import base list gmap countable strings.
From S2P Require Import Prelude.
From S2P Require Import Wire.
From S2P Require Import Header.
From S2P Require Import Compress.
From S2P Require Import RecordBatch.
From S2P Require Import ProduceCodec.
From S2P Require Import Metadata.
From S2P Require Import SeqState.
From S2P Require Import Retry.
From S2P Require Import Producer.
From S2P Require Import OffsetCodec.
From S2P Require Import TxnCodec.
From S2P Require Import GoMonad.
From S2P Require Import Transaction.

Open Scope Z_scope.

Section facts.
Context `{Codecs} `{MapOrder} {W PS : Type} `{ClusterEnv W} `{PartitionerOps PS} `{FeatureEnv W}.
Context (cfg : Config).

Local Notation txn := (TransactionalProducer W PS).
Local Notation T := (M txn).

(** * Frames *)

(** A call to the coordinator changes the world and the coordinator only. *)
Definition coord_frame (t t' : txn) : Prop :=
  exists w c, t' = set_coordinator c (twith w t).

#[export] Instance coord_frame_preorder : PreOrder coord_frame.
Proof.
  split.
  - intros t. exists (t_world t), (t_coordinator t). by destruct t as [[]].
  - intros t t1 t2 (w & c & ->) (w' & c' & ->). by exists w', c'.
Qed.

Lemma keeps_tworld {A} (f : W -> W * res A) : Keeps coord_frame (tworld (PS := PS) f).
Proof.
  intros t. unfold tworld. destruct (f (t_world t)) as [w r]. exists w, (t_coordinator t). by destruct t.
Qed.
#[local] Hint Resolve keeps_tworld : keeps.

Lemma keeps_trequest node api ver body : Keeps coord_frame (TRequest (PS := PS) node api ver body).
Proof. apply keeps_tworld. Qed.
#[local] Hint Resolve keeps_trequest : keeps.

Lemma keeps_set_coordinator c : Keeps coord_frame (mmod (set_coordinator c) : T unit).
Proof. intros t. exists (t_world t), c. by destruct t as [[]]. Qed.
#[local] Hint Resolve keeps_set_coordinator : keeps.

Lemma keeps_tcoordinator : Keeps coord_frame (TCoordinator (PS := PS)).
Proof. unfold TCoordinator. solve_keeps. Qed.
#[local] Hint Resolve keeps_tcoordinator : keeps.

Lemma keeps_reresolve : Keeps coord_frame (reresolve (PS := PS)).
Proof. unfold reresolve, TInvalidate. solve_keeps. Qed.
#[local] Hint Resolve keeps_reresolve : keeps.

Lemma keeps_coord_attempt api ver body decode : Keeps coord_frame (coord_attempt (PS := PS) api ver body decode).
Proof. unfold coord_attempt. solve_keeps. Qed.

Lemma keeps_sleep d : forall t : txn,
  coord_frame t (fst (let '(w, e) := env_sleep d (t_world t) in (twith w t, e))).
Proof. intros t. destruct (env_sleep d (t_world t)) as [w e]. exists w, (t_coordinator t). by destruct t. Qed.

Lemma keeps_txn_retry (R : txn -> txn -> Prop) rc (fn : T unit) : PreOrder R ->
  (forall d t, R t (fst (let '(w, e) := env_sleep d (t_world t) in (twith w t, e)))) ->
  Keeps R fn -> Keeps R (txn_retry rc fn).
Proof. intros HR Hs Hf t. apply (retry_loop_rel _ _ _ _ _ R); [reflexivity|intros a b c; apply transitivity|exact Hf|exact Hs]. Qed.

Lemma keeps_coord_request api ver body decode : Keeps coord_frame (txnCoordRequest (PS := PS) cfg api ver body decode).
Proof.
  unfold txnCoordRequest. apply keeps_then; [typeclasses eauto|apply keeps_lift; typeclasses eauto|]. intros b.
  apply keeps_txn_retry; [typeclasses eauto|exact keeps_sleep|apply keeps_coord_attempt].
Qed.

(** A coordinator request that succeeds was answered with code 0. *)
Lemma coord_request_ok api ver body decode (t t' : txn) :
  txnCoordRequest cfg api ver body decode t = (t', Ok tt) ->
  exists b node w w' rb, body = Ok b /\ env_Request node api ver b w = (w', Ok rb) /\ decode rb = Ok 0 /\
    coord_frame t t' /\ t_world t' = w'.
Proof.
  intros Hr. pose proof (keeps_coord_request api ver body decode t) as Hfr. rewrite Hr in Hfr. cbn [fst] in Hfr.
  unfold txnCoordRequest in Hr. minv Hr. injection E as <- ->.
  unfold txn_retry, retryRetriable in Hr. apply retry_loop_success with (I := fun _ => True) in Hr; [|done|done| |done].
  2: { unfold attempts. case_goal; zbool; lia. }
  destruct Hr as (t0 & _ & Hr). unfold coord_attempt, TRequest, tworld in Hr. minv Hr.
  destruct (env_Request (t_coordinator t0) api ver a (t_world t0)) as [w r] eqn:Er. injection E as <- ->.
  injection E0 as <- Hd. destruct (Z.eqb_spec a1 0) as [->|]; cbn [negb] in Hr.
  - minv Hr. exists a, (t_coordinator t0), (t_world t0), w, a0. split_and!; done.
  - apply mthen_inv in Hr as (s & x & _ & Hr). done.
Qed.

(** * Ending *)

Definition end_version (t : txn) : Z :=
  let ver := negotiatedVersion (env_versions (t_world t)) APIEndTxn VerEndTxn in if ver <=? 0 then VerEndTxn else ver.

Section ending.
Context `{!TracedEnv W}.
Local Notation calls t := (env_calls (t_world t)).

(** The body of an EndTxn, read field by field: transactional id, producer id,
    epoch, and whether to commit. *)
Definition read_end_request (ver : Z) : Rd (bytes * Z * Z * bool) :=
  id <- (if ver >=? 3 then ReadCompactString else ReadString) ;;
  pid <- ReadInt64 ;;
  epoch <- ReadInt16 ;;
  commit <- ReadBool ;;
  (if ver >=? 3 then SkipTagSection else ret tt) ;;;
  ret (id, pid, epoch, commit).

Lemma Reads_end_request ver id pid epoch commit : 0 < ver -> fits id -> int64 pid -> int16 epoch ->
  Reads (read_end_request ver) (EncodeEndTxn ver id pid epoch commit) (id, pid, epoch, commit).
Proof.
  intros Hv Hid Hp He. unfold read_end_request, EncodeEndTxn, encodeEndTxnFlex, encodeEndTxnLegacy.
  destruct (Z.leb_spec ver 0); [lia|]. destruct (ver >=? 3).
  - fields. last_field. apply Reads_ret.
  - field. field. field. last_field. eapply Reads_bind_last; apply Reads_ret.
Qed.

(** The coordinator answered this call; with these fields; with code 0; with a
    code that has the coordinator looked up again. *)
Definition end_answer (ver : Z) (c : call) (r : EndTxnResult) : Prop :=
  exists rb, call_reply c = Ok rb /\ DecodeEndTxn ver rb = Ok r.
Definition end_accepted (ver : Z) (c : call) : Prop := exists r, end_answer ver c r /\ et_Code r = 0.
Definition end_moved (ver : Z) (c : call) : Prop := exists r, end_answer ver c r /\ CoordinatorRetriable (et_Code r) = true.

(** An EndTxn of this transaction. *)
Definition asks_end (ver : Z) (commit : bool) (t : txn) (c : call) : Prop :=
  call_api c = APIEndTxn /\ call_ver c = ver /\
  EncodeEndTxn ver (t_txnID t) (pid_ID (t_pid t)) (pid_Epoch (t_pid t)) commit = Ok (call_body c).

(** The calls go to [node] until an answer has the coordinator looked up again. *)
Fixpoint routed (ver : Z) (node : option Z) (sent : list call) (last : Z) : Prop :=
  match sent with
  | [] => from_option (fun n => n = last) True node
  | c :: rest => from_option (fun n => call_node c = n) True node /\
      exists next, (next = Some (call_node c) \/ (next = None /\ end_moved ver c)) /\ routed ver next rest last
  end.

Lemma routed_free ver node sent last : routed ver (Some node) sent last -> routed ver None sent last.
Proof. destruct sent; cbn; [done|]. by intros [_ ?]. Qed.

Lemma answer_unique ver c r r' : end_answer ver c r -> end_answer ver c r' -> r = r'.
Proof. intros (rb & E & D) (rb' & E' & D'). congruence. Qed.

(** One attempt: no call when the request cannot be laid out, one otherwise. *)
Lemma end_attempt_run ver commit (t t' : txn) r r' o : end_attempt ver commit (t, r) = ((t', r'), o) ->
  coord_frame t t' /\
  ((calls t' = calls t /\ t_coordinator t' = t_coordinator t /\ o <> Ok tt) \/
   exists c, calls t' = calls t ++ [c] /\ call_node c = t_coordinator t /\ asks_end ver commit t c /\
     match o with
     | Ok _ => end_answer ver c r' /\ et_Code r' = 0 /\ t_coordinator t' = t_coordinator t
     | _ => ~ end_accepted ver c /\ (t_coordinator t' = t_coordinator t \/ end_moved ver c)
     end).
Proof.
  unfold end_attempt. set (m := mthen _ _). intros He.
  assert (Hk : Keeps coord_frame m) by (subst m; solve_keeps).
  specialize (Hk t). destruct (m t) as [t1 o1] eqn:Em. cbn [fst] in Hk.
  assert (t1 = t' /\ match o1 with Ok r1 => r1 = r' /\ o = Ok tt | Err e => o = Err e | Panic => o = Panic end) as [-> Ho]
    by (destruct o1; by injection He as <- <- <-).
  clear He. split; [done|]. subst m. unfold mthen at 1, mlift at 1 in Em.
  destruct (EncodeEndTxn _ _ _ _ _) as [b|e|] eqn:Eb; [|injection Em as <- <-; left; by rewrite Ho..].
  unfold mthen at 1, TRequest, tworld in Em.
  pose proof (calls_Request (t_coordinator t) APIEndTxn ver b (t_world t)) as Hc.
  destruct (env_Request _ _ _ _ _) as [w a]. cbn [fst snd] in Hc. set (c := mkCall _ _ _ _ _) in Hc.
  assert (asks_end ver commit t c) as Hask by (split_and!; [done..|by rewrite Eb]).
  right. exists c. destruct a as [rb|e|].
  2,3: injection Em as <- <-; rewrite Ho; split_and!; [done..|by intros (? & (? & [=] & _) & _)|by left].
  unfold mthen at 1, mlift in Em. destruct (DecodeEndTxn ver rb) as [r1|e|] eqn:Ed.
  2,3: injection Em as <- <-; rewrite Ho; split_and!; [done..|intros (? & (rb' & [= <-] & Hd) & _); congruence|by left].
  assert (end_answer ver c r1) as Hans by by exists rb.
  destruct (Z.eqb_spec (et_Code r1) 0) as [Hz|Hz]; cbn [negb] in Em.
  { injection Em as <- <-. destruct Ho as [-> ->]. done. }
  assert (~ end_accepted ver c) as Hna by (intros (r2 & Hr2 & Hr0); by rewrite (answer_unique _ _ _ _ Hr2 Hans) in Hr0).
  assert (calls t' = calls (twith w t) /\ ((exists e, o1 = Err e) \/ o1 = Panic)) as [Hcs Ho1].
  { unfold mthen at 1, mwhen in Em. destruct (CoordinatorRetriable _); [|injection Em as <- <-; split; [done|left; by eexists]].
    unfold reresolve, mthen, mget, mtry, TInvalidate, TCoordinator, tworld, mget in Em. cbn in Em.
    match type of Em with context [env_TransactionCoordinator ?i ?w'] => pose proof (calls_TransactionCoordinator i w') as Hx; destruct (env_TransactionCoordinator i w') as [w2 [c2|e2|]] end;
      cbn in Em, Hx; injection Em as <- <-; cbn; rewrite Hx, calls_Invalidate; (split; [done|]); eauto. }
  assert (t_coordinator t' = t_coordinator t \/ end_moved ver c) as Hco.
  { destruct (CoordinatorRetriable (et_Code r1)) eqn:Er; [right; by exists r1|left]. by injection Em as <- _. }
  split_and!; [by rewrite Hcs|done|done|]. destruct Ho1 as [(e & ->)| ->]; by rewrite Ho.
Qed.

Lemma end_sleep_calls d (t : txn) :
  calls (fst (let '(w, e) := env_sleep d (t_world t) in (twith w t, e))) = calls t /\
  t_coordinator (fst (let '(w, e) := env_sleep d (t_world t) in (twith w t, e))) = t_coordinator t.
Proof. pose proof (calls_sleep d (t_world t)). by destruct (env_sleep d (t_world t)). Qed.

Lemma asks_end_frame ver commit (t t' : txn) c : coord_frame t t' -> asks_end ver commit t' c -> asks_end ver commit t c.
Proof. by intros (w & k & ->). Qed.

(** The attempts until one is accepted or the client gives up. *)
Lemma end_loop_run stop maxWait ver commit n : forall wait (t t' : txn) r r' o, (0 < n)%nat ->
  retry_loop (fun s => env_ctx (t_world (fst s)))
    (fun d s => let '(w, e) := env_sleep d (t_world (fst s)) in ((twith w (fst s), snd s), e))
    stop maxWait (end_attempt ver commit) n wait (t, r) = ((t', r'), o) ->
  exists refused last, coord_frame t t' /\ calls t' = calls t ++ refused ++ last /\
    Forall (asks_end ver commit t) (refused ++ last) /\ Forall (fun c => ~ end_accepted ver c) refused /\
    routed ver (Some (t_coordinator t)) (refused ++ last) (t_coordinator t') /\
    match o with Ok _ => exists c, last = [c] /\ end_answer ver c r' /\ et_Code r' = 0 | _ => last = [] end.
Proof.
  induction n as [|n IH]; intros wait t t' r r' o Hn; [lia|]. cbn [retry_loop]. cbn [fst].
  destruct (env_ctx (t_world t)) as [e|].
  { intros [= <- <- <-]. exists [], []. split_and!; [done|by rewrite !app_nil_r|constructor|constructor|done|done]. }
  destruct (end_attempt ver commit (t, r)) as [[t1 r1] o1] eqn:Ea. apply end_attempt_run in Ea as (Hf & Hcases).
  (* the calls and the coordinator after a refusal *)
  assert (o1 <> Ok tt -> exists refused, calls t1 = calls t ++ refused /\ Forall (asks_end ver commit t) refused /\
    Forall (fun c => ~ end_accepted ver c) refused /\
    forall rest last, routed ver (Some (t_coordinator t1)) rest last -> routed ver (Some (t_coordinator t)) (refused ++ rest) last) as Href.
  { intros Hne. destruct Hcases as [(Hc & Hco & _)|(c & Hc & Hnode & Hask & Hm)].
    - exists []. rewrite app_nil_r, <- Hco. split_and!; [done|constructor|constructor|done].
    - assert (~ end_accepted ver c /\ (t_coordinator t1 = t_coordinator t \/ end_moved ver c)) as [Hna Hco]
        by (destruct o1 as [[]| |]; done).
      exists [c]. split_and!; [done|by apply Forall_singleton..|]. intros rest last Hr. cbn. split; [done|].
      destruct Hco as [Hco|Hmv]; [exists (Some (call_node c)); split; [by left|]; by rewrite Hnode, <- Hco|].
      exists None. split; [by right|]. by eapply routed_free. }
  destruct o1 as [[]|e|].
  - intros [= <- <- <-]. destruct Hcases as [(_ & _ & ?)|(c & Hc & Hnode & Hask & Hans & Hz & Hco)]; [done|].
    exists [], [c]. split_and!; [done|done|by apply Forall_singleton|constructor| |by exists c].
    cbn. split; [done|]. exists (Some (call_node c)). split; [by left|]. cbn. congruence.
  - destruct (Href ltac:(done)) as (refused & Hc & Hask & Hna & Hroute).
    assert (forall t2 : txn, coord_frame t1 t2 -> calls t2 = calls t1 -> t_coordinator t2 = t_coordinator t1 ->
      exists rf last, coord_frame t t2 /\ calls t2 = calls t ++ rf ++ last /\ Forall (asks_end ver commit t) (rf ++ last) /\
        Forall (fun c => ~ end_accepted ver c) rf /\ routed ver (Some (t_coordinator t)) (rf ++ last) (t_coordinator t2) /\ last = []) as Hstop.
    { intros t2 Hf2 Hc2 Hco2. exists refused, []. rewrite app_nil_r. split_and!; [by etransitivity|by rewrite Hc2|done|done| |done].
      rewrite <- (app_nil_r refused). by apply Hroute. }
    destruct (stop e); [intros [= <- <- <-]; by apply Hstop|].
    destruct n as [|n']; [intros [= <- <- <-]; by apply Hstop|].
    destruct (end_sleep_calls wait t1) as [Hsc Hsco]. pose proof (keeps_sleep wait t1) as Hsf. cbn [fst].
    destruct (env_sleep wait (t_world t1)) as [w2 e2]. cbn [fst] in Hsc, Hsco, Hsf.
    destruct e2 as [e2|]; [intros [= <- <- <-]; by apply Hstop|]. intros Hrun.
    destruct (IH _ _ _ _ _ _ ltac:(lia) Hrun) as (rf & last & Hf2 & Hc2 & Ha2 & Hn2 & Hr2 & Ho).
    assert (coord_frame t (twith w2 t1)) as Htf by by etransitivity.
    exists (refused ++ rf), last. rewrite <- app_assoc. split_and!; [by etransitivity| | |by apply Forall_app| |done].
    + by rewrite Hc2, Hsc, Hc, <- app_assoc.
    + apply Forall_app. split; [done|]. eapply Forall_impl; [exact Ha2|]. intros c. by apply asks_end_frame.
    + apply Hroute. by rewrite <- Hsco.
  - intros [= <- <- <-]. destruct (Href ltac:(done)) as (refused & Hc & Hask & Hna & Hroute).
    exists refused, []. rewrite app_nil_r. split_and!; [done|done|done|done| |done].
    rewrite <- (app_nil_r refused). by apply Hroute.
Qed.
(** C23: How a transaction ends.  [Commit] and [Abort] of an open transaction
    send EndTxn requests only.  Each is laid out as this transactional id,
    producer id, epoch and outcome (read back from the bytes), the first goes to
    the coordinator of the transaction, and each later one to the same node
    unless the answer before it told the client to look the coordinator up again.
    The transaction is closed if and only if one of them was answered with code
    0, which is then the last one, and only then does [Commit] return nil and
    [Abort] [ErrTransactionAborted] beside a closed transaction.  In TV2 mode with
    valid ids in that answer the bumped producer id is kept for the next
    transaction; otherwise, and after every error, no cached id is left, so the
    next transaction initialises a fresh one. *)
Theorem end_txn_spec commit (t t' : txn) o :
  t_open t = true -> fits (t_txnID t) -> int64 (pid_ID (t_pid t)) -> int16 (pid_Epoch (t_pid t)) ->
  endTxn cfg commit t = (t', o) ->
  let ver := end_version t in
  exists new, calls t' = calls t ++ new /\
    Forall (fun c => call_api c = APIEndTxn /\ call_ver c = ver /\
      run (read_end_request ver) (call_body c) = Ok (t_txnID t, pid_ID (t_pid t), pid_Epoch (t_pid t), commit)) new /\
    routed ver (Some (t_coordinator t)) new (t_coordinator t') /\
    (t_open t' = false <-> exists c, c ∈ new /\ end_accepted ver c) /\
    (t_open t' = false -> o = (if commit then Ok tt else Err ErrTransactionAborted) /\
       exists refused c r, new = refused ++ [c] /\ Forall (fun c => ~ end_accepted ver c) refused /\
         end_answer ver c r /\ et_Code r = 0 /\
         t_cached t' = (if t_tv2 t && (et_ProducerID r >=? 0) && (et_ProducerEpoch r >=? 0)
                        then Some (mkProducerID (et_ProducerID r) (et_ProducerEpoch r)) else None)) /\
    (t_open t' = true -> o = Panic \/ (t_cached t' = None /\ exists e, o = Err e)).
Proof.
  intros Ho Hid Hp He Hend ver. unfold endTxn in Hend. rewrite Ho in Hend. cbn [negb] in Hend. fold (end_version t) in Hend.
  assert (0 < ver) as Hv by (unfold ver, end_version; destruct (Z.leb_spec (negotiatedVersion (env_versions (t_world t)) APIEndTxn VerEndTxn) 0); [done|lia]).
  fold ver in Hend. destruct (retryRetriable _ _ _ _ _) as [[t1 r1] o1] eqn:Hr. unfold retryRetriable in Hr.
  apply end_loop_run in Hr as (refused & last & Hf & Hc & Hask & Hna & Hroute & Hlast); [|unfold attempts; case_goal; zbool; lia].
  assert (Forall (fun c => call_api c = APIEndTxn /\ call_ver c = ver /\
      run (read_end_request ver) (call_body c) = Ok (t_txnID t, pid_ID (t_pid t), pid_Epoch (t_pid t), commit)) (refused ++ last)) as Hsays.
  { eapply Forall_impl; [exact Hask|]. intros c (? & ? & Hb). split_and!; [done..|]. eapply Reads_run; [|exact Hb]. by apply Reads_end_request. }
  assert (forall c, c ∈ refused -> ~ end_accepted ver c) as Hno by (by apply Forall_forall).
  exists (refused ++ last). destruct Hf as (w & k & Ht1).
  destruct o1 as [[]|e|].
  - destruct Hlast as (c & -> & Hans & Hz). injection Hend as <- <-.
    assert (t_open (finish r1 t1) = false /\ calls (finish r1 t1) = calls t1 /\ t_coordinator (finish r1 t1) = t_coordinator t1) as (Hop & Hcf & Hcoord)
      by (unfold finish; by case_goal).
    split_and!; [by rewrite Hcf|done|by rewrite Hcoord| | |by rewrite Hop].
    + split; [intros _|done]. exists c. split; [apply elem_of_app; right; by left|by exists r1].
    + intros _. split; [done|]. exists refused, c, r1. split_and!; [done..|]. unfold finish. rewrite Ht1. cbn. by case_goal.
  - subst last. rewrite app_nil_r in *. injection Hend as <- <-. rewrite Ht1 in *. cbn in *. rewrite Ho.
    split_and!; [done|done|done| |done|right; split; [done|by exists e]]. split; [done|]. intros (c & Hin & Hacc). by apply Hno in Hacc.
  - subst last. rewrite app_nil_r in *. injection Hend as <- <-. rewrite Ht1 in *. cbn in *. rewrite Ho.
    split_and!; [done|done|done| |done|by left]. split; [done|]. intros (c & Hin & Hacc). by apply Hno in Hacc.
Qed.
End ending.

(** * Registration *)

(** What the client relies on: [added w k] says that the coordinator has
    partition [k] in the open transaction.  It holds after an AddPartitionsToTxn
    request for [k] that is answered without an error code, and only an EndTxn
    request takes it back. *)
Class CoordinatorLaws (added : W -> partKey -> Prop) : Prop := {
  law_stale ts w k : added w k -> added (fst (env_RefreshIfStale ts w)) k;
  law_request node api ver body w k : api <> APIEndTxn -> added w k -> added (fst (env_Request node api ver body w)) k;
  law_coordinator id w k : added w k -> added (fst (env_TransactionCoordinator id w)) k;
  law_invalidate node w k : added w k -> added (env_Invalidate node w) k;
  law_sleep d w k : added w k -> added (fst (env_sleep d w)) k;
  law_added node txnID id epoch topics body w w' rb tp part :
    EncodeAddPartitionsToTxn txnID id epoch topics = Ok body ->
    env_Request node APIAddPartitionsTxn VerAddPartitionsTxn body w = (w', Ok rb) ->
    DecodeAddPartitionsToTxn rb = Ok 0 ->
    tp ∈ topics -> part ∈ ttp_Partitions tp -> added w' (ttp_Topic tp, part) }.

Context (added : W -> partKey -> Prop) `{!CoordinatorLaws added}.

(** The coordinator forgets nothing between two states. *)
Definition mono (t t' : txn) : Prop := forall k, added (t_world t) k -> added (t_world t') k.

#[export] Instance mono_preorder : PreOrder mono.
Proof. split; [by intros t k|]. intros a b c Hab Hbc k Hk. by apply Hbc, Hab. Qed.

Lemma mono_request node api ver body : api <> APIEndTxn -> Keeps mono (TRequest (PS := PS) node api ver body).
Proof.
  intros Ha t k Hk. unfold TRequest, tworld. pose proof (law_request node api ver body (t_world t) k Ha Hk).
  by destruct (env_Request _ _ _ _ _).
Qed.

Lemma mono_coordinator : Keeps mono (TCoordinator (PS := PS)).
Proof.
  intros t k Hk. unfold TCoordinator, mthen, mget, tworld. pose proof (law_coordinator (t_txnID t) (t_world t) k Hk).
  by destruct (env_TransactionCoordinator _ _).
Qed.
#[local] Hint Resolve mono_coordinator : keeps.

Lemma mono_invalidate node : Keeps mono (TInvalidate (PS := PS) node).
Proof. intros t k Hk. cbn. by apply law_invalidate. Qed.
#[local] Hint Resolve mono_invalidate : keeps.

Lemma mono_set_coordinator c : Keeps mono (mmod (set_coordinator c) : T unit).
Proof. by intros t k. Qed.
#[local] Hint Resolve mono_set_coordinator : keeps.

Lemma mono_reresolve : Keeps mono (reresolve (PS := PS)).
Proof. unfold reresolve. solve_keeps. Qed.
#[local] Hint Resolve mono_reresolve : keeps.

Lemma mono_sleep d (t : txn) : mono t (fst (let '(w, e) := env_sleep d (t_world t) in (twith w t, e))).
Proof. intros k Hk. pose proof (law_sleep d (t_world t) k Hk). by destruct (env_sleep d (t_world t)). Qed.

Lemma mono_coord_request api ver body decode : api <> APIEndTxn -> Keeps mono (txnCoordRequest (PS := PS) cfg api ver body decode).
Proof.
  intros Ha. unfold txnCoordRequest. apply keeps_then; [typeclasses eauto|apply keeps_lift; typeclasses eauto|]. intros b.
  apply keeps_txn_retry; [typeclasses eauto|exact mono_sleep|]. pose proof (mono_request). unfold coord_attempt. solve_keeps.
Qed.

(** ** The loop of [ensurePartitions] *)

Definition key_in (m : gmap bytes (list Z)) (k : partKey) : Prop := exists l, m !! fst k = Some l /\ snd k ∈ l.

Lemma key_in_push m t p k : key_in (push m t p) k <-> k = (t, p) \/ key_in m k.
Proof.
  unfold key_in, push. destruct k as [t' p']. cbn [fst snd]. destruct (decide (t = t')) as [<-|Hne].
  - rewrite lookup_insert_eq. split.
    + intros (l & [= <-] & Hp). apply elem_of_app in Hp as [Hp|Hp%list_elem_of_singleton]; [|by subst; left].
      right. destruct (m !! t); [by eexists|by apply not_elem_of_nil in Hp].
    + intros Hor. eexists. split; [reflexivity|]. apply elem_of_app. destruct Hor as [[= ->]|(l & Hl & Hp)]; [right; by left|].
      left. by rewrite Hl.
  - rewrite lookup_insert_ne by done. split; [by right|]. intros [[= ->]|]; [done|done].
Qed.

Lemma key_in_topics m k : key_in m k -> exists tp, tp ∈ pending_topics m /\ ttp_Topic tp = fst k /\ snd k ∈ ttp_Partitions tp.
Proof.
  intros (l & Hl & Hp). exists (mkTxnTopicPartitions (fst k) l). split; [|done]. unfold pending_topics.
  apply list_elem_of_fmap. exists (fst k, l). split; [done|]. rewrite range_perm. by apply elem_of_map_to_list.
Qed.

(** Where a run of the loop, successful or not, goes. *)
Lemma resolve_frame (p : Producer W PS) r : exists ps, fst (resolvePartition p r) = set_partitioner p ps.
Proof.
  unfold resolvePartition. repeat (case_match; cbn [fst]); try (exists (p_partitioner p); by destruct p). by eexists.
Qed.

Lemma resolve_explicit (p p' : Producer W PS) r part leader :
  resolvePartition p r = (p', Ok (part, leader)) -> 0 <= r_Partition r -> part = r_Partition r.
Proof.
  unfold resolvePartition. intros Hr Hp. case_match; [done|]. destruct (Z.geb_spec (r_Partition r) 0); [|lia].
  case_match; by simplify_eq.
Qed.

Lemma register_loop_spec records pending newKeys (t t' : txn) o :
  register_loop records pending newKeys t = (t', o) ->
  exists p, t' = set_registered (t_registered t') (set_prod p t) /\ p_world p = t_world t /\
    t_registered t ⊆ t_registered t' /\
    forall pending' newKeys', o = Ok (pending', newKeys') ->
      (forall k, k ∈ newKeys' <-> k ∈ newKeys \/ k ∈ t_registered t' /\ k ∉ t_registered t) /\
      (forall k, key_in pending' k <-> key_in pending k \/ k ∈ t_registered t' /\ k ∉ t_registered t) /\
      (forall r, r ∈ records -> 0 <= r_Partition r -> (r_Topic r, r_Partition r) ∈ t_registered t').
Proof.
  revert pending newKeys t. induction records as [|r records IH]; intros pending newKeys t Hr; cbn [register_loop] in Hr.
  - injection Hr as <- <-. exists (t_prod t). split_and!; [by destruct t|done|done|]. intros ? ? [= <- <-].
    split_and!; [set_solver| |]; [intros k; split; [by left|]; intros [|[]]; done|by intros ? ?%not_elem_of_nil].
  - unfold mthen at 1 in Hr. destruct (resolve_frame (t_prod t) r) as [ps Hps].
    destruct (resolvePartition (t_prod t) r) as [p1 o1] eqn:Eo. cbn [fst] in Hps. subst p1.
    set (t1 := set_prod (set_partitioner (t_prod t) ps) t) in *.
    destruct o1 as [[part leader]|e|];
      [|injection Hr as <- <-; exists (set_partitioner (t_prod t) ps); split_and!; done..].
    pose proof (resolve_explicit _ _ _ _ _ Eo) as Hpart. unfold mthen at 1, mget in Hr. cbn [fst] in Hr.
    set (k0 := (r_Topic r, part)) in *. case_bool_decide as Hin.
    + destruct (IH _ _ _ Hr) as (p & Ht & Hw & Hsub & Hok). exists p. split_and!; [exact Ht|exact Hw|exact Hsub|].
      intros pe nk Ho. destruct (Hok pe nk Ho) as (Hn & Hp & Hrec). split_and!; [exact Hn|exact Hp|].
      intros r' [->|Hr']%elem_of_cons Hpos; [|by apply Hrec]. apply Hsub. rewrite <- Hpart by done. exact Hin.
    + unfold mthen at 1, mmod in Hr. destruct (IH _ _ _ Hr) as (p & Ht & Hw & Hsub & Hok).
      cbn [t_registered set_registered t1 set_prod] in Hin, Hsub, Hok. exists p. split_and!; [exact Ht|exact Hw|set_solver|].
      intros pe nk Ho. destruct (Hok pe nk Ho) as (Hn & Hp & Hrec).
      assert (Hnew : forall k, k ∈ t_registered t' /\ k ∉ {[k0]} ∪ t_registered t <->
        (k <> k0 /\ k ∈ t_registered t' /\ k ∉ t_registered t)).
      { intros k. rewrite not_elem_of_union, not_elem_of_singleton. tauto. }
      assert (Hk0 : k0 ∈ t_registered t' /\ k0 ∉ t_registered t) by (split; [apply Hsub, elem_of_union_l; by apply elem_of_singleton|exact Hin]).
      split_and!.
      * intros k. rewrite Hn, elem_of_app, list_elem_of_singleton, Hnew. destruct (decide (k = k0)) as [->|]; tauto.
      * intros k. rewrite Hp, key_in_push, Hnew. fold k0. destruct (decide (k = k0)) as [->|]; tauto.
      * intros r' [->|Hr']%elem_of_cons Hpos; [|by apply Hrec]. rewrite <- Hpart by done. set_solver.
Qed.
(** ** Sending *)

Lemma produce_mono w node batch inputs settings results k :
  added w k -> added (fst (produceToBroker w node batch inputs settings results)) k.
Proof.
  intros Hk. unfold produceToBroker. destruct (EncodeProduceRequest _ _ _ _) as [body| |]; [|done|done].
  pose proof (law_request node APIProduce (negotiatedVersion (env_versions w) APIProduce VerProduce) body w k ltac:(done) Hk) as Hr.
  destruct (env_Request _ _ _ _ _) as [w' [rb| |]]; [|done|done]. by destruct (DecodeProduceResponse _ _).
Qed.

Lemma fan_out_mono nodes w inputs settings results k :
  added w k -> added (fst (fan_out w nodes inputs settings results)) k.
Proof.
  revert w results. induction nodes as [|[node batch] nodes IH]; intros w results Hk; [done|]. cbn [fan_out].
  pose proof (produce_mono w node batch inputs settings results k Hk) as Hp.
  destruct (produceToBroker _ _ _ _ _ _) as [w' [[rs out]| |]]; [|done|done].
  specialize (IH w' rs Hp). by destruct (fan_out w' nodes inputs settings rs).
Qed.

Lemma route_world (p : Producer W PS) i records m : p_world (fst (route p i records m)) = p_world p.
Proof.
  revert p i m. induction records as [|r records IH]; intros p i m; [done|]. cbn [route].
  destruct (resolve_frame p r) as [ps Hps]. destruct (resolvePartition p r) as [p1 [[part leader]| |]]; cbn [fst] in *; subst p1; [|done|done].
  by rewrite IH.
Qed.

Lemma send_mono (p : Producer W PS) records opts k :
  added (p_world p) k -> added (p_world (fst (fst (sendRecords cfg p records opts)))) k.
Proof.
  intros Hk. unfold sendRecords. pose proof (route_world p 0 records (∅, ∅)) as Hw.
  destruct (route p 0 records (∅, ∅)) as [p1 [m| |]]; cbn [fst] in *; [|by rewrite Hw..]. rewrite <- Hw in Hk.
  unfold send_routed. destruct (match so_id opts with Some _ => _ | None => _ end) as [id cursor].
  match goal with |- context [fan_out ?w ?n ?i ?s ?r] => pose proof (fan_out_mono n w i s r k Hk) as Hf; destruct (fan_out w n i s r) as [w' o] end.
  by destruct o as [[? ?]| |].
Qed.

Lemma freeze_frame (p : Producer W PS) records : exists ps, fst (freezePartitions p records) = set_partitioner p ps.
Proof.
  revert p. induction records as [|r records IH]; intros p; cbn [freezePartitions].
  - exists (p_partitioner p). by destruct p.
  - destruct (r_Partition r <? 0).
    + destruct (resolve_frame p r) as [ps Hps]. destruct (resolvePartition p r) as [p1 o]. cbn [fst] in Hps. subst p1.
      destruct o as [pl| |]; cbn [res_bind]; [|by eexists..].
      destruct (IH (set_partitioner p ps)) as [ps' Hps']. destruct (freezePartitions _ records). cbn [fst] in *. subst. by eexists.
    + destruct (IH p) as [ps' Hps']. destruct (freezePartitions _ records). cbn [fst] in *. subst. by eexists.
Qed.

Definition reg_inv (t : txn) : Prop := forall k, k ∈ t_registered t -> added (t_world t) k.

Lemma attempt_mono topics records (s : txn * (list ProduceRecordResult * list bool)) :
  let t' := fst (fst (txn_attempt cfg topics records s)) in
  mono (fst s) t' /\ t_registered t' = t_registered (fst s).
Proof.
  destruct s as [t [results acked]]. cbn zeta. unfold txn_attempt.
  assert (Hs : forall k, added (t_world t) k -> added (fst (env_RefreshIfStale topics (t_world t))) k) by (intros; by apply law_stale).
  destruct (env_RefreshIfStale topics (t_world t)) as [w [[]| |]]; cbn [fst] in *; [|by split..].
  destruct (pendingRecords records acked) as [pending origIdx].
  set (t1 := twith w t). set (opts := mkSendOpts _ _).
  assert (Hm : forall k, added w k -> added (p_world (fst (fst (sendRecords cfg (t_prod t1) pending opts)))) k)
    by (intros k Hk; by apply send_mono).
  destruct (sendRecords cfg (t_prod t1) pending opts) as [[p id] o]. cbn [fst] in Hm.
  destruct o as [[res err]|e|]; split; try done; intros k Hk; apply Hm, Hs, Hk.
Qed.

Lemma txn_send_inv records (t : txn) : reg_inv t -> reg_inv (fst (txn_send cfg records t)).
Proof.
  intros Hi. unfold txn_send, retryRetriable.
  destruct (retry_loop _ _ _ _ _ _ _ _) as [[t' [results acked]] o] eqn:Hr. cbn [fst].
  eapply (retry_loop_inv _ _ _ _ _ (fun s => reg_inv (fst s))) in Hr; [exact Hr| | |exact Hi].
  - intros s Hs k. destruct (attempt_mono (uniqueTopics records) records s) as [Hm Hreg]. rewrite Hreg. intros Hk. by apply Hm, Hs.
  - intros d s Hs k. pose proof (mono_sleep d (fst s)) as Hm. destruct (env_sleep d (t_world (fst s))). intros Hk. by apply Hm, Hs.
Qed.

(** ** Preparing *)

Lemma add_partitions_ok topics (t t' : txn) : addPartitions cfg topics t = (t', Ok tt) ->
  mono t t' /\ t_registered t' = t_registered t /\
  forall tp part, tp ∈ topics -> part ∈ ttp_Partitions tp -> added (t_world t') (ttp_Topic tp, part).
Proof.
  unfold addPartitions. intros Hr. minv Hr.
  pose proof (mono_coord_request APIAddPartitionsTxn VerAddPartitionsTxn
    (EncodeAddPartitionsToTxn (t_txnID t) (pid_ID (t_pid t)) (pid_Epoch (t_pid t)) topics) DecodeAddPartitionsToTxn ltac:(done) t) as Hm.
  rewrite Hr in Hm. apply coord_request_ok in Hr as (b & node & w & w' & rb & Hb & Hreq & Hd & (w1 & c1 & ->) & <-).
  split_and!; [exact Hm|done|]. intros tp part Htp Hpart. by eapply law_added.
Qed.

Lemma add_partitions_err topics (t t' : txn) e : addPartitions cfg topics t = (t', Err e) ->
  mono t t' /\ t_registered t' = t_registered t.
Proof.
  unfold addPartitions. intros Hr. unfold mthen at 1, mget in Hr. split.
  - epose proof (mono_coord_request APIAddPartitionsTxn VerAddPartitionsTxn _ DecodeAddPartitionsToTxn ltac:(done) t) as Hm.
    by rewrite Hr in Hm.
  - epose proof (keeps_coord_request APIAddPartitionsTxn VerAddPartitionsTxn _ DecodeAddPartitionsToTxn t) as Hm.
    rewrite Hr in Hm. cbn [fst] in Hm. by destruct Hm as (w & c & ->).
Qed.

Lemma ensure_partitions_ok records (t t' : txn) : t_tv2 t = false -> reg_inv t ->
  ensurePartitions cfg records t = (t', Ok tt) ->
  reg_inv t' /\ forall r, r ∈ records -> 0 <= r_Partition r -> added (t_world t') (r_Topic r, r_Partition r).
Proof.
  intros Htv Hi Hr. unfold ensurePartitions in Hr. apply mthen_inv in Hr as (s & a & Hg & Hr). injection Hg as <- <-.
  rewrite Htv in Hr. apply mthen_inv in Hr as (t1 & [pe nk] & Hl & Hr). cbn [fst snd] in Hr.
  destruct (register_loop_spec _ _ _ _ _ _ Hl) as (p & Ht1 & Hw & Hsub & Hok). destruct (Hok pe nk eq_refl) as (Hn & Hp & Hrec).
  assert (Hw1 : t_world t1 = t_world t) by (rewrite Ht1; exact Hw).
  enough (reg_inv t' /\ t_registered t' = t_registered t1) as [Hi' Hreg].
  { split; [done|]. intros r Hin Hpos. apply Hi'. rewrite Hreg. by apply Hrec. }
  case_bool_decide as He.
  - injection Hr as <-. split; [|done]. intros k Hk. rewrite Hw1. apply Hi.
    destruct (decide (k ∈ t_registered t)) as [|Hno]; [done|]. exfalso.
    destruct (proj2 (Hp k) (or_intror (conj Hk Hno))) as (l & Hl' & _). subst pe. by rewrite lookup_empty in Hl'.
  - apply mthen_inv in Hr as (t2 & x & Ha & Hr). apply mtry_inv in Ha. destruct x as [[]|e].
    + injection Hr as <-. apply add_partitions_ok in Ha as (Hm & Hreg & Hadd). split; [|done]. intros k Hk. rewrite Hreg in Hk.
      destruct (decide (k ∈ t_registered t)) as [Hin|Hno]; [apply Hm; rewrite Hw1; by apply Hi|].
      destruct (key_in_topics pe k) as (tp & Htp & Hto & Hpa); [apply Hp; right; done|].
      destruct k as [tt0 pp]. cbn [fst snd] in *. rewrite <- Hto. by apply (Hadd tp).
    + apply mthen_inv in Hr as (t3 & y & _ & Hr). done.
Qed.

Lemma ensure_partitions_err records (t t' : txn) e : t_tv2 t = false -> reg_inv t ->
  (exists x, snd (register_loop records ∅ [] t) = Ok x) ->
  ensurePartitions cfg records t = (t', Err e) -> reg_inv t' /\ t_registered t' = t_registered t.
Proof.
  intros Htv Hi [[pe nk] Hx] Hr. unfold ensurePartitions in Hr. unfold mthen at 1, mget in Hr. rewrite Htv in Hr.
  destruct (register_loop records ∅ [] t) as [t1 o] eqn:Hl. cbn [snd] in Hx. subst o.
  destruct (register_loop_spec _ _ _ _ _ _ Hl) as (p & Ht1 & Hw & Hsub & Hok). destruct (Hok pe nk eq_refl) as (Hn & Hp & Hrec).
  rewrite (mthen_ok _ _ _ _ _ Hl) in Hr. cbn [fst snd] in Hr. case_bool_decide; [done|].
  unfold mthen at 1, mtry in Hr. destruct (addPartitions cfg (pending_topics pe) t1) as [t2 [[]|e2|]] eqn:Ha; [done| |done].
  apply add_partitions_err in Ha as [Hm Hreg]. injection Hr as <- <-.
  assert (Heq : t_registered t2 ∖ list_to_set nk = t_registered t).
  { apply set_eq. intros k. rewrite Hreg, elem_of_difference, elem_of_list_to_set, Hn.
    destruct (decide (k ∈ t_registered t)); set_solver. }
  split; [|exact Heq]. intros k. cbn [t_registered set_registered]. rewrite Heq. intros Hk.
  change (added (t_world t2) k). apply Hm. assert (Hw1 : t_world t1 = t_world t) by (rewrite Ht1; exact Hw). rewrite Hw1. by apply Hi.
Qed.
Lemma prepare_freeze records (t : txn) : exists ps o,
  freezePartitions (t_prod t) records = (set_partitioner (t_prod t) ps, o).
Proof.
  destruct (freeze_frame (t_prod t) records) as [ps Hps]. destruct (freezePartitions (t_prod t) records) as [p o].
  cbn [fst] in Hps. subst p. by exists ps, o.
Qed.

End facts.
