(* ===== verification/TransactionDemo.v ===== *)
(** The transactional producer in concrete environments. *)

From Stdlib Require Import ZArith Lia.
From Stdlib Require Import Strings.Byte.
From stdpp Require Import base list gmap countable strings.
From S2P Require Import Prelude.
From S2P Require Import Wire.
From S2P Require Import Header.
From S2P Require Import Compress.
From S2P Require Import CompressFacts.
From S2P Require Import RecordBatch.
From S2P Require Import ProduceCodec.
From S2P Require Import Kfake.
From S2P Require Import EndToEnd.
From S2P Require Import Metadata.
From S2P Require Import SeqState.
From S2P Require Import Retry.
From S2P Require Import Producer.
From S2P Require Import ProducerDemo.
From S2P Require Import OffsetCodec.
From S2P Require Import TxnCodec.
From S2P Require Import GoMonad.
From S2P Require Import Transaction.
From S2P Require Import TransactionFacts.

Open Scope Z_scope.

#[local] Existing Instance stored_codecs.

(** * A cluster that records the requests it serves *)

(** The world is the list of the API keys requested so far.  AddPartitionsToTxn
    and EndTxn are accepted, a produce request is acknowledged at offset 40. *)
Definition txn_reply (api : Z) : bytes :=
  if api =? APIInitProducerID then bytes_of (WriteInt32 0 +++ WriteInt16 0 +++ WriteInt64 9 +++ WriteInt16 1)
  else if api =? APIAddPartitionsTxn then bytes_of (WriteInt32 0 +++ WriteInt32 0)
  else if api =? APIEndTxn then
    bytes_of (WriteInt32 0 +++ WriteInt16 0 +++ WriteInt64 9 +++ WriteInt16 2 +++ WriteEmptyTagSection)
  else full_reply.

#[export] Instance recording_env : ClusterEnv (list Z) := {|
  env_open _ := true;
  env_cluster _ := store_metadata (one_partition 1);
  env_versions _ := None;
  env_RefreshIfStale _ w := (w, Ok tt);
  env_Refresh _ w := (w, Ok tt);
  env_Request _ api _ _ w := (w ++ [api], Ok (txn_reply api));
  env_RequestViaSeed api _ _ w := (w ++ [api], Ok (txn_reply api));
  env_TransactionCoordinator _ w := (w, Ok 1);
  env_Invalidate _ w := w;
  env_ctx _ := None;
  env_sleep _ w := (w, None);
  env_now _ _ := 1700000000000;
  env_clock _ _ _ _ := 1700000000000 |}.

#[export] Instance no_features W : FeatureEnv W | 10 := fun _ _ => None.

Definition txn_cfg : Config := mkConfig (-1) 0 0 false (str "tx") [] 0 (mkRetryConfig 5 0 0).

Definition rec_to (part : Z) : record := mkRecord (str "t") part (str "k") (str "v") [] None.

Definition begun : TransactionalProducer (list Z) Z :=
  fst (BeginTransaction txn_cfg (mkProducer [] 0 None) None).

(** The log of a producer id, a first registration, a send and the end. *)
Example transaction_run :
  let '(t1, (results, r1)) := ProduceWithinTxnResult txn_cfg [rec_to (-1)] begun in
  let '(t2, (_, r2)) := ProduceWithinTxnResult txn_cfg [rec_to 0] t1 in
  let '(t3, r3) := CommitTxn txn_cfg t2 in
  map prr_Offset results = [40] /\ r1 = Ok tt /\ r2 = Ok tt /\ r3 = Ok tt /\ t_open t3 = false /\
  t_world t3 = [APIInitProducerID; APIAddPartitionsTxn; APIProduce; APIProduce; APIEndTxn].
Proof. vm_compute. split_and!; reflexivity. Qed.

(** A partition is in the transaction once AddPartitionsToTxn was served. *)
Definition was_added (w : list Z) (_ : partKey) : Prop := APIAddPartitionsTxn ∈ w.

#[export] Instance recording_laws : CoordinatorLaws was_added.
Proof.
  split; unfold was_added; cbn; try done.
  - intros. apply elem_of_app. by left.
  - intros node txnID id epoch topics body w w' rb tp part _ [= <- _] _ _ _. apply elem_of_app. right. by left.
Qed.

Lemma begun_inv : reg_inv was_added begun.
Proof. intros k Hk. vm_compute in Hk. discriminate. Qed.


(** The same cluster with its calls kept in full. *)
Definition traced_txn_env : ClusterEnv (list Z * list call) := recorded.

Definition begun_traced : TransactionalProducer (list Z * list call) Z :=
  fst (BeginTransaction (H1 := traced_txn_env) txn_cfg (mkProducer ([], []) 0 None) None).

Lemma end_txn_spec_witness :
  t_open begun_traced = true /\
  exists t' c, endTxn (H1 := traced_txn_env) txn_cfg true begun_traced = (t', Ok tt) /\ t_open t' = false /\
    snd (t_world t') = snd (t_world begun_traced) ++ [c] /\ call_node c = 1 /\
    run (read_end_request 5) (call_body c) = Ok (str "tx", 9, 1, true).
Proof.
  split; [vm_compute; reflexivity|].
  assert (snd (endTxn (H1 := traced_txn_env) txn_cfg true begun_traced) = Ok tt) as Hok by (vm_compute; reflexivity).
  assert (length (snd (t_world (fst (endTxn (H1 := traced_txn_env) txn_cfg true begun_traced)))) =
    S (length (snd (t_world begun_traced)))) as Hlen by (vm_compute; reflexivity).
  destruct (endTxn (H1 := traced_txn_env) txn_cfg true begun_traced) as [t' o] eqn:E. cbn [fst snd] in Hok, Hlen. subst o.
  destruct (end_txn_spec (TracedEnv0 := recorded_traced) txn_cfg true begun_traced t' (Ok tt)
    ltac:(vm_compute; reflexivity) ltac:(vm_compute; reflexivity) ltac:(vm_compute; split; discriminate || reflexivity)
    ltac:(vm_compute; split; discriminate || reflexivity) E) as (new & Hc & Hsays & Hroute & _ & _ & Hopen).
  cbn [env_calls recorded_traced] in Hc. rewrite Hc, length_app in Hlen.
  destruct new as [|c [|? ?]]; [cbn in Hlen; lia| |cbn in Hlen; lia].
  exists t', c. split_and!; [done| |exact Hc| |].
  - destruct (t_open t'); [|done]. by destruct (Hopen eq_refl) as [?|(_ & e & ?)].
  - destruct Hroute as [Hn _]. exact Hn.
  - apply Forall_cons in Hsays as [(_ & _ & Hrd) _]. exact Hrd.
Defined.

(** A failed call leaves partitions marked as registered.
    [ensurePartitions] marks each partition while it resolves the records, and
    an error half way (here: partition 7 does not exist) does not unmark them.
    The next call for partition 0 sends its record without ever having added the
    partition to the transaction. *)
Theorem failed_resolve_leaks_registration :
  let '(t1, (_, r1)) := ProduceWithinTxnResult txn_cfg [rec_to 0; rec_to 7] begun in
  let '(t2, (results, r2)) := ProduceWithinTxnResult txn_cfg [rec_to 0] t1 in
  r1 = Err (KafkaError 5 (str "t") 7) /\ (str "t", 0) ∈ t_registered t1 /\
  r2 = Ok tt /\ map prr_Offset results = [40] /\ t_world t2 = [APIInitProducerID; APIProduce].
Proof. vm_compute. split_and!; reflexivity. Qed.

(** * A leader that moved *)

(** The world is the leader the metadata cache has; the real leader is 2, which
    [Refresh] learns and a fresh cache ([RefreshIfStale]) does not look for. *)
Definition moved_reply (node api : Z) : bytes :=
  if api =? APIProduce then
    if node =? 2 then full_reply else bytes_of (write_produce_response [(str "t", [mkPres 0 6 (-1)])])
  else txn_reply api.

#[local] Instance moved_env : ClusterEnv Z := {|
  env_open _ := true;
  env_cluster w := store_metadata (one_partition w);
  env_versions _ := None;
  env_RefreshIfStale _ w := (w, Ok tt);
  env_Refresh _ _ := (2, Ok tt);
  env_Request node api _ _ w := (w, Ok (moved_reply node api));
  env_RequestViaSeed api _ _ w := (w, Ok (moved_reply 0 api));
  env_TransactionCoordinator _ w := (w, Ok 1);
  env_Invalidate _ w := w;
  env_ctx _ := None;
  env_sleep _ w := (w, None);
  env_now _ _ := 1700000000000;
  env_clock _ _ _ _ := 1700000000000 |}.

(** A transaction does not follow a leader that moves.  The retries of
    [ProduceSyncResult] refresh the metadata after a retriable error and succeed
    at the new leader.  Those of [ProduceWithinTxnResult] only refresh stale
    metadata: while the cache is fresh, every attempt goes to the old leader, and
    the call fails with NOT_LEADER_OR_FOLLOWER. *)
Theorem txn_retries_stale_leader :
  let p : Producer Z Z := mkProducer 1 0 None in
  snd (snd (ProduceSyncResult demo_cfg p [rec_to 0])) = Ok tt /\
  let '(t, r) := BeginTransaction txn_cfg p None in
  r = Ok tt /\ snd (snd (ProduceWithinTxnResult txn_cfg [rec_to 0] t)) = Err (KafkaError 6 (str "t") 0).
Proof. vm_compute. split_and!; reflexivity. Qed.
