(* ===== verification/ShareCodec.v ===== *)
(** Share groups on the wire: ShareGroupHeartbeat, ShareGroupDescribe,
    ShareFetch, ShareAcknowledge and the share-group offset requests of
    [internal/protocol/share_*.go], and the incremental configuration changes
    of [admin_mutate.go] a share consumer makes when it joins.

    An acquired range of a ShareFetch response covers the offsets from its
    first to its last and gives the records among them their delivery count. *)

From Stdlib Require Import ZArith Lia.
From Stdlib Require Import Strings.Byte.
From stdpp Require Import base list gmap countable strings.
From S2P Require Import Prelude.
From S2P Require Import Wire.
From S2P Require Import Compress.
From S2P Require Import RecordBatch.
From S2P Require Import FetchCodec.
From S2P Require Import OffsetCodec.
From S2P Require Import GroupCodec.

Open Scope Z_scope.

Definition VerShareGroupHeartbeat := 1.
Definition VerShareGroupDescribe := 1.
Definition VerShareFetch := 2.
Definition VerShareAcknowledge := 2.

(** * Topic ids as text *)

Definition hex_digit (d : Z) : byte := nth (Z.to_nat d) (str "0123456789abcdef") x00.
Definition hex_byte (b : byte) : bytes := [hex_digit (b2z b / 16); hex_digit (b2z b mod 16)].
Definition hex (bs : bytes) : bytes := concat (map hex_byte bs).

Definition uuid_String (u : bytes) : bytes :=
  hex (take 4 u) ++ str "-" ++ hex (take 2 (drop 4 u)) ++ str "-" ++ hex (take 2 (drop 6 u)) ++ str "-" ++
  hex (take 2 (drop 8 u)) ++ str "-" ++ hex (take 6 (drop 10 u)).

(** * Acknowledgements *)

Inductive ShareAckType := ShareAckGap | ShareAckAccept | ShareAckRelease | ShareAckReject | ShareAckRenew.

#[export] Instance share_ack_type_eq_dec : EqDecision ShareAckType.
Proof. solve_decision. Defined.

Definition ack_code (t : ShareAckType) : Z :=
  match t with
  | ShareAckGap => 0
  | ShareAckAccept => 1
  | ShareAckRelease => 2
  | ShareAckReject => 3
  | ShareAckRenew => 4
  end.

Record ShareAckBatch := mkAckBatch { ab_FirstOffset : Z; ab_LastOffset : Z; ab_Type : ShareAckType }.

Record ShareFetchPartition := mkShareFetchPartition {
  sp_TopicID : bytes;
  sp_Partition : Z;
  sp_AckBatches : list ShareAckBatch }.

Definition write_ack_batch (ab : ShareAckBatch) : Enc :=
  WriteInt64 (ab_FirstOffset ab) +++ WriteInt64 (ab_LastOffset ab) +++ WriteCompactArrayLen 1 +++
  WriteInt8 (ack_code (ab_Type ab)) +++ WriteEmptyTagSection.

Definition write_share_partition (p : ShareFetchPartition) : Enc :=
  WriteInt32 (sp_Partition p) +++ WriteCompactArrayLen (len (sp_AckBatches p)) +++
  enc_list write_ack_batch (sp_AckBatches p) +++ WriteEmptyTagSection.

Definition write_share_topic (tp : bytes * list ShareFetchPartition) : Enc :=
  WriteUUID (fst tp) +++ WriteCompactArrayLen (len (snd tp)) +++
  enc_list write_share_partition (snd tp) +++ WriteEmptyTagSection.

(** * ShareAcknowledge *)

Record ShareAcknowledgeRequest := mkShareAcknowledgeRequest {
  sa_GroupID : bytes;
  sa_MemberID : bytes;
  sa_ShareSessionEpoch : Z;
  sa_Partitions : list ShareFetchPartition }.

Definition has_renew (parts : list ShareFetchPartition) : bool :=
  existsb (fun p => existsb (fun ab => bool_decide (ab_Type ab = ShareAckRenew)) (sp_AckBatches p)) parts.

Definition EncodeShareAcknowledgeRequest (ver : Z) (req : ShareAcknowledgeRequest) : Enc :=
  let ver := if ver <=? 0 then VerShareAcknowledge else ver in
  let groups := group_by sp_TopicID (sa_Partitions req) in
  WriteCompactString (sa_GroupID req) +++ WriteCompactString (sa_MemberID req) +++
  WriteInt32 (sa_ShareSessionEpoch req) +++
  enc_if (ver >=? 2) (WriteBool (has_renew (sa_Partitions req))) +++
  WriteCompactArrayLen (len groups) +++ enc_list write_share_topic groups +++ WriteEmptyTagSection.

(** The hints of both share responses: node, host, port and rack. *)
Definition read_node_endpoints : Rd unit :=
  nEnd <- ReadUvarint ;;
  rd_for (nEnd - 1) (fun _ =>
    ReadInt32 ;;;
    ReadCompactString ;;;
    ReadInt32 ;;;
    ReadCompactNullableString ;;;
    SkipTagSection) tt.

Definition read_ack_partition : Rd unit :=
  ReadInt32 ;;;
  code <- ReadInt16 ;;
  ReadCompactNullableString ;;;
  ReadInt32 ;;;
  ReadInt32 ;;;
  SkipTagSection ;;;
  SkipTagSection ;;;
  if negb (code =? 0) then fail (APIError "share acknowledge" code) else ret tt.

Definition read_ack_topic : Rd unit :=
  ReadUUID ;;;
  nParts <- ReadUvarint ;;
  rd_for (nParts - 1) (fun _ => read_ack_partition) tt ;;;
  SkipTagSection.

(** The code returned beside an error is not used by any caller; without an
    error it is 0. *)
Definition read_share_acknowledge (ver : Z) : Rd Z :=
  ReadInt32 ;;;
  topErr <- ReadInt16 ;;
  ReadCompactNullableString ;;;
  rd_if (ver >=? 2) ReadInt32 ;;;
  if negb (topErr =? 0) then fail (APIError "share acknowledge" topErr) else
  nTopics <- ReadUvarint ;;
  rd_for (nTopics - 1) (fun _ => read_ack_topic) tt ;;;
  read_node_endpoints ;;;
  SkipTagSection ;;;
  ret 0.

Definition DecodeShareAcknowledgeResponse (ver : Z) (body : bytes) : res Z := run (read_share_acknowledge ver) body.

(** * ShareFetch *)

Record ShareFetchRequest := mkShareFetchRequest {
  sf_GroupID : bytes;
  sf_MemberID : bytes;
  sf_ShareSessionEpoch : Z;
  sf_MaxWaitMs : Z;
  sf_MinBytes : Z;
  sf_MaxBytes : Z;
  sf_MaxRecords : Z;
  sf_BatchSize : Z;
  sf_ShareAcquireMode : Z;
  sf_IsRenewAck : bool;
  sf_Partitions : list ShareFetchPartition }.

Record ShareFetchResponse := mkShareFetchResponse {
  sr_ThrottleTimeMs : Z;
  sr_ErrorCode : Z;
  sr_AcquisitionLockTimeoutMs : Z;
  sr_Records : list FetchedRecord }.

Definition EncodeShareFetchRequest (apiVersion : Z) (req : ShareFetchRequest) : Enc :=
  let groups := group_by sp_TopicID (sf_Partitions req) in
  WriteCompactString (sf_GroupID req) +++ WriteCompactString (sf_MemberID req) +++
  WriteInt32 (sf_ShareSessionEpoch req) +++ WriteInt32 (sf_MaxWaitMs req) +++ WriteInt32 (sf_MinBytes req) +++
  WriteInt32 (sf_MaxBytes req) +++ WriteInt32 (sf_MaxRecords req) +++ WriteInt32 (sf_BatchSize req) +++
  enc_if (apiVersion >=? 2) (WriteInt8 (sf_ShareAcquireMode req) +++ WriteBool (sf_IsRenewAck req)) +++
  WriteCompactArrayLen (len groups) +++ enc_list write_share_topic groups +++
  WriteCompactArrayLen 0 +++ WriteEmptyTagSection.

Definition set_delivery_count (first last dc : Z) (r : FetchedRecord) : FetchedRecord :=
  if (fr_Offset r >=? first) && (fr_Offset r <=? last)
  then mkFetchedRecord (fr_Topic r) (fr_Partition r) (fr_Offset r) (fr_Key r) (fr_Value r) (fr_Headers r)
         (fr_Timestamp r) (fr_Control r) dc
  else r.

Definition read_acquired (recs : list FetchedRecord) : Rd (list FetchedRecord) :=
  first <- ReadInt64 ;;
  last <- ReadInt64 ;;
  dc <- ReadInt16 ;;
  SkipTagSection ;;;
  ret (map (set_delivery_count first last dc) recs).

Section fetch.
Context `{Codecs}.

Definition read_share_partition (topic : bytes) : Rd (list FetchedRecord) :=
  part <- ReadInt32 ;;
  errCode <- ReadInt16 ;;
  ReadCompactNullableString ;;;
  ReadInt16 ;;;
  ReadCompactNullableString ;;;
  ReadInt32 ;;;
  ReadInt32 ;;;
  SkipTagSection ;;;
  records <- ReadCompactBytes ;;
  if negb (errCode =? 0) then fail (FmtError "protocol: share fetch partition error" errCode) else
  recs <- (if len (default [] records) >? 0 then lift (decodeRecordBatch topic part (default [] records) [])
           else ret []) ;;
  nAcq <- ReadUvarint ;;
  recs <- rd_for (nAcq - 1) read_acquired recs ;;
  SkipTagSection ;;;
  ret recs.

Definition read_share_fetch_topic (topicName : bytes -> option bytes) : Rd (list FetchedRecord) :=
  tid <- ReadUUID ;;
  nParts <- ReadUvarint ;;
  recs <- rd_flat (nParts - 1) (read_share_partition (default (uuid_String tid) (topicName tid))) ;;
  SkipTagSection ;;;
  ret recs.

Definition read_share_fetch (topicName : bytes -> option bytes) : Rd ShareFetchResponse :=
  ReadInt32 ;;;
  topErr <- ReadInt16 ;;
  ReadCompactNullableString ;;;
  lockMs <- ReadInt32 ;;
  if negb (topErr =? 0) then fail (APIError "share fetch" topErr) else
  nTopics <- ReadUvarint ;;
  records <- rd_flat (nTopics - 1) (read_share_fetch_topic topicName) ;;
  read_node_endpoints ;;;
  SkipTagSection ;;;
  ret (mkShareFetchResponse 0 0 lockMs records).

Definition DecodeShareFetchResponse (body : bytes) (topicName : bytes -> option bytes) : res ShareFetchResponse :=
  run (read_share_fetch topicName) body.
End fetch.

(** * ShareGroupHeartbeat *)

Record ShareGroupHeartbeatRequest := mkShareHeartbeatRequest {
  sh_GroupID : bytes;
  sh_MemberID : bytes;
  sh_MemberEpoch : Z;
  sh_RackID : option bytes;
  sh_SubscribedTopicNames : option (list bytes) }.

Record ShareGroupHeartbeatResponse := mkShareHeartbeatResponse {
  shr_ThrottleTimeMs : Z;
  shr_ErrorCode : Z;
  shr_ErrorMessage : bytes;
  shr_MemberID : bytes;
  shr_MemberEpoch : Z;
  shr_HeartbeatIntervalMs : Z;
  shr_Assignment : list TopicIDPartitions }.

Definition EncodeShareGroupHeartbeatRequest (req : ShareGroupHeartbeatRequest) : Enc :=
  WriteCompactString (sh_GroupID req) +++ WriteCompactString (sh_MemberID req) +++
  WriteInt32 (sh_MemberEpoch req) +++ WriteCompactNullableString (sh_RackID req) +++
  writeCompactNullableStringArray (sh_SubscribedTopicNames req) +++ WriteEmptyTagSection.

Definition read_share_heartbeat : Rd ShareGroupHeartbeatResponse :=
  throttle <- ReadInt32 ;;
  code <- ReadInt16 ;;
  msg <- ReadCompactNullableString ;;
  member <- ReadCompactNullableString ;;
  epoch <- ReadInt32 ;;
  interval <- ReadInt32 ;;
  presence <- ReadInt8 ;;
  assignment <-
    (if presence >=? 0 then
       nTP <- ReadUvarint ;;
       tps <- rd_list (nTP - 1) readTopicIDPartitions ;;
       SkipTagSection ;;;
       ret tps
     else ret []) ;;
  SkipTagSection ;;;
  if negb (code =? 0) then fail (APIError "share group heartbeat" code) else
  ret (mkShareHeartbeatResponse throttle code msg member epoch interval assignment).

Definition DecodeShareGroupHeartbeatResponse (body : bytes) : res ShareGroupHeartbeatResponse :=
  run read_share_heartbeat body.

(** * ShareGroupDescribe *)

Record ShareGroupMemberDescription := mkShareMember {
  sm_MemberID : bytes;
  sm_RackID : bytes;
  sm_MemberEpoch : Z;
  sm_ClientID : bytes;
  sm_ClientHost : bytes;
  sm_SubscribedTopicNames : list bytes }.

Record ShareGroupDescription := mkShareGroup {
  sg_ErrorCode : Z;
  sg_ErrorMessage : bytes;
  sg_GroupID : bytes;
  sg_GroupState : bytes;
  sg_GroupEpoch : Z;
  sg_AssignmentEpoch : Z;
  sg_AssignorName : bytes;
  sg_Members : list ShareGroupMemberDescription;
  sg_AuthorizedOps : Z }.

Definition EncodeShareGroupDescribeRequest (groups : list bytes) (includeAuthorizedOps : bool) : Enc :=
  WriteCompactArrayLen (len groups) +++ enc_list WriteCompactString groups +++
  WriteBool includeAuthorizedOps +++ WriteEmptyTagSection.

Definition skipShareMemberAssignment : Rd unit :=
  assignMark <- ReadUvarint ;;
  if assignMark <=? 1 then ret tt else
  nTP <- ReadUvarint ;;
  rd_for (nTP - 1) (fun _ =>
    ReadUUID ;;;
    ReadCompactString ;;;
    nParts <- ReadUvarint ;;
    rd_for (nParts - 1) (fun _ => ReadInt32 ;;; ret tt) tt) tt.

Definition read_share_member : Rd ShareGroupMemberDescription :=
  member <- ReadCompactString ;;
  rack <- ReadCompactNullableString ;;
  epoch <- ReadInt32 ;;
  client <- ReadCompactString ;;
  host <- ReadCompactString ;;
  nTopics <- ReadUvarint ;;
  topics <- rd_list (nTopics - 1) ReadCompactString ;;
  skipShareMemberAssignment ;;;
  SkipTagSection ;;;
  ret (mkShareMember member rack epoch client host topics).

Definition read_share_group : Rd ShareGroupDescription :=
  code <- ReadInt16 ;;
  msg <- ReadCompactNullableString ;;
  group <- ReadCompactString ;;
  state <- ReadCompactString ;;
  epoch <- ReadInt32 ;;
  assignmentEpoch <- ReadInt32 ;;
  assignor <- ReadCompactString ;;
  nMembers <- ReadUvarint ;;
  members <- rd_list (nMembers - 1) read_share_member ;;
  ops <- ReadInt32 ;;
  SkipTagSection ;;;
  ret (mkShareGroup code msg group state epoch assignmentEpoch assignor members ops).

Definition DecodeShareGroupDescribeResponse (body : bytes) : res (list ShareGroupDescription) :=
  run (ReadInt32 ;;;
       nGroups <- ReadUvarint ;;
       out <- rd_list (nGroups - 1) read_share_group ;;
       SkipTagSection ;;;
       ret out) body.

(** * Share-group offsets *)

Record ShareGroupOffset := mkShareGroupOffset {
  so_Topic : bytes;
  so_Partition : Z;
  so_StartOffset : Z;
  so_LeaderEpoch : Z;
  so_ErrorCode : Z;
  so_ErrorMessage : bytes }.

Definition EncodeDescribeShareGroupOffsetsRequest (group : bytes) : Enc :=
  WriteCompactArrayLen 1 +++ WriteCompactString group +++ WriteUvarint 0 +++ WriteEmptyTagSection +++ WriteEmptyTagSection.

Definition read_share_offset (topic : bytes) : Rd ShareGroupOffset :=
  part <- ReadInt32 ;;
  start <- ReadInt64 ;;
  epoch <- ReadInt32 ;;
  code <- ReadInt16 ;;
  msg <- ReadCompactNullableString ;;
  SkipTagSection ;;;
  ret (mkShareGroupOffset topic part start epoch code msg).

Definition read_share_offset_topic : Rd (list ShareGroupOffset) :=
  topic <- ReadCompactString ;;
  ReadUUID ;;;
  nParts <- ReadUvarint ;;
  offsets <- rd_list (nParts - 1) (read_share_offset topic) ;;
  SkipTagSection ;;;
  ret offsets.

(** [if code != 0 && first == 0 { first = code }] *)
Definition first_code (first code : Z) : Z := if negb (code =? 0) && (first =? 0) then code else first.

Definition read_share_offset_group (st : Z * list ShareGroupOffset) : Rd (Z * list ShareGroupOffset) :=
  ReadCompactString ;;;
  nTopics <- ReadUvarint ;;
  offsets <- rd_flat (nTopics - 1) read_share_offset_topic ;;
  gerr <- ReadInt16 ;;
  ReadCompactNullableString ;;;
  SkipTagSection ;;;
  ret (first_code (fst st) gerr, snd st ++ offsets).

Definition DecodeDescribeShareGroupOffsetsResponse (body : bytes) : res (Z * list ShareGroupOffset) :=
  run (ReadInt32 ;;;
       nGroups <- ReadUvarint ;;
       out <- rd_for (nGroups - 1) read_share_offset_group (0, []) ;;
       SkipTagSection ;;;
       ret out) body.

Section alter_offsets.
Context `{MapOrder}.

Definition write_share_offset (po : Z * Z) : Enc := WriteInt32 (fst po) +++ WriteInt64 (snd po) +++ WriteEmptyTagSection.

Definition write_share_offset_topic (tp : bytes * gmap Z Z) : Enc :=
  WriteCompactString (fst tp) +++ WriteCompactArrayLen (len (range (snd tp))) +++
  enc_list write_share_offset (range (snd tp)) +++ WriteEmptyTagSection.

Definition EncodeAlterShareGroupOffsetsRequest (group : bytes) (offsets : gmap bytes (gmap Z Z)) : Enc :=
  WriteCompactString group +++ WriteCompactArrayLen (len (range offsets)) +++
  enc_list write_share_offset_topic (range offsets) +++ WriteEmptyTagSection.
End alter_offsets.

Definition read_alter_partition (firstErr : Z) : Rd Z :=
  ReadInt32 ;;;
  pErr <- ReadInt16 ;;
  ReadCompactNullableString ;;;
  SkipTagSection ;;;
  ret (first_code firstErr pErr).

Definition read_alter_topic (firstErr : Z) : Rd Z :=
  ReadCompactString ;;;
  ReadUUID ;;;
  nParts <- ReadUvarint ;;
  firstErr <- rd_for (nParts - 1) read_alter_partition firstErr ;;
  SkipTagSection ;;;
  ret firstErr.

(** The head both answers share: throttle time, error code and message. *)
Definition read_offsets_head : Rd Z := ReadInt32 ;;; code <- ReadInt16 ;; ReadCompactNullableString ;;; ret code.

Definition DecodeAlterShareGroupOffsetsResponse (body : bytes) : res Z :=
  run (firstErr <- read_offsets_head ;;
       nTopics <- ReadUvarint ;;
       firstErr <- rd_for (nTopics - 1) read_alter_topic firstErr ;;
       SkipTagSection ;;;
       ret firstErr) body.

Definition EncodeDeleteShareGroupOffsetsRequest (group : bytes) (topics : list bytes) : Enc :=
  WriteCompactString group +++ WriteCompactArrayLen (len topics) +++
  enc_list (fun topic => WriteCompactString topic +++ WriteEmptyTagSection) topics +++ WriteEmptyTagSection.

Definition read_delete_topic (firstErr : Z) : Rd Z :=
  ReadCompactString ;;;
  ReadUUID ;;;
  tErr <- ReadInt16 ;;
  ReadCompactNullableString ;;;
  SkipTagSection ;;;
  ret (first_code firstErr tErr).

Definition DecodeDeleteShareGroupOffsetsResponse (body : bytes) : res Z :=
  run (firstErr <- read_offsets_head ;;
       nTopics <- ReadUvarint ;;
       firstErr <- rd_for (nTopics - 1) read_delete_topic firstErr ;;
       SkipTagSection ;;;
       ret firstErr) body.

(** * Safety of the decoders *)

Lemma safe_node_endpoints : Safe read_node_endpoints.
Proof. unfold read_node_endpoints. solve_safe. Qed.
#[export] Hint Resolve safe_node_endpoints : wire.

Lemma share_acknowledge_safe ver body : DecodeShareAcknowledgeResponse ver body <> Panic.
Proof. apply safe_run. unfold read_share_acknowledge, read_ack_topic, read_ack_partition. solve_safe. Qed.

Lemma share_heartbeat_safe body : DecodeShareGroupHeartbeatResponse body <> Panic.
Proof. apply safe_run. unfold read_share_heartbeat. solve_safe. Qed.

Lemma share_describe_safe body : DecodeShareGroupDescribeResponse body <> Panic.
Proof. apply safe_run. unfold read_share_group, read_share_member, skipShareMemberAssignment. solve_safe. Qed.

Lemma share_offsets_safe body : DecodeDescribeShareGroupOffsetsResponse body <> Panic.
Proof. apply safe_run. unfold read_share_offset_group, read_share_offset_topic, read_share_offset. solve_safe. Qed.

Lemma alter_share_offsets_safe body : DecodeAlterShareGroupOffsetsResponse body <> Panic.
Proof. apply safe_run. unfold read_offsets_head, read_alter_topic, read_alter_partition. solve_safe. Qed.

Lemma delete_share_offsets_safe body : DecodeDeleteShareGroupOffsetsResponse body <> Panic.
Proof. apply safe_run. unfold read_offsets_head, read_delete_topic. solve_safe. Qed.

Lemma share_fetch_safe `{CodecLaws} body topicName : DecodeShareFetchResponse body topicName <> Panic.
Proof.
  apply safe_run. unfold read_share_fetch, read_share_fetch_topic, read_share_partition, read_acquired.
  solve_safe. apply decodeRecordBatch_no_panic.
Qed.
