(* ===== verification/AdminCodec.v ===== *)
(** The administrative changes of [internal/protocol/admin_mutate.go]: the
    answers to topic creation and deletion, configuration changes (replacing
    and incremental), new partitions, deleted offsets and deleted groups.

    A loop that returns from inside is [rd_for_brk]: the flag says that the
    function has returned. *)

From Stdlib Require Import ZArith Lia.
From Stdlib Require Import Strings.Byte.
From stdpp Require Import base list gmap countable strings.
From S2P Require Import Prelude.
From S2P Require Import Wire.
From S2P Require Import Metadata.
From S2P Require Import OffsetCodec.
From S2P Require Import GroupCodec.

Open Scope Z_scope.

Definition VerCreatePartitions := 2.
Definition VerIncrementalAlterConfigs := 0.
Definition ConfigResourceTopic := 2.
Definition ConfigResourceGroup := 32.
Definition ConfigOpSet := 0.
Definition ConfigOpDelete := 1.

(** * Topics *)

Record TopicMutationResult := mkTopicResult { tr_Topic : bytes; tr_ErrorCode : Z }.

Definition read_topic_result_legacy : Rd TopicMutationResult :=
  name <- ReadString ;;
  code <- ReadInt16 ;;
  readNullableString ;;;
  ret (mkTopicResult name code).

Definition decodeCreateTopicsResponseLegacy : Rd (list TopicMutationResult) :=
  ReadInt32 ;;;
  n <- ReadInt32 ;;
  rd_list n read_topic_result_legacy.

Definition read_created_topic_flex : Rd TopicMutationResult :=
  name <- ReadCompactString ;;
  code <- ReadInt16 ;;
  ReadCompactNullableString ;;;
  ReadInt32 ;;;
  ReadInt16 ;;;
  ReadCompactBytes ;;;
  SkipTagSection ;;;
  ret (mkTopicResult name code).

Definition decodeCreateTopicsResponseFlex : Rd (list TopicMutationResult) :=
  ReadInt32 ;;;
  n <- ReadUvarint ;;
  out <- rd_list (n - 1) read_created_topic_flex ;;
  SkipTagSection ;;;
  ret out.

Definition DecodeCreateTopicsResponse (body : bytes) : res (list TopicMutationResult) :=
  if VerCreateTopics >=? 5 then run decodeCreateTopicsResponseFlex body else run decodeCreateTopicsResponseLegacy body.

Definition read_deleted_topic : Rd TopicMutationResult :=
  name <- ReadCompactString ;;
  code <- ReadInt16 ;;
  SkipTagSection ;;;
  ret (mkTopicResult name code).

Definition DecodeDeleteTopicsResponse (body : bytes) : res (list TopicMutationResult) :=
  run (ReadInt32 ;;;
       n <- ReadUvarint ;;
       out <- rd_list (n - 1) read_deleted_topic ;;
       SkipTagSection ;;;
       ret out) body.

(** [FirstTopicError], whose flag is [Some]. *)
Fixpoint FirstTopicError (results : list TopicMutationResult) : option TopicMutationResult :=
  match results with
  | [] => None
  | r :: rest => if negb (tr_ErrorCode r =? 0) then Some r else FirstTopicError rest
  end.

(** * Configurations *)

(** A nil value deletes the configuration. *)
Record ConfigAlteration := mkConfigAlteration { ca_Name : bytes; ca_Value : option bytes }.

Definition configOp (a : ConfigAlteration) : Z :=
  match ca_Value a with None => ConfigOpDelete | Some _ => ConfigOpSet end.

Section configs.
Context `{MapOrder}.
Implicit Types resources : gmap bytes (list ConfigAlteration).

Definition write_alter_resource_legacy (na : bytes * list ConfigAlteration) : Enc :=
  WriteInt8 ConfigResourceTopic +++ WriteString (fst na) +++ WriteInt32 (s32 (len (snd na))) +++
  enc_list (fun a => WriteString (ca_Name a) +++ WriteNullableString (ca_Value a)) (snd na).

Definition encodeAlterConfigsRequestLegacy resources : Enc :=
  WriteInt32 (s32 (len (range resources))) +++ enc_list write_alter_resource_legacy (range resources) +++
  WriteBool false.

Definition write_alter_resource_flex (na : bytes * list ConfigAlteration) : Enc :=
  WriteInt8 ConfigResourceTopic +++ WriteCompactString (fst na) +++ WriteCompactArrayLen (len (snd na)) +++
  enc_list (fun a => WriteCompactString (ca_Name a) +++ WriteCompactNullableString (ca_Value a) +++ WriteEmptyTagSection)
    (snd na) +++
  WriteEmptyTagSection.

Definition encodeAlterConfigsRequestFlex resources : Enc :=
  WriteCompactArrayLen (len (range resources)) +++ enc_list write_alter_resource_flex (range resources) +++
  WriteBool false +++ WriteEmptyTagSection.

Definition EncodeAlterConfigsRequest (version : Z) resources : Enc :=
  if version >=? 2 then encodeAlterConfigsRequestFlex resources else encodeAlterConfigsRequestLegacy resources.

Definition write_config_legacy (a : ConfigAlteration) : Enc :=
  WriteString (ca_Name a) +++ WriteInt8 (configOp a) +++
  match ca_Value a with Some v => WriteString v | None => WriteInt16 (-1) end.

Definition write_incremental_resource_legacy (resourceType : Z) (na : bytes * list ConfigAlteration) : Enc :=
  WriteInt8 resourceType +++ WriteString (fst na) +++ WriteInt32 (s32 (len (snd na))) +++
  enc_list write_config_legacy (snd na).

Definition encodeIncrementalAlterConfigsLegacy (resourceType : Z) resources : Enc :=
  WriteInt32 (s32 (len (range resources))) +++
  enc_list (write_incremental_resource_legacy resourceType) (range resources) +++ WriteBool false.

Definition write_config_flex (a : ConfigAlteration) : Enc :=
  WriteCompactString (ca_Name a) +++ WriteInt8 (configOp a) +++ WriteCompactNullableString (ca_Value a) +++
  WriteEmptyTagSection.

Definition write_incremental_resource_flex (resourceType : Z) (na : bytes * list ConfigAlteration) : Enc :=
  WriteInt8 resourceType +++ WriteCompactString (fst na) +++ WriteCompactArrayLen (len (snd na)) +++
  enc_list write_config_flex (snd na) +++ WriteEmptyTagSection.

Definition encodeIncrementalAlterConfigsFlex (resourceType : Z) resources : Enc :=
  WriteCompactArrayLen (len (range resources)) +++
  enc_list (write_incremental_resource_flex resourceType) (range resources) +++
  WriteBool false +++ WriteEmptyTagSection.

Definition EncodeIncrementalAlterConfigsRequest (version resourceType : Z) resources : Enc :=
  if version >=? 1 then encodeIncrementalAlterConfigsFlex resourceType resources
  else encodeIncrementalAlterConfigsLegacy resourceType resources.
End configs.

(** A pass of the loops below returns the first code that is not 0. *)
Definition altered_legacy (_ : Z) : Rd (Z * bool) :=
  code <- ReadInt16 ;;
  readNullableString ;;;
  ReadInt8 ;;;
  ReadString ;;;
  if negb (code =? 0) then ret (code, true) else ret (0, false).

Definition decodeAlterConfigsResponseLegacy : Rd Z :=
  ReadInt32 ;;;
  n <- ReadInt32 ;;
  r <- rd_for_brk n altered_legacy 0 ;;
  ret (fst r).

Definition altered_flex (_ : Z) : Rd (Z * bool) :=
  code <- ReadInt16 ;;
  ReadCompactNullableString ;;;
  ReadInt8 ;;;
  ReadCompactString ;;;
  if negb (code =? 0) then ret (code, true) else (SkipTagSection ;;; ret (0, false)).

Definition decodeAlterConfigsResponseFlex : Rd Z :=
  ReadInt32 ;;;
  n <- ReadUvarint ;;
  r <- rd_for_brk (n - 1) altered_flex 0 ;;
  if snd r then ret (fst r) else (SkipTagSection ;;; ret 0).

Definition DecodeAlterConfigsResponse (version : Z) (body : bytes) : res Z :=
  if version >=? 2 then run decodeAlterConfigsResponseFlex body else run decodeAlterConfigsResponseLegacy body.

Definition DecodeIncrementalAlterConfigsResponse (version : Z) (body : bytes) : res Z :=
  if version >=? 1 then run decodeAlterConfigsResponseFlex body else run decodeAlterConfigsResponseLegacy body.

(** * Partitions *)

Record CreatePartitionsSpec := mkCreatePartitions {
  cp_Topic : bytes;
  cp_Count : Z;
  cp_Assignment : list (list Z) }.

Definition encodeCreatePartitionsLegacy (specs : list CreatePartitionsSpec) (timeoutMs : Z) : Enc :=
  WriteInt32 (s32 (len specs)) +++
  enc_list (fun s => WriteString (cp_Topic s) +++ WriteInt32 (cp_Count s) +++ WriteInt32 (-1)) specs +++
  WriteInt32 timeoutMs +++ WriteBool false.

Definition write_replicas (replicas : list Z) : Enc := WriteCompactArrayLen (len replicas) +++ enc_list WriteInt32 replicas.

Definition write_new_partitions (s : CreatePartitionsSpec) : Enc :=
  WriteCompactString (cp_Topic s) +++ WriteInt32 (cp_Count s) +++
  (if len (cp_Assignment s) >? 0
   then WriteCompactArrayLen (len (cp_Assignment s)) +++ enc_list write_replicas (cp_Assignment s)
   else WriteUvarint 0) +++
  WriteEmptyTagSection.

Definition encodeCreatePartitionsFlex (specs : list CreatePartitionsSpec) (timeoutMs : Z) : Enc :=
  WriteCompactArrayLen (len specs) +++ enc_list write_new_partitions specs +++
  WriteInt32 timeoutMs +++ WriteBool false +++ WriteEmptyTagSection.

Definition EncodeCreatePartitionsRequest (version : Z) (specs : list CreatePartitionsSpec) (timeoutMs : Z) : Enc :=
  let timeoutMs := if timeoutMs <=? 0 then 30000 else timeoutMs in
  if version >=? 2 then encodeCreatePartitionsFlex specs timeoutMs else encodeCreatePartitionsLegacy specs timeoutMs.

Definition decodeCreatePartitionsResponseLegacy : Rd (list TopicMutationResult) :=
  ReadInt32 ;;;
  n <- ReadInt32 ;;
  rd_list n read_topic_result_legacy.

Definition read_partitions_result_flex : Rd TopicMutationResult :=
  name <- ReadCompactString ;;
  code <- ReadInt16 ;;
  ReadCompactNullableString ;;;
  SkipTagSection ;;;
  ret (mkTopicResult name code).

Definition decodeCreatePartitionsResponseFlex : Rd (list TopicMutationResult) :=
  ReadInt32 ;;;
  n <- ReadUvarint ;;
  out <- rd_list (n - 1) read_partitions_result_flex ;;
  SkipTagSection ;;;
  ret out.

Definition DecodeCreatePartitionsResponse (version : Z) (body : bytes) : res (list TopicMutationResult) :=
  if version >=? 2 then run decodeCreatePartitionsResponseFlex body else run decodeCreatePartitionsResponseLegacy body.

(** * Committed offsets *)

Section offsets.
Context `{MapOrder}.

Definition encodeOffsetDeleteLegacy (groupID : bytes) (offsets : gmap bytes (list Z)) : Enc :=
  WriteString groupID +++ WriteInt32 (s32 (len (range offsets))) +++
  enc_list (fun tp => WriteString (fst tp) +++ WriteInt32 (s32 (len (snd tp))) +++ enc_list WriteInt32 (snd tp))
    (range offsets).

Definition encodeOffsetDeleteFlex (groupID : bytes) (offsets : gmap bytes (list Z)) : Enc :=
  WriteCompactString groupID +++ WriteCompactArrayLen (len (range offsets)) +++
  enc_list (fun tp => WriteCompactString (fst tp) +++ WriteCompactArrayLen (len (snd tp)) +++ enc_list WriteInt32 (snd tp))
    (range offsets) +++
  WriteEmptyTagSection.

Definition EncodeOffsetDeleteRequest (version : Z) (groupID : bytes) (offsets : gmap bytes (list Z)) : Enc :=
  if version >=? 1 then encodeOffsetDeleteFlex groupID offsets else encodeOffsetDeleteLegacy groupID offsets.
End offsets.

Definition deleted_partition (_ : Z) : Rd (Z * bool) :=
  ReadInt32 ;;;
  code <- ReadInt16 ;;
  ret (code, negb (code =? 0)).

Definition deleted_topic_legacy (_ : Z) : Rd (Z * bool) :=
  ReadString ;;;
  nParts <- ReadInt32 ;;
  rd_for_brk nParts deleted_partition 0.

Definition decodeOffsetDeleteResponseLegacy : Rd Z :=
  code <- ReadInt16 ;;
  ReadInt32 ;;;
  if negb (code =? 0) then ret code else
  n <- ReadInt32 ;;
  r <- rd_for_brk n deleted_topic_legacy 0 ;;
  ret (if snd r then fst r else 0).

Definition deleted_topic_flex (_ : Z) : Rd (Z * bool) :=
  ReadCompactString ;;;
  nParts <- ReadUvarint ;;
  rd_for_brk (nParts - 1) deleted_partition 0.

Definition decodeOffsetDeleteResponseFlex : Rd Z :=
  ReadInt32 ;;;
  n <- ReadUvarint ;;
  r <- rd_for_brk (n - 1) deleted_topic_flex 0 ;;
  if snd r then ret (fst r) else (SkipTagSection ;;; ret 0).

Definition DecodeOffsetDeleteResponse (version : Z) (body : bytes) : res Z :=
  if version >=? 1 then run decodeOffsetDeleteResponseFlex body else run decodeOffsetDeleteResponseLegacy body.

(** * Groups *)

Definition EncodeDeleteGroupsRequest (groups : list bytes) : Enc :=
  WriteCompactArrayLen (len groups) +++ enc_list WriteCompactString groups +++ WriteEmptyTagSection.

Record GroupMutationResult := mkGroupResult { gr_GroupID : bytes; gr_ErrorCode : Z }.

Definition read_group_result : Rd GroupMutationResult :=
  id <- ReadCompactString ;;
  code <- ReadInt16 ;;
  SkipTagSection ;;;
  ret (mkGroupResult id code).

Definition DecodeDeleteGroupsResponse (body : bytes) : res (list GroupMutationResult) :=
  run (ReadInt32 ;;;
       n <- ReadUvarint ;;
       out <- rd_list (n - 1) read_group_result ;;
       SkipTagSection ;;;
       ret out) body.

Fixpoint FirstGroupError (results : list GroupMutationResult) : option GroupMutationResult :=
  match results with
  | [] => None
  | r :: rest => if negb (gr_ErrorCode r =? 0) then Some r else FirstGroupError rest
  end.

(** * Safety of the decoders *)

Lemma create_topics_safe body : DecodeCreateTopicsResponse body <> Panic.
Proof. apply safe_run. unfold decodeCreateTopicsResponseLegacy, read_topic_result_legacy, readNullableString. solve_safe. Qed.

Lemma delete_topics_safe body : DecodeDeleteTopicsResponse body <> Panic.
Proof. apply safe_run. unfold read_deleted_topic. solve_safe. Qed.

Lemma safe_alter_legacy : Safe decodeAlterConfigsResponseLegacy.
Proof. unfold decodeAlterConfigsResponseLegacy, altered_legacy, readNullableString. solve_safe. Qed.
Lemma safe_alter_flex : Safe decodeAlterConfigsResponseFlex.
Proof. unfold decodeAlterConfigsResponseFlex, altered_flex. solve_safe. Qed.
#[export] Hint Resolve safe_alter_legacy safe_alter_flex : wire.

Lemma alter_configs_safe ver body : DecodeAlterConfigsResponse ver body <> Panic.
Proof. unfold DecodeAlterConfigsResponse. destruct (_ >=? 2); apply safe_run; auto with wire. Qed.

Lemma incremental_alter_configs_safe ver body : DecodeIncrementalAlterConfigsResponse ver body <> Panic.
Proof. unfold DecodeIncrementalAlterConfigsResponse. destruct (_ >=? 1); apply safe_run; auto with wire. Qed.

Lemma create_partitions_safe ver body : DecodeCreatePartitionsResponse ver body <> Panic.
Proof.
  unfold DecodeCreatePartitionsResponse. destruct (_ >=? 2); apply safe_run;
    unfold decodeCreatePartitionsResponseFlex, decodeCreatePartitionsResponseLegacy, read_partitions_result_flex,
      read_topic_result_legacy, readNullableString; solve_safe.
Qed.

Lemma offset_delete_safe ver body : DecodeOffsetDeleteResponse ver body <> Panic.
Proof.
  unfold DecodeOffsetDeleteResponse. destruct (_ >=? 1); apply safe_run;
    unfold decodeOffsetDeleteResponseFlex, decodeOffsetDeleteResponseLegacy, deleted_topic_flex, deleted_topic_legacy,
      deleted_partition; solve_safe.
Qed.

Lemma delete_groups_safe body : DecodeDeleteGroupsResponse body <> Panic.
Proof. apply safe_run. unfold read_group_result. solve_safe. Qed.
