(* ===== verification/DescribeCodec.v ===== *)
(** What an administrator reads: the ListGroups, DescribeGroups and
    DescribeConfigs requests and responses of [internal/protocol/admin.go], in
    their flexible and legacy forms. *)

From Stdlib Require Import ZArith Lia.
From Stdlib Require Import Strings.Byte.
From stdpp Require Import base list gmap countable strings.
From S2P Require Import Prelude.
From S2P Require Import Wire.
From S2P Require Import Metadata.
From S2P Require Import OffsetCodec.

Open Scope Z_scope.

Definition VerListGroups := 2.
Definition VerDescribeGroups := 5.
Definition VerDescribeConfigs := 4.

(** * ListGroups *)

Record ConsumerGroupListing := mkGroupListing { gl_GroupID : bytes; gl_ProtocolType : bytes }.

Definition EncodeListGroupsRequest : Enc :=
  if VerListGroups >=? 4 then WriteCompactNullableString None +++ WriteEmptyTagSection else enc_nil.

Definition read_listing_legacy : Rd ConsumerGroupListing :=
  id <- ReadString ;;
  ptype <- ReadString ;;
  ret (mkGroupListing id ptype).

Definition decodeListGroupsResponseLegacy : Rd (list ConsumerGroupListing) :=
  ReadInt32 ;;;
  ReadInt16 ;;;
  n <- ReadInt32 ;;
  rd_list n read_listing_legacy.

Definition read_listing_flex : Rd ConsumerGroupListing :=
  id <- ReadCompactString ;;
  ptype <- ReadCompactString ;;
  SkipTagSection ;;;
  ret (mkGroupListing id ptype).

Definition decodeListGroupsResponseFlex : Rd (list ConsumerGroupListing) :=
  ReadInt32 ;;;
  n <- ReadUvarint ;;
  out <- rd_list (n - 1) read_listing_flex ;;
  SkipTagSection ;;;
  ret out.

Definition DecodeListGroupsResponse (body : bytes) : res (list ConsumerGroupListing) :=
  if VerListGroups >=? 3 then run decodeListGroupsResponseFlex body else run decodeListGroupsResponseLegacy body.

(** * DescribeGroups *)

Record GroupMemberDescription := mkGroupMember { gm_MemberID : bytes; gm_ClientID : bytes; gm_ClientHost : bytes }.

Record ConsumerGroupDescription := mkGroupDescription {
  gd_GroupID : bytes;
  gd_State : bytes;
  gd_ProtocolType : bytes;
  gd_Members : list GroupMemberDescription;
  gd_ErrorCode : Z }.

Definition encodeDescribeGroupsRequestLegacy (groups : list bytes) : Enc :=
  WriteInt32 (s32 (len groups)) +++ enc_list WriteString groups +++ WriteBool false.

Definition encodeDescribeGroupsRequestFlex (groups : list bytes) : Enc :=
  WriteCompactArrayLen (len groups) +++ enc_list WriteCompactString groups +++ WriteBool false +++ WriteEmptyTagSection.

Definition EncodeDescribeGroupsRequest (groups : list bytes) : Enc :=
  if VerDescribeGroups >=? 5 then encodeDescribeGroupsRequestFlex groups else encodeDescribeGroupsRequestLegacy groups.

Definition read_group_member_legacy : Rd GroupMemberDescription :=
  memberID <- ReadString ;;
  readNullableString ;;;
  clientID <- ReadString ;;
  clientHost <- ReadString ;;
  ReadBytes ;;;
  ReadBytes ;;;
  ret (mkGroupMember memberID clientID clientHost).

Definition read_group_legacy : Rd ConsumerGroupDescription :=
  errCode <- ReadInt16 ;;
  groupID <- ReadString ;;
  state <- ReadString ;;
  protocolType <- ReadString ;;
  ReadString ;;;
  nMembers <- ReadInt32 ;;
  members <- rd_list nMembers read_group_member_legacy ;;
  ReadInt32 ;;;
  ret (mkGroupDescription groupID state protocolType members errCode).

Definition decodeDescribeGroupsResponseLegacy : Rd (list ConsumerGroupDescription) :=
  ReadInt32 ;;;
  n <- ReadInt32 ;;
  rd_list n read_group_legacy.

Definition read_group_member_flex : Rd GroupMemberDescription :=
  memberID <- ReadCompactString ;;
  ReadCompactNullableString ;;;
  clientID <- ReadCompactString ;;
  clientHost <- ReadCompactString ;;
  ReadCompactBytes ;;;
  ReadCompactBytes ;;;
  SkipTagSection ;;;
  ret (mkGroupMember memberID clientID clientHost).

Definition read_group_flex : Rd ConsumerGroupDescription :=
  errCode <- ReadInt16 ;;
  groupID <- ReadCompactString ;;
  state <- ReadCompactString ;;
  protocolType <- ReadCompactString ;;
  ReadCompactString ;;;
  nMembers <- ReadUvarint ;;
  members <- rd_list (nMembers - 1) read_group_member_flex ;;
  ReadInt32 ;;;
  SkipTagSection ;;;
  ret (mkGroupDescription groupID state protocolType members errCode).

Definition decodeDescribeGroupsResponseFlex : Rd (list ConsumerGroupDescription) :=
  ReadInt32 ;;;
  n <- ReadUvarint ;;
  out <- rd_list (n - 1) read_group_flex ;;
  SkipTagSection ;;;
  ret out.

Definition DecodeDescribeGroupsResponse (body : bytes) : res (list ConsumerGroupDescription) :=
  if VerDescribeGroups >=? 5 then run decodeDescribeGroupsResponseFlex body
  else run decodeDescribeGroupsResponseLegacy body.

(** * DescribeConfigs *)

Record ConfigEntry := mkConfigEntry {
  ce_Name : bytes;
  ce_Value : bytes;
  ce_IsDefault : bool;
  ce_IsReadOnly : bool }.

Record ConfigResource := mkConfigResource { rs_Type : Z; rs_Name : bytes }.

Definition encodeDescribeConfigsLegacy (version : Z) (resources : list ConfigResource) : Enc :=
  WriteInt32 (s32 (len resources)) +++
  enc_list (fun r => WriteInt8 (rs_Type r) +++ WriteString (rs_Name r) +++ WriteInt32 (-1)) resources +++
  WriteBool false +++ enc_if (version >=? 3) (WriteBool false).

Definition encodeDescribeConfigsFlex (version : Z) (resources : list ConfigResource) : Enc :=
  WriteCompactArrayLen (len resources) +++
  enc_list (fun r => WriteInt8 (rs_Type r) +++ WriteCompactString (rs_Name r) +++ WriteUvarint 0 +++ WriteEmptyTagSection)
    resources +++
  WriteBool false +++ enc_if (version >=? 3) (WriteBool false) +++ WriteEmptyTagSection.

Definition EncodeDescribeConfigsRequest (version : Z) (resources : list ConfigResource) : Enc :=
  if version >=? 4 then encodeDescribeConfigsFlex version resources else encodeDescribeConfigsLegacy version resources.

Definition read_synonyms_legacy : Rd unit :=
  nSyn <- ReadInt32 ;;
  rd_for nSyn (fun _ => ReadString ;;; readNullableString ;;; ReadInt8 ;;; ret tt) tt.

(** An entry of a resource whose error code is not 0, read and dropped. *)
Definition skip_entry_legacy (version : Z) : Rd unit :=
  ReadString ;;;
  readNullableString ;;;
  ReadBool ;;;
  rd_if (version <? 1) ReadBool ;;;
  rd_if (version >=? 1) ReadInt8 ;;;
  ReadBool ;;;
  rd_if (version >=? 1) read_synonyms_legacy.

Definition read_entry_legacy (version : Z) : Rd ConfigEntry :=
  name <- ReadString ;;
  val <- readNullableString ;;
  readOnly <- ReadBool ;;
  isDefault <- (if version <? 1 then ReadBool else ret false) ;;
  rd_if (version >=? 1) ReadInt8 ;;;
  ReadBool ;;;
  rd_if (version >=? 1) read_synonyms_legacy ;;;
  rd_if (version >=? 3) (ReadInt8 ;;; readNullableString) ;;;
  ret (mkConfigEntry name val isDefault readOnly).

Definition read_resource_legacy (version : Z) (out : gmap bytes (list ConfigEntry)) : Rd (gmap bytes (list ConfigEntry)) :=
  errCode <- ReadInt16 ;;
  readNullableString ;;;
  ReadInt8 ;;;
  name <- ReadString ;;
  nEntries <- ReadInt32 ;;
  if negb (errCode =? 0) then
    rd_for nEntries (fun _ => skip_entry_legacy version) tt ;;;
    ret out
  else
    entries <- rd_list nEntries (read_entry_legacy version) ;;
    ret (<[name := entries]> out).

Definition decodeDescribeConfigsLegacy (version : Z) : Rd (gmap bytes (list ConfigEntry)) :=
  ReadInt32 ;;;
  n <- ReadInt32 ;;
  rd_for n (read_resource_legacy version) ∅.

Definition read_synonyms_flex : Rd unit :=
  nSyn <- ReadUvarint ;;
  rd_for (nSyn - 1) (fun _ => ReadCompactString ;;; ReadCompactNullableString ;;; ReadInt8 ;;; SkipTagSection) tt.

Definition read_entry_flex (version : Z) : Rd ConfigEntry :=
  name <- ReadCompactString ;;
  val <- ReadCompactNullableString ;;
  readOnly <- ReadBool ;;
  isDefault <- (if version <? 1 then ReadBool else ret false) ;;
  rd_if (version >=? 1) ReadInt8 ;;;
  ReadBool ;;;
  rd_if (version >=? 1) read_synonyms_flex ;;;
  rd_if (version >=? 3) (ReadInt8 ;;; ReadCompactNullableString) ;;;
  SkipTagSection ;;;
  ret (mkConfigEntry name val isDefault readOnly).

Definition read_resource_flex (version : Z) (out : gmap bytes (list ConfigEntry)) : Rd (gmap bytes (list ConfigEntry)) :=
  errCode <- ReadInt16 ;;
  ReadCompactNullableString ;;;
  ReadInt8 ;;;
  name <- ReadCompactString ;;
  if negb (errCode =? 0) then
    SkipTagSection ;;;
    ret out
  else
    nEntries <- ReadUvarint ;;
    entries <- rd_list (nEntries - 1) (read_entry_flex version) ;;
    SkipTagSection ;;;
    ret (<[name := entries]> out).

Definition decodeDescribeConfigsFlex (version : Z) : Rd (gmap bytes (list ConfigEntry)) :=
  ReadInt32 ;;;
  n <- ReadUvarint ;;
  out <- rd_for (n - 1) (read_resource_flex version) ∅ ;;
  SkipTagSection ;;;
  ret out.

Definition DecodeDescribeConfigsResponse (version : Z) (body : bytes) : res (gmap bytes (list ConfigEntry)) :=
  if version >=? 4 then run (decodeDescribeConfigsFlex version) body else run (decodeDescribeConfigsLegacy version) body.

(** * Safety of the decoders *)

Lemma list_groups_safe body : DecodeListGroupsResponse body <> Panic.
Proof. apply safe_run. unfold decodeListGroupsResponseLegacy, read_listing_legacy. solve_safe. Qed.

Lemma describe_groups_safe body : DecodeDescribeGroupsResponse body <> Panic.
Proof. apply safe_run. unfold decodeDescribeGroupsResponseFlex, read_group_flex, read_group_member_flex. solve_safe. Qed.

Lemma safe_synonyms_legacy : Safe read_synonyms_legacy.
Proof. unfold read_synonyms_legacy, readNullableString. solve_safe. Qed.
Lemma safe_synonyms_flex : Safe read_synonyms_flex.
Proof. unfold read_synonyms_flex. solve_safe. Qed.
Lemma safe_documentation_legacy : Safe (ReadInt8 ;;; readNullableString).
Proof. unfold readNullableString. solve_safe. Qed.
Lemma safe_documentation_flex : Safe (ReadInt8 ;;; ReadCompactNullableString).
Proof. solve_safe. Qed.
#[export] Hint Resolve safe_synonyms_legacy safe_synonyms_flex safe_documentation_legacy safe_documentation_flex : wire.

Lemma describe_configs_safe ver body : DecodeDescribeConfigsResponse ver body <> Panic.
Proof.
  unfold DecodeDescribeConfigsResponse. destruct (_ >=? 4); apply safe_run;
    unfold decodeDescribeConfigsFlex, decodeDescribeConfigsLegacy, read_resource_flex, read_resource_legacy,
      read_entry_flex, read_entry_legacy, skip_entry_legacy; solve_safe.
Qed.

(** * A resource that has an error *)

(** The answer a broker gives for one resource that it cannot describe: the
    error code, no configurations. *)
Definition describe_error_response (code rtype : Z) (name : bytes) : Enc :=
  WriteInt32 0 +++ WriteCompactArrayLen 1 +++
  (WriteInt16 code +++ WriteCompactNullableString None +++ WriteInt8 rtype +++ WriteCompactString name +++
   WriteCompactArrayLen 0 +++ WriteEmptyTagSection) +++
  WriteEmptyTagSection.

(** A reader that has come to the end of the buffer finds no tag section. *)
Lemma run_no_tags {A} (m : Rd A) e a bs : Reads m e a -> e = Ok bs -> run (x <- m ;; SkipTagSection ;;; ret x) bs = Err ErrShortBuffer.
Proof.
  intros Hm He. unfold run, FromBytes. pose proof (rbind_reads m (fun x => SkipTagSection ;;; ret x) bs a [] [] (Hm bs He)) as Hr.
  rewrite !app_nil_l, !app_nil_r, len_nil in Hr. rewrite Hr.
  unfold SkipTagSection, rbind, ReadUvarint. cbn [uvarint_loop bufI bufB]. by rewrite Z.geb_leb, Z.leb_refl.
Qed.

(** The empty array, the resource's tags and the response's tags, read as one
    tag section: its count is 1 and its tag is empty. *)
Lemma Reads_tags_of_empty_array :
  Reads SkipTagSection (WriteCompactArrayLen 0 +++ WriteEmptyTagSection +++ WriteEmptyTagSection) tt.
Proof.
  unfold SkipTagSection. eapply Reads_bind; [apply Reads_array_len; lia|]. change (0 + 1 =? 0) with false. cbv iota.
  change (rd_for (0 + 1)) with (@rd_iter unit 1). cbn [rd_iter].
  eapply Reads_bind; [apply Reads_uvarint; lia|]. eapply Reads_bind_last; [apply Reads_uvarint; lia|].
  intros bs [= <-] pre post. unfold rd_skip. cbn [bufI bufB]. change ([] ++ post) with post.
  change (len (@nil byte)) with 0. replace (len pre + 0) with (len pre) by lia.
  destruct (Z.gtb_spec (len pre) (len (pre ++ post))) as [Hgt|]; [|done].
  rewrite len_app in Hgt. pose proof (len_nonneg post). lia.
Qed.

Lemma Reads_error_resource ver code rtype name out :
  int16 code -> code <> 0 -> int8 rtype -> fits name ->
  Reads (read_resource_flex ver out)
    (WriteInt16 code +++ WriteCompactNullableString None +++ WriteInt8 rtype +++ WriteCompactString name +++
     WriteCompactArrayLen 0 +++ WriteEmptyTagSection +++ WriteEmptyTagSection) out.
Proof.
  intros Hc H0 Ht Hn. unfold read_resource_flex. field.
  eapply Reads_bind; [apply Reads_compact_nullable_string; done|]. field. field.
  destruct (Z.eqb_spec code 0); [done|]. cbn [negb]. eapply Reads_bind_last; [apply Reads_tags_of_empty_array|apply Reads_ret].
Qed.

(** A configuration query fails when a resource has an error.  From
    version 4 on, which is the client's, the decoder does not read the
    (empty) list of configurations of a resource whose error code is not 0 and
    takes its length for a tag section.  The answer of a broker that cannot
    describe the one resource it was asked for, whatever the code, the type and
    the name, is reported as a truncated buffer; the error code is lost. *)
Theorem describe_configs_error_undecodable ver code rtype name body :
  4 <= ver -> int16 code -> code <> 0 -> int8 rtype -> fits name ->
  describe_error_response code rtype name = Ok body -> DecodeDescribeConfigsResponse ver body = Err ErrShortBuffer.
Proof.
  intros Hv Hc H0 Ht Hn Hb. unfold DecodeDescribeConfigsResponse.
  destruct (Z.geb_spec ver 4); [|lia]. unfold describe_error_response in Hb. rewrite !enc_app_assoc in Hb.
  set (m := ReadInt32 ;;; n <- ReadUvarint ;; rd_for (n - 1) (read_resource_flex ver) ∅).
  assert (run (decodeDescribeConfigsFlex ver) body = run (x <- m ;; SkipTagSection ;;; ret x) body) as ->.
  { unfold run, decodeDescribeConfigsFlex, m. f_equal. rewrite rbind_assoc. apply rbind_ext; [done|]. intros a b.
    by rewrite rbind_assoc. }
  eapply run_no_tags; [|exact Hb]. unfold m. field. field. change (1 + 1 - 1) with 1. cbn [rd_for rd_iter].
  by apply Reads_error_resource.
Qed.

Lemma describe_configs_error_undecodable_witness :
  exists body, describe_error_response 3 2 (str "missing") = Ok body /\
    DecodeDescribeConfigsResponse VerDescribeConfigs body = Err ErrShortBuffer.
Proof.
  eexists. split; [reflexivity|].
  eapply (describe_configs_error_undecodable VerDescribeConfigs 3 2 (str "missing")); try reflexivity; try discriminate;
    unfold int16, int8, fits; cbn; lia.
Defined.
