(* ===== verification/AclCodec.v ===== *)
(** Access control: the ACL messages of [internal/protocol/acl.go], the SCRAM
    credentials of [admin_scram.go] and the delegation tokens of
    [admin_delegation.go].

    The decoders that also return an error code leave it to the caller only
    when they succeed, so a decoder is a [res] of all it returns. *)

From Stdlib Require Import ZArith Lia.
From Stdlib Require Import Strings.Byte.
From stdpp Require Import base list gmap countable strings.
From S2P Require Import Prelude.
From S2P Require Import Wire.
From S2P Require Import Metadata.
From S2P Require Import OffsetCodec.
From S2P Require Import AdminCodec.

Open Scope Z_scope.

Definition VerCreateAcls := 1.
Definition VerDescribeAcls := 1.
Definition VerDeleteAcls := 1.

Definition ResourceTopic := 2.
Definition ResourceGroup := 3.
Definition ResourceCluster := 4.
Definition ResourceTransactionalID := 5.

Definition ACLOpAny := 1.
Definition ACLPermAny := 1.

(** The pattern type that the client always asks for. *)
Definition literal_pattern := 3.

(** * Access control lists *)

Record ACLBinding := mkACLBinding {
  ab_ResourceType : Z;
  ab_ResourceName : bytes;
  ab_Principal : bytes;
  ab_Host : bytes;
  ab_Operation : Z;
  ab_Permission : Z }.

Definition write_binding_v0 (b : ACLBinding) : Enc :=
  WriteInt8 (ab_ResourceType b) +++ WriteString (ab_ResourceName b) +++
  WriteString (ab_Principal b) +++ WriteString (ab_Host b) +++
  WriteInt8 (ab_Operation b) +++ WriteInt8 (ab_Permission b).

Definition encodeCreateACLsV0 (bindings : list ACLBinding) : Enc :=
  WriteInt32 (s32 (len bindings)) +++ enc_list write_binding_v0 bindings.

Definition write_binding_v1 (b : ACLBinding) : Enc :=
  WriteInt8 (ab_ResourceType b) +++ WriteString (ab_ResourceName b) +++ WriteInt8 literal_pattern +++
  WriteString (ab_Principal b) +++ WriteString (ab_Host b) +++
  WriteInt8 (ab_Operation b) +++ WriteInt8 (ab_Permission b).

Definition encodeCreateACLsV1 (bindings : list ACLBinding) : Enc :=
  WriteInt32 (s32 (len bindings)) +++ enc_list write_binding_v1 bindings.

Definition write_binding_flex (b : ACLBinding) : Enc :=
  WriteInt8 (ab_ResourceType b) +++ WriteCompactString (ab_ResourceName b) +++ WriteInt8 literal_pattern +++
  WriteCompactString (ab_Principal b) +++ WriteCompactString (ab_Host b) +++
  WriteInt8 (ab_Operation b) +++ WriteInt8 (ab_Permission b) +++ WriteEmptyTagSection.

Definition encodeCreateACLsFlex (bindings : list ACLBinding) : Enc :=
  WriteCompactArrayLen (len bindings) +++ enc_list write_binding_flex bindings +++ WriteEmptyTagSection.

Definition EncodeCreateACLsRequest (version : Z) (bindings : list ACLBinding) : Enc :=
  if version >=? 2 then encodeCreateACLsFlex bindings
  else if version =? 1 then encodeCreateACLsV1 bindings
  else encodeCreateACLsV0 bindings.

Definition encodeDescribeACLsFilterV0 (resourceType : Z) (name principal : bytes) : Enc :=
  WriteInt8 resourceType +++ WriteNullableString (Some name) +++ WriteNullableString (Some principal) +++
  WriteNullableString (Some (str "*")) +++ WriteInt8 ACLOpAny +++ WriteInt8 ACLPermAny.

(** An empty string is no filter. *)
Definition nonempty (s : bytes) : option bytes := if bool_decide (s = []) then None else Some s.

Definition encodeDescribeACLsFilterV1 (resourceType : Z) (name principal : bytes) : Enc :=
  WriteInt8 resourceType +++ WriteNullableString (nonempty name) +++ WriteInt8 literal_pattern +++
  WriteNullableString (nonempty principal) +++ WriteNullableString None +++
  WriteInt8 ACLOpAny +++ WriteInt8 ACLPermAny.

Definition encodeDescribeACLsFilterFlex (resourceType : Z) (name principal : bytes) : Enc :=
  WriteInt8 resourceType +++ WriteCompactNullableString (Some name) +++ WriteInt8 literal_pattern +++
  WriteCompactNullableString (Some principal) +++ WriteCompactNullableString None +++
  WriteInt8 ACLOpAny +++ WriteInt8 ACLPermAny +++ WriteEmptyTagSection.

Definition EncodeDescribeACLsFilter (version resourceType : Z) (name principal : bytes) : Enc :=
  if version >=? 2 then encodeDescribeACLsFilterFlex resourceType name principal
  else if version =? 1 then encodeDescribeACLsFilterV1 resourceType name principal
  else encodeDescribeACLsFilterV0 resourceType name principal.

Definition EncodeDeleteACLsFilter : Z -> Z -> bytes -> bytes -> Enc := EncodeDescribeACLsFilter.

Definition read_created_acl_legacy : Rd TopicMutationResult :=
  code <- ReadInt16 ;;
  readNullableString ;;;
  ret (mkTopicResult [] code).

Definition decodeCreateACLsResponseLegacy : Rd (list TopicMutationResult) :=
  ReadInt32 ;;;
  n <- ReadInt32 ;;
  rd_list n read_created_acl_legacy.

Definition read_created_acl_flex : Rd TopicMutationResult :=
  code <- ReadInt16 ;;
  ReadCompactNullableString ;;;
  ReadInt8 ;;;
  ReadCompactNullableString ;;;
  ReadInt8 ;;;
  ReadCompactNullableString ;;;
  ReadCompactNullableString ;;;
  ReadInt8 ;;;
  ReadInt8 ;;;
  SkipTagSection ;;;
  ret (mkTopicResult [] code).

Definition decodeCreateACLsResponseFlex : Rd (list TopicMutationResult) :=
  ReadInt32 ;;;
  n <- ReadUvarint ;;
  out <- rd_list (n - 1) read_created_acl_flex ;;
  SkipTagSection ;;;
  ret out.

Definition DecodeCreateACLsResponse (version : Z) (body : bytes) : res (list TopicMutationResult) :=
  if version >=? 2 then run decodeCreateACLsResponseFlex body else run decodeCreateACLsResponseLegacy body.

Definition describe_acls_error (errCode : Z) : error := FmtError "protocol: describe acls error" errCode.

Definition read_acl_legacy (rt : Z) (name : bytes) : Rd ACLBinding :=
  principal <- ReadString ;;
  host <- ReadString ;;
  op <- ReadInt8 ;;
  perm <- ReadInt8 ;;
  ret (mkACLBinding rt name principal host op perm).

Definition read_acl_resource_legacy (version : Z) : Rd (list ACLBinding) :=
  rt <- ReadInt8 ;;
  name <- ReadString ;;
  rd_if (version >=? 1) ReadInt8 ;;;
  nACLs <- ReadInt32 ;;
  rd_list nACLs (read_acl_legacy rt name).

Definition decodeDescribeACLsResponseLegacy (version : Z) : Rd (list ACLBinding) :=
  ReadInt32 ;;;
  errCode <- ReadInt16 ;;
  readNullableString ;;;
  if negb (errCode =? 0) then fail (describe_acls_error errCode) else
  n <- ReadInt32 ;;
  rd_flat n (read_acl_resource_legacy version).

Definition read_acl_flex (rt : Z) (name : bytes) : Rd ACLBinding :=
  principal <- ReadCompactString ;;
  host <- ReadCompactString ;;
  op <- ReadInt8 ;;
  perm <- ReadInt8 ;;
  SkipTagSection ;;;
  ret (mkACLBinding rt name principal host op perm).

Definition read_acl_resource_flex (version : Z) : Rd (list ACLBinding) :=
  rt <- ReadInt8 ;;
  name <- ReadCompactString ;;
  rd_if (version >=? 1) ReadInt8 ;;;
  nACLs <- ReadUvarint ;;
  out <- rd_list (nACLs - 1) (read_acl_flex rt name) ;;
  SkipTagSection ;;;
  ret out.

Definition decodeDescribeACLsResponseFlex (version : Z) : Rd (list ACLBinding) :=
  ReadInt32 ;;;
  errCode <- ReadInt16 ;;
  ReadCompactNullableString ;;;
  if negb (errCode =? 0) then fail (describe_acls_error errCode) else
  n <- ReadUvarint ;;
  out <- rd_flat (n - 1) (read_acl_resource_flex version) ;;
  SkipTagSection ;;;
  ret out.

Definition DecodeDescribeACLsResponse (version : Z) (body : bytes) : res (list ACLBinding) :=
  if version >=? 2 then run (decodeDescribeACLsResponseFlex version) body
  else run (decodeDescribeACLsResponseLegacy version) body.

Definition DecodeDeleteACLsResponse (body : bytes) : res Z :=
  run (ReadInt32 ;;;
       n <- ReadUvarint ;;
       ret (n - 1)) body.

(** * SCRAM credentials *)

Definition ScramMechanismSHA256 := 1.
Definition ScramMechanismSHA512 := 2.

Record ScramUpsertion := mkScramUpsertion {
  su_Name : bytes;
  su_Mechanism : Z;
  su_Iterations : Z;
  su_Salt : bytes;
  su_SaltedPassword : bytes }.

Record ScramDeletion := mkScramDeletion { sd_Name : bytes; sd_Mechanism : Z }.

Record ScramResult := mkScramResult { sr_User : bytes; sr_ErrorCode : Z; sr_ErrorMessage : bytes }.

Record ScramCredentialInfo := mkScramInfo { si_Mechanism : Z; si_Iterations : Z }.

Record ScramDescription := mkScramDescription {
  sn_User : bytes;
  sn_ErrorCode : Z;
  sn_ErrorMessage : bytes;
  sn_Credentials : list ScramCredentialInfo }.

Definition EncodeDescribeUserScramCredentialsRequest (users : list bytes) : Enc :=
  (if len users =? 0 then WriteUvarint 0
   else WriteCompactArrayLen (len users) +++ enc_list (fun u => WriteCompactString u +++ WriteEmptyTagSection) users) +++
  WriteEmptyTagSection.

Definition read_scram_info : Rd ScramCredentialInfo :=
  mechanism <- ReadInt8 ;;
  iterations <- ReadInt32 ;;
  SkipTagSection ;;;
  ret (mkScramInfo mechanism iterations).

Definition read_scram_description : Rd ScramDescription :=
  user <- ReadCompactString ;;
  code <- ReadInt16 ;;
  msg <- ReadCompactNullableString ;;
  nc <- ReadUvarint ;;
  creds <- rd_list (nc - 1) read_scram_info ;;
  SkipTagSection ;;;
  ret (mkScramDescription user code msg creds).

Definition DecodeDescribeUserScramCredentialsResponse (body : bytes) : res (Z * bytes * list ScramDescription) :=
  run (ReadInt32 ;;;
       topErr <- ReadInt16 ;;
       topMsg <- ReadCompactNullableString ;;
       n <- ReadUvarint ;;
       out <- rd_list (n - 1) read_scram_description ;;
       SkipTagSection ;;;
       ret (topErr, topMsg, out)) body.

Definition write_deletion (d : ScramDeletion) : Enc :=
  WriteCompactString (sd_Name d) +++ WriteInt8 (sd_Mechanism d) +++ WriteEmptyTagSection.

Definition write_upsertion (u : ScramUpsertion) : Enc :=
  WriteCompactString (su_Name u) +++ WriteInt8 (su_Mechanism u) +++ WriteInt32 (su_Iterations u) +++
  WriteCompactBytes (Some (su_Salt u)) +++ WriteCompactBytes (Some (su_SaltedPassword u)) +++ WriteEmptyTagSection.

Definition EncodeAlterUserScramCredentialsRequest (deletions : list ScramDeletion) (upsertions : list ScramUpsertion) : Enc :=
  WriteCompactArrayLen (len deletions) +++ enc_list write_deletion deletions +++
  WriteCompactArrayLen (len upsertions) +++ enc_list write_upsertion upsertions +++
  WriteEmptyTagSection.

Definition read_scram_result : Rd ScramResult :=
  user <- ReadCompactString ;;
  code <- ReadInt16 ;;
  msg <- ReadCompactNullableString ;;
  SkipTagSection ;;;
  ret (mkScramResult user code msg).

Definition DecodeAlterUserScramCredentialsResponse (body : bytes) : res (list ScramResult) :=
  run (ReadInt32 ;;;
       n <- ReadUvarint ;;
       out <- rd_list (n - 1) read_scram_result ;;
       SkipTagSection ;;;
       ret out) body.

(** * Delegation tokens *)

(** [Type] and [Name] of the code. *)
Record Principal := mkPrincipal { pr_Type : bytes; pr_Name : bytes }.

Record DelegationToken := mkToken {
  dt_Owner : Principal;
  dt_TokenRequester : Principal;
  dt_IssueTimestamp : Z;
  dt_ExpiryTimestamp : Z;
  dt_MaxTimestamp : Z;
  dt_TokenID : bytes;
  dt_HMAC : option bytes;
  dt_Renewers : list Principal }.

Definition write_principal (p : Principal) : Enc :=
  WriteCompactString (pr_Type p) +++ WriteCompactString (pr_Name p) +++ WriteEmptyTagSection.

Definition EncodeCreateDelegationTokenRequest (owner : option Principal) (renewers : list Principal) (maxLifetimeMs : Z) : Enc :=
  match owner with
  | Some o => WriteCompactString (pr_Type o) +++ WriteCompactString (pr_Name o)
  | None => WriteUvarint 0 +++ WriteUvarint 0
  end +++
  WriteCompactArrayLen (len renewers) +++ enc_list write_principal renewers +++
  WriteInt64 maxLifetimeMs +++ WriteEmptyTagSection.

(** The fields that both answers begin a token with. *)
Definition read_token_head : Rd DelegationToken :=
  ownerType <- ReadCompactString ;;
  ownerName <- ReadCompactString ;;
  requesterType <- ReadCompactString ;;
  requesterName <- ReadCompactString ;;
  issue <- ReadInt64 ;;
  expiry <- ReadInt64 ;;
  max <- ReadInt64 ;;
  tokenID <- ReadCompactString ;;
  hmac <- ReadCompactBytes ;;
  ret (mkToken (mkPrincipal ownerType ownerName) (mkPrincipal requesterType requesterName) issue expiry max tokenID hmac []).

Definition DecodeCreateDelegationTokenResponse (body : bytes) : res (Z * DelegationToken) :=
  run (code <- ReadInt16 ;;
       t <- read_token_head ;;
       ReadInt32 ;;;
       ret (code, t)) body.

Definition EncodeRenewDelegationTokenRequest (hmac : option bytes) (renewPeriodMs : Z) : Enc :=
  WriteCompactBytes hmac +++ WriteInt64 renewPeriodMs +++ WriteEmptyTagSection.

Definition EncodeExpireDelegationTokenRequest (hmac : option bytes) (expiryTimePeriodMs : Z) : Enc :=
  WriteCompactBytes hmac +++ WriteInt64 expiryTimePeriodMs +++ WriteEmptyTagSection.

Definition DecodeRenewOrExpireDelegationTokenResponse (body : bytes) : res (Z * Z) :=
  run (code <- ReadInt16 ;;
       expiry <- ReadInt64 ;;
       ReadInt32 ;;;
       ret (code, expiry)) body.

(** Nil owners ask for every token. *)
Definition EncodeDescribeDelegationTokenRequest (owners : option (list Principal)) : Enc :=
  match owners with
  | None => WriteUvarint 0
  | Some ps => WriteCompactArrayLen (len ps) +++ enc_list write_principal ps
  end +++ WriteEmptyTagSection.

Definition read_renewer : Rd Principal :=
  type <- ReadCompactString ;;
  name <- ReadCompactString ;;
  SkipTagSection ;;;
  ret (mkPrincipal type name).

Definition with_renewers (ps : list Principal) (t : DelegationToken) : DelegationToken :=
  mkToken (dt_Owner t) (dt_TokenRequester t) (dt_IssueTimestamp t) (dt_ExpiryTimestamp t) (dt_MaxTimestamp t)
    (dt_TokenID t) (dt_HMAC t) ps.

Definition read_token : Rd DelegationToken :=
  t <- read_token_head ;;
  nr <- ReadUvarint ;;
  ps <- rd_list (nr - 1) read_renewer ;;
  SkipTagSection ;;;
  ret (with_renewers ps t).

Definition DecodeDescribeDelegationTokenResponse (body : bytes) : res (Z * list DelegationToken) :=
  run (code <- ReadInt16 ;;
       n <- ReadUvarint ;;
       out <- rd_list (n - 1) read_token ;;
       ReadInt32 ;;;
       ret (code, out)) body.

(** * Safety of the decoders *)

Lemma create_acls_safe ver body : DecodeCreateACLsResponse ver body <> Panic.
Proof.
  unfold DecodeCreateACLsResponse. case_goal; apply safe_run;
    unfold decodeCreateACLsResponseFlex, decodeCreateACLsResponseLegacy, read_created_acl_flex, read_created_acl_legacy,
      readNullableString; solve_safe.
Qed.

Lemma describe_acls_safe ver body : DecodeDescribeACLsResponse ver body <> Panic.
Proof.
  unfold DecodeDescribeACLsResponse. case_goal; apply safe_run;
    unfold decodeDescribeACLsResponseFlex, decodeDescribeACLsResponseLegacy, read_acl_resource_flex,
      read_acl_resource_legacy, read_acl_flex, read_acl_legacy, readNullableString, rd_if; solve_safe.
Qed.

Lemma delete_acls_safe body : DecodeDeleteACLsResponse body <> Panic.
Proof. apply safe_run. solve_safe. Qed.

Lemma describe_scram_safe body : DecodeDescribeUserScramCredentialsResponse body <> Panic.
Proof. apply safe_run. unfold read_scram_description, read_scram_info. solve_safe. Qed.

Lemma alter_scram_safe body : DecodeAlterUserScramCredentialsResponse body <> Panic.
Proof. apply safe_run. unfold read_scram_result. solve_safe. Qed.

Lemma safe_token_head : Safe read_token_head.
Proof. unfold read_token_head. solve_safe. Qed.
#[export] Hint Resolve safe_token_head : wire.

Lemma create_token_safe body : DecodeCreateDelegationTokenResponse body <> Panic.
Proof. apply safe_run. solve_safe. Qed.

Lemma renew_token_safe body : DecodeRenewOrExpireDelegationTokenResponse body <> Panic.
Proof. apply safe_run. solve_safe. Qed.

Lemma describe_tokens_safe body : DecodeDescribeDelegationTokenResponse body <> Panic.
Proof. apply safe_run. unfold read_token, read_renewer. solve_safe. Qed.
