(* ===== verification/ClusterCodec.v ===== *)
(** Administration of the cluster: the messages of [admin_records.go] (record
    deletion, leader elections), [admin_reassign.go], [admin_quotas.go],
    [admin_logdirs.go], [admin_transactions.go] and [cluster.go] of
    [internal/protocol].

    A nil map that asks for everything is [None].  A float64 is its 64 bits.  A
    map of a decoded value that the code leaves nil is the empty map. *)

From Stdlib Require Import ZArith Lia.
From Stdlib Require Import Strings.Byte.
From stdpp Require Import base list gmap countable strings.
From S2P Require Import Prelude.
From S2P Require Import Wire.
From S2P Require Import Metadata.
From S2P Require Import OffsetCodec.

Open Scope Z_scope.

(** The arrays of partition numbers, compact and legacy. *)
Definition write_int32s_compact (ps : list Z) : Enc := WriteCompactArrayLen (len ps) +++ enc_list WriteInt32 ps.
Definition write_int32s (ps : list Z) : Enc := WriteInt32 (s32 (len ps)) +++ enc_list WriteInt32 ps.

Section requests.
Context `{MapOrder}.

Definition write_topic_partitions_flex (tp : bytes * list Z) : Enc :=
  WriteCompactString (fst tp) +++ write_int32s_compact (snd tp) +++ WriteEmptyTagSection.
Definition write_topic_partitions_legacy (tp : bytes * list Z) : Enc := WriteString (fst tp) +++ write_int32s (snd tp).

(** * Records *)

Definition write_deletes_flex (tp : bytes * gmap Z Z) : Enc :=
  WriteCompactString (fst tp) +++ WriteCompactArrayLen (len (range (snd tp))) +++
  enc_list (fun po => WriteInt32 (fst po) +++ WriteInt64 (snd po) +++ WriteEmptyTagSection) (range (snd tp)) +++
  WriteEmptyTagSection.

Definition write_deletes_legacy (tp : bytes * gmap Z Z) : Enc :=
  WriteString (fst tp) +++ WriteInt32 (s32 (len (range (snd tp)))) +++
  enc_list (fun po => WriteInt32 (fst po) +++ WriteInt64 (snd po)) (range (snd tp)).

Definition EncodeDeleteRecordsRequest (version : Z) (offsets : gmap bytes (gmap Z Z)) (timeoutMs : Z) : Enc :=
  if version >=? 2 then
    WriteCompactArrayLen (len (range offsets)) +++ enc_list write_deletes_flex (range offsets) +++
    WriteInt32 timeoutMs +++ WriteEmptyTagSection
  else
    WriteInt32 (s32 (len (range offsets))) +++ enc_list write_deletes_legacy (range offsets) +++ WriteInt32 timeoutMs.

Definition EncodeElectLeadersRequest (version electionType : Z) (topicPartitions : option (gmap bytes (list Z))) (timeoutMs : Z) : Enc :=
  if version >=? 2 then
    WriteInt8 electionType +++
    match topicPartitions with
    | None => WriteCompactArrayLen (-1)
    | Some m => WriteCompactArrayLen (len (range m)) +++ enc_list write_topic_partitions_flex (range m)
    end +++
    WriteInt32 timeoutMs +++ WriteEmptyTagSection
  else
    (if version >=? 1 then WriteInt8 electionType else enc_nil) +++
    match topicPartitions with
    | None => WriteInt32 (-1)
    | Some m => WriteInt32 (s32 (len (range m))) +++ enc_list write_topic_partitions_legacy (range m)
    end +++
    WriteInt32 timeoutMs.

(** * Reassignments *)

(** Nil replicas cancel the reassignment of the partition. *)
Record ReassignmentMove := mkMove { mv_Partition : Z; mv_Replicas : option (list Z) }.

Definition write_move (m : ReassignmentMove) : Enc :=
  WriteInt32 (mv_Partition m) +++
  match mv_Replicas m with None => WriteUvarint 0 | Some rs => write_int32s_compact rs end +++
  WriteEmptyTagSection.

Definition EncodeAlterPartitionReassignmentsRequest (timeoutMs : Z) (topics : gmap bytes (list ReassignmentMove)) : Enc :=
  WriteInt32 timeoutMs +++ WriteCompactArrayLen (len (range topics)) +++
  enc_list (fun nm => WriteCompactString (fst nm) +++ WriteCompactArrayLen (len (snd nm)) +++ enc_list write_move (snd nm) +++
    WriteEmptyTagSection) (range topics) +++
  WriteEmptyTagSection.

Definition EncodeListPartitionReassignmentsRequest (timeoutMs : Z) (topics : gmap bytes (list Z)) : Enc :=
  WriteInt32 timeoutMs +++
  (if len (range topics) =? 0 then WriteUvarint 0
   else WriteCompactArrayLen (len (range topics)) +++ enc_list write_topic_partitions_flex (range topics)) +++
  WriteEmptyTagSection.

(** * Log directories *)

Definition EncodeDescribeLogDirsRequest (version : Z) (topics : option (gmap bytes (list Z))) : Enc :=
  if version >=? 2 then
    match topics with
    | None => WriteCompactArrayLen (-1)
    | Some m => WriteCompactArrayLen (len (range m)) +++ enc_list write_topic_partitions_flex (range m)
    end +++ WriteEmptyTagSection
  else
    match topics with
    | None => WriteInt32 (-1)
    | Some m => WriteInt32 (s32 (len (range m))) +++ enc_list write_topic_partitions_legacy (range m)
    end.
End requests.

(** * Results of record deletion and elections *)

Record DeleteRecordsResult := mkDeleteRecords {
  dr_Topic : bytes;
  dr_Partition : Z;
  dr_LowWatermark : Z;
  dr_ErrorCode : Z }.

Definition read_deleted_flex (topic : bytes) : Rd DeleteRecordsResult :=
  p <- ReadInt32 ;;
  low <- ReadInt64 ;;
  code <- ReadInt16 ;;
  SkipTagSection ;;;
  ret (mkDeleteRecords topic p low code).

Definition read_deleted_topic_flex : Rd (list DeleteRecordsResult) :=
  topic <- ReadCompactString ;;
  nParts <- ReadUvarint ;;
  out <- rd_list (nParts - 1) (read_deleted_flex topic) ;;
  SkipTagSection ;;;
  ret out.

Definition read_deleted_legacy (topic : bytes) : Rd DeleteRecordsResult :=
  p <- ReadInt32 ;;
  low <- ReadInt64 ;;
  code <- ReadInt16 ;;
  ret (mkDeleteRecords topic p low code).

Definition read_deleted_topic_legacy : Rd (list DeleteRecordsResult) :=
  topic <- ReadString ;;
  nParts <- ReadInt32 ;;
  rd_list nParts (read_deleted_legacy topic).

Definition DecodeDeleteRecordsResponse (version : Z) (body : bytes) : res (list DeleteRecordsResult) :=
  run (ReadInt32 ;;;
       if version >=? 2 then
         nTopics <- ReadUvarint ;;
         out <- rd_flat (nTopics - 1) read_deleted_topic_flex ;;
         SkipTagSection ;;;
         ret out
       else
         nTopics <- ReadInt32 ;;
         rd_flat nTopics read_deleted_topic_legacy) body.

Record ElectLeadersResult := mkElect {
  el_Topic : bytes;
  el_Partition : Z;
  el_ErrorCode : Z;
  el_ErrorMessage : bytes }.

Definition ElectionPreferred := 0.
Definition ElectionUnclean := 1.

Definition read_elected_flex (topic : bytes) : Rd ElectLeadersResult :=
  p <- ReadInt32 ;;
  code <- ReadInt16 ;;
  msg <- ReadCompactNullableString ;;
  SkipTagSection ;;;
  ret (mkElect topic p code msg).

Definition read_elected_topic_flex : Rd (list ElectLeadersResult) :=
  topic <- ReadCompactString ;;
  nParts <- ReadUvarint ;;
  out <- rd_list (nParts - 1) (read_elected_flex topic) ;;
  SkipTagSection ;;;
  ret out.

Definition read_elected_legacy (topic : bytes) : Rd ElectLeadersResult :=
  p <- ReadInt32 ;;
  code <- ReadInt16 ;;
  msg <- readNullableString ;;
  ret (mkElect topic p code msg).

Definition read_elected_topic_legacy : Rd (list ElectLeadersResult) :=
  topic <- ReadString ;;
  nParts <- ReadInt32 ;;
  rd_list nParts (read_elected_legacy topic).

Definition DecodeElectLeadersResponse (version : Z) (body : bytes) : res (Z * list ElectLeadersResult) :=
  run (ReadInt32 ;;;
       topErr <- (if version >=? 1 then ReadInt16 else ret 0) ;;
       if version >=? 2 then
         nTopics <- ReadUvarint ;;
         out <- rd_flat (nTopics - 1) read_elected_topic_flex ;;
         SkipTagSection ;;;
         ret (topErr, out)
       else
         nTopics <- ReadInt32 ;;
         out <- rd_flat nTopics read_elected_topic_legacy ;;
         ret (topErr, out)) body.

(** * Results of reassignments *)

Record PartitionReassignmentResult := mkReassigned {
  ra_Topic : bytes;
  ra_Partition : Z;
  ra_ErrorCode : Z;
  ra_ErrorMessage : bytes }.

Definition read_reassigned (name : bytes) : Rd PartitionReassignmentResult :=
  part <- ReadInt32 ;;
  code <- ReadInt16 ;;
  msg <- ReadCompactNullableString ;;
  SkipTagSection ;;;
  ret (mkReassigned name part code msg).

Definition read_reassigned_topic : Rd (list PartitionReassignmentResult) :=
  name <- ReadCompactString ;;
  nParts <- ReadUvarint ;;
  out <- rd_list (nParts - 1) (read_reassigned name) ;;
  SkipTagSection ;;;
  ret out.

Definition DecodeAlterPartitionReassignmentsResponse (body : bytes) : res (Z * bytes * list PartitionReassignmentResult) :=
  run (ReadInt32 ;;;
       topErr <- ReadInt16 ;;
       topMsg <- ReadCompactNullableString ;;
       nTopics <- ReadUvarint ;;
       out <- rd_flat (nTopics - 1) read_reassigned_topic ;;
       ret (topErr, topMsg, out)) body.

Record OngoingReassignment := mkOngoing {
  og_Topic : bytes;
  og_Partition : Z;
  og_Replicas : list Z;
  og_AddingReplicas : list Z;
  og_RemovingReplicas : list Z }.

Definition read_ongoing (name : bytes) : Rd OngoingReassignment :=
  part <- ReadInt32 ;;
  replicas <- readCompactInt32Array ;;
  adding <- readCompactInt32Array ;;
  removing <- readCompactInt32Array ;;
  SkipTagSection ;;;
  ret (mkOngoing name part replicas adding removing).

Definition read_ongoing_topic : Rd (list OngoingReassignment) :=
  name <- ReadCompactString ;;
  nParts <- ReadUvarint ;;
  out <- rd_list (nParts - 1) (read_ongoing name) ;;
  SkipTagSection ;;;
  ret out.

Definition DecodeListPartitionReassignmentsResponse (body : bytes) : res (Z * bytes * list OngoingReassignment) :=
  run (ReadInt32 ;;;
       topErr <- ReadInt16 ;;
       topMsg <- ReadCompactNullableString ;;
       nTopics <- ReadUvarint ;;
       out <- rd_flat (nTopics - 1) read_ongoing_topic ;;
       ret (topErr, topMsg, out)) body.

(** * Quotas *)

Definition QuotaMatchExact := 0.
Definition QuotaMatchDefault := 1.
Definition QuotaMatchAny := 2.

Record QuotaComponent := mkQuotaComponent { qc_EntityType : bytes; qc_MatchType : Z; qc_Match : option bytes }.

(** A nil name is the default entity of the type. *)
Record QuotaEntityElem := mkQuotaElem { qe_Type : bytes; qe_Name : option bytes }.

Record QuotaEntry := mkQuotaEntry { qn_Entity : list QuotaEntityElem; qn_Values : gmap bytes Z }.
Record QuotaOp := mkQuotaOp { qo_Key : bytes; qo_Value : Z; qo_Remove : bool }.
Record QuotaAlteration := mkQuotaAlteration { qa_Entity : list QuotaEntityElem; qa_Ops : list QuotaOp }.
Record QuotaAlterResult := mkQuotaResult {
  qr_Entity : list QuotaEntityElem;
  qr_ErrorCode : Z;
  qr_ErrorMessage : bytes }.

Definition write_quota_component (c : QuotaComponent) : Enc :=
  WriteCompactString (qc_EntityType c) +++ WriteInt8 (qc_MatchType c) +++ WriteCompactNullableString (qc_Match c) +++
  WriteEmptyTagSection.

Definition EncodeDescribeClientQuotasRequest (version : Z) (components : list QuotaComponent) (strict : bool) : Enc :=
  WriteCompactArrayLen (len components) +++ enc_list write_quota_component components +++
  WriteBool strict +++ WriteEmptyTagSection.

Definition readQuotaEntity : Rd QuotaEntityElem :=
  t <- ReadCompactString ;;
  name <- ReadCompactNullableStringPtr ;;
  SkipTagSection ;;;
  ret (mkQuotaElem t (if snd name then None else Some (fst name))).

Definition read_quota_value (values : gmap bytes Z) : Rd (gmap bytes Z) :=
  key <- ReadCompactString ;;
  val <- ReadFloat64 ;;
  SkipTagSection ;;;
  ret (<[key := val]> values).

Definition read_quota_entry : Rd QuotaEntry :=
  nEnt <- ReadUvarint ;;
  entity <- rd_list (nEnt - 1) readQuotaEntity ;;
  nVals <- ReadUvarint ;;
  values <- rd_for (nVals - 1) read_quota_value ∅ ;;
  SkipTagSection ;;;
  ret (mkQuotaEntry entity values).

Definition DecodeDescribeClientQuotasResponse (version : Z) (body : bytes) : res (Z * bytes * list QuotaEntry) :=
  run (ReadInt32 ;;;
       code <- ReadInt16 ;;
       msg <- ReadCompactNullableString ;;
       nEntries <- ReadUvarint ;;
       out <- rd_list (nEntries - 1) read_quota_entry ;;
       SkipTagSection ;;;
       ret (code, msg, out)) body.

Definition write_quota_elem (el : QuotaEntityElem) : Enc :=
  WriteCompactString (qe_Type el) +++ WriteCompactNullableString (qe_Name el) +++ WriteEmptyTagSection.

Definition write_quota_op (op : QuotaOp) : Enc :=
  WriteCompactString (qo_Key op) +++ WriteFloat64 (qo_Value op) +++ WriteBool (qo_Remove op) +++ WriteEmptyTagSection.

Definition write_quota_alteration (a : QuotaAlteration) : Enc :=
  WriteCompactArrayLen (len (qa_Entity a)) +++ enc_list write_quota_elem (qa_Entity a) +++
  WriteCompactArrayLen (len (qa_Ops a)) +++ enc_list write_quota_op (qa_Ops a) +++
  WriteEmptyTagSection.

Definition EncodeAlterClientQuotasRequest (version : Z) (alterations : list QuotaAlteration) (validateOnly : bool) : Enc :=
  WriteCompactArrayLen (len alterations) +++ enc_list write_quota_alteration alterations +++
  WriteBool validateOnly +++ WriteEmptyTagSection.

Definition read_quota_result : Rd QuotaAlterResult :=
  code <- ReadInt16 ;;
  msg <- ReadCompactNullableString ;;
  nEnt <- ReadUvarint ;;
  entity <- rd_list (nEnt - 1) readQuotaEntity ;;
  SkipTagSection ;;;
  ret (mkQuotaResult entity code msg).

Definition DecodeAlterClientQuotasResponse (version : Z) (body : bytes) : res (list QuotaAlterResult) :=
  run (ReadInt32 ;;;
       n <- ReadUvarint ;;
       out <- rd_list (n - 1) read_quota_result ;;
       SkipTagSection ;;;
       ret out) body.

(** * Storage *)

Record LogDirPartition := mkLogDirPartition {
  ld_Topic : bytes;
  ld_Partition : Z;
  ld_Size : Z;
  ld_OffsetLag : Z;
  ld_IsFuture : bool }.

Record LogDirResult := mkLogDirResult {
  lr_ErrorCode : Z;
  lr_LogDir : bytes;
  lr_TotalBytes : Z;
  lr_UsableBytes : Z;
  lr_IsCordoned : bool;
  lr_Partitions : list LogDirPartition }.

Definition read_logdir_partition (name : bytes) : Rd LogDirPartition :=
  p <- ReadInt32 ;;
  size <- ReadInt64 ;;
  lag <- ReadInt64 ;;
  future <- ReadBool ;;
  SkipTagSection ;;;
  ret (mkLogDirPartition name p size lag future).

Definition read_logdir_topic : Rd (list LogDirPartition) :=
  name <- ReadCompactString ;;
  nParts <- ReadUvarint ;;
  out <- rd_list (nParts - 1) (read_logdir_partition name) ;;
  SkipTagSection ;;;
  ret out.

(** Sizes are -1 where the version does not report them. *)
Definition read_logdir (version : Z) : Rd LogDirResult :=
  code <- ReadInt16 ;;
  dir <- ReadCompactString ;;
  nTopics <- ReadUvarint ;;
  parts <- rd_flat (nTopics - 1) read_logdir_topic ;;
  total <- (if version >=? 4 then ReadInt64 else ret (-1)) ;;
  usable <- (if version >=? 4 then ReadInt64 else ret (-1)) ;;
  cordoned <- (if version >=? 5 then ReadBool else ret false) ;;
  SkipTagSection ;;;
  ret (mkLogDirResult code dir total usable cordoned parts).

Definition DecodeDescribeLogDirsResponse (version : Z) (body : bytes) : res (Z * list LogDirResult) :=
  run (ReadInt32 ;;;
       topErr <- (if version >=? 3 then ReadInt16 else ret 0) ;;
       nResults <- ReadUvarint ;;
       out <- rd_list (nResults - 1) (read_logdir version) ;;
       SkipTagSection ;;;
       ret (topErr, out)) body.

(** * Transactions *)

Record TransactionListing := mkListing { tl_TransactionalID : bytes; tl_ProducerID : Z; tl_State : bytes }.

Definition EncodeListTransactionsRequest (version : Z) (stateFilters : list bytes) (producerIDFilters : list Z) : Enc :=
  WriteCompactArrayLen (len stateFilters) +++ enc_list WriteCompactString stateFilters +++
  WriteCompactArrayLen (len producerIDFilters) +++ enc_list WriteInt64 producerIDFilters +++
  (if version >=? 1 then WriteInt64 (-1) else enc_nil) +++
  (if version >=? 2 then WriteCompactNullableString None else enc_nil) +++
  WriteEmptyTagSection.

Definition read_listing : Rd TransactionListing :=
  id <- ReadCompactString ;;
  pid <- ReadInt64 ;;
  state <- ReadCompactString ;;
  SkipTagSection ;;;
  ret (mkListing id pid state).

Definition DecodeListTransactionsResponse (version : Z) (body : bytes) : res (Z * list TransactionListing) :=
  run (ReadInt32 ;;;
       code <- ReadInt16 ;;
       nUnknown <- ReadUvarint ;;
       rd_list (nUnknown - 1) ReadCompactString ;;;
       n <- ReadUvarint ;;
       out <- rd_list (n - 1) read_listing ;;
       SkipTagSection ;;;
       ret (code, out)) body.

Record TransactionDescription := mkTxnDescription {
  tx_ErrorCode : Z;
  tx_TransactionalID : bytes;
  tx_State : bytes;
  tx_TimeoutMs : Z;
  tx_StartTimeMs : Z;
  tx_ProducerID : Z;
  tx_ProducerEpoch : Z;
  tx_Topics : gmap bytes (list Z) }.

Definition EncodeDescribeTransactionsRequest (transactionalIDs : list bytes) : Enc :=
  WriteCompactArrayLen (len transactionalIDs) +++ enc_list WriteCompactString transactionalIDs +++ WriteEmptyTagSection.

Definition read_txn_topic (topics : gmap bytes (list Z)) : Rd (gmap bytes (list Z)) :=
  topic <- ReadCompactString ;;
  nParts <- ReadUvarint ;;
  parts <- rd_list (nParts - 1) ReadInt32 ;;
  SkipTagSection ;;;
  ret (<[topic := parts]> topics).

Definition read_txn_description : Rd TransactionDescription :=
  code <- ReadInt16 ;;
  id <- ReadCompactString ;;
  state <- ReadCompactString ;;
  timeout <- ReadInt32 ;;
  start <- ReadInt64 ;;
  pid <- ReadInt64 ;;
  epoch <- ReadInt16 ;;
  nTopics <- ReadUvarint ;;
  topics <- rd_for (nTopics - 1) read_txn_topic ∅ ;;
  SkipTagSection ;;;
  ret (mkTxnDescription code id state timeout start pid epoch topics).

Definition DecodeDescribeTransactionsResponse (body : bytes) : res (list TransactionDescription) :=
  run (ReadInt32 ;;;
       n <- ReadUvarint ;;
       out <- rd_list (n - 1) read_txn_description ;;
       SkipTagSection ;;;
       ret out) body.

(** * The cluster *)

Definition VerDescribeCluster := 1.

Record ClusterBroker := mkClusterBroker { cb_NodeID : Z; cb_Host : bytes; cb_Port : Z; cb_Rack : bytes }.

Record ClusterDescription := mkClusterDescription {
  cd_ClusterID : bytes;
  cd_ControllerID : Z;
  cd_Brokers : list ClusterBroker;
  cd_ErrorCode : Z }.

Definition EncodeDescribeClusterRequest : Enc := WriteBool false +++ WriteInt8 0 +++ WriteEmptyTagSection.

Definition read_cluster_broker : Rd ClusterBroker :=
  nodeID <- ReadInt32 ;;
  host <- ReadCompactString ;;
  port <- ReadInt32 ;;
  rack <- ReadCompactNullableString ;;
  SkipTagSection ;;;
  ret (mkClusterBroker nodeID host port rack).

Definition DecodeDescribeClusterResponse (body : bytes) : res ClusterDescription :=
  run (ReadInt32 ;;;
       errCode <- ReadInt16 ;;
       ReadCompactNullableString ;;;
       ReadInt8 ;;;
       clusterID <- ReadCompactString ;;
       controller <- ReadInt32 ;;
       n <- ReadUvarint ;;
       brokers <- rd_list (n - 1) read_cluster_broker ;;
       ReadInt32 ;;;
       SkipTagSection ;;;
       ret (mkClusterDescription clusterID controller brokers errCode)) body.

(** * Safety of the decoders *)

Lemma delete_records_safe ver body : DecodeDeleteRecordsResponse ver body <> Panic.
Proof.
  apply safe_run. unfold read_deleted_topic_flex, read_deleted_flex, read_deleted_topic_legacy, read_deleted_legacy. solve_safe.
Qed.

Lemma elect_leaders_safe ver body : DecodeElectLeadersResponse ver body <> Panic.
Proof.
  apply safe_run. unfold read_elected_topic_flex, read_elected_flex, read_elected_topic_legacy, read_elected_legacy,
    readNullableString. solve_safe.
Qed.

Lemma alter_reassignments_safe body : DecodeAlterPartitionReassignmentsResponse body <> Panic.
Proof. apply safe_run. unfold read_reassigned_topic, read_reassigned. solve_safe. Qed.

Lemma list_reassignments_safe body : DecodeListPartitionReassignmentsResponse body <> Panic.
Proof. apply safe_run. unfold read_ongoing_topic, read_ongoing, readCompactInt32Array. solve_safe. Qed.

Lemma safe_quota_entity : Safe readQuotaEntity.
Proof. unfold readQuotaEntity. solve_safe. Qed.
#[export] Hint Resolve safe_quota_entity : wire.

Lemma describe_quotas_safe ver body : DecodeDescribeClientQuotasResponse ver body <> Panic.
Proof. apply safe_run. unfold read_quota_entry, read_quota_value. solve_safe. Qed.

Lemma alter_quotas_safe ver body : DecodeAlterClientQuotasResponse ver body <> Panic.
Proof. apply safe_run. unfold read_quota_result. solve_safe. Qed.

Lemma log_dirs_safe ver body : DecodeDescribeLogDirsResponse ver body <> Panic.
Proof. apply safe_run. unfold read_logdir, read_logdir_topic, read_logdir_partition. solve_safe. Qed.

Lemma list_transactions_safe ver body : DecodeListTransactionsResponse ver body <> Panic.
Proof. apply safe_run. unfold read_listing. solve_safe. Qed.

Lemma describe_transactions_safe body : DecodeDescribeTransactionsResponse body <> Panic.
Proof. apply safe_run. unfold read_txn_description, read_txn_topic. solve_safe. Qed.

Lemma describe_cluster_safe body : DecodeDescribeClusterResponse body <> Panic.
Proof. apply safe_run. unfold read_cluster_broker. solve_safe. Qed.
