(* ===== verification/DecoderSafety.v ===== *)
(** No response can crash the client: the decoders of the produce, fetch,
    metadata, group, offset, coordinator, transaction, share-group and
    administrative responses. *)

From Stdlib Require Import ZArith Lia.
From Stdlib Require Import Strings.Byte.
From stdpp Require Import base list gmap countable strings.
From S2P Require Import Prelude.
From S2P Require Import Wire.
From S2P Require Import Compress.
From S2P Require Import CompressFacts.
From S2P Require Import ProduceCodec.
From S2P Require Import FetchCodec.
From S2P Require Import Metadata.
From S2P Require Import Producer.
From S2P Require Import OffsetCodec.
From S2P Require Import GroupCodec.
From S2P Require Import TxnCodec.
From S2P Require Import ShareCodec.
From S2P Require Import AdminCodec.
From S2P Require Import DescribeCodec.
From S2P Require Import AclCodec.
From S2P Require Import ClusterCodec.

Open Scope Z_scope.

Lemma produce_response_safe ver body : DecodeProduceResponse ver body <> Panic.
Proof.
  unfold DecodeProduceResponse. destruct (_ >=? _); apply safe_run;
    unfold decodeProduceResponseFlex, decodeProduceResponseLegacy, read_result_flex, read_result_legacy; solve_safe.
Qed.

Lemma metadata_response_safe ver body : DecodeMetadataResponse ver body <> Panic.
Proof.
  unfold DecodeMetadataResponse. case_goal; apply safe_run;
    unfold decodeMetadataResponseFlex, decodeMetadataResponseLegacy, read_broker_flex, read_topic_flex,
      read_partition_flex, read_broker_legacy, read_topic_legacy, read_partition_legacy,
      readCompactInt32Array, readInt32Array, readNullableString; solve_safe.
Qed.

Lemma init_producer_id_safe body : DecodeInitProducerID body <> Panic.
Proof. apply safe_run. unfold read_init_producer_id. solve_safe. Qed.

(** C37: A broker's answer never crashes the client.  On any bytes and at any
    version, the decoders of the produce, metadata, group membership, offset,
    coordinator and transaction responses, of the fetch and share-fetch responses
    with their record batches, of the other share-group responses and of the
    administrative responses return a value or an error; none of them panics.
    The decompressors that the fetch decoders call are those of the library
    ([CodecLaws]: they do not panic), and from version 13 on a fetch response is
    decoded with a function that resolves topic ids, as the client does. *)
Theorem response_decoders_safe `{CodecLaws} ver body :
  (forall resolveTopic, ver < 13 \/ resolveTopic <> None -> DecodeFetchResponse ver body resolveTopic <> Panic) /\
  (forall topicName, DecodeShareFetchResponse body topicName <> Panic) /\
  DecodeProduceResponse ver body <> Panic /\ DecodeMetadataResponse ver body <> Panic /\
  DecodeJoinGroupResponse ver body <> Panic /\ DecodeSyncGroupResponse ver body <> Panic /\
  DecodeHeartbeatResponse ver body <> Panic /\
  DecodeConsumerGroupHeartbeatResponse body <> Panic /\ DecodeConsumerGroupHeartbeatResponseLegacy body <> Panic /\
  DecodeFindCoordinatorResponse body <> Panic /\
  DecodeOffsetCommitResponse ver body <> Panic /\ DecodeOffsetFetchResponse ver body <> Panic /\
  DecodeOffsetFetchMultiGroupResponse body <> Panic /\ DecodeListOffsetsResponse body <> Panic /\
  DecodeInitProducerID body <> Panic /\ DecodeAddPartitionsToTxn body <> Panic /\
  DecodeAddOffsetsToTxn ver body <> Panic /\ DecodeTxnOffsetCommit ver body <> Panic /\ DecodeEndTxn ver body <> Panic /\
  DecodeShareAcknowledgeResponse ver body <> Panic /\ DecodeShareGroupHeartbeatResponse body <> Panic /\
  DecodeShareGroupDescribeResponse body <> Panic /\ DecodeDescribeShareGroupOffsetsResponse body <> Panic /\
  DecodeAlterShareGroupOffsetsResponse body <> Panic /\ DecodeDeleteShareGroupOffsetsResponse body <> Panic /\
  DecodeCreateTopicsResponse body <> Panic /\ DecodeDeleteTopicsResponse body <> Panic /\
  DecodeAlterConfigsResponse ver body <> Panic /\ DecodeIncrementalAlterConfigsResponse ver body <> Panic /\
  DecodeCreatePartitionsResponse ver body <> Panic /\ DecodeOffsetDeleteResponse ver body <> Panic /\
  DecodeDeleteGroupsResponse body <> Panic /\ DecodeListGroupsResponse body <> Panic /\
  DecodeDescribeGroupsResponse body <> Panic /\ DecodeDescribeConfigsResponse ver body <> Panic /\
  DecodeCreateACLsResponse ver body <> Panic /\ DecodeDescribeACLsResponse ver body <> Panic /\
  DecodeDeleteACLsResponse body <> Panic /\ DecodeDescribeUserScramCredentialsResponse body <> Panic /\
  DecodeAlterUserScramCredentialsResponse body <> Panic /\ DecodeCreateDelegationTokenResponse body <> Panic /\
  DecodeRenewOrExpireDelegationTokenResponse body <> Panic /\ DecodeDescribeDelegationTokenResponse body <> Panic /\
  DecodeDeleteRecordsResponse ver body <> Panic /\ DecodeElectLeadersResponse ver body <> Panic /\
  DecodeAlterPartitionReassignmentsResponse body <> Panic /\ DecodeListPartitionReassignmentsResponse body <> Panic /\
  DecodeDescribeClientQuotasResponse ver body <> Panic /\ DecodeAlterClientQuotasResponse ver body <> Panic /\
  DecodeDescribeLogDirsResponse ver body <> Panic /\ DecodeListTransactionsResponse ver body <> Panic /\
  DecodeDescribeTransactionsResponse body <> Panic /\ DecodeDescribeClusterResponse body <> Panic.
Proof.
  split_and!; auto using fetch_response_safe, share_fetch_safe, produce_response_safe, metadata_response_safe, join_group_safe, sync_group_safe, heartbeat_safe,
    group_heartbeat_safe, group_heartbeat_legacy_safe, find_coordinator_safe, offset_commit_safe, offset_fetch_safe,
    offset_fetch_multi_safe, list_offsets_safe, init_producer_id_safe, add_partitions_safe, add_offsets_safe,
    txn_offset_commit_safe, end_txn_safe, share_acknowledge_safe, share_heartbeat_safe, share_describe_safe,
    share_offsets_safe, alter_share_offsets_safe, delete_share_offsets_safe, create_topics_safe, delete_topics_safe,
    alter_configs_safe, incremental_alter_configs_safe, create_partitions_safe, offset_delete_safe, delete_groups_safe,
    list_groups_safe, describe_groups_safe, describe_configs_safe, create_acls_safe, describe_acls_safe, delete_acls_safe,
    describe_scram_safe, alter_scram_safe, create_token_safe, renew_token_safe, describe_tokens_safe, delete_records_safe,
    elect_leaders_safe, alter_reassignments_safe, list_reassignments_safe, describe_quotas_safe, alter_quotas_safe,
    log_dirs_safe, list_transactions_safe, describe_transactions_safe, describe_cluster_safe.
Qed.

Lemma response_decoders_safe_witness :
  DecodeFetchResponse (H := stored_codecs) 12 (str "garbage in") None <> Panic /\
  DecodeShareFetchResponse (H := stored_codecs) (str "garbage in") (fun _ => None) <> Panic /\
  DecodeProduceResponse 9 (str "garbage in") <> Panic.
Proof.
  destruct (response_decoders_safe (H0 := stored_codecs_laws) 12 (str "garbage in")) as (Hf & _).
  destruct (response_decoders_safe (H0 := stored_codecs_laws) 9 (str "garbage in")) as (_ & Hs & Hp & _).
  split_and!; [apply Hf; left; lia|apply Hs|exact Hp].
Defined.
