(* ===== verification/AsyncProducer.v ===== *)
(** The buffering producers: [batch_producer.go] and [async_producer.go].

    [BatchProducer] is sequential under its mutex: its methods are functions on
    the pending records, and the linger timer's callback is one more operation.
    [AsyncProducer] is a transition system.  A step is one communication: a
    [Send], the two channel closes of [Close], the cancellation of the context,
    the choice of a worker's [select], or one delivery report.  Go's [select]
    picks any ready case.  The channel of reports is read by the user; a report
    step is a successful send on it, so its capacity only delays steps.  What
    [ProduceSyncResult] returns for a batch is left open (any results, any
    error), which covers every interleaving of the workers' sends. *)

From Stdlib Require Import ZArith Lia.
From stdpp Require Import base list gmap relations strings.
From S2P Require Import Prelude.
From S2P Require Import Wire.
From S2P Require Import Retry.
From S2P Require Import Producer.
From S2P Require Import GoMonad.

Open Scope Z_scope.

(** * BatchProducer *)

Section batch.
(** The inner producer and its [ProduceSync]. *)
Context {P : Type} (ProduceSync : list record -> M P unit).

Record BatchProducer := mkBatch {
  bp_inner : P;
  bp_pending : list record;
  bp_timer : bool;
  bp_linger : Z;
  bp_batchMax : Z }.

Definition NewBatchProducer (inner : P) (linger batchSize : Z) : BatchProducer :=
  mkBatch inner [] false
    (if linger <=? 0 then 5 * Millisecond else linger)
    (if batchSize <=? 0 then 100 else batchSize).

Definition flushLocked : M BatchProducer unit := fun b =>
  match bp_pending b with
  | [] => (mkBatch (bp_inner b) [] false (bp_linger b) (bp_batchMax b), Ok tt)
  | batch =>
      let '(p, r) := ProduceSync batch (bp_inner b) in
      (mkBatch p [] false (bp_linger b) (bp_batchMax b), r)
  end.

Definition BatchSend (r : record) : M BatchProducer unit := fun b =>
  let b := mkBatch (bp_inner b) (bp_pending b ++ [r]) (bp_timer b) (bp_linger b) (bp_batchMax b) in
  if len (bp_pending b) >=? bp_batchMax b then flushLocked b
  else (mkBatch (bp_inner b) (bp_pending b) true (bp_linger b) (bp_batchMax b), Ok tt).

Definition Flush : M BatchProducer unit := flushLocked.
Definition BatchClose : M BatchProducer unit := Flush.

(** The timer's callback, [_ = b.Flush(context.Background())]. *)
Definition linger_fired : M BatchProducer unit := mignore Flush.

(** One call, with its error if it returns one. *)
Inductive batch_op := OpSend (r : record) | OpFlush | OpLinger.

Definition run_op (op : batch_op) : M BatchProducer unit :=
  match op with OpSend r => BatchSend r | OpFlush => Flush | OpLinger => linger_fired end.
End batch.
Arguments mkBatch {P}.
Arguments bp_pending {P}.
Arguments bp_inner {P}.
Arguments bp_timer {P}.
Arguments bp_linger {P}.
Arguments bp_batchMax {P}.

Fixpoint run_ops {P} (produce : list record -> M P unit) (ops : list batch_op) (b : BatchProducer (P := P))
    : BatchProducer (P := P) :=
  match ops with
  | [] => b
  | op :: ops => run_ops produce ops (fst (run_op produce op b))
  end.

Definition sent_records (ops : list batch_op) : list record :=
  omap (fun op => match op with OpSend r => Some r | _ => None end) ops.

(** The inner producer with a log of the batches it was given. *)
Definition logging {P} (produce : list record -> M P unit) (batch : list record) : M (P * list (list record)) unit := fun pl =>
  let '(p, r) := produce batch (fst pl) in ((p, snd pl ++ [batch]), r).

Section batch_facts.
Context {P : Type} (produce : list record -> M P unit).

Local Notation logged_bp := (BatchProducer (P := P * list (list record))).
Definition batches (b : logged_bp) : list (list record) := snd (bp_inner b).

(** Everything sent so far is in the batches or pending, in order; batches are
    neither empty nor too long, and what is pending waits for a timer. *)
Definition batch_inv (sent : list record) (b : logged_bp) : Prop :=
  concat (batches b) ++ bp_pending b = sent /\
  Forall (fun l => l <> [] /\ len l <= bp_batchMax b) (batches b) /\
  len (bp_pending b) < bp_batchMax b /\ 0 < bp_batchMax b /\
  (bp_pending b <> [] -> bp_timer b = true).

Lemma flush_inv sent (b : logged_bp) :
  concat (batches b) ++ bp_pending b = sent ->
  Forall (fun l => l <> [] /\ len l <= bp_batchMax b) (batches b) ->
  len (bp_pending b) <= bp_batchMax b -> 0 < bp_batchMax b ->
  let b' := fst (flushLocked (logging produce) b) in batch_inv sent b' /\ bp_pending b' = [].
Proof.
  intros Hc Hf Hl Hm. unfold flushLocked. destruct (bp_pending b) as [|r l] eqn:Ep; cbn [fst]; unfold batch_inv.
  - split_and!; cbn; try done.
  - unfold logging, batches in *. destruct (produce (r :: l) (fst (bp_inner b))) as [p o].
    cbn [fst snd bp_inner bp_pending bp_batchMax bp_timer]. split_and!; try done.
    + rewrite concat_app. cbn [concat]. by rewrite !app_nil_r.
    + apply Forall_app. split; [done|]. by repeat constructor.
Qed.

Lemma run_op_inv op sent (b : logged_bp) : batch_inv sent b ->
  batch_inv (sent ++ sent_records [op]) (fst (run_op (logging produce) op b)).
Proof.
  intros (Hc & Hf & Hl & Hm & Ht).
  assert (Hflush : batch_inv sent (fst (flushLocked (logging produce) b))) by (apply flush_inv; [done|done|lia|done]).
  destruct op as [r| |]; cbn [run_op sent_records omap list_omap]; rewrite ?app_nil_r.
  - unfold BatchSend. cbn [bp_pending bp_batchMax]. rewrite len_app, len_cons, len_nil.
    destruct (Z.geb_spec (len (bp_pending b) + (1 + 0)) (bp_batchMax b)).
    + apply flush_inv; cbn [bp_pending bp_batchMax]; [by rewrite app_assoc; unfold batches in *; cbn [bp_inner]; rewrite Hc|done| |done].
      rewrite len_app, len_cons, len_nil. lia.
    + unfold batch_inv, batches in *. cbn [fst bp_inner bp_pending bp_batchMax bp_timer]. split_and!; try done.
      * by rewrite app_assoc, Hc.
      * rewrite len_app, len_cons, len_nil. lia.
  - exact Hflush.
  - unfold linger_fired, mignore, Flush. destruct (flushLocked (logging produce) b) as [b' []]; exact Hflush.
Qed.

Lemma run_ops_inv ops sent (b : logged_bp) : batch_inv sent b ->
  batch_inv (sent ++ sent_records ops) (run_ops (logging produce) ops b).
Proof.
  revert sent b. induction ops as [|op ops IH]; intros sent b Hi; cbn [run_ops].
  - cbn. by rewrite app_nil_r.
  - apply (run_op_inv op) in Hi. apply IH in Hi. rewrite <- app_assoc in Hi.
    by replace (sent_records (op :: ops)) with (sent_records [op] ++ sent_records ops) by (symmetry; apply (omap_app _ [op] ops)).
Qed.

(** The batching producer hands every record on once and in order.  After
    any sequence of [Send]s, [Flush]es and linger timers, whatever the inner
    producer returns, the batches it was given and the pending records are,
    concatenated, the records sent; no batch is empty or longer than the batch
    size; while records are pending there are fewer than a batch and the timer
    is armed; and a final [Close] leaves nothing pending. *)
Theorem batch_producer_complete p linger batchSize ops :
  let b := run_ops (logging produce) ops (NewBatchProducer (p, []) linger batchSize) in
  batch_inv (sent_records ops) b /\
  concat (batches (fst (BatchClose (logging produce) b))) = sent_records ops.
Proof.
  cbn zeta. assert (Hi : batch_inv (sent_records ops) (run_ops (logging produce) ops (NewBatchProducer (p, []) linger batchSize))).
  { apply (run_ops_inv ops []). unfold batch_inv, NewBatchProducer. cbn [batches bp_inner snd bp_pending bp_batchMax concat app].
    split_and!; try done; try constructor; destruct (Z.leb_spec batchSize 0); rewrite ?len_nil; lia. }
  split; [done|]. destruct Hi as (Hc & Hf & Hl & Hm & Ht).
  destruct (flush_inv (sent_records ops) _ Hc Hf ltac:(lia) Hm) as [(Hc' & _) Hp]. unfold BatchClose, Flush.
  by rewrite Hp, app_nil_r in Hc'.
Qed.
End batch_facts.

(** The linger timer drops what it cannot send.  When the producer fails,
    the records whose [Send] returned nil are gone after the timer's flush: no
    call returns the error and nothing is left to send again. *)
Theorem linger_flush_loses r e :
  let failing : list record -> M (list (list record)) unit := fun batch l => (l ++ [batch], Err e) in
  let b := NewBatchProducer [] 0 0 in
  let '(b1, r1) := BatchSend failing r b in
  let '(b2, r2) := linger_fired failing b1 in
  let '(b3, r3) := BatchClose failing b2 in
  r1 = Ok tt /\ r2 = Ok tt /\ r3 = Ok tt /\ bp_pending b3 = [] /\ bp_inner b3 = [[r]].
Proof. cbn. split_and!; reflexivity. Qed.

(** * AsyncProducer *)

Record AsyncResult := mkAsyncResult { ar_Record : record; ar_Result : ProduceRecordResult; ar_Err : option error }.

(** The reports [flush] sends for a batch. *)
Definition report (err : option error) (results : list ProduceRecordResult) (i : nat) (r : record) : AsyncResult :=
  mkAsyncResult r
    (match err with None => default zero_result (results !! i) | Some _ => zero_result end) err.

Definition reports (batch : list record) (results : list ProduceRecordResult) (err : option error) : list AsyncResult :=
  imap (report err results) batch.

(** A worker: at its [select] with a batch, in [flush] with reports to send (and
    whether it returns afterwards), or gone.  [flush] empties the batch only
    after its last report. *)
Inductive worker :=
| Selecting (batch : list record) (armed : bool)
| Reporting (batch : list record) (todo : list AsyncResult) (leaving : bool)
| Exited.

Record async := mkAsync {
  as_in : list record;
  as_inClosed : bool;
  as_closed : bool;
  as_ctxDone : bool;
  as_workers : list worker;
  as_out : list AsyncResult;
  as_sent : list record;        (* the records whose Send returned nil *)
  as_panicked : bool }.

Definition NewAsyncProducer (workers : nat) : async :=
  mkAsync [] false false false (replicate workers (Selecting [] false)) [] [] false.

(** [flush] is entered: an empty batch returns at once. *)
Definition flush (batch : list record) (results : list ProduceRecordResult) (err : option error) (leaving : bool) : worker :=
  match batch with
  | [] => if leaving then Exited else Selecting [] false
  | _ => Reporting batch (reports batch results err) leaving
  end.

(** After [flush] returned with the batch in [b]. *)
Definition after_flush (b : list record) (armed leaving : bool) : worker :=
  if leaving then Exited else Selecting b armed.

(** A step of one worker: it may take a record from [in], send a report, or see
    that [closed], [in] or the context is closed. *)
Inductive worker_step (batchSize : Z) (closed ctxDone : bool) :
    list record -> bool -> worker -> list record -> worker -> list AsyncResult -> Prop :=
| w_ctx inp ic batch armed results err : ctxDone = true ->
    worker_step batchSize closed ctxDone inp ic (Selecting batch armed) inp (flush batch results err true) []
| w_closed inp ic batch armed results err : closed = true ->
    worker_step batchSize closed ctxDone inp ic (Selecting batch armed) inp (flush batch results err true) []
| w_drained batch armed results err :
    worker_step batchSize closed ctxDone [] true (Selecting batch armed) [] (flush batch results err true) []
| w_take r inp ic batch armed : len (batch ++ [r]) < batchSize ->
    worker_step batchSize closed ctxDone (r :: inp) ic (Selecting batch armed) inp (Selecting (batch ++ [r]) true) []
| w_full r inp ic batch armed results err : batchSize <= len (batch ++ [r]) ->
    worker_step batchSize closed ctxDone (r :: inp) ic (Selecting batch armed) inp (flush (batch ++ [r]) results err false) []
| w_linger inp ic batch results err :
    worker_step batchSize closed ctxDone inp ic (Selecting batch true) inp (flush batch results err false) []
| w_report inp ic batch x todo leaving :
    worker_step batchSize closed ctxDone inp ic (Reporting batch (x :: todo) leaving) inp (Reporting batch todo leaving) [x]
| w_reported inp ic batch leaving :
    worker_step batchSize closed ctxDone inp ic (Reporting batch [] leaving) inp (after_flush [] false leaving) []
| w_cancelled inp ic batch x todo leaving : ctxDone = true ->
    worker_step batchSize closed ctxDone inp ic (Reporting batch (x :: todo) leaving) inp (after_flush batch true leaving) [].

(** A step of the system.  [capacity] is the buffer of [in]. *)
Inductive async_step (capacity batchSize : Z) : async -> async -> Prop :=
| a_send r a : as_inClosed a = false -> len (as_in a) < capacity ->
    async_step capacity batchSize a
      (mkAsync (as_in a ++ [r]) false (as_closed a) (as_ctxDone a) (as_workers a) (as_out a) (as_sent a ++ [r]) (as_panicked a))
| a_send_closed (r : record) a : as_inClosed a = true ->
    async_step capacity batchSize a
      (mkAsync (as_in a) true (as_closed a) (as_ctxDone a) (as_workers a) (as_out a) (as_sent a) true)
| a_close a : as_closed a = false ->
    async_step capacity batchSize a
      (mkAsync (as_in a) (as_inClosed a) true (as_ctxDone a) (as_workers a) (as_out a) (as_sent a) (as_panicked a))
| a_close_in a : as_closed a = true -> as_inClosed a = false ->
    async_step capacity batchSize a
      (mkAsync (as_in a) true true (as_ctxDone a) (as_workers a) (as_out a) (as_sent a) (as_panicked a))
| a_cancel a :
    async_step capacity batchSize a
      (mkAsync (as_in a) (as_inClosed a) (as_closed a) true (as_workers a) (as_out a) (as_sent a) (as_panicked a))
| a_worker a ws w ws' inp w' out : as_workers a = ws ++ w :: ws' ->
    worker_step batchSize (as_closed a) (as_ctxDone a) (as_in a) (as_inClosed a) w inp w' out ->
    async_step capacity batchSize a
      (mkAsync inp (as_inClosed a) (as_closed a) (as_ctxDone a) (ws ++ w' :: ws') (as_out a ++ out) (as_sent a) (as_panicked a)).

(** ** Every accepted record is somewhere *)

(** The records a worker has not reported yet. *)
Definition held (w : worker) : list record :=
  match w with
  | Selecting batch _ => batch
  | Reporting _ todo _ => map ar_Record todo
  | Exited => []
  end.

Definition async_inv (a : async) : Prop :=
  as_ctxDone a = false ->
  as_sent a ≡ₚ as_in a ++ concat (map held (as_workers a)) ++ map ar_Record (as_out a).

Lemma reports_records batch results err : map ar_Record (reports batch results err) = batch.
Proof.
  unfold reports. etransitivity; [exact (fmap_imap (report err results) ar_Record batch)|].
  transitivity (imap (fun _ => id) batch); [apply imap_ext; by intros|]. rewrite (imap_const id). apply list_fmap_id.
Qed.

Lemma held_flush batch results err leaving : held (flush batch results err leaving) = batch.
Proof. unfold flush. destruct batch; [by destruct leaving|]. cbn [held]. apply reports_records. Qed.

Lemma worker_conserves batchSize closed inp ic w inp' w' out :
  worker_step batchSize closed false inp ic w inp' w' out ->
  inp ++ held w ≡ₚ inp' ++ held w' ++ map ar_Record out.
Proof.
  intros Hs. inversion Hs; subst; try done; cbn [held map app]; rewrite ?held_flush, ?app_nil_r; try done;
    unfold after_flush; try destruct leaving; cbn [held]; solve_Permutation.
Qed.

Lemma async_inv_step capacity batchSize a b : async_step capacity batchSize a b -> async_inv a -> async_inv b.
Proof.
  intros Hs Hi Hc. destruct Hs as [r a _ _|r a _|a _|a _ _|a|a ws w ws' inp w' out Hw Hs]; cbn [as_ctxDone] in Hc;
    try done; unfold async_inv in *; cbn [as_sent as_in as_workers as_out] in *; try (by apply Hi).
  - specialize (Hi Hc). rewrite Hi, <- !app_assoc. apply Permutation_app_head. cbn [app].
    by rewrite (app_assoc (concat _)), <- Permutation_cons_append.
  - specialize (Hi Hc). rewrite Hc in Hs. apply worker_conserves in Hs. rewrite Hi, Hw, !map_app, !concat_app. cbn [map concat].
    set (A := concat (map held ws)). set (B := concat (map held ws')). set (O := map ar_Record (as_out a)) in *.
    transitivity ((as_in a ++ held w) ++ A ++ B ++ O); [solve_Permutation|]. rewrite Hs. solve_Permutation.
Qed.

Lemma async_inv_init workers : async_inv (NewAsyncProducer workers).
Proof. intros _. cbn. rewrite app_nil_r. induction workers; [done|]. cbn. done. Qed.

(** C29: The asynchronous producer neither loses nor repeats a report on its own.
    In every run of the workers in which the context is not cancelled, the
    records accepted by [Send] are, with multiplicity, those still in the
    channel, those a worker holds, and those reported.  Once the workers are
    gone, every accepted record but those left in the channel has been reported
    exactly once. *)
Theorem async_records_conserved workers capacity batchSize a :
  rtc (async_step capacity batchSize) (NewAsyncProducer workers) a -> as_ctxDone a = false ->
  as_sent a ≡ₚ as_in a ++ concat (map held (as_workers a)) ++ map ar_Record (as_out a) /\
  (Forall (eq Exited) (as_workers a) -> as_sent a ≡ₚ as_in a ++ map ar_Record (as_out a)).
Proof.
  intros Hr Hc.
  assert (Hi : async_inv a) by (apply (rtc_ind_r async_inv) in Hr; [done|apply async_inv_init|by intros; eapply async_inv_step]).
  split; [by apply Hi|]. intros Hx. rewrite (Hi Hc). assert (concat (map held (as_workers a)) = []) as ->; [|done].
  induction Hx as [|w ws <- _ IH]; [done|]. cbn. exact IH.
Qed.

Definition a_record : record := mkRecord [] 0 [] [] [] None.

(** One worker, one accepted record, reported. *)
Definition async_done : async :=
  mkAsync [] true true false [Exited] (reports [a_record] [] None) [a_record] false.

Lemma async_done_reached : rtc (async_step 256 1) (NewAsyncProducer 1) async_done.
Proof.
  eapply rtc_l; [apply (a_send _ _ a_record); done|].
  eapply rtc_l; [eapply (a_worker _ _ _ [] _ []); [done|]; apply (w_full _ _ _ a_record [] _ [] _ [] None); vm_compute; discriminate|].
  eapply rtc_l; [eapply (a_worker _ _ _ [] _ []); [done|]; apply w_report|].
  eapply rtc_l; [eapply (a_worker _ _ _ [] _ []); [done|]; apply w_reported|].
  eapply rtc_l; [apply a_close; done|]. eapply rtc_l; [apply a_close_in; done|].
  eapply rtc_l; [eapply (a_worker _ _ _ [] _ []); [done|]; by apply (w_closed _ _ _ _ _ _ _ [] None)|]. apply rtc_refl.
Qed.

Lemma async_records_conserved_witness : as_sent async_done ≡ₚ as_in async_done ++ map ar_Record (as_out async_done).
Proof.
  apply (proj2 (async_records_conserved 1 256 1 async_done async_done_reached eq_refl)). repeat constructor.
Defined.

(** [Close] abandons what it has accepted, and [Send] may panic after it.
    [Close] closes [closed] together with the input channel, and a worker whose
    [select] sees [closed] first leaves with records still in the channel: a
    record whose [Send] returned nil is never produced and never reported.  A
    [Send] after [Close] may choose the closed input channel, which panics. *)
Theorem async_close_unsafe :
  (exists a, rtc (async_step 256 100) (NewAsyncProducer 1) a /\ as_workers a = [Exited] /\ as_ctxDone a = false /\
     as_sent a = [a_record] /\ as_out a = [] /\ as_in a = [a_record]) /\
  (exists a, rtc (async_step 256 100) (NewAsyncProducer 1) a /\ as_panicked a = true).
Proof.
  split; eexists; split.
  - eapply rtc_l; [apply (a_send _ _ a_record); done|]. eapply rtc_l; [apply a_close; done|].
    eapply rtc_l; [apply a_close_in; done|].
    eapply rtc_l; [eapply (a_worker _ _ _ [] _ []); [done|]; by apply (w_closed _ _ _ _ _ _ _ [] None)|]. apply rtc_refl.
  - split_and!; reflexivity.
  - eapply rtc_l; [apply a_close; done|]. eapply rtc_l; [apply a_close_in; done|].
    eapply rtc_l; [apply (a_send_closed _ _ a_record); done|]. apply rtc_refl.
  - reflexivity.
Qed.
