(* ===== verification/Admin.v ===== *)
(** The administrative client: [admin.go], [admin_mutate.go], [admin_offsets.go]
    and [admin_lag.go], with [RequestAny] of [internal/broker/cluster.go].

    [Admin] keeps no state of its own: a method is an [M W A] over the world
    behind the client.  Where a public type copies every field of the
    protocol's, the protocol's type is the result.  A nil list of topics, which
    asks the cluster for all of them, is the empty list. *)

From Stdlib Require Import ZArith Lia.
From Stdlib Require Import Strings.Byte.
From stdpp Require Import base list gmap countable strings.
From S2P Require Import Prelude.
From S2P Require Import Wire.
From S2P Require Import Header.
From S2P Require Import Metadata.
From S2P Require Import Retry.
From S2P Require Import Producer.
From S2P Require Import OffsetCodec.
From S2P Require Import GroupCodec.
From S2P Require Import GoMonad.
From S2P Require Import Consumer.
From S2P Require Import ShareCodec.
From S2P Require Import AdminCodec.
From S2P Require Import DescribeCodec.

Open Scope Z_scope.

Definition VerDeleteTopics := 6.
Definition VerAlterConfigs := 2.
Definition VerOffsetFetch := 9.
Definition VerOffsetDelete := 0.
Definition VerDeleteGroups := 2.
Definition VerDescribeShareGroupOffsets := 0.
Definition VerAlterShareGroupOffsets := 0.
Definition VerDeleteShareGroupOffsets := 0.
Definition ConfigResourceBroker := 4.

Definition ErrTopicNotFound : error := FmtError "gokafka: topic not found" 0.
Definition ErrNoShareGroup : error := FmtError "gokafka: share group is required" 0.

(** * Decimal numbers *)

(** [fmt.Sprintf] with verb d, and [fmt.Sscanf] with verb d into an [int32]:
    an int32 has at most ten digits. *)
Definition digit (d : Z) : byte := z2b (48 + d).

Fixpoint dec_digits (fuel : nat) (n : Z) (acc : bytes) : bytes :=
  match fuel with
  | O => acc
  | S f => if n <? 10 then digit n :: acc else dec_digits f (n / 10) (digit (n mod 10) :: acc)
  end.

Definition Sprintf_d (id : Z) : bytes := if id <? 0 then str "-" ++ dec_digits 10 (- id) [] else dec_digits 10 id [].

Definition is_digit (b : byte) : bool := (48 <=? b2z b) && (b2z b <=? 57).
Definition is_space (b : byte) : bool := bool_decide (b2z b ∈ [9; 10; 11; 12; 13; 32]).

Fixpoint take_while (p : byte -> bool) (s : bytes) : bytes :=
  match s with b :: rest => if p b then b :: take_while p rest else [] | [] => [] end.
Fixpoint skip_while (p : byte -> bool) (s : bytes) : bytes :=
  match s with b :: rest => if p b then skip_while p rest else s | [] => [] end.

Definition dec_value (ds : bytes) : Z := fold_left (fun acc b => acc * 10 + (b2z b - 48)) ds 0.

Definition scan_digits (neg : bool) (s : bytes) : option Z :=
  match take_while is_digit s with
  | [] => None
  | ds =>
      let v := if neg then - dec_value ds else dec_value ds in
      if bool_decide (int32 v) then Some v else None
  end.

Definition Sscanf_d (s : bytes) : option Z :=
  match skip_while is_space s with
  | b :: rest =>
      if b2z b =? 45 then scan_digits true rest
      else if b2z b =? 43 then scan_digits false rest
      else scan_digits false (b :: rest)
  | [] => None
  end.

(** * Data *)

Record TopicSpec := mkTopicSpec {
  ts_Name : bytes;
  ts_Partitions : Z;
  ts_ReplicationFactor : Z;
  ts_Configs : gmap bytes bytes }.

Record PartitionDescription := mkPartitionDescription {
  pd_ID : Z;
  pd_Leader : Z;
  pd_Replicas : list Z;
  pd_ISR : list Z;
  pd_ErrorCode : Z }.

Record TopicDescription := mkTopicDescription {
  td_Name : bytes;
  td_ErrorCode : Z;
  td_Partitions : list PartitionDescription }.

Record PartitionLag := mkPartitionLag {
  pl_Topic : bytes;
  pl_Partition : Z;
  pl_Committed : Z;
  pl_LogEndOffset : Z;
  pl_Lag : Z }.

(** The arithmetic of both lag queries; a partition no broker answered for has
    the map's zero value as its end. *)
Definition lag_of (ends : gmap partKey Z) (co : CommittedOffset) : PartitionLag :=
  let endOff := default 0 (ends !! (co_Topic co, co_Partition co)) in
  let lag := if (co_Offset co >=? 0) && (endOff >? co_Offset co) then s64 (endOff - co_Offset co) else 0 in
  mkPartitionLag (co_Topic co) (co_Partition co) (co_Offset co) endOff lag.

Section admin.
Context {W : Type} `{ClusterEnv W} `{MapOrder}.
Context (retry_cfg : RetryConfig).

Local Notation A := (M W).

(** * Requests *)

Definition adm_open : A unit :=
  let! w := mget in if env_open w then mret tt else merr ErrClosed.

Definition adm_version (api fallback : Z) : A Z := mgets (fun w => negotiatedVersion (env_versions w) api fallback).

(** [if ver < 0 { ver = fallback }] and [if ver <= 0 { ver = fallback }] *)
Definition version_or (ver fallback : Z) : Z := if ver <? 0 then fallback else ver.
Definition positive_or (ver fallback : Z) : Z := if ver <=? 0 then fallback else ver.

Definition adm_request (node api ver : Z) (body : Enc) : A bytes :=
  let! body := mlift body in env_Request node api ver body.

(** The metadata brokers in order, then the seeds. *)
Fixpoint request_brokers (brokers : list BrokerMeta) (api ver : Z) (body : bytes) (lastErr : option error) : A bytes :=
  match brokers with
  | [] =>
      let! r := mtry (env_RequestViaSeed api ver body) in
      match r with
      | inl resp => mret resp
      | inr e => merr (default e lastErr)
      end
  | b :: rest =>
      let! r := mtry (env_Request (bm_NodeID b) api ver body) in
      match r with
      | inl resp => mret resp
      | inr e => request_brokers rest api ver body (Some e)
      end
  end.

Definition RequestAny (api ver : Z) (body : bytes) : A bytes :=
  let! w := mget in request_brokers (md_Brokers (cl_meta (env_cluster w))) api ver body None.

Definition requestAny (api ver : Z) (body : Enc) : A bytes :=
  let! body := mlift body in
  do! adm_open in
  let! w := mget in
  if negb (AdvertisesAPI (env_versions w) api) then merr (FmtError "gokafka: broker does not support API key" api)
  else RequestAny api ver body.

Definition kafka_error (code : Z) : error := KafkaError code [] 0.

(** [if code != 0 { return newKafkaError(code, "", 0, ...) }] *)
Definition check_code (code : Z) : A unit := if negb (code =? 0) then merr (kafka_error code) else mret tt.

(** * Topics *)

Definition decodeTopicResults (resp : bytes) (decode : bytes -> res (list TopicMutationResult)) : A unit :=
  let! results := mlift (decode resp) in
  match FirstTopicError results with
  | Some r => merr (KafkaError (tr_ErrorCode r) (tr_Topic r) 0)
  | None => mret tt
  end.

Definition topic_creates (specs : list TopicSpec) : gmap bytes TopicCreate :=
  fold_left (fun (m : gmap bytes TopicCreate) s =>
    <[ts_Name s := mkTopicCreate (ts_Partitions s) (ts_ReplicationFactor s) (ts_Configs s)]> m) specs ∅.

Definition CreateTopics (specs : list TopicSpec) : A unit :=
  if len specs =? 0 then mret tt else
  let! resp := requestAny APICreateTopics VerCreateTopics (EncodeCreateTopicsRequest (topic_creates specs)) in
  do! decodeTopicResults resp DecodeCreateTopicsResponse in
  env_Refresh (map ts_Name specs).

Definition CreateTopic (name : bytes) (partitions replication : Z) : A unit :=
  CreateTopics [mkTopicSpec name partitions replication ∅].

Definition DeleteTopics (topics : list bytes) : A unit :=
  let! v := adm_version APIDeleteTopics VerDeleteTopics in
  let ver := positive_or v VerDeleteTopics in
  let! resp := requestAny APIDeleteTopics ver (EncodeDeleteTopicsRequest ver topics) in
  decodeTopicResults resp DecodeDeleteTopicsResponse.

Definition ListTopics : A (list bytes) :=
  do! adm_open in
  do! env_Refresh [] in
  mgets (fun w => map tm_Name (md_Topics (cl_meta (env_cluster w)))).

Definition find_topic (topic : bytes) (w : W) : option TopicMeta :=
  List.find (fun t => bool_decide (tm_Name t = topic)) (md_Topics (cl_meta (env_cluster w))).

Definition TopicPartitions (topic : bytes) : A Z :=
  do! env_Refresh [topic] in
  let! w := mget in
  match find_topic topic w with
  | Some t => mret (len (tm_Partitions t))
  | None => merr ErrTopicNotFound
  end.

Definition describe_partition (p : PartitionMeta) : PartitionDescription :=
  mkPartitionDescription (pm_Partition p) (pm_Leader p) (pm_Replicas p) (pm_ISR p) (pm_ErrorCode p).

Definition DescribeTopic (topic : bytes) : A TopicDescription :=
  do! adm_open in
  do! env_Refresh [topic] in
  let! w := mget in
  match find_topic topic w with
  | Some t => mret (mkTopicDescription topic (tm_ErrorCode t) (map describe_partition (tm_Partitions t)))
  | None => merr ErrTopicNotFound
  end.

Definition CreatePartitions (topic : bytes) (count : Z) : A unit :=
  let! v := adm_version APICreatePartitions VerCreatePartitions in
  let ver := positive_or v VerCreatePartitions in
  let! resp := requestAny APICreatePartitions ver
    (EncodeCreatePartitionsRequest ver [mkCreatePartitions topic count []] 30000) in
  decodeTopicResults resp (DecodeCreatePartitionsResponse ver).

(** * Groups *)

Definition ListConsumerGroups : A (list ConsumerGroupListing) :=
  let! rb := requestAny APIListGroups VerListGroups EncodeListGroupsRequest in
  mlift (DecodeListGroupsResponse rb).

Definition DescribeConsumerGroups (groups : list bytes) : A (list ConsumerGroupDescription) :=
  if len groups =? 0 then mret [] else
  let! rb := requestAny APIDescribeGroups VerDescribeGroups (EncodeDescribeGroupsRequest groups) in
  mlift (DecodeDescribeGroupsResponse rb).

Definition DescribeShareGroups (groups : list bytes) : A (list ShareGroupDescription) :=
  if len groups =? 0 then mret [] else
  let! ver := adm_version APIShareGroupDescribe VerShareGroupDescribe in
  if ver <=? 0 then merr (FmtError "gokafka: broker does not support ShareGroupDescribe" 0) else
  let! rb := requestAny APIShareGroupDescribe ver (EncodeShareGroupDescribeRequest groups false) in
  mlift (DecodeShareGroupDescribeResponse rb).

Definition delete_group (group : bytes) : A unit :=
  if bool_decide (group = []) then merr ErrNoConsumerGroup else
  let! coord := FindCoordinator group CoordinatorGroup in
  let! resp := adm_request coord APIDeleteGroups VerDeleteGroups (EncodeDeleteGroupsRequest [group]) in
  let! results := mlift (DecodeDeleteGroupsResponse resp) in
  match FirstGroupError results with
  | Some r => merr (KafkaError (gr_ErrorCode r) (gr_GroupID r) 0)
  | None => mret tt
  end.

Definition DeleteConsumerGroups (groups : list bytes) : A unit := mfor delete_group groups.

(** * Share-group offsets *)

Definition DescribeShareGroupOffsets (group : bytes) : A (list ShareGroupOffset) :=
  do! adm_open in
  let! v := adm_version APIDescribeShareGroupOffsets VerDescribeShareGroupOffsets in
  let! rb := requestAny APIDescribeShareGroupOffsets (version_or v VerDescribeShareGroupOffsets)
    (EncodeDescribeShareGroupOffsetsRequest group) in
  let! r := mlift (DecodeDescribeShareGroupOffsetsResponse rb) in
  do! check_code (fst r) in
  mret (snd r).

Definition AlterShareGroupOffsets (group : bytes) (offsets : gmap bytes (gmap Z Z)) : A unit :=
  do! adm_open in
  let! v := adm_version APIAlterShareGroupOffsets VerAlterShareGroupOffsets in
  let! rb := requestAny APIAlterShareGroupOffsets (version_or v VerAlterShareGroupOffsets)
    (EncodeAlterShareGroupOffsetsRequest group offsets) in
  let! code := mlift (DecodeAlterShareGroupOffsetsResponse rb) in
  check_code code.

Definition DeleteShareGroupOffsets (group : bytes) (topics : list bytes) : A unit :=
  do! adm_open in
  if len topics =? 0 then mret tt else
  let! v := adm_version APIDeleteShareGroupOffsets VerDeleteShareGroupOffsets in
  let! rb := requestAny APIDeleteShareGroupOffsets (version_or v VerDeleteShareGroupOffsets)
    (EncodeDeleteShareGroupOffsetsRequest group topics) in
  let! code := mlift (DecodeDeleteShareGroupOffsetsResponse rb) in
  check_code code.

(** * Configurations *)

(** The node of the last broker resource before the loop breaks: the first
    whose name is a positive number. *)
Fixpoint config_node (resources : list ConfigResource) (controller : Z) : Z :=
  match resources with
  | [] => controller
  | r :: rest =>
      if rs_Type r =? ConfigResourceBroker then
        match Sscanf_d (rs_Name r) with
        | Some id => if id >? 0 then id else config_node rest controller
        | None => config_node rest controller
        end
      else config_node rest controller
  end.

Definition describeConfigs (resources : list ConfigResource) : A (gmap bytes (list ConfigEntry)) :=
  do! adm_open in
  let! v := adm_version APIDescribeConfigs VerDescribeConfigs in
  let ver := positive_or v 1 in
  let! body := mlift (EncodeDescribeConfigsRequest ver resources) in
  do! env_Refresh [] in
  let! w := mget in
  let! rb := env_Request (config_node resources (md_Controller (cl_meta (env_cluster w)))) APIDescribeConfigs ver body in
  mlift (DecodeDescribeConfigsResponse ver rb).

Definition DescribeTopicConfigs (topics : list bytes) : A (gmap bytes (list ConfigEntry)) :=
  describeConfigs (map (mkConfigResource ConfigResourceTopic) topics).

(** The map is keyed by the number read from the name; 0 when it is none. *)
Definition DescribeBrokerConfigs (brokerIDs : list Z) : A (gmap Z (list ConfigEntry)) :=
  let! raw := describeConfigs (map (fun id => mkConfigResource ConfigResourceBroker (Sprintf_d id)) brokerIDs) in
  mret (fold_left (fun (m : gmap Z (list ConfigEntry)) ne => <[default 0 (Sscanf_d (fst ne)) := snd ne]> m) (range raw) ∅).

Definition DescribeGroupConfigs (group : bytes) : A (gmap bytes bytes) :=
  let! raw := describeConfigs [mkConfigResource ConfigResourceGroup group] in
  mret (fold_left (fun (m : gmap bytes bytes) e => <[ce_Name e := ce_Value e]> m) (default [] (raw !! group)) ∅).

Definition AlterGroupConfigs (group : bytes) (configs : gmap bytes (option bytes)) : A unit :=
  do! adm_open in
  if bool_decide (group = []) then merr (FmtError "gokafka: group is required" 0) else
  let! v := adm_version APIIncrementalAlterConfigs VerIncrementalAlterConfigs in
  let ver := version_or v VerIncrementalAlterConfigs in
  let alts := map (fun nv => mkConfigAlteration (fst nv) (snd nv)) (range configs) in
  let! resp := requestAny APIIncrementalAlterConfigs ver
    (EncodeIncrementalAlterConfigsRequest ver ConfigResourceGroup {[ group := alts ]}) in
  let! code := mlift (DecodeIncrementalAlterConfigsResponse ver resp) in
  check_code code.

Definition AlterTopicConfigs (alters : gmap bytes (list ConfigAlteration)) : A unit :=
  if bool_decide (alters = ∅) then mret tt else
  let! v := adm_version APIAlterConfigs VerAlterConfigs in
  let ver := version_or v VerAlterConfigs in
  let! resp := requestAny APIAlterConfigs ver (EncodeAlterConfigsRequest ver alters) in
  let! code := mlift (DecodeAlterConfigsResponse ver resp) in
  check_code code.

Definition IncrementalAlterTopicConfigs (alters : gmap bytes (list ConfigAlteration)) : A unit :=
  if bool_decide (alters = ∅) then mret tt else
  let! v := adm_version APIIncrementalAlterConfigs VerIncrementalAlterConfigs in
  let ver := version_or v VerIncrementalAlterConfigs in
  let! resp := requestAny APIIncrementalAlterConfigs ver
    (EncodeIncrementalAlterConfigsRequest ver ConfigResourceTopic alters) in
  let! code := mlift (DecodeIncrementalAlterConfigsResponse ver resp) in
  check_code code.

(** * Committed offsets and lag *)

Definition DeleteConsumerGroupOffsets (groupID : bytes) (offsets : gmap bytes (list Z)) : A unit :=
  if bool_decide (groupID = []) then merr ErrNoConsumerGroup else
  let! v := adm_version APIOffsetDelete VerOffsetDelete in
  let ver := version_or v VerOffsetDelete in
  let! resp := requestAny APIOffsetDelete ver (EncodeOffsetDeleteRequest ver groupID offsets) in
  let! code := mlift (DecodeOffsetDeleteResponse ver resp) in
  check_code code.

(** The groups of each coordinator. *)
Fixpoint group_coordinators (groups : list bytes) (byCoord : gmap Z (list bytes)) : A (gmap Z (list bytes)) :=
  match groups with
  | [] => mret byCoord
  | g :: rest =>
      if bool_decide (g = []) then merr ErrNoConsumerGroup else
      let! coord := FindCoordinator g CoordinatorGroup in
      group_coordinators rest (push byCoord coord g)
  end.

Fixpoint fetch_offsets_loop (coords : list (Z * list bytes)) (out : gmap bytes (list CommittedOffset))
    : A (gmap bytes (list CommittedOffset)) :=
  match coords with
  | [] => mret out
  | (coord, gs) :: rest =>
      let req := fold_left (fun (m : gmap bytes (list OffsetFetchPartition)) g => <[g := []]> m) gs ∅ in
      let! resp := adm_request coord APIOffsetFetch VerOffsetFetchMultiGroup (EncodeOffsetFetchMultiGroupRequest req) in
      let! decoded := mlift (DecodeOffsetFetchMultiGroupResponse resp) in
      fetch_offsets_loop rest (decoded ∪ out)
  end.

Definition FetchOffsets (groups : list bytes) : A (gmap bytes (list CommittedOffset)) :=
  if len groups =? 0 then mret ∅ else
  let! neg := adm_version APIOffsetFetch VerOffsetFetch in
  if neg <? VerOffsetFetchMultiGroup then merr (FmtError "gokafka: batched OffsetFetch requires broker OffsetFetch v8+" neg) else
  let! byCoord := group_coordinators groups ∅ in
  fetch_offsets_loop (range byCoord) ∅.

(** The closure of [listLatestOffsets] keeps [ends] across attempts. *)
Definition lag_state : Type := W * gmap partKey Z.
Local Notation L := (M lag_state).

Definition on_world {B} (m : M W B) : L B := fun s => let '(w, r) := m (fst s) in ((w, snd s), r).

Fixpoint plan_latest (cl : Cluster) (ends : gmap partKey Z) (parts : list CommittedOffset)
    (byLeader : gmap Z (list ListOffsetsPartition)) (topics : gset bytes)
    : res (gmap Z (list ListOffsetsPartition) * gset bytes) :=
  match parts with
  | [] => Ok (byLeader, topics)
  | co :: rest =>
      match ends !! (co_Topic co, co_Partition co) with
      | Some _ => plan_latest cl ends rest byLeader topics
      | None =>
          match LeaderBroker cl (co_Topic co) (co_Partition co) with
          | None => Err (KafkaError 6 (co_Topic co) (co_Partition co))
          | Some b =>
              plan_latest cl ends rest
                (push byLeader (bm_NodeID b) (mkListOffsetsPartition (co_Topic co) (co_Partition co) (-1)))
                ({[co_Topic co]} ∪ topics)
          end
      end
  end.

(** Ranging over the set [topics]. *)
Definition range_set (topics : gset bytes) : list bytes := map fst (range (gset_to_gmap tt topics)).

Definition record_end (topics : gset bytes) (o : PartitionOffset) : L unit :=
  if negb (po_ErrorCode o =? 0) then
    let ke := KafkaError (po_ErrorCode o) (po_Topic o) (po_Partition o) in
    do! mwhen (IsRetriable ke) (mignore (on_world (env_Refresh (range_set topics)))) in
    merr ke
  else mmod (fun s => (fst s, <[(po_Topic o, po_Partition o) := po_Offset o]> (snd s))).

Definition latest_of_node (topics : gset bytes) (np : Z * list ListOffsetsPartition) : L unit :=
  let! rb := on_world (adm_request (fst np) APIListOffsets VerListOffsets (EncodeListOffsetsRequest (snd np) 0)) in
  let! offs := mlift (DecodeListOffsetsResponse rb) in
  mfor (record_end topics) offs.

Definition latest_attempt (parts : list CommittedOffset) : L unit :=
  let! s := mget in
  let! p := mlift (plan_latest (env_cluster (fst s)) (snd s) parts ∅ ∅) in
  mfor (latest_of_node (snd p)) (range (fst p)).

Definition listLatestOffsets (parts : list CommittedOffset) : A (gmap partKey Z) := fun w =>
  let '((w, ends), r) :=
    retryRetriable (fun s : lag_state => env_ctx (fst s))
      (fun d s => let '(w, e) := env_sleep d (fst s) in ((w, snd s), e))
      (coordinatorRetry retry_cfg) (latest_attempt parts) (w, ∅) in
  (w, match r with Ok _ => Ok ends | Err e => Err e | Panic => Panic end).

Definition ConsumerGroupLag (group : bytes) : A (list PartitionLag) :=
  if bool_decide (group = []) then merr ErrNoConsumerGroup else
  let! byGroup := FetchOffsets [group] in
  let committed := default [] (byGroup !! group) in
  if len committed =? 0 then mret [] else
  let! ends := listLatestOffsets committed in
  mret (map (lag_of ends) committed).

Definition ShareGroupLag (group : bytes) : A (list PartitionLag) :=
  if bool_decide (group = []) then merr ErrNoShareGroup else
  let! offsets := DescribeShareGroupOffsets group in
  if len offsets =? 0 then mret [] else
  let parts := map (fun o => mkCommittedOffset (so_Topic o) (so_Partition o) (so_StartOffset o) [] 0) offsets in
  let! ends := listLatestOffsets parts in
  mret (map (lag_of ends) parts).
End admin.
