(* ===== verification/AdminFacts.v ===== *)
(** What the administrative client guarantees: lag is computed exactly, the
    request about a broker goes to that broker, and where the code does not do
    what it means to. *)

From Stdlib Require Import ZArith Lia.
From Stdlib Require Import Strings.Byte.
From stdpp Require Import base list gmap countable strings.
From S2P Require Import Prelude.
From S2P Require Import Wire.
From S2P Require Import Header.
From S2P Require Import Metadata.
From S2P Require Import Retry.
From S2P Require Import Producer.
From S2P Require Import OffsetCodec.
From S2P Require Import GroupCodec.
From S2P Require Import GoMonad.
From S2P Require Import Consumer.
From S2P Require Import ShareCodec.
From S2P Require Import AdminCodec.
From S2P Require Import DescribeCodec.
From S2P Require Import Admin.

Open Scope Z_scope.

(** * Numbers in names *)

Lemma b2z_digit d : 0 <= d < 10 -> b2z (digit d) = 48 + d.
Proof. intros Hd. unfold digit. rewrite b2z_z2b. apply Z.mod_small. lia. Qed.

Lemma is_digit_digit d : 0 <= d < 10 -> is_digit (digit d) = true.
Proof. intros Hd. unfold is_digit. rewrite b2z_digit by done. zbool. lia. Qed.

Lemma dec_value_acc ds : forall a, fold_left (fun acc b => acc * 10 + (b2z b - 48)) ds a = a * 10 ^ len ds + dec_value ds.
Proof.
  unfold dec_value. induction ds as [|d ds IH]; intros a; cbn [fold_left]; [rewrite len_nil; lia|].
  rewrite IH, (IH (0 * 10 + _)), len_cons, Z.pow_add_r by (pose proof (len_nonneg ds); lia). ring.
Qed.

Lemma dec_value_cons d ds : 0 <= d < 10 -> dec_value (digit d :: ds) = d * 10 ^ len ds + dec_value ds.
Proof. intros Hd. unfold dec_value at 1. cbn [fold_left]. rewrite dec_value_acc, b2z_digit by done. f_equal. f_equal. lia. Qed.

Lemma dec_digits_spec f : forall n acc, 0 <= n < 10 ^ Z.of_nat f -> (0 < f)%nat -> Forall (fun b => is_digit b = true) acc ->
  dec_value (dec_digits f n acc) = n * 10 ^ len acc + dec_value acc /\
  Forall (fun b => is_digit b = true) (dec_digits f n acc) /\ dec_digits f n acc <> [].
Proof.
  induction f as [|f IH]; intros n acc Hn Hf Hacc; [lia|]. cbn [dec_digits].
  destruct (Z.ltb_spec n 10) as [Hlt|Hge].
  - split; [apply dec_value_cons; lia|]. split; [|done]. constructor; [apply is_digit_digit; lia|done].
  - pose proof (Z.mod_pos_bound n 10 ltac:(lia)) as Hm. pose proof (Z.div_mod n 10 ltac:(lia)) as Hdm.
    rewrite Nat2Z.inj_succ, Z.pow_succ_r in Hn by lia.
    assert (0 < f)%nat as Hf' by (destruct f; [cbn in Hn; lia|lia]).
    destruct (IH (n / 10) (digit (n mod 10) :: acc)) as (Hv & Hd & Hne); [|done| |].
    + split; [apply Z.div_pos; lia|]. apply Z.div_lt_upper_bound; lia.
    + constructor; [by apply is_digit_digit|done].
    + split; [|done]. rewrite Hv, dec_value_cons, len_cons, Z.pow_add_r by (pose proof (len_nonneg acc); lia). nia.
Qed.

Lemma take_while_all p s : Forall (fun b => p b = true) s -> take_while p s = s.
Proof. induction 1 as [|b s Hb _ IH]; cbn [take_while]; [done|]. by rewrite Hb, IH. Qed.

Lemma digit_no_space b : is_digit b = true -> is_space b = false /\ b2z b =? 45 = false /\ b2z b =? 43 = false.
Proof.
  unfold is_digit, is_space. intros Hb. zbool. rewrite bool_decide_eq_false, !elem_of_cons, elem_of_nil.
  split_and!; lia.
Qed.

Lemma scan_digits_dec f n neg : 0 <= n < 10 ^ Z.of_nat f -> (0 < f)%nat -> int32 (if neg : bool then - n else n) ->
  scan_digits neg (dec_digits f n []) = Some (if neg then - n else n).
Proof.
  intros Hn Hf Hi. destruct (dec_digits_spec f n [] Hn Hf ltac:(constructor)) as (Hv & Hd & Hne).
  unfold scan_digits. rewrite take_while_all by done. rewrite len_nil in Hv. change (dec_value []) with 0 in Hv.
  destruct (dec_digits f n []) as [|d ds] eqn:E; [done|]. rewrite Hv, Z.pow_0_r, Z.mul_1_r, Z.add_0_r.
  by rewrite bool_decide_true.
Qed.

(** The name of a broker resource reads back as the broker's id. *)
Lemma broker_name_roundtrip id : int32 id -> Sscanf_d (Sprintf_d id) = Some id.
Proof.
  intros Hi. assert (- 2 ^ 31 <= id < 2 ^ 31) as Hr by exact Hi. unfold Sprintf_d. destruct (Z.ltb_spec id 0) as [Hneg|Hpos].
  - pose proof (scan_digits_dec 10 (- id) true ltac:(lia) ltac:(lia)) as Hs. cbn iota in Hs.
    replace (- - id) with id in Hs by lia. rewrite <- (Hs Hi). reflexivity.
  - destruct (dec_digits_spec 10 id [] ltac:(lia) ltac:(lia) ltac:(constructor)) as (_ & Hd & Hne).
    rewrite <- (scan_digits_dec 10 id false ltac:(lia) ltac:(lia) Hi). unfold Sscanf_d.
    destruct (dec_digits 10 id []) as [|d ds] eqn:E; [done|]. apply Forall_cons in Hd as [Hd _].
    destruct (digit_no_space d Hd) as (Hsp & H45 & H43). cbn [skip_while]. by rewrite Hsp, H45, H43.
Qed.

(** The configurations of a broker are asked of that broker.  For every
    broker id above 0, [DescribeBrokerConfigs] sends its request to that broker
    and not to the controller, and files the answer's entries under that id.
    For id 0, which is a broker id like any other, the request goes to the
    controller. *)
Theorem broker_configs_node id rest controller :
  int32 id -> 0 <= id ->
  config_node (map (fun i => mkConfigResource ConfigResourceBroker (Sprintf_d i)) (id :: rest)) controller =
    (if id =? 0 then config_node (map (fun i => mkConfigResource ConfigResourceBroker (Sprintf_d i)) rest) controller else id) /\
  default 0 (Sscanf_d (Sprintf_d id)) = id.
Proof.
  intros Hi Hpos. rewrite broker_name_roundtrip by done. split; [|done]. cbn [map config_node rs_Type rs_Name].
  rewrite broker_name_roundtrip by done. change (ConfigResourceBroker =? ConfigResourceBroker) with true. cbv iota.
  destruct (Z.gtb_spec id 0), (Z.eqb_spec id 0); done || lia.
Qed.

Lemma broker_configs_node_witness :
  config_node [mkConfigResource ConfigResourceBroker (str "2147483647")] 1 = 2147483647 /\
  config_node [mkConfigResource ConfigResourceBroker (str "0")] 1 = 1.
Proof.
  split.
  - apply (broker_configs_node 2147483647 [] 1); unfold int32; lia.
  - apply (broker_configs_node 0 [] 1); unfold int32; lia.
Defined.

(** * Lag *)

Section lag.
Context {W : Type} `{ClusterEnv W} `{MapOrder}.
Context (retry_cfg : RetryConfig).

Definition lag_key (pl : PartitionLag) : bytes * Z * Z := (pl_Topic pl, pl_Partition pl, pl_Committed pl).
Definition commit_key (co : CommittedOffset) : bytes * Z * Z := (co_Topic co, co_Partition co, co_Offset co).

(** Lag is the distance to the log's end, without wrap-around. *)
Definition exact_lag (pl : PartitionLag) : Prop :=
  int64 (pl_Committed pl) -> int64 (pl_LogEndOffset pl) ->
  pl_Lag pl = if pl_Committed pl <? 0 then 0 else Z.max 0 (pl_LogEndOffset pl - pl_Committed pl).

Lemma lag_of_exact ends co : exact_lag (lag_of ends co).
Proof.
  unfold exact_lag, lag_of, int64. cbn [pl_Committed pl_LogEndOffset pl_Lag]. intros Hc He.
  set (e := default 0 (ends !! (co_Topic co, co_Partition co))) in *.
  destruct (Z.geb_spec (co_Offset co) 0), (Z.gtb_spec e (co_Offset co)), (Z.ltb_spec (co_Offset co) 0); cbn [andb];
    try lia. rewrite s64_id by (unfold int64; lia). lia.
Qed.

(** Consumer lag.  When the lag query succeeds, its result has one entry
    for every offset the group has committed, in the order of the coordinator's
    answer and with that offset; the lag of an entry is the distance from the
    committed offset to the log's end it reports, 0 when there is no commit or
    the commit is at the end or past it, and never overflows. *)
Theorem consumer_group_lag_exact group (w w' : W) out :
  ConsumerGroupLag retry_cfg group w = (w', Ok out) ->
  exists w1 byGroup, FetchOffsets [group] w = (w1, Ok byGroup) /\
    map lag_key out = map commit_key (default [] (byGroup !! group)) /\ Forall exact_lag out.
Proof.
  unfold ConsumerGroupLag. case_bool_decide; [done|]. intros Hl.
  apply mthen_inv in Hl as (w1 & byGroup & Hf & Hl). exists w1, byGroup. split; [exact Hf|].
  set (committed := default [] (byGroup !! group)) in *. destruct (Z.eqb_spec (len committed) 0) as [Hz|].
  - minv Hl. by rewrite (len_zero _ Hz).
  - apply mthen_inv in Hl as (w2 & ends & _ & Hl). minv Hl. split.
    + rewrite map_map. by apply map_ext.
    + apply Forall_fmap, Forall_forall. intros co _. apply lag_of_exact.
Qed.

(** ** A partition without a leader *)

(** A partition without a leader makes every attempt fail before a request. *)
Lemma plan_latest_no_leader cl ends parts co :
  co ∈ parts -> ends !! (co_Topic co, co_Partition co) = None -> LeaderBroker cl (co_Topic co) (co_Partition co) = None ->
  forall byLeader topics, exists t p, plan_latest cl ends parts byLeader topics = Err (KafkaError 6 t p).
Proof.
  induction parts as [|c parts IH]; intros Hin He Hl byLeader topics; [by apply elem_of_nil in Hin|]. cbn [plan_latest].
  apply elem_of_cons in Hin as [<-|Hin].
  - rewrite He, Hl. eauto.
  - destruct (ends !! (co_Topic c, co_Partition c)); [by apply IH|].
    destruct (LeaderBroker cl (co_Topic c) (co_Partition c)); [by apply IH|eauto].
Qed.

Lemma attempts_positive n : (0 < attempts n)%nat.
Proof. unfold attempts. destruct (Z.ltb_spec n 1); lia. Qed.

(** A missing leader is not looked up again.  [listLatestOffsets] says that
    it refreshes metadata and retries while leaders are unavailable, but the
    attempt that finds no leader in the cache returns without a refresh.  In a
    cluster whose cache changes only when it is refreshed, a lag query with a
    partition whose leader is not in the cache fails, however often it is
    retried and whatever a refresh would find, and the cache is as before. *)
Theorem missing_leader_not_refreshed parts co (w w' : W) r :
  (forall d w, env_cluster (fst (env_sleep d w)) = env_cluster w) ->
  co ∈ parts -> LeaderBroker (env_cluster w) (co_Topic co) (co_Partition co) = None ->
  listLatestOffsets retry_cfg parts w = (w', r) ->
  (forall ends, r <> Ok ends) /\ env_cluster w' = env_cluster w.
Proof.
  intros Hsl Hin Hl. unfold listLatestOffsets, retryRetriable.
  set (I := fun s : W * gmap partKey Z => env_cluster (fst s) = env_cluster w /\ snd s = ∅).
  assert (forall s, I s -> exists t p, latest_attempt parts s = (s, Err (KafkaError 6 t p))) as Hfail.
  { intros [w1 ends] [Hc He]. cbn in Hc, He. subst ends.
    destruct (plan_latest_no_leader (env_cluster w1) ∅ parts co Hin (lookup_empty _) ltac:(by rewrite Hc) ∅ ∅) as (t & p & Hp).
    exists t, p. unfold latest_attempt, mthen, mget, mlift. cbn [fst snd]. by rewrite Hp. }
  assert (forall s, I s -> I (fst (latest_attempt parts s))) as Hfn
    by (intros s Hs; destruct (Hfail s Hs) as (t & p & ->); done).
  set (sleep := fun d (s : W * gmap partKey Z) => let '(w, e) := env_sleep d (fst s) in ((w, snd s), e)).
  assert (forall d s, I s -> I (fst (sleep d s))) as Hsleep.
  { intros d [w1 ends] [Hc He]. unfold sleep. cbn [fst snd] in *. pose proof (Hsl d w1) as Hw.
    destruct (env_sleep d w1) as [w2 e]. cbn [fst] in Hw. split; cbn [fst snd]; [congruence|done]. }
  match goal with |- context [retry_loop ?a ?b ?c ?d ?f ?n ?x ?s] =>
    destruct (retry_loop a b c d f n x s) as [[w2 ends] o] eqn:Hrun end. intros [= <- <-].
  assert (I (w2, ends)) as HI by (eapply retry_loop_inv; [exact Hfn|exact Hsleep| |exact Hrun]; done).
  split; [|apply HI]. intros ends' Ho. destruct o as [[]| |]; [|done|done].
  apply (retry_loop_success _ _ _ _ _ I _ Hfn Hsleep) in Hrun as (s0 & Hs0 & Hf); [|apply attempts_positive|done].
  destruct (Hfail s0 Hs0) as (t & p & Hf'). congruence.
Qed.
End lag.
