(* ===== verification/ShareConsumer.v ===== *)
(** The share-group consumer: [share_consumer.go].

    A method is an [M (ShareConsumer W) A], as for the group consumer.
    [s_coord] is [coordID] when [hasCoord] is set, [s_heartbeat] says that the
    heartbeat goroutine runs ([hbCancel]); one tick of it is [heartbeat_tick].
    A [Record] is a [crecord] with its delivery count.  [Poll] takes the
    deadline of its context; its loop over fetch rounds has no bound in the
    code, so the model follows [fuel] rounds and then returns [Diverged], and
    likewise for the heartbeats that rejoin. *)

From Stdlib Require Import ZArith Lia.
From Stdlib Require Import Strings.Byte.
From stdpp Require Import base list gmap countable strings sorting.
From S2P Require Import Prelude.
From S2P Require Import Wire.
From S2P Require Import Header.
From S2P Require Import Compress.
From S2P Require Import RecordBatch.
From S2P Require Import Assign.
From S2P Require Import Metadata.
From S2P Require Import Retry.
From S2P Require Import Producer.
From S2P Require Import OffsetCodec.
From S2P Require Import GroupCodec.
From S2P Require Import GoMonad.
From S2P Require Import Consumer.
From S2P Require Import ShareCodec.
From S2P Require Import Admin.

Open Scope Z_scope.

(** * Data *)

Record srecord := mkSRecord { sr_rec : crecord; sr_DeliveryCount : Z }.

Definition sr_Topic (r : srecord) : bytes := cr_Topic (sr_rec r).
Definition sr_Partition (r : srecord) : Z := cr_Partition (sr_rec r).
Definition sr_Offset (r : srecord) : Z := cr_Offset (sr_rec r).

Inductive ShareAckMode := ShareAckExplicit | ShareAckImplicit.

#[export] Instance share_ack_mode_eq_dec : EqDecision ShareAckMode.
Proof. solve_decision. Defined.

(** The configuration the consumer reads. *)
Record ShareConfig := mkShareConfig {
  sc_ShareGroup : bytes;
  sc_MaxPollRecords : Z;
  sc_ShareAckMode : ShareAckMode;
  sc_ShareAutoOffsetReset : bytes;
  sc_ConsumeFromBeginning : bool;
  sc_ReadCommitted : bool }.

Record shareAssignment := mkShareAssignment {
  sa_topic : bytes;
  sa_partition : Z;
  sa_topicID : bytes;
  sa_leader : Z }.

Record ShareConsumer (W : Type) := mkShareConsumer {
  s_world : W;
  s_group : bytes;
  s_memberID : bytes;
  s_memberEpoch : Z;
  s_coord : option Z;
  s_assignments : list shareAssignment;
  s_session : gmap Z Z;
  s_heartbeat : bool;
  s_hbInterval : Z;
  s_pendingAccept : list srecord }.
Arguments mkShareConsumer {W}.
Arguments s_world {W}.
Arguments s_group {W}.
Arguments s_memberID {W}.
Arguments s_memberEpoch {W}.
Arguments s_coord {W}.
Arguments s_assignments {W}.
Arguments s_session {W}.
Arguments s_heartbeat {W}.
Arguments s_hbInterval {W}.
Arguments s_pendingAccept {W}.

Definition shareFetchMaxWaitMs : Z := 500.
Definition shareFetchSlack : Z := 250 * Millisecond.

Definition errShareUnsupported : error := FmtError "gokafka: broker does not support KIP-932 share groups" 0.

Definition shouldRejoinShare (e : error) : bool :=
  let code := protocolErrorCode e in (code =? 25) || (code =? 110) || (code =? 112).

(** * Acknowledgement batches *)

Fixpoint coalesce_loop (first last : Z) (offsets : list Z) (ackType : ShareAckType) : list ShareAckBatch :=
  match offsets with
  | [] => [mkAckBatch first last ackType]
  | o :: rest =>
      if (o =? last) || (o =? s64 (last + 1)) then coalesce_loop first o rest ackType
      else mkAckBatch first last ackType :: coalesce_loop o o rest ackType
  end.

Definition coalesceAckBatches (offsets : list Z) (ackType : ShareAckType) : list ShareAckBatch :=
  match merge_sort Z.le offsets with
  | [] => []
  | o :: rest => coalesce_loop o o rest ackType
  end.

(** The records of an acknowledgement by leader and partition: [partAcks] is
    the topic's id and the offsets. *)
Definition partAcks : Type := bytes * list Z.
Definition grouped_acks : Type := gmap Z (gmap partKey partAcks).

Definition add_ack (m : grouped_acks) (node : Z) (r : srecord) (id : bytes) : grouped_acks :=
  let parts := default ∅ (m !! node) in
  let k := (sr_Topic r, sr_Partition r) in
  let pa := default (id, []) (parts !! k) in
  <[node := <[k := (fst pa, snd pa ++ [sr_Offset r])]> parts]> m.

Fixpoint group_acks (cl : Cluster) (records : list srecord) (m : grouped_acks) : res grouped_acks :=
  match records with
  | [] => Ok m
  | r :: rest =>
      match TopicIDByName cl (sr_Topic r) with
      | None => Err (FmtError "gokafka: unknown topic" 0)
      | Some id =>
          match LeaderBroker cl (sr_Topic r) (sr_Partition r) with
          | None => Err (FmtError "broker: leader not found" (sr_Partition r))
          | Some leader => group_acks cl rest (add_ack m (bm_NodeID leader) r id)
          end
      end
  end.

Definition ack_partition (ackType : ShareAckType) (kp : partKey * partAcks) : ShareFetchPartition :=
  mkShareFetchPartition (fst (snd kp)) (snd (fst kp)) (coalesceAckBatches (snd (snd kp)) ackType).

(** The partitions to acknowledge at each broker. *)
Definition ack_plan `{MapOrder} (grouped : grouped_acks) (ackType : ShareAckType) : gmap Z (list ShareFetchPartition) :=
  (fun parts => map (ack_partition ackType) (range parts)) <$> grouped.

(** * Delivery *)

(** [fetchShare]'s loop: control markers are not delivered. *)
Definition share_records (fetched : list FetchedRecord) : list srecord :=
  map (fun fr => mkSRecord (to_record fr) (fr_DeliveryCount fr)) (filter (fun fr => fr_Control fr = false) fetched).

Definition record_key (r : srecord) : bytes * Z * Z := (sr_Topic r, sr_Partition r, sr_Offset r).

Definition remove_pending (records pending : list srecord) : list srecord :=
  filter (fun p => record_key p ∉ (list_to_set (map record_key records) : gset (bytes * Z * Z))) pending.

(** The assignment with its leaders, in the order of the response. *)
Fixpoint resolve_partitions (cl : Cluster) (name tid : bytes) (parts : list Z) : res (list shareAssignment) :=
  match parts with
  | [] => Ok []
  | p :: rest =>
      match LeaderBroker cl name p with
      | None => Err (FmtError "broker: leader not found" p)
      | Some b => let? l := resolve_partitions cl name tid rest in Ok (mkShareAssignment name p tid (bm_NodeID b) :: l)
      end
  end.

Fixpoint resolve_assignment (cl : Cluster) (assign : list TopicIDPartitions) : res (list shareAssignment) :=
  match assign with
  | [] => Ok []
  | tp :: rest =>
      match TopicNameByID cl (tip_TopicID tp) with
      | None => Err (FmtError "gokafka: unknown topic id in share assignment" 0)
      | Some name =>
          let? a := resolve_partitions cl name (tip_TopicID tp) (tip_Partitions tp) in
          let? l := resolve_assignment cl rest in
          Ok (a ++ l)
      end
  end.

Definition by_leader (l : list shareAssignment) : gmap Z (list shareAssignment) :=
  fold_left (fun m a => push m (sa_leader a) a) l ∅.

(** * Operations *)

Section share.
Context `{Codecs} `{MapOrder} {W : Type} `{ClusterEnv W} `{ConsumerEnv W}.
Context (cfg : ShareConfig) (topics : list bytes) (rejoin_fuel : nat).

Local Notation share := (ShareConsumer W).
Local Notation C := (M share).

Definition set_world (w : W) (s : share) : share :=
  mkShareConsumer w (s_group s) (s_memberID s) (s_memberEpoch s) (s_coord s) (s_assignments s) (s_session s)
    (s_heartbeat s) (s_hbInterval s) (s_pendingAccept s).
Definition set_group (g : bytes) (s : share) : share :=
  mkShareConsumer (s_world s) g (s_memberID s) (s_memberEpoch s) (s_coord s) (s_assignments s) (s_session s)
    (s_heartbeat s) (s_hbInterval s) (s_pendingAccept s).
Definition set_member (m : bytes) (s : share) : share :=
  mkShareConsumer (s_world s) (s_group s) m (s_memberEpoch s) (s_coord s) (s_assignments s) (s_session s)
    (s_heartbeat s) (s_hbInterval s) (s_pendingAccept s).
Definition set_epoch (e : Z) (s : share) : share :=
  mkShareConsumer (s_world s) (s_group s) (s_memberID s) e (s_coord s) (s_assignments s) (s_session s)
    (s_heartbeat s) (s_hbInterval s) (s_pendingAccept s).
Definition set_coord (c : option Z) (s : share) : share :=
  mkShareConsumer (s_world s) (s_group s) (s_memberID s) (s_memberEpoch s) c (s_assignments s) (s_session s)
    (s_heartbeat s) (s_hbInterval s) (s_pendingAccept s).
Definition set_assignments (l : list shareAssignment) (s : share) : share :=
  mkShareConsumer (s_world s) (s_group s) (s_memberID s) (s_memberEpoch s) (s_coord s) l (s_session s)
    (s_heartbeat s) (s_hbInterval s) (s_pendingAccept s).
Definition set_session (m : gmap Z Z) (s : share) : share :=
  mkShareConsumer (s_world s) (s_group s) (s_memberID s) (s_memberEpoch s) (s_coord s) (s_assignments s) m
    (s_heartbeat s) (s_hbInterval s) (s_pendingAccept s).
Definition set_heartbeat (h : bool) (s : share) : share :=
  mkShareConsumer (s_world s) (s_group s) (s_memberID s) (s_memberEpoch s) (s_coord s) (s_assignments s) (s_session s)
    h (s_hbInterval s) (s_pendingAccept s).
Definition set_interval (i : Z) (s : share) : share :=
  mkShareConsumer (s_world s) (s_group s) (s_memberID s) (s_memberEpoch s) (s_coord s) (s_assignments s) (s_session s)
    (s_heartbeat s) i (s_pendingAccept s).
Definition set_pending (l : list srecord) (s : share) : share :=
  mkShareConsumer (s_world s) (s_group s) (s_memberID s) (s_memberEpoch s) (s_coord s) (s_assignments s) (s_session s)
    (s_heartbeat s) (s_hbInterval s) l.

(** ** The world *)

Definition in_world {A} (f : W -> W * res A) : C A := fun s =>
  let '(w, r) := f (s_world s) in (set_world w s, r).

Definition share_request (node api ver : Z) (body : Enc) : C bytes :=
  let! body := mlift body in in_world (env_Request node api ver body).

Definition share_version (api fallback : Z) : C Z :=
  mgets (fun s => negotiatedVersion (env_versions (s_world s)) api fallback).

Definition share_open : C unit :=
  let! s := mget in if env_open (s_world s) then mret tt else merr ErrClosed.

(** [select] on the context and a timer: the context's error when it is done. *)
Definition wait_for (d : Z) : C (option error) := fun s =>
  let '(w, e) := env_sleep d (s_world s) in (set_world w s, Ok e).

Definition share_cluster (s : share) : Cluster := env_cluster (s_world s).

(** ** Sessions and the coordinator *)

Definition session_epoch (broker : Z) (s : share) : Z := default 0 (s_session s !! broker).

Definition set_session_epoch (broker epoch : Z) : C unit := mmod (fun s => set_session (<[broker := epoch]> (s_session s)) s).

Definition resetShareSession (broker : Z) : C unit := set_session_epoch broker 0.

Definition invalidateShareCoordinator : C unit := mmod (set_coord None).

Definition shareCoordinator : C Z :=
  let! s := mget in
  match s_coord s with
  | Some id => mret id
  | None =>
      let! id := in_world (FindCoordinator (s_group s) CoordinatorGroup) in
      do! mmod (set_coord (Some id)) in
      mret id
  end.

(** ** Heartbeats *)

Definition sendShareHeartbeat (coord : Z) (req : ShareGroupHeartbeatRequest) : C ShareGroupHeartbeatResponse :=
  let! ver := share_version APIShareGroupHeartbeat VerShareGroupHeartbeat in
  let! rb := share_request coord APIShareGroupHeartbeat ver (EncodeShareGroupHeartbeatRequest req) in
  mlift (DecodeShareGroupHeartbeatResponse rb).

Definition applyShareAssignment (assign : list TopicIDPartitions) : C unit :=
  let! s := mget in
  let! newAssign := mlift (resolve_assignment (share_cluster s) assign) in
  mmod (fun s => set_session (fold_left (fun (m : gmap Z Z) a => <[sa_leader a := 0]> m) newAssign (s_session s))
                   (set_assignments newAssign s)).

(** The group configurations to set: a Go map with at most two entries. *)
Definition share_group_configs : gmap bytes (option bytes) :=
  let reset := if bool_decide (sc_ShareAutoOffsetReset cfg = []) && sc_ConsumeFromBeginning cfg
               then str "earliest" else sc_ShareAutoOffsetReset cfg in
  let m : gmap bytes (option bytes) :=
    if bool_decide (reset = []) then ∅ else {[ str "share.auto.offset.reset" := Some reset ]} in
  if sc_ReadCommitted cfg then <[str "share.isolation.level" := Some (str "read_committed")]> m else m.

Definition applyShareGroupConfigs : C unit :=
  if bool_decide (share_group_configs = ∅) then mret tt else
  let! s := mget in in_world (AlterGroupConfigs (s_group s) share_group_configs).

(** A heartbeat of the join loop: [topics] are sent while the epoch is 0. *)
Definition join_share_request (s : share) (memberID : bytes) : ShareGroupHeartbeatRequest :=
  let epoch := s_memberEpoch s in
  mkShareHeartbeatRequest (s_group s) memberID epoch None
    (if epoch >? 0 then None else match topics with [] => None | _ => Some topics end).

Definition accept_heartbeat (memberID : bytes) (coord : Z) (resp : ShareGroupHeartbeatResponse) : C unit :=
  mmod (fun s =>
    let s := set_member (if bool_decide (shr_MemberID resp = []) then memberID else shr_MemberID resp) s in
    let s := set_coord (Some coord) (set_epoch (shr_MemberEpoch resp) s) in
    if shr_HeartbeatIntervalMs resp >? 0 then set_interval (shr_HeartbeatIntervalMs resp * Millisecond) s else s).

(** [n] attempts remain. *)
Fixpoint join_share_loop (n : nat) (memberID : bytes) (coord : Z) : C unit :=
  match n with
  | O => merr (FmtError "gokafka: share group join: no partition assignment" 0)
  | S n' =>
      let! s := mget in
      let! r := mtry (sendShareHeartbeat coord (join_share_request s memberID)) in
      match r with
      | inr e =>
          if shouldRejoinShare e then
            do! mmod (set_epoch 0) in
            do! invalidateShareCoordinator in
            let! coord := shareCoordinator in
            join_share_loop n' memberID coord
          else if CoordinatorRetriable (protocolErrorCode e) then
            do! invalidateShareCoordinator in
            let! coord := shareCoordinator in
            join_share_loop n' memberID coord
          else merr e
      | inl resp =>
          do! accept_heartbeat memberID coord resp in
          if len (shr_Assignment resp) >? 0 then applyShareAssignment (shr_Assignment resp) else
          let! e := wait_for (500 * Millisecond) in
          match e with
          | Some e => merr e
          | None => join_share_loop n' memberID coord
          end
      end
  end.

Definition ensureShareHeartbeat : C unit := mmod (set_heartbeat true).

(** [joinShareGroup] up to its last heartbeat. *)
Definition join_share : C unit :=
  do! in_world (env_Refresh topics) in
  do! applyShareGroupConfigs in
  let! coord := shareCoordinator in
  let! s := mget in
  do! mwhen (bool_decide (s_memberID s = []))
    (let! id := in_world (fun w => let '(w, id) := env_newMemberUUID w in (w, Ok id)) in mmod (set_member id)) in
  let! memberID := mgets s_memberID in
  do! join_share_loop 60 memberID coord in
  ensureShareHeartbeat.

Definition reset_share : C unit :=
  mmod (fun s => set_coord None (set_session ∅ (set_epoch 0 (set_assignments [] s)))).

(** [shareHeartbeat] may rejoin, and joining ends with a heartbeat. *)
Fixpoint shareHeartbeat (fuel : nat) : C unit :=
  let! s := mget in
  if bool_decide (s_memberID s = []) then mret tt else
  let! coord := shareCoordinator in
  let! r := mtry (sendShareHeartbeat coord (mkShareHeartbeatRequest (s_group s) (s_memberID s) (s_memberEpoch s) None None)) in
  match r with
  | inl _ => mret tt
  | inr e =>
      if shouldRejoinShare e then
        match fuel with
        | O => merr Diverged
        | S f => do! reset_share in do! join_share in shareHeartbeat f
        end
      else merr e
  end.

Definition joinShareGroup (fuel : nat) : C unit := do! join_share in shareHeartbeat fuel.

Definition rejoinShare (fuel : nat) : C unit := do! reset_share in joinShareGroup fuel.

(** One tick of [shareHeartbeatLoop]. *)
Definition heartbeat_tick : C unit :=
  let! s := mget in
  match env_ctx (s_world s) with
  | Some _ => mret tt
  | None =>
      let! r := mtry (shareHeartbeat rejoin_fuel) in
      match r with
      | inl _ => mret tt
      | inr e =>
          let! s := mget in
          match env_ctx (s_world s) with
          | Some _ => mret tt
          | None => mwhen (shouldRejoinShare e) (mignore (rejoinShare rejoin_fuel))
          end
      end
  end.

Definition stopShareHeartbeat : C unit := mmod (set_heartbeat false).

(** ** Fetching *)

Definition fetchShare (broker : Z) (group memberID : bytes) (parts : list shareAssignment) (maxRecords maxWaitMs : Z)
    : C (list srecord) :=
  let! epoch := mgets (session_epoch broker) in
  let! ver := share_version APIShareFetch VerShareFetch in
  let fetchParts := map (fun p => mkShareFetchPartition (sa_topicID p) (sa_partition p) []) parts in
  let! rb := share_request broker APIShareFetch ver (EncodeShareFetchRequest ver
    (mkShareFetchRequest group memberID epoch (s32 maxWaitMs) 1 (50 * 2 ^ 20) (s32 maxRecords) 1 0 false fetchParts)) in
  let! s := mget in
  let! resp := mlift (DecodeShareFetchResponse rb (TopicNameByID (share_cluster s))) in
  do! set_session_epoch broker (s32 (epoch + 1)) in
  mret (share_records (sr_Records resp)).

(** ** Acknowledging *)

Definition trackDelivered (recs : list srecord) : C unit :=
  mwhen (bool_decide (sc_ShareAckMode cfg = ShareAckImplicit)) (mmod (set_pending recs)).

Definition clearPending (records : list srecord) : C unit :=
  mwhen (bool_decide (sc_ShareAckMode cfg = ShareAckImplicit))
    (mmod (fun s => set_pending (remove_pending records (s_pendingAccept s)) s)).

Definition ack_broker (ver : Z) (group memberID : bytes) (bp : Z * list ShareFetchPartition) : C unit :=
  let! epoch := mgets (session_epoch (fst bp)) in
  let! rb := share_request (fst bp) APIShareAcknowledge ver
    (EncodeShareAcknowledgeRequest ver (mkShareAcknowledgeRequest group memberID epoch (snd bp))) in
  let! _ := mlift (DecodeShareAcknowledgeResponse ver rb) in
  set_session_epoch (fst bp) (s32 (epoch + 1)).

Definition acknowledge (ackType : ShareAckType) (records : list srecord) : C unit :=
  if len records =? 0 then mret tt else
  let! s := mget in
  let! grouped := mlift (group_acks (share_cluster s) records ∅) in
  let! ver := share_version APIShareAcknowledge VerShareAcknowledge in
  do! mfor (ack_broker ver (s_group s) (s_memberID s)) (range (ack_plan grouped ackType)) in
  if bool_decide (ackType = ShareAckRenew) then mret tt else clearPending records.

Definition Acknowledge (records : list srecord) : C unit := acknowledge ShareAckAccept records.
Definition Release (records : list srecord) : C unit := acknowledge ShareAckRelease records.
Definition Reject (records : list srecord) : C unit := acknowledge ShareAckReject records.

Definition Renew (records : list srecord) : C unit :=
  let! v := share_version APIShareAcknowledge VerShareAcknowledge in
  if v <? 2 then merr (FmtError "gokafka: share Renew requires ShareAcknowledge v2" v)
  else acknowledge ShareAckRenew records.

(** ** Polling *)

Definition requireShareSupport : C unit :=
  let! s := mget in
  if negb (AdvertisesAPI (env_versions (s_world s)) APIShareGroupHeartbeat) then merr errShareUnsupported else
  if negotiatedVersion (env_versions (s_world s)) APIShareGroupHeartbeat (-1) =? 0 then merr errShareUnsupported
  else mret tt.

Definition share_maxPoll : Z := if sc_MaxPollRecords cfg <=? 0 then 500 else sc_MaxPollRecords cfg.

(** What a round of fetches makes [Poll] do. *)
Inductive round_result :=
| RoundReturn (recs : list srecord)   (* return recs, nil: nothing more is tracked *)
| RoundFull (recs : list srecord)     (* return after trackDelivered *)
| RoundMore (out : list srecord).     (* all brokers were asked *)

(** The treatment of one broker's error: [None] is [continue], otherwise the
    second fetch or the error itself. *)
Definition fetch_or_retry (broker : Z) (group memberID : bytes) (parts : list shareAssignment) (maxRecords waitMs : Z)
    : C (option (list srecord + error)) :=
  let! r := mtry (fetchShare broker group memberID parts maxRecords waitMs) in
  match r with
  | inl recs => mret (Some (inl recs))
  | inr e =>
      let! s := mget in
      match env_ctx (s_world s) with
      | Some _ => mret (Some (inr e))
      | None =>
          match APIErrorCode e with
          | Some code =>
              if (code =? 5) || (code =? 6) then
                do! mignore (in_world (env_Refresh topics)) in mret None
              else if (code =? 122) || (code =? 123) then
                do! resetShareSession broker in
                let! r := mtry (fetchShare broker group memberID parts maxRecords waitMs) in
                mret (Some r)
              else mret (Some (inr e))
          | None => mret (Some (inr e))
          end
      end
  end.

Fixpoint fetch_brokers (brokers : list (Z * list shareAssignment)) (group memberID : bytes) (waitMs : Z)
    (out : list srecord) : C round_result :=
  match brokers with
  | [] => mret (RoundMore out)
  | (broker, parts) :: rest =>
      let! r := fetch_or_retry broker group memberID parts (share_maxPoll - len out) waitMs in
      match r with
      | None => fetch_brokers rest group memberID waitMs out
      | Some (inr e) =>
          let! s := mget in
          match env_ctx (s_world s) with
          | Some _ => mret (RoundReturn [])
          | None => merr e
          end
      | Some (inl recs) =>
          let out := out ++ recs in
          if len out >=? share_maxPoll then mret (RoundFull (take (Z.to_nat share_maxPoll) out))
          else fetch_brokers rest group memberID waitMs out
      end
  end.

(** The long-poll of a round, or [None] when the deadline is too close. *)
Definition round_wait (deadline : option Z) (now : Z) : option Z :=
  match deadline with
  | None => Some shareFetchMaxWaitMs
  | Some dl =>
      let remain := dl - now in
      if remain <=? shareFetchSlack then None
      else Some (Z.min ((remain - shareFetchSlack) / Millisecond) shareFetchMaxWaitMs)
  end.

Fixpoint poll_rounds (fuel : nat) (deadline : option Z) (byBroker : gmap Z (list shareAssignment)) (group memberID : bytes)
    : C (list srecord) :=
  match fuel with
  | O => merr Diverged
  | S f =>
      let! now := mgets (fun s => env_time (s_world s)) in
      match round_wait deadline now with
      | None => mret []
      | Some waitMs =>
          let! r := fetch_brokers (range byBroker) group memberID waitMs [] in
          match r with
          | RoundReturn recs => mret recs
          | RoundFull recs => do! trackDelivered recs in mret recs
          | RoundMore out =>
              if len out >? 0 then (do! trackDelivered out in mret out) else
              let! e := wait_for (50 * Millisecond) in
              match e with
              | Some _ => mret []
              | None => poll_rounds f deadline byBroker group memberID
              end
          end
      end
  end.

(** Implicit mode: accept what the previous [Poll] delivered. *)
Definition accept_previous : C unit :=
  if bool_decide (sc_ShareAckMode cfg = ShareAckImplicit) then
    let! prev := mgets s_pendingAccept in
    do! mmod (set_pending []) in
    mwhen (len prev >? 0) (acknowledge ShareAckAccept prev)
  else mret tt.

Definition join_share_if_needed : C unit :=
  do! share_open in
  if bool_decide (sc_ShareGroup cfg = []) then merr ErrNoShareGroup else
  do! requireShareSupport in
  do! mmod (set_group (sc_ShareGroup cfg)) in
  let! s := mget in
  mwhen (len (s_assignments s) =? 0) (joinShareGroup rejoin_fuel).

Definition Poll (fuel : nat) (deadline : option Z) : C (list srecord) :=
  do! join_share_if_needed in
  do! accept_previous in
  let! s := mget in
  poll_rounds fuel deadline (by_leader (s_assignments s)) (s_group s) (s_memberID s).

(** ** Leaving and running *)

Definition Leave : C unit :=
  do! stopShareHeartbeat in
  let! s := mget in
  if bool_decide (s_memberID s = []) then mret tt else
  do! (if bool_decide (sc_ShareAckMode cfg = ShareAckImplicit) then
         let! prev := mgets s_pendingAccept in
         do! mmod (set_pending []) in
         mwhen (len prev >? 0) (mignore (acknowledge ShareAckAccept prev))
       else mret tt) in
  let! coord := shareCoordinator in
  let! _ := sendShareHeartbeat coord (mkShareHeartbeatRequest (s_group s) (s_memberID s) (-1) None None) in
  mret tt.

(** One pass of [Run]'s loop: the handler runs on the records in order, and
    all of them are accepted when it has returned on each. *)
Fixpoint handle (h : srecord -> res unit) (recs : list srecord) : res unit :=
  match recs with
  | [] => Ok tt
  | r :: rest => let? _ := h r in handle h rest
  end.

Definition run_share_once (fuel : nat) (deadline : option Z) (h : srecord -> res unit) : C unit :=
  let! recs := Poll fuel deadline in
  if len recs =? 0 then mret tt else
  do! mlift (handle h recs) in
  Acknowledge recs.
End share.
