(* ===== verification/ShareFacts.v ===== *)
(** What the share consumer guarantees: acknowledgements name exactly the
    records they were asked for, in as few ranges as possible; a poll delivers
    no more than its limit and keeps for later acceptance what it delivered. *)

From Stdlib Require Import ZArith Lia.
From Stdlib Require Import Strings.Byte.
From stdpp Require Import base list gmap countable strings sorting.
From S2P Require Import Prelude.
From S2P Require Import Wire.
From S2P Require Import Header.
From S2P Require Import Compress.
From S2P Require Import RecordBatch.
From S2P Require Import RecordBatchFacts.
From S2P Require Import Metadata.
From S2P Require Import Retry.
From S2P Require Import Producer.
From S2P Require Import GoMonad.
From S2P Require Import OffsetCodec.
From S2P Require Import GroupCodec.
From S2P Require Import Consumer.
From S2P Require Import ShareCodec.
From S2P Require Import Admin.
From S2P Require Import ShareConsumer.

Open Scope Z_scope.

(** * Ranges of offsets *)

Definition covers (b : ShareAckBatch) (o : Z) : Prop := ab_FirstOffset b <= o <= ab_LastOffset b.
Definition covered (bs : list ShareAckBatch) (o : Z) : Prop := exists b, b ∈ bs /\ covers b o.

(** A hole of at least one offset lies between two ranges. *)
Definition before (b b' : ShareAckBatch) : Prop := ab_LastOffset b + 1 < ab_FirstOffset b'.

Lemma covered_cons b bs o : covered (b :: bs) o <-> covers b o \/ covered bs o.
Proof.
  unfold covered. split.
  - intros (b' & [->|Hb]%elem_of_cons & Hc); [by left|right; eauto].
  - intros [Hc|(b' & Hb & Hc)]; [exists b|exists b']; rewrite elem_of_cons; auto.
Qed.

Lemma covered_nil o : ~ covered [] o.
Proof. intros (b & Hb & _). by apply elem_of_nil in Hb. Qed.

(** What the loop returns for the sorted offsets that remain: the range it has
    open comes first. *)
Record coalesced (first last : Z) (rest : list Z) (t : ShareAckType) (bs : list ShareAckBatch) : Prop := {
  co_head : exists l bs', bs = mkAckBatch first l t :: bs' /\ last <= l;
  co_cover : forall o, covered bs o <-> first <= o <= last \/ o ∈ rest;
  co_shape : Forall (fun b => ab_FirstOffset b <= ab_LastOffset b /\ ab_Type b = t) bs;
  co_apart : StronglySorted before bs }.

Lemma coalesce_loop_spec t rest first last :
  first <= last -> StronglySorted Z.le (last :: rest) -> Forall int64 (last :: rest) ->
  coalesced first last rest t (coalesce_loop first last rest t).
Proof.
  revert first last. induction rest as [|o rest IH]; intros first last Hfl Hs Hi; cbn [coalesce_loop].
  - split.
    + eauto with lia.
    + intros o. rewrite covered_cons. unfold covers. cbn. rewrite elem_of_nil.
      split; [intros [?|[]%covered_nil]; tauto|tauto].
    + by repeat constructor.
    + repeat constructor.
  - apply StronglySorted_inv in Hs as [Hs Hle]. apply Forall_cons in Hle as [Hlo Hle].
    apply Forall_cons in Hi as [Hl Hi]. pose proof (Forall_inv Hi) as Ho.
    assert (o = s64 (last + 1) -> o = last + 1) as Hwrap.
    { unfold int64 in *. destruct (decide (last = 2 ^ 63 - 1)) as [->|].
      - change (s64 (2 ^ 63 - 1 + 1)) with (- 2 ^ 63). lia.
      - rewrite s64_id; unfold int64; lia. }
    destruct ((o =? last) || (o =? s64 (last + 1))) eqn:E.
    + assert (o = last \/ o = last + 1) as Hor
        by (apply orb_true_iff in E as [E%Z.eqb_eq|E%Z.eqb_eq]; auto).
      destruct (IH first o ltac:(lia) Hs Hi) as [(l & bs' & Hb & Hl') Hc Hsh Hap]. split; [|intros x|done|done].
      * exists l, bs'. split; [done|lia].
      * rewrite Hc, elem_of_cons.
        split; [intros [?|?]; [destruct (decide (x = o)); [auto|left; lia]|auto]|intros [?|[->|?]]; [left; lia|left; lia|auto]].
    + apply orb_false_iff in E as [E1%Z.eqb_neq E2%Z.eqb_neq].
      assert (last + 1 < o) as Hgap.
      { destruct (decide (o = last + 1)) as [Heq|]; [|lia]. exfalso. apply E2. rewrite s64_id; [done|]. unfold int64 in *. lia. }
      destruct (IH o o ltac:(lia) Hs Hi) as [(l & bs' & Hb & Hl') Hc Hsh Hap]. split; [|intros x| |].
      * eauto with lia.
      * rewrite covered_cons, Hc, elem_of_cons. unfold covers. cbn.
        split; [intros [?|[?|?]]; [auto|right; left; lia|auto]|intros [?|[->|?]]; [auto|right; left; lia|auto]].
      * by constructor.
      * constructor; [done|]. apply Forall_forall. intros b Hbin. unfold before. cbn.
        rewrite Hb in Hbin, Hap. apply elem_of_cons in Hbin as [->|Hbin]; [done|].
        apply StronglySorted_inv in Hap as [_ Hfa]. rewrite Forall_forall in Hfa. specialize (Hfa b Hbin).
        unfold before in Hfa. cbn in Hfa. lia.
Qed.

Lemma coalesce_covered offsets t : Forall int64 offsets ->
  (forall o, covered (coalesceAckBatches offsets t) o <-> o ∈ offsets) /\
  Forall (fun b => ab_FirstOffset b <= ab_LastOffset b /\ ab_Type b = t) (coalesceAckBatches offsets t) /\
  StronglySorted before (coalesceAckBatches offsets t).
Proof.
  intros Hi. unfold coalesceAckBatches.
  pose proof (merge_sort_Permutation Z.le offsets) as Hp.
  pose proof (StronglySorted_merge_sort Z.le offsets) as Hs.
  destruct (merge_sort Z.le offsets) as [|o rest].
  - apply Permutation_nil in Hp as ->. split_and!; [|constructor|constructor].
    intros o. split; [by intros []%covered_nil|by intros []%elem_of_nil].
  - assert (Forall int64 (o :: rest)) as Hi' by (by rewrite Hp).
    destruct (coalesce_loop_spec t rest o o ltac:(lia) Hs Hi') as [_ Hc Hsh Hap]. split_and!; [|done|done].
    intros x. rewrite Hc, <- Hp, elem_of_cons. split; [intros [?|?]; [left; lia|auto]|intros [->|?]; [left; lia|auto]].
Qed.

(** Two ranges of a result are the same or apart. *)
Lemma apart_or_same bs b b' : StronglySorted before bs -> b ∈ bs -> b' ∈ bs -> b = b' \/ before b b' \/ before b' b.
Proof.
  induction 1 as [|x bs Hs IH Hf]; intros Hb Hb'; [by apply elem_of_nil in Hb|].
  rewrite Forall_forall in Hf. apply elem_of_cons in Hb as [->|Hb], Hb' as [->|Hb']; auto.
Qed.

Lemma first_offsets_nodup bs :
  StronglySorted before bs -> Forall (fun b => ab_FirstOffset b <= ab_LastOffset b) bs -> NoDup (map ab_FirstOffset bs).
Proof.
  induction 1 as [|x bs Hs IH Hf]; intros Hn; [constructor|]. apply Forall_cons in Hn as [Hx Hn].
  cbn [map]. constructor; [|by apply IH]. intros (b & Heq & Hb)%list_elem_of_fmap.
  rewrite Forall_forall in Hf. specialize (Hf b Hb). unfold before in Hf. lia.
Qed.

(** Separated ranges are the fewest that cover their offsets. *)
Lemma separated_fewest bs bs' :
  StronglySorted before bs -> Forall (fun b => ab_FirstOffset b <= ab_LastOffset b) bs ->
  (forall o, covered bs' o <-> covered bs o) -> (length bs <= length bs')%nat.
Proof.
  intros Hs Hn Heq. rewrite <- (length_map ab_FirstOffset bs), <- (length_map ab_FirstOffset bs').
  apply NoDup_incl_length; [by apply NoDup_ListNoDup, first_offsets_nodup|].
  intros f (b & <- & Hb)%in_map_iff. apply list_elem_of_In in Hb. apply in_map_iff.
  rewrite Forall_forall in Hn. assert (ab_FirstOffset b <= ab_LastOffset b) as Hle by exact (Hn b Hb).
  assert (covered bs' (ab_FirstOffset b)) as (b' & Hb' & Hc).
  { apply Heq. exists b. split; [done|]. unfold covers. lia. }
  exists b'. split; [|by apply list_elem_of_In]. unfold covers in Hc.
  destruct (decide (ab_FirstOffset b' = ab_FirstOffset b)) as [|Hne]; [done|exfalso].
  assert (covered bs (ab_FirstOffset b - 1)) as (b2 & Hb2 & Hc2).
  { apply Heq. exists b'. split; [done|]. unfold covers. lia. }
  unfold covers in Hc2. destruct (apart_or_same bs b b2 Hs Hb Hb2) as [<-|[Hx|Hx]]; [lia| |]; unfold before in Hx; lia.
Qed.

(** C26: Acknowledgement batches.  For any offsets (64-bit, in any order, with
    repetitions), [coalesceAckBatches] returns ranges of the given type that
    cover exactly those offsets, in increasing order and never adjacent, and no
    other list of ranges that covers exactly those offsets is shorter. *)
Theorem coalesce_exact_fewest offsets t : Forall int64 offsets ->
  (forall o, covered (coalesceAckBatches offsets t) o <-> o ∈ offsets) /\
  Forall (fun b => ab_Type b = t) (coalesceAckBatches offsets t) /\
  StronglySorted before (coalesceAckBatches offsets t) /\
  (forall bs, (forall o, covered bs o <-> o ∈ offsets) -> (length (coalesceAckBatches offsets t) <= length bs)%nat).
Proof.
  intros Hi. destruct (coalesce_covered offsets t Hi) as (Hc & Hsh & Hap). split_and!; [done| |done|].
  - eapply Forall_impl; [exact Hsh|]. by intros b [_ ?].
  - intros bs Hbs. apply separated_fewest; [done| |].
    + eapply Forall_impl; [exact Hsh|]. by intros b [? _].
    + intros o. by rewrite Hbs, Hc.
Qed.

Lemma coalesce_exact_fewest_witness :
  coalesceAckBatches [7; 5; 6; 5; 10] ShareAckAccept = [mkAckBatch 5 7 ShareAckAccept; mkAckBatch 10 10 ShareAckAccept] /\
  (forall bs, (forall o, covered bs o <-> o ∈ [7; 5; 6; 5; 10]) -> (2 <= length bs)%nat).
Proof.
  split; [vm_compute; reflexivity|].
  apply (coalesce_exact_fewest [7; 5; 6; 5; 10] ShareAckAccept).
  repeat (apply Forall_cons; split; [unfold int64; lia|]). constructor.
Defined.

(** * Grouping *)

(** The offsets that are grouped under a broker and a partition. *)
Definition in_acks (m : grouped_acks) (node : Z) (k : partKey) (id : bytes) (o : Z) : Prop :=
  exists parts offs, m !! node = Some parts /\ parts !! k = Some (id, offs) /\ o ∈ offs.

(** Every group carries the id of its topic, and 64-bit offsets. *)
Definition wf_acks (cl : Cluster) (m : grouped_acks) : Prop :=
  forall node parts k id offs, m !! node = Some parts -> parts !! k = Some (id, offs) ->
    TopicIDByName cl (fst k) = Some id /\ Forall int64 offs.

Lemma add_ack_wf cl m node r id :
  TopicIDByName cl (sr_Topic r) = Some id -> int64 (sr_Offset r) -> wf_acks cl m -> wf_acks cl (add_ack m node r id).
Proof.
  intros Hid Hr Hwf n parts k i offs. unfold add_ack.
  set (k0 := (sr_Topic r, sr_Partition r)). intros [[<- <-]|[Hn Hm]]%lookup_insert_Some Hk; [|eauto].
  apply lookup_insert_Some in Hk as [[<- [= <- <-]]|[Hne Hk]].
  - rewrite Forall_app, Forall_singleton.
    destruct (m !! node) as [ps|] eqn:Em; cbn; [|by rewrite lookup_empty].
    destruct (ps !! k0) as [[i' os]|] eqn:Ek; cbn; [|done].
    destruct (Hwf _ _ _ _ _ Em Ek) as [? ?]. done.
  - destruct (m !! node) as [ps|] eqn:Em; cbn in Hk; [eauto|by rewrite lookup_empty in Hk].
Qed.

Lemma add_ack_in cl m node r id n k i o :
  TopicIDByName cl (sr_Topic r) = Some id -> wf_acks cl m ->
  in_acks (add_ack m node r id) n k i o <->
  in_acks m n k i o \/ (n = node /\ k = (sr_Topic r, sr_Partition r) /\ i = id /\ o = sr_Offset r).
Proof.
  intros Hid Hwf. unfold in_acks, add_ack. set (k0 := (sr_Topic r, sr_Partition r)).
  destruct (decide (n = node)) as [->|Hn].
  2:{ setoid_rewrite lookup_insert_ne; [|done]. naive_solver. }
  setoid_rewrite lookup_insert_eq. destruct (decide (k = k0)) as [->|Hk].
  - transitivity (o ∈ snd (default (id, []) (default ∅ (m !! node) !! k0)) ++ [sr_Offset r] /\ i = id).
    { assert (fst (default (id, []) (default ∅ (m !! node) !! k0)) = id) as Hfst.
      { destruct (m !! node) as [ps|] eqn:Em; cbn; [|done].
        destruct (ps !! k0) as [[i' os]|] eqn:Ek; cbn; [|done].
        destruct (Hwf _ _ _ _ _ Em Ek) as [Hi _]. cbn in Hi. congruence. }
      rewrite Hfst. split.
      - intros (parts & offs & [= <-] & Hp & Ho). rewrite lookup_insert_eq in Hp. by injection Hp as <- <-.
      - intros [Ho ->]. do 2 eexists. rewrite lookup_insert_eq. done. }
    rewrite elem_of_app, list_elem_of_singleton. destruct (m !! node) as [ps|] eqn:Em; cbn.
    + destruct (ps !! k0) as [[i' os]|] eqn:Ek; cbn.
      * destruct (Hwf _ _ _ _ _ Em Ek) as [Hi _]. cbn in Hi. assert (i' = id) as -> by congruence. split.
        -- intros [[?| ->] ->]; [left; eauto|by right].
        -- intros [(parts & offs & [= <-] & Hp & Ho)|(_ & _ & -> & ->)]; [|by auto].
           pose proof (eq_trans (eq_sym Ek) Hp) as [= <- <-]. auto.
      * split; [intros [[[]%elem_of_nil| ->] ->]; by right|].
        intros [(parts & offs & [= <-] & Hp & Ho)|(_ & _ & -> & ->)]; [|by auto].
        pose proof (eq_trans (eq_sym Ek) Hp) as [=].
    + rewrite lookup_empty. cbn. split; [intros [[[]%elem_of_nil| ->] ->]; by right|].
      intros [(parts & offs & ? & Hp & Ho)|(_ & _ & -> & ->)]; [done|by auto].
  - destruct (m !! node) as [ps|] eqn:Em; cbn.
    + split.
      * intros (parts & offs & [= <-] & Hp & Ho). rewrite lookup_insert_ne in Hp by done. naive_solver.
      * intros [(parts & offs & [= <-] & Hp & Ho)|?]; [|naive_solver].
        do 2 eexists. rewrite lookup_insert_ne by done. done.
    + split; [|naive_solver]. intros (parts & offs & [= <-] & Hp & Ho).
      rewrite lookup_insert_ne in Hp by done. by rewrite lookup_empty in Hp.
Qed.

(** A record and where its acknowledgement belongs. *)
Definition ack_target (cl : Cluster) (r : srecord) (node : Z) (id : bytes) : Prop :=
  TopicIDByName cl (sr_Topic r) = Some id /\ bm_NodeID <$> LeaderBroker cl (sr_Topic r) (sr_Partition r) = Some node.

Lemma wf_acks_empty cl : wf_acks cl ∅.
Proof. intros node parts k id offs Hx. by apply lookup_empty_Some in Hx. Qed.

Lemma group_acks_spec cl records m grouped :
  Forall (fun r => int64 (sr_Offset r)) records -> wf_acks cl m -> group_acks cl records m = Ok grouped ->
  wf_acks cl grouped /\
  forall node k id o, in_acks grouped node k id o <->
    in_acks m node k id o \/
    exists r, r ∈ records /\ ack_target cl r node id /\ k = (sr_Topic r, sr_Partition r) /\ o = sr_Offset r.
Proof.
  revert m. induction records as [|r rest IH]; intros m Hi Hwf; cbn [group_acks].
  - intros [= <-]. split; [done|]. intros. split; [auto|]. intros [?|(r & []%elem_of_nil & _)]; done.
  - apply Forall_cons in Hi as [Hr Hi].
    destruct (TopicIDByName cl (sr_Topic r)) as [id0|] eqn:Eid; [|done].
    destruct (LeaderBroker cl (sr_Topic r) (sr_Partition r)) as [b|] eqn:El; [|done].
    intros (Hwf' & Hin)%IH; [|done|by apply add_ack_wf]. split; [done|]. intros node k id o.
    rewrite Hin, (add_ack_in cl) by done. unfold ack_target. setoid_rewrite elem_of_cons. split.
    + intros [[?|(-> & -> & -> & ->)]|(r' & ? & ?)]; [by left| |right; naive_solver].
      right. exists r. rewrite Eid, El. naive_solver.
    + intros [?|(r' & [->|?] & [Ht Hl] & -> & ->)]; [by left; left| |right; naive_solver].
      left; right. rewrite Eid in Ht. rewrite El in Hl. naive_solver.
Qed.

(** The acknowledgement of [o] in a partition that is sent to [node]. *)
Definition sent_to (plan : gmap Z (list ShareFetchPartition)) (node : Z) (id : bytes) (part o : Z) : Prop :=
  exists parts p, plan !! node = Some parts /\ p ∈ parts /\ sp_TopicID p = id /\ sp_Partition p = part /\
    covered (sp_AckBatches p) o.

Lemma sent_to_grouped `{MapOrder} cl grouped t node id part o : wf_acks cl grouped ->
  sent_to (ack_plan grouped t) node id part o <-> exists topic, in_acks grouped node (topic, part) id o.
Proof.
  intros Hwf. unfold sent_to, ack_plan, in_acks. rewrite lookup_fmap. split.
  - intros (parts & p & (ps & Hg & ->)%fmap_Some & (kp & -> & Hkp)%list_elem_of_fmap & <- & <- & Hc).
    destruct kp as [[topic part'] [id' offs]]. rewrite range_perm in Hkp. apply elem_of_map_to_list in Hkp.
    cbn in *. destruct (Hwf _ _ _ _ _ Hg Hkp) as [_ Hi].
    apply coalesce_covered in Hc; [|done]. eauto 10.
  - intros (topic & parts & offs & Hg & Hk & Ho). destruct (Hwf _ _ _ _ _ Hg Hk) as [_ Hi].
    eexists _, (ack_partition t ((topic, part), (id, offs))). split_and!; [apply fmap_Some; by exists parts| |done|done|].
    + apply list_elem_of_fmap. eexists. split; [done|]. rewrite range_perm. by apply elem_of_map_to_list.
    + cbn. by apply coalesce_covered.
Qed.

Lemma ack_plan_exact `{MapOrder} cl records grouped t :
  Forall (fun r => int64 (sr_Offset r)) records -> group_acks cl records ∅ = Ok grouped ->
  forall node id part o, sent_to (ack_plan grouped t) node id part o <->
    exists r, r ∈ records /\ ack_target cl r node id /\ sr_Partition r = part /\ sr_Offset r = o.
Proof.
  intros Hi Hg node id part o.
  destruct (group_acks_spec cl records ∅ grouped Hi (wf_acks_empty cl) Hg) as [Hwf Hin].
  rewrite (sent_to_grouped cl) by done. setoid_rewrite Hin. split.
  - intros (topic & [(? & ? & Hx & _)|(r & Hr & Ht & [= -> ->] & ->)]); [by apply lookup_empty_Some in Hx|eauto].
  - intros (r & Hr & Ht & <- & <-). exists (sr_Topic r). eauto 10.
Qed.

(** ** Sizes *)

(** No group is empty or larger than the number of records. *)
Definition small_acks (n : nat) (m : grouped_acks) : Prop :=
  forall node parts, m !! node = Some parts -> parts <> ∅ /\ (size parts <= n)%nat /\
    forall k id offs, parts !! k = Some (id, offs) -> offs <> [] /\ (length offs <= n)%nat.

Lemma add_ack_small n m node r id : small_acks n m -> small_acks (S n) (add_ack m node r id).
Proof.
  intros Hs nd parts. unfold add_ack. set (k0 := (sr_Topic r, sr_Partition r)).
  assert ((size (default ∅ (m !! node)) <= n)%nat /\
    forall k i os, default ∅ (m !! node) !! k = Some (i, os) -> os <> [] /\ (length os <= n)%nat) as [Hsz Hof].
  { destruct (m !! node) as [ps|] eqn:Em; cbn [default]; [by apply (Hs node)|].
    split; [rewrite map_size_empty; lia|]. intros k i os Hk. by rewrite lookup_empty in Hk. }
  intros [[<- <-]|[Hne Hm]]%lookup_insert_Some.
  - set (ps := default ∅ (m !! node)) in *. split_and!; [by apply insert_non_empty| |].
    + destruct (ps !! k0) eqn:Ek; [rewrite map_size_insert_Some by eauto|rewrite map_size_insert_None by done]; lia.
    + intros k i os [[<- [= <- <-]]|[Hk Hl]]%lookup_insert_Some; [|destruct (Hof _ _ _ Hl); split; [done|lia]].
      split; [by intros []%app_eq_nil|]. rewrite length_app. cbn [length].
      destruct (ps !! k0) as [[i' os']|] eqn:Ek; cbn; [destruct (Hof _ _ _ Ek)|]; lia.
  - destruct (Hs _ _ Hm) as (? & ? & Ho). split_and!; [done|lia|]. intros k i os Hk. destruct (Ho _ _ _ Hk). split; [done|lia].
Qed.

Lemma group_acks_small cl records : forall n m grouped,
  small_acks n m -> group_acks cl records m = Ok grouped -> small_acks (n + length records) grouped.
Proof.
  induction records as [|r rest IH]; intros n m grouped Hs; cbn [group_acks length].
  - intros [= <-]. by rewrite Nat.add_0_r.
  - destruct (TopicIDByName _ _) as [id|]; [|done]. destruct (LeaderBroker _ _ _) as [b|]; [|done].
    intros Hg. rewrite Nat.add_succ_r. apply (IH (S n) _ _ (add_ack_small _ _ _ _ _ Hs) Hg).
Qed.

Lemma coalesce_loop_length t rest : forall first last, (length (coalesce_loop first last rest t) <= S (length rest))%nat.
Proof.
  induction rest as [|o rest IH]; intros first last; cbn [coalesce_loop length]; [lia|].
  destruct (_ || _); cbn [length]; [specialize (IH first o)|specialize (IH o o)]; lia.
Qed.

Lemma coalesce_length offsets t : (length (coalesceAckBatches offsets t) <= length offsets)%nat.
Proof.
  unfold coalesceAckBatches. rewrite <- (Permutation_length (merge_sort_Permutation Z.le offsets)).
  destruct (merge_sort Z.le offsets) as [|o rest]; [done|]. apply coalesce_loop_length.
Qed.

(** * What a ShareAcknowledge request says

    The body of a request is read field by field: the group, the member, the
    session epoch, from version 2 on whether acquisitions are renewed, and for
    each topic id and partition the ranges with their acknowledgement types. *)

Record ack_range := mkAckRange { ar_First : Z; ar_Last : Z; ar_Types : list Z }.

Record ack_request := mkAckRequest {
  ak_Group : bytes;
  ak_Member : bytes;
  ak_Epoch : Z;
  ak_Renew : bool;
  ak_Topics : list (bytes * list (Z * list ack_range)) }.

Definition read_ack_range : Rd ack_range :=
  first <- ReadInt64 ;;
  last <- ReadInt64 ;;
  n <- ReadUvarint ;;
  types <- rd_list (n - 1) ReadInt8 ;;
  SkipTagSection ;;;
  ret (mkAckRange first last types).

Definition read_acked_partition : Rd (Z * list ack_range) :=
  part <- ReadInt32 ;;
  n <- ReadUvarint ;;
  ranges <- rd_list (n - 1) read_ack_range ;;
  SkipTagSection ;;;
  ret (part, ranges).

Definition read_acked_topic : Rd (bytes * list (Z * list ack_range)) :=
  id <- ReadUUID ;;
  n <- ReadUvarint ;;
  parts <- rd_list (n - 1) read_acked_partition ;;
  SkipTagSection ;;;
  ret (id, parts).

Definition read_ack_request (ver : Z) : Rd ack_request :=
  group <- ReadCompactString ;;
  member <- ReadCompactString ;;
  epoch <- ReadInt32 ;;
  renew <- (if ver >=? 2 then ReadBool else ret false) ;;
  n <- ReadUvarint ;;
  topics <- rd_list (n - 1) read_acked_topic ;;
  SkipTagSection ;;;
  ret (mkAckRequest group member epoch renew topics).

(** The request names the offset [o] of a partition with these types. *)
Definition names (rq : ack_request) (id : bytes) (part o : Z) (types : list Z) : Prop :=
  exists tp pr r, tp ∈ ak_Topics rq /\ fst tp = id /\ pr ∈ snd tp /\ fst pr = part /\
    r ∈ snd pr /\ ar_First r <= o <= ar_Last r /\ ar_Types r = types.

(** ** What the encoder writes *)

Definition said_range (b : ShareAckBatch) : ack_range :=
  mkAckRange (ab_FirstOffset b) (ab_LastOffset b) [ack_code (ab_Type b)].
Definition said_partition (p : ShareFetchPartition) : Z * list ack_range :=
  (sp_Partition p, map said_range (sp_AckBatches p)).
Definition said (ver : Z) (req : ShareAcknowledgeRequest) : ack_request :=
  mkAckRequest (sa_GroupID req) (sa_MemberID req) (s32 (sa_ShareSessionEpoch req))
    ((ver >=? 2) && has_renew (sa_Partitions req))
    (map (fun tp => (fst tp, map said_partition (snd tp))) (group_by sp_TopicID (sa_Partitions req))).

Definition wf_batch_offsets (b : ShareAckBatch) : Prop := int64 (ab_FirstOffset b) /\ int64 (ab_LastOffset b).
Definition wf_ack_part (p : ShareFetchPartition) : Prop :=
  len (sp_TopicID p) = 16 /\ int32 (sp_Partition p) /\ fits (sp_AckBatches p) /\ Forall wf_batch_offsets (sp_AckBatches p).

Lemma Reads_count {A} (l : list A) : fits l -> Reads ReadUvarint (WriteCompactArrayLen (len l)) (len l + 1).
Proof. intros Hf. apply Reads_array_len. unfold fits in Hf. pose proof (len_nonneg l). lia. Qed.

Lemma Reads_ack_range b : wf_batch_offsets b -> Reads read_ack_range (write_ack_batch b) (said_range b).
Proof.
  intros [Hf Hl]. unfold read_ack_range, write_ack_batch. field. field.
  eapply Reads_bind; [apply (Reads_count [ack_code (ab_Type b)]); reflexivity|]. cbn [len length].
  change (WriteInt8 (ack_code (ab_Type b))) with (enc_list WriteInt8 [ack_code (ab_Type b)]).
  eapply Reads_bind.
  - eapply (Reads_list _ _ int8); [done| |apply Reads_int8]. apply Forall_singleton. unfold int8. destruct (ab_Type b); cbn; lia.
  - last_field. apply Reads_ret.
Qed.

Lemma Reads_acked_partition p : wf_ack_part p ->
  Reads read_acked_partition (write_share_partition p) (said_partition p).
Proof.
  intros (_ & Hp & Hf & Hb). unfold read_acked_partition, write_share_partition. field.
  eapply Reads_bind; [by apply Reads_count|]. rewrite Z.add_simpl_r.
  eapply Reads_bind; [by eapply (Reads_list_map _ _ said_range wf_batch_offsets); [..|apply Reads_ack_range]|].
  last_field. apply Reads_ret.
Qed.

Lemma Reads_acked_topic tp : len (fst tp) = 16 -> fits (snd tp) -> Forall wf_ack_part (snd tp) ->
  Reads read_acked_topic (write_share_topic tp) (fst tp, map said_partition (snd tp)).
Proof.
  intros Hid Hf Hp. unfold read_acked_topic, write_share_topic. field.
  eapply Reads_bind; [by apply Reads_count|]. rewrite Z.add_simpl_r.
  eapply Reads_bind; [by eapply (Reads_list_map _ _ said_partition wf_ack_part); [..|apply Reads_acked_partition]|].
  last_field. apply Reads_ret.
Qed.

(** Grouping makes no group larger than the list, and not more groups. *)
Lemma with_key_fits {A K} `{Countable K} (key : A -> K) k l : fits l -> fits (with_key key k l).
Proof. unfold fits, len, with_key. pose proof (length_filter (fun r => key r = k) l). lia. Qed.

Lemma group_by_fits {A K} `{Countable K} (key : A -> K) l : fits l -> fits (group_by key l).
Proof.
  rewrite group_by_eq. unfold fits. rewrite len_map. intros Hf. enough (length (first_keys key l) <= length (map key l))%nat as Hl.
  { rewrite length_map in Hl. unfold len in *. lia. }
  apply NoDup_incl_length; [apply NoDup_ListNoDup, first_keys_nodup|]. intros k Hk. apply list_elem_of_In in Hk.
  apply list_elem_of_In. by apply first_keys_elem.
Qed.

Lemma Reads_ack_request ver req :
  0 < ver -> fits (sa_GroupID req) -> fits (sa_MemberID req) -> fits (sa_Partitions req) -> Forall wf_ack_part (sa_Partitions req) ->
  Reads (read_ack_request ver) (EncodeShareAcknowledgeRequest ver req) (said ver req).
Proof.
  intros Hv Hg Hm Hf Hp. unfold read_ack_request, EncodeShareAcknowledgeRequest.
  destruct (Z.leb_spec ver 0); [lia|]. fields. eapply Reads_bind; [apply Reads_int32_wrap|].
  eapply Reads_bind.
  { instantiate (1 := (ver >=? 2) && has_renew (sa_Partitions req)). unfold enc_if.
    destruct (ver >=? 2); cbn [andb]; [apply Reads_bool|apply Reads_ret]. }
  eapply Reads_bind; [by apply Reads_count, group_by_fits|]. rewrite Z.add_simpl_r. eapply Reads_bind.
  - eapply (Reads_list_map _ _ (fun tp => (fst tp, map said_partition (snd tp)))
      (fun tp => len (fst tp) = 16 /\ fits (snd tp) /\ Forall wf_ack_part (snd tp))); [done| |].
    + rewrite group_by_eq. apply Forall_map, Forall_forall. intros id (p & -> & Hin)%first_keys_elem%list_elem_of_fmap.
      cbn [fst snd]. rewrite Forall_forall in Hp. split_and!; [by apply Hp|by apply with_key_fits|].
      apply Forall_forall. intros q [_ Hq]%list_elem_of_filter. by apply Hp.
    + intros tp (? & ? & ?). by apply Reads_acked_topic.
  - last_field. apply Reads_ret.
Qed.

Lemma names_said ver req id part o types :
  names (said ver req) id part o types <->
  exists p b, p ∈ sa_Partitions req /\ sp_TopicID p = id /\ sp_Partition p = part /\ b ∈ sp_AckBatches p /\ covers b o /\
    types = [ack_code (ab_Type b)].
Proof.
  unfold names, said. cbn [ak_Topics]. rewrite group_by_eq, map_map. cbn [fst snd]. split.
  - intros (tp & pr & r & (k & -> & Hk)%list_elem_of_fmap & <- & (p & -> & [Hkey Hin]%list_elem_of_filter)%list_elem_of_fmap &
      <- & (b & -> & Hb)%list_elem_of_fmap & Hc & <-). exists p, b. by split_and!.
  - intros (p & b & Hp & <- & <- & Hb & Hc & ->). eexists _, (said_partition p), (said_range b). split_and!; [| | |done| |apply Hc|apply Hc|done].
    + apply list_elem_of_fmap. exists (sp_TopicID p). split; [done|]. apply first_keys_elem. by apply list_elem_of_fmap_2.
    + done.
    + cbn [snd]. apply list_elem_of_fmap_2. apply list_elem_of_filter. done.
    + by apply list_elem_of_fmap_2.
Qed.

(** * Sending acknowledgements *)

(** The records an acknowledgement can be laid out for. *)
Definition wf_ack_record (cl : Cluster) (r : srecord) : Prop :=
  int64 (sr_Offset r) /\ int32 (sr_Partition r) /\ forall id, TopicIDByName cl (sr_Topic r) = Some id -> len id = 16.

(** One of the requests tells [node] these types of an offset. *)
Definition tells (ver : Z) (sent : list call) (node : Z) (id : bytes) (part o : Z) (types : list Z) : Prop :=
  exists c rq, c ∈ sent /\ call_node c = node /\ run (read_ack_request ver) (call_body c) = Ok rq /\ names rq id part o types.

Section plan.
Context `{MapOrder} (cl : Cluster) (records : list srecord) (grouped : grouped_acks) (t : ShareAckType).
Context (Hwf : Forall (wf_ack_record cl) records) (Hfits : fits records) (Hg : group_acks cl records ∅ = Ok grouped).

Lemma records_int64 : Forall (fun r => int64 (sr_Offset r)) records.
Proof. eapply Forall_impl; [exact Hwf|]. by intros r (? & _). Qed.

Lemma group_acks_target r : r ∈ records -> exists node id, ack_target cl r node id.
Proof.
  clear Hwf Hfits. revert Hg. generalize (∅ : grouped_acks). induction records as [|r0 rest IH]; intros m; [by intros _ []%elem_of_nil|].
  cbn [group_acks]. destruct (TopicIDByName cl (sr_Topic r0)) as [id|] eqn:Eid; [|done].
  destruct (LeaderBroker cl (sr_Topic r0) (sr_Partition r0)) as [b|] eqn:El; [|done].
  intros Hg' [->|Hr]%elem_of_cons; [|by eapply IH]. exists (bm_NodeID b), id. unfold ack_target. by rewrite Eid, El.
Qed.

Lemma plan_entry node parts : ack_plan grouped t !! node = Some parts ->
  fits parts /\ Forall wf_ack_part parts /\
  (forall p b, p ∈ parts -> b ∈ sp_AckBatches p -> ab_Type b = t) /\ exists p b, p ∈ parts /\ b ∈ sp_AckBatches p.
Proof.
  unfold ack_plan. rewrite lookup_fmap. intros (ps & Hps & ->)%fmap_Some.
  destruct (group_acks_spec cl records ∅ grouped records_int64 (wf_acks_empty cl) Hg) as [Hwfa Hin].
  assert (small_acks (length records) grouped) as Hsm
    by (apply (group_acks_small cl records 0 ∅ grouped); [|exact Hg]; intros ? ? Hx; by apply lookup_empty_Some in Hx).
  destruct (Hsm _ _ Hps) as (Hne & Hsz & Ho).
  assert (forall kp, kp ∈ range ps -> ps !! fst kp = Some (snd kp)) as Hr
    by (intros [k v] Hk; rewrite range_perm in Hk; by apply elem_of_map_to_list in Hk).
  split_and!.
  - unfold fits in *. rewrite len_map. unfold len in *. rewrite (Permutation_length (range_perm ps)), length_map_to_list. lia.
  - apply Forall_map, Forall_forall. intros [[topic part] [id offs]] Hk%Hr. cbn [fst snd] in Hk.
    destruct (Ho _ _ _ Hk) as [Hon Hol]. destruct (Hwfa _ _ _ _ _ Hps Hk) as [Hid Hi].
    destruct offs as [|o offs']; [done|].
    assert (in_acks grouped node (topic, part) id o) as Hia by (exists ps, (o :: offs'); split_and!; [done|done|left]).
    apply Hin in Hia as [(? & ? & Hx & _)|(r & Hr' & [Ht _] & [= -> ->] & _)]; [by apply lookup_empty_Some in Hx|].
    rewrite Forall_forall in Hwf. destruct (Hwf r Hr') as (_ & Hp & Hlen).
    destruct (coalesce_covered (o :: offs') t Hi) as (Hc & Hsh & _).
    unfold wf_ack_part. cbn [ack_partition sp_TopicID sp_Partition sp_AckBatches fst snd].
    split_and!; [by apply Hlen|done| |].
    + unfold fits, len in *. pose proof (coalesce_length (o :: offs') t). lia.
    + apply Forall_forall. intros b Hb. rewrite Forall_forall in Hsh. rewrite Forall_forall in Hi. destruct (Hsh b Hb) as [Hle _].
      split; apply Hi, Hc; exists b; (split; [done|unfold covers; lia]).
  - intros p b (kp & -> & Hk%Hr)%list_elem_of_fmap Hb. destruct kp as [[topic part] [id offs]]. cbn [fst snd] in *.
    destruct (Hwfa _ _ _ _ _ Hps Hk) as [_ Hi]. destruct (coalesce_covered offs t Hi) as (_ & Hsh & _).
    rewrite Forall_forall in Hsh. by apply Hsh.
  - destruct (map_choose _ Hne) as ([topic part] & [id offs] & Hk). destruct (Ho _ _ _ Hk) as [Hon _].
    destruct (Hwfa _ _ _ _ _ Hps Hk) as [_ Hi]. destruct offs as [|o offs']; [done|].
    destruct (coalesce_covered (o :: offs') t Hi) as (Hc & _ & _). destruct (proj2 (Hc o)) as (b & Hb & _); [left|].
    exists (ack_partition t ((topic, part), (id, o :: offs'))), b. split; [|done].
    apply list_elem_of_fmap_2. rewrite range_perm. by apply elem_of_map_to_list.
Qed.

Lemma plan_renew node parts : ack_plan grouped t !! node = Some parts ->
  has_renew parts = bool_decide (t = ShareAckRenew).
Proof.
  intros (_ & _ & Ht & p & b & Hp & Hb)%plan_entry. unfold has_renew. apply eq_true_iff_eq.
  rewrite existsb_exists, bool_decide_eq_true. split.
  - intros (q & Hq%list_elem_of_In & (b' & Hb'%list_elem_of_In & Hr%bool_decide_eq_true)%existsb_exists).
    rewrite <- Hr. symmetry. by eapply Ht.
  - intros Hr. exists p. split; [by apply list_elem_of_In|]. apply existsb_exists. exists b.
    split; [by apply list_elem_of_In|]. apply bool_decide_eq_true. rewrite <- Hr. by eapply Ht.
Qed.
End plan.

Section sending.
Context `{Codecs} `{MapOrder} {W : Type} `{ClusterEnv W} `{!TracedEnv W} `{ConsumerEnv W} (cfg : ShareConfig).
Local Notation share := (ShareConsumer W).
Local Notation calls s := (env_calls (s_world s)).

(** The broker was asked to acknowledge its part of the plan; it accepted. *)
Definition asked (ver : Z) (s : share) (bp : Z * list ShareFetchPartition) (c : call) : Prop :=
  call_node c = fst bp /\ call_api c = APIShareAcknowledge /\ call_ver c = ver /\
  EncodeShareAcknowledgeRequest ver
    (mkShareAcknowledgeRequest (s_group s) (s_memberID s) (session_epoch (fst bp) s) (snd bp)) = Ok (call_body c).

Definition ack_accepted (ver : Z) (c : call) : Prop :=
  exists reply, call_reply c = Ok reply /\ DecodeShareAcknowledgeResponse ver reply = Ok 0.

Lemma share_acknowledge_zero ver reply z : DecodeShareAcknowledgeResponse ver reply = Ok z -> z = 0.
Proof.
  unfold DecodeShareAcknowledgeResponse, run, read_share_acknowledge. intros Hd.
  repeat (first
    [ progress cbn [rbind ret] in Hd
    | match type of Hd with
      | context [rbind ?m ?f ?b] => unfold rbind at 1 in Hd; destruct (m b) as [? [?| |]]; [|discriminate Hd..]
      | context [(if ?c then _ else _) _] => destruct c; [discriminate Hd|]
      end ]).
  injection Hd. done.
Qed.

Lemma ack_broker_run ver bp (s s' : share) r :
  ack_broker ver (s_group s) (s_memberID s) bp s = (s', r) ->
  s_group s' = s_group s /\ s_memberID s' = s_memberID s /\
  (forall node, node <> fst bp -> session_epoch node s' = session_epoch node s) /\
  ((calls s' = calls s /\ r <> Ok tt) \/
   exists c, calls s' = calls s ++ [c] /\ asked ver s bp c /\ (r = Ok tt -> ack_accepted ver c)).
Proof.
  unfold ack_broker, share_request. unfold mthen at 1, mgets. unfold mthen at 1 2, mlift at 1.
  destruct (EncodeShareAcknowledgeRequest _ _) as [body|e|] eqn:Ee; [|intros [= <- <-]; split_and!; [done..|by left]|intros [= <- <-]; split_and!; [done..|by left]].
  unfold in_world. pose proof (calls_Request (fst bp) APIShareAcknowledge ver body (s_world s)) as Hc.
  destruct (env_Request _ _ _ _ _) as [w a]. cbn [fst snd] in Hc.
  set (c := mkCall _ _ _ _ _) in Hc.
  assert (asked ver s bp c) as Ha by (split_and!; [done..|by rewrite Ee]).
  destruct a as [rb|e|]; [|intros [= <- <-]; split_and!; [done..|right; exists c; split_and!; done]|intros [= <- <-]; split_and!; [done..|right; exists c; split_and!; done]].
  unfold mthen, mlift. destruct (DecodeShareAcknowledgeResponse ver rb) as [z|e|] eqn:Ed; [|intros [= <- <-]; split_and!; [done..|right; exists c; split_and!; done]|intros [= <- <-]; split_and!; [done..|right; exists c; split_and!; done]].
  unfold set_session_epoch, mmod. intros [= <- <-]. split_and!; [done|done| |].
  - intros node Hne. unfold session_epoch, set_session, set_world. cbn [s_session]. by rewrite lookup_insert_ne.
  - right. exists c. split_and!; [done|done|]. intros _. exists rb. split; [done|].
    by rewrite Ed, (share_acknowledge_zero _ _ _ Ed).
Qed.

Lemma ack_brokers_run ver (s0 : share) l : forall (s s' : share) r, NoDup (map fst l) ->
  s_group s = s_group s0 -> s_memberID s = s_memberID s0 ->
  (forall bp, bp ∈ l -> session_epoch (fst bp) s = session_epoch (fst bp) s0) ->
  mfor (ack_broker ver (s_group s0) (s_memberID s0)) l s = (s', r) ->
  exists l1 l2 new, l = l1 ++ l2 /\ calls s' = calls s ++ new /\ Forall2 (asked ver s0) l1 new /\
    (r = Ok tt -> l2 = [] /\ Forall (ack_accepted ver) new).
Proof.
  induction l as [|bp l IH]; intros s s' r Hnd Hgr Hm He; cbn [mfor].
  - intros [= <- <-]. exists [], [], []. split_and!; [done|by rewrite app_nil_r|constructor|]. intros _. split; [done|constructor].
  - cbn [map] in Hnd. apply NoDup_cons in Hnd as [Hnin Hnd]. unfold mthen. rewrite <- Hgr, <- Hm.
    destruct (ack_broker _ _ _ bp s) as [s1 r1] eqn:E. apply ack_broker_run in E as (Hgr1 & Hm1 & He1 & Hcases).
    assert (forall c, asked ver s bp c -> asked ver s0 bp c) as Hask.
    { intros c (? & ? & ? & Hen). split_and!; [done..|]. by rewrite <- Hgr, <- Hm, <- (He bp) by left. }
    destruct Hcases as [[Hc Hr]|(c & Hc & Ha & Hr)].
    + destruct r1 as [[]|e|]; [done| |]; intros [= <- <-]; exists [], (bp :: l), []; split_and!; [done|by rewrite app_nil_r|constructor|done|done|by rewrite app_nil_r|constructor|done].
    + destruct r1 as [[]|e|]; [|intros [= <- <-]; exists [bp], l, [c]; split_and!; [done|done|by repeat constructor; apply Hask|done]..].
      intros Hrest. rewrite Hgr, Hm in Hrest. apply IH in Hrest as (l1 & l2 & new & -> & Hcs & Hf & Hok); [|done|congruence|congruence|].
      * exists (bp :: l1), l2, (c :: new). split_and!; [done| |constructor; [by apply Hask|done]|].
        { by rewrite Hcs, Hc, <- app_assoc. }
        intros ->. destruct Hok as [-> Hok]; [done|]. split; [done|]. constructor; auto.
      * intros bp' Hbp'. rewrite He1; [apply He; by right|]. intros Heq. apply Hnin. rewrite <- Heq. by apply list_elem_of_fmap_2.
Qed.

(** The four acknowledgements and what each says of its records. *)
Definition acknowledgements : list ((list srecord -> M share unit) * ShareAckType) :=
  [(Acknowledge cfg, ShareAckAccept); (Release cfg, ShareAckRelease); (Reject cfg, ShareAckReject); (Renew cfg, ShareAckRenew)].

Lemma acknowledgement_run op t records (s s' : share) r : (op, t) ∈ acknowledgements -> op records s = (s', r) ->
  acknowledge cfg t records s = (s', r) \/ (s' = s /\ r <> Ok tt).
Proof.
  unfold acknowledgements. intros Hop Hr.
  repeat (apply elem_of_cons in Hop as [[= -> ->]|Hop]; [try by left|]); [|by apply elem_of_nil in Hop].
  unfold Renew in Hr. unfold mthen, share_version, mgets in Hr. destruct (_ <? 2); [|by left].
  injection Hr as <- <-. by right.
Qed.

Lemma acknowledge_run t records (s s' : share) r :
  acknowledge cfg t records s = (s', r) ->
  let ver := negotiatedVersion (env_versions (s_world s)) APIShareAcknowledge VerShareAcknowledge in
  (calls s' = calls s /\ (r = Ok tt -> records = [])) \/
  exists grouped l1 l2 new, group_acks (share_cluster s) records ∅ = Ok grouped /\ range (ack_plan grouped t) = l1 ++ l2 /\
    calls s' = calls s ++ new /\ Forall2 (asked ver s) l1 new /\ (r = Ok tt -> l2 = [] /\ Forall (ack_accepted ver) new).
Proof.
  unfold acknowledge. destruct (Z.eqb_spec (len records) 0) as [El|El].
  { intros [= <- <-]. left. split; [done|]. intros _. by apply len_zero. }
  intros Ha. cbv zeta. unfold mthen at 1 2 3, mget, mlift, share_version, mgets in Ha.
  destruct (group_acks (share_cluster s) records ∅) as [grouped| |] eqn:Hg; [|injection Ha as <- <-; by left..].
  right. set (ver := negotiatedVersion _ _ _) in *. unfold mthen in Ha.
  destruct (mfor _ (range (ack_plan grouped t)) s) as [s1 r1] eqn:E.
  pose proof (ack_brokers_run ver s _ s s1 r1 (range_keys_nodup _) eq_refl eq_refl ltac:(done) E)
    as (l1 & l2 & new & Hl & Hc & Hf & Hok).
  assert (calls s' = calls s1 /\ (r = Ok tt -> r1 = Ok tt)) as [Hcs Hr1].
  { destruct r1 as [[]|e|]; [split; [|done]|by injection Ha as <- <-..].
    unfold clearPending, mwhen in Ha. repeat case_bool_decide; injection Ha as <- <-; done. }
  exists grouped, l1, l2, new. split_and!; [done|done|by rewrite Hcs|done|auto].
Qed.

(** Reading the body of a request that was asked for. *)
Lemma asked_reads t records grouped ver (s : share) bp c :
  Forall (wf_ack_record (share_cluster s)) records -> fits records -> fits (s_group s) -> fits (s_memberID s) -> 0 < ver ->
  group_acks (share_cluster s) records ∅ = Ok grouped -> bp ∈ range (ack_plan grouped t) -> asked ver s bp c ->
  exists rq, run (read_ack_request ver) (call_body c) = Ok rq /\ ak_Group rq = s_group s /\ ak_Member rq = s_memberID s /\
    ak_Epoch rq = s32 (session_epoch (call_node c) s) /\ ak_Renew rq = (ver >=? 2) && bool_decide (t = ShareAckRenew) /\
    forall id part o types, names rq id part o types <->
      types = [ack_code t] /\ exists p, p ∈ snd bp /\ sp_TopicID p = id /\ sp_Partition p = part /\ covered (sp_AckBatches p) o.
Proof.
  intros Hwf Hf Hgr Hm Hv Hg Hbp (Hn & _ & _ & He). destruct bp as [node parts]. cbn [fst snd] in *. subst node.
  rewrite range_perm in Hbp. apply elem_of_map_to_list in Hbp.
  destruct (plan_entry _ _ _ _ Hwf Hf Hg _ _ Hbp) as (Hfp & Hwp & Ht & _).
  eexists. split; [eapply Reads_run; [|exact He]; by apply Reads_ack_request|]. cbn [said ak_Group ak_Member ak_Epoch ak_Renew sa_GroupID sa_MemberID sa_ShareSessionEpoch sa_Partitions].
  split_and!; [done..| |].
  - by rewrite (plan_renew _ _ _ _ Hwf Hf Hg _ _ Hbp).
  - intros id part o types. rewrite names_said. cbn [sa_Partitions]. unfold covered. split.
    + intros (p & b & Hp & ? & ? & Hb & Hc & ->). rewrite (Ht p b Hp Hb). eauto 10.
    + intros (-> & p & Hp & ? & ? & b & Hb & Hc). exists p, b. rewrite (Ht p b Hp Hb). done.
Qed.

(** C25: Acknowledging is exact.  [Acknowledge], [Release], [Reject] and [Renew]
    send at most one ShareAcknowledge to a broker, with the group, the member, the
    broker's session epoch and, from version 2 on, the renew flag of [Renew].
    Read back from the bytes, whatever the outcome the requests name only offsets
    of the given records, at the leader of their partition, under the id of their
    topic and with the type of the call.  When the call succeeds every broker has
    accepted its request, every record has a leader and a topic id, and its
    offset was named to that leader: each broker was told of exactly the records
    it leads. *)
Theorem acknowledge_exact op t records (s s' : share) r :
  (op, t) ∈ acknowledgements -> op records s = (s', r) ->
  fits records -> Forall (wf_ack_record (share_cluster s)) records -> fits (s_group s) -> fits (s_memberID s) ->
  let ver := negotiatedVersion (env_versions (s_world s)) APIShareAcknowledge VerShareAcknowledge in 0 < ver ->
  exists new, env_calls (s_world s') = env_calls (s_world s) ++ new /\ NoDup (map call_node new) /\
    Forall (fun c => call_api c = APIShareAcknowledge /\ call_ver c = ver /\
      exists rq, run (read_ack_request ver) (call_body c) = Ok rq /\ ak_Group rq = s_group s /\ ak_Member rq = s_memberID s /\
        ak_Epoch rq = s32 (session_epoch (call_node c) s) /\ ak_Renew rq = (ver >=? 2) && bool_decide (t = ShareAckRenew)) new /\
    (forall node id part o types, tells ver new node id part o types ->
      types = [ack_code t] /\
      exists rec, rec ∈ records /\ ack_target (share_cluster s) rec node id /\ sr_Partition rec = part /\ sr_Offset rec = o) /\
    (r = Ok tt -> Forall (ack_accepted ver) new /\
      forall rec, rec ∈ records -> exists node id, ack_target (share_cluster s) rec node id /\
        tells ver new node id (sr_Partition rec) (sr_Offset rec) [ack_code t]).
Proof.
  intros Hop Hrun Hf Hwf Hgr Hm ver Hv. apply (acknowledgement_run _ _ _ _ _ _ Hop) in Hrun as [Hrun|[-> Hr]].
  2:{ exists []. rewrite app_nil_r. split_and!; [done|constructor|constructor| |done]. by intros ? ? ? ? ? (? & ? & []%elem_of_nil & _). }
  apply acknowledge_run in Hrun as [[Hc Hr]|(grouped & l1 & l2 & new & Hg & Hl & Hc & Hask & Hok)].
  { exists []. rewrite app_nil_r. split_and!; [done|constructor|constructor|by intros ? ? ? ? ? (? & ? & []%elem_of_nil & _)|].
    intros ->%Hr. split; [constructor|]. by intros ? []%elem_of_nil. }
  fold ver in Hask, Hok. pose proof (ack_plan_exact _ _ _ t (records_int64 _ _ Hwf) Hg) as Hexact.
  assert (forall bp, bp ∈ l1 -> bp ∈ range (ack_plan grouped t)) as Hl1 by (intros bp Hbp; rewrite Hl, elem_of_app; by left).
  assert (forall bp c, bp ∈ l1 -> asked ver s bp c -> _) as Hreads
    by (intros bp c Hbp; exact (asked_reads t records grouped ver s bp c Hwf Hf Hgr Hm Hv Hg (Hl1 bp Hbp))).
  exists new. split_and!; [done| | | |].
  - replace (map call_node new) with (map fst l1).
    + pose proof (range_keys_nodup (ack_plan grouped t)) as Hnd. rewrite Hl, map_app in Hnd. by apply NoDup_app in Hnd as [? _].
    + clear -Hask. induction Hask as [|bp c l new Hbp _ IH]; [done|]. cbn [map]. rewrite IH. by destruct Hbp as [-> _].
  - apply Forall_forall. intros c (bp & Hbp & Ha)%(elem_of_Forall2_r _ _ _ _ Hask).
    destruct (Hreads bp c Hbp Ha) as (rq & ? & ? & ? & ? & ? & _). destruct Ha as (_ & ? & ? & _). eauto 10.
  - intros node id part o types (c & rq & (bp & Hbp & Ha)%(elem_of_Forall2_r _ _ _ _ Hask) & <- & Hrq & Hn).
    destruct (Hreads bp c Hbp Ha) as (rq' & Hrq' & _ & _ & _ & _ & Hnames). assert (rq' = rq) as -> by congruence.
    apply Hnames in Hn as [-> (p & Hp & Hid & Hpart & Hcov)]. split; [done|]. apply Hexact. destruct Ha as [-> _].
    exists (snd bp), p. split_and!; [|done..]. specialize (Hl1 bp Hbp). rewrite range_perm in Hl1. destruct bp. by apply elem_of_map_to_list in Hl1.
  - intros Hr. destruct (Hok Hr) as [-> Hacc]. split; [done|]. intros rec Hrec.
    destruct (group_acks_target _ _ _ Hg rec Hrec) as (node & id & Ht). exists node, id. split; [done|].
    destruct (proj2 (Hexact node id (sr_Partition rec) (sr_Offset rec))) as (parts & p & Hplan & Hp & Hid & Hpart & Hcov); [eauto|].
    assert ((node, parts) ∈ l1) as Hbp.
    { rewrite app_nil_r in Hl. rewrite <- Hl, range_perm. by apply elem_of_map_to_list. }
    destruct (elem_of_Forall2_l _ _ _ _ Hask Hbp) as (c & Hcn & Ha). destruct (Hreads _ c Hbp Ha) as (rq & Hrq & _ & _ & _ & _ & Hnames).
    exists c, rq. split_and!; [done|by destruct Ha as [-> _]|done|]. apply Hnames. split; [done|]. exists p. split_and!; done.
Qed.
End sending.

(** * Polling *)

Section poll.
Context `{Codecs} `{MapOrder} {W : Type} `{ClusterEnv W} `{!TracedEnv W} `{ConsumerEnv W}.
Context (cfg : ShareConfig) (topics : list bytes) (rejoin_fuel : nat).
(** Drawing a member id asks no broker. *)
Context (Hids : forall w, env_calls (fst (env_newMemberUUID w)) = env_calls w).
Local Notation share := (ShareConsumer W).
Local Notation calls s := (env_calls (s_world s)).

(** Only acknowledging and delivering touch the records to accept, and each
    phase of a poll makes calls of its own kind. *)
Definition same_pending (P : call -> Prop) (s s' : share) : Prop :=
  s_pendingAccept s' = s_pendingAccept s /\ adds P (s_world s) (s_world s').

#[local] Instance same_pending_preorder P : PreOrder (same_pending P).
Proof. split; [done|]. intros ? ? ? [? ?] [? ?]. split; [congruence|by etransitivity]. Qed.

(** Calls that neither fetch nor acknowledge. *)
Definition quiet (c : call) : Prop := call_api c <> APIShareFetch /\ call_api c <> APIShareAcknowledge.
Lemma quiet_api api : api <> APIShareFetch -> api <> APIShareAcknowledge -> forall c, call_api c = api -> quiet c.
Proof. by intros ? ? c <-. Qed.
Definition fetches (c : call) : Prop := call_api c = APIShareFetch.
Definition acknowledges (c : call) : Prop := call_api c = APIShareAcknowledge.

#[local] Hint Extern 0 (Keeps (same_pending _) (mmod _)) => (intros ?; split; reflexivity) : keeps.

Lemma pending_world {A} P (f : W -> W * res A) : (forall w, adds P w (fst (f w))) -> Keeps (same_pending P) (in_world f).
Proof. intros Hf s. unfold in_world. specialize (Hf (s_world s)). by destruct (f (s_world s)). Qed.
Lemma pending_refresh P : Keeps (same_pending P) (in_world (env_Refresh topics)).
Proof. apply pending_world. auto with calls. Qed.
Lemma pending_wait P d : Keeps (same_pending P) (wait_for (W := W) d).
Proof. intros s. unfold wait_for. pose proof (adds_sleep P d (s_world s)). by destruct (env_sleep d (s_world s)). Qed.
#[local] Hint Resolve pending_refresh pending_wait : keeps.

Lemma pending_request (P : call -> Prop) node api ver body : (forall c, call_api c = api -> P c) ->
  Keeps (same_pending P) (share_request node api ver body).
Proof.
  intros HP. unfold share_request. apply keeps_then; [typeclasses eauto|apply keeps_lift; typeclasses eauto|].
  intros b. apply pending_world. intros w. apply adds_Request. intros reply. by apply HP.
Qed.
Lemma pending_session P b e : Keeps (same_pending P) (set_session_epoch b e).
Proof. unfold set_session_epoch. solve_keeps. Qed.
#[local] Hint Resolve pending_session : keeps.

(** ** Joining *)

Lemma find_coordinator_quiet n body wait e (w : W) : adds quiet w (fst (find_coordinator n body wait e w)).
Proof.
  revert wait e w. induction n as [|n IH]; intros wait e w; cbn [find_coordinator]; [done|].
  destruct (env_ctx w); [done|].
  pose proof (adds_RequestViaSeed quiet APIFindCoordinator VerFindCoordinator body w ltac:(done)) as Hs.
  destruct (env_RequestViaSeed _ _ _ w) as [w1 rb]. cbn [fst] in Hs. destruct rb as [rb| |]; [|done|done].
  destruct (DecodeFindCoordinatorResponse rb); [|done|done]. repeat (case_match; [done|]).
  pose proof (adds_sleep quiet wait w1) as Hw. destruct (env_sleep wait w1) as [w2 o]. cbn [fst] in Hw.
  assert (adds quiet w w2) by by etransitivity. destruct o; [done|]. etransitivity; [done|apply IH].
Qed.

Lemma pending_coordinator : Keeps (same_pending quiet) shareCoordinator.
Proof.
  unfold shareCoordinator. solve_keeps. apply pending_world. intros w. unfold FindCoordinator.
  destruct (EncodeFindCoordinatorRequest _ _); [apply find_coordinator_quiet|done|done].
Qed.

Lemma pending_send coord req : Keeps (same_pending quiet) (sendShareHeartbeat coord req).
Proof. unfold sendShareHeartbeat, share_version. solve_keeps. by apply pending_request, quiet_api. Qed.
Lemma pending_apply assign : Keeps (same_pending quiet) (applyShareAssignment assign).
Proof. unfold applyShareAssignment. solve_keeps. Qed.
Lemma pending_accept m c r : Keeps (same_pending quiet) (accept_heartbeat m c r).
Proof. intros s. unfold accept_heartbeat, mmod. cbn [fst]. by destruct (_ >? 0). Qed.
Lemma pending_invalidate : Keeps (same_pending quiet) invalidateShareCoordinator.
Proof. unfold invalidateShareCoordinator. solve_keeps. Qed.
#[local] Hint Resolve pending_coordinator pending_send pending_apply pending_accept pending_invalidate : keeps.

Lemma pending_join_loop n m c : Keeps (same_pending quiet) (join_share_loop topics n m c).
Proof. revert m c. induction n as [|n IH]; intros m c; cbn [join_share_loop]; solve_keeps. Qed.
#[local] Hint Resolve pending_join_loop : keeps.

Lemma request_brokers_quiet api ver body : (forall c, call_api c = api -> quiet c) ->
  forall brokers e, Keeps (adds (W := W) quiet) (request_brokers brokers api ver body e).
Proof.
  intros HP brokers. induction brokers as [|b l IH]; intros e; cbn [request_brokers]; solve_keeps.
  - intros w. apply adds_RequestViaSeed. intros reply. by apply HP.
  - intros w. apply adds_Request. intros reply. by apply HP.
Qed.

Lemma pending_configs : Keeps (same_pending quiet) (applyShareGroupConfigs cfg).
Proof.
  unfold applyShareGroupConfigs. solve_keeps. apply pending_world.
  enough (Keeps (adds (W := W) quiet) (AlterGroupConfigs (s_group a) (share_group_configs cfg))) as Hk by exact Hk.
  unfold AlterGroupConfigs, adm_open, adm_version, requestAny, RequestAny, check_code, adm_open. solve_keeps.
  by apply request_brokers_quiet, quiet_api.
Qed.

Lemma pending_member_id : Keeps (same_pending quiet)
  (in_world (fun w => let '(w, id) := env_newMemberUUID w in (w, Ok id))).
Proof. apply pending_world. intros w. apply adds_same. pose proof (Hids w). by destruct (env_newMemberUUID w). Qed.
#[local] Hint Resolve pending_configs pending_member_id : keeps.

Lemma pending_join : Keeps (same_pending quiet) (join_share cfg topics).
Proof. unfold join_share, ensureShareHeartbeat. solve_keeps. Qed.
Lemma pending_reset : Keeps (same_pending quiet) reset_share.
Proof. unfold reset_share. solve_keeps. Qed.
#[local] Hint Resolve pending_join pending_reset : keeps.

Lemma pending_heartbeat fuel : Keeps (same_pending quiet) (shareHeartbeat cfg topics fuel).
Proof. induction fuel as [|f IH]; cbn [shareHeartbeat]; solve_keeps. Qed.
#[local] Hint Resolve pending_heartbeat : keeps.

Lemma pending_join_if_needed : Keeps (same_pending quiet) (join_share_if_needed cfg topics rejoin_fuel).
Proof. unfold join_share_if_needed, share_open, requireShareSupport, joinShareGroup. solve_keeps. Qed.

(** ** Fetching *)

Lemma pending_fetch b g m ps n w : Keeps (same_pending fetches) (fetchShare b g m ps n w).
Proof. unfold fetchShare, share_version. solve_keeps. by apply pending_request. Qed.
#[local] Hint Resolve pending_fetch : keeps.

Lemma pending_fetch_or_retry b g m ps n w : Keeps (same_pending fetches) (fetch_or_retry topics b g m ps n w).
Proof. unfold fetch_or_retry, resetShareSession. solve_keeps. Qed.
#[local] Hint Resolve pending_fetch_or_retry : keeps.

Lemma pending_fetch_brokers bs g m w out : Keeps (same_pending fetches) (fetch_brokers cfg topics bs g m w out).
Proof. revert out. induction bs as [|[b ps] bs IH]; intros out; cbn [fetch_brokers]; solve_keeps. Qed.

(** ** Acknowledging *)

(** Sending acknowledgements leaves them alone, whatever the outcome. *)
Lemma pending_ack_broker ver g m bp : Keeps (same_pending acknowledges) (ack_broker ver g m bp).
Proof. unfold ack_broker. solve_keeps. by apply pending_request. Qed.
#[local] Hint Resolve pending_ack_broker : keeps.

(** What a successful acknowledgement leaves to accept. *)
Definition pending_after (t : ShareAckType) (records pending : list srecord) : list srecord :=
  if bool_decide (t = ShareAckRenew) || bool_decide (sc_ShareAckMode cfg <> ShareAckImplicit) || (len records =? 0)
  then pending else remove_pending records pending.

Lemma acknowledge_pending t records (s s' : share) :
  acknowledge cfg t records s = (s', Ok tt) -> s_pendingAccept s' = pending_after t records (s_pendingAccept s).
Proof.
  unfold acknowledge, pending_after. destruct (len records =? 0) eqn:El.
  { intros Ha. minv Ha. by rewrite orb_true_r. }
  unfold mthen at 1 2 3, mget, mlift, share_version, mgets.
  destruct (group_acks (share_cluster s) records ∅) as [grouped| |]; [|done|done]. unfold mthen. intros Ha.
  pose proof (keeps_for (same_pending acknowledges) _ (range (ack_plan grouped t)) (pending_ack_broker
    (negotiatedVersion (env_versions (s_world s)) APIShareAcknowledge VerShareAcknowledge) (s_group s) (s_memberID s)) s) as Hk.
  destruct (mfor _ (range (ack_plan grouped t)) s) as [s1 [[]| |]]; [|done|done]. cbn [fst] in Hk. destruct Hk as [Hk _].
  rewrite orb_false_r. case_bool_decide; cbn [orb].
  - minv Ha. by rewrite Hk.
  - unfold clearPending, mwhen in Ha. destruct (bool_decide (sc_ShareAckMode cfg = ShareAckImplicit)) eqn:Em.
    + rewrite bool_decide_false by (apply bool_decide_eq_true in Em; by intros ?). minv Ha. by rewrite <- Hk.
    + rewrite bool_decide_true by (by apply bool_decide_eq_false in Em). minv Ha. by rewrite Hk.
Qed.

Lemma share_maxPoll_pos : 0 < share_maxPoll cfg.
Proof. unfold share_maxPoll. destruct (Z.leb_spec (sc_MaxPollRecords cfg) 0); lia. Qed.

Definition round_ok (r : round_result) : Prop :=
  match r with
  | RoundReturn recs => recs = []
  | RoundFull recs | RoundMore recs => len recs <= share_maxPoll cfg
  end.

Lemma fetch_brokers_ok bs g m w out (s s' : share) r :
  len out <= share_maxPoll cfg -> fetch_brokers cfg topics bs g m w out s = (s', Ok r) -> round_ok r.
Proof.
  revert out s. induction bs as [|[b ps] bs IH]; intros out s Hout Hf; cbn [fetch_brokers] in Hf.
  - minv Hf. done.
  - apply mthen_inv in Hf as (s1 & [[recs|e]|] & _ & Hf); [| |by eapply IH].
    + destruct (Z.geb_spec (len (out ++ recs)) (share_maxPoll cfg)); [|by eapply IH; [|exact Hf]; lia].
      minv Hf. cbn [round_ok]. unfold len. rewrite length_take. pose proof share_maxPoll_pos. lia.
    + apply mthen_inv in Hf as (s2 & a & _ & Hf). destruct (env_ctx (s_world a)); minv Hf; done.
Qed.

(** The records to accept after [recs] were delivered. *)
Definition delivered_pending (recs pending : list srecord) : list srecord :=
  match sc_ShareAckMode cfg with ShareAckImplicit => recs | ShareAckExplicit => pending end.

Lemma trackDelivered_pending recs (s : share) :
  exists s', trackDelivered cfg recs s = (s', Ok tt) /\ s_pendingAccept s' = delivered_pending recs (s_pendingAccept s) /\
    s_world s' = s_world s.
Proof.
  unfold trackDelivered, delivered_pending. destruct (sc_ShareAckMode cfg); cbn; eexists; split_and!; reflexivity.
Qed.

Lemma poll_rounds_spec fuel dl byBroker g m (s s' : share) out :
  (sc_ShareAckMode cfg = ShareAckImplicit -> s_pendingAccept s = []) ->
  poll_rounds cfg topics fuel dl byBroker g m s = (s', Ok out) ->
  len out <= share_maxPoll cfg /\ s_pendingAccept s' = delivered_pending out (s_pendingAccept s) /\
  adds fetches (s_world s) (s_world s').
Proof.
  pose proof share_maxPoll_pos as Hpos.
  revert s. induction fuel as [|f IH]; intros s Hs Hp; cbn [poll_rounds] in Hp; [done|].
  assert (forall t : share, same_pending fetches s t -> len ([] : list srecord) <= share_maxPoll cfg /\
    s_pendingAccept t = delivered_pending [] (s_pendingAccept s) /\ adds fetches (s_world s) (s_world t)) as Hnone
    by (intros t [-> Hw]; split_and!; [rewrite len_nil; lia|unfold delivered_pending; destruct (sc_ShareAckMode cfg); auto|done]).
  apply mthen_inv in Hp as (s0 & now & Hn & Hp). injection Hn as <- _.
  destruct (round_wait dl now) as [waitMs|]; [|minv Hp; by apply Hnone].
  apply mthen_inv in Hp as (s1 & r & Hf & Hp).
  pose proof (fetch_brokers_ok _ _ _ _ [] _ _ _ ltac:(rewrite len_nil; lia) Hf) as Hok.
  pose proof (pending_fetch_brokers (range byBroker) g m waitMs [] s) as Hk. rewrite Hf in Hk. cbn [fst] in Hk.
  assert (forall recs, len recs <= share_maxPoll cfg -> (let! _ := trackDelivered cfg recs in mret recs) s1 = (s', Ok out) ->
    len out <= share_maxPoll cfg /\ s_pendingAccept s' = delivered_pending out (s_pendingAccept s) /\
    adds fetches (s_world s) (s_world s')) as Htrack.
  { intros recs Hl Ht. destruct (trackDelivered_pending recs s1) as (s2 & E & Hd & Hw). unfold mthen in Ht. rewrite E in Ht.
    destruct Hk as [Hk Hw1]. minv Ht. split_and!; [done|by rewrite Hd, Hk|by rewrite Hw]. }
  destruct r as [recs|recs|recs]; cbn [round_ok] in Hok; [subst recs; minv Hp; by apply Hnone|by eapply Htrack|].
  destruct (len recs >? 0); [by eapply Htrack|].
  apply mthen_inv in Hp as (s2 & e & Hw & Hp).
  pose proof (pending_wait fetches (50 * Millisecond) s1) as Hk2. rewrite Hw in Hk2. cbn [fst] in Hk2.
  assert (same_pending fetches s s2) as [Hk3 Hw3] by by etransitivity.
  destruct e as [e|]; [minv Hp; by apply Hnone|].
  apply IH in Hp as (? & Hp & ?); [|intros Hm; rewrite Hk3; auto]. split_and!; [done|by rewrite <- Hk3|by etransitivity].
Qed.

(** What a poll owes from the previous one is accepted from the state it is in. *)
Lemma accept_previous_spec (s s' : share) :
  accept_previous cfg s = (s', Ok tt) ->
  match sc_ShareAckMode cfg with
  | ShareAckExplicit => s' = s
  | ShareAckImplicit => s_pendingAccept s' = [] /\
      ((s_pendingAccept s = [] /\ calls s' = calls s) \/
       acknowledge cfg ShareAckAccept (s_pendingAccept s) (set_pending [] s) = (s', Ok tt))
  end.
Proof.
  unfold accept_previous. destruct (sc_ShareAckMode cfg) eqn:Em; cbn [bool_decide].
  { rewrite bool_decide_false by done. intros Ha. by minv Ha. }
  rewrite bool_decide_true by done. unfold mthen, mgets, mmod, mwhen.
  destruct (Z.gtb_spec (len (s_pendingAccept s)) 0) as [Hl|Hl].
  - intros Ha. pose proof (acknowledge_pending _ _ _ _ Ha) as Hp. split; [|by right].
    rewrite Hp. unfold pending_after. cbn. by destruct (_ || _).
  - intros [= <-]. split; [done|]. left. split; [|done]. apply len_zero. pose proof (len_nonneg (s_pendingAccept s)). lia.
Qed.

(** C27: A poll accounts for what it delivers.  The calls of a poll that returns
    records come in three phases: those that join the group, which neither fetch
    nor acknowledge; the acknowledgements of the records the previous poll
    returned (less the ones the caller has acknowledged since), each accepted by
    its broker; and only then the fetches.  In explicit mode nothing is
    acknowledged and the records to accept are left alone.  In implicit mode the
    second phase is a successful [acknowledge] of exactly the records to accept,
    and the records to accept next are exactly those the poll returns, at most
    [max.poll.records]. *)
Theorem share_poll_accounts fuel deadline (s s' : share) out :
  Poll cfg topics rejoin_fuel fuel deadline s = (s', Ok out) ->
  len out <= share_maxPoll cfg /\
  exists s1 s2 joining accepting fetching,
    calls s1 = calls s ++ joining /\ Forall quiet joining /\ s_pendingAccept s1 = s_pendingAccept s /\
    calls s2 = calls s1 ++ accepting /\
    Forall (fun c => call_api c = APIShareAcknowledge /\
      ack_accepted (negotiatedVersion (env_versions (s_world s1)) APIShareAcknowledge VerShareAcknowledge) c) accepting /\
    calls s' = calls s2 ++ fetching /\ Forall fetches fetching /\
    match sc_ShareAckMode cfg with
    | ShareAckExplicit => accepting = [] /\ s_pendingAccept s' = s_pendingAccept s
    | ShareAckImplicit => s_pendingAccept s' = out /\
        ((s_pendingAccept s = [] /\ accepting = []) \/
         acknowledge cfg ShareAckAccept (s_pendingAccept s) (set_pending [] s1) = (s2, Ok tt))
    end.
Proof.
  unfold Poll. intros Hp. apply mthen_inv in Hp as (s1 & [] & Hj & Hp). apply mthen_inv in Hp as (s2 & [] & Ha & Hp).
  apply mthen_inv in Hp as (s3 & s4 & Hg & Hp). injection Hg as <- <-.
  pose proof (pending_join_if_needed s) as Hk. rewrite Hj in Hk. destruct Hk as [Hk (joining & Hcj & Hq)]. cbn [fst] in *.
  apply accept_previous_spec in Ha. rewrite Hk in Ha.
  apply poll_rounds_spec in Hp as (Hl & Hd & fetching & Hcf & Hfe); [|intros Hm; by rewrite Hm in Ha; destruct Ha].
  split; [done|]. rewrite Hd. unfold delivered_pending. destruct (sc_ShareAckMode cfg).
  - subst s2. exists s1, s1, joining, [], fetching. rewrite app_nil_r. split_and!; [done|done|done|done|constructor|done|done|done|by rewrite Hk].
  - destruct Ha as [_ [[Hnil Hc]|Hack]].
    { exists s1, s2, joining, [], fetching. rewrite app_nil_r. split_and!; [done|done|done|done|constructor|done|done|done|by left]. }
    destruct (acknowledge_run _ _ _ _ _ _ Hack) as [[Hc Hr]|(grouped & l1 & l2 & new & _ & _ & Hc & Hf & Hok)].
    + exists s1, s2, joining, [], fetching. rewrite app_nil_r. split_and!; [done|done|done|done|constructor|done|done|done|by right].
    + exists s1, s2, joining, new, fetching. destruct (Hok eq_refl) as [_ Hacc].
      split_and!; [done|done|done|exact Hc| |done|done|done|by right].
      apply Forall_forall. intros c Hin. split; [|by eapply (proj1 (Forall_forall _ _)); [exact Hacc|]].
      destruct (elem_of_Forall2_r _ _ _ _ Hf Hin) as (bp & _ & _ & Hapi & _). done.
Qed.
End poll.

(** * Heartbeats *)

Section heartbeat.
Context `{Codecs} `{MapOrder} {W : Type} `{ClusterEnv W} `{ConsumerEnv W}.
Context (cfg : ShareConfig) (topics : list bytes).
Local Notation share := (ShareConsumer W).

Definition same_membership (s s' : share) : Prop :=
  s_assignments s' = s_assignments s /\ s_memberEpoch s' = s_memberEpoch s.

#[local] Instance same_membership_preorder : PreOrder same_membership.
Proof. split; [done|]. intros ? ? ? [] []. split; congruence. Qed.

#[local] Hint Extern 0 (Keeps same_membership (mmod _)) => (intros ?; split; reflexivity) : keeps.

Lemma membership_world {A} (f : W -> W * res A) : Keeps same_membership (in_world f).
Proof. intros s. unfold in_world. by destruct (f (s_world s)). Qed.
#[local] Hint Resolve membership_world : keeps.

(** A heartbeat that the coordinator accepts changes neither the member's epoch
    nor its assignment, whatever the answer says: an assignment that a
    rebalance hands to a joined member is not taken. *)
Lemma heartbeat_ignores_assignment (s : share) : same_membership s (fst (shareHeartbeat cfg topics 0 s)).
Proof.
  revert s. change (Keeps same_membership (shareHeartbeat cfg topics 0)). cbn [shareHeartbeat].
  unfold shareCoordinator, sendShareHeartbeat, share_version, share_request. solve_keeps.
Qed.
End heartbeat.
