(* ===== verification/ShareDemo.v ===== *)
(** The share consumer against brokers: the answers of a ShareFetch as a broker
    lays them out and what the client makes of them, and runs of the consumer in
    concrete environments. *)

From Stdlib Require Import ZArith Lia.
From Stdlib Require Import Strings.Byte.
From stdpp Require Import base list gmap countable strings.
From S2P Require Import Prelude.
From S2P Require Import Wire.
From S2P Require Import Header.
From S2P Require Import Compress.
From S2P Require Import CompressFacts.
From S2P Require Import RecordBatch.
From S2P Require Import RecordBatchFacts.
From S2P Require Import FetchCodec.
From S2P Require Import Kfake.
From S2P Require Import EndToEnd.
From S2P Require Import Metadata.
From S2P Require Import Retry.
From S2P Require Import Producer.
From S2P Require Import ProducerDemo.
From S2P Require Import OffsetCodec.
From S2P Require Import GroupCodec.
From S2P Require Import GoMonad.
From S2P Require Import Consumer.
From S2P Require Import ConsumerDemo.
From S2P Require Import ShareCodec.
From S2P Require Import ShareConsumer.
From S2P Require Import ShareFacts.

Open Scope Z_scope.

(** * A ShareFetch response *)

Record acquired := mkAcquired { aq_First : Z; aq_Last : Z; aq_Count : Z }.

(** A partition of the response: the error of the fetch and of the
    acknowledgements, the current leader, the batches, and the ranges that were
    acquired for this member. *)
Record share_part := mkSharePart {
  hp_Partition : Z;
  hp_Error : Z;
  hp_Message : option bytes;
  hp_AckError : Z;
  hp_AckMessage : option bytes;
  hp_LeaderId : Z;
  hp_LeaderEpoch : Z;
  hp_Records : bytes;
  hp_Acquired : list acquired }.

(** The hint where a node is reached. *)
Record node_endpoint := mkEndpoint { ne_Node : Z; ne_Host : bytes; ne_Port : Z; ne_Rack : option bytes }.

(** The head of the answer: throttle time, error and message, lock timeout. *)
Record share_head := mkShareHead { hh_Throttle : Z; hh_Error : Z; hh_Message : option bytes; hh_LockMs : Z }.

Definition write_acquired (a : acquired) : Enc :=
  WriteInt64 (aq_First a) +++ WriteInt64 (aq_Last a) +++ WriteInt16 (aq_Count a) +++ WriteEmptyTagSection.

Definition write_share_part (p : share_part) : Enc :=
  WriteInt32 (hp_Partition p) +++ WriteInt16 (hp_Error p) +++ WriteCompactNullableString (hp_Message p) +++
  WriteInt16 (hp_AckError p) +++ WriteCompactNullableString (hp_AckMessage p) +++
  WriteInt32 (hp_LeaderId p) +++ WriteInt32 (hp_LeaderEpoch p) +++ WriteEmptyTagSection +++
  WriteCompactBytes (Some (hp_Records p)) +++ WriteCompactArrayLen (len (hp_Acquired p)) +++
  enc_list write_acquired (hp_Acquired p) +++ WriteEmptyTagSection.

Definition write_share_fetch_topic (tp : bytes * list share_part) : Enc :=
  WriteUUID (fst tp) +++ WriteCompactArrayLen (len (snd tp)) +++ enc_list write_share_part (snd tp) +++
  WriteEmptyTagSection.

Definition write_endpoint (e : node_endpoint) : Enc :=
  WriteInt32 (ne_Node e) +++ WriteCompactString (ne_Host e) +++ WriteInt32 (ne_Port e) +++
  WriteCompactNullableString (ne_Rack e) +++ WriteEmptyTagSection.

Definition write_share_fetch_response (h : share_head) (topics : list (bytes * list share_part))
    (endpoints : list node_endpoint) : Enc :=
  WriteInt32 (hh_Throttle h) +++ WriteInt16 (hh_Error h) +++ WriteCompactNullableString (hh_Message h) +++
  WriteInt32 (hh_LockMs h) +++
  WriteCompactArrayLen (len topics) +++ enc_list write_share_fetch_topic topics +++
  WriteCompactArrayLen (len endpoints) +++ enc_list write_endpoint endpoints +++ WriteEmptyTagSection.

Definition wf_acquired (a : acquired) : Prop := int64 (aq_First a) /\ int64 (aq_Last a) /\ int16 (aq_Count a).

Definition wf_endpoint (e : node_endpoint) : Prop :=
  int32 (ne_Node e) /\ fits (ne_Host e) /\ int32 (ne_Port e) /\ fits (default [] (ne_Rack e)).

(** What a record is returned as: its delivery count is the one of the last
    acquired range that holds its offset, if there is one; the rest is as it
    was in the batch. *)
Definition delivery_count (acqs : list acquired) (r : FetchedRecord) : Z :=
  match last (filter (fun a => aq_First a <= fr_Offset r <= aq_Last a) acqs) with
  | Some a => aq_Count a
  | None => fr_DeliveryCount r
  end.

Definition deliver (acqs : list acquired) (r : FetchedRecord) : FetchedRecord :=
  mkFetchedRecord (fr_Topic r) (fr_Partition r) (fr_Offset r) (fr_Key r) (fr_Value r) (fr_Headers r)
    (fr_Timestamp r) (fr_Control r) (delivery_count acqs r).

(** Setting the counts range by range, as the decoder does, comes to that. *)
Lemma deliver_snoc acqs a r :
  set_delivery_count (aq_First a) (aq_Last a) (aq_Count a) (deliver acqs r) = deliver (acqs ++ [a]) r.
Proof.
  unfold set_delivery_count, deliver, delivery_count. cbn. rewrite filter_app, filter_cons, filter_nil.
  destruct (Z.geb_spec (fr_Offset r) (aq_First a)); cbn [andb];
    [destruct (Z.leb_spec (fr_Offset r) (aq_Last a))|];
    [rewrite decide_True by lia; by rewrite last_snoc|rewrite decide_False by lia; by rewrite app_nil_r..].
Qed.

Lemma deliver_all acqs recs :
  fold_left (fun rs a => map (set_delivery_count (aq_First a) (aq_Last a) (aq_Count a)) rs) acqs recs = map (deliver acqs) recs.
Proof.
  induction acqs as [|a acqs IH] using rev_ind; cbn [fold_left].
  - symmetry. rewrite <- (map_id recs) at 2. apply map_ext. by intros [].
  - rewrite fold_left_app, IH. cbn [fold_left]. rewrite map_map. apply map_ext. apply deliver_snoc.
Qed.

Lemma enc_nil_app e : enc_nil +++ e = e.
Proof. by destruct e. Qed.

Section decode.
Context `{Codecs}.

(** The records in the batches of a partition. *)
Definition batch_contents (topic : bytes) (p : share_part) : res (list FetchedRecord) :=
  if len (hp_Records p) >? 0 then decodeRecordBatch topic (hp_Partition p) (hp_Records p) [] else Ok [].

Definition contents (topic : bytes) (p : share_part) : list FetchedRecord :=
  match batch_contents topic p with Ok l => l | _ => [] end.

Definition wf_part (topic : bytes) (p : share_part) : Prop :=
  int32 (hp_Partition p) /\ hp_Error p = 0 /\ fits (default [] (hp_Message p)) /\
  int16 (hp_AckError p) /\ fits (default [] (hp_AckMessage p)) /\ int32 (hp_LeaderId p) /\ int32 (hp_LeaderEpoch p) /\
  fits (hp_Records p) /\ fits (hp_Acquired p) /\
  Forall wf_acquired (hp_Acquired p) /\ batch_contents topic p = Ok (contents topic p).

Lemma Reads_acquired a recs : wf_acquired a ->
  Reads (read_acquired recs) (write_acquired a) (map (set_delivery_count (aq_First a) (aq_Last a) (aq_Count a)) recs).
Proof. intros (? & ? & ?). unfold read_acquired, write_acquired. fields. last_field. apply Reads_ret. Qed.

Lemma Reads_share_part topic p : wf_part topic p ->
  Reads (read_share_partition topic) (write_share_part p) (map (deliver (hp_Acquired p)) (contents topic p)).
Proof.
  intros (Hp & He & Hm & Hae & Ham & Hl & Hle & Hr & Hf & Ha & Hc). unfold read_share_partition, write_share_part.
  rewrite He. fields.
  cbn [Z.eqb negb default]. rewrite <- (enc_nil_app (WriteCompactArrayLen _ +++ _)). eapply Reads_bind.
  - instantiate (1 := contents topic p). unfold batch_contents in Hc. unfold id. destruct (len (hp_Records p) >? 0).
    + rewrite Hc. intros bs [= <-] pre post. cbn. unfold lift. rewrite len_nil. f_equal. f_equal. lia.
    + injection Hc as <-. apply Reads_ret.
  - eapply Reads_bind; [apply Reads_array_len; unfold fits in Hf; pose proof (len_nonneg (hp_Acquired p)); lia|].
    rewrite Z.add_simpl_r. eapply Reads_bind.
    + eapply Reads_for; [exact Ha|]. intros recs a Hwf. by apply Reads_acquired.
    + rewrite deliver_all. last_field. apply Reads_ret.
Qed.

Section resolver.
Context (topicName : bytes -> option bytes).

Definition share_topic (tid : bytes) : bytes := default (uuid_String tid) (topicName tid).

Definition wf_topic (tp : bytes * list share_part) : Prop :=
  len (fst tp) = 16 /\ fits (snd tp) /\ Forall (wf_part (share_topic (fst tp))) (snd tp).

(** What the records of a topic are returned as. *)
Definition topic_delivery (tp : bytes * list share_part) : list FetchedRecord :=
  concat (map (fun p => map (deliver (hp_Acquired p)) (contents (share_topic (fst tp)) p)) (snd tp)).

Lemma Reads_share_topic tp : wf_topic tp ->
  Reads (read_share_fetch_topic topicName) (write_share_fetch_topic tp) (topic_delivery tp).
Proof.
  intros (Hid & Hf & Hps). unfold read_share_fetch_topic, write_share_fetch_topic, topic_delivery.
  field. eapply Reads_bind; [apply Reads_array_len; unfold fits in Hf; pose proof (len_nonneg (snd tp)); lia|].
  rewrite Z.add_simpl_r. eapply Reads_bind.
  - eapply Reads_flat; [done|exact Hps|]. intros p Hp. by apply Reads_share_part.
  - last_field. apply Reads_ret.
Qed.

Lemma Reads_endpoints es : fits es -> Forall wf_endpoint es ->
  Reads read_node_endpoints (WriteCompactArrayLen (len es) +++ enc_list write_endpoint es) tt.
Proof.
  intros Hf Hw. unfold read_node_endpoints.
  eapply Reads_bind; [apply Reads_array_len; unfold fits in Hf; pose proof (len_nonneg es); lia|].
  rewrite Z.add_simpl_r. epose proof (Reads_for _ write_endpoint (fun _ _ => tt) wf_endpoint es tt Hw) as R.
  destruct (fold_left _ _ _). apply R. intros _ e (? & ? & ? & ?). unfold write_endpoint. fields. apply Reads_empty_tags.
Qed.

(** C28: What a ShareFetch answer is decoded to.  For any answer without error
    codes that a broker lays out (any throttle time, topics, partitions, record
    batches that decode, acquired ranges and node endpoints), the client returns
    every record of the batches, in order, and gives it the delivery count of the
    last acquired range that holds its offset.  Records outside all acquired
    ranges, which are not this member's, are returned as well. *)
Theorem share_fetch_decodes h topics endpoints body :
  int32 (hh_Throttle h) -> hh_Error h = 0 -> fits (default [] (hh_Message h)) -> int32 (hh_LockMs h) ->
  fits topics -> Forall wf_topic topics -> fits endpoints -> Forall wf_endpoint endpoints ->
  write_share_fetch_response h topics endpoints = Ok body ->
  DecodeShareFetchResponse body topicName =
    Ok (mkShareFetchResponse 0 0 (hh_LockMs h) (concat (map topic_delivery topics))).
Proof.
  intros Hth He Hm Hl Hf Ht Hfe Hes Hb. eapply Reads_run; [|exact Hb].
  unfold read_share_fetch, write_share_fetch_response. rewrite He. do 4 field. cbn [Z.eqb negb].
  eapply Reads_bind; [apply Reads_array_len; unfold fits in Hf; pose proof (len_nonneg topics); lia|].
  rewrite Z.add_simpl_r. eapply Reads_bind; [eapply Reads_flat; [done|exact Ht|exact Reads_share_topic]|].
  rewrite <- enc_app_assoc. eapply Reads_bind; [by apply Reads_endpoints|]. last_field. apply Reads_ret.
Qed.
End resolver.
End decode.

(** * A broker *)

(** The world counts the metadata refreshes; requests of each API are answered
    with [reply api]. *)
Definition share_env (versions : gmap Z Z) (meta : MetadataResponse) (reply : Z -> bytes) : ClusterEnv nat := {|
  env_open _ := true;
  env_cluster _ := store_metadata meta;
  env_versions _ := Some versions;
  env_RefreshIfStale _ w := (w, Ok tt);
  env_Refresh _ w := (S w, Ok tt);
  env_Request _ api _ _ w := (w, Ok (reply api));
  env_RequestViaSeed api _ _ w := (w, Ok (reply api));
  env_TransactionCoordinator _ w := (w, Err NetError);
  env_Invalidate _ w := w;
  env_ctx _ := None;
  env_sleep _ w := (w, None);
  env_now _ _ := 1700000000000;
  env_clock _ _ _ _ := 1700000000000 |}.

Definition share_versions : gmap Z Z := list_to_map [(APIShareGroupHeartbeat, 1); (APIShareFetch, 2); (APIShareAcknowledge, 2)].

#[local] Existing Instance stored_codecs.

(** The batch with offsets 0, 1 and 2, as the in-process broker stores it. *)
Definition three_batch : bytes :=
  match bk_topics (kw_broker loaded) !! str "t" with
  | Some t => concat (concat (map pl_batches (ts_partitions t)))
  | None => []
  end.

Definition share_reply (error : Z) (acqs : list acquired) : bytes :=
  bytes_of (write_share_fetch_response (mkShareHead 0 0 None 30000)
    [(topic_uuid 1, [mkSharePart 0 error None 0 None (-1) (-1) three_batch acqs])] []).

(** ShareAcknowledge v2 without errors. *)
Definition ack_reply : bytes :=
  bytes_of (WriteInt32 0 +++ WriteInt16 0 +++ WriteCompactNullableString None +++ WriteInt32 30000 +++
    WriteCompactArrayLen 0 +++ WriteCompactArrayLen 0 +++ WriteEmptyTagSection).

Definition broker_reply (fetch : bytes) (api : Z) : bytes := if api =? APIShareFetch then fetch else ack_reply.

Definition share_cfg (mode : ShareAckMode) : ShareConfig := mkShareConfig (str "g") 500 mode [] false false.

Definition share_member {W} (w : W) (pending : list srecord) : ShareConsumer W :=
  mkShareConsumer w (str "g") (str "m") 1 (Some 1) [mkShareAssignment (str "t") 0 (topic_uuid 1) 1] {[1 := 1]} true 0 pending.

(** The offset and the delivery count of what a poll returned. *)
Definition deliveries (r : res (list srecord)) : res (list (Z * Z)) :=
  res_map (map (fun s => (sr_Offset s, sr_DeliveryCount s))) r.

Section unacquired.
#[local] Instance one_acquired_env : ClusterEnv nat :=
  share_env share_versions (one_partition 1) (broker_reply (share_reply 0 [mkAcquired 1 1 1])).

(** A share consumer is handed records that it has not acquired.  A broker
    answers with the whole batch of offsets 0 to 2 and says that it has acquired
    offset 1 for this member (the others are another member's, or already
    acknowledged).  The poll returns all three records, offsets 0 and 2 with
    delivery count 0, and in implicit mode the next poll accepts them all. *)
Theorem unacquired_delivered :
  let '(s, r) := Poll (share_cfg ShareAckImplicit) [str "t"] 3 3 None (share_member 0%nat []) in
  deliveries r = Ok [(0, 0); (1, 1); (2, 0)] /\
  map sr_Offset (s_pendingAccept s) = [0; 1; 2].
Proof. vm_compute. split; reflexivity. Qed.
End unacquired.

Section moved_leader.
#[local] Instance moved_env : ClusterEnv nat :=
  share_env share_versions (one_partition 1) (broker_reply (share_reply 6 [])).

Definition poll_moved : M (ShareConsumer nat) (list srecord) := Poll (share_cfg ShareAckExplicit) [str "t"] 3 3 None.

Lemma poll_moved_stuck : poll_moved (share_member 0%nat []) =
  (share_member 0%nat [], Err (FmtError "protocol: share fetch partition error" 6)).
Proof. vm_compute. reflexivity. Qed.

(** A moved leader stops a share consumer.  [Poll] means to refresh the
    metadata on NOT_LEADER_OR_FOLLOWER, but the decoder reports the error code of
    a partition as text that [APIErrorCode] does not recognise.  When the broker
    a consumer fetches from answers that it no longer leads the partition, every
    poll returns that error; the metadata is not refreshed once and the
    assignment keeps the old leader. *)
Theorem moved_leader_stops_share n :
  let s := Nat.iter n (fun s => fst (poll_moved s)) (share_member 0%nat []) in
  snd (poll_moved s) = Err (FmtError "protocol: share fetch partition error" 6) /\
  s_world s = 0%nat /\ map sa_leader (s_assignments s) = [1].
Proof.
  cbv zeta. assert (Nat.iter n (fun s => fst (poll_moved s)) (share_member 0%nat []) = share_member 0%nat []) as ->.
  { induction n as [|n IH]; [done|]. cbn [Nat.iter nat_rect]. unfold Nat.iter in IH. rewrite IH. by rewrite poll_moved_stuck. }
  by rewrite poll_moved_stuck.
Qed.
End moved_leader.

(** * Witnesses *)

Definition is_ok {A} (r : res A) : bool := match r with Ok _ => true | _ => false end.

(** The world of the witnesses keeps its calls. *)
#[local] Instance all_acquired_env : ClusterEnv nat :=
  share_env share_versions (one_partition 1) (broker_reply (share_reply 0 [mkAcquired 0 2 1])).
Definition traced_env : ClusterEnv (nat * list call) := recorded.

Definition pending_one : list srecord := [mkSRecord (mkCRecord (str "t") 0 7 [] [] [] 0) 1].

Definition traced_poll : M (ShareConsumer (nat * list call)) (list srecord) :=
  Poll (H1 := traced_env) (share_cfg ShareAckImplicit) [str "t"] 3 3 None.

Lemma share_poll_accounts_witness :
  let s := share_member (0%nat, []) pending_one in
  exists s' out s1 s2, traced_poll s = (s', Ok out) /\ s_pendingAccept s' = out /\ map sr_Offset out = [0; 1; 2] /\
    map call_api (snd (s_world s')) = [APIShareAcknowledge; APIShareFetch] /\
    acknowledge (H1 := traced_env) (share_cfg ShareAckImplicit) ShareAckAccept pending_one (set_pending [] s1) = (s2, Ok tt) /\
    length (snd (s_world s2)) = 1%nat.
Proof.
  cbv zeta. set (s := share_member (0%nat, []) pending_one).
  assert (res_map (map sr_Offset) (snd (traced_poll s)) = Ok [0; 1; 2] /\
    map call_api (snd (s_world (fst (traced_poll s)))) = [APIShareAcknowledge; APIShareFetch]) as [Hout Hcalls]
    by (vm_compute; done).
  destruct (traced_poll s) as [s' [out| |]] eqn:E; [|discriminate Hout..]. cbn [fst snd res_map] in Hout, Hcalls.
  destruct (share_poll_accounts (TracedEnv0 := recorded_traced) (share_cfg ShareAckImplicit) [str "t"] 3 ltac:(done) _ _ _ _ _ E)
    as (_ & s1 & s2 & joining & accepting & fetching & H1 & Hj & _ & H2 & Ha & H3 & Hf & Hp & Hacc).
  destruct Hacc as [[Hx _]|Hacc]; [discriminate Hx|].
  exists s', out, s1, s2. split_and!; [done|done|by injection Hout|done|exact Hacc|].
  cbn [env_calls recorded_traced] in H1, H2, H3. change (snd (s_world s)) with (@nil call) in H1. rewrite app_nil_l in H1.
  rewrite H3, H2, H1 in Hcalls. rewrite H2, H1.
  destruct joining as [|c joining]; [|injection Hcalls as Hc _; apply Forall_cons in Hj as [[_ Hj] _]; by destruct Hj].
  destruct accepting as [|c accepting].
  { cbn [app] in Hcalls. destruct fetching; [discriminate Hcalls|]. injection Hcalls as Hc _. apply Forall_cons in Hf as [Hf _].
    rewrite Hf in Hc. discriminate Hc. }
  destruct accepting as [|c2 accepting]; [done|]. injection Hcalls as _ Hc _.
  apply Forall_cons in Ha as [_ Ha]. apply Forall_cons in Ha as [[Ha _] _]. rewrite Ha in Hc. discriminate Hc.
Defined.

Lemma acknowledge_exact_witness :
  let s := share_member (0%nat, []) pending_one in
  exists s' sent, Reject (H1 := traced_env) (share_cfg ShareAckExplicit) pending_one s = (s', Ok tt) /\
    snd (s_world s') = sent /\ map call_node sent = [1] /\
    tells 2 sent 1 (topic_uuid 1) 0 7 [3] /\ ~ tells 2 sent 1 (topic_uuid 1) 0 8 [3] /\ ~ tells 2 sent 1 (topic_uuid 1) 0 7 [1].
Proof.
  cbv zeta. set (s := share_member (0%nat, []) pending_one).
  assert (is_ok (snd (Reject (H1 := traced_env) (share_cfg ShareAckExplicit) pending_one s)) = true /\
    map call_node (snd (s_world (fst (Reject (H1 := traced_env) (share_cfg ShareAckExplicit) pending_one s)))) = [1]) as [Hok Hn]
    by (vm_compute; done).
  destruct (Reject _ pending_one s) as [s' [[]| |]] eqn:E; [|discriminate Hok..].
  destruct (acknowledge_exact (TracedEnv0 := recorded_traced) (share_cfg ShareAckExplicit) (Reject (H1 := traced_env) (share_cfg ShareAckExplicit)) ShareAckReject
    pending_one s s' (Ok tt)) as (new & Hc & _ & _ & Hsound & Hcomplete).
  - right. right. left.
  - exact E.
  - reflexivity.
  - apply Forall_cons; split; [|constructor]. unfold wf_ack_record, int64, int32. cbn -[TopicIDByName].
    split_and!; [lia..|]. intros id Hid. vm_compute in Hid. injection Hid as <-. reflexivity.
  - reflexivity.
  - reflexivity.
  - reflexivity.
  - change (negotiatedVersion _ _ _) with 2 in Hsound, Hcomplete. cbn [env_calls recorded_traced] in Hc.
    change (snd (s_world s)) with (@nil call) in Hc. rewrite app_nil_l in Hc. exists s', new.
    split_and!; [done|done|by rewrite <- Hc| | |].
    + destruct (Hcomplete eq_refl) as [_ Hall]. destruct (Hall _ ltac:(left)) as (node & id & [Hid Hnode] & Ht).
      vm_compute in Hid, Hnode. injection Hid as <-. injection Hnode as <-. exact Ht.
    + intros (_ & r & Hr & _ & _ & Ho)%Hsound. apply list_elem_of_singleton in Hr as ->. discriminate Ho.
    + intros ([=] & _)%Hsound.
Defined.

Lemma share_fetch_decodes_witness :
  exists body recs,
    write_share_fetch_response (mkShareHead 5 0 (Some (str "ok")) 30000)
      [(topic_uuid 1, [mkSharePart 0 0 None 0 None 1 3 three_batch [mkAcquired 1 2 1; mkAcquired 1 1 4]])]
      [mkEndpoint 1 (str "h") 9092 None] = Ok body /\
    DecodeShareFetchResponse body (fun _ => Some (str "t")) = Ok (mkShareFetchResponse 0 0 30000 recs) /\
    map (fun r => (fr_Offset r, fr_DeliveryCount r)) recs = [(0, 0); (1, 4); (2, 1)].
Proof.
  set (h := mkShareHead 5 0 (Some (str "ok")) 30000). set (es := [mkEndpoint 1 (str "h") 9092 None]).
  set (tp := (topic_uuid 1, [mkSharePart 0 0 None 0 None 1 3 three_batch [mkAcquired 1 2 1; mkAcquired 1 1 4]])).
  assert (is_ok (write_share_fetch_response h [tp] es) = true) as Hok by (vm_compute; reflexivity).
  destruct (write_share_fetch_response h [tp] es) as [body| |] eqn:E; [|discriminate Hok..].
  exists body, (concat (map (topic_delivery (fun _ => Some (str "t"))) [tp])).
  split; [done|]. split; [|vm_compute; reflexivity].
  apply (share_fetch_decodes (fun _ => Some (str "t")) h [tp] es body); [unfold int32; cbn; lia|done|reflexivity|unfold int32; cbn; lia|reflexivity| |reflexivity| |exact E].
  - apply Forall_cons; split; [|constructor]. split; [reflexivity|]. split; [reflexivity|].
    apply Forall_cons; split; [|constructor].
    split_and!; [unfold int32; cbn; lia|done|reflexivity|unfold int16; cbn; lia|reflexivity|unfold int32; cbn; lia..|reflexivity|reflexivity| |vm_compute; reflexivity].
    repeat (apply Forall_cons; split; [unfold wf_acquired, int64, int16; cbn; lia|]). constructor.
  - apply Forall_cons; split; [|constructor]. unfold wf_endpoint, int32. cbn. split_and!; [lia|lia|reflexivity|lia|lia|reflexivity].
Defined.
