(* ===== verification/SchemaWire.v ===== *)
(** Payloads of the schema registry: the Confluent framing of
    [internal/schema/wire/confluent.go] (and its twin in [schema/registry.go])
    and the Avro codec of [internal/avro/codec.go], with their theorems.

    A Go value of type [any] is an [any]; floating-point numbers are their bit
    patterns, and the numeric conversions of the language that involve them are
    the class [FloatConv].  [encoding/json] is the class [JsonEnv]. *)

From Stdlib Require Import ZArith Lia.
From Stdlib Require Import Strings.Byte.
From stdpp Require Import base list gmap countable strings.
From S2P Require Import Prelude.
From S2P Require Import Wire.

Open Scope Z_scope.

(** * Framing *)

Definition FormatConfluent : Z := 0.

Record Header := mkHeader { h_Magic : byte; h_SchemaID : Z }.

Definition EncodeHeaderID (schemaID : Z) : bytes := z2b FormatConfluent :: be_bytes 4 schemaID.

Definition EncodeConfluent (schemaID : Z) (payload : bytes) : bytes := EncodeHeaderID schemaID ++ payload.

Definition DecodeHeaderID (v : bytes) : res Z :=
  if len v <? 5 then Err ErrShortBuffer else
  let? m := index v 0 in
  if negb (b2z m =? FormatConfluent) then Err ErrShortBuffer else
  let? s := slice v 1 5 in
  Ok (s32 (be_value s)).

Definition DecodeConfluent (b : bytes) : res (Header * bytes) :=
  if len b <? 5 then Err ErrShortBuffer else
  let? m := index b 0 in
  if negb (b2z m =? FormatConfluent) then Err ErrShortBuffer else
  let? s := slice b 1 5 in
  let? payload := slice b 5 (len b) in
  Ok (mkHeader m (s32 (be_value s)), payload).

(** The list of Protobuf message indexes. *)
Definition encodeMessageIndexes (indexes : list Z) : Enc :=
  if bool_decide (indexes = [0]) then raw [x00]
  else WriteVarint (len indexes) +++ enc_list WriteVarint indexes.

(** [make([]int, 0, n)] panics for a negative capacity. *)
Definition decodeMessageIndexes : Rd (list Z) :=
  n <- ReadVarint ;;
  if n =? 0 then ret [0] else
  if n <? 0 then panic else
  rd_list n ReadVarint.

Definition EncodeProtobuf (schemaID : Z) (indexes : list Z) (payload : bytes) : Enc :=
  raw (EncodeHeaderID schemaID) +++ encodeMessageIndexes indexes +++ raw payload.

Definition DecodeProtobuf (b : bytes) : res (Header * list Z * bytes) :=
  let? hr := DecodeConfluent b in
  let '(h, rest) := hr in
  let '(buf, r) := decodeMessageIndexes (FromBytes rest) in
  let? indexes := r in
  let? payload := slice rest (bufI buf) (len rest) in
  Ok (h, indexes, payload).

(** [EncodeWire] and [DecodeWire] of the registry, whose ids are Go [int]s. *)
Definition EncodeWire (schemaID : Z) (payload : bytes) : bytes := z2b 0 :: be_bytes 4 schemaID ++ payload.

Definition DecodeWire (b : bytes) : res (Z * bytes) :=
  if len b <? 5 then Err (FmtError "schema: wire format too short" 0) else
  let? m := index b 0 in
  if negb (b2z m =? 0) then Err (FmtError "schema: unknown magic byte" 0) else
  let? s := slice b 1 5 in
  let? payload := slice b 5 (len b) in
  Ok (be_value s, payload).

(** * Values *)

(** The dynamic types that the codec distinguishes; [AOther] is any other. *)
Inductive any :=
| ANil
| ABool (b : bool)
| AInt (i : Z)
| AInt32 (i : Z)
| AInt64 (i : Z)
| AFloat32 (bits : Z)
| AFloat64 (bits : Z)
| AString (s : bytes)
| ABytes (s : bytes)
| AOther (tag : nat).

#[export] Instance any_eq_decision : EqDecision any.
Proof. solve_decision. Defined.

(** Conversions between numeric types, on bit patterns. *)
Class FloatConv := {
  float64_int32 : Z -> Z;
  float64_int64 : Z -> Z;
  float64_float32 : Z -> Z;
  float32_float64 : Z -> Z;
  int_float32 : Z -> Z;
  int_float64 : Z -> Z;
}.

(** * Schemas *)

Record Field := mkField { f_Name : bytes; f_Type : bytes }.

Record Schema := mkSchema { s_Name : bytes; s_Fields : list Field }.

Definition no_schema : Schema := mkSchema [] [].

(** The struct that [ParseRecordSchema] unmarshals into, and the JSON codec on
    values. *)
Record rawSchema := mkRawSchema { raw_Type : bytes; raw_Name : bytes; raw_Fields : list (bytes * bytes) }.

Class JsonEnv := {
  unmarshal_schema : bytes -> res rawSchema;
  json_marshal : any -> res bytes;
  json_unmarshal : bytes -> res any;
}.

Section avro.
Context `{FloatConv} `{JsonEnv}.

Definition ParseRecordSchema (json : bytes) : res Schema :=
  let? raw := unmarshal_schema json in
  if negb (bool_decide (raw_Type raw = str "record")) then Err (FmtError "avro: expected record schema" 0) else
  Ok (mkSchema (raw_Name raw)
    (map (fun f => mkField (fst f) (if bool_decide (snd f = []) then str "string" else snd f)) (raw_Fields raw))).

Definition toInt32 (v : any) : res Z :=
  match v with
  | AInt x => Ok (s32 x)
  | AInt32 x => Ok x
  | AInt64 x => Ok (s32 x)
  | AFloat64 x => Ok (float64_int32 x)
  | _ => Err (FmtError "cannot convert to int" 0)
  end.

Definition toInt64 (v : any) : res Z :=
  match v with
  | AInt x => Ok x
  | AInt32 x => Ok x
  | AInt64 x => Ok x
  | AFloat64 x => Ok (float64_int64 x)
  | _ => Err (FmtError "cannot convert to long" 0)
  end.

Definition toFloat32 (v : any) : res Z :=
  match v with
  | AFloat32 x => Ok x
  | AFloat64 x => Ok (float64_float32 x)
  | AInt x => Ok (int_float32 x)
  | _ => Err (FmtError "cannot convert to float" 0)
  end.

Definition toFloat64 (v : any) : res Z :=
  match v with
  | AFloat64 x => Ok x
  | AFloat32 x => Ok (float32_float64 x)
  | AInt x => Ok (int_float64 x)
  | _ => Err (FmtError "cannot convert to double" 0)
  end.

(** [binary.LittleEndian.PutUint32] and [PutUint64] into a fresh array. *)
Definition le_write (n : nat) (v : Z) : bytes := rev (be_bytes n v).

Definition encodeValue (typ : bytes) (v : any) : Enc :=
  if bool_decide (typ = str "null") then enc_nil
  else if bool_decide (typ = str "boolean") then
    match v with ABool b => if b then WriteInt8 1 else WriteInt8 0 | _ => Err (FmtError "expected bool" 0) end
  else if bool_decide (typ = str "int") then let? i := toInt32 v in WriteVarint i
  else if bool_decide (typ = str "long") then let? i := toInt64 v in WriteVarint i
  else if bool_decide (typ = str "float") then let? f := toFloat32 v in raw (le_write 4 f)
  else if bool_decide (typ = str "double") then let? f := toFloat64 v in raw (le_write 8 f)
  else if bool_decide (typ = str "string") then
    match v with AString s => WriteVarint (len s) +++ raw s | _ => Err (FmtError "expected string" 0) end
  else if bool_decide (typ = str "bytes") then
    match v with ABytes b => WriteVarint (len b) +++ raw b | _ => Err (FmtError "expected []byte" 0) end
  else Err (FmtError "unsupported type" 0).

(** [n < 0 || buf.I+n > len(buf.B)] before the slice. *)
Definition read_n (n : Z) : Rd bytes := if n <? 0 then fail ErrShortBuffer else rd_take n.

Definition readFixed (n : Z) : Rd bytes := rd_take n.

Definition decodeValue (typ : bytes) : Rd any :=
  if bool_decide (typ = str "null") then ret ANil
  else if bool_decide (typ = str "boolean") then b <- ReadInt8 ;; ret (ABool (negb (b =? 0)))
  else if bool_decide (typ = str "int") then v <- ReadVarint ;; ret (AInt v)
  else if bool_decide (typ = str "long") then v <- ReadVarint ;; ret (AInt64 v)
  else if bool_decide (typ = str "float") then b <- readFixed 4 ;; ret (AFloat32 (be_value (rev b)))
  else if bool_decide (typ = str "double") then b <- readFixed 8 ;; ret (AFloat64 (be_value (rev b)))
  else if bool_decide (typ = str "string") then n <- ReadVarint ;; s <- read_n n ;; ret (AString s)
  else if bool_decide (typ = str "bytes") then n <- ReadVarint ;; s <- read_n n ;; ret (ABytes s)
  else fail (FmtError "unsupported type" 0).

Definition fieldError : error := FmtError "avro: field" 0.

(** [fmt.Errorf("avro: field %q: %w", f.Name, err)] *)
Definition wrap_enc (e : Enc) : Enc := match e with Err _ => Err fieldError | _ => e end.

Definition wrap_field {A} (m : Rd A) : Rd A := fun b =>
  match m b with
  | (b', Err _) => (b', Err fieldError)
  | r => r
  end.

Definition encode_field (values : gmap bytes any) (f : Field) : Enc :=
  match values !! f_Name f with
  | None => Err (FmtError "avro: missing field" 0)
  | Some v => wrap_enc (encodeValue (f_Type f) v)
  end.

Definition EncodeRecord (s : Schema) (values : gmap bytes any) : Enc := enc_list (encode_field values) (s_Fields s).

Fixpoint decode_fields (fields : list Field) (out : gmap bytes any) : Rd (gmap bytes any) :=
  match fields with
  | [] => ret out
  | f :: rest => v <- wrap_field (decodeValue (f_Type f)) ;; decode_fields rest (<[f_Name f := v]> out)
  end.

Definition DecodeRecord (s : Schema) (data : bytes) : res (gmap bytes any) := run (decode_fields (s_Fields s) ∅) data.
End avro.

(** * Framing: theorems *)

Lemma confluent_decode id payload : int32 id ->
  DecodeConfluent (EncodeConfluent id payload) = Ok (mkHeader x00 id, payload) /\ DecodeHeaderID (EncodeHeaderID id) = Ok id.
Proof.
  intros Hid. unfold EncodeConfluent, EncodeHeaderID. change (z2b FormatConfluent) with x00.
  assert (Hs : s32 (be_value (be_bytes 4 id)) = id).
  { rewrite be_value_be_bytes. unfold s32. rewrite sgn_mod by lia. by apply s32_id. }
  assert (Hl : len (be_bytes 4 id) = 4) by apply len_be_bytes.
  assert (Hsl : forall p, slice (x00 :: be_bytes 4 id ++ p) 1 5 = Ok (be_bytes 4 id)).
  { intros p. pose proof (slice_app [x00] (be_bytes 4 id) p) as Hs1. rewrite Hl in Hs1. exact Hs1. }
  split.
  - unfold DecodeConfluent. cbn [app]. rewrite len_cons, len_app, Hl. pose proof (len_nonneg payload).
    destruct (Z.ltb_spec (1 + (4 + len payload)) 5); [lia|].
    change (index (x00 :: be_bytes 4 id ++ payload) 0) with (Ok x00). cbn [res_bind].
    change (negb (b2z x00 =? FormatConfluent)) with false. cbv iota. rewrite Hsl. cbn [res_bind].
    pose proof (slice_app (x00 :: be_bytes 4 id) payload []) as Hs2. rewrite app_nil_r, len_cons, Hl in Hs2.
    cbn [app] in Hs2. replace (1 + (4 + len payload)) with (1 + 4 + len payload) by lia. change 5 with (1 + 4). rewrite Hs2. cbn [res_bind].
    by rewrite Hs.
  - unfold DecodeHeaderID. pose proof (Hsl []) as Hs1. rewrite app_nil_r in Hs1. rewrite len_cons, Hl.
    change (1 + 4 <? 5) with false. cbv iota. change (index (x00 :: be_bytes 4 id) 0) with (Ok x00). cbn [res_bind].
    change (negb (b2z x00 =? FormatConfluent)) with false. cbv iota. rewrite Hs1. cbn [res_bind]. by rewrite Hs.
Qed.

(** The indexes that are written, and read back. *)
Definition wf_indexes (indexes : list Z) : Prop := 0 < len indexes < 2 ^ 28 /\ Forall varint29 indexes.

Lemma Reads_indexes indexes : wf_indexes indexes -> Reads decodeMessageIndexes (encodeMessageIndexes indexes) indexes.
Proof.
  intros [Hl Hv]. unfold encodeMessageIndexes. destruct (bool_decide (indexes = [0])) eqn:E.
  - apply bool_decide_eq_true in E as ->. intros bs [= <-].
    assert (reads ReadVarint [x00] 0) as Hr by (apply (Reads_varint 0 ltac:(unfold varint29; lia)); reflexivity).
    intros pre post. unfold decodeMessageIndexes, rbind. rewrite Hr. done.
  - eapply Reads_bind; [apply Reads_varint; unfold varint29; lia|].
    destruct (Z.eqb_spec (len indexes) 0); [lia|]. destruct (Z.ltb_spec (len indexes) 0); [lia|].
    by eapply (Reads_list _ _ varint29); [..|apply Reads_varint].
Qed.

Lemma enc_varint_total indexes : exists bs, encodeMessageIndexes indexes = Ok bs.
Proof.
  unfold encodeMessageIndexes. destruct (bool_decide _); [eauto|].
  assert (exists bs, enc_list WriteVarint indexes = Ok bs) as [bs ->].
  { induction indexes as [|i l [bs IH]]; [by eexists|]. rewrite enc_list_cons, IH. by eexists. }
  by eexists.
Qed.

(** Confluent framing round trip.  For every schema id, every non-empty list
    of message indexes within the range of the varint reader and every payload,
    the Protobuf framing is written and decodes to the same id, indexes and
    payload; so do the plain framing and the id in a record header. *)
Theorem confluent_roundtrip id indexes payload : int32 id -> wf_indexes indexes ->
  (exists bs, EncodeProtobuf id indexes payload = Ok bs /\ DecodeProtobuf bs = Ok (mkHeader x00 id, indexes, payload)) /\
  DecodeConfluent (EncodeConfluent id payload) = Ok (mkHeader x00 id, payload) /\ DecodeHeaderID (EncodeHeaderID id) = Ok id.
Proof.
  intros Hid Hix. split; [|by apply confluent_decode]. destruct (enc_varint_total indexes) as [ib Hib].
  exists (EncodeConfluent id (ib ++ payload)). unfold EncodeProtobuf. rewrite Hib. split; [done|].
  unfold DecodeProtobuf. rewrite (proj1 (confluent_decode id (ib ++ payload) Hid)). cbn [res_bind].
  pose proof (Reads_indexes indexes Hix ib Hib [] payload) as Hr. cbn [app] in Hr. change (len []) with 0 in Hr.
  unfold FromBytes. rewrite Hr. cbn [res_bind bufI]. rewrite Z.add_0_l.
  pose proof (slice_app ib payload []) as Hs. rewrite app_nil_r in Hs. rewrite len_app, Hs. done.
Qed.

Lemma confluent_roundtrip_witness : exists bs, EncodeProtobuf 7 [1; 0] (str "msg") = Ok bs /\ DecodeProtobuf bs = Ok (mkHeader x00 7, [1; 0], str "msg").
Proof.
  apply (confluent_roundtrip 7 [1; 0] (str "msg")); [unfold int32; lia|].
  split; [vm_compute; split; reflexivity|]. repeat constructor; unfold varint29; lia.
Defined.

(** ** Malformed frames *)

Lemma DecodeConfluent_safe b : DecodeConfluent b <> Panic.
Proof.
  unfold DecodeConfluent. destruct (Z.ltb_spec (len b) 5); [done|]. destruct b as [|m b]; [done|].
  change (index (m :: b) 0) with (Ok m). cbn [res_bind].
  destruct (negb _); [done|]. rewrite !slice_ok by lia. done.
Qed.

(** A negative number of message indexes. *)
Theorem protobuf_negative_count id n rest : int32 id -> - 2 ^ 28 <= n < 0 ->
  exists count, WriteVarint n = Ok count /\ DecodeProtobuf (EncodeConfluent id (count ++ rest)) = Panic.
Proof.
  intros Hid Hn. eexists. split; [reflexivity|]. unfold DecodeProtobuf. rewrite (proj1 (confluent_decode id _ Hid)). cbn [res_bind].
  pose proof (Reads_varint n ltac:(unfold varint29; lia) _ eq_refl [] rest) as Hr. cbn [app] in Hr. change (len []) with 0 in Hr.
  unfold decodeMessageIndexes, rbind, FromBytes. rewrite Hr. destruct (Z.eqb_spec n 0); [lia|]. destruct (Z.ltb_spec n 0); [done|lia].
Qed.

Lemma protobuf_negative_count_witness : exists count, WriteVarint (-1) = Ok count /\ DecodeProtobuf (EncodeConfluent 1 (count ++ [])) = Panic.
Proof. apply protobuf_negative_count; [unfold int32; lia|lia]. Defined.

(** * Avro: theorems *)

Section avro_facts.
Context `{FloatConv} `{JsonEnv}.

(** What a value of a field's type is read back as. *)
Definition decoded (typ : bytes) (v : any) : any :=
  if bool_decide (typ = str "null") then ANil
  else if bool_decide (typ = str "int") then match toInt32 v with Ok i => AInt i | _ => v end
  else if bool_decide (typ = str "long") then match toInt64 v with Ok i => AInt64 i | _ => v end
  else if bool_decide (typ = str "float") then match toFloat32 v with Ok f => AFloat32 f | _ => v end
  else if bool_decide (typ = str "double") then match toFloat64 v with Ok f => AFloat64 f | _ => v end
  else v.

(** The values whose encoding can be read: integers of 29 bits after zig-zag,
    strings shorter than that, floats of their width. *)
Definition field_fits (typ : bytes) (v : any) : Prop :=
  match decoded typ v with
  | AInt i => typ = str "int" -> varint29 i
  | AInt64 i => typ = str "long" -> varint29 i
  | AFloat32 b => 0 <= b < 2 ^ 32
  | AFloat64 b => 0 <= b < 2 ^ 64
  | AString s | ABytes s => len s < 2 ^ 28
  | _ => True
  end.

Lemma le_write_value n v : 0 <= v < 2 ^ (8 * Z.of_nat n) -> be_value (rev (le_write n v)) = v.
Proof. intros Hv. unfold le_write. rewrite rev_involutive, be_value_be_bytes. by apply Z.mod_small. Qed.

Lemma Reads_fixed {A} n (f : Z -> A) v : 0 <= v < 2 ^ (8 * Z.of_nat n) ->
  Reads (b <- rd_take (Z.of_nat n) ;; ret (f (be_value (rev b)))) (raw (le_write n v)) (f v).
Proof.
  intros Hv. eapply Reads_bind_last.
  - assert (len (le_write n v) = Z.of_nat n) as <- by (unfold le_write, len; by rewrite length_rev, length_be_bytes). apply Reads_take.
  - rewrite le_write_value by done. apply Reads_ret.
Qed.

Lemma Reads_prefixed {A} (f : bytes -> A) s : len s < 2 ^ 28 ->
  Reads (n <- ReadVarint ;; b <- read_n n ;; ret (f b)) (WriteVarint (len s) +++ raw s) (f s).
Proof.
  intros Hs. pose proof (len_nonneg s). eapply Reads_bind; [apply Reads_varint; unfold varint29; lia|].
  unfold read_n. destruct (Z.ltb_spec (len s) 0); [lia|]. eapply Reads_bind_last; [apply Reads_take|apply Reads_ret].
Qed.

(** A chain of comparisons of a type name. *)
Ltac on_types typ :=
  repeat match goal with
  | |- context [bool_decide (typ = ?s)] => destruct (decide (typ = s)) as [->|]; [|rewrite (bool_decide_eq_false_2 (typ = s)) in * by done]
  end.

Lemma Reads_value typ v : field_fits typ v -> Reads (decodeValue typ) (encodeValue typ v) (decoded typ v).
Proof.
  intros Hf bs. unfold encodeValue. unfold field_fits in Hf. revert Hf. on_types typ; [..|done].
  - intros _ [= <-]. apply reads_ret.
  - intros _ He. destruct v as [|b| | | | | | | |]; try discriminate He. revert bs He.
    change (Reads (b <- ReadInt8 ;; ret (ABool (negb (b =? 0)))) (if b then WriteInt8 1 else WriteInt8 0) (ABool b)).
    destruct b; (eapply Reads_bind_last; [apply Reads_int8; unfold int8; lia|apply Reads_ret]).
  - change (decoded (str "int") v) with (match toInt32 v with Ok i => AInt i | _ => v end). destruct (toInt32 v) as [i| |]; [|done|done].
    intros Hf He. revert bs He. cbn [res_bind]. eapply Reads_bind_last; [by apply Reads_varint, Hf|apply Reads_ret].
  - change (decoded (str "long") v) with (match toInt64 v with Ok i => AInt64 i | _ => v end). destruct (toInt64 v) as [i| |]; [|done|done].
    intros Hf He. revert bs He. cbn [res_bind]. eapply Reads_bind_last; [by apply Reads_varint, Hf|apply Reads_ret].
  - change (decoded (str "float") v) with (match toFloat32 v with Ok i => AFloat32 i | _ => v end). destruct (toFloat32 v) as [i| |]; [|done|done].
    intros Hf He. revert bs He. by apply (Reads_fixed 4 AFloat32).
  - change (decoded (str "double") v) with (match toFloat64 v with Ok i => AFloat64 i | _ => v end). destruct (toFloat64 v) as [i| |]; [|done|done].
    intros Hf He. revert bs He. by apply (Reads_fixed 8 AFloat64).
  - intros Hf He. destruct v as [| | | | | | |s| |]; try discriminate He. revert bs He. by apply (Reads_prefixed AString).
  - intros Hf He. destruct v as [| | | | | | | |s|]; try discriminate He. revert bs He. by apply (Reads_prefixed ABytes).
Qed.

Lemma Reads_wrap {A} (m : Rd A) e a : Reads m e a -> Reads (wrap_field m) (wrap_enc e) a.
Proof.
  intros Hm bs He pre post. unfold wrap_field. destruct e as [b| |]; try done. by rewrite (Hm bs He pre post).
Qed.

(** The map that a record is read back as: its fields, in the schema's order. *)
Definition read_back (s : Schema) (values : gmap bytes any) : gmap bytes any :=
  fold_left (fun m f => <[f_Name f := decoded (f_Type f) (default ANil (values !! f_Name f))]> m) (s_Fields s) ∅.

Definition record_fits (s : Schema) (values : gmap bytes any) : Prop :=
  Forall (fun f => forall v, values !! f_Name f = Some v -> field_fits (f_Type f) v) (s_Fields s).

Lemma Reads_fields fields values out :
  Forall (fun f => forall v, values !! f_Name f = Some v -> field_fits (f_Type f) v) fields ->
  Reads (decode_fields fields out) (enc_list (encode_field values) fields)
    (fold_left (fun m f => <[f_Name f := decoded (f_Type f) (default ANil (values !! f_Name f))]> m) fields out).
Proof.
  intros Hf. revert out. induction Hf as [|f fields Hf _ IH]; intros out; [apply Reads_ret|]. rewrite enc_list_cons.
  cbn [decode_fields fold_left]. unfold encode_field. destruct (values !! f_Name f) as [v|] eqn:Hv; [|by intros bs].
  eapply Reads_bind; [by apply Reads_wrap, Reads_value, Hf|]. cbn [default]. apply IH.
Qed.

(** Avro round trip.  A record that [EncodeRecord] encodes decodes under the
    same schema to the map of the schema's fields, each with the value that was
    given for it, converted to the field's type, as long as integers and lengths
    are within the range of the varint reader. *)
Theorem avro_roundtrip s values bs :
  EncodeRecord s values = Ok bs -> record_fits s values -> DecodeRecord s bs = Ok (read_back s values).
Proof. intros He Hf. eapply Reads_run; [by apply Reads_fields|exact He]. Qed.

Lemma safe_value typ : Safe (decodeValue typ).
Proof.
  unfold decodeValue, readFixed, read_n. repeat (destruct (bool_decide _); [solve_safe|]); [..|apply safe_fail].
  all: apply safe_bind; [auto with wire|intros n]; apply safe_bind; [|intros; auto with wire].
  all: destruct (Z.ltb_spec n 0); [apply safe_fail|by apply safe_take].
Qed.

Lemma safe_fields fields out : Safe (decode_fields fields out).
Proof.
  revert out. induction fields as [|f fields IH]; intros out; [apply safe_ret|]. cbn [decode_fields]. apply safe_bind; [|intros v; apply IH].
  intros b Hb. pose proof (safe_value (f_Type f) b Hb) as Hs. unfold wrap_field. destruct (decodeValue (f_Type f) b) as [b' [|e|]]; [done| |done].
  by destruct Hs as (? & ? & _).
Qed.

Lemma DecodeRecord_safe s data : DecodeRecord s data <> Panic.
Proof. apply safe_run, safe_fields. Qed.

(** A long outside the range of the varint reader. *)
Theorem avro_long_undecodable name x : int64 x -> ~ varint29 x ->
  let s := mkSchema (str "r") [mkField name (str "long")] in
  exists bs, EncodeRecord s {[name := AInt64 x]} = Ok bs /\ DecodeRecord s bs = Err fieldError.
Proof.
  intros Hx Hv s. exists (uvarint_bytes 9 (zigzag_enc x) ++ []). split.
  - unfold EncodeRecord, s. cbn [s_Fields enc_list foldr]. unfold encode_field. cbn [f_Name f_Type]. by rewrite lookup_singleton_eq.
  - destruct (zigzag_enc_bound x Hx) as [_ Hlt].
    assert (2 ^ 29 <= zigzag_enc x) as Hge by (destruct (Z.ltb_spec (zigzag_enc x) (2 ^ 29)) as [Hl|]; [by apply Hlt in Hl|done]).
    pose proof (uvarint_overflow (zigzag_enc x) [] [] Hge) as Ho.
    unfold DecodeRecord, run, s. cbn [s_Fields decode_fields]. cbn [app] in Ho. change (len []) with 0 in Ho.
    unfold rbind at 1, wrap_field. change (decodeValue (f_Type (mkField name (str "long")))) with (v <- ReadVarint ;; ret (AInt64 v)).
    unfold ReadVarint, rbind, FromBytes. destruct (ReadUvarint _) as [b' r]. cbn [snd] in Ho. by subst r.
Qed.
End avro_facts.

(** Conversions that are never reached, and a JSON codec of one schema. *)
#[local] Instance no_floats : FloatConv := {|
  float64_int32 _ := 0; float64_int64 _ := 0; float64_float32 _ := 0; float32_float64 _ := 0; int_float32 _ := 0; int_float64 _ := 0 |}.

Definition demo_schema : Schema :=
  mkSchema (str "user") [mkField (str "name") (str "string"); mkField (str "age") (str "int"); mkField (str "raw") (str "bytes")].

Definition demo_values : gmap bytes any :=
  <[str "name" := AString (str "ada")]> (<[str "age" := AInt64 36]> {[str "raw" := ABytes [x00; xff]]}).

Lemma demo_fits : record_fits demo_schema demo_values.
Proof.
  repeat constructor; cbn [f_Name f_Type]; intros v Hv; vm_compute in Hv; injection Hv as <-; vm_compute; try (intros _; split); congruence.
Qed.

Lemma avro_roundtrip_witness : exists bs, EncodeRecord demo_schema demo_values = Ok bs /\
  DecodeRecord demo_schema bs = Ok (<[str "name" := AString (str "ada")]> (<[str "age" := AInt 36]> {[str "raw" := ABytes [x00; xff]]})).
Proof.
  eexists. split; [vm_compute; reflexivity|]. rewrite (avro_roundtrip demo_schema demo_values); [|vm_compute; reflexivity|exact demo_fits].
  vm_compute. reflexivity.
Defined.

Lemma avro_long_undecodable_witness :
  exists bs, EncodeRecord (mkSchema (str "r") [mkField (str "id") (str "long")]) {[str "id" := AInt64 (2 ^ 40)]} = Ok bs /\
    DecodeRecord (mkSchema (str "r") [mkField (str "id") (str "long")]) bs = Err fieldError.
Proof. apply avro_long_undecodable; [unfold int64; lia|unfold varint29; lia]. Defined.
