(* ===== verification/Serde.v ===== *)
(** Schema-registry serialisers: [schema/serde.go], the in-memory registry of
    [schema/mock.go] and the REST client of [schema/registry.go] for the
    operations a serialiser needs.

    The registry behind a serialiser is the class [SchemaClient]; [MockRegistry]
    and [Registry] are instances.  HTTP is the class [HttpEnv]. *)

From Stdlib Require Import ZArith Lia.
From Stdlib Require Import Strings.Byte.
From stdpp Require Import base list gmap countable strings pretty.
From S2P Require Import Prelude.
From S2P Require Import Wire.
From S2P Require Import GoMonad.
From S2P Require Import SchemaWire.

Open Scope Z_scope.
Open Scope go_scope.

(** * Interface *)

Record Reference := mkReference { ref_Name : bytes; ref_Subject : bytes; ref_Version : Z }.

Class SchemaClient (E : Type) := {
  RegisterAvro : bytes -> bytes -> M E Z;
  RegisterJSON : bytes -> bytes -> M E Z;
  RegisterJSONSchema : bytes -> bytes -> M E Z;
  RegisterProtobuf : bytes -> bytes -> M E Z;
  RegisterWithReferences : bytes -> bytes -> bytes -> list Reference -> M E Z;
  SchemaByID : Z -> M E bytes;
}.

(** * The serialiser *)

Definition FormatJSON : Z := 0.
Definition FormatAvro : Z := 1.
Definition FormatProtobuf : Z := 2.
Definition FormatJSONSchema : Z := 3.

Record SerdeConfig := mkSerdeConfig {
  sc_Subject : bytes;
  sc_Format : Z;
  sc_ProtobufMessageIndexes : list Z;
  sc_References : list Reference;
  sc_ExpectedSchemaID : Z;
  sc_PinRegisteredSchemaID : bool;
  sc_AllowedSchemaIDs : list Z }.

Record Serde (E : Type) := mkSerde {
  sd_reg : E;
  sd_cfg : SerdeConfig;
  sd_avro : Schema;
  sd_schema : bytes;
  sd_id : Z }.
Arguments mkSerde {E}.
Arguments sd_reg {E}.
Arguments sd_cfg {E}.
Arguments sd_avro {E}.
Arguments sd_schema {E}.
Arguments sd_id {E}.

Definition registrySchemaType (c : SerdeConfig) : bytes :=
  if sc_Format c =? FormatAvro then str "AVRO"
  else if sc_Format c =? FormatProtobuf then str "PROTOBUF"
  else str "JSON".

Definition FormatName (c : SerdeConfig) : bytes :=
  if sc_Format c =? FormatAvro then str "AVRO"
  else if sc_Format c =? FormatProtobuf then str "PROTOBUF"
  else if sc_Format c =? FormatJSONSchema then str "JSON"
  else str "unknown".

Definition SchemaIDHeaderKey (isKey : bool) : bytes := if isKey then str "__key_schema_id" else str "__value_schema_id".

Section serde.
Context {E : Type} `{SchemaClient E} `{FloatConv} `{JsonEnv}.

Definition NewSerde (reg : E) (cfg : SerdeConfig) : Serde E :=
  let indexes := if len (sc_ProtobufMessageIndexes cfg) =? 0 then [0] else sc_ProtobufMessageIndexes cfg in
  mkSerde reg (mkSerdeConfig (sc_Subject cfg) (sc_Format cfg) indexes (sc_References cfg) (sc_ExpectedSchemaID cfg)
    (sc_PinRegisteredSchemaID cfg) (sc_AllowedSchemaIDs cfg)) no_schema [] 0.

Definition on_reg {A} (m : M E A) : M (Serde E) A := fun s =>
  let '(e, r) := m (sd_reg s) in (mkSerde e (sd_cfg s) (sd_avro s) (sd_schema s) (sd_id s), r).

Definition set_avro (a : Schema) (s : Serde E) : Serde E := mkSerde (sd_reg s) (sd_cfg s) a (sd_schema s) (sd_id s).
Definition set_registered (text : bytes) (id : Z) (s : Serde E) : Serde E := mkSerde (sd_reg s) (sd_cfg s) (sd_avro s) text id.

(** The call to the registry. *)
Definition register_schema (cfg : SerdeConfig) (text : bytes) : M E Z :=
  if len (sc_References cfg) >? 0
  then RegisterWithReferences (sc_Subject cfg) (registrySchemaType cfg) text (sc_References cfg)
  else if sc_Format cfg =? FormatAvro then RegisterAvro (sc_Subject cfg) text
  else if sc_Format cfg =? FormatProtobuf then RegisterProtobuf (sc_Subject cfg) text
  else if sc_Format cfg =? FormatJSONSchema then RegisterJSONSchema (sc_Subject cfg) text
  else RegisterJSON (sc_Subject cfg) text.

(** [s.avro, err = avro.ParseRecordSchema(schemaText)]: the field is assigned
    also when parsing fails. *)
Definition parse_into (text : bytes) : M (Serde E) unit :=
  match ParseRecordSchema text with
  | Ok a => mmod (set_avro a)
  | Err e => do! mmod (set_avro no_schema) in merr e
  | Panic => mlift Panic
  end.

Definition EnsureRegistered (text : bytes) : M (Serde E) Z :=
  let! s := mget in
  if (sd_id s >? 0) && bool_decide (sd_schema s = text) then mret (sd_id s) else
  let! id := on_reg (register_schema (sd_cfg s) text) in
  do! mwhen (sc_Format (sd_cfg s) =? FormatAvro) (parse_into text) in
  do! mmod (set_registered text id) in
  mret id.

Definition checkWireSchemaID (wireID : Z) : M (Serde E) unit :=
  let! s := mget in
  let cfg := sd_cfg s in
  if (sc_ExpectedSchemaID cfg >? 0) && negb (wireID =? sc_ExpectedSchemaID cfg)
  then merr (FmtError "schema: unexpected schema id" wireID)
  else if (len (sc_AllowedSchemaIDs cfg) >? 0) && negb (bool_decide (wireID ∈ sc_AllowedSchemaIDs cfg))
  then merr (FmtError "schema: schema id not allowed" wireID)
  else if sc_PinRegisteredSchemaID cfg && (sd_id s >? 0) && negb (wireID =? sd_id s)
  then merr (FmtError "schema: wire schema id does not match registered id" wireID)
  else mret tt.

(** The part of [EncodeAvro] after [EnsureRegistered] has released the lock. *)
Definition encode_with (id : Z) (values : gmap bytes any) : M (Serde E) bytes :=
  let! schema := mgets sd_avro in
  let! payload := mlift (EncodeRecord schema values) in
  mret (EncodeConfluent (s32 id) payload).

Definition EncodeAvro (text : bytes) (values : gmap bytes any) : M (Serde E) bytes :=
  let! id := EnsureRegistered text in encode_with id values.

(** [SchemaByID], [ParseRecordSchema] and [DecodeRecord]. *)
Definition decode_with (id : Z) (payload : bytes) : M (Serde E) (gmap bytes any) :=
  let! text := on_reg (SchemaByID id) in
  let! schema := mlift (ParseRecordSchema text) in
  mlift (DecodeRecord schema payload).

Definition DecodeAvro (data : bytes) : M (Serde E) (gmap bytes any) :=
  let! hp := mlift (DecodeConfluent data) in
  let '(h, payload) := hp in
  do! checkWireSchemaID (h_SchemaID h) in
  decode_with (h_SchemaID h) payload.

Definition EncodeAvroHeaderFramed (text : bytes) (values : gmap bytes any) : M (Serde E) (bytes * bytes) :=
  let! id := EnsureRegistered text in
  let! schema := mgets sd_avro in
  let! payload := mlift (EncodeRecord schema values) in
  mret (payload, EncodeHeaderID (s32 id)).

Definition DecodeAvroHeaderFramed (payload headerValue : bytes) : M (Serde E) (gmap bytes any) :=
  let! id := mlift (DecodeHeaderID headerValue) in
  decode_with id payload.

Definition EncodeJSON (text : bytes) (v : any) : M (Serde E) bytes :=
  let! id := EnsureRegistered text in
  let! payload := mlift (json_marshal v) in
  mret (EncodeConfluent (s32 id) payload).

Definition DecodeJSON (data : bytes) : M (Serde E) any :=
  let! hp := mlift (DecodeConfluent data) in
  mlift (json_unmarshal (snd hp)).

Definition EncodeProto (text protoPayload : bytes) : M (Serde E) bytes :=
  let! id := EnsureRegistered text in
  let! cfg := mgets sd_cfg in
  mlift (EncodeProtobuf (s32 id) (sc_ProtobufMessageIndexes cfg) protoPayload).

Definition DecodeProto (data : bytes) : M (Serde E) (list Z * bytes) :=
  let! hip := mlift (DecodeProtobuf data) in
  let '(h, indexes, payload) := hip in
  do! checkWireSchemaID (h_SchemaID h) in
  mret (indexes, payload).
End serde.

(** * The in-memory registry *)

Record MockRegistry := mkMock {
  m_nextID : Z;
  m_byID : gmap Z bytes;
  m_idOf : gmap bytes Z;
  m_versions : gmap bytes (list Z);
  m_types : gmap Z bytes }.

Definition NewMockRegistry : MockRegistry := mkMock 0 ∅ ∅ ∅ ∅.

Definition mock_key (subject schema : bytes) : bytes := subject ++ x00 :: schema.

Definition mock_register (subject schemaType schema : bytes) : M MockRegistry Z := fun m =>
  let key := mock_key subject schema in
  match m_idOf m !! key with
  | Some id => (m, Ok id)
  | None =>
      let id := m_nextID m + 1 in
      (mkMock id (<[id := schema]> (m_byID m)) (<[key := id]> (m_idOf m))
         (<[subject := default [] (m_versions m !! subject) ++ [id]]> (m_versions m)) (<[id := schemaType]> (m_types m)), Ok id)
  end.

Definition mock_SchemaByID (id : Z) : M MockRegistry bytes := fun m =>
  match m_byID m !! id with
  | Some s => (m, Ok s)
  | None => (m, Err (FmtError "schema: mock registry has no schema id" id))
  end.

Definition mock_ListVersions (subject : bytes) (m : MockRegistry) : list Z := default [] (m_versions m !! subject).

#[export] Instance mock_client : SchemaClient MockRegistry := {|
  RegisterAvro subject schema := mock_register subject (str "AVRO") schema;
  RegisterJSON subject schema := mock_register subject (str "JSON") schema;
  RegisterJSONSchema subject schema := mock_register subject (str "JSON") schema;
  RegisterProtobuf subject schema := mock_register subject (str "PROTOBUF") schema;
  RegisterWithReferences subject schemaType schema _ := mock_register subject schemaType schema;
  SchemaByID := mock_SchemaByID
|}.

(** * The REST client *)

(** [url.PathEscape]: the bytes that stay as they are in a path segment. *)
Definition unreserved (c : byte) : bool :=
  let z := b2z c in
  ((97 <=? z) && (z <=? 122)) || ((65 <=? z) && (z <=? 90)) || ((48 <=? z) && (z <=? 57)) ||
  bool_decide (c ∈ str "-_.~$&+:=@").

Definition upper_hex (n : Z) : byte := z2b (if n <? 10 then 48 + n else 55 + n).

Definition PathEscape (s : bytes) : bytes :=
  concat (map (fun c => if unreserved c then [c] else [z2b 37; upper_hex (b2z c / 16); upper_hex (b2z c mod 16)]) s).

Definition escapeSubjectPath (subject : bytes) : bytes := PathEscape subject.

Record SubjectVersion := mkSubjectVersion {
  sv_Subject : bytes;
  sv_ID : Z;
  sv_Version : Z;
  sv_Schema : bytes;
  sv_SchemaType : bytes;
  sv_References : list Reference }.

(** The network ([http_do method url auth body]: the status and the body) and
    the JSON documents of the API. *)
Class HttpEnv (E : Type) := {
  MaxHTTPBodyBytes : Z;
  http_do : bytes -> bytes -> option (bytes * bytes) -> bytes -> M E (Z * bytes);
  marshal_schema : option bytes -> bytes -> list Reference -> res bytes;
  marshal_setting : bytes -> bytes -> res bytes;
  unmarshal_response : bytes -> res (Z * bytes);
  unmarshal_version : bytes -> res SubjectVersion;
  unmarshal_strings : bytes -> res (list bytes);
  unmarshal_ints : bytes -> res (list Z);
  unmarshal_int : bytes -> res Z;
  unmarshal_compatible : bytes -> res bool;
  unmarshal_level : bytes -> res (bytes * bytes);
  unmarshal_mode : bytes -> res bytes;
}.

Record Registry (E : Type) := mkRegistry { rg_base : bytes; rg_user : bytes; rg_pass : bytes; rg_env : E }.
Arguments mkRegistry {E}.
Arguments rg_base {E}.
Arguments rg_user {E}.
Arguments rg_pass {E}.
Arguments rg_env {E}.

(** [strings.TrimRight(url, "/")] *)
Fixpoint trim_slashes (s : bytes) : bytes :=
  match s with
  | [] => []
  | c :: rest =>
      match trim_slashes rest with
      | [] => if b2z c =? 47 then [] else [c]
      | t => c :: t
      end
  end.

Definition SubjectForTopic (topic : bytes) (isKey : bool) : bytes := topic ++ if isKey then str "-key" else str "-value".
Definition SubjectForRecord (recordName : bytes) : bytes := recordName.
Definition SubjectForTopicRecord (topic recordName : bytes) : bytes := topic ++ str "-" ++ recordName.

Section registry.
Context {E : Type} `{HttpEnv E}.

Definition New (env : E) (url username password : bytes) : res (Registry E) :=
  if bool_decide (url = []) then Err (FmtError "schema: URL required" 0)
  else Ok (mkRegistry (trim_slashes url) username password env).

(** [r.client.Do] and the bounded read of the body. *)
Definition exchange (method path body : bytes) : M (Registry E) (Z * bytes) := fun r =>
  let auth := if bool_decide (rg_user r = []) then None else Some (rg_user r, rg_pass r) in
  let '(e, res) := http_do method (rg_base r ++ path) auth body (rg_env r) in
  (mkRegistry (rg_base r) (rg_user r) (rg_pass r) e,
   let? sb := res in
   let data := take (Z.to_nat (s64 (MaxHTTPBodyBytes + 1))) (snd sb) in
   if len data >? MaxHTTPBodyBytes then Err (FmtError "schema: response body exceeds limit" MaxHTTPBodyBytes)
   else Ok (fst sb, data)).

Definition do_ {A} (method path body : bytes) (out : bytes -> res A) : M (Registry E) A :=
  let! sd := exchange method path body in
  let '(status, data) := sd in
  if status >=? 300 then merr (FmtError "schema: HTTP" status) else mlift (out data).

Definition doLookup {A} (method path body : bytes) (out : bytes -> res A) : M (Registry E) (option A) :=
  let! sd := exchange method path body in
  let '(status, data) := sd in
  if status =? 404 then mret None
  else if status >=? 300 then merr (FmtError "schema: HTTP" status)
  else let! v := mlift (out data) in mret (Some v).

Definition post {A} (path : bytes) (body : res bytes) (out : bytes -> res A) : M (Registry E) A :=
  let! b := mlift body in do_ (str "POST") path b out.
Definition get {A} (path : bytes) (out : bytes -> res A) : M (Registry E) A := do_ (str "GET") path [] out.
Definition put (path : bytes) (body : res bytes) : M (Registry E) unit :=
  let! b := mlift body in do_ (str "PUT") path b (fun _ => Ok tt).
Definition del {A} (path : bytes) (out : bytes -> res A) : M (Registry E) A := do_ (str "DELETE") path [] out.

Definition register (subject schemaType schema : bytes) (refs : list Reference) : M (Registry E) Z :=
  let! resp := post (str "/subjects/" ++ escapeSubjectPath subject ++ str "/versions")
    (marshal_schema (Some schemaType) schema refs) unmarshal_response in
  mret (fst resp).

Definition registry_SchemaByID (id : Z) : M (Registry E) bytes :=
  let! resp := get (str "/schemas/ids/" ++ str (pretty id)) unmarshal_response in mret (snd resp).

Definition SchemaByGUID (guid : bytes) : M (Registry E) bytes :=
  let! resp := get (str "/schemas/guids/" ++ guid) unmarshal_response in mret (snd resp).

Definition ListSubjects : M (Registry E) (list bytes) := get (str "/subjects") unmarshal_strings.

Definition ListVersions (subject : bytes) : M (Registry E) (list Z) :=
  get (str "/subjects/" ++ escapeSubjectPath subject ++ str "/versions") unmarshal_ints.

Definition version_or_latest (version : bytes) : bytes := if bool_decide (version = []) then str "latest" else version.

Definition SchemaByVersion (subject version : bytes) : M (Registry E) SubjectVersion :=
  get (str "/subjects/" ++ escapeSubjectPath subject ++ str "/versions/" ++ PathEscape (version_or_latest version)) unmarshal_version.

(** [schemaType] is left out of the body when it is empty. *)
Definition optional (schemaType : bytes) : option bytes := if bool_decide (schemaType = []) then None else Some schemaType.

Definition IsCompatibleWithReferences (subject version schemaType schema : bytes) (refs : list Reference) : M (Registry E) bool :=
  post (str "/compatibility/subjects/" ++ escapeSubjectPath subject ++ str "/versions/" ++ PathEscape (version_or_latest version))
    (marshal_schema (optional schemaType) schema refs) unmarshal_compatible.

Definition IsCompatible (subject version schemaType schema : bytes) : M (Registry E) bool :=
  IsCompatibleWithReferences subject version schemaType schema [].

(** [/config] and [/mode], of the registry or of a subject. *)
Definition setting_path (root subject query : bytes) : bytes :=
  if bool_decide (subject = []) then root else root ++ str "/" ++ escapeSubjectPath subject ++ query.

Definition Compatibility (subject : bytes) : M (Registry E) bytes :=
  let! out := get (setting_path (str "/config") subject (str "?defaultToGlobal=true")) unmarshal_level in
  mret (if bool_decide (fst out = []) then snd out else fst out).

Definition SetCompatibility (subject level : bytes) : M (Registry E) unit :=
  put (setting_path (str "/config") subject []) (marshal_setting (str "compatibility") level).

Definition Mode (subject : bytes) : M (Registry E) bytes :=
  get (setting_path (str "/mode") subject (str "?defaultToGlobal=true")) unmarshal_mode.

Definition SetMode (subject mode : bytes) : M (Registry E) unit :=
  put (setting_path (str "/mode") subject []) (marshal_setting (str "mode") mode).

Definition IsRegisteredWithReferences (subject schemaType schema : bytes) (refs : list Reference)
    : M (Registry E) (option SubjectVersion) :=
  let! b := mlift (marshal_schema (optional schemaType) schema refs) in
  doLookup (str "POST") (str "/subjects/" ++ escapeSubjectPath subject) b unmarshal_version.

Definition IsRegistered (subject schemaType schema : bytes) : M (Registry E) (option SubjectVersion) :=
  IsRegisteredWithReferences subject schemaType schema [].

Definition permanent_query (permanent : bool) : bytes := if permanent then str "?permanent=true" else [].

Definition DeleteSubjectVersion (subject version : bytes) (permanent : bool) : M (Registry E) Z :=
  del (str "/subjects/" ++ escapeSubjectPath subject ++ str "/versions/" ++ PathEscape (version_or_latest version) ++
    permanent_query permanent) unmarshal_int.

Definition DeleteSubject (subject : bytes) (permanent : bool) : M (Registry E) (list Z) :=
  del (str "/subjects/" ++ escapeSubjectPath subject ++ permanent_query permanent) unmarshal_ints.

#[export] Instance registry_client : SchemaClient (Registry E) := {|
  RegisterAvro subject schema := register subject (str "AVRO") schema [];
  RegisterJSON subject schema := register subject (str "JSON") schema [];
  RegisterJSONSchema subject schema := register subject (str "JSON") schema [];
  RegisterProtobuf subject schema := register subject (str "PROTOBUF") schema [];
  RegisterWithReferences := register;
  SchemaByID := registry_SchemaByID
|}.
End registry.
