(* ===== verification/SerdeFacts.v ===== *)
(** Theorems on the schema serialisers: what a registry promises to a
    serialiser, the round trips proved against it, the in-memory registry that
    keeps the promise, and the paths of the REST client. *)

From Stdlib Require Import ZArith Lia.
From Stdlib Require Import Strings.Byte.
From stdpp Require Import base list gmap countable strings pretty.
From S2P Require Import Prelude.
From S2P Require Import Wire.
From S2P Require Import GoMonad.
From S2P Require Import SchemaWire.
From S2P Require Import Serde.

Open Scope Z_scope.
Open Scope go_scope.

(** * What a registry promises *)

(** [m] registers [schema]: under the id it returns the schema is known, and
    nothing that was known is lost. *)
Definition Registers {E} (inv : E -> Prop) (known : E -> Z -> bytes -> Prop) (m : M E Z) (schema : bytes) : Prop :=
  forall e e' id, inv e -> m e = (e', Ok id) ->
    inv e' /\ known e' id schema /\ 0 < id /\ forall i t, known e i t -> known e' i t.

Class SchemaClientLaws (E : Type) `{SchemaClient E} := {
  client_inv : E -> Prop;
  known : E -> Z -> bytes -> Prop;
  valid_subject : bytes -> Prop;
  registers_avro subject schema : valid_subject subject -> Registers client_inv known (RegisterAvro subject schema) schema;
  registers_refs subject ty schema refs : valid_subject subject ->
    Registers client_inv known (RegisterWithReferences subject ty schema refs) schema;
  schema_by_id e id t : client_inv e -> known e id t ->
    exists e', SchemaByID id e = (e', Ok t) /\ client_inv e' /\ forall i u, known e i u -> known e' i u;
}.

(** * Round trips against the interface *)

Section serde_facts.
Context {E : Type} `{SchemaClientLaws E} `{FloatConv} `{JsonEnv}.

(** A serialiser whose cached schema is the registered one. *)
Definition serde_inv (s : Serde E) : Prop :=
  client_inv (sd_reg s) /\ sc_Format (sd_cfg s) = FormatAvro /\ valid_subject (sc_Subject (sd_cfg s)) /\
  (0 < sd_id s -> known (sd_reg s) (sd_id s) (sd_schema s) /\ ParseRecordSchema (sd_schema s) = Ok (sd_avro s)).

Lemma register_schema_known cfg text : sc_Format cfg = FormatAvro -> valid_subject (sc_Subject cfg) ->
  Registers client_inv known (register_schema cfg text) text.
Proof.
  intros Hf Hs. unfold register_schema. destruct (_ >? 0); [by apply registers_refs|]. rewrite Hf. by apply registers_avro.
Qed.

Lemma EnsureRegistered_spec text s s' id : serde_inv s -> EnsureRegistered text s = (s', Ok id) ->
  serde_inv s' /\ sd_cfg s' = sd_cfg s /\ sd_id s' = id /\ 0 < id /\ sd_schema s' = text /\ known (sd_reg s') id text /\
  ParseRecordSchema text = Ok (sd_avro s').
Proof.
  intros (Hi & Hf & Hsub & Hc) He. unfold EnsureRegistered in He. unfold mthen at 1 in He. cbn [mget] in He.
  destruct ((sd_id s >? 0) && bool_decide (sd_schema s = text)) eqn:Hcache.
  - injection He as <- <-. apply andb_true_iff in Hcache as [Hpos Htext]. apply Z.gtb_lt in Hpos. apply bool_decide_eq_true in Htext as <-.
    destruct (Hc Hpos) as [Hk Hp]. by split_and!.
  - apply mthen_inv in He as (s1 & id1 & Hreg & He). unfold on_reg in Hreg.
    destruct (register_schema (sd_cfg s) text (sd_reg s)) as [e r] eqn:Hr. injection Hreg as <- ->.
    destruct (register_schema_known (sd_cfg s) text Hf Hsub _ _ _ Hi Hr) as (Hi' & Hk & Hpos & _).
    rewrite Hf in He. cbn [mwhen Z.eqb] in He. change (FormatAvro =? FormatAvro) with true in He. cbv iota in He.
    unfold parse_into in He. destruct (ParseRecordSchema text) as [a| |] eqn:Hp; [|done|done].
    injection He as <- <-. cbn. by split_and!.
Qed.

(** The guards of the configuration let an id pass. *)
Definition id_accepted (cfg : SerdeConfig) (id : Z) : Prop :=
  (0 < sc_ExpectedSchemaID cfg -> id = sc_ExpectedSchemaID cfg) /\ (sc_AllowedSchemaIDs cfg = [] \/ id ∈ sc_AllowedSchemaIDs cfg).

Lemma check_accepts (s : Serde E) id : id_accepted (sd_cfg s) id -> sd_id s = id -> checkWireSchemaID id s = (s, Ok tt).
Proof.
  intros [He Ha] Hid. unfold checkWireSchemaID, mthen. cbn [mget].
  assert ((sc_ExpectedSchemaID (sd_cfg s) >? 0) && negb (id =? sc_ExpectedSchemaID (sd_cfg s)) = false) as ->.
  { destruct (Z.gtb_spec (sc_ExpectedSchemaID (sd_cfg s)) 0) as [Hg|]; [|done]. rewrite <- He by done. by rewrite Z.eqb_refl. }
  assert ((len (sc_AllowedSchemaIDs (sd_cfg s)) >? 0) && negb (bool_decide (id ∈ sc_AllowedSchemaIDs (sd_cfg s))) = false) as ->.
  { destruct Ha as [-> | Hin]; [done|]. by rewrite (bool_decide_eq_true_2 _ Hin), andb_false_r. }
  by rewrite Hid, Z.eqb_refl, andb_false_r.
Qed.

Lemma decode_with_known (s : Serde E) id text schema payload :
  client_inv (sd_reg s) -> known (sd_reg s) id text -> ParseRecordSchema text = Ok schema ->
  snd (decode_with id payload s) = DecodeRecord schema payload.
Proof.
  intros Hi Hk Hp. destruct (schema_by_id _ _ _ Hi Hk) as (e' & Hb & _ & _). unfold decode_with, mthen, on_reg. rewrite Hb. cbn. by rewrite Hp.
Qed.

(** The value that Go's decoder returns for a field of this type. *)
Definition typed (typ : bytes) (v : any) : Prop :=
  match v with
  | ANil => typ = str "null"
  | ABool _ => typ = str "boolean"
  | AInt i => typ = str "int" /\ int32 i
  | AInt64 _ => typ = str "long"
  | AFloat32 _ => typ = str "float"
  | AFloat64 _ => typ = str "double"
  | AString _ => typ = str "string"
  | ABytes _ => typ = str "bytes"
  | _ => False
  end.

Lemma decoded_typed typ v : typed typ v -> decoded typ v = v.
Proof.
  destruct v as [|b|i|i|i|i|i|s'|s'|]; cbn [typed]; try done; try (intros ->; reflexivity).
  intros [-> Hi]. change (decoded (str "int") (AInt i)) with (AInt (s32 i)). by rewrite s32_id.
Qed.

(** Values that have the types of their fields are read back as they are. *)
Lemma read_back_typed schema values :
  Forall (fun f => exists v, values !! f_Name f = Some v /\ typed (f_Type f) v) (s_Fields schema) ->
  read_back schema values = filter (fun nv => fst nv ∈ map f_Name (s_Fields schema)) values.
Proof.
  intros Hf. apply map_eq. intros name. apply option_eq. intros v. rewrite map_lookup_filter_Some. cbn [fst]. unfold read_back.
  induction (s_Fields schema) as [|f fields IH] using rev_ind.
  - cbn. rewrite lookup_empty, elem_of_nil. naive_solver.
  - apply Forall_app in Hf as [Hf (x & Hx & Ht)%Forall_singleton]. rewrite fold_left_app, map_app, elem_of_app. cbn [map]. rewrite list_elem_of_singleton.
    cbn [fold_left]. rewrite Hx. cbn [default]. rewrite lookup_insert_Some, decoded_typed by done. rewrite IH by done.
    split; [intros [[<- <-]|[_ [? ?]]]; auto|]. intros [Hv Hin]. destruct (decide (f_Name f = name)) as [<-|Hne]; [left; split; [done|]; rewrite Hx in Hv; by injection Hv|].
    right. split; [done|]. split; [done|]. by destruct Hin as [?|Heq].
Qed.

(** C13: Avro through a registry.  Against any registry that keeps its promises,
    what [EncodeAvro] returns, [DecodeAvro] of the same serialiser decodes to the
    fields of the registered schema with the values that were given, each
    converted to the type of its field ([read_back]), and the header-framed
    variant agrees with it; when every value already has the type of its field
    these are the given values themselves.  This holds when the id is below 2^31,
    the configured guards accept it, and the values are within the range of the
    decoder ([record_fits]: int and long values and lengths below 2^28, beyond
    which its varints do not read). *)
Theorem serde_avro_roundtrip text values s s' bs schema :
  serde_inv s -> EncodeAvro text values s = (s', Ok bs) -> ParseRecordSchema text = Ok schema ->
  record_fits schema values -> sd_id s' < 2 ^ 31 -> id_accepted (sd_cfg s) (sd_id s') ->
  snd (DecodeAvro bs s') = Ok (read_back schema values) /\
  exists payload hdr, EncodeAvroHeaderFramed text values s = (s', Ok (payload, hdr)) /\
    snd (DecodeAvroHeaderFramed payload hdr s') = Ok (read_back schema values) /\
    (Forall (fun f => exists v, values !! f_Name f = Some v /\ typed (f_Type f) v) (s_Fields schema) ->
       read_back schema values = filter (fun nv => fst nv ∈ map f_Name (s_Fields schema)) values).
Proof.
  intros Hinv He Hp Hfit H31 Hacc. unfold EncodeAvro in He. apply mthen_inv in He as (s1 & id & Hreg & He).
  destruct (EnsureRegistered_spec _ _ _ _ Hinv Hreg) as ((Hi & Hrest) & Hcfg & Hid & Hpos & Htext & Hk & Hpa).
  unfold encode_with, mthen in He. cbn [mgets mlift mret] in He. destruct (EncodeRecord (sd_avro s1) values) as [payload| |] eqn:Hrec; [|done|done].
  injection He as <- <-. rewrite Hp in Hpa. injection Hpa as ->. assert (int32 id) as H32 by (unfold int32; lia).
  rewrite s32_id by done. pose proof (avro_roundtrip _ _ _ Hrec Hfit) as Hdec. split.
  - unfold DecodeAvro, mthen. rewrite (proj1 (confluent_decode id payload H32)). cbn [mlift h_SchemaID].
    rewrite check_accepts by (done || by rewrite Hcfg, <- Hid). by rewrite (decode_with_known _ _ _ _ _ Hi Hk Hp).
  - exists payload, (EncodeHeaderID id). unfold EncodeAvroHeaderFramed. rewrite (mthen_ok _ _ _ _ _ Hreg). unfold mthen. cbn [mgets mlift mret].
    rewrite Hrec. rewrite s32_id by done. split; [done|]. unfold DecodeAvroHeaderFramed, mthen.
    rewrite (proj2 (confluent_decode id payload H32)). cbn [mlift]. rewrite (decode_with_known _ _ _ _ _ Hi Hk Hp).
    split; [done|apply read_back_typed].
Qed.

(** * A schema that the parser rejects *)

(** A rejected schema empties later records.  When a serialiser with a
    registered Avro schema is given a second one that the registry accepts and
    the parser does not, the call fails, but the parsed schema of the first is
    lost while its id and text stay cached: every later [EncodeAvro] under the
    first schema succeeds with the bare frame header, whatever the values. *)
Theorem failed_schema_empties_records text1 text2 values2 (s : Serde E) e' id2 err :
  0 < sd_id s -> sd_schema s = text1 -> sc_Format (sd_cfg s) = FormatAvro -> text1 <> text2 ->
  register_schema (sd_cfg s) text2 (sd_reg s) = (e', Ok id2) -> ParseRecordSchema text2 = Err err ->
  exists s', EncodeAvro text2 values2 s = (s', Err err) /\
    forall values, snd (EncodeAvro text1 values s') = Ok (EncodeHeaderID (s32 (sd_id s))).
Proof.
  intros Hid Htext Hf Hne Hreg Hp. exists (mkSerde e' (sd_cfg s) no_schema text1 (sd_id s)). split.
  - unfold EncodeAvro, EnsureRegistered, mthen. cbn [mget]. rewrite (bool_decide_eq_false_2 (sd_schema s = text2)) by congruence.
    rewrite andb_false_r. unfold on_reg. rewrite Hreg, Hf. change (FormatAvro =? FormatAvro) with true. cbn [mwhen].
    unfold parse_into. rewrite Hp. cbn. by rewrite Htext.
  - intros values. unfold EncodeAvro, EnsureRegistered, encode_with, mthen. cbn [mget sd_id sd_schema].
    rewrite (proj2 (Z.gtb_lt _ _) Hid), (bool_decide_eq_true_2 (text1 = text1)) by done.
    cbn -[EncodeConfluent EncodeHeaderID s32]. unfold EncodeConfluent. by rewrite app_nil_r.
Qed.
End serde_facts.

(** * The in-memory registry *)

Definition no_nul (s : bytes) : Prop := x00 ∉ s.

Lemma split_at_nul (a b c d : bytes) : no_nul a -> no_nul c -> mock_key a b = mock_key c d -> a = c /\ b = d.
Proof.
  unfold no_nul, mock_key. revert c. induction a as [|x a IH]; intros [|y c] Ha Hc He; cbn in He.
  - by injection He as ->.
  - injection He as <- _. exfalso. apply Hc. by left.
  - injection He as -> _. exfalso. apply Ha. by left.
  - injection He as -> He. destruct (IH c) as [-> ->]; [| |done|done]; intros Hin; [apply Ha|apply Hc]; by right.
Qed.

(** The specification: the distinct pairs of a subject and a schema, in the order
    in which they were first registered; the id of a pair is its position. *)
Definition add_new (p : bytes * bytes) (l : list (bytes * bytes)) : list (bytes * bytes) := if decide (p ∈ l) then l else l ++ [p].

Fixpoint ids_of (subject : bytes) (n : Z) (l : list (bytes * bytes)) : list Z :=
  match l with
  | [] => []
  | p :: rest => (if decide (fst p = subject) then [n] else []) ++ ids_of subject (n + 1) rest
  end.

Lemma ids_of_app subject n a b : ids_of subject n (a ++ b) = ids_of subject n a ++ ids_of subject (n + len a) b.
Proof.
  revert n. induction a as [|p a IH]; intros n; cbn [app ids_of]; [by rewrite Z.add_0_r|].
  rewrite IH, len_cons, <- app_assoc. do 2 f_equal. f_equal. lia.
Qed.

Record Refines (m : MockRegistry) (l : list (bytes * bytes)) : Prop := mkRefines {
  rf_next : m_nextID m = len l;
  rf_byid : forall id, m_byID m !! id = if 0 <? id then snd <$> l !! Z.to_nat (id - 1) else None;
  rf_idof : forall subject schema id, no_nul subject ->
    m_idOf m !! mock_key subject schema = Some id <-> 0 < id /\ l !! Z.to_nat (id - 1) = Some (subject, schema);
  rf_versions : forall subject, mock_ListVersions subject m = ids_of subject 1 l;
  rf_nul : Forall (fun p => no_nul (fst p)) l }.

Lemma mock_empty : Refines NewMockRegistry [].
Proof.
  split; [done| | |done|constructor].
  - intros id. cbn. by destruct (0 <? id).
  - intros subject schema id _. cbn. split; [done|]. intros [_ Hl]. done.
Qed.

Lemma lookup_snoc {A} (l : list A) x n : (l ++ [x]) !! n = if decide (n = length l) then Some x else l !! n.
Proof.
  destruct (decide (n = length l)) as [->|Hn]; [apply list_lookup_middle; done|].
  destruct (decide (n < length l)%nat); [by rewrite lookup_app_l|]. rewrite !lookup_ge_None_2; [done|lia|]. rewrite length_app. cbn. lia.
Qed.

Lemma mock_register_refines subject ty schema m l : Refines m l -> no_nul subject ->
  exists m' id, mock_register subject ty schema m = (m', Ok id) /\ Refines m' (add_new (subject, schema) l) /\
    0 < id /\ add_new (subject, schema) l !! Z.to_nat (id - 1) = Some (subject, schema).
Proof.
  intros [Hn Hb Hi Hv Hf] Hs. unfold mock_register. destruct (m_idOf m !! mock_key subject schema) as [id|] eqn:Hid.
  - apply Hi in Hid as [Hpos Hl]; [|done]. exists m, id. unfold add_new.
    rewrite decide_True by (by eapply list_elem_of_lookup_2). split; [done|]. by split.
  - assert ((subject, schema) ∉ l) as Hnot.
    { intros [i Hli]%list_elem_of_lookup_1. assert (m_idOf m !! mock_key subject schema = Some (Z.of_nat (S i))) as Hc; [|congruence].
      apply Hi; [done|]. split; [lia|]. replace (Z.to_nat (Z.of_nat (S i) - 1)) with i by lia. done. }
    eexists _, _. split; [reflexivity|]. unfold add_new. rewrite decide_False by done. rewrite Hn.
    assert (Hlast : Z.to_nat (len l + 1 - 1) = length l) by (unfold len; lia).
    pose proof (len_nonneg l). split; [split; cbn|split; [lia|rewrite Hlast, lookup_snoc; by rewrite decide_True]].
    + by rewrite len_app.
    + intros id. rewrite lookup_snoc. destruct (decide (id = len l + 1)) as [->|Hne].
      * rewrite lookup_insert_eq, Hlast, decide_True by done. by rewrite (proj2 (Z.ltb_lt _ _)) by lia.
      * rewrite lookup_insert_ne, Hb by done. destruct (Z.ltb_spec 0 id); [|done]. rewrite decide_False; [done|]. unfold len in *. lia.
    + intros sub sch id Hsub. rewrite lookup_snoc. destruct (decide (mock_key subject schema = mock_key sub sch)) as [Hk|Hk].
      * apply split_at_nul in Hk as [<- <-]; [|done|done]. rewrite lookup_insert_eq. split.
        -- intros [= <-]. split; [lia|]. by rewrite Hlast, decide_True.
        -- intros [Hpos Hl]. destruct (decide (Z.to_nat (id - 1) = length l)) as [He|]; [f_equal; unfold len in *; lia|].
           exfalso. apply Hnot. by eapply list_elem_of_lookup_2.
      * rewrite lookup_insert_ne, Hi by done. split; intros [Hpos Hl]; (split; [done|]).
        -- rewrite decide_False; [done|]. intros He. apply lookup_lt_Some in Hl. lia.
        -- destruct (decide (Z.to_nat (id - 1) = length l)); [|done]. injection Hl as <- <-. done.
    + intros sub. rewrite ids_of_app. cbn [ids_of fst]. specialize (Hv sub). unfold mock_ListVersions in *. cbn [m_versions].
      destruct (decide (subject = sub)) as [<-|Hne].
      * rewrite lookup_insert_eq. match goal with |- default [] (Some ?x) = _ => change (default [] (Some x)) with x end.
        rewrite Hv, app_nil_r. do 2 f_equal. lia.
      * rewrite lookup_insert_ne by done. by rewrite Hv, app_nil_r.
    + apply Forall_app. split; [done|]. by constructor.
Qed.

(** C14: the in-memory registry refines the list of the distinct registrations.
    Registering a schema returns its position in that list (a new one at the
    end, or the one it has), the schema of every earlier id stays what it was,
    and the versions of a subject are the positions of its schemas in order. *)
Theorem mock_refines subject ty schema m l : Refines m l -> no_nul subject ->
  exists m' id, mock_register subject ty schema m = (m', Ok id) /\ Refines m' (add_new (subject, schema) l) /\
    snd (mock_SchemaByID id m') = Ok schema /\
    (forall i t, snd (mock_SchemaByID i m) = Ok t -> snd (mock_SchemaByID i m') = Ok t) /\
    mock_ListVersions subject m' = ids_of subject 1 (add_new (subject, schema) l).
Proof.
  intros Hr Hs. destruct (mock_register_refines subject ty schema m l Hr Hs) as (m' & id & He & Hr' & Hpos & Hl). exists m', id.
  split; [done|]. split; [done|]. unfold mock_SchemaByID. split; [|split; [|apply Hr']].
  - rewrite (rf_byid _ _ Hr'), (proj2 (Z.ltb_lt _ _) Hpos), Hl. done.
  - intros i t. rewrite (rf_byid _ _ Hr), (rf_byid _ _ Hr'). destruct (0 <? i); [|done]. unfold add_new. destruct (decide _); [by destruct (snd <$> _)|].
    destruct (l !! Z.to_nat (i - 1)) as [p|] eqn:Hp; [|by cbn].
    by rewrite (lookup_app_l_Some _ _ _ _ Hp).
Qed.

Lemma mock_refines_witness :
  exists m' id, mock_register (str "s") (str "AVRO") (str "{}") NewMockRegistry = (m', Ok id) /\
    snd (mock_SchemaByID id m') = Ok (str "{}") /\ mock_ListVersions (str "s") m' = [1].
Proof.
  destruct (mock_refines (str "s") (str "AVRO") (str "{}") NewMockRegistry [] mock_empty) as (m' & id & He & _ & Hb & _ & Hv).
  - unfold no_nul. rewrite <- (bool_decide_spec (x00 ∈ str "s")). intros Hin. vm_compute in Hin. exact Hin.
  - exists m', id. split; [exact He|]. split; [exact Hb|]. rewrite Hv. reflexivity.
Defined.

(** The promise of the interface. *)
Definition mock_inv (m : MockRegistry) : Prop := exists l, Refines m l.

Lemma mock_registers subject ty schema : no_nul subject ->
  Registers mock_inv (fun m id t => m_byID m !! id = Some t) (mock_register subject ty schema) schema.
Proof.
  intros Hs m m' id [l Hr] He. destruct (mock_register_refines subject ty schema m l Hr Hs) as (m1 & id1 & He1 & Hr' & Hpos & Hl).
  rewrite He in He1. injection He1 as -> ->. split; [by eexists|]. rewrite (rf_byid _ _ Hr'), (proj2 (Z.ltb_lt _ _) Hpos), Hl.
  split; [done|]. split; [done|]. intros i t. rewrite (rf_byid _ _ Hr), (rf_byid _ _ Hr'). destruct (0 <? i); [|done].
  unfold add_new. destruct (decide _); [done|]. destruct (l !! Z.to_nat (i - 1)) as [p|] eqn:Hp; [|by cbn].
    by rewrite (lookup_app_l_Some _ _ _ _ Hp).
Qed.

#[export] Instance mock_laws : SchemaClientLaws MockRegistry.
Proof.
  refine {| client_inv := mock_inv; known m id t := m_byID m !! id = Some t; valid_subject := no_nul |}.
  - intros subject schema Hs. by apply mock_registers.
  - intros subject ty schema refs Hs. by apply mock_registers.
  - intros m id t Hi Hk. exists m. cbn. unfold mock_SchemaByID. by rewrite Hk.
Defined.

(** * Two goroutines *)

Section race.
Context {E : Type} `{SchemaClientLaws E} `{FloatConv} `{JsonEnv}.

(** [EnsureRegistered] holds the mutex, and so does the read of the parsed schema
    after it, but not from one to the other: here another goroutine registers
    [textB] between the two halves of [EncodeAvro textA values]. *)
Definition interleaved (textA textB : bytes) (values : gmap bytes any) : M (Serde E) bytes :=
  let! id := EnsureRegistered textA in
  let! _ := EnsureRegistered textB in
  encode_with id values.

(** Concurrent encoders mix schemas.  When another goroutine registers its
    schema on the same serialiser between the two halves of an [EncodeAvro],
    the frame carries the id of the caller's schema and a payload that was
    encoded under the other one. *)
Theorem concurrent_encode_mixes textA textB values (s s' : Serde E) bs :
  serde_inv s -> interleaved textA textB values s = (s', Ok bs) ->
  exists id schemaB payload, 0 < id /\ ParseRecordSchema textB = Ok schemaB /\ EncodeRecord schemaB values = Ok payload /\
    bs = EncodeConfluent (s32 id) payload /\ exists s1, EnsureRegistered textA s = (s1, Ok id) /\ known (sd_reg s1) id textA.
Proof.
  intros Hinv He. apply mthen_inv in He as (s1 & id & HA & He). apply mthen_inv in He as (s2 & id2 & HB & He).
  destruct (EnsureRegistered_spec _ _ _ _ Hinv HA) as (Hinv1 & _ & _ & Hpos & _ & Hk & _).
  destruct (EnsureRegistered_spec _ _ _ _ Hinv1 HB) as (_ & _ & _ & _ & _ & _ & Hp).
  unfold encode_with, mthen in He. cbn [mgets mlift mret] in He. destruct (EncodeRecord (sd_avro s2) values) as [payload| |] eqn:Hr; [|done|done].
  injection He as _ <-. exists id, (sd_avro s2), payload. split_and!; try done. by exists s1.
Qed.
End race.

(** * A concrete serialiser *)

Definition record_text (name : bytes) (fields : list (bytes * bytes)) : rawSchema := mkRawSchema (str "record") name fields.

(** Two record schemas and an enumeration, which a registry accepts and the
    parser of records does not. *)
#[local] Instance demo_json : JsonEnv := {|
  unmarshal_schema t :=
    if bool_decide (t = str "A") then Ok (record_text (str "A") [(str "x", str "string"); (str "y", str "int")])
    else if bool_decide (t = str "B") then Ok (record_text (str "B") [(str "x", [])])
    else Ok (mkRawSchema (str "enum") t []);
  json_marshal _ := Err (FmtError "json" 0);
  json_unmarshal _ := Err (FmtError "json" 0)
|}.

#[local] Existing Instance no_floats.

Definition demo_cfg : SerdeConfig := mkSerdeConfig (str "orders-value") FormatAvro [] [] 0 true [].
Definition demo_serde : Serde MockRegistry := NewSerde NewMockRegistry demo_cfg.
Definition demo_record : gmap bytes any := <[str "x" := AString (str "hi")]> {[str "y" := AInt 5]}.

Lemma demo_serde_inv : serde_inv demo_serde.
Proof.
  split; [exists []; apply mock_empty|]. split; [done|]. split; [|cbn; lia].
  change (no_nul (str "orders-value")). unfold no_nul. rewrite <- (bool_decide_spec (x00 ∈ str "orders-value")). intros Hin. vm_compute in Hin. exact Hin.
Qed.

Lemma serde_avro_roundtrip_witness :
  exists s bs, EncodeAvro (str "A") demo_record demo_serde = (s, Ok bs) /\ snd (DecodeAvro bs s) = Ok demo_record.
Proof.
  eexists _, _. split; [vm_compute; reflexivity|].
  assert (Hrb : Ok demo_record = Ok (read_back (mkSchema (str "A") [mkField (str "x") (str "string"); mkField (str "y") (str "int")]) demo_record))
    by (f_equal; apply map_eq; intros k; vm_compute; reflexivity).
  rewrite Hrb. eapply (serde_avro_roundtrip (str "A") demo_record demo_serde).
  - exact demo_serde_inv.
  - vm_compute. reflexivity.
  - vm_compute. reflexivity.
  - repeat constructor; cbn [f_Name f_Type]; intros v Hv; vm_compute in Hv; injection Hv as <-; vm_compute; try (intros _; split); congruence.
  - vm_compute. reflexivity.
  - split; [cbn; lia|by left].
Defined.

(** After a record of schema [A] was encoded. *)
Definition demo_serde1 : Serde MockRegistry := fst (EncodeAvro (str "A") demo_record demo_serde).
Definition demo_registry2 : MockRegistry := fst (register_schema (sd_cfg demo_serde1) (str "C") (sd_reg demo_serde1)).

Lemma failed_schema_empties_records_witness :
  exists s2 err, EncodeAvro (str "C") ∅ demo_serde1 = (s2, Err err) /\ snd (EncodeAvro (str "A") demo_record s2) = Ok (EncodeHeaderID 1).
Proof.
  destruct (failed_schema_empties_records (str "A") (str "C") ∅ demo_serde1 demo_registry2 2 (FmtError "avro: expected record schema" 0)) as (s' & He & Hall).
  1-6: vm_compute; congruence.
  exists s'. eexists. split; [exact He|]. exact (Hall demo_record).
Defined.

(** The frame that the interleaving of two encoders leaves decodes to other
    fields, or not at all. *)
Lemma concurrent_encode_mixes_witness :
  exists s bs payload, interleaved (str "A") (str "B") demo_record demo_serde = (s, Ok bs) /\
    bs = EncodeConfluent 1 payload /\ payload = [x04; x68; x69] /\ snd (decode_with 1 payload s) = Err fieldError.
Proof.
  destruct (interleaved (str "A") (str "B") demo_record demo_serde) as [s r] eqn:He. destruct r as [bs| |]; [|discriminate He|discriminate He].
  destruct (concurrent_encode_mixes _ _ _ _ _ _ demo_serde_inv He) as (id & schemaB & payload & _ & _ & _ & _ & _).
  exists s, bs, [x04; x68; x69]. split; [reflexivity|]. vm_compute in He. injection He as <- <-. split; [vm_compute; reflexivity|].
  split; [reflexivity|]. vm_compute. reflexivity.
Defined.
