(* ===== verification/RegistryFacts.v ===== *)
(** Theorems on the REST client of the schema registry: subjects and versions
    stay within their path segment, a request depends on nothing but its path,
    and answers are bounded. *)

From Stdlib Require Import ZArith Lia.
From Stdlib Require Import Strings.Byte.
From stdpp Require Import base list gmap countable strings pretty.
From S2P Require Import Prelude.
From S2P Require Import Wire.
From S2P Require Import GoMonad.
From S2P Require Import SchemaWire.
From S2P Require Import Serde.

Open Scope Z_scope.
Open Scope go_scope.

(** * Path segments *)

(** A byte that does not end a segment, and what may follow a segment. *)
Definition plain (c : byte) : Prop := c ∉ str "/?#;, ".

Definition after_segment (rest : bytes) : Prop :=
  match rest with
  | [] => True
  | c :: _ => c = x2f \/ c = x3f
  end.

Definition hex_value (c : byte) : Z := if b2z c <? 58 then b2z c - 48 else b2z c - 55.

(** The reference decoder of a segment. *)
Fixpoint unescape (s : bytes) : bytes :=
  match s with
  | [] => []
  | c :: rest =>
      if b2z c =? 37 then
        match rest with
        | h :: l :: rest => z2b (16 * hex_value h + hex_value l) :: unescape rest
        | _ => []
        end
      else c :: unescape rest
  end.

(** One byte of a subject, checked for all 256. *)
Definition escaped (c : byte) : bytes := if unreserved c then [c] else [z2b 37; upper_hex (b2z c / 16); upper_hex (b2z c mod 16)].

Lemma byte_forall (P : byte -> bool) : forallb (fun z => P (z2b z)) (seqZ 0 256) = true -> forall c, P c = true.
Proof.
  intros Hall c. rewrite forallb_forall in Hall. rewrite <- (z2b_b2z c). apply Hall. apply list_elem_of_In, elem_of_seqZ. pose proof (b2z_range c). lia.
Qed.

Lemma escaped_safe c : Forall plain (escaped c).
Proof.
  assert (Hb : forallb (fun x => negb (bool_decide (x ∈ str "/?#;, "))) (escaped c) = true).
  { revert c. apply byte_forall. vm_compute. reflexivity. }
  apply Forall_forall. intros x Hx Hin. rewrite forallb_forall in Hb. specialize (Hb x ltac:(by apply list_elem_of_In)).
  by rewrite bool_decide_eq_true_2 in Hb.
Qed.

Lemma unescape_escaped c rest : unescape (escaped c ++ rest) = c :: unescape rest.
Proof.
  assert (Hb : (if unreserved c then negb (b2z c =? 37)
    else bool_decide (z2b (16 * hex_value (upper_hex (b2z c / 16)) + hex_value (upper_hex (b2z c mod 16))) = c)) = true).
  { revert c. apply byte_forall. vm_compute. reflexivity. }
  unfold escaped. destruct (unreserved c).
  - cbn [app unescape]. destruct (b2z c =? 37); [done|done].
  - apply bool_decide_eq_true in Hb. cbn [app unescape]. change (b2z (z2b 37) =? 37) with true. cbv iota. by rewrite Hb.
Qed.

Lemma PathEscape_cons c s : PathEscape (c :: s) = escaped c ++ PathEscape s.
Proof. done. Qed.

Lemma unescape_PathEscape s rest : unescape (PathEscape s ++ rest) = s ++ unescape rest.
Proof.
  induction s as [|c s IH]; [done|]. rewrite PathEscape_cons, <- app_assoc, unescape_escaped, IH. done.
Qed.

Lemma subject_plain s : Forall plain (escapeSubjectPath s).
Proof. induction s as [|c s IH]; [constructor|]. apply Forall_app. split; [apply escaped_safe|exact IH]. Qed.

Lemma not_plain c : c = x2f \/ c = x3f -> ~ plain c.
Proof. intros [-> | ->] Hp; apply Hp, (bool_decide_unpack _); vm_compute; exact I. Qed.

(** A segment is determined by the path. *)
Lemma segment_unique a b r r' : Forall plain a -> Forall plain b -> after_segment r -> after_segment r' -> a ++ r = b ++ r' -> a = b /\ r = r'.
Proof.
  intros Ha. revert b. induction Ha as [|x a Hx Ha IH]; intros [|y b] Hb Hr Hr' He; cbn in He; [done| | |].
  - subst r. apply Forall_cons in Hb as [Hy _]. by destruct (not_plain y Hr).
  - subst r'. by destruct (not_plain x Hr').
  - injection He as <- He. apply Forall_cons in Hb as [_ Hb]. by destruct (IH b Hb Hr Hr' He) as [-> ->].
Qed.

(** A subject stays within its path segment.  Whatever the subject is, its
    escaped form has no byte that ends a segment or starts a query and decodes to
    the subject, so two paths are equal only if they name the same subject and
    the same resource of it. *)
Theorem subject_path_exact subject subject' rest rest' :
  after_segment rest -> after_segment rest' ->
  escapeSubjectPath subject ++ rest = escapeSubjectPath subject' ++ rest' ->
  subject = subject' /\ rest = rest' /\ Forall plain (escapeSubjectPath subject) /\ unescape (escapeSubjectPath subject) = subject.
Proof.
  intros Hr Hr' He. assert (Hu : forall s, unescape (escapeSubjectPath s) = s).
  { intros s. pose proof (unescape_PathEscape s []) as Hs. rewrite !app_nil_r in Hs. exact Hs. }
  destruct (segment_unique _ _ _ _ (subject_plain subject) (subject_plain subject') Hr Hr' He) as [Heq ->].
  split; [by rewrite <- (Hu subject), <- (Hu subject'), Heq|]. split; [done|]. split; [apply subject_plain|apply Hu].
Qed.

Lemma subject_path_exact_witness : str "a/b?c" = str "a/b?c" /\ Forall plain (escapeSubjectPath (str "a/b?c")).
Proof.
  destruct (subject_path_exact (str "a/b?c") (str "a/b?c") (str "/versions") (str "/versions")) as (He & _ & Hp & _);
    [by left|by left|reflexivity|]. split; [exact He|exact Hp].
Defined.

(** [SchemaByGUID] puts its argument into the path as it is: a GUID with a slash
    or a query addresses another resource. *)
Example guid_not_escaped {E} `{HttpEnv E} :
  SchemaByGUID (E := E) (str "../../subjects?deleted=true") =
    (let! resp := get (str "/schemas/guids/../../subjects?deleted=true") unmarshal_response in mret (snd resp)).
Proof. reflexivity. Qed.

(** * Answers *)

Section answers.
Context {E : Type} `{HttpEnv E}.

(** The client accepts an answer only when it is one.  A request succeeds
    exactly with the document that [out] reads from the whole body of an answer
    with a status below 300 and within the configured size: larger bodies and
    other statuses are errors, and a lookup takes 404 alone for "not found". *)
Theorem registry_answers {A} method path body (out : bytes -> res A) (r : Registry E) e' status data :
  0 <= MaxHTTPBodyBytes < 2 ^ 63 - 1 ->
  http_do method (rg_base r ++ path) (if bool_decide (rg_user r = []) then None else Some (rg_user r, rg_pass r)) body (rg_env r) =
    (e', Ok (status, data)) ->
  let r' := mkRegistry (rg_base r) (rg_user r) (rg_pass r) e' in
  do_ method path body out r =
    (r', if len data >? MaxHTTPBodyBytes then Err (FmtError "schema: response body exceeds limit" MaxHTTPBodyBytes)
         else if status >=? 300 then Err (FmtError "schema: HTTP" status) else out data) /\
  doLookup method path body out r =
    (r', if len data >? MaxHTTPBodyBytes then Err (FmtError "schema: response body exceeds limit" MaxHTTPBodyBytes)
         else if status =? 404 then Ok None
         else if status >=? 300 then Err (FmtError "schema: HTTP" status) else let? v := out data in Ok (Some v)).
Proof.
  intros Hm Hd r'. unfold do_, doLookup, exchange, mthen. rewrite Hd. cbn [res_bind snd fst]. rewrite s64_id by (unfold int64; lia).
  assert (Ht : (len (take (Z.to_nat (MaxHTTPBodyBytes + 1)) data) >? MaxHTTPBodyBytes) = (len data >? MaxHTTPBodyBytes)).
  { unfold len. rewrite length_take. destruct (Z.gtb_spec (Z.of_nat (length data)) MaxHTTPBodyBytes);
      destruct (Z.gtb_spec (Z.of_nat (Z.to_nat (MaxHTTPBodyBytes + 1) `min` length data)) MaxHTTPBodyBytes); lia || done. }
  rewrite Ht. destruct (Z.gtb_spec (len data) MaxHTTPBodyBytes); [done|].
  rewrite take_ge by (unfold len in *; lia). split.
  - by destruct (status >=? 300).
  - destruct (status =? 404); [done|]. destruct (status >=? 300); [done|]. cbn [mlift]. by destruct (out data).
Qed.
End answers.

(** A server that answers every request with one document. *)
#[local] Instance one_answer : HttpEnv (Z * bytes) := {|
  MaxHTTPBodyBytes := 8;
  http_do _ _ _ _ := fun e => (e, Ok e);
  marshal_schema _ schema _ := Ok schema;
  marshal_setting _ v := Ok v;
  unmarshal_response b := Ok (7, b);
  unmarshal_version b := Err (FmtError "json" 0);
  unmarshal_strings b := Err (FmtError "json" 0);
  unmarshal_ints b := Err (FmtError "json" 0);
  unmarshal_int b := Err (FmtError "json" 0);
  unmarshal_compatible b := Err (FmtError "json" 0);
  unmarshal_level b := Err (FmtError "json" 0);
  unmarshal_mode b := Ok b
|}.

Lemma registry_answers_witness :
  snd (do_ (str "GET") (str "/schemas/ids/7") [] unmarshal_response (mkRegistry (str "http://r") [] [] (200, str "doc"))) = Ok (7, str "doc").
Proof.
  destruct (registry_answers (str "GET") (str "/schemas/ids/7") [] unmarshal_response (mkRegistry (str "http://r") [] [] (200, str "doc"))
    (200, str "doc") 200 (str "doc")) as [Hd _]; [cbn; lia|reflexivity|]. rewrite Hd. reflexivity.
Defined.
