(* ===== verification/Base64.v ===== *)
(** [encoding/base64.StdEncoding] of Go's library: four characters for three
    bytes, padded with [=].  The decoder ignores line breaks, accepts any value
    of the unused low bits and refuses everything after the padding. *)

From Stdlib Require Import ZArith Lia.
From Stdlib Require Import Strings.Byte.
From stdpp Require Import base list strings.
From S2P Require Import Prelude.

Open Scope Z_scope.

(** * The alphabet *)

Definition digit_char (d : Z) : byte :=
  z2b (if d <? 26 then 65 + d else if d <? 52 then 71 + d else if d <? 62 then d - 4 else if d =? 62 then 43 else 47).

Definition char_digit (c : byte) : option Z :=
  let z := b2z c in
  if (65 <=? z) && (z <=? 90) then Some (z - 65)
  else if (97 <=? z) && (z <=? 122) then Some (z - 71)
  else if (48 <=? z) && (z <=? 57) then Some (z + 4)
  else if z =? 43 then Some 62
  else if z =? 47 then Some 63
  else None.

Definition padChar : byte := z2b 61.

(** * Coding *)

Definition digits (v : Z) : list byte :=
  [digit_char (v / 2 ^ 18); digit_char (v / 2 ^ 12 mod 64); digit_char (v / 2 ^ 6 mod 64); digit_char (v mod 64)].

Fixpoint EncodeToString (src : bytes) : bytes :=
  match src with
  | a :: b :: c :: rest => digits (b2z a * 2 ^ 16 + b2z b * 2 ^ 8 + b2z c) ++ EncodeToString rest
  | [a; b] => take 3 (digits (b2z a * 2 ^ 16 + b2z b * 2 ^ 8)) ++ [padChar]
  | [a] => take 2 (digits (b2z a * 2 ^ 16)) ++ [padChar; padChar]
  | [] => []
  end.

Definition CorruptInputError : error := FmtError "illegal base64 data" 0.

Definition three (v : Z) : bytes := [z2b (v / 2 ^ 16); z2b (v / 2 ^ 8); z2b v].

Fixpoint decode_quanta (s : bytes) : res bytes :=
  match s with
  | [] => Ok []
  | a :: b :: c :: d :: rest =>
      match char_digit a, char_digit b, char_digit c, char_digit d with
      | Some x, Some y, Some z, Some w =>
          let? tail := decode_quanta rest in Ok (three (x * 2 ^ 18 + y * 2 ^ 12 + z * 2 ^ 6 + w) ++ tail)
      | Some x, Some y, Some z, None =>
          if bool_decide (d = padChar) && bool_decide (rest = [])
          then Ok (take 2 (three (x * 2 ^ 18 + y * 2 ^ 12 + z * 2 ^ 6))) else Err CorruptInputError
      | Some x, Some y, None, None =>
          if bool_decide (c = padChar) && bool_decide (d = padChar) && bool_decide (rest = [])
          then Ok (take 1 (three (x * 2 ^ 18 + y * 2 ^ 12))) else Err CorruptInputError
      | _, _, _, _ => Err CorruptInputError
      end
  | _ => Err CorruptInputError
  end.

Definition line_break (c : byte) : bool := (b2z c =? 10) || (b2z c =? 13).

Definition DecodeString (s : bytes) : res bytes := decode_quanta (List.filter (fun c => negb (line_break c)) s).

(** * Laws *)

Lemma digit_char_digit d : 0 <= d < 64 -> char_digit (digit_char d) = Some d.
Proof.
  intros Hd. unfold digit_char, char_digit. rewrite b2z_z2b, Z.mod_small by (repeat case_goal; lia).
  repeat case_goal; try lia; f_equal; lia.
Qed.

(** A character that the decoder neither skips nor takes for the end. *)
Lemma digit_char_plain d : 0 <= d < 64 -> line_break (digit_char d) = false /\ digit_char d <> z2b 44 /\ digit_char d <> padChar.
Proof.
  intros Hd. pose proof (digit_char_digit d Hd) as Hc. split_and!; [|intros E; by rewrite E in Hc..].
  unfold line_break, char_digit in *. destruct (Z.eqb_spec (b2z (digit_char d)) 10) as [E|_]; [by rewrite E in Hc|].
  destruct (Z.eqb_spec (b2z (digit_char d)) 13) as [E|_]; [by rewrite E in Hc|done].
Qed.

Definition group (a b c : byte) : Z := b2z a * 2 ^ 16 + b2z b * 2 ^ 8 + b2z c.

(** The four digits of a 24-bit group, and the group back from them. *)
Lemma group_digits v : 0 <= v < 2 ^ 24 ->
  0 <= v / 2 ^ 18 < 64 /\ 0 <= v / 2 ^ 12 mod 64 < 64 /\ 0 <= v / 2 ^ 6 mod 64 < 64 /\ 0 <= v mod 64 < 64 /\
  v / 2 ^ 18 * 2 ^ 18 + v / 2 ^ 12 mod 64 * 2 ^ 12 + v / 2 ^ 6 mod 64 * 2 ^ 6 + v mod 64 = v.
Proof.
  intros Hv. assert (E3 : v / 2 ^ 18 = v / 64 / 64 / 64) by (rewrite !Z.div_div by lia; done).
  assert (E2 : v / 2 ^ 12 = v / 64 / 64) by (rewrite !Z.div_div by lia; done). rewrite E3, E2. change (2 ^ 6) with 64.
  pose proof (Z.div_mod v 64 ltac:(lia)). pose proof (Z.div_mod (v / 64) 64 ltac:(lia)). pose proof (Z.div_mod (v / 64 / 64) 64 ltac:(lia)).
  pose proof (Z.mod_pos_bound v 64 ltac:(lia)). pose proof (Z.mod_pos_bound (v / 64) 64 ltac:(lia)).
  pose proof (Z.mod_pos_bound (v / 64 / 64) 64 ltac:(lia)). lia.
Qed.

Lemma group_range a b c : 0 <= group a b c < 2 ^ 24.
Proof. unfold group. pose proof (b2z_range a). pose proof (b2z_range b). pose proof (b2z_range c). lia. Qed.

Lemma three_group a b c : three (group a b c) = [a; b; c].
Proof.
  unfold three, group. pose proof (b2z_range a). pose proof (b2z_range b). pose proof (b2z_range c).
  assert (E1 : (b2z a * 2 ^ 16 + b2z b * 2 ^ 8 + b2z c) / 2 ^ 16 = b2z a).
  { symmetry. apply (Z.div_unique _ _ _ (b2z b * 2 ^ 8 + b2z c)); lia. }
  assert (E2 : (b2z a * 2 ^ 16 + b2z b * 2 ^ 8 + b2z c) / 2 ^ 8 = b2z a * 2 ^ 8 + b2z b).
  { symmetry. apply (Z.div_unique _ _ _ (b2z c)); lia. }
  rewrite E1, E2, z2b_b2z. f_equal. f_equal.
  - rewrite <- z2b_mod. change (2 ^ 8) with 256. rewrite Z.add_comm, Z_mod_plus_full, z2b_mod. apply z2b_b2z.
  - f_equal. rewrite <- z2b_mod. replace (_ + _ + _) with (b2z c + (b2z a * 256 + b2z b) * 256) by lia.
    rewrite Z_mod_plus_full, z2b_mod. apply z2b_b2z.
Qed.

Lemma zero_byte : b2z x00 = 0.
Proof. done. Qed.

Lemma EncodeToString_1 a : EncodeToString [a] = take 2 (digits (group a x00 x00)) ++ [padChar; padChar].
Proof. unfold group. by rewrite zero_byte, Z.mul_0_l, !Z.add_0_r. Qed.

Lemma EncodeToString_2 a b : EncodeToString [a; b] = take 3 (digits (group a b x00)) ++ [padChar].
Proof. unfold group. by rewrite zero_byte, Z.add_0_r. Qed.

(** One quantum, whatever it stands for. *)
Lemma decode_quanta_encode src : decode_quanta (EncodeToString src) = Ok src.
Proof.
  assert (Hn : forall n src, (length src <= n)%nat -> decode_quanta (EncodeToString src) = Ok src); [|by apply (Hn (length src))].
  clear src. intros n. induction n as [|n IH]; intros [|a [|b [|c rest]]] Hl; cbn [length] in Hl; try done; try lia.
  all: try (specialize (IH rest ltac:(lia))).
  - rewrite EncodeToString_1.
    destruct (group_digits (group a x00 x00) (group_range _ _ _)) as (H1 & H2 & H3 & H4 & Hs).
    assert (E3 : group a x00 x00 / 2 ^ 6 mod 64 = 0).
    { unfold group. rewrite zero_byte. replace (_ + _ + _) with (b2z a * 16 * 64 * 2 ^ 6) by lia. rewrite Z.div_mul by lia. apply Z.mod_mul. lia. }
    assert (E4 : group a x00 x00 mod 64 = 0).
    { unfold group. rewrite zero_byte. replace (_ + _ + _) with (b2z a * 1024 * 64) by lia. apply Z.mod_mul. lia. }
    cbn [digits take app decode_quanta]. rewrite !digit_char_digit by done. change (char_digit padChar) with (@None Z). cbv iota.
    rewrite !bool_decide_true by done. cbn [andb]. replace (_ + _) with (group a x00 x00) by lia. by rewrite three_group.
  - rewrite EncodeToString_2.
    destruct (group_digits (group a b x00) (group_range _ _ _)) as (H1 & H2 & H3 & H4 & Hs).
    assert (E4 : group a b x00 mod 64 = 0).
    { unfold group. rewrite zero_byte. replace (_ + _ + _) with ((b2z a * 1024 + b2z b * 4) * 64) by lia. apply Z.mod_mul. lia. }
    cbn [digits take app decode_quanta]. rewrite !digit_char_digit by done. change (char_digit padChar) with (@None Z). cbv iota.
    rewrite !bool_decide_true by done. cbn [andb]. replace (_ + _ + _) with (group a b x00) by lia. by rewrite three_group.
  - change (EncodeToString (a :: b :: c :: rest)) with (digits (group a b c) ++ EncodeToString rest).
    destruct (group_digits (group a b c) (group_range _ _ _)) as (H1 & H2 & H3 & H4 & Hs).
    cbn [digits app decode_quanta]. rewrite !digit_char_digit by done. rewrite IH. cbn [res_bind]. by rewrite Hs, three_group.
Qed.

Lemma EncodeToString_chars (P : byte -> Prop) src :
  (forall d, 0 <= d < 64 -> P (digit_char d)) -> P padChar -> Forall P (EncodeToString src).
Proof.
  intros Hd Hp. assert (Hg : forall a b c, Forall P (digits (group a b c))).
  { intros a b c. destruct (group_digits (group a b c) (group_range _ _ _)) as (H1 & H2 & H3 & H4 & _).
    unfold digits. repeat constructor; by apply Hd. }
  assert (Hn : forall n src, (length src <= n)%nat -> Forall P (EncodeToString src)); [|by apply (Hn (length src))].
  clear src. intros n. induction n as [|n IH]; intros [|a [|b [|c rest]]] Hl; cbn [length] in Hl; try done; try lia.
  - rewrite EncodeToString_1.
    apply Forall_app. split; [by apply Forall_take|by repeat constructor].
  - rewrite EncodeToString_2.
    apply Forall_app. split; [by apply Forall_take|by repeat constructor].
  - change (EncodeToString (a :: b :: c :: rest)) with (digits (group a b c) ++ EncodeToString rest).
    apply Forall_app. split; [done|]. apply IH. lia.
Qed.

Lemma base64_roundtrip src : DecodeString (EncodeToString src) = Ok src.
Proof.
  unfold DecodeString. rewrite <- decode_quanta_encode. f_equal. apply forallb_filter_id, forallb_forall. intros c Hc.
  assert (Hall : Forall (fun c => line_break c = false) (EncodeToString src)).
  { apply EncodeToString_chars; [|done]. intros d Hd. by apply digit_char_plain. }
  apply list_elem_of_In in Hc. by rewrite (proj1 (Forall_forall _ _) Hall c Hc).
Qed.

(** Encoded text has no comma. *)
Lemma base64_no_comma src : Forall (fun c => c <> z2b 44) (EncodeToString src).
Proof. apply EncodeToString_chars; [|done]. intros d Hd. by apply digit_char_plain. Qed.

Lemma base64_length src : len (EncodeToString src) = 4 * ((len src + 2) / 3).
Proof.
  assert (Hn : forall n src, (length src <= n)%nat -> len (EncodeToString src) = 4 * ((len src + 2) / 3)); [|by apply (Hn (length src))].
  clear src. intros n. induction n as [|n IH]; intros [|a [|b [|c rest]]] Hl; cbn [length] in Hl; try done; try lia.
  change (EncodeToString (a :: b :: c :: rest)) with (digits (group a b c) ++ EncodeToString rest).
  rewrite len_app, IH, !len_cons by lia. change (len (digits (group a b c))) with 4.
  replace (1 + (1 + (1 + len rest)) + 2) with (len rest + 2 + 1 * 3) by lia. rewrite Z.div_add by lia. lia.
Qed.

Example base64_vector : EncodeToString (str "n,,") = str "biws" /\ EncodeToString (str "Ma") = str "TWE=" /\ EncodeToString (str "M") = str "TQ==".
Proof. vm_compute. done. Qed.
