(* ===== verification/FieldEncryption.v ===== *)
(** Client-side field encryption: [schema/encryption.go].

    A record is a map that is changed in place, so its operations are methods on
    the world and the record together, and what they changed before an error
    stays changed.  AES-GCM and the random source are the class [Crypto]; a key
    service is the class [KMS], of which [LocalKMS] is an instance. *)

From Stdlib Require Import ZArith Lia.
From Stdlib Require Import Strings.Byte.
From stdpp Require Import base list gmap countable strings.
From S2P Require Import Prelude.
From S2P Require Import Wire.
From S2P Require Import GoMonad.
From S2P Require Import Base64.
From S2P Require Import SchemaWire.

Open Scope Z_scope.
Open Scope go_scope.

(** * Go's library *)

(** [crypto/cipher]'s GCM with a key it accepts, a nonce of the standard size
    and no additional data; [rand.Reader] in a world [E]. *)
Class Crypto (E : Type) := {
  gcm_seal : bytes -> bytes -> bytes -> bytes;
  gcm_open : bytes -> bytes -> bytes -> res bytes;
  rand_read : Z -> M E bytes;
}.

Definition NonceSize : Z := 12.

(** [binary.PutUvarint] into a fresh buffer is the loop of the wire buffer. *)
Definition PutUvarint (x : Z) : bytes := uvarint_bytes 9 x.

Definition MaxVarintLen64 : Z := 10.

(** [binary.Uvarint]: the value and the number of bytes read, 0 when there are
    too few and negative on overflow. *)
Fixpoint uvarint_from (i x s : Z) (buf : bytes) : Z * Z :=
  match buf with
  | [] => (0, 0)
  | b :: rest =>
      if i =? MaxVarintLen64 then (0, - (i + 1)) else
      if b2z b <? 128 then
        if (i =? MaxVarintLen64 - 1) && (b2z b >? 1) then (0, - (i + 1))
        else (Z.lor x (u64 (Z.shiftl (b2z b) s)), i + 1)
      else uvarint_from (i + 1) (Z.lor x (u64 (Z.shiftl (Z.land (b2z b) 127) s))) (s + 7) rest
  end.

Definition Uvarint (buf : bytes) : Z * Z := uvarint_from 0 0 0 buf.

(** * Envelope *)

Definition csfleField : bytes := str "csfle:".

Definition envelope (wrapped nonce ct : bytes) : bytes := PutUvarint (u64 (len wrapped)) ++ wrapped ++ nonce ++ ct.

Definition corrupt : error := FmtError "schema: corrupt CSFLE envelope" 0.

(** [int(wlen) > len(raw)-n] guards the slice, which takes [wlen] itself. *)
Definition parseEnvelope (raw : bytes) : res (bytes * bytes * bytes) :=
  let '(wlen, n) := Uvarint raw in
  if (n <=? 0) || (s64 wlen >? len raw - n) then Err corrupt else
  let? raw := slice raw n (len raw) in
  let? wrapped := slice raw 0 wlen in
  let? raw := slice raw wlen (len raw) in
  let nonceSize := 12 in
  if len raw <? nonceSize then Err (FmtError "schema: corrupt CSFLE envelope (nonce)" 0) else
  let? nonce := slice raw 0 nonceSize in
  let? ct := slice raw nonceSize (len raw) in
  Ok (wrapped, nonce, ct).

(** * Keys *)

(** [aes.NewCipher] takes keys of 16, 24 or 32 bytes. *)
Definition newGCM (key : bytes) : res bytes :=
  if bool_decide (len key ∈ [16; 24; 32]) then Ok key else Err (FmtError "crypto/aes: invalid key size" (len key)).

Section aead.
Context {E : Type} `{Crypto E}.

(** GCM panics on a nonce of another size. *)
Definition Seal (key nonce plain : bytes) : res bytes := if len nonce =? NonceSize then Ok (gcm_seal key nonce plain) else Panic.
Definition Open_ (key nonce ct : bytes) : res bytes := if len nonce =? NonceSize then gcm_open key nonce ct else Panic.
End aead.

Class KMS (E K : Type) := {
  WrapDEK : K -> bytes -> M E bytes;
  UnwrapDEK : K -> bytes -> M E bytes;
}.

Record LocalKMS := mkLocalKMS { lk_aead : bytes }.

Definition NewLocalKMS (masterKey : bytes) : res LocalKMS := res_map mkLocalKMS (newGCM masterKey).

(** [Seal(nonce, nonce, dek, nil)] appends the sealed key to the nonce. *)
Definition local_WrapDEK {E} `{Crypto E} (k : LocalKMS) (dek : bytes) : M E bytes :=
  let! nonce := rand_read NonceSize in
  let! ct := mlift (Seal (E:=E) (lk_aead k) nonce dek) in
  mret (nonce ++ ct).

Definition local_UnwrapDEK {E} `{Crypto E} (k : LocalKMS) (wrapped : bytes) : M E bytes :=
  let ns := NonceSize in
  if len wrapped <? ns then merr (FmtError "schema: wrapped DEK too short" 0) else
  let! nonce := mlift (slice wrapped 0 ns) in
  let! ct := mlift (slice wrapped ns (len wrapped)) in
  mlift (Open_ (E:=E) (lk_aead k) nonce ct).

#[export] Instance local_kms {E} `{Crypto E} : KMS E LocalKMS := {| WrapDEK := local_WrapDEK; UnwrapDEK := local_UnwrapDEK |}.

(** * Fields *)

Record FieldEncrypter (K : Type) := mkFieldEncrypter { fe_kms : K; fe_fields : gmap bytes unit }.
Arguments mkFieldEncrypter {K}.
Arguments fe_kms {K}.
Arguments fe_fields {K}.

Definition NewFieldEncrypter {K} (kms : K) (fields : list bytes) : FieldEncrypter K :=
  mkFieldEncrypter kms (foldl (fun set f => <[f := tt]> set) ∅ fields).

(** [s, ok := v.(string); ok && strings.HasPrefix(s, csfleField)]: the rest of
    the string. *)
Definition encrypted_text (v : option any) : option bytes :=
  match v with
  | Some (AString s) => if bool_decide (take 6 s = csfleField) then Some (drop 6 s) else None
  | _ => None
  end.

Section fields.
Context {E K : Type} `{Crypto E} `{KMS E K} `{JsonEnv} `{MapOrder}.

Definition world : Type := E * gmap bytes any.

Definition effect {A} (m : M E A) : M world A := fun w => let '(e, r) := m (fst w) in ((e, snd w), r).
Definition set_field (name : bytes) (v : any) : M world unit := mmod (fun w => (fst w, <[name := v]> (snd w))).
Definition field (name : bytes) : M world (option any) := mgets (fun w => snd w !! name).

Definition encrypt_field (wrapped aead name : bytes) : M world unit :=
  let! ov := field name in
  match ov with
  | None => mret tt
  | Some v =>
      match encrypted_text (Some v) with
      | Some _ => mret tt
      | None =>
          let! plain := mlift (json_marshal v) in
          let! nonce := effect (rand_read NonceSize) in
          let! ct := mlift (Seal (E:=E) aead nonce plain) in
          set_field name (AString (csfleField ++ EncodeToString (envelope wrapped nonce ct)))
      end
  end.

Definition EncryptFields (e : FieldEncrypter K) : M world unit :=
  let! dek := effect (rand_read 32) in
  let! wrapped := effect (WrapDEK (fe_kms e) dek) in
  let! aead := mlift (newGCM dek) in
  mfor (fun kv => encrypt_field wrapped aead (fst kv)) (range (fe_fields e)).

Definition decrypt_field (kms : K) (name : bytes) : M world unit :=
  let! ov := field name in
  match encrypted_text ov with
  | None => mret tt
  | Some text =>
      let! raw := mlift (DecodeString text) in
      let! wnc := mlift (parseEnvelope raw) in
      let '(wrapped, nonce, ct) := wnc in
      let! dek := effect (UnwrapDEK kms wrapped) in
      let! aead := mlift (newGCM dek) in
      let! plain := mlift (Open_ (E:=E) aead nonce ct) in
      let! v := mlift (json_unmarshal plain) in
      set_field name v
  end.

Definition DecryptFields (e : FieldEncrypter K) : M world unit :=
  mfor (fun kv => decrypt_field (fe_kms e) (fst kv)) (range (fe_fields e)).
End fields.

(** * Envelope: theorems *)

Lemma lor_u64_shift acc y s : 0 <= s -> 0 <= acc < 2 ^ s -> 0 <= y -> y * 2 ^ s < 2 ^ 64 ->
  Z.lor acc (u64 (Z.shiftl y s)) = acc + y * 2 ^ s.
Proof. intros. unfold u64. rewrite Z.mod_small; [by apply lor_shiftl_add|]. rewrite Z.shiftl_mul_pow2 by lia. nia. Qed.

Lemma b2z_small z : 0 <= z < 256 -> b2z (z2b z) = z.
Proof. intros. by rewrite b2z_z2b, Z.mod_small by lia. Qed.

Lemma uvarint_read f : forall i acc x rest, 0 <= i -> i + Z.of_nat f = 9 -> 0 <= acc < 2 ^ (7 * i) -> 0 <= x -> x * 2 ^ (7 * i) < 2 ^ 64 ->
  uvarint_from i acc (7 * i) (uvarint_bytes f x ++ rest) = (acc + x * 2 ^ (7 * i), i + len (uvarint_bytes f x)).
Proof.
  assert (Hlast : forall i acc x rest, 0 <= i <= 9 -> 0 <= acc < 2 ^ (7 * i) -> 0 <= x < 128 -> x * 2 ^ (7 * i) < 2 ^ 64 ->
    uvarint_from i acc (7 * i) (z2b x :: rest) = (acc + x * 2 ^ (7 * i), i + 1)).
  { intros i acc x rest Hi Hacc Hx Hlt. cbn [uvarint_from]. unfold MaxVarintLen64. rewrite b2z_small by lia.
    destruct (Z.eqb_spec i 10); [lia|]. destruct (Z.ltb_spec x 128); [|lia].
    assert (Hb : (i =? 10 - 1) && (x >? 1) = false).
    { destruct (Z.eqb_spec i 9) as [->|]; [|by destruct (Z.eqb_spec i (10 - 1)); [lia|]].
      change (2 ^ (7 * 9)) with (2 ^ 63) in Hlt. cbn [andb]. apply Z.gtb_ltb, Z.ltb_ge in Hlt || (destruct (Z.gtb_spec x 1); [lia|by rewrite andb_false_r]). }
    by rewrite Hb, lor_u64_shift by lia. }
  induction f as [|f IH]; intros i acc x rest Hi Hf Hacc Hx Hlt.
  - cbn [uvarint_bytes app]. assert (i = 9) as -> by lia. rewrite Hlast; [done|lia|done| |done].
    change (2 ^ (7 * 9)) with (2 ^ 63) in Hlt. lia.
  - cbn [uvarint_bytes]. destruct (Z.geb_spec x 128) as [Hge|Hlt128]; [|by apply Hlast; lia].
    cbn [app uvarint_from]. unfold MaxVarintLen64. destruct (Z.eqb_spec i 10); [lia|].
    pose proof (Z.mod_pos_bound x 128 ltac:(lia)). rewrite cont_byte by lia. destruct (Z.ltb_spec (128 + x mod 128) 128); [lia|].
    change 127 with (Z.ones 7). rewrite Z.land_ones by lia. change (2 ^ 7) with 128.
    replace ((128 + x mod 128) mod 128) with (x mod 128) by (rewrite <- (Z.mul_1_l 128) at 2; rewrite Z.add_comm, Z_mod_plus_full, Z.mod_mod by lia; done).
    pose proof (Z.div_mod x 128 ltac:(lia)) as Hdm. rewrite Z.shiftr_div_pow2 by lia. change (2 ^ 7) with 128.
    assert (Hp : 2 ^ (7 * (i + 1)) = 128 * 2 ^ (7 * i)) by (replace (7 * (i + 1)) with (7 + 7 * i) by lia; rewrite Z.pow_add_r by lia; lia).
    pose proof (Z.pow_pos_nonneg 2 (7 * i) ltac:(lia) ltac:(lia)). pose proof (Z.div_pos x 128 ltac:(lia) ltac:(lia)).
    rewrite lor_u64_shift by nia. replace (7 * i + 7) with (7 * (i + 1)) by lia.
    rewrite IH by nia. rewrite len_cons, Hp. f_equal; nia.
Qed.

Lemma Uvarint_PutUvarint x rest : 0 <= x < 2 ^ 64 -> Uvarint (PutUvarint x ++ rest) = (x, len (PutUvarint x)).
Proof. intros Hx. unfold Uvarint, PutUvarint. pose proof (uvarint_read 9 0 0 x rest) as E. change (7 * 0) with 0 in E. rewrite E by lia. f_equal; lia. Qed.

Lemma slice_after {A} (pre post : list A) : slice (pre ++ post) (len pre) (len (pre ++ post)) = Ok post.
Proof. pose proof (slice_app pre post []) as E. rewrite app_nil_r in E. by rewrite len_app. Qed.

Lemma slice_prefix {A} (pre post : list A) : slice (pre ++ post) 0 (len pre) = Ok pre.
Proof. exact (slice_app [] pre post). Qed.

Lemma uvarint_bytes_pos f x : 0 < len (uvarint_bytes f x).
Proof. destruct f; cbn [uvarint_bytes]; [done|]. destruct (x >=? 128); [|done]. rewrite len_cons. pose proof (len_nonneg (uvarint_bytes f (Z.shiftr x 7))). lia. Qed.

Lemma parse_envelope wrapped nonce ct : len nonce = NonceSize -> len wrapped < 2 ^ 63 ->
  parseEnvelope (envelope wrapped nonce ct) = Ok (wrapped, nonce, ct).
Proof.
  intros Hn Hw. pose proof (len_nonneg wrapped). pose proof (len_nonneg ct). unfold NonceSize in Hn.
  unfold parseEnvelope, envelope. unfold u64. rewrite Z.mod_small by lia.
  rewrite Uvarint_PutUvarint by lia. set (hdr := PutUvarint (len wrapped)). pose proof (uvarint_bytes_pos 9 (len wrapped)) as Hp. fold (PutUvarint (len wrapped)) hdr in Hp.
  rewrite s64_id by (unfold int64; lia). destruct (Z.leb_spec (len hdr) 0); [lia|]. rewrite !len_app. cbn [orb].
  destruct (Z.gtb_spec (len wrapped) (len hdr + (len wrapped + (len nonce + len ct)) - len hdr)); [lia|].
  rewrite <- !len_app, slice_after. cbn [res_bind]. rewrite slice_prefix. cbn [res_bind]. rewrite slice_after. cbn [res_bind].
  rewrite len_app. destruct (Z.ltb_spec (len nonce + len ct) 12); [lia|]. rewrite <- len_app, <- Hn, slice_prefix. cbn [res_bind].
  by rewrite slice_after.
Qed.

(** What [Uvarint] returns on any bytes. *)
Lemma uvarint_from_bounds buf : forall i x s, 0 <= i <= 10 -> s = 7 * i -> 0 <= x < 2 ^ 64 ->
  0 <= fst (uvarint_from i x s buf) < 2 ^ 64 /\ snd (uvarint_from i x s buf) <= i + len buf.
Proof.
  assert (Hlor : forall x y, 0 <= x < 2 ^ 64 -> 0 <= Z.lor x (u64 y) < 2 ^ 64).
  { intros x y Hx. unfold u64. pose proof (Z.mod_pos_bound y (2 ^ 64) ltac:(lia)). split; [apply Z.lor_nonneg; lia|].
    destruct (Z.eq_dec (Z.lor x (y mod 2 ^ 64)) 0) as [->|Hne]; [lia|]. apply Z.log2_lt_pow2; [pose proof (Z.lor_nonneg x (y mod 2 ^ 64)); lia|].
    rewrite Z.log2_lor by lia. apply Z.max_lub_lt; [destruct (Z.eq_dec x 0) as [->|]|destruct (Z.eq_dec (y mod 2 ^ 64) 0) as [->|]]; try done; apply Z.log2_lt_pow2; lia. }
  induction buf as [|b rest IH]; intros i x s Hi Hs Hx; cbn [uvarint_from]; unfold MaxVarintLen64.
  - unfold len; cbn [length fst snd]. cbn [fst snd]. lia.
  - pose proof (len_nonneg rest). rewrite len_cons. destruct (Z.eqb_spec i 10); [cbn [fst snd]; lia|]. destruct (b2z b <? 128).
    + destruct (_ && _); cbn [fst snd]; [lia|]. split; [by apply Hlor|lia].
    + destruct (IH (i + 1) (Z.lor x (u64 (Z.shiftl (Z.land (b2z b) 127) s))) (s + 7)) as [? ?]; [lia|lia|by apply Hlor|]. split; [done|lia].
Qed.

(** The envelope parser and its panic.  The envelope that the encrypter
    writes is taken apart into its parts; on arbitrary bytes the parser panics
    exactly when the length prefix is [2^63] or more, since the check converts
    it to a negative [int] and the slice expression does not. *)
Theorem parse_envelope_exact raw :
  (forall wrapped nonce ct, raw = envelope wrapped nonce ct -> len nonce = NonceSize -> len wrapped < 2 ^ 63 ->
     parseEnvelope raw = Ok (wrapped, nonce, ct)) /\
  (len raw < 2 ^ 63 -> parseEnvelope raw = Panic <-> 0 < snd (Uvarint raw) /\ 2 ^ 63 <= fst (Uvarint raw)).
Proof.
  split; [intros wrapped nonce ct ->; apply parse_envelope|]. intros Hl.
  unfold parseEnvelope. pose proof (uvarint_from_bounds raw 0 0 0 ltac:(lia) ltac:(lia) ltac:(lia)) as [Hx Hn].
  fold (Uvarint raw) in Hx, Hn. destruct (Uvarint raw) as [wlen n]. cbn [fst snd] in *.
  destruct (Z.leb_spec n 0); cbn [orb]; [split; [done|lia]|]. destruct (Z_lt_le_dec wlen (2 ^ 63)) as [Hw|Hw].
  - rewrite s64_id by (unfold int64; lia). destruct (Z.gtb_spec wlen (len raw - n)); [split; [done|lia]|].
    rewrite slice_ok by lia. cbn [res_bind]. set (r1 := take _ _). assert (Hr1 : len r1 = len raw - n) by (eapply slice_len, slice_ok; lia).
    rewrite !slice_ok by lia. cbn [res_bind]. set (r2 := take (Z.to_nat (len r1 - wlen)) _). destruct (Z.ltb_spec (len r2) 12); [split; [done|lia]|].
    rewrite !slice_ok by lia. split; [done|lia].
  - assert (Hneg : s64 wlen < 0). { unfold s64, sgn. pose proof (Z.mod_unique (wlen + 2 ^ (64 - 1)) (2 ^ 64) 1 (wlen - 2 ^ 63)). lia. }
    destruct (Z.gtb_spec (s64 wlen) (len raw - n)); [lia|]. rewrite slice_ok by lia. cbn [res_bind]. set (r1 := take _ _).
    assert (Hr1 : len r1 = len raw - n) by (eapply slice_len, slice_ok; lia). assert (slice r1 0 wlen = Panic) as -> by (apply slice_panic; lia). split; [lia|done].
Qed.

Lemma parse_envelope_exact_witness : parseEnvelope (PutUvarint (2 ^ 63) ++ str "anything") = Panic.
Proof.
  apply (parse_envelope_exact (PutUvarint (2 ^ 63) ++ str "anything")); [by vm_compute|]. by vm_compute.
Defined.

(** * Fields: theorems *)

Class CryptoLaws (E : Type) `{Crypto E} := {
  gcm_correct key nonce plain : gcm_open key nonce (gcm_seal key nonce plain) = Ok plain;
  gcm_overhead key nonce plain : len (gcm_seal key nonce plain) = len plain + 16;
  rand_length n s s' b : 0 <= n -> rand_read n s = (s', Ok b) -> len b = n;
}.

(** A key service: what it wraps it can unwrap at any later time.  A wrapped key
    is a slice, so its length is an [int]. *)
Class KMSLaws (E K : Type) `{KMS E K} := {
  wraps : K -> bytes -> bytes -> Prop;
  wrap_wraps k dek s s' w : len dek = 32 -> WrapDEK k dek s = (s', Ok w) -> wraps k dek w /\ len w < 2 ^ 63;
  unwrap_wraps k dek w s : wraps k dek w -> exists s', UnwrapDEK k w s = (s', Ok dek);
}.

Section fields_facts.
Context {E K : Type} `{CryptoLaws E} `{!KMS E K} `{!KMSLaws E K} `{JsonEnv} `{MapOrder}.

(** [cur] is [v] sealed under a data key that the service unwraps. *)
Definition sealed (k : K) (v cur : any) : Prop :=
  exists dek wrapped nonce plain, json_marshal v = Ok plain /\ wraps k dek wrapped /\ len wrapped < 2 ^ 63 /\ newGCM dek = Ok dek /\
    len nonce = NonceSize /\ cur = AString (csfleField ++ EncodeToString (envelope wrapped nonce (gcm_seal dek nonce plain))).

(** The values that the encrypter can give back. *)
Definition encryptable (v : any) : Prop :=
  encrypted_text (Some v) = None /\ forall plain, json_marshal v = Ok plain -> json_unmarshal plain = Ok v.

(** A record on its way between [r0] and its encryption. *)
Definition partly_encrypted (e : FieldEncrypter K) (r0 r : gmap bytes any) : Prop :=
  forall name, r !! name = r0 !! name \/
    exists v cur, fe_fields e !! name = Some tt /\ r0 !! name = Some v /\ r !! name = Some cur /\ sealed (fe_kms e) v cur.

Lemma encrypted_text_sealed text : encrypted_text (Some (AString (csfleField ++ text))) = Some text.
Proof. reflexivity. Qed.

Lemma partly_insert e r0 r name v cur : partly_encrypted e r0 r -> fe_fields e !! name = Some tt -> r0 !! name = Some v ->
  sealed (fe_kms e) v cur -> partly_encrypted e r0 (<[name := cur]> r).
Proof.
  intros Hp Hn Hv Hs name'. destruct (decide (name = name')) as [<-|Hne].
  - right. exists v, cur. by rewrite lookup_insert_eq.
  - rewrite lookup_insert_ne by done. apply Hp.
Qed.

(** One field: what it was, or sealed. *)
Lemma encrypt_field_spec e r0 wrapped dek name w w' r :
  (forall v, r0 !! name = Some v -> encryptable v) -> fe_fields e !! name = Some tt ->
  newGCM dek = Ok dek -> wraps (fe_kms e) dek wrapped -> len wrapped < 2 ^ 63 ->
  partly_encrypted e r0 (snd w) -> encrypt_field wrapped dek name w = (w', r) ->
  partly_encrypted e r0 (snd w') /\
  (r = Ok tt -> forall v, r0 !! name = Some v -> exists cur, snd w' !! name = Some cur /\ sealed (fe_kms e) v cur) /\
  (forall name', name' <> name -> snd w' !! name' = snd w !! name').
Proof.
  intros Henc Hf Hdek Hw Hl Hp Hr. unfold encrypt_field, field, mgets in Hr. unfold mthen at 1 in Hr. cbn beta in Hr.
  destruct (snd w !! name) as [c|] eqn:Hc.
  2:{ injection Hr as <- <-. split_and!; [done| |done]. intros _ v Hv. destruct (Hp name) as [Hsame|(? & ? & _ & _ & Hs & _)]; congruence. }
  destruct (encrypted_text (Some c)) as [text|] eqn:Ht.
  { injection Hr as <- <-. split_and!; [done| |done]. intros _ v Hv. destruct (Hp name) as [Hsame|(v' & cur & _ & Hv' & Hcur & Hs)].
    - rewrite Hc, Hv in Hsame. injection Hsame as ->. destruct (Henc v Hv) as [Hn _]. congruence.
    - exists cur. split; [done|]. by assert (v = v') as -> by congruence. }
  assert (Hr0 : r0 !! name = Some c).
  { destruct (Hp name) as [Hsame|(v' & cur & _ & Hv' & Hcur & Hs)]; [congruence|].
    destruct Hs as (? & ? & ? & ? & _ & _ & _ & _ & _ & ->). rewrite Hc in Hcur. rewrite Hcur, encrypted_text_sealed in Ht. done. }
  unfold mthen at 1, mlift at 1 in Hr. destruct (json_marshal c) as [plain| |] eqn:Hj; [|by injection Hr as <- <-..].
  unfold mthen at 1, effect at 1 in Hr. destruct (rand_read NonceSize (fst w)) as [s1 [nonce|err|]] eqn:Hrand; [|by injection Hr as <- <-..].
  apply rand_length in Hrand; [|done]. unfold Seal in Hr. rewrite Hrand in Hr. change (NonceSize =? NonceSize) with true in Hr. cbv iota in Hr.
  injection Hr as <- <-. cbn [fst snd]. assert (Hseal : sealed (fe_kms e) c (AString (csfleField ++ EncodeToString (envelope wrapped nonce (gcm_seal dek nonce plain))))).
  { by exists dek, wrapped, nonce, plain. }
  split_and!.
  - by eapply partly_insert.
  - intros _ v Hv. eexists. rewrite lookup_insert_eq. split; [done|]. by assert (v = c) as -> by congruence.
  - intros name' Hne. by rewrite lookup_insert_ne.
Qed.

Lemma decrypt_field_spec e r0 name s r :
  (forall v, r0 !! name = Some v -> encryptable v) -> partly_encrypted e r0 r ->
  exists s' r', decrypt_field (fe_kms e) name (s, r) = ((s', r'), Ok tt) /\ partly_encrypted e r0 r' /\ r' !! name = r0 !! name /\
    forall name', r !! name' = r0 !! name' -> r' !! name' = r0 !! name'.
Proof.
  intros Henc Hp. unfold decrypt_field, field, mgets. unfold mthen at 1. cbn [snd fst].
  destruct (Hp name) as [Hsame|(v & cur & Hf & Hv & Hcur & Hs)].
  - assert (encrypted_text (r !! name) = None) as ->.
    { rewrite Hsame. destruct (r0 !! name) as [v|] eqn:Hv; [|done]. by destruct (Henc v eq_refl). }
    by exists s, r.
  - rewrite Hcur. destruct Hs as (dek & wrapped & nonce & plain & Hj & Hw & Hl & Hdek & Hn & ->). rewrite encrypted_text_sealed, base64_roundtrip.
    unfold mthen, mlift. rewrite parse_envelope by done. cbv beta iota. unfold effect. cbn [fst snd].
    destruct (unwrap_wraps (fe_kms e) dek wrapped s Hw) as [s' ->]. rewrite Hdek. unfold Open_. rewrite Hn. change (NonceSize =? NonceSize) with true. cbv iota.
    rewrite gcm_correct, (proj2 (Henc v Hv) plain Hj). unfold set_field, mmod. cbn [fst snd]. eexists _, _. split_and!; [done| | |].
    + intros name'. destruct (decide (name = name')) as [<-|Hne]; [left; by rewrite lookup_insert_eq|]. rewrite lookup_insert_ne by done. apply Hp.
    + by rewrite lookup_insert_eq.
    + intros name' He. destruct (decide (name = name')) as [<-|Hne]; [by rewrite lookup_insert_eq|by rewrite lookup_insert_ne].
Qed.

Lemma encrypt_loop e r0 wrapped dek (l : list (bytes * unit)) : forall w w' r,
  (forall name v, r0 !! name = Some v -> encryptable v) -> (forall kv, kv ∈ l -> fe_fields e !! fst kv = Some tt) ->
  newGCM dek = Ok dek -> wraps (fe_kms e) dek wrapped -> len wrapped < 2 ^ 63 -> NoDup (l.*1) ->
  partly_encrypted e r0 (snd w) -> mfor (fun kv => encrypt_field wrapped dek (fst kv)) l w = (w', r) ->
  partly_encrypted e r0 (snd w') /\
  (r = Ok tt -> forall kv v, kv ∈ l -> r0 !! fst kv = Some v -> exists cur, snd w' !! fst kv = Some cur /\ sealed (fe_kms e) v cur) /\
  (forall name, name ∉ l.*1 -> snd w' !! name = snd w !! name).
Proof.
  induction l as [|kv l IH]; intros w w' r Henc Hin Hdek Hw Hl Hnd Hp Hr.
  - injection Hr as <- <-. split_and!; [done| |done]. intros _ ? ? Hx. by apply not_elem_of_nil in Hx.
  - cbn [mfor] in Hr. unfold mthen in Hr. rewrite fmap_cons in Hnd. apply NoDup_cons in Hnd as [Hnin Hnd].
    destruct (encrypt_field wrapped dek kv.1 w) as [w1 r1] eqn:E1.
    destruct (encrypt_field_spec e r0 wrapped dek kv.1 w w1 r1) as (Hp1 & Hok1 & Hother1); try done; [by apply Henc|apply Hin, list_elem_of_here|].
    destruct r1 as [[]|err|].
    2,3: injection Hr as <- <-; split_and!; [done|done|]; intros name Hname; apply Hother1; intros ->; apply Hname; rewrite fmap_cons; apply list_elem_of_here.
    destruct (IH w1 w' r) as (Hp2 & Hok2 & Hother2); try done; [intros ? ?; by apply Hin, list_elem_of_further|].
    split_and!; [done| |].
    + intros Hr1 kv' v Hkv Hv. apply elem_of_cons in Hkv as [->|Hkv]; [|by apply Hok2]. rewrite Hother2 by done. by apply Hok1.
    + intros name Hname. rewrite fmap_cons, not_elem_of_cons in Hname. destruct Hname. rewrite Hother2 by done. by apply Hother1.
Qed.

Lemma decrypt_loop e r0 (l : list (bytes * unit)) : forall s r, (forall name v, r0 !! name = Some v -> encryptable v) -> partly_encrypted e r0 r ->
  exists s' r', mfor (fun kv => decrypt_field (fe_kms e) (fst kv)) l (s, r) = ((s', r'), Ok tt) /\ partly_encrypted e r0 r' /\
    (forall kv : bytes * unit, kv ∈ l -> r' !! fst kv = r0 !! fst kv) /\ (forall name, r !! name = r0 !! name -> r' !! name = r0 !! name).
Proof.
  induction l as [|kv l IH]; intros s r Henc Hp.
  - exists s, r. split_and!; [done|done| |done]. intros ? Hx. by apply not_elem_of_nil in Hx.
  - cbn [mfor]. unfold mthen. destruct (decrypt_field_spec e r0 kv.1 s r) as (s1 & r1 & -> & Hp1 & Hkv & Hkeep); [by apply Henc|done|].
    destruct (IH s1 r1) as (s2 & r2 & -> & Hp2 & Hl & Hkeep2); [done|done|]. exists s2, r2. split_and!; [done|done| |].
    + intros kv' Hx. apply elem_of_cons in Hx as [->|Hx]; [by apply Hkeep2|by apply Hl].
    + intros name Hn. by apply Hkeep2, Hkeep.
Qed.

Lemma range_fields (e : FieldEncrypter K) kv : kv ∈ range (fe_fields e) <-> fe_fields e !! fst kv = Some tt.
Proof. destruct kv as [k []]. rewrite range_perm. apply elem_of_map_to_list. Qed.

Lemma range_fields_nodup (e : FieldEncrypter K) : NoDup ((range (fe_fields e)).*1).
Proof. rewrite range_perm. apply NoDup_fst_map_to_list. Qed.

Lemma newGCM_32 dek : len dek = 32 -> newGCM dek = Ok dek.
Proof. intros Hl. unfold newGCM. by rewrite bool_decide_true by (rewrite Hl; repeat constructor). Qed.

Lemma EncryptFields_spec e r0 w w' r : (forall name v, r0 !! name = Some v -> encryptable v) ->
  partly_encrypted e r0 (snd w) -> EncryptFields e w = (w', r) ->
  partly_encrypted e r0 (snd w') /\
  (r = Ok tt -> forall name v, fe_fields e !! name = Some tt -> r0 !! name = Some v -> exists cur, snd w' !! name = Some cur /\ sealed (fe_kms e) v cur) /\
  (forall name, fe_fields e !! name = None -> snd w' !! name = snd w !! name).
Proof.
  intros Henc Hp Hr. unfold EncryptFields in Hr. unfold mthen at 1, effect at 1 in Hr.
  destruct (rand_read 32 (fst w)) as [s1 [dek|err|]] eqn:Hrand; [|by injection Hr as <- <-..]. apply rand_length in Hrand; [|done].
  unfold mthen at 1, effect at 1 in Hr. cbn [fst snd] in Hr. destruct (WrapDEK (fe_kms e) dek s1) as [s2 [wrapped|err|]] eqn:Hwrap; [|by injection Hr as <- <-..].
  apply (wrap_wraps _ _ _ _ _ Hrand) in Hwrap as [Hw Hl]. rewrite (newGCM_32 dek Hrand) in Hr. unfold mthen at 1, mlift at 1 in Hr. cbn [fst snd] in Hr.
  destruct (encrypt_loop e r0 wrapped dek (range (fe_fields e)) (s2, snd w) w' r) as (Hp' & Hok & Hother); try done.
  { intros kv. by apply range_fields. }
  { by apply newGCM_32. }
  { apply range_fields_nodup. }
  split_and!; [done| |].
  - intros Hr' name v Hn Hv. apply (Hok Hr' (name, tt) v); [by apply range_fields|done].
  - intros name Hn. apply Hother. intros ((n & []) & -> & Hin)%list_elem_of_fmap. apply range_fields in Hin. cbn [fst] in *. congruence.
Qed.

(** C12: Field encryption round trip.  Take a record whose values can be
    encrypted: none is a string that starts with the marker of encrypted values,
    and each survives being marshalled to JSON and back (numbers, which come back
    as float64, do so only when they are float64).  Whatever happens to it on its
    way, any number of calls of [EncryptFields], each with its own data key, any
    of them ending half way in an error, and in any order of the fields,
    [DecryptFields] succeeds and gives back exactly the original record; and after
    a call that succeeds every configured field holds a sealed value and the
    other fields are as they were. *)
Theorem field_encryption_roundtrip e r0 s n : (forall name v, r0 !! name = Some v -> encryptable v) ->
  let w := Nat.iter n (fun w => fst (EncryptFields e w)) (s, r0) in
  (exists s', DecryptFields e w = ((s', r0), Ok tt)) /\
  (forall w' name v, EncryptFields e w = (w', Ok tt) -> r0 !! name = Some v ->
     exists cur, snd w' !! name = Some cur /\ (fe_fields e !! name = Some tt -> sealed (fe_kms e) v cur) /\ (fe_fields e !! name = None -> cur = v)).
Proof.
  intros Henc w. assert (Hp : partly_encrypted e r0 (snd w) /\ forall name, fe_fields e !! name = None -> snd w !! name = r0 !! name).
  { subst w. induction n as [|n [IHp IHo]]; [by split; [left|]|]. rewrite Nat.iter_succ. set (w := Nat.iter n _ _) in *.
    destruct (EncryptFields e w) as [w' r] eqn:Hrun. destruct (EncryptFields_spec e r0 w w' r) as (Hp & _ & Ho); [done..|].
    split; [done|]. intros name Hn. cbn [fst]. rewrite Ho by done. by apply IHo. }
  destruct Hp as [Hp Ho]. split.
  - destruct (decrypt_loop e r0 (range (fe_fields e)) (fst w) (snd w)) as (s' & r' & Hd & Hp' & Hl & _); [done..|].
    exists s'. unfold DecryptFields. rewrite <- surjective_pairing in Hd. rewrite Hd. do 2 f_equal. apply map_eq. intros name.
    destruct (Hp' name) as [Hsame|(v & cur & Hf & _)]; [done|]. apply (Hl (name, tt)). by apply range_fields.
  - intros w' name v He Hv. destruct (EncryptFields_spec e r0 w w' (Ok tt)) as (_ & Hok & Ho'); [done..|].
    destruct (fe_fields e !! name) as [[]|] eqn:Hf.
    + destruct (Hok eq_refl name v Hf Hv) as (cur & Hc & Hs). by exists cur.
    + exists v. rewrite Ho', Ho by done. done.
Qed.
End fields_facts.

(** [LocalKMS] keeps the law: it seals data keys under the master key. *)
#[export] Program Instance local_kms_laws {E} `{CryptoLaws E} : KMSLaws E LocalKMS := {|
  wraps k dek w := len w < 2 ^ 63 /\ exists nonce, len nonce = NonceSize /\ w = nonce ++ gcm_seal (lk_aead k) nonce dek
|}.
Next Obligation.
  intros E ?? k dek s s' w Hd Hw. cbn in Hw. unfold local_WrapDEK in Hw. apply mthen_inv in Hw as (s1 & nonce & Hr & Hw).
  apply rand_length in Hr; [|done]. unfold Seal in Hw. rewrite Hr in Hw. change (NonceSize =? NonceSize) with true in Hw. injection Hw as <- <-.
  assert (len (nonce ++ gcm_seal (lk_aead k) nonce dek) < 2 ^ 63) by (rewrite len_app, gcm_overhead; unfold NonceSize in Hr; lia).
  split_and!; [done| |done]. by exists nonce.
Qed.
Next Obligation.
  intros E ?? k dek w s (_ & nonce & Hn & ->). exists s. cbn. unfold local_UnwrapDEK. rewrite len_app, gcm_overhead, Hn.
  destruct (Z.ltb_spec (NonceSize + (len dek + 16)) NonceSize); [pose proof (len_nonneg dek); lia|].
  unfold mthen, mlift. rewrite <- Hn, slice_prefix. rewrite <- (gcm_overhead (lk_aead k) nonce dek), <- len_app, slice_after.
  unfold Open_. rewrite Hn. change (NonceSize =? NonceSize) with true. cbv iota. by rewrite gcm_correct.
Qed.

(** * A run *)

(** A toy cipher, and a random source that counts. *)
Definition toy_seal (key nonce plain : bytes) : bytes := rev plain ++ replicate 16 (z2b 0).
Definition toy_open (key nonce ct : bytes) : res bytes := Ok (rev (take (length ct - 16) ct)).

#[local] Instance toy_crypto : Crypto Z := {|
  gcm_seal := toy_seal;
  gcm_open := toy_open;
  rand_read n s := (s + 1, Ok (replicate (Z.to_nat n) (z2b s)))
|}.

#[local] Program Instance toy_laws : CryptoLaws Z.
Next Obligation.
  intros key nonce plain. change (toy_open key nonce (toy_seal key nonce plain) = Ok plain). unfold toy_open, toy_seal.
  rewrite length_app, length_replicate, Nat.add_sub, take_app_length. by rewrite rev_involutive.
Qed.
Next Obligation. intros key nonce plain. change (len (toy_seal key nonce plain) = len plain + 16). unfold toy_seal. rewrite len_app. unfold len. by rewrite length_rev. Qed.
Next Obligation. intros n s s' b Hn [= <- <-]. unfold len. rewrite length_replicate. lia. Qed.

(** JSON on strings without quotes or escapes. *)
#[local] Instance string_json : JsonEnv := {|
  unmarshal_schema _ := Err (FmtError "json" 0);
  json_marshal v := match v with AString s => Ok (z2b 34 :: s ++ [z2b 34]) | _ => Err (FmtError "json" 0) end;
  json_unmarshal b := Ok (AString (take (length b - 2) (drop 1 b)))
|}.

Lemma string_json_back s : json_unmarshal (z2b 34 :: s ++ [z2b 34]) = Ok (AString s).
Proof.
  change (Ok (AString (take (length (s ++ [z2b 34]) - 1) (s ++ [z2b 34]))) = Ok (AString s)).
  rewrite length_app. cbn [length]. by rewrite Nat.add_sub, take_app_length.
Qed.

Definition demo_kms : LocalKMS := mkLocalKMS (replicate 16 (z2b 1)).
Definition demo_encrypter : FieldEncrypter LocalKMS := NewFieldEncrypter demo_kms [str "ssn"].
Definition demo_person : gmap bytes any := <[str "ssn" := AString (str "12")]> {[str "name" := AString (str "bob")]}.

Lemma demo_encryptable name v : demo_person !! name = Some v -> encryptable v.
Proof.
  unfold demo_person. intros [[_ <-]|[_ Hv]]%lookup_insert_Some; [|apply lookup_singleton_Some in Hv as [_ <-]].
  - split; [reflexivity|]. intros plain [= <-]. exact (string_json_back (str "12")).
  - split; [reflexivity|]. intros plain [= <-]. exact (string_json_back (str "bob")).
Qed.

Lemma field_encryption_roundtrip_witness :
  exists s', DecryptFields demo_encrypter (Nat.iter 2 (fun w => fst (EncryptFields demo_encrypter w)) (0, demo_person)) = ((s', demo_person), Ok tt).
Proof. apply (field_encryption_roundtrip demo_encrypter demo_person 0 2). apply demo_encryptable. Defined.

(** The premise on the marker is needed: a plain string that starts with it is
    taken for an encrypted one and left as it is. *)
Theorem marked_field_in_clear {E K} `{Crypto E} `{!KMS E K} `{JsonEnv} `{MapOrder} (wrapped dek name text : bytes) (w : world (E:=E)) :
  snd w !! name = Some (AString (csfleField ++ text)) -> encrypt_field wrapped dek name w = (w, Ok tt).
Proof. intros Hw. unfold encrypt_field, field, mgets, mthen. by rewrite Hw, encrypted_text_sealed. Qed.

Lemma marked_field_in_clear_witness : encrypt_field (str "w") (str "k") (str "x") (0, {[str "x" := AString (str "csfle:123-45")]}) = ((0, {[str "x" := AString (str "csfle:123-45")]}), Ok tt).
Proof. apply (marked_field_in_clear (K:=LocalKMS) (str "w") (str "k") (str "x") (str "123-45")). reflexivity. Defined.
