(* ===== verification/Auth.v ===== *)
(** SASL authentication: [internal/auth/{auth,scram,gssapi,credentials}.go].

    The connection is the class [Requester]; the hash functions and the random
    source of Go's library are the class [AuthEnv].  [scan_int] is the [%d] of
    [fmt.Sscanf] (white space other than ASCII's is not skipped). *)

From Stdlib Require Import ZArith Lia.
From Stdlib Require Import Strings.Byte.
From stdpp Require Import base list gmap countable strings.
From S2P Require Import Prelude.
From S2P Require Import Wire.
From S2P Require Import Header.
From S2P Require Import GoMonad.
From S2P Require Import Base64.

Open Scope Z_scope.
Open Scope go_scope.

(** * Configuration *)

Definition SecurityPlaintext : bytes := str "PLAINTEXT".
Definition SecuritySSL : bytes := str "SSL".
Definition SecuritySASLPlaintext : bytes := str "SASL_PLAINTEXT".
Definition SecuritySASLSSL : bytes := str "SASL_SSL".

Definition SASLPlain : bytes := str "PLAIN".
Definition SASLSCRAM256 : bytes := str "SCRAM-SHA-256".
Definition SASLSCRAM512 : bytes := str "SCRAM-SHA-512".
Definition SASLGSSAPI : bytes := str "GSSAPI".
Definition SASLOAuth : bytes := str "OAUTHBEARER".

Record TLSConfig := mkTLSConfig {
  tls_Enabled : bool;
  tls_CAFile : bytes;
  tls_CertFile : bytes;
  tls_KeyFile : bytes;
  tls_InsecureSkipVerify : bool;
  tls_ServerName : bytes }.

(** The callbacks run in the world [E] of the connection. *)
Record KerberosConfig (E : Type) := mkKerberos { kb_InitToken : bytes; kb_TokenProvider : option (bytes -> M E bytes) }.
Arguments mkKerberos {E}.
Arguments kb_InitToken {E}.
Arguments kb_TokenProvider {E}.

Record SASLConfig (E : Type) := mkSASLConfig {
  sl_Mechanism : bytes;
  sl_Username : bytes;
  sl_Password : bytes;
  sl_Token : bytes;
  sl_TokenProvider : option (M E bytes);
  sl_Kerberos : KerberosConfig E }.
Arguments mkSASLConfig {E}.
Arguments sl_Mechanism {E}.
Arguments sl_Username {E}.
Arguments sl_Password {E}.
Arguments sl_Token {E}.
Arguments sl_TokenProvider {E}.
Arguments sl_Kerberos {E}.

Record Config (E : Type) := mkConfig { sec_Protocol : bytes; sec_TLS : TLSConfig; sec_SASL : SASLConfig E }.
Arguments mkConfig {E}.
Arguments sec_Protocol {E}.
Arguments sec_TLS {E}.
Arguments sec_SASL {E}.

Definition SASLEnabled {E} (c : Config E) : bool :=
  bool_decide (sec_Protocol c = SecuritySASLPlaintext) || bool_decide (sec_Protocol c = SecuritySASLSSL).

Definition TLSEnabled {E} (c : Config E) : bool :=
  bool_decide (sec_Protocol c = SecuritySSL) || bool_decide (sec_Protocol c = SecuritySASLSSL) || tls_Enabled (sec_TLS c).

(** * Environment *)

Inductive ScramHash := SHA256 | SHA512.

Class Requester (E : Type) := Request : Z -> Z -> bytes -> M E bytes.

(** [rand_fill n] is what a buffer of [n] zero bytes holds after [rand.Read],
    whose error is ignored. *)
Class AuthEnv (E : Type) := {
  hash_sum : ScramHash -> bytes -> bytes;
  hmac_sum : ScramHash -> bytes -> bytes -> bytes;
  rand_fill : Z -> E -> E * bytes;
  MaxSCRAMIterations : Z;
}.

Definition VerSaslHandshake : Z := 1.
Definition VerSaslAuthenticate : Z := 1.

Definition ResponseBody (raw : bytes) : res bytes := ResponseBodyForAPI raw 0 0.

(** * Messages *)

Definition encodeSaslHandshake (mechanism : bytes) : bytes := be_bytes 2 (len mechanism) ++ mechanism.

Definition decodeSaslHandshakeErr (body : bytes) : res unit :=
  if len body <? 2 then Err (FmtError "auth: short sasl handshake response" 0) else
  let? b := slice body 0 2 in
  let code := s16 (be_value b) in
  if negb (code =? 0) then Err (FmtError "auth: sasl handshake error code" code) else Ok tt.

Definition wrapSasl (b : bytes) : bytes :=
  [z2b (Z.shiftr (len b) 24); z2b (Z.shiftr (len b) 16); z2b (Z.shiftr (len b) 8); z2b (len b)] ++ b.

(** [binary.BigEndian.PutUint32] of the length, then the message. *)
Definition prefixed (msg : bytes) : bytes := be_bytes 4 (len msg) ++ msg.

Definition buildPlainMessage (user pass : bytes) : bytes := prefixed ([x00] ++ user ++ [x00] ++ pass).

Definition buildOAuthMessage (token : bytes) : bytes := prefixed (str "n,," ++ str "auth=Bearer " ++ token).

Definition parseAuthBytes (raw : bytes) : res bytes :=
  let? body := ResponseBody raw in
  let? cea := run (ReadInt32 ;;;
    code <- ReadInt16 ;;
    errMsg <- ReadString ;;
    authBytes <- ReadBytes ;;
    ret (code, errMsg, default [] authBytes)) body in
  let '(code, errMsg, authBytes) := cea in
  if negb (code =? 0) then Err (FmtError "auth: sasl failed code" code) else
  let authBytes := if (len authBytes =? 0) && negb (bool_decide (errMsg = [])) then errMsg else authBytes in
  if (code =? 0) && (len authBytes =? 0) && bool_decide (errMsg = []) then Ok [] else
  if len authBytes =? 0 then Err (FmtError "auth: empty sasl response" 0) else
  Ok authBytes.

(** ** SCRAM attributes *)

(** [strings.Split(s, ",")] *)
Fixpoint split_commas (s : bytes) : list bytes :=
  match s with
  | [] => [[]]
  | c :: rest =>
      if bool_decide (c = z2b 44) then [] :: split_commas rest else
      match split_commas rest with
      | p :: ps => (c :: p) :: ps
      | [] => [[c]]
      end
  end.

(** The key and the value around the first [=], when there is one. *)
Fixpoint cut_equals (s : bytes) : option (bytes * bytes) :=
  match s with
  | [] => None
  | c :: rest =>
      if bool_decide (c = z2b 61) then Some ([], rest) else
      match cut_equals rest with
      | Some (k, v) => Some (c :: k, v)
      | None => None
      end
  end.

Definition add_field (out : gmap bytes bytes) (part : bytes) : gmap bytes bytes :=
  match cut_equals part with
  | Some (k, v) => if bool_decide (k = []) then out else <[k := v]> out
  | None => out
  end.

Definition parseScramFields (s : bytes) : gmap bytes bytes := foldl add_field ∅ (split_commas s).

Definition scram_field (fields : gmap bytes bytes) (k : string) : bytes := default [] (fields !! str k).

Definition saslEscape (s : bytes) : bytes :=
  concat (map (fun c => if bool_decide (c = z2b 61) then str "=3D" else if bool_decide (c = z2b 44) then str "=2C" else [c]) s).

(** [fmt.Sscanf(s, "%d", &n)]: white space, a sign, the digits; [None] when the
    variable keeps its value (no digit, a line break, or out of range). *)
Fixpoint skip_space (s : bytes) : bytes :=
  match s with
  | c :: rest => if bool_decide (b2z c ∈ [32; 9; 11; 12; 13]) then skip_space rest else s
  | [] => []
  end.

Definition is_digit (c : byte) : bool := (48 <=? b2z c) && (b2z c <=? 57).

Fixpoint take_digits (s : bytes) : bytes :=
  match s with
  | c :: rest => if is_digit c then c :: take_digits rest else []
  | [] => []
  end.

Definition digits_value (s : bytes) : Z := fold_left (fun n c => n * 10 + (b2z c - 48)) s 0.

Definition scan_int (s : bytes) : option Z :=
  let s := skip_space s in
  let '(neg, s) := match s with
                   | c :: rest => if bool_decide (c = z2b 45) then (true, rest) else if bool_decide (c = z2b 43) then (false, rest) else (false, s)
                   | [] => (false, s)
                   end in
  let ds := take_digits s in
  if bool_decide (ds = []) then None else
  let n := if (neg : bool) then - digits_value ds else digits_value ds in
  if (- 2 ^ 63 <=? n) && (n <? 2 ^ 63) then Some n else None.

(** ** Key derivation *)

Definition byte_xor (a b : byte) : byte := z2b (Z.lxor (b2z a) (b2z b)).

(** Bytewise, up to the shorter argument. *)
Fixpoint xor (a b : bytes) : bytes :=
  match a, b with
  | x :: a, y :: b => byte_xor x y :: xor a b
  | _, _ => []
  end.

Section scram.
Context {E : Type} `{AuthEnv E}.

Fixpoint pbkdf2_loop (h : ScramHash) (password u out : bytes) (n : nat) : bytes :=
  match n with
  | O => out
  | S n =>
      let u := hmac_sum h password u in
      pbkdf2_loop h password u (xor out u) n
  end.

(** The sums of a hash function have its size, so [out] starts as [u]. *)
Definition pbkdf2 (h : ScramHash) (password salt : bytes) (iter : Z) : bytes :=
  let u := hmac_sum h password (salt ++ [x00; x00; x00; x01]) in
  pbkdf2_loop h password u u (Z.to_nat (iter - 1)).

Definition SaltedPassword (mechanism password salt : bytes) (iterations : Z) : res bytes :=
  if bool_decide (mechanism = SASLSCRAM256) then Ok (pbkdf2 SHA256 password salt iterations)
  else if bool_decide (mechanism = SASLSCRAM512) then Ok (pbkdf2 SHA512 password salt iterations)
  else Err (FmtError "auth: unknown SCRAM mechanism" 0).

(** ** Exchanges *)

Context `{Requester E}.

Definition randomNonce : M E bytes := fun e => let '(e, b) := rand_fill 18 e in (e, Ok (EncodeToString b)).

Definition saslRound (msg : bytes) : M E bytes :=
  let! resp := Request APISaslAuthenticate VerSaslAuthenticate (wrapSasl msg) in
  mlift (parseAuthBytes resp).

(** 4096 unless the server says otherwise, never below one. *)
Definition scram_iterations (text : bytes) : Z :=
  let iterations := default 4096 (scan_int text) in
  if iterations <? 1 then 4096 else iterations.

Definition clientFirstBare (user nonce : bytes) : bytes := str "n=" ++ saslEscape user ++ str ",r=" ++ nonce.
Definition clientFinalWithoutProof (serverNonce : bytes) : bytes := str "c=biws,r=" ++ serverNonce.

Definition scram_proof (h : ScramHash) (user password nonce serverFirst serverNonce salt : bytes) (iterations : Z) : bytes :=
  let salted := pbkdf2 h password salt iterations in
  let clientKey := hmac_sum h salted (str "Client Key") in
  let storedKey := hash_sum h clientKey in
  let authMsg := clientFirstBare user nonce ++ str "," ++ serverFirst ++ str "," ++ clientFinalWithoutProof serverNonce in
  xor clientKey (hmac_sum h storedKey authMsg).

Definition scramExchange (h : ScramHash) (sec : Config E) : M E unit :=
  let user := sl_Username (sec_SASL sec) in
  let! nonce := randomNonce in
  let! serverFirst := saslRound (str "n,," ++ str "n=" ++ saslEscape user ++ str ",r=" ++ nonce) in
  let fields := parseScramFields serverFirst in
  let serverNonce := scram_field fields "r" in
  if negb (bool_decide (take (length nonce) serverNonce = nonce)) then merr (FmtError "auth: server nonce mismatch" 0) else
  let! salt := mlift (DecodeString (scram_field fields "s")) in
  let iterations := scram_iterations (scram_field fields "i") in
  if iterations >? MaxSCRAMIterations then merr (FmtError "auth: SCRAM iteration count exceeds limit" iterations) else
  let proof := scram_proof h user (sl_Password (sec_SASL sec)) nonce serverFirst serverNonce salt iterations in
  do! saslRound (str "c=biws,r=" ++ serverNonce ++ str ",p=" ++ EncodeToString proof) in
  mret tt.

Definition parseGSSAPIResponse (raw : bytes) : res (bytes * bool) :=
  let? msg := parseAuthBytes raw in
  Ok (if bool_decide (msg = []) then ([], true) else (msg, false)).

Fixpoint gssapi_rounds (k : KerberosConfig E) (token : bytes) (rounds : nat) : M E unit :=
  match rounds with
  | O => merr (FmtError "auth: GSSAPI handshake exceeded round limit" 0)
  | S rounds =>
      let! resp := Request APISaslAuthenticate VerSaslAuthenticate (wrapSasl token) in
      let! cc := mlift (parseGSSAPIResponse resp) in
      let '(challenge, complete) := cc in
      if (complete : bool) then mret tt else
      match kb_TokenProvider k with
      | None => merr (FmtError "auth: GSSAPI challenge received but KerberosConfig.TokenProvider is nil" 0)
      | Some provider =>
          let! r := mtry (provider challenge) in
          match r with
          | inl token => gssapi_rounds k token rounds
          | inr _ => merr (FmtError "auth: GSSAPI token provider" 0)
          end
      end
  end.

Definition gssapi (sec : Config E) : M E unit :=
  let k := sl_Kerberos (sec_SASL sec) in
  match kb_TokenProvider k, kb_InitToken k with
  | None, [] => merr (FmtError "auth: GSSAPI requires InitToken or TokenProvider" 0)
  | _, token => gssapi_rounds k token 32
  end.

Definition saslAuthenticate (payload : bytes) : M E unit :=
  let! resp := Request APISaslAuthenticate VerSaslAuthenticate payload in
  let! rb := mlift (ResponseBody resp) in
  if len rb <? 6 then merr (FmtError "auth: short sasl authenticate response" 0) else
  let! b := mlift (slice rb 4 6) in
  let code := s16 (be_value b) in
  if negb (code =? 0) then merr (FmtError "auth: sasl authenticate failed code" code) else mret tt.

Definition oauth_token (s : SASLConfig E) : M E bytes :=
  match sl_Token s, sl_TokenProvider s with
  | [], Some provider =>
      let! r := mtry provider in
      match r with
      | inl token => mret token
      | inr _ => merr (FmtError "auth: oauth token provider" 0)
      end
  | token, _ => mret token
  end.

Definition Handshake (sec : Config E) : M E unit :=
  let s := sec_SASL sec in
  let mech := if bool_decide (sl_Mechanism s = []) then str "PLAIN" else sl_Mechanism s in
  let! resp := Request APISaslHandshake VerSaslHandshake (encodeSaslHandshake mech) in
  let! rb := mlift (ResponseBody resp) in
  do! mlift (decodeSaslHandshakeErr rb) in
  if bool_decide (sl_Mechanism s = SASLSCRAM256) then scramExchange SHA256 sec
  else if bool_decide (sl_Mechanism s = SASLSCRAM512) then scramExchange SHA512 sec
  else if bool_decide (sl_Mechanism s = SASLGSSAPI) then gssapi sec
  else if bool_decide (sl_Mechanism s = SASLOAuth) then
    let! token := oauth_token s in
    if bool_decide (token = []) then merr (FmtError "auth: OAUTHBEARER requires Token or TokenProvider" 0)
    else saslAuthenticate (buildOAuthMessage token)
  else saslAuthenticate (buildPlainMessage (sl_Username s) (sl_Password s)).
End scram.
