(* ===== verification/AuthFacts.v ===== *)
(** SASL authentication: theorems.

    [internal/auth] against a broker that follows RFC 5802 and the Kafka
    protocol ([Server]), and against brokers that do not. *)

From Stdlib Require Import ZArith Lia.
From Stdlib Require Import Strings.Byte.
From stdpp Require Import base list gmap countable strings.
From S2P Require Import Prelude.
From S2P Require Import Wire.
From S2P Require Import Header.
From S2P Require Import GoMonad.
From S2P Require Import Base64.
From S2P Require Import EndToEnd.
From S2P Require Import Auth.

Open Scope Z_scope.
Open Scope go_scope.

(** * Responses *)

(** The body of a SaslAuthenticate response, version 1: error code, nullable
    error message, authentication bytes, session lifetime. *)
Definition sasl_body (code : Z) (msg : option bytes) (auth : bytes) (lifetime : Z) : bytes :=
  be_bytes 2 code ++ (match msg with None => be_bytes 2 (-1) | Some m => be_bytes 2 (len m) ++ m end) ++
  be_bytes 4 (len auth) ++ auth ++ be_bytes 8 lifetime.

(** A response frame under some correlation id. *)
Definition reply_frame (corr : Z) (body : bytes) : bytes := be_bytes 4 (4 + len body) ++ be_bytes 4 corr ++ body.

Lemma ResponseBody_reply corr body : int32 corr -> len body < 2 ^ 31 - 4 -> ResponseBody (reply_frame corr body) = Ok body.
Proof.
  intros Hc Hl. unfold reply_frame, ResponseBody.
  assert (H4 : 4 + len body = len (be_bytes 4 corr ++ body)) by (rewrite len_app, len_be_bytes; lia). rewrite H4.
  destruct (response_unwrap corr 0 0 body (be_bytes 4 corr ++ body)) as [_ E]; [done|by apply list_elem_of_In; cbn; auto|reflexivity| |exact E].
  lia.
Qed.

Lemma be_bytes_zero_high n k v : 0 <= v < 2 ^ (8 * Z.of_nat n) -> be_bytes (k + n) v = be_bytes k 0 ++ be_bytes n v.
Proof.
  revert v. induction n as [|n IH]; intros v Hv.
  - rewrite Nat.add_0_r. cbn [be_bytes]. rewrite app_nil_r. f_equal. change (2 ^ (8 * Z.of_nat 0)) with 1 in Hv. lia.
  - rewrite Nat.add_succ_r. cbn [be_bytes]. rewrite IH, app_assoc; [done|].
    replace (8 * Z.of_nat (S n)) with (8 + 8 * Z.of_nat n) in Hv by lia. rewrite Z.pow_add_r in Hv by lia.
    split; [apply Z.div_pos; lia|]. apply Z.div_lt_upper_bound; lia.
Qed.

Lemma reads_int32_any b : len b = 4 -> reads ReadInt32 b (s32 (be_value b)).
Proof.
  intros Hb. rewrite <- (app_nil_r b). eapply reads_bind; [rewrite <- Hb; apply reads_take|]. rewrite app_nil_r. apply reads_ret.
Qed.

Lemma reads_string m : len m < 2 ^ 15 -> reads ReadString (be_bytes 2 (len m) ++ m) m.
Proof.
  intros Hm. pose proof (len_nonneg m). eapply reads_bind; [apply reads_be2; unfold int16; lia|].
  destruct (Z.ltb_spec (len m) 0); [lia|]. apply reads_take.
Qed.

Lemma reads_bytes m : len m < 2 ^ 31 -> reads ReadBytes (be_bytes 4 (len m) ++ m) (Some m).
Proof.
  intros Hm. pose proof (len_nonneg m). eapply reads_bind; [apply reads_be4; unfold int32; lia|].
  destruct (Z.ltb_spec (len m) 0); [lia|]. rewrite <- (app_nil_r m) at 2. eapply reads_bind; [apply reads_take|apply reads_ret].
Qed.

Lemma reads_run {A} (m : Rd A) bs rest a : reads m bs a -> run m (bs ++ rest) = Ok a.
Proof. intros Hr. specialize (Hr [] rest). cbn [app] in Hr. change (len []) with 0 in Hr. unfold run, FromBytes. by rewrite Hr. Qed.

(** What the parser makes of a response without an error message: the error code
    is never looked at. *)
Lemma parse_sasl_body code auth lifetime corr : int32 corr -> len auth < 2 ^ 15 -> 0 <= lifetime < 2 ^ 32 ->
  parseAuthBytes (reply_frame corr (sasl_body code None auth lifetime)) = Ok auth.
Proof.
  intros Hc Ha Hl. pose proof (len_nonneg auth). unfold parseAuthBytes.
  rewrite ResponseBody_reply; [|done|unfold sasl_body; rewrite !len_app, !len_be_bytes; lia]. cbn [res_bind].
  assert (Hb : sasl_body code None auth lifetime =
    (be_bytes 2 code ++ be_bytes 2 (-1)) ++ (be_bytes 2 0 ++ (be_bytes 2 (len auth) ++ auth) ++ (be_bytes 4 (len (@nil byte)) ++ [])) ++ be_bytes 4 lifetime).
  { unfold sasl_body. assert (be_bytes 4 (len auth) = be_bytes 2 0 ++ be_bytes 2 (len auth)) as -> by (apply (be_bytes_zero_high 2 2); lia).
    assert (be_bytes 8 lifetime = be_bytes 4 0 ++ be_bytes 4 lifetime) as -> by (apply (be_bytes_zero_high 4 4); lia).
    rewrite app_nil_r, <- !app_assoc. done. }
  rewrite Hb, app_assoc. erewrite reads_run.
  2:{ eapply reads_bind; [by apply reads_int32_any; rewrite len_app, !len_be_bytes|]. eapply reads_bind; [by apply reads_be2|].
      eapply reads_bind; [by apply reads_string|]. rewrite <- (app_nil_r (be_bytes 4 (len (@nil byte)) ++ [])).
      eapply reads_bind; [by apply (reads_bytes [])|]. apply reads_ret. }
  cbn [res_bind default]. change (negb (0 =? 0)) with false. cbv iota. change (len (@nil byte) =? 0) with true. cbn [andb].
  destruct auth as [|c auth]; [done|]. rewrite bool_decide_false by done. cbn [negb]. cbv iota.
  destruct (Z.eqb_spec (len (c :: auth)) 0) as [E|_]; [rewrite len_cons in E; pose proof (len_nonneg auth); lia|]. done.
Qed.

(** * Passwords *)

(** [Hi] of RFC 5802: [U1 xor U2 xor ... xor Ui]. *)
Section hi.
Context {E : Type} `{AuthEnv E}.

Fixpoint U (h : ScramHash) (password salt : bytes) (n : nat) : bytes :=
  match n with
  | O => hmac_sum h password (salt ++ [x00; x00; x00; x01])
  | S n => hmac_sum h password (U h password salt n)
  end.

Definition Hi (h : ScramHash) (password salt : bytes) (i : Z) : bytes :=
  foldl xor (U h password salt 0) (U h password salt <$> seq 1 (Z.to_nat (i - 1))).

Lemma pbkdf2_loop_U h password salt n : forall k out,
  pbkdf2_loop h password (U h password salt k) out n = foldl xor out (U h password salt <$> seq (S k) n).
Proof. induction n as [|n IH]; intros k out; [done|]. cbn [pbkdf2_loop seq fmap list_fmap foldl]. apply (IH (S k)). Qed.

Lemma pbkdf2_Hi h password salt i : pbkdf2 h password salt i = Hi h password salt i.
Proof. apply (pbkdf2_loop_U h password salt _ 0). Qed.
End hi.

(** ** Exclusive or *)

Lemma lxor_byte x y : 0 <= x < 256 -> 0 <= y < 256 -> 0 <= Z.lxor x y < 256.
Proof.
  intros Hx Hy. assert (Hn : 0 <= Z.lxor x y) by (apply Z.lxor_nonneg; lia). split; [done|]. change 256 with (2 ^ 8).
  destruct (Z.eq_dec (Z.lxor x y) 0) as [->|]; [lia|]. apply Z.log2_lt_pow2; [lia|].
  eapply Z.le_lt_trans; [apply Z.log2_lxor; lia|].
  apply Z.max_lub_lt; [destruct (Z.eq_dec x 0) as [->|]|destruct (Z.eq_dec y 0) as [->|]]; try done; apply Z.log2_lt_pow2; lia.
Qed.

Lemma byte_xor_back x y : byte_xor (byte_xor x y) y = x.
Proof.
  unfold byte_xor. pose proof (b2z_range x). pose proof (b2z_range y). pose proof (lxor_byte (b2z x) (b2z y)).
  rewrite b2z_z2b, Z.mod_small by lia. by rewrite Z.lxor_assoc, Z.lxor_nilpotent, Z.lxor_0_r, z2b_b2z.
Qed.

Lemma xor_back a : forall b, length a = length b -> xor (xor a b) b = a.
Proof. induction a as [|x a IH]; intros [|y b] [=]; [done|]. cbn [xor]. by rewrite byte_xor_back, IH. Qed.

(** ** Names *)

Fixpoint sasl_unescape (s : bytes) : bytes :=
  match s with
  | c :: rest =>
      if bool_decide (c = z2b 61) then
        match rest with
        | a :: b :: rest => (if bool_decide (b = z2b 68) then z2b 61 else z2b 44) :: sasl_unescape rest
        | _ => []
        end
      else c :: sasl_unescape rest
  | [] => []
  end.

Lemma saslEscape_cons c s : saslEscape (c :: s) =
  (if bool_decide (c = z2b 61) then str "=3D" else if bool_decide (c = z2b 44) then str "=2C" else [c]) ++ saslEscape s.
Proof. done. Qed.

Lemma sasl_unescape_escape s : sasl_unescape (saslEscape s) = s.
Proof.
  induction s as [|c s IH]; [done|]. rewrite saslEscape_cons. destruct (bool_decide (c = z2b 61)) eqn:E1.
  - apply bool_decide_eq_true in E1 as ->. change (z2b 61 :: sasl_unescape (saslEscape s) = z2b 61 :: s). by rewrite IH.
  - destruct (bool_decide (c = z2b 44)) eqn:E2.
    + apply bool_decide_eq_true in E2 as ->. change (z2b 44 :: sasl_unescape (saslEscape s) = z2b 44 :: s). by rewrite IH.
    + cbn [app sasl_unescape]. by rewrite E1, IH.
Qed.

Lemma saslEscape_no_comma s : Forall (fun c => c <> z2b 44) (saslEscape s).
Proof.
  induction s as [|c s IH]; [done|]. rewrite saslEscape_cons. apply Forall_app. split; [|done].
  destruct (bool_decide (c = z2b 61)); [by repeat constructor|]. destruct (bool_decide (c = z2b 44)) eqn:E; [by repeat constructor|].
  apply bool_decide_eq_false in E. by repeat constructor.
Qed.

(** ** Attributes *)

Lemma split_commas_free s : Forall (fun c => c <> z2b 44) s -> split_commas s = [s].
Proof.
  induction s as [|c s IH]; [done|]. intros Hf. apply Forall_cons in Hf as [Hc Hs]. cbn [split_commas].
  rewrite bool_decide_false by done. by rewrite (IH Hs).
Qed.

Lemma split_commas_app s t : Forall (fun c => c <> z2b 44) s -> split_commas (s ++ z2b 44 :: t) = s :: split_commas t.
Proof.
  induction s as [|c s IH]; intros Hf.
  - cbn [app split_commas]. by rewrite bool_decide_true.
  - apply Forall_cons in Hf as [Hc Hs]. cbn [app split_commas]. rewrite bool_decide_false by done. by rewrite (IH Hs).
Qed.

(** The three attributes of a server-first message. *)
Lemma server_first_fields nonce salt itext :
  Forall (fun c => c <> z2b 44) nonce -> Forall (fun c => c <> z2b 44) salt -> Forall (fun c => c <> z2b 44) itext ->
  let fields := parseScramFields (str "r=" ++ nonce ++ str ",s=" ++ salt ++ str ",i=" ++ itext) in
  scram_field fields "r" = nonce /\ scram_field fields "s" = salt /\ scram_field fields "i" = itext.
Proof.
  intros Hn Hs Hi. unfold parseScramFields.
  replace (str "r=" ++ nonce ++ str ",s=" ++ salt ++ str ",i=" ++ itext) with
    ((str "r=" ++ nonce) ++ z2b 44 :: (str "s=" ++ salt) ++ z2b 44 :: (str "i=" ++ itext)) by (rewrite <- !app_assoc; done).
  rewrite !split_commas_app by (apply Forall_app; split; [by repeat constructor|done]).
  rewrite split_commas_free by (apply Forall_app; split; [by repeat constructor|done]). cbn [foldl].
  change (add_field (add_field (add_field ∅ (str "r=" ++ nonce)) (str "s=" ++ salt)) (str "i=" ++ itext))
    with (<[str "i" := itext]> (<[str "s" := salt]> (<[str "r" := nonce]> (∅ : gmap bytes bytes)))).
  unfold scram_field. split_and!; [by do 2 rewrite lookup_insert_ne by done; rewrite lookup_insert_eq|
    by rewrite lookup_insert_ne, lookup_insert_eq by done|by rewrite lookup_insert_eq].
Qed.

(** * A broker *)

(** Credentials as RFC 5802 stores them: not the password. *)
Record credential := mkCredential { cr_salt : bytes; cr_iterations : bytes; cr_StoredKey : bytes; cr_ServerKey : bytes }.

Inductive stage :=
| Start
| Challenged (user bare serverFirst nonce : bytes)
| Authenticated (user : bytes)
| Failed.

Record Server := mkServer {
  sv_hash : ScramHash;
  sv_users : gmap bytes credential;
  sv_nonce : bytes;
  sv_lifetime : Z;
  sv_stage : stage }.

Definition strip (p s : bytes) : option bytes := if bool_decide (take (length p) s = p) then Some (drop (length p) s) else None.

(** The user name, [client-first-message-bare] and the nonce. *)
Definition client_first (payload : bytes) : option (bytes * bytes * bytes) :=
  match strip (str "n,,") payload with
  | None => None
  | Some bare =>
      match split_commas bare with
      | [n; r] =>
          match strip (str "n=") n, strip (str "r=") r with
          | Some user, Some nonce => Some (sasl_unescape user, bare, nonce)
          | _, _ => None
          end
      | _ => None
      end
  end.

Definition server_first (nonce : bytes) (cr : credential) : bytes :=
  str "r=" ++ nonce ++ str ",s=" ++ EncodeToString (cr_salt cr) ++ str ",i=" ++ cr_iterations cr.

Definition scram_name (h : ScramHash) : bytes := match h with SHA256 => SASLSCRAM256 | SHA512 => SASLSCRAM512 end.

Section server.
Context `{AuthEnv Server}.

Definition server_final (h : ScramHash) (cr : credential) (bare serverFirst nonce proof : bytes) : option bytes :=
  let authMsg := bare ++ str "," ++ serverFirst ++ str "," ++ str "c=biws,r=" ++ nonce in
  let clientKey := xor proof (hmac_sum h (cr_StoredKey cr) authMsg) in
  if bool_decide (hash_sum h clientKey = cr_StoredKey cr)
  then Some (str "v=" ++ EncodeToString (hmac_sum h (cr_ServerKey cr) authMsg)) else None.

Definition server_step (sv : Server) (payload : bytes) : stage * option bytes :=
  match sv_stage sv with
  | Start =>
      match client_first payload with
      | Some (user, bare, cnonce) =>
          match sv_users sv !! user with
          | Some cr =>
              let nonce := cnonce ++ sv_nonce sv in
              (Challenged user bare (server_first nonce cr) nonce, Some (server_first nonce cr))
          | None => (Failed, None)
          end
      | None => (Failed, None)
      end
  | Challenged user bare serverFirst nonce =>
      match sv_users sv !! user, strip (str "c=biws,r=" ++ nonce ++ str ",p=") payload with
      | Some cr, Some text =>
          match DecodeString text with
          | Ok proof =>
              match server_final (sv_hash sv) cr bare serverFirst nonce proof with
              | Some v => (Authenticated user, Some v)
              | None => (Failed, None)
              end
          | _ => (Failed, None)
          end
      | _, _ => (Failed, None)
      end
  | st => (Failed, None)
  end.

Definition with_stage (st : stage) (sv : Server) : Server := mkServer (sv_hash sv) (sv_users sv) (sv_nonce sv) (sv_lifetime sv) st.

Definition handshake_body (code : Z) (mechanism : bytes) : bytes := be_bytes 2 code ++ be_bytes 4 1 ++ be_bytes 2 (len mechanism) ++ mechanism.

#[export] Instance server_requester : Requester Server := fun k v body sv =>
  if k =? APISaslHandshake then
    let ok := bool_decide (body = encodeSaslHandshake (scram_name (sv_hash sv))) in
    (sv, Ok (reply_frame 1 (handshake_body (if ok then 0 else 33) (scram_name (sv_hash sv)))))
  else if (k =? APISaslAuthenticate) && bool_decide (body = prefixed (drop 4 body)) then
    let '(st, reply) := server_step sv (drop 4 body) in
    (with_stage st sv, Ok (reply_frame 1 (match reply with
                                          | Some auth => sasl_body 0 None auth (sv_lifetime sv)
                                          | None => sasl_body 58 (Some (str "Authentication failed")) [] 0
                                          end)))
  else (sv, Err NetError).

Lemma strip_app p s : strip p (p ++ s) = Some s.
Proof. unfold strip. rewrite take_app_length, bool_decide_true by done. by rewrite drop_app_length. Qed.

Lemma wrapSasl_prefixed b : wrapSasl b = prefixed b.
Proof.
  unfold wrapSasl, prefixed. f_equal. change (be_bytes 4 (len b)) with ([z2b (len b / 256 / 256 / 256); z2b (len b / 256 / 256); z2b (len b / 256); z2b (len b)]).
  rewrite !Z.shiftr_div_pow2 by lia. rewrite !Z.div_div by lia. done.
Qed.

Lemma drop_prefixed msg : drop 4 (prefixed msg) = msg.
Proof. apply drop_app_length'. by rewrite length_be_bytes. Qed.

Lemma handshake_ok mechanism : len mechanism < 2 ^ 15 ->
  (let? rb := ResponseBody (reply_frame 1 (handshake_body 0 mechanism)) in decodeSaslHandshakeErr rb) = Ok tt.
Proof.
  intros Hm. assert (Hl : len (handshake_body 0 mechanism) = 8 + len mechanism) by (unfold handshake_body; rewrite !len_app, !len_be_bytes; lia).
  pose proof (len_nonneg mechanism). rewrite ResponseBody_reply by (unfold int32; lia). cbn [res_bind].
  unfold decodeSaslHandshakeErr. rewrite Hl. destruct (Z.ltb_spec (8 + len mechanism) 2); [lia|].
  unfold handshake_body.
  pose proof (slice_app [] (be_bytes 2 0) (be_bytes 4 1 ++ be_bytes 2 (len mechanism) ++ mechanism)) as Hs.
  cbn [app] in Hs. rewrite len_be_bytes in Hs. change (len (@nil byte)) with 0 in Hs. rewrite Z.add_0_l in Hs.
  change (Z.of_nat 2) with 2 in Hs. rewrite Hs. done.
Qed.

(** One round with the server. *)
Lemma server_round sv msg st auth : server_step sv msg = (st, Some auth) -> len auth < 2 ^ 15 -> 0 <= sv_lifetime sv < 2 ^ 32 ->
  saslRound msg sv = (with_stage st sv, Ok auth).
Proof.
  intros Hstep Ha Hlife. unfold saslRound. rewrite wrapSasl_prefixed. unfold mthen, Request, server_requester.
  change (APISaslAuthenticate =? APISaslHandshake) with false. change (APISaslAuthenticate =? APISaslAuthenticate) with true. cbv iota. cbn [andb].
  rewrite drop_prefixed, bool_decide_true by done. rewrite Hstep. unfold mlift. rewrite parse_sasl_body by (done || (unfold int32; lia)). done.
Qed.

Lemma server_first_round sv user cnonce cr : sv_stage sv = Start -> sv_users sv !! user = Some cr ->
  Forall (fun c => c <> z2b 44) cnonce ->
  server_step sv (str "n,," ++ str "n=" ++ saslEscape user ++ str ",r=" ++ cnonce) =
    (Challenged user (clientFirstBare user cnonce) (server_first (cnonce ++ sv_nonce sv) cr) (cnonce ++ sv_nonce sv),
     Some (server_first (cnonce ++ sv_nonce sv) cr)).
Proof.
  intros Hst Hu Hn. unfold server_step, client_first. rewrite Hst, strip_app.
  replace (str "n=" ++ saslEscape user ++ str ",r=" ++ cnonce) with ((str "n=" ++ saslEscape user) ++ z2b 44 :: (str "r=" ++ cnonce))
    by (rewrite <- !app_assoc; done).
  rewrite split_commas_app by (apply Forall_app; split; [by repeat constructor|apply saslEscape_no_comma]).
  rewrite split_commas_free by (apply Forall_app; split; [by repeat constructor|done]).
  rewrite !strip_app, sasl_unescape_escape, Hu. unfold clientFirstBare. do 3 f_equal; rewrite <- !app_assoc; done.
Qed.

Lemma server_final_accepts sv h cr user password nonce serverNonce iterations bare serverFirst :
  (forall k m k' m', length (hmac_sum h k m) = length (hmac_sum h k' m')) ->
  cr_StoredKey cr = hash_sum h (hmac_sum h (Hi h password (cr_salt cr) iterations) (str "Client Key")) ->
  bare = clientFirstBare user nonce -> sv_hash sv = h -> sv_users sv !! user = Some cr ->
  sv_stage sv = Challenged user bare serverFirst serverNonce ->
  exists v, server_step sv (str "c=biws,r=" ++ serverNonce ++ str ",p=" ++
      EncodeToString (scram_proof h user password nonce serverFirst serverNonce (cr_salt cr) iterations)) = (Authenticated user, Some v) /\
    v = str "v=" ++ EncodeToString (hmac_sum h (cr_ServerKey cr) (bare ++ str "," ++ serverFirst ++ str "," ++ str "c=biws,r=" ++ serverNonce)).
Proof.
  intros Hsize Hkey -> Hh Hu Hst. eexists. split; [|reflexivity]. unfold server_step. rewrite Hst, Hu.
  replace (str "c=biws,r=" ++ serverNonce ++ str ",p=" ++ EncodeToString _) with
    ((str "c=biws,r=" ++ serverNonce ++ str ",p=") ++ EncodeToString (scram_proof h user password nonce serverFirst serverNonce (cr_salt cr) iterations))
    by (rewrite <- !app_assoc; done).
  rewrite strip_app, base64_roundtrip, Hh. unfold server_final, scram_proof, clientFinalWithoutProof. rewrite pbkdf2_Hi, <- Hkey.
  rewrite xor_back by apply Hsize. by rewrite <- Hkey, bool_decide_true.
Qed.

(** ** The exchange *)

Lemma Handshake_scram h sec (sv : Server) : sl_Mechanism (sec_SASL sec) = scram_name h -> sv_hash sv = h ->
  Handshake sec sv = scramExchange h sec sv.
Proof.
  intros Hm Hh. unfold Handshake. rewrite Hm. rewrite bool_decide_false by (by destruct h). unfold mthen at 1, Request, server_requester.
  change (APISaslHandshake =? APISaslHandshake) with true. cbv iota. rewrite Hh, bool_decide_true by done.
  pose proof (handshake_ok (scram_name h) ltac:(by destruct h)) as Hok.
  destruct (ResponseBody (reply_frame 1 (handshake_body 0 (scram_name h)))) as [rb| |]; [|done|done]. cbn [res_bind] in Hok.
  unfold mthen at 1 2, mlift. rewrite Hok. by destruct h.
Qed.

Record good_login (h : ScramHash) (sec : Config Server) (sv : Server) (cr : credential) (iterations : Z) : Prop := {
  gl_hash : sv_hash sv = h;
  gl_start : sv_stage sv = Start;
  gl_user : sv_users sv !! sl_Username (sec_SASL sec) = Some cr;
  gl_key : cr_StoredKey cr = hash_sum h (hmac_sum h (Hi h (sl_Password (sec_SASL sec)) (cr_salt cr) iterations) (str "Client Key"));
  gl_iterations : scan_int (cr_iterations cr) = Some iterations /\ 1 <= iterations <= MaxSCRAMIterations;
  gl_commas : Forall (fun c => c <> z2b 44) (sv_nonce sv) /\ Forall (fun c => c <> z2b 44) (cr_iterations cr);
  gl_sizes : 0 <= sv_lifetime sv < 2 ^ 32 /\ (forall k m k' m', length (hmac_sum h k m) = length (hmac_sum h k' m')) /\
    (forall k m, len (hmac_sum h k m) <= 64);
  gl_length : forall nonce, len nonce = 24 -> len (server_first (nonce ++ sv_nonce sv) cr) < 2 ^ 15;
  gl_random : forall s, fst (rand_fill 18 s) = s /\ len (snd (rand_fill 18 s)) = 18 }.

(** The exchange, message by message. *)
Lemma scram_login h sec sv cr iterations : sl_Mechanism (sec_SASL sec) = scram_name h ->
  good_login h sec sv cr iterations ->
  exists sv', Handshake sec sv = (sv', Ok tt) /\ sv_stage sv' = Authenticated (sl_Username (sec_SASL sec)).
Proof.
  intros Hm [Hh Hst Hu Hkey [Hscan Hit] [Hcn Hci] [Hlife [Hsize Hmax]] Hlen Hrand].
  rewrite (Handshake_scram h) by done. unfold scramExchange, randomNonce. unfold mthen at 1.
  destruct (Hrand sv) as [Hsv H18]. destruct (rand_fill 18 sv) as [sv1 b] eqn:Hb. cbn [fst snd] in Hsv, H18. subst sv1.
  set (nonce := EncodeToString b) in *. set (user := sl_Username (sec_SASL sec)) in *.
  pose proof (Hlen nonce) as Hl. unfold nonce at 1 in Hl. rewrite base64_length, H18 in Hl. specialize (Hl eq_refl). set (sn := nonce ++ sv_nonce sv) in *.
  assert (Hnonce : Forall (fun c => c <> z2b 44) nonce) by apply base64_no_comma.
  unfold mthen at 1. rewrite (server_round sv _ _ _ (server_first_round sv user nonce cr Hst Hu Hnonce) Hl Hlife). cbv zeta.
  destruct (server_first_fields sn (EncodeToString (cr_salt cr)) (cr_iterations cr)) as (Fr & Fs & Fi);
    [by apply Forall_app|apply base64_no_comma|done|].
  change (str "r=" ++ sn ++ str ",s=" ++ EncodeToString (cr_salt cr) ++ str ",i=" ++ cr_iterations cr) with (server_first sn cr) in Fr, Fs, Fi.
  fold sn. rewrite Fr, Fs, Fi.
  assert (take (length nonce) sn = nonce) as Hpre by apply take_app_length. rewrite Hpre, bool_decide_true by done. cbn [negb]. cbv iota.
  rewrite base64_roundtrip. unfold mthen at 1, mlift. unfold scram_iterations. rewrite Hscan. change (default 4096 (Some iterations)) with iterations.
  destruct (Z.ltb_spec iterations 1); [lia|]. destruct (Z.gtb_spec iterations MaxSCRAMIterations); [lia|].
  set (sv1 := with_stage _ sv). set (sf := server_first sn cr).
  destruct (server_final_accepts sv1 h cr user (sl_Password (sec_SASL sec)) nonce sn iterations (clientFirstBare user nonce) sf)
    as (v & Hfinal & Hv); try done.
  unfold mthen. rewrite (server_round sv1 _ _ _ Hfinal).
  - eexists. split; [reflexivity|]. done.
  - subst v. rewrite len_app, base64_length. change (len (str "v=")) with 2.
    pose proof (Hmax (cr_ServerKey cr) (clientFirstBare user nonce ++ str "," ++ sf ++ str "," ++ str "c=biws,r=" ++ sn)) as Hm64.
    set (x := len (hmac_sum _ _ _)) in *. pose proof (Z.mul_div_le (x + 2) 3 ltac:(lia)). lia.
  - done.
Qed.

(** C7: SCRAM authentication end to end.  Against a broker that follows RFC 5802
    and holds the stored key of the user's password, the handshake succeeds and
    the broker has authenticated exactly that user: the client's key derivation
    is the standard's [Hi], names are escaped and attributes parsed back, and
    the proof in base64 opens to the client key, for every user name, password,
    salt, nonce and hash function, and every iteration count within the limit. *)
Theorem scram_authenticates h sec sv cr iterations : sl_Mechanism (sec_SASL sec) = scram_name h ->
  good_login h sec sv cr iterations ->
  exists sv', Handshake sec sv = (sv', Ok tt) /\ sv_stage sv' = Authenticated (sl_Username (sec_SASL sec)).
Proof. apply scram_login. Qed.
End server.

(** * What the client checks *)

Section checks.
Context {E : Type} `{AuthEnv E} `{Requester E}.

(** The client stops before it uses the password.  Whatever the broker
    answers to the first SCRAM message, when its nonce does not extend the
    client's, its salt is not base64 or its iteration count exceeds the limit,
    the exchange ends with an error in the world that the first round left: no
    second message is sent and no key is derived. *)
Theorem scram_stops_early h sec e e1 nonce e2 serverFirst :
  randomNonce e = (e1, Ok nonce) ->
  saslRound (str "n,," ++ clientFirstBare (sl_Username (sec_SASL sec)) nonce) e1 = (e2, Ok serverFirst) ->
  let fields := parseScramFields serverFirst in
  take (length nonce) (scram_field fields "r") <> nonce \/ (exists err, DecodeString (scram_field fields "s") = Err err) \/
    (exists salt, DecodeString (scram_field fields "s") = Ok salt) /\ scram_iterations (scram_field fields "i") > MaxSCRAMIterations ->
  exists err, scramExchange h sec e = (e2, Err err).
Proof.
  intros Hn Hr fields Hbad. unfold scramExchange. unfold mthen at 1. rewrite Hn. unfold mthen at 1.
  unfold clientFirstBare in Hr. rewrite Hr. fold fields.
  destruct (decide (take (length nonce) (scram_field fields "r") = nonce)) as [He|Hne].
  2:{ rewrite bool_decide_false by done. by eexists. }
  rewrite bool_decide_true by done. cbn [negb]. cbv iota. unfold mthen at 1, mlift.
  destruct Hbad as [?|[[err ->]|[[salt ->] Hi]]]; [done|by eexists|].
  destruct (Z.gtb_spec (scram_iterations (scram_field fields "i")) MaxSCRAMIterations); [by eexists|lia].
Qed.
End checks.

(** * What a handshake leaves alone *)

(** Any preorder that requests, the random source and the callbacks respect. *)
Section handshake_keeps.
Context {E : Type} `{AuthEnv E} `{Requester E} (R : E -> E -> Prop) `{!PreOrder R}.
Context (keeps_Request : forall k v b, Keeps R (Request k v b)).
Context (keeps_rand : forall n s, R s (fst (rand_fill n s))).

Definition callbacks_keep (s : SASLConfig E) : Prop :=
  (forall m, sl_TokenProvider s = Some m -> Keeps R m) /\
  (forall f c, kb_TokenProvider (sl_Kerberos s) = Some f -> Keeps R (f c)).

Lemma keeps_randomNonce : Keeps R randomNonce.
Proof. intros s. unfold randomNonce. specialize (keeps_rand 18 s). by destruct (rand_fill 18 s). Qed.

Lemma keeps_saslRound msg : Keeps R (saslRound msg).
Proof. unfold saslRound. apply keeps_then; [done|apply keeps_Request|intros ?; apply keeps_lift; done]. Qed.

Lemma keeps_scram h sec : Keeps R (scramExchange h sec).
Proof. pose proof keeps_randomNonce. pose proof keeps_saslRound. unfold scramExchange. solve_keeps. Qed.

Lemma keeps_gssapi sec : callbacks_keep (sec_SASL sec) -> Keeps R (gssapi sec).
Proof.
  intros [_ Hk]. assert (Hr : forall n token, Keeps R (gssapi_rounds (sl_Kerberos (sec_SASL sec)) token n)).
  { induction n as [|n IH]; intros token; cbn [gssapi_rounds]; [apply keeps_err; done|].
    apply keeps_then; [done|apply keeps_Request|intros resp]. apply keeps_then; [done|apply keeps_lift; done|intros [challenge [|]]]; [apply keeps_ret; done|].
    destruct (kb_TokenProvider (sl_Kerberos (sec_SASL sec))) as [f|] eqn:Hf; [|apply keeps_err; done].
    apply keeps_then; [done|apply keeps_try, (Hk f challenge eq_refl)|intros [t|e]]; [apply IH|apply keeps_err; done]. }
  unfold gssapi. destruct (kb_TokenProvider _), (kb_InitToken _); try apply Hr. apply keeps_err; done.
Qed.

Lemma keeps_Handshake sec : callbacks_keep (sec_SASL sec) -> Keeps R (Handshake sec).
Proof.
  intros Hc. pose proof (keeps_gssapi sec Hc) as Hg. pose proof keeps_scram. destruct Hc as [Ht _].
  assert (Ha : forall payload, Keeps R (saslAuthenticate payload)) by (intros payload; unfold saslAuthenticate; solve_keeps).
  assert (Ho : Keeps R (oauth_token (sec_SASL sec))).
  { unfold oauth_token. destruct (sl_Token _); [|apply keeps_ret; done]. destruct (sl_TokenProvider (sec_SASL sec)) as [m|] eqn:Hm; [|apply keeps_ret; done].
    apply keeps_then; [done|apply keeps_try, (Ht m eq_refl)|intros [t|e]]; [apply keeps_ret; done|apply keeps_err; done]. }
  unfold Handshake. solve_keeps.
Qed.
End handshake_keeps.

(** * Brokers that do not follow the protocol *)

(** A broker that accepts every mechanism and answers the authentication with
    an error code, and perhaps a message. *)
Definition refusing {E} (code : Z) (msg : option bytes) : Requester E := fun k _ body e =>
  (e, Ok (reply_frame 1 (if k =? APISaslHandshake then handshake_body 0 (drop 2 body) else sasl_body code msg [] 0))).

Definition single_message {E} (sec : Config E) : Prop :=
  let s := sec_SASL sec in
  sl_Mechanism s = SASLPlain \/ (sl_Mechanism s = SASLOAuth /\ sl_Token s <> []) \/ (sl_Mechanism s = SASLGSSAPI /\ kb_InitToken (sl_Kerberos s) <> []).

Lemma refused_payload {E} code payload (e : E) :
  @saslAuthenticate E (refusing code None) payload e = (e, Ok tt) /\
  exists err, @saslAuthenticate E (refusing code (Some (str "Authentication failed"))) payload e = (e, Err err).
Proof.
  unfold saslAuthenticate, mthen, Request, refusing. change (APISaslAuthenticate =? APISaslHandshake) with false. cbv iota. unfold mlift.
  rewrite !ResponseBody_reply by (done || (unfold int32; lia)). by split; [|eexists].
Qed.

(** C39: A refusal without a message is taken for success.  The client reads a
    throttle time that SaslAuthenticate responses do not have, so the error code
    is never inspected: with PLAIN, OAUTHBEARER or GSSAPI the handshake succeeds
    whatever error code the broker answers, unless the message that comes with
    it happens to look like an error. *)
Theorem sasl_refusal_accepted {E} `{AuthEnv E} (sec : Config E) (e : E) code : single_message sec ->
  @Handshake E _ (refusing code None) sec e = (e, Ok tt) /\
  (sl_Mechanism (sec_SASL sec) = SASLPlain ->
   exists err, @Handshake E _ (refusing code (Some (str "Authentication failed"))) sec e = (e, Err err)).
Proof.
  intros Hsm. assert (Hhs : forall msg, @Handshake E _ (refusing code msg) sec e =
    (let s := sec_SASL sec in
     if bool_decide (sl_Mechanism s = SASLGSSAPI) then @gssapi E (refusing code msg) sec e
     else if bool_decide (sl_Mechanism s = SASLOAuth) then @saslAuthenticate E (refusing code msg) (buildOAuthMessage (sl_Token s)) e
     else @saslAuthenticate E (refusing code msg) (buildPlainMessage (sl_Username s) (sl_Password s)) e)).
  { intros msg. unfold Handshake. unfold mthen at 1, Request, refusing at 1. change (APISaslHandshake =? APISaslHandshake) with true. cbv iota.
    cbv zeta. set (mech := if bool_decide _ then _ else _).
    assert (Hl : len mech < 2 ^ 15). { unfold mech. by destruct Hsm as [->|[[-> _]|[-> _]]]. }
    assert (Hd : drop 2 (encodeSaslHandshake mech) = mech) by (apply drop_app_length'; by rewrite length_be_bytes).
    pose proof (handshake_ok mech Hl) as Hok. rewrite Hd. destruct (ResponseBody _) as [rb| |]; [|done|done]. cbn [res_bind] in Hok.
    unfold mthen at 1 2, mlift. rewrite Hok.
    destruct Hsm as [Hm|[[Hm Ht]|[Hm Ht]]]; rewrite Hm; try reflexivity.
    rewrite !bool_decide_false by done. rewrite bool_decide_true by done. unfold oauth_token. destruct (sl_Token (sec_SASL sec)) as [|c t]; [done|].
    unfold mthen at 1, mret. by rewrite bool_decide_false by done. }
  rewrite !Hhs. cbv zeta. destruct Hsm as [Hm|[[Hm Ht]|[Hm Ht]]]; rewrite Hm.
  - split; [apply refused_payload|]. intros _. apply (refused_payload code).
  - split; [apply refused_payload|done].
  - split; [|done]. rewrite bool_decide_true by done. unfold gssapi. destruct (kb_InitToken (sl_Kerberos (sec_SASL sec))) as [|c t] eqn:Hk; [done|].
    assert (Hr : @gssapi_rounds E (refusing code None) (sl_Kerberos (sec_SASL sec)) (c :: t) 32 e = (e, Ok tt)).
    { cbn [gssapi_rounds]. unfold mthen, Request, refusing. change (APISaslAuthenticate =? APISaslHandshake) with false. cbv iota.
      unfold mlift, parseGSSAPIResponse. by rewrite parse_sasl_body by (done || (unfold int32; lia)). }
    by destruct (kb_TokenProvider _).
Qed.

(** A broker without any credentials: it extends the client's nonce, asks for
    one iteration and accepts whatever proof it gets.  Its state says whether
    it has answered the first message. *)
Definition impostor : Requester bool := fun k _ body challenged =>
  if k =? APISaslHandshake then (challenged, Ok (reply_frame 1 (handshake_body 0 (drop 2 body))))
  else if challenged then (challenged, Ok (reply_frame 1 (sasl_body 0 None [] 0)))
  else
    let nonce := match client_first (drop 4 body) with Some (_, _, nonce) => nonce | None => [] end in
    (true, Ok (reply_frame 1 (sasl_body 0 None (str "r=" ++ (nonce ++ str "x") ++ str ",s=" ++ [] ++ str ",i=" ++ str "1") 0))).

(** The client does not authenticate the broker.  SCRAM's server signature
    is never looked at, so a broker that knows nothing about the password
    completes the handshake with every user, under either hash function. *)
Theorem scram_accepts_impostor `{AuthEnv bool} (h : ScramHash) (sec : Config bool) :
  sl_Mechanism (sec_SASL sec) = scram_name h -> 1 <= MaxSCRAMIterations ->
  (forall s, fst (rand_fill 18 s) = s /\ len (snd (rand_fill 18 s)) = 18) ->
  @Handshake bool _ impostor sec false = (true, Ok tt).
Proof.
  intros Hm Hmax Hrand. assert (Hhs : @Handshake bool _ impostor sec false = @scramExchange bool _ impostor h sec false).
  { unfold Handshake. rewrite Hm. rewrite bool_decide_false by (by destruct h). unfold mthen at 1, Request, impostor at 1.
    change (APISaslHandshake =? APISaslHandshake) with true. cbv iota.
    assert (Hd : drop 2 (encodeSaslHandshake (scram_name h)) = scram_name h) by (apply drop_app_length'; by rewrite length_be_bytes).
    pose proof (handshake_ok (scram_name h) ltac:(by destruct h)) as Hok. rewrite Hd. destruct (ResponseBody _) as [rb| |]; [|done|done]. cbn [res_bind] in Hok.
    unfold mthen at 1 2, mlift. rewrite Hok. by destruct h. }
  rewrite Hhs. unfold scramExchange, randomNonce. unfold mthen at 1. destruct (Hrand false) as [Hs H18].
  destruct (rand_fill 18 false) as [s b]. cbn [fst snd] in Hs, H18. subst s. set (nonce := EncodeToString b).
  assert (Hn : Forall (fun c => c <> z2b 44) nonce) by apply base64_no_comma.
  set (user := sl_Username (sec_SASL sec)).
  assert (Hcf : exists u bare, client_first (str "n,," ++ str "n=" ++ saslEscape user ++ str ",r=" ++ nonce) = Some (u, bare, nonce)).
  { unfold client_first. rewrite strip_app. replace (str "n=" ++ saslEscape user ++ str ",r=" ++ nonce) with ((str "n=" ++ saslEscape user) ++ z2b 44 :: (str "r=" ++ nonce))
      by (rewrite <- !app_assoc; done).
    rewrite split_commas_app by (apply Forall_app; split; [by repeat constructor|apply saslEscape_no_comma]).
    rewrite split_commas_free by (apply Forall_app; split; [by repeat constructor|done]). rewrite !strip_app. by eexists _, _. }
  destruct Hcf as (u & bare & Hcf).
  unfold mthen at 1. unfold saslRound at 1. unfold mthen at 1, Request, impostor at 1. change (APISaslAuthenticate =? APISaslHandshake) with false. cbv iota.
  rewrite wrapSasl_prefixed, drop_prefixed, Hcf. unfold mlift at 1.
  rewrite parse_sasl_body.
  2,4: unfold int32; lia.
  2:{ rewrite !len_app. unfold nonce. rewrite base64_length, H18. vm_compute. done. }
  cbv zeta. destruct (server_first_fields (nonce ++ str "x") [] (str "1")) as (Fr & Fs & Fi); [apply Forall_app; split; [done|by repeat constructor]|done|by repeat constructor|].
  rewrite Fr, Fs, Fi. assert (take (length nonce) (nonce ++ str "x") = nonce) as Hpre by apply take_app_length. rewrite Hpre, bool_decide_true by done.
  cbn [negb]. cbv iota. change (DecodeString []) with (@Ok bytes []). unfold mthen at 1, mlift at 1.
  change (scram_iterations (str "1")) with 1. destruct (Z.gtb_spec 1 MaxSCRAMIterations); [lia|].
  unfold mthen at 1, saslRound. unfold mthen at 1, Request, impostor. change (APISaslAuthenticate =? APISaslHandshake) with false. cbv iota. unfold mlift.
  rewrite parse_sasl_body by (done || (unfold int32; lia)). done.
Qed.

(** The bearer token is sent without the separators of RFC 7628. *)
Theorem oauth_message_unseparated token : x01 ∉ token -> x01 ∉ drop 4 (buildOAuthMessage token).
Proof.
  intros Ht. unfold buildOAuthMessage. rewrite drop_prefixed. intros Hin. rewrite app_assoc in Hin.
  apply elem_of_app in Hin as [Hin|Hin]; [|done].
  assert (Hn : bool_decide (x01 ∈ str "n,," ++ str "auth=Bearer ") = false) by reflexivity. by apply bool_decide_eq_false in Hn.
Qed.

(** * Runs *)

(** Toy functions: a hash that is the identity and a MAC of four bytes. *)
#[local] Instance toy_env {E} : AuthEnv E := {|
  hash_sum _ m := m;
  hmac_sum _ k m := be_bytes 4 (len k * 7 + be_value m);
  rand_fill n e := (e, replicate (Z.to_nat n) x01);
  MaxSCRAMIterations := 8192
|}.

Definition no_kerberos {E} : KerberosConfig E := mkKerberos [] None.
Definition no_tls : TLSConfig := mkTLSConfig false [] [] [] false [].
Definition demo_login {E} (mechanism : bytes) : Config E :=
  mkConfig SecuritySASLPlaintext no_tls (mkSASLConfig mechanism (str "a=b,c") (str "pencil") [] None no_kerberos).

Definition demo_credential : credential :=
  mkCredential (str "salt") (str "4") (hmac_sum (E:=Server) SHA256 (Hi (E:=Server) SHA256 (str "pencil") (str "salt") 4) (str "Client Key")) (str "server").
Definition demo_server : Server := mkServer SHA256 {[str "a=b,c" := demo_credential]} (str "xyz") 3600000 Start.

Lemma len_server_first nonce cr : len (server_first nonce cr) = 8 + len nonce + len (EncodeToString (cr_salt cr)) + len (cr_iterations cr).
Proof. unfold server_first. rewrite !len_app. change (len (str "r=")) with 2. change (len (str ",s=")) with 3. change (len (str ",i=")) with 3. lia. Qed.

Lemma scram_authenticates_witness : exists sv', Handshake (demo_login SASLSCRAM256) demo_server = (sv', Ok tt) /\ sv_stage sv' = Authenticated (str "a=b,c").
Proof.
  apply (scram_authenticates SHA256 (demo_login SASLSCRAM256) demo_server demo_credential 4); [reflexivity|].
  split; try reflexivity.
  - split; [reflexivity|]. cbn. lia.
  - split; by repeat constructor.
  - split_and!; [cbn; lia|cbn; lia|done|]. intros k m. unfold hmac_sum, toy_env. rewrite len_be_bytes. lia.
  - intros nonce Hn. rewrite len_server_first, len_app, Hn. vm_compute. reflexivity.
  - intros s. split; reflexivity.
Defined.

Lemma scram_stops_early_witness : exists err,
  @scramExchange (list bytes) _ (fun _ _ body l => (l ++ [body], Ok (reply_frame 1 (sasl_body 0 None (str "r=other,s=,i=1") 0)))) SHA256 (demo_login SASLSCRAM256) [] =
    ([wrapSasl (str "n,," ++ clientFirstBare (str "a=b,c") (EncodeToString (replicate 18 x01)))], Err err).
Proof.
  eapply (@scram_stops_early (list bytes) _ (fun _ _ body l => (l ++ [body], Ok (reply_frame 1 (sasl_body 0 None (str "r=other,s=,i=1") 0))))
    SHA256 (demo_login SASLSCRAM256) [] [] (EncodeToString (replicate 18 x01)) _ (str "r=other,s=,i=1")); [reflexivity| |].
  - unfold saslRound, mthen, mlift, Request. cbn [app]. rewrite parse_sasl_body; [reflexivity|unfold int32; lia|vm_compute; reflexivity|lia].
  - left. by vm_compute.
Defined.

Lemma sasl_refusal_accepted_witness :
  @Handshake nat _ (refusing 58 None) (demo_login SASLPlain) 0%nat = (0%nat, Ok tt).
Proof. apply (sasl_refusal_accepted (demo_login SASLPlain) 0%nat 58). left. reflexivity. Defined.

Lemma scram_accepts_impostor_witness : @Handshake bool _ impostor (demo_login SASLSCRAM512) false = (true, Ok tt).
Proof. apply (scram_accepts_impostor SHA512); [reflexivity|cbn; lia|]. intros s. split; reflexivity. Defined.

Lemma oauth_message_unseparated_witness : x01 ∉ drop 4 (buildOAuthMessage (str "token")).
Proof. apply oauth_message_unseparated. apply (bool_decide_eq_false (x01 ∈ str "token")). reflexivity. Defined.
