(* ===== verification/ApiVersions.v ===== *)
(** The bodies of ApiVersions ([internal/protocol/api_versions.go]) and the
    process limits of [internal/limits/limits.go]. *)

From Stdlib Require Import ZArith Lia.
From Stdlib Require Import Strings.Byte.
From stdpp Require Import base list gmap countable strings.
From S2P Require Import Prelude.
From S2P Require Import Wire.
From S2P Require Import Header.

Open Scope Z_scope.

(** * ApiVersions *)

Definition VerApiVersions : Z := 3.

Definition EncodeApiVersionsRequest (softwareName softwareVersion : bytes) : Enc :=
  let softwareName := if bool_decide (softwareName = []) then str "gokafka" else softwareName in
  WriteCompactString softwareName +++ WriteCompactString softwareVersion +++ WriteEmptyTagSection.

Record FinalizedFeature := mkFinalizedFeature { ff_Name : bytes; ff_MinLevel : Z; ff_MaxLevel : Z }.

Definition read_api_version : Rd ApiVersion :=
  key <- ReadInt16 ;;
  min <- ReadInt16 ;;
  max <- ReadInt16 ;;
  ret (mkApiVersion key min max).

Definition decodeApiVersionsResponseLegacy (version : Z) : Rd (list ApiVersion * Z) :=
  errCode <- ReadInt16 ;;
  n <- ReadInt32 ;;
  out <- rd_list n read_api_version ;;
  (if version >=? 2 then (ReadInt32 ;;; ret tt) else ret tt) ;;;
  ret (out, errCode).

Definition read_feature : Rd FinalizedFeature :=
  name <- ReadCompactString ;;
  maxL <- ReadInt16 ;;
  minL <- ReadInt16 ;;
  SkipTagSection ;;;
  ret (mkFinalizedFeature name minL maxL).

(** One tagged field: tag 2 holds the features, and the cursor is set to the
    field's end whatever was read. *)
Definition read_feature_tag (feats : list FinalizedFeature) : Rd (list FinalizedFeature) :=
  tag <- ReadUvarint ;;
  size <- ReadUvarint ;;
  (fun b : Buffer =>
    let end_ := bufI b + size in
    if (size >? len (bufB b)) || (end_ >? len (bufB b)) then (b, Err ErrShortBuffer) else
    match (if tag =? 2 then (m <- ReadUvarint ;; rd_list (m - 1) read_feature) b else (b, Ok [])) with
    | (b', Ok more) => (mkBuffer (bufB b') end_, Ok (feats ++ more))
    | (b', Err e) => (b', Err e)
    | (b', Panic) => (b', Panic)
    end).

Definition readApiVersionsFinalizedFeatures : Rd (list FinalizedFeature) :=
  n <- ReadUvarint ;;
  rd_for n read_feature_tag [].

Definition decodeApiVersionsResponseFlex : Rd (list ApiVersion * list FinalizedFeature * Z) :=
  errCode <- ReadInt16 ;;
  n <- ReadUvarint ;;
  out <- rd_list (n - 1) (v <- read_api_version ;; SkipTagSection ;;; ret v) ;;
  ReadInt32 ;;;
  feats <- readApiVersionsFinalizedFeatures ;;
  ret (out, feats, errCode).

Definition DecodeApiVersionsResponse (version : Z) (body : bytes) : res (list ApiVersion * list FinalizedFeature * Z) :=
  if version >=? 3 then run decodeApiVersionsResponseFlex body
  else let? vc := run (decodeApiVersionsResponseLegacy version) body in Ok (fst vc, [], snd vc).

(** ** No panic *)

Lemma safe_feature_tag feats : Safe (read_feature_tag feats).
Proof.
  unfold read_feature_tag. apply safe_bind_uvarint. intros tag _. apply safe_bind_uvarint. intros size Hsize b Hb.
  destruct (_ || _) eqn:E; [by repeat split|]. zbool.
  assert (Hm : Safe (m <- ReadUvarint ;; rd_list (m - 1) read_feature)) by (unfold read_feature; solve_safe).
  destruct (tag =? 2); [|cbn; repeat split; [lia|done]].
  specialize (Hm b Hb). destruct (rbind _ _ b) as [b' [more|e|]]; destruct Hm as (? & ? & ?); try done.
  cbn. repeat split; [done|lia|done].
Qed.

Lemma api_versions_safe version body : DecodeApiVersionsResponse version body <> Panic.
Proof.
  pose proof safe_feature_tag. unfold DecodeApiVersionsResponse. destruct (version >=? 3).
  - apply safe_run. unfold decodeApiVersionsResponseFlex, read_api_version, readApiVersionsFinalizedFeatures. solve_safe.
  - pose proof (safe_run (decodeApiVersionsResponseLegacy version) body) as Hs.
    destruct (run (decodeApiVersionsResponseLegacy version) body); [done|done|]. exfalso. apply Hs; [|done].
    unfold decodeApiVersionsResponseLegacy, read_api_version. solve_safe.
Qed.

(** * Limits *)

(** The process-wide limits; each is an atomic integer. *)
Record Limits := mkLimits {
  MaxResponseBytes : Z;
  MaxDecompressedBytes : Z;
  MaxSCRAMIterations : Z;
  MaxHTTPBodyBytes : Z }.

Definition DefaultMaxResponseBytes : Z := Z.shiftl 64 20.
Definition DefaultMaxDecompressedBytes : Z := Z.shiftl 64 20.
Definition DefaultMaxSCRAMIterations : Z := 8192.
Definition DefaultMaxHTTPBodyBytes : Z := Z.shiftl 8 20.

Definition initial_limits : Limits :=
  mkLimits DefaultMaxResponseBytes DefaultMaxDecompressedBytes DefaultMaxSCRAMIterations DefaultMaxHTTPBodyBytes.

Definition Apply (cfg : Limits) (l : Limits) : Limits :=
  let store (new old : Z) := if new >? 0 then new else old in
  mkLimits (store (MaxResponseBytes cfg) (MaxResponseBytes l)) (store (MaxDecompressedBytes cfg) (MaxDecompressedBytes l))
    (store (MaxSCRAMIterations cfg) (MaxSCRAMIterations l)) (store (MaxHTTPBodyBytes cfg) (MaxHTTPBodyBytes l)).

(** Every limit stays positive, and the last client that sets one wins. *)
Definition limits_positive (l : Limits) : Prop :=
  0 < MaxResponseBytes l /\ 0 < MaxDecompressedBytes l /\ 0 < MaxSCRAMIterations l /\ 0 < MaxHTTPBodyBytes l.

Lemma limits_stay_positive cfgs : limits_positive (foldl (fun l cfg => Apply cfg l) initial_limits cfgs).
Proof.
  assert (H0 : limits_positive initial_limits) by (repeat split; vm_compute; reflexivity). revert H0. generalize initial_limits.
  induction cfgs as [|cfg cfgs IH]; intros l Hl; [done|]. cbn [foldl]. apply IH. destruct Hl as (? & ? & ? & ?).
  unfold Apply. repeat split; cbn; case_goal; zbool; lia.
Qed.
