(* ===== verification/Transport.v ===== *)
(** A broker connection: [internal/transport/conn.go].

    Connections are objects that are shared by pointer, so they live in a heap
    ([Net]) and a pointer is an index into it.  The operating system is the
    class [NetEnv]: dialling, writing a frame, [io.ReadFull] and closing; each
    may fail at any time, which is also what an expired deadline does.  A mutex
    is a flag; locking one that the same goroutine holds never returns, and such
    a call has the outcome [Panic], which no caller handles either. *)

From Stdlib Require Import ZArith Lia.
From Stdlib Require Import Strings.Byte.
From stdpp Require Import base list gmap countable strings.
From S2P Require Import Prelude.
From S2P Require Import Wire.
From S2P Require Import Header.
From S2P Require Import GoMonad.
From S2P Require Import Auth.

Open Scope Z_scope.
Open Scope go_scope.

(** [auth.Dial]: [dial_plain addr], and [dial_tls cfg addr] for the reading of
    the certificates, the dial and the TLS handshake. *)
Class NetEnv (W : Type) := {
  dial_plain : bytes -> M W Z;
  dial_tls : TLSConfig -> bytes -> M W Z;
  net_write : Z -> bytes -> M W unit;
  net_read_full : Z -> Z -> M W bytes;
  net_close : Z -> W -> W;
  default_response_limit : W -> Z;                  (* limits.MaxResponseBytes *)
}.

Record Conn (W : Type) := mkConn {
  cn_mu : bool;
  cn_addr : bytes;
  cn_netConn : Z;
  cn_clientID : bytes;
  cn_correlationID : Z;
  cn_security : Config W;
  cn_maxResponseBytes : Z }.
Arguments mkConn {W}.
Arguments cn_mu {W}.
Arguments cn_addr {W}.
Arguments cn_netConn {W}.
Arguments cn_clientID {W}.
Arguments cn_correlationID {W}.
Arguments cn_security {W}.
Arguments cn_maxResponseBytes {W}.

Record Net (W : Type) := mkNet { nt_env : W; nt_conns : list (Conn W) }.
Arguments mkNet {W}.
Arguments nt_env {W}.
Arguments nt_conns {W}.

Abbreviation pointer := nat.

Section conn.
Context {W : Type} `{NetEnv W} `{AuthEnv W}.

Notation N := (M (Net W)).

Definition on_env {A} (m : M W A) : N A := fun s => let '(w, r) := m (nt_env s) in (mkNet w (nt_conns s), r).

(** A nil pointer panics. *)
Definition conn_at (p : pointer) : N (Conn W) := fun s => (s, match nt_conns s !! p with Some c => Ok c | None => Panic end).
Definition upd_conn (p : pointer) (f : Conn W -> Conn W) : N unit := mmod (fun s => mkNet (nt_env s) (alter f p (nt_conns s))).

Definition with_mu (b : bool) (c : Conn W) : Conn W :=
  mkConn b (cn_addr c) (cn_netConn c) (cn_clientID c) (cn_correlationID c) (cn_security c) (cn_maxResponseBytes c).
Definition with_correlation (id : Z) (c : Conn W) : Conn W :=
  mkConn (cn_mu c) (cn_addr c) (cn_netConn c) (cn_clientID c) id (cn_security c) (cn_maxResponseBytes c).
Definition with_security (sec : Config W) (c : Conn W) : Conn W :=
  mkConn (cn_mu c) (cn_addr c) (cn_netConn c) (cn_clientID c) (cn_correlationID c) sec (cn_maxResponseBytes c).

Definition Lock (p : pointer) : N unit := let! c := conn_at p in if cn_mu c then mlift Panic else upd_conn p (with_mu true).
Definition Unlock (p : pointer) : N unit := upd_conn p (with_mu false).

(** [mu.Lock(); defer mu.Unlock()] around a body. *)
Definition locked {A} (p : pointer) (m : N A) : N A :=
  do! Lock p in
  let! r := mtry m in
  do! Unlock p in
  mlift (match r with inl a => Ok a | inr e => Err e end).

(** ** Requests *)

Definition nextCorrelationID (p : pointer) : N Z :=
  let! c := conn_at p in
  let id := s32 (cn_correlationID c + 1) in
  do! upd_conn p (with_correlation id) in
  mret id.

Definition frame_length (sizeBuf : bytes) : res Z :=
  let? b0 := index sizeBuf 0 in
  let? b1 := index sizeBuf 1 in
  let? b2 := index sizeBuf 2 in
  let? b3 := index sizeBuf 3 in
  Ok (Z.lor (Z.lor (Z.lor (Z.shiftl (b2z b0) 24) (Z.shiftl (b2z b1) 16)) (Z.shiftl (b2z b2) 8)) (b2z b3)).

Definition write_frame (p : pointer) (frame : bytes) : N unit :=
  let! c := conn_at p in
  let! r := mtry (on_env (net_write (cn_netConn c) frame)) in
  match r with inl _ => mret tt | inr _ => merr ErrNotSent end.

(** The errors of a read are wrapped, so they stay recognisable. *)
Definition read_response (p : pointer) : N bytes :=
  let! c := conn_at p in
  let! sizeBuf := on_env (net_read_full (cn_netConn c) 4) in
  let! size := mlift (frame_length sizeBuf) in
  if (size <? 0) || (size >? cn_maxResponseBytes c) then merr (FmtError "transport: response size exceeds limit" size) else
  let! body := on_env (net_read_full (cn_netConn c) size) in
  mret (sizeBuf ++ body).

Definition requestLocked (p : pointer) (apiKey apiVersion : Z) (body : bytes) : N bytes :=
  let! corr := nextCorrelationID p in
  let! c := conn_at p in
  let! frame := mlift (EncodeRequest (mkRequestHeader apiKey apiVersion corr (cn_clientID c)) body) in
  do! write_frame p frame in
  read_response p.

Definition conn_Request (p : pointer) (apiKey apiVersion : Z) (body : bytes) : N bytes :=
  locked p (requestLocked p apiKey apiVersion body).

(** ** Authentication *)

(** The callbacks of a configuration see the environment, not the heap. *)
Definition lift_sasl (s : SASLConfig W) : SASLConfig (Net W) :=
  mkSASLConfig (sl_Mechanism s) (sl_Username s) (sl_Password s) (sl_Token s)
    (option_map on_env (sl_TokenProvider s))
    (mkKerberos (kb_InitToken (sl_Kerberos s)) (option_map (fun f c => on_env (f c)) (kb_TokenProvider (sl_Kerberos s)))).
Definition lift_config (c : Config W) : Config (Net W) := mkConfig (sec_Protocol c) (sec_TLS c) (lift_sasl (sec_SASL c)).

#[export] Instance net_auth : AuthEnv (Net W) := {|
  hash_sum := hash_sum (E:=W);
  hmac_sum := hmac_sum (E:=W);
  rand_fill n s := let '(w, b) := rand_fill n (nt_env s) in (mkNet w (nt_conns s), b);
  MaxSCRAMIterations := MaxSCRAMIterations (E:=W)
|}.

Definition conn_Handshake (p : pointer) (sec : Config W) : N unit :=
  @Handshake (Net W) _ (conn_Request p) (lift_config sec).

Definition with_token (token : bytes) (sec : Config W) : Config W :=
  let s := sec_SASL sec in
  mkConfig (sec_Protocol sec) (sec_TLS sec)
    (mkSASLConfig (sl_Mechanism s) (sl_Username s) (sl_Password s) token (sl_TokenProvider s) (sl_Kerberos s)).

Definition auth_Dial (addr : bytes) (sec : Config W) : N Z :=
  on_env (if negb (TLSEnabled sec) then dial_plain addr else dial_tls (sec_TLS sec) addr).

Definition new_conn (c : Conn W) : N pointer := fun s => (mkNet (nt_env s) (nt_conns s ++ [c]), Ok (length (nt_conns s))).

Definition close_net (handle : Z) : N unit := mmod (fun s => mkNet (net_close handle (nt_env s)) (nt_conns s)).

Definition Dial (addr clientID : bytes) (sec : Config W) (maxResponseBytes : Z) : N pointer :=
  let! limit := mgets (fun s => default_response_limit (nt_env s)) in
  let maxResponseBytes := if maxResponseBytes <=? 0 then limit else maxResponseBytes in
  let! nc := auth_Dial addr sec in
  let! p := new_conn (mkConn false addr nc clientID 0 sec maxResponseBytes) in
  if negb (SASLEnabled sec) then mret p else
  let! r := mtry (conn_Handshake p sec) in
  match r with
  | inl _ => mret p
  | inr e => do! close_net nc in merr e
  end.

Definition refresh_token (p : pointer) (sec : Config W) : N (Config W) :=
  match sl_TokenProvider (sec_SASL sec) with
  | Some provider =>
      if negb (bool_decide (sl_Mechanism (sec_SASL sec) = SASLOAuth)) then mret sec else
      let! r := mtry (on_env provider) in
      match r with
      | inl token =>
          let sec := with_token token sec in
          do! upd_conn p (with_security sec) in
          mret sec
      | inr _ => merr (FmtError "transport: oauth token refresh" 0)
      end
  | None => mret sec
  end.

Definition Reauthenticate (p : pointer) : N unit :=
  let! c := conn_at p in
  if negb (SASLEnabled (cn_security c)) then mret tt else
  locked p (
    let! sec := refresh_token p (cn_security c) in
    conn_Handshake p sec).

Definition conn_Close (p : pointer) : N unit := let! c := conn_at p in close_net (cn_netConn c).
End conn.

(** * Theorems *)

Section conn_facts.
Context {W : Type} `{NetEnv W} `{AuthEnv W}.

Definition heap_conn (s : Net W) (p : pointer) : option (Conn W) := nt_conns s !! p.

Lemma conn_at_ok p c (s : Net W) : heap_conn s p = Some c -> conn_at p s = (s, Ok c).
Proof. intros Hc. unfold conn_at. unfold heap_conn in Hc. by rewrite Hc. Qed.

Lemma upd_conn_heap p f c (s s' : Net W) : heap_conn s p = Some c -> upd_conn p f s = (s', Ok tt) -> heap_conn s' p = Some (f c).
Proof. intros Hc [= <-]. unfold heap_conn in *. cbn. rewrite list_lookup_alter_eq. by rewrite Hc. Qed.

(** A second lock by the same goroutine never returns. *)
Lemma locked_blocks {A} p c (m : M (Net W) A) s : heap_conn s p = Some c -> cn_mu c = true -> locked p m s = (s, Panic).
Proof. intros Hc Hm. unfold locked, Lock. unfold mthen at 1 2. rewrite (conn_at_ok p c s Hc). by rewrite Hm. Qed.

Lemma conn_Request_blocks p c k v body s : heap_conn s p = Some c -> cn_mu c = true -> conn_Request p k v body s = (s, Panic).
Proof. apply locked_blocks. Qed.

Lemma conn_Handshake_blocks p c sec s : heap_conn s p = Some c -> cn_mu c = true -> conn_Handshake p sec s = (s, Panic).
Proof.
  intros Hc Hm. unfold conn_Handshake, Handshake. unfold mthen at 1. unfold Request. by rewrite (conn_Request_blocks p c).
Qed.

(** The heap while the lock is held. *)
Definition lock_state (p : pointer) (s : Net W) : Net W := mkNet (nt_env s) (alter (with_mu true) p (nt_conns s)).

Lemma locked_run {A} p c (m : M (Net W) A) s : heap_conn s p = Some c -> cn_mu c = false ->
  snd (locked p m s) = snd (m (lock_state p s)).
Proof.
  intros Hc Hm. unfold locked, Lock. unfold mthen at 1 2. rewrite (conn_at_ok p c s Hc), Hm. unfold upd_conn at 1, mmod at 1.
  fold (lock_state p s). unfold mthen at 1, mtry. destruct (m (lock_state p s)) as [s' [a|e|]]; reflexivity.
Qed.

Lemma lock_state_heap p c s : heap_conn s p = Some c -> heap_conn (lock_state p s) p = Some (with_mu true c).
Proof. intros Hc. unfold heap_conn in *. cbn. rewrite list_lookup_alter_eq. by rewrite Hc. Qed.

(** C40: Reauthentication blocks.  [Reauthenticate] holds the connection's mutex
    while the handshake's first request takes it again: on a connection with
    SASL it never succeeds, and it fails only when the OAuth token provider
    does; in every other case the call, and every later request on the
    connection, never returns. *)
Theorem reauthenticate_blocks p c (s : Net W) : heap_conn s p = Some c -> cn_mu c = false -> SASLEnabled (cn_security c) = true ->
  let provider := sl_TokenProvider (sec_SASL (cn_security c)) in
  let r := snd (Reauthenticate p s) in
  r <> Ok tt /\
  (r = Panic \/ sl_Mechanism (sec_SASL (cn_security c)) = SASLOAuth /\ exists m e, provider = Some m /\ snd (m (nt_env s)) = Err e).
Proof.
  intros Hc Hmu Hs provider r.
  assert (Hr : r = Panic \/ (exists e, r = Err e) /\ sl_Mechanism (sec_SASL (cn_security c)) = SASLOAuth /\
    exists m e, provider = Some m /\ snd (m (nt_env s)) = Err e).
  { subst r provider. unfold Reauthenticate. rewrite (mthen_ok _ _ _ _ _ (conn_at_ok p c s Hc)), Hs. cbn [negb]. cbv iota.
    rewrite (locked_run p c) by done. pose proof (lock_state_heap p c s Hc) as Hc1. set (s1 := lock_state p s) in *.
    assert (Henv : nt_env s1 = nt_env s) by done. unfold refresh_token.
    destruct (sl_TokenProvider (sec_SASL (cn_security c))) as [m|] eqn:Hp.
    2:{ rewrite (mthen_ok _ _ s1 s1 (cn_security c)) by done. rewrite (conn_Handshake_blocks p _ _ _ Hc1) by done. by left. }
    destruct (bool_decide (sl_Mechanism (sec_SASL (cn_security c)) = SASLOAuth)) eqn:Ho; cbn [negb]; cbv iota.
    2:{ rewrite (mthen_ok _ _ s1 s1 (cn_security c)) by done. rewrite (conn_Handshake_blocks p _ _ _ Hc1) by done. by left. }
    destruct (m (nt_env s)) as [w [token|e|]] eqn:Hm.
    - set (s2 := mkNet w (nt_conns s1)). assert (Hc2 : heap_conn s2 p = Some (with_mu true c)) by exact Hc1.
      set (sec := with_token token (cn_security c)). destruct (upd_conn p (with_security sec) s2) as [s3 r3] eqn:Hu3.
      assert (r3 = Ok tt) as -> by (by injection Hu3). pose proof (upd_conn_heap _ _ _ _ _ Hc2 Hu3) as Hc3.
      rewrite (mthen_ok _ _ s1 s3 sec).
      + rewrite (conn_Handshake_blocks p _ _ _ Hc3) by done. by left.
      + unfold mthen at 1, mtry, on_env. rewrite Henv, Hm. fold s2. fold sec. unfold mthen. by rewrite Hu3.
    - right. split; [exists (FmtError "transport: oauth token refresh" 0)|].
      + unfold mthen, mtry, on_env. by rewrite Henv, Hm.
      + apply bool_decide_eq_true in Ho. split; [done|]. exists m, e. by rewrite Hm.
    - left. unfold mthen, mtry, on_env. by rewrite Henv, Hm. }
  split; [|destruct Hr as [->|[_ ?]]; auto]. destruct Hr as [->|[[e ->] _]]; done.
Qed.
End conn_facts.
