(* ===== verification/ClusterPool.v ===== *)
(** The cluster of a client: [internal/broker/cluster.go], its connection pool,
    its seed connection, its metadata cache and the requests through them.

    The methods are [M Pool]; the mutex of the cluster guards single
    assignments and is not modelled, except that the methods below run one at a
    time.  [pool_env] is the cluster as the [ClusterEnv] that the producer, the
    consumer and the administrative client are written against. *)

From Stdlib Require Import ZArith Lia.
From Stdlib Require Import Strings.Byte.
From stdpp Require Import base list gmap countable strings pretty.
From S2P Require Import Prelude.
From S2P Require Import Wire.
From S2P Require Import Header.
From S2P Require Import ApiVersions.
From S2P Require Import Metadata.
From S2P Require Import ProduceCodec.
From S2P Require Import FetchCodec.
From S2P Require Import Retry.
From S2P Require Import Producer.
From S2P Require Import GoMonad.
From S2P Require Import GroupCodec.
From S2P Require Import Consumer.
From S2P Require Import Auth.
From S2P Require Import Transport.

Open Scope Z_scope.
Open Scope go_scope.

(** * Addresses *)

Record Options := mkOptions {
  op_MetadataTTL : Z;
  op_MaxResponseBytes : Z;
  op_HostRemap : gmap bytes bytes;
  op_AddressMapper : option (Z -> bytes -> Z -> bytes);
  op_AllowedBrokerHosts : list bytes }.

(** [fmt.Sprintf("%s:%d", host, port)] *)
Definition host_port (host : bytes) (port : Z) : bytes := host ++ str ":" ++ str (pretty port).

Definition remap (o : Options) (host : bytes) (port : Z) : bytes :=
  let key := host_port host port in default key (op_HostRemap o !! key).

Definition resolveAddress (o : Options) (nodeID : Z) (host : bytes) (port : Z) : bytes :=
  match op_AddressMapper o with
  | Some f => if bool_decide (f nodeID host port = []) then remap o host port else f nodeID host port
  | None => remap o host port
  end.

(** [strings.ToLower] and [strings.TrimSpace], on ASCII. *)
Definition to_lower (s : bytes) : bytes := map (fun c => if (65 <=? b2z c) && (b2z c <=? 90) then z2b (b2z c + 32) else c) s.
Definition is_space (c : byte) : bool := bool_decide (b2z c ∈ [9; 10; 11; 12; 13; 32]).
Fixpoint trim_left (s : bytes) : bytes :=
  match s with
  | c :: rest => if is_space c then trim_left rest else s
  | [] => []
  end.
Definition trim_space (s : bytes) : bytes := rev (trim_left (rev (trim_left s))).

Definition brokerHostAllowed (o : Options) (host : bytes) : bool :=
  if len (op_AllowedBrokerHosts o) =? 0 then true else
  existsb (fun allowed => bool_decide (to_lower (trim_space host) = to_lower (trim_space allowed))) (op_AllowedBrokerHosts o).

(** [strings.Cut(s, ":")]: what is before the first colon, if there is one. *)
Fixpoint cut_colon (s : bytes) : option bytes :=
  match s with
  | [] => None
  | c :: rest => if bool_decide (c = z2b 58) then Some [] else match cut_colon rest with Some h => Some (c :: h) | None => None end
  end.

(** * State *)

Record PoolConfig := mkPoolConfig { pc_Seeds : list bytes; pc_ClientID : bytes; pc_Opts : Options }.

Record Pool (W : Type) := mkPool {
  pl_net : Net W;
  pl_security : Config W;
  pl_meta : Cluster;                          (* meta, leaderIndex, leaderEpochIndex *)
  pl_refreshedAt : option Z;                  (* None: the zero time *)
  pl_conns : gmap Z pointer;
  pl_seed : option pointer;
  pl_versions : option (gmap Z Z);
  pl_features : option (gmap bytes Z) }.
Arguments mkPool {W}.
Arguments pl_net {W}.
Arguments pl_security {W}.
Arguments pl_meta {W}.
Arguments pl_refreshedAt {W}.
Arguments pl_conns {W}.
Arguments pl_seed {W}.
Arguments pl_versions {W}.
Arguments pl_features {W}.

(** The client's surroundings: the context, the clock in nanoseconds, whether
    the client is open, and the clock readings of the producer ([env_now] and
    [env_clock] of [ClusterEnv]). *)
Class TimeEnv (W : Type) := {
  te_ctx : W -> option error;
  te_now : W -> Z;
  te_sleep : Z -> W -> W * option error;
  te_open : W -> bool;
  te_record_time : W -> nat -> Z;
  te_clock : W -> request_clock;
}.

Section pool.
Context {W : Type} `{NetEnv W} `{AuthEnv W} `{TimeEnv W}.
Context (pc : PoolConfig).
Notation opts := (pc_Opts pc).
Notation P := (M (Pool W)).

Definition on_net {A} (m : M (Net W) A) : P A := fun s =>
  let '(n, r) := m (pl_net s) in
  (mkPool n (pl_security s) (pl_meta s) (pl_refreshedAt s) (pl_conns s) (pl_seed s) (pl_versions s) (pl_features s), r).

Definition set_security (sec : Config W) (s : Pool W) : Pool W :=
  mkPool (pl_net s) sec (pl_meta s) (pl_refreshedAt s) (pl_conns s) (pl_seed s) (pl_versions s) (pl_features s).
Definition set_meta (m : Cluster) (s : Pool W) : Pool W :=
  mkPool (pl_net s) (pl_security s) m (pl_refreshedAt s) (pl_conns s) (pl_seed s) (pl_versions s) (pl_features s).
Definition set_refreshed (t : option Z) (s : Pool W) : Pool W :=
  mkPool (pl_net s) (pl_security s) (pl_meta s) t (pl_conns s) (pl_seed s) (pl_versions s) (pl_features s).
Definition set_conns (c : gmap Z pointer) (s : Pool W) : Pool W :=
  mkPool (pl_net s) (pl_security s) (pl_meta s) (pl_refreshedAt s) c (pl_seed s) (pl_versions s) (pl_features s).
Definition set_seed (p : option pointer) (s : Pool W) : Pool W :=
  mkPool (pl_net s) (pl_security s) (pl_meta s) (pl_refreshedAt s) (pl_conns s) p (pl_versions s) (pl_features s).
Definition set_versions (v : option (gmap Z Z)) (s : Pool W) : Pool W :=
  mkPool (pl_net s) (pl_security s) (pl_meta s) (pl_refreshedAt s) (pl_conns s) (pl_seed s) v (pl_features s).
Definition set_features (f : option (gmap bytes Z)) (s : Pool W) : Pool W :=
  mkPool (pl_net s) (pl_security s) (pl_meta s) (pl_refreshedAt s) (pl_conns s) (pl_seed s) (pl_versions s) f.

Definition New (sec : Config W) (w : W) : Pool W :=
  mkPool (mkNet w []) sec (mkCluster (mkMetadata [] 0 [] []) ∅ ∅) None ∅ None None None.

Definition world_of (s : Pool W) : W := nt_env (pl_net s).

Definition Feature (name : bytes) (s : Pool W) : option Z :=
  match pl_features s with None => None | Some f => f !! name end.

(** * Connections *)

Definition refreshSASLToken : P unit :=
  let! s := mget in
  let sasl := sec_SASL (pl_security s) in
  match sl_TokenProvider sasl with
  | Some provider =>
      if negb (bool_decide (sl_Mechanism sasl = SASLOAuth)) then mret tt else
      let! r := mtry (on_net (on_env provider)) in
      match r with
      | inl token => mmod (fun s => set_security (with_token token (pl_security s)) s)
      | inr _ => mret tt
      end
  | None => mret tt
  end.

Definition dial (addr : bytes) : P pointer :=
  let! s := mget in on_net (Dial addr (pc_ClientID pc) (pl_security s) (op_MaxResponseBytes opts)).

Definition pool_Conn (nodeID : Z) : P pointer :=
  do! refreshSASLToken in
  let! s := mget in
  match pl_conns s !! nodeID with
  | Some p => mret p
  | None =>
      match List.find (fun b => bm_NodeID b =? nodeID) (md_Brokers (cl_meta (pl_meta s))) with
      | None => merr (FmtError "broker: unknown node" nodeID)
      | Some broker =>
          if bool_decide (bm_Host broker = []) then merr (FmtError "broker: unknown node" nodeID) else
          if negb (brokerHostAllowed opts (bm_Host broker)) then merr (FmtError "broker: host not allowed" 0) else
          let! p := dial (resolveAddress opts (bm_NodeID broker) (bm_Host broker) (bm_Port broker)) in
          do! mmod (fun s => set_conns (<[nodeID := p]> (pl_conns s)) s) in
          mret p
      end
  end.

Definition Invalidate (nodeID : Z) : P unit :=
  let! s := mget in
  match pl_conns s !! nodeID with
  | Some p => do! on_net (conn_Close p) in mmod (fun s => set_conns (delete nodeID (pl_conns s)) s)
  | None => mret tt
  end.

Definition seed_allowed (s : bytes) : bool :=
  match cut_colon s with Some host => brokerHostAllowed opts host | None => true end.

Fixpoint dial_seeds (seeds : list bytes) : P pointer :=
  match seeds with
  | [] => merr (FmtError "broker: dial seeds" 0)
  | s :: rest =>
      if negb (seed_allowed s) then dial_seeds rest else
      do! refreshSASLToken in
      let! r := mtry (dial s) in
      match r with
      | inl p => do! mmod (set_seed (Some p)) in mret p
      | inr _ => dial_seeds rest
      end
  end.

Definition seed : P pointer :=
  let! s := mget in
  match pl_seed s with
  | Some p => mret p
  | None => dial_seeds (pc_Seeds pc)
  end.

Definition dropSeed (p : pointer) : P unit :=
  do! mmod (fun s => if bool_decide (pl_seed s = Some p) then set_seed None s else s) in
  on_net (conn_Close p).

Definition invalidateSeed : P unit :=
  let! s := mget in
  match pl_seed s with
  | Some p => do! on_net (conn_Close p) in mmod (set_seed None)
  | None => mret tt
  end.

(** Closing keeps the seed connection where it is. *)
Definition Close `{MapOrder} : P unit :=
  let! s := mget in
  do! mfor (fun kp => on_net (conn_Close (snd kp))) (range (pl_conns s)) in
  do! (match pl_seed s with Some p => on_net (conn_Close p) | None => mret tt end) in
  mmod (set_conns ∅).

(** * Requests *)

Definition pool_negotiated (apiKey fallback : Z) : P Z := mgets (fun s => negotiatedVersion (pl_versions s) apiKey fallback).

(** [if v := c.negotiatedVersion(...); v > 0 && apiVersion > v { apiVersion = v }] *)
Definition capped (apiKey apiVersion : Z) : P Z := mgets (fun s => request_version (pl_versions s) apiKey apiVersion).

Definition requestOnce (nodeID apiKey apiVersion : Z) (body : bytes) : P bytes :=
  let! p := pool_Conn nodeID in
  let! r := mtry (on_net (conn_Request p apiKey apiVersion body)) in
  match r with
  | inl resp => mret resp
  | inr e =>
      let! s := mget in
      let sec := pl_security s in
      match sl_TokenProvider (sec_SASL sec) with
      | Some _ =>
          if negb (SASLEnabled sec) then merr e else
          let! reauth := mtry (on_net (Reauthenticate p)) in
          match reauth with
          | inl _ => on_net (conn_Request p apiKey apiVersion body)
          | inr _ => merr e
          end
      | None => merr e
      end
  end.

Definition pool_Request (nodeID apiKey apiVersion : Z) (body : bytes) : P bytes :=
  let! apiVersion := capped apiKey apiVersion in
  let! r := mtry (requestOnce nodeID apiKey apiVersion body) in
  let! ctx := mgets (fun s => te_ctx (world_of s)) in
  let! r := (match r, ctx with
             | inr ErrNotSent, None => do! Invalidate nodeID in mtry (requestOnce nodeID apiKey apiVersion body)
             | _, _ => mret r
             end) in
  match r with
  | inr e => do! Invalidate nodeID in merr e
  | inl resp => mlift (ResponseBodyForAPI resp apiKey apiVersion)
  end.

Definition requestSeed (apiKey apiVersion : Z) (body : bytes) (retry : bool) : P bytes :=
  let! apiVersion := capped apiKey apiVersion in
  let! p := seed in
  let! r := mtry (on_net (conn_Request p apiKey apiVersion body)) in
  let! r := (match r with
             | inl _ => mret r
             | inr e =>
                 do! invalidateSeed in
                 if negb retry then mret r else
                 let! p2 := mtry seed in
                 match p2 with
                 | inr _ => mret r
                 | inl p2 =>
                     let! r2 := mtry (on_net (conn_Request p2 apiKey apiVersion body)) in
                     match r2 with
                     | inl _ => mret r2
                     | inr _ => do! invalidateSeed in mret r2
                     end
                 end
             end) in
  match r with
  | inr e => merr e
  | inl resp => mlift (ResponseBodyForAPI resp apiKey apiVersion)
  end.

Definition RequestViaSeed (apiKey apiVersion : Z) (body : bytes) : P bytes := requestSeed apiKey apiVersion body false.

Fixpoint request_brokers (brokers : list BrokerMeta) (apiKey apiVersion : Z) (body : bytes) (lastErr : option error) : P (bytes + option error) :=
  match brokers with
  | [] => mret (inr lastErr)
  | b :: rest =>
      let! r := mtry (pool_Request (bm_NodeID b) apiKey apiVersion body) in
      match r with
      | inl resp => mret (inl resp)
      | inr e => request_brokers rest apiKey apiVersion body (Some e)
      end
  end.

Definition pool_RequestAny (apiKey apiVersion : Z) (body : bytes) : P bytes :=
  let! s := mget in
  let! r := request_brokers (md_Brokers (cl_meta (pl_meta s))) apiKey apiVersion body None in
  match r with
  | inl resp => mret resp
  | inr lastErr =>
      let! r := mtry (requestSeed apiKey apiVersion body true) in
      match r, lastErr with
      | inl resp, _ => mret resp
      | inr _, Some e => merr e
      | inr e, None => merr e
      end
  end.

(** * Metadata *)

(** [VerMetadata] is 12 and [c.meta], the two indexes are set together. *)
Fixpoint refresh_loop (attempts : nat) (ver : Z) (body : bytes) (lastErr : error) : P unit :=
  match attempts with
  | O => merr lastErr
  | S attempts =>
      let! p := seed in
      let! r := mtry (on_net (conn_Request p APIMetadata ver body)) in
      let r := match r with
               | inl resp => match ResponseBodyForAPI resp APIMetadata ver with Ok b => Ok (inl b) | Err e => Ok (inr e) | Panic => Panic end
               | inr e => Ok (inr e)
               end in
      let! r := mlift r in
      match r with
      | inr e => do! dropSeed p in refresh_loop attempts ver body e
      | inl respBody =>
          let! meta := mlift (DecodeMetadataResponse ver respBody) in
          mmod (set_meta (store_metadata meta))
      end
  end.

Definition VerMetadata : Z := 12.

Definition refresh (topics : option (list bytes)) : P unit :=
  let! ver := pool_negotiated APIMetadata VerMetadata in
  let! body := mlift (EncodeMetadataRequest ver topics) in
  refresh_loop (S (length (pc_Seeds pc))) ver body (FmtError "broker: metadata refresh failed" 0).

Definition pool_Refresh (topics : option (list bytes)) : P unit :=
  do! refresh topics in
  mmod (fun s => set_refreshed (Some (te_now (world_of s))) s).

Definition pool_RefreshIfStale (topics : option (list bytes)) (force : bool) : P unit :=
  let ttl := if op_MetadataTTL opts <=? 0 then 30 * Second else op_MetadataTTL opts in
  let! s := mget in
  let fresh := match pl_refreshedAt s with Some t => te_now (world_of s) - t <? ttl | None => false end in
  if negb force && fresh then mret tt else pool_Refresh topics.

(** * Versions *)

Definition pool_NegotiateVersions (softwareVersion : bytes) : P unit :=
  let! body := mlift (EncodeApiVersionsRequest (pc_ClientID pc) softwareVersion) in
  let! resp := RequestViaSeed APIApiVersions VerApiVersions body in
  let! vfc := mlift (DecodeApiVersionsResponse VerApiVersions resp) in
  let '(versions, feats, code) := vfc in
  if negb (code =? 0) then merr (FmtError "broker: api versions: error" code) else
  do! mwhen (len feats >? 0) (mmod (set_features (Some (foldl (fun fm f => <[ff_Name f := ff_MaxLevel f]> fm) ∅ feats)))) in
  mmod (set_versions (Some (NegotiateVersions versions))).

(** * The client's view *)

(** A nil list of topics asks for all of them; the client's model writes it
    [[]]. *)
Definition nil_topics (topics : list bytes) : option (list bytes) := match topics with [] => None | _ => Some topics end.

Definition pool_sleep (d : Z) (s : Pool W) : Pool W * option error :=
  let '(w, e) := te_sleep d (world_of s) in
  (mkPool (mkNet w (nt_conns (pl_net s))) (pl_security s) (pl_meta s) (pl_refreshedAt s) (pl_conns s) (pl_seed s) (pl_versions s) (pl_features s), e).

(** The cluster without [TransactionCoordinator], for [FindCoordinator]. *)
Definition pool_env_base : ClusterEnv (Pool W) := {|
  env_open s := te_open (world_of s);
  env_cluster := pl_meta;
  env_versions := pl_versions;
  env_RefreshIfStale topics := pool_RefreshIfStale (nil_topics topics) false;
  env_Refresh topics := pool_Refresh (nil_topics topics);
  env_Request := pool_Request;
  env_RequestViaSeed := RequestViaSeed;
  env_TransactionCoordinator _ s := (s, Err (FmtError "unused" 0));
  env_Invalidate node s := fst (Invalidate node s);
  env_ctx s := te_ctx (world_of s);
  env_sleep := pool_sleep;
  env_now s := te_record_time (world_of s);
  env_clock s := te_clock (world_of s)
|}.

Definition TransactionCoordinator (txnID : bytes) : P Z := @FindCoordinator (Pool W) pool_env_base txnID CoordinatorTransaction.

Definition pool_env : ClusterEnv (Pool W) := {|
  env_open := @env_open _ pool_env_base;
  env_cluster := @env_cluster _ pool_env_base;
  env_versions := @env_versions _ pool_env_base;
  env_RefreshIfStale := @env_RefreshIfStale _ pool_env_base;
  env_Refresh := @env_Refresh _ pool_env_base;
  env_Request := @env_Request _ pool_env_base;
  env_RequestViaSeed := @env_RequestViaSeed _ pool_env_base;
  env_TransactionCoordinator := TransactionCoordinator;
  env_Invalidate := @env_Invalidate _ pool_env_base;
  env_ctx := @env_ctx _ pool_env_base;
  env_sleep := @env_sleep _ pool_env_base;
  env_now := @env_now _ pool_env_base;
  env_clock := @env_clock _ pool_env_base
|}.
End pool.
