(* ===== verification/ClusterFacts.v ===== *)
(** The cluster and its connections: theorems. *)

From Stdlib Require Import ZArith Lia.
From Stdlib Require Import Strings.Byte.
From stdpp Require Import base list gmap countable strings.
From S2P Require Import Prelude.
From S2P Require Import Wire.
From S2P Require Import Header.
From S2P Require Import ApiVersions.
From S2P Require Import Metadata.
From S2P Require Import ProduceCodec.
From S2P Require Import Retry.
From S2P Require Import Producer.
From S2P Require Import GoMonad.
From S2P Require Import Auth.
From S2P Require Import AuthFacts.
From S2P Require Import Transport.
From S2P Require Import ClusterPool.

Open Scope Z_scope.
Open Scope go_scope.

(** * One connection *)

Section net.
Context {W : Type} `{NetEnv W} `{AuthEnv W}.

(** What a relation on environments and heaps must allow. *)
Record net_relation (R : Net W -> Net W -> Prop) : Prop := {
  nr_pre : PreOrder R;
  nr_env : forall (s : Net W) w, R s (mkNet w (nt_conns s));
  nr_upd : forall (s : Net W) p f, (forall c, cn_addr (f c) = cn_addr c) -> R s (mkNet (nt_env s) (alter f p (nt_conns s))) }.

Section keeps_net.
Context (R : Net W -> Net W -> Prop) (HR : net_relation R).
#[local] Instance R_pre : PreOrder R := nr_pre R HR.

Lemma keeps_on_env {A} (m : M W A) : Keeps R (on_env m).
Proof. intros s. unfold on_env. destruct (m (nt_env s)) as [w r]. apply (nr_env R HR). Qed.

Lemma keeps_conn_at p : Keeps R (conn_at p).
Proof. intros s. cbn. reflexivity. Qed.

Lemma keeps_upd p f : (forall c, cn_addr (f c) = cn_addr c) -> Keeps R (upd_conn p f).
Proof. intros Hf s. by apply (nr_upd R HR). Qed.

Lemma keeps_close h : Keeps R (close_net h).
Proof. intros s. apply (nr_env R HR). Qed.

Lemma keeps_locked {A} p (m : M (Net W) A) : Keeps R m -> Keeps R (locked p m).
Proof.
  intros Hm. pose proof keeps_conn_at. assert (Hu : forall b, Keeps R (upd_conn p (with_mu b))) by (intros b; by apply keeps_upd).
  unfold locked, Lock, Unlock. solve_keeps.
Qed.

Lemma keeps_conn_Request p k v body : Keeps R (conn_Request p k v body).
Proof.
  apply keeps_locked. pose proof keeps_conn_at. pose proof (@keeps_on_env unit). pose proof (@keeps_on_env bytes).
  assert (Hu : forall z, Keeps R (upd_conn p (with_correlation z))) by (intros z; by apply keeps_upd).
  unfold requestLocked, nextCorrelationID, write_frame, read_response. solve_keeps.
Qed.

Lemma keeps_conn_Handshake p sec : Keeps R (conn_Handshake p sec).
Proof.
  unfold conn_Handshake. apply (keeps_Handshake R); [apply keeps_conn_Request| |].
  - intros n s. cbn. destruct (rand_fill n (nt_env s)) as [w b]. apply (nr_env R HR).
  - split; cbn.
    + intros m Hm. destruct (sl_TokenProvider (sec_SASL sec)); [|done]. injection Hm as <-. apply keeps_on_env.
    + intros f c Hf. destruct (kb_TokenProvider (sl_Kerberos (sec_SASL sec))); [|done]. injection Hf as <-. apply keeps_on_env.
Qed.

Lemma keeps_Reauthenticate p : Keeps R (Reauthenticate p).
Proof.
  pose proof keeps_conn_at. unfold Reauthenticate. apply keeps_then; [typeclasses eauto|done|intros c].
  destruct (negb _); [apply keeps_ret; typeclasses eauto|]. apply keeps_locked.
  assert (Hu : forall sec, Keeps R (upd_conn p (with_security sec))) by (intros sec; by apply keeps_upd).
  pose proof (@keeps_on_env bytes). pose proof (keeps_conn_Handshake p). unfold refresh_token. solve_keeps.
Qed.

Lemma keeps_conn_Close p : Keeps R (conn_Close p).
Proof. pose proof keeps_conn_at. pose proof keeps_close. unfold conn_Close. solve_keeps. Qed.
End keeps_net.

(** The addresses that were dialled successfully, in order. *)
Definition addrs (s : Net W) : list bytes := cn_addr <$> nt_conns s.
Definition same_addrs (s s' : Net W) : Prop := addrs s' = addrs s.

Lemma same_addrs_relation : net_relation same_addrs.
Proof.
  split; [split; [done|]|done|].
  - intros s1 s2 s3 H1 H2. unfold same_addrs in *. congruence.
  - intros s p f Hf. unfold same_addrs, addrs. cbn. apply list_eq. intros i. rewrite !list_lookup_fmap.
    destruct (decide (i = p)) as [->|Hne].
    + rewrite list_lookup_alter_eq. destruct (nt_conns s !! p); [|done]. cbn. by rewrite Hf.
    + by rewrite list_lookup_alter_ne.
Qed.

(** [Dial] adds the connection, and nothing else. *)
Lemma Dial_addrs addr clientID sec maxr s s' r : Dial addr clientID sec maxr s = (s', r) ->
  (addrs s' = addrs s \/ addrs s' = addrs s ++ [addr]) /\ (forall p, r = Ok p -> addrs s' !! p = Some addr).
Proof.
  unfold Dial. unfold mthen at 1, mgets. unfold mthen at 1, auth_Dial.
  set (c0 := on_env _). pose proof (keeps_on_env same_addrs same_addrs_relation (if negb (TLSEnabled sec) then dial_plain addr else dial_tls (sec_TLS sec) addr) s) as Hd.
  fold c0 in Hd. destruct (c0 s) as [s1 [nc|e|]]; cbn [fst] in Hd; [|intros [= <- <-]; split; [by left|done]..].
  unfold mthen at 1, new_conn. cbn [fst]. set (s2 := mkNet (nt_env s1) (nt_conns s1 ++ [_])).
  assert (H2 : addrs s2 = addrs s ++ [addr]) by (unfold addrs; cbn; rewrite fmap_app; cbn; f_equal; exact Hd).
  assert (Hp : addrs s2 !! length (nt_conns s1) = Some addr).
  { rewrite H2. rewrite <- Hd. unfold addrs. apply list_lookup_middle. by rewrite length_fmap. }
  destruct (negb (SASLEnabled sec)).
  { intros [= <- <-]. split; [by right|]. by intros p [= <-]. }
  unfold mthen at 1, mtry. pose proof (keeps_conn_Handshake same_addrs same_addrs_relation (length (nt_conns s1)) sec s2) as Hh.
  destruct (conn_Handshake (length (nt_conns s1)) sec s2) as [s3 [u|e|]]; cbn [fst] in Hh; unfold same_addrs in Hh.
  - intros [= <- <-]. rewrite Hh. split; [by right|]. by intros p [= <-].
  - intros [= <- <-]. split; [right; by rewrite <- H2, <- Hh|done].
  - intros [= <- <-]. split; [right; congruence|done].
Qed.
End net.

(** * The pool *)

Section pool.
Context {W : Type} `{NetEnv W} `{AuthEnv W} `{TimeEnv W} `{MapOrder} (pc : PoolConfig).
Notation opts := (pc_Opts pc).

Definition pool_addrs (s : Pool W) : list bytes := addrs (pl_net s).

Definition seed_address (a : bytes) : Prop := a ∈ pc_Seeds pc /\ seed_allowed pc a = true.
Definition broker_address (node : Z) (a : bytes) : Prop :=
  exists host port, a = resolveAddress opts node host port /\ brokerHostAllowed opts host = true.

(** Every connection was dialled at an allowed address, the pooled ones at their
    broker's and the seed connection at a seed; the indexes are those of the
    cached metadata. *)
Record pool_inv (s : Pool W) : Prop := {
  inv_addrs : Forall (fun a => seed_address a \/ exists node, broker_address node a) (pool_addrs s);
  inv_conns : forall node p, pl_conns s !! node = Some p -> exists a, pool_addrs s !! p = Some a /\ broker_address node a;
  inv_seed : forall p, pl_seed s = Some p -> exists a, pool_addrs s !! p = Some a /\ seed_address a;
  inv_meta : pl_meta s = store_metadata (cl_meta (pl_meta s)) }.

Definition keeps_inv (s s' : Pool W) : Prop := pool_inv s -> pool_inv s'.

#[local] Instance keeps_inv_pre : PreOrder keeps_inv.
Proof. split; [by intros s Hs|]. intros s1 s2 s3 H12 H23 Hs. by apply H23, H12. Qed.

(** Changes that the invariant does not see. *)
Lemma inv_same s s' : pool_addrs s' = pool_addrs s -> (forall node p, pl_conns s' !! node = Some p -> pl_conns s !! node = Some p) ->
  (forall p, pl_seed s' = Some p -> pl_seed s = Some p) -> pl_meta s' = pl_meta s -> keeps_inv s s'.
Proof.
  intros Ha Hc Hs Hm [I1 I2 I3 I4]. split; rewrite ?Ha, ?Hm; [done| | |done].
  - intros node p Hp. by apply I2, Hc.
  - intros p Hp. by apply I3, Hs.
Qed.

Lemma inv_on_net {A} (m : M (Net W) A) : Keeps same_addrs m -> Keeps keeps_inv (on_net m).
Proof.
  intros Hm s. unfold on_net. specialize (Hm (pl_net s)). destruct (m (pl_net s)) as [n r]. apply inv_same; [exact Hm|done|done|done].
Qed.

Lemma inv_on_net_Request p k v body : Keeps keeps_inv (on_net (conn_Request p k v body)).
Proof. apply inv_on_net, keeps_conn_Request, same_addrs_relation. Qed.
Lemma inv_on_net_Reauthenticate p : Keeps keeps_inv (on_net (Reauthenticate p)).
Proof. apply inv_on_net, keeps_Reauthenticate, same_addrs_relation. Qed.
Lemma inv_on_net_Close p : Keeps keeps_inv (on_net (conn_Close p)).
Proof. apply inv_on_net, keeps_conn_Close, same_addrs_relation. Qed.
Lemma inv_on_net_env {A} (m : M W A) : Keeps keeps_inv (on_net (on_env m)).
Proof. apply inv_on_net, keeps_on_env, same_addrs_relation. Qed.

Lemma inv_mod f : (forall s, keeps_inv s (f s)) -> Keeps keeps_inv (mmod f).
Proof. intros Hf s. apply Hf. Qed.

Lemma inv_set_security sec : Keeps keeps_inv (mmod (fun s => set_security (sec s) s)).
Proof. apply inv_mod. intros s. by apply inv_same. Qed.
Lemma inv_set_refreshed t : Keeps keeps_inv (mmod (fun s => set_refreshed (t s) s)).
Proof. apply inv_mod. intros s. by apply inv_same. Qed.
Lemma inv_set_versions v : Keeps keeps_inv (mmod (set_versions v)).
Proof. apply inv_mod. intros s. by apply inv_same. Qed.
Lemma inv_set_features v : Keeps keeps_inv (mmod (set_features v)).
Proof. apply inv_mod. intros s. by apply inv_same. Qed.
Lemma inv_no_seed : Keeps keeps_inv (mmod (set_seed None)).
Proof. apply inv_mod. intros s. by apply inv_same. Qed.
Lemma inv_drop_seed p : Keeps keeps_inv (mmod (fun s => if bool_decide (pl_seed s = Some p) then set_seed None s else s)).
Proof. apply inv_mod. intros s. case_bool_decide; [by apply inv_same|by intros Hs]. Qed.
Lemma inv_delete_conn node : Keeps keeps_inv (mmod (fun s => set_conns (delete node (pl_conns s)) s)).
Proof. apply inv_mod. intros s. apply inv_same; [done| |done|done]. intros n p Hp. cbn in Hp. by apply lookup_delete_Some in Hp as [_ Hp]. Qed.
Lemma inv_no_conns : Keeps keeps_inv (mmod (set_conns ∅)).
Proof. apply inv_mod. intros s. apply inv_same; [done| |done|done]. intros n p Hp. cbn in Hp. by rewrite lookup_empty in Hp. Qed.
Lemma inv_set_meta m : Keeps keeps_inv (mmod (set_meta (store_metadata m))).
Proof. apply inv_mod. intros s [I1 I2 I3 _]. by split. Qed.

#[local] Hint Resolve inv_on_net_Request inv_on_net_Reauthenticate inv_on_net_Close inv_on_net_env inv_set_security inv_set_refreshed
  inv_set_versions inv_set_features inv_no_seed inv_drop_seed inv_delete_conn inv_no_conns inv_set_meta : keeps.

Lemma inv_refreshSASLToken : Keeps keeps_inv refreshSASLToken.
Proof. unfold refreshSASLToken. solve_keeps. Qed.
#[local] Hint Resolve inv_refreshSASLToken : keeps.

(** Dialling an allowed address. *)
Lemma dial_spec addr s s' r : pool_inv s -> (seed_address addr \/ exists node, broker_address node addr) -> dial pc addr s = (s', r) ->
  pool_inv s' /\ forall p, r = Ok p -> pool_addrs s' !! p = Some addr.
Proof.
  intros [I1 I2 I3 I4] Ha Hd. unfold dial in Hd. unfold mthen in Hd. cbn [mget] in Hd. unfold on_net in Hd.
  destruct (Dial addr (pc_ClientID pc) (pl_security s) (op_MaxResponseBytes opts) (pl_net s)) as [n r'] eqn:E. injection Hd as <- <-.
  apply Dial_addrs in E as [Hn Hp]. split; [|done].
  assert (Hpre : forall i a, pool_addrs s !! i = Some a -> addrs n !! i = Some a).
  { intros i a Hi. destruct Hn as [->| ->]; [done|]. by apply lookup_app_l_Some. }
  split; [| | |done].
  - change (Forall (fun a => seed_address a \/ exists node, broker_address node a) (addrs n)). unfold pool_addrs in I1. destruct Hn as [->| ->]; [done|]. apply Forall_app. split; [done|]. by constructor.
  - intros node p Hq. destruct (I2 node p Hq) as (a & Hi & Hb). exists a. split; [by apply Hpre|done].
  - intros p Hq. destruct (I3 p Hq) as (a & Hi & Hb). exists a. split; [by apply Hpre|done].
Qed.

Lemma inv_pool_Conn node : Keeps keeps_inv (pool_Conn pc node).
Proof.
  unfold pool_Conn. apply keeps_then; [typeclasses eauto|auto with keeps|intros _]. intros s. unfold mthen at 1, mget.
  destruct (pl_conns s !! node) as [p|]; [by intros Hs|]. destruct (List.find _ _) as [b|] eqn:Hf; [|by intros Hs].
  apply List.find_some in Hf as [_ Hb]. apply Z.eqb_eq in Hb.
  destruct (bool_decide (bm_Host b = [])); [by intros Hs|]. destruct (brokerHostAllowed opts (bm_Host b)) eqn:Ha; cbn [negb]; [|by intros Hs].
  intros Hs. set (addr := resolveAddress opts (bm_NodeID b) (bm_Host b) (bm_Port b)).
  assert (Hba : broker_address node addr) by (exists (bm_Host b), (bm_Port b); by rewrite <- Hb).
  unfold mthen at 1. destruct (dial pc addr s) as [s1 r] eqn:Hd. destruct (dial_spec addr s s1 r Hs ltac:(right; by exists node) Hd) as [Hs1 Hp].
  destruct r as [p|e|]; [|done|done]. cbn. destruct Hs1 as [I1 I2 I3 I4]. split; [done| |done|done]. cbn.
  intros n q [[<- <-]|[_ Hq]]%lookup_insert_Some; [|by apply I2]. exists addr. split; [by apply Hp|done].
Qed.
#[local] Hint Resolve inv_pool_Conn : keeps.

Lemma inv_dial_seeds seeds : (forall a, a ∈ seeds -> a ∈ pc_Seeds pc) -> Keeps keeps_inv (dial_seeds pc seeds).
Proof.
  induction seeds as [|a seeds IH]; intros Hin; cbn [dial_seeds]; [solve_keeps|].
  assert (Hrest : Keeps keeps_inv (dial_seeds pc seeds)) by (apply IH; intros b Hb; by apply Hin, list_elem_of_further).
  destruct (seed_allowed pc a) eqn:Ha; cbn [negb]; [|done]. apply keeps_then; [typeclasses eauto|auto with keeps|intros _].
  assert (Hsa : seed_address a) by (split; [apply Hin, list_elem_of_here|done]).
  intros s Hs. unfold mthen at 1, mtry. destruct (dial pc a s) as [s1 r] eqn:Hd. destruct (dial_spec a s s1 r Hs ltac:(by left) Hd) as [Hs1 Hp].
  destruct r as [p|e|]; [|by apply Hrest|done]. cbn. destruct Hs1 as [I1 I2 I3 I4]. split; [done|done| |done]. cbn.
  intros q [= <-]. exists a. split; [by apply Hp|done].
Qed.

Lemma inv_seed_op : Keeps keeps_inv (seed pc).
Proof. pose proof (inv_dial_seeds (pc_Seeds pc) ltac:(done)). unfold seed. solve_keeps. Qed.
#[local] Hint Resolve inv_seed_op : keeps.

Lemma inv_Invalidate node : Keeps keeps_inv (Invalidate node).
Proof. unfold Invalidate. solve_keeps. Qed.
Lemma inv_invalidateSeed : Keeps keeps_inv invalidateSeed.
Proof. unfold invalidateSeed. solve_keeps. Qed.
Lemma inv_dropSeed p : Keeps keeps_inv (dropSeed p).
Proof. unfold dropSeed. solve_keeps. Qed.
Lemma inv_Close : Keeps keeps_inv Close.
Proof. unfold Close. solve_keeps. Qed.
#[local] Hint Resolve inv_Invalidate inv_invalidateSeed inv_dropSeed inv_Close : keeps.

Lemma inv_requestOnce node k v body : Keeps keeps_inv (requestOnce pc node k v body).
Proof. unfold requestOnce. solve_keeps. Qed.
#[local] Hint Resolve inv_requestOnce : keeps.

Lemma inv_pool_Request node k v body : Keeps keeps_inv (pool_Request pc node k v body).
Proof. unfold pool_Request, capped. solve_keeps. Qed.
Lemma inv_requestSeed k v body retry : Keeps keeps_inv (requestSeed pc k v body retry).
Proof. unfold requestSeed, capped. solve_keeps. Qed.
#[local] Hint Resolve inv_pool_Request inv_requestSeed : keeps.

Lemma inv_request_brokers brokers k v body : forall last, Keeps keeps_inv (request_brokers pc brokers k v body last).
Proof. induction brokers as [|b brokers IH]; intros last; cbn [request_brokers]; solve_keeps; apply IH. Qed.
#[local] Hint Resolve inv_request_brokers : keeps.

Lemma inv_RequestAny k v body : Keeps keeps_inv (pool_RequestAny pc k v body).
Proof. unfold pool_RequestAny. solve_keeps. Qed.

Lemma inv_refresh_loop n ver body : forall last, Keeps keeps_inv (refresh_loop pc n ver body last).
Proof. induction n as [|n IH]; intros last; cbn [refresh_loop]; solve_keeps; apply IH. Qed.
#[local] Hint Resolve inv_RequestAny inv_refresh_loop : keeps.

Lemma inv_Refresh topics : Keeps keeps_inv (pool_Refresh pc topics).
Proof. unfold pool_Refresh, refresh, pool_negotiated. solve_keeps. Qed.
#[local] Hint Resolve inv_Refresh : keeps.

Lemma inv_RefreshIfStale topics force : Keeps keeps_inv (pool_RefreshIfStale pc topics force).
Proof. unfold pool_RefreshIfStale. solve_keeps. Qed.

Lemma inv_NegotiateVersions v : Keeps keeps_inv (pool_NegotiateVersions pc v).
Proof. unfold pool_NegotiateVersions, RequestViaSeed. solve_keeps. Qed.
#[local] Hint Resolve inv_RefreshIfStale inv_NegotiateVersions : keeps.

(** ** Any sequence of calls *)

Inductive pool_op :=
| OpRequest (node apiKey apiVersion : Z) (body : bytes)
| OpRequestViaSeed (apiKey apiVersion : Z) (body : bytes)
| OpRequestAny (apiKey apiVersion : Z) (body : bytes)
| OpConn (node : Z)
| OpRefresh (topics : option (list bytes))
| OpRefreshIfStale (topics : option (list bytes)) (force : bool)
| OpNegotiateVersions (softwareVersion : bytes)
| OpInvalidate (node : Z)
| OpClose.

Definition run_op (o : pool_op) : M (Pool W) unit :=
  match o with
  | OpRequest node k v body => mignore (pool_Request pc node k v body)
  | OpRequestViaSeed k v body => mignore (RequestViaSeed pc k v body)
  | OpRequestAny k v body => mignore (pool_RequestAny pc k v body)
  | OpConn node => mignore (pool_Conn pc node)
  | OpRefresh topics => mignore (pool_Refresh pc topics)
  | OpRefreshIfStale topics force => mignore (pool_RefreshIfStale pc topics force)
  | OpNegotiateVersions v => mignore (pool_NegotiateVersions pc v)
  | OpInvalidate node => Invalidate node
  | OpClose => Close
  end.

Lemma inv_run_op o : Keeps keeps_inv (run_op o).
Proof. destruct o; cbn [run_op]; unfold RequestViaSeed; solve_keeps. Qed.

Lemma inv_New sec w : pool_inv (New sec w).
Proof. split; [constructor| | |reflexivity]; cbn; [|done]. intros node p Hp. by rewrite lookup_empty in Hp. Qed.

(** C8: The connection pool.  After any sequence of requests, refreshes,
    invalidations and closes of a new cluster, whatever the network, the
    brokers, the metadata and the credential callbacks do: every connection
    that was ever made goes to an allowed seed or to the resolved address of a
    host on the allow list, the connection pooled for a node is one to that
    node's address, the seed connection is one to a seed, and the leader and
    epoch indexes are those of the cached metadata. *)
Theorem pool_connections_allowed sec w ops : pool_inv (foldl (fun s o => fst (run_op o s)) (New sec w) ops).
Proof.
  generalize (inv_New sec w). generalize (New sec w). induction ops as [|o ops IH]; intros s Hs; [done|]. cbn [foldl]. apply IH. by apply inv_run_op.
Qed.

(** ** Requests *)

Lemma Invalidate_removes node (s s' : Pool W) r : Invalidate node s = (s', r) -> r <> Panic -> pl_conns s' !! node = None.
Proof.
  unfold Invalidate. unfold mthen at 1, mget. destruct (pl_conns s !! node) as [p|] eqn:E; [|by intros [= <- <-]].
  unfold mthen at 1. destruct (on_net (conn_Close p) s) as [s1 [u|e|]] eqn:Hc.
  - intros [= <- <-] _. cbn. apply lookup_delete_eq.
  - intros [= <- <-] _. unfold on_net, conn_Close, mthen, close_net, mmod, conn_at in Hc. by destruct (nt_conns (pl_net s) !! p).
  - by intros [= <- <-].
Qed.

(** Requests on connections leave the maps alone. *)
Lemma on_net_conns {A} (m : M (Net W) A) (s s' : Pool W) r : on_net m s = (s', r) -> pl_conns s' = pl_conns s /\ pl_security s' = pl_security s.
Proof. unfold on_net. destruct (m (pl_net s)). by intros [= <- <-]. Qed.

Lemma refreshSASLToken_conns (s s' : Pool W) r : refreshSASLToken s = (s', r) -> pl_conns s' = pl_conns s.
Proof.
  unfold refreshSASLToken. unfold mthen at 1, mget. destruct (sl_TokenProvider _) as [m|]; [|by intros [= <- <-]].
  destruct (negb _); [by intros [= <- <-]|]. unfold mthen, mtry. destruct (on_net (on_env m) s) as [s1 [t|e|]] eqn:E;
    apply on_net_conns in E as [E _]; intros [= <- <-]; done.
Qed.

Lemma pool_Conn_pooled node s s' p : pool_Conn pc node s = (s', Ok p) -> pl_conns s' !! node = Some p.
Proof.
  unfold pool_Conn. intros Hc. apply mthen_inv in Hc as (s1 & [] & _ & Hc). apply mthen_inv in Hc as (s2 & a & Hg & Hc). injection Hg as <- <-.
  destruct (pl_conns s1 !! node) as [q|] eqn:E; [by injection Hc as <- <-|]. destruct (List.find _ _); [|done].
  destruct (bool_decide _); [done|]. destruct (negb _); [done|]. apply mthen_inv in Hc as (s3 & q & _ & Hc).
  apply mthen_inv in Hc as (s4 & [] & Hm & Hc). injection Hm as <-. injection Hc as <- <-. cbn. apply lookup_insert_eq.
Qed.

Lemma requestOnce_pooled node k v body s s' resp : requestOnce pc node k v body s = (s', Ok resp) -> exists p, pl_conns s' !! node = Some p.
Proof.
  unfold requestOnce. intros Hr. apply mthen_inv in Hr as (s1 & p & Hp & Hr). apply pool_Conn_pooled in Hp. exists p.
  apply mthen_inv in Hr as (s2 & r & Ht & Hr). apply mtry_inv in Ht. apply on_net_conns in Ht as [Hc2 _]. rewrite <- Hp, <- Hc2.
  destruct r as [x|e]; [by injection Hr as <- <-|]. apply mthen_inv in Hr as (s3 & a & Hg & Hr). injection Hg as <- <-.
  destruct (sl_TokenProvider _); [|done]. destruct (negb _); [done|]. apply mthen_inv in Hr as (s4 & re & Ht & Hr).
  apply mtry_inv in Ht. apply on_net_conns in Ht as [Hc4 _]. destruct re; [|done]. apply on_net_conns in Hr as [Hc5 _]. congruence.
Qed.

(** A request and the pool.  When a request succeeds, the node's connection
    is in the pool; when it fails, the node has no pooled connection any more,
    unless a complete response arrived whose header does not decode. *)
Theorem request_outcome node k v body s s' r : pool_Request pc node k v body s = (s', r) ->
  match r with
  | Ok _ => exists p, pl_conns s' !! node = Some p
  | Err e => pl_conns s' !! node = None \/ exists resp ver, ResponseBodyForAPI resp k ver = Err e
  | Panic => True
  end.
Proof.
  unfold pool_Request, capped. unfold mthen at 1, mgets. set (ver := request_version _ _ _).
  assert (Hlast : forall (x : bytes + error) sa, (forall resp, x = inl resp -> exists p, pl_conns sa !! node = Some p) ->
    (match x with inr e => do! Invalidate node in merr e | inl resp => mlift (ResponseBodyForAPI resp k ver) end) sa = (s', r) ->
    match r with
    | Ok _ => exists p, pl_conns s' !! node = Some p
    | Err e => pl_conns s' !! node = None \/ exists resp ver, ResponseBodyForAPI resp k ver = Err e
    | Panic => True
    end).
  { intros [resp|e] sa Hx Hrun.
    - injection Hrun as <- <-. destruct (ResponseBodyForAPI resp k ver) as [b|e|] eqn:Hb; [by apply (Hx resp)|right; by exists resp, ver|done].
    - unfold mthen in Hrun. destruct (Invalidate node sa) as [sb [u|e'|]] eqn:Hi; injection Hrun as <- <-; [left|left|done];
        by eapply Invalidate_removes. }
  unfold mthen at 1, mtry at 1. destruct (requestOnce pc node k ver body s) as [s1 r1] eqn:E1.
  destruct r1 as [resp|e|]; [| |by intros [= <- <-]]; unfold mthen at 1; unfold mthen at 1.
  - unfold mret. destruct (te_ctx (world_of s1)); apply (Hlast (inl resp)); intros ? [= <-]; by eapply requestOnce_pooled.
  - assert (Hno : forall sa, (do! Invalidate node in merr e) sa = (s', r) ->
      match r with Ok _ => exists p, pl_conns s' !! node = Some p | Err e => pl_conns s' !! node = None \/ exists resp ver, ResponseBodyForAPI resp k ver = Err e | Panic => True end).
    { intros sa. by apply (Hlast (inr e)). }
    destruct e; try (destruct (te_ctx (world_of s1)); apply Hno). destruct (te_ctx (world_of s1)); [apply Hno|].
    unfold mthen at 1. destruct (Invalidate node s1) as [s2 [u|e'|]] eqn:Hi; [| |by intros [= <- <-]].
    + unfold mtry. destruct (requestOnce pc node k ver body s2) as [s3 [resp|e'|]] eqn:E3; [| |by intros [= <- <-]].
      * apply (Hlast (inl resp)). intros ? [= <-]. by eapply requestOnce_pooled.
      * by apply (Hlast (inr e')).
    + intros [= <- <-]. left. by eapply Invalidate_removes.
Qed.
End pool.

(** * What reaches the broker *)

(** A count of the frames that were written in full.  [ErrNotSent] is this
    package's own sentinel: the operating system does not return it. *)
Class WriteLaws (W : Type) `{NetEnv W} `{AuthEnv W} := {
  written : W -> Z;
  written_write h f w : written (fst (net_write h f w)) = written w + match snd (net_write h f w) with Ok _ => 1 | _ => 0 end;
  written_read h n w : written (fst (net_read_full h n w)) = written w /\ snd (net_read_full h n w) <> Err ErrNotSent;
  written_plain a w : written (fst (dial_plain a w)) = written w /\ snd (dial_plain a w) <> Err ErrNotSent;
  written_tls c a w : written (fst (dial_tls c a w)) = written w /\ snd (dial_tls c a w) <> Err ErrNotSent;
  written_close h w : written (net_close h w) = written w;
}.

Section written.
Context {W : Type} `{WriteLaws W} `{TimeEnv W} `{MapOrder} (pc : PoolConfig).

Definition net_written (n : Net W) : Z := written (nt_env n).
Definition pool_written (s : Pool W) : Z := net_written (pl_net s).

(** At most one frame; one exactly on success, none with [ErrNotSent]. *)
Definition one_frame {A} (before after : Z) (r : res A) : Prop :=
  match r with
  | Ok _ => after = before + 1
  | Err ErrNotSent => after = before
  | _ => before <= after <= before + 1
  end.

Lemma conn_at_written p (n n' : Net W) r : conn_at p n = (n', r) -> n' = n /\ (forall e, r <> Err e).
Proof. unfold conn_at. intros [= <- <-]. split; [done|]. by destruct (nt_conns n !! p). Qed.

Lemma EncodeRequest_err h body e : EncodeRequest h body <> Err e.
Proof.
  unfold EncodeRequest, WriteString, enc_app, WriteInt16, WriteInt32, raw. destruct (_ >=? 2), (_ >? MaxInt16); done.
Qed.

Lemma frame_length_err sb e : frame_length sb <> Err e.
Proof. unfold frame_length, index. destruct (sb !! Z.to_nat 0), (sb !! Z.to_nat 1), (sb !! Z.to_nat 2), (sb !! Z.to_nat 3); done. Qed.

Lemma read_response_written p (n n' : Net W) r : read_response p n = (n', r) -> net_written n' = net_written n /\ r <> Err ErrNotSent.
Proof.
  unfold read_response. unfold mthen at 1. destruct (conn_at p n) as [n1 [c|e|]] eqn:Hc; apply conn_at_written in Hc as [-> Hne];
    [|by destruct (Hne e)|by intros [= <- <-]].
  unfold mthen at 1, on_env at 1. pose proof (written_read (cn_netConn c) 4 (nt_env n)) as [Hw Hn].
  destruct (net_read_full (cn_netConn c) 4 (nt_env n)) as [w [sb|e|]]; cbn [fst snd] in *; [|intros [= <- <-]; split; [done|congruence]..].
  unfold mthen at 1, mlift at 1. destruct (frame_length sb) as [size|e|] eqn:Hf.
  2:{ by apply frame_length_err in Hf. }
  2:{ by intros [= <- <-]. }
  destruct (_ || _); [by intros [= <- <-]|]. unfold mthen at 1, on_env at 1. cbn [nt_env nt_conns].
  pose proof (written_read (cn_netConn c) size w) as [Hw2 Hn2].
  destruct (net_read_full (cn_netConn c) size w) as [w2 [b|e|]]; cbn [fst snd] in *; intros [= <- <-]; unfold net_written; cbn [nt_env];
    (split; [congruence|congruence]).
Qed.

Lemma requestLocked_written p k v body (n n' : Net W) r : requestLocked p k v body n = (n', r) -> one_frame (net_written n) (net_written n') r.
Proof.
  unfold requestLocked, nextCorrelationID. unfold mthen at 1, mthen at 1. destruct (conn_at p n) as [n1 [c|e|]] eqn:Hc;
    apply conn_at_written in Hc as [-> Hne]; [|by destruct (Hne e)|intros [= <- <-]; cbn; lia].
  unfold mthen at 1, upd_conn, mmod, mret. set (n1 := mkNet _ _). assert (Hn1 : net_written n1 = net_written n) by done. rewrite <- Hn1. clearbody n1. clear Hn1 Hne.
  unfold mthen at 1. destruct (conn_at p n1) as [n2 [c2|e|]] eqn:Hc; apply conn_at_written in Hc as [-> Hne]; [|by destruct (Hne e)|intros [= <- <-]; cbn; lia].
  unfold mthen at 1, mlift at 1. destruct (EncodeRequest _ body) as [frame|e|] eqn:He; [|by apply EncodeRequest_err in He|intros [= <- <-]; cbn; lia].
  unfold mthen at 1, write_frame. unfold mthen at 1. destruct (conn_at p n1) as [n3 [c3|e|]] eqn:Hc; apply conn_at_written in Hc as [-> Hne3];
    [|by destruct (Hne3 e)|intros [= <- <-]; cbn; lia].
  unfold mthen at 1, mtry, on_env. pose proof (written_write (cn_netConn c3) frame (nt_env n1)) as Hw.
  destruct (net_write (cn_netConn c3) frame (nt_env n1)) as [w [[]|e|]]; cbn [fst snd] in Hw; unfold mret, merr.
  - intros Hr. apply read_response_written in Hr as [Hw2 Hn]. assert (net_written n' = net_written n1 + 1) as -> by (rewrite Hw2; exact Hw).
    destruct r as [a|e|]; cbn; [done| |lia]. destruct e; lia || done.
  - intros [= <- <-]. cbn. unfold net_written. cbn. lia.
  - intros [= <- <-]. cbn. unfold net_written. cbn. lia.
Qed.

Lemma conn_Request_written p k v body (n n' : Net W) r : conn_Request p k v body n = (n', r) -> one_frame (net_written n) (net_written n') r.
Proof.
  unfold conn_Request, locked, Lock. unfold mthen at 1, mthen at 1. destruct (conn_at p n) as [n1 [c|e|]] eqn:Hc;
    apply conn_at_written in Hc as [-> Hne]; [|by destruct (Hne e)|intros [= <- <-]; cbn; lia].
  destruct (cn_mu c); [intros [= <- <-]; cbn; lia|]. unfold upd_conn at 1, mmod at 1. set (n1 := mkNet _ _).
  assert (Hn1 : net_written n1 = net_written n) by done. rewrite <- Hn1. clearbody n1. unfold mthen at 1, mtry.
  destruct (requestLocked p k v body n1) as [n2 x] eqn:Hr. apply requestLocked_written in Hr.
  destruct x as [a|e|]; intros [= <- <-]; exact Hr.
Qed.

(** A cluster without SASL and without a token provider: no other request is
    written on its behalf. *)
Definition quiet (s : Pool W) : Prop := SASLEnabled (pl_security s) = false /\ sl_TokenProvider (sec_SASL (pl_security s)) = None.

Lemma Dial_written addr cid sec maxr (n n' : Net W) r : SASLEnabled sec = false -> Dial addr cid sec maxr n = (n', r) ->
  net_written n' = net_written n /\ r <> Err ErrNotSent.
Proof.
  intros Hs. unfold Dial. unfold mthen at 1, mgets. unfold mthen at 1, auth_Dial, on_env.
  assert (Hd : forall w, written (fst ((if negb (TLSEnabled sec) then dial_plain addr else dial_tls (sec_TLS sec) addr) w)) = written w /\
    snd ((if negb (TLSEnabled sec) then dial_plain addr else dial_tls (sec_TLS sec) addr) w) <> Err ErrNotSent).
  { intros w. destruct (negb (TLSEnabled sec)); [apply written_plain|apply written_tls]. }
  specialize (Hd (nt_env n)). destruct ((if negb (TLSEnabled sec) then dial_plain addr else dial_tls (sec_TLS sec) addr) (nt_env n)) as [w [nc|e|]];
    cbn [fst snd] in Hd; destruct Hd as [Hw Hne]; [|by intros [= <- <-]; split; [|congruence]..].
  unfold mthen at 1, new_conn. rewrite Hs. cbn [negb]. by intros [= <- <-].
Qed.

Lemma pool_Conn_written node s s' r : quiet s -> pool_Conn pc node s = (s', r) ->
  quiet s' /\ pool_written s' = pool_written s /\ r <> Err ErrNotSent.
Proof.
  intros [Hs Hp]. unfold pool_Conn. unfold mthen at 1, refreshSASLToken. unfold mthen at 1, mget. rewrite Hp. unfold mret at 1.
  unfold mthen at 1, mget. destruct (pl_conns s !! node) as [p|]; [by intros [= <- <-]|].
  destruct (List.find _ _) as [b|]; [|by intros [= <- <-]]. destruct (bool_decide _); [by intros [= <- <-]|]. destruct (negb _); [by intros [= <- <-]|].
  unfold mthen at 1, dial, on_net. unfold mthen at 1, mget.
  destruct (Dial _ (pc_ClientID pc) (pl_security s) (op_MaxResponseBytes (pc_Opts pc)) (pl_net s)) as [n [q|e|]] eqn:Hd;
    apply Dial_written in Hd as [Hw Hne]; try done; by intros [= <- <-]; split_and!.
Qed.

Lemma on_net_Request_written p k v body s s' r : quiet s -> on_net (conn_Request p k v body) s = (s', r) ->
  quiet s' /\ one_frame (pool_written s) (pool_written s') r.
Proof.
  intros Hq. unfold on_net. destruct (conn_Request p k v body (pl_net s)) as [n x] eqn:Hr. apply conn_Request_written in Hr. by intros [= <- <-].
Qed.

Lemma requestOnce_written node k v body s s' r : quiet s -> requestOnce pc node k v body s = (s', r) ->
  quiet s' /\ one_frame (pool_written s) (pool_written s') r.
Proof.
  intros Hq. unfold requestOnce. unfold mthen at 1. destruct (pool_Conn pc node s) as [s1 x] eqn:Hc.
  apply pool_Conn_written in Hc as (Hq1 & Hw1 & Hne); [|done]. rewrite <- Hw1.
  destruct x as [p|e|]; [|intros [= <- <-]; split; [done|]; destruct e; cbn; lia || done|intros [= <- <-]; split; [done|cbn; lia]].
  unfold mthen at 1, mtry. destruct (on_net (conn_Request p k v body) s1) as [s2 x] eqn:Hr.
  apply on_net_Request_written in Hr as [Hq2 Hw2]; [|done]. destruct x as [a|e|]; [by intros [= <- <-]| |by intros [= <- <-]].
  unfold mthen at 1, mget. rewrite (proj2 Hq2). by intros [= <- <-].
Qed.

Lemma Invalidate_written node (s s' : Pool W) r : quiet s -> Invalidate node s = (s', r) ->
  quiet s' /\ pool_written s' = pool_written s /\ forall e, r <> Err e.
Proof.
  intros Hq. unfold Invalidate. unfold mthen at 1, mget. destruct (pl_conns s !! node) as [p|]; [|by intros [= <- <-]].
  unfold mthen at 1, on_net, conn_Close. unfold mthen at 1. destruct (conn_at p (pl_net s)) as [n [c|e|]] eqn:Hc; apply conn_at_written in Hc as [-> Hne].
  - unfold close_net, mmod. intros [= <- <-]. split_and!; [done| |done]. unfold pool_written, net_written. cbn. apply written_close.
  - by destruct (Hne e).
  - by intros [= <- <-].
Qed.

(** C6: A request reaches the broker at most once.  Without SASL, [Request]
    writes at most one complete frame however often the connection had to be
    replaced — the second attempt follows only a first one that was not written
    — and exactly one when it returns a response. *)
Theorem request_written_once node k v body s s' r : quiet s -> pool_Request pc node k v body s = (s', r) ->
  pool_written s <= pool_written s' <= pool_written s + 1 /\ (forall resp, r = Ok resp -> pool_written s' = pool_written s + 1).
Proof.
  intros Hq. unfold pool_Request, capped. unfold mthen at 1, mgets. set (ver := request_version _ _ _).
  assert (Hbound : forall A a b (x : res A), one_frame a b x -> a <= b <= a + 1) by (intros A a b [?|[]|]; cbn; lia).
  assert (Hfinal : forall (x : bytes + error) sa, quiet sa -> one_frame (pool_written s) (pool_written sa) (match x with inl a => Ok a | inr e => Err e end) ->
    (match x with inr e => do! Invalidate node in merr e | inl resp => mlift (ResponseBodyForAPI resp k ver) end) sa = (s', r) ->
    pool_written s <= pool_written s' <= pool_written s + 1 /\ (forall resp, r = Ok resp -> pool_written s' = pool_written s + 1)).
  { intros [resp|e] sa Hqa Ha.
    - intros [= <- <-]. cbn in Ha. split; [lia|done].
    - unfold mthen. apply Hbound in Ha. destruct (Invalidate node sa) as [sb x] eqn:Hi. apply Invalidate_written in Hi as (_ & Hw & _); [|done].
      destruct x; intros [= <- <-]; (split; [lia|done]). }
  unfold mthen at 1, mtry at 1. destruct (requestOnce pc node k ver body s) as [s1 x] eqn:E1. apply requestOnce_written in E1 as [Hq1 Ho1]; [|done].
  assert (Hr1 : forall y, (match x with Ok a => y = inl a | Err e => y = inr e | Panic => False end) ->
    one_frame (pool_written s) (pool_written s1) (match y with inl a => Ok a | inr e => Err e end)) by (intros y; destruct x; [by intros ->|by intros ->|done]).
  destruct x as [resp|e|]; [| |by intros [= <- <-]; split; [by eapply Hbound|]]; unfold mthen at 1; unfold mthen at 1.
  - unfold mret. pose proof (Hfinal (inl resp) s1 Hq1 (Hr1 _ eq_refl)) as Hdone. destruct (te_ctx (world_of s1)); exact Hdone.
  - pose proof (Hfinal (inr e) s1 Hq1 (Hr1 _ eq_refl)) as Hdone. destruct e; try (destruct (te_ctx (world_of s1)); exact Hdone).
    destruct (te_ctx (world_of s1)); [exact Hdone|]. cbn in Ho1. unfold mthen at 1. destruct (Invalidate node s1) as [s2 y] eqn:Hi.
    apply Invalidate_written in Hi as (Hq2 & Hw2 & Hne); [|done].
    destruct y as [u|e|]; [|by destruct (Hne e)|intros [= <- <-]; split; [lia|done]].
    unfold mtry. destruct (requestOnce pc node k ver body s2) as [s3 z] eqn:E3. apply requestOnce_written in E3 as [Hq3 Ho3]; [|done].
    rewrite Hw2, Ho1 in Ho3. destruct z as [a|e|]; [by apply (Hfinal (inl a))|by apply (Hfinal (inr e))|].
    intros [= <- <-]. split; [by eapply Hbound|done].
Qed.
End written.

(** * Metadata *)

Section metadata.
Context {W : Type} `{NetEnv W} `{AuthEnv W} `{TimeEnv W} `{MapOrder} (pc : PoolConfig).

Definition same_cache (s s' : Pool W) : Prop := pl_meta s' = pl_meta s /\ pl_refreshedAt s' = pl_refreshedAt s.

#[local] Instance same_cache_pre : PreOrder same_cache.
Proof. split; [done|]. intros s1 s2 s3 [? ?] [? ?]. split; congruence. Qed.

Lemma cache_on_net {A} (m : M (Net W) A) : Keeps same_cache (on_net m).
Proof. intros s. unfold on_net. by destruct (m (pl_net s)). Qed.
Lemma cache_mod f : (forall s, same_cache s (f s)) -> Keeps same_cache (mmod f).
Proof. intros Hf s. apply Hf. Qed.
#[local] Hint Resolve cache_on_net : keeps.

Lemma cache_token : Keeps same_cache refreshSASLToken.
Proof. unfold refreshSASLToken. solve_keeps; by apply cache_mod. Qed.
#[local] Hint Resolve cache_token : keeps.

Lemma cache_dial addr : Keeps same_cache (dial pc addr).
Proof. unfold dial. solve_keeps. Qed.
#[local] Hint Resolve cache_dial : keeps.

Lemma cache_seed : Keeps same_cache (seed pc).
Proof.
  assert (Hd : forall seeds, Keeps same_cache (dial_seeds pc seeds)).
  { induction seeds as [|a seeds IH]; cbn [dial_seeds]; solve_keeps; first [apply IH|by apply cache_mod]. }
  unfold seed. solve_keeps; apply Hd.
Qed.
Lemma cache_dropSeed p : Keeps same_cache (dropSeed p).
Proof. unfold dropSeed. solve_keeps; apply cache_mod; intros s; by case_bool_decide. Qed.

(** What one refresh leaves in the cache. *)
Lemma refresh_loop_spec ver body n : forall last s s' r, refresh_loop pc n ver body last s = (s', r) ->
  (r = Ok tt -> (exists resp m, DecodeMetadataResponse ver resp = Ok m /\ pl_meta s' = store_metadata m) /\ pl_refreshedAt s' = pl_refreshedAt s) /\
  (r <> Ok tt -> same_cache s s').
Proof.
  induction n as [|n IH]; intros last s s' r; cbn [refresh_loop]; [by intros [= <- <-]|].
  unfold mthen at 1. pose proof (cache_seed s) as Hs. destruct (seed pc s) as [s1 [p|e|]]; cbn [fst] in Hs; [|by intros [= <- <-]..].
  unfold mthen at 1, mtry. pose proof (cache_on_net (conn_Request p APIMetadata ver body) s1) as Hq.
  destruct (on_net (conn_Request p APIMetadata ver body) s1) as [s2 x]; cbn [fst] in Hq.
  assert (Hc2 : same_cache s s2) by (etransitivity; eassumption).
  assert (Hdrop : forall e, (do! dropSeed p in refresh_loop pc n ver body e) s2 = (s', r) ->
    (r = Ok tt -> (exists resp m, DecodeMetadataResponse ver resp = Ok m /\ pl_meta s' = store_metadata m) /\ pl_refreshedAt s' = pl_refreshedAt s) /\
    (r <> Ok tt -> same_cache s s')).
  { intros e. unfold mthen. pose proof (cache_dropSeed p s2) as Hd. destruct (dropSeed p s2) as [s3 [u|e'|]]; cbn [fst] in Hd.
    - intros Hl. apply IH in Hl as [Hok Hno]. assert (Hc3 : same_cache s s3) by (etransitivity; eassumption). split.
      + intros Hr. destruct (Hok Hr) as [? Ht]. split; [done|]. rewrite Ht. apply Hc3.
      + intros Hr. etransitivity; [exact Hc3|by apply Hno].
    - intros [= <- <-]. split; [done|]. intros _. etransitivity; eassumption.
    - intros [= <- <-]. split; [done|]. intros _. etransitivity; eassumption. }
  destruct x as [resp|e|]; [| |by intros [= <- <-]].
  - unfold mthen at 1, mlift at 1. destruct (ResponseBodyForAPI resp APIMetadata ver) as [b|e|]; [|apply Hdrop|by intros [= <- <-]].
    unfold mthen, mlift. destruct (DecodeMetadataResponse ver b) as [m|e|] eqn:Hm; [|by intros [= <- <-]..].
    intros [= <- <-]. split; [|done]. intros _. split; [by exists b, m|]. apply Hc2.
  - unfold mthen at 1, mlift at 1. apply Hdrop.
Qed.

(** C9: Metadata refresh.  A refresh that succeeds replaces the metadata, the
    leader index and the epoch index together, by those of one decoded
    response, and records the time; one that fails leaves all of them and the
    time as they were; and within the time to live of the last success a
    refresh that is not forced does nothing. *)
Theorem refresh_spec topics s s' r : pool_Refresh pc topics s = (s', r) ->
  (r = Ok tt -> exists ver resp m, DecodeMetadataResponse ver resp = Ok m /\ pl_meta s' = store_metadata m /\
     pl_refreshedAt s' = Some (te_now (world_of s'))) /\
  (r <> Ok tt -> same_cache s s') /\
  (forall t, pl_refreshedAt s = Some t -> 0 < op_MetadataTTL (pc_Opts pc) -> te_now (world_of s) - t < op_MetadataTTL (pc_Opts pc) ->
     pool_RefreshIfStale pc topics false s = (s, Ok tt)).
Proof.
  intros Hr. split_and!.
  - intros ->. unfold pool_Refresh in Hr. apply mthen_inv in Hr as (s1 & [] & Hr & Hm). injection Hm as <-.
    unfold refresh in Hr. apply mthen_inv in Hr as (s2 & ver & Hv & Hr). injection Hv as <- <-. apply mthen_inv in Hr as (s3 & b & Hb & Hr).
    injection Hb as <- _. apply refresh_loop_spec in Hr as [Hok _]. destruct (Hok eq_refl) as ((resp & m & Hd & Hm) & _).
    by eexists _, resp, m.
  - intros Hne. unfold pool_Refresh, refresh in Hr. unfold mthen at 1 2, pool_negotiated, mgets in Hr. unfold mthen at 1, mlift in Hr.
    destruct (EncodeMetadataRequest _ topics) as [b|e|]; [|by injection Hr as <- <-..].
    destruct (refresh_loop pc _ _ b _ s) as [s1 x] eqn:Hl. apply refresh_loop_spec in Hl as [_ Hno].
    destruct x as [[]|e|]; injection Hr as <- <-; [done|by apply Hno..].
  - intros t Ht Hpos Hfresh. unfold pool_RefreshIfStale. unfold mthen at 1, mget. rewrite Ht.
    destruct (Z.leb_spec (op_MetadataTTL (pc_Opts pc)) 0); [lia|]. destruct (Z.ltb_spec (te_now (world_of s) - t) (op_MetadataTTL (pc_Opts pc))); [done|lia].
Qed.
End metadata.
