(* ===== verification/ClusterDemo.v ===== *)
(** The cluster over a network with the in-process broker of [kfake] behind it:
    every request crosses [Conn.Request], its frames and [Broker.serve].  A
    producer runs on top of it, and the theorems on the pool have their
    witnesses here. *)

From Stdlib Require Import ZArith Lia.
From Stdlib Require Import Strings.Byte.
From stdpp Require Import base list gmap countable strings.
From S2P Require Import Prelude.
From S2P Require Import Wire.
From S2P Require Import Header.
From S2P Require Import ApiVersions.
From S2P Require Import Compress.
From S2P Require Import CompressFacts.
From S2P Require Import RecordBatch.
From S2P Require Import ProduceCodec.
From S2P Require Import Kfake.
From S2P Require Import EndToEnd.
From S2P Require Import Metadata.
From S2P Require Import Retry.
From S2P Require Import Producer.
From S2P Require Import ProducerDemo.
From S2P Require Import GoMonad.
From S2P Require Import Auth.
From S2P Require Import AuthFacts.
From S2P Require Import Transport.
From S2P Require Import ClusterPool.
From S2P Require Import ClusterFacts.

Open Scope Z_scope.
Open Scope go_scope.

(** * A network *)

(** The broker, the bytes that wait on each connection, the next handle, the
    connections whose peer never answers, and the frames written. *)
Record kfnet := mkKfnet { kn_broker : Broker; kn_streams : gmap Z bytes; kn_next : Z; kn_dead : list Z; kn_writes : Z }.

(** The host [dead:1] accepts connections and answers nothing. *)
Definition kf_dial (addr : bytes) : M kfnet Z := fun w =>
  let h := kn_next w in
  (mkKfnet (kn_broker w) (kn_streams w) (h + 1) (if bool_decide (addr = str "dead:1") then h :: kn_dead w else kn_dead w) (kn_writes w), Ok h).

Definition kf_write (h : Z) (frame : bytes) : M kfnet unit := fun w =>
  if bool_decide (h ∈ kn_dead w) then (mkKfnet (kn_broker w) (kn_streams w) (kn_next w) (kn_dead w) (kn_writes w + 1), Ok tt) else
  let '(b, r) := serve_one (be_value (take 4 frame)) (drop 4 frame) (kn_broker w) in
  let more := match r with Some (Ok bs) => bs | _ => [] end in
  (mkKfnet b (<[h := default [] (kn_streams w !! h) ++ more]> (kn_streams w)) (kn_next w) (kn_dead w) (kn_writes w + 1), Ok tt).

Definition kf_read (h n : Z) : M kfnet bytes := fun w =>
  let s := default [] (kn_streams w !! h) in
  if len s <? n then (w, Err NetError)
  else (mkKfnet (kn_broker w) (<[h := drop (Z.to_nat n) s]> (kn_streams w)) (kn_next w) (kn_dead w) (kn_writes w), Ok (take (Z.to_nat n) s)).

#[export] Instance kf_net : NetEnv kfnet := {|
  dial_plain := kf_dial;
  dial_tls _ := kf_dial;
  net_write := kf_write;
  net_read_full := kf_read;
  net_close _ w := w;
  default_response_limit _ := DefaultMaxResponseBytes
|}.

(** Toy hash functions: none of the runs depends on them. *)
#[export] Instance kf_auth : AuthEnv kfnet := {|
  hash_sum _ m := m;
  hmac_sum _ k m := be_bytes 4 (len k * 7 + be_value m);
  rand_fill n w := (w, replicate (Z.to_nat n) x01);
  Auth.MaxSCRAMIterations := 8192
|}.

#[export] Instance kf_time : TimeEnv kfnet := {|
  te_ctx _ := None;
  te_now w := kn_writes w;
  te_sleep _ w := (w, None);
  te_open _ := true;
  te_record_time _ _ := 1700000000000;
  te_clock _ _ _ _ := 1700000000000
|}.

#[export] Program Instance kf_laws : WriteLaws kfnet := {| written := kn_writes |}.
Next Obligation.
  intros h frame w. cbn. unfold kf_write. destruct (bool_decide _); [done|].
  destruct (serve_one (be_value (take 4 frame)) (drop 4 frame) (kn_broker w)) as [b r]. done.
Qed.
Next Obligation. intros h n w. cbn. unfold kf_read. by destruct (_ <? n). Qed.
Next Obligation. done. Qed.
Next Obligation. done. Qed.
Next Obligation. done. Qed.

(** * Runs *)

Definition plain_config : Auth.Config kfnet := Auth.mkConfig SecurityPlaintext (mkTLSConfig false [] [] [] false [])
  (mkSASLConfig [] [] [] [] None (mkKerberos [] None)).

Definition demo_options : Options := mkOptions 0 0 ∅ None [str "127.0.0.1"].
Definition demo_pool (seeds : list bytes) : PoolConfig := mkPoolConfig seeds (str "gokafka") demo_options.
Definition demo_net : kfnet := mkKfnet faulty_broker ∅ 0 [] 0.
Definition good_seeds : PoolConfig := demo_pool [str "127.0.0.1:9092"].

#[local] Existing Instance stored_codecs.

(** A producer on a fresh cluster: the seed is dialled, metadata is fetched, the
    leader is dialled, and the records arrive as in
    [ProducerDemo.partial_retry_against_kfake], each complete in one frame per
    request. *)
Example produce_over_connections :
  let env := pool_env good_seeds in
  let run := @ProduceSyncResult _ _ (Pool kfnet) Z env round_robin idempotent_cfg (mkProducer (New plain_config demo_net) 0 None) three_records in
  map (fun r => (prr_Partition r, prr_Offset r)) (fst (snd run)) = [(0, 0); (1, 0); (1, 1)] /\
  snd (snd run) = Ok tt /\
  addrs (pl_net (p_world (fst run))) = [str "127.0.0.1:9092"; str "127.0.0.1:9092"].
Proof. vm_compute. split_and!; reflexivity. Qed.

Definition open_options : Options := mkOptions 0 0 ∅ None [].
Definition refresh_run (seeds : list bytes) : Pool kfnet * res unit :=
  pool_Refresh (mkPoolConfig seeds (str "gokafka") open_options) None (New plain_config demo_net).

(** A dead first seed stops the metadata.  Dropping the seed connection
    does not move on to another seed: every attempt dials the seeds from the
    first again, so when that one accepts connections and answers nothing, all
    attempts go to it and the refresh fails although the next seed works. *)
Theorem dead_seed_blocks_refresh :
  let dead := str "dead:1" in let good := str "127.0.0.1:9092" in
  snd (refresh_run [dead; good]) = Err NetError /\
  addrs (pl_net (fst (refresh_run [dead; good]))) = [dead; dead; dead] /\
  snd (refresh_run [good; dead]) = Ok tt /\
  addrs (pl_net (fst (refresh_run [good; dead]))) = [good].
Proof. vm_compute. split_and!; reflexivity. Qed.

(** * Witnesses *)

Definition refreshed : Pool kfnet := fst (refresh_run [str "127.0.0.1:9092"]).
Definition good_pool : PoolConfig := mkPoolConfig [str "127.0.0.1:9092"] (str "gokafka") open_options.
Definition versions_request : bytes := bytes_of (EncodeApiVersionsRequest (str "gokafka") (str "1")).
Definition after_request : Pool kfnet * res bytes := pool_Request good_pool 0 APIApiVersions 3 versions_request refreshed.

Lemma quiet_refreshed : quiet refreshed.
Proof. split; vm_compute; reflexivity. Qed.

Lemma after_request_ok : exists resp, snd after_request = Ok resp.
Proof.
  destruct (snd after_request) as [resp|e|] eqn:E; [by exists resp| |].
  - exfalso. assert (Hok : match snd after_request with Ok _ => true | _ => false end = true) by (vm_compute; reflexivity). by rewrite E in Hok.
  - exfalso. assert (Hok : match snd after_request with Ok _ => true | _ => false end = true) by (vm_compute; reflexivity). by rewrite E in Hok.
Qed.

Lemma request_outcome_witness : exists p, pl_conns (fst after_request) !! 0 = Some p.
Proof.
  pose proof (request_outcome good_pool 0 APIApiVersions 3 versions_request refreshed (fst after_request) (snd after_request) (surjective_pairing _)) as Ho.
  destruct after_request_ok as [resp E]. rewrite E in Ho. exact Ho.
Defined.

Lemma request_written_once_witness : pool_written (fst after_request) = pool_written refreshed + 1.
Proof.
  destruct after_request_ok as [resp E].
  exact (proj2 (request_written_once good_pool 0 APIApiVersions 3 versions_request refreshed (fst after_request) (snd after_request)
    quiet_refreshed (surjective_pairing _)) resp E).
Defined.

Lemma refresh_spec_witness : exists ver resp m, DecodeMetadataResponse ver resp = Ok m /\ pl_meta refreshed = store_metadata m /\
  pl_refreshedAt refreshed = Some (te_now (world_of refreshed)).
Proof.
  refine (proj1 (refresh_spec good_pool None (New plain_config demo_net) refreshed (snd (refresh_run [str "127.0.0.1:9092"])) _) _).
  - apply surjective_pairing.
  - vm_compute. reflexivity.
Defined.

Definition sasl_config : Auth.Config kfnet := Auth.mkConfig SecuritySASLPlaintext (mkTLSConfig false [] [] [] false [])
  (mkSASLConfig SASLPlain (str "u") (str "p") [] None (mkKerberos [] None)).
Definition sasl_conn : Conn kfnet := mkConn false (str "127.0.0.1:9092") 0 (str "gokafka") 0 sasl_config 1000.

Lemma reauthenticate_blocks_witness : snd (Reauthenticate 0 (mkNet demo_net [sasl_conn])) = Panic.
Proof.
  destruct (reauthenticate_blocks 0 sasl_conn (mkNet demo_net [sasl_conn]) eq_refl eq_refl ltac:(vm_compute; reflexivity)) as [_ [Hp|[Hm _]]]; [exact Hp|].
  exfalso. apply (f_equal (fun l => bool_decide (l = SASLOAuth))) in Hm. vm_compute in Hm. discriminate Hm.
Defined.
