(* ===== verification/AdminCluster.v ===== *)
(** The administrative client for access control and the cluster:
    [admin_acl.go], [admin_scram_logdirs.go], [admin_delegation.go],
    [admin_records.go], [admin_reassign.go], [admin_quotas.go],
    [admin_transactions.go] and [admin_cluster.go].

    The methods are those of [Admin] over the messages of [AclCodec] and
    [ClusterCodec].  Where a public type copies every field of the protocol's,
    the protocol's type is the result; the others follow. *)

From Stdlib Require Import ZArith Lia.
From Stdlib Require Import Strings.Byte.
From stdpp Require Import base list gmap countable strings.
From S2P Require Import Prelude.
From S2P Require Import Wire.
From S2P Require Import Header.
From S2P Require Import Metadata.
From S2P Require Import Retry.
From S2P Require Import Producer.
From S2P Require Import GoMonad.
From S2P Require Import AdminCodec.
From S2P Require Import AclCodec.
From S2P Require Import ClusterCodec.
From S2P Require Import Admin.
From S2P Require Import Auth.

Open Scope Z_scope.

Definition VerDescribeLogDirs := 5.
Definition VerDeleteRecords := 2.
Definition VerCreateDelegationToken := 3.
Definition VerRenewDelegationToken := 2.
Definition VerExpireDelegationToken := 2.
Definition VerDescribeDelegationToken := 3.
Definition VerElectLeaders := 2.
Definition VerAlterPartitionReassign := 0.
Definition VerListPartitionReassign := 0.
Definition VerDescribeClientQuotas := 1.
Definition VerAlterClientQuotas := 1.
Definition VerDescribeUserScramCreds := 0.
Definition VerAlterUserScramCreds := 0.
Definition VerDescribeTransactions := 0.
Definition VerListTransactions := 2.

(** * Data *)

(** [Err] is the error of one partition. *)
Record DeletedRecords := mkDeletedRecords {
  de_Topic : bytes;
  de_Partition : Z;
  de_LowWatermark : Z;
  de_Err : option error }.

Record PartitionOutcome := mkPartitionOutcome { pa_Topic : bytes; pa_Partition : Z; pa_Err : option error }.

Record UserScramCredentials := mkUserScram { us_User : bytes; us_Credentials : list ScramCredentialInfo }.

Record LogDir := mkLogDir {
  lo_BrokerID : Z;
  lo_Path : bytes;
  lo_TotalBytes : Z;
  lo_UsableBytes : Z;
  lo_Err : option error;
  lo_Partitions : list LogDirPartition }.

Record QuotaFilterComponent := mkQuotaFilter { qf_EntityType : bytes; qf_MatchName : option bytes; qf_MatchDefault : bool }.

Record ClientQuota := mkClientQuota { cq_Entity : gmap bytes bytes; cq_Values : gmap bytes Z }.

(** A code other than 0 is an error of the partition. *)
Definition partition_error (code : Z) (topic : bytes) (part : Z) : option error :=
  if negb (code =? 0) then Some (KafkaError code topic part) else None.

(** [crypto/rand.Read] into a new slice of [n] bytes. *)
Class RandomEnv (W : Type) := rand_Read : Z -> M W bytes.

Section admin.
Context {W : Type} `{ClusterEnv W} `{MapOrder} `{AuthEnv W} `{RandomEnv W}.

Local Notation A := (M W).

(** * Access control lists *)

(** The first result with an error code; the binding's number is only in the
    error's text. *)
Definition CreateACLs (bindings : list ACLBinding) : A unit :=
  let! v := adm_version APICreateAcls VerCreateAcls in
  let ver := version_or v VerCreateAcls in
  let! resp := requestAny APICreateAcls ver (EncodeCreateACLsRequest ver bindings) in
  let! results := mlift (DecodeCreateACLsResponse ver resp) in
  mfor (fun r => check_code (tr_ErrorCode r)) results.

Definition DescribeACLs (resourceType : Z) (name principal : bytes) : A (list ACLBinding) :=
  let! v := adm_version APIDescribeAcls VerDescribeAcls in
  let ver := version_or v VerDescribeAcls in
  let! resp := requestAny APIDescribeAcls ver (EncodeDescribeACLsFilter ver resourceType name principal) in
  mlift (DecodeDescribeACLsResponse ver resp).

Definition DeleteACLs (resourceType : Z) (name principal : bytes) : A Z :=
  if bool_decide (name = []) && bool_decide (principal = [])
  then merr (FmtError "gokafka: DeleteACLs requires non-empty resource name or principal" 0) else
  let! v := adm_version APIDeleteAcls VerDeleteAcls in
  let ver := version_or v VerDeleteAcls in
  let! resp := requestAny APIDeleteAcls ver (EncodeDeleteACLsFilter ver resourceType name principal) in
  mlift (DecodeDeleteACLsResponse resp).

(** * SCRAM credentials *)

Definition saslName (mechanism : Z) : bytes := if mechanism =? ScramMechanismSHA512 then SASLSCRAM512 else SASLSCRAM256.

Definition alterUserScram (dels : list ScramDeletion) (ups : list ScramUpsertion) : A unit :=
  let! resp := requestAny APIAlterUserScramCreds VerAlterUserScramCreds (EncodeAlterUserScramCredentialsRequest dels ups) in
  let! results := mlift (DecodeAlterUserScramCredentialsResponse resp) in
  mfor (fun r => check_code (sr_ErrorCode r)) results.

Definition UpsertUserScramCredential (user : bytes) (mechanism : Z) (password : bytes) (iterations : Z) : A unit :=
  let iterations := if iterations <=? 0 then 4096 else iterations in
  let! salt := rand_Read 16 in
  let! salted := mlift (SaltedPassword (saslName mechanism) password salt iterations) in
  alterUserScram [] [mkScramUpsertion user mechanism (s32 iterations) salt salted].

Definition DeleteUserScramCredential (user : bytes) (mechanism : Z) : A unit :=
  alterUserScram [mkScramDeletion user mechanism] [].

(** Users with an error code are left out. *)
Fixpoint scram_users (results : list ScramDescription) : list UserScramCredentials :=
  match results with
  | [] => []
  | r :: rest =>
      if negb (sn_ErrorCode r =? 0) then scram_users rest
      else mkUserScram (sn_User r) (sn_Credentials r) :: scram_users rest
  end.

Definition DescribeUserScramCredentials (users : list bytes) : A (list UserScramCredentials) :=
  let! resp := requestAny APIDescribeUserScramCreds VerDescribeUserScramCreds (EncodeDescribeUserScramCredentialsRequest users) in
  let! r := mlift (DecodeDescribeUserScramCredentialsResponse resp) in
  let '(topErr, _, results) := r in
  do! check_code topErr in
  mret (scram_users results).

(** * Log directories *)

Definition log_dir (node : Z) (r : LogDirResult) : LogDir :=
  mkLogDir node (lr_LogDir r) (lr_TotalBytes r) (lr_UsableBytes r)
    (if negb (lr_ErrorCode r =? 0) then Some (kafka_error (lr_ErrorCode r)) else None) (lr_Partitions r).

Definition failed_dir (node : Z) (err : error) : LogDir := mkLogDir node [] 0 0 (Some err) [].

(** What one broker answers: the results or the error to record for it. *)
Definition log_dirs_of (ver : Z) (body : bytes) (node : Z) : A (list LogDirResult) :=
  let! resp := env_Request node APIDescribeLogDirs ver body in
  let! r := mlift (DecodeDescribeLogDirsResponse ver resp) in
  do! check_code (fst r) in
  mret (snd r).

(** [out], [lastErr] and [succeeded] of the code. *)
Fixpoint log_dirs_loop (ver : Z) (body : bytes) (targets : list Z) (out : list LogDir) (lastErr : option error) (succeeded : Z)
    : A (list LogDir * option error * Z) :=
  match targets with
  | [] => mret (out, lastErr, succeeded)
  | node :: rest =>
      let! r := mtry (log_dirs_of ver body node) in
      match r with
      | inr err => log_dirs_loop ver body rest (out ++ [failed_dir node err]) (Some err) succeeded
      | inl results => log_dirs_loop ver body rest (out ++ map (log_dir node) results) lastErr (succeeded + 1)
      end
  end.

(** The code returns the entries together with the error; both are the result
    here. *)
Definition DescribeLogDirs (topics : option (gmap bytes (list Z))) (brokerIDs : list Z) : A (list LogDir * option error) :=
  let! w := mget in
  let targets := if len brokerIDs =? 0 then map bm_NodeID (md_Brokers (cl_meta (env_cluster w))) else brokerIDs in
  let! v := adm_version APIDescribeLogDirs VerDescribeLogDirs in
  let ver := positive_or v VerDescribeLogDirs in
  let! body := mlift (EncodeDescribeLogDirsRequest ver topics) in
  let! r := log_dirs_loop ver body targets [] None 0 in
  let '(out, lastErr, succeeded) := r in
  mret (out, if succeeded =? 0 then lastErr else None).

(** * Delegation tokens *)

Definition CreateDelegationToken (owner : option Principal) (renewers : list Principal) (maxLifetimeMs : Z) : A DelegationToken :=
  let! resp := requestAny APICreateDelegationToken VerCreateDelegationToken
    (EncodeCreateDelegationTokenRequest owner renewers maxLifetimeMs) in
  let! r := mlift (DecodeCreateDelegationTokenResponse resp) in
  do! check_code (fst r) in
  mret (snd r).

Definition RenewDelegationToken (hmac : option bytes) (renewPeriodMs : Z) : A Z :=
  let! resp := requestAny APIRenewDelegationToken VerRenewDelegationToken (EncodeRenewDelegationTokenRequest hmac renewPeriodMs) in
  let! r := mlift (DecodeRenewOrExpireDelegationTokenResponse resp) in
  do! check_code (fst r) in
  mret (snd r).

Definition ExpireDelegationToken (hmac : option bytes) (expiryTimePeriodMs : Z) : A Z :=
  let! resp := requestAny APIExpireDelegationToken VerExpireDelegationToken (EncodeExpireDelegationTokenRequest hmac expiryTimePeriodMs) in
  let! r := mlift (DecodeRenewOrExpireDelegationTokenResponse resp) in
  do! check_code (fst r) in
  mret (snd r).

Definition DescribeDelegationTokens (owners : list Principal) : A (list DelegationToken) :=
  let! resp := requestAny APIDescribeDelegationToken VerDescribeDelegationToken
    (EncodeDescribeDelegationTokenRequest (if len owners >? 0 then Some owners else None)) in
  let! r := mlift (DecodeDescribeDelegationTokenResponse resp) in
  do! check_code (fst r) in
  mret (snd r).

(** * Records *)

(** The struct [tp] of [DeleteRecords]. *)
Definition delete_item : Type := bytes * Z * Z.

(** Ranging over the partitions of one topic, then over the topics. *)
Fixpoint route_partitions (cl : Cluster) (topic : bytes) (parts : list (Z * Z)) (byLeader : gmap Z (list delete_item))
    : res (gmap Z (list delete_item)) :=
  match parts with
  | [] => Ok byLeader
  | (p, off) :: rest =>
      match LeaderNodeID cl topic p with
      | None => Err (KafkaError 6 topic p)
      | Some leader => route_partitions cl topic rest (push byLeader leader (topic, p, off))
      end
  end.

Fixpoint route_deletes (cl : Cluster) (topics : list (bytes * gmap Z Z)) (byLeader : gmap Z (list delete_item))
    : res (gmap Z (list delete_item)) :=
  match topics with
  | [] => Ok byLeader
  | (topic, parts) :: rest =>
      let? byLeader := route_partitions cl topic (range parts) byLeader in
      route_deletes cl rest byLeader
  end.

Definition delete_request (items : list delete_item) : gmap bytes (gmap Z Z) :=
  fold_left (fun (req : gmap bytes (gmap Z Z)) (it : delete_item) =>
    let '(topic, p, off) := it in <[topic := <[p := off]> (default ∅ (req !! topic))]> req) items ∅.

Definition deleted_result (r : DeleteRecordsResult) : DeletedRecords :=
  mkDeletedRecords (dr_Topic r) (dr_Partition r) (dr_LowWatermark r) (partition_error (dr_ErrorCode r) (dr_Topic r) (dr_Partition r)).

Fixpoint delete_loop (ver : Z) (leaders : list (Z * list delete_item)) (out : list DeletedRecords) : A (list DeletedRecords) :=
  match leaders with
  | [] => mret out
  | (leader, items) :: rest =>
      let! resp := adm_request leader APIDeleteRecords ver (EncodeDeleteRecordsRequest ver (delete_request items) 30000) in
      let! results := mlift (DecodeDeleteRecordsResponse ver resp) in
      delete_loop ver rest (out ++ map deleted_result results)
  end.

Definition DeleteRecords (offsets : gmap bytes (gmap Z Z)) : A (list DeletedRecords) :=
  if bool_decide (offsets = ∅) then mret [] else
  do! env_RefreshIfStale (map fst (range offsets)) in
  let! w := mget in
  let! byLeader := mlift (route_deletes (env_cluster w) (range offsets) ∅) in
  let! v := adm_version APIDeleteRecords VerDeleteRecords in
  delete_loop (version_or v VerDeleteRecords) (range byLeader) [].

Definition elected (r : ElectLeadersResult) : PartitionOutcome :=
  mkPartitionOutcome (el_Topic r) (el_Partition r) (partition_error (el_ErrorCode r) (el_Topic r) (el_Partition r)).

Definition ElectLeaders (electionType : Z) (topicPartitions : option (gmap bytes (list Z))) : A (list PartitionOutcome) :=
  let! v := adm_version APIElectLeaders VerElectLeaders in
  let ver := version_or v VerElectLeaders in
  let! resp := requestAny APIElectLeaders ver (EncodeElectLeadersRequest ver electionType topicPartitions 30000) in
  let! r := mlift (DecodeElectLeadersResponse ver resp) in
  do! check_code (fst r) in
  mret (map elected (snd r)).

(** * Reassignments *)

Definition reassignment_moves (assignments : gmap bytes (gmap Z (option (list Z)))) : gmap bytes (list ReassignmentMove) :=
  fold_left (fun (topics : gmap bytes (list ReassignmentMove)) tp =>
    <[fst tp := map (fun pr => mkMove (fst pr) (snd pr)) (range (snd tp))]> topics) (range assignments) ∅.

Definition reassigned (r : PartitionReassignmentResult) : PartitionOutcome :=
  mkPartitionOutcome (ra_Topic r) (ra_Partition r) (partition_error (ra_ErrorCode r) (ra_Topic r) (ra_Partition r)).

Definition AlterPartitionReassignments (assignments : gmap bytes (gmap Z (option (list Z)))) : A (list PartitionOutcome) :=
  let! resp := requestAny APIAlterPartitionReassign VerAlterPartitionReassign
    (EncodeAlterPartitionReassignmentsRequest 30000 (reassignment_moves assignments)) in
  let! r := mlift (DecodeAlterPartitionReassignmentsResponse resp) in
  let '(topErr, _, results) := r in
  do! check_code topErr in
  mret (map reassigned results).

Definition ListPartitionReassignments (topicPartitions : gmap bytes (list Z)) : A (list OngoingReassignment) :=
  let! resp := requestAny APIListPartitionReassign VerListPartitionReassign
    (EncodeListPartitionReassignmentsRequest 30000 topicPartitions) in
  let! r := mlift (DecodeListPartitionReassignmentsResponse resp) in
  let '(topErr, _, ongoing) := r in
  do! check_code topErr in
  mret ongoing.

(** * Quotas *)

Definition quota_component (f : QuotaFilterComponent) : QuotaComponent :=
  if qf_MatchDefault f then mkQuotaComponent (qf_EntityType f) QuotaMatchDefault None
  else match qf_MatchName f with
       | Some name => mkQuotaComponent (qf_EntityType f) QuotaMatchExact (Some name)
       | None => mkQuotaComponent (qf_EntityType f) QuotaMatchAny None
       end.

(** The default entity is the empty name. *)
Definition entityToMap (elems : list QuotaEntityElem) : gmap bytes bytes :=
  fold_left (fun (m : gmap bytes bytes) e => <[qe_Type e := default [] (qe_Name e)]> m) elems ∅.

Definition mapToEntity (m : gmap bytes bytes) : list QuotaEntityElem :=
  map (fun tn => mkQuotaElem (fst tn) (nonempty (snd tn))) (range m).

Definition DescribeClientQuotas (filter : list QuotaFilterComponent) (strict : bool) : A (list ClientQuota) :=
  let! v := adm_version APIDescribeClientQuotas VerDescribeClientQuotas in
  let ver := version_or v VerDescribeClientQuotas in
  let! resp := requestAny APIDescribeClientQuotas ver (EncodeDescribeClientQuotasRequest ver (map quota_component filter) strict) in
  let! r := mlift (DecodeDescribeClientQuotasResponse ver resp) in
  let '(code, _, entries) := r in
  do! check_code code in
  mret (map (fun e => mkClientQuota (entityToMap (qn_Entity e)) (qn_Values e)) entries).

Definition SetClientQuota (entity : gmap bytes bytes) (ops : list QuotaOp) : A unit :=
  if len ops =? 0 then mret tt else
  let! v := adm_version APIAlterClientQuotas VerAlterClientQuotas in
  let ver := version_or v VerAlterClientQuotas in
  let! resp := requestAny APIAlterClientQuotas ver
    (EncodeAlterClientQuotasRequest ver [mkQuotaAlteration (mapToEntity entity) ops] false) in
  let! results := mlift (DecodeAlterClientQuotasResponse ver resp) in
  mfor (fun r => check_code (qr_ErrorCode r)) results.

(** * Transactions *)

(** The listings of one broker; an id that was seen is skipped. *)
Fixpoint add_listings (listings : list TransactionListing) (seen : gset bytes) (out : list TransactionListing)
    : gset bytes * list TransactionListing :=
  match listings with
  | [] => (seen, out)
  | l :: rest =>
      if bool_decide (tl_TransactionalID l ∈ seen) then add_listings rest seen out
      else add_listings rest ({[tl_TransactionalID l]} ∪ seen) (out ++ [l])
  end.

Fixpoint list_transactions_loop (ver : Z) (body : bytes) (targets : list Z) (seen : gset bytes) (out : list TransactionListing)
    : A (list TransactionListing) :=
  match targets with
  | [] => mret out
  | node :: rest =>
      let! resp := env_Request node APIListTransactions ver body in
      let! r := mlift (DecodeListTransactionsResponse ver resp) in
      do! check_code (fst r) in
      let '(seen, out) := add_listings (snd r) seen out in
      list_transactions_loop ver body rest seen out
  end.

Definition ListTransactions (stateFilters : list bytes) (producerIDFilters : list Z) : A (list TransactionListing) :=
  let! v := adm_version APIListTransactions VerListTransactions in
  let ver := version_or v VerListTransactions in
  let! body := mlift (EncodeListTransactionsRequest ver stateFilters producerIDFilters) in
  let! w := mget in
  list_transactions_loop ver body (map bm_NodeID (md_Brokers (cl_meta (env_cluster w)))) ∅ [].

(** The transactional ids of each coordinator. *)
Fixpoint txn_coordinators (ids : list bytes) (byCoord : gmap Z (list bytes)) : A (gmap Z (list bytes)) :=
  match ids with
  | [] => mret byCoord
  | id :: rest =>
      let! coord := env_TransactionCoordinator id in
      txn_coordinators rest (push byCoord coord id)
  end.

Fixpoint describe_txn_loop (ver : Z) (coords : list (Z * list bytes)) (out : list TransactionDescription)
    : A (list TransactionDescription) :=
  match coords with
  | [] => mret out
  | (coord, ids) :: rest =>
      let! resp := adm_request coord APIDescribeTransactions ver (EncodeDescribeTransactionsRequest ids) in
      let! descs := mlift (DecodeDescribeTransactionsResponse resp) in
      do! mfor (fun d => check_code (tx_ErrorCode d)) descs in
      describe_txn_loop ver rest (out ++ descs)
  end.

Definition DescribeTransactions (transactionalIDs : list bytes) : A (list TransactionDescription) :=
  if len transactionalIDs =? 0 then mret [] else
  let! v := adm_version APIDescribeTransactions VerDescribeTransactions in
  let ver := version_or v VerDescribeTransactions in
  let! byCoord := txn_coordinators transactionalIDs ∅ in
  describe_txn_loop ver (range byCoord) [].

(** * The cluster *)

Definition describeClusterWire : A ClusterDescription :=
  let! body := mlift EncodeDescribeClusterRequest in
  let! rb := env_RequestViaSeed APIDescribeCluster VerDescribeCluster body in
  let! wire := mlift (DecodeDescribeClusterResponse rb) in
  do! check_code (cd_ErrorCode wire) in
  mret wire.

Definition describeClusterFromMetadata : A ClusterDescription :=
  do! env_Refresh [] in
  let! w := mget in
  let meta := cl_meta (env_cluster w) in
  mret (mkClusterDescription (md_ClusterID meta) (md_Controller meta)
    (map (fun b => mkClusterBroker (bm_NodeID b) (bm_Host b) (bm_Port b) (bm_Rack b)) (md_Brokers meta)) 0).

Definition DescribeCluster : A ClusterDescription :=
  do! adm_open in
  let! r := mtry describeClusterWire in
  match r with
  | inl desc => mret desc
  | inr _ => describeClusterFromMetadata
  end.
End admin.
