(* ===== verification/AdminClusterFacts.v ===== *)
(** What the administrative client guarantees for access control and the
    cluster: deletions reach exactly the leaders of the partitions, one broken
    broker does not hide the others' log directories, transactions are listed
    once, quota entities and SCRAM credentials survive the way to the broker. *)

From Stdlib Require Import ZArith Lia.
From Stdlib Require Import Strings.Byte.
From stdpp Require Import base list gmap countable strings.
From S2P Require Import Prelude.
From S2P Require Import Wire.
From S2P Require Import Header.
From S2P Require Import Metadata.
From S2P Require Import Retry.
From S2P Require Import Producer.
From S2P Require Import ProducerFacts.
From S2P Require Import GoMonad.
From S2P Require Import AdminCodec.
From S2P Require Import AclCodec.
From S2P Require Import ClusterCodec.
From S2P Require Import Admin.
From S2P Require Import Auth.
From S2P Require Import AdminCluster.

Open Scope Z_scope.

(** * Deleting records *)

Definition lookup2 (m : gmap bytes (gmap Z Z)) (topic : bytes) (p : Z) : option Z := m !! topic ≫= (fun parts => parts !! p).

Section routing.
Context `{MapOrder} (cl : Cluster).

(** An item is filed under the leader of its partition. *)
Definition filed (m : gmap Z (list delete_item)) (node : Z) (it : delete_item) : Prop := it ∈ default [] (m !! node).

Lemma filed_push m k v node it : filed (push m k v) node it <-> filed m node it \/ (k = node /\ it = v).
Proof.
  unfold filed. rewrite push_lookup, elem_of_app. case_decide as Hk.
  - rewrite list_elem_of_singleton. naive_solver.
  - rewrite elem_of_nil. naive_solver.
Qed.

Lemma route_partitions_spec topic parts : forall m m', route_partitions cl topic parts m = Ok m' ->
  forall node it, filed m' node it <->
    filed m node it \/ exists p off, it = (topic, p, off) /\ (p, off) ∈ parts /\ LeaderNodeID cl topic p = Some node.
Proof.
  induction parts as [|[p off] rest IH]; cbn [route_partitions]; intros m m' Hr node it.
  - injection Hr as <-. setoid_rewrite elem_of_nil. naive_solver.
  - destruct (LeaderNodeID cl topic p) as [leader|] eqn:Hl; [|done]. rewrite (IH _ _ Hr), filed_push.
    setoid_rewrite elem_of_cons. naive_solver.
Qed.

Lemma route_deletes_spec topics : forall m m', route_deletes cl topics m = Ok m' ->
  forall node it, filed m' node it <->
    filed m node it \/ exists topic parts p off, it = (topic, p, off) /\ (topic, parts) ∈ topics /\ parts !! p = Some off /\
      LeaderNodeID cl topic p = Some node.
Proof.
  induction topics as [|[topic parts] rest IH]; cbn [route_deletes]; intros m m' Hr node it.
  - injection Hr as <-. setoid_rewrite elem_of_nil. naive_solver.
  - destruct (route_partitions cl topic (range parts) m) as [m1| |] eqn:Hp; [|done..]. cbn [res_bind] in Hr.
    rewrite (IH _ _ Hr), (route_partitions_spec _ _ _ _ Hp). setoid_rewrite elem_of_range. setoid_rewrite elem_of_cons. naive_solver.
Qed.

Lemma route_partitions_leaderless topic parts p off m : (p, off) ∈ parts -> LeaderNodeID cl topic p = None ->
  exists q, route_partitions cl topic parts m = Err (KafkaError 6 topic q).
Proof.
  intros Hin Hl. revert m. induction parts as [|[q o] rest IH]; intros m; [by apply elem_of_nil in Hin|]. cbn [route_partitions].
  apply elem_of_cons in Hin as [[= -> ->]|Hin]; [rewrite Hl; eauto|]. destruct (LeaderNodeID cl topic q); eauto.
Qed.

Lemma route_partitions_result topic parts : forall m,
  (exists m', route_partitions cl topic parts m = Ok m') \/ exists q, route_partitions cl topic parts m = Err (KafkaError 6 topic q).
Proof. induction parts as [|[q o] rest IH]; intros m; cbn [route_partitions]; [eauto|]. destruct (LeaderNodeID cl topic q); eauto. Qed.

Lemma route_deletes_leaderless topics topic parts p off m :
  (topic, parts) ∈ topics -> parts !! p = Some off -> LeaderNodeID cl topic p = None ->
  exists t q, route_deletes cl topics m = Err (KafkaError 6 t q).
Proof.
  intros Hin Hp Hl. revert m. induction topics as [|[t ps] rest IH]; intros m; [by apply elem_of_nil in Hin|]. cbn [route_deletes].
  apply elem_of_cons in Hin as [[= <- <-]|Hin].
  - destruct (route_partitions_leaderless topic (range parts) p off m) as [q ->]; [by apply elem_of_range|done|]. cbn. eauto.
  - destruct (route_partitions_result t (range ps) m) as [[m' ->]|[q ->]]; cbn [res_bind]; eauto.
Qed.
End routing.

Lemma lookup2_insert m topic p off topic' p' :
  lookup2 (<[topic := <[p := off]> (default ∅ (m !! topic))]> m) topic' p' =
    if decide ((topic, p) = (topic', p')) then Some off else lookup2 m topic' p'.
Proof.
  unfold lookup2. destruct (decide (topic = topic')) as [<-|Ht].
  - rewrite lookup_insert_eq. cbn. destruct (decide (p = p')) as [<-|Hp].
    + by rewrite lookup_insert_eq, decide_True.
    + rewrite lookup_insert_ne, decide_False by congruence. by destruct (m !! topic).
  - rewrite lookup_insert_ne, decide_False by congruence. done.
Qed.

(** A request holds its items, when no partition has two offsets. *)
Lemma delete_request_spec items : (forall t p o o', (t, p, o) ∈ items -> (t, p, o') ∈ items -> o = o') ->
  forall t p o, lookup2 (delete_request items) t p = Some o <-> (t, p, o) ∈ items.
Proof.
  induction items as [|[[t0 p0] o0] items IH] using rev_ind; intros Hu t p o.
  - unfold delete_request, lookup2. cbn. rewrite elem_of_nil. naive_solver.
  - unfold delete_request. rewrite fold_left_app. cbn [fold_left]. rewrite lookup2_insert, elem_of_app, list_elem_of_singleton.
    assert (Hlast : (t0, p0, o0) ∈ items ++ [(t0, p0, o0)]) by (apply elem_of_app; right; by apply list_elem_of_singleton).
    destruct (decide ((t0, p0) = (t, p))) as [[= <- <-]|Hne].
    + split; [intros [= ->]; by right|]. intros [Hin|[= ->]]; [|done]. f_equal. apply (Hu t0 p0); [done|]. apply elem_of_app. by left.
    + change (fold_left _ items ∅) with (delete_request items). rewrite IH; [naive_solver|].
      intros t' p' a b Ha Hb. apply (Hu t' p'); apply elem_of_app; by left.
Qed.

Section requests.
Context `{MapOrder} (cl : Cluster) (offsets : gmap bytes (gmap Z Z)) (m : gmap Z (list delete_item)).
Hypothesis Hroute : route_deletes cl (range offsets) ∅ = Ok m.

Lemma filed_offsets node t p o : filed m node (t, p, o) <-> lookup2 offsets t p = Some o /\ LeaderNodeID cl t p = Some node.
Proof using Hroute.
  rewrite (route_deletes_spec cl _ _ _ Hroute). unfold filed. rewrite lookup_empty. cbn [default]. rewrite elem_of_nil. unfold lookup2.
  setoid_rewrite elem_of_range. split.
  - intros [[]|(t' & ps & p' & o' & [= <- <- <-] & -> & Hp & Hl)]. by rewrite <- Hp.
  - intros [Ho Hl]. right. apply bind_Some in Ho as (ps & Ht & Hp). by exists t, ps, p, o.
Qed.

Lemma request_offsets node items t p o : m !! node = Some items ->
  lookup2 (delete_request items) t p = Some o <-> lookup2 offsets t p = Some o /\ LeaderNodeID cl t p = Some node.
Proof using Hroute.
  intros Hm. assert (Hin : forall it, it ∈ items <-> filed m node it) by (intros it; unfold filed; by rewrite Hm).
  rewrite delete_request_spec, Hin; [apply filed_offsets|]. intros t' q a b Ha Hb.
  apply Hin, filed_offsets in Ha as [Ha _]. apply Hin, filed_offsets in Hb as [Hb _]. congruence.
Qed.

End requests.

(** ** What a request says *)

Section said.
Context `{MapOrder}.

(** The body of a DeleteRecords, read field by field: topics with their
    partitions and offsets, and the timeout. *)
Definition read_delete_partition (ver : Z) : Rd (Z * Z) :=
  part <- ReadInt32 ;;
  off <- ReadInt64 ;;
  (if ver >=? 2 then SkipTagSection else ret tt) ;;;
  ret (part, off).

Definition read_delete_topic (ver : Z) : Rd (bytes * list (Z * Z)) :=
  topic <- (if ver >=? 2 then ReadCompactString else ReadString) ;;
  n <- (if ver >=? 2 then (n <- ReadUvarint ;; ret (n - 1)) else ReadInt32) ;;
  parts <- rd_list n (read_delete_partition ver) ;;
  (if ver >=? 2 then SkipTagSection else ret tt) ;;;
  ret (topic, parts).

Definition read_delete_request (ver : Z) : Rd (list (bytes * list (Z * Z)) * Z) :=
  n <- (if ver >=? 2 then (n <- ReadUvarint ;; ret (n - 1)) else ReadInt32) ;;
  topics <- rd_list n (read_delete_topic ver) ;;
  timeout <- ReadInt32 ;;
  (if ver >=? 2 then SkipTagSection else ret tt) ;;;
  ret (topics, timeout).

Definition wf_delete_parts (parts : gmap Z Z) : Prop :=
  fits (range parts) /\ forall p off, parts !! p = Some off -> int32 p /\ int64 off.
Definition wf_deletes (offsets : gmap bytes (gmap Z Z)) : Prop :=
  fits (range offsets) /\ forall topic parts, offsets !! topic = Some parts -> fits topic /\ wf_delete_parts parts.

Definition said_topic (tp : bytes * gmap Z Z) : bytes * list (Z * Z) := (fst tp, range (snd tp)).

Lemma Reads_delete_topic ver tp : fits (fst tp) -> wf_delete_parts (snd tp) ->
  Reads (read_delete_topic ver) (if ver >=? 2 then write_deletes_flex tp else write_deletes_legacy tp) (said_topic tp).
Proof.
  intros Ht [Hf Hp]. unfold read_delete_topic, said_topic. pose proof (len_nonneg (range (snd tp))) as Hn. unfold fits in Hf.
  assert (Forall (fun po => int32 (fst po) /\ int64 (snd po)) (range (snd tp))) as Hpo
    by (apply Forall_forall; intros [p o] Hin; apply Hp; by apply elem_of_range).
  destruct (ver >=? 2) eqn:Ev; unfold write_deletes_flex, write_deletes_legacy.
  - field. eapply Reads_bind; [eapply Reads_bind_last; [apply Reads_array_len; lia|apply Reads_ret]|]. rewrite Z.add_simpl_r.
    eapply Reads_bind.
    + eapply Reads_list; [done|exact Hpo|]. intros [p o] [? ?]. unfold read_delete_partition. rewrite Ev. fields. last_field. apply Reads_ret.
    + last_field. apply Reads_ret.
  - field. rewrite s32_id by (unfold int32; lia). eapply Reads_bind; [apply Reads_int32; unfold int32; lia|].
    eapply Reads_bind_last.
    + eapply Reads_list; [done|exact Hpo|]. intros [p o] [? ?]. unfold read_delete_partition. rewrite Ev. field. last_field.
      eapply Reads_bind_last; apply Reads_ret.
    + eapply Reads_bind_last; apply Reads_ret.
Qed.

Lemma Reads_delete_request ver offsets timeout : wf_deletes offsets -> int32 timeout ->
  Reads (read_delete_request ver) (EncodeDeleteRecordsRequest ver offsets timeout) (map said_topic (range offsets), timeout).
Proof.
  intros [Hf Hw] Ht. unfold read_delete_request, EncodeDeleteRecordsRequest. pose proof (len_nonneg (range offsets)) as Hn. unfold fits in Hf.
  assert (Forall (fun tp => fits (fst tp) /\ wf_delete_parts (snd tp)) (range offsets)) as Htp
    by (apply Forall_forall; intros [t ps] Hin; apply Hw; by apply elem_of_range).
  assert (forall tp, fits (fst tp) /\ wf_delete_parts (snd tp) ->
    Reads (read_delete_topic ver) (if ver >=? 2 then write_deletes_flex tp else write_deletes_legacy tp) (said_topic tp)) as Hread
    by (intros tp [? ?]; by apply Reads_delete_topic).
  destruct (ver >=? 2).
  - eapply Reads_bind; [eapply Reads_bind_last; [apply Reads_array_len; lia|apply Reads_ret]|]. rewrite Z.add_simpl_r.
    eapply Reads_bind; [eapply Reads_list_map; [done|exact Htp|exact Hread]|]. field. last_field. apply Reads_ret.
  - rewrite s32_id by (unfold int32; lia). eapply Reads_bind; [apply Reads_int32; unfold int32; lia|].
    eapply Reads_bind; [eapply Reads_list_map; [done|exact Htp|exact Hread]|]. last_field. eapply Reads_bind_last; apply Reads_ret.
Qed.

(** Every topic of a request has a partition, so a request is no larger than the
    offsets it is made of. *)
Lemma delete_request_topics items topic parts : delete_request items !! topic = Some parts -> parts <> ∅.
Proof.
  revert topic parts. induction items as [|[[t p] o] items IH] using rev_ind; intros topic parts.
  - unfold delete_request. cbn. by rewrite lookup_empty.
  - unfold delete_request. rewrite fold_left_app. cbn [fold_left]. intros [[_ <-]|[_ Hl]]%lookup_insert_Some; [apply insert_non_empty|].
    by eapply IH.
Qed.

Lemma wf_delete_request items offsets : wf_deletes offsets ->
  (forall t p o, lookup2 (delete_request items) t p = Some o -> lookup2 offsets t p = Some o) -> wf_deletes (delete_request items).
Proof.
  intros [Hf Hw] Hsub.
  assert (forall t ps, delete_request items !! t = Some ps -> exists ps', offsets !! t = Some ps' /\ ps ⊆ ps') as Hin.
  { intros t ps Ht. destruct (map_choose ps (delete_request_topics _ _ _ Ht)) as (p & o & Hp).
    assert (forall p o, ps !! p = Some o -> lookup2 offsets t p = Some o) as Hps
      by (intros q x Hq; apply Hsub; unfold lookup2; by rewrite Ht).
    pose proof (Hps p o Hp) as Ho. apply bind_Some in Ho as (ps' & Ht' & _). exists ps'. split; [done|].
    apply map_subseteq_spec. intros q x Hq. specialize (Hps q x Hq). unfold lookup2 in Hps. by rewrite Ht' in Hps. }
  unfold wf_deletes, wf_delete_parts, fits, len in *. setoid_rewrite length_range in Hf. setoid_rewrite length_range in Hw.
  setoid_rewrite length_range. split.
  - assert (size (delete_request items) <= size offsets)%nat; [|lia]. rewrite <- !size_dom. apply subseteq_size. intros t Ht.
    apply elem_of_dom in Ht as [ps Ht]. destruct (Hin t ps Ht) as (ps' & ? & _). apply elem_of_dom. eauto.
  - intros t ps Ht. destruct (Hin t ps Ht) as (ps' & Ht' & Hs). destruct (Hw t ps' Ht') as (Hft & Hfp & Hb). split_and!; [done| |].
    + pose proof (map_subseteq_size _ _ Hs). lia.
    + intros p o Hp. apply Hb. by eapply lookup_weaken.
Qed.
End said.

(** One of the calls tells [node] to delete a partition up to an offset. *)
Definition told (ver : Z) (sent : list call) (node : Z) (topic : bytes) (p off : Z) : Prop :=
  exists c topics timeout parts, c ∈ sent /\ call_node c = node /\ run (read_delete_request ver) (call_body c) = Ok (topics, timeout) /\
    (topic, parts) ∈ topics /\ (p, off) ∈ parts.

Section deletes.
Context {W : Type} `{ClusterEnv W} `{!TracedEnv W} `{MapOrder}.

Definition delete_asked (ver : Z) (li : Z * list delete_item) (c : call) : Prop :=
  call_node c = fst li /\ call_api c = APIDeleteRecords /\ call_ver c = ver /\
  EncodeDeleteRecordsRequest ver (delete_request (snd li)) 30000 = Ok (call_body c).

Definition delete_answered (ver : Z) (c : call) (results : list DeleteRecordsResult) : Prop :=
  exists rb, call_reply c = Ok rb /\ DecodeDeleteRecordsResponse ver rb = Ok results.

Lemma delete_loop_run ver leaders : forall out (w w' : W) r, delete_loop ver leaders out w = (w', r) ->
  exists l1 l2 new, leaders = l1 ++ l2 /\ env_calls w' = env_calls w ++ new /\ Forall2 (delete_asked ver) l1 new /\
    forall out', r = Ok out' -> l2 = [] /\ exists answers, Forall2 (delete_answered ver) new answers /\
      out' = out ++ map deleted_result (concat answers).
Proof.
  induction leaders as [|li rest IH]; cbn [delete_loop]; intros out w w' r Hd.
  - injection Hd as <- <-. exists [], [], []. split_and!; [done|by rewrite app_nil_r|constructor|]. intros out' [= <-].
    split; [done|]. exists []. split; [constructor|]. cbn. by rewrite app_nil_r.
  - destruct li as [leader items]. unfold adm_request in Hd. unfold mthen at 1 2, mlift at 1 in Hd.
    destruct (EncodeDeleteRecordsRequest _ _ _) as [body|e|] eqn:Eb.
    2,3: injection Hd as <- <-; exists [], ((leader, items) :: rest), []; split_and!; [done|by rewrite app_nil_r|constructor|done].
    pose proof (calls_Request leader APIDeleteRecords ver body w) as Hc. destruct (env_Request _ _ _ _ w) as [w1 a]. cbn [fst snd] in Hc.
    set (c := mkCall _ _ _ _ _) in Hc. assert (delete_asked ver (leader, items) c) as Hask by done.
    destruct a as [rb|e|].
    2,3: injection Hd as <- <-; exists [(leader, items)], rest, [c]; split_and!; [done|done|by repeat constructor|done].
    unfold mthen at 1, mlift in Hd. destruct (DecodeDeleteRecordsResponse ver rb) as [results|e|] eqn:Ed.
    2,3: injection Hd as <- <-; exists [(leader, items)], rest, [c]; split_and!; [done|done|by repeat constructor|done].
    apply IH in Hd as (l1 & l2 & new & -> & Hcs & Hf & Hok). exists ((leader, items) :: l1), l2, (c :: new).
    split_and!; [done|by rewrite Hcs, Hc, <- app_assoc|by constructor|]. intros out' Hr.
    destruct (Hok out' Hr) as (-> & answers & Ha & ->). split; [done|]. exists (results :: answers). split.
    + constructor; [by exists rb|done].
    + cbn [concat]. by rewrite map_app, app_assoc.
Qed.

(** C10: Deleting records is exact.  Once the metadata is fresh and every
    partition has a leader, [DeleteRecords] sends at most one DeleteRecords
    request to each broker.  Read back from the bytes, whatever the outcome these
    tell a broker to delete a partition up to an offset only when the caller
    asked for that and the broker leads the partition; when the call succeeds
    they do so for every partition the caller named, each request was answered,
    and the result lists what the brokers answered, in order.  When a partition
    has no leader, nothing is sent at all. *)
Theorem delete_records_exact offsets (w w1 : W) :
  offsets <> ∅ -> wf_deletes offsets -> env_RefreshIfStale (map fst (range offsets)) w = (w1, Ok tt) ->
  let cl := env_cluster w1 in
  let ver := version_or (negotiatedVersion (env_versions w1) APIDeleteRecords VerDeleteRecords) VerDeleteRecords in
  (forall w' r, DeleteRecords offsets w = (w', r) -> exists new, env_calls w' = env_calls w ++ new /\ NoDup (map call_node new) /\
     Forall (fun c => call_api c = APIDeleteRecords /\ call_ver c = ver /\
       exists topics, run (read_delete_request ver) (call_body c) = Ok (topics, 30000)) new /\
     (forall node topic p off, told ver new node topic p off ->
        lookup2 offsets topic p = Some off /\ LeaderNodeID cl topic p = Some node) /\
     (forall out, r = Ok out ->
        (exists answers, Forall2 (delete_answered ver) new answers /\ out = map deleted_result (concat answers)) /\
        forall topic p off, lookup2 offsets topic p = Some off ->
          exists node, LeaderNodeID cl topic p = Some node /\ told ver new node topic p off)) /\
  (forall topic p off, lookup2 offsets topic p = Some off -> LeaderNodeID cl topic p = None ->
     exists t q, DeleteRecords offsets w = (w1, Err (KafkaError 6 t q)) /\ env_calls w1 = env_calls w).
Proof.
  intros Hne Hwf Hfresh cl ver. pose proof (calls_RefreshIfStale (map fst (range offsets)) w) as Hc1. rewrite Hfresh in Hc1. cbn [fst] in Hc1.
  assert (forall topic p off, lookup2 offsets topic p = Some off -> LeaderNodeID cl topic p = None ->
     exists t q, DeleteRecords offsets w = (w1, Err (KafkaError 6 t q))) as Hnone.
  { intros topic p off Ho Hl. apply bind_Some in Ho as (parts & Ht & Hp).
    destruct (route_deletes_leaderless cl (range offsets) topic parts p off ∅) as (t & q & Hr); [by apply elem_of_range|done|done|].
    exists t, q. unfold DeleteRecords. rewrite bool_decide_false by done. erewrite mthen_ok by exact Hfresh.
    unfold mthen at 1, mget. unfold mthen at 1, mlift. fold cl. by rewrite Hr. }
  split; [|intros topic p off Ho Hl; destruct (Hnone _ _ _ Ho Hl) as (t & q & ?); by exists t, q].
  intros w' r Hrun. assert (Hd := Hrun). unfold DeleteRecords in Hd. rewrite bool_decide_false in Hd by done.
  erewrite mthen_ok in Hd by exact Hfresh. unfold mthen at 1, mget in Hd. unfold mthen at 1, mlift in Hd. fold cl in Hd.
  destruct (route_deletes cl (range offsets) ∅) as [m|e|] eqn:Hroute.
  2,3: injection Hd as <- <-; exists []; rewrite app_nil_r; split_and!; [done|constructor|constructor|by intros ? ? ? ? (? & ? & ? & ? & []%elem_of_nil & _)|done].
  unfold mthen, adm_version, mgets in Hd. fold ver in Hd. apply delete_loop_run in Hd as (l1 & l2 & new & Hl & Hcs & Hf & Hok).
  assert (forall li c, li ∈ l1 -> delete_asked ver li c -> m !! fst li = Some (snd li) /\
    run (read_delete_request ver) (call_body c) = Ok (map said_topic (range (delete_request (snd li))), 30000)) as Hreads.
  { intros [node items] c Hin (_ & _ & _ & He). cbn [fst snd] in *.
    assert (m !! node = Some items) as Hm by (apply elem_of_range; rewrite Hl; apply elem_of_app; by left). split; [done|].
    eapply Reads_run; [|exact He]. apply Reads_delete_request; [|unfold int32; lia]. apply (wf_delete_request items offsets Hwf).
    intros t p o Ho. by apply (request_offsets cl offsets m Hroute node items) in Ho as [? _]. }
  exists new. split_and!; [by rewrite Hcs, Hc1| | | |].
  - replace (map call_node new) with (map fst l1).
    + pose proof (range_keys_nodup m) as Hnd. rewrite Hl, map_app in Hnd. by apply NoDup_app in Hnd as [? _].
    + clear -Hf. induction Hf as [|li c l new Hli _ IH]; [done|]. cbn [map]. rewrite IH. by destruct Hli as [-> _].
  - apply Forall_forall. intros c (li & Hli & Ha)%(elem_of_Forall2_r _ _ _ _ Hf).
    destruct (Hreads li c Hli Ha) as [_ ?]. destruct Ha as (_ & ? & ? & _). eauto.
  - intros node topic p off (c & topics & timeout & parts & (li & Hli & Ha)%(elem_of_Forall2_r _ _ _ _ Hf) & <- & Hr & Ht & Hp).
    destruct (Hreads li c Hli Ha) as [Hm Hr']. rewrite Hr' in Hr. injection Hr as <- _. destruct Ha as (-> & _).
    apply list_elem_of_fmap in Ht as ([t ps] & [= -> ->] & Hps%elem_of_range). apply elem_of_range in Hp.
    apply (request_offsets cl offsets m Hroute (fst li) (snd li) t p off Hm). unfold lookup2. by rewrite Hps.
  - intros out Hr. destruct (Hok out Hr) as (-> & answers & Ha & ->). split; [by exists answers|]. intros topic p off Ho.
    destruct (LeaderNodeID cl topic p) as [node|] eqn:Hlead; [|destruct (Hnone _ _ _ Ho Hlead) as (t & q & Hx); congruence].
    exists node. split; [done|]. assert (filed m node (topic, p, off)) as Hfile by by apply (filed_offsets cl offsets m Hroute).
    unfold filed in Hfile. destruct (m !! node) as [items|] eqn:Hm; [|by apply elem_of_nil in Hfile].
    assert ((node, items) ∈ l1) as Hin by (rewrite app_nil_r in Hl; rewrite <- Hl; by apply elem_of_range).
    destruct (elem_of_Forall2_l _ _ _ _ Hf Hin) as (c & Hcn & Hask). destruct (Hreads _ c Hin Hask) as [_ Hrd].
    assert (lookup2 (delete_request items) topic p = Some off) as Hq by by apply (request_offsets cl offsets m Hroute node items).
    apply bind_Some in Hq as (ps & Hps & Hq). exists c, (map said_topic (range (delete_request items))), 30000, (range ps).
    split_and!; [done|by destruct Hask as [-> _]|done| |by apply elem_of_range].
    apply list_elem_of_fmap. exists (topic, ps). split; [done|]. by apply elem_of_range.
Qed.
End deletes.

(** * Log directories *)

Section log_dirs.
Context {W : Type} `{ClusterEnv W} `{MapOrder}.

(** Every broker is asked, whatever the ones before it answered. *)
Fixpoint ask_dirs (ver : Z) (body : bytes) (targets : list Z) : M W (list (list LogDirResult + error)) :=
  match targets with
  | [] => mret []
  | node :: rest =>
      let! r := mtry (log_dirs_of ver body node) in
      let! more := ask_dirs ver body rest in
      mret (r :: more)
  end.

Definition dirs_of (node : Z) (r : list LogDirResult + error) : list LogDir :=
  match r with inl results => map (log_dir node) results | inr err => [failed_dir node err] end.

Definition failure (r : list LogDirResult + error) : option error := match r with inl _ => None | inr err => Some err end.
Definition answered (r : list LogDirResult + error) : bool := match r with inl _ => true | inr _ => false end.

Lemma log_dirs_loop_asks ver body targets : forall out lastErr succeeded w w' out' lastErr' succeeded',
  log_dirs_loop ver body targets out lastErr succeeded w = (w', Ok (out', lastErr', succeeded')) ->
  exists answers, ask_dirs ver body targets w = (w', Ok answers) /\ length answers = length targets /\
    out' = out ++ concat (zip_with dirs_of targets answers) /\
    succeeded' = succeeded + len (filter answered answers) /\
    lastErr' = fold_left (fun e r => match failure r with Some x => Some x | None => e end) answers lastErr.
Proof.
  induction targets as [|node rest IH]; cbn [log_dirs_loop ask_dirs]; intros out lastErr succeeded w w' out' lastErr' succeeded' Hl.
  - minv Hl. exists []. cbn. by rewrite app_nil_r, Z.add_0_r.
  - apply mthen_inv in Hl as (w1 & r & Hr & Hl).
    destruct r as [results|err]; apply IH in Hl as (answers & Ha & Hn & -> & -> & ->);
      [exists (inl results :: answers)|exists (inr err :: answers)];
      (split; [erewrite mthen_ok by exact Hr; by erewrite mthen_ok by exact Ha|]); cbn [length zip_with dirs_of concat fold_left failure];
      rewrite Hn, <- app_assoc; split_and!; try done.
    rewrite filter_cons_True by done. rewrite len_cons. lia.
Qed.

Lemma no_answer answers : len (filter answered answers) = 0 <-> Forall (fun r => answered r = false) answers.
Proof.
  induction answers as [|[] answers IH]; [done| |].
  - rewrite filter_cons_True by done. rewrite len_cons, Forall_cons. cbn [answered]. pose proof (len_nonneg (filter answered answers)).
    split; [lia|by intros []].
  - rewrite filter_cons_False by (by intros []). rewrite IH, Forall_cons. cbn [answered]. naive_solver.
Qed.

Lemma last_failure answers : forall e, Forall (fun r => answered r = false) answers ->
  fold_left (fun e r => match failure r with Some x => Some x | None => e end) answers e = None <-> answers = [] /\ e = None.
Proof.
  induction answers as [|[results|err] answers IH]; intros e Ha; cbn [fold_left failure]; [naive_solver|by apply Forall_cons in Ha as []|].
  apply Forall_cons in Ha as [_ Ha]. rewrite IH by done. split; by intros [].
Qed.

(** A broken broker does not hide the others.  [DescribeLogDirs] asks every
    broker in turn, lists what each one answered under its id, one entry with
    the error for a broker that failed, and returns an error exactly when there
    were brokers to ask and all of them failed. *)
Theorem describe_log_dirs_partial topics brokerIDs (w w' : W) out err :
  DescribeLogDirs topics brokerIDs w = (w', Ok (out, err)) ->
  exists ver body targets answers,
    targets = (if len brokerIDs =? 0 then map bm_NodeID (md_Brokers (cl_meta (env_cluster w))) else brokerIDs) /\
    ask_dirs ver body targets w = (w', Ok answers) /\ length answers = length targets /\
    out = concat (zip_with dirs_of targets answers) /\
    (err <> None <-> targets <> [] /\ Forall (fun r => answered r = false) answers).
Proof.
  unfold DescribeLogDirs. intros Hd. apply mthen_inv in Hd as (w1 & cw & [= <- <-] & Hd).
  apply mthen_inv in Hd as (w1 & v & [= <- <-] & Hd). apply mthen_inv in Hd as (w1 & body & Hb & Hd).
  unfold mlift in Hb. injection Hb as <- Hb. apply mthen_inv in Hd as (w1 & [[out1 last] succ] & Hloop & Hd). minv Hd.
  apply log_dirs_loop_asks in Hloop as (answers & Ha & Hlen & -> & -> & ->). do 4 eexists. split; [done|]. split; [exact Ha|].
  split; [done|]. split; [done|]. match goal with He : _ = err |- _ => rewrite <- He end. rewrite Z.add_0_l. destruct (Z.eqb_spec (len (filter answered answers)) 0) as [Hz|Hz].
  - apply no_answer in Hz. rewrite last_failure by done. split.
    + intros Hf. split; [|done]. intros Hn. rewrite Hn in Hlen. apply Hf. split; [|done]. by apply length_zero_iff_nil.
    + intros [Hn _] [-> _]. apply Hn. by apply length_zero_iff_nil.
  - split; [done|]. intros [_ Hall]. by apply no_answer in Hall.
Qed.
End log_dirs.

(** * Listing transactions *)

Section transactions.
Context {W : Type} `{ClusterEnv W} `{MapOrder}.

Definition listing_ids (ls : list TransactionListing) : list bytes := map tl_TransactionalID ls.

Lemma in_ids_nil id : id ∈ listing_ids [] <-> False.
Proof. apply elem_of_nil. Qed.
Lemma in_ids_cons id l ls : id ∈ listing_ids (l :: ls) <-> id = tl_TransactionalID l \/ id ∈ listing_ids ls.
Proof. apply elem_of_cons. Qed.
Lemma in_ids_app id ls ls' : id ∈ listing_ids (ls ++ ls') <-> id ∈ listing_ids ls \/ id ∈ listing_ids ls'.
Proof. unfold listing_ids. by rewrite map_app, elem_of_app. Qed.

Lemma add_listings_spec listings : forall seen out seen' out', add_listings listings seen out = (seen', out') ->
  NoDup (listing_ids out) -> (forall id, id ∈ seen <-> id ∈ listing_ids out) ->
  NoDup (listing_ids out') /\ (forall id, id ∈ seen' <-> id ∈ listing_ids out') /\
  (forall l, l ∈ out' -> l ∈ out \/ l ∈ listings) /\
  (forall id, id ∈ listing_ids out' <-> id ∈ listing_ids out \/ id ∈ listing_ids listings).
Proof.
  induction listings as [|l rest IH]; cbn [add_listings]; intros seen out seen' out' Ha Hnd Hseen.
  - injection Ha as <- <-. setoid_rewrite in_ids_nil. setoid_rewrite elem_of_nil. naive_solver.
  - case_bool_decide as Hin.
    + apply IH in Ha as (Hnd' & Hs & Hsub & Hids); [|done..]. split_and!; [done..| |].
      * intros x Hx. apply Hsub in Hx as [Hx|Hx]; [by left|right]. by right.
      * intros id. rewrite Hids, in_ids_cons. apply Hseen in Hin. naive_solver.
    + assert (Happ : forall x, x ∈ listing_ids (out ++ [l]) <-> x ∈ listing_ids out \/ x = tl_TransactionalID l).
      { intros x. rewrite in_ids_app, in_ids_cons, in_ids_nil. naive_solver. }
      apply IH in Ha as (Hnd' & Hs & Hsub & Hids).
      * split_and!; [done..| |].
        -- intros x Hx. apply Hsub in Hx as [Hx|Hx]; [|right; by right]. apply elem_of_app in Hx as [Hx|Hx]; [by left|].
           apply list_elem_of_singleton in Hx as ->. right. by left.
        -- intros id. rewrite Hids, Happ, in_ids_cons. naive_solver.
      * unfold listing_ids. rewrite map_app. apply NoDup_app. split_and!; [done| |apply NoDup_singleton].
        intros x Hx Hx'. cbn [map] in Hx'. apply list_elem_of_singleton in Hx' as ->. apply Hin, Hseen, Hx.
      * intros id. rewrite elem_of_union, elem_of_singleton, Happ, Hseen. naive_solver.
Qed.

Fixpoint ask_listings (ver : Z) (body : bytes) (targets : list Z) : M W (list (list TransactionListing)) :=
  match targets with
  | [] => mret []
  | node :: rest =>
      let! resp := env_Request node APIListTransactions ver body in
      let! r := mlift (DecodeListTransactionsResponse ver resp) in
      do! check_code (fst r) in
      let! more := ask_listings ver body rest in
      mret (snd r :: more)
  end.

Lemma list_transactions_asks ver body targets : forall seen out w w' out',
  list_transactions_loop ver body targets seen out w = (w', Ok out') ->
  NoDup (listing_ids out) -> (forall id, id ∈ seen <-> id ∈ listing_ids out) ->
  exists answers, ask_listings ver body targets w = (w', Ok answers) /\ NoDup (listing_ids out') /\
    (forall l, l ∈ out' -> l ∈ out \/ l ∈ concat answers) /\
    (forall id, id ∈ listing_ids out' <-> id ∈ listing_ids out \/ id ∈ listing_ids (concat answers)).
Proof.
  induction targets as [|node rest IH]; cbn [list_transactions_loop ask_listings]; intros seen out w w' out' Hl Hnd Hseen.
  - minv Hl. exists []. cbn [concat]. setoid_rewrite in_ids_nil. setoid_rewrite elem_of_nil. naive_solver.
  - apply mthen_inv in Hl as (w1 & resp & H1 & Hl). apply mthen_inv in Hl as (w2 & r & H2 & Hl).
    apply mthen_inv in Hl as (w3 & [] & H3 & Hl). destruct (add_listings (snd r) seen out) as [seen1 out1] eqn:Hadd.
    apply add_listings_spec in Hadd as (Hnd1 & Hs1 & Hsub1 & Hids1); [|done..].
    apply IH in Hl as (answers & Ha & Hnd2 & Hsub2 & Hids2); [|done..]. exists (snd r :: answers). split.
    { erewrite mthen_ok by exact H1. erewrite mthen_ok by exact H2. erewrite mthen_ok by exact H3. by erewrite mthen_ok by exact Ha. }
    split; [done|]. cbn [concat]. setoid_rewrite in_ids_app. setoid_rewrite elem_of_app. split; [|intros id; rewrite Hids2, Hids1; naive_solver].
    intros l Hl'. apply Hsub2 in Hl' as [Hl'|Hl']; [apply Hsub1 in Hl' as [Hl'|Hl']|]; auto.
Qed.

(** Transactions are listed once.  The result of [ListTransactions] has every
    transactional id that some broker of the cluster reports, each id once, and
    nothing else. *)
Theorem list_transactions_once stateFilters producerIDFilters (w w' : W) out :
  ListTransactions stateFilters producerIDFilters w = (w', Ok out) ->
  exists ver body answers,
    ask_listings ver body (map bm_NodeID (md_Brokers (cl_meta (env_cluster w)))) w = (w', Ok answers) /\
    NoDup (listing_ids out) /\ (forall l, l ∈ out -> l ∈ concat answers) /\
    (forall id, id ∈ listing_ids out <-> id ∈ listing_ids (concat answers)).
Proof.
  unfold ListTransactions. intros Hl. apply mthen_inv in Hl as (w1 & v & [= <- <-] & Hl).
  apply mthen_inv in Hl as (w1 & body & Hb & Hl). unfold mlift in Hb. injection Hb as <- Hb.
  apply mthen_inv in Hl as (w1 & cw & [= <- <-] & Hl). apply list_transactions_asks in Hl as (answers & Ha & Hnd & Hsub & Hids).
  - do 3 eexists. split; [exact Ha|]. split; [done|]. setoid_rewrite elem_of_nil in Hsub. setoid_rewrite in_ids_nil in Hids. naive_solver.
  - constructor.
  - intros id. cbn. set_solver.
Qed.
End transactions.

(** * Quotas *)

Lemma fold_insert_range `{MapOrder} {K V} `{Countable K} (m : gmap K V) (l : list (K * V)) :
  NoDup (map fst l) -> (forall k v, (k, v) ∈ l <-> m !! k = Some v) ->
  fold_left (fun (acc : gmap K V) kv => <[fst kv := snd kv]> acc) l ∅ = m.
Proof.
  revert m. induction l as [|[k v] l IH] using rev_ind; intros m Hnd Hm.
  - symmetry. apply map_empty. intros k. apply eq_None_not_Some. intros [v Hv]. by apply Hm, elem_of_nil in Hv.
  - rewrite fold_left_app. cbn [fold_left fst snd]. rewrite map_app in Hnd. apply NoDup_app in Hnd as (Hnd & Hk & _).
    assert (Hv : m !! k = Some v) by (apply Hm, elem_of_app; right; by apply list_elem_of_singleton).
    rewrite (IH (delete k m)); [by rewrite insert_delete_id|done|]. intros k' v'. rewrite lookup_delete_Some, <- Hm, elem_of_app, list_elem_of_singleton.
    split; [|naive_solver]. intros Hin. split; [|by left]. intros <-. apply (Hk k); [apply (list_elem_of_fmap_2 fst) in Hin; exact Hin|by left].
Qed.

(** The entity that a quota is set for is the one that describing it reports:
    an empty name stands for the default entity on both ways. *)
Theorem quota_entity_roundtrip `{MapOrder} (m : gmap bytes bytes) : entityToMap (mapToEntity m) = m.
Proof.
  unfold entityToMap, mapToEntity. rewrite <- (fold_insert_range m (range m)) at 2; [|apply range_keys_nodup|apply elem_of_range].
  generalize (∅ : gmap bytes bytes). induction (range m) as [|[t n] l IH]; intros acc; [done|]. cbn [map fold_left fst snd qe_Type qe_Name].
  rewrite IH. do 2 f_equal. unfold nonempty. by case_bool_decide.
Qed.

(** * Deleted access control lists *)

Lemma be_bytes_head_zero n : 0 <= n < 2 ^ 24 -> be_bytes 4 n = [x00] ++ be_bytes 3 n.
Proof.
  intros Hn. cbn [be_bytes app]. rewrite (Z.div_small (n / 256 / 256) 256); [done|].
  split; [repeat apply Z.div_pos; lia|]. rewrite Z.div_div by lia. apply Z.div_lt_upper_bound; lia.
Qed.

Lemma reads_zero_byte : reads ReadUvarint [x00] 0.
Proof. by apply (Reads_uvarint 0 ltac:(lia)). Qed.

(** The count of deleted bindings is wrong.  The client speaks version 1 of
    DeleteAcls at most, whose answer has the number of filters as an int32; the
    decoder reads it as the flexible version's, so for every answer with fewer
    than 2^24 filters [DeleteACLs] reports -1 deleted bindings and looks at no
    error code. *)
Theorem delete_acls_miscounts throttle n rest : 0 <= n < 2 ^ 24 ->
  DecodeDeleteACLsResponse (be_bytes 4 throttle ++ be_bytes 4 n ++ rest) = Ok (-1).
Proof.
  intros Hn. rewrite (be_bytes_head_zero n Hn), <- app_assoc. unfold DecodeDeleteACLsResponse, run, FromBytes.
  pose proof (rbind_reads ReadInt32 (fun _ => n <- ReadUvarint ;; ret (n - 1)) _ _ [] ([x00] ++ be_bytes 3 n ++ rest) (reads_be4_wrap throttle)) as E.
  cbn [app] in E. rewrite len_nil in E. cbn [app]. rewrite E.
  pose proof (rbind_reads ReadUvarint (fun n => ret (n - 1)) _ _ (be_bytes 4 throttle) (be_bytes 3 n ++ rest) reads_zero_byte) as E2.
  cbn [app] in E2. by rewrite E2.
Qed.

Lemma delete_acls_miscounts_witness : DecodeDeleteACLsResponse (be_bytes 4 0 ++ be_bytes 4 2 ++ []) = Ok (-1).
Proof. apply delete_acls_miscounts. lia. Defined.
