(* ===== verification/AdminScram.v ===== *)
(** From the administrator to the login: a SCRAM credential that
    [admin_scram_logdirs.go] stores at a broker lets the user in that
    [internal/auth] logs in.

    The derivation of the salted password on the one side and the exchange on
    the other are the same code; the hash functions of both environments are
    those of Go's library, which is the hypothesis [same_hmac]. *)

From Stdlib Require Import ZArith Lia.
From Stdlib Require Import Strings.Byte.
From stdpp Require Import base list gmap countable strings.
From S2P Require Import Prelude.
From S2P Require Import Wire.
From S2P Require Import Header.
From S2P Require Import Metadata.
From S2P Require Import Producer.
From S2P Require Import GoMonad.
From S2P Require Import AdminCodec.
From S2P Require Import AclCodec.
From S2P Require Import Admin.
From S2P Require Import AdminFacts.
From S2P Require Import AdminCluster.
From S2P Require Import Base64.
From S2P Require Import Auth.
From S2P Require Import AuthFacts.

Open Scope Z_scope.

(** * The broker's side *)

(** The request as a broker reads it. *)
Definition read_deletion : Rd ScramDeletion :=
  name <- ReadCompactString ;;
  mechanism <- ReadInt8 ;;
  SkipTagSection ;;;
  ret (mkScramDeletion name mechanism).

Definition read_upsertion : Rd ScramUpsertion :=
  name <- ReadCompactString ;;
  mechanism <- ReadInt8 ;;
  iterations <- ReadInt32 ;;
  salt <- ReadCompactBytes ;;
  salted <- ReadCompactBytes ;;
  SkipTagSection ;;;
  ret (mkScramUpsertion name mechanism iterations (default [] salt) (default [] salted)).

Definition read_alter_request : Rd (list ScramDeletion * list ScramUpsertion) :=
  nd <- ReadUvarint ;;
  deletions <- rd_list (nd - 1) read_deletion ;;
  nu <- ReadUvarint ;;
  upsertions <- rd_list (nu - 1) read_upsertion ;;
  SkipTagSection ;;;
  ret (deletions, upsertions).

Definition wf_deletion (d : ScramDeletion) : Prop := fits (sd_Name d) /\ int8 (sd_Mechanism d).
Definition wf_upsertion (u : ScramUpsertion) : Prop :=
  fits (su_Name u) /\ int8 (su_Mechanism u) /\ int32 (su_Iterations u) /\ fits (su_Salt u) /\ fits (su_SaltedPassword u).

Lemma Reads_deletion d : wf_deletion d -> Reads read_deletion (write_deletion d) d.
Proof. intros [? ?]. unfold read_deletion, write_deletion. fields. last_field. destruct d. apply Reads_ret. Qed.

Lemma Reads_upsertion u : wf_upsertion u -> Reads read_upsertion (write_upsertion u) u.
Proof.
  intros (? & ? & ? & ? & ?). unfold read_upsertion, write_upsertion. do 3 field.
  eapply Reads_bind; [by apply Reads_compact_bytes|]. eapply Reads_bind; [by apply Reads_compact_bytes|].
  last_field. destruct u. apply Reads_ret.
Qed.

(** A broker reads the deletions and the upsertions that were asked for. *)
Lemma alter_scram_roundtrip deletions upsertions body :
  fits deletions -> fits upsertions -> Forall wf_deletion deletions -> Forall wf_upsertion upsertions ->
  EncodeAlterUserScramCredentialsRequest deletions upsertions = Ok body ->
  run read_alter_request body = Ok (deletions, upsertions).
Proof.
  intros Hd Hu Hwd Hwu. apply Reads_run. unfold read_alter_request, EncodeAlterUserScramCredentialsRequest. unfold fits in Hd, Hu.
  pose proof (len_nonneg deletions). pose proof (len_nonneg upsertions).
  field. eapply Reads_bind; [eapply (Reads_list _ write_deletion wf_deletion); [lia|done|apply Reads_deletion]|].
  field. eapply Reads_bind; [eapply (Reads_list _ write_upsertion wf_upsertion); [lia|done|apply Reads_upsertion]|].
  last_field. apply Reads_ret.
Qed.

Definition mechanism_id (h : ScramHash) : Z := match h with SHA256 => ScramMechanismSHA256 | SHA512 => ScramMechanismSHA512 end.

Lemma mechanism_name h : saslName (mechanism_id h) = scram_name h.
Proof. by destruct h. Qed.

(** What a broker keeps of an upsertion: RFC 5802's stored and server keys. *)
Definition credential_of `{AuthEnv Server} (h : ScramHash) (u : ScramUpsertion) : credential :=
  mkCredential (su_Salt u) (Sprintf_d (su_Iterations u))
    (hash_sum h (hmac_sum h (su_SaltedPassword u) (str "Client Key"))) (hmac_sum h (su_SaltedPassword u) (str "Server Key")).

(** * Iteration counts *)

Lemma take_digits_all s : Forall (fun b => Admin.is_digit b = true) s -> take_digits s = s.
Proof. induction 1 as [|b s Hb _ IH]; cbn [take_digits]; [done|]. change (is_digit b) with (Admin.is_digit b). by rewrite Hb, IH. Qed.

Lemma digit_byte b : Admin.is_digit b = true -> b <> z2b 44 /\ b <> z2b 45 /\ b <> z2b 43 /\ b2z b ∉ [32; 9; 11; 12; 13].
Proof.
  unfold Admin.is_digit. intros Hb. rewrite !elem_of_cons, elem_of_nil.
  split_and!; try (intros ->; vm_compute in Hb; discriminate). zbool. lia.
Qed.

(** The iteration count that a broker announces is the one that was stored. *)
Lemma iterations_roundtrip n : 1 <= n < 2 ^ 31 -> scan_int (Sprintf_d n) = Some n /\ Forall (fun c => c <> z2b 44) (Sprintf_d n).
Proof.
  intros Hn. unfold Sprintf_d. destruct (Z.ltb_spec n 0); [lia|].
  destruct (dec_digits_spec 10 n [] ltac:(lia) ltac:(lia) ltac:(constructor)) as (Hv & Hd & Hne).
  split; [|eapply Forall_impl; [exact Hd|]; intros b Hb; by apply digit_byte].
  unfold scan_int. destruct (dec_digits 10 n []) as [|d ds] eqn:E; [done|]. pose proof Hd as Hd'. apply Forall_cons in Hd as [Hd0 _].
  destruct (digit_byte d Hd0) as (_ & H45 & H43 & Hsp). cbn [skip_space]. rewrite bool_decide_false by done.
  rewrite !bool_decide_false by done. rewrite take_digits_all by done. rewrite bool_decide_false by done.
  change (digits_value (d :: ds)) with (dec_value (d :: ds)). rewrite Hv, len_nil. change (dec_value []) with 0.
  rewrite Z.pow_0_r, Z.mul_1_r, Z.add_0_r. by rewrite (proj2 (Z.leb_le _ _)), (proj2 (Z.ltb_lt _ _)) by lia.
Qed.

Lemma sprintf_length n : 1 <= n < 2 ^ 31 -> len (Sprintf_d n) <= 10.
Proof.
  intros Hn. unfold Sprintf_d. destruct (Z.ltb_spec n 0); [lia|].
  assert (Hl : forall f m acc, len (dec_digits f m acc) <= Z.of_nat f + len acc).
  { induction f as [|f IH]; intros m acc; cbn [dec_digits]; [lia|]. case_match; [|etransitivity; [apply IH|]]; rewrite len_cons; lia. }
  etransitivity; [apply Hl|]. rewrite len_nil. lia.
Qed.

(** * From the upsertion to the login *)

(** The rest of a login: the user and password, a server that knows the
    user, and sizes. *)
Record login (h : ScramHash) `{AuthEnv Server} (user password : bytes) (sec : Config Server) (sv : Server) (cr : credential) : Prop := {
  lg_sec : sl_Mechanism (sec_SASL sec) = scram_name h /\ sl_Username (sec_SASL sec) = user /\ sl_Password (sec_SASL sec) = password;
  lg_server : sv_hash sv = h /\ sv_stage sv = Start /\ sv_users sv !! user = Some cr;
  lg_nonce : Forall (fun c => c <> z2b 44) (sv_nonce sv) /\ len (sv_nonce sv) <= 1000;
  lg_sizes : 0 <= sv_lifetime sv < 2 ^ 32 /\ (forall k m k' m', length (hmac_sum h k m) = length (hmac_sum h k' m')) /\
    (forall k m, len (hmac_sum h k m) <= 64);
  lg_random : forall s, fst (rand_fill 18 s) = s /\ len (snd (rand_fill 18 s)) = 18 }.

Section upsert.
Context {W : Type} `{ClusterEnv W} `{MapOrder} `{AuthEnv W} `{RandomEnv W} `{AuthEnv Server}.
Hypothesis same_hmac : forall h k m, hmac_sum (E := W) h k m = hmac_sum (E := Server) h k m.

Lemma pbkdf2_same h password salt n : pbkdf2 (E := W) h password salt n = Hi (E := Server) h password salt n.
Proof using same_hmac.
  rewrite <- pbkdf2_Hi. unfold pbkdf2. rewrite same_hmac. generalize (hmac_sum (E := Server) h password (salt ++ [x00; x00; x00; x01])) at 1 3 as u.
  generalize (hmac_sum (E := Server) h password (salt ++ [x00; x00; x00; x01])) as out.
  induction (Z.to_nat (n - 1)) as [|k IH]; intros out u; [done|]. cbn [pbkdf2_loop]. rewrite same_hmac. apply IH.
Qed.

(** The number of iterations that an argument stands for. *)
Definition effective (iterations : Z) : Z := if iterations <=? 0 then 4096 else iterations.

Lemma mechanism_password h user password n salt (w w1 : W) : 1 <= n < 2 ^ 31 -> rand_Read 16 w = (w1, Ok salt) ->
  forall iterations, effective iterations = n ->
  UpsertUserScramCredential user (mechanism_id h) password iterations w =
    alterUserScram [] [mkScramUpsertion user (mechanism_id h) n salt (Hi (E := Server) h password salt n)] w1.
Proof using same_hmac.
  intros Hn Hrand iterations He. unfold UpsertUserScramCredential. fold (effective iterations). rewrite He.
  erewrite mthen_ok by exact Hrand. rewrite mechanism_name. unfold SaltedPassword. rewrite s32_id by (unfold int32; lia).
  destruct h; cbn [scram_name]; rewrite ?(bool_decide_false (SASLSCRAM512 = SASLSCRAM256)), bool_decide_true by done;
    by rewrite pbkdf2_same.
Qed.

(** ** Sending it *)

Context `{!TracedEnv W}.

Definition refused_call (c : call) : Prop := exists e, call_reply c = Err e.

(** The brokers are asked one after the other until one answers, the seeds
    last; each is sent the same bytes. *)
Lemma request_brokers_run api ver body brokers : forall e (w w' : W) r, request_brokers brokers api ver body e w = (w', r) ->
  exists sent, env_calls w' = env_calls w ++ sent /\ Forall (fun c => call_api c = api /\ call_body c = body) sent /\
    forall rb, r = Ok rb -> exists failed c, sent = failed ++ [c] /\ Forall refused_call failed /\ call_reply c = Ok rb.
Proof.
  induction brokers as [|b rest IH]; intros e w w' r; cbn [request_brokers]; unfold mthen, mtry.
  - pose proof (calls_RequestViaSeed api ver body w) as Hc. destruct (env_RequestViaSeed api ver body w) as [w1 a]. cbn [fst snd] in Hc.
    set (c := mkCall _ _ _ _ _) in Hc.
    destruct a as [rb|e1|]; intros [= <- <-]; exists [c]; (split; [done|]); (split; [by repeat constructor|]); [|done..].
    intros rb' [= ->]. exists [], c. by split_and!.
  - pose proof (calls_Request (bm_NodeID b) api ver body w) as Hc. destruct (env_Request _ api ver body w) as [w1 a]. cbn [fst snd] in Hc.
    set (c := mkCall _ _ _ _ _) in Hc. destruct a as [rb|e1|].
    + intros [= <- <-]. exists [c]. split_and!; [done|by repeat constructor|]. intros rb' [= ->]. exists [], c. by split_and!.
    + intros (sent & Hs & Hall & Hok)%IH. exists (c :: sent). split_and!; [by rewrite Hs, Hc, <- app_assoc|by constructor|].
      intros rb Hrb. destruct (Hok rb Hrb) as (failed & c' & -> & Hf & Hr). exists (c :: failed), c'.
      split_and!; [done|constructor; [by exists e1|done]|done].
    + intros [= <- <-]. exists [c]. split_and!; [done|by repeat constructor|done].
Qed.

Lemma requestAny_run api ver body (w w' : W) r : requestAny api ver body w = (w', r) ->
  exists sent, env_calls w' = env_calls w ++ sent /\ Forall (fun c => call_api c = api /\ body = Ok (call_body c)) sent /\
    forall rb, r = Ok rb -> exists failed c, sent = failed ++ [c] /\ Forall refused_call failed /\ call_reply c = Ok rb.
Proof.
  unfold requestAny. assert (forall o, (w, o) = (w', r) -> (forall rb, o <> Ok rb) ->
    exists sent, env_calls w' = env_calls w ++ sent /\ Forall (fun c => call_api c = api /\ body = Ok (call_body c)) sent /\
      forall rb, r = Ok rb -> exists failed c, sent = failed ++ [c] /\ Forall refused_call failed /\ call_reply c = Ok rb) as Hnone.
  { intros o [= <- <-] Hne. exists []. rewrite app_nil_r. split_and!; [done|constructor|]. by intros rb ?%Hne. }
  unfold mthen at 1, mlift. destruct body as [b|e|]; [|by intros ?%Hnone..].
  unfold mthen at 1, adm_open, mthen at 1, mget. destruct (env_open w); [|by intros ?%Hnone].
  unfold mret, mthen, mget. destruct (negb _); [by intros ?%Hnone|].
  unfold RequestAny, mthen, mget. intros (sent & Hs & Hall & Hok)%request_brokers_run. exists sent. split_and!; [done| |done].
  eapply Forall_impl; [exact Hall|]. by intros c [? <-].
Qed.

(** C11: From the stored credential to the login.  The credential of a user is
    the user, the mechanism, the effective iteration count, the random salt and
    the salted password of RFC 5802.  Every request [UpsertUserScramCredential]
    makes is an AlterUserScramCredentials from whose bytes a broker reads exactly
    this one upsertion; brokers are asked in turn until one answers, and when the
    call succeeds the one that answered gave code 0 for every user.  The user then
    logs in with that password at every broker that keeps the keys of that
    upsertion, whatever the salt is, as long as the iteration count is within the
    limit of the client. *)
Theorem upserted_user_authenticates h user password iterations (w w1 : W) salt :
  rand_Read 16 w = (w1, Ok salt) -> fits user -> len salt <= 1000 -> effective iterations < 2 ^ 31 ->
  fits (Hi (E := Server) h password salt (effective iterations)) ->
  let u := mkScramUpsertion user (mechanism_id h) (effective iterations) salt
             (Hi (E := Server) h password salt (effective iterations)) in
  (forall w' r, UpsertUserScramCredential user (mechanism_id h) password iterations w = (w', r) ->
     exists sent, env_calls w' = env_calls w1 ++ sent /\
       Forall (fun c => call_api c = APIAlterUserScramCreds /\ run read_alter_request (call_body c) = Ok ([], [u])) sent /\
       (r = Ok tt -> exists failed c rb results, sent = failed ++ [c] /\ Forall refused_call failed /\
          call_reply c = Ok rb /\ DecodeAlterUserScramCredentialsResponse rb = Ok results /\
          Forall (fun x => sr_ErrorCode x = 0) results)) /\
  (effective iterations <= MaxSCRAMIterations -> forall sec sv, login h user password sec sv (credential_of h u) ->
     exists sv', Handshake sec sv = (sv', Ok tt) /\ sv_stage sv' = Authenticated user).
Proof using same_hmac.
  intros Hrand Hfu Hsalt Hi32 Hfs u. set (n := effective iterations) in *.
  assert (Hn : 1 <= n < 2 ^ 31) by (unfold n, effective in *; destruct (Z.leb_spec iterations 0); lia). split.
  - intros w' r. rewrite (mechanism_password h user password n salt w w1 Hn Hrand) by done. fold u. unfold alterUserScram.
    unfold mthen at 1. destruct (requestAny _ _ _ w1) as [w2 a] eqn:Er. apply requestAny_run in Er as (sent & Hs & Hall & Hok). intros Hr.
    assert (env_calls w' = env_calls w2 /\ (r = Ok tt -> exists rb results, a = Ok rb /\
      DecodeAlterUserScramCredentialsResponse rb = Ok results /\ Forall (fun x => sr_ErrorCode x = 0) results)) as [Hc Hok2].
    { destruct a as [rb|e|]; [|by injection Hr as <- <-..]. unfold mthen, mlift in Hr.
      destruct (DecodeAlterUserScramCredentialsResponse rb) as [results|e|] eqn:Ed; [|by injection Hr as <- <-..].
      enough (env_calls w' = env_calls w2 /\ (r = Ok tt -> Forall (fun x => sr_ErrorCode x = 0) results)) as [? Hf]
        by (split; [done|]; intros ?; exists rb, results; auto).
      clear -Hr. revert Hr. induction results as [|x results IH]; cbn [mfor]; [by intros [= <- <-]|].
      unfold mthen, check_code. destruct (Z.eqb_spec (sr_ErrorCode x) 0) as [Hz|]; cbn [negb]; [|by intros [= <- <-]].
      unfold mret. intros [? Hf]%IH. split; [done|]. intros ?. constructor; auto. }
    exists sent. split_and!; [by rewrite Hc| |].
    + eapply Forall_impl; [exact Hall|]. intros c [Ha Hb]. split; [done|]. apply (alter_scram_roundtrip [] [u]); [done|done|constructor| |done].
      apply Forall_singleton. unfold u, wf_upsertion, fits, int8, int32 in *.
      cbn [su_Name su_Mechanism su_Iterations su_Salt su_SaltedPassword].
      split_and!; [done|..]; try lia; unfold mechanism_id, ScramMechanismSHA256, ScramMechanismSHA512; destruct h; lia.
    + intros Hr0. destruct (Hok2 Hr0) as (rb & results & -> & Hd & Hz). destruct (Hok rb eq_refl) as (failed & c & ? & ? & ?).
      by exists failed, c, rb, results.
  - intros Hmax sec sv [(Hm & <- & <-) (Hh & Hst & Hu) (Hcn & Hln) Hsizes Hr]. destruct (iterations_roundtrip n Hn) as [Hscan Hcomma].
    apply (scram_login h sec sv (credential_of h u) n); [done|]. split; try done.
    + split; [done|]. lia.
    + intros nonce Hnl. rewrite len_server_first, len_app, Hnl. cbn [cr_salt cr_iterations credential_of u su_Salt su_Iterations].
      rewrite base64_length. pose proof (sprintf_length n Hn). pose proof (Z.mul_div_le (len salt + 2) 3 ltac:(lia)). lia.
Qed.
End upsert.
