(* ===== verification/AdminDemo.v ===== *)
(** The administrative client in concrete environments: groups and lag with one
    broker; access control and the cluster with two brokers that lead a partition
    of the same topic each. *)

From Stdlib Require Import ZArith Lia.
From Stdlib Require Import Strings.Byte.
From stdpp Require Import base list gmap countable strings.
From S2P Require Import Prelude.
From S2P Require Import Wire.
From S2P Require Import Header.
From S2P Require Import Kfake.
From S2P Require Import EndToEnd.
From S2P Require Import Metadata.
From S2P Require Import Retry.
From S2P Require Import Producer.
From S2P Require Import ProducerDemo.
From S2P Require Import OffsetCodec.
From S2P Require Import GroupCodec.
From S2P Require Import GoMonad.
From S2P Require Import AclCodec.
From S2P Require Import ClusterCodec.
From S2P Require Import Admin.
From S2P Require Import AdminFacts.
From S2P Require Import ShareConsumer.
From S2P Require Import ShareDemo.
From S2P Require Import Auth.
From S2P Require Import AuthFacts.
From S2P Require Import AdminCluster.
From S2P Require Import AdminClusterFacts.
From S2P Require Import AdminScram.

Open Scope Z_scope.

(** * Groups and lag *)

(** * Replies *)

Definition coordinator_reply : bytes :=
  bytes_of (WriteInt32 0 +++ WriteInt16 0 +++ WriteCompactNullableString None +++ WriteInt32 1 +++
    WriteCompactString (str "localhost") +++ WriteInt32 9092 +++ WriteEmptyTagSection).

(** Group g has committed [off] in partition 0 of t; the group's error code. *)
Definition committed_reply (off code : Z) : bytes :=
  bytes_of (WriteInt32 0 +++ WriteCompactArrayLen 1 +++ WriteCompactString (str "g") +++
    WriteCompactArrayLen 1 +++ WriteCompactString (str "t") +++ WriteCompactArrayLen 1 +++
    WriteInt32 0 +++ WriteInt64 off +++ WriteInt32 (-1) +++ WriteCompactNullableString None +++ WriteInt16 0 +++
    WriteEmptyTagSection +++ WriteEmptyTagSection +++ WriteInt16 code +++ WriteEmptyTagSection +++ WriteEmptyTagSection).

Definition ends_reply (off : Z) : bytes :=
  bytes_of (WriteInt32 0 +++ WriteInt32 1 +++ WriteString (str "t") +++ WriteInt32 1 +++
    WriteInt32 0 +++ WriteInt16 0 +++ WriteInt64 (-1) +++ WriteInt64 off).

Definition lag_reply (committed off : Z) (api : Z) : bytes :=
  if api =? APIFindCoordinator then coordinator_reply
  else if api =? APIOffsetFetch then committed_reply committed 0
  else ends_reply off.

Definition offset_versions : gmap Z Z := {[ APIOffsetFetch := 9 ]}.

Section lag.
#[local] Instance lag_env : ClusterEnv nat := share_env offset_versions (one_partition 1) (lag_reply 40 42).

Lemma consumer_group_lag_exact_witness :
  exists w', ConsumerGroupLag (mkRetryConfig 5 0 0) (str "g") 0%nat = (w', Ok [mkPartitionLag (str "t") 0 40 42 2]) /\
    Forall exact_lag [mkPartitionLag (str "t") 0 40 42 2].
Proof.
  eexists. split; [vm_compute; reflexivity|].
  edestruct (consumer_group_lag_exact (mkRetryConfig 5 0 0) (str "g") 0%nat) as (w1 & byGroup & _ & _ & Hall);
    [vm_compute; reflexivity|exact Hall].
Defined.
End lag.

Section group_error.
(** The coordinator answers that it is not the group's coordinator (code 16). *)
Definition refused_reply : bytes :=
  bytes_of (WriteInt32 0 +++ WriteCompactArrayLen 1 +++ WriteCompactString (str "g") +++ WriteCompactArrayLen 0 +++
    WriteInt16 16 +++ WriteEmptyTagSection +++ WriteEmptyTagSection).

#[local] Instance refused_env : ClusterEnv nat :=
  share_env offset_versions (one_partition 1) (fun api => if api =? APIFindCoordinator then coordinator_reply else refused_reply).

(** The error code of a group is read and dropped: a refused lag query reports
    that the group has no committed offsets. *)
Lemma group_error_dropped : snd (ConsumerGroupLag (mkRetryConfig 5 0 0) (str "g") 0%nat) = Ok [].
Proof. vm_compute. reflexivity. Qed.
End group_error.

Section no_leader.
#[local] Instance no_leader_env : ClusterEnv nat := share_env offset_versions (mkMetadata [] 1 [] []) (lag_reply 40 42).

Lemma missing_leader_not_refreshed_witness :
  (forall ends, snd (listLatestOffsets (mkRetryConfig 5 0 0) [mkCommittedOffset (str "t") 0 40 [] 0] 0%nat) <> Ok ends) /\
  fst (listLatestOffsets (mkRetryConfig 5 0 0) [mkCommittedOffset (str "t") 0 40 [] 0] 0%nat) = 0%nat.
Proof.
  split; [|vm_compute; reflexivity].
  apply (missing_leader_not_refreshed (mkRetryConfig 5 0 0) [mkCommittedOffset (str "t") 0 40 [] 0]
    (mkCommittedOffset (str "t") 0 40 [] 0) 0%nat (fst (listLatestOffsets (mkRetryConfig 5 0 0) [mkCommittedOffset (str "t") 0 40 [] 0] 0%nat))).
  - reflexivity.
  - by left.
  - reflexivity.
  - apply surjective_pairing.
Defined.
End no_leader.

(** * Access control and the cluster *)

(** Broker 1 leads partition 0 of t, broker 2 partition 1; partition 2 has no
    leader that is known. *)
Definition two_leaders : MetadataResponse :=
  mkMetadata [mkBrokerMeta 1 (str "localhost") 9092 []; mkBrokerMeta 2 (str "localhost") 9093 []] 1 (str "c")
    [mkTopicMeta (str "t") (topic_uuid 1)
       [mkPartitionMeta (str "t") 0 1 0 [1] [1] [] 0; mkPartitionMeta (str "t") 1 2 0 [2] [2] [] 0] 0].

(** The world counts the requests; [reply node api] answers them. *)
Definition node_env (versions : gmap Z Z) (reply : Z -> Z -> res bytes) : ClusterEnv nat := {|
  env_open _ := true;
  env_cluster _ := store_metadata two_leaders;
  env_versions _ := Some versions;
  env_RefreshIfStale _ w := (w, Ok tt);
  env_Refresh _ w := (w, Ok tt);
  env_Request node api _ _ w := (S w, reply node api);
  env_RequestViaSeed api _ _ w := (S w, reply 0 api);
  env_TransactionCoordinator _ w := (w, Ok 1);
  env_Invalidate _ w := w;
  env_ctx _ := None;
  env_sleep _ w := (w, None);
  env_now _ _ := 1700000000000;
  env_clock _ _ _ _ := 1700000000000 |}.

(** * Deleting records *)

Definition deleted_reply (part low : Z) : bytes :=
  bytes_of (WriteInt32 0 +++ WriteCompactArrayLen 1 +++ WriteCompactString (str "t") +++ WriteCompactArrayLen 1 +++
    WriteInt32 part +++ WriteInt64 low +++ WriteInt16 0 +++ WriteEmptyTagSection +++ WriteEmptyTagSection +++ WriteEmptyTagSection).

Section delete.
#[local] Instance delete_env : ClusterEnv nat :=
  node_env {[APIDeleteRecords := 2]} (fun node _ => Ok (if node =? 1 then deleted_reply 0 5 else deleted_reply 1 7)).

Definition wanted : gmap bytes (gmap Z Z) := {[str "t" := {[0 := 5; 1 := 7]}]}.
Definition leaderless : gmap bytes (gmap Z Z) := {[str "t" := {[0 := 5; 2 := 7]}]}.

Definition traced_delete_env : ClusterEnv (nat * list call) := recorded.

Lemma wf_wanted : wf_deletes wanted /\ wf_deletes leaderless.
Proof.
  assert (forall a b (m : gmap Z Z), int64 a -> int64 b -> m = {[0 := a; 1 := b]} \/ m = {[0 := a; 2 := b]} -> wf_delete_parts m) as Hp.
  { intros a b m Ha Hb Hm. unfold wf_delete_parts, fits, len. rewrite length_range. split.
    - by destruct Hm as [-> | ->].
    - intros p off Hl. unfold int32. destruct Hm as [-> | ->];
        (apply lookup_insert_Some in Hl as [[<- <-]|[_ [<- <-]%lookup_singleton_Some]]; (split; [lia|done])). }
  unfold wanted, leaderless. split; (split; [reflexivity|]); intros topic parts [<- <-]%lookup_singleton_Some; (split; [reflexivity|]);
    (apply (Hp 5 7); [unfold int64; lia..|auto]).
Qed.

Lemma delete_records_exact_witness :
  (exists w' out new, DeleteRecords (H := traced_delete_env) wanted (0%nat, []) = (w', Ok out) /\ snd w' = new /\
     map de_LowWatermark out = [7; 5] /\ told 2 new 1 (str "t") 0 5 /\ told 2 new 2 (str "t") 1 7 /\ ~ told 2 new 1 (str "t") 1 7) /\
  exists t q, DeleteRecords (H := traced_delete_env) leaderless (0%nat, []) = ((0%nat, []), Err (KafkaError 6 t q)).
Proof.
  destruct wf_wanted as [Hw Hl]. split.
  - assert (res_map (map de_LowWatermark) (snd (DeleteRecords (H := traced_delete_env) wanted (0%nat, []))) = Ok [7; 5]) as Hout
      by (vm_compute; reflexivity).
    destruct (DeleteRecords (H := traced_delete_env) wanted (0%nat, [])) as [w' [out| |]] eqn:E; [|discriminate Hout..].
    destruct (delete_records_exact (TracedEnv0 := recorded_traced) wanted (0%nat, []) (0%nat, []) ltac:(done) Hw eq_refl) as [Hok _].
    destruct (Hok _ _ E) as (new & Hc & _ & _ & Hsound & Hcomplete). destruct (Hcomplete out eq_refl) as [_ Hall].
    cbn [env_calls recorded_traced snd] in Hc. rewrite app_nil_l in Hc. exists w', out, new.
    split_and!; [done|done|by injection Hout| | |].
    + destruct (Hall (str "t") 0 5 ltac:(vm_compute; reflexivity)) as (node & Hn & Ht). vm_compute in Hn. injection Hn as <-. exact Ht.
    + destruct (Hall (str "t") 1 7 ltac:(vm_compute; reflexivity)) as (node & Hn & Ht). vm_compute in Hn. injection Hn as <-. exact Ht.
    + intros [_ Hn]%Hsound. vm_compute in Hn. discriminate Hn.
  - destruct (delete_records_exact (TracedEnv0 := recorded_traced) leaderless (0%nat, []) (0%nat, []) ltac:(done) Hl eq_refl) as [_ Herr].
    destruct (Herr (str "t") 2 7 ltac:(vm_compute; reflexivity) ltac:(vm_compute; reflexivity)) as (t & q & He & _). by exists t, q.
Defined.
End delete.

(** * Log directories *)

Definition dirs_reply : bytes :=
  bytes_of (WriteInt32 0 +++ WriteInt16 0 +++ WriteCompactArrayLen 1 +++ WriteInt16 0 +++ WriteCompactString (str "/data") +++
    WriteCompactArrayLen 0 +++ WriteInt64 100 +++ WriteInt64 40 +++ WriteBool false +++ WriteEmptyTagSection +++ WriteEmptyTagSection).

Section dirs.
#[local] Instance dirs_env : ClusterEnv nat :=
  node_env {[APIDescribeLogDirs := 5]} (fun node _ => if node =? 1 then Err NetError else Ok dirs_reply).

(** Broker 1 is down: its entry has the error, broker 2's is there. *)
Lemma describe_log_dirs_partial_witness : exists answers : list (list LogDirResult + error),
  concat (zip_with dirs_of [1; 2] answers) = [failed_dir 1 NetError; mkLogDir 2 (str "/data") 100 40 None []] /\
  ~ Forall (fun r => answered r = false) answers.
Proof.
  edestruct (describe_log_dirs_partial None [] 0%nat) as (ver & body & targets & answers & -> & _ & _ & Hout & Herr);
    [vm_compute; reflexivity|]. exists answers. split; [symmetry; exact Hout|].
  intros Hall. apply (proj2 Herr); [|done]. by split.
Defined.
End dirs.

(** * Listing transactions *)

Definition listings_reply (ids : list bytes) : bytes :=
  bytes_of (WriteInt32 0 +++ WriteInt16 0 +++ WriteCompactArrayLen 0 +++ WriteCompactArrayLen (len ids) +++
    enc_list (fun id => WriteCompactString id +++ WriteInt64 9 +++ WriteCompactString (str "Ongoing") +++ WriteEmptyTagSection) ids +++
    WriteEmptyTagSection).

Section listings.
#[local] Instance listings_env : ClusterEnv nat :=
  node_env {[APIListTransactions := 2]} (fun node _ => Ok (listings_reply (if node =? 1 then [str "a"; str "b"] else [str "b"; str "c"]))).

Lemma list_transactions_once_witness : NoDup [str "a"; str "b"; str "c"].
Proof.
  edestruct (list_transactions_once [] [] 0%nat) as (ver & body & answers & _ & Hnd & _); [vm_compute; reflexivity|]. exact Hnd.
Defined.
End listings.

(** * Credentials *)

Section scram.
#[local] Existing Instance toy_env.
#[local] Instance fixed_random : RandomEnv nat := fun n w => (w, Ok (replicate (Z.to_nat n) x02)).
#[local] Instance scram_env : ClusterEnv nat := node_env ∅ (fun _ _ => Err NetError).

Definition stored_upsertion : ScramUpsertion :=
  mkScramUpsertion (str "a=b,c") ScramMechanismSHA256 4 (replicate 16 x02) (Hi (E := Server) SHA256 (str "pencil") (replicate 16 x02) 4).

Definition upserted_server : Server :=
  mkServer SHA256 {[str "a=b,c" := credential_of SHA256 stored_upsertion]} (str "xyz") 3600000 Start.

Lemma same_toy h k m : hmac_sum (E := nat) h k m = hmac_sum (E := Server) h k m.
Proof. reflexivity. Qed.

(** The second broker accepts the credential; the first one does not answer. *)
Definition altered_reply : bytes :=
  bytes_of (WriteInt32 0 +++ WriteCompactArrayLen 1 +++ WriteCompactString (str "a=b,c") +++ WriteInt16 0 +++
    WriteCompactNullableString None +++ WriteEmptyTagSection +++ WriteEmptyTagSection).
Definition second_env : ClusterEnv nat :=
  node_env {[APIAlterUserScramCreds := 0]} (fun node _ => if node =? 2 then Ok altered_reply else Err NetError).
Definition traced_scram_env : ClusterEnv (nat * list call) := @recorded nat second_env.
Definition traced_random : RandomEnv (nat * list call) := fun n w => (w, Ok (replicate (Z.to_nat n) x02)).

Lemma same_toy_traced h k m : hmac_sum (E := nat * list call) h k m = hmac_sum (E := Server) h k m.
Proof. reflexivity. Qed.

Lemma upserted_user_authenticates_witness :
  exists w' failed c, UpsertUserScramCredential (H := traced_scram_env) (H2 := traced_random)
      (str "a=b,c") 1 (str "pencil") 4 (0%nat, []) = (w', Ok tt) /\
    snd w' = failed ++ [c] /\ length failed = 1%nat /\ run read_alter_request (call_body c) = Ok ([], [stored_upsertion]) /\
    (forall sec sv, login SHA256 (str "a=b,c") (str "pencil") sec sv (credential_of SHA256 stored_upsertion) ->
       exists sv', Handshake sec sv = (sv', Ok tt) /\ sv_stage sv' = Authenticated (str "a=b,c")).
Proof.
  destruct (upserted_user_authenticates (H := traced_scram_env) (H2 := traced_random) (TracedEnv0 := @recorded_traced nat second_env)
    same_toy_traced SHA256 (str "a=b,c") (str "pencil") 4 (0%nat, []) (0%nat, []) (replicate 16 x02))
    as [Hsend Hlogin]; [reflexivity|by vm_compute|by vm_compute|by vm_compute|by vm_compute|].
  assert (snd (UpsertUserScramCredential (H := traced_scram_env) (H2 := traced_random)
      (str "a=b,c") 1 (str "pencil") 4 (0%nat, [])) = Ok tt /\
    length (snd (fst (UpsertUserScramCredential (H := traced_scram_env) (H2 := traced_random)
      (str "a=b,c") 1 (str "pencil") 4 (0%nat, [])))) = 2%nat) as [Hok Hlen] by (vm_compute; done).
  destruct (UpsertUserScramCredential _ _ _ _ _) as [w' r] eqn:E. cbn [fst snd] in Hok, Hlen. subst r.
  destruct (Hsend _ _ eq_refl) as (sent & Hc & Hall & Hacc). destruct (Hacc eq_refl) as (failed & c & rb & results & Hs & _).
  cbn [env_calls recorded_traced snd] in Hc. rewrite app_nil_l in Hc. exists w', failed, c. rewrite Hc, Hs in *. split_and!; [done|done| | |].
  - rewrite length_app in Hlen. cbn in Hlen. lia.
  - apply Forall_app in Hall as [_ Hall]. apply Forall_cons in Hall as [[_ Hr] _]. exact Hr.
  - apply Hlogin. by vm_compute.
Defined.

(** The hypotheses of a login hold. *)
Example upserted_login : login SHA256 (str "a=b,c") (str "pencil") (demo_login SASLSCRAM256) upserted_server (credential_of SHA256 stored_upsertion).
Proof.
  split.
  - by split_and!.
  - by split_and!.
  - split; [by repeat constructor|by vm_compute].
  - split_and!; [cbn; lia|cbn; lia|done|]. intros k m. unfold hmac_sum, toy_env. rewrite len_be_bytes. lia.
  - intros s. split; reflexivity.
Qed.

Example upserted_run : snd (Handshake (demo_login SASLSCRAM256) upserted_server) = Ok tt.
Proof. vm_compute. reflexivity. Qed.
End scram.
