(* ===== verification/ClientConfig.v ===== *)
(** The configuration of a client: [config.go], [options.go] and
    [connection.go], and the record headers of [record_headers.go].

    A duration is int64 nanoseconds.  The metrics and logging settings have no
    effect on results and are left out.  A custom partitioner is a value of the
    type [U].  [NumCPU] is the number that [runtime.NumCPU] returns. *)

From Stdlib Require Import ZArith Lia.
From Stdlib Require Import Strings.Byte.
From stdpp Require Import base list gmap countable strings.
From S2P Require Import Prelude.
From S2P Require Import Compress.
From S2P Require Import Retry.
From S2P Require Import Assign.
From S2P Require Import Producer.
From S2P Require Import Consumer.
From S2P Require Import ShareConsumer.
From S2P Require Import Transaction.
From S2P Require Import Auth.
From S2P Require Import ApiVersions.
From S2P Require Import ClusterPool.

Open Scope Z_scope.

Definition ErrNoBrokers : error := FmtError "gokafka: at least one broker is required" 0.
Definition ErrInvalidProducerConfig : error := FmtError "gokafka: idempotent producer requires acks=all" 0.

Definition AcksOne := 1.
Definition AcksNone := 0.
Definition CompressionNone := 0.

Inductive ProducerPartitionStrategy := ProducerPartitionHash | ProducerPartitionRoundRobin | ProducerPartitionCRC32.

(** * The settings *)

Record ProducerConfig (U : Type) := mkProducerConfig {
  pf_Acks : Z;
  pf_Compression : Z;
  pf_CompressionLevel : Z;
  pf_Idempotent : bool;
  pf_TransactionalID : bytes;
  pf_BatchSize : Z;
  pf_Linger : Z;
  pf_PartitionStrategy : ProducerPartitionStrategy;
  pf_Partitioner : option U }.
Arguments mkProducerConfig {U}.
Arguments pf_Acks {U}.
Arguments pf_Compression {U}.
Arguments pf_CompressionLevel {U}.
Arguments pf_Idempotent {U}.
Arguments pf_TransactionalID {U}.
Arguments pf_BatchSize {U}.
Arguments pf_Linger {U}.
Arguments pf_PartitionStrategy {U}.
Arguments pf_Partitioner {U}.

Record GroupSettings := mkGroupSettings {
  gs_AutoCommit : bool;
  gs_ConsumeFromBeginning : bool;
  gs_OffsetResetDuration : Z;
  gs_SessionTimeout : Z;
  gs_RebalanceTimeout : Z;
  gs_HeartbeatInterval : Z;
  gs_MaxPollRecords : Z;
  gs_Assignor : PartitionAssignor;
  gs_NextGen : bool;
  gs_ReadCommitted : bool;
  gs_GroupInstanceID : bytes;
  gs_ShareAutoOffsetReset : bytes;
  gs_ShareAckMode : ShareAckMode }.

Record TransactionConfig := mkTransactionConfig {
  tf_Enabled : bool;
  tf_TransactionalID : bytes;
  tf_Timeout : Z;
  tf_ReadCommitted : bool }.

Record ConcurrencyConfig := mkConcurrency { nc_ProducerWorkers : Z; nc_ConsumerWorkers : Z; nc_ChannelBuffer : Z }.

Record ConnectionConfig := mkConnection {
  cx_DialTimeout : Z;
  cx_RequestTimeout : Z;
  cx_MetadataTTL : Z;
  cx_HostRemap : gmap bytes bytes;
  cx_BrokerAddressMapper : option (Z -> bytes -> Z -> bytes);
  cx_Limits : Limits;
  cx_AllowedBrokerHosts : list bytes }.

(** [Config] of the root package. *)
Record ClientConfig (W U : Type) := mkClientConfig {
  k_Brokers : list bytes;
  k_ClientID : bytes;
  k_ConsumerGroup : bytes;
  k_ShareGroup : bytes;
  k_Connection : ConnectionConfig;
  k_Security : Auth.Config W;
  k_Producer : ProducerConfig U;
  k_Consumer : GroupSettings;
  k_Transaction : TransactionConfig;
  k_Concurrency : ConcurrencyConfig;
  k_Retry : RetryConfig }.
Arguments mkClientConfig {W U}.
Arguments k_Brokers {W U}.
Arguments k_ClientID {W U}.
Arguments k_ConsumerGroup {W U}.
Arguments k_ShareGroup {W U}.
Arguments k_Connection {W U}.
Arguments k_Security {W U}.
Arguments k_Producer {W U}.
Arguments k_Consumer {W U}.
Arguments k_Transaction {W U}.
Arguments k_Concurrency {W U}.
Arguments k_Retry {W U}.

(** * Defaults *)

Section config.
Context {W U : Type} (NumCPU : Z).
Notation Cfg := (ClientConfig W U).

Definition defaultConnection : ConnectionConfig :=
  mkConnection (10 * Second) (30 * Second) (30 * Second) ∅ None (mkLimits 0 0 0 0) [].

Definition defaultProducerConfig : ProducerConfig U :=
  mkProducerConfig AcksAll CompressionNone 0 true [] 100 (5 * Millisecond) ProducerPartitionHash None.

Definition defaultConsumerConfig : GroupSettings :=
  mkGroupSettings false false 0 (45 * Second) 0 (3 * Second) 500 AssignorRange false false [] [] ShareAckExplicit.

Definition defaultConcurrency : ConcurrencyConfig :=
  let n := if NumCPU <? 2 then 2 else NumCPU in mkConcurrency n n 256.

Definition defaultRetry : RetryConfig := mkRetryConfig 10 (100 * Millisecond) (2 * Second).

Definition plaintext : Auth.Config W :=
  Auth.mkConfig SecurityPlaintext (mkTLSConfig false [] [] [] false []) (mkSASLConfig [] [] [] [] None (mkKerberos [] None)).

(** The security settings that the package builds; what a literal does not
    mention is the zero value. *)
Definition no_tls : TLSConfig := mkTLSConfig false [] [] [] false [].

Definition sasl_password (mech user pass : bytes) : SASLConfig W := mkSASLConfig mech user pass [] None (mkKerberos [] None).

Definition sasl_token (token : bytes) : SASLConfig W := mkSASLConfig SASLOAuth [] [] token None (mkKerberos [] None).

Definition SCRAMSecurity (user pass : bytes) (tls : TLSConfig) : Auth.Config W :=
  Auth.mkConfig SecuritySASLSSL tls (sasl_password SASLSCRAM512 user pass).

Definition PlainSecurity (user pass : bytes) (tls : TLSConfig) : Auth.Config W :=
  Auth.mkConfig SecuritySASLSSL tls (sasl_password SASLPlain user pass).

Definition SCRAMPlaintextSecurity (user pass mech : bytes) : Auth.Config W :=
  Auth.mkConfig SecuritySASLPlaintext no_tls (sasl_password mech user pass).

Definition TLSOnlySecurity (tls : TLSConfig) : Auth.Config W := Auth.mkConfig SecuritySSL tls (sasl_password [] [] []).

Definition OAuthBearerSecurity (token : bytes) (tls : TLSConfig) : Auth.Config W :=
  Auth.mkConfig SecuritySASLSSL tls (sasl_token token).

Definition OAuthBearerPlaintextSecurity (token : bytes) : Auth.Config W := Auth.mkConfig SecuritySASLPlaintext no_tls (sasl_token token).

Definition DefaultConfig (brokers : list bytes) : Cfg :=
  mkClientConfig brokers (str "gokafka") [] [] defaultConnection plaintext defaultProducerConfig defaultConsumerConfig
    (mkTransactionConfig false [] 0 false) defaultConcurrency defaultRetry.

(** * Validation *)

Definition config_transactionalID (c : Cfg) : bytes :=
  if bool_decide (pf_TransactionalID (k_Producer c) = []) then tf_TransactionalID (k_Transaction c)
  else pf_TransactionalID (k_Producer c).

Definition oauth_without_token (sec : Auth.Config W) : bool :=
  SASLEnabled sec && bool_decide (sl_Mechanism (sec_SASL sec) = SASLOAuth) &&
  bool_decide (sl_Token (sec_SASL sec) = []) && match sl_TokenProvider (sec_SASL sec) with None => true | Some _ => false end.

(** The error, if there is one. *)
Definition validate (c : Cfg) : option error :=
  let cs := k_Consumer c in
  if len (k_Brokers c) =? 0 then Some ErrNoBrokers
  else if tf_Enabled (k_Transaction c) && bool_decide (config_transactionalID c = []) then Some ErrNoTransactionalID
  else if pf_Idempotent (k_Producer c) && negb (pf_Acks (k_Producer c) =? AcksAll) then Some ErrInvalidProducerConfig
  else if oauth_without_token (k_Security c) then Some (FmtError "gokafka: OAUTHBEARER requires Token or TokenProvider" 0)
  else if (gs_SessionTimeout cs >? 0) && (gs_HeartbeatInterval cs >? 0) && (gs_HeartbeatInterval cs >=? gs_SessionTimeout cs)
    then Some (FmtError "gokafka: HeartbeatInterval must be less than SessionTimeout" 0)
  else if negb (bool_decide (k_ConsumerGroup c = [])) && negb (bool_decide (k_ShareGroup c = []))
    then Some (FmtError "gokafka: ConsumerGroup and ShareGroup are mutually exclusive" 0)
  else None.

(** * Options *)

Definition Option : Type := Cfg -> Cfg.

Definition on_groups (cg sg : bytes -> bytes) (c : Cfg) : Cfg :=
  mkClientConfig (k_Brokers c) (k_ClientID c) (cg (k_ConsumerGroup c)) (sg (k_ShareGroup c)) (k_Connection c) (k_Security c)
    (k_Producer c) (k_Consumer c) (k_Transaction c) (k_Concurrency c) (k_Retry c).
Definition on_connection (f : ConnectionConfig -> ConnectionConfig) (c : Cfg) : Cfg :=
  mkClientConfig (k_Brokers c) (k_ClientID c) (k_ConsumerGroup c) (k_ShareGroup c) (f (k_Connection c)) (k_Security c)
    (k_Producer c) (k_Consumer c) (k_Transaction c) (k_Concurrency c) (k_Retry c).
Definition on_producer (f : ProducerConfig U -> ProducerConfig U) (c : Cfg) : Cfg :=
  mkClientConfig (k_Brokers c) (k_ClientID c) (k_ConsumerGroup c) (k_ShareGroup c) (k_Connection c) (k_Security c)
    (f (k_Producer c)) (k_Consumer c) (k_Transaction c) (k_Concurrency c) (k_Retry c).
Definition on_consumer (f : GroupSettings -> GroupSettings) (c : Cfg) : Cfg :=
  mkClientConfig (k_Brokers c) (k_ClientID c) (k_ConsumerGroup c) (k_ShareGroup c) (k_Connection c) (k_Security c)
    (k_Producer c) (f (k_Consumer c)) (k_Transaction c) (k_Concurrency c) (k_Retry c).

Definition WithClientID (id : bytes) : Option := fun c =>
  mkClientConfig (k_Brokers c) id (k_ConsumerGroup c) (k_ShareGroup c) (k_Connection c) (k_Security c)
    (k_Producer c) (k_Consumer c) (k_Transaction c) (k_Concurrency c) (k_Retry c).
Definition WithShareGroup (group : bytes) : Option := on_groups id (fun _ => group).
Definition WithConsumerGroup (group : bytes) : Option := on_groups (fun _ => group) id.
Definition WithSecurity (sec : Auth.Config W) : Option := fun c =>
  mkClientConfig (k_Brokers c) (k_ClientID c) (k_ConsumerGroup c) (k_ShareGroup c) (k_Connection c) sec
    (k_Producer c) (k_Consumer c) (k_Transaction c) (k_Concurrency c) (k_Retry c).
Definition WithTransaction (ts : TransactionConfig) : Option := fun c =>
  mkClientConfig (k_Brokers c) (k_ClientID c) (k_ConsumerGroup c) (k_ShareGroup c) (k_Connection c) (k_Security c)
    (k_Producer c) (k_Consumer c) ts (k_Concurrency c) (k_Retry c).
Definition WithConcurrency (n : ConcurrencyConfig) : Option := fun c =>
  mkClientConfig (k_Brokers c) (k_ClientID c) (k_ConsumerGroup c) (k_ShareGroup c) (k_Connection c) (k_Security c)
    (k_Producer c) (k_Consumer c) (k_Transaction c) n (k_Retry c).
Definition WithRetry (r : RetryConfig) : Option := fun c =>
  mkClientConfig (k_Brokers c) (k_ClientID c) (k_ConsumerGroup c) (k_ShareGroup c) (k_Connection c) (k_Security c)
    (k_Producer c) (k_Consumer c) (k_Transaction c) (k_Concurrency c) r.
Definition WithConnection (conn : ConnectionConfig) : Option := on_connection (fun _ => conn).

(** The entries of [remap] win. *)
Definition WithBrokerHostRemap (remap : gmap bytes bytes) : Option := on_connection (fun x =>
  mkConnection (cx_DialTimeout x) (cx_RequestTimeout x) (cx_MetadataTTL x) (remap ∪ cx_HostRemap x)
    (cx_BrokerAddressMapper x) (cx_Limits x) (cx_AllowedBrokerHosts x)).

Definition WithProducerAcks (acks : Z) : Option := on_producer (fun p =>
  mkProducerConfig acks (pf_Compression p) (pf_CompressionLevel p) (pf_Idempotent p) (pf_TransactionalID p) (pf_BatchSize p)
    (pf_Linger p) (pf_PartitionStrategy p) (pf_Partitioner p)).
Definition WithProducerCompression (codec : Z) : Option := on_producer (fun p =>
  mkProducerConfig (pf_Acks p) codec (pf_CompressionLevel p) (pf_Idempotent p) (pf_TransactionalID p) (pf_BatchSize p)
    (pf_Linger p) (pf_PartitionStrategy p) (pf_Partitioner p)).
Definition WithProducerCompressionLevel (level : Z) : Option := on_producer (fun p =>
  mkProducerConfig (pf_Acks p) (pf_Compression p) level (pf_Idempotent p) (pf_TransactionalID p) (pf_BatchSize p)
    (pf_Linger p) (pf_PartitionStrategy p) (pf_Partitioner p)).
Definition WithPartitioner (u : U) : Option := on_producer (fun p =>
  mkProducerConfig (pf_Acks p) (pf_Compression p) (pf_CompressionLevel p) (pf_Idempotent p) (pf_TransactionalID p) (pf_BatchSize p)
    (pf_Linger p) (pf_PartitionStrategy p) (Some u)).

(** The conditions of the code, the first one included: [Acks] is also taken
    when it is 0. *)
Definition WithProducer (ps : ProducerConfig U) : Option := on_producer (fun p =>
  mkProducerConfig
    (if negb (pf_Acks ps =? 0) || (pf_Acks ps =? AcksNone) then pf_Acks ps else pf_Acks p)
    (if negb (pf_Compression ps =? 0) then pf_Compression ps else pf_Compression p)
    (if negb (pf_CompressionLevel ps =? 0) then pf_CompressionLevel ps else pf_CompressionLevel p)
    (if pf_Idempotent ps then true else pf_Idempotent p)
    (pf_TransactionalID p)
    (if pf_BatchSize ps >? 0 then pf_BatchSize ps else pf_BatchSize p)
    (if pf_Linger ps >? 0 then pf_Linger ps else pf_Linger p)
    (match pf_PartitionStrategy ps with ProducerPartitionHash => pf_PartitionStrategy p | s => s end)
    (pf_Partitioner p)).

Definition or_default (s d : bytes) : bytes := if bool_decide (s = []) then d else s.

Definition WithConsumer (cs : GroupSettings) : Option := on_consumer (fun c =>
  mkGroupSettings (gs_AutoCommit c) (gs_ConsumeFromBeginning c) (gs_OffsetResetDuration c)
    (if gs_SessionTimeout cs >? 0 then gs_SessionTimeout cs else gs_SessionTimeout c)
    (if gs_RebalanceTimeout cs >? 0 then gs_RebalanceTimeout cs else gs_RebalanceTimeout c)
    (if gs_HeartbeatInterval cs >? 0 then gs_HeartbeatInterval cs else gs_HeartbeatInterval c)
    (if gs_MaxPollRecords cs >? 0 then gs_MaxPollRecords cs else gs_MaxPollRecords c)
    (match gs_Assignor cs with AssignorRange => gs_Assignor c | a => a end)
    (gs_NextGen cs || gs_NextGen c)
    (gs_ReadCommitted cs || gs_ReadCommitted c)
    (or_default (gs_GroupInstanceID cs) (gs_GroupInstanceID c))
    (or_default (gs_ShareAutoOffsetReset cs) (gs_ShareAutoOffsetReset c))
    (gs_ShareAckMode c)).

Definition WithAutoCommit (enabled : bool) : Option := on_consumer (fun c =>
  mkGroupSettings enabled (gs_ConsumeFromBeginning c) (gs_OffsetResetDuration c) (gs_SessionTimeout c) (gs_RebalanceTimeout c)
    (gs_HeartbeatInterval c) (gs_MaxPollRecords c) (gs_Assignor c) (gs_NextGen c) (gs_ReadCommitted c) (gs_GroupInstanceID c)
    (gs_ShareAutoOffsetReset c) (gs_ShareAckMode c)).
Definition WithConsumeFromBeginning (enabled : bool) : Option := on_consumer (fun c =>
  mkGroupSettings (gs_AutoCommit c) enabled (gs_OffsetResetDuration c) (gs_SessionTimeout c) (gs_RebalanceTimeout c)
    (gs_HeartbeatInterval c) (gs_MaxPollRecords c) (gs_Assignor c) (gs_NextGen c) (gs_ReadCommitted c) (gs_GroupInstanceID c)
    (gs_ShareAutoOffsetReset c) (gs_ShareAckMode c)).
Definition WithConsumeSince (d : Z) : Option := on_consumer (fun c =>
  mkGroupSettings (gs_AutoCommit c) (gs_ConsumeFromBeginning c) d (gs_SessionTimeout c) (gs_RebalanceTimeout c)
    (gs_HeartbeatInterval c) (gs_MaxPollRecords c) (gs_Assignor c) (gs_NextGen c) (gs_ReadCommitted c) (gs_GroupInstanceID c)
    (gs_ShareAutoOffsetReset c) (gs_ShareAckMode c)).
Definition WithGroupProtocol (nextGen : bool) : Option := on_consumer (fun c =>
  mkGroupSettings (gs_AutoCommit c) (gs_ConsumeFromBeginning c) (gs_OffsetResetDuration c) (gs_SessionTimeout c) (gs_RebalanceTimeout c)
    (gs_HeartbeatInterval c) (gs_MaxPollRecords c) (gs_Assignor c) nextGen (gs_ReadCommitted c) (gs_GroupInstanceID c)
    (gs_ShareAutoOffsetReset c) (gs_ShareAckMode c)).
Definition WithGroupInstanceID (id : bytes) : Option := on_consumer (fun c =>
  mkGroupSettings (gs_AutoCommit c) (gs_ConsumeFromBeginning c) (gs_OffsetResetDuration c) (gs_SessionTimeout c) (gs_RebalanceTimeout c)
    (gs_HeartbeatInterval c) (gs_MaxPollRecords c) (gs_Assignor c) (gs_NextGen c) (gs_ReadCommitted c) id
    (gs_ShareAutoOffsetReset c) (gs_ShareAckMode c)).
Definition WithShareAutoOffsetReset (reset : bytes) : Option := on_consumer (fun c =>
  mkGroupSettings (gs_AutoCommit c) (gs_ConsumeFromBeginning c) (gs_OffsetResetDuration c) (gs_SessionTimeout c) (gs_RebalanceTimeout c)
    (gs_HeartbeatInterval c) (gs_MaxPollRecords c) (gs_Assignor c) (gs_NextGen c) (gs_ReadCommitted c) (gs_GroupInstanceID c)
    reset (gs_ShareAckMode c)).
Definition WithShareAcknowledgementMode (mode : ShareAckMode) : Option := on_consumer (fun c =>
  mkGroupSettings (gs_AutoCommit c) (gs_ConsumeFromBeginning c) (gs_OffsetResetDuration c) (gs_SessionTimeout c) (gs_RebalanceTimeout c)
    (gs_HeartbeatInterval c) (gs_MaxPollRecords c) (gs_Assignor c) (gs_NextGen c) (gs_ReadCommitted c) (gs_GroupInstanceID c)
    (gs_ShareAutoOffsetReset c) mode).

(** * Building a configuration *)

Definition fill_concurrency (c : Cfg) : Cfg :=
  if (nc_ProducerWorkers (k_Concurrency c) <=? 0) || (nc_ConsumerWorkers (k_Concurrency c) <=? 0)
  then WithConcurrency defaultConcurrency c else c.

Definition fill_retry (c : Cfg) : Cfg := if rc_MaxAttempts (k_Retry c) <=? 0 then WithRetry defaultRetry c else c.

(** The code returns the configuration together with the error. *)
Definition NewConfig (brokers : list bytes) (opts : list Option) : Cfg * option error :=
  let cfg := fill_retry (fill_concurrency (fold_left (fun c o => o c) opts (DefaultConfig brokers))) in
  (cfg, validate cfg).

(** * What the producer and the cluster read of it *)

Definition producer_view (c : Cfg) : Producer.Config :=
  let p := k_Producer c in
  Producer.mkConfig (pf_Acks p) (pf_Compression p) (pf_CompressionLevel p) (pf_Idempotent p) (pf_TransactionalID p)
    (tf_TransactionalID (k_Transaction c)) (tf_Timeout (k_Transaction c)) (k_Retry c).

Inductive BuiltPartitioner := Custom (u : U) | RoundRobinPartitioner | CRC32Partitioner | HashPartitioner.

Definition partitionerFromConfig (cfg : ProducerConfig U) : BuiltPartitioner :=
  match pf_Partitioner cfg with
  | Some u => Custom u
  | None =>
      match pf_PartitionStrategy cfg with
      | ProducerPartitionRoundRobin => RoundRobinPartitioner
      | ProducerPartitionCRC32 => CRC32Partitioner
      | ProducerPartitionHash => HashPartitioner
      end
  end.

Definition ResolveBrokerAddress (c : ConnectionConfig) (nodeID : Z) (host : bytes) (port : Z) : bytes :=
  let mapped := match cx_BrokerAddressMapper c with Some f => f nodeID host port | None => [] end in
  if negb (bool_decide (mapped = [])) then mapped
  else let key := host_port host port in
       match cx_HostRemap c !! key with Some m => m | None => key end.

Definition BrokerHostAllowed (c : ConnectionConfig) (host : bytes) : bool :=
  if len (cx_AllowedBrokerHosts c) =? 0 then true else
  existsb (fun allowed => bool_decide (to_lower (trim_space host) = to_lower (trim_space allowed))) (cx_AllowedBrokerHosts c).

(** The cluster's options, as [NewClient] fills them in. *)
Definition cluster_options (c : Cfg) (l : Limits) : Options :=
  let x := k_Connection c in
  mkOptions (cx_MetadataTTL x) (ApiVersions.MaxResponseBytes l) (cx_HostRemap x) (cx_BrokerAddressMapper x) (cx_AllowedBrokerHosts x).
End config.
Arguments Custom {U}.
Arguments RoundRobinPartitioner {U}.
Arguments CRC32Partitioner {U}.
Arguments HashPartitioner {U}.

(** * What a configuration guarantees *)

(** A configuration that [NewConfig] accepts. *)
Record sound_config {W U} (c : ClientConfig W U) : Prop := {
  sound_brokers : k_Brokers c <> [];
  sound_acks : pf_Idempotent (k_Producer c) = true -> pf_Acks (k_Producer c) = AcksAll;
  sound_txn : tf_Enabled (k_Transaction c) = true -> transactionalID (producer_view c) <> [];
  sound_heartbeat : 0 < gs_SessionTimeout (k_Consumer c) -> 0 < gs_HeartbeatInterval (k_Consumer c) ->
    gs_HeartbeatInterval (k_Consumer c) < gs_SessionTimeout (k_Consumer c);
  sound_groups : k_ConsumerGroup c = [] \/ k_ShareGroup c = [];
  sound_workers : 0 < nc_ProducerWorkers (k_Concurrency c) /\ 0 < nc_ConsumerWorkers (k_Concurrency c);
  sound_retry : 0 < rc_MaxAttempts (k_Retry c) }.

Section facts.
Context {W U : Type} (NumCPU : Z).
Notation Cfg := (ClientConfig W U).

Lemma fill_workers (c : Cfg) :
  0 < nc_ProducerWorkers (k_Concurrency (fill_concurrency NumCPU c)) /\ 0 < nc_ConsumerWorkers (k_Concurrency (fill_concurrency NumCPU c)).
Proof.
  unfold fill_concurrency. case_goal; zbool; [|lia]. unfold WithConcurrency, defaultConcurrency. cbn.
  destruct (Z.ltb_spec NumCPU 2); lia.
Qed.

Lemma fill_attempts (c : Cfg) : 0 < rc_MaxAttempts (k_Retry (fill_retry c)).
Proof. unfold fill_retry. case_goal; zbool; [|lia]. cbn. lia. Qed.

Lemma fill_retry_concurrency (c : Cfg) : k_Concurrency (fill_retry c) = k_Concurrency c.
Proof. unfold fill_retry. by case_goal. Qed.

(** Filling in workers and retries leaves what is validated. *)
Lemma validate_filled (c : Cfg) : validate (fill_retry (fill_concurrency NumCPU c)) = validate c.
Proof. unfold fill_retry, fill_concurrency. destruct (_ || _); destruct (_ <=? 0); reflexivity. Qed.

Lemma new_config_idempotent_acks brokers opts (cfg : Cfg) : NewConfig NumCPU brokers opts = (cfg, None) ->
  pf_Idempotent (k_Producer cfg) = true -> pf_Acks (k_Producer cfg) = AcksAll.
Proof.
  unfold NewConfig. intros [= <- Hv] Hi. unfold validate in Hv. destruct (len _ =? 0); [done|]. destruct (tf_Enabled _ && _); [done|].
  rewrite Hi in Hv. destruct (Z.eqb_spec (pf_Acks (k_Producer (fill_retry (fill_concurrency NumCPU (fold_left (fun c o => o c) opts (DefaultConfig NumCPU brokers)))))) AcksAll); done.
Qed.

(** A configuration that is accepted is sound.  Whatever options are applied
    in whatever order, when [NewConfig] reports no error there are brokers to
    dial, an idempotent producer asks for all acknowledgements, transactions
    have an id, heartbeats come before the session ends, at most one kind of
    group is set, and workers and retry attempts are positive. *)
Theorem new_config_sound brokers opts (cfg : Cfg) : NewConfig NumCPU brokers opts = (cfg, None) -> sound_config cfg.
Proof.
  unfold NewConfig. set (c0 := fold_left _ _ _). intros [= <- Hv]. set (c := fill_retry (fill_concurrency NumCPU c0)) in *.
  unfold validate in Hv. destruct (Z.eqb_spec (len (k_Brokers c)) 0) as [|Hb]; [done|].
  destruct (tf_Enabled (k_Transaction c) && _) eqn:Ht; [done|]. destruct (pf_Idempotent (k_Producer c) && _) eqn:Hp; [done|].
  destruct (oauth_without_token _); [done|]. destruct ((gs_SessionTimeout (k_Consumer c) >? 0) && _ && _) eqn:Hh; [done|].
  destruct (negb (bool_decide (k_ConsumerGroup c = [])) && _) eqn:Hg; [done|]. split.
  - intros E. by rewrite E in Hb.
  - intros Hi. rewrite Hi in Hp. cbn [andb] in Hp. apply negb_false_iff in Hp. by apply Z.eqb_eq.
  - intros He. rewrite He in Ht. cbn in Ht. by apply bool_decide_eq_false in Ht.
  - intros ? ?. zbool. lia.
  - case_bool_decide; [by left|]. case_bool_decide; [by right|done].
  - unfold c. rewrite fill_retry_concurrency. apply fill_workers.
  - apply fill_attempts.
Qed.

(** ** Security settings *)

(** The settings that take a TLS configuration use TLS whether or not that says
    it is enabled, so no password leaves in clear text; the two named after
    plain text do not use it.  Of these settings only an empty token is refused. *)
Lemma security_settings user pass mech token tls :
  (TLSEnabled (E := W) (PlainSecurity user pass tls) = true /\ TLSEnabled (E := W) (SCRAMSecurity user pass tls) = true /\
   TLSEnabled (E := W) (OAuthBearerSecurity token tls) = true /\ TLSEnabled (E := W) (TLSOnlySecurity tls) = true) /\
  (TLSEnabled (E := W) (SCRAMPlaintextSecurity user pass mech) = false /\ TLSEnabled (E := W) (OAuthBearerPlaintextSecurity token) = false) /\
  (SASLEnabled (E := W) (PlainSecurity user pass tls) = true /\ SASLEnabled (E := W) (TLSOnlySecurity tls) = false) /\
  (oauth_without_token (W := W) (OAuthBearerSecurity token tls) = true <-> token = []).
Proof. repeat split; try reflexivity; [|by intros ->]. intros Ht. destruct token; [done|discriminate Ht]. Qed.

(** ** Options and idempotence *)

(** The options of the package. *)
Inductive is_option : Option (W := W) (U := U) -> Prop :=
| O_ClientID id : is_option (WithClientID id)
| O_ShareGroup g : is_option (WithShareGroup g)
| O_ConsumerGroup g : is_option (WithConsumerGroup g)
| O_Security sec : is_option (WithSecurity sec)
| O_Transaction ts : is_option (WithTransaction ts)
| O_Concurrency n : is_option (WithConcurrency n)
| O_Retry r : is_option (WithRetry r)
| O_Connection x : is_option (WithConnection x)
| O_BrokerHostRemap m : is_option (WithBrokerHostRemap m)
| O_ProducerAcks a : is_option (WithProducerAcks a)
| O_ProducerCompression c : is_option (WithProducerCompression c)
| O_ProducerCompressionLevel l : is_option (WithProducerCompressionLevel l)
| O_Partitioner u : is_option (WithPartitioner u)
| O_Producer ps : is_option (WithProducer ps)
| O_Consumer cs : is_option (WithConsumer cs)
| O_AutoCommit b : is_option (WithAutoCommit b)
| O_ConsumeFromBeginning b : is_option (WithConsumeFromBeginning b)
| O_ConsumeSince d : is_option (WithConsumeSince d)
| O_GroupProtocol b : is_option (WithGroupProtocol b)
| O_GroupInstanceID id : is_option (WithGroupInstanceID id)
| O_ShareAutoOffsetReset r : is_option (WithShareAutoOffsetReset r)
| O_ShareAcknowledgementMode m : is_option (WithShareAcknowledgementMode m).

Lemma option_idempotent o (c : Cfg) : is_option o -> pf_Idempotent (k_Producer c) = true -> pf_Idempotent (k_Producer (o c)) = true.
Proof. intros [] Hi; cbn; try done. by case_match. Qed.

Lemma options_idempotent opts : Forall is_option opts -> forall c : Cfg, pf_Idempotent (k_Producer c) = true ->
  pf_Idempotent (k_Producer (fold_left (fun c o => o c) opts c)) = true.
Proof. induction 1 as [|o opts Ho _ IH]; intros c Hc; [done|]. cbn [fold_left]. by apply IH, option_idempotent. Qed.

Lemma filled_producer (c : Cfg) : k_Producer (fill_retry (fill_concurrency NumCPU c)) = k_Producer c.
Proof. unfold fill_retry, fill_concurrency. destruct (_ || _); destruct (_ <=? 0); reflexivity. Qed.

(** Every producer is idempotent.  The default is an idempotent
    producer and no option turns that off (a [ProducerConfig] with [Idempotent]
    false leaves it on), so whatever options [NewConfig] is given: what it
    accepts asks for all acknowledgements, and [WithProducerAcks] with any other
    value can only be refused. *)
Theorem options_force_acks_all brokers opts (cfg : Cfg) err : Forall is_option opts -> NewConfig NumCPU brokers opts = (cfg, err) ->
  pf_Idempotent (k_Producer cfg) = true /\ (err = None -> pf_Acks (k_Producer cfg) = AcksAll).
Proof.
  intros Ho Hn. assert (Hi : pf_Idempotent (k_Producer cfg) = true).
  { unfold NewConfig in Hn. injection Hn as <- _. rewrite filled_producer. by apply options_idempotent. }
  split; [done|]. intros ->. apply new_config_idempotent_acks in Hn; [done|exact Hi].
Qed.

(** Merging producer settings resets the acknowledgements.
    [WithProducer] takes [Acks] also when it is 0, which is what a
    [ProducerConfig] that does not mention it has: with the default
    configuration every such option is refused. *)
Theorem with_producer_resets_acks brokers (ps : ProducerConfig U) : brokers <> [] -> pf_Acks ps = 0 ->
  snd (NewConfig (W := W) NumCPU brokers [WithProducer ps]) = Some ErrInvalidProducerConfig.
Proof.
  intros Hb Ha. unfold NewConfig. cbn [snd]. rewrite validate_filled. cbn [fold_left]. unfold validate.
  change (k_Brokers (WithProducer ps (DefaultConfig NumCPU brokers))) with brokers.
  destruct (Z.eqb_spec (len brokers) 0) as [Hz|_]; [by apply len_zero in Hz|]. cbn. rewrite Ha. cbn. by destruct (pf_Idempotent ps).
Qed.

(** The two copies of the address rules agree: the exported methods of
    [ConnectionConfig] say what the cluster does. *)
Theorem connection_rules_agree (c : Cfg) l node host port :
  ResolveBrokerAddress (k_Connection c) node host port = resolveAddress (cluster_options c l) node host port /\
  BrokerHostAllowed (k_Connection c) host = brokerHostAllowed (cluster_options c l) host.
Proof.
  split; [|done]. unfold ResolveBrokerAddress, resolveAddress, remap, cluster_options. cbn [op_AddressMapper op_HostRemap].
  destruct (cx_BrokerAddressMapper (k_Connection c)) as [f|]; [case_bool_decide; [cbn|done]|cbn]; by destruct (cx_HostRemap _ !! _).
Qed.
End facts.

(** * Witnesses *)

Definition two_brokers : list bytes := [str "a:9092"; str "b:9092"].

Lemma new_config_sound_witness : sound_config (fst (NewConfig (W := unit) (U := unit) 1 two_brokers [WithConsumerGroup (str "g")])).
Proof. apply (new_config_sound 1 two_brokers [WithConsumerGroup (str "g")]). reflexivity. Defined.

Lemma options_force_acks_all_witness : pf_Idempotent (k_Producer (fst (NewConfig (W := unit) (U := unit) 1 two_brokers
  [WithProducer (mkProducerConfig AcksAll 0 0 false [] 0 0 ProducerPartitionHash None)]))) = true.
Proof.
  apply (options_force_acks_all (W := unit) (U := unit) 1 two_brokers
    [WithProducer (mkProducerConfig AcksAll 0 0 false [] 0 0 ProducerPartitionHash None)] _ None); [repeat constructor|reflexivity].
Defined.

Lemma with_producer_resets_acks_witness :
  snd (NewConfig (W := unit) (U := unit) 1 two_brokers [WithProducer (mkProducerConfig 0 0 0 true [] 500 0 ProducerPartitionHash None)]) =
    Some ErrInvalidProducerConfig.
Proof. by apply with_producer_resets_acks. Defined.
