(* ===== verification/Client.v ===== *)
(** The client: [client.go] and [api_versions.go], on the cluster of
    [ClusterPool].

    The process-wide limits are threaded through [NewClient].  The errors that
    [NewClient] wraps keep their kind.  Logging, spans and metrics have no
    effect on results.  The consumers, producers and administrative clients that
    a client hands out are the objects of the other files. *)

From Stdlib Require Import ZArith Lia.
From Stdlib Require Import Strings.Byte.
From stdpp Require Import base list gmap countable strings.
From S2P Require Import Prelude.
From S2P Require Import Wire.
From S2P Require Import Header.
From S2P Require Import Metadata.
From S2P Require Import Retry.
From S2P Require Import Producer.
From S2P Require Import GoMonad.
From S2P Require Import Consumer.
From S2P Require Import Auth.
From S2P Require Import ApiVersions.
From S2P Require Import Transport.
From S2P Require Import ClusterPool.
From S2P Require Import ClusterFacts.
From S2P Require Import ClusterDemo.
From S2P Require Import ClientConfig.

Open Scope Z_scope.
Open Scope go_scope.

Definition Version : bytes := str "0.26.27".

Record Client (W U : Type) := mkClient {
  c_cfg : ClientConfig W U;
  c_cluster : Pool W;
  c_closed : bool }.
Arguments mkClient {W U}.
Arguments c_cfg {W U}.
Arguments c_cluster {W U}.
Arguments c_closed {W U}.

Section client.
Context {W U : Type} `{NetEnv W} `{AuthEnv W} `{TimeEnv W} `{MapOrder}.
Notation Cfg := (ClientConfig W U).
Notation C := (M (Client W U)).

Definition pool_config (cfg : Cfg) (l : Limits) : PoolConfig :=
  mkPoolConfig (k_Brokers cfg) (k_ClientID cfg) (cluster_options cfg l).

(** Versions are negotiated if the broker can; the metadata is needed. *)
Definition connect (pc : PoolConfig) : M (Pool W) unit :=
  do! mtry (pool_NegotiateVersions pc Version) in
  let! r := mtry (pool_Refresh pc None) in
  match r with
  | inl _ => mret tt
  | inr err => do! Close in merr err
  end.

(** The limits, the surroundings and the client. *)
Definition NewClient (cfg : Cfg) (l : Limits) (w : W) : Limits * (W * res (Client W U)) :=
  match validate cfg with
  | Some err => (l, (w, Err err))
  | None =>
      let l := Apply (cx_Limits (k_Connection cfg)) l in
      let '(pool, r) := connect (pool_config cfg l) (New (k_Security cfg) w) in
      (l, (world_of pool, res_map (fun _ => mkClient cfg pool false) r))
  end.

Definition on_cluster {A} (m : M (Pool W) A) : C A := fun c =>
  let '(pool, r) := m (c_cluster c) in (mkClient (c_cfg c) pool (c_closed c), r).

Definition requireOpen : C unit := let! c := mget in if c_closed c then merr ErrClosed else mret tt.

(** [Client.Close] *)
Definition client_Close : C unit :=
  let! c := mget in
  if c_closed c then mret tt else
  do! on_cluster Close in
  mmod (fun c => mkClient (c_cfg c) (c_cluster c) true).

(** The limits are those in force when the client was made. *)
Context (l : Limits).

Definition Ping : C unit :=
  do! requireOpen in
  let! c := mget in
  on_cluster (pool_Refresh (pool_config (c_cfg c) l) None).

(** [Client.ApiVersions] *)
Definition client_ApiVersions : C (list ApiVersion) :=
  do! requireOpen in
  let! c := mget in
  let! body := mlift (EncodeApiVersionsRequest (k_ClientID (c_cfg c)) Version) in
  let! rb := on_cluster (RequestViaSeed (pool_config (c_cfg c) l) APIApiVersions VerApiVersions body) in
  let! vfc := mlift (DecodeApiVersionsResponse VerApiVersions rb) in
  let '(versions, _, code) := vfc in
  if negb (code =? 0) then merr (KafkaError code [] 0) else mret versions.

Definition supports (apiKey minVersion : Z) (versions : list ApiVersion) : bool :=
  existsb (fun v => (av_APIKey v =? apiKey) && (av_MaxVersion v >=? minVersion)) versions.

Definition SupportsAPI (apiKey minVersion : Z) : C bool :=
  let! versions := client_ApiVersions in mret (supports apiKey minVersion versions).

Definition BrokerFeature (name : bytes) (c : Client W U) : option Z := Feature name (c_cluster c).

Definition NegotiatedAPIVersion (apiKey : Z) (c : Client W U) : Z * bool :=
  if c_closed c then (0, false) else
  let v := negotiatedVersion (pl_versions (c_cluster c)) apiKey 0 in (v, v >? 0).

(** A copy of the negotiated versions; nil is the empty map. *)
Definition NegotiatedAPIVersions (c : Client W U) : gmap Z Z :=
  if c_closed c then ∅ else default ∅ (pl_versions (c_cluster c)).

(** * What a client guarantees *)

(** A client that [NewClient] returns is connected.  Its configuration is
    valid, its metadata was loaded, its connections respect the seeds and the
    list of allowed hosts, and it is open.  A configuration that is not valid
    fails with its error before anything is dialled. *)
Theorem new_client_connected cfg l0 w l' w' r : NewClient cfg l0 w = (l', (w', r)) ->
  (forall c, r = Ok c -> validate cfg = None /\ c_cfg c = cfg /\ c_closed c = false /\
     pool_inv (pool_config cfg l') (c_cluster c) /\ pl_refreshedAt (c_cluster c) = Some (te_now w')) /\
  (forall err, validate cfg = Some err -> r = Err err /\ w' = w /\ l' = l0).
Proof.
  unfold NewClient. destruct (validate cfg) as [err|]; [intros [= <- <- <-]; by split; [|intros ? [= ->]]|].
  set (l1 := Apply _ l0). set (pc := pool_config cfg l1). destruct (connect pc (New (k_Security cfg) w)) as [pool x] eqn:E.
  intros [= <- <- <-]. split; [|done]. intros c Hc. destruct x as [[]|e|]; [|done|done]. injection Hc as <-. cbn [c_cfg c_closed c_cluster].
  split_and!; [done..| |].
  - assert (Hk : Keeps (keeps_inv pc) (connect pc)).
    { pose proof (inv_NegotiateVersions pc). pose proof (inv_Refresh pc). pose proof (inv_Close pc). pose proof (keeps_inv_pre (W := W) pc). unfold connect. solve_keeps. }
    specialize (Hk (New (k_Security cfg) w)). rewrite E in Hk. apply Hk. apply inv_New.
  - unfold connect in E. apply mthen_inv in E as (s1 & neg & _ & E). apply mthen_inv in E as (s2 & rr & Hr & E).
    destruct rr as [[]|err].
    + apply mtry_inv in Hr. unfold pool_Refresh in Hr. apply mthen_inv in Hr as (s3 & [] & _ & Hr). minv E. by minv Hr.
    + by apply mthen_inv in E as (s3 & [] & _ & [=]).
Qed.

(** A closed client is silent.  After [Close] every method of the client fails
    with [ErrClosed] and changes nothing, and closing again does nothing. *)
Theorem closed_client_silent (c c' : Client W U) : client_Close c = (c', Ok tt) ->
  c_closed c' = true /\ Ping c' = (c', Err ErrClosed) /\ client_ApiVersions c' = (c', Err ErrClosed) /\
  (forall k v, SupportsAPI k v c' = (c', Err ErrClosed)) /\ client_Close c' = (c', Ok tt).
Proof.
  intros Hc. assert (Hcl : c_closed c' = true).
  { unfold client_Close in Hc. apply mthen_inv in Hc as (c1 & c2 & [= <- <-] & Hc). destruct (c_closed c) eqn:E; [by minv Hc; subst|].
    apply mthen_inv in Hc as (c1 & [] & _ & Hc). by injection Hc as <-. }
  split; [done|]. unfold Ping, SupportsAPI, client_ApiVersions, requireOpen, client_Close, mthen, mget. rewrite Hcl. done.
Qed.

(** A version 0 that was negotiated is reported as none. *)
Lemma negotiated_zero_hidden apiKey (c : Client W U) : c_closed c = false -> pl_versions (c_cluster c) = Some {[apiKey := 0]} ->
  NegotiatedAPIVersion apiKey c = (0, false) /\ NegotiatedAPIVersions c !! apiKey = Some 0.
Proof.
  intros Hc Hv. unfold NegotiatedAPIVersion, NegotiatedAPIVersions. rewrite Hc, Hv. unfold negotiatedVersion. cbn [default].
  unfold id. by rewrite !lookup_singleton_eq.
Qed.
End client.

(** * A client of the in-process broker *)

Definition demo_config : ClientConfig kfnet unit := fst (NewConfig 4 [str "127.0.0.1:9092"] []).

Definition demo_client : Client kfnet unit :=
  match NewClient demo_config initial_limits demo_net with
  | (_, (_, Ok c)) => c
  | (_, (w, _)) => mkClient demo_config (New plain_config w) true
  end.

(** It connects over real frames, knows the broker and what it supports. *)
Example demo_client_connected :
  map bm_NodeID (md_Brokers (cl_meta (pl_meta (c_cluster demo_client)))) = [0] /\
  snd (SupportsAPI initial_limits APIProduce 3 demo_client) = Ok true.
Proof. vm_compute. split; reflexivity. Qed.

Lemma new_client_connected_witness : pool_inv (pool_config demo_config initial_limits) (c_cluster demo_client).
Proof.
  destruct (NewClient demo_config initial_limits demo_net) as [l' [w' r]] eqn:E.
  destruct (new_client_connected demo_config initial_limits demo_net l' w' r E) as [Hok _].
  assert (Hl : l' = initial_limits) by (change l' with (fst (l', (w', r))); rewrite <- E; vm_compute; reflexivity). subst l'.
  unfold demo_client. rewrite E. assert (Hr : match r with Ok _ => true | _ => false end = true).
  { change r with (snd (snd (initial_limits, (w', r)))). rewrite <- E. vm_compute. reflexivity. }
  destruct r as [c| |]; [|done..]. by apply Hok.
Defined.

Lemma closed_client_silent_witness : Ping initial_limits (fst (client_Close demo_client)) = (fst (client_Close demo_client), Err ErrClosed).
Proof.
  destruct (client_Close demo_client) as [c' r] eqn:E. assert (Hr : match r with Ok _ => true | _ => false end = true).
  { change r with (snd (c', r)). rewrite <- E. vm_compute. reflexivity. }
  destruct r as [[]| |]; [|done..]. cbn [fst]. exact (proj1 (proj2 (closed_client_silent initial_limits demo_client c' E))).
Defined.
