(* ===== verification/Metrics.v ===== *)
(** The built-in metrics: [observe/metrics.go].

    The counters are atomic 64-bit integers; a method adds to each on its own,
    so the state after a set of calls does not depend on how they interleave
    ([metrics_interleave]).  A hook is user code; it is modelled by the calls it
    has received.  A histogram's value is the duration in nanoseconds whose
    seconds the code passes, and the mean latency of a snapshot the pair that it
    divides. *)

From Stdlib Require Import ZArith Lia.
From Stdlib Require Import Strings.Byte.
From stdpp Require Import base list gmap countable strings pretty.
From S2P Require Import Prelude.

Open Scope Z_scope.

Definition labels : Type := list (bytes * bytes).

Inductive hook_call :=
| IncCounter (name : bytes) (value : Z) (l : labels)
| RecordHistogram (name : bytes) (nanos : Z) (l : labels).

Definition labelProduce : labels := [(str "client", str "gokafka"); (str "operation", str "produce")].
Definition labelConsume : labels := [(str "client", str "gokafka"); (str "operation", str "consume")].

Record Counters := mkCounters {
  n_produced : Z;
  n_consumed : Z;
  n_produceErrors : Z;
  n_consumeErrors : Z;
  n_bytesProduced : Z;
  n_bytesConsumed : Z;
  n_requests : Z;
  n_requestErrors : Z;
  n_requestNanos : Z }.

Record Collector := mkCollector {
  mc_namespace : bytes;
  mc_enabled : bool;
  mc_counters : Counters;
  mc_hooks : list (list hook_call) }.

Definition NewCollector (namespace : bytes) (enabled : bool) : Collector :=
  mkCollector (if bool_decide (namespace = []) then str "gokafka" else namespace) enabled (mkCounters 0 0 0 0 0 0 0 0 0) [].

(** Every counter's [atomic.Uint64.Add], of zero for the ones a call leaves. *)
Definition add (d c : Counters) : Counters :=
  mkCounters (u64 (n_produced c + n_produced d)) (u64 (n_consumed c + n_consumed d)) (u64 (n_produceErrors c + n_produceErrors d))
    (u64 (n_consumeErrors c + n_consumeErrors d)) (u64 (n_bytesProduced c + n_bytesProduced d)) (u64 (n_bytesConsumed c + n_bytesConsumed d))
    (u64 (n_requests c + n_requests d)) (u64 (n_requestErrors c + n_requestErrors d)) (u64 (n_requestNanos c + n_requestNanos d)).

Definition RegisterHook (c : Collector) : Collector := mkCollector (mc_namespace c) (mc_enabled c) (mc_counters c) (mc_hooks c ++ [[]]).

Definition emit (calls : list hook_call) (c : Collector) : Collector :=
  mkCollector (mc_namespace c) (mc_enabled c) (mc_counters c) (map (fun h => h ++ calls) (mc_hooks c)).

Definition name (c : Collector) (metric : bytes) : bytes := mc_namespace c ++ str "_" ++ metric.

(** A call of one of the three methods; [failed] is [err != nil]. *)
Inductive event :=
| OnProduce (nBytes : Z) (failed : bool)
| OnConsume (nBytes : Z) (failed : bool)
| OnRequest (apiKey nanos : Z) (failed : bool).

Definition counted (e : event) : Counters :=
  match e with
  | OnProduce n false => mkCounters 1 0 0 0 (u64 n) 0 0 0 0
  | OnProduce _ true => mkCounters 0 0 1 0 0 0 0 0 0
  | OnConsume n false => mkCounters 0 1 0 0 0 (u64 n) 0 0 0
  | OnConsume _ true => mkCounters 0 0 0 1 0 0 0 0 0
  | OnRequest _ d failed => mkCounters 0 0 0 0 0 0 1 (if failed then 1 else 0) (u64 d)
  end.

Definition request_labels (apiKey : Z) (failed : bool) : labels :=
  [(str "client", str "gokafka"); (str "api_key", str (pretty apiKey)); (str "result", if failed then str "error" else str "success")].

Definition calls (c : Collector) (e : event) : list hook_call :=
  match e with
  | OnProduce n false =>
      [IncCounter (name c (str "produce_records_total")) 1 labelProduce; IncCounter (name c (str "produce_bytes_total")) n labelProduce]
  | OnProduce _ true => [IncCounter (name c (str "produce_errors_total")) 1 labelProduce]
  | OnConsume n false =>
      [IncCounter (name c (str "consume_records_total")) 1 labelConsume; IncCounter (name c (str "consume_bytes_total")) n labelConsume]
  | OnConsume _ true => [IncCounter (name c (str "consume_errors_total")) 1 labelConsume]
  | OnRequest k d failed =>
      [IncCounter (name c (str "broker_requests_total")) 1 (request_labels k failed);
       RecordHistogram (name c (str "broker_request_duration_seconds")) d (request_labels k failed)]
  end.

Definition count (d : Counters) (c : Collector) : Collector :=
  mkCollector (mc_namespace c) (mc_enabled c) (add d (mc_counters c)) (mc_hooks c).

Definition on_event (c : Collector) (e : event) : Collector :=
  if negb (mc_enabled c) then c else emit (calls c e) (count (counted e) c).

Record Snapshot := mkSnapshot { sn_Counters : Counters; sn_AvgRequest : option (Z * Z) }.

(** The mean is 0, here [None], without requests. *)
Definition TakeSnapshot (c : Collector) : Snapshot :=
  let k := mc_counters c in
  mkSnapshot k (if n_requests k >? 0 then Some (n_requestNanos k, n_requests k) else None).

(** * Counting *)

Lemma add_comm d1 d2 c : add d1 (add d2 c) = add d2 (add d1 c).
Proof. unfold add, u64. cbn. f_equal; rewrite !Zplus_mod_idemp_l; f_equal; lia. Qed.

Lemma count_comm d1 d2 c : count d1 (count d2 c) = count d2 (count d1 c).
Proof. unfold count. cbn. by rewrite add_comm. Qed.

Lemma counters_fold es : forall c, mc_enabled c = true ->
  mc_counters (fold_left on_event es c) = fold_left (fun k e => add (counted e) k) es (mc_counters c).
Proof.
  induction es as [|e es IH]; intros c Hc; [done|]. cbn [fold_left]. rewrite IH; unfold on_event; rewrite Hc; done.
Qed.

(** The snapshot does not depend on the order of the calls: threads may
    interleave in any way. *)
Theorem metrics_interleave es es' c : mc_enabled c = true -> es ≡ₚ es' ->
  TakeSnapshot (fold_left on_event es c) = TakeSnapshot (fold_left on_event es' c).
Proof.
  intros Hc Hp. unfold TakeSnapshot. rewrite !counters_fold by done. generalize (mc_counters c).
  assert (Hf : forall k, fold_left (fun k e => add (counted e) k) es k = fold_left (fun k e => add (counted e) k) es' k).
  { induction Hp as [|e l l' _ IH|e1 e2 l|l1 l2 l3 _ IH1 _ IH2]; intros k; [done|by apply IH| |by rewrite IH1, IH2].
    cbn [fold_left]. by rewrite add_comm. }
  intros k. by rewrite Hf.
Qed.

Lemma metrics_interleave_witness :
  let c := NewCollector [] true in
  TakeSnapshot (fold_left on_event [OnProduce 5 false; OnRequest 0 7 true] c) =
  TakeSnapshot (fold_left on_event [OnRequest 0 7 true; OnProduce 5 false] c).
Proof. apply metrics_interleave; [reflexivity|]. apply perm_swap. Defined.

(** Counts are exact until they wrap. *)
Definition successes (es : list event) : Z :=
  len (filter (fun e => match e with OnProduce _ false => true | _ => false end = true) es).

Lemma produced_exact es c : mc_enabled c = true -> 0 <= n_produced (mc_counters c) ->
  n_produced (mc_counters c) + successes es < 2 ^ 64 ->
  n_produced (mc_counters (fold_left on_event es c)) = n_produced (mc_counters c) + successes es.
Proof.
  intros Hc. rewrite counters_fold by done. clear Hc. generalize (mc_counters c). clear c. induction es as [|e es IH]; intros k Hk Hb.
  - unfold successes. cbn. rewrite len_nil. lia.
  - cbn [fold_left]. pose proof (len_nonneg (filter (fun e => match e with OnProduce _ false => true | _ => false end = true) es)) as Hn.
    assert (Hs : successes (e :: es) = n_produced (counted e) + successes es).
    { unfold successes. rewrite filter_cons. destruct e as [n []|n []|a d []]; cbn [counted n_produced]; case_decide; rewrite ?len_cons; try done; lia. }
    rewrite Hs in Hb |- *. fold (successes es) in Hn. assert (0 <= n_produced (counted e) <= 1) by (destruct e as [n []|n []|a d []]; cbn; lia).
    rewrite IH; cbn [add n_produced]; unfold u64; rewrite Z.mod_small by lia; lia.
Qed.

(** A disabled collector ignores every call. *)
Lemma disabled_ignores es c : mc_enabled c = false -> fold_left on_event es c = c.
Proof. intros Hc. induction es as [|e es IH]; [done|]. cbn [fold_left]. unfold on_event at 2. by rewrite Hc. Qed.
