(* ===== verification/Records.v ===== *)
(** Helpers on records: [record_headers.go] and [internal/produce/send.go].

    [SetHeader] changes a record in place; the functions here are on the
    record's headers, which is all they read and write.  [WithHeaders] builds a
    new slice.  [Send] has no caller in the repository; it is the producer's
    dispatch without results, partitions or retries. *)

From Stdlib Require Import ZArith Lia.
From Stdlib Require Import Strings.Byte.
From stdpp Require Import base list gmap countable strings.
From S2P Require Import Prelude.
From S2P Require Import Wire.
From S2P Require Import Header.
From S2P Require Import Compress.
From S2P Require Import RecordBatch.
From S2P Require Import ProduceCodec.
From S2P Require Import Metadata.
From S2P Require Import Producer.
From S2P Require Import ProducerFacts.
From S2P Require Import GoMonad.

Open Scope Z_scope.

(** * Headers *)

(** A key and its value. *)
Definition header : Type := bytes * bytes.

(** Replace the first header of that key, or append one. *)
Fixpoint SetHeader (key value : bytes) (hs : list header) : list header :=
  match hs with
  | [] => [(key, value)]
  | h :: rest => if bool_decide (fst h = key) then (key, value) :: rest else h :: SetHeader key value rest
  end.

Fixpoint GetHeader (key : bytes) (hs : list header) : option bytes :=
  match hs with
  | [] => None
  | h :: rest => if bool_decide (fst h = key) then Some (snd h) else GetHeader key rest
  end.

(** The map [m] and the list [order] of [WithHeaders]. *)
Definition note_header (mo : gmap bytes bytes * list bytes) (h : header) : gmap bytes bytes * list bytes :=
  let '(m, order) := mo in
  let order := match m !! fst h with None => order ++ [fst h] | Some _ => order end in
  (<[fst h := snd h]> m, order).

Definition WithHeaders (hs headers : list header) : list header :=
  let '(m, order) := fold_left note_header headers (fold_left note_header hs (∅, [])) in
  map (fun k => (k, default [] (m !! k))) order.

Definition HeaderRecord (topic value : bytes) (headers : list header) : record := mkRecord topic 0 [] value headers None.

(** * What they do *)

(** A header that was set is the one that is found, and the others stay. *)
Lemma get_set_header key value hs key' :
  GetHeader key' (SetHeader key value hs) = if bool_decide (key = key') then Some value else GetHeader key' hs.
Proof.
  induction hs as [|[k v] hs IH]; cbn [SetHeader GetHeader fst snd]; [done|].
  destruct (bool_decide_reflect (k = key)) as [->|Hk]; cbn [GetHeader fst snd]; [by destruct (bool_decide (key = key'))|].
  rewrite IH. destruct (bool_decide_reflect (k = key')) as [->|Hk']; [by rewrite bool_decide_false by done|done].
Qed.

(** The value of the last header of a key. *)
Fixpoint last_value (key : bytes) (hs : list header) : option bytes :=
  match hs with
  | [] => None
  | h :: rest => match last_value key rest with Some v => Some v | None => if bool_decide (fst h = key) then Some (snd h) else None end
  end.

Definition notes (mo : gmap bytes bytes * list bytes) : Prop :=
  NoDup (snd mo) /\ forall k, k ∈ snd mo <-> is_Some (fst mo !! k).

Lemma note_header_notes mo h : notes mo -> notes (note_header mo h).
Proof.
  destruct mo as [m order], h as [k v]. unfold notes, note_header. cbn [fst snd]. intros [Hnd Hin]. destruct (m !! k) as [v0|] eqn:Hk.
  - split; [done|]. intros k'. rewrite Hin, lookup_insert_is_Some'. split; [by right|]. intros [<-|H]; [by rewrite Hk|done].
  - split.
    + apply NoDup_app. split_and!; [done| |apply NoDup_singleton]. intros x Hx Hx'. apply list_elem_of_singleton in Hx' as ->.
      apply Hin in Hx as [? Hx]. congruence.
    + intros k'. rewrite elem_of_app, list_elem_of_singleton, Hin, lookup_insert_is_Some'. naive_solver.
Qed.

Lemma notes_fold hs : forall mo, notes mo -> notes (fold_left note_header hs mo).
Proof. induction hs as [|h hs IH]; intros mo Hmo; [done|]. cbn [fold_left]. by apply IH, note_header_notes. Qed.

Lemma fold_lookup hs : forall mo k, fst (fold_left note_header hs mo) !! k = match last_value k hs with Some v => Some v | None => fst mo !! k end.
Proof.
  induction hs as [|[k0 v0] hs IH]; intros [m order] k; [done|]. cbn [fold_left last_value fst snd]. rewrite IH.
  destruct (last_value k hs); [done|]. cbn [note_header fst snd]. case_bool_decide as Hk; [subst; by rewrite lookup_insert_eq|].
  by rewrite lookup_insert_ne.
Qed.

Lemma get_listed (m : gmap bytes bytes) order key :
  GetHeader key (map (fun k => (k, default [] (m !! k))) order) = if bool_decide (key ∈ order) then Some (default [] (m !! key)) else None.
Proof.
  induction order as [|k order IH]; cbn [map GetHeader fst snd]; [by rewrite bool_decide_false by apply not_elem_of_nil|].
  rewrite IH. destruct (bool_decide_reflect (k = key)) as [->|Hk]; [by rewrite bool_decide_true by apply list_elem_of_here|].
  apply (f_equal (fun b : bool => if b then _ else _)), bool_decide_ext. rewrite elem_of_cons. naive_solver.
Qed.

(** Adding headers.  The copy that [WithHeaders] makes has each key once, and
    under every key the last value that the record or the arguments give it. *)
Theorem with_headers_spec hs headers :
  NoDup (map fst (WithHeaders hs headers)) /\ forall key, GetHeader key (WithHeaders hs headers) = last_value key (hs ++ headers).
Proof.
  unfold WithHeaders. rewrite <- fold_left_app. destruct (fold_left note_header (hs ++ headers) (∅, [])) as [m order] eqn:E.
  assert (Hn : notes (m, order)).
  { rewrite <- E. apply notes_fold. split; [constructor|]. intros k. cbn. rewrite elem_of_nil, lookup_empty. split; [done|by intros []]. }
  destruct Hn as [Hnd Hin]. cbn [fst snd] in *. split.
  - rewrite map_map. cbn [fst]. by rewrite map_id.
  - intros key. rewrite get_listed. pose proof (fold_lookup (hs ++ headers) (∅, []) key) as Hl. rewrite E in Hl. cbn [fst] in Hl.
    rewrite lookup_empty in Hl. case_bool_decide as Hk.
    + apply Hin in Hk as [v Hv]. rewrite Hv in Hl |- *. by destruct (last_value key (hs ++ headers)).
    + destruct (last_value key (hs ++ headers)) as [v|]; [|done]. exfalso. apply Hk, Hin. rewrite Hl. eauto.
Qed.

(** * Dispatch *)

Definition ErrUnknownTopic : error := FmtError "protocol: unknown topic or partition" 0.

(** The first entry of the partition in the first topic of that name that has
    one; -1 when there is none. *)
Fixpoint leader_of_topics (topics : list TopicMeta) (topic : bytes) (part : Z) : Z :=
  match topics with
  | [] => -1
  | t :: rest =>
      if negb (bool_decide (tm_Name t = topic)) then leader_of_topics rest topic part else
      match List.find (fun p => pm_Partition p =? part) (tm_Partitions t) with
      | Some p => pm_Leader p
      | None => leader_of_topics rest topic part
      end
  end.

Definition leaderFor (meta : MetadataResponse) (topic : bytes) (part : Z) : Z := leader_of_topics (md_Topics meta) topic part.

(** The public records carry no headers here. *)
Record RecordInput := mkRecordInput { ri_Topic : bytes; ri_Partition : Z; ri_Key : bytes; ri_Value : bytes }.

Definition ToProtocol (now : Z) (records : list RecordInput) : list ProduceRecord :=
  map (fun r => mkProduceRecord (ri_Topic r) (ri_Partition r) (ri_Key r) (ri_Value r) [] (Some now)) records.

Section send.
Context `{Codecs} {W : Type} `{ClusterEnv W} `{MapOrder}.

Fixpoint group_by_leader (meta : MetadataResponse) (records : list ProduceRecord) (byBroker : gmap Z (list ProduceRecord))
    : res (gmap Z (list ProduceRecord)) :=
  match records with
  | [] => Ok byBroker
  | r :: rest =>
      let leader := leaderFor meta (pr_Topic r) (pr_Partition r) in
      if leader <? 0 then Err ErrUnknownTopic else group_by_leader meta rest (push byBroker leader r)
  end.

Fixpoint send_loop (settings : ProduceSettings) (nodes : list (Z * list ProduceRecord)) (all : list ProduceResult) : M W (list ProduceResult) :=
  match nodes with
  | [] => mret all
  | (node, batch) :: rest =>
      let! w := mget in
      let ver := negotiatedVersion (env_versions w) APIProduce VerProduce in
      let! body := mlift (EncodeProduceRequest (env_clock w) ver batch settings) in
      let! rb := env_Request node APIProduce ver body in
      let! results := mlift (DecodeProduceResponse ver rb) in
      send_loop settings rest (all ++ results)
  end.

Definition Send (records : list ProduceRecord) (settings : ProduceSettings) : M W (list ProduceResult) :=
  let! w := mget in
  let! byBroker := mlift (group_by_leader (cl_meta (env_cluster w)) records ∅) in
  send_loop settings (range byBroker) [].

(** Grouping is stable: a broker gets the records it leads, in order. *)
Lemma group_by_leader_spec meta records : forall m m', group_by_leader meta records m = Ok m' ->
  Forall (fun r => 0 <= leaderFor meta (pr_Topic r) (pr_Partition r)) records /\
  forall node, default [] (m' !! node) =
    default [] (m !! node) ++ filter (fun r => leaderFor meta (pr_Topic r) (pr_Partition r) = node) records.
Proof.
  induction records as [|r rest IH]; cbn [group_by_leader]; intros m m' Hg.
  - injection Hg as <-. split; [constructor|]. intros node. by rewrite app_nil_r.
  - destruct (Z.ltb_spec (leaderFor meta (pr_Topic r) (pr_Partition r)) 0); [done|]. apply IH in Hg as [Hf Hg].
    split; [by constructor|]. intros node. rewrite Hg, push_lookup, filter_cons, <- app_assoc. by case_decide.
Qed.

(** Dispatch is stable and complete.  A call of [Send] that succeeds has sent
    each broker exactly the records whose partition it leads, in the order of
    the call. *)
Theorem send_dispatches records settings (w w' : W) results : Send records settings w = (w', Ok results) ->
  exists byBroker, send_loop settings (range byBroker) [] w = (w', Ok results) /\
    forall node, default [] (byBroker !! node) =
      filter (fun r => leaderFor (cl_meta (env_cluster w)) (pr_Topic r) (pr_Partition r) = node) records.
Proof.
  unfold Send. intros Hs. apply mthen_inv in Hs as (w1 & cw & [= <- <-] & Hs). apply mthen_inv in Hs as (w1 & m & [= <- Hg] & Hs).
  apply group_by_leader_spec in Hg as [_ Hg]. exists m. split; [exact Hs|]. intros node. by rewrite Hg, lookup_empty.
Qed.

(** A record without a leader fails the call before anything is sent. *)
Lemma send_unknown_topic records settings (w : W) :
  Exists (fun r => leaderFor (cl_meta (env_cluster w)) (pr_Topic r) (pr_Partition r) < 0) records ->
  Send records settings w = (w, Err ErrUnknownTopic).
Proof.
  intros Hex. unfold Send, mthen, mget, mlift. generalize (∅ : gmap Z (list ProduceRecord)).
  induction Hex as [r rest Hr|r rest _ IH]; intros m; cbn [group_by_leader].
  - by rewrite (proj2 (Z.ltb_lt _ _) Hr).
  - destruct (leaderFor _ _ _ <? 0); [done|]. apply IH.
Qed.
End send.
